(* ===== verification/_CoqProject ===== *)
-Q . S2P
Prelude.v
Cursor.v
Words.v
Order.v
Keys.v
Lmdb.v
Merge.v
Note.v
Binmoji.v
NoteJson.v
Json.v
Builder.v
JsonNote.v
JsonPrint.v
Messages.v
Filter.v
FilterJson.v
Query.v
Queue.v
Monitor.v
Store.v
Search.v
Write.v
Metadata.v
Stats.v
Base64.v
Hmac.v
Nip44.v
Reader.v
Bech32.v
NostrBech32.v
Blocks.v
Content.v
Pieces.v
ContentBlocks.v
NoteBlocks.v
