(* ===== verification/Prelude.v ===== *)
(** * nostrdb: a verified model

    nostrdb is an embedded database for nostr notes.  A note is one block of
    memory with packed strings and tags; notes are stored in LMDB tables next to
    indexes whose keys LMDB sorts with comparators of nostrdb; queries and
    subscriptions are described by filters.  Events come in as JSON, go through
    queues to an ingester and a writer thread, and leave through queries, text
    search and subscription inboxes.

    ** Conventions

    Memory is a list of bytes, each a [Z]; an address is an index into it.  Code
    that works on memory runs in the monad [M] of this file: [None] is an access
    C does not define (or a failed assertion), [Some (a, s)] a value and the new
    state.  Integers are [Z] with the wrap-around of their width written out
    ([u8], [u16], [u32], [u64], [i8], [i32]).  Code failures are values (false,
    [None] inside a result), never the outer [None].  A loop that is not
    structural has fuel, and every property of it says that the fuel it is given
    is enough: the length of the region a cursor still has to read, the number
    of items of the table it walks.  Definitions are named after the C functions
    they translate.  Positions and counts that the code keeps in int and that no
    caller takes near 2^31 (those of the ring buffer, whose capacity is fixed when
    it is initialised, and those of the tokenizer, whose texts have int lengths) are
    not wrapped.

    ** Files

    - Prelude.v (this file): machine integers, the monad and its notations, memory
      ([load8], [loadn], [storen]) with the lemmas all files share, [zl] for goals
      on lengths.
    - Cursor.v (src/src/cursor.h): the bounds-checked cursor every parser and
      writer uses, the varint, UTF-8 and word scanners.  Classes [Safe] (never
      undefined, stays inside) and [Emits] (writes exactly these bytes or fails)
      compose over sequences.
    - Words.v: the words of a text, said of its characters; the word scanners of the
      cursor find exactly these.
    - Order.v: total orders ([TotalCmp]) and [memcmp].
    - Keys.v (the ndb_make_ / ndb_unpack_ key functions and comparators of
      src/src/nostrdb.c): the eight key layouts.  Class [LmdbKey]: an encoding,
      its comparator, and the proof that the comparator is a total order on
      decoded keys.
    - Lmdb.v (src/deps/lmdb/lmdb.h as documented; ndb_cursor_start to
      ndb_get_notekey_by_id): class [Lmdb] for reading, with a list instance;
      lookups by id and key.
    - Store.v (ndb_init_lmdb): class [LmdbPut] for writing, the configuration of
      the sixteen tables, and puts as sorted insertions.  A put fails on a key of no
      or more than 511 bytes, on a value LMDB cannot hold, and when there is no
      room ([puts_ok] is the assumption that there is).
    - Merge.v (ndb_index_scanner, ndb_index_merger): the heap of descending index
      scans.
    - Note.v (struct ndb_note and accessors; src/src/hex.h), NoteJson.v
      (ndb_note_json, ndb_event_commitment), Builder.v (struct ndb_builder).
    - Json.v (src/src/jsmn.h): the tokenizer, and [json], the values whose texts it
      accepts, with the tokens each value has.  JsonNote.v (ndb_json_parser_init to
      ndb_ws_event_from_json): notes and messages from tokens; JsonPrint.v: what
      is printed is parsed; Messages.v: client and relay messages, the callback.
    - Filter.v (struct ndb_filter): building, sorting, cloning, matching,
      comparing and printing filters.  FilterJson.v (ndb_filter_parse_json): filters
      from JSON.
    - Query.v (ndb_filter_plan to ndb_query): plans and result states.
    - Search.v (ndb_parse_words to ndb_text_search): the full-text index and search.
    - Write.v (ndb_write_note and the index writers, ndb_rebuild_note_indices): storing
      a note.  [stores] is the abstract state: the list of stored notes, and every
      index as exactly the entries the notes call for.
    - Binmoji.v (src/src/binmoji.c, the reaction functions of src/src/metadata.c):
      emoji sequences and short strings in 64 bits.
    - Metadata.v (src/src/metadata.c): the counters kept for a note, as a sorted
      table of entries; [note_meta] is the abstract table.
    - Stats.v (ndb_parse_reply, the ndb_increment_ functions, ndb_process_note_stats,
      ndb_verify_zap, the recounting functions): what storing a note does to the
      counters of the notes it refers to.
    - Queue.v (src/src/protected_queue.h, src/src/threadpool.h): the bounded queue
      between threads as one critical section per operation, and a step relation
      of producers and sleeping consumers.
    - Monitor.v (ndb_subscribe to ndb_wait_for_notes): subscriptions.
    - Base64.v (src/src/base64.c), Hmac.v (src/src/hmac_sha256.c, hkdf_sha256.c) and
      Nip44.v (src/src/nip44.c): encrypted messages, from text to text.
    - Reader.v: class [Reader], computations that only read and move forward.
    - Bech32.v (src/src/bolt11/bech32.c), NostrBech32.v (src/src/nostr_bech32.c): the
      codec, and the entities (note, npub, nevent, ...) written in it.
    - Blocks.v (src/src/block.c, invoice.c), Content.v (src/src/content_parser.c): the
      parser that cuts a note's content into text, hashtags, links, mentions and
      invoices, how the blocks are encoded, and the iterator.  Pieces.v: the grammar
      of the pieces, which the parsers find exactly; ContentBlocks.v: the blocks of a
      content are its pieces and the text between them.
    - NoteBlocks.v (ndb_write_new_blocks, ndb_get_blocks_by_key, ndb_stored_blocks_ok):
      the table of blocks, filled on writing and on demand, and the check of a row.

    JsonNote.v walks the tokens of Json.v and calls Builder.v, FilterJson.v calls
    Filter.v.  Content.v parses with the readers of Reader.v, decodes mentions with
    Bech32.v and writes what Blocks.v reads back; Nip44.v is over Base64.v and Hmac.v.
    NoteBlocks.v runs Content.v over the tables of Store.v; Search.v cuts its texts with
    Words.v.  Filter.v reads notes through Note.v; Query.v runs filters over Lmdb.v
    and Merge.v, Search.v over Query.v and Store.v; Monitor.v matches filters and
    pushes on the queues of Queue.v.  Stats.v updates the tables of Metadata.v in the
    transactions of Write.v.

    ** What the theorems show

    - Layouts and round trips: a note that is built reads back as what was put in
      ([Builder.build_read_roundtrip]); keys, varints, hex and JSON strings decode
      to what was encoded; notes and filters survive being printed and parsed
      ([JsonPrint.note_json_roundtrip], [FilterJson.filter_json_roundtrip]); an
      encrypted message decrypts to its text ([Nip44.nip44_roundtrip]); an entity
      written as bech32 parses to its fields ([NostrBech32.entity_roundtrip]); each
      comparator is the lexicographic order of the fields of its key.
    - Functional correctness: the commitment and the JSON of a note and of a
      filter are exactly the specified text or a failure; the tokens of a JSON text
      are those of its value, and the note or message read from it is the one its
      members describe; a filter matches exactly the notes its declarative reading
      admits; a lookup by id returns the newest entry; the blocks of a content
      are its pieces and the text between them, and are read back
      ([ContentBlocks.content_in_blocks], [Blocks.blocks_read_back]), also from the
      table ([NoteBlocks.written_blocks_trusted]); the full-text index has the words
      of a content whose keys LMDB takes ([Search.fulltext_indexes_words]).
    - Equivalence with references: the merger yields the sorted union of its
      groups; HKDF is the one of RFC 5869; a query by kinds returns the newest matching notes up to the limit.
    - Refinement and invariants: the ring buffer refines a bounded FIFO and under
      every interleaving conserves its elements; subscription ids stay unique and
      each inbox gets exactly the notes its filters admit.
    - Safety: the tokenizer stays inside any text and any token array, and ends in a
      forest of closed tokens; cursors and scanners stay inside their memory, and so
      does the content parser; a message is only decrypted under its own code.
    - Termination and liveness: scans and searches end within their fuel;
      consumers of a queue do not sleep while it holds elements.
    - Deviations: theorems that exhibit what the code does where it departs from
      its intent (integer truncations, duplicates, a search that never returns, a
      waiter that is never woken, an index emptied by the rebuild of another, an
      empty list of ids that fails an assertion).

    ** Not modelled

    Vendored code (LMDB, libsodium, secp256k1, flatcc, the bolt11 decoder, ccan) is
    an argument or a class with its documented laws: SHA-256, ChaCha20 and
    signatures are functions given to their callers, LMDB is [Lmdb] and [LmdbPut],
    the decoder gives invoices whose fields have their width.  Allocation is taken
    to succeed.  Threads are steps of a relation in Queue.v; their creation,
    joining and the pthread wrappers are not modelled.  Opening the environment,
    the one-off migrations, the command line tool, flatbuffer profiles and
    giftwraps are not modelled: they are calls of such code. *)

From stdpp Require Export base list numbers.
From Stdlib Require Export ZArith Lia.
Open Scope Z_scope.

Declare Scope ndb_scope.
Delimit Scope ndb_scope with ndb.

(** ** Machine integers *)

Definition u8 (z : Z) : Z := z mod 2 ^ 8.
Definition u16 (z : Z) : Z := z mod 2 ^ 16.
Definition u32 (z : Z) : Z := z mod 2 ^ 32.
Definition u64 (z : Z) : Z := z mod 2 ^ 64.
Definition i8 (z : Z) : Z := (z + 2 ^ 7) mod 2 ^ 8 - 2 ^ 7.
Definition i32 (z : Z) : Z := (z + 2 ^ 31) mod 2 ^ 32 - 2 ^ 31.

Definition is_byte (b : Z) : Prop := 0 <= b < 256.
Definition bytes_ok (l : list Z) : Prop := Forall is_byte l.
Definition is_u16 (z : Z) : Prop := 0 <= z < 2 ^ 16.
Definition is_u32 (z : Z) : Prop := 0 <= z < 2 ^ 32.
Definition is_u64 (z : Z) : Prop := 0 <= z < 2 ^ 64.

(** Length of a list as an integer. *)
Definition zlen {A} (l : list A) : Z := Z.of_nat (length l).

(** ** The execution monad

    A computation over a state [S] either performs an access the C abstract
    machine does not define (an out-of-bounds load or store), [None], or
    returns a value and the new state. *)

Definition M (S A : Type) : Type := S -> option (A * S).

Definition ret {S A} (a : A) : M S A := fun s => Some (a, s).
Definition bind {S A B} (c : M S A) (k : A -> M S B) : M S B :=
  fun s => match c s with None => None | Some (a, s') => k a s' end.
Definition get {S} : M S S := fun s => Some (s, s).
Definition put {S} (s : S) : M S unit := fun _ => Some (tt, s).
Definition ub {S A} : M S A := fun _ => None.
Definition lift {S A} (o : option A) : M S A :=
  fun s => match o with None => None | Some a => Some (a, s) end.

Notation "'let*' x := c 'in' k" := (bind c (fun x => k))
  (at level 10, x name, c at level 200, k at level 200,
   format "'[v' 'let*'  x  :=  c  'in' '/' k ']'") : ndb_scope.
Notation "'let*' ' p := c 'in' k" := (bind c (fun x => match x with p => k end))
  (at level 10, p strict pattern, c at level 200, k at level 200,
   format "'[v' 'let*'  ' p  :=  c  'in' '/' k ']'") : ndb_scope.
Notation "'do*' c1 'in' k" := (bind c1 (fun _ => k))
  (at level 10, c1 at level 200, k at level 200,
   format "'[v' 'do*'  c1  'in' '/' k ']'") : ndb_scope.

(** C's short-circuiting [&&] on calls that return a success flag. *)
Definition andM {S} (c1 c2 : M S bool) : M S bool :=
  bind c1 (fun b => if b then c2 else ret false).
Notation "c1 &&* c2" := (andM c1 c2) : ndb_scope.

Open Scope ndb_scope.

(** ** Byte memory *)

Abbreviation mem := (list Z) (only parsing).

Definition load8 (m : mem) (a : Z) : option Z :=
  if 0 <=? a then m !! Z.to_nat a else None.

Definition loadn (m : mem) (a n : Z) : option (list Z) :=
  if (0 <=? a) && (0 <=? n) && (a + n <=? zlen m)
  then Some (take (Z.to_nat n) (drop (Z.to_nat a) m)) else None.

Definition storen (m : mem) (a : Z) (bs : list Z) : option mem :=
  if (0 <=? a) && (a + zlen bs <=? zlen m)
  then Some (take (Z.to_nat a) m ++ bs ++ drop (Z.to_nat a + length bs) m)
  else None.

(** Little-endian integers, the only byte order the code supports. *)
Fixpoint le_bytes (n : nat) (v : Z) : list Z :=
  match n with
  | O => []
  | S n => v mod 256 :: le_bytes n (v / 256)
  end.

Fixpoint le_int (bs : list Z) : Z :=
  match bs with
  | [] => 0
  | b :: bs => b + 256 * le_int bs
  end.

(** ** Length and slice lemmas *)

Lemma zlen_nil {A} : zlen (@nil A) = 0.
Proof. reflexivity. Qed.

Lemma zlen_cons {A} (x : A) l : zlen (x :: l) = 1 + zlen l.
Proof. unfold zlen. simpl. lia. Qed.

Lemma zlen_app {A} (l1 l2 : list A) : zlen (l1 ++ l2) = zlen l1 + zlen l2.
Proof. unfold zlen. rewrite length_app. lia. Qed.

Lemma zlen_nonneg {A} (l : list A) : 0 <= zlen l.
Proof. unfold zlen. lia. Qed.

Lemma zlen_take {A} n (l : list A) : zlen (take n l) = Z.min (Z.of_nat n) (zlen l).
Proof. unfold zlen. rewrite length_take. lia. Qed.

Lemma zlen_drop {A} n (l : list A) : zlen (drop n l) = Z.max 0 (zlen l - Z.of_nat n).
Proof. unfold zlen. rewrite length_drop. lia. Qed.

Lemma zlen_replicate {A} n (x : A) : zlen (replicate n x) = Z.of_nat n.
Proof. unfold zlen. rewrite length_replicate. lia. Qed.

Lemma to_nat_zlen {A} (l : list A) : Z.to_nat (zlen l) = length l.
Proof. unfold zlen. lia. Qed.

Create Rewrite HintDb zlen.
#[export] Hint Rewrite @zlen_nil @zlen_cons @zlen_app @zlen_take @zlen_drop
  @zlen_replicate @to_nat_zlen : zlen.

(** [zl] decides linear goals that mention list lengths. *)
Ltac zl :=
  autorewrite with zlen in *;
  repeat match goal with
  | |- context [zlen ?l] =>
      lazymatch goal with
      | _ : 0 <= zlen l |- _ => fail
      | _ => pose proof (zlen_nonneg l)
      end
  | _ : context [zlen ?l] |- _ =>
      lazymatch goal with
      | _ : 0 <= zlen l |- _ => fail
      | _ => pose proof (zlen_nonneg l)
      end
  end; try lia.

(** Split a hypothesis on the first boolean test or match it is stuck on. *)
Ltac inv_M H :=
  repeat match type of H with
  | None = Some _ => discriminate H
  | Some _ = Some _ => injection H as H
  | (match ?x with _ => _ end) = Some _ => let E := fresh "E" in destruct x eqn:E
  end.

(** ** Memory lemmas *)

Lemma load8_lookup m a : 0 <= a -> load8 m a = m !! Z.to_nat a.
Proof. intros H. unfold load8. destruct (Z.leb_spec 0 a); [done | lia]. Qed.

Lemma load8_is_Some m a : is_Some (load8 m a) <-> 0 <= a < zlen m.
Proof.
  unfold load8, zlen. destruct (Z.leb_spec 0 a).
  - rewrite lookup_lt_is_Some. lia.
  - split; [by intros [? ?] | lia].
Qed.

Lemma load8_Some_range m a b : load8 m a = Some b -> 0 <= a < zlen m.
Proof. intros H. apply load8_is_Some. eauto. Qed.

Lemma loadn_Some m a n l :
  loadn m a n = Some l <->
  0 <= a /\ 0 <= n /\ a + n <= zlen m /\ l = take (Z.to_nat n) (drop (Z.to_nat a) m).
Proof.
  unfold loadn.
  destruct (Z.leb_spec 0 a), (Z.leb_spec 0 n), (Z.leb_spec (a + n) (zlen m)); simpl;
    (split; [intros [=]; subst; auto with lia | intros (?&?&?&?); try lia; subst; auto]).
Qed.

Lemma loadn_in_range m a n :
  0 <= a -> 0 <= n -> a + n <= zlen m ->
  loadn m a n = Some (take (Z.to_nat n) (drop (Z.to_nat a) m)).
Proof. intros. apply loadn_Some. auto. Qed.

Lemma loadn_length m a n l : loadn m a n = Some l -> zlen l = n.
Proof. intros (?&?&?&->)%loadn_Some. zl. Qed.

(** The bytes of a range, one at a time. *)
Lemma loadn_load8 m a n l i :
  loadn m a n = Some l -> 0 <= i < n -> load8 m (a + i) = l !! Z.to_nat i.
Proof.
  intros (?&?&?&->)%loadn_Some Hi.
  rewrite load8_lookup by lia.
  rewrite lookup_take_lt by lia. rewrite lookup_drop. f_equal. lia.
Qed.

(** A range is determined by its bytes. *)
Lemma loadn_ext m a n l :
  0 <= a -> a + n <= zlen m -> zlen l = n ->
  (forall i, 0 <= i < n -> load8 m (a + i) = l !! Z.to_nat i) -> loadn m a n = Some l.
Proof.
  intros Ha Hn Hl Hi. assert (0 <= n) by zl.
  rewrite loadn_in_range by lia. f_equal.
  apply list_eq. intros i.
  destruct (decide (Z.of_nat i < n)).
  - rewrite lookup_take_lt by lia. rewrite lookup_drop.
    specialize (Hi (Z.of_nat i)). rewrite load8_lookup in Hi by lia.
    rewrite Nat2Z.id in Hi. rewrite <- Hi by lia. f_equal. lia.
  - rewrite lookup_take_ge by lia. symmetry. apply lookup_ge_None.
    unfold zlen in *. lia.
Qed.

Lemma loadn_sub m a n l i k :
  loadn m a n = Some l -> 0 <= i -> 0 <= k -> i + k <= n ->
  loadn m (a + i) k = Some (take (Z.to_nat k) (drop (Z.to_nat i) l)).
Proof.
  intros H ???. pose proof H as (?&?&?&_)%loadn_Some.
  pose proof (loadn_length _ _ _ _ H).
  apply loadn_ext; [lia | lia | zl |].
  intros j Hj. rewrite lookup_take_lt by lia. rewrite lookup_drop.
  rewrite <- Z.add_assoc. rewrite (loadn_load8 m a n l) by (done || lia).
  f_equal. lia.
Qed.

Lemma loadn_app m a l1 l2 n1 n2 :
  loadn m a n1 = Some l1 -> loadn m (a + n1) n2 = Some l2 ->
  loadn m a (n1 + n2) = Some (l1 ++ l2).
Proof.
  intros H1 H2. pose proof (loadn_length _ _ _ _ H1). pose proof (loadn_length _ _ _ _ H2).
  pose proof H1 as (?&?&?&_)%loadn_Some. pose proof H2 as (?&?&?&_)%loadn_Some.
  apply loadn_ext; [lia | lia | zl |].
  intros i Hi. destruct (decide (i < n1)).
  - rewrite (loadn_load8 _ _ _ _ _ H1) by lia. rewrite lookup_app_l; [done |].
    unfold zlen in *. lia.
  - replace (a + i) with (a + n1 + (i - n1)) by lia.
    rewrite (loadn_load8 _ _ _ _ _ H2) by lia. rewrite lookup_app_r by (unfold zlen in *; lia).
    f_equal. unfold zlen in *. lia.
Qed.

Lemma loadn_app_inv m a l1 l2 :
  loadn m a (zlen (l1 ++ l2)) = Some (l1 ++ l2) ->
  loadn m a (zlen l1) = Some l1 /\ loadn m (a + zlen l1) (zlen l2) = Some l2.
Proof.
  intros H. rewrite zlen_app in H. split.
  - rewrite <- (Z.add_0_r a). rewrite (loadn_sub _ _ _ _ 0 (zlen l1) H) by zl.
    rewrite to_nat_zlen. change (Z.to_nat 0) with 0%nat. by rewrite drop_0, take_app_length.
  - rewrite (loadn_sub _ _ _ _ (zlen l1) (zlen l2) H) by zl.
    rewrite !to_nat_zlen, drop_app_length. by rewrite take_ge.
Qed.

Lemma storen_Some m a bs m' :
  storen m a bs = Some m' <->
  0 <= a /\ a + zlen bs <= zlen m /\
  m' = take (Z.to_nat a) m ++ bs ++ drop (Z.to_nat a + length bs) m.
Proof.
  unfold storen.
  destruct (Z.leb_spec 0 a), (Z.leb_spec (a + zlen bs) (zlen m)); simpl;
    (split; [intros [=]; subst; auto with lia | intros (?&?&?); try lia; subst; auto]).
Qed.

Lemma storen_length m a bs m' : storen m a bs = Some m' -> zlen m' = zlen m.
Proof. intros (?&?&->)%storen_Some. zl. unfold zlen in *. lia. Qed.

Lemma storen_range m a bs m' :
  storen m a bs = Some m' -> 0 <= a /\ a + zlen bs <= zlen m.
Proof. intros (?&?&_)%storen_Some. lia. Qed.

Lemma storen_in_range m a bs :
  0 <= a -> a + zlen bs <= zlen m -> exists m', storen m a bs = Some m'.
Proof. intros. eexists. apply storen_Some. auto. Qed.

Lemma load8_storen m a bs m' x :
  storen m a bs = Some m' ->
  load8 m' x = if (a <=? x) && (x <? a + zlen bs) then bs !! Z.to_nat (x - a) else load8 m x.
Proof.
  intros (?&?&->)%storen_Some. unfold load8, zlen in *.
  assert (length (take (Z.to_nat a) m) = Z.to_nat a) by (rewrite length_take; lia).
  destruct (Z.leb_spec 0 x), (Z.leb_spec a x), (Z.ltb_spec x (a + Z.of_nat (length bs)));
    simpl; try lia; try done.
  - rewrite lookup_app_r by lia. rewrite lookup_app_l by lia. f_equal. lia.
  - rewrite lookup_app_r by lia. rewrite lookup_app_r by lia. rewrite lookup_drop.
    f_equal. lia.
  - rewrite lookup_app_l by lia. rewrite lookup_take_lt by lia. done.
Qed.

Lemma loadn_storen_same m a bs m' :
  storen m a bs = Some m' -> loadn m' a (zlen bs) = Some bs.
Proof.
  intros H. pose proof (storen_length _ _ _ _ H). pose proof (storen_range _ _ _ _ H).
  apply loadn_ext; try lia.
  intros i Hi. rewrite (load8_storen _ _ _ _ _ H).
  destruct (Z.leb_spec a (a + i)), (Z.ltb_spec (a + i) (a + zlen bs)); simpl; try lia.
  f_equal. lia.
Qed.

Lemma loadn_storen_other m a bs m' b n :
  storen m a bs = Some m' -> b + n <= a \/ a + zlen bs <= b ->
  loadn m' b n = loadn m b n.
Proof.
  intros H Hd. pose proof (storen_length _ _ _ _ H).
  destruct (loadn m b n) as [l |] eqn:E.
  - pose proof (loadn_length _ _ _ _ E). pose proof E as (?&?&?&_)%loadn_Some.
    apply loadn_ext; try lia. intros i Hi.
    rewrite (load8_storen _ _ _ _ _ H).
    destruct (Z.leb_spec a (b + i)), (Z.ltb_spec (b + i) (a + zlen bs)); simpl; try lia;
      by apply (loadn_load8 m b n).
  - unfold loadn in *. by rewrite H0; destruct (_ && _).
Qed.

(** ** Little-endian codec *)

Lemma length_le_bytes n v : length (le_bytes n v) = n.
Proof. revert v. induction n; simpl; auto. Qed.

Lemma zlen_le_bytes n v : zlen (le_bytes n v) = Z.of_nat n.
Proof. unfold zlen. by rewrite length_le_bytes. Qed.
#[export] Hint Rewrite zlen_le_bytes : zlen.

Lemma le_bytes_ok n v : bytes_ok (le_bytes n v).
Proof.
  revert v. induction n; intros v; simpl; constructor; [| apply IHn].
  unfold is_byte. apply Z.mod_pos_bound. lia.
Qed.

Lemma le_int_le_bytes n v : le_int (le_bytes n v) = v mod 256 ^ Z.of_nat n.
Proof.
  revert v. induction n; intros v.
  - simpl. by rewrite Z.mod_1_r.
  - simpl le_bytes. simpl le_int. rewrite IHn. rewrite Nat2Z.inj_succ, Z.pow_succ_r by lia.
    rewrite Z.rem_mul_r by lia. done.
Qed.

Lemma le_int_le_bytes_small n v :
  0 <= v < 256 ^ Z.of_nat n -> le_int (le_bytes n v) = v.
Proof. intros. rewrite le_int_le_bytes. by apply Z.mod_small. Qed.

Lemma le_int_range bs : bytes_ok bs -> 0 <= le_int bs < 256 ^ zlen bs.
Proof.
  induction 1 as [| b bs Hb _ IH]; [simpl; zl |].
  simpl. rewrite zlen_cons, Z.add_comm, Z.pow_add_r by zl. unfold is_byte in *. nia.
Qed.

Lemma le_bytes_le_int bs : bytes_ok bs -> le_bytes (length bs) (le_int bs) = bs.
Proof.
  induction 1 as [| b bs Hb _ IH]; [done |]. unfold is_byte in Hb.
  simpl. f_equal.
  - rewrite Z.mul_comm, Z.mod_add by lia. by apply Z.mod_small.
  - rewrite Z.mul_comm, Z.div_add by lia. rewrite Z.div_small by lia. simpl. done.
Qed.

#[global] Arguments le_bytes : simpl never.
#[global] Arguments le_int : simpl never.

(** ** Facts checked by enumeration *)

Lemma Zrange_forallb (n : nat) (f : Z -> bool) :
  forallb (fun i => f (Z.of_nat i)) (seq 0 n) = true ->
  forall x, 0 <= x < Z.of_nat n -> f x = true.
Proof.
  rewrite forallb_forall. intros H x Hx.
  specialize (H (Z.to_nat x)). rewrite Z2Nat.id in H by lia.
  apply H. apply in_seq. lia.
Qed.

Lemma bytes_ok_dec l : forallb (fun b => (0 <=? b) && (b <? 256)) l = true -> bytes_ok l.
Proof.
  rewrite forallb_forall. intros H. unfold bytes_ok. apply List.Forall_forall. intros x Hx.
  specialize (H x Hx). apply andb_true_iff in H as [??]. unfold is_byte. lia.
Qed.

(** ** More memory lemmas *)

Lemma mem_ext (m1 m2 : mem) :
  zlen m1 = zlen m2 -> (forall x, 0 <= x < zlen m1 -> load8 m1 x = load8 m2 x) -> m1 = m2.
Proof.
  intros Hl H. apply list_eq. intros i.
  destruct (decide (Z.of_nat i < zlen m1)).
  - specialize (H (Z.of_nat i)). rewrite !load8_lookup, !Nat2Z.id in H by lia. apply H. lia.
  - rewrite !lookup_ge_None_2; unfold zlen in *; lia || done.
Qed.

Lemma storen_app m a d1 d2 m1 m2 :
  storen m a d1 = Some m1 -> storen m1 (a + zlen d1) d2 = Some m2 ->
  storen m a (d1 ++ d2) = Some m2.
Proof.
  intros H1 H2. pose proof (storen_length _ _ _ _ H1). pose proof (storen_length _ _ _ _ H2).
  pose proof (storen_range _ _ _ _ H1). pose proof (storen_range _ _ _ _ H2).
  destruct (storen_in_range m a (d1 ++ d2)) as [m3 E3]; [lia | zl |].
  rewrite E3. f_equal. pose proof (storen_length _ _ _ _ E3).
  apply mem_ext; [lia |]. intros x Hx.
  rewrite (load8_storen _ _ _ _ _ E3), (load8_storen _ _ _ _ _ H2), (load8_storen _ _ _ _ _ H1).
  rewrite zlen_app.
  destruct (Z.leb_spec a x), (Z.ltb_spec x (a + (zlen d1 + zlen d2))),
    (Z.leb_spec (a + zlen d1) x), (Z.ltb_spec x (a + zlen d1 + zlen d2)),
    (Z.ltb_spec x (a + zlen d1)); simpl; zl; try done;
    unfold zlen in *.
  - rewrite lookup_app_r by lia. f_equal. lia.
  - rewrite lookup_app_l by lia. done.
Qed.

Lemma storen_nil m a : 0 <= a <= zlen m -> storen m a [] = Some m.
Proof.
  intros. apply storen_Some. split; [lia |]. split; [zl |].
  simpl. by rewrite Nat.add_0_r, take_drop.
Qed.

(** A write covers the end of an earlier one. *)
Lemma storen_over m a x y z m1 m2 :
  storen m a (x ++ y) = Some m1 -> storen m1 (a + zlen x) z = Some m2 -> zlen y <= zlen z ->
  storen m a (x ++ z) = Some m2.
Proof.
  intros H1 H2 Hz. pose proof (storen_length _ _ _ _ H1). pose proof (storen_length _ _ _ _ H2).
  pose proof (storen_range _ _ _ _ H1). pose proof (storen_range _ _ _ _ H2).
  destruct (storen_in_range m a (x ++ z)) as [m3 E3]; [lia | zl |].
  rewrite E3. f_equal. pose proof (storen_length _ _ _ _ E3).
  apply mem_ext; [lia |]. intros i Hi.
  rewrite (load8_storen _ _ _ _ _ E3), (load8_storen _ _ _ _ _ H2), (load8_storen _ _ _ _ _ H1).
  rewrite !zlen_app.
  destruct (Z.leb_spec a i), (Z.ltb_spec i (a + (zlen x + zlen y))),
    (Z.ltb_spec i (a + (zlen x + zlen z))), (Z.leb_spec (a + zlen x) i), (Z.ltb_spec i (a + zlen x + zlen z));
    simpl; zl; try done; unfold zlen in *;
    first [rewrite lookup_app_r by lia; f_equal; lia | rewrite !lookup_app_l by lia; done].
Qed.
