(* ===== verification/Cursor.v ===== *)
(** * The bounds-checked cursor (src/src/cursor.h)

    A cursor is three addresses into a byte memory.  Every operation is a
    computation over the pair of the memory and the cursor; an access outside
    the memory is undefined behaviour, the [None] of the execution monad.  The
    lemmas show that on a well-formed cursor no operation is undefined, what
    each one reads and writes, and that it leaves the rest of memory alone. *)

From S2P Require Export Prelude.

(** ** State *)

Record cursor := mk_cursor { c_start : Z; c_p : Z; c_end : Z }.

#[export] Instance cursor_eq_dec : EqDecision cursor.
Proof. solve_decision. Defined.

Definition CM (A : Type) : Type := M (mem * cursor) A.

Definition set_p (c : cursor) (p : Z) : cursor := mk_cursor (c_start c) p (c_end c).

Definition cur : CM cursor := let* s := get in ret (snd s).
Definition goto (p : Z) : CM unit := let* s := get in put (fst s, set_p (snd s) p).
Definition peek8 (a : Z) : CM Z := let* s := get in lift (load8 (fst s) a).
Definition peekn (a n : Z) : CM (list Z) := let* s := get in lift (loadn (fst s) a n).
Definition poke (a : Z) (bs : list Z) : CM unit :=
  let* s := get in let* m := lift (storen (fst s) a bs) in put (m, snd s).

(** ** Construction and allocation *)

Definition make_cursor (start end_ : Z) : cursor := mk_cursor start start end_.

Definition reset_cursor : CM unit := let* c := cur in goto (c_start c).

Definition wipe_cursor : CM unit :=
  do* reset_cursor in
  let* c := cur in
  poke (c_start c) (replicate (Z.to_nat (c_end c - c_start c)) 0).

Definition cursor_eof : CM bool := let* c := cur in ret (c_p c =? c_end c).

Definition cursor_malloc (size : Z) : CM (option Z) :=
  let* c := cur in
  if c_end c <? c_p c + size then ret None
  else do* goto (c_p c + size) in ret (Some (c_p c)).

Definition cursor_alloc (size : Z) : CM (option Z) :=
  let* r := cursor_malloc size in
  match r with
  | None => ret None
  | Some a => do* poke a (replicate (Z.to_nat size) 0) in ret (Some a)
  end.

Definition cursor_slice (size : Z) : CM (option cursor) :=
  let* r := cursor_alloc size in
  match r with
  | None => ret None
  | Some a => let* c := cur in ret (Some (make_cursor a (c_p c)))
  end.

Definition cursor_malloc_slice (size : Z) : CM (option cursor) :=
  let* r := cursor_malloc size in
  match r with
  | None => ret None
  | Some a => let* c := cur in ret (Some (make_cursor a (c_p c)))
  end.

(** ** Reading *)

Definition cursor_skip (n : Z) : CM bool :=
  let* c := cur in
  if c_end c <=? c_p c + n then ret false
  else do* goto (c_p c + n) in ret true.

Definition cursor_pull_byte : CM (option Z) :=
  let* c := cur in
  if c_end c <=? c_p c then ret None
  else let* b := peek8 (c_p c) in do* goto (c_p c + 1) in ret (Some b).

Definition parse_byte : CM (option Z) :=
  let* c := cur in
  if c_end c <=? c_p c then ret None
  else let* b := peek8 (c_p c) in ret (Some b).

Definition parse_char (ch : Z) : CM bool :=
  let* c := cur in
  if c_end c <=? c_p c then ret false
  else
    let* b := peek8 (c_p c) in
    if b =? ch then do* goto (c_p c + 1) in ret true else ret false.

(** Returns -1 outside the cursor, as the code does. *)
Definition peek_char (ind : Z) : CM Z :=
  let* c := cur in
  if (c_p c + ind <? c_start c) || (c_end c <=? c_p c + ind) then ret (-1)
  else peek8 (c_p c + ind).

Fixpoint pull_c_str_loop (fuel : nat) : CM bool :=
  match fuel with
  | O => ret false
  | S fuel =>
      let* c := cur in
      if c_p c <? c_end c then
        let* b := peek8 (c_p c) in
        do* goto (c_p c + 1) in
        if b =? 0 then ret true else pull_c_str_loop fuel
      else ret false
  end.

Definition cursor_pull_c_str : CM (option Z) :=
  let* c := cur in
  let* ok := pull_c_str_loop (Z.to_nat (c_end c - c_p c)) in
  ret (if ok : bool then Some (c_p c) else None).

Definition cursor_pull (len : Z) : CM (option (list Z)) :=
  let* c := cur in
  if c_end c <? c_p c + len then ret None
  else let* l := peekn (c_p c) len in do* goto (c_p c + len) in ret (Some l).

(** The returned pointer is the address of the bytes skipped over. *)
Definition pull_bytes (count : Z) : CM (option Z) :=
  let* c := cur in
  if c_end c <? c_p c + count then ret None
  else do* goto (c_p c + count) in ret (Some (c_p c)).

Definition cursor_pull_int : CM (option Z) :=
  let* r := cursor_pull 4 in ret (option_map (fun l => i32 (le_int l)) r).

Definition cursor_pull_u16 : CM (option Z) :=
  let* r := cursor_pull 2 in ret (option_map le_int r).

(** ** Stack-like access *)

Definition cursor_dropn (size n : Z) : CM bool :=
  if n =? 0 then ret true
  else
    let* c := cur in
    if c_p c - size * n <? c_start c then ret false
    else do* goto (c_p c - size * n) in ret true.

Definition cursor_drop (size : Z) : CM bool := cursor_dropn size 1.

Definition cursor_topn (len n : Z) : CM (option Z) :=
  let* c := cur in
  let n := n + 1 in
  ret (if c_p c - len * n <? c_start c then None else Some (c_p c - len * n)).

Definition cursor_top (len : Z) : CM (option Z) :=
  let* c := cur in
  ret (if c_p c - len <? c_start c then None else Some (c_p c - len)).

Definition cursor_top_int : CM (option Z) :=
  let* r := cursor_top 4 in
  match r with
  | None => ret None
  | Some a => let* l := peekn a 4 in ret (Some (i32 (le_int l)))
  end.

Definition cursor_pop (len : Z) : CM (option (list Z)) :=
  let* c := cur in
  if c_p c - len <? c_start c then ret None
  else do* goto (c_p c - len) in let* l := peekn (c_p c - len) len in ret (Some l).

Definition index_cursor (index elem_size : Z) : CM (option Z) :=
  let* c := cur in
  let p := c_start c + u32 (elem_size * index) in
  ret (if c_end c <=? p then None else Some p).

Definition cursor_count (elem_size : Z) : CM Z :=
  let* c := cur in ret ((c_p c - c_start c) / elem_size).

Definition cursor_remaining_capacity : CM Z :=
  let* c := cur in ret (i32 (c_end c - c_p c)).

(** ** Writing *)

Definition cursor_push_byte (b : Z) : CM bool :=
  let* c := cur in
  if c_end c <? c_p c + 1 then ret false
  else do* poke (c_p c) [b] in do* goto (c_p c + 1) in ret true.

Definition cursor_push (data : list Z) : CM bool :=
  let* c := cur in
  if c_end c <? c_p c + zlen data then ret false
  else do* poke (c_p c) data in do* goto (c_p c + zlen data) in ret true.

Definition cursor_push_int (i : Z) : CM bool := cursor_push (le_bytes 4 i).
Definition cursor_push_u32 (i : Z) : CM bool := cursor_push (le_bytes 4 i).
Definition cursor_push_u16 (i : Z) : CM bool := cursor_push (le_bytes 2 i).
Definition push_sized_str (str : list Z) : CM bool := cursor_push str.

(** A C string is the list of its bytes, without the terminator. *)
Definition cursor_push_str (str : list Z) : CM bool := cursor_push str.

Definition cursor_push_c_str (str : option (list Z)) : CM bool :=
  match str with
  | None => cursor_push_byte 0
  | Some s => cursor_push_str s &&* cursor_push_byte 0
  end.

(** [tolower] in the C locale. *)
Definition tolower (c : Z) : Z := if (65 <=? c) && (c <=? 90) then c + 32 else c.

Definition cursor_push_lowercase (str : list Z) : CM bool :=
  let* c := cur in
  if c_end c <=? c_p c + zlen str then ret false
  else
    do* poke (c_p c) (map tolower str) in
    do* goto (c_p c + zlen str) in ret true.

Definition cursor_memset (b n : Z) : CM bool :=
  let* c := cur in
  if c_end c <=? c_p c + n then ret false
  else do* poke (c_p c) (replicate (Z.to_nat n) b) in do* goto (c_p c + n) in ret true.

(** Pad to [bytes]-byte alignment, [bytes] a power of two. *)
Definition cursor_align (bytes : Z) : CM bool :=
  let* c := cur in
  let size := c_p c - c_start c in
  let pad := Z.land (size + (bytes - 1)) (Z.lnot (bytes - 1)) - size in
  if 0 <? pad then cursor_memset 0 pad else ret true.

(** ** Variable-length integers *)

(** The number of bytes written, or -1 when the cursor ran out of room.  A
    64-bit value needs at most ten rounds. *)
Fixpoint push_varint_loop (fuel : nat) (n len : Z) : CM Z :=
  match fuel with
  | O => ret len
  | S fuel =>
      let b := Z.lor (Z.land n 127) (if 127 <? n then 128 else 0) in
      let n := Z.shiftr n 7 in
      let* ok := cursor_push_byte b in
      if ok : bool then
        if n =? 0 then ret (len + 1) else push_varint_loop fuel n (len + 1)
      else ret (-1)
  end.

Definition cursor_push_varint (n : Z) : CM Z := push_varint_loop 10 (u64 n) 0.

(** The value and the number of bytes read, or [None] for the 0 the code
    returns when it meets the end of the cursor. *)
Fixpoint pull_varint_loop (k : nat) (i n : Z) : CM (option (Z * Z)) :=
  match k with
  | O => ret (Some (n, 10))
  | S k =>
      let* r := cursor_pull_byte in
      match r with
      | None => ret None
      | Some b =>
          let n := Z.lor n (u64 (Z.shiftl (Z.land b 127) (i * 7))) in
          if Z.land b 128 =? 0 then ret (Some (n, i + 1))
          else pull_varint_loop k (i + 1) n
      end
  end.

Definition cursor_pull_varint : CM (option (Z * Z)) := pull_varint_loop 10 0 0.

Definition cursor_pull_varint_u32 : CM (option Z) :=
  let* r := cursor_pull_varint in
  ret (match r with
       | None => None
       | Some (v, _) => if 2 ^ 32 - 1 <? v then None else Some v
       end).

(** The return value of [cursor_push_varint] is tested with [!], which only a
    zero satisfies: the -1 of a failed push passes the test. *)
Definition push_prefixed_str (str : list Z) : CM bool :=
  let* r := cursor_push_varint (zlen str) in
  if r =? 0 then ret false else push_sized_str str.

(** ** Text *)

(** Conversion of an [int] to a (signed) [char]. *)
Definition to_char (c : Z) : Z := i8 c.

Definition is_whitespace (c : Z) : bool :=
  let c := to_char c in
  (c =? 32) || (c =? 9) || (c =? 10) || (c =? 11) || (c =? 12) || (c =? 13).

Definition is_underscore (c : Z) : bool := to_char c =? 95.

Definition is_utf8_byte (c : Z) : bool := negb (Z.land (u8 c) 128 =? 0).

(** [ispunct] in the C locale. *)
Definition ispunct (c : Z) : bool :=
  ((33 <=? c) && (c <=? 47)) || ((58 <=? c) && (c <=? 64)) ||
  ((91 <=? c) && (c <=? 96)) || ((123 <=? c) && (c <=? 126)).

Definition in_range (lo hi c : Z) : bool := (lo <=? c) && (c <=? hi).

Definition is_punctuation (codepoint : Z) : bool :=
  if is_underscore codepoint then false
  else if (codepoint <=? 128) && ispunct codepoint then true
  else if (codepoint =? 0x301C) || (codepoint =? 0xFF5E) then false
  else
    (codepoint =? 0x00A0) || in_range 0x00A1 0x00BF codepoint ||
    in_range 0x2000 0x206F codepoint || in_range 0x20A0 0x20CF codepoint ||
    in_range 0x2E00 0x2E7F codepoint || in_range 0x3000 0x303F codepoint ||
    in_range 0x2FF0 0x2FFF codepoint.

Definition is_right_boundary (c : Z) : bool := is_whitespace c || is_punctuation (u32 c).

Definition is_left_boundary (c : Z) : bool :=
  is_right_boundary (to_char c) || is_utf8_byte c.

Definition is_alphanumeric (c : Z) : bool :=
  in_range 65 90 c || in_range 97 122 c || in_range 48 57 c.

(** Case-insensitive match of a literal; the test keeps one byte spare. *)
Definition parse_str (str : list Z) : CM bool :=
  let* c := cur in
  if c_end c <=? c_p c + zlen str then ret false
  else
    let* l := peekn (c_p c) (zlen str) in
    if decide (map tolower l = map tolower str)
    then do* goto (c_p c + zlen str) in ret true
    else ret false.

(** The result, the code point and the byte length; the last two are in-out
    parameters of the C function, untouched where it does not assign them. *)
Fixpoint utf8_tail (k : nat) (i cp len : Z) : CM (bool * Z * Z) :=
  match k with
  | O => ret (true, cp, len)
  | S k =>
      let* r := peek_char (i + 1) in
      let next_byte := i8 r in
      if next_byte =? -1 then ret (false, cp, 1)
      else if negb (Z.land next_byte 0xC0 =? 0x80) then ret (false, cp, 1)
      else utf8_tail k (i + 1)
             (Z.lor (u32 (Z.shiftl cp 6)) (Z.land next_byte 0x3F)) len
  end.

Definition parse_utf8_char (code_point utf8_length : Z) : CM (bool * Z * Z) :=
  let* r := parse_byte in
  match r with
  | None => ret (false, code_point, utf8_length)
  | Some b =>
      if b <? 0x80 then ret (true, b, utf8_length)
      else if Z.land b 0xE0 =? 0xC0 then utf8_tail 1 0 (Z.land b 0x1F) 2
      else if Z.land b 0xF0 =? 0xE0 then utf8_tail 2 0 (Z.land b 0x0F) 3
      else if Z.land b 0xF8 =? 0xF0 then utf8_tail 3 0 (Z.land b 0x07) 4
      else ret (false, Z.shiftl (Z.land b 0xF0) 6, 1)
  end.

Fixpoint until_boundary_loop (fuel : nat) : CM bool :=
  match fuel with
  | O => ret true
  | S fuel =>
      let* c := cur in
      if c_p c <? c_end c then
        let* b := peek8 (c_p c) in
        if is_whitespace b then ret true
        else
          let* r := (if is_utf8_byte b then parse_utf8_char b 1
                     else ret (true, b, 1)) in
          let '(ok, cp, len) := r in
          if negb ok && negb (is_right_boundary cp) then ret false
          else if is_right_boundary cp then ret true
          else
            do* goto (if c_p c + len <=? c_end c then c_p c + len else c_p c + 1) in
            until_boundary_loop fuel
      else ret true
  end.

(** Every round advances the cursor, so its length bounds the rounds. *)
Definition consume_until_boundary : CM bool :=
  let* c := cur in until_boundary_loop (Z.to_nat (c_end c - c_p c)).

Fixpoint until_loop (stop : Z -> bool) (fuel : nat) (consumed or_end : bool) : CM bool :=
  match fuel with
  | O => ret or_end
  | S fuel =>
      let* c := cur in
      if c_p c <? c_end c then
        let* b := peek8 (c_p c) in
        if stop b then ret consumed
        else do* goto (c_p c + 1) in until_loop stop fuel true or_end
      else ret or_end
  end.

Definition consume_until_whitespace (or_end : bool) : CM bool :=
  let* c := cur in
  until_loop is_whitespace (Z.to_nat (c_end c - c_p c)) false or_end.

Definition consume_until_non_alphanumeric (or_end : bool) : CM bool :=
  let* c := cur in
  until_loop (fun b => negb (is_alphanumeric b)) (Z.to_nat (c_end c - c_p c)) false or_end.

Fixpoint whitespace_or_punctuation_loop (fuel : nat) : CM unit :=
  match fuel with
  | O => ret tt
  | S fuel =>
      let* c := cur in
      if c_p c <? c_end c then
        let* b := peek8 (c_p c) in
        if is_right_boundary b then do* goto (c_p c + 1) in whitespace_or_punctuation_loop fuel
        else ret tt
      else ret tt
  end.

Definition consume_whitespace_or_punctuation : CM unit :=
  let* c := cur in whitespace_or_punctuation_loop (Z.to_nat (c_end c - c_p c)).

(** * Lemmas *)

(** ** Well-formed cursors, frames and safety *)

Definition cwf (s : mem * cursor) : Prop :=
  0 <= c_start (snd s) /\ c_start (snd s) <= c_p (snd s) <= c_end (snd s) /\
  c_end (snd s) <= zlen (fst s).

(** What an operation may change: the position forward, and memory between the
    position and the end. *)
Definition frame (s s' : mem * cursor) : Prop :=
  c_start (snd s') = c_start (snd s) /\ c_end (snd s') = c_end (snd s) /\
  c_p (snd s) <= c_p (snd s') <= c_end (snd s) /\
  zlen (fst s') = zlen (fst s) /\
  forall x, x < c_p (snd s) \/ c_end (snd s) <= x -> load8 (fst s') x = load8 (fst s) x.

Lemma frame_refl s : cwf s -> frame s s.
Proof. unfold cwf, frame. intros. repeat split; auto; lia. Qed.

Lemma frame_trans s1 s2 s3 : frame s1 s2 -> frame s2 s3 -> frame s1 s3.
Proof.
  unfold frame. intros (A1 & A2 & A3 & A4 & A5) (B1 & B2 & B3 & B4 & B5).
  repeat split; try lia. intros x Hx. rewrite B5 by lia. apply A5. done.
Qed.

Lemma frame_cwf s s' : cwf s -> frame s s' -> cwf s'.
Proof. unfold cwf, frame. intros ? (?&?&?&?&_). lia. Qed.

Lemma frame_goto m c p :
  c_p c <= p <= c_end c -> frame (m, c) (m, set_p c p).
Proof. unfold frame. simpl. intros. repeat split; auto; lia. Qed.

Lemma frame_store m c bs m' :
  cwf (m, c) -> storen m (c_p c) bs = Some m' -> c_p c + zlen bs <= c_end c ->
  frame (m, c) (m', c).
Proof.
  unfold cwf, frame. simpl. intros W H Hr. repeat split; auto; try lia.
  - by apply storen_length in H.
  - intros x Hx. rewrite (load8_storen _ _ _ _ _ H).
    destruct (Z.leb_spec (c_p c) x), (Z.ltb_spec x (c_p c + zlen bs)); simpl; done || lia.
Qed.

(** A computation is safe when it is defined on every well-formed cursor and
    stays within the frame. *)
Class Safe {A} (w : CM A) : Prop :=
  safe_run : forall s, cwf s -> exists r s', w s = Some (r, s') /\ frame s s'.

#[export] Instance Safe_ret {A} (a : A) : Safe (ret a).
Proof. intros s Hs. exists a, s. auto using frame_refl. Qed.

#[export] Instance Safe_bind {A B} (w : CM A) (k : A -> CM B) :
  Safe w -> (forall a, Safe (k a)) -> Safe (bind w k).
Proof.
  intros Hw Hk s Hs. destruct (Hw s Hs) as (r & s1 & E1 & F1).
  destruct (Hk r s1) as (r2 & s2 & E2 & F2); [by eapply frame_cwf |].
  exists r2, s2. unfold bind. rewrite E1. eauto using frame_trans.
Qed.

#[export] Instance Safe_andM (w1 w2 : CM bool) : Safe w1 -> Safe w2 -> Safe (w1 &&* w2).
Proof. intros. apply Safe_bind; [done |]. intros []; [done | apply Safe_ret]. Qed.

#[export] Instance Safe_if {A} (b : bool) (w1 w2 : CM A) :
  Safe w1 -> Safe w2 -> Safe (if b then w1 else w2).
Proof. by destruct b. Qed.

(** Executing the primitive steps on an explicit state. *)
Lemma bind_cur {B} m c (k : cursor -> CM B) : bind cur k (m, c) = k c (m, c).
Proof. reflexivity. Qed.

Lemma bind_goto {B} m c p (k : unit -> CM B) :
  bind (goto p) k (m, c) = k tt (m, set_p c p).
Proof. reflexivity. Qed.

Lemma bind_peek8 {B} m c a b (k : Z -> CM B) :
  load8 m a = Some b -> bind (peek8 a) k (m, c) = k b (m, c).
Proof. intros H. unfold bind, peek8, bind, get, lift. simpl. by rewrite H. Qed.

Lemma bind_peekn {B} m c a n l (k : list Z -> CM B) :
  loadn m a n = Some l -> bind (peekn a n) k (m, c) = k l (m, c).
Proof. intros H. unfold bind, peekn, bind, get, lift. simpl. by rewrite H. Qed.

Lemma bind_poke {B} m c a bs m' (k : unit -> CM B) :
  storen m a bs = Some m' -> bind (poke a bs) k (m, c) = k tt (m', c).
Proof. intros H. unfold bind, poke, bind, get, lift. simpl. by rewrite H. Qed.

Lemma run_bind {S A B} (w : M S A) (k : A -> M S B) s a s' :
  w s = Some (a, s') -> bind w k s = k a s'.
Proof. intros H. unfold bind. by rewrite H. Qed.

Lemma bind_bind {S A B C} (w : M S A) (k : A -> M S B) (h : B -> M S C) s :
  bind (bind w k) h s = bind w (fun a => bind (k a) h) s.
Proof. unfold bind. by destruct (w s) as [[a s'] |]. Qed.

Lemma poke_ok a bs m m' c : storen m a bs = Some m' -> poke a bs (m, c) = Some (tt, (m', c)).
Proof. intros E. unfold poke, bind, get, lift, put. cbn [fst snd]. by rewrite E. Qed.

Lemma run_get {S B} (k : S -> M S B) s : bind get k s = k s s.
Proof. done. Qed.

Lemma run_lift {S A B} (o : option A) a (k : A -> M S B) s : o = Some a -> bind (lift o) k s = k a s.
Proof. by intros ->. Qed.

Lemma run_put {S B} (s' : S) (k : unit -> M S B) s : bind (put s') k s = k tt s'.
Proof. done. Qed.

Lemma run_ret {S A B} (a : A) (k : A -> M S B) s : bind (ret a) k s = k a s.
Proof. done. Qed.

Lemma run_cur {B} (k : cursor -> CM B) m c : bind cur k (m, c) = k c (m, c).
Proof. done. Qed.

Lemma run_poke {B} a bs m' (k : unit -> CM B) m c : storen m a bs = Some m' -> bind (poke a bs) k (m, c) = k tt (m', c).
Proof. intros E. unfold poke, bind, get, lift, put. cbn [fst snd]. by rewrite E. Qed.

Lemma run_malloc {B} size (k : option Z -> CM B) m c : c_p c + size <= c_end c ->
  bind (cursor_malloc size) k (m, c) = k (Some (c_p c)) (m, set_p c (c_p c + size)).
Proof.
  intros H. unfold cursor_malloc, cur, goto, bind, get, ret, put. cbn [fst snd].
  destruct (Z.ltb_spec (c_end c) (c_p c + size)); [lia | done].
Qed.

Lemma load8_cwf m c a :
  cwf (m, c) -> c_start c <= a < c_end c -> exists b, load8 m a = Some b.
Proof. unfold cwf. simpl. intros. apply load8_is_Some. lia. Qed.

(** ** Writers

    [pushed s d s']: [d] was stored at the position and skipped over. *)
Definition pushed (s : mem * cursor) (d : list Z) (s' : mem * cursor) : Prop :=
  storen (fst s) (c_p (snd s)) d = Some (fst s') /\
  snd s' = set_p (snd s) (c_p (snd s) + zlen d).

Lemma pushed_nil s : cwf s -> pushed s [] s.
Proof.
  unfold cwf, pushed. destruct s as [m [a p e]]. simpl. intros.
  rewrite storen_nil by lia. split; [done |]. unfold set_p. simpl. f_equal. zl.
Qed.

Lemma pushed_app s d1 s1 d2 s2 : pushed s d1 s1 -> pushed s1 d2 s2 -> pushed s (d1 ++ d2) s2.
Proof.
  unfold pushed. intros (A1 & A2) (B1 & B2). rewrite A2 in *. simpl in *.
  split; [by eapply storen_app |]. rewrite B2. unfold set_p. simpl. f_equal. zl.
Qed.

Lemma pushed_frame s d s' :
  cwf s -> c_p (snd s) + zlen d <= c_end (snd s) -> pushed s d s' -> frame s s'.
Proof.
  destruct s as [m c], s' as [m' c']. unfold pushed. simpl. intros W Hr (A1 & ->).
  eapply frame_trans; [by eapply frame_store |]. apply frame_goto. simpl. zl.
Qed.

Lemma pushed_loadn s d s' : pushed s d s' -> loadn (fst s') (c_p (snd s)) (zlen d) = Some d.
Proof. intros [H _]. by eapply loadn_storen_same. Qed.

#[export] Typeclasses Opaque cursor_push cursor_push_byte cursor_push_str cursor_push_c_str
  cursor_push_u16 cursor_push_u32 cursor_push_lowercase cursor_push_varint cursor_memset
  cursor_pull_byte parse_byte parse_char peek_char cursor_pull_varint cursor_pull_u16
  cursor_pull_int cursor_pull_c_str parse_str parse_utf8_char utf8_tail until_loop
  consume_until_boundary consume_until_whitespace consume_until_non_alphanumeric
  cursor_align cursor_skip cursor_pull pull_bytes andM bind ret.

(** [Emits w d r]: with [r] bytes of room left [w] succeeds and has written
    exactly [d]; with less it fails, within the frame. *)
Class Emits (w : CM bool) (d : list Z) (r : Z) : Prop := emits_intro {
  emits_room : zlen d <= r;
  emits_ok : forall s, cwf s -> c_p (snd s) + r <= c_end (snd s) ->
    exists s', w s = Some (true, s') /\ pushed s d s';
  emits_fail : forall s, cwf s -> c_end (snd s) < c_p (snd s) + r ->
    exists s', w s = Some (false, s') /\ frame s s'
}.

#[export] Instance Emits_push d : Emits (cursor_push d) d (zlen d).
Proof.
  split; [lia | |]; intros [m c] W Hr; simpl in Hr; unfold cursor_push; rewrite bind_cur.
  - destruct (Z.ltb_spec (c_end c) (c_p c + zlen d)); [lia |].
    pose proof W as (?&?&?). simpl in *.
    destruct (storen_in_range m (c_p c) d) as [m' E]; [lia | lia |].
    rewrite (bind_poke _ _ _ _ _ _ E), bind_goto.
    eexists. split; [reflexivity |]. split; done.
  - destruct (Z.ltb_spec (c_end c) (c_p c + zlen d)); [| lia].
    eexists. split; [reflexivity | by apply frame_refl].
Qed.

Lemma cursor_push_byte_eq b : cursor_push_byte b = cursor_push [b].
Proof. reflexivity. Qed.

#[export] Instance Emits_push_byte b : Emits (cursor_push_byte b) [b] 1.
Proof. rewrite cursor_push_byte_eq. apply Emits_push. Qed.

#[export] Instance Emits_push_str d : Emits (cursor_push_str d) d (zlen d).
Proof. apply Emits_push. Qed.

#[export] Instance Emits_push_u16 i : Emits (cursor_push_u16 i) (le_bytes 2 i) 2.
Proof. apply (Emits_push (le_bytes 2 i)). Qed.

#[export] Instance Emits_push_u32 i : Emits (cursor_push_u32 i) (le_bytes 4 i) 4.
Proof. apply (Emits_push (le_bytes 4 i)). Qed.

Lemma emits_weaken_eq w d d' r r' : d = d' -> r = r' -> Emits w d r -> Emits w d' r'.
Proof. by intros -> ->. Qed.

Lemma Emits_ret_true : Emits (ret true) [] 0.
Proof.
  split; [zl | |]; intros s W Hr.
  - exists s. split; [done |]. by apply pushed_nil.
  - unfold cwf in W. lia.
Qed.

(** Sequencing: the data is concatenated, and the room needed is what either
    part needs where it runs. *)
#[export] Instance Emits_andM w1 d1 r1 w2 d2 r2 :
  Emits w1 d1 r1 -> Emits w2 d2 r2 ->
  Emits (w1 &&* w2) (d1 ++ d2) (Z.max r1 (zlen d1 + r2)).
Proof.
  intros [R1 O1 F1] [R2 O2 F2]. split; [zl | |]; intros s W Hr; unfold andM.
  - destruct (O1 s W) as (s1 & E1 & P1); [lia |].
    assert (cwf s1) by (eapply frame_cwf; [done |]; eapply pushed_frame; eauto; lia).
    pose proof P1 as [_ C1].
    destruct (O2 s1) as (s2 & E2 & P2); [done | rewrite C1; simpl; lia |].
    exists s2. rewrite (run_bind _ _ _ _ _ E1). eauto using pushed_app.
  - destruct (decide (c_p (snd s) + r1 <= c_end (snd s))).
    + destruct (O1 s W) as (s1 & E1 & P1); [lia |].
      assert (frame s s1) by (eapply pushed_frame; eauto; lia).
      assert (cwf s1) by eauto using frame_cwf. pose proof P1 as [_ C1].
      destruct (F2 s1) as (s2 & E2 & P2); [done | rewrite C1; simpl; lia |].
      exists s2. rewrite (run_bind _ _ _ _ _ E1). eauto using frame_trans.
    + destruct (F1 s W) as (s1 & E1 & P1); [lia |].
      exists s1. rewrite (run_bind _ _ _ _ _ E1). done.
Qed.

Lemma emits_frame w d r s :
  Emits w d r -> cwf s -> exists b s', w s = Some (b, s') /\ frame s s'.
Proof.
  intros [R O F] W. destruct (decide (c_p (snd s) + r <= c_end (snd s))).
  - destruct (O s W) as (s' & E & P); [lia |]. exists true, s'. split; [done |].
    eapply pushed_frame; eauto. lia.
  - destruct (F s W) as (s' & E & P); [lia |]. eauto.
Qed.

(** Every writer is safe: the interface clients rely on. *)
Lemma Emits_Safe w d r : Emits w d r -> Safe w.
Proof. intros E s W. by eapply emits_frame. Qed.

Lemma emits_true w d r s s' :
  Emits w d r -> cwf s -> w s = Some (true, s') ->
  c_p (snd s) + r <= c_end (snd s) /\ pushed s d s'.
Proof.
  intros [R O F] W E. destruct (decide (c_p (snd s) + r <= c_end (snd s))) as [Hr | Hr].
  - destruct (O s W Hr) as (s1 & E1 & P1). rewrite E in E1. injection E1 as ->. auto.
  - destruct (F s W) as (s1 & E1 & P1); [lia |]. rewrite E in E1. discriminate.
Qed.

#[export] Instance Emits_push_c_str s :
  Emits (cursor_push_c_str (Some s)) (s ++ [0]) (zlen s + 1).
Proof.
  eapply emits_weaken_eq; [reflexivity | | apply Emits_andM; apply _]. zl.
Qed.

#[export] Instance Emits_push_lowercase d :
  Emits (cursor_push_lowercase d) (map tolower d) (zlen d + 1).
Proof.
  assert (L : zlen (map tolower d) = zlen d) by (unfold zlen; by rewrite length_map).
  split; [lia | |]; intros [m c] W Hr; simpl in Hr; unfold cursor_push_lowercase;
    rewrite bind_cur.
  - destruct (Z.leb_spec (c_end c) (c_p c + zlen d)); [lia |].
    pose proof W as (?&?&?). simpl in *.
    destruct (storen_in_range m (c_p c) (map tolower d)) as [m' E]; [lia | lia |].
    rewrite (bind_poke _ _ _ _ _ _ E), bind_goto.
    eexists. split; [reflexivity |]. split; simpl; [done | by rewrite L].
  - destruct (Z.leb_spec (c_end c) (c_p c + zlen d)); [| lia].
    eexists. split; [reflexivity | by apply frame_refl].
Qed.

Lemma Emits_memset b n :
  0 <= n -> Emits (cursor_memset b n) (replicate (Z.to_nat n) b) (n + 1).
Proof.
  intros Hn. split; [zl | |]; intros [m c] W Hr; simpl in Hr; unfold cursor_memset;
    rewrite bind_cur.
  - destruct (Z.leb_spec (c_end c) (c_p c + n)); [lia |].
    pose proof W as (?&?&?). simpl in *.
    destruct (storen_in_range m (c_p c) (replicate (Z.to_nat n) b)) as [m' E]; [lia | zl |].
    rewrite (bind_poke _ _ _ _ _ _ E), bind_goto.
    eexists. split; [reflexivity |]. split; simpl; [done |]. f_equal. zl.
  - destruct (Z.leb_spec (c_end c) (c_p c + n)); [| lia].
    eexists. split; [reflexivity | by apply frame_refl].
Qed.

(** Padding to a power of two is the distance to the next multiple. *)
Definition padding (k size : Z) : Z := (- size) mod 2 ^ k.

Lemma align_up_pow2 k size :
  0 <= k -> 0 <= size ->
  Z.land (size + (2 ^ k - 1)) (Z.lnot (2 ^ k - 1)) - size = padding k size.
Proof.
  intros Hk Hs. unfold padding.
  assert (0 < 2 ^ k) by (apply Z.pow_pos_nonneg; lia).
  replace (2 ^ k - 1) with (Z.ones k) by (rewrite Z.ones_equiv; lia).
  rewrite <- Z.ldiff_land. rewrite Z.ldiff_ones_r by done.
  rewrite Z.shiftl_mul_pow2, Z.shiftr_div_pow2 by done. rewrite Z.ones_equiv.
  pose proof (Z.div_mod size (2 ^ k) ltac:(lia)) as D.
  pose proof (Z.mod_pos_bound size (2 ^ k) ltac:(lia)) as B.
  set (q := size / 2 ^ k) in *. set (r := size mod 2 ^ k) in *.
  destruct (Z.eq_dec r 0) as [R | R].
  - replace (size + Z.pred (2 ^ k)) with (Z.pred (2 ^ k) + q * 2 ^ k) by lia.
    rewrite Z.div_add, (Z.div_small (Z.pred (2 ^ k))) by lia.
    rewrite Z.mod_opp_l_z by (fold r; lia). lia.
  - replace (size + Z.pred (2 ^ k)) with (r - 1 + (q + 1) * 2 ^ k) by lia.
    rewrite Z.div_add, (Z.div_small (r - 1)) by lia.
    rewrite Z.mod_opp_l_nz by (fold r; lia). fold r. lia.
Qed.

(** ** Variable-length integers *)

Fixpoint varint_bytes (fuel : nat) (n : Z) : list Z :=
  match fuel with
  | O => []
  | S fuel =>
      Z.lor (Z.land n 127) (if 127 <? n then 128 else 0) ::
      (if Z.shiftr n 7 =? 0 then [] else varint_bytes fuel (Z.shiftr n 7))
  end.

(** The encoding of a 64-bit integer. *)
Definition varint (n : Z) : list Z := varint_bytes 10 (u64 n).

#[global] Arguments varint : simpl never.
#[global] Arguments cursor_push_varint : simpl never.
#[global] Arguments cursor_pull_varint : simpl never.
#[global] Arguments u64 : simpl never.
#[global] Arguments u32 : simpl never.
#[global] Arguments i32 : simpl never.

Lemma land_127 n : Z.land n 127 = n mod 128.
Proof. change 127 with (Z.ones 7). by rewrite Z.land_ones. Qed.

Lemma shiftr_7 n : Z.shiftr n 7 = n / 128.
Proof. by rewrite Z.shiftr_div_pow2. Qed.

Lemma varint_byte_decode r :
  0 <= r < 128 ->
  Z.land (Z.lor r 128) 127 = r /\ (Z.land (Z.lor r 128) 128 =? 0) = false /\
  Z.land (Z.lor r 0) 127 = r /\ (Z.land (Z.lor r 0) 128 =? 0) = true /\
  0 <= Z.lor r 128 < 256.
Proof.
  intros Hr.
  pose proof (Zrange_forallb 128 (fun r => (Z.land (Z.lor r 128) 127 =? r) &&
    negb (Z.land (Z.lor r 128) 128 =? 0) && (Z.land (Z.lor r 0) 127 =? r) &&
    (Z.land (Z.lor r 0) 128 =? 0) && (0 <=? Z.lor r 128) && (Z.lor r 128 <? 256))
    ltac:(vm_compute; reflexivity) r Hr) as H. simpl in H.
  repeat rewrite andb_true_iff in H. rewrite negb_true_iff in H.
  repeat split; try lia; destruct H as [[[[[? ?] ?] ?] ?] ?]; done.
Qed.

Lemma varint_bytes_zlen fuel n : 0 <= zlen (varint_bytes fuel n) <= Z.of_nat fuel.
Proof.
  revert n. induction fuel as [| fuel IH]; intros n; simpl; [zl |].
  rewrite zlen_cons. destruct (_ =? 0); [zl |]. specialize (IH (Z.shiftr n 7)). lia.
Qed.

Lemma varint_zlen n : 1 <= zlen (varint n) <= 10.
Proof.
  unfold varint. pose proof (varint_bytes_zlen 10 (u64 n)).
  remember 10%nat as k. destruct k; [discriminate |]. simpl in *. rewrite zlen_cons in *. zl.
Qed.

Lemma varint_bytes_ok fuel n : 0 <= n -> bytes_ok (varint_bytes fuel n).
Proof.
  revert n. induction fuel as [| fuel IH]; intros n Hn; simpl; [constructor |].
  rewrite land_127. pose proof (Z.mod_pos_bound n 128 ltac:(lia)).
  pose proof (varint_byte_decode (n mod 128) ltac:(lia)) as (?&?&?&?&?).
  constructor.
  - unfold is_byte. destruct (127 <? n); [done |]. rewrite Z.lor_0_r. lia.
  - destruct (Z.shiftr n 7 =? 0); [constructor |]. apply IH. rewrite shiftr_7.
    apply Z.div_pos; lia.
Qed.

Lemma push_varint_loop_spec fuel : forall n len s,
  0 <= n < 128 ^ Z.of_nat fuel -> (0 < fuel)%nat -> cwf s ->
  let d := varint_bytes fuel n in
  (c_p (snd s) + zlen d <= c_end (snd s) ->
     exists s', push_varint_loop fuel n len s = Some (len + zlen d, s') /\ pushed s d s') /\
  (c_end (snd s) < c_p (snd s) + zlen d ->
     exists s', push_varint_loop fuel n len s = Some (-1, s') /\ frame s s').
Proof.
  induction fuel as [| fuel IH]; intros n len s Hn Hf W d; [lia |].
  simpl push_varint_loop. subst d. simpl varint_bytes.
  set (b := Z.lor _ _). destruct (Emits_push_byte b) as [_ O F].
  rewrite zlen_cons. rewrite shiftr_7 in *.
  assert (Hq : 0 <= n / 128) by (apply Z.div_pos; lia).
  destruct (decide (c_p (snd s) + 1 <= c_end (snd s))) as [Hr | Hr].
  - destruct (O s W Hr) as (s1 & E1 & P1). rewrite (run_bind _ _ _ _ _ E1).
    assert (F1 : frame s s1) by (eapply pushed_frame; eauto; simpl; zl).
    assert (W1 : cwf s1) by eauto using frame_cwf.
    assert (C1 : c_p (snd s1) = c_p (snd s) + 1) by (destruct P1 as [_ ->]; simpl; zl).
    assert (C2 : c_end (snd s1) = c_end (snd s)) by (destruct P1 as [_ ->]; done).
    destruct (Z.eqb_spec (n / 128) 0) as [Z0 | Z0].
    + split; intros Hz; autorewrite with zlen in *; [| lia].
      exists s1. split; [unfold ret; do 2 f_equal; lia | done].
    + assert (Hb : n / 128 < 128 ^ Z.of_nat fuel).
      { apply Z.div_lt_upper_bound; [lia |].
        rewrite Nat2Z.inj_succ, Z.pow_succ_r in Hn by lia. lia. }
      assert ((0 < fuel)%nat).
      { destruct fuel; [simpl in Hb; lia | lia]. }
      specialize (IH (n / 128) (len + 1) s1 (conj Hq Hb) ltac:(assumption) W1) as [I1 I2].
      rewrite C1, C2 in *. split; intros Hz.
      * destruct I1 as (s' & E & P); [lia |]. exists s'. rewrite E.
        split; [do 2 f_equal; lia |]. by apply (pushed_app s [b] s1).
      * destruct I2 as (s' & E & P); [lia |]. exists s'. eauto using frame_trans.
  - split; intros Hz; [destruct (n / 128 =? 0); zl |].
    destruct (F s W) as (s1 & E1 & P1); [lia |]. exists s1.
    rewrite (run_bind _ _ _ _ _ E1). done.
Qed.

Lemma u64_range n : 0 <= u64 n < 2 ^ 64.
Proof. apply Z.mod_pos_bound. lia. Qed.

Lemma cursor_push_varint_spec n s :
  cwf s ->
  (c_p (snd s) + zlen (varint n) <= c_end (snd s) ->
     exists s', cursor_push_varint n s = Some (zlen (varint n), s') /\ pushed s (varint n) s') /\
  (c_end (snd s) < c_p (snd s) + zlen (varint n) ->
     exists s', cursor_push_varint n s = Some (-1, s') /\ frame s s').
Proof.
  intros W. pose proof (u64_range n).
  apply (push_varint_loop_spec 10 (u64 n) 0 s); [| lia | done].
  change (Z.of_nat 10) with 10. lia.
Qed.

#[export] Instance Safe_push_varint n : Safe (cursor_push_varint n).
Proof.
  intros s W. destruct (cursor_push_varint_spec n s W) as [A B].
  destruct (decide (c_p (snd s) + zlen (varint n) <= c_end (snd s))).
  - destruct A as (s' & E & P); [done |]. eexists _, s'. split; [done |].
    by eapply pushed_frame.
  - destruct B as (s' & E & P); [lia |]. eauto.
Qed.

(** Pulling a byte. *)
Lemma cursor_pull_byte_some m c b :
  c_p c < c_end c -> load8 m (c_p c) = Some b ->
  cursor_pull_byte (m, c) = Some (Some b, (m, set_p c (c_p c + 1))).
Proof.
  intros Hc Hb. unfold cursor_pull_byte. rewrite bind_cur.
  destruct (Z.leb_spec (c_end c) (c_p c)); [lia |].
  by rewrite (bind_peek8 _ _ _ _ _ Hb), bind_goto.
Qed.

Lemma loadn_cons m a b l :
  loadn m a (zlen (b :: l)) = Some (b :: l) <->
  load8 m a = Some b /\ loadn m (a + 1) (zlen l) = Some l.
Proof.
  split.
  - intros H. split.
    + rewrite <- (Z.add_0_r a). rewrite (loadn_load8 _ _ _ _ _ H) by zl. done.
    + replace (zlen l) with (zlen (b :: l) - 1) by zl.
      rewrite (loadn_sub _ _ _ _ 1 (zlen (b :: l) - 1) H) by zl.
      f_equal. rewrite zlen_cons. replace (1 + zlen l - 1) with (zlen l) by lia.
      change (Z.to_nat 1) with 1%nat. rewrite skipn_cons, skipn_O.
      rewrite to_nat_zlen. by rewrite take_ge.
  - intros [H1 H2]. pose proof (load8_Some_range _ _ _ H1).
    pose proof H2 as (?&?&?&_)%loadn_Some.
    apply loadn_ext; [lia | zl | done |]. intros i Hi.
    destruct (decide (i = 0)) as [-> | Hne].
    + rewrite Z.add_0_r. done.
    + replace (a + i) with (a + 1 + (i - 1)) by lia.
      rewrite (loadn_load8 _ _ _ _ _ H2) by zl.
      replace (Z.to_nat i) with (S (Z.to_nat (i - 1))) by lia. done.
Qed.

(** Disjoint bits: the accumulated groups and the next one just add up. *)
Lemma lor_shiftl_add a b k :
  0 <= k -> 0 <= a < 2 ^ k -> Z.lor a (Z.shiftl b k) = a + b * 2 ^ k.
Proof.
  intros Hk Ha. rewrite <- Z.shiftl_mul_pow2 by done.
  rewrite Z.add_nocarry_lxor, Z.lxor_lor; [done | |]; apply Z.bits_inj'; intros i Hi;
    rewrite Z.land_spec, Z.bits_0;
    (destruct (Z.lt_ge_cases i k);
     [rewrite Z.shiftl_spec_low by lia; by rewrite andb_false_r |
      replace (Z.testbit a i) with false; [done |]]);
    symmetry; (destruct (Z.eq_dec a 0) as [-> |]; [apply Z.bits_0 |]);
    apply Z.bits_above_log2; try lia; apply Z.log2_lt_pow2; try lia;
    eapply Z.lt_le_trans; [apply Ha | apply Z.pow_le_mono_r; lia | apply Ha | apply Z.pow_le_mono_r; lia].
Qed.

Lemma pull_varint_loop_spec fuel : forall k i acc v m c,
  (0 < fuel <= k)%nat -> 0 <= i -> 0 <= v < 128 ^ Z.of_nat fuel ->
  v * 2 ^ (i * 7) < 2 ^ 64 -> 0 <= acc < 2 ^ (i * 7) ->
  c_p c + zlen (varint_bytes fuel v) <= c_end c ->
  loadn m (c_p c) (zlen (varint_bytes fuel v)) = Some (varint_bytes fuel v) ->
  pull_varint_loop k i acc (m, c) =
    Some (Some (acc + v * 2 ^ (i * 7), i + zlen (varint_bytes fuel v)),
          (m, set_p c (c_p c + zlen (varint_bytes fuel v)))).
Proof.
  induction fuel as [| fuel IH]; intros k i acc v m c Hk Hi Hv Hfit Hacc Hend Hload; [lia |].
  destruct k as [| k]; [lia |].
  simpl varint_bytes in *. rewrite shiftr_7, land_127 in *.
  pose proof (Z.mod_pos_bound v 128 ltac:(lia)) as Hm.
  pose proof (Z.div_mod v 128 ltac:(lia)) as Hdm.
  pose proof (varint_byte_decode (v mod 128) Hm) as (D1 & D2 & D3 & D4 & _).
  assert (Hp : 0 < 2 ^ (i * 7)) by (apply Z.pow_pos_nonneg; lia).
  set (rest := if v / 128 =? 0 then [] else varint_bytes fuel (v / 128)) in *.
  apply loadn_cons in Hload as [L1 L2]. rewrite zlen_cons in *.
  simpl pull_varint_loop.
  assert (Hdiv : 0 <= v / 128) by (apply Z.div_pos; lia).
  assert (Hlt : c_p c < c_end c) by zl.
  rewrite (run_bind _ _ _ _ _ (cursor_pull_byte_some _ _ _ Hlt L1)).
  assert (Hu : u64 (Z.shiftl (v mod 128) (i * 7)) = Z.shiftl (v mod 128) (i * 7)).
  { rewrite Z.shiftl_mul_pow2 by lia. apply Z.mod_small. nia. }
  destruct (Z.ltb_spec 127 v) as [Hbig | Hsmall].
  - rewrite D1, D2, Hu, lor_shiftl_add by lia.
    assert (Hq : v / 128 <> 0).
    { intros Hq. rewrite Hq in Hdm. lia. }
    unfold rest in *. destruct (Z.eqb_spec (v / 128) 0); [done |].
    assert (Hb : v / 128 < 128 ^ Z.of_nat fuel).
    { apply Z.div_lt_upper_bound; [lia |].
      rewrite Nat2Z.inj_succ, Z.pow_succ_r in Hv by lia. lia. }
    assert (E7 : 2 ^ ((i + 1) * 7) = 128 * 2 ^ (i * 7)).
    { replace ((i + 1) * 7) with (7 + i * 7) by lia. by rewrite Z.pow_add_r by lia. }
    assert (0 < fuel)%nat by (destruct fuel; [change (128 ^ Z.of_nat 0) with 1 in Hb; lia | lia]).
    rewrite (IH k (i + 1) _ (v / 128)); simpl; try rewrite E7; try done; try lia; try nia.
    unfold set_p. simpl. do 4 f_equal; nia.
  - assert (Hq : v / 128 = 0) by (apply Z.div_small; lia).
    unfold rest in *. rewrite Hq in *. simpl in *.
    rewrite D3, Hu, lor_shiftl_add by lia. rewrite D4.
    unfold ret, set_p. do 4 f_equal; zl.
Qed.

(** Reading back what [cursor_push_varint] wrote. *)
Lemma cursor_pull_varint_spec n m c :
  c_p c + zlen (varint n) <= c_end c ->
  loadn m (c_p c) (zlen (varint n)) = Some (varint n) ->
  cursor_pull_varint (m, c) =
    Some (Some (u64 n, zlen (varint n)), (m, set_p c (c_p c + zlen (varint n)))).
Proof.
  intros Hend Hload. unfold cursor_pull_varint, varint in *.
  pose proof (u64_range n).
  rewrite (pull_varint_loop_spec 10 10 0 0 (u64 n)); try done; try lia.
  change (2 ^ (0 * 7)) with 1. do 4 f_equal; lia.
Qed.

(** ** Safety of every operation *)

Lemma Safe_cur_bind {B} (k : cursor -> CM B) :
  (forall m c, cwf (m, c) -> exists r s', k c (m, c) = Some (r, s') /\ frame (m, c) s') ->
  Safe (bind cur k).
Proof. intros H [m c] W. rewrite bind_cur. auto. Qed.

Ltac safe_done :=
  solve [ eexists _, _; split; [reflexivity |]; auto using frame_refl, frame_goto with lia
        | eexists _, _; split; [reflexivity |]; apply frame_goto; simpl; unfold cwf in *;
          simpl in *; lia ].

#[export] Instance Safe_pull_byte : Safe cursor_pull_byte.
Proof.
  apply Safe_cur_bind. intros m c W. destruct (Z.leb_spec (c_end c) (c_p c)); [safe_done |].
  destruct (load8_cwf m c (c_p c) W) as [b Hb]; [unfold cwf in W; simpl in W; lia |].
  rewrite (bind_peek8 _ _ _ _ _ Hb), bind_goto. safe_done.
Qed.

#[export] Instance Safe_parse_byte : Safe parse_byte.
Proof.
  apply Safe_cur_bind. intros m c W. destruct (Z.leb_spec (c_end c) (c_p c)); [safe_done |].
  destruct (load8_cwf m c (c_p c) W) as [b Hb]; [unfold cwf in W; simpl in W; lia |].
  rewrite (bind_peek8 _ _ _ _ _ Hb). safe_done.
Qed.

#[export] Instance Safe_parse_char ch : Safe (parse_char ch).
Proof.
  apply Safe_cur_bind. intros m c W. destruct (Z.leb_spec (c_end c) (c_p c)); [safe_done |].
  destruct (load8_cwf m c (c_p c) W) as [b Hb]; [unfold cwf in W; simpl in W; lia |].
  rewrite (bind_peek8 _ _ _ _ _ Hb). destruct (b =? ch); [rewrite bind_goto |]; safe_done.
Qed.

#[export] Instance Safe_peek_char i : Safe (peek_char i).
Proof.
  apply Safe_cur_bind. intros m c W.
  destruct (Z.ltb_spec (c_p c + i) (c_start c)), (Z.leb_spec (c_end c) (c_p c + i));
    simpl; try safe_done.
  destruct (load8_cwf m c (c_p c + i) W) as [b Hb]; [lia |].
  unfold peek8, bind, get, lift. simpl. rewrite Hb. safe_done.
Qed.

Lemma Safe_cursor_skip n : 0 <= n -> Safe (cursor_skip n).
Proof.
  intros Hn. apply Safe_cur_bind. intros m c W.
  destruct (Z.leb_spec (c_end c) (c_p c + n)); [safe_done |]. rewrite bind_goto. safe_done.
Qed.

Lemma Safe_cursor_pull n : 0 <= n -> Safe (cursor_pull n).
Proof.
  intros Hn. apply Safe_cur_bind. intros m c W.
  destruct (Z.ltb_spec (c_end c) (c_p c + n)); [safe_done |].
  pose proof W as (?&?&?). simpl in *.
  rewrite (bind_peekn _ _ _ _ _ _ (loadn_in_range m (c_p c) n ltac:(lia) Hn ltac:(lia))).
  rewrite bind_goto. safe_done.
Qed.

Lemma Safe_pull_bytes n : 0 <= n -> Safe (pull_bytes n).
Proof.
  intros Hn. apply Safe_cur_bind. intros m c W.
  destruct (Z.ltb_spec (c_end c) (c_p c + n)); [safe_done |]. rewrite bind_goto. safe_done.
Qed.

#[export] Instance Safe_pull_u16 : Safe cursor_pull_u16.
Proof. apply Safe_bind; [by apply Safe_cursor_pull |]. intros. apply Safe_ret. Qed.

#[export] Instance Safe_pull_int : Safe cursor_pull_int.
Proof. apply Safe_bind; [by apply Safe_cursor_pull |]. intros. apply Safe_ret. Qed.

#[export] Instance Safe_pull_varint : Safe cursor_pull_varint.
Proof.
  unfold cursor_pull_varint. generalize 0 at 2 as n. generalize 0 as i.
  generalize 10%nat as k. induction k as [| k IH]; intros i n; simpl; [apply Safe_ret |].
  apply Safe_bind; [apply _ |]. intros [b |]; [| apply Safe_ret].
  apply Safe_if; [apply Safe_ret | apply IH].
Qed.

#[export] Instance Safe_pull_varint_u32 : Safe cursor_pull_varint_u32.
Proof. unfold cursor_pull_varint_u32. apply _. Qed.

#[export] Instance Safe_pull_c_str : Safe cursor_pull_c_str.
Proof.
  apply Safe_cur_bind. intros m c W.
  assert (H : Safe (pull_c_str_loop (Z.to_nat (c_end c - c_p c)))).
  { generalize (Z.to_nat (c_end c - c_p c)) as k. clear. induction k as [| k IH]; simpl;
      [apply Safe_ret |].
    apply Safe_cur_bind. intros m c W. destruct (Z.ltb_spec (c_p c) (c_end c)); [| safe_done].
    destruct (load8_cwf m c (c_p c) W) as [b Hb]; [unfold cwf in W; simpl in W; lia |].
    rewrite (bind_peek8 _ _ _ _ _ Hb), bind_goto.
    assert (F : frame (m, c) (m, set_p c (c_p c + 1))) by (apply frame_goto; lia).
    destruct (b =? 0); [eexists _, _; split; [reflexivity | done] |].
    destruct (IH _ (frame_cwf _ _ W F)) as (r & s' & E & F'). eauto using frame_trans. }
  destruct (H (m, c) W) as (r & s' & E & F). rewrite (run_bind _ _ _ _ _ E).
  eexists _, _; split; [reflexivity | done].
Qed.

#[export] Instance Safe_parse_str str : Safe (parse_str str).
Proof.
  apply Safe_cur_bind. intros m c W.
  destruct (Z.leb_spec (c_end c) (c_p c + zlen str)); [safe_done |].
  pose proof W as (?&?&?). simpl in *.
  rewrite (bind_peekn _ _ _ _ _ _
    (loadn_in_range m (c_p c) (zlen str) ltac:(lia) (zlen_nonneg _) ltac:(lia))).
  case_decide; [rewrite bind_goto |]; zl; safe_done.
Qed.

Lemma Safe_utf8_tail k : forall i cp len, Safe (utf8_tail k i cp len).
Proof.
  induction k as [| k IH]; intros i cp len; simpl; [apply Safe_ret |].
  apply Safe_bind; [apply _ |]. intros r. repeat apply Safe_if; try apply Safe_ret. apply IH.
Qed.
#[export] Existing Instance Safe_utf8_tail.

#[export] Instance Safe_parse_utf8_char cp len : Safe (parse_utf8_char cp len).
Proof.
  unfold parse_utf8_char. apply Safe_bind; [apply _ |]. intros [b |]; apply _.
Qed.

(** ** Consuming text *)

Lemma utf8_tail_spec k : forall i cp len s,
  cwf s -> 1 <= len ->
  exists ok cp' len', utf8_tail k i cp len s = Some ((ok, cp', len'), s) /\ 1 <= len' <= Z.max 1 len.
Proof.
  induction k as [| k IH]; intros i cp len s W Hlen; simpl.
  - eexists _, _, _. split; [reflexivity | lia].
  - assert (E : exists b, peek_char (i + 1) s = Some (b, s)).
    { destruct s as [m c]. unfold peek_char. rewrite bind_cur.
      destruct (Z.ltb_spec (c_p c + (i + 1)) (c_start c)), (Z.leb_spec (c_end c) (c_p c + (i + 1)));
        simpl; try (eexists; reflexivity).
      destruct (load8_cwf m c (c_p c + (i + 1)) W) as [b Hb]; [lia |].
      unfold peek8, bind, get, lift. simpl. rewrite Hb. eauto. }
    destruct E as [b E]. rewrite (run_bind _ _ _ _ _ E).
    destruct (_ =? -1); [eexists _, _, _; split; [reflexivity | lia] |].
    destruct (negb _); [eexists _, _, _; split; [reflexivity | lia] |].
    apply IH; [done | lia].
Qed.

(** Decoding a character never moves the cursor, and reports a length of one to
    four bytes. *)
Lemma parse_utf8_char_spec cp len s :
  cwf s -> 1 <= len <= 4 ->
  exists ok cp' len', parse_utf8_char cp len s = Some ((ok, cp', len'), s) /\ 1 <= len' <= 4.
Proof.
  intros W Hlen. destruct s as [m c]. unfold parse_utf8_char, parse_byte.
  unfold bind at 1. rewrite bind_cur.
  destruct (Z.leb_spec (c_end c) (c_p c)).
  - eexists _, _, _. split; [reflexivity | lia].
  - destruct (load8_cwf m c (c_p c) W) as [b Hb]; [unfold cwf in W; simpl in W; lia |].
    rewrite (bind_peek8 _ _ _ _ _ Hb). unfold ret at 1.
    repeat case_match;
      first [ eexists _, _, _; split; [reflexivity | lia]
            | match goal with |- context [utf8_tail ?k ?i ?cp ?len] =>
                destruct (utf8_tail_spec k i cp len (m, c) W) as (ok & cp' & len' & E & ?); [lia |]
              end; exists ok, cp', len'; split; [exact E | lia] ].
Qed.

#[export] Instance Safe_until_boundary : Safe consume_until_boundary.
Proof.
  apply Safe_cur_bind. intros m c W.
  generalize (Z.to_nat (c_end c - c_p c)) as k. intros k. revert m c W.
  induction k as [| k IH]; intros m c W; simpl; [safe_done |].
  rewrite bind_cur. destruct (Z.ltb_spec (c_p c) (c_end c)); [| safe_done].
  destruct (load8_cwf m c (c_p c) W) as [b Hb]; [unfold cwf in W; simpl in W; lia |].
  rewrite (bind_peek8 _ _ _ _ _ Hb). destruct (is_whitespace b); [safe_done |].
  assert (E : exists ok cp len,
    (if is_utf8_byte b then parse_utf8_char b 1 else ret (true, b, 1)) (m, c)
      = Some ((ok, cp, len), (m, c)) /\ 1 <= len <= 4).
  { destruct (is_utf8_byte b); [apply parse_utf8_char_spec; [done | lia] |].
    eexists _, _, _; split; [reflexivity | lia]. }
  destruct E as (ok & cp & len & E & Hlen). rewrite (run_bind _ _ _ _ _ E).
  destruct (negb ok && _); [safe_done |]. destruct (is_right_boundary cp); [safe_done |].
  rewrite bind_goto.
  assert (F : frame (m, c) (m, set_p c (if c_p c + len <=? c_end c then c_p c + len else c_p c + 1))).
  { apply frame_goto. destruct (Z.leb_spec (c_p c + len) (c_end c)); lia. }
  destruct (IH m _ (frame_cwf _ _ W F)) as (r & s' & E' & F'). eauto using frame_trans.
Qed.

Lemma Safe_until_loop stop k consumed or_end : Safe (until_loop stop k consumed or_end).
Proof.
  revert consumed. induction k as [| k IH]; intros consumed; simpl; [apply Safe_ret |].
  apply Safe_cur_bind. intros m c W. destruct (Z.ltb_spec (c_p c) (c_end c)); [| safe_done].
  destruct (load8_cwf m c (c_p c) W) as [b Hb]; [unfold cwf in W; simpl in W; lia |].
  rewrite (bind_peek8 _ _ _ _ _ Hb). destruct (stop b); [safe_done |]. rewrite bind_goto.
  assert (F : frame (m, c) (m, set_p c (c_p c + 1))) by (apply frame_goto; lia).
  destruct (IH true _ (frame_cwf _ _ W F)) as (r & s' & E' & F'). eauto using frame_trans.
Qed.
#[export] Existing Instance Safe_until_loop.

#[export] Instance Safe_until_whitespace or_end : Safe (consume_until_whitespace or_end).
Proof. apply Safe_cur_bind. intros. by apply Safe_until_loop. Qed.

#[export] Instance Safe_until_non_alphanumeric or_end :
  Safe (consume_until_non_alphanumeric or_end).
Proof. apply Safe_cur_bind. intros. by apply Safe_until_loop. Qed.

(** ** UTF-8 *)

(** The encoding of a code point above ASCII. *)
Definition utf8_bytes (cp : Z) : list Z :=
  if cp <? 0x800 then [0xC0 + cp / 64; 0x80 + cp mod 64]
  else if cp <? 0x10000 then [0xE0 + cp / 4096; 0x80 + cp / 64 mod 64; 0x80 + cp mod 64]
  else [0xF0 + cp / 262144; 0x80 + cp / 4096 mod 64; 0x80 + cp / 64 mod 64; 0x80 + cp mod 64].

Lemma utf8_continuation x :
  0 <= x < 64 ->
  (i8 (0x80 + x) =? -1) = false /\ Z.land (i8 (0x80 + x)) 0xC0 = 0x80 /\
  Z.land (i8 (0x80 + x)) 0x3F = x.
Proof.
  intros Hx.
  pose proof (Zrange_forallb 64 (fun x => negb (i8 (0x80 + x) =? -1) &&
    (Z.land (i8 (0x80 + x)) 0xC0 =? 0x80) && (Z.land (i8 (0x80 + x)) 0x3F =? x))
    ltac:(vm_compute; reflexivity) x Hx) as H.
  repeat rewrite andb_true_iff in H. rewrite negb_true_iff in H.
  destruct H as [[H1 H2] H3]. repeat split; [done | lia | lia].
Qed.

Lemma utf8_lead x :
  (0 <= x < 32 -> (0xC0 + x <? 0x80) = false /\ (Z.land (0xC0 + x) 0xE0 =? 0xC0) = true /\
     Z.land (0xC0 + x) 0x1F = x) /\
  (0 <= x < 16 -> (0xE0 + x <? 0x80) = false /\ (Z.land (0xE0 + x) 0xE0 =? 0xC0) = false /\
     (Z.land (0xE0 + x) 0xF0 =? 0xE0) = true /\ Z.land (0xE0 + x) 0x0F = x) /\
  (0 <= x < 8 -> (0xF0 + x <? 0x80) = false /\ (Z.land (0xF0 + x) 0xE0 =? 0xC0) = false /\
     (Z.land (0xF0 + x) 0xF0 =? 0xE0) = false /\ (Z.land (0xF0 + x) 0xF8 =? 0xF0) = true /\
     Z.land (0xF0 + x) 0x07 = x).
Proof.
  split; [| split]; intros Hx.
  - pose proof (Zrange_forallb 32 (fun x => (Z.land (0xC0 + x) 0xE0 =? 0xC0) &&
      (Z.land (0xC0 + x) 0x1F =? x)) ltac:(vm_compute; reflexivity) x Hx) as H.
    repeat rewrite andb_true_iff in H. destruct H. repeat split; try lia; done.
  - pose proof (Zrange_forallb 16 (fun x => negb (Z.land (0xE0 + x) 0xE0 =? 0xC0) &&
      (Z.land (0xE0 + x) 0xF0 =? 0xE0) && (Z.land (0xE0 + x) 0x0F =? x))
      ltac:(vm_compute; reflexivity) x Hx) as H.
    repeat rewrite andb_true_iff in H. rewrite negb_true_iff in H. destruct H as [[??]?].
    repeat split; try lia; done.
  - pose proof (Zrange_forallb 8 (fun x => negb (Z.land (0xF0 + x) 0xE0 =? 0xC0) &&
      negb (Z.land (0xF0 + x) 0xF0 =? 0xE0) && (Z.land (0xF0 + x) 0xF8 =? 0xF0) &&
      (Z.land (0xF0 + x) 0x07 =? x)) ltac:(vm_compute; reflexivity) x Hx) as H.
    repeat rewrite andb_true_iff in H. rewrite !negb_true_iff in H. destruct H as [[[??]?]?].
    repeat split; try lia; done.
Qed.

Lemma utf8_tail_step k i cp len m c x :
  load8 m (c_p c + (i + 1)) = Some (0x80 + x) -> 0 <= x < 64 -> 0 <= cp < 2 ^ 26 ->
  0 <= i -> c_start c <= c_p c -> c_p c + (i + 1) < c_end c ->
  utf8_tail (S k) i cp len (m, c) = utf8_tail k (i + 1) (cp * 64 + x) len (m, c).
Proof.
  intros Hl Hx Hcp Hi Hs He. simpl utf8_tail.
  assert (E : peek_char (i + 1) (m, c) = Some (0x80 + x, (m, c))).
  { unfold peek_char. rewrite bind_cur.
    destruct (Z.ltb_spec (c_p c + (i + 1)) (c_start c)), (Z.leb_spec (c_end c) (c_p c + (i + 1)));
      simpl; try lia.
    unfold peek8, bind, get, lift. simpl. by rewrite Hl. }
  rewrite (run_bind _ _ _ _ _ E).
  destruct (utf8_continuation x Hx) as (U1 & U2 & U3).
  rewrite U1, U2, U3. simpl.
  replace (Z.lor (u32 (Z.shiftl cp 6)) x) with (cp * 64 + x); [done |].
  unfold u32. rewrite Z.mod_small by (rewrite Z.shiftl_mul_pow2; lia).
  rewrite Z.lor_comm, lor_shiftl_add by lia. lia.
Qed.

(** The cursor is positioned on the bytes [l]. *)
Definition at_bytes (m : mem) (c : cursor) (l : list Z) : Prop :=
  0 <= c_start c <= c_p c /\ c_p c + zlen l <= c_end c /\ loadn m (c_p c) (zlen l) = Some l.

Lemma at_bytes_load8 m c l i b :
  at_bytes m c l -> l !! Z.to_nat i = Some b -> 0 <= i -> load8 m (c_p c + i) = Some b.
Proof.
  intros (_ & _ & H) Hb Hi. rewrite (loadn_load8 _ _ _ _ _ H); [done |].
  apply lookup_lt_Some in Hb. unfold zlen. lia.
Qed.

(** ** Properties *)

(** C26: writing a 64-bit integer as a varint and pulling it back from where it
    was written returns the integer and the number of bytes written; both
    operations stay in bounds. *)
Theorem varint_roundtrip n s :
  cwf s -> c_p (snd s) + zlen (varint n) <= c_end (snd s) ->
  exists len s', cursor_push_varint n s = Some (len, s') /\ 1 <= len <= 10 /\
    c_p (snd s') = c_p (snd s) + len /\
    cursor_pull_varint (fst s', snd s) = Some (Some (u64 n, len), (fst s', snd s')).
Proof.
  intros W Hr. destruct (cursor_push_varint_spec n s W) as [A _].
  destruct (A Hr) as (s' & E & P). exists (zlen (varint n)), s'.
  pose proof (varint_zlen n). pose proof P as [_ C].
  repeat split; try lia; [done | by rewrite C |].
  rewrite (cursor_pull_varint_spec n); [by rewrite C | done | by apply pushed_loadn].
Qed.

Definition demo_cursor (n : nat) : mem * cursor := (replicate n 0, make_cursor 0 (Z.of_nat n)).

Lemma demo_cwf n : cwf (demo_cursor n).
Proof. unfold cwf, demo_cursor. simpl. zl. Qed.

Lemma varint_roundtrip_witness :
  exists len s', cursor_push_varint 300 (demo_cursor 16) = Some (len, s') /\ 1 <= len <= 10 /\
    c_p (snd s') = 0 + len /\
    cursor_pull_varint (fst s', snd (demo_cursor 16)) = Some (Some (u64 300, len), (fst s', snd s')).
Proof.
  apply (varint_roundtrip 300 (demo_cursor 16)); [apply demo_cwf | vm_compute; congruence].
Defined.

(** [parse_utf8_char], at the UTF-8 encoding of a code point outside ASCII,
    succeeds with that code point and the length of its encoding, without
    moving the cursor. *)
Theorem parse_utf8_char_decodes cp cp0 len0 m c :
  0x80 <= cp < 0x200000 -> at_bytes m c (utf8_bytes cp) ->
  parse_utf8_char cp0 len0 (m, c) = Some ((true, cp, zlen (utf8_bytes cp)), (m, c)).
Proof.
  intros Hcp Hat. pose proof Hat as (Hs & He & _).
  assert (B : forall i b, utf8_bytes cp !! Z.to_nat i = Some b -> 0 <= i ->
    load8 m (c_p c + i) = Some b) by (intros; by eapply at_bytes_load8).
  assert (M : forall x, 0 <= x mod 64 < 64) by (intros; apply Z.mod_pos_bound; lia).
  pose proof (M cp). pose proof (M (cp / 64)). pose proof (M (cp / 4096)).
  pose proof (Z.div_mod cp 64 ltac:(lia)). pose proof (Z.div_mod (cp / 64) 64 ltac:(lia)).
  pose proof (Z.div_mod (cp / 4096) 64 ltac:(lia)).
  assert (D2 : cp / 64 / 64 = cp / 4096) by (by rewrite Z.div_div by lia).
  assert (D3 : cp / 4096 / 64 = cp / 262144) by (by rewrite Z.div_div by lia).
  unfold parse_utf8_char, parse_byte. unfold bind at 1. rewrite bind_cur.
  assert (HB0 : exists b0, load8 m (c_p c) = Some b0 /\ utf8_bytes cp !! 0%nat = Some b0).
  { destruct (utf8_bytes cp !! 0%nat) as [b0 |] eqn:E0.
    - exists b0. split; [| done]. rewrite <- (Z.add_0_r (c_p c)). by apply B.
    - exfalso. revert E0. unfold utf8_bytes. by repeat case_match. }
  destruct HB0 as (b0 & L0 & U0).
  destruct (Z.leb_spec (c_end c) (c_p c)) as [Hbad | Hlt].
  { exfalso. revert He. unfold utf8_bytes. repeat case_match; zl. }
  rewrite (bind_peek8 _ _ _ _ _ L0). unfold ret at 1.
  revert B He U0. unfold utf8_bytes.
  destruct (Z.ltb_spec cp 0x800); [| destruct (Z.ltb_spec cp 0x10000)]; intros B He [= <-];
    autorewrite with zlen in He.
  - destruct (proj1 (utf8_lead (cp / 64))) as (E1 & E2 & E3).
    { split; [apply Z.div_pos | apply Z.div_lt_upper_bound]; lia. }
    rewrite E1, E2, E3.
    rewrite (utf8_tail_step 0 0 _ _ _ _ (cp mod 64)); try lia; [| by apply (B 1)].
    simpl. unfold ret. do 5 f_equal. lia.
  - destruct (proj1 (proj2 (utf8_lead (cp / 4096)))) as (E1 & E2 & E3 & E4).
    { split; [apply Z.div_pos | apply Z.div_lt_upper_bound]; lia. }
    rewrite E1, E2, E3, E4.
    rewrite (utf8_tail_step 1 0 _ _ _ _ (cp / 64 mod 64)); try lia; [| by apply (B 1)].
    rewrite (utf8_tail_step 0 1 _ _ _ _ (cp mod 64)); try lia; [| by apply (B 2)].
    simpl. unfold ret. do 5 f_equal. lia.
  - destruct (proj2 (proj2 (utf8_lead (cp / 262144)))) as (E1 & E2 & E3 & E4 & E5).
    { split; [apply Z.div_pos | apply Z.div_lt_upper_bound]; lia. }
    rewrite E1, E2, E3, E4, E5.
    rewrite (utf8_tail_step 2 0 _ _ _ _ (cp / 4096 mod 64)); try lia; [| by apply (B 1)].
    rewrite (utf8_tail_step 1 1 _ _ _ _ (cp / 64 mod 64)); try lia; [| by apply (B 2)].
    rewrite (utf8_tail_step 0 2 _ _ _ _ (cp mod 64)); try lia; [| by apply (B 3)].
    simpl. unfold ret. do 5 f_equal. lia.
Qed.

(** U+4E0A, encoded in three bytes and followed by an ASCII letter. *)
Definition shang : mem := utf8_bytes 0x4E0A ++ [97].

Lemma parse_utf8_char_decodes_witness :
  parse_utf8_char 0 1 (shang, make_cursor 0 4) = Some ((true, 0x4E0A, 3), (shang, make_cursor 0 4)).
Proof.
  apply (parse_utf8_char_decodes 0x4E0A 0 1); [lia |].
  split; [simpl; lia |]. split; [vm_compute; congruence | reflexivity].
Defined.

(** a code point whose low eight bits are those of an ASCII whitespace
    character counts as a right boundary, whatever the code point is: the
    [int] is narrowed to a [char] on the way to [is_whitespace].  U+4E0A (low
    byte 0x0A) is such a character, so scanning a word that starts with it
    stops at once, and U+205F (low byte 0x5F, an underscore), in a range the
    code lists as punctuation, is not punctuation. *)
Theorem boundary_looks_at_low_byte cp :
  In (u8 cp) [9; 10; 11; 12; 13; 32] ->
  is_right_boundary cp = true /\
  consume_until_boundary (shang, make_cursor 0 4) = Some (true, (shang, make_cursor 0 4)) /\
  is_punctuation 0x205F = false.
Proof.
  intros H. split; [| split; vm_compute; reflexivity].
  assert (E : to_char cp = u8 cp).
  { unfold to_char, i8. fold (u8 (cp + 2 ^ 7)). unfold u8 in *.
    pose proof (Z.div_mod cp (2 ^ 8) ltac:(lia)) as D.
    set (r := cp mod 2 ^ 8) in *. set (q := cp / 2 ^ 8) in *.
    replace (cp + 2 ^ 7) with (r + 2 ^ 7 + q * 2 ^ 8) by lia.
    rewrite Z.mod_add by lia. rewrite Z.mod_small; [lia |].
    simpl in H. lia. }
  unfold is_right_boundary, is_whitespace. rewrite E.
  simpl in H. repeat destruct H as [<- | H]; reflexivity || done.
Qed.

Lemma boundary_looks_at_low_byte_witness :
  is_right_boundary 0x0420 = true /\
  consume_until_boundary (shang, make_cursor 0 4) = Some (true, (shang, make_cursor 0 4)) /\
  is_punctuation 0x205F = false.
Proof. apply (boundary_looks_at_low_byte 0x0420). vm_compute. tauto. Defined.

(** every text scanner of the cursor terminates, performs no out-of-bounds
    access, keeps the position between where it was and the end of the buffer,
    and leaves memory before the position and after the end alone. *)
Theorem text_scanners_in_bounds s (or_end : bool) :
  cwf s ->
  (exists r s', consume_until_boundary s = Some (r, s') /\ frame s s') /\
  (exists r s', consume_until_whitespace or_end s = Some (r, s') /\ frame s s') /\
  (exists r s', consume_until_non_alphanumeric or_end s = Some (r, s') /\ frame s s') /\
  (exists r s', cursor_pull_c_str s = Some (r, s') /\ frame s s').
Proof. intros W. repeat split; by apply safe_run. Qed.

Lemma text_scanners_in_bounds_witness :
  (exists r s', consume_until_boundary (demo_cursor 4) = Some (r, s') /\ frame (demo_cursor 4) s') /\
  (exists r s', consume_until_whitespace true (demo_cursor 4) = Some (r, s') /\ frame (demo_cursor 4) s') /\
  (exists r s', consume_until_non_alphanumeric true (demo_cursor 4) = Some (r, s') /\ frame (demo_cursor 4) s') /\
  (exists r s', cursor_pull_c_str (demo_cursor 4) = Some (r, s') /\ frame (demo_cursor 4) s').
Proof. apply (text_scanners_in_bounds (demo_cursor 4) true). apply demo_cwf. Defined.
