(* ===== verification/Words.v ===== *)
(** * Words of a text

    What a text is made of for the scanners of src/src/cursor.h: characters,
    words, and what is between them.  [consume_until_boundary] and
    [consume_whitespace_or_punctuation] find exactly these. *)

From S2P Require Export Cursor.
Open Scope Z_scope.
Open Scope ndb_scope.

(** ** The grammar

    A text from [lo] to [cend], in a memory. *)
Section Text.
Context (m : mem) (lo cend : Z).

(** There is a character at [x], and it passes the test. *)
Definition is_at (P : Z -> bool) (x : Z) : Prop := x < cend /\ exists c, load8 m x = Some c /\ P c = true.

(** From [p] the first place that stops is [q], or it is the end. *)
Definition until (stop : Z -> Prop) (p q : Z) : Prop :=
  p <= q <= cend /\ (forall x, p <= x < q -> ~ stop x) /\ (q < cend -> stop q).

(** What is decoded at [p]: whether it is well formed, the code point and the
    bytes it takes; bytes below 128 stand for themselves. *)
Definition decoded (p : Z) : option (bool * Z * Z) :=
  b ← load8 m p;
  if is_utf8_byte b then fst <$> parse_utf8_char b 1 (m, mk_cursor lo p cend) else Some (true, b, 1).

(** The code point at [p] and the bytes it takes, unless they are no UTF-8. *)
Definition rune (p : Z) : option (Z * Z) :=
  match decoded p with Some (true, cp, len) => Some (cp, len) | _ => None end.

(** A word ends at whitespace, at punctuation and at what is no character. *)
Definition word_ends (p : Z) : Prop :=
  is_at is_whitespace p \/ (p < cend /\ match rune p with Some (cp, _) => is_right_boundary cp = true | None => True end).

Inductive word : Z -> Z -> Prop :=
  | word_end p : p = cend \/ word_ends p -> word p p
  | word_more p cp len q : p < cend -> ~ word_ends p -> rune p = Some (cp, len) -> word (p + len) q -> word p q.

(** What is malformed ends the text, unless what was decoded of it looks like a
    boundary. *)
Definition breaks (p : Z) : Prop :=
  p < cend /\ ~ is_at is_whitespace p /\ exists cp len, decoded p = Some (false, cp, len) /\ is_right_boundary cp = false.

(** Whitespace and punctuation of one byte are passed over. *)
Definition gap : Z -> Z -> Prop := until (fun x => ~ is_at is_right_boundary x).

(** The words of the text from [p]: behind a gap a word to where it ends, and so
    on behind it.  Where punctuation of several bytes stands for a word, its first
    byte is passed over.  At the end, or where the text is malformed, there are no
    more words, and a word that runs into malformed bytes is none. *)
Inductive splits : Z -> list (list Z) -> Prop :=
  | splits_end p : gap p cend -> splits p []
  | splits_broken p a e : gap p a -> a < cend -> word a e -> breaks e -> splits p []
  | splits_mark p a ws : gap p a -> a < cend -> word a a -> ~ breaks a -> splits (a + 1) ws -> splits p ws
  | splits_word p a e w ws : gap p a -> word a e -> a < e <= cend -> ~ breaks e -> loadn m a (e - a) = Some w ->
      splits e ws -> splits p (w :: ws).
End Text.

Section Facts.
Context (m : mem) (lo cend : Z).

Lemma until_unique stop p q q' : until cend stop p q -> until cend stop p q' -> q = q'.
Proof.
  intros (H1 & H2 & H3) (H1' & H2' & H3'). destruct (Z.lt_trichotomy q q') as [H | [H | H]]; [| done |].
  - destruct (H2' q ltac:(lia)). apply H3. lia.
  - destruct (H2 q' ltac:(lia)). apply H3'. lia.
Qed.

Lemma is_at_inv P x c : load8 m x = Some c -> is_at m cend P x -> P c = true.
Proof. intros E (_ & c' & E' & H). congruence. Qed.
Lemma word_unique p q q' : word m lo cend p q -> word m lo cend p q' -> q = q'.
Proof.
  intros H. revert q'. induction H as [p Hend | p cp len q Hp Hn Hr _ IH]; intros q' H'.
  - inversion H' as [p' H1 E1 | p' cp len q1 H1 H2 H3 _ E1]; subst; [done |]. destruct Hend; [lia | done].
  - inversion H' as [p' H1 E1 | p' cp' len' q1 _ _ H3 H4 E1]; subst; [destruct H1; [lia | done] |].
    rewrite Hr in H3. injection H3 as <- <-. by apply IH.
Qed.

Lemma word_at_end q : word m lo cend cend q -> q = cend.
Proof. intros H. apply (word_unique cend); [done |]. constructor. by left. Qed.

(** A text has one sequence of words. *)
Lemma splits_unique p ws ws' : splits m lo cend p ws -> splits m lo cend p ws' -> ws = ws'.
Proof.
  intros H. revert ws'. induction H as [p Hg | p a e Hg Ha Hw Hb | p a ws Hg Ha Hw Hb _ IH | p a e w ws Hg Hw Ha Hb Hl _ IH];
    intros ws' H'; inversion H' as [p' Hg' E1 E2 | p' a' e' Hg' Ha' Hw' Hb' E1 E2 | p' a' ws1 Hg' Ha' Hw' Hb' Hs E1 | p' a' e' w' ws1 Hg' Hw' Ha' Hb' Hl' Hs E1];
    subst; try done; pose proof (until_unique _ _ _ _ Hg Hg') as Ea; subst;
    try lia; try (pose proof (word_unique _ _ _ Hw Hw'); subst); try done; try lia;
    try (apply word_at_end in Hw'; lia); try (apply word_at_end in Hw; lia).
  - by apply IH.
  - rewrite Hl in Hl'. injection Hl' as <-. f_equal. by apply IH.
Qed.

Lemma splits_at_end p : p = cend -> splits m lo cend p [].
Proof. intros ->. constructor. split; [lia |]. split; [lia | done || lia]. Qed.

(** Words are not empty and no longer than the text. *)
Lemma splits_words p ws : p <= cend -> splits m lo cend p ws -> Forall (fun w => w <> [] /\ zlen w <= cend - p) ws.
Proof.
  intros Hp H. induction H as [p Hg | p a e Hg Ha Hw Hb | p a ws Hg Ha Hw Hb _ IH | p a e w ws Hg Hw Ha Hb Hl Hs IH]; [constructor | constructor | |].
  - destruct Hg as [Hg _]. specialize (IH ltac:(lia)). revert IH. apply Forall_impl. intros w [? ?]. split; [done | lia].
  - destruct Hg as [Hg _]. specialize (IH ltac:(lia)). apply loadn_length in Hl. constructor.
    + split; [intros ->; change (zlen (@nil Z)) with 0 in Hl; lia | lia].
    + revert IH. apply Forall_impl. intros x [? ?]. split; [done | lia].
Qed.
End Facts.

(** ** Scanning

    A scanner runs in a memory [m] that has the text of [m0], with its cursor
    somewhere in it. *)
Section Scanning.
Context (m0 m : mem) (lo cend : Z).
Hypothesis (Hlo : 0 <= lo) (Same : forall x, lo <= x < cend -> load8 m x = load8 m0 x) (Hend : cend <= zlen m0).

Abbreviation at_ p := (mk_cursor lo p cend).

Lemma peek8_here x b mm c : load8 mm x = Some b -> peek8 x (mm, c) = Some (b, (mm, c)).
Proof using Type. intros H. unfold peek8, bind, get, lift. cbn [fst snd]. by rewrite H. Qed.

Lemma text_byte x : lo <= x < cend -> exists b, load8 m0 x = Some b /\ load8 m x = Some b.
Proof using Hlo Same Hend.
  intros Hx. destruct (proj2 (load8_is_Some m0 x) ltac:(lia)) as [b Hb]. exists b. by rewrite (Same x Hx).
Qed.

(** What is seen of a place before the end, or -1. *)
Lemma peek_at i p : lo <= p <= cend -> p + i <= cend -> exists r, peek_char i (m, at_ p) = Some (r, (m, at_ p)) /\
  peek_char i (m0, at_ p) = Some (r, (m0, at_ p)) /\ (r <> -1 -> lo <= p + i < cend) /\
  forall P, P (-1) = false -> (P r = true <-> lo <= p + i /\ is_at m0 cend P (p + i)).
Proof using Hlo Same Hend.
  intros Hp Hi. unfold peek_char. rewrite !bind_cur. cbn [c_p c_start c_end].
  destruct (Z.ltb_spec (p + i) lo), (Z.leb_spec cend (p + i)); cbn [orb];
    try (exists (-1); split; [done |]; split; [done |]; split; [done |]; intros P ->; split; [done |]; intros [H1 [H2 _]]; lia).
  destruct (text_byte (p + i) ltac:(lia)) as (b & Hb0 & Hb). exists b.
  rewrite (peek8_here _ _ _ _ Hb), (peek8_here _ _ _ _ Hb0). split; [done |]. split; [done |]. split; [lia |].
  intros P _. split; [intros HP; split; [lia |]; split; [lia | by exists b] | intros [_ H1]; exact (is_at_inv _ _ _ _ _ Hb0 H1)].
Qed.

Lemma until_here stop p : p <= cend -> (p < cend -> stop p) -> until cend stop p p.
Proof using Type. intros H1 H2. split; [lia |]. split; [lia | done]. Qed.

Lemma until_next stop p q : p < cend -> ~ stop p -> until cend stop (p + 1) q -> until cend stop p q.
Proof using Type.
  intros Hp Hs (H1 & H2 & H3). split; [lia |]. split; [| done]. intros x Hx. destruct (decide (x = p)) as [-> |]; [done |]. apply H2. lia.
Qed.

Lemma tail_at p k : forall i cp len, lo <= p < cend -> 0 <= i -> exists (ok : bool) cp' len',
  utf8_tail k i cp len (m, at_ p) = Some ((ok, cp', len'), (m, at_ p)) /\
  utf8_tail k i cp len (m0, at_ p) = Some ((ok, cp', len'), (m0, at_ p)) /\
  (ok = true -> len' = len /\ ((0 < k)%nat -> p + i + Z.of_nat k < cend)).
Proof using Hlo Same Hend.
  induction k as [| k IH]; intros i cp len Hp Hi; cbn [utf8_tail].
  { exists true, cp, len. split; [done |]. split; [done |]. split; [done | lia]. }
  destruct (decide (p + (i + 1) <= cend)) as [Hin | Hout].
  - destruct (peek_at (i + 1) p ltac:(lia) Hin) as (r & E & E0 & Hr & _). rewrite (run_bind _ _ _ _ _ E), (run_bind _ _ _ _ _ E0).
    destruct (Z.eqb_spec (i8 r) (-1)) as [| Hr1]; [by exists false, cp, 1 |]. assert (r <> -1) by (intros ->; apply Hr1; reflexivity).
    destruct (negb _); [by exists false, cp, 1 |].
    destruct (IH (i + 1) (Z.lor (u32 (Z.shiftl cp 6)) (Z.land (i8 r) 0x3F)) len Hp ltac:(lia)) as (ok & cp' & len' & E1 & E2 & Hok).
    exists ok, cp', len'. split; [done |]. split; [done |]. intros Ht. destruct (Hok Ht) as [-> Hk]. split; [done |]. intros _.
    specialize (Hr ltac:(done)). destruct k as [| k]; [lia | specialize (Hk ltac:(lia)); lia].
  - exists false, cp, 1. unfold peek_char. rewrite !bind_bind, !bind_cur. cbn [c_p c_start c_end].
    destruct (Z.ltb_spec (p + (i + 1)) lo), (Z.leb_spec cend (p + (i + 1))); cbn [orb]; try lia. done.
Qed.

Lemma rune_at p b : lo <= p < cend -> load8 m0 p = Some b ->
  exists (ok : bool) cp len, (if is_utf8_byte b then parse_utf8_char b 1 else ret (true, b, 1)) (m, at_ p) = Some ((ok, cp, len), (m, at_ p)) /\
    decoded m0 lo cend p = Some (ok, cp, len) /\ (ok = true -> 1 <= len /\ p + len <= cend).
Proof using Hlo Same Hend.
  intros Hp Hb0. unfold decoded. rewrite Hb0. cbn [mbind option_bind].
  destruct (is_utf8_byte b); [| exists true, b, 1; split; [done |]; split; [done | lia]].
  assert (Hb : load8 m p = Some b) by (rewrite Same by lia; done).
  unfold parse_utf8_char, parse_byte. rewrite !bind_bind, !bind_cur. cbn [c_p c_end].
  destruct (Z.leb_spec cend p); [lia |]. rewrite !bind_bind, (bind_peek8 _ _ _ _ _ Hb), (bind_peek8 _ _ _ _ _ Hb0), !run_ret.
  destruct (b <? 128); [exists true, b, 1; split; [done |]; split; [done | lia] |].
  assert (Ht : forall k cp len, (1 <= k)%nat -> len = Z.of_nat k + 1 -> exists (ok : bool) cp' len',
    utf8_tail k 0 cp len (m, at_ p) = Some ((ok, cp', len'), (m, at_ p)) /\
    fst <$> utf8_tail k 0 cp len (m0, at_ p) = Some (ok, cp', len') /\ (ok = true -> 1 <= len' /\ p + len' <= cend)).
  { intros k cp len Hk ->. destruct (tail_at p k 0 cp (Z.of_nat k + 1) Hp ltac:(lia)) as (ok & cp' & len' & E & E0 & Hok).
    exists ok, cp', len'. split; [done |]. rewrite E0. split; [done |]. intros Hx. destruct (Hok Hx) as [-> Hk']. lia. }
  destruct (_ =? 192); [apply Ht; lia |]. destruct (_ =? 224); [apply Ht; lia |]. destruct (_ =? 240); [apply Ht; lia |].
  exists false, (Z.shiftl (Z.land b 0xF0) 6), 1. done.
Qed.

(** A scan for a boundary finds the end of the word, and fails where the text is
    malformed. *)
Lemma boundary_at p : lo <= p <= cend ->
  exists (b : bool) q, consume_until_boundary (m, at_ p) = Some (b, (m, at_ q)) /\ p <= q <= cend /\ word m0 lo cend p q /\
    (b = false <-> breaks m0 lo cend q).
Proof using Hlo Same Hend.
  intros Hp. unfold consume_until_boundary. rewrite bind_cur. cbn [c_p c_end].
  assert (Hk : cend - p <= Z.of_nat (Z.to_nat (cend - p))) by lia. revert Hk. generalize (Z.to_nat (cend - p)) as k. intros k.
  revert p Hp. induction k as [| k IH]; intros p Hp Hk; cbn [until_boundary_loop].
  { exists true, p. split; [done |]. split; [lia |]. split; [constructor; left; lia |]. split; [done | intros [? _]; lia]. }
  rewrite bind_cur. cbn [c_p c_end]. destruct (Z.ltb_spec p cend) as [Hlt |].
  2: { exists true, p. split; [done |]. split; [lia |]. split; [constructor; left; lia |]. split; [done | intros [? _]; lia]. }
  destruct (text_byte p ltac:(lia)) as (b & Hb0 & Hb). rewrite (bind_peek8 _ _ _ _ _ Hb).
  destruct (is_whitespace b) eqn:Ew.
  { assert (Hw : is_at m0 cend is_whitespace p) by (split; [done | by exists b]).
    exists true, p. split; [done |]. split; [lia |]. split; [constructor; right; by left |]. split; [done | by intros (_ & Hn & _)]. }
  destruct (rune_at p b ltac:(lia) Hb0) as (ok & cp & len & E & Ed & Hlen). rewrite (run_bind _ _ _ _ _ E).
  assert (Nw : ~ is_at m0 cend is_whitespace p) by (intros Hs; pose proof (is_at_inv _ _ _ _ _ Hb0 Hs); congruence).
  assert (Hstop : forall r : bool, ok = false \/ is_right_boundary cp = true -> r = ok || is_right_boundary cp ->
    exists (b : bool) q, ret (S := mem * cursor) r (m, at_ p) = Some (b, (m, at_ q)) /\ p <= q <= cend /\ word m0 lo cend p q /\
      (b = false <-> breaks m0 lo cend q)).
  { intros r Hr Er. exists r, p. split; [done |]. split; [lia |]. split.
    - constructor. right. right. split; [done |]. unfold rune. rewrite Ed. by destruct ok, Hr.
    - rewrite Er. split.
      + intros [-> Hb']%orb_false_iff. split; [done |]. split; [done |]. by exists cp, len.
      + intros (_ & _ & cp' & len' & E' & Hb'). rewrite Ed in E'. injection E' as -> -> ->. exact Hb'. }
  destruct ok; cbn [negb andb].
  - destruct (is_right_boundary cp) eqn:Eb; [apply Hstop; [by right | done] |]. destruct (Hlen eq_refl) as [H1 H2]. rewrite bind_goto.
    destruct (Z.leb_spec (p + len) cend); [| lia]. destruct (IH (p + len) ltac:(lia) ltac:(lia)) as (r & q & E' & Hq & Hw & Hr).
    exists r, q. split; [exact E' |]. split; [lia |]. split; [| done]. eapply word_more; [done | | by unfold rune; rewrite Ed | done].
    intros [Hs | [_ Hs]]; [done | unfold rune in Hs; rewrite Ed in Hs; congruence].
  - destruct (is_right_boundary cp) eqn:Eb; cbn [negb]; apply Hstop; rewrite ?Eb; by left + done.
Qed.

(** A scan over whitespace and punctuation finds the end of the gap. *)
Lemma gap_at p : lo <= p <= cend ->
  exists q, consume_whitespace_or_punctuation (m, at_ p) = Some (tt, (m, at_ q)) /\ gap m0 cend p q.
Proof using Hlo Same Hend.
  intros Hp. unfold consume_whitespace_or_punctuation. rewrite bind_cur. cbn [c_p c_end].
  assert (Hk : cend - p <= Z.of_nat (Z.to_nat (cend - p))) by lia. revert Hk. generalize (Z.to_nat (cend - p)) as k. intros k.
  revert p Hp. induction k as [| k IH]; intros p Hp Hk; cbn [whitespace_or_punctuation_loop].
  { exists p. split; [done |]. apply until_here; lia. }
  rewrite bind_cur. cbn [c_p c_end]. destruct (Z.ltb_spec p cend).
  2: { exists p. split; [done |]. apply until_here; lia. }
  destruct (text_byte p ltac:(lia)) as (b & Hb0 & Hb). rewrite (bind_peek8 _ _ _ _ _ Hb). destruct (is_right_boundary b) eqn:Eb.
  - rewrite bind_goto. destruct (IH (p + 1) ltac:(lia) ltac:(lia)) as (q & E & G). exists q. split; [exact E |].
    apply until_next; [done | | done]. intros Hn. apply Hn. split; [done | by exists b].
  - exists p. split; [done |]. apply until_here; [lia |]. intros _ Hn. pose proof (is_at_inv _ _ _ _ _ Hb0 Hn). congruence.
Qed.
End Scanning.
