(* ===== verification/Order.v ===== *)
(** * Three-way comparison

    The comparators LMDB is given must be total orders, or its B-trees are
    corrupt.  This file holds the interface ([TotalCmp]), closed under the
    constructions the key layouts use (integers, byte strings, lexicographic
    products, injective images), and [memcmp] with LMDB's own byte-string
    order built on it. *)

From S2P Require Export Prelude.

Class TotalCmp {A} (cmp : A -> A -> comparison) : Prop := {
  cmp_eq : forall x y, cmp x y = Eq <-> x = y;
  cmp_antisym : forall x y, cmp y x = CompOpp (cmp x y);
  cmp_trans : forall x y z, cmp x y = Lt -> cmp y z = Lt -> cmp x z = Lt
}.

#[export] Instance TotalCmp_Z : TotalCmp Z.compare.
Proof.
  split.
  - apply Z.compare_eq_iff.
  - apply Z.compare_antisym.
  - intros x y z. rewrite !Z.compare_lt_iff. lia.
Qed.

(** Lexicographic composition of two results. *)
Definition lex (c1 c2 : comparison) : comparison :=
  match c1 with Eq => c2 | _ => c1 end.

Definition pair_cmp {A B} (ca : A -> A -> comparison) (cb : B -> B -> comparison)
    (x y : A * B) : comparison :=
  lex (ca (fst x) (fst y)) (cb (snd x) (snd y)).

Lemma cmp_refl {A} (cmp : A -> A -> comparison) `{!TotalCmp cmp} x : cmp x x = Eq.
Proof. by apply cmp_eq. Qed.

#[export] Instance TotalCmp_pair {A B} (ca : A -> A -> comparison) (cb : B -> B -> comparison) :
  TotalCmp ca -> TotalCmp cb -> TotalCmp (pair_cmp ca cb).
Proof.
  intros Ha Hb. split.
  - intros [a b] [a' b']. unfold pair_cmp, lex. simpl. split.
    + destruct (ca a a') eqn:E; [| discriminate | discriminate].
      apply (cmp_eq (cmp := ca)) in E as ->. intros ->%(cmp_eq (cmp := cb)). done.
    + intros [= -> ->]. by rewrite (cmp_refl ca), (cmp_refl cb).
  - intros [a b] [a' b']. unfold pair_cmp, lex. simpl.
    rewrite (cmp_antisym (cmp := ca) a). destruct (ca a a'); simpl; try done.
    apply (cmp_antisym (cmp := cb)).
  - intros [a b] [a' b'] [a'' b'']. unfold pair_cmp, lex. simpl.
    destruct (ca a a') eqn:E1; intros H1; try discriminate.
    + apply (cmp_eq (cmp := ca)) in E1 as ->. destruct (ca a' a''); try done.
      intros. by eapply (cmp_trans (cmp := cb)).
    + destruct (ca a' a'') eqn:E2; intros H2; try discriminate.
      * apply (cmp_eq (cmp := ca)) in E2 as ->. by rewrite E1.
      * by rewrite (cmp_trans (cmp := ca) a a' a'' E1 E2).
Qed.

Lemma TotalCmp_image {A B} (f : A -> B) (cb : B -> B -> comparison) :
  (forall x y, f x = f y -> x = y) -> TotalCmp cb -> TotalCmp (fun x y => cb (f x) (f y)).
Proof.
  intros Hinj H. split; intros.
  - rewrite cmp_eq. split; [apply Hinj | congruence].
  - apply cmp_antisym.
  - by eapply (cmp_trans (cmp := cb)).
Qed.

(** Byte strings: lexicographic, a proper prefix first. *)
Fixpoint bytes_cmp (a b : list Z) : comparison :=
  match a, b with
  | [], [] => Eq
  | [], _ :: _ => Lt
  | _ :: _, [] => Gt
  | x :: a, y :: b => lex (Z.compare x y) (bytes_cmp a b)
  end.

#[export] Instance TotalCmp_bytes : TotalCmp bytes_cmp.
Proof.
  split.
  - induction x as [| a x IH]; intros [| b y]; simpl; try done.
    destruct (Z.compare_spec a b) as [-> | H | H]; simpl.
    + rewrite IH. split; [by intros -> | by intros [=]].
    + split; [done | intros [=]; lia].
    + split; [done | intros [=]; lia].
  - induction x as [| a x IH]; intros [| b y]; simpl; try done.
    rewrite (Z.compare_antisym a b). unfold lex. destruct (a ?= b); simpl; auto.
  - induction x as [| a x IH]; intros [| b y] [| c z]; simpl; try done.
    destruct (Z.compare_spec a b) as [-> | H | H]; simpl; try done;
      destruct (Z.compare_spec b c) as [-> | H' | H']; simpl; try done.
    + apply IH.
    + by destruct (Z.compare_spec a c); try lia.
    + intros _ _. destruct (Z.compare_spec a c) as [E | E | E]; simpl; done || lia.
Qed.

(** ** C's three-way results *)

Definition sgn (c : comparison) : Z :=
  match c with Lt => -1 | Eq => 0 | Gt => 1 end.

Definition u64_cmp (a b : Z) : Z := if a <? b then -1 else if b <? a then 1 else 0.

Lemma u64_cmp_sgn a b : u64_cmp a b = sgn (a ?= b).
Proof.
  unfold u64_cmp. destruct (Z.compare_spec a b); subst; simpl;
    repeat match goal with |- context [?x <? ?y] => destruct (Z.ltb_spec x y) end; lia.
Qed.

(** [if (cmp) return cmp;] in front of the rest. *)
Definition orelse (cmp : Z) (rest : option Z) : option Z :=
  if cmp =? 0 then rest else Some cmp.

Lemma orelse_sgn c1 c2 : orelse (sgn c1) (Some (sgn c2)) = Some (sgn (lex c1 c2)).
Proof. by destruct c1. Qed.

(** [memcmp] on two blocks of the same size (the sign is all callers use). *)
Fixpoint memcmp (a b : list Z) : Z :=
  match a, b with
  | x :: a, y :: b => if x =? y then memcmp a b else if x <? y then -1 else 1
  | _, _ => 0
  end.

Lemma memcmp_sgn a b : length a = length b -> memcmp a b = sgn (bytes_cmp a b).
Proof.
  revert b. induction a as [| x a IH]; intros [| y b]; simpl; try done.
  intros [= H]. rewrite (IH _ H).
  destruct (Z.compare_spec x y) as [-> | C | C]; simpl.
  - by rewrite Z.eqb_refl.
  - destruct (Z.eqb_spec x y), (Z.ltb_spec x y); lia.
  - destruct (Z.eqb_spec x y), (Z.ltb_spec x y); lia.
Qed.

Lemma memcmp_refl a : memcmp a a = 0.
Proof. induction a; simpl; [done |]. by rewrite Z.eqb_refl. Qed.

Lemma memcmp_zero a b : length a = length b -> memcmp a b = 0 <-> a = b.
Proof.
  intros H. rewrite (memcmp_sgn _ _ H). rewrite <- (cmp_eq (cmp := bytes_cmp)).
  by destruct (bytes_cmp a b).
Qed.

(** [strcmp] on C strings without their terminators. *)
Definition strcmp (a b : list Z) : Z := sgn (bytes_cmp a b).
