(* ===== verification/Keys.v ===== *)
(** * Database keys (src/src/nostrdb.c, the key builders and comparators)

    Each index of the database has a key layout, a builder and a three-way
    comparator handed to LMDB.  The layouts are byte lists; the comparators
    read them back field by field ([None] when a field lies outside the key,
    which the C code would read anyway).  The theorems show that each
    comparator is the lexicographic order of the fields the index is meant to
    be sorted by, hence a total order. *)

From S2P Require Export Cursor Order.

(** Run a cursor computation over a fresh cursor on [start, end). *)
Definition with_cursor {A} (start end_ : Z) (w : CM A) : M mem A :=
  fun m => match w (m, make_cursor start end_) with
           | None => None
           | Some (a, (m', _)) => Some (a, m')
           end.

(** [cur.p - cur.start] *)
Definition cursor_used : CM Z := let* c := cur in ret (c_p c - c_start c).

Definition INT32_MAX : Z := 2 ^ 31 - 1.
Definition UINT64_MAX : Z := 2 ^ 64 - 1.

(** ** The full-text key *)

(** The results of [cursor_push_varint] are tested with [!]. *)
Definition push_varint_ok (n : Z) : CM bool :=
  let* r := cursor_push_varint n in ret (negb (r =? 0)).

Definition ndb_make_text_search_key (word_index : Z) (word : list Z)
    (timestamp note_id : Z) : CM (option Z) :=
  let* ok := push_varint_ok (i32 note_id) &&*
             push_varint_ok (zlen word) &&*
             cursor_push_lowercase word &&*
             push_varint_ok (i32 timestamp) &&*
             push_varint_ok word_index &&*
             cursor_align 8 in
  if ok : bool then let* n := cursor_used in ret (Some n) else ret None.

Definition ndb_make_noted_text_search_key (word : list Z) (timestamp note_id : Z) :
    CM (option Z) := ndb_make_text_search_key 0 word timestamp note_id.

Definition ndb_make_text_search_key_low (word : list Z) (since : Z) : CM (option Z) :=
  ndb_make_text_search_key 0 word since 0.

Definition ndb_make_text_search_key_high (word : list Z) (until : Z) : CM (option Z) :=
  ndb_make_text_search_key 0 word until INT32_MAX.

(** The unpacked key; [str] is the address of the word. *)
Record ndb_text_search_key := mk_text_key {
  tk_str : Z; tk_str_len : Z; tk_timestamp : Z; tk_note_id : Z; tk_word_index : Z
}.

Definition ndb_unpack_text_search_key_noteid : CM (option Z) :=
  let* r := cursor_pull_varint in ret (option_map fst r).

Definition ndb_unpack_text_search_key_string : CM (option (Z * Z)) :=
  let* r := cursor_pull_varint in
  match r with
  | None => ret None
  | Some (len, _) =>
      let str_len := i32 len in
      let* c := cur in
      let* ok := cursor_skip str_len in
      ret (if ok : bool then Some (c_p c, str_len) else None)
  end.

Definition ndb_unpack_remaining_text_search_key : CM (option (Z * Z)) :=
  let* r := cursor_pull_varint in
  match r with
  | None => ret None
  | Some (timestamp, _) =>
      let* r := cursor_pull_varint in
      ret (option_map (fun r => (timestamp, fst r)) r)
  end.

Definition ndb_unpack_text_search_key : CM (option ndb_text_search_key) :=
  let* r := ndb_unpack_text_search_key_noteid in
  match r with
  | None => ret None
  | Some note_id =>
      let* r := ndb_unpack_text_search_key_string in
      match r with
      | None => ret None
      | Some (str, str_len) =>
          let* r := ndb_unpack_remaining_text_search_key in
          ret (match r with
               | None => None
               | Some (timestamp, word_index) =>
                   Some (mk_text_key str str_len timestamp note_id word_index)
               end)
      end
  end.

(** ** Comparators *)

(** LMDB's lexical order on byte strings. *)
Definition mdb_cmp_memn (a b : list Z) : Z :=
  let len := Z.to_nat (Z.min (zlen a) (zlen b)) in
  let diff := memcmp (take len a) (take len b) in
  if diff =? 0 then
    if zlen a <? zlen b then -1 else if zlen b <? zlen a then 1 else 0
  else diff.

(** A 64-bit little-endian field of a key. *)
Definition u64_at (l : list Z) (off : Z) : option Z := le_int <$> loadn l off 8.

Definition ndb_tag_key_compare (a b : list Z) : option Z :=
  va ← loadn a 0 (zlen a - 8);
  vb ← loadn b 0 (zlen b - 8);
  let cmp := mdb_cmp_memn va vb in
  if negb (cmp =? 0) then Some cmp
  else
    ts_a ← u64_at a (zlen a - 8);
    ts_b ← u64_at b (zlen b - 8);
    Some (u64_cmp ts_a ts_b).

Definition whole (l : list Z) : mem * cursor := (l, make_cursor 0 (zlen l)).

(** Pull one varint from each key; [None] inside is a failed pull. *)
Definition pull2 (sa sb : mem * cursor) :
    option (option (Z * Z) * (mem * cursor) * (mem * cursor)) :=
  match cursor_pull_varint sa with
  | None => None
  | Some (None, sa) => Some (None, sa, sb)
  | Some (Some (va, _), sa) =>
      match cursor_pull_varint sb with
      | None => None
      | Some (None, sb) => Some (None, sa, sb)
      | Some (Some (vb, _), sb) => Some (Some (va, vb), sa, sb)
      end
  end.

Definition advance (s : mem * cursor) (n : Z) : mem * cursor :=
  (fst s, set_p (snd s) (c_p (snd s) + n)).

Definition ndb_text_search_key_compare (a b : list Z) : option Z :=
  '(nid, ca, cb) ← pull2 (whole a) (whole b);
  match nid with None => Some 0 | Some (nid_a, nid_b) =>
    '(size, ca, cb) ← pull2 ca cb;
    match size with None => Some 0 | Some (sa, sb) =>
      a2 ← loadn a (c_p (snd ca)) sa;
      b2 ← loadn b (c_p (snd cb)) sb;
      orelse (mdb_cmp_memn a2 b2)
        ('(ts, ca, cb) ← pull2 (advance ca sa) (advance cb sb);
         match ts with None => Some 0 | Some (ta, tb) =>
           orelse (u64_cmp ta tb)
             (orelse (u64_cmp nid_a nid_b)
               ('(wi, _, _) ← pull2 ca cb;
                match wi with None => Some 0 | Some (wa, wb) => Some (u64_cmp wa wb) end))
         end)
    end
  end.

(** *** Clustered keys *)

Definition ndb_tsid_init (id : list Z) (timestamp : Z) : list Z := id ++ le_bytes 8 timestamp.
Definition ndb_tsid_low (id : list Z) : list Z := id ++ le_bytes 8 0.
Definition ndb_tsid_high (id : list Z) : list Z := id ++ le_bytes 8 UINT64_MAX.

Definition ndb_u64_ts_init (integer timestamp : Z) : list Z :=
  le_bytes 8 integer ++ le_bytes 8 timestamp.

Definition ndb_id_u64_ts_init (id : list Z) (iu64 timestamp : Z) : list Z :=
  id ++ le_bytes 8 iu64 ++ le_bytes 8 timestamp.

Definition ndb_tsid_compare (a b : list Z) : option Z :=
  ida ← loadn a 0 32; idb ← loadn b 0 32;
  orelse (mdb_cmp_memn ida idb)
    (ta ← u64_at a 32; tb ← u64_at b 32; Some (u64_cmp ta tb)).

Definition ndb_u64_ts_compare (a b : list Z) : option Z :=
  ua ← u64_at a 0; ub ← u64_at b 0;
  orelse (u64_cmp ua ub)
    (ta ← u64_at a 8; tb ← u64_at b 8; Some (u64_cmp ta tb)).

Definition ndb_id_u64_ts_compare (a b : list Z) : option Z :=
  ida ← loadn a 0 32; idb ← loadn b 0 32;
  orelse (mdb_cmp_memn ida idb)
    (ua ← u64_at a 32; ub ← u64_at b 32;
     orelse (u64_cmp ua ub)
       (ta ← u64_at a 40; tb ← u64_at b 40; Some (u64_cmp ta tb))).

(** *** Profile search keys *)

(** Lower-case at most [n] characters and fill with NULs. *)
Fixpoint lowercase_strncpy (n : nat) (src : list Z) : list Z :=
  match n, src with
  | O, _ => []
  | S n, [] => 0 :: lowercase_strncpy n []
  | S n, c :: src => tolower c :: lowercase_strncpy n src
  end.

(** [search] (24 bytes), [id] (32 bytes), [timestamp]. *)
Definition ndb_make_search_key (id : list Z) (timestamp : Z) (search : list Z) : list Z :=
  lowercase_strncpy 23 search ++ [0] ++ id ++ le_bytes 8 timestamp.

Definition ndb_make_search_key_low (search : list Z) : list Z :=
  lowercase_strncpy 23 search ++ [0] ++ replicate 32 0 ++ le_bytes 8 0.

Definition ndb_search_key_cmp (a b : list Z) : option Z :=
  a2 ← loadn a 0 56; b2 ← loadn b 0 56;
  orelse (mdb_cmp_memn a2 b2)
    (ta ← u64_at a 56; tb ← u64_at b 56; Some (u64_cmp ta tb)).

(** *** Tag keys *)

Definition ndb_encode_tag_key (buf_size tag : Z) (val : list Z) (timestamp : Z) :
    CM (option Z) :=
  if buf_size <=? zlen val then ret None
  else
    let* ok := cursor_push_byte tag &&* cursor_push val &&*
               cursor_push (le_bytes 8 timestamp) in
    if ok : bool then let* n := cursor_used in ret (Some n) else ret None.

(** *** Relay keys *)

Record ndb_relay_kind_key := mk_relay_key {
  rk_note_key : Z; rk_kind : Z; rk_created_at : Z; rk_relay_len : Z; rk_relay : list Z
}.

(** [relay_len] is a byte: the length is reduced before it is tested. *)
Definition ndb_relay_kind_key_init (note_key kind created_at : Z) (relay : option (list Z)) :
    option ndb_relay_kind_key :=
  match relay with
  | None => None
  | Some relay =>
      let relay_len := u8 (zlen relay) in
      if 248 <? relay_len then None
      else Some (mk_relay_key note_key kind created_at relay_len relay)
  end.

Definition ndb_relay_kind_key_init_high (relay : option (list Z)) (kind until : Z) :
    option ndb_relay_kind_key :=
  ndb_relay_kind_key_init UINT64_MAX kind until relay.

(** The bytes of a C string up to its terminator. *)
Fixpoint c_string (l : list Z) : list Z :=
  match l with
  | [] => []
  | c :: l => if c =? 0 then [] else c :: c_string l
  end.

Definition ndb_parse_relay_kind_key (buf : list Z) : option ndb_relay_kind_key :=
  note_key ← u64_at buf 0;
  kind ← u64_at buf 8;
  created_at ← u64_at buf 16;
  relay_len ← load8 buf 24;
  Some (mk_relay_key note_key kind created_at relay_len (c_string (drop 25 buf))).

Definition ndb_build_relay_kind_key (key : ndb_relay_kind_key) : CM (option Z) :=
  let* ok := cursor_push (le_bytes 8 (rk_note_key key)) &&*
             cursor_push (le_bytes 8 (rk_kind key)) &&*
             cursor_push (le_bytes 8 (rk_created_at key)) &&*
             cursor_push_byte (rk_relay_len key) &&*
             cursor_push (take (Z.to_nat (rk_relay_len key)) (rk_relay key)) &&*
             cursor_push_byte 0 &&*
             cursor_align 8 in
  if ok : bool then let* n := cursor_used in ret (Some n) else ret None.

Definition prepare_relay_buf (relay : list Z) : CM (option Z) :=
  let* ok := cursor_push relay &&* cursor_push_byte 0 &&* cursor_align 8 in
  if ok : bool then let* n := cursor_used in ret (Some n) else ret None.

Definition ndb_relay_kind_cmp (a b : list Z) : option Z :=
  la ← load8 a 24; lb ← load8 b 24;
  va ← loadn a 25 la; vb ← loadn b 25 lb;
  orelse (mdb_cmp_memn va vb)
    (ka ← u64_at a 8; kb ← u64_at b 8;
     orelse (u64_cmp ka kb)
       (ta ← u64_at a 16; tb ← u64_at b 16;
        orelse (u64_cmp ta tb)
          (na ← u64_at a 0; nb ← u64_at b 0; Some (u64_cmp na nb)))).

Definition is_replaceable_kind (kind : Z) : bool :=
  (kind =? 0) || (kind =? 3) || ((10000 <=? kind) && (kind <? 20000)) ||
  ((30000 <=? kind) && (kind <? 40000)).

#[export] Typeclasses Opaque push_varint_ok.

(** * Lemmas *)

(** ** Reading fields *)

Lemma loadn_mid l pre x post off n :
  l = pre ++ x ++ post -> off = zlen pre -> n = zlen x -> loadn l off n = Some x.
Proof.
  intros -> -> ->. rewrite loadn_in_range by zl. f_equal.
  rewrite !to_nat_zlen, drop_app_length. apply take_app_length.
Qed.

Lemma u64_at_mid l pre v post off :
  l = pre ++ le_bytes 8 v ++ post -> off = zlen pre -> is_u64 v -> u64_at l off = Some v.
Proof.
  intros -> -> Hv. unfold u64_at.
  rewrite (loadn_mid _ pre (le_bytes 8 v) post _ 8); [| done | done | by rewrite zlen_le_bytes].
  simpl fmap. f_equal. apply (le_int_le_bytes_small 8). exact Hv.
Qed.

(** [field l off pre x post] reads the field [x], at [off] in [l = pre ++ x ++ post]. *)
Ltac field_side :=
  first [ done
        | (try match goal with |- ?b = _ => is_var b; unfold b end);
          by rewrite <- ?app_assoc, ?app_nil_r
        | autorewrite with zlen; lia ].
Ltac field l off pre x post :=
  first [ rewrite (loadn_mid l pre x post off) by field_side
        | rewrite (u64_at_mid l pre x post off) by field_side ].

Lemma pull_varint_app pre n post st e :
  zlen pre + zlen (varint n) <= e ->
  cursor_pull_varint (pre ++ varint n ++ post, mk_cursor st (zlen pre) e) =
    Some (Some (u64 n, zlen (varint n)),
          (pre ++ varint n ++ post, mk_cursor st (zlen pre + zlen (varint n)) e)).
Proof.
  intros He. rewrite (cursor_pull_varint_spec n); [done | done |].
  by apply (loadn_mid _ pre (varint n) post).
Qed.

(** ** The byte-string order *)

Lemma bytes_cmp_take n a b :
  bytes_cmp a b = lex (bytes_cmp (take n a) (take n b)) (bytes_cmp (drop n a) (drop n b)).
Proof.
  revert a b. induction n as [| n IH]; intros [| x a] [| y b]; simpl; try done.
  rewrite (IH a b). by destruct (x ?= y).
Qed.

Lemma mdb_cmp_memn_sgn a b : mdb_cmp_memn a b = sgn (bytes_cmp a b).
Proof.
  unfold mdb_cmp_memn. set (n := Z.to_nat (Z.min (zlen a) (zlen b))).
  assert (L : length (take n a) = length (take n b)).
  { rewrite !length_take. unfold n, zlen. lia. }
  rewrite (memcmp_sgn _ _ L), (bytes_cmp_take n a b).
  destruct (bytes_cmp (take n a) (take n b)); simpl; try done.
  destruct (Z.ltb_spec (zlen a) (zlen b)), (Z.ltb_spec (zlen b) (zlen a)); try lia.
  - rewrite (drop_ge a) by (unfold n, zlen in *; lia).
    destruct (drop n b) eqn:E; [| done].
    apply (f_equal length) in E. rewrite length_drop in E. unfold n, zlen in *. simpl in E. lia.
  - rewrite (drop_ge b) by (unfold n, zlen in *; lia).
    destruct (drop n a) eqn:E; [| done].
    apply (f_equal length) in E. rewrite length_drop in E. unfold n, zlen in *. simpl in E. lia.
  - rewrite (drop_ge a), (drop_ge b) by (unfold n, zlen in *; lia). done.
Qed.

(** ** The comparator interface

    What an index promises LMDB: on well-formed keys the comparator returns
    the sign of a total order on the key's fields. *)
Class LmdbKey (K : Type) := {
  key_bytes : K -> list Z;
  key_wf : K -> Prop;
  key_compare : list Z -> list Z -> option Z;
  key_ord : K -> K -> comparison;
  key_total : TotalCmp key_ord;
  key_compare_ok : forall k1 k2, key_wf k1 -> key_wf k2 ->
    key_compare (key_bytes k1) (key_bytes k2) = Some (sgn (key_ord k1 k2))
}.

(** Distinct well-formed keys of an index have distinct encodings. *)
Lemma key_bytes_inj {K} `{LmdbKey K} k1 k2 :
  key_wf k1 -> key_wf k2 -> key_bytes k1 = key_bytes k2 -> k1 = k2.
Proof.
  intros W1 W2 E. pose proof (key_compare_ok k1 k2 W1 W2) as C.
  rewrite E, (key_compare_ok k2 k2 W2 W2) in C. pose proof key_total as T.
  rewrite (cmp_refl key_ord) in C.
  apply (cmp_eq (cmp := key_ord)). by destruct (key_ord k1 k2).
Qed.

Definition id_wf (id : list Z) : Prop := zlen id = 32.

(** pubkey (or other id) and timestamp *)
Record tsid := mk_tsid { ts_id : list Z; ts_timestamp : Z }.
Definition tsid_tuple (k : tsid) := (ts_id k, ts_timestamp k).

#[export] Instance tsid_key : LmdbKey tsid.
Proof.
  refine {| key_bytes k := ndb_tsid_init (ts_id k) (ts_timestamp k);
            key_wf k := id_wf (ts_id k) /\ is_u64 (ts_timestamp k);
            key_compare := ndb_tsid_compare;
            key_ord k1 k2 := pair_cmp bytes_cmp Z.compare (tsid_tuple k1) (tsid_tuple k2) |}.
  - apply (TotalCmp_image tsid_tuple); [by intros [] [] [= -> ->] | apply _].
  - intros [i1 t1] [i2 t2] [I1 T1] [I2 T2]. unfold id_wf in *. simpl in *.
    unfold ndb_tsid_compare, ndb_tsid_init.
    set (k1 := i1 ++ _). set (k2 := i2 ++ _).
    field k1 0 (@nil Z) i1 (le_bytes 8 t1). field k2 0 (@nil Z) i2 (le_bytes 8 t2). cbn [mbind option_bind].
    field k1 32 i1 t1 (@nil Z). field k2 32 i2 t2 (@nil Z). cbn [mbind option_bind].
    by rewrite mdb_cmp_memn_sgn, u64_cmp_sgn, orelse_sgn.
Defined.

(** kind and timestamp *)
Record u64_ts := mk_u64_ts { ut_u64 : Z; ut_timestamp : Z }.
Definition u64_ts_tuple (k : u64_ts) := (ut_u64 k, ut_timestamp k).

#[export] Instance u64_ts_key : LmdbKey u64_ts.
Proof.
  refine {| key_bytes k := ndb_u64_ts_init (ut_u64 k) (ut_timestamp k);
            key_wf k := is_u64 (ut_u64 k) /\ is_u64 (ut_timestamp k);
            key_compare := ndb_u64_ts_compare;
            key_ord k1 k2 := pair_cmp Z.compare Z.compare (u64_ts_tuple k1) (u64_ts_tuple k2) |}.
  - apply (TotalCmp_image u64_ts_tuple); [by intros [] [] [= -> ->] | apply _].
  - intros [u1 t1] [u2 t2] [U1 T1] [U2 T2]. simpl in *.
    unfold ndb_u64_ts_compare, ndb_u64_ts_init.
    set (k1 := le_bytes 8 u1 ++ _). set (k2 := le_bytes 8 u2 ++ _).
    field k1 0 (@nil Z) u1 (le_bytes 8 t1). field k2 0 (@nil Z) u2 (le_bytes 8 t2). cbn [mbind option_bind].
    field k1 8 (le_bytes 8 u1) t1 (@nil Z). field k2 8 (le_bytes 8 u2) t2 (@nil Z). cbn [mbind option_bind].
    by rewrite !u64_cmp_sgn, orelse_sgn.
Defined.

(** pubkey, kind and timestamp *)
Record id_u64_ts := mk_id_u64_ts { iu_id : list Z; iu_u64 : Z; iu_timestamp : Z }.
Definition id_u64_ts_tuple (k : id_u64_ts) := (iu_id k, (iu_u64 k, iu_timestamp k)).

#[export] Instance id_u64_ts_key : LmdbKey id_u64_ts.
Proof.
  refine {| key_bytes k := ndb_id_u64_ts_init (iu_id k) (iu_u64 k) (iu_timestamp k);
            key_wf k := id_wf (iu_id k) /\ is_u64 (iu_u64 k) /\ is_u64 (iu_timestamp k);
            key_compare := ndb_id_u64_ts_compare;
            key_ord k1 k2 := pair_cmp bytes_cmp (pair_cmp Z.compare Z.compare)
                               (id_u64_ts_tuple k1) (id_u64_ts_tuple k2) |}.
  - apply (TotalCmp_image id_u64_ts_tuple); [by intros [] [] [= -> -> ->] | apply _].
  - intros [i1 u1 t1] [i2 u2 t2] (I1 & U1 & T1) (I2 & U2 & T2). unfold id_wf in *. simpl in *.
    unfold ndb_id_u64_ts_compare, ndb_id_u64_ts_init.
    set (k1 := i1 ++ _). set (k2 := i2 ++ _).
    field k1 0 (@nil Z) i1 (le_bytes 8 u1 ++ le_bytes 8 t1).
    field k2 0 (@nil Z) i2 (le_bytes 8 u2 ++ le_bytes 8 t2). cbn [mbind option_bind].
    field k1 32 i1 u1 (le_bytes 8 t1). field k2 32 i2 u2 (le_bytes 8 t2). cbn [mbind option_bind].
    field k1 40 (i1 ++ le_bytes 8 u1) t1 (@nil Z). field k2 40 (i2 ++ le_bytes 8 u2) t2 (@nil Z).
    cbn [mbind option_bind]. by rewrite mdb_cmp_memn_sgn, !u64_cmp_sgn, !orelse_sgn.
Defined.

(** *** Profile search keys *)

Lemma bytes_cmp_app a1 a2 b1 b2 :
  length a1 = length a2 ->
  bytes_cmp (a1 ++ b1) (a2 ++ b2) = lex (bytes_cmp a1 a2) (bytes_cmp b1 b2).
Proof.
  revert a2. induction a1 as [| x a1 IH]; intros [| y a2]; simpl; try done.
  intros [= H]. rewrite (IH _ H). by destruct (x ?= y).
Qed.

Record search_key := mk_search_key { sk_search : list Z; sk_id : list Z; sk_timestamp : Z }.
Definition search_key_tuple (k : search_key) := (sk_search k, (sk_id k, sk_timestamp k)).

#[export] Instance search_key_key : LmdbKey search_key.
Proof.
  refine {| key_bytes k := sk_search k ++ sk_id k ++ le_bytes 8 (sk_timestamp k);
            key_wf k := zlen (sk_search k) = 24 /\ id_wf (sk_id k) /\ is_u64 (sk_timestamp k);
            key_compare := ndb_search_key_cmp;
            key_ord k1 k2 := pair_cmp bytes_cmp (pair_cmp bytes_cmp Z.compare)
                               (search_key_tuple k1) (search_key_tuple k2) |}.
  - apply (TotalCmp_image search_key_tuple); [by intros [] [] [= -> -> ->] | apply _].
  - intros [s1 i1 t1] [s2 i2 t2] (S1 & I1 & T1) (S2 & I2 & T2). unfold id_wf in *. simpl in *.
    unfold ndb_search_key_cmp. set (k1 := s1 ++ _). set (k2 := s2 ++ _).
    field k1 0 (@nil Z) (s1 ++ i1) (le_bytes 8 t1). field k2 0 (@nil Z) (s2 ++ i2) (le_bytes 8 t2).
    cbn [mbind option_bind].
    field k1 56 (s1 ++ i1) t1 (@nil Z). field k2 56 (s2 ++ i2) t2 (@nil Z).
    cbn [mbind option_bind].
    rewrite mdb_cmp_memn_sgn, u64_cmp_sgn, orelse_sgn.
    rewrite bytes_cmp_app by (unfold zlen in *; lia).
    unfold pair_cmp, search_key_tuple. simpl. by destruct (bytes_cmp s1 s2).
Defined.

(** *** Tag keys *)

Record tag_key := mk_tag_key { tg_tag : Z; tg_val : list Z; tg_timestamp : Z }.
Definition tag_key_tuple (k : tag_key) := (tg_tag k :: tg_val k, tg_timestamp k).

#[export] Instance tag_key_key : LmdbKey tag_key.
Proof.
  refine {| key_bytes k := (tg_tag k :: tg_val k) ++ le_bytes 8 (tg_timestamp k);
            key_wf k := is_u64 (tg_timestamp k);
            key_compare := ndb_tag_key_compare;
            key_ord k1 k2 := pair_cmp bytes_cmp Z.compare (tag_key_tuple k1) (tag_key_tuple k2) |}.
  - apply (TotalCmp_image tag_key_tuple); [by intros [] [] [= -> -> ->] | apply _].
  - intros [g1 v1 t1] [g2 v2 t2] T1 T2. cbn [tg_tag tg_val tg_timestamp] in *.
    unfold ndb_tag_key_compare, tag_key_tuple. cbn [tg_tag tg_val tg_timestamp].
    set (h1 := g1 :: v1). set (h2 := g2 :: v2).
    assert (L1 : zlen (h1 ++ le_bytes 8 t1) - 8 = zlen h1) by (autorewrite with zlen; lia).
    assert (L2 : zlen (h2 ++ le_bytes 8 t2) - 8 = zlen h2) by (autorewrite with zlen; lia).
    rewrite L1, L2. set (k1 := h1 ++ _). set (k2 := h2 ++ _).
    field k1 0 (@nil Z) h1 (le_bytes 8 t1). field k2 0 (@nil Z) h2 (le_bytes 8 t2).
    cbn [mbind option_bind].
    field k1 (zlen h1) h1 t1 (@nil Z). field k2 (zlen h2) h2 t2 (@nil Z).
    cbn [mbind option_bind].
    rewrite mdb_cmp_memn_sgn, u64_cmp_sgn. unfold pair_cmp. simpl fst. simpl snd.
    by destruct (bytes_cmp h1 h2).
Defined.

(** *** Relay keys *)

Definition align_pad (size : Z) : list Z := replicate (Z.to_nat (padding 3 size)) 0.

Definition relay_key_body (k : ndb_relay_kind_key) : list Z :=
  le_bytes 8 (rk_note_key k) ++ le_bytes 8 (rk_kind k) ++ le_bytes 8 (rk_created_at k) ++
  [rk_relay_len k] ++ rk_relay k ++ [0].

Definition relay_key_bytes (k : ndb_relay_kind_key) : list Z :=
  relay_key_body k ++ align_pad (zlen (relay_key_body k)).

Definition relay_key_wf (k : ndb_relay_kind_key) : Prop :=
  is_u64 (rk_note_key k) /\ is_u64 (rk_kind k) /\ is_u64 (rk_created_at k) /\
  rk_relay_len k = zlen (rk_relay k).

Definition relay_key_tuple (k : ndb_relay_kind_key) :=
  (rk_relay k, (rk_kind k, (rk_created_at k, (rk_note_key k, rk_relay_len k)))).

#[export] Instance relay_kind_key : LmdbKey ndb_relay_kind_key.
Proof.
  refine {| key_bytes := relay_key_bytes;
            key_wf := relay_key_wf;
            key_compare := ndb_relay_kind_cmp;
            key_ord k1 k2 := pair_cmp bytes_cmp (pair_cmp Z.compare (pair_cmp Z.compare
                               (pair_cmp Z.compare Z.compare)))
                               (relay_key_tuple k1) (relay_key_tuple k2) |}.
  - apply (TotalCmp_image relay_key_tuple); [by intros [] [] [= -> -> -> -> ->] | apply _].
  - intros [n1 k1 c1 l1 r1] [n2 k2 c2 l2 r2] (N1 & K1 & C1 & L1) (N2 & K2 & C2 & L2).
    cbn [rk_note_key rk_kind rk_created_at rk_relay_len rk_relay] in *. subst l1 l2.
    unfold ndb_relay_kind_cmp, relay_key_bytes.
    generalize (align_pad (zlen (relay_key_body (mk_relay_key n1 k1 c1 (zlen r1) r1)))) as p1.
    generalize (align_pad (zlen (relay_key_body (mk_relay_key n2 k2 c2 (zlen r2) r2)))) as p2.
    intros p2 p1. unfold relay_key_body.
    cbn [rk_note_key rk_kind rk_created_at rk_relay_len rk_relay] in *.
    assert (B1 : forall n k c (r p : list Z), load8 ((le_bytes 8 n ++ le_bytes 8 k ++ le_bytes 8 c ++
      [zlen r] ++ r ++ [0]) ++ p) 24 = Some (zlen r)) by (intros; reflexivity).
    rewrite !B1. cbn [mbind option_bind].
    set (b1 := (le_bytes 8 n1 ++ le_bytes 8 k1 ++ le_bytes 8 c1 ++ [zlen r1] ++ r1 ++ [0]) ++ p1).
    set (b2 := (le_bytes 8 n2 ++ le_bytes 8 k2 ++ le_bytes 8 c2 ++ [zlen r2] ++ r2 ++ [0]) ++ p2).
    field b1 25 (le_bytes 8 n1 ++ le_bytes 8 k1 ++ le_bytes 8 c1 ++ [zlen r1]) r1 ([0] ++ p1).
    field b2 25 (le_bytes 8 n2 ++ le_bytes 8 k2 ++ le_bytes 8 c2 ++ [zlen r2]) r2 ([0] ++ p2).
    cbn [mbind option_bind].
    field b1 8 (le_bytes 8 n1) k1 (le_bytes 8 c1 ++ [zlen r1] ++ r1 ++ [0] ++ p1).
    field b2 8 (le_bytes 8 n2) k2 (le_bytes 8 c2 ++ [zlen r2] ++ r2 ++ [0] ++ p2).
    cbn [mbind option_bind].
    field b1 16 (le_bytes 8 n1 ++ le_bytes 8 k1) c1 ([zlen r1] ++ r1 ++ [0] ++ p1).
    field b2 16 (le_bytes 8 n2 ++ le_bytes 8 k2) c2 ([zlen r2] ++ r2 ++ [0] ++ p2).
    cbn [mbind option_bind].
    field b1 0 (@nil Z) n1 (le_bytes 8 k1 ++ le_bytes 8 c1 ++ [zlen r1] ++ r1 ++ [0] ++ p1).
    field b2 0 (@nil Z) n2 (le_bytes 8 k2 ++ le_bytes 8 c2 ++ [zlen r2] ++ r2 ++ [0] ++ p2).
    cbn [mbind option_bind].
    rewrite mdb_cmp_memn_sgn, !u64_cmp_sgn, !orelse_sgn. do 2 f_equal.
    unfold pair_cmp, relay_key_tuple, lex. simpl.
    destruct (bytes_cmp r1 r2) eqn:E; [| done | done].
    apply (cmp_eq (cmp := bytes_cmp)) in E as ->. rewrite Z.compare_refl.
    by destruct (k1 ?= k2), (c1 ?= c2), (n1 ?= n2).
Defined.

(** *** Full-text keys *)

Definition text_key_body (word_index : Z) (word : list Z) (timestamp note_id : Z) : list Z :=
  varint note_id ++ varint (zlen word) ++ word ++ varint timestamp ++ varint word_index.

Record text_key := mk_text { tx_word : list Z; tx_timestamp : Z; tx_note_id : Z; tx_index : Z }.
Definition text_key_tuple (k : text_key) :=
  (tx_word k, (tx_timestamp k, (tx_note_id k, tx_index k))).

Definition text_key_bytes (k : text_key) : list Z :=
  let body := text_key_body (tx_index k) (tx_word k) (tx_timestamp k) (tx_note_id k) in
  body ++ align_pad (zlen body).

Definition text_key_wf (k : text_key) : Prop :=
  zlen (tx_word k) < 2 ^ 31 /\ is_u64 (tx_timestamp k) /\ is_u64 (tx_note_id k) /\
  is_u64 (tx_index k).

Lemma u64_id z : is_u64 z -> u64 z = z.
Proof. apply Z.mod_small. Qed.

Lemma zlen_u64 {A} (l : list A) : zlen l < 2 ^ 31 -> is_u64 (zlen l).
Proof. unfold is_u64. zl. Qed.

(** Pull a varint at [pre] from both keys. *)
Lemma pull2_app pre1 n1 post1 st1 e1 pre2 n2 post2 st2 e2 :
  zlen pre1 + zlen (varint n1) <= e1 -> zlen pre2 + zlen (varint n2) <= e2 ->
  pull2 (pre1 ++ varint n1 ++ post1, mk_cursor st1 (zlen pre1) e1)
        (pre2 ++ varint n2 ++ post2, mk_cursor st2 (zlen pre2) e2) =
  Some (Some (u64 n1, u64 n2),
        (pre1 ++ varint n1 ++ post1, mk_cursor st1 (zlen pre1 + zlen (varint n1)) e1),
        (pre2 ++ varint n2 ++ post2, mk_cursor st2 (zlen pre2 + zlen (varint n2)) e2)).
Proof. intros H1 H2. unfold pull2. by rewrite !pull_varint_app. Qed.

Lemma pull2_at l1 pre1 n1 post1 st1 p1 e1 l2 pre2 n2 post2 st2 p2 e2 :
  l1 = pre1 ++ varint n1 ++ post1 -> p1 = zlen pre1 -> e1 = zlen l1 ->
  l2 = pre2 ++ varint n2 ++ post2 -> p2 = zlen pre2 -> e2 = zlen l2 ->
  is_u64 n1 -> is_u64 n2 ->
  pull2 (l1, mk_cursor st1 p1 e1) (l2, mk_cursor st2 p2 e2) =
  Some (Some (n1, n2), (l1, mk_cursor st1 (p1 + zlen (varint n1)) e1),
        (l2, mk_cursor st2 (p2 + zlen (varint n2)) e2)).
Proof.
  intros -> -> -> -> -> -> N1 N2. rewrite pull2_app; [by rewrite !u64_id | |]; zl.
Qed.

Section TextCompare.
Context (k1 k2 : text_key) (W1 : text_key_wf k1) (W2 : text_key_wf k2).

Local Abbreviation pads k :=
  (align_pad (zlen (text_key_body (tx_index k) (tx_word k) (tx_timestamp k) (tx_note_id k)))).
Local Abbreviation b1 := (text_key_bytes k1).
Local Abbreviation b2 := (text_key_bytes k2).
Local Abbreviation h1 := (varint (tx_note_id k1) ++ varint (zlen (tx_word k1))).
Local Abbreviation h2 := (varint (tx_note_id k2) ++ varint (zlen (tx_word k2))).

Lemma text_compare_spec :
  ndb_text_search_key_compare b1 b2 =
    Some (sgn (pair_cmp bytes_cmp (pair_cmp Z.compare (pair_cmp Z.compare Z.compare))
      (text_key_tuple k1) (text_key_tuple k2))).
Proof using W1 W2.
  destruct W1 as (A1 & A2 & A3 & A4), W2 as (B1 & B2 & B3 & B4).
  assert (E : forall k, text_key_bytes k = varint (tx_note_id k) ++ varint (zlen (tx_word k)) ++
    tx_word k ++ varint (tx_timestamp k) ++ varint (tx_index k) ++ pads k).
  { intros k. unfold text_key_bytes, text_key_body. by rewrite <- !app_assoc. }
  unfold ndb_text_search_key_compare, whole, make_cursor.
  rewrite (pull2_at _ [] (tx_note_id k1) _ _ _ _ _ [] (tx_note_id k2)) with (1 := E k1) (4 := E k2)
    by done.
  cbn [mbind option_bind].
  rewrite (pull2_at _ (varint (tx_note_id k1)) (zlen (tx_word k1)) _ _ _ _
                    _ (varint (tx_note_id k2)) (zlen (tx_word k2)))
    with (1 := E k1) (4 := E k2) by (done || by apply zlen_u64).
  cbn [mbind option_bind fst snd c_p].
  rewrite (loadn_mid b1 h1 (tx_word k1) (varint (tx_timestamp k1) ++ varint (tx_index k1) ++ pads k1))
    by (rewrite ?E, <- ?app_assoc; zl; done).
  rewrite (loadn_mid b2 h2 (tx_word k2) (varint (tx_timestamp k2) ++ varint (tx_index k2) ++ pads k2))
    by (rewrite ?E, <- ?app_assoc; zl; done).
  cbn [mbind option_bind]. unfold advance, set_p. cbn [fst snd c_p c_start c_end].
  rewrite (pull2_at b1 (h1 ++ tx_word k1) (tx_timestamp k1) (varint (tx_index k1) ++ pads k1) _ _ _
                    b2 (h2 ++ tx_word k2) (tx_timestamp k2) (varint (tx_index k2) ++ pads k2))
    by (rewrite ?E, <- ?app_assoc; zl; done).
  cbn [mbind option_bind].
  rewrite (pull2_at b1 (h1 ++ tx_word k1 ++ varint (tx_timestamp k1)) (tx_index k1) (pads k1) _ _ _
                    b2 (h2 ++ tx_word k2 ++ varint (tx_timestamp k2)) (tx_index k2) (pads k2))
    by (rewrite ?E, <- ?app_assoc; zl; done).
  cbn [mbind option_bind].
  by rewrite mdb_cmp_memn_sgn, !u64_cmp_sgn, !orelse_sgn.
Qed.
End TextCompare.

#[export] Instance text_key_key : LmdbKey text_key.
Proof.
  refine {| key_bytes := text_key_bytes; key_wf := text_key_wf;
            key_compare := ndb_text_search_key_compare;
            key_ord k1 k2 := pair_cmp bytes_cmp (pair_cmp Z.compare (pair_cmp Z.compare Z.compare))
                               (text_key_tuple k1) (text_key_tuple k2) |}.
  - apply (TotalCmp_image text_key_tuple); [by intros [] [] [= -> -> -> ->] | apply _].
  - intros. by apply text_compare_spec.
Defined.

(** ** Building keys *)

(** The success half of [Emits], for writers whose failures go unnoticed. *)
Class Writes (w : CM bool) (d : list Z) (r : Z) : Prop := writes_intro {
  writes_room : zlen d <= r;
  writes_ok : forall s, cwf s -> c_p (snd s) + r <= c_end (snd s) ->
    exists s', w s = Some (true, s') /\ pushed s d s'
}.

#[export] Instance Emits_Writes w d r : Emits w d r -> Writes w d r.
Proof. intros []. by split. Qed.

#[export] Instance Writes_andM w1 d1 r1 w2 d2 r2 :
  Writes w1 d1 r1 -> Writes w2 d2 r2 ->
  Writes (w1 &&* w2) (d1 ++ d2) (Z.max r1 (zlen d1 + r2)).
Proof.
  intros [R1 O1] [R2 O2]. split; [zl |]. intros s W Hr.
  destruct (O1 s W) as (s1 & E1 & P1); [lia |].
  assert (cwf s1) by (eapply frame_cwf; [done |]; eapply pushed_frame; eauto; lia).
  pose proof P1 as [_ C1].
  destruct (O2 s1) as (s2 & E2 & P2); [done | rewrite C1; simpl; lia |].
  exists s2. unfold andM. rewrite (run_bind _ _ _ _ _ E1). eauto using pushed_app.
Qed.

#[export] Instance Writes_varint n : Writes (push_varint_ok n) (varint n) (zlen (varint n)).
Proof.
  split; [lia |]. intros s W Hr. destruct (cursor_push_varint_spec n s W) as [A _].
  destruct (A Hr) as (s' & E & P). exists s'. unfold push_varint_ok.
  rewrite (run_bind _ _ _ _ _ E). pose proof (varint_zlen n).
  unfold ret. destruct (Z.eqb_spec (zlen (varint n)) 0); [lia | done].
Qed.

Lemma writes_eq w d d' r r' : d = d' -> r = r' -> Writes w d r -> Writes w d' r'.
Proof. by intros -> ->. Qed.

Lemma padding_range k size : 0 <= k -> 0 <= padding k size < 2 ^ k.
Proof. intros. apply Z.mod_pos_bound, Z.pow_pos_nonneg; lia. Qed.

Lemma zlen_align_pad size : zlen (align_pad size) = padding 3 size.
Proof. unfold align_pad. rewrite zlen_replicate, Z2Nat.id; [done |]. by apply padding_range. Qed.

Lemma cursor_align_8 s :
  cwf s -> let size := c_p (snd s) - c_start (snd s) in
  c_p (snd s) + padding 3 size < c_end (snd s) ->
  exists s', cursor_align 8 s = Some (true, s') /\ pushed s (align_pad size) s'.
Proof.
  destruct s as [m c]. intros W size Hr. simpl in *. pose proof W as (?&?&?). simpl in *.
  unfold cursor_align. rewrite bind_cur. fold size.
  change (8 - 1) with (2 ^ 3 - 1). rewrite align_up_pow2 by (unfold size; lia).
  pose proof (padding_range 3 size ltac:(lia)).
  destruct (Z.ltb_spec 0 (padding 3 size)).
  - destruct (Emits_memset 0 (padding 3 size)) as [_ O _]; [lia |].
    destruct (O (m, c) W) as (s' & E & P); [simpl; lia |]. eauto.
  - exists (m, c). split; [done |]. unfold align_pad. replace (padding 3 size) with 0 by lia.
    by apply pushed_nil.
Qed.

Definition aligned (w : CM bool) : CM (option Z) :=
  let* ok := w &&* cursor_align 8 in
  if ok : bool then let* n := cursor_used in ret (Some n) else ret None.

(** Every padded key: the body, zeros up to a multiple of eight, the size. *)
Lemma aligned_spec w d r m start end_ :
  Writes w d r -> cwf (m, make_cursor start end_) ->
  start + r <= end_ -> start + zlen (d ++ align_pad (zlen d)) < end_ ->
  let key := d ++ align_pad (zlen d) in
  exists m', aligned w (m, make_cursor start end_) =
      Some (Some (zlen key), (m', mk_cursor start (start + zlen key) end_)) /\
    storen m start key = Some m' /\ zlen key mod 8 = 0.
Proof.
  intros [_ O] W Hr Hk key. rewrite zlen_app, zlen_align_pad in Hk.
  destruct (O _ W Hr) as (s1 & E1 & P1).
  pose proof (zlen_nonneg d). pose proof (padding_range 3 (zlen d) ltac:(lia)).
  assert (W1 : cwf s1) by (eapply frame_cwf; [done |]; eapply pushed_frame; eauto; simpl; lia).
  pose proof P1 as [_ C1]. simpl in C1.
  destruct (cursor_align_8 s1 W1) as (s2 & E2 & P2).
  { rewrite C1. simpl. replace (start + zlen d - start) with (zlen d) by lia. lia. }
  rewrite C1 in P2. simpl in P2. replace (start + zlen d - start) with (zlen d) in P2 by lia.
  pose proof (pushed_app _ _ _ _ _ P1 P2) as [S2 C2]. fold key in S2, C2. simpl in S2, C2.
  exists (fst s2). split; [| split].
  - assert (E : (w &&* cursor_align 8) (m, make_cursor start end_) = Some (true, s2)).
    { unfold andM. by rewrite (run_bind _ _ _ _ _ E1). }
    unfold aligned. rewrite (run_bind _ _ _ _ _ E).
    destruct s2 as [m2 c2]. simpl in C2. subst c2.
    unfold cursor_used, set_p. simpl. unfold bind, cur, get, ret. simpl. do 3 f_equal. lia.
  - done.
  - unfold key. rewrite zlen_app, zlen_align_pad. unfold padding. change (2 ^ 3) with 8.
    rewrite Z.add_mod_idemp_r by lia. by rewrite Z.add_opp_r, Z.sub_diag.
Qed.

Lemma u64_idem z : u64 (u64 z) = u64 z.
Proof. apply Z.mod_mod. lia. Qed.

Lemma varint_u64 n : varint (u64 n) = varint n.
Proof. unfold varint. by rewrite u64_idem. Qed.

(** The fields a key is built from, after the code's conversions: the word
    lower-cased, the note id and the timestamp narrowed to [int]. *)
Definition text_key_of (word_index : Z) (word : list Z) (timestamp note_id : Z) : text_key :=
  mk_text (map tolower word) (u64 (i32 timestamp)) (u64 (i32 note_id)) (u64 word_index).

Lemma text_key_of_wf wi word ts nid :
  zlen word < 2 ^ 31 -> text_key_wf (text_key_of wi word ts nid).
Proof.
  intros. unfold text_key_wf, text_key_of. simpl. pose proof u64_range.
  repeat split; try apply u64_range. unfold zlen. rewrite length_map. done.
Qed.

Lemma make_text_search_key_spec wi word ts nid m start end_ :
  let k := text_key_of wi word ts nid in
  cwf (m, make_cursor start end_) -> start + zlen (text_key_bytes k) < end_ ->
  exists m', ndb_make_text_search_key wi word ts nid (m, make_cursor start end_) =
      Some (Some (zlen (text_key_bytes k)),
            (m', mk_cursor start (start + zlen (text_key_bytes k)) end_)) /\
    storen m start (text_key_bytes k) = Some m' /\ zlen (text_key_bytes k) mod 8 = 0.
Proof.
  intros k W Hr.
  assert (L : zlen (map tolower word) = zlen word) by (unfold zlen; by rewrite length_map).
  set (w := push_varint_ok (i32 nid) &&* push_varint_ok (zlen word) &&*
            cursor_push_lowercase word &&* push_varint_ok (i32 ts) &&* push_varint_ok wi).
  set (body := text_key_body (tx_index k) (tx_word k) (tx_timestamp k) (tx_note_id k)).
  assert (Hw : exists r, r <= zlen body + 1 /\ Writes w body r).
  { pose proof (varint_zlen (i32 ts)). pose proof (varint_zlen wi).
    eexists. split; [| eapply writes_eq; [| reflexivity |]; [| unfold w; apply _]].
    - unfold body, text_key_body, k, text_key_of. cbn [tx_index tx_word tx_timestamp tx_note_id]. rewrite !varint_u64, L. zl.
    - unfold body, text_key_body, k, text_key_of. cbn [tx_index tx_word tx_timestamp tx_note_id]. by rewrite !varint_u64, L, <- !app_assoc. }
  destruct Hw as (r & Hr' & Hw). pose proof (zlen_nonneg (align_pad (zlen body))).
  apply (aligned_spec w body r m start end_ Hw W); unfold text_key_bytes in Hr; fold body in Hr.
  - rewrite zlen_app in Hr. lia.
  - done.
Qed.

#[global] Opaque cursor_pull_varint cursor_push_varint varint.

Lemma unpack_noteid_spec n m c :
  c_p c + zlen (varint n) <= c_end c ->
  loadn m (c_p c) (zlen (varint n)) = Some (varint n) ->
  ndb_unpack_text_search_key_noteid (m, c) =
    Some (Some (u64 n), (m, set_p c (c_p c + zlen (varint n)))).
Proof.
  intros He L. unfold ndb_unpack_text_search_key_noteid.
  by rewrite (run_bind _ _ _ _ _ (cursor_pull_varint_spec n m c He L)).
Qed.

Lemma unpack_string_spec (word : list Z) m c :
  let v := varint (zlen word) in
  zlen word < 2 ^ 31 -> c_p c + zlen v + zlen word < c_end c ->
  loadn m (c_p c) (zlen v) = Some v ->
  ndb_unpack_text_search_key_string (m, c) =
    Some (Some (c_p c + zlen v, zlen word), (m, set_p c (c_p c + zlen v + zlen word))).
Proof.
  intros v Hw He L. pose proof (zlen_nonneg word). assert (c_p c + zlen v <= c_end c) as He' by lia.
  unfold ndb_unpack_text_search_key_string.
  rewrite (run_bind _ _ _ _ _ (cursor_pull_varint_spec (zlen word) m c He' L)). fold v.
  assert (I : i32 (u64 (zlen word)) = zlen word).
  { rewrite u64_id by (by apply zlen_u64). unfold i32. rewrite Z.mod_small; lia. }
  rewrite bind_cur, I.
  assert (S : cursor_skip (zlen word) (m, set_p c (c_p c + zlen v)) =
    Some (true, (m, set_p c (c_p c + zlen v + zlen word)))).
  { unfold cursor_skip. rewrite bind_cur. cbn [set_p c_p c_end c_start].
    destruct (Z.leb_spec (c_end c) (c_p c + zlen v + zlen word)); [lia | done]. }
  by rewrite (run_bind _ _ _ _ _ S).
Qed.

Lemma unpack_remaining_spec ts wi m c :
  c_p c + zlen (varint ts) + zlen (varint wi) <= c_end c ->
  loadn m (c_p c) (zlen (varint ts)) = Some (varint ts) ->
  loadn m (c_p c + zlen (varint ts)) (zlen (varint wi)) = Some (varint wi) ->
  ndb_unpack_remaining_text_search_key (m, c) =
    Some (Some (u64 ts, u64 wi), (m, set_p c (c_p c + zlen (varint ts) + zlen (varint wi)))).
Proof.
  intros He L1 L2. pose proof (zlen_nonneg (varint wi)).
  unfold ndb_unpack_remaining_text_search_key.
  assert (He1 : c_p c + zlen (varint ts) <= c_end c) by lia.
  rewrite (run_bind _ _ _ _ _ (cursor_pull_varint_spec ts m c He1 L1)).
  set (c1 := set_p c (c_p c + zlen (varint ts))).
  assert (He2 : c_p c1 + zlen (varint wi) <= c_end c1) by (unfold c1; simpl; lia).
  by rewrite (run_bind _ _ _ _ _ (cursor_pull_varint_spec wi m c1 He2 L2)).
Qed.

Lemma unpack_text_search_key_spec k m c :
  text_key_wf k -> c_end c = c_p c + zlen (text_key_bytes k) ->
  loadn m (c_p c) (zlen (text_key_bytes k)) = Some (text_key_bytes k) ->
  exists c', ndb_unpack_text_search_key (m, c) =
    Some (Some (mk_text_key
      (c_p c + zlen (varint (tx_note_id k)) + zlen (varint (zlen (tx_word k))))
      (zlen (tx_word k)) (tx_timestamp k) (tx_note_id k) (tx_index k)), (m, c')).
Proof.
  intros (W1 & W2 & W3 & W4) He Hl. unfold text_key_bytes, text_key_body in *.
  set (pad := align_pad _) in *. rewrite <- !app_assoc in *.
  apply loadn_app_inv in Hl as [L1 Hl]. apply loadn_app_inv in Hl as [L2 Hl].
  apply loadn_app_inv in Hl as [L3 Hl]. apply loadn_app_inv in Hl as [L4 Hl].
  apply loadn_app_inv in Hl as [L5 _]. rewrite !zlen_app in He.
  pose proof (zlen_nonneg pad). pose proof (zlen_nonneg (tx_word k)).
  pose proof (varint_zlen (tx_note_id k)). pose proof (varint_zlen (zlen (tx_word k))).
  pose proof (varint_zlen (tx_timestamp k)). pose proof (varint_zlen (tx_index k)).
  unfold ndb_unpack_text_search_key.
  erewrite run_bind by (apply (unpack_noteid_spec (tx_note_id k)); [lia | done]). cbv beta iota.
  erewrite run_bind by (apply (unpack_string_spec (tx_word k)); simpl; [done | lia | done]).
  cbv beta iota.
  erewrite run_bind by (apply (unpack_remaining_spec (tx_timestamp k) (tx_index k));
    simpl; [lia | done | done]). cbv beta iota.
  rewrite !u64_id by done. unfold ret. simpl. eauto.
Qed.

(** ** Properties *)

(** in a buffer with room to spare, [ndb_make_text_search_key] succeeds with a
    size that is a multiple of eight, and unpacking the key returns the note
    id, the timestamp and the word index it was built from (after the
    narrowing the code does) and the position and length of the lower-cased
    word. *)
Theorem text_search_key_roundtrip wi word ts nid m start end_ :
  let k := text_key_of wi word ts nid in
  cwf (m, make_cursor start end_) -> start + zlen (text_key_bytes k) < end_ ->
  zlen word < 2 ^ 31 ->
  exists n m' c' addr,
    with_cursor start end_ (ndb_make_text_search_key wi word ts nid) m = Some (Some n, m') /\
    n mod 8 = 0 /\
    ndb_unpack_text_search_key (m', make_cursor start (start + n)) =
      Some (Some (mk_text_key addr (zlen word) (u64 (i32 ts)) (u64 (i32 nid)) (u64 wi)), (m', c')) /\
    loadn m' addr (zlen word) = Some (map tolower word).
Proof.
  intros k W Hr Hw.
  destruct (make_text_search_key_spec wi word ts nid m start end_ W Hr) as (m' & E & S & D).
  fold k in E, S, D. pose proof (loadn_storen_same _ _ _ _ S) as L.
  assert (Lw : zlen (tx_word k) = zlen word) by (unfold k, zlen; simpl; by rewrite length_map).
  destruct (unpack_text_search_key_spec k m' (make_cursor start (start + zlen (text_key_bytes k))))
    as (c' & U); [by apply text_key_of_wf | done | done |].
  eexists _, m', c', _. unfold with_cursor. rewrite E. split; [reflexivity |].
  split; [done |]. split; [rewrite U, Lw; reflexivity |]. simpl.
  unfold text_key_bytes, text_key_body in L. rewrite <- !app_assoc in L.
  apply loadn_app_inv in L as [_ L]. apply loadn_app_inv in L as [_ L].
  apply loadn_app_inv in L as [L _]. rewrite Lw in L. exact L.
Qed.

Lemma text_search_key_roundtrip_witness :
  exists n m' c' addr,
    with_cursor 0 64 (ndb_make_text_search_key 3 [78; 111; 115; 116; 114] 1700000000 42)
      (replicate 64 0) = Some (Some n, m') /\
    n mod 8 = 0 /\
    ndb_unpack_text_search_key (m', make_cursor 0 (0 + n)) =
      Some (Some (mk_text_key addr 5 (u64 (i32 1700000000)) (u64 (i32 42)) (u64 3)), (m', c')) /\
    loadn m' addr 5 = Some (map tolower [78; 111; 115; 116; 114]).
Proof.
  apply (text_search_key_roundtrip 3 [78; 111; 115; 116; 114] 1700000000 42 (replicate 64 0) 0 64).
  - unfold cwf. simpl. zl.
  - vm_compute. reflexivity.
  - vm_compute. reflexivity.
Defined.

(** C33: the comparator of the full-text index orders keys by word, then by
    timestamp, then by note id, then by word index, and is therefore a total
    order that tells all keys apart. *)
Theorem text_search_key_order k1 k2 :
  text_key_wf k1 -> text_key_wf k2 ->
  ndb_text_search_key_compare (text_key_bytes k1) (text_key_bytes k2) =
    Some (sgn (lex (bytes_cmp (tx_word k1) (tx_word k2))
              (lex (tx_timestamp k1 ?= tx_timestamp k2)
              (lex (tx_note_id k1 ?= tx_note_id k2) (tx_index k1 ?= tx_index k2))))) /\
  (ndb_text_search_key_compare (text_key_bytes k1) (text_key_bytes k2) = Some 0 <-> k1 = k2).
Proof.
  intros W1 W2. pose proof (key_compare_ok k1 k2 W1 W2) as C. simpl in C.
  split; [exact C |]. rewrite C. rewrite <- (cmp_eq (TotalCmp := key_total)). simpl.
  by destruct (pair_cmp _ _ _ _).
Qed.

Lemma text_search_key_order_witness :
  let k1 := mk_text [97; 98] 10 7 0 in let k2 := mk_text [97; 98] 11 3 5 in
  ndb_text_search_key_compare (text_key_bytes k1) (text_key_bytes k2) = Some (-1) /\
  (ndb_text_search_key_compare (text_key_bytes k1) (text_key_bytes k2) = Some 0 <-> k1 = k2).
Proof.
  apply (text_search_key_order (mk_text [97; 98] 10 7 0) (mk_text [97; 98] 11 3 5));
    unfold text_key_wf, is_u64, zlen; simpl; lia.
Defined.

(** the comparators of the clustered indexes (id and timestamp; integer and
    timestamp; id, integer and timestamp; profile search) order keys by their
    fields from first to last. *)
Theorem clustered_key_orders (a1 a2 : tsid) (b1 b2 : u64_ts) (c1 c2 : id_u64_ts) :
  key_wf a1 -> key_wf a2 -> key_wf b1 -> key_wf b2 -> key_wf c1 -> key_wf c2 ->
  ndb_tsid_compare (ndb_tsid_init (ts_id a1) (ts_timestamp a1))
                   (ndb_tsid_init (ts_id a2) (ts_timestamp a2)) =
    Some (sgn (lex (bytes_cmp (ts_id a1) (ts_id a2)) (ts_timestamp a1 ?= ts_timestamp a2))) /\
  ndb_u64_ts_compare (ndb_u64_ts_init (ut_u64 b1) (ut_timestamp b1))
                     (ndb_u64_ts_init (ut_u64 b2) (ut_timestamp b2)) =
    Some (sgn (lex (ut_u64 b1 ?= ut_u64 b2) (ut_timestamp b1 ?= ut_timestamp b2))) /\
  ndb_id_u64_ts_compare (ndb_id_u64_ts_init (iu_id c1) (iu_u64 c1) (iu_timestamp c1))
                        (ndb_id_u64_ts_init (iu_id c2) (iu_u64 c2) (iu_timestamp c2)) =
    Some (sgn (lex (bytes_cmp (iu_id c1) (iu_id c2))
              (lex (iu_u64 c1 ?= iu_u64 c2) (iu_timestamp c1 ?= iu_timestamp c2)))).
Proof.
  intros A1 A2 B1 B2 C1 C2. split; [| split].
  - exact (key_compare_ok a1 a2 A1 A2).
  - exact (key_compare_ok b1 b2 B1 B2).
  - exact (key_compare_ok c1 c2 C1 C2).
Qed.

Definition demo_id (b : Z) : list Z := replicate 32 b.

Lemma clustered_key_orders_witness :
  ndb_tsid_compare (ndb_tsid_init (demo_id 1) 5) (ndb_tsid_init (demo_id 1) 4) = Some 1 /\
  ndb_u64_ts_compare (ndb_u64_ts_init 1 9) (ndb_u64_ts_init 7 4) = Some (-1) /\
  ndb_id_u64_ts_compare (ndb_id_u64_ts_init (demo_id 1) 1 5) (ndb_id_u64_ts_init (demo_id 1) 1 5) = Some 0.
Proof.
  apply (clustered_key_orders (mk_tsid (demo_id 1) 5) (mk_tsid (demo_id 1) 4)
    (mk_u64_ts 1 9) (mk_u64_ts 7 4) (mk_id_u64_ts (demo_id 1) 1 5) (mk_id_u64_ts (demo_id 1) 1 5));
    simpl; unfold id_wf, is_u64; repeat split; (reflexivity || lia).
Defined.

Lemma c_string_app s l : ~ In 0 s -> c_string (s ++ 0 :: l) = s.
Proof.
  induction s as [| c s IH]; simpl; [done |]. intros H.
  destruct (Z.eqb_spec c 0); [tauto |]. f_equal. apply IH. tauto.
Qed.

(** a relay key built from its fields parses back to them, in a buffer with
    room to spare, and has a size that is a multiple of eight; the comparator
    orders such keys by relay, kind, timestamp and note key. *)
Theorem relay_kind_key_roundtrip k1 k2 m start end_ :
  relay_key_wf k1 -> relay_key_wf k2 -> ~ In 0 (rk_relay k1) -> 
  cwf (m, make_cursor start end_) -> start + zlen (relay_key_bytes k1) < end_ ->
  (exists m' l, with_cursor start end_ (ndb_build_relay_kind_key k1) m =
      Some (Some (zlen (relay_key_bytes k1)), m') /\
    loadn m' start (zlen (relay_key_bytes k1)) = Some l /\
    zlen (relay_key_bytes k1) mod 8 = 0 /\ ndb_parse_relay_kind_key l = Some k1) /\
  ndb_relay_kind_cmp (relay_key_bytes k1) (relay_key_bytes k2) =
    Some (sgn (lex (bytes_cmp (rk_relay k1) (rk_relay k2)) (lex (rk_kind k1 ?= rk_kind k2)
      (lex (rk_created_at k1 ?= rk_created_at k2) (rk_note_key k1 ?= rk_note_key k2))))).
Proof.
  intros W1 W2 Hz W Hr. split.
  - pose proof W1 as (N & K & T & L).
    assert (Hw : exists r, r <= zlen (relay_key_body k1) /\
      Writes (cursor_push (le_bytes 8 (rk_note_key k1)) &&* cursor_push (le_bytes 8 (rk_kind k1)) &&*
        cursor_push (le_bytes 8 (rk_created_at k1)) &&* cursor_push_byte (rk_relay_len k1) &&*
        cursor_push (take (Z.to_nat (rk_relay_len k1)) (rk_relay k1)) &&* cursor_push_byte 0)
        (relay_key_body k1) r).
    { assert (Tk : take (Z.to_nat (rk_relay_len k1)) (rk_relay k1) = rk_relay k1).
      { rewrite L, to_nat_zlen. by apply take_ge. }
      rewrite Tk.
      eexists. split; [| eapply writes_eq; [| reflexivity |]; [| apply _]];
        unfold relay_key_body; [zl | by rewrite <- !app_assoc]. }
    destruct Hw as (r & Hr' & Hw).
    pose proof (zlen_nonneg (align_pad (zlen (relay_key_body k1)))).
    unfold relay_key_bytes in *. rewrite zlen_app in Hr.
    destruct (aligned_spec _ _ r m start end_ Hw W) as (m' & E & S & D); [lia | zl |].
    exists m', (relay_key_body k1 ++ align_pad (zlen (relay_key_body k1))).
    split; [unfold with_cursor; by rewrite (E : ndb_build_relay_kind_key k1 _ = _) |].
    split; [by apply loadn_storen_same in S |]. split; [done |].
    generalize (align_pad (zlen (relay_key_body k1))) as p. intros p.
    destruct k1 as [n k t len r1]. unfold relay_key_body, ndb_parse_relay_kind_key in *.
    cbn [rk_note_key rk_kind rk_created_at rk_relay_len rk_relay] in *. subst len.
    set (b := (le_bytes 8 n ++ _) ++ p).
    field b 0 (@nil Z) n (le_bytes 8 k ++ le_bytes 8 t ++ [zlen r1] ++ r1 ++ [0] ++ p).
    field b 8 (le_bytes 8 n) k (le_bytes 8 t ++ [zlen r1] ++ r1 ++ [0] ++ p).
    field b 16 (le_bytes 8 n ++ le_bytes 8 k) t ([zlen r1] ++ r1 ++ [0] ++ p).
    change (load8 b 24) with (Some (zlen r1)). cbn [mbind option_bind]. do 2 f_equal.
    change (drop 25 b) with ((r1 ++ [0]) ++ p). rewrite <- app_assoc. by apply c_string_app.
  - pose proof (key_compare_ok k1 k2 W1 W2) as C. simpl in C. rewrite C. do 2 f_equal.
    destruct W1 as (_ & _ & _ & L1), W2 as (_ & _ & _ & L2).
    unfold pair_cmp, relay_key_tuple. simpl.
    destruct (bytes_cmp (rk_relay k1) (rk_relay k2)) eqn:E; simpl; try done.
    apply (cmp_eq (cmp := bytes_cmp)) in E. rewrite L1, L2, E, Z.compare_refl.
    by destruct (_ ?= _), (_ ?= _), (_ ?= _).
Qed.

Definition demo_relay_key : ndb_relay_kind_key :=
  mk_relay_key 12 1 1700000000 6 [119; 115; 58; 47; 47; 97].

Lemma relay_kind_key_roundtrip_witness :
  (exists m' l, with_cursor 0 256 (ndb_build_relay_kind_key demo_relay_key) (replicate 256 0) =
      Some (Some (zlen (relay_key_bytes demo_relay_key)), m') /\
    loadn m' 0 (zlen (relay_key_bytes demo_relay_key)) = Some l /\
    zlen (relay_key_bytes demo_relay_key) mod 8 = 0 /\
    ndb_parse_relay_kind_key l = Some demo_relay_key) /\
  ndb_relay_kind_cmp (relay_key_bytes demo_relay_key) (relay_key_bytes demo_relay_key) = Some 0.
Proof.
  apply (relay_kind_key_roundtrip demo_relay_key demo_relay_key (replicate 256 0) 0 256).
  - unfold relay_key_wf, is_u64, zlen; simpl; lia.
  - unfold relay_key_wf, is_u64, zlen; simpl; lia.
  - simpl. lia.
  - unfold cwf. simpl. zl.
  - vm_compute. reflexivity.
Defined.

(** the relay length is reduced to a byte before it is checked against the
    248-byte limit, so every URL of 256 to 504 bytes is accepted, with a length
    256 too small: keys then hold only a prefix of the URL. *)
Theorem overlong_relay_accepted note_key kind created_at relay :
  256 <= zlen relay <= 504 ->
  exists k, ndb_relay_kind_key_init note_key kind created_at (Some relay) = Some k /\
    rk_relay_len k = zlen relay - 256 /\
    (forall relay', 249 <= zlen relay' <= 255 ->
       ndb_relay_kind_key_init note_key kind created_at (Some relay') = None).
Proof.
  intros H. unfold ndb_relay_kind_key_init.
  assert (E : u8 (zlen relay) = zlen relay - 256).
  { unfold u8. replace (zlen relay) with (zlen relay - 256 + 1 * 2 ^ 8) at 1 by lia.
    rewrite Z.mod_add by lia. apply Z.mod_small. lia. }
  rewrite E. destruct (Z.ltb_spec 248 (zlen relay - 256)); [lia |].
  eexists. split; [reflexivity |]. split; [done |]. intros relay' H'.
  unfold u8. rewrite Z.mod_small by lia.
  destruct (Z.ltb_spec 248 (zlen relay')); [done | lia].
Qed.

Lemma overlong_relay_accepted_witness :
  exists k, ndb_relay_kind_key_init 1 1 1 (Some (replicate 300 97)) = Some k /\
    rk_relay_len k = 44 /\
    (forall relay', 249 <= zlen relay' <= 255 ->
       ndb_relay_kind_key_init 1 1 1 (Some relay') = None).
Proof. apply (overlong_relay_accepted 1 1 1 (replicate 300 97)). zl. Defined.

(** a varint that does not fit makes [cursor_push_varint] return -1, which
    [ndb_make_text_search_key] takes for success.  In an eight-byte buffer the
    key of a five-letter word is cut after the first byte of its timestamp and
    still reported as a complete eight-byte key. *)
Theorem truncated_text_key_accepted :
  let word := [104; 101; 108; 108; 111] in
  (exists m', with_cursor 0 8 (ndb_make_text_search_key 3 word 1700000000 42) (replicate 8 0) =
     Some (Some 8, m')) /\
  8 < zlen (text_key_bytes (text_key_of 3 word 1700000000 42)).
Proof. split; [eexists |]; vm_compute; reflexivity. Qed.
