(* ===== verification/Lmdb.v ===== *)
(** * The database interface (src/deps/lmdb/lmdb.h) and id lookups (src/src/nostrdb.c)

    LMDB is a vendored library; the development relies on it through the class
    [Lmdb]: a database is a sequence of items in the order of its comparator, a
    cursor is a position in it, and the cursor operations move as lmdb.h
    documents them.  [list_lmdb] is a concrete instance, used by witnesses.

    On top of it: [ndb_cursor_start], the entry point of every descending scan,
    and the lookups by id.  The theorems say where a descending scan starts and
    that a lookup by id returns the newest entry of that id. *)

From S2P Require Export Keys.
From stdpp Require Import sorting.
Open Scope Z_scope.
Open Scope ndb_scope.

(** ** The interface *)

(** A key and its data, both byte strings. *)
Abbreviation item := (list Z * list Z)%type (only parsing).

Inductive MDB_cursor_op :=
  | MDB_FIRST | MDB_GET_CURRENT | MDB_LAST | MDB_NEXT | MDB_NEXT_DUP | MDB_PREV
  | MDB_SET_KEY (k : list Z) | MDB_SET_RANGE (k : list Z).

Definition find_pos (P : item -> bool) (l : list item) : option nat :=
  fst <$> list_find (fun it => P it = true) l.

Definition last_pos (l : list item) : option nat :=
  match l with [] => None | _ => Some (length l - 1)%nat end.

(** Where each operation leaves a cursor that stands at [pos], if anywhere. *)
Definition mdb_goto (cmp : list Z -> list Z -> option Z) (l : list item) (pos : option nat)
    (op : MDB_cursor_op) : option nat :=
  match op with
  | MDB_FIRST => match l with [] => None | _ => Some 0%nat end
  | MDB_LAST => last_pos l
  | MDB_GET_CURRENT => pos
  | MDB_NEXT =>
      match pos with
      | None => match l with [] => None | _ => Some 0%nat end
      | Some p => if decide (S p < length l)%nat then Some (S p) else None
      end
  | MDB_NEXT_DUP =>
      p ← pos; a ← l !! p; b ← l !! S p;
      if bool_decide (cmp (fst b) (fst a) = Some 0) then Some (S p) else None
  | MDB_PREV => match pos with None => last_pos l | Some O => None | Some (S p) => Some p end
  | MDB_SET_KEY k => find_pos (fun it => bool_decide (cmp (fst it) k = Some 0)) l
  | MDB_SET_RANGE k =>
      find_pos (fun it => match cmp (fst it) k with Some c => 0 <=? c | None => false end) l
  end.

Class Lmdb (D C : Type) := {
  db_cmp : D -> list Z -> list Z -> option Z;
  db_items : D -> list item;
  cur_db : C -> D;
  cur_pos : C -> option nat;
  mdb_cursor_open : D -> option C;
  mdb_cursor_get : C -> MDB_cursor_op -> option (C * item);
  mdb_get : D -> list Z -> option (list Z);
  cursor_open_spec : forall d c, mdb_cursor_open d = Some c -> cur_db c = d /\ cur_pos c = None;
  cursor_get_spec : forall c op,
    match mdb_goto (db_cmp (cur_db c)) (db_items (cur_db c)) (cur_pos c) op with
    | Some p =>
        match db_items (cur_db c) !! p with
        | Some it => exists c', mdb_cursor_get c op = Some (c', it) /\ cur_db c' = cur_db c /\
                                cur_pos c' = Some p
        | None => mdb_cursor_get c op = None
        end
    | None => mdb_cursor_get c op = None
    end;
  mdb_get_spec : forall d k,
    mdb_get d k = snd ∘ snd <$> list_find (fun it => db_cmp d (fst it) k = Some 0) (db_items d)
}.

(** A database held as a list; [ld_dup] orders the values under one key when the
    database allows several. *)
Record list_db := mk_list_db {
  ld_cmp : list Z -> list Z -> option Z;
  ld_dup : option (list Z -> list Z -> option Z);
  ld_items : list item }.

Definition list_cursor_get (c : list_db * option nat) (op : MDB_cursor_op) :
    option (list_db * option nat * item) :=
  p ← mdb_goto (ld_cmp (fst c)) (ld_items (fst c)) (snd c) op;
  it ← ld_items (fst c) !! p; Some ((fst c, Some p), it).

#[export] Instance list_lmdb : Lmdb list_db (list_db * option nat).
Proof.
  refine {| db_cmp := ld_cmp; db_items := ld_items; cur_db := fst; cur_pos := snd;
            mdb_cursor_open d := Some (d, None); mdb_cursor_get := list_cursor_get;
            mdb_get d k := snd ∘ snd <$> list_find (fun it => ld_cmp d (fst it) k = Some 0) (ld_items d) |}.
  - intros d c [= <-]. done.
  - intros [d pos] op. unfold list_cursor_get. simpl.
    destruct (mdb_goto _ _ _ _) as [p |]; simpl; [| done].
    destruct (ld_items d !! p) as [it |]; simpl; [| done]. by eexists.
  - done.
Defined.

(** The tables of the environment, and a transaction on them. *)
Inductive ndb_dbs :=
  | NDB_DB_NOTE | NDB_DB_META | NDB_DB_PROFILE | NDB_DB_NOTE_ID | NDB_DB_PROFILE_PK
  | NDB_DB_NDB_META | NDB_DB_PROFILE_SEARCH | NDB_DB_PROFILE_LAST_FETCH | NDB_DB_NOTE_KIND
  | NDB_DB_NOTE_TEXT | NDB_DB_NOTE_BLOCKS | NDB_DB_NOTE_TAGS | NDB_DB_NOTE_PUBKEY
  | NDB_DB_NOTE_PUBKEY_KIND | NDB_DB_NOTE_RELAY_KIND | NDB_DB_NOTE_RELAYS.

Definition ndb_txn (D : Type) : Type := ndb_dbs -> D.

(** ** Lookups *)

Section lookups.
Context {D C : Type} `{!Lmdb D C}.

Definition ndb_cursor_start (c : C) (k : list Z) : option (C * item) :=
  match mdb_cursor_get c (MDB_SET_RANGE k) with
  | None => mdb_cursor_get c MDB_LAST
  | Some (c, _) => mdb_cursor_get c MDB_PREV
  end.

(** The comparison of the id reads its 32 bytes from the key found. *)
Definition ndb_get_tsid (txn : ndb_txn D) (db : ndb_dbs) (id : list Z) : option (list Z) :=
  c ← mdb_cursor_open (txn db);
  r ← ndb_cursor_start c (ndb_tsid_high id);
  kid ← loadn (fst (snd r)) 0 32;
  if memcmp kid id =? 0 then Some (snd (snd r)) else None.

Definition ndb_lookup_by_key (txn : ndb_txn D) (key : Z) (store : ndb_dbs) : option (list Z) :=
  mdb_get (txn store) (le_bytes 8 key).

Definition ndb_lookup_tsid (txn : ndb_txn D) (ind store : ndb_dbs) (pk : list Z) :
    option (list Z * Z) :=
  k ← ndb_get_tsid txn ind pk;
  primkey ← u64_at k 0;
  v ← mdb_get (txn store) k;
  Some (v, primkey).

Definition ndb_get_profile_by_pubkey (txn : ndb_txn D) (pk : list Z) :=
  ndb_lookup_tsid txn NDB_DB_PROFILE_PK NDB_DB_PROFILE pk.
Definition ndb_get_note_by_id (txn : ndb_txn D) (id : list Z) :=
  ndb_lookup_tsid txn NDB_DB_NOTE_ID NDB_DB_NOTE id.

(** The 64-bit key is read as a 32-bit integer. *)
Definition ndb_get_indexkey_by_id (txn : ndb_txn D) (db : ndb_dbs) (id : list Z) : option Z :=
  match ndb_get_tsid txn db id with
  | None => Some 0
  | Some k => le_int <$> loadn k 0 4
  end.

Definition ndb_get_notekey_by_id (txn : ndb_txn D) (id : list Z) : option Z :=
  ndb_get_indexkey_by_id txn NDB_DB_NOTE_ID id.
Definition ndb_get_profilekey_by_pubkey (txn : ndb_txn D) (id : list Z) : option Z :=
  ndb_get_indexkey_by_id txn NDB_DB_PROFILE_PK id.

Definition ndb_get_note_by_key (txn : ndb_txn D) (key : Z) : option (list Z) :=
  ndb_lookup_by_key txn key NDB_DB_NOTE.
Definition ndb_get_profile_by_key (txn : ndb_txn D) (key : Z) : option (list Z) :=
  ndb_lookup_by_key txn key NDB_DB_PROFILE.

(** The relays a note was seen on, one [ndb_note_relay_iterate_next] after the
    other until it closes itself. *)
Fixpoint relay_iterate (fuel : nat) (c : C) (op : MDB_cursor_op) : list (list Z) :=
  match fuel with
  | O => []
  | S fuel =>
      match mdb_cursor_get c op with
      | None => []
      | Some (c, it) => snd it :: relay_iterate fuel c MDB_NEXT_DUP
      end
  end.

(** Failing to open the cursor leaves an iterator that yields nothing. *)
Definition ndb_note_relay_iterate (txn : ndb_txn D) (note_key : Z) : list (list Z) :=
  match mdb_cursor_open (txn NDB_DB_NOTE_RELAYS) with
  | None => []
  | Some c =>
      map Keys.c_string
        (relay_iterate (S (length (db_items (txn NDB_DB_NOTE_RELAYS)))) c
           (MDB_SET_KEY (le_bytes 8 note_key)))
  end.
End lookups.

(** * Lemmas *)

Lemma find_pos_Some P l p : find_pos P l = Some p ->
  (exists it, l !! p = Some it /\ P it = true) /\
  forall j it, (j < p)%nat -> l !! j = Some it -> P it = false.
Proof.
  unfold find_pos. intros H.
  destruct (list_find _ l) as [[i it] |] eqn:E; simpl in H; [| done]. injection H as ->.
  apply list_find_Some in E as (E1 & E2 & E3). split; [eauto |].
  intros j it0 Hj El. apply not_true_is_false. intros Ht. by apply (E3 j it0 El Hj).
Qed.

Lemma find_pos_None P l : find_pos P l = None -> forall it, it ∈ l -> P it = false.
Proof.
  unfold find_pos. intros H it Hit.
  destruct (list_find _ l) as [[i it'] |] eqn:E; simpl in H; [done |].
  apply list_find_None in E. apply not_true_is_false.
  intros Ht. rewrite Forall_forall in E. exact (E it Hit Ht).
Qed.

Section cursors.
Context {D C : Type} `{!Lmdb D C}.

Lemma cursor_get_Some c op p it :
  mdb_goto (db_cmp (cur_db c)) (db_items (cur_db c)) (cur_pos c) op = Some p ->
  db_items (cur_db c) !! p = Some it ->
  exists c', mdb_cursor_get c op = Some (c', it) /\ cur_db c' = cur_db c /\ cur_pos c' = Some p.
Proof. intros H1 H2. pose proof (cursor_get_spec c op) as S. by rewrite H1, H2 in S. Qed.

Lemma cursor_get_None c op :
  mdb_goto (db_cmp (cur_db c)) (db_items (cur_db c)) (cur_pos c) op = None ->
  mdb_cursor_get c op = None.
Proof. intros H1. pose proof (cursor_get_spec c op) as S. by rewrite H1 in S. Qed.

(** Not less than [k], as MDB_SET_RANGE tests it. *)
Definition not_below (d : D) (k : list Z) (it : item) : bool :=
  match db_cmp d (fst it) k with Some c => 0 <=? c | None => false end.

(** The number of leading items below [k]. *)
Definition below (d : D) (k : list Z) : nat :=
  match find_pos (not_below d k) (db_items d) with Some p => p | None => length (db_items d) end.

(** [ndb_cursor_start] stands on the last item below the key. *)
Lemma cursor_start_spec c k :
  match below (cur_db c) k with
  | O => ndb_cursor_start c k = None
  | S p => exists c' it, ndb_cursor_start c k = Some (c', it) /\ cur_db c' = cur_db c /\
      cur_pos c' = Some p /\ db_items (cur_db c) !! p = Some it
  end.
Proof.
  unfold below, ndb_cursor_start.
  assert (G : mdb_goto (db_cmp (cur_db c)) (db_items (cur_db c)) (cur_pos c) (MDB_SET_RANGE k)
    = find_pos (not_below (cur_db c) k) (db_items (cur_db c))) by done.
  destruct (find_pos _ _) as [p |] eqn:E.
  - apply find_pos_Some in E as [(it & El & _) _].
    destruct (cursor_get_Some c _ p it G El) as (c1 & -> & D1 & P1).
    destruct p as [| p].
    + apply cursor_get_None. cbn [mdb_goto]. by rewrite P1.
    + destruct (lookup_lt_is_Some_2 (db_items (cur_db c)) p) as [it' El'].
      { apply lookup_lt_Some in El. lia. }
      destruct (cursor_get_Some c1 MDB_PREV p it') as (c2 & E2 & D2 & P2).
      { cbn [mdb_goto]. by rewrite P1. } { by rewrite D1. }
      exists c2, it'. by rewrite D2, D1.
  - rewrite (cursor_get_None _ _ G).
    destruct (db_items (cur_db c)) as [| it0 l] eqn:El.
    + simpl. apply cursor_get_None. cbn [mdb_goto]. by rewrite El.
    + destruct (lookup_lt_is_Some_2 (it0 :: l) (length l)) as [it' El']; [simpl; lia |].
      destruct (cursor_get_Some c MDB_LAST (length l) it') as (c2 & E2 & D2 & P2).
      { cbn [mdb_goto]. rewrite El. simpl. f_equal. lia. } { by rewrite El. }
      exists c2, it'. done.
Qed.
End cursors.

(** A table whose keys are of one type, sorted by its comparator. *)
Record index_of {D C K} `{!Lmdb D C} `{!LmdbKey K} (d : D) (es : list (K * list Z)) : Prop := {
  ix_cmp : db_cmp d = key_compare (K := K);
  ix_items : db_items d = map (fun e => (key_bytes (fst e), snd e)) es;
  ix_wf : Forall (fun e => key_wf (fst e)) es;
  ix_sorted : StronglySorted (fun e e' => key_ord (fst e) (fst e') <> Gt) es
}.

Section index.
Context {D C K : Type} `{!Lmdb D C} `{!LmdbKey K} (d : D) (es : list (K * list Z)).
Hypothesis (X : index_of d es).

Lemma ord_not_gt_trans (a b c : K) : key_ord a b <> Gt -> key_ord b c = Lt -> key_ord a c = Lt.
Proof.
  pose proof (key_total (K := K)) as T. intros H1 H2. destruct (key_ord a b) eqn:E; [| | done].
  - apply (cmp_eq (cmp := key_ord)) in E as ->. done.
  - by apply (cmp_trans (cmp := key_ord) a b c).
Qed.

Lemma index_sorted i j a b : (i < j)%nat -> es !! i = Some a -> es !! j = Some b ->
  key_ord (fst a) (fst b) <> Gt.
Proof.
  revert i j. pose proof (ix_sorted _ _ X) as S. clear X. induction S as [| e l S IH F]; intros i j Hij Ha Hb; [done |].
  destruct j as [| j]; [lia |]. destruct i as [| i]; simpl in Ha, Hb.
  - injection Ha as ->. by apply (Forall_lookup_1 _ _ _ _ F Hb).
  - apply (IH i j); [lia | done ..].
Qed.

Lemma index_lookup i it : db_items d !! i = Some it ->
  exists e, es !! i = Some e /\ it = (key_bytes (fst e), snd e).
Proof.
  rewrite (ix_items _ _ X), list_lookup_fmap. destruct (es !! i) as [e |]; simpl; [| done].
  intros [= <-]. eauto.
Qed.

Lemma index_wf i e : es !! i = Some e -> key_wf (fst e).
Proof. intros H. exact (Forall_lookup_1 _ _ _ _ (ix_wf _ _ X) H). Qed.

(** The items before [below] are the ones below the key. *)
Lemma below_spec k i e : key_wf k -> es !! i = Some e ->
  (i < below d (key_bytes k))%nat <-> key_ord (fst e) k = Lt.
Proof.
  intros W Ei. pose proof (key_total (K := K)) as T.
  assert (Ev : forall j e', es !! j = Some e' ->
    not_below d (key_bytes k) (key_bytes (fst e'), snd e') = bool_decide (key_ord (fst e') k <> Lt)).
  { intros j e' Ej. unfold not_below. rewrite (ix_cmp _ _ X). cbn [fst].
    rewrite (key_compare_ok _ _ (index_wf j e' Ej) W).
    destruct (key_ord (fst e') k); reflexivity. }
  assert (Li : length (db_items d) = length es) by (rewrite (ix_items _ _ X); apply length_map).
  unfold below. destruct (find_pos _ _) as [p |] eqn:E.
  - apply find_pos_Some in E as [(it & Ep & Hp) Hlt].
    destruct (index_lookup _ _ Ep) as (ep & Ep' & ->).
    rewrite (Ev p ep Ep') in Hp. apply bool_decide_eq_true in Hp. split.
    + intros Hi. specialize (Hlt i (key_bytes (fst e), snd e) Hi).
      rewrite (Ev i e Ei) in Hlt.
      assert (Hf : bool_decide (key_ord (fst e) k <> Lt) = false).
      { apply Hlt. rewrite (ix_items _ _ X), list_lookup_fmap, Ei. done. }
      apply bool_decide_eq_false in Hf. destruct (key_ord (fst e) k); [exfalso; by apply Hf | done |
        exfalso; by apply Hf].
    + intros Ho. destruct (Nat.lt_ge_cases i p) as [| C']; [done | exfalso].
      destruct (Nat.lt_trichotomy i p) as [| [-> | C2]]; [lia | congruence |].
      apply Hp, (ord_not_gt_trans _ (fst e)); [| done]. by apply (index_sorted p i).
  - rewrite Li. split; [intros _ | intros _; by eapply lookup_lt_Some].
    pose proof (find_pos_None _ _ E (key_bytes (fst e), snd e)) as Hn.
    rewrite (Ev i e Ei) in Hn.
    assert (Hf : bool_decide (key_ord (fst e) k <> Lt) = false).
    { apply Hn. apply list_elem_of_lookup. exists i. by rewrite (ix_items _ _ X), list_lookup_fmap, Ei. }
    apply bool_decide_eq_false in Hf. destruct (key_ord (fst e) k); [exfalso; by apply Hf | done |
        exfalso; by apply Hf].
Qed.

Lemma below_le k : (below d k <= length es)%nat.
Proof.
  assert (Li : length (db_items d) = length es) by (rewrite (ix_items _ _ X); apply length_map).
  unfold below. destruct (find_pos _ _) as [p |] eqn:E; [| lia].
  apply find_pos_Some in E as [(it & Ep & _) _]. apply lookup_lt_Some in Ep. lia.
Qed.
End index.

(** ** Looking up by id *)

Lemma tsid_ord_Lt k id : key_ord k (mk_tsid id UINT64_MAX) = Lt ->
  key_wf k -> ts_id k <> id -> bytes_cmp id (ts_id k) = Gt.
Proof.
  destruct k as [i t]. cbn [key_ord tsid_key ts_id]. unfold pair_cmp, tsid_tuple. simpl.
  rewrite (cmp_antisym (cmp := bytes_cmp) i id).
  destruct (bytes_cmp i id) eqn:E; simpl; try done.
  by apply (cmp_eq (cmp := bytes_cmp)) in E as ->.
Qed.

Lemma tsid_ord_same id t t' : key_ord (mk_tsid id t) (mk_tsid id t') = (t ?= t').
Proof. cbn [key_ord tsid_key]. unfold pair_cmp, tsid_tuple. simpl. by rewrite (cmp_refl bytes_cmp). Qed.

Lemma tsid_key_bytes id t : key_bytes (mk_tsid id t) = ndb_tsid_init id t.
Proof. reflexivity. Qed.

Lemma loadn_id k : key_wf k -> loadn (key_bytes (K := tsid) k) 0 32 = Some (ts_id k).
Proof.
  destruct k as [i t]. cbn [key_wf tsid_key ts_id]. intros [Hi _]. unfold id_wf in Hi. simpl in Hi.
  rewrite tsid_key_bytes. unfold ndb_tsid_init.
  exact (loadn_mid (i ++ le_bytes 8 t) [] i (le_bytes 8 t) 0 32 eq_refl eq_refl (eq_sym Hi)).
Qed.

Section lookup_spec.
Context {D C : Type} `{!Lmdb D C} (txn : ndb_txn D) (db : ndb_dbs) (es : list (tsid * list Z)).

Lemma get_tsid_spec (id : list Z) (c : C) (X : index_of (txn db) es) (Hid : id_wf id)
    (Ho : mdb_cursor_open (txn db) = Some c) :
  match ndb_get_tsid txn db id with
  | Some v =>
      exists ts, (mk_tsid id ts, v) ∈ es /\
        forall ts' v', (mk_tsid id ts', v') ∈ es -> ts' < UINT64_MAX -> ts' <= ts
  | None => forall ts v, (mk_tsid id ts, v) ∈ es -> ts = UINT64_MAX
  end.
Proof.
  assert (Wh : key_wf (mk_tsid id UINT64_MAX)) by (split; [exact Hid | done]).
  unfold ndb_get_tsid. rewrite Ho. cbn [mbind option_bind].
  destruct (cursor_open_spec _ _ Ho) as [Dc _].
  pose proof (cursor_start_spec c (ndb_tsid_high id)) as S. rewrite Dc in S.
  (* an entry of the id stands below the start of the scan *)
  assert (B : forall j ts v, es !! j = Some (mk_tsid id ts, v) -> ts < UINT64_MAX ->
    (j < below (txn db) (ndb_tsid_high id))%nat).
  { intros j ts v Hj Ht. apply (below_spec (txn db) es X (mk_tsid id UINT64_MAX) j _ Wh Hj).
    cbn [fst]. by rewrite tsid_ord_same. }
  assert (U : forall j ts v, es !! j = Some (mk_tsid id ts, v) -> ts <= UINT64_MAX).
  { intros j ts v Hj. pose proof (index_wf _ _ X _ _ Hj) as [_ W]. unfold is_u64, UINT64_MAX in *. simpl in W. lia. }
  destruct (below _ _) as [| p] eqn:Eb.
  - rewrite S. cbn [mbind option_bind]. intros ts v Hin. apply list_elem_of_lookup in Hin as [j Hj].
    specialize (B j ts v Hj). specialize (U j ts v Hj). lia.
  - destruct S as (c' & it & E & _ & _ & Ei). rewrite E. cbn [mbind option_bind fst snd].
    destruct (index_lookup _ _ X _ _ Ei) as ([k v] & Ek & ->). cbn [fst snd].
    pose proof (index_wf _ _ X _ _ Ek) as Wk. rewrite (loadn_id k Wk). cbn [mbind option_bind].
    assert (Lk : key_ord k (mk_tsid id UINT64_MAX) = Lt).
    { apply (below_spec (txn db) es X (mk_tsid id UINT64_MAX) p (k, v) Wh Ek). change (key_bytes (mk_tsid id UINT64_MAX)) with (ndb_tsid_high id). lia. }
    destruct Wk as [Wi Wt]. change (zlen (ts_id k) = 32) in Wi. unfold id_wf in Hid.
    assert (Le : length (ts_id k) = length id) by (unfold zlen in *; lia).
    destruct (Z.eqb_spec (memcmp (ts_id k) id) 0) as [M | M].
    + apply (memcmp_zero _ _ Le) in M. destruct k as [i t]. simpl in M. subst i.
      exists t. split; [apply list_elem_of_lookup; eauto |].
      intros ts' v' Hin Ht. apply list_elem_of_lookup in Hin as [j Hj].
      specialize (B j ts' v' Hj Ht).
      destruct (Nat.eq_dec j p) as [-> |]; [rewrite Ek in Hj; injection Hj as -> _; lia |].
      pose proof (index_sorted _ _ X j p _ _ ltac:(lia) Hj Ek) as O. cbn [fst] in O.
      rewrite tsid_ord_same in O. exact O.
    + assert (Ne : ts_id k <> id). { intros E'. by apply M, (memcmp_zero _ _ Le). }
      pose proof (tsid_ord_Lt k id Lk (conj Wi Wt) Ne) as G.
      intros ts v' Hin. apply list_elem_of_lookup in Hin as [j Hj].
      destruct (Z.eq_dec ts UINT64_MAX) as [| Nt]; [done | exfalso].
      specialize (U j ts v' Hj). specialize (B j ts v' Hj ltac:(lia)).
      destruct (Nat.eq_dec j p) as [-> |]; [rewrite Ek in Hj; by injection Hj as -> _ |].
      apply (index_sorted _ _ X j p _ _ ltac:(lia) Hj Ek). destruct k as [i t].
      cbn [fst key_ord tsid_key]. unfold pair_cmp, tsid_tuple. simpl in *. by rewrite G.
Qed.

(** C21: A lookup by id in a table keyed by id and timestamp answers with the
    entry of that id with the greatest timestamp, and finds nothing only when
    the table has no entry of that id (entries of the very last representable
    second excepted: the scan starts strictly below it). *)
Theorem lookup_newest (id : list Z) (c : C) (X : index_of (txn db) es) (Hid : id_wf id)
    (Ho : mdb_cursor_open (txn db) = Some c) :
  match ndb_get_tsid txn db id with
  | Some v =>
      exists ts, (mk_tsid id ts, v) ∈ es /\
        forall ts' v', (mk_tsid id ts', v') ∈ es -> ts' < UINT64_MAX -> ts' <= ts
  | None => forall ts v, (mk_tsid id ts, v) ∈ es -> ts = UINT64_MAX
  end.
Proof. exact (get_tsid_spec id c X Hid Ho). Qed.

(** The functions that return only the key of a note or profile read the
    stored 64-bit key as 32 bits, so from the 2^32nd key on they name another
    note than the lookup they wrap. *)
Theorem index_key_truncated (id : list Z) (key : Z) (Hk : is_u64 key)
    (E : ndb_get_tsid txn db id = Some (le_bytes 8 key)) :
  ndb_get_indexkey_by_id txn db id = Some (key mod 2 ^ 32) /\
  forall store v, mdb_get (txn store) (le_bytes 8 key) = Some v ->
    ndb_lookup_tsid txn db store id = Some (v, key).
Proof.
  split.
  - unfold ndb_get_indexkey_by_id. rewrite E.
    change (loadn (le_bytes 8 key) 0 4) with (Some (le_bytes 4 key)). cbn [fmap option_fmap option_map].
    f_equal. exact (le_int_le_bytes 4 key).
  - intros store v Ev. unfold ndb_lookup_tsid. rewrite E. cbn [mbind option_bind].
    unfold u64_at. change (loadn (le_bytes 8 key) 0 8) with (Some (le_bytes 8 key)).
    cbn [fmap option_fmap option_map mbind option_bind]. rewrite Ev. cbn [mbind option_bind].
    do 2 f_equal. rewrite le_int_le_bytes. by apply Z.mod_small.
Qed.
End lookup_spec.

(** Three entries of two ids, the first twice. *)
Definition demo_entries : list (tsid * list Z) :=
  [ (mk_tsid (demo_id 1) 5, le_bytes 8 10); (mk_tsid (demo_id 1) 9, le_bytes 8 (2 ^ 32 + 1));
    (mk_tsid (demo_id 2) 7, le_bytes 8 12) ].

Definition table_of {K} `{!LmdbKey K} (es : list (K * list Z)) : list_db :=
  mk_list_db key_compare None (map (fun e => (key_bytes (fst e), snd e)) es).

Definition demo_txn : ndb_txn list_db := fun _ => table_of demo_entries.

Lemma demo_index : index_of (C := list_db * option nat) (demo_txn NDB_DB_NOTE_ID) demo_entries.
Proof.
  split; [done | done | |].
  - repeat constructor; simpl; unfold id_wf, is_u64; (reflexivity || lia).
  - repeat constructor; discriminate.
Qed.

Lemma lookup_newest_witness :
  exists ts, (mk_tsid (demo_id 1) ts, le_bytes 8 (2 ^ 32 + 1)) ∈ demo_entries /\
    forall ts' v', (mk_tsid (demo_id 1) ts', v') ∈ demo_entries -> ts' < UINT64_MAX -> ts' <= ts.
Proof.
  exact (lookup_newest demo_txn NDB_DB_NOTE_ID demo_entries (demo_id 1)
    (table_of demo_entries, None) demo_index eq_refl eq_refl).
Defined.

Lemma index_key_truncated_witness :
  ndb_get_indexkey_by_id (C := list_db * option nat) demo_txn NDB_DB_NOTE_ID (demo_id 1) = Some 1 /\
  forall store v, mdb_get (demo_txn store) (le_bytes 8 (2 ^ 32 + 1)) = Some v ->
    ndb_lookup_tsid demo_txn NDB_DB_NOTE_ID store (demo_id 1) = Some (v, 2 ^ 32 + 1).
Proof.
  apply (index_key_truncated (C := list_db * option nat) demo_txn NDB_DB_NOTE_ID (demo_id 1) (2 ^ 32 + 1));
    [unfold is_u64; lia | vm_compute; reflexivity].
Defined.
