(* ===== verification/Merge.v ===== *)
(** * Merging index scans (src/src/nostrdb.c, ndb_index_scanner and ndb_index_merger)

    Each index clusters its entries in groups (a kind; an author and a kind; a
    relay and a kind) ordered by timestamp.  A scanner walks one group
    backwards; the merger keeps the scanners in a binary heap and hands out the
    newest entry of all of them.

    [None] is undefined behaviour or an exhausted fuel; the theorems show that
    neither happens, that the heap order is kept by pushing and sifting, and
    that draining the merger yields exactly the entries of the groups, newest
    first.  Allocation is taken to succeed. *)

From S2P Require Export Lmdb.
From stdpp Require Import sorting.
Open Scope Z_scope.
Open Scope ndb_scope.

Definition NDB_SCAN_KEY_MAX : Z := 288.

Inductive ndb_scan_key_type := NDB_SCAN_KEY_U64_TS | NDB_SCAN_KEY_ID_U64_TS | NDB_SCAN_KEY_RELAY_KIND.

Record ndb_index_scanner (C : Type) := mk_scanner {
  group : list Z;
  s_cur : C;
  s_created_at : Z;
  s_note_key : Z
}.
Arguments mk_scanner {C}.
Arguments group {C}.
Arguments s_cur {C}.
Arguments s_created_at {C}.
Arguments s_note_key {C}.

(** [heap] holds the first [heap_len] entries of the array. *)
Record ndb_index_merger (D C : Type) := mk_merger {
  scanners : list (ndb_index_scanner C);
  heap : list nat;
  capacity : Z;
  m_since : Z;
  m_key_type : ndb_scan_key_type;
  m_db : D
}.
Arguments mk_merger {D C}.
Arguments scanners {D C}.
Arguments heap {D C}.
Arguments capacity {D C}.
Arguments m_since {D C}.
Arguments m_key_type {D C}.
Arguments m_db {D C}.

(** ** Scanners *)

Definition ndb_scanner_in_group (g : list Z) (type : ndb_scan_key_type) (k : list Z) : option bool :=
  match type with
  | NDB_SCAN_KEY_U64_TS =>
      if negb (zlen k =? 16) then Some false
      else ku ← u64_at k 0; gu ← u64_at g 0; Some (ku =? gu)
  | NDB_SCAN_KEY_ID_U64_TS =>
      if negb (zlen k =? 48) then Some false
      else
        ku ← u64_at k 32; gu ← u64_at g 32;
        if ku =? gu then
          ki ← loadn k 0 32; gi ← loadn g 0 32; Some (memcmp ki gi =? 0)
        else Some false
  | NDB_SCAN_KEY_RELAY_KIND =>
      krk ← ndb_parse_relay_kind_key k;
      grk ← ndb_parse_relay_kind_key g;
      Some ((rk_kind krk =? rk_kind grk) && (strcmp (rk_relay krk) (rk_relay grk) =? 0))
  end.

(** [created_at] and [note_key] of the entry. *)
Definition ndb_scanner_read (type : ndb_scan_key_type) (it : item) : option (Z * Z) :=
  match type with
  | NDB_SCAN_KEY_U64_TS => t ← u64_at (fst it) 8; n ← u64_at (snd it) 0; Some (t, n)
  | NDB_SCAN_KEY_ID_U64_TS => t ← u64_at (fst it) 40; n ← u64_at (snd it) 0; Some (t, n)
  | NDB_SCAN_KEY_RELAY_KIND =>
      rk ← ndb_parse_relay_kind_key (fst it); Some (rk_created_at rk, rk_note_key rk)
  end.

Section scanners.
Context {D C : Type} `{!Lmdb D C}.
Abbreviation scanner := (ndb_index_scanner C).
Abbreviation merger := (ndb_index_merger D C).

(** The flag says whether the scanner has an entry; [created_at] and [note_key]
    are overwritten by an entry below [since] too. *)
Definition ndb_scanner_load (type : ndb_scan_key_type) (since : Z) (s : scanner) :
    option (bool * scanner) :=
  match mdb_cursor_get (s_cur s) MDB_GET_CURRENT with
  | None => Some (false, s)
  | Some (c, it) =>
      let s := mk_scanner (group s) c (s_created_at s) (s_note_key s) in
      b ← ndb_scanner_in_group (group s) type (fst it);
      if negb b then Some (false, s)
      else
        r ← ndb_scanner_read type it;
        Some (since <=? fst r, mk_scanner (group s) c (fst r) (snd r))
  end.

(** ** The heap *)

Definition ndb_merger_gt (ss : list scanner) (a b : nat) : option bool :=
  sa ← ss !! a; sb ← ss !! b;
  if negb (s_created_at sa =? s_created_at sb)
  then Some (s_created_at sb <? s_created_at sa)
  else Some (s_note_key sb <? s_note_key sa).

Definition ndb_merger_swap (h : list nat) (a b : nat) : option (list nat) :=
  x ← h !! a; y ← h !! b; Some (<[b := x]> (<[a := y]> h)).

(** The loop of [ndb_merger_push]. *)
Fixpoint merger_up (fuel : nat) (ss : list scanner) (h : list nat) (i : nat) : option (list nat) :=
  match fuel with
  | O => None
  | S fuel =>
      if (0 <? i)%nat then
        let parent := ((i - 1) / 2)%nat in
        x ← h !! i; y ← h !! parent;
        gt ← ndb_merger_gt ss x y;
        if negb gt then Some h
        else h ← ndb_merger_swap h i parent; merger_up fuel ss h parent
      else Some h
  end.

Definition set_scanners (m : merger) (ss : list scanner) : merger :=
  mk_merger ss (heap m) (capacity m) (m_since m) (m_key_type m) (m_db m).
Definition set_heap (m : merger) (h : list nat) : merger :=
  mk_merger (scanners m) h (capacity m) (m_since m) (m_key_type m) (m_db m).

(** The array has [capacity] entries. *)
Definition ndb_merger_push (m : merger) (scanner : nat) : option merger :=
  if capacity m <=? zlen (heap m) then None
  else
    h ← merger_up (S (length (heap m))) (scanners m) (heap m ++ [scanner]) (length (heap m));
    Some (set_heap m h).

(** The child at [c], if there is one and it is greater, else [big]. *)
Definition bigger (ss : list scanner) (h : list nat) (big c : nat) : option nat :=
  if (c <? length h)%nat then
    x ← h !! c; y ← h !! big;
    gt ← ndb_merger_gt ss x y; Some (if gt : bool then c else big)
  else Some big.

(** The loop of [ndb_merger_sift]. *)
Fixpoint merger_sift (fuel : nat) (ss : list scanner) (h : list nat) (i : nat) : option (list nat) :=
  match fuel with
  | O => None
  | S fuel =>
      let l := (i * 2 + 1)%nat in
      let r := (l + 1)%nat in
      big ← bigger ss h i l;
      big ← bigger ss h big r;
      if (big =? i)%nat then Some h
      else h ← ndb_merger_swap h i big; merger_sift fuel ss h big
  end.

Definition ndb_merger_sift (m : merger) : option merger :=
  h ← merger_sift (S (length (heap m))) (scanners m) (heap m) 0; Some (set_heap m h).

(** ** The merger *)

Definition ndb_index_merger_init (db : D) (key_type : ndb_scan_key_type) (since capacity : Z) : merger :=
  mk_merger [] [] (if capacity <=? 0 then 1 else capacity) since key_type db.

(** A cursor that cannot be opened, a full merger or an oversized key make it
    fail; a group with nothing in range is kept out of the heap. *)
Definition ndb_index_merger_add (m : merger) (key : list Z) : option (bool * merger) :=
  if (zlen (scanners m) =? capacity m) || (NDB_SCAN_KEY_MAX <? zlen key) then Some (false, m)
  else
    match mdb_cursor_open (m_db m) with
    | None => Some (false, m)
    | Some c =>
        let add s := set_scanners m (scanners m ++ [s]) in
        match ndb_cursor_start c key with
        | None => Some (true, add (mk_scanner key c 0 0))
        | Some (c, _) =>
            r ← ndb_scanner_load (m_key_type m) (m_since m) (mk_scanner key c 0 0);
            if (fst r : bool) then
              m' ← ndb_merger_push (add (snd r)) (length (scanners m)); Some (true, m')
            else Some (true, add (snd r))
        end
    end.

(** The newest note of every group, and the scanner it came from advanced. *)
Definition ndb_index_merger_next (m : merger) : option (option Z * merger) :=
  match heap m with
  | [] => Some (None, m)
  | top :: _ =>
      s ← scanners m !! top;
      r ← match mdb_cursor_get (s_cur s) MDB_PREV with
          | None => Some (false, s)
          | Some (c, _) =>
              ndb_scanner_load (m_key_type m) (m_since m)
                (mk_scanner (group s) c (s_created_at s) (s_note_key s))
          end;
      let m := set_scanners m (<[top := snd r]> (scanners m)) in
      let n := (length (heap m) - 1)%nat in
      last ← heap m !! n;
      let m := if (fst r : bool) then m
               else set_heap m (take n (<[0%nat := last]> (heap m))) in
      m ← ndb_merger_sift m;
      Some (Some (s_note_key s), m)
  end.
End scanners.

(** * Lemmas *)

(** ** The heap order

    Priorities are pairs (timestamp, note key), compared lexicographically. *)

Definition ple (x y : Z * Z) : Prop := fst x < fst y \/ (fst x = fst y /\ snd x <= snd y).

Lemma ple_refl x : ple x x.
Proof. unfold ple. lia. Qed.
Lemma ple_trans x y z : ple x y -> ple y z -> ple x z.
Proof. unfold ple. lia. Qed.
Lemma ple_total x y : ple x y \/ ple y x.
Proof. unfold ple. lia. Qed.

Definition parent (i : nat) : nat := ((i - 1) / 2)%nat.

Lemma parent_lt i : (0 < i)%nat -> (parent i < i)%nat.
Proof. intros H. unfold parent. apply Nat.Div0.div_lt_upper_bound; lia. Qed.

Lemma parent_spec i j : (0 < j)%nat -> parent j = i <-> (j = 2 * i + 1 \/ j = 2 * i + 2)%nat.
Proof.
  intros H. unfold parent. split.
  - intros <-. pose proof (Nat.div_mod_eq (j - 1) 2). pose proof (Nat.mod_upper_bound (j - 1) 2). lia.
  - intros [-> | ->].
    + replace (2 * i + 1 - 1)%nat with (i * 2)%nat by lia. by rewrite Nat.div_mul.
    + replace (2 * i + 2 - 1)%nat with (1 + i * 2)%nat by lia. by rewrite Nat.div_add.
Qed.

Section heap.
Context (pr : nat -> Z * Z).

(** The priority at a position of the heap. *)
Definition at_ (h : list nat) (i : nat) : Z * Z := pr (h !!! i).

(** [i] and its parent are in order. *)
Definition link (h : list nat) (i : nat) : Prop := ple (at_ h i) (at_ h (parent i)).

Definition heap_ok (h : list nat) : Prop := forall i, (0 < i < length h)%nat -> link h i.

Lemma heap_max h i : heap_ok h -> (i < length h)%nat -> ple (at_ h i) (at_ h 0).
Proof.
  intros H. induction i as [i IH] using (well_founded_induction lt_wf). intros Hi.
  destruct (Nat.eq_dec i 0%nat) as [-> |]; [apply ple_refl |].
  pose proof (parent_lt i ltac:(lia)). eapply ple_trans; [by apply H; lia | apply IH; lia].
Qed.

Definition swapped (h : list nat) (a b : nat) : list nat := <[b := h !!! a]> (<[a := h !!! b]> h).

Lemma length_swapped h a b : length (swapped h a b) = length h.
Proof. unfold swapped. by rewrite !length_insert. Qed.

Lemma swapped_lookup h a b j : (a < length h)%nat -> (b < length h)%nat ->
  swapped h a b !!! j = if decide (j = b) then h !!! a else if decide (j = a) then h !!! b else h !!! j.
Proof.
  intros Ha Hb. unfold swapped. destruct (decide (j = b)) as [-> | Hjb].
  - by rewrite list_lookup_total_insert_eq by (rewrite length_insert; lia).
  - rewrite list_lookup_total_insert_ne by done. destruct (decide (j = a)) as [-> | Hja].
    + by rewrite list_lookup_total_insert_eq by lia.
    + by rewrite list_lookup_total_insert_ne by done.
Qed.

Lemma at_swapped h a b j : (a < length h)%nat -> (b < length h)%nat ->
  at_ (swapped h a b) j = if decide (j = b) then at_ h a else if decide (j = a) then at_ h b else at_ h j.
Proof.
  intros Ha Hb. unfold at_. rewrite swapped_lookup by done.
  by destruct (decide (j = b)), (decide (j = a)).
Qed.

Lemma swapped_perm h a b : (a < length h)%nat -> (b < length h)%nat -> swapped h a b ≡ₚ h.
Proof.
  intros Ha Hb. apply Permutation_inj. split; [apply length_swapped |].
  exists (fun j => if decide (j = b) then a else if decide (j = a) then b else j). split.
  - intros x y. repeat case_decide; congruence.
  - intros j. assert (E : forall k, (k < length h)%nat -> h !! k = Some (h !!! k)).
    { intros k Hk. by apply list_lookup_lookup_total_lt. }
    destruct (Nat.lt_ge_cases j (length h)) as [Hj | Hj].
    + rewrite list_lookup_lookup_total_lt by (by rewrite length_swapped).
      rewrite swapped_lookup by done. repeat case_decide; by rewrite E.
    + rewrite lookup_ge_None_2 by (by rewrite length_swapped).
      repeat case_decide; try lia. by rewrite lookup_ge_None_2.
Qed.

(** *** Moving up: only the link above [i] may be broken. *)
Record up_ok (h : list nat) (i : nat) : Prop := {
  up_links : forall j, (0 < j < length h)%nat -> j <> i -> link h j;
  up_below : forall j, (0 < j < length h)%nat -> parent j = i -> (0 < i)%nat ->
    ple (at_ h j) (at_ h (parent i))
}.

Lemma up_done h i : up_ok h i -> ((0 < i)%nat -> link h i) -> heap_ok h.
Proof.
  intros [U1 U2] Hl j Hj. destruct (Nat.eq_dec j i) as [-> |]; [apply Hl; lia | by apply U1].
Qed.

Lemma up_step h i : (0 < i < length h)%nat -> up_ok h i -> ple (at_ h (parent i)) (at_ h i) ->
  up_ok (swapped h i (parent i)) (parent i).
Proof.
  intros Hi [U1 U2] Hg. set (p := parent i) in *. pose proof (parent_lt i ltac:(lia)) as Hp. fold p in Hp.
  assert (A : forall j, at_ (swapped h i p) j =
    if decide (j = p) then at_ h i else if decide (j = i) then at_ h p else at_ h j)
    by (intros; apply at_swapped; lia).
  split; rewrite ?length_swapped; intros j Hj.
  - intros Hjp. unfold link. rewrite !A.
    destruct (decide (j = p)); [done |].
    destruct (decide (j = i)) as [-> |].
    + fold p. by destruct (decide (p = p)).
    + destruct (decide (parent j = p)) as [E |].
      * eapply ple_trans; [| exact Hg]. rewrite <- E. by apply U1.
      * destruct (decide (parent j = i)) as [E |]; [| by apply U1].
        apply U2; [done | done | lia].
  - intros E Hp0. pose proof (parent_lt p Hp0). rewrite !A.
    assert (L : link h p) by (apply U1; lia).
    destruct (decide (j = p)); [pose proof (parent_lt j ltac:(lia)); lia |].
    destruct (decide (parent p = p)); [lia |]. destruct (decide (parent p = i)); [lia |].
    destruct (decide (j = i)) as [-> |]; [exact L |].
    eapply ple_trans; [| exact L]. rewrite <- E. by apply U1.
Qed.

(** *** Moving down: only the links below [i] may be broken. *)
Record down_ok (h : list nat) (i : nat) : Prop := {
  down_links : forall j, (0 < j < length h)%nat -> parent j <> i -> link h j;
  down_below : forall j, (0 < j < length h)%nat -> parent j = i -> (0 < i)%nat ->
    ple (at_ h j) (at_ h (parent i))
}.

Lemma down_done h i : down_ok h i ->
  (forall j, (0 < j < length h)%nat -> parent j = i -> link h j) -> heap_ok h.
Proof.
  intros [D1 D2] Hl j Hj. destruct (Nat.eq_dec (parent j) i); [by apply Hl | by apply D1].
Qed.

Lemma down_step h i b : (0 < b < length h)%nat -> parent b = i -> down_ok h i ->
  ple (at_ h i) (at_ h b) ->
  (forall j, (0 < j < length h)%nat -> parent j = i -> ple (at_ h j) (at_ h b)) ->
  down_ok (swapped h i b) b.
Proof.
  intros Hb Ep [D1 D2] Hg Hm. pose proof (parent_lt b ltac:(lia)) as Hp. rewrite Ep in Hp.
  assert (A : forall j, at_ (swapped h i b) j =
    if decide (j = b) then at_ h i else if decide (j = i) then at_ h b else at_ h j)
    by (intros; apply at_swapped; lia).
  split; rewrite ?length_swapped; intros j Hj.
  - intros Hjb. pose proof (parent_lt j ltac:(lia)). unfold link. rewrite !A.
    destruct (decide (j = b)) as [-> |].
    + rewrite Ep. destruct (decide (i = b)); [lia |]. by destruct (decide (i = i)).
    + destruct (decide (parent j = b)); [done |].
      destruct (decide (j = i)) as [-> |].
      * destruct (decide (parent i = i)); [lia |]. apply D2; [done | done | lia].
      * destruct (decide (parent j = i)); [by apply Hm | by apply D1].
  - intros E _. rewrite !A, Ep.
    destruct (decide (j = b)) as [-> |]; [lia |]. destruct (decide (i = b)); [lia |].
    destruct (decide (j = i)) as [-> |].
    { pose proof (parent_lt i ltac:(lia)). lia. }
    destruct (decide (i = i)); [| done]. rewrite <- E. apply D1; [done |]. lia.
Qed.
End heap.

(** ** Pushing and sifting keep the heap order *)

Section heap_ops.
Context {C : Type} (ss : list (ndb_index_scanner C)).

Definition pri (i : nat) : Z * Z :=
  match ss !! i with Some s => (s_created_at s, s_note_key s) | None => (0, 0) end.

Definition in_range (h : list nat) : Prop := Forall (fun i => (i < length ss)%nat) h.

Lemma in_range_lookup h i x : in_range h -> h !! i = Some x -> (x < length ss)%nat.
Proof. intros H E. exact (Forall_lookup_1 _ _ _ _ H E). Qed.

Lemma in_range_perm h h' : h' ≡ₚ h -> in_range h -> in_range h'.
Proof. unfold in_range. by intros ->. Qed.

Lemma merger_gt_spec a b : (a < length ss)%nat -> (b < length ss)%nat ->
  exists g, ndb_merger_gt ss a b = Some g /\ if g then ple (pri b) (pri a) else ple (pri a) (pri b).
Proof.
  intros Ha Hb. unfold ndb_merger_gt, pri, ple.
  destruct (lookup_lt_is_Some_2 ss a Ha) as [sa ->]. destruct (lookup_lt_is_Some_2 ss b Hb) as [sb ->].
  cbn [mbind option_bind fst snd].
  destruct (Z.eqb_spec (s_created_at sa) (s_created_at sb)); cbn [negb]; eexists; (split; [done |]);
    match goal with |- context [?x <? ?y] => destruct (Z.ltb_spec x y) end; lia.
Qed.

Lemma lookup_at (h : list nat) i : (i < length h)%nat -> h !! i = Some (h !!! i).
Proof. apply list_lookup_lookup_total_lt. Qed.

Lemma swap_spec (h : list nat) a b : (a < length h)%nat -> (b < length h)%nat ->
  ndb_merger_swap h a b = Some (swapped h a b).
Proof. intros Ha Hb. unfold ndb_merger_swap. by rewrite !lookup_at by done. Qed.

Lemma merger_up_spec fuel : forall h i,
  in_range h -> (i < length h)%nat -> up_ok pri h i -> (i < fuel)%nat ->
  exists h', merger_up fuel ss h i = Some h' /\ heap_ok pri h' /\ h' ≡ₚ h.
Proof.
  induction fuel as [| fuel IH]; intros h i R Hi U Hf; [lia |]. cbn [merger_up].
  destruct (Nat.ltb_spec 0 i) as [H0 |].
  - change ((i - 1) / 2)%nat with (parent i). pose proof (parent_lt i H0).
    rewrite (lookup_at h i), (lookup_at h (parent i)) by lia. cbn [mbind option_bind].
    destruct (merger_gt_spec (h !!! i) (h !!! parent i)) as (g & -> & G);
      [by eapply in_range_lookup, lookup_at | eapply in_range_lookup, lookup_at; [done | lia] |].
    cbn [mbind option_bind]. destruct g; cbn [negb].
    + rewrite swap_spec by lia. cbn [mbind option_bind].
      destruct (IH (swapped h i (parent i)) (parent i)) as (h' & E & O & P).
      * eapply in_range_perm; [apply swapped_perm; lia | done].
      * rewrite length_swapped. lia.
      * apply up_step; [lia | done | exact G].
      * lia.
      * exists h'. split; [done |]. split; [done |]. rewrite P. apply swapped_perm; lia.
    + exists h. split; [done |]. split; [| done]. apply (up_done _ _ i U). intros _. exact G.
  - exists h. split; [done |]. split; [| done]. apply (up_done _ _ i U). lia.
Qed.

(** What [bigger] picks. *)
Lemma bigger_spec h big c : in_range h -> (big < length h)%nat ->
  exists b, bigger ss h big c = Some b /\ (b = big \/ (b = c /\ (c < length h)%nat)) /\
    ple (at_ pri h big) (at_ pri h b) /\ ((c < length h)%nat -> ple (at_ pri h c) (at_ pri h b)).
Proof.
  intros R Hb. unfold bigger. destruct (Nat.ltb_spec c (length h)) as [Hc |].
  - rewrite (lookup_at h c), (lookup_at h big) by lia. cbn [mbind option_bind].
    destruct (merger_gt_spec (h !!! c) (h !!! big)) as (g & -> & G);
      [by eapply in_range_lookup, lookup_at | by eapply in_range_lookup, lookup_at |].
    cbn [mbind option_bind]. destruct g; eexists; (split; [done |]); unfold at_.
    + split; [by right |]. split; [exact G | intros; apply ple_refl].
    + split; [by left |]. split; [apply ple_refl | intros; exact G].
  - exists big. split; [done |]. split; [by left |]. split; [apply ple_refl | lia].
Qed.

Lemma merger_sift_spec fuel : forall h i,
  in_range h -> (i < length h)%nat -> down_ok pri h i -> (length h - i < fuel)%nat ->
  exists h', merger_sift fuel ss h i = Some h' /\ heap_ok pri h' /\ h' ≡ₚ h.
Proof.
  induction fuel as [| fuel IH]; intros h i R Hi U Hf; [lia |]. cbn [merger_sift].
  destruct (bigger_spec h i (i * 2 + 1) R Hi) as (b1 & -> & B1 & L1 & G1). cbn [mbind option_bind].
  destruct (bigger_spec h b1 (i * 2 + 1 + 1) R) as (b2 & -> & B2 & L2 & G2);
    [destruct B1 as [-> | [-> ?]]; lia |]. cbn [mbind option_bind].
  assert (M : forall j, (0 < j < length h)%nat -> parent j = i -> ple (at_ pri h j) (at_ pri h b2)).
  { intros j Hj E. apply parent_spec in E; [| lia]. destruct E as [-> | ->].
    - eapply ple_trans; [| exact L2]. replace (2 * i + 1)%nat with (i * 2 + 1)%nat in * by lia. apply G1. lia.
    - replace (2 * i + 2)%nat with (i * 2 + 1 + 1)%nat in * by lia. apply G2. lia. }
  destruct (Nat.eqb_spec b2 i) as [-> | Hb].
  - exists h. split; [done |]. split; [| done]. apply (down_done _ _ i U). intros j Hj E.
    unfold link. rewrite E. by apply M.
  - assert (Hb2 : (b2 < length h)%nat /\ parent b2 = i /\ (i < b2)%nat).
    { destruct B2 as [-> | [-> ?]].
      - destruct B1 as [-> | [-> ?]]; [done |]. split; [done |]. split; [| lia].
        apply parent_spec; lia.
      - split; [done |]. split; [| lia]. apply parent_spec; lia. }
    destruct Hb2 as (Hb2 & Ep & Hlt). rewrite swap_spec by lia. cbn [mbind option_bind].
    destruct (IH (swapped h i b2) b2) as (h' & E & O & P).
    + eapply in_range_perm; [apply swapped_perm; lia | done].
    + rewrite length_swapped. lia.
    + apply down_step; try done; [lia |]. by eapply ple_trans.
    + rewrite length_swapped. lia.
    + exists h'. split; [done |]. split; [done |]. rewrite P. apply swapped_perm; lia.
Qed.

Lemma merger_sift_nil fuel : merger_sift (Datatypes.S fuel) ss [] 0 = Some [].
Proof. reflexivity. Qed.

(** Appending keeps every link but the new one. *)
Lemma up_ok_app h x : heap_ok pri h -> up_ok pri (h ++ [x]) (length h).
Proof.
  intros O.
  assert (A : forall j, (j < length h)%nat -> at_ pri (h ++ [x]) j = at_ pri h j).
  { intros j Hj. unfold at_. by rewrite lookup_total_app_l. }
  split; rewrite length_app; simpl.
  - intros j Hj Hn. pose proof (parent_lt j ltac:(lia)). unfold link. rewrite !A by lia. apply O. lia.
  - intros j Hj E _. pose proof (parent_lt j ltac:(lia)). lia.
Qed.

(** Replacing the root keeps every link but those below it. *)
Lemma down_ok_root h y : heap_ok pri h -> down_ok pri (<[0%nat := y]> h) 0.
Proof.
  intros O. split; rewrite length_insert; intros j Hj.
  - intros Hp. unfold link, at_. rewrite !list_lookup_total_insert_ne by lia. by apply O.
  - lia.
Qed.

Lemma heap_ok_take h n : heap_ok pri h -> heap_ok pri (take n h).
Proof.
  intros O i Hi. rewrite length_take in Hi. pose proof (parent_lt i ltac:(lia)).
  unfold link, at_. rewrite !list_lookup_total_alt, !lookup_take_lt by lia.
  rewrite <- !list_lookup_total_alt. apply O. lia.
Qed.
End heap_ops.

(** ** Streams *)

(** The entries a scan of group [g] yields from the items [l], read in order:
    while they belong to the group and are not below [since]. *)
Fixpoint scan (type : ndb_scan_key_type) (since : Z) (g : list Z) (l : list item) : list (Z * Z) :=
  match l with
  | [] => []
  | it :: l =>
      match ndb_scanner_in_group g type (fst it), ndb_scanner_read type it with
      | Some true, Some r => if since <=? fst r then r :: scan type since g l else []
      | _, _ => []
      end
  end.

(** Items the code can decode. *)
Definition readable (type : ndb_scan_key_type) (g : list Z) (it : item) : Prop :=
  exists b, ndb_scanner_in_group g type (fst it) = Some b /\
    (b = true -> exists r, ndb_scanner_read type it = Some r).

Definition descending (l : list (Z * Z)) : Prop := StronglySorted (fun x y => ple y x) l.

Section streams.
Context {D C : Type} `{!Lmdb D C}.
Abbreviation scanner := (ndb_index_scanner C).
Abbreviation merger := (ndb_index_merger D C).

(** The items from position [p] backwards. *)
Definition backward (d : D) (p : nat) : list item := rev (take (Datatypes.S p) (db_items d)).

Lemma backward_S d p it : db_items d !! p = Some it ->
  backward d p = it :: rev (take p (db_items d)).
Proof. intros H. unfold backward. by rewrite (take_S_r _ _ _ H), rev_app_distr. Qed.

(** What scanner [s] still has to give, its current entry first. *)
Definition stream_of (m : merger) (s : scanner) : list (Z * Z) :=
  match cur_pos (s_cur s) with
  | Some p => scan (m_key_type m) (m_since m) (group s) (backward (m_db m) p)
  | None => []
  end.

(** A scanner that stands on an entry, which it has read. *)
Definition live (m : merger) (s : scanner) : Prop :=
  cur_db (s_cur s) = m_db m /\
  Forall (readable (m_key_type m) (group s)) (db_items (m_db m)) /\
  descending (stream_of m s) /\
  exists p tl, cur_pos (s_cur s) = Some p /\ (p < length (db_items (m_db m)))%nat /\
    stream_of m s = (s_created_at s, s_note_key s) :: tl.

Lemma scanner_load_spec m (s : scanner) p :
  cur_db (s_cur s) = m_db m -> cur_pos (s_cur s) = Some p ->
  (p < length (db_items (m_db m)))%nat ->
  Forall (readable (m_key_type m) (group s)) (db_items (m_db m)) ->
  exists b s', ndb_scanner_load (m_key_type m) (m_since m) s = Some (b, s') /\
    group s' = group s /\ cur_db (s_cur s') = m_db m /\ cur_pos (s_cur s') = Some p /\
    if b then stream_of m s = (s_created_at s', s_note_key s') ::
                scan (m_key_type m) (m_since m) (group s) (rev (take p (db_items (m_db m))))
    else stream_of m s = [].
Proof.
  intros Ed Ep Hp R. destruct (lookup_lt_is_Some_2 _ _ Hp) as [it Ei].
  destruct (cursor_get_Some (s_cur s) MDB_GET_CURRENT p it) as (c' & E & D' & P');
    [done | by rewrite Ed |].
  unfold ndb_scanner_load. rewrite E. cbn [group s_created_at s_note_key].
  destruct (Forall_lookup_1 _ _ _ _ R Ei) as (b & Eg & Hr). rewrite Eg. cbn [mbind option_bind].
  unfold stream_of. rewrite Ep, (backward_S _ _ _ Ei). cbn [scan]. rewrite Eg.
  destruct b; cbn [negb].
  - destruct (Hr eq_refl) as [r Er]. rewrite Er. cbn [mbind option_bind].
    eexists _, _. split; [reflexivity |]. cbn [group s_cur s_created_at s_note_key].
    split; [done |]. split; [congruence |]. split; [done |].
    destruct (Z.leb_spec (m_since m) (fst r)); [by destruct r | done].
  - eexists _, _. split; [reflexivity |]. cbn [group s_cur].
    split; [done |]. split; [congruence |]. split; done.
Qed.

Definition merger_stream (m : merger) (i : nat) : list (Z * Z) :=
  match scanners m !! i with Some s => stream_of m s | None => [] end.

(** Everything the merger still has to give. *)
Definition pending (m : merger) : list (Z * Z) := flat_map (merger_stream m) (heap m).

Record merger_ok (m : merger) : Prop := {
  mo_range : in_range (scanners m) (heap m);
  mo_nodup : NoDup (heap m);
  mo_heap : heap_ok (pri (scanners m)) (heap m);
  mo_len : zlen (heap m) <= zlen (scanners m) <= capacity m;
  mo_live : forall i s, i ∈ heap m -> scanners m !! i = Some s -> live m s
}.

(** The parts of a merger that never change. *)
Definition same_merge (m m' : merger) : Prop :=
  m_db m' = m_db m /\ m_key_type m' = m_key_type m /\ m_since m' = m_since m /\
  capacity m' = capacity m.

Lemma stream_of_same m m' s : same_merge m m' -> stream_of m' s = stream_of m s.
Proof. intros (E1 & E2 & E3 & _). unfold stream_of. by rewrite E1, E2, E3. Qed.

Lemma live_same m m' s : same_merge m m' -> live m s -> live m' s.
Proof.
  intros S L. unfold live. rewrite (stream_of_same m m' s S). destruct S as (E1 & E2 & E3 & _).
  by rewrite E1, E2.
Qed.

(** The stream of a heap entry starts with its priority. *)
Lemma merger_stream_head m i : merger_ok m -> i ∈ heap m ->
  exists tl, merger_stream m i = pri (scanners m) i :: tl.
Proof.
  intros M Hi. unfold merger_stream, pri.
  assert (Hl : (i < length (scanners m))%nat).
  { apply list_elem_of_lookup in Hi as [j Hj]. by apply (in_range_lookup _ _ _ _ (mo_range _ M) Hj). }
  destruct (lookup_lt_is_Some_2 _ _ Hl) as [s Es]. rewrite Es.
  destruct (mo_live _ M i s Hi Es) as (_ & _ & _ & p & tl & _ & _ & E). by exists tl.
Qed.

Lemma merger_stream_desc m i : merger_ok m -> i ∈ heap m -> descending (merger_stream m i).
Proof.
  intros M Hi. unfold merger_stream. destruct (scanners m !! i) as [s |] eqn:Es; [| constructor].
  by destruct (mo_live _ M i s Hi Es) as (_ & _ & S & _).
Qed.

(** The root's entry is the newest of all that is pending. *)
Lemma root_is_newest m top tl y : merger_ok m -> heap m = top :: tl -> y ∈ pending m ->
  ple y (pri (scanners m) top).
Proof.
  intros M Eh Hy. unfold pending in Hy. apply list_elem_of_In, in_flat_map in Hy as (i & Hi & Hy).
  apply list_elem_of_In in Hi, Hy.
  destruct (merger_stream_head m i M Hi) as [tl' Es]. pose proof (merger_stream_desc m i M Hi) as S.
  rewrite Es in Hy, S. apply list_elem_of_lookup in Hi as [j Hj].
  assert (H0 : ple (pri (scanners m) i) (pri (scanners m) top)).
  { pose proof (heap_max (pri (scanners m)) (heap m) j (mo_heap _ M)) as X.
    unfold at_ in X. rewrite (list_lookup_total_correct _ _ _ Hj) in X.
    replace (heap m !!! 0%nat) with top in X by (by rewrite Eh). apply X.
    by eapply lookup_lt_Some. }
  apply elem_of_cons in Hy as [-> | Hy]; [done |].
  eapply ple_trans; [| exact H0]. apply StronglySorted_inv in S as [_ S].
  rewrite Forall_forall in S. by apply S.
Qed.
End streams.

(** ** Taking the next entry *)

Section next.
Context {D C : Type} `{!Lmdb D C}.
Abbreviation scanner := (ndb_index_scanner C).
Abbreviation merger := (ndb_index_merger D C).

(** Stepping the scanner of a live entry: what is left is its tail. *)
Lemma scanner_advance (m : merger) s : live m s ->
  exists r, match mdb_cursor_get (s_cur s) MDB_PREV with
       | None => Some (false, s)
       | Some (c, _) => ndb_scanner_load (m_key_type m) (m_since m)
                          (mk_scanner (group s) c (s_created_at s) (s_note_key s))
       end = Some r /\
    if fst r then live m (snd r) /\ stream_of m s = (s_created_at s, s_note_key s) :: stream_of m (snd r)
    else stream_of m s = [(s_created_at s, s_note_key s)].
Proof.
  intros (Ed & R & S & p & tl & Ep & Hp & Es).
  destruct (lookup_lt_is_Some_2 _ _ Hp) as [it Ei].
  assert (Etl : tl = scan (m_key_type m) (m_since m) (group s) (rev (take p (db_items (m_db m))))).
  { unfold stream_of in Es. rewrite Ep, (backward_S _ _ _ Ei) in Es. cbn [scan] in Es.
    destruct (ndb_scanner_in_group _ _ _) as [[|] |]; try done.
    destruct (ndb_scanner_read _ _) as [r |]; [| done]. destruct (_ <=? _); [| done]. by injection Es as _ <-. }
  destruct p as [| p].
  - rewrite (cursor_get_None (s_cur s) MDB_PREV) by (cbn [mdb_goto]; by rewrite Ep).
    eexists. split; [reflexivity |]. cbn [fst]. rewrite Es, Etl. done.
  - destruct (lookup_lt_is_Some_2 (db_items (m_db m)) p) as [it' Ei']; [lia |].
    destruct (cursor_get_Some (s_cur s) MDB_PREV p it') as (c' & E & D' & P');
      [cbn [mdb_goto]; by rewrite Ep | by rewrite Ed |].
    rewrite E.
    set (s1 := mk_scanner (group s) c' (s_created_at s) (s_note_key s)).
    destruct (scanner_load_spec m s1 p) as (b & s' & El & Eg & Ed' & Ep' & Eb);
      [cbn [s_cur s1]; congruence | done | lia | done |].
    rewrite El. eexists. split; [reflexivity |]. cbn [fst snd].
    assert (E1 : stream_of m s1 = tl).
    { rewrite Etl. unfold stream_of. cbn [s_cur s1 group]. by rewrite P'. }
    assert (E2 : stream_of m s' = tl).
    { rewrite <- E1. unfold stream_of. cbn [s_cur s1 group]. by rewrite P', Ep', Eg. }
    rewrite E1 in Eb. destruct b; [| by rewrite Es, Eb].
    split; [| by rewrite Es, E2].
    split; [done |]. split; [by rewrite Eg |]. rewrite E2. rewrite Es in S.
    split; [by apply StronglySorted_inv in S as [S _] |].
    exists p. eexists. split; [done |]. split; [lia |]. rewrite Eb. reflexivity.
Qed.

Lemma flat_map_perm {A B} (f : A -> list B) l l' : l ≡ₚ l' -> flat_map f l ≡ₚ flat_map f l'.
Proof. apply Permutation_flat_map. Qed.

Lemma flat_map_ext_in {A B} (f g : A -> list B) l : (forall x, x ∈ l -> f x = g x) -> flat_map f l = flat_map g l.
Proof.
  induction l as [| x l IH]; intros H; [done |]. simpl. rewrite (H x) by (apply elem_of_cons; by left).
  rewrite IH; [done |]. intros y Hy. apply H, elem_of_cons. by right.
Qed.

Lemma lookup_insert_list {A} (l : list A) i j x y : <[i := x]> l !! j = Some y ->
  (j = i /\ y = x) \/ (j <> i /\ l !! j = Some y).
Proof.
  destruct (Nat.eq_dec j i) as [-> | N].
  - intros H. assert (Hl : (i < length l)%nat).
    { apply lookup_lt_Some in H. by rewrite length_insert in H. }
    rewrite list_lookup_insert_eq in H by done. injection H as <-. by left.
  - rewrite list_lookup_insert_ne by done. by right.
Qed.

(** Changing the scanner at the root: the others keep their priorities. *)
Lemma pri_insert (ss : list scanner) i s j : j <> i -> pri (<[i := s]> ss) j = pri ss j.
Proof. intros N. unfold pri. by rewrite list_lookup_insert_ne. Qed.

Lemma merger_stream_insert (m : merger) i s j h : j <> i ->
  merger_stream (set_heap (set_scanners m (<[i := s]> (scanners m))) h) j = merger_stream m j.
Proof. intros N. unfold merger_stream. cbn [scanners set_heap set_scanners]. by rewrite list_lookup_insert_ne. Qed.

Lemma down_ok_pri (p p' : nat -> Z * Z) h : heap_ok p h -> NoDup h ->
  (forall i, i <> h !!! 0%nat -> p' i = p i) -> down_ok p' h 0.
Proof.
  intros O N H. split; [| lia]. intros j Hj Hp.
  assert (A : forall k, (0 < k < length h)%nat -> at_ p' h k = at_ p h k).
  { intros k Hk. unfold at_. apply H. intros E.
    assert (k = 0%nat); [| lia]. apply (proj1 (NoDup_alt _) N k 0%nat (h !!! k)).
    - apply lookup_at. lia.
    - rewrite E. apply lookup_at. lia. }
  pose proof (parent_lt j ltac:(lia)). unfold link. rewrite !A by lia. by apply O.
Qed.

Lemma heap_ok_ext p p' h : (forall i, i ∈ h -> p' i = p i) -> heap_ok p h -> heap_ok p' h.
Proof.
  intros H O j Hj. pose proof (parent_lt j ltac:(lia)). unfold link, at_.
  rewrite !H by (apply list_elem_of_lookup; eexists; apply lookup_at; lia). by apply O.
Qed.

(** The root dropped: its place is taken by the last entry. *)
Lemma dropped_perm (top : nat) tl last : (top :: tl) !! (length (top :: tl) - 1)%nat = Some last ->
  take (length (top :: tl) - 1) (<[0%nat := last]> (top :: tl)) ≡ₚ tl.
Proof.
  cbn [length]. replace (S (length tl) - 1)%nat with (length tl) by lia.
  destruct (decide (tl = [])) as [-> | Ne]; [done |].
  destruct (exists_last Ne) as (l & x & ->). rewrite length_app. simpl length. intros H.
  replace (length l + 1)%nat with (S (length l)) in * by lia. simpl in H.
  rewrite list_lookup_middle in H by done. injection H as ->.
  simpl. rewrite take_app_length. by rewrite Permutation_cons_append.
Qed.

Lemma dropped_down (p : nat -> Z * Z) (top : nat) tl last : heap_ok p (top :: tl) ->
  down_ok p (take (length (top :: tl) - 1) (<[0%nat := last]> (top :: tl))) 0.
Proof.
  intros O. set (h := top :: tl) in *. set (n := (length h - 1)%nat).
  assert (L : length (take n (<[0%nat := last]> h)) = n).
  { rewrite length_take, length_insert. lia. }
  split; rewrite L; [| lia]. intros j Hj Hp. pose proof (parent_lt j ltac:(lia)).
  assert (A : forall k, (0 < k < n)%nat -> at_ p (take n (<[0%nat := last]> h)) k = at_ p h k).
  { intros k Hk. unfold at_. rewrite !list_lookup_total_alt, lookup_take_lt by lia.
    by rewrite list_lookup_insert_ne by lia. }
  unfold link. rewrite !A by lia. apply O. lia.
Qed.
End next.

Section next_spec.
Context {D C : Type} `{!Lmdb D C}.
Abbreviation scanner := (ndb_index_scanner C).
Abbreviation merger := (ndb_index_merger D C).

(** The merger with the scanner of [top] replaced and another heap. *)
Definition updated (m : merger) (top : nat) (s : scanner) (h : list nat) : merger :=
  set_heap (set_scanners m (<[top := s]> (scanners m))) h.

Lemma same_updated m top s h : same_merge m (updated m top s h).
Proof. done. Qed.

Lemma updated_ok m top s h : merger_ok m -> top ∈ heap m ->
  (forall i, i ∈ h -> i ∈ heap m) -> (top ∈ h -> live m s) -> NoDup h ->
  heap_ok (pri (<[top := s]> (scanners m))) h -> zlen h <= zlen (heap m) ->
  merger_ok (updated m top s h).
Proof.
  intros M Ht Hs Hl Nd O L. split; cbn [updated set_heap set_scanners scanners heap capacity].
  - unfold in_range. rewrite length_insert. apply Forall_lookup. intros j i Hj.
    assert (Hi : i ∈ heap m) by (apply Hs, list_elem_of_lookup; eauto).
    apply list_elem_of_lookup in Hi as [k Hk]. by apply (in_range_lookup _ _ _ _ (mo_range _ M) Hk).
  - done.
  - done.
  - pose proof (mo_len _ M). unfold zlen in *. rewrite length_insert. lia.
  - intros i s' Hi Es. apply (live_same m); [done |].
    apply lookup_insert_list in Es as [[-> ->] | [N Es]]; [by apply Hl |].
    apply (mo_live _ M i); [by apply Hs | done].
Qed.

Lemma updated_tail m top s h tl : NoDup (top :: tl) ->
  flat_map (merger_stream (updated m top s h)) tl = flat_map (merger_stream m) tl.
Proof.
  intros Nd. apply flat_map_ext_in. intros j Hj. apply merger_stream_insert.
  intros ->. by apply NoDup_cons in Nd as [Nd _].
Qed.

Lemma updated_range m top s h tl : merger_ok m -> heap m = top :: tl ->
  (forall i, i ∈ h -> i ∈ top :: tl) -> in_range (<[top := s]> (scanners m)) h.
Proof.
  intros M Eh Hh. unfold in_range. rewrite length_insert. apply Forall_lookup. intros j i Hj.
  assert (Hi : i ∈ heap m) by (rewrite Eh; apply Hh, list_elem_of_lookup; eauto).
  apply list_elem_of_lookup in Hi as [k Hk]. by apply (in_range_lookup _ _ _ _ (mo_range _ M) Hk).
Qed.

Section step.
Context (m : merger) (top : nat) (tl : list nat) (s s' : scanner).
Hypothesis (M : merger_ok m) (Eh : heap m = top :: tl) (Es : scanners m !! top = Some s).

Lemma root_in_heap : top ∈ heap m.
Proof using Eh. rewrite Eh. apply elem_of_cons. by left. Qed.

Lemma root_in_range : (top < length (scanners m))%nat.
Proof using Es. by eapply lookup_lt_Some. Qed.

Lemma root_nodup : NoDup (top :: tl).
Proof using M Eh. rewrite <- Eh. apply (mo_nodup _ M). Qed.

Lemma root_pri : pri (scanners m) top = (s_created_at s, s_note_key s).
Proof using Es. unfold pri. by rewrite Es. Qed.

Lemma root_pending : pending m = stream_of m s ++ flat_map (merger_stream m) tl.
Proof using Eh Es. unfold pending. rewrite Eh. cbn [flat_map]. unfold merger_stream at 1. by rewrite Es. Qed.

(** The group of the root goes on: its scanner sinks to its new place. *)
Lemma sift_kept : live m s' -> stream_of m s = pri (scanners m) top :: stream_of m s' ->
  exists m', ndb_merger_sift (set_scanners m (<[top := s']> (scanners m))) = Some m' /\
    merger_ok m' /\ same_merge m m' /\ pending m ≡ₚ pri (scanners m) top :: pending m'.
Proof using M Eh Es.
  intros L Estr. pose proof root_nodup as Nd. pose proof (mo_heap _ M) as O. rewrite Eh in O.
  unfold ndb_merger_sift. cbn [heap scanners set_scanners]. rewrite Eh.
  destruct (merger_sift_spec (<[top := s']> (scanners m)) (S (length (top :: tl))) (top :: tl) 0)
    as (h' & E & O' & P).
  { by eapply updated_range. } { simpl. lia. }
  { apply (down_ok_pri (pri (scanners m))); [done | done |]. intros i Hi. by apply pri_insert. }
  { lia. }
  rewrite E. cbn [mbind option_bind].
  exists (updated m top s' h'). split; [reflexivity |]. split; [| split; [apply same_updated |]].
  - apply updated_ok; try done.
    + apply root_in_heap.
    + intros i. rewrite Eh. by rewrite P.
    + by rewrite P.
    + rewrite Eh. apply Permutation_length in P. unfold zlen. lia.
  - rewrite root_pending, Estr. cbn [app]. constructor. unfold pending.
    change (heap (updated m top s' h')) with h'. rewrite (flat_map_perm _ _ _ P). cbn [flat_map].
    rewrite (updated_tail m top s' h' tl Nd). apply Permutation_app; [| done].
    unfold merger_stream. cbn [scanners updated set_heap set_scanners].
    rewrite list_lookup_insert_eq by apply root_in_range.
    by rewrite (stream_of_same m (updated m top s' h') _ (same_updated m top s' h')).
Qed.

(** The group of the root is done: the last heap entry takes its place. *)
Lemma sift_dropped last : (top :: tl) !! (length (top :: tl) - 1)%nat = Some last ->
  stream_of m s = [pri (scanners m) top] ->
  exists m', ndb_merger_sift (updated m top s' (take (length (top :: tl) - 1) (<[0%nat := last]> (top :: tl)))) = Some m' /\
    merger_ok m' /\ same_merge m m' /\ pending m ≡ₚ pri (scanners m) top :: pending m'.
Proof using M Eh Es.
  intros Elast Estr. pose proof root_nodup as Nd. pose proof (mo_heap _ M) as O. rewrite Eh in O.
  pose proof (dropped_perm top tl last Elast) as P1.
  set (ss' := <[top := s']> (scanners m)). set (h1 := take _ _) in *.
  assert (Op : down_ok (pri ss') h1 0).
  { pose proof (dropped_down (pri (scanners m)) top tl last O) as [D1 D2]. fold h1 in D1, D2.
    assert (A : forall k, (k < length h1)%nat -> at_ (pri ss') h1 k = at_ (pri (scanners m)) h1 k).
    { intros k Hk. unfold at_, ss'. apply pri_insert. intros E.
      apply NoDup_cons in Nd as [Nd _]. apply Nd. rewrite <- P1, <- E.
      apply list_elem_of_lookup. eexists. by apply lookup_at. }
    split; [| lia]. intros j Hj Hp. pose proof (parent_lt j ltac:(lia)). unfold link. rewrite !A by lia.
    by apply D1. }
  assert (Sift : exists h', merger_sift (S (length h1)) ss' h1 0 = Some h' /\ heap_ok (pri ss') h' /\ h' ≡ₚ h1).
  { destruct (decide (h1 = [])) as [-> | Ne].
    - exists []. split; [done |]. split; [| done]. intros i Hi. simpl in Hi. lia.
    - apply merger_sift_spec; [| destruct h1; [done | simpl; lia] | done | lia].
      eapply updated_range; [done | done |]. intros i. rewrite P1. intros X. apply elem_of_cons. by right. }
  destruct Sift as (h' & E & O' & P). unfold ndb_merger_sift.
  cbn [heap scanners updated set_scanners set_heap]. fold ss'. rewrite E. cbn [mbind option_bind].
  exists (updated m top s' h'). split; [reflexivity |].
  assert (P' : h' ≡ₚ tl) by (by rewrite P). pose proof Nd as [Nd1 Nd2]%NoDup_cons.
  split; [| split; [apply same_updated |]].
  - apply updated_ok; try done.
    + apply root_in_heap.
    + intros i. rewrite Eh, P'. intros X. apply elem_of_cons. by right.
    + by rewrite P'.
    + by rewrite P'.
    + rewrite Eh. apply Permutation_length in P'. unfold zlen. simpl. lia.
  - rewrite root_pending, Estr. cbn [app]. constructor. unfold pending.
    change (heap (updated m top s' h')) with h'. rewrite (flat_map_perm _ _ _ P').
    by rewrite (updated_tail m top s' h' tl Nd).
Qed.
End step.

(** Taking the next entry gives the root's and leaves a good merger with the
    rest. *)
Lemma next_spec m : merger_ok m ->
  match heap m with
  | [] => ndb_index_merger_next m = Some (None, m)
  | top :: _ =>
      exists m', ndb_index_merger_next m = Some (Some (snd (pri (scanners m) top)), m') /\
        merger_ok m' /\ same_merge m m' /\ pending m ≡ₚ pri (scanners m) top :: pending m'
  end.
Proof.
  intros M. unfold ndb_index_merger_next. destruct (heap m) as [| top tl] eqn:Eh; [done |].
  assert (Hl : (top < length (scanners m))%nat).
  { apply (in_range_lookup _ (heap m) 0%nat); [apply mo_range, M | by rewrite Eh]. }
  destruct (lookup_lt_is_Some_2 _ _ Hl) as [s Es]. rewrite Es. cbn [mbind option_bind].
  destruct (scanner_advance m s (mo_live _ M top s (root_in_heap m top tl Eh) Es)) as (r & Er & Hr).
  rewrite Er. cbn [mbind option_bind].
  change (heap (set_scanners m (<[top := snd r]> (scanners m)))) with (heap m). rewrite Eh.
  destruct (lookup_lt_is_Some_2 (top :: tl) (length (top :: tl) - 1)) as [last Elast]; [simpl; lia |].
  rewrite Elast. cbn [mbind option_bind].
  pose proof (root_pri m top s Es) as Epri. rewrite <- (f_equal snd Epri : _ = s_note_key s).
  rewrite <- Epri in Hr. destruct (fst r).
  - destruct Hr as [Lr Estr].
    destruct (sift_kept m top tl s (snd r) M Eh Es Lr Estr) as (m' & E & X).
    rewrite E. by exists m'.
  - destruct (sift_dropped m top tl s (snd r) M Eh Es last Elast Hr) as (m' & E & X).
    unfold updated in E. rewrite E. by exists m'.
Qed.
End next_spec.

(** ** Adding groups and draining *)

Section drain.
Context {D C : Type} `{!Lmdb D C}.
Abbreviation scanner := (ndb_index_scanner C).
Abbreviation merger := (ndb_index_merger D C).

(** The entries of the group of [key] strictly below [key], newest first. *)
Definition group_stream (m : merger) (key : list Z) : list (Z * Z) :=
  scan (m_key_type m) (m_since m) key (rev (take (below (m_db m) key) (db_items (m_db m)))).

(** With one more scanner, not in the heap. *)
Definition appended (m : merger) (s : scanner) : merger := set_scanners m (scanners m ++ [s]).

Lemma pri_app (ss : list scanner) s i : (i < length ss)%nat -> pri (ss ++ [s]) i = pri ss i.
Proof. intros H. unfold pri. by rewrite lookup_app_l. Qed.

Lemma heap_lookup_lt m i : merger_ok m -> i ∈ heap m -> (i < length (scanners m))%nat.
Proof.
  intros M Hi. apply list_elem_of_lookup in Hi as [j Hj].
  by apply (in_range_lookup _ _ _ _ (mo_range _ M) Hj).
Qed.

Lemma appended_ok m s : merger_ok m -> zlen (scanners m) < capacity m -> merger_ok (appended m s).
Proof.
  intros M L. split; cbn [appended set_scanners scanners heap capacity].
  - unfold in_range. rewrite length_app. apply (Forall_impl _ _ _ (mo_range _ M)). intros. simpl. lia.
  - apply M.
  - apply (heap_ok_ext (pri (scanners m))); [| apply M]. intros i Hi. apply pri_app. by apply heap_lookup_lt.
  - pose proof (mo_len _ M). rewrite zlen_app. change (zlen [s]) with 1. lia.
  - intros i s' Hi Es. apply (live_same m); [done |]. apply (mo_live _ M i); [done |].
    by rewrite lookup_app_l in Es by (by apply heap_lookup_lt).
Qed.

Lemma appended_pending m s : merger_ok m -> pending (appended m s) = pending m.
Proof.
  intros M. apply flat_map_ext_in. intros i Hi. unfold merger_stream.
  cbn [appended set_scanners scanners]. by rewrite lookup_app_l by (by apply heap_lookup_lt).
Qed.

(** Pushing the scanner just appended. *)
Lemma push_spec m s : merger_ok m -> zlen (scanners m) < capacity m -> live m s ->
  exists m', ndb_merger_push (appended m s) (length (scanners m)) = Some m' /\ merger_ok m' /\
    same_merge m m' /\ zlen (scanners m') = zlen (scanners m) + 1 /\
    pending m' ≡ₚ stream_of m s ++ pending m.
Proof.
  intros M L Lv. pose proof (appended_ok m s M L) as Ma. pose proof (mo_len _ M) as Ln.
  unfold ndb_merger_push. cbn [appended set_scanners heap capacity scanners].
  destruct (Z.leb_spec (capacity m) (zlen (heap m))); [lia |].
  set (ss := scanners m ++ [s]). set (n := length (scanners m)).
  assert (Nn : n ∉ heap m). { intros H1. apply (heap_lookup_lt m n M) in H1. unfold n in H1. lia. }
  assert (Ls : length ss = S n) by (unfold ss, n; rewrite length_app; simpl; lia).
  assert (Rg : in_range ss (heap m ++ [n])).
  { apply Forall_app. split; [apply (mo_range _ Ma) |]. constructor; [lia | constructor]. }
  destruct (merger_up_spec ss (S (length (heap m))) (heap m ++ [n]) (length (heap m)) Rg) as (h' & E & O & P).
  { rewrite length_app. simpl. lia. }
  { apply up_ok_app. apply (mo_heap _ Ma). }
  { lia. }
  rewrite E. cbn [mbind option_bind]. eexists. split; [reflexivity |].
  assert (Es : ss !! n = Some s) by (unfold ss, n; rewrite lookup_app_r, Nat.sub_diag by lia; done).
  split; [| split; [done | split]].
  - split; cbn [set_heap heap scanners capacity].
    + by apply (in_range_perm ss _ _ P).
    + rewrite P. apply NoDup_app. split; [apply M |]. split; [| apply NoDup_singleton].
      intros i Hi ->%list_elem_of_singleton. done.
    + done.
    + apply Permutation_length in P. rewrite length_app in P. simpl in P.
      unfold zlen in *. cbn [appended set_scanners scanners set_heap capacity]. fold ss. rewrite Ls. unfold n in *. lia.
    + intros i s' Hi Ei. apply (live_same m); [done |]. rewrite P in Hi.
      apply elem_of_app in Hi as [Hi | ->%list_elem_of_singleton]; change (ss !! i = Some s') in Ei || change (ss !! n = Some s') in Ei; [| by simplify_eq].
      apply (mo_live _ M i); [done |]. unfold ss in Ei.
      by rewrite lookup_app_l in Ei by (by apply heap_lookup_lt).
  - change (zlen ss = zlen (scanners m) + 1). unfold zlen. rewrite Ls. unfold n. lia.
  - unfold pending. cbn [set_heap heap]. rewrite (flat_map_perm _ _ _ P), flat_map_app. cbn [flat_map].
    rewrite app_nil_r. unfold merger_stream at 2. change (scanners (set_heap (appended m s) h') !! n) with (ss !! n). rewrite Es.
    rewrite Permutation_app_comm. apply Permutation_app; [done |].
    change (pending (appended m s) ≡ₚ pending m). by rewrite (appended_pending m s M).
Qed.

Lemma add_spec m key c : merger_ok m -> zlen (scanners m) < capacity m ->
  zlen key <= NDB_SCAN_KEY_MAX -> mdb_cursor_open (m_db m) = Some c ->
  Forall (readable (m_key_type m) key) (db_items (m_db m)) -> descending (group_stream m key) ->
  exists m', ndb_index_merger_add m key = Some (true, m') /\ merger_ok m' /\ same_merge m m' /\
    zlen (scanners m') = zlen (scanners m) + 1 /\ pending m' ≡ₚ group_stream m key ++ pending m.
Proof.
  intros M L Lk Eo R Ds. unfold ndb_index_merger_add. rewrite Eo.
  destruct (Z.eqb_spec (zlen (scanners m)) (capacity m)); [lia |].
  destruct (Z.ltb_spec NDB_SCAN_KEY_MAX (zlen key)); [lia |]. cbn [orb].
  destruct (cursor_open_spec _ _ Eo) as [Dc _].
  pose proof (cursor_start_spec c key) as Hs. rewrite Dc in Hs.
  assert (Dead : forall s, group_stream m key = [] ->
    exists m', Some (true, appended m s) = Some (true, m') /\ merger_ok m' /\ same_merge m m' /\
      zlen (scanners m') = zlen (scanners m) + 1 /\ pending m' ≡ₚ group_stream m key ++ pending m).
  { intros s Eg. exists (appended m s). split; [done |]. split; [by apply appended_ok |]. split; [done |].
    split; [cbn [appended set_scanners scanners]; by rewrite zlen_app |].
    by rewrite appended_pending, Eg. }
  unfold group_stream in Ds, Dead |- *.
  destruct (below (m_db m) key) as [| p] eqn:Eb.
  - rewrite Hs. by apply Dead.
  - destruct Hs as (c' & it & -> & Dc' & Pc' & Ei).
    pose proof (lookup_lt_Some _ _ _ Ei) as Hp. fold (backward (m_db m) p) in Ds, Dead |- *.
    set (s0 := mk_scanner key c' 0 0).
    destruct (scanner_load_spec m s0 p) as (b & s & El & Eg & Ed & Ep & Hb);
      [cbn [s_cur s0]; congruence | done | done | done |].
    assert (S0 : stream_of m s0 = scan (m_key_type m) (m_since m) key (backward (m_db m) p)).
    { unfold stream_of. cbn [s_cur s0 group]. by rewrite Pc'. }
    assert (Ss : stream_of m s = stream_of m s0).
    { unfold stream_of. rewrite Ep, Eg. cbn [s_cur s0 group]. by rewrite Pc'. }
    rewrite El. cbn [mbind option_bind fst snd]. rewrite S0 in Hb. destruct b; [| by apply Dead].
    destruct (push_spec m s M L) as (m' & E & X).
    { split; [done |]. split; [by rewrite Eg |]. split; [by rewrite Ss, S0 |].
      exists p. eexists. split; [done |]. split; [done |]. rewrite Ss, S0, Hb. done. }
    unfold appended in E. rewrite E. cbn [mbind option_bind]. exists m'.
    rewrite Ss, S0 in X. done.
Qed.

(** Every entry left, in the order the merger gives them out. *)
Fixpoint drain (fuel : nat) (m : merger) : option (list Z) :=
  match fuel with
  | O => None
  | S fuel =>
      r ← ndb_index_merger_next m;
      match fst r with
      | None => Some []
      | Some n => l ← drain fuel (snd r); Some (n :: l)
      end
  end.

Lemma drain_spec fuel : forall m, merger_ok m -> (length (pending m) < fuel)%nat ->
  exists out, drain fuel m = Some (map snd out) /\ out ≡ₚ pending m /\ descending out.
Proof.
  induction fuel as [| fuel IH]; intros m M Hf; [lia |]. cbn [drain].
  pose proof (next_spec m M) as N. destruct (heap m) as [| top tl] eqn:Eh.
  - rewrite N. cbn [mbind option_bind fst]. exists []. split; [done |].
    split; [unfold pending; by rewrite Eh | constructor].
  - destruct N as (m' & E & M' & _ & P). rewrite E. cbn [mbind option_bind fst snd].
    destruct (IH m' M') as (out & Eo & Po & So).
    { apply Permutation_length in P. simpl in P. lia. }
    rewrite Eo. cbn [mbind option_bind]. exists (pri (scanners m) top :: out).
    split; [done |]. split; [by rewrite P, Po |]. constructor; [done |].
    rewrite Forall_forall. intros y Hy. apply (root_is_newest m top tl y M Eh).
    rewrite P. apply elem_of_cons. right. by rewrite <- Po.
Qed.

Lemma init_ok (d : D) type since cap : merger_ok (ndb_index_merger_init (C := C) d type since cap).
Proof.
  split; cbn [ndb_index_merger_init scanners heap capacity].
  - constructor.
  - constructor.
  - intros i Hi. simpl in Hi. lia.
  - change (zlen (@nil nat)) with 0. change (zlen (@nil scanner)) with 0.
    destruct (Z.leb_spec cap 0); lia.
  - by intros i s Hi%elem_of_nil.
Qed.

(** Adding the groups of a list of keys, as the query plans do. *)
Fixpoint add_groups (m : merger) (keys : list (list Z)) : option (bool * merger) :=
  match keys with
  | [] => Some (true, m)
  | k :: keys =>
      r ← ndb_index_merger_add m k;
      if (fst r : bool) then add_groups (snd r) keys else Some (false, snd r)
  end.

Lemma group_stream_same (m m' : merger) k : same_merge m m' -> group_stream m' k = group_stream m k.
Proof. intros (E1 & E2 & E3 & _). unfold group_stream. by rewrite E1, E2, E3. Qed.

Lemma same_merge_trans (m1 m2 m3 : merger) : same_merge m1 m2 -> same_merge m2 m3 -> same_merge m1 m3.
Proof. unfold same_merge. intros (-> & -> & -> & ->) (-> & -> & -> & ->). done. Qed.

Lemma add_groups_spec c keys : forall m, merger_ok m ->
  zlen (scanners m) + zlen keys <= capacity m -> mdb_cursor_open (m_db m) = Some c ->
  Forall (fun k => zlen k <= NDB_SCAN_KEY_MAX /\ descending (group_stream m k) /\
            Forall (readable (m_key_type m) k) (db_items (m_db m))) keys ->
  exists m', add_groups m keys = Some (true, m') /\ merger_ok m' /\ same_merge m m' /\
    pending m' ≡ₚ flat_map (group_stream m) keys ++ pending m.
Proof.
  induction keys as [| k keys IH]; intros m M L Eo F.
  - exists m. done.
  - apply Forall_cons_iff in F as [(Lk & Dk & Rk) F]. rewrite zlen_cons in L. pose proof (zlen_nonneg keys).
    destruct (add_spec m k c M) as (m1 & E1 & M1 & S1 & Z1 & P1); try done; [lia |].
    pose proof S1 as (D1 & T1 & N1 & C1).
    destruct (IH m1 M1) as (m2 & E2 & M2 & S2 & P2).
    + rewrite C1. lia.
    + by rewrite D1.
    + apply (Forall_impl _ _ _ F). intros k' (A1 & A2 & A3).
      rewrite (group_stream_same m m1 k' S1), T1, D1. done.
    + exists m2. cbn [add_groups]. rewrite E1. cbn [mbind option_bind fst snd]. split; [done |].
      split; [done |]. split; [by eapply same_merge_trans |].
      rewrite P2, P1. cbn [flat_map].
      rewrite (flat_map_ext_in _ (group_stream m)) by (intros; by apply group_stream_same).
      rewrite <- app_assoc, !app_assoc. apply Permutation_app; [| done]. apply Permutation_app_comm.
Qed.
End drain.

(** ** Clustered indexes

    A table whose items encode (group, (timestamp, note key)), sorted in that
    order.  Scanning one group backwards from a start key gives exactly its
    entries before the start and not below [since]. *)

Lemma upward_filter {A} (keep : A -> bool) (f : A -> Z * Z) (walk : list A -> list (Z * Z)) :
  walk [] = [] ->
  (forall x l, walk (x :: l) = if keep x then f x :: walk l else []) ->
  forall l, (forall i j x y, (i < j)%nat -> l !! i = Some x -> l !! j = Some y ->
               keep y = true -> keep x = true) ->
  walk l = map f (List.filter keep l).
Proof.
  intros W0 W1. induction l as [| x l IH]; intros H; [done |]. rewrite W1. cbn [List.filter].
  destruct (keep x) eqn:E.
  - cbn [map]. f_equal. apply IH. intros i j y z Hij Hy Hz. apply (H (S i) (S j)); [lia | done | done].
  - destruct (List.filter keep l) as [| y l'] eqn:F; [done |].
    assert (Hy : In y (y :: l')) by (by left). rewrite <- F in Hy. apply filter_In in Hy as [Hy Ky].
    apply list_elem_of_In, list_elem_of_lookup in Hy as [j Hj].
    by rewrite (H 0%nat (S j) x y ltac:(lia) eq_refl Hj Ky) in E.
Qed.

Lemma rev_filter {A} (keep : A -> bool) l : List.filter keep (rev l) = rev (List.filter keep l).
Proof.
  induction l as [| x l IH]; [done |]. cbn [rev List.filter]. rewrite List.filter_app, IH. cbn [List.filter].
  destruct (keep x); [done | by rewrite app_nil_r].
Qed.

Lemma filter_none {A} (f : A -> bool) l : (forall x, x ∈ l -> f x = false) -> List.filter f l = [].
Proof.
  induction l as [| x l IH]; intros H; [done |]. cbn [List.filter].
  rewrite (H x) by (apply elem_of_cons; by left). apply IH. intros y Hy. apply H, elem_of_cons. by right.
Qed.

Lemma descending_rev l : StronglySorted ple l -> descending (rev l).
Proof.
  unfold descending. induction 1 as [| x l _ IH F]; [constructor |]. cbn [rev].
  apply StronglySorted_app. split; [| split]; [| done | repeat constructor].
  intros y z Hy ->%list_elem_of_singleton. rewrite Forall_forall in F. apply F.
  apply list_elem_of_In, in_rev. by apply list_elem_of_In.
Qed.

Section clustered.
Context {D C : Type} `{!Lmdb D C}.
Context {G : Type} `{!EqDecision G} (gc : G -> G -> comparison) `{!TotalCmp gc}.
Context (type : ndb_scan_key_type) (enc : G * (Z * Z) -> item).

(** Group first, then timestamp and note key. *)
Definition entry_le (x y : G * (Z * Z)) : Prop :=
  gc (fst x) (fst y) = Lt \/ (fst x = fst y /\ ple (snd x) (snd y)).

Record clustered (d : D) (l : list (G * (Z * Z))) (key : list Z) (g0 : G) (cut : Z * Z -> bool) : Prop := {
  cl_items : db_items d = map enc l;
  cl_sorted : StronglySorted entry_le l;
  cl_group : forall x, x ∈ l -> ndb_scanner_in_group key type (fst (enc x)) = Some (bool_decide (fst x = g0));
  cl_read : forall x, x ∈ l -> ndb_scanner_read type (enc x) = Some (snd x);
  cl_below : forall i x, l !! i = Some x -> (i < below d key)%nat <->
    (gc (fst x) g0 = Lt \/ (fst x = g0 /\ cut (snd x) = true))
}.

(** The entries of a group in a range, in table order. *)
Definition group_entries (l : list (G * (Z * Z))) (g0 : G) (cut : Z * Z -> bool) (since : Z) : list (Z * Z) :=
  map snd (List.filter (fun x => bool_decide (fst x = g0) && cut (snd x) && (since <=? fst (snd x))) l).

Context (d : D) (l : list (G * (Z * Z))) (key : list Z) (g0 : G) (cut : Z * Z -> bool) (since : Z).
Hypothesis (X : clustered d l key g0 cut).

Definition keep (x : G * (Z * Z)) : bool := bool_decide (fst x = g0) && (since <=? fst (snd x)).

Lemma scan_walk l' : (forall x, x ∈ l' -> x ∈ l) ->
  scan type since key (map enc l') =
    (fix walk l' := match l' with [] => [] | x :: l' => if keep x then snd x :: walk l' else [] end) l'.
Proof using X.
  induction l' as [| x l' IH]; intros H; [done |]. cbn [map scan].
  rewrite (cl_group _ _ _ _ _ X) by (apply H, elem_of_cons; by left).
  rewrite (cl_read _ _ _ _ _ X) by (apply H, elem_of_cons; by left).
  rewrite IH by (intros y Hy; apply H, elem_of_cons; by right).
  unfold keep. by destruct (bool_decide _).
Qed.

Lemma entry_lookup i j x y : (i < j)%nat -> l !! i = Some x -> l !! j = Some y -> entry_le x y.
Proof using X.
  pose proof (cl_sorted _ _ _ _ _ X) as S. clear X. revert i j.
  induction S as [| e l S IH F]; intros i j Hij Hx Hy; [done |].
  destruct j as [| j]; [lia |]. destruct i as [| i]; simpl in Hx, Hy.
  - injection Hx as ->. by apply (Forall_lookup_1 _ _ _ _ F Hy).
  - apply (IH i j); [lia | done ..].
Qed.

Lemma rev_take_lookup n i x : rev (take n l) !! i = Some x ->
  exists k, (k < n)%nat /\ (k = Nat.min n (length l) - 1 - i)%nat /\ (i < Nat.min n (length l))%nat /\ l !! k = Some x.
Proof using.
  intros H. rewrite rev_alt in H. apply (reverse_lookup_Some (take n l)) in H as [H1 H2].
  rewrite length_take in *. rewrite lookup_take_lt in H1 by lia.
  eexists. split; [| split; [| split; [| exact H1]]]; lia.
Qed.

Lemma scan_clustered :
  scan type since key (rev (take (below d key) (db_items d))) = rev (group_entries l g0 cut since).
Proof using X TotalCmp0.
  rewrite (cl_items _ _ _ _ _ X), firstn_map, <- map_rev.
  set (n := below d key).
  rewrite scan_walk.
  2: { intros x Hx. apply list_elem_of_In, in_rev, list_elem_of_In in Hx. by apply elem_of_take in Hx as (i & Hi & _);
       apply list_elem_of_lookup; exists i. }
  rewrite (upward_filter keep snd _ eq_refl (fun _ _ => eq_refl)).
  - rewrite rev_filter, map_rev. f_equal. unfold group_entries. f_equal.
    rewrite <- (take_drop n l) at 2. rewrite List.filter_app.
    assert (E : forall x k, l !! k = Some x -> keep x = true -> (k < n)%nat <-> cut (snd x) = true).
    { intros x k Hk Kx. unfold n. rewrite (cl_below _ _ _ _ _ X k x Hk). unfold keep in Kx.
      apply andb_true_iff in Kx as [Kx _]. apply bool_decide_eq_true in Kx.
      split; [| by right]. intros [Hlt | [_ ?]]; [| done]. rewrite Kx, (cmp_refl gc) in Hlt. done. }
    rewrite <- (app_nil_r (List.filter keep (take n l))). f_equal.
    + apply filter_ext_in. intros x Hx. apply list_elem_of_In, elem_of_take in Hx as (k & Hk & Hkn).
      specialize (E x k Hk). unfold keep in *. destruct (bool_decide _); [| done]. cbn [andb] in *.
      destruct (since <=? _); [| by rewrite andb_false_r].
      rewrite (proj1 (E eq_refl) Hkn). done.
    + symmetry. apply filter_none. intros x Hx. apply not_true_is_false. intros Kx.
      apply list_elem_of_lookup in Hx as [k Hk]. rewrite lookup_drop in Hk.
      apply andb_true_iff in Kx as [Kx1 Kx3]. apply andb_true_iff in Kx1 as [Kx1 Kx2].
      assert (n + k < n)%nat; [| lia]. apply (E x _ Hk); [| done]. unfold keep. by rewrite Kx1, Kx3.
  - intros i j x y Hij Hx Hy Ky. apply rev_take_lookup in Hx as (a & La & Ea & Ha & Hx).
    apply rev_take_lookup in Hy as (b & Lb & Eb & Hb & Hy).
    pose proof (entry_lookup b a y x ltac:(lia) Hy Hx) as Le.
    pose proof (proj1 (cl_below _ _ _ _ _ X a x Hx) La) as Bx.
    unfold keep in *. apply andb_true_iff in Ky as [Ky Ks]. apply bool_decide_eq_true in Ky.
    assert (Ex : fst x = g0).
    { destruct Bx as [Bx | [Bx _]]; [exfalso | done]. destruct Le as [Le | [Le _]].
      - rewrite Ky in Le. rewrite (cmp_antisym (cmp := gc) (fst x) g0), Bx in Le. done.
      - rewrite <- Le, Ky, (cmp_refl gc) in Bx. done. }
    rewrite bool_decide_eq_true_2 by done. cbn [andb]. destruct Le as [Le | [_ Le]].
    + rewrite Ky, Ex, (cmp_refl gc) in Le. done.
    + unfold ple in Le. destruct (Z.leb_spec since (fst (snd x))); lia.
Qed.
End clustered.

(** ** The three indexes

    What an index promises the scanner: how an entry is encoded, where the scan
    of a group starts, and that the C tests on the encoded bytes decide the
    group and read the entry. *)
Class ScanIndex (type : ndb_scan_key_type) (K G : Type) `{!LmdbKey K} `{!EqDecision G}
    (gc : G -> G -> comparison) := {
  si_key : G * (Z * Z) -> K;
  si_val : G * (Z * Z) -> list Z;
  si_wf : G * (Z * Z) -> Prop;
  si_start : G -> Z -> K;
  si_group_wf : G -> Prop;
  si_cut : Z -> Z * Z -> bool;
  si_total : TotalCmp gc;
  si_key_wf : forall x, si_wf x -> key_wf (si_key x);
  si_start_wf : forall g until, si_group_wf g -> is_u64 until -> key_wf (si_start g until);
  si_ord : forall x y, si_wf x -> si_wf y -> entry_le gc x y -> key_ord (si_key x) (si_key y) <> Gt;
  si_below : forall x g until, si_wf x -> si_group_wf g -> is_u64 until ->
    key_ord (si_key x) (si_start g until) = Lt <->
    gc (fst x) g = Lt \/ (fst x = g /\ si_cut until (snd x) = true);
  si_in_group : forall x g until, si_wf x -> si_group_wf g -> is_u64 until ->
    ndb_scanner_in_group (key_bytes (si_start g until)) type (key_bytes (si_key x)) =
      Some (bool_decide (fst x = g));
  si_read : forall x, si_wf x -> ndb_scanner_read type (key_bytes (si_key x), si_val x) = Some (snd x);
  si_size : forall g until, si_group_wf g -> zlen (key_bytes (si_start g until)) <= NDB_SCAN_KEY_MAX
}.

(** A table that holds the entries [l]. *)
Record scan_table {D C} `{!Lmdb D C} {type K G} `{!LmdbKey K} `{!EqDecision G} {gc : G -> G -> comparison}
    `{!ScanIndex type K G gc} (d : D) (l : list (G * (Z * Z))) : Prop := {
  st_cmp : db_cmp d = key_compare (K := K);
  st_items : db_items d = map (fun x => (key_bytes (si_key x), si_val x)) l;
  st_wf : Forall si_wf l;
  st_sorted : StronglySorted (entry_le gc) l
}.

Section tables.
Context {D C : Type} `{!Lmdb D C} {type : ndb_scan_key_type} {K G : Type} `{!LmdbKey K} `{!EqDecision G}
  {gc : G -> G -> comparison} `{!ScanIndex type K G gc}.

Definition si_enc (x : G * (Z * Z)) : item := (key_bytes (si_key x), si_val x).

Lemma sorted_map_impl {A B} (f : A -> B) (R : A -> A -> Prop) (Q : B -> B -> Prop) (P : A -> Prop) l :
  StronglySorted R l -> Forall P l -> (forall x y, P x -> P y -> R x y -> Q (f x) (f y)) ->
  StronglySorted Q (map f l).
Proof.
  intros S F H. induction S as [| x l S IH Hx]; [constructor |].
  apply Forall_cons_iff in F as [Px F]. cbn [map]. constructor; [by apply IH |].
  rewrite Forall_forall in Hx, F. rewrite Forall_forall. intros y Hy.
  apply list_elem_of_In, in_map_iff in Hy as (z & <- & Hz). apply list_elem_of_In in Hz. auto.
Qed.

Lemma scan_table_index (d : D) l : scan_table d l ->
  index_of d (map (fun x => (si_key x, si_val x)) l).
Proof.
  intros [T1 T2 T3 T4]. split; [done | | |].
  - rewrite T2, map_map. done.
  - rewrite Forall_forall in T3. rewrite Forall_forall. intros y Hy.
    apply list_elem_of_In, in_map_iff in Hy as (z & <- & Hz). apply list_elem_of_In in Hz.
    cbn [fst]. by apply si_key_wf, T3.
  - apply (sorted_map_impl _ (entry_le gc) _ si_wf); [done | done |].
    intros x y Wx Wy E. cbn [fst]. by apply si_ord.
Qed.

Lemma scan_table_clustered (d : D) l g until : scan_table d l -> si_group_wf g -> is_u64 until ->
  clustered gc type si_enc d l (key_bytes (si_start g until)) g (si_cut until).
Proof.
  intros T Wg Wu. pose proof (st_wf _ _ T) as F. rewrite Forall_forall in F. split.
  - apply (st_items _ _ T).
  - apply (st_sorted _ _ T).
  - intros x Hx. by apply si_in_group; auto.
  - intros x Hx. by apply si_read; auto.
  - intros i x Hx.
    assert (Hin : x ∈ l) by (apply list_elem_of_lookup; eauto).
    rewrite <- (si_below x g until) by auto.
    rewrite (below_spec d _ (scan_table_index d l T) (si_start g until) i (si_key x, si_val x));
      [done | by apply si_start_wf | by rewrite list_lookup_fmap, Hx].
Qed.

Lemma table_readable (d : D) l g until : scan_table d l -> si_group_wf g -> is_u64 until ->
  Forall (readable type (key_bytes (si_start g until))) (db_items d).
Proof.
  intros T Wg Wu. rewrite (st_items _ _ T). pose proof (st_wf _ _ T) as F. rewrite Forall_forall in F.
  rewrite Forall_forall. intros y Hy. apply list_elem_of_In, in_map_iff in Hy as (x & <- & Hx).
  apply list_elem_of_In in Hx. unfold readable. cbn [fst].
  rewrite si_in_group by auto. eexists. split; [done |]. intros _. rewrite si_read by auto. eauto.
Qed.

(** The entries of a group before [until] and not below [since], in table order. *)
Definition table_entries (l : list (G * (Z * Z))) (since until : Z) (g : G) : list (Z * Z) :=
  group_entries l g (si_cut until) since.

Lemma group_entries_sorted l g cut since :
  StronglySorted (entry_le gc) l -> StronglySorted ple (group_entries l g cut since).
Proof.
  pose proof si_total as Tt.
  unfold group_entries. induction 1 as [| x l S IH F]; [constructor |]. cbn [List.filter].
  destruct (bool_decide (fst x = g) && _ && _) eqn:E; [| done]. cbn [map]. constructor; [done |].
  apply andb_true_iff in E as [E _]. apply andb_true_iff in E as [E _]. apply bool_decide_eq_true in E.
  rewrite Forall_forall in F. rewrite Forall_forall. intros e He.
  apply list_elem_of_In, in_map_iff in He as (y & <- & Hy). apply filter_In in Hy as [Hy Ky].
  apply list_elem_of_In in Hy. apply andb_true_iff in Ky as [Ky _]. apply andb_true_iff in Ky as [Ky _].
  apply bool_decide_eq_true in Ky. destruct (F y Hy) as [L | [_ L]]; [| done].
  rewrite E, Ky, (cmp_refl gc) in L. done.
Qed.

Lemma table_stream (m : ndb_index_merger D C) l g until :
  scan_table (m_db m) l -> m_key_type m = type -> si_group_wf g -> is_u64 until ->
  group_stream m (key_bytes (si_start g until)) = rev (table_entries l (m_since m) until g) /\
  descending (group_stream m (key_bytes (si_start g until))).
Proof.
  intros T Et Wg Wu. pose proof si_total as Tt.
  assert (E : group_stream m (key_bytes (si_start g until)) = rev (table_entries l (m_since m) until g)).
  { unfold group_stream. rewrite Et.
    exact (scan_clustered gc type si_enc (m_db m) l _ g (si_cut until) (m_since m)
             (scan_table_clustered (m_db m) l g until T Wg Wu)). }
  split; [done |]. rewrite E. apply descending_rev. apply group_entries_sorted, (st_sorted _ _ T).
Qed.

(** Opening a scanner per group of a table. *)
Lemma groups_added (d : D) (c : C) (l : list (G * (Z * Z))) (groups : list G) (since until cap : Z) :
  scan_table d l -> mdb_cursor_open d = Some c -> Forall si_group_wf groups -> is_u64 until ->
  zlen groups <= cap ->
  exists m, add_groups (ndb_index_merger_init d type since cap)
              (map (fun g => key_bytes (si_start g until)) groups) = Some (true, m) /\
    merger_ok m /\ m_db m = d /\ pending m ≡ₚ flat_map (table_entries l since until) groups.
Proof.
  intros T Ho Wg Wu Hc. set (m0 := ndb_index_merger_init d type since cap).
  destruct (add_groups_spec c (map (fun g => key_bytes (si_start g until)) groups) m0 (init_ok d type since _))
    as (m & E & M & S & P).
  { unfold m0, ndb_index_merger_init. cbn [scanners capacity]. change (zlen (@nil (ndb_index_scanner C))) with 0.
    unfold zlen in *. rewrite length_map. destruct (Z.leb_spec cap 0); lia. }
  { done. }
  { rewrite Forall_forall in Wg. rewrite Forall_forall. intros k Hk.
    apply list_elem_of_In, in_map_iff in Hk as (g & <- & Hg). apply list_elem_of_In in Hg.
    split; [by apply si_size, Wg |]. destruct (table_stream m0 l g until) as [_ Ds]; auto.
    split; [done |]. apply (table_readable d l); auto. }
  exists m. split; [done |]. split; [done |]. split; [apply S |].
  rewrite P. unfold pending at 1. cbn [m0 ndb_index_merger_init heap flat_map]. rewrite app_nil_r.
  clear - T Wg Wu. induction groups as [| g gs IH]; [done |]. apply Forall_cons_iff in Wg as [W1 W2].
  cbn [map flat_map]. destruct (table_stream m0 l g until T eq_refl W1 Wu) as [-> _].
  apply Permutation_app; [symmetry; apply Permutation_rev | by apply IH].
Qed.

(** C7: The k-way merge of index scans is a sort.  For a table of one of the
    three indexes and any list of groups, opening a scanner per group and
    draining the merger ends and yields exactly the note keys of the entries of
    those groups that are in range, in descending order of timestamp and note
    key.  In range is not below [since] and, in the indexes by number and by id,
    strictly before [until]; the index by relay and kind counts the entries at
    [until] in. *)
Theorem merge_is_sorted_union (d : D) (c : C) (l : list (G * (Z * Z))) (groups : list G)
    (since until : Z) (T : scan_table d l) (Ho : mdb_cursor_open d = Some c)
    (Wg : Forall si_group_wf groups) (Wu : is_u64 until) :
  exists m, add_groups (ndb_index_merger_init d type since (zlen groups))
              (map (fun g => key_bytes (si_start g until)) groups) = Some (true, m) /\
    exists out fuel, drain fuel m = Some (map snd out) /\ descending out /\
      out ≡ₚ flat_map (table_entries l since until) groups.
Proof.
  destruct (groups_added d c l groups since until (zlen groups) T Ho Wg Wu ltac:(lia)) as (m & E & M & _ & P).
  exists m. split; [done |]. destruct (drain_spec (S (length (pending m))) m M) as (out & Ed & Po & So); [lia |].
  exists out, (S (length (pending m))). split; [done |]. split; [done |]. by rewrite Po, P.
Qed.
End tables.

(** *** The kind index *)

Lemma lex_Lt c1 c2 : lex c1 c2 = Lt <-> c1 = Lt \/ (c1 = Eq /\ c2 = Lt).
Proof. destruct c1, c2; simpl; intuition congruence. Qed.

Lemma lex_not_Gt c1 c2 : (c1 = Lt \/ (c1 = Eq /\ c2 <> Gt)) -> lex c1 c2 <> Gt.
Proof. intros [-> | [-> H]]; done. Qed.

#[export] Instance kind_scan : ScanIndex NDB_SCAN_KEY_U64_TS u64_ts Z Z.compare.
Proof.
  refine {| si_key x := mk_u64_ts (fst x) (fst (snd x));
            si_val x := le_bytes 8 (snd (snd x));
            si_wf x := is_u64 (fst x) /\ is_u64 (fst (snd x)) /\ is_u64 (snd (snd x));
            si_start g until := mk_u64_ts g until;
            si_group_wf := is_u64;
            si_cut until e := fst e <? until |}.
  - by intros [g [t n]] (? & ? & ?).
  - done.
  - intros [g [t n]] [g' [t' n']] _ _ E. cbn [key_ord u64_ts_key]. unfold pair_cmp, u64_ts_tuple. simpl.
    apply lex_not_Gt. unfold entry_le, ple in E. simpl in E. destruct E as [E | [-> E]]; [by left |].
    right. rewrite Z.compare_refl. split; [done |]. rewrite Z.compare_gt_iff. lia.
  - intros [g [t n]] g' until _ _ _. cbn [key_ord u64_ts_key]. unfold pair_cmp, u64_ts_tuple. simpl.
    by rewrite lex_Lt, Z.compare_eq_iff, !Z.compare_lt_iff, Z.ltb_lt.
  - intros [g [t n]] g' until (W1 & W2 & W3) Wg Wu. cbn [key_bytes u64_ts_key ut_u64 ut_timestamp fst snd] in *.
    unfold ndb_scanner_in_group, ndb_u64_ts_init.
    change (zlen (le_bytes 8 g ++ le_bytes 8 t) =? 16) with true. cbn [negb].
    set (a := le_bytes 8 g ++ _). set (b := le_bytes 8 g' ++ _).
    field a 0 (@nil Z) g (le_bytes 8 t). field b 0 (@nil Z) g' (le_bytes 8 until).
    cbn [mbind option_bind]. f_equal. destruct (Z.eqb_spec g g'); symmetry;
      [by apply bool_decide_eq_true_2 | by apply bool_decide_eq_false_2].
  - intros [g [t n]] (W1 & W2 & W3). cbn [key_bytes u64_ts_key ut_u64 ut_timestamp fst snd] in *.
    unfold ndb_scanner_read, ndb_u64_ts_init. cbn [fst snd].
    set (a := le_bytes 8 g ++ _). field a 8 (le_bytes 8 g) t (@nil Z). cbn [mbind option_bind].
    set (v := le_bytes 8 n). field v 0 (@nil Z) n (@nil Z). done.
  - done.
Defined.

(** *** The author and kind index *)

#[export] Instance author_kind_scan :
  ScanIndex NDB_SCAN_KEY_ID_U64_TS id_u64_ts (list Z * Z) (pair_cmp bytes_cmp Z.compare).
Proof.
  refine {| si_key x := mk_id_u64_ts (fst (fst x)) (snd (fst x)) (fst (snd x));
            si_val x := le_bytes 8 (snd (snd x));
            si_wf x := id_wf (fst (fst x)) /\ is_u64 (snd (fst x)) /\ is_u64 (fst (snd x)) /\ is_u64 (snd (snd x));
            si_start g until := mk_id_u64_ts (fst g) (snd g) until;
            si_group_wf g := id_wf (fst g) /\ is_u64 (snd g);
            si_cut until e := fst e <? until |}.
  - by intros [[i g] [t n]] (? & ? & ? & ?).
  - by intros [i g] until [? ?] ?.
  - intros [[i g] [t n]] [[i' g'] [t' n']] _ _ E. cbn [key_ord id_u64_ts_key].
    unfold entry_le, pair_cmp, id_u64_ts_tuple, ple in *. simpl in *.
    apply lex_not_Gt. rewrite lex_Lt in E. destruct E as [[E | [E1 E2]] | [[= -> ->] E]].
    + by left.
    + right. split; [done |]. by rewrite E2.
    + right. rewrite (cmp_refl bytes_cmp), Z.compare_refl. split; [done |]. simpl.
      rewrite Z.compare_gt_iff. lia.
  - intros [[i g] [t n]] [i' g'] until _ _ _. cbn [key_ord id_u64_ts_key].
    unfold pair_cmp, id_u64_ts_tuple. simpl. rewrite !lex_Lt, Z.ltb_lt, Z.compare_lt_iff.
    rewrite (cmp_eq (cmp := bytes_cmp)), Z.compare_eq_iff.
    assert (E : (i, g) = (i', g') <-> i = i' /\ g = g') by (split; [by intros [= -> ->] | by intros [-> ->]]).
    tauto.
  - intros [[i g] [t n]] [i' g'] until (W0 & W1 & W2 & W3) [Wi Wg] Wu.
    unfold id_wf in *.
    cbn [key_bytes id_u64_ts_key iu_id iu_u64 iu_timestamp fst snd] in *.
    unfold ndb_scanner_in_group, ndb_id_u64_ts_init.
    assert (L : zlen (i ++ le_bytes 8 g ++ le_bytes 8 t) = 48).
    { rewrite !zlen_app, W0. reflexivity. }
    rewrite L. change (48 =? 48) with true. cbn [negb].
    set (a := i ++ _). set (b := i' ++ _).
    field a 32 i g (le_bytes 8 t). field b 32 i' g' (le_bytes 8 until). cbn [mbind option_bind].
    destruct (Z.eqb_spec g g') as [-> | N].
    + field a 0 (@nil Z) i (le_bytes 8 g' ++ le_bytes 8 t). field b 0 (@nil Z) i' (le_bytes 8 g' ++ le_bytes 8 until).
      cbn [mbind option_bind]. f_equal.
      destruct (Z.eqb_spec (memcmp i i') 0) as [M | M]; symmetry.
      * apply bool_decide_eq_true_2. f_equal. apply memcmp_zero; [unfold zlen in *; lia | done].
      * apply bool_decide_eq_false_2. intros [= ->]. by rewrite memcmp_refl in M.
    + f_equal. symmetry. apply bool_decide_eq_false_2. congruence.
  - intros [[i g] [t n]] (W0 & W1 & W2 & W3). unfold id_wf in *.
    cbn [key_bytes id_u64_ts_key iu_id iu_u64 iu_timestamp fst snd] in *.
    unfold ndb_scanner_read, ndb_id_u64_ts_init. cbn [fst snd].
    set (a := i ++ _). field a 40 (i ++ le_bytes 8 g) t (@nil Z). cbn [mbind option_bind].
    set (v := le_bytes 8 n). field v 0 (@nil Z) n (@nil Z). done.
  - intros [i g] until [Wi Wg]. unfold id_wf in *. cbn [fst] in Wi.
    cbn [key_bytes id_u64_ts_key iu_id iu_u64 iu_timestamp fst snd]. unfold ndb_id_u64_ts_init.
    rewrite !zlen_app, Wi. done.
Defined.

(** *** The relay and kind index: the note key is part of the key. *)

Lemma parse_relay_key_bytes k : relay_key_wf k -> ~ In 0 (rk_relay k) ->
  ndb_parse_relay_kind_key (relay_key_bytes k) = Some k.
Proof.
  destruct k as [n k t len r1]. intros (N & K & T & L) Hz. cbn [rk_note_key rk_kind rk_created_at rk_relay_len rk_relay] in *.
  subst len. unfold relay_key_bytes. generalize (align_pad (zlen (relay_key_body (mk_relay_key n k t (zlen r1) r1)))) as p.
  intros p. unfold relay_key_body, ndb_parse_relay_kind_key.
  cbn [rk_note_key rk_kind rk_created_at rk_relay_len rk_relay] in *.
  set (b := (le_bytes 8 n ++ _) ++ p).
  field b 0 (@nil Z) n (le_bytes 8 k ++ le_bytes 8 t ++ [zlen r1] ++ r1 ++ [0] ++ p).
  field b 8 (le_bytes 8 n) k (le_bytes 8 t ++ [zlen r1] ++ r1 ++ [0] ++ p).
  field b 16 (le_bytes 8 n ++ le_bytes 8 k) t ([zlen r1] ++ r1 ++ [0] ++ p).
  change (load8 b 24) with (Some (zlen r1)). cbn [mbind option_bind]. do 2 f_equal.
  change (drop 25 b) with ((r1 ++ [0]) ++ p). rewrite <- app_assoc. by apply c_string_app.
Qed.

#[export] Instance relay_kind_scan :
  ScanIndex NDB_SCAN_KEY_RELAY_KIND ndb_relay_kind_key (list Z * Z) (pair_cmp bytes_cmp Z.compare).
Proof.
  refine {| si_key x := mk_relay_key (snd (snd x)) (snd (fst x)) (fst (snd x)) (zlen (fst (fst x))) (fst (fst x));
            si_val x := [];
            si_wf x := (~ In 0 (fst (fst x)) /\ zlen (fst (fst x)) <= 248) /\ is_u64 (snd (fst x)) /\
                       is_u64 (fst (snd x)) /\ is_u64 (snd (snd x));
            si_start g until := mk_relay_key UINT64_MAX (snd g) until (zlen (fst g)) (fst g);
            si_group_wf g := (~ In 0 (fst g) /\ zlen (fst g) <= 248) /\ is_u64 (snd g);
            si_cut until e := (fst e <? until) || ((fst e =? until) && (snd e <? UINT64_MAX)) |}.
  - by intros [[r g] [t n]] (? & ? & ? & ?).
  - intros [r g] until [? ?] ?. unfold relay_kind_key, key_wf, relay_key_wf. simpl. done.
  - intros [[r g] [t n]] [[r' g'] [t' n']] _ _ E. cbn [key_ord relay_kind_key].
    unfold entry_le, pair_cmp, relay_key_tuple, ple in *. simpl in *.
    apply lex_not_Gt. rewrite lex_Lt in E. destruct E as [[E | [E1 E2]] | [[= -> ->] E]].
    + by left.
    + right. split; [done |]. by rewrite E2.
    + right. rewrite (cmp_refl bytes_cmp), !Z.compare_refl. split; [done |]. simpl.
      apply lex_not_Gt. rewrite Z.compare_lt_iff, Z.compare_eq_iff.
      destruct E as [E | [E1 E2]]; [by left | right]. split; [done |].
      apply lex_not_Gt. rewrite Z.compare_lt_iff, Z.compare_eq_iff.
      destruct (Z.eq_dec n n'); [by right | left; lia].
  - intros [[r g] [t n]] [r' g'] until ((W0 & W0') & W1 & W2 & W3) [[Wr Wr'] Wg] Wu. cbn [key_ord relay_kind_key].
    unfold pair_cmp, relay_key_tuple. simpl in *.
    rewrite orb_true_iff, andb_true_iff, !Z.ltb_lt, Z.eqb_eq.
    destruct (bytes_cmp r r') eqn:E; simpl.
    + apply (cmp_eq (cmp := bytes_cmp)) in E as ->. rewrite !lex_Lt, !Z.compare_lt_iff, !Z.compare_eq_iff.
      assert (F : ~ zlen r' < zlen r') by lia.
      assert (Eg : (r', g) = (r', g') <-> g = g') by (split; [by intros [= ->] | by intros ->]).
      rewrite Eg. tauto.
    + tauto.
    + split; [done |]. intros [? | [[= -> ->] _]]; [done |]. by rewrite (cmp_refl bytes_cmp) in E.
  - intros [[r g] [t n]] [r' g'] until ((W0 & W0') & W1 & W2 & W3) [[Wr Wr'] Wg] Wu.
    cbn [key_bytes relay_kind_key fst snd] in *. unfold ndb_scanner_in_group.
    rewrite !parse_relay_key_bytes; [| by split | done | by split | done]. cbn [mbind option_bind].
    cbn [rk_kind rk_relay]. f_equal. unfold strcmp.
    destruct (Z.eqb_spec g g') as [-> | N]; cbn [andb]; symmetry.
    + destruct (bytes_cmp r r') eqn:E; simpl.
      * apply (cmp_eq (cmp := bytes_cmp)) in E as ->. by apply bool_decide_eq_true_2.
      * apply bool_decide_eq_false_2. intros [= ->]. by rewrite (cmp_refl bytes_cmp) in E.
      * apply bool_decide_eq_false_2. intros [= ->]. by rewrite (cmp_refl bytes_cmp) in E.
    + apply bool_decide_eq_false_2. congruence.
  - intros [[r g] [t n]] ((W0 & W0') & W1 & W2 & W3). cbn [key_bytes relay_kind_key fst snd] in *.
    unfold ndb_scanner_read. cbn [fst].
    by rewrite parse_relay_key_bytes by (by split || done).
  - intros [r g] until [[Wr Wr'] Wg]. cbn [key_bytes relay_kind_key fst snd] in *.
    unfold relay_key_bytes, relay_key_body. cbn [rk_note_key rk_kind rk_created_at rk_relay_len rk_relay].
    rewrite zlen_app, zlen_align_pad. set (b := le_bytes 8 UINT64_MAX ++ _).
    assert (Lb : zlen b <= 274).
    { unfold b. rewrite !zlen_app, !zlen_le_bytes. change (zlen [zlen r]) with 1. change (zlen [0]) with 1. lia. }
    pose proof (padding_range 3 (zlen b) ltac:(lia)) as R. change (2 ^ 3) with 8 in R.
    unfold NDB_SCAN_KEY_MAX. lia.
Defined.

(** Notes 5 and 2 of kind 1, notes 3 and 4 of kind 7. *)
Definition demo_kinds : list (Z * (Z * Z)) := [(1, (100, 5)); (1, (200, 2)); (7, (150, 3)); (7, (150, 4))].
Definition demo_kind_db : list_db :=
  mk_list_db ndb_u64_ts_compare None (map (fun x => (key_bytes (si_key x), si_val x)) demo_kinds).

Lemma demo_kind_table : scan_table (C := list_db * option nat) demo_kind_db demo_kinds.
Proof.
  split; [done | done | |].
  - repeat constructor; simpl; unfold is_u64; lia.
  - repeat constructor; unfold entry_le, ple; simpl; lia || (left; reflexivity) || (right; lia).
Qed.

(** Kinds 1 and 7 since 100 and until 200: notes 4, 3 and 5. *)
Lemma merge_is_sorted_union_witness :
  exists m, add_groups (ndb_index_merger_init (C := list_db * option nat) demo_kind_db NDB_SCAN_KEY_U64_TS 100 (zlen [1; 7]))
              (map (fun g => ndb_u64_ts_init g 200) [1; 7]) = Some (true, m) /\
    exists out fuel, drain fuel m = Some (map snd out) /\ descending out /\
      out ≡ₚ [(100, 5); (150, 3); (150, 4)].
Proof.
  exact (merge_is_sorted_union demo_kind_db (demo_kind_db, None) demo_kinds [1; 7] 100 200 demo_kind_table
    eq_refl ltac:(repeat constructor; unfold is_u64; simpl; lia) ltac:(unfold is_u64; lia)).
Defined.
