(* ===== verification/Note.v ===== *)
(** * Notes in memory (src/src/nostrdb.c, src/src/nostrdb.h, src/src/hex.h)

    The packed layout of [struct ndb_note], its strings and its tags, and the
    accessors that read them: a note is an address into a byte memory, and an
    accessor that would leave the memory is undefined ([None]).  [reads] is the
    abstract content of a note; the lemmas show that the accessors compute it
    from any memory that lays it out. *)

From S2P Require Export Cursor.

(** ** Hexadecimal (hex.h) *)

Definition hex_table (c : Z) : Z :=
  if in_range 48 57 c then c - 48
  else if in_range 97 102 c then c - 97 + 10
  else if in_range 65 70 c then c - 65 + 10
  else 0.

Definition char_to_hex (c : Z) : option Z :=
  if negb (hex_table c =? 0) || (c =? 48) then Some (hex_table c) else None.

(** [None] is the failure result; the bytes written so far are the caller's
    scratch. *)
Fixpoint hex_decode (str : list Z) (bufsize : nat) : option (list Z) :=
  match str with
  | c1 :: c2 :: str' =>
      match char_to_hex c1, char_to_hex c2 with
      | Some v1, Some v2 =>
          match bufsize with
          | O => None
          | S bufsize =>
              p ← hex_decode str' bufsize; Some (Z.lor (u8 (Z.shiftl v1 4)) v2 :: p)
          end
      | _, _ => None
      end
  | [] => if decide (bufsize = 0%nat) then Some [] else None
  | [_] => None
  end.

(** [None] stands for the call to [abort]. *)
Definition hexchar (val : Z) : option Z :=
  if val <? 10 then Some (48 + val)
  else if val <? 16 then Some (97 + val - 10)
  else None.

(** The digits, without the terminating NUL. *)
Fixpoint hex_encode (buf : list Z) : option (list Z) :=
  match buf with
  | [] => Some []
  | c :: buf =>
      h ← hexchar (Z.shiftr c 4); l ← hexchar (Z.land c 15);
      rest ← hex_encode buf; Some (h :: l :: rest)
  end.

(** ** Layout *)

Definition NDB_PACKED_STR : Z := 1.
Definition NDB_PACKED_ID : Z := 2.
Definition NDB_NOTE_FLAG_DELETED : Z := 1.
Definition NDB_NOTE_FLAG_RUMOR : Z := 2.
Definition NDB_NOTE_FLAG_UNWRAPPED : Z := 4.

(** Offsets of the fields of the packed [struct ndb_note]. *)
Module off.
Definition version : Z := 0.
Definition flags : Z := 2.
Definition id : Z := 4.
Definition pubkey : Z := 36.
Definition sig : Z := 68.
Definition created_at : Z := 132.
Definition kind : Z := 140.
Definition content_length : Z := 144.
Definition content : Z := 148.
Definition strings : Z := 152.
Definition tags : Z := 156.
Definition tags_count : Z := 158.
Definition sizeof : Z := 160.
End off.

Definition load_u16 (m : mem) (a : Z) : option Z := le_int <$> loadn m a 2.
Definition load_u32 (m : mem) (a : Z) : option Z := le_int <$> loadn m a 4.
Definition load_u64 (m : mem) (a : Z) : option Z := le_int <$> loadn m a 8.

(** The string functions of the C library, on addresses: [strlen] runs into
    undefined behaviour when no NUL lies between [a] and the end of memory. *)
Fixpoint strlen_loop (fuel : nat) (m : mem) (a : Z) : option Z :=
  match fuel with
  | O => None
  | S fuel =>
      c ← load8 m a;
      if c =? 0 then Some 0 else n ← strlen_loop fuel m (a + 1); Some (1 + n)
  end.

Definition strlen (m : mem) (a : Z) : option Z := strlen_loop (length m) m a.

(** The bytes of the C string at an address, without the NUL. *)
Definition c_string (m : mem) (a : Z) : option (list Z) :=
  n ← strlen m a; loadn m a n.

(** ** Strings and accessors *)

Record ndb_str := mk_str { flag : Z; str : Z }.

Definition ndb_note_str (m : mem) (note pstr : Z) : option ndb_str :=
  f ← load8 m (pstr + 3);
  if f =? NDB_PACKED_STR then Some (mk_str f pstr)
  else
    strings ← load_u32 m (note + off.strings);
    offset ← load_u32 m pstr;
    Some (mk_str f (note + strings + Z.land offset 0xFFFFFF)).

Definition ndb_tag_str (m : mem) (note tag ind : Z) : option ndb_str :=
  ndb_note_str m note (tag + 2 + 4 * ind).

Definition ndb_str_len (m : mem) (s : ndb_str) : option Z :=
  if flag s =? NDB_PACKED_ID then Some 32 else strlen m (str s).

Definition ndb_note_id (note : Z) : Z := note + off.id.
Definition ndb_note_pubkey (note : Z) : Z := note + off.pubkey.
Definition ndb_note_sig (note : Z) : Z := note + off.sig.
Definition ndb_note_tags (note : Z) : Z := note + off.tags.
Definition ndb_note_flags (note : Z) : Z := note + off.flags.

(** A 32-bit return type for a 64-bit field. *)
Definition ndb_note_created_at (m : mem) (note : Z) : option Z :=
  u32 <$> load_u64 m (note + off.created_at).
Definition ndb_note_kind (m : mem) (note : Z) : option Z := load_u32 m (note + off.kind).
Definition ndb_note_content_length (m : mem) (note : Z) : option Z :=
  load_u32 m (note + off.content_length).
Definition ndb_note_content (m : mem) (note : Z) : option Z :=
  str <$> ndb_note_str m note (note + off.content).

Definition _ndb_note_set_kind (m : mem) (note kind : Z) : option mem :=
  storen m (note + off.kind) (le_bytes 4 kind).

Definition ndb_note_is_rumor (m : mem) (note : Z) : option bool :=
  f ← load_u16 m (ndb_note_flags note);
  Some (Z.land f NDB_NOTE_FLAG_RUMOR =? NDB_NOTE_FLAG_RUMOR).

(** A rumor keeps its receiver and its giftwrap where the signature would be. *)
Definition ndb_note_rumor_receiver_pubkey (m : mem) (note : Z) : option (option Z) :=
  r ← ndb_note_is_rumor m note;
  Some (if r : bool then Some (ndb_note_sig note) else None).

Definition ndb_note_rumor_giftwrap_id (m : mem) (note : Z) : option (option Z) :=
  r ← ndb_note_is_rumor m note;
  Some (if r : bool then Some (ndb_note_sig note + 32) else None).

Definition ndb_note_from_bytes (m : mem) (bytes : Z) : option (option Z) :=
  v ← load8 m (bytes + off.version);
  Some (if v =? 1 then Some bytes else None).

(** ** Tags *)

Definition ndb_tags_count (m : mem) (tags : Z) : option Z := load_u16 m (tags + 2).
Definition ndb_tag_count (m : mem) (tag : Z) : option Z := load_u16 m tag.

Record ndb_iterator := mk_iter { iter_note : Z; iter_tag : option Z; iter_index : Z }.

Definition ndb_tags_iterate_start (note : Z) : ndb_iterator := mk_iter note None (-1).

Definition ndb_tags_tag (tags index : Z) : Z := tags + 4 + index * 2.

Definition ndb_tags_iterate_next (m : mem) (it : ndb_iterator) :
    option (bool * ndb_iterator) :=
  let first :=
    count ← ndb_tags_count m (ndb_note_tags (iter_note it));
    Some (negb (count =? 0),
          mk_iter (iter_note it) (Some (ndb_tags_tag (ndb_note_tags (iter_note it)) 0)) 0) in
  match iter_tag it with
  | None => first
  | Some tag =>
      if iter_index it =? -1 then first
      else
        let index := iter_index it + 1 in
        count ← ndb_tags_count m (ndb_note_tags (iter_note it));
        if index <? count then
          n ← ndb_tag_count m tag;
          Some (true, mk_iter (iter_note it) (Some (tag + 2 + n * 4)) index)
        else Some (false, mk_iter (iter_note it) (Some tag) index)
  end.

Definition ndb_iter_tag_str (m : mem) (it : ndb_iterator) (ind : Z) : option ndb_str :=
  tag ← iter_tag it; ndb_tag_str m (iter_note it) tag ind.

(** ** Reading a whole note through the accessors

    What a client of the API sees: the elements of every tag. *)

Inductive elem := EStr (s : list Z) | EId (id : list Z).

#[export] Instance elem_eq_dec : EqDecision elem.
Proof. solve_decision. Defined.

Definition elem_of_str (m : mem) (s : ndb_str) : option elem :=
  if flag s =? NDB_PACKED_ID then EId <$> loadn m (str s) 32
  else EStr <$> c_string m (str s).

Definition read_tag (m : mem) (note tag : Z) : option (list elem) :=
  n ← ndb_tag_count m tag;
  mapM (fun j => s ← ndb_tag_str m note tag j; elem_of_str m s) (seqZ 0 n).

Fixpoint read_tags_loop (fuel : nat) (m : mem) (it : ndb_iterator) :
    option (list (list elem)) :=
  match fuel with
  | O => None
  | S fuel =>
      r ← ndb_tags_iterate_next m it;
      if (fst r : bool) then
        tag ← iter_tag (snd r);
        t ← read_tag m (iter_note it) tag;
        ts ← read_tags_loop fuel m (snd r);
        Some (t :: ts)
      else Some []
  end.

Definition read_tags (m : mem) (note : Z) : option (list (list elem)) :=
  count ← ndb_tags_count m (ndb_note_tags note);
  read_tags_loop (S (Z.to_nat count)) m (ndb_tags_iterate_start note).

Definition read_content (m : mem) (note : Z) : option (list Z) :=
  a ← ndb_note_content m note; c_string m a.

(** ** Abstract strings *)

Definition no_nul (s : list Z) : Prop := Forall (fun c => c <> 0) s.

#[export] Instance no_nul_dec s : Decision (no_nul s).
Proof. unfold no_nul. apply _. Defined.

(** [d] lies in [tbl] at offset [o]. *)
Definition slice (tbl : list Z) (o : Z) (d : list Z) : Prop :=
  exists pre post, tbl = pre ++ d ++ post /\ zlen pre = o.

(** The four bytes [p] of a packed string denote an element, given the string
    table: inline characters, an offset of a NUL-terminated string, or an
    offset of a 32-byte id. *)
Inductive denotes (tbl p : list Z) : elem -> Prop :=
  | den_inline s x : p = s ++ 0 :: x ++ [NDB_PACKED_STR] -> zlen p = 4 -> no_nul s ->
      denotes tbl p (EStr s)
  | den_str s o : p = le_bytes 4 o -> 0 <= o < 2 ^ 24 -> no_nul s ->
      slice tbl o (s ++ [0]) -> denotes tbl p (EStr s)
  | den_id id o : p = le_bytes 4 (o + 2 * 2 ^ 24) -> 0 <= o < 2 ^ 24 -> zlen id = 32 ->
      slice tbl o id -> denotes tbl p (EId id).

Lemma slice_app tbl x o d : slice tbl o d -> slice (tbl ++ x) o d.
Proof.
  intros (pre & post & -> & H). exists pre, (post ++ x). by rewrite <- !app_assoc.
Qed.

Lemma slice_end tbl d : slice (tbl ++ d) (zlen tbl) d.
Proof. exists tbl, []. by rewrite app_nil_r. Qed.

Lemma slice_range tbl o d : slice tbl o d -> 0 <= o /\ o + zlen d <= zlen tbl.
Proof. intros (pre & post & -> & <-). zl. Qed.

Lemma denotes_app tbl x p e : denotes tbl p e -> denotes (tbl ++ x) p e.
Proof.
  destruct 1; [eapply den_inline | eapply den_str | eapply den_id]; eauto using slice_app.
Qed.

Lemma denotes_zlen tbl p e : denotes tbl p e -> zlen p = 4.
Proof. destruct 1; subst; try done; by rewrite zlen_le_bytes. Qed.

Lemma slice_loadn m a tbl o d :
  loadn m a (zlen tbl) = Some tbl -> slice tbl o d ->
  loadn m (a + o) (zlen d) = Some d.
Proof.
  intros H (pre & post & -> & <-). apply loadn_app_inv in H as [_ H].
  by apply loadn_app_inv in H as [H _].
Qed.

(** ** C strings *)

Lemma strlen_loop_spec s : forall fuel m a,
  no_nul s -> loadn m a (zlen (s ++ [0])) = Some (s ++ [0]) -> (length s < fuel)%nat ->
  strlen_loop fuel m a = Some (zlen s).
Proof.
  induction s as [| c s IH]; intros fuel m a N L F; (destruct fuel; [simpl in F; lia |]).
  - cbn [app] in L. apply loadn_cons in L as [L _]. simpl. by rewrite L.
  - cbn [app] in L. apply loadn_cons in L as [L1 L2].
    apply Forall_cons_iff in N as [N1 N2]. simpl. rewrite L1. simpl.
    destruct (Z.eqb_spec c 0); [done |]. simpl in F.
    rewrite (IH fuel m (a + 1)) by (done || lia). simpl. by rewrite zlen_cons.
Qed.

Lemma c_string_spec m a s :
  no_nul s -> loadn m a (zlen (s ++ [0])) = Some (s ++ [0]) ->
  strlen m a = Some (zlen s) /\ c_string m a = Some s.
Proof.
  intros N L. assert (E : strlen m a = Some (zlen s)).
  { apply strlen_loop_spec; auto. apply loadn_Some in L as (?&?&?&_).
    unfold zlen in *. rewrite length_app in *. simpl in *. lia. }
  split; [done |]. unfold c_string. rewrite E. simpl.
  by apply loadn_app_inv in L as [L _].
Qed.

(** The same from the bytes up, with the converse: a C string is what lies
    before the first NUL. *)
Lemma strlen_loop_inv fuel : forall m a n,
  strlen_loop fuel m a = Some n ->
  exists s, zlen s = n /\ no_nul s /\ loadn m a (n + 1) = Some (s ++ [0]).
Proof.
  induction fuel as [| fuel IH]; intros m a n H; [done |]. simpl in H.
  destruct (load8 m a) as [c |] eqn:E; simpl in H; [| done].
  destruct (Z.eqb_spec c 0) as [-> | Hc].
  - injection H as <-. exists []. split; [done |]. split; [constructor |].
    change (0 + 1) with (zlen [0]). apply loadn_cons. split; [done |].
    apply load8_Some_range in E. rewrite loadn_in_range by zl. done.
  - destruct (strlen_loop fuel m (a + 1)) as [k |] eqn:E1; simpl in H; [| done].
    injection H as <-. destruct (IH _ _ _ E1) as (s & <- & N & L).
    exists (c :: s). split; [by rewrite zlen_cons |]. split; [by constructor |].
    replace (1 + zlen s + 1) with (zlen ((c :: s) ++ [0])) by zl.
    cbn [app]. apply loadn_cons. split; [done |].
    by replace (zlen (s ++ [0])) with (zlen s + 1) by zl.
Qed.

Lemma c_string_inv m a s :
  c_string m a = Some s -> no_nul s /\ loadn m a (zlen (s ++ [0])) = Some (s ++ [0]).
Proof.
  unfold c_string, strlen. intros H.
  destruct (strlen_loop _ m a) as [n |] eqn:E; simpl in H; [| done].
  destruct (strlen_loop_inv _ _ _ _ E) as (t & <- & N & L).
  assert (L2 : loadn m a (zlen (t ++ [0])) = Some (t ++ [0])).
  { by replace (zlen (t ++ [0])) with (zlen t + 1) by zl. }
  pose proof L2 as L3. apply loadn_app_inv in L3 as [L3 _]. rewrite H in L3.
  injection L3 as ->. done.
Qed.

Lemma load_le_int m a n v :
  0 <= v < 256 ^ Z.of_nat n -> loadn m a (Z.of_nat n) = Some (le_bytes n v) ->
  le_int <$> loadn m a (Z.of_nat n) = Some v.
Proof. intros Hv ->. simpl. by rewrite le_int_le_bytes_small. Qed.

Lemma load_u32_spec m a v :
  0 <= v < 2 ^ 32 -> loadn m a 4 = Some (le_bytes 4 v) -> load_u32 m a = Some v.
Proof. intros Hv L. by apply (load_le_int m a 4 v). Qed.

Lemma load_u16_spec m a v :
  0 <= v < 2 ^ 16 -> loadn m a 2 = Some (le_bytes 2 v) -> load_u16 m a = Some v.
Proof. intros Hv L. by apply (load_le_int m a 2 v). Qed.

Lemma load_u64_spec m a v :
  0 <= v < 2 ^ 64 -> loadn m a 8 = Some (le_bytes 8 v) -> load_u64 m a = Some v.
Proof. intros Hv L. by apply (load_le_int m a 8 v). Qed.

(** ** Layout of strings and tags *)

(** The string table of a note: [st] is its offset, [tbl] its bytes. *)
Record strings_at (m : mem) (note st : Z) (tbl : list Z) : Prop := {
  st_range : 0 <= st < 2 ^ 32;
  st_field : loadn m (note + off.strings) 4 = Some (le_bytes 4 st);
  st_table : loadn m (note + st) (zlen tbl) = Some tbl;
}.

Lemma le_bytes4_flag o b :
  0 <= o < 2 ^ 24 -> 0 <= b < 256 ->
  exists b0 b1 b2, le_bytes 4 (o + b * 2 ^ 24) = [b0; b1; b2; b].
Proof.
  intros Ho Hb. exists (o mod 256), (o / 256 mod 256), (o / 256 / 256 mod 256).
  unfold le_bytes.
  assert (E : forall k x y, 0 < k -> (x + y * (256 * k)) / 256 = x / 256 + y * k).
  { intros k x y Hk. replace (x + y * (256 * k)) with (x + y * k * 256) by lia.
    by rewrite Z.div_add by lia. }
  assert (E' : forall k x y, 0 < k -> (x + y * (256 * k)) mod 256 = x mod 256).
  { intros k x y Hk. replace (x + y * (256 * k)) with (x + y * k * 256) by lia.
    by rewrite Z.mod_add by lia. }
  replace (o + b * 2 ^ 24) with (o + b * (256 * 2 ^ 16)) by lia.
  rewrite E, E' by lia. change (2 ^ 16) with (256 * 2 ^ 8). rewrite E, E' by lia.
  change (2 ^ 8) with (256 * 1). rewrite E, E' by lia. do 3 f_equal. f_equal.
  rewrite !Z.div_div by lia. rewrite (Z.div_small o) by lia. rewrite Z.mod_small by lia. lia.
Qed.

Lemma land_24 x : Z.land x 0xFFFFFF = x mod 2 ^ 24.
Proof. change 0xFFFFFF with (Z.ones 24). by rewrite Z.land_ones. Qed.

Lemma load8_of_loadn m a n l i b :
  loadn m a n = Some l -> 0 <= i < n -> l !! Z.to_nat i = Some b -> load8 m (a + i) = Some b.
Proof. intros L Hi <-. by eapply loadn_load8. Qed.

(** A flagged offset reads back as the flag and an address in the table. *)
Lemma ndb_note_str_offset m note st tbl a o f :
  strings_at m note st tbl -> 0 <= o < 2 ^ 24 -> 0 <= f < 256 -> f <> NDB_PACKED_STR ->
  loadn m a 4 = Some (le_bytes 4 (o + f * 2 ^ 24)) ->
  ndb_note_str m note a = Some (mk_str f (note + st + o)).
Proof.
  intros [R F T] Ho Hf Hne L. unfold ndb_note_str.
  destruct (le_bytes4_flag o f Ho Hf) as (b0 & b1 & b2 & E).
  rewrite (load8_of_loadn m a 4 _ 3 f L) by (lia || by rewrite E). simpl.
  destruct (Z.eqb_spec f NDB_PACKED_STR); [done |].
  rewrite (load_u32_spec _ _ st R F). simpl.
  rewrite (load_u32_spec _ _ (o + f * 2 ^ 24) ltac:(lia) L). simpl.
  rewrite land_24, Z.mod_add, Z.mod_small by lia. done.
Qed.

(** The accessors read an element that its packed string denotes. *)
Lemma ndb_note_str_spec m note st tbl a p e :
  strings_at m note st tbl -> loadn m a 4 = Some p -> denotes tbl p e ->
  exists s, ndb_note_str m note a = Some s /\ elem_of_str m s = Some e.
Proof.
  intros S L D. destruct D as [s x E Hl N | s o -> Ho N Hs | id o -> Ho Hid Hs].
  - exists (mk_str NDB_PACKED_STR a). subst p. unfold ndb_note_str.
    assert (Hl' : zlen s + zlen x = 2) by (clear - Hl; autorewrite with zlen in Hl; lia).
    rewrite (load8_of_loadn m a 4 _ 3 NDB_PACKED_STR L); [| lia |].
    + simpl. split; [done |]. unfold elem_of_str. simpl.
      rewrite <- Hl in L. change (0 :: x ++ [NDB_PACKED_STR]) with ([0] ++ x ++ [NDB_PACKED_STR]) in L.
      rewrite app_assoc in L. apply loadn_app_inv in L as [L _].
      destruct (c_string_spec _ _ _ N L) as [_ ->]. done.
    + change (s ++ 0 :: x ++ [NDB_PACKED_STR]) with (s ++ (0 :: x) ++ [NDB_PACKED_STR]).
      rewrite app_assoc. unfold zlen in Hl'.
      rewrite lookup_app_r by (rewrite length_app; simpl; lia).
      rewrite length_app. simpl length. replace (Z.to_nat 3 - _)%nat with 0%nat by lia. done.
  - exists (mk_str 0 (note + st + o)). split.
    + apply (ndb_note_str_offset m note st tbl a o 0); auto; try lia; try done.
      by rewrite Z.mul_0_l, Z.add_0_r.
    + unfold elem_of_str. simpl. destruct S as [R F T].
      pose proof (slice_loadn _ _ _ _ _ T Hs) as L2.
      destruct (c_string_spec _ _ _ N L2) as [_ ->]. done.
  - exists (mk_str NDB_PACKED_ID (note + st + o)). split.
    + apply (ndb_note_str_offset m note st tbl a o NDB_PACKED_ID); auto; done.
    + unfold elem_of_str. simpl. destruct S as [R F T].
      pose proof (slice_loadn _ _ _ _ _ T Hs) as L2. rewrite Hid in L2. by rewrite L2.
Qed.

(** A tag is a 16-bit count and that many packed strings. *)
Definition tag_bytes (t : list (list Z)) : list Z := le_bytes 2 (zlen t) ++ concat t.
Definition tags_bytes (ts : list (list (list Z))) : list Z := concat (map tag_bytes ts).

Definition tag_ok (t : list (list Z)) : Prop :=
  zlen t < 2 ^ 16 /\ Forall (fun p => zlen p = 4) t.

Record tags_at (m : mem) (note : Z) (ts : list (list (list Z))) : Prop := {
  ta_count : zlen ts < 2 ^ 16;
  ta_ok : Forall tag_ok ts;
  ta_field : loadn m (note + off.tags_count) 2 = Some (le_bytes 2 (zlen ts));
  ta_bytes : loadn m (note + off.sizeof) (zlen (tags_bytes ts)) = Some (tags_bytes ts);
}.

Lemma zlen_concat4 (t : list (list Z)) :
  Forall (fun p => zlen p = 4) t -> zlen (concat t) = 4 * zlen t.
Proof. induction 1 as [| p t Hp _ IH]; [done |]. simpl. zl. Qed.

Lemma zlen_tag_bytes t : tag_ok t -> zlen (tag_bytes t) = 2 + 4 * zlen t.
Proof. intros [_ H]. unfold tag_bytes. rewrite zlen_app, zlen_concat4 by done. zl. Qed.

Lemma loadn_concat4 m a (t : list (list Z)) : forall j p,
  Forall (fun p => zlen p = 4) t -> loadn m a (zlen (concat t)) = Some (concat t) ->
  t !! j = Some p -> loadn m (a + 4 * Z.of_nat j) 4 = Some p.
Proof.
  revert a. induction t as [| q t IH]; intros a j p F L H; [done |].
  apply Forall_cons_iff in F as [F1 F2]. simpl in L. apply loadn_app_inv in L as [L1 L2].
  destruct j as [| j]; simpl in H.
  - injection H as ->. rewrite F1 in L1. by replace (a + 4 * Z.of_nat 0) with a by lia.
  - replace (a + 4 * Z.of_nat (S j)) with (a + zlen q + 4 * Z.of_nat j) by lia. eauto.
Qed.

(** A tag laid out at an address reads as its elements. *)
Lemma read_tag_spec m note st tbl a t es :
  strings_at m note st tbl -> tag_ok t -> Forall2 (denotes tbl) t es ->
  loadn m a (zlen (tag_bytes t)) = Some (tag_bytes t) ->
  ndb_tag_count m a = Some (zlen t) /\ read_tag m note a = Some es.
Proof.
  intros S [K F] D L. unfold tag_bytes in L. apply loadn_app_inv in L as [L1 L2].
  rewrite zlen_le_bytes in L1, L2.
  assert (C : ndb_tag_count m a = Some (zlen t)).
  { apply load_u16_spec; [split; [zl | done] | done]. }
  split; [done |]. unfold read_tag. rewrite C. simpl.
  apply Forall2_length in D as HL.
  apply mapM_Some, Forall2_same_length_lookup_2.
  { rewrite length_seqZ. unfold zlen. lia. }
  intros i x e E1 E2. apply lookup_seqZ in E1 as [-> Hi].
  destruct (Forall2_lookup_r _ _ _ _ _ D E2) as (p & Ep & De).
  pose proof (loadn_concat4 _ _ _ _ _ F L2 Ep) as Lp.
  destruct (ndb_note_str_spec _ _ _ _ _ _ _ S Lp De) as (s & E3 & E4).
  unfold ndb_tag_str. replace (a + 2 + 4 * (0 + Z.of_nat i)) with (a + Z.of_nat 2 + 4 * Z.of_nat i) by lia.
  rewrite E3. done.
Qed.

(** The address of the tag after those in [pre]. *)
Definition tag_addr (note : Z) (pre : list (list (list Z))) : Z :=
  note + off.sizeof + zlen (tags_bytes pre).

Lemma tags_bytes_app l1 l2 : tags_bytes (l1 ++ l2) = tags_bytes l1 ++ tags_bytes l2.
Proof. unfold tags_bytes. by rewrite map_app, concat_app. Qed.

Lemma tags_bytes_1 t : tags_bytes [t] = tag_bytes t.
Proof. unfold tags_bytes. simpl. by rewrite app_nil_r. Qed.

Lemma tags_at_split m note pre t post :
  tags_at m note (pre ++ t :: post) ->
  tag_ok t /\ loadn m (tag_addr note pre) (zlen (tag_bytes t)) = Some (tag_bytes t).
Proof.
  intros [_ F _ L]. split.
  - apply Forall_app in F as [_ F]. by apply Forall_cons_iff in F as [F _].
  - rewrite tags_bytes_app in L. apply loadn_app_inv in L as [_ L].
    change (t :: post) with ([t] ++ post) in L. rewrite tags_bytes_app in L.
    apply loadn_app_inv in L as [L _]. rewrite tags_bytes_1 in L. done.
Qed.

(** Stepping the iterator from a tag to the next. *)
Lemma ndb_tags_iterate_next_spec m note pre t post :
  tags_at m note (pre ++ t :: post) ->
  ndb_tags_iterate_next m (mk_iter note (Some (tag_addr note pre)) (zlen pre)) =
    Some (if decide (post = []) then
            (false, mk_iter note (Some (tag_addr note pre)) (zlen pre + 1))
          else (true, mk_iter note (Some (tag_addr note (pre ++ [t]))) (zlen (pre ++ [t])))).
Proof.
  intros T. pose proof T as [K _ C _].
  destruct (tags_at_split _ _ _ _ _ T) as [Ok L].
  unfold ndb_tags_iterate_next. cbn [iter_tag iter_index iter_note].
  destruct (Z.eqb_spec (zlen pre) (-1)); [zl |].
  unfold ndb_tags_count, ndb_note_tags. replace (note + off.tags + 2) with (note + off.tags_count)
    by (unfold off.tags, off.tags_count; lia).
  rewrite (load_u16_spec _ _ _ (conj (zlen_nonneg _) K) C). cbn [mbind option_bind].
  pose proof L as L1. unfold tag_bytes in L1. apply loadn_app_inv in L1 as [L1 _].
  rewrite zlen_le_bytes in L1. destruct Ok as [Ok1 Ok2].
  rewrite zlen_app, zlen_cons. destruct (decide (post = [])) as [-> | Hp].
  - destruct (Z.ltb_spec (zlen pre + 1) (zlen pre + (1 + zlen (@nil (list (list Z)))))); [zl | done].
  - destruct (Z.ltb_spec (zlen pre + 1) (zlen pre + (1 + zlen post))) as [_ | H].
    2: { destruct post; [done |]. zl. }
    unfold ndb_tag_count. rewrite (load_u16_spec _ _ (zlen t)) by (done || zl).
    cbn [mbind option_bind]. unfold tag_addr. rewrite tags_bytes_app, !zlen_app.
    rewrite tags_bytes_1, zlen_tag_bytes by done.
    rewrite zlen_cons, zlen_nil. do 4 f_equal. lia.
Qed.

(** The loop of a client over the tags that follow [pre]. *)
Lemma read_tags_loop_spec m note st tbl t : forall ts es pre e fuel,
  strings_at m note st tbl -> tags_at m note (pre ++ t :: ts) ->
  Forall2 (Forall2 (denotes tbl)) (t :: ts) (e :: es) -> (length ts < fuel)%nat ->
  read_tags_loop fuel m (mk_iter note (Some (tag_addr note pre)) (zlen pre)) = Some es.
Proof.
  intros ts. revert t. induction ts as [| t' ts IH]; intros t es pre e fuel S T D Hf;
    (destruct fuel as [| fuel]; [simpl in Hf; lia |]); cbn [read_tags_loop];
    rewrite (ndb_tags_iterate_next_spec _ _ _ _ _ T).
  - apply Forall2_cons_iff in D as [_ D]. by inversion D.
  - destruct (decide (t' :: ts = [])) as [| _]; [done |].
    apply Forall2_cons_iff in D as [D1 D]. destruct es as [| e' es]; [by inversion D |].
    cbn [mbind option_bind fst snd iter_tag iter_note].
    replace (pre ++ t :: t' :: ts) with ((pre ++ [t]) ++ t' :: ts) in T by (by rewrite <- app_assoc).
    destruct (tags_at_split _ _ _ _ _ T) as [Ok L].
    pose proof D as D'. apply Forall2_cons_iff in D' as [D2 _].
    destruct (read_tag_spec _ _ _ _ _ _ _ S Ok D2 L) as [_ ->]. cbn [mbind option_bind].
    rewrite (IH t' es (pre ++ [t]) e' fuel) by (done || simpl in Hf; lia). done.
Qed.

Lemma read_tags_spec m note st tbl ts es :
  strings_at m note st tbl -> tags_at m note ts ->
  Forall2 (Forall2 (denotes tbl)) ts es -> read_tags m note = Some es.
Proof.
  intros S T D. pose proof T as [K _ C _]. unfold read_tags.
  assert (Ec : ndb_tags_count m (ndb_note_tags note) = Some (zlen ts)).
  { unfold ndb_tags_count, ndb_note_tags.
    replace (note + off.tags + 2) with (note + off.tags_count)
      by (unfold off.tags, off.tags_count; lia).
    apply load_u16_spec; [split; [zl | done] | done]. }
  rewrite Ec. cbn [mbind option_bind]. rewrite to_nat_zlen.
  cbn [read_tags_loop]. unfold ndb_tags_iterate_next at 1.
  cbn [iter_tag iter_note ndb_tags_iterate_start]. rewrite Ec.
  cbn [mbind option_bind fst snd iter_tag iter_note].
  destruct ts as [| t ts].
  - inversion D. done.
  - destruct es as [| e es]; [by inversion D |].
    destruct (Z.eqb_spec (zlen (t :: ts)) 0) as [Hz | _]; [rewrite zlen_cons in Hz; zl |].
    cbn [negb].
    assert (Ea : ndb_tags_tag (ndb_note_tags note) 0 = tag_addr note []).
    { unfold ndb_tags_tag, ndb_note_tags, tag_addr, off.tags, off.sizeof.
      change (zlen (tags_bytes [])) with 0. lia. }
    rewrite Ea. destruct (tags_at_split m note [] t ts T) as [Ok L].
    pose proof D as D'. apply Forall2_cons_iff in D' as [D2 _].
    destruct (read_tag_spec _ _ _ _ _ _ _ S Ok D2 L) as [_ ->]. cbn [mbind option_bind].
    change 0 with (zlen (@nil (list (list Z)))) at 1.
    rewrite (read_tags_loop_spec m note st tbl t ts es [] e) by (done || simpl; lia). done.
Qed.

Lemma read_content_spec m note st tbl p c :
  strings_at m note st tbl -> loadn m (note + off.content) 4 = Some p ->
  denotes tbl p (EStr c) -> read_content m note = Some c.
Proof.
  intros S L D. unfold read_content, ndb_note_content.
  destruct (ndb_note_str_spec _ _ _ _ _ _ _ S L D) as (s & -> & E). simpl.
  unfold elem_of_str in E. destruct (flag s =? NDB_PACKED_ID).
  - destruct (loadn m (str s) 32); discriminate.
  - destruct (c_string m (str s)); simpl in E; congruence.
Qed.

(** ** Hexadecimal *)

(** A boolean test of an optional result, for facts checked by enumeration. *)
Definition opt_is (o : option Z) (v : Z) : bool :=
  match o with Some x => x =? v | None => false end.

Lemma opt_is_true o v : opt_is o v = true <-> o = Some v.
Proof. destruct o; simpl; [| done]. rewrite Z.eqb_eq. split; [by intros -> | by intros [= ->]]. Qed.

(** One byte and its two digits, checked over all of them. *)
Lemma hex_byte b :
  is_byte b ->
  exists h l, hexchar (Z.shiftr b 4) = Some h /\ hexchar (Z.land b 15) = Some l /\
    char_to_hex h = Some (Z.shiftr b 4) /\ char_to_hex l = Some (Z.land b 15) /\
    Z.lor (u8 (Z.shiftl (Z.shiftr b 4) 4)) (Z.land b 15) = b /\ h <> 0 /\ l <> 0 /\
    is_byte h /\ is_byte l.
Proof.
  intros Hb.
  pose proof (Zrange_forallb 256 (fun b =>
    match hexchar (Z.shiftr b 4), hexchar (Z.land b 15) with
    | Some h, Some l =>
        opt_is (char_to_hex h) (Z.shiftr b 4) &&
        (opt_is (char_to_hex l) (Z.land b 15) &&
        ((Z.lor (u8 (Z.shiftl (Z.shiftr b 4) 4)) (Z.land b 15) =? b) &&
        ((0 <? h) && ((h <? 256) && ((0 <? l) && (l <? 256))))))
    | _, _ => false
    end) ltac:(vm_compute; reflexivity) b Hb) as H.
  cbv beta in H.
  destruct (hexchar (Z.shiftr b 4)) as [h |]; [| discriminate H].
  destruct (hexchar (Z.land b 15)) as [l |]; [| discriminate H].
  repeat rewrite andb_true_iff in H. rewrite !opt_is_true in H.
  destruct H as (H1 & H2 & H3 & H4 & H5 & H6 & H7).
  exists h, l. unfold is_byte. repeat split; try done; lia.
Qed.

Lemma hex_digit c v :
  is_byte c -> char_to_hex c = Some v -> 0 <= v < 16 /\ hexchar v = Some (tolower c).
Proof.
  intros Hc H.
  pose proof (Zrange_forallb 256 (fun c =>
    match char_to_hex c with
    | Some v => (0 <=? v) && ((v <? 16) && opt_is (hexchar v) (tolower c))
    | None => true
    end) ltac:(vm_compute; reflexivity) c Hc) as E.
  cbv beta in E. rewrite H in E. repeat rewrite andb_true_iff in E.
  rewrite opt_is_true in E. destruct E as (?&?&?). split; [lia | done].
Qed.

Lemma hex_nibbles a b :
  0 <= a < 16 -> 0 <= b < 16 ->
  let v := Z.lor (u8 (Z.shiftl a 4)) b in
  is_byte v /\ Z.shiftr v 4 = a /\ Z.land v 15 = b.
Proof.
  intros Ha Hb.
  pose proof (Zrange_forallb 256 (fun x =>
    let v := Z.lor (u8 (Z.shiftl (x / 16) 4)) (x mod 16) in
    (0 <=? v) && ((v <? 256) && ((Z.shiftr v 4 =? x / 16) && (Z.land v 15 =? x mod 16))))
    ltac:(vm_compute; reflexivity) (a * 16 + b) ltac:(change (Z.of_nat 256) with 256; lia)) as E.
  cbv beta zeta in E. rewrite Z.add_comm in E.
  rewrite Z.div_add, Z.div_small, Z.mod_add, Z.mod_small, Z.add_0_l in E by lia.
  repeat rewrite andb_true_iff in E. destruct E as (?&?&?&?). unfold is_byte. lia.
Qed.

Lemma hex_encode_decode l :
  bytes_ok l ->
  exists h, hex_encode l = Some h /\ zlen h = 2 * zlen l /\ bytes_ok h /\ no_nul h /\
    hex_decode h (length l) = Some l.
Proof.
  induction 1 as [| b l Hb _ (h & E1 & E2 & E3 & E4 & E5)].
  - exists []. simpl. repeat split; constructor.
  - destruct (hex_byte b Hb) as (c1 & c2 & A1 & A2 & A3 & A4 & A5 & A6 & A7 & A8 & A9).
    exists (c1 :: c2 :: h). simpl. rewrite A1, A2. simpl. rewrite E1. simpl.
    split; [done |]. split; [zl |]. split; [do 2 (constructor; [done |]); done |].
    split; [do 2 (constructor; [done |]); done |].
    rewrite A3, A4, E5. simpl. by rewrite A5.
Qed.

Lemma hex_decode_inv n : forall s l,
  bytes_ok s -> hex_decode s n = Some l ->
  length l = n /\ zlen s = 2 * zlen l /\ bytes_ok l /\ hex_encode l = Some (map tolower s).
Proof.
  induction n as [| n IH]; intros s l Hs H.
  - destruct s as [| c1 [| c2 s]]; simpl in H; try done.
    + injection H as <-. repeat split. constructor.
    + destruct (char_to_hex c1), (char_to_hex c2); done.
  - destruct s as [| c1 [| c2 s]]; simpl in H; try done.
    apply Forall_cons_iff in Hs as [H1 Hs]. apply Forall_cons_iff in Hs as [H2 Hs].
    destruct (char_to_hex c1) as [v1 |] eqn:E1; [| done].
    destruct (char_to_hex c2) as [v2 |] eqn:E2; [| done].
    destruct (hex_decode s n) as [p |] eqn:E3; simpl in H; [| done]. injection H as <-.
    destruct (IH s p Hs E3) as (L1 & L2 & L3 & L4).
    destruct (hex_digit _ _ H1 E1) as [R1 X1]. destruct (hex_digit _ _ H2 E2) as [R2 X2].
    destruct (hex_nibbles _ _ R1 R2) as (N1 & N2 & N3). cbv zeta in *.
    split; [simpl; by rewrite L1 |]. split; [rewrite !zlen_cons, L2; lia |].
    split; [by constructor |].
    cbn [hex_encode]. rewrite N2, N3, X1, X2. cbn [mbind option_bind]. by rewrite L4.
Qed.

(** Hexadecimal round trips.  Encoding any bytes gives twice as many
    digits, and decoding them into a buffer of the original size gives the
    bytes back; conversely a successful decode fills its buffer exactly, has
    read twice as many digits, and its input is the encoding up to case. *)
Theorem hex_roundtrip (l s : list Z) (n : nat) (p : list Z)
    (Hl : bytes_ok l) (Hs : bytes_ok s) (Hp : hex_decode s n = Some p) :
  (exists h, hex_encode l = Some h /\ zlen h = 2 * zlen l /\
             hex_decode h (length l) = Some l) /\
  (length p = n /\ zlen s = 2 * zlen p /\ hex_encode p = Some (map tolower s)).
Proof.
  destruct (hex_encode_decode l Hl) as (h & E1 & E2 & _ & _ & E3).
  destruct (hex_decode_inv _ _ _ Hs Hp) as (F1 & F2 & _ & F3).
  split; [by exists h | done].
Qed.

Lemma hex_roundtrip_witness :
  exists p, hex_decode [65; 98; 48; 57] 2 = Some p /\ p = [0xab; 9] /\
    hex_encode p = Some (map tolower [65; 98; 48; 57]).
Proof.
  exists [0xab; 9]. split; [reflexivity |]. split; [reflexivity |].
  apply (hex_roundtrip [] [65; 98; 48; 57] 2 [0xab; 9]).
  - constructor.
  - repeat (constructor; [unfold is_byte; lia |]). constructor.
  - reflexivity.
Defined.
