(* ===== verification/Binmoji.v ===== *)
(** * Compact reactions (src/src/binmoji.c, src/src/binmoji_table.h, the reaction strings of src/src/metadata.c)

    The reaction counters of a note are keyed by a 64-bit reaction string: an
    emoji packed into a code point, a hash of the code points joined to it and
    two skin tones, or, with the user flag set, up to six bytes of text.  The
    joined code points are found again through a table of hashes.

    Strings are addresses into a memory, read up to their NUL; an access past
    the memory is [None].  The theorems say when a reaction reads back as the
    text it was made from, and when it does not. *)

From S2P Require Import Keys.
From S2P Require Export Note.
Open Scope Z_scope.
Open Scope ndb_scope.

(** ** Data *)

Definition PRIMARY_CP_SHIFT : Z := 42.
Definition HASH_SHIFT : Z := 10.
Definition TONE1_SHIFT : Z := 7.
Definition TONE2_SHIFT : Z := 4.
Definition FLAGS_SHIFT : Z := 0.
Definition PRIMARY_CP_MASK : Z := 0x3FFFFF.
Definition HASH_MASK : Z := 0xFFFFFFFF.
Definition TONE_MASK : Z := 7.
Definition FLAGS_MASK : Z := 0xF.
Definition USER_FLAG_MASK : Z := Z.shiftl 1 3.

(** [component_list] holds the first [component_count] elements of the array. *)
Record binmoji := mk_binmoji {
  primary_codepoint : Z; component_list : list Z; component_hash : Z;
  skin_tone1 : Z; skin_tone2 : Z; bm_flags : Z }.

(** A hash and the components it stands for. *)
Definition binmoji_table : list (Z * list Z) :=
  [
   (0x009D7FB7, [0x1F1E9]);
   (0x03827B8D, [0xFE0F; 0x2642]);
   (0x03A767C3, [0x2194]);
   (0x045C6200, [0x1F1E8]);
   (0x07667A74, [0x2195]);
   (0x08C7368D, [0x1F9BD; 0x27A1]);
   (0x091F44D9, [0x1F1EB]);
   (0x0A0040E3, [0xFE0F; 0x2640]);
   (0x0A4D693F, [0x26A7; 0xFE0F]);
   (0x0DDE596E, [0x1F1EA]);
   (0x0FF6A5EC, [0x1F52C]);
   (0x1035EC63, [0x2194; 0xFE0F]);
   (0x10E7495E, [0x1F469; 0x1F467; 0x1F466]);
   (0x11C8318C, [0xFE0F; 0x1F525]);
   (0x11CE3159, [0x1F9D1; 0x1F9D2; 0x1F9D2]);
   (0x12E2D1B2, [0x2642; 0x27A1; 0xFE0F]);
   (0x1399096B, [0x1F1ED]);
   (0x13BA8F92, [0xFE0F; 0x20E3]);
   (0x142654E9, [0x1F469; 0x1F467; 0x1F467]);
   (0x175814DC, [0x1F1EC]);
   (0x17ADDABC, [0x1F5E8; 0xFE0F]);
   (0x18E0A986, [0x2695; 0xFE0F]);
   (0x190FF79B, [0x1F9AF; 0x27A1]);
   (0x1A1B3205, [0x1F1EF]);
   (0x1AD4A79F, [0x1F467; 0x1F467]);
   (0x1B706904, [0x2764; 0xFE0F; 0x1F48B; 0x1F9D1]);
   (0x1E15BA28, [0x1F467; 0x1F466]);
   (0x1EDA2FB2, [0x1F1EE]);
   (0x24BD6E8D, [0x1F527]);
   (0x253E99D4, [0x2642; 0xFE0F; 0x27A1; 0xFE0F]);
   (0x2586DE9E, [0x27A1]);
   (0x2D3F55E3, [0x1F525]);
   (0x2DE4D231, [0x2642; 0x27A1]);
   (0x2F4DEBFD, [0x20E3]);
   (0x30A9040E, [0x2695]);
   (0x36F7248C, [0x2640]);
   (0x38D2C20A, [0x1F1E6]);
   (0x3C13DFBD, [0x1F1E7]);
   (0x3C5FF473, [0x1F9D1; 0x1F9D2]);
   (0x3D07A1FC, [0x1F384]);
   (0x3DEA22D7, [0x2696]);
   (0x3F751FE2, [0x2642]);
   (0x417843A9, [0x1F5E8]);
   (0x41CA5100, [0x1F9BC; 0x27A1]);
   (0x41CF821E, [0x1F1FA]);
   (0x450E9FA9, [0x1F1FB]);
   (0x484DB970, [0x1F1F8]);
   (0x48D80AE6, [0x2640; 0xFE0F; 0x27A1]);
   (0x4C8CA4C7, [0x1F1F9]);
   (0x4F9091D9, [0x1F9BD; 0x27A1; 0xFE0F]);
   (0x52CBF4C2, [0x1F1FE]);
   (0x560AE975, [0x1F1FF]);
   (0x5718DDA5, [0x1F466; 0x1F466]);
   (0x58A121D3, [0x1F430; 0x1F469]);
   (0x58AC2E7A, [0x2764; 0x1F468]);
   (0x59388BEE, [0x2195; 0xFE0F]);
   (0x59EA2ED3, [0x1F469; 0x1F466; 0x1F466]);
   (0x5B49CFAC, [0x1F1FC]);
   (0x5B5F53CD, [0x1F91D; 0x1F9D1]);
   (0x5C603C64, [0x1F430; 0x1F468]);
   (0x5C6D33CD, [0x2764; 0x1F469]);
   (0x5DF0BE19, [0xFE0F; 0x1F308]);
   (0x5F88D21B, [0x1F1FD]);
   (0x60EA7029, [0x2764; 0xFE0F; 0x1F9D1]);
   (0x6107DA76, [0x1F308]);
   (0x63067211, [0x1F1F3]);
   (0x63ED85D3, [0xFE0F]);
   (0x67C76FA6, [0x1F1F2]);
   (0x68B58497, [0xFE0F; 0x2640; 0xFE0F]);
   (0x6A84497F, [0x1F1F1]);
   (0x6B8E2FD6, [0x2764; 0x1F48B; 0x1F469]);
   (0x6B8F897C, [0x2642; 0xFE0F]);
   (0x6E4554C8, [0x1F1F0]);
   (0x6F4F3261, [0x2764; 0x1F48B; 0x1F468]);
   (0x6F512A89, [0x1F393]);
   (0x6FD4811E, [0x1FAEF; 0x1F9D1]);
   (0x700204CD, [0x1F1F7]);
   (0x74C3197A, [0x1F1F6]);
   (0x75AC9A14, [0x1F9D2]);
   (0x785EE7CD, [0x2B1B]);
   (0x79803FA3, [0x1F1F5]);
   (0x7D412214, [0x1F1F4]);
   (0x7D8F27C6, [0xFE0F; 0x1F5E8]);
   (0x868D184D, [0xFE0F; 0x1F5E8; 0xFE0F]);
   (0x90288C78, [0x1F3A8]);
   (0x92B7B14D, [0x1F37C]);
   (0x9499EDEC, [0xE0067; 0xE0062; 0xE0073; 0xE0063; 0xE0074; 0xE007F]);
   (0x962A74D1, [0x1F4A5]);
   (0x996BD75C, [0xE0067; 0xE0062; 0xE0077; 0xE006C; 0xE0073; 0xE007F]);
   (0x99F2B752, [0x2764; 0xFE0F; 0x1F48B; 0x1F468]);
   (0x9A52E21B, [0x2620]);
   (0x9B6DABCE, [0xFE0F; 0x26A7; 0xFE0F]);
   (0x9D1458D9, [0x1F32B; 0xFE0F]);
   (0x9D33AAE5, [0x2764; 0xFE0F; 0x1F48B; 0x1F469]);
   (0x9F647327, [0x1FAF2]);
   (0xA0DE8B8D, [0x1F468; 0x1F467]);
   (0xA38B28DE, [0x27A1; 0xFE0F]);
   (0xA41F963A, [0x1F468; 0x1F466]);
   (0xA4D50120, [0x1F9AF]);
   (0xA524171C, [0x1F3A4]);
   (0xA59E4F46, [0x2708; 0xFE0F]);
   (0xA7E7F202, [0x1F4A8]);
   (0xA818439D, [0x2642; 0xFE0F; 0x27A1]);
   (0xA9EDDAD6, [0x1F3EB]);
   (0xAAA4D4DB, [0x1F4AB]);
   (0xAADD10BE, [0xFE0F; 0x1F4A5]);
   (0xAAF80CF0, [0x1F373]);
   (0xABEA84B5, [0x1F468; 0x1F466; 0x1F466]);
   (0xAFB3FA54, [0x1F33E]);
   (0xB36B9764, [0x1F3ED]);
   (0xB715C37F, [0x1F9AF; 0x27A1; 0xFE0F]);
   (0xB93E3755, [0x1F680]);
   (0xB9CF624F, [0xE0067; 0xE0062; 0xE0065; 0xE006E; 0xE0067; 0xE007F]);
   (0xBD903BBF, [0x1F9BC; 0x27A1; 0xFE0F]);
   (0xBFFE1D2B, [0x2640; 0x27A1]);
   (0xC222DF26, [0x1F467]);
   (0xC249C89D, [0x2744; 0xFE0F]);
   (0xC3F70111, [0x2696; 0xFE0F]);
   (0xC6E3C291, [0x1F466]);
   (0xD08B67ED, [0x1F9B0]);
   (0xD1EE369F, [0xFE0F; 0x26A7]);
   (0xD44A7A5A, [0x1F9B1]);
   (0xD9095C83, [0x1F9B2]);
   (0xD9DD8D9B, [0x1F91D; 0x1F468]);
   (0xDA2EF02C, [0x2764; 0x1F9D1]);
   (0xDD1C902C, [0x1F91D; 0x1F469]);
   (0xDD2358A8, [0x1FA79]);
   (0xDDC84134, [0x1F9B3]);
   (0xDEE2E232, [0x1F430; 0x1F9D1]);
   (0xE146E13E, [0x1F9BD]);
   (0xE1D43CC7, [0xFE0F; 0x1FA79]);
   (0xE268AE7F, [0x2764; 0xFE0F; 0x1F468]);
   (0xE2E7E338, [0x1F468; 0x1F467; 0x1F466]);
   (0xE54BC011, [0x1F7E9]);
   (0xE587FC89, [0x1F9BC]);
   (0xE626FE8F, [0x1F468; 0x1F467; 0x1F467]);
   (0xE6A9B3C8, [0x2764; 0xFE0F; 0x1F469]);
   (0xE6B50FAB, [0x1F4BB]);
   (0xE7485CE4, [0x1F9D2; 0x1F9D2]);
   (0xE99742FF, [0x1FAEF; 0x1F469]);
   (0xE9D3EC00, [0x1F469; 0x1F467]);
   (0xECC9FB7F, [0x1F7EB]);
   (0xED12F1B7, [0x1F469; 0x1F466]);
   (0xED1952F0, [0x26A7]);
   (0xED565F48, [0x1FAEF; 0x1F468]);
   (0xEDCDEC37, [0x2764; 0x1F48B; 0x1F9D1]);
   (0xF0B72869, [0x2640; 0xFE0F; 0x27A1; 0xFE0F]);
   (0xF22298C9, [0x2640; 0x27A1; 0xFE0F]);
   (0xF4674A4F, [0x1F32B]);
   (0xF660789F, [0x2708]);
   (0xF7EA938C, [0x2744]);
   (0xF8F25FAE, [0x1F4BC]);
   (0xF9954666, [0x2640; 0xFE0F]);
   (0xFAAF4B8D, [0xFE0F; 0x2642; 0xFE0F]);
   (0xFC3A4497, [0x2620; 0xFE0F]);
   (0xFCADD74B, [0x1F692]);
   (0xFF01B13B, [0x1F9BA]);
   (0xFFEAA8A7, [0x1FA70])
  ].

Definition num_hash_entries : Z := zlen binmoji_table.

(** ** The hash *)

Definition crc_bit (item crc : Z) (j : Z) : Z :=
  let bit := Z.land (Z.shiftr item (31 - j)) 1 in
  if Z.lxor (Z.shiftr crc 31) bit =? 0 then u32 (Z.shiftl crc 1)
  else Z.lxor (u32 (Z.shiftl crc 1)) 0x04C11DB7.

Definition crc_item (crc item : Z) : Z := foldl (crc_bit item) crc (seqZ 0 32).

Definition crc32 (data : list Z) : Z :=
  match data with [] => 0 | _ => foldl crc_item 0xFFFFFFFF data end.

(** ** Parsing *)

Definition is_tone (cp : Z) : bool := (0x1F3FB <=? cp) && (cp <=? 0x1F3FF).

Definition is_base_emoji (cp : Z) : bool := negb (is_tone cp) && negb (cp =? 0x200D).

(** The code point at an address and its length, or [None] for a byte that
    starts none.  The bytes after the first are read unseen. *)
Definition utf8_at (m : mem) (s : Z) (c : Z) : option (option (Z * Z)) :=
  if c <? 0x80 then Some (Some (c, 1))
  else if Z.land c 0xE0 =? 0xC0 then
    c1 ← load8 m (s + 1);
    Some (Some (Z.lor (Z.shiftl (Z.land c 0x1F) 6) (Z.land c1 0x3F), 2))
  else if Z.land c 0xF0 =? 0xE0 then
    c1 ← load8 m (s + 1); c2 ← load8 m (s + 2);
    Some (Some (Z.lor (Z.lor (Z.shiftl (Z.land c 0x0F) 12) (Z.shiftl (Z.land c1 0x3F) 6)) (Z.land c2 0x3F), 3))
  else if Z.land c 0xF8 =? 0xF0 then
    c1 ← load8 m (s + 1); c2 ← load8 m (s + 2); c3 ← load8 m (s + 3);
    Some (Some (Z.lor (Z.lor (Z.lor (Z.shiftl (Z.land c 0x07) 18) (Z.shiftl (Z.land c1 0x3F) 12))
                             (Z.shiftl (Z.land c2 0x3F) 6)) (Z.land c3 0x3F), 4))
  else Some None.

(** One code point more. *)
Definition add_codepoint (b : binmoji) (cp : Z) : binmoji :=
  if is_tone cp then
    let tone_val := u8 (cp - 0x1F3FB + 1) in
    if skin_tone1 b =? 0 then
      mk_binmoji (primary_codepoint b) (component_list b) (component_hash b) tone_val (skin_tone2 b) (bm_flags b)
    else if skin_tone2 b =? 0 then
      mk_binmoji (primary_codepoint b) (component_list b) (component_hash b) (skin_tone1 b) tone_val (bm_flags b)
    else b
  else if is_base_emoji cp then
    if primary_codepoint b =? 0 then
      mk_binmoji cp (component_list b) (component_hash b) (skin_tone1 b) (skin_tone2 b) (bm_flags b)
    else if zlen (component_list b) <? 16 then
      mk_binmoji (primary_codepoint b) (component_list b ++ [cp]) (component_hash b)
        (skin_tone1 b) (skin_tone2 b) (bm_flags b)
    else b
  else b.

(** Every round advances: the length of the memory bounds the rounds. *)
Fixpoint parse_loop (fuel : nat) (m : mem) (s : Z) (b : binmoji) : option binmoji :=
  match fuel with
  | O => None
  | S fuel =>
      c ← load8 m s;
      if c =? 0 then Some b
      else
        r ← utf8_at m s c;
        match r with
        | None => parse_loop fuel m (s + 1) b
        | Some (cp, len) => parse_loop fuel m (s + len) (add_codepoint b cp)
        end
  end.

Definition no_binmoji : binmoji := mk_binmoji 0 [] 0 0 0 0.

Definition binmoji_parse (m : mem) (emoji_str : Z) : option binmoji :=
  b ← parse_loop (S (length m)) m emoji_str no_binmoji;
  Some (mk_binmoji (primary_codepoint b) (component_list b) (crc32 (component_list b))
          (skin_tone1 b) (skin_tone2 b) (bm_flags b)).

(** ** Packing *)

Definition binmoji_encode (b : binmoji) : Z :=
  let id := Z.shiftl (Z.land (primary_codepoint b) PRIMARY_CP_MASK) PRIMARY_CP_SHIFT in
  let id := Z.lor id (Z.shiftl (Z.land (component_hash b) HASH_MASK) HASH_SHIFT) in
  let id := Z.lor id (Z.shiftl (Z.land (skin_tone1 b) TONE_MASK) TONE1_SHIFT) in
  let id := Z.lor id (Z.shiftl (Z.land (skin_tone2 b) TONE_MASK) TONE2_SHIFT) in
  Z.lor id (Z.shiftl (Z.land (bm_flags b) FLAGS_MASK) FLAGS_SHIFT).

Definition compare_emoji_hash (hash_key : Z) (entry : Z * list Z) : Z :=
  if hash_key <? fst entry then -1 else if fst entry <? hash_key then 1 else 0.

(** [bsearch] between two indexes. *)
Fixpoint bsearch_between {A} (cmp : A -> Z) (fuel : nat) (l : list A) (lo hi : nat) : option A :=
  match fuel with
  | O => None
  | S fuel =>
      if (lo <? hi)%nat then
        let mid := ((lo + hi) / 2)%nat in
        e ← l !! mid;
        if cmp e <? 0 then bsearch_between cmp fuel l lo mid
        else if 0 <? cmp e then bsearch_between cmp fuel l (S mid) hi
        else Some e
      else None
  end.

Definition lookup_binmoji_by_hash (hash : Z) : option (list Z) :=
  snd <$> bsearch_between (compare_emoji_hash hash) (S (length binmoji_table)) binmoji_table 0 (length binmoji_table).

Definition binmoji_decode (id : Z) : binmoji :=
  let hash := Z.land (Z.shiftr id HASH_SHIFT) HASH_MASK in
  mk_binmoji (Z.land (Z.shiftr id PRIMARY_CP_SHIFT) PRIMARY_CP_MASK)
    (if hash =? 0 then [] else default [] (lookup_binmoji_by_hash hash)) hash
    (Z.land (Z.shiftr id TONE1_SHIFT) TONE_MASK) (Z.land (Z.shiftr id TONE2_SHIFT) TONE_MASK)
    (Z.land (Z.shiftr id FLAGS_SHIFT) FLAGS_MASK).

Definition binmoji_set_user_flag (b : Z) (enable : bool) : Z :=
  if enable then Z.lor b USER_FLAG_MASK else Z.land b (Z.lnot USER_FLAG_MASK).

Definition binmoji_get_user_flag (b : Z) : bool := Z.land b USER_FLAG_MASK =? USER_FLAG_MASK.

(** ** Printing

    The state is the output buffer and the offset reached in it. *)

Definition utf8_bytes (cp : Z) : list Z :=
  if cp <? 0x80 then [cp]
  else if cp <? 0x800 then [Z.lor 0xC0 (Z.shiftr cp 6); Z.lor 0x80 (Z.land cp 0x3F)]
  else if cp <? 0x10000 then
    [Z.lor 0xE0 (Z.shiftr cp 12); Z.lor 0x80 (Z.land (Z.shiftr cp 6) 0x3F); Z.lor 0x80 (Z.land cp 0x3F)]
  else
    [Z.lor 0xF0 (Z.shiftr cp 18); Z.lor 0x80 (Z.land (Z.shiftr cp 12) 0x3F);
     Z.lor 0x80 (Z.land (Z.shiftr cp 6) 0x3F); Z.lor 0x80 (Z.land cp 0x3F)].

(** The number of bytes written. *)
Definition append_utf8 (buf_size cp : Z) : M (mem * Z) Z :=
  if 0x110000 <=? cp then ret 0
  else
    let* s := get in
    if buf_size <=? snd s + zlen (utf8_bytes cp) then ret 0
    else
      let* buf := lift (storen (fst s) (snd s) (utf8_bytes cp)) in
      do* put (buf, snd s + zlen (utf8_bytes cp)) in
      ret (zlen (utf8_bytes cp)).

Definition no_zwj_sequence (b : binmoji) : bool :=
  let is_country_flag := (0x1F1E6 <=? primary_codepoint b) && (primary_codepoint b <=? 0x1F1FF) in
  let is_subdivision_flag :=
    (primary_codepoint b =? 0x1F3F4) &&
    match component_list b with c :: _ => (0xE0020 <=? c) && (c <=? 0xE007F) | [] => false end in
  is_country_flag || is_subdivision_flag.

Definition needs_zwj (b : binmoji) (comp : Z) : bool :=
  negb (comp =? 0xFE0F) && negb (comp =? 0x20E3) && negb (no_zwj_sequence b).

Fixpoint components_to_string (b : binmoji) (size : Z) (comps : list Z) : M (mem * Z) unit :=
  match comps with
  | [] => ret tt
  | comp :: comps' =>
      do* (if needs_zwj b comp then append_utf8 size 0x200D else ret 0) in
      do* append_utf8 size comp in
      do* (if bool_decide (comps' = []) && (0 <? skin_tone2 b)
           then append_utf8 size (0x1F3FB + skin_tone2 b - 1) else ret 0) in
      components_to_string b size comps'
  end.

Definition binmoji_to_string (b : binmoji) (out_str : mem) (out_str_size : Z) : option mem :=
  if out_str_size =? 0 then Some out_str
  else
    out ← storen out_str 0 [0];
    r ← (do* (if 0 <? primary_codepoint b then append_utf8 out_str_size (primary_codepoint b) else ret 0) in
         do* (if 0 <? skin_tone1 b then append_utf8 out_str_size (0x1F3FB + skin_tone1 b - 1) else ret 0) in
         components_to_string b out_str_size (component_list b)) (out, 0);
    let '(out, offset) := snd r in
    storen out (if offset <? out_str_size then offset else out_str_size - 1) [0].

(** ** Reaction strings (metadata.c) *)

Definition ndb_reaction_str_is_emoji (str : Z) : bool := negb (binmoji_get_user_flag str).

Definition ndb_reaction_set_emoji (m : mem) (emoji : Z) : option Z :=
  binmoji_encode <$> binmoji_parse m emoji.

(** Byte [i] of the text, after the flag byte. *)
Definition set_packed (r i c : Z) : Z := le_int (<[Z.to_nat (1 + i) := c]> (le_bytes 8 r)).

Fixpoint set_str_loop (k : nat) (m : mem) (str i r : Z) : option (bool * Z) :=
  match k with
  | O => Some (false, r)
  | S k =>
      c ← load8 m (str + i);
      if (i =? 6) && negb (c =? 0) then Some (false, r)
      else
        let r := set_packed r i c in
        if c =? 0 then Some (true, r) else set_str_loop k m str (i + 1) r
  end.

Definition ndb_reaction_set_str (m : mem) (str : Z) : option (bool * Z) :=
  set_str_loop 7 m str 0 (binmoji_set_user_flag 0 true).

(** The string returned, read up to its NUL; [buf] is the caller's. *)
Definition ndb_reaction_to_str (str : Z) (buf : mem) : option (list Z) :=
  if ndb_reaction_str_is_emoji str then
    out ← binmoji_to_string (binmoji_decode str) buf 128; c_string out 0
  else c_string (le_bytes 8 str) 1.

(** [output_emoji]: the 136 uninitialised bytes of the local buffer. *)
Definition ndb_reaction_set (output_emoji : mem) (m : mem) (str : Z) : option (bool * Z) :=
  b ← binmoji_parse m str;
  out ← binmoji_to_string b output_emoji 136;
  o ← c_string out 0; s ← c_string m str;
  if bool_decide (o = s) then Some (true, binmoji_encode b) else ndb_reaction_set_str m str.

(** * Lemmas *)

(** ** The packed fields *)

Definition cp_ok (cp : Z) : Prop := 0 <= cp < 2 ^ 21.

Record binmoji_ok (b : binmoji) : Prop := {
  bo_primary : cp_ok (primary_codepoint b);
  bo_components : Forall cp_ok (component_list b);
  bo_count : zlen (component_list b) <= 16;
  bo_hash : 0 <= component_hash b < 2 ^ 32;
  bo_tone1 : 0 <= skin_tone1 b <= 5;
  bo_tone2 : 0 <= skin_tone2 b <= 5;
  bo_flags : bm_flags b = 0
}.

Lemma binmoji_encode_sum b : binmoji_ok b ->
  binmoji_encode b = (((primary_codepoint b * 2 ^ 32 + component_hash b) * 2 ^ 3 + skin_tone1 b) * 2 ^ 3 + skin_tone2 b) * 2 ^ 4.
Proof.
  intros [P _ _ H T1 T2 F]. unfold binmoji_encode, cp_ok in *. rewrite F.
  change PRIMARY_CP_MASK with (Z.ones 22). change HASH_MASK with (Z.ones 32). change TONE_MASK with (Z.ones 3).
  rewrite !Z.land_ones by lia. rewrite !Z.mod_small by lia.
  unfold PRIMARY_CP_SHIFT, HASH_SHIFT, TONE1_SHIFT, TONE2_SHIFT, FLAGS_SHIFT.
  replace (Z.shiftl (Z.land 0 FLAGS_MASK) 0) with 0 by reflexivity. rewrite Z.lor_0_r.
  rewrite (Z.lor_comm (Z.shiftl (primary_codepoint b) 42)).
  rewrite (Z.lor_comm (Z.lor _ _) (Z.shiftl (skin_tone1 b) 7)), (Z.lor_comm (Z.lor _ _) (Z.shiftl (skin_tone2 b) 4)).
  rewrite (Z.shiftl_mul_pow2 (component_hash b)), (Z.shiftl_mul_pow2 (skin_tone1 b)), (Z.shiftl_mul_pow2 (skin_tone2 b)) by lia.
  rewrite (lor_shiftl_add (component_hash b * 2 ^ 10) (primary_codepoint b) 42) by lia.
  set (x := component_hash b * 2 ^ 10 + primary_codepoint b * 2 ^ 42).
  replace x with (Z.shiftl (component_hash b + primary_codepoint b * 2 ^ 32) 10) by (unfold x; rewrite Z.shiftl_mul_pow2; lia).
  rewrite (lor_shiftl_add (skin_tone1 b * 2 ^ 7)) by lia. clear x.
  set (x := skin_tone1 b * 2 ^ 7 + _).
  replace x with (Z.shiftl (skin_tone1 b + (component_hash b + primary_codepoint b * 2 ^ 32) * 2 ^ 3) 7)
    by (unfold x; rewrite Z.shiftl_mul_pow2; lia).
  rewrite (lor_shiftl_add (skin_tone2 b * 2 ^ 4)) by lia. lia.
Qed.

Lemma field_of hi f lo n k : 0 <= k -> 0 <= n -> 0 <= lo < 2 ^ k -> 0 <= f < 2 ^ n ->
  Z.land (Z.shiftr ((hi * 2 ^ n + f) * 2 ^ k + lo) k) (Z.ones n) = f.
Proof.
  intros. rewrite Z.shiftr_div_pow2, Z.div_add_l, Z.div_small, Z.add_0_r by lia.
  rewrite Z.land_ones, Z.add_comm, Z.mod_add by lia. by apply Z.mod_small.
Qed.

(** Unpacking gives the fields back; the components come from the table. *)
Lemma decode_encode b : binmoji_ok b -> binmoji_decode (binmoji_encode b) =
  mk_binmoji (primary_codepoint b)
    (if component_hash b =? 0 then [] else default [] (lookup_binmoji_by_hash (component_hash b)))
    (component_hash b) (skin_tone1 b) (skin_tone2 b) 0.
Proof.
  intros B. rewrite (binmoji_encode_sum b B). destruct B as [P _ _ H T1 T2 _]. unfold cp_ok in P.
  set (p := primary_codepoint b) in *. set (h := component_hash b) in *.
  set (t1 := skin_tone1 b) in *. set (t2 := skin_tone2 b) in *.
  set (e := (((p * 2 ^ 32 + h) * 2 ^ 3 + t1) * 2 ^ 3 + t2) * 2 ^ 4). unfold binmoji_decode.
  change PRIMARY_CP_MASK with (Z.ones 22). change HASH_MASK with (Z.ones 32). change TONE_MASK with (Z.ones 3).
  change FLAGS_MASK with (Z.ones 4).
  unfold PRIMARY_CP_SHIFT, HASH_SHIFT, TONE1_SHIFT, TONE2_SHIFT, FLAGS_SHIFT.
  assert (Ep : Z.land (Z.shiftr e 42) (Z.ones 22) = p).
  { replace e with ((0 * 2 ^ 22 + p) * 2 ^ 42 + (h * 2 ^ 10 + t1 * 2 ^ 7 + t2 * 2 ^ 4)) by (unfold e; lia).
    apply field_of; lia. }
  assert (Eh : Z.land (Z.shiftr e 10) (Z.ones 32) = h).
  { replace e with ((p * 2 ^ 32 + h) * 2 ^ 10 + (t1 * 2 ^ 7 + t2 * 2 ^ 4)) by (unfold e; lia). apply field_of; lia. }
  assert (E1 : Z.land (Z.shiftr e 7) (Z.ones 3) = t1).
  { replace e with (((p * 2 ^ 32 + h) * 2 ^ 3 + t1) * 2 ^ 7 + t2 * 2 ^ 4) by (unfold e; lia). apply field_of; lia. }
  assert (E2 : Z.land (Z.shiftr e 4) (Z.ones 3) = t2).
  { replace e with ((((p * 2 ^ 32 + h) * 2 ^ 3 + t1) * 2 ^ 3 + t2) * 2 ^ 4 + 0) by (unfold e; lia). apply field_of; lia. }
  assert (Ef : Z.land (Z.shiftr e 0) (Z.ones 4) = 0).
  { replace e with (((((p * 2 ^ 32 + h) * 2 ^ 3 + t1) * 2 ^ 3 + t2) * 2 ^ 4 + 0) * 2 ^ 0 + 0) by (unfold e; lia).
    apply field_of; lia. }
  by rewrite Ep, Eh, E1, E2, Ef.
Qed.

(** A packed emoji has the user flag clear. *)
Lemma encode_is_emoji b : binmoji_ok b -> ndb_reaction_str_is_emoji (binmoji_encode b) = true.
Proof.
  intros B. unfold ndb_reaction_str_is_emoji, binmoji_get_user_flag. rewrite (binmoji_encode_sum b B).
  set (x := (_ + skin_tone2 b)). rewrite <- Z.shiftl_mul_pow2 by lia.
  assert (E : Z.land (Z.shiftl x 4) USER_FLAG_MASK = 0).
  { apply Z.bits_inj'. intros n Hn. rewrite Z.land_spec, Z.bits_0. change USER_FLAG_MASK with (2 ^ 3).
    rewrite Z.pow2_bits_eqb by lia. destruct (Z.eqb_spec 3 n) as [<- |]; [| by rewrite andb_false_r].
    by rewrite Z.shiftl_spec_low. }
  by rewrite E.
Qed.

(** ** Parsing stays in range *)

Lemma crc_bit_range item crc j : 0 <= crc < 2 ^ 32 -> 0 <= crc_bit item crc j < 2 ^ 32.
Proof.
  intros H. unfold crc_bit, u32. pose proof (Z.mod_pos_bound (Z.shiftl crc 1) (2 ^ 32) ltac:(lia)) as R.
  destruct (_ =? 0); [done |]. set (x := Z.shiftl crc 1 mod 2 ^ 32) in *.
  assert (Hx : 0 <= Z.lxor x 79764919) by (apply Z.lxor_nonneg; lia). split; [done |].
  destruct (Z.eq_dec (Z.lxor x 79764919) 0) as [-> | N]; [lia |].
  apply Z.log2_lt_pow2; [lia |]. pose proof (Z.log2_lxor x 79764919 ltac:(lia) ltac:(lia)) as L.
  destruct (Z.eq_dec x 0) as [-> | Nx]; [by vm_compute |].
  assert (Z.log2 x < 32) by (apply Z.log2_lt_pow2; lia). change (Z.log2 79764919) with 26 in L. lia.
Qed.

Lemma foldl_range {A} (f : Z -> A -> Z) l : forall x, (forall y a, 0 <= y < 2 ^ 32 -> 0 <= f y a < 2 ^ 32) ->
  0 <= x < 2 ^ 32 -> 0 <= foldl f x l < 2 ^ 32.
Proof. induction l as [| a l IH]; intros x H Hx; [done |]. cbn [foldl]. apply IH; auto. Qed.

Lemma crc32_range l : 0 <= crc32 l < 2 ^ 32.
Proof.
  unfold crc32. destruct l as [| x l]; [lia |]. apply foldl_range; [| lia]. intros y a Hy. unfold crc_item.
  apply foldl_range; [| done]. intros. by apply crc_bit_range.
Qed.

Lemma land_shiftl_range c n k : 0 <= n -> 0 <= k -> 0 <= Z.shiftl (Z.land c (Z.ones n)) k < 2 ^ (n + k).
Proof.
  intros. rewrite Z.land_ones, Z.shiftl_mul_pow2 by lia. rewrite Z.pow_add_r by lia.
  pose proof (Z.mod_pos_bound c (2 ^ n) ltac:(lia)). assert (0 < 2 ^ k) by lia. nia.
Qed.

Lemma lor_range a b n : 0 <= a < 2 ^ n -> 0 <= b < 2 ^ n -> 0 <= n -> 0 <= Z.lor a b < 2 ^ n.
Proof.
  intros Ha Hb Hn. split; [apply Z.lor_nonneg; lia |].
  destruct (Z.eq_dec (Z.lor a b) 0) as [-> | N]; [lia |].
  assert (0 <= Z.lor a b) by (apply Z.lor_nonneg; lia).
  apply Z.log2_lt_pow2; [lia |]. rewrite Z.log2_lor by lia.
  assert (B : forall x, 0 <= x < 2 ^ n -> 0 < n -> Z.log2 x < n).
  { intros x Hx Hp. destruct (Z.eq_dec x 0) as [-> |]; [change (Z.log2 0) with 0; lia |]. apply Z.log2_lt_pow2; lia. }
  destruct (Z.eq_dec n 0) as [-> | Nz].
  - assert (a = 0) as -> by lia. assert (b = 0) as -> by lia. done.
  - apply Z.max_lub_lt; apply B; lia.
Qed.

Lemma utf8_at_ok m s c cp len : 0 <= c -> utf8_at m s c = Some (Some (cp, len)) -> cp_ok cp /\ 1 <= len.
Proof.
  intros Hc H. unfold utf8_at, cp_ok in *.
  assert (Sh : forall x n k j, 0 <= n -> 0 <= k -> n + k <= j -> 0 <= Z.shiftl (Z.land x (Z.ones n)) k < 2 ^ j).
  { intros x n k j Hn Hk Hj. pose proof (land_shiftl_range x n k Hn Hk).
    assert (2 ^ (n + k) <= 2 ^ j) by (apply Z.pow_le_mono_r; lia). lia. }
  assert (Lo : forall x, 0 <= Z.land x 0x3F < 2 ^ 21) by (intros x; apply (Sh x 6 0 21); lia).
  destruct (Z.ltb_spec c 0x80); [simplify_eq; lia |].
  destruct (_ =? 0xC0).
  { destruct (load8 m (s + 1)) as [c1 |]; [| done]. cbn [mbind option_bind] in H. injection H as <- <-.
    split; [| lia]. apply lor_range; [apply (Sh c 5 6 21); lia | apply Lo | lia]. }
  destruct (_ =? 0xE0).
  { destruct (load8 m (s + 1)) as [c1 |]; [| done]. cbn [mbind option_bind] in H.
    destruct (load8 m (s + 2)) as [c2 |]; [| done]. cbn [mbind option_bind] in H. injection H as <- <-.
    split; [| lia]. apply lor_range; [| apply Lo | lia].
    apply lor_range; [apply (Sh c 4 12 21); lia | apply (Sh c1 6 6 21); lia | lia]. }
  destruct (_ =? 0xF0); [| done].
  destruct (load8 m (s + 1)) as [c1 |]; [| done]. cbn [mbind option_bind] in H.
  destruct (load8 m (s + 2)) as [c2 |]; [| done]. cbn [mbind option_bind] in H.
  destruct (load8 m (s + 3)) as [c3 |]; [| done]. cbn [mbind option_bind] in H. injection H as <- <-.
  split; [| lia]. apply lor_range; [| apply Lo | lia].
  apply lor_range; [| apply (Sh c2 6 6 21); lia | lia].
  apply lor_range; [apply (Sh c 3 18 21); lia | apply (Sh c1 6 12 21); lia | lia].
Qed.

Lemma add_codepoint_ok b cp : cp_ok cp -> binmoji_ok b -> binmoji_ok (add_codepoint b cp).
Proof.
  intros Hc B. pose proof B as [P L N H T1 T2 F]. unfold add_codepoint.
  destruct (is_tone cp) eqn:Et.
  - unfold is_tone in Et. assert (0x1F3FB <= cp <= 0x1F3FF) by lia.
    assert (0 <= u8 (cp - 0x1F3FB + 1) <= 5) by (unfold u8; rewrite Z.mod_small; lia).
    destruct (_ =? 0); [by split |]. destruct (_ =? 0); [by split | done].
  - destruct (is_base_emoji cp); [| done]. destruct (_ =? 0); [by split |].
    destruct (Z.ltb_spec (zlen (component_list b)) 16); [| done]. split; cbn; try done.
    + apply Forall_app. split; [done |]. by apply Forall_singleton.
    + zl.
Qed.

Lemma parse_loop_ok m fuel : bytes_ok m -> forall s b b', parse_loop fuel m s b = Some b' -> binmoji_ok b -> binmoji_ok b'.
Proof.
  intros Hm. induction fuel as [| fuel IH]; intros s b b' H B; [done |]. cbn [parse_loop] in H.
  destruct (load8 m s) as [c |] eqn:Ec; [| done]. cbn [mbind option_bind] in H.
  assert (Hc : 0 <= c).
  { unfold load8 in Ec. destruct (0 <=? s); [| done]. pose proof (Forall_lookup_1 _ _ _ _ Hm Ec) as R. unfold is_byte in R. lia. }
  destruct (c =? 0); [by injection H as <- |].
  destruct (utf8_at m s c) as [[[cp len] |] |] eqn:Eu; [| | done]; cbn [mbind option_bind] in H.
  - apply utf8_at_ok in Eu as [Hcp _]; [| done]. eapply IH; [exact H |]. by apply add_codepoint_ok.
  - by eapply IH.
Qed.

Lemma no_binmoji_ok : binmoji_ok no_binmoji.
Proof. split; cbn; unfold cp_ok; [lia | constructor | zl | lia .. | done]. Qed.

Lemma binmoji_parse_ok m a b : bytes_ok m -> binmoji_parse m a = Some b -> binmoji_ok b /\
  component_hash b = crc32 (component_list b).
Proof.
  intros Hm H. unfold binmoji_parse in H. destruct (parse_loop _ _ _ _) as [b' |] eqn:E; [| done].
  cbn [mbind option_bind] in H. injection H as <-. apply parse_loop_ok in E; [| done | apply no_binmoji_ok].
  destruct E. split; [| done]. split; cbn; try done. apply crc32_range.
Qed.

(** ** What is printed *)

(** [w] appends the bytes [t] when they fit with a NUL after them. *)
Definition Appends {A} (size : Z) (w : M (mem * Z) A) (t : list Z) : Prop := forall buf off,
  0 <= off -> off + zlen t < size -> size <= zlen buf ->
  exists a buf', w (buf, off) = Some (a, (buf', off + zlen t)) /\ zlen buf' = zlen buf /\
    loadn buf' off (zlen t) = Some t /\ (forall b n, 0 <= n -> b + n <= off -> loadn buf' b n = loadn buf b n).

Lemma appends_ret {A} size (a : A) : Appends size (ret a) [].
Proof.
  intros buf off H0 H1 H2. exists a, buf. rewrite zlen_nil, Z.add_0_r in *. split; [done |]. split; [done |].
  split; [| done]. rewrite loadn_in_range by lia. done.
Qed.

Lemma appends_bind {A B} size (w : M (mem * Z) A) (k : A -> M (mem * Z) B) t1 t2 :
  Appends size w t1 -> (forall a, Appends size (k a) t2) -> Appends size (bind w k) (t1 ++ t2).
Proof.
  intros H1 H2 buf off Ho Hs Hb. rewrite zlen_app in *. pose proof (zlen_nonneg t1). pose proof (zlen_nonneg t2).
  destruct (H1 buf off) as (a & buf1 & E1 & L1 & R1 & K1); [lia .. |].
  destruct (H2 a buf1 (off + zlen t1)) as (a2 & buf2 & E2 & L2 & R2 & K2); [lia .. |].
  exists a2, buf2. rewrite (run_bind _ _ _ _ _ E1), E2, Z.add_assoc. split; [done |]. split; [lia |]. split.
  - apply loadn_app; [| done]. rewrite K2 by lia. done.
  - intros b n Hn Hbn. rewrite K2, K1 by lia. done.
Qed.

Definition cp_text (cp : Z) : list Z := if 0x110000 <=? cp then [] else utf8_bytes cp.

Lemma append_utf8_appends size cp : Appends size (append_utf8 size cp) (cp_text cp).
Proof.
  unfold append_utf8, cp_text. destruct (0x110000 <=? cp); [apply appends_ret |].
  intros buf off Ho Hs Hb. pose proof (zlen_nonneg (utf8_bytes cp)).
  destruct (storen_in_range buf off (utf8_bytes cp)) as [buf' E]; [lia .. |].
  exists (zlen (utf8_bytes cp)), buf'. unfold bind, get, lift, put, ret. cbn [fst snd].
  destruct (Z.leb_spec size (off + zlen (utf8_bytes cp))); [lia |]. rewrite E. split; [done |].
  split; [by apply storen_length in E |]. split; [by apply loadn_storen_same in E |].
  intros b n Hn Hbn. apply (loadn_storen_other _ _ _ _ b n E). lia.
Qed.

Definition tone_text (tone : Z) : list Z := if 0 <? tone then cp_text (0x1F3FB + tone - 1) else [].

Fixpoint components_text (b : binmoji) (comps : list Z) : list Z :=
  match comps with
  | [] => []
  | comp :: comps' =>
      (if needs_zwj b comp then cp_text 0x200D else []) ++ cp_text comp ++
      (if bool_decide (comps' = []) then tone_text (skin_tone2 b) else []) ++ components_text b comps'
  end.

(** The text of an emoji: its code point, a skin tone, what is joined to it,
    and the second tone after the last joined code point. *)
Definition binmoji_text (b : binmoji) : list Z :=
  (if 0 <? primary_codepoint b then cp_text (primary_codepoint b) else []) ++
  tone_text (skin_tone1 b) ++ components_text b (component_list b).

Lemma components_appends b size comps : Appends size (components_to_string b size comps) (components_text b comps).
Proof.
  induction comps as [| comp comps IH]; [apply appends_ret |]. cbn [components_to_string components_text].
  apply appends_bind; [destruct (needs_zwj b comp); [apply append_utf8_appends | apply appends_ret] |]. intros _.
  apply appends_bind; [apply append_utf8_appends |]. intros _.
  apply appends_bind; [| done]. unfold tone_text.
  destruct (bool_decide (comps = [])); cbn [andb]; [| apply appends_ret].
  destruct (0 <? skin_tone2 b); [apply append_utf8_appends | apply appends_ret].
Qed.

(** A C string is determined by the bytes up to some NUL. *)
Lemma c_string_cut t : forall m a, loadn m a (zlen (t ++ [0])) = Some (t ++ [0]) ->
  c_string m a = Some (Keys.c_string t).
Proof.
  intros m a H. enough (exists x, no_nul (Keys.c_string t) /\ t ++ [0] = (Keys.c_string t ++ [0]) ++ x) as (x & N & E).
  { rewrite E in H. apply loadn_app_inv in H as [H _]. by apply c_string_spec. }
  clear m a H. induction t as [| c t (x & N & E)]; [exists []; split; [constructor | done] |]. cbn [Keys.c_string app].
  destruct (Z.eqb_spec c 0) as [-> |]; [exists (t ++ [0]); split; [constructor | done] |].
  exists x. split; [by constructor |]. cbn [app]. by rewrite E.
Qed.

Lemma to_string_spec b buf size : zlen (binmoji_text b) < size -> size <= zlen buf ->
  exists out, binmoji_to_string b buf size = Some out /\ c_string out 0 = Some (Keys.c_string (binmoji_text b)).
Proof.
  intros Ht Hs. pose proof (zlen_nonneg (binmoji_text b)). unfold binmoji_to_string.
  destruct (Z.eqb_spec size 0); [lia |].
  destruct (storen_in_range buf 0 [0]) as [out E]; [lia | zl |]. rewrite E. cbn [mbind option_bind].
  set (w := bind (if 0 <? primary_codepoint b then _ else _) _). assert (A : Appends size w (binmoji_text b)).
  { unfold w. unfold binmoji_text. apply appends_bind; [destruct (0 <? primary_codepoint b); [apply append_utf8_appends | apply appends_ret] |].
    intros _. apply appends_bind; [| intros _; apply components_appends].
    unfold tone_text. destruct (0 <? skin_tone1 b); [apply append_utf8_appends | apply appends_ret]. }
  apply storen_length in E.
  destruct (A out 0) as (a & out' & -> & L & R & _); [lia .. |]. cbn [mbind option_bind snd].
  destruct (Z.ltb_spec (0 + zlen (binmoji_text b)) size); [| lia].
  destruct (storen_in_range out' (0 + zlen (binmoji_text b)) [0]) as [o E']; [lia | zl |]. exists o. split; [done |].
  apply c_string_cut. rewrite zlen_app. apply loadn_app.
  - rewrite (loadn_storen_other _ _ _ _ 0 (zlen (binmoji_text b)) E') by lia. done.
  - by apply loadn_storen_same in E'.
Qed.

Lemma cp_text_length cp : zlen (cp_text cp) <= 4.
Proof. unfold cp_text, utf8_bytes. destruct (_ <=? _); [zl |]. repeat (destruct (_ <? _); [zl |]). zl. Qed.

Lemma tone_text_length t : zlen (tone_text t) <= 4.
Proof. unfold tone_text. destruct (_ <? _); [apply cp_text_length | zl]. Qed.

Lemma components_text_length b comps : zlen (components_text b comps) <= 7 * zlen comps + 4.
Proof.
  induction comps as [| c comps IH]; [unfold components_text; zl |]. cbn [components_text].
  rewrite !zlen_app, zlen_cons. pose proof (cp_text_length c).
  assert (zlen (if needs_zwj b c then cp_text 0x200D else []) <= 3) by (destruct (needs_zwj b c); vm_compute; done).
  destruct comps as [| c' comps'].
  - rewrite bool_decide_eq_true_2 by done. pose proof (tone_text_length (skin_tone2 b)). cbn [components_text]. zl.
  - rewrite bool_decide_eq_false_2 by done. zl.
Qed.

(** The text always fits the buffers. *)
Lemma binmoji_text_length b : zlen (component_list b) <= 16 -> zlen (binmoji_text b) < 128.
Proof.
  intros H. unfold binmoji_text. rewrite !zlen_app.
  pose proof (components_text_length b (component_list b)). pose proof (tone_text_length (skin_tone1 b)).
  assert (zlen (if 0 <? primary_codepoint b then cp_text (primary_codepoint b) else []) <= 4)
    by (destruct (_ <? _); [apply cp_text_length | zl]). lia.
Qed.

(** The table is searched to the right entry, and holds hashes of its components. *)
Lemma table_lookup e : e ∈ binmoji_table ->
  crc32 (snd e) = fst e /\ fst e <> 0 /\ lookup_binmoji_by_hash (fst e) = Some (snd e).
Proof.
  assert (T : forallb (fun e => (crc32 (snd e) =? fst e) && negb (fst e =? 0) &&
      bool_decide (lookup_binmoji_by_hash (fst e) = Some (snd e))) binmoji_table = true) by (vm_compute; reflexivity).
  intros H. rewrite forallb_forall in T. apply list_elem_of_In in H. apply T in H. clear T.
  apply andb_prop in H as [H H2%bool_decide_eq_true_1]. apply andb_prop in H as [H0 H1].
  apply Z.eqb_eq in H0. split; [done |]. split; [| done]. intros E. by rewrite E in H1.
Qed.

(** What the table holds fits the component list. *)
Lemma bsearch_in {A} (cmp : A -> Z) fuel : forall l lo hi e, bsearch_between cmp fuel l lo hi = Some e -> e ∈ l.
Proof.
  induction fuel as [| fuel IH]; intros l lo hi e H; [done |]. cbn [bsearch_between] in H. destruct (lo <? hi)%nat; [| done].
  destruct (l !! ((lo + hi) / 2)%nat) as [x |] eqn:Ex; [| done]. cbn [mbind option_bind] in H.
  destruct (cmp x <? 0); [by eapply IH |]. destruct (0 <? cmp x); [by eapply IH |]. injection H as <-. by eapply list_elem_of_lookup_2.
Qed.

Lemma lookup_count hash : zlen (default [] (lookup_binmoji_by_hash hash)) <= 16.
Proof.
  unfold lookup_binmoji_by_hash. destruct (bsearch_between _ _ _ _ _) as [e |] eqn:E; [| done]. cbn [fmap option_fmap option_map default].
  assert (T : forallb (fun e => zlen (snd e) <=? 16) binmoji_table = true) by (vm_compute; reflexivity).
  apply bsearch_in, list_elem_of_In in E. rewrite forallb_forall in T. apply T in E. cbn [from_option id]. lia.
Qed.

Lemma encode_u64 b : binmoji_ok b -> is_u64 (binmoji_encode b).
Proof.
  intros B. rewrite (binmoji_encode_sum b B). destruct B as [P _ _ H T1 T2 _]. unfold cp_ok in P. unfold is_u64. lia.
Qed.

(** A packed emoji can be printed, whatever it is. *)
Lemma encode_prints b buf : binmoji_ok b -> zlen buf = 128 -> is_Some (ndb_reaction_to_str (binmoji_encode b) buf).
Proof.
  intros B Hl. unfold ndb_reaction_to_str. rewrite (encode_is_emoji b B), (decode_encode b B).
  set (d := mk_binmoji _ _ _ _ _ _). destruct (to_string_spec d buf 128) as (out & -> & E).
  - apply binmoji_text_length. unfold d. cbn [component_list]. destruct (_ =? _); [done | apply lookup_count].
  - lia.
  - cbn [mbind option_bind]. eauto.
Qed.

(** ** Short text *)

(** Flag, text, zeros: the bytes of a packed short string. *)
Definition packed_text (s : list Z) : list Z := 8 :: s ++ replicate (7 - length s) 0.

Lemma packed_text_bytes s : bytes_ok s -> (length s <= 7)%nat ->
  bytes_ok (packed_text s) /\ length (packed_text s) = 8%nat.
Proof.
  intros Hs Hl. unfold packed_text. split.
  - constructor; [unfold is_byte; lia |]. apply Forall_app. split; [done |]. apply Forall_replicate. unfold is_byte. lia.
  - cbn [length]. rewrite length_app, length_replicate. lia.
Qed.

Lemma set_packed_text s c : bytes_ok s -> (length s < 7)%nat ->
  set_packed (le_int (packed_text s)) (zlen s) c = le_int (packed_text (s ++ [c])).
Proof.
  intros Hs Hl. destruct (packed_text_bytes s Hs ltac:(lia)) as [B L]. unfold set_packed.
  replace 8%nat with (length (packed_text s)). rewrite (le_bytes_le_int _ B).
  f_equal. unfold packed_text. replace (Z.to_nat (1 + zlen s)) with (S (length s)) by (unfold zlen; lia).
  cbn [insert list_insert]. f_equal.  replace (7 - length s)%nat with (S (6 - length s)) by lia. cbn [replicate].
  rewrite length_app. cbn [length]. replace (7 - (length s + 1))%nat with (6 - length s)%nat by lia.
  etrans; [apply (insert_app_r_alt s); lia |]. by rewrite Nat.sub_diag, <- app_assoc.
Qed.

(** Up to six bytes are packed; longer text is refused. *)
Lemma set_str_loop_spec m a : forall t p k, bytes_ok (p ++ t) -> no_nul t ->
  loadn m (a + zlen p) (zlen (t ++ [0])) = Some (t ++ [0]) -> (k + length p = 7)%nat ->
  exists r, set_str_loop k m a (zlen p) (le_int (packed_text p)) = Some (bool_decide (length (p ++ t) <= 6)%nat, r) /\
    ((length (p ++ t) <= 6)%nat -> r = le_int (packed_text (p ++ t))).
Proof.
  induction t as [| c t IH]; intros p k Hb Hn Hl Hk.
  - rewrite app_nil_r in *. destruct k as [| k].
    + exists (le_int (packed_text p)). split; [| done]. rewrite bool_decide_eq_false_2 by lia. done.
    + cbn [app] in Hl. apply loadn_cons in Hl as [L _]. cbn [set_str_loop]. rewrite L. cbn [mbind option_bind Z.eqb negb].
      rewrite andb_false_r, set_packed_text by (done || lia). rewrite bool_decide_eq_true_2 by lia.
      eexists. split; [done |]. intros _. f_equal. unfold packed_text. rewrite length_app, <- app_assoc. cbn [length app].
      replace (7 - length p)%nat with (S (7 - (length p + 1))) by lia. done.
  - cbn [app] in Hl. apply loadn_cons in Hl as [L Hl]. apply Forall_cons_iff in Hn as [Nc Hn].
    replace (p ++ c :: t) with ((p ++ [c]) ++ t) in * by (by rewrite <- app_assoc).
    destruct k as [| k].
    { exists (le_int (packed_text p)). rewrite !length_app. cbn [length]. split; [| lia].
      rewrite bool_decide_eq_false_2 by lia. done. }
    cbn [set_str_loop]. rewrite L. cbn [mbind option_bind]. destruct (Z.eqb_spec c 0) as [-> | _]; [done |]. cbn [negb].
    rewrite andb_true_r. destruct (Z.eqb_spec (zlen p) 6) as [E6 |].
    + exists (le_int (packed_text p)). unfold zlen in E6. rewrite !length_app. cbn [length]. split; [| lia].
      rewrite bool_decide_eq_false_2 by lia. done.
    + pose proof Hb as Hp. apply Forall_app in Hp as [Hp _]. apply Forall_app in Hp as [Hp _].
      unfold zlen in n. rewrite set_packed_text by (done || lia).
      replace (zlen p + 1) with (zlen (p ++ [c])) by (rewrite zlen_app; zl).
      apply IH; [done | done | | rewrite length_app; cbn [length]; lia].
      rewrite <- Hl. f_equal. rewrite zlen_app. zl.
Qed.

Lemma set_str_spec m a s : bytes_ok m -> c_string m a = Some s ->
  exists r, ndb_reaction_set_str m a = Some (bool_decide (length s <= 6)%nat, r) /\
    ((length s <= 6)%nat -> r = le_int (packed_text s)).
Proof.
  intros Hm Hs. apply c_string_inv in Hs as [N L]. pose proof L as Lb. apply loadn_Some in Lb as (_ & _ & _ & E).
  assert (Hb : bytes_ok s).
  { assert (B : bytes_ok (s ++ [0])) by (rewrite E; by apply Forall_take, Forall_drop). by apply Forall_app in B as [B _]. }
  destruct (set_str_loop_spec m a s [] 7 Hb N) as (r & H & R); [by rewrite zlen_nil, Z.add_0_r | done |].
  exists r. split; [exact H | done].
Qed.

(** A packed short string reads back. *)
Lemma packed_text_reads s buf : bytes_ok s -> no_nul s -> (length s <= 6)%nat ->
  ndb_reaction_str_is_emoji (le_int (packed_text s)) = false /\
  ndb_reaction_to_str (le_int (packed_text s)) buf = Some s.
Proof.
  intros Hb Hn Hl. destruct (packed_text_bytes s Hb ltac:(lia)) as [B L].
  assert (E : ndb_reaction_str_is_emoji (le_int (packed_text s)) = false).
  { unfold ndb_reaction_str_is_emoji, binmoji_get_user_flag.
    replace (Z.land (le_int (packed_text s)) USER_FLAG_MASK) with 8; [done |].
    change (le_int (packed_text s)) with (8 + 256 * le_int (s ++ replicate (7 - length s) 0)).
    change 256 with (2 ^ 8). rewrite Z.mul_comm, <- lor_shiftl_add by lia. rewrite Z.land_lor_distr_l.
    replace (Z.land (Z.shiftl _ 8) USER_FLAG_MASK) with 0; [done |].
    apply Z.bits_inj'. intros n Hnn. rewrite Z.bits_0, Z.land_spec. change USER_FLAG_MASK with (2 ^ 3).
    rewrite Z.pow2_bits_eqb by lia. destruct (Z.eqb_spec 3 n) as [<- |]; [| by rewrite andb_false_r].
    by rewrite Z.shiftl_spec_low. }
  split; [done |]. unfold ndb_reaction_to_str. rewrite E. replace 8%nat with (length (packed_text s)).
  rewrite (le_bytes_le_int _ B). unfold packed_text.
  replace (7 - length s)%nat with (S (6 - length s)) by lia. cbn [replicate].
  apply c_string_spec; [done |].
  apply Keys.loadn_mid with (pre := [8]) (post := replicate (6 - length s) 0); [by rewrite <- app_assoc | done | done].
Qed.

(** ** Setting a reaction *)

(** Text that parses to [b] is stored as an emoji when it is the text of [b],
    else as short text. *)
Definition stored_as_emoji (b : binmoji) (s : list Z) : Prop := Keys.c_string (binmoji_text b) = s.

#[export] Instance stored_as_emoji_dec b s : Decision (stored_as_emoji b s).
Proof. unfold stored_as_emoji. apply _. Defined.

Lemma reaction_set_spec output_emoji m a b s : bytes_ok m -> zlen output_emoji = 136 ->
  binmoji_parse m a = Some b -> c_string m a = Some s ->
  exists r, ndb_reaction_set output_emoji m a = Some (bool_decide (stored_as_emoji b s \/ (length s <= 6)%nat), r) /\
    (stored_as_emoji b s -> r = binmoji_encode b) /\
    (~ stored_as_emoji b s -> (length s <= 6)%nat -> r = le_int (packed_text s)).
Proof.
  intros Hm Ho Hb Hs. destruct (binmoji_parse_ok m a b Hm Hb) as [B _].
  destruct (to_string_spec b output_emoji 136) as (out & E & Co).
  { pose proof (binmoji_text_length b (bo_count _ B)). lia. } { lia. }
  destruct (set_str_spec m a s Hm Hs) as (r & Er & R).
  unfold ndb_reaction_set. rewrite Hb. cbn [mbind option_bind]. rewrite E. cbn [mbind option_bind].
  rewrite Co. cbn [mbind option_bind]. rewrite Hs. cbn [mbind option_bind].
  fold (stored_as_emoji b s). destruct (decide (stored_as_emoji b s)) as [Hem | Hne].
  - rewrite bool_decide_eq_true_2 by done. exists (binmoji_encode b).
    rewrite bool_decide_eq_true_2 by (by left). done.
  - rewrite bool_decide_eq_false_2 by done. exists r. rewrite Er. split; [| done]. do 2 f_equal.
    apply bool_decide_ext. tauto.
Qed.

Lemma parse_c_string fuel : forall m s b b', parse_loop fuel m s b = Some b' -> bytes_ok m -> 0 <= s ->
  exists e, s <= e /\ load8 m e = Some 0.
Proof.
  induction fuel as [| fuel IH]; intros m s b b' H Hm Hs; [done |]. cbn [parse_loop] in H.
  destruct (load8 m s) as [c |] eqn:Ec; [| done]. cbn [mbind option_bind] in H.
  destruct (Z.eqb_spec c 0) as [-> | Nc]; [exists s; split; [lia | done] |].
  assert (Hc : 0 <= c).
  { unfold load8 in Ec. destruct (0 <=? s); [| done]. pose proof (Forall_lookup_1 _ _ _ _ Hm Ec) as R. unfold is_byte in R. lia. }
  destruct (utf8_at m s c) as [[[cp len] |] |] eqn:Eu; [| | done]; cbn [mbind option_bind] in H.
  - apply utf8_at_ok in Eu as [_ Hl]; [| done]. apply IH in H as (e & ? & ?); [exists e; split; [lia | done] | done | lia].
  - apply IH in H as (e & ? & ?); [exists e; split; [lia | done] | done | lia].
Qed.

Lemma reads_nul m : forall n fuel s, load8 m (s + Z.of_nat n) = Some 0 -> 0 <= s -> (n < fuel)%nat -> is_Some (strlen_loop fuel m s).
Proof.
  induction n as [| n IH]; intros fuel s H Hs Hf; (destruct fuel as [| fuel]; [lia |]); cbn [strlen_loop].
  - replace (s + Z.of_nat 0) with s in H by lia. rewrite H. cbn [mbind option_bind Z.eqb]. eauto.
  - pose proof (load8_Some_range _ _ _ H). destruct (load8 m s) as [c |] eqn:Ec; [| apply eq_None_not_Some in Ec; exfalso; apply Ec, load8_is_Some; lia].
    cbn [mbind option_bind]. destruct (c =? 0); [eauto |].
    destruct (IH fuel (s + 1)) as [k Ek]; [rewrite <- H; f_equal; lia | lia | lia |]. rewrite Ek. cbn [mbind option_bind]. eauto.
Qed.

(** Text that can be parsed is a C string. *)
Lemma parsed_is_c_string m a b : bytes_ok m -> 0 <= a -> binmoji_parse m a = Some b -> is_Some (c_string m a).
Proof.
  intros Hm Ha H. unfold binmoji_parse in H. destruct (parse_loop _ _ _ _) as [b' |] eqn:E; [| done]. clear H.
  destruct (parse_c_string _ _ _ _ _ E Hm Ha) as (e & He & L). pose proof (load8_Some_range _ _ _ L) as R.
  destruct (reads_nul m (Z.to_nat (e - a)) (length m) a) as [n En]; [rewrite <- L; f_equal; lia | lia | unfold zlen in R; lia |].
  unfold c_string, strlen. rewrite En. cbn [mbind option_bind].
  destruct (strlen_loop_inv _ _ _ _ En) as (t & <- & _ & (? & ? & ? & _)%loadn_Some).
  eexists. apply loadn_in_range; [lia | zl | lia].
Qed.

(** * Properties *)

Definition known_components (b : binmoji) : Prop := component_list b = [] \/ component_list b ∈ map snd binmoji_table.

(** C39: a reaction that was set reads back as the text it was made from, as an
    emoji of at most one code point and its tones, as an emoji whose joined code
    points the table knows, or as text of at most six bytes. *)
Theorem reaction_roundtrip (output_emoji buf m : mem) (a r : Z) (s : list Z)
    (Hm : bytes_ok m) (Ho : zlen output_emoji = 136) (Hb : zlen buf = 128) (Hs : c_string m a = Some s)
    (Hset : ndb_reaction_set output_emoji m a = Some (true, r))
    (Hk : ndb_reaction_str_is_emoji r = true -> exists b, binmoji_parse m a = Some b /\ known_components b) :
  ndb_reaction_to_str r buf = Some s.
Proof.
  destruct (binmoji_parse m a) as [b |] eqn:Eb; [| unfold ndb_reaction_set in Hset; rewrite Eb in Hset; done].
  destruct (binmoji_parse_ok m a b Hm Eb) as [B Hh].
  destruct (reaction_set_spec output_emoji m a b s Hm Ho Eb Hs) as (r' & E & R1 & R2).
  rewrite E in Hset. injection Hset as H <-. apply bool_decide_eq_true_1 in H.
  destruct (decide (stored_as_emoji b s)) as [Hem | Hne].
  - rewrite (R1 Hem) in *. pose proof (encode_is_emoji b B) as Ee. destruct (Hk Ee) as (b' & [= <-] & Kn).
    unfold ndb_reaction_to_str. rewrite Ee, (decode_encode b B).
    assert (El : (if component_hash b =? 0 then [] else default [] (lookup_binmoji_by_hash (component_hash b))) = component_list b).
    { rewrite Hh. destruct Kn as [-> | (e & Ee' & Hin)%list_elem_of_fmap]; [done |]. rewrite Ee'.
      destruct (table_lookup e Hin) as (-> & Nz & ->). by destruct (Z.eqb_spec (fst e) 0). }
    rewrite El. replace (mk_binmoji _ _ _ _ _ 0) with b by (destruct B as [_ _ _ _ _ _ F]; destruct b; cbn in F |- *; by rewrite F).
    destruct (to_string_spec b buf 128) as (out & -> & Co); [exact (binmoji_text_length b (bo_count _ B)) | lia |].
    cbn [mbind option_bind]. by rewrite Co, Hem.
  - destruct H as [H | Hl]; [done |]. rewrite (R2 Hne Hl).
    apply c_string_inv in Hs as [N L]. apply loadn_Some in L as (_ & _ & _ & Es).
    apply packed_text_reads; [| done | done].
    assert (X : bytes_ok (s ++ [0])) by (rewrite Es; by apply Forall_take, Forall_drop). by apply Forall_app in X as [X _].
Qed.

(** The pirate flag: a black flag, a joiner, a skull and a variation selector. *)
Definition pirate : mem := [0xF0; 0x9F; 0x8F; 0xB4; 0xE2; 0x80; 0x8D; 0xE2; 0x98; 0xA0; 0xEF; 0xB8; 0x8F; 0].

Lemma reaction_roundtrip_witness :
  ndb_reaction_to_str (binmoji_encode (default no_binmoji (binmoji_parse pirate 0))) (replicate 128 0) = c_string pirate 0.
Proof.
  apply (reaction_roundtrip (replicate 136 0) (replicate 128 0) pirate 0 _
           [0xF0; 0x9F; 0x8F; 0xB4; 0xE2; 0x80; 0x8D; 0xE2; 0x98; 0xA0; 0xEF; 0xB8; 0x8F]).
  - by apply bytes_ok_dec.
  - reflexivity.
  - reflexivity.
  - vm_compute. reflexivity.
  - vm_compute. reflexivity.
  - intros _. eexists. split; [vm_compute; reflexivity |]. right.
    apply (bool_decide_eq_true_1 (_ ∈ _)). vm_compute. reflexivity.
Defined.

(** text that joins code points the table does not know is taken for an
    emoji all the same, and reads back without what was joined: only the first
    code point and its tone are left. *)
Theorem unknown_sequence_truncated (output_emoji buf m : mem) (a : Z) (b : binmoji) (s : list Z)
    (Hm : bytes_ok m) (Ho : zlen output_emoji = 136) (Hb : zlen buf = 128)
    (Hp : binmoji_parse m a = Some b) (Hs : c_string m a = Some s) (He : stored_as_emoji b s)
    (Hu : lookup_binmoji_by_hash (component_hash b) = None) :
  exists r, ndb_reaction_set output_emoji m a = Some (true, r) /\
    ndb_reaction_to_str r buf =
      Some (Keys.c_string ((if 0 <? primary_codepoint b then cp_text (primary_codepoint b) else []) ++ tone_text (skin_tone1 b))).
Proof.
  destruct (binmoji_parse_ok m a b Hm Hp) as [B _].
  destruct (reaction_set_spec output_emoji m a b s Hm Ho Hp Hs) as (r & E & R & _). exists r.
  rewrite bool_decide_eq_true_2 in E by (by left). split; [done |]. rewrite (R He).
  unfold ndb_reaction_to_str. rewrite (encode_is_emoji b B), (decode_encode b B), Hu.
  set (b' := mk_binmoji _ _ _ _ _ _).
  assert (El : component_list b' = []) by (cbn; by destruct (_ =? 0)).
  destruct (to_string_spec b' buf 128) as (out & -> & Co); [| lia |].
  { apply binmoji_text_length. rewrite El. zl. }
  cbn [mbind option_bind]. rewrite Co. unfold binmoji_text. rewrite El. cbn [components_text]. by rewrite app_nil_r.
Qed.

(** An [a], a joiner and a [b]. *)
Definition joined_ab : mem := [97; 0xE2; 0x80; 0x8D; 98; 0].

Lemma unknown_sequence_truncated_witness : exists r,
  ndb_reaction_set (replicate 136 0) joined_ab 0 = Some (true, r) /\ ndb_reaction_to_str r (replicate 128 0) = Some [97].
Proof.
  apply (unknown_sequence_truncated (replicate 136 0) (replicate 128 0) joined_ab 0
           (default no_binmoji (binmoji_parse joined_ab 0)) [97; 0xE2; 0x80; 0x8D; 98]).
  - by apply bytes_ok_dec.
  - reflexivity.
  - reflexivity.
  - vm_compute. reflexivity.
  - vm_compute. reflexivity.
  - vm_compute. reflexivity.
  - vm_compute. reflexivity.
Defined.

Lemma parse_ascii m : forall t n fuel a b, Forall (fun c => 0 < c < 0x80) t ->
  loadn m a (zlen t) = Some t -> fuel = (length t + n)%nat ->
  exists b', parse_loop fuel m a b = parse_loop n m (a + zlen t) b'.
Proof.
  induction t as [| c t IH]; intros n fuel a b Ht Hl ->.
  - exists b. rewrite zlen_nil, Z.add_0_r. done.
  - apply loadn_cons in Hl as [L Hl]. apply Forall_cons_iff in Ht as [Hc Ht]. cbn [length Nat.add parse_loop].
    rewrite L. cbn [mbind option_bind]. destruct (Z.eqb_spec c 0); [lia |]. unfold utf8_at.
    destruct (Z.ltb_spec c 0x80); [| lia]. cbn [mbind option_bind].
    destruct (IH n (length t + n)%nat (a + 1) (add_codepoint b c) Ht Hl eq_refl) as [b' E]. exists b'. rewrite E. f_equal. zl.
Qed.

Lemma lead_byte c : 0xC0 <= c < 0xF8 ->
  (Z.land c 0xE0 =? 0xC0) || (Z.land c 0xF0 =? 0xE0) || (Z.land c 0xF8 =? 0xF0) = true.
Proof.
  intros H. pose proof (Zrange_forallb 0xF8 (fun c => (c <? 0xC0) || ((Z.land c 0xE0 =? 0xC0) || (Z.land c 0xF0 =? 0xE0) ||
    (Z.land c 0xF8 =? 0xF0))) ltac:(vm_compute; reflexivity) c ltac:(lia)) as E. cbv beta in E.
  destruct (Z.ltb_spec c 0xC0); [lia | exact E].
Qed.

(** the NUL of a string is skipped when the string ends in the middle of a
    UTF-8 sequence: parsing a reaction whose last byte announces more bytes
    reads past the end of its memory. *)
Theorem truncated_utf8_overruns (output_emoji : mem) (s : list Z) (c : Z)
    (Hs : Forall (fun c => 0 < c < 0x80) s) (Hc : 0xC0 <= c < 0xF8) :
  ndb_reaction_set output_emoji (s ++ [c; 0]) 0 = None.
Proof.
  enough (E : binmoji_parse (s ++ [c; 0]) 0 = None) by (unfold ndb_reaction_set; by rewrite E).
  unfold binmoji_parse. set (m := s ++ [c; 0]).
  assert (Ls : loadn m 0 (zlen s) = Some s) by (by apply (Keys.loadn_mid m [] s [c; 0])).
  assert (Hm : zlen m = zlen s + 2) by (unfold m; zl).
  destruct (parse_ascii m s 3 (S (length m)) 0 no_binmoji Hs Ls) as [b' ->]; [unfold m; rewrite length_app; cbn [length]; lia |].
  assert (Lc : load8 m (0 + zlen s) = Some c).
  { rewrite load8_lookup by zl. unfold m. rewrite lookup_app_r by (unfold zlen; lia). by replace (_ - _)%nat with 0%nat by (unfold zlen; lia). }
  assert (Ln : forall k, 2 <= k -> load8 m (0 + zlen s + k) = None).
  { intros k Hk. apply eq_None_not_Some. rewrite load8_is_Some. pose proof (zlen_nonneg s). lia. }
  cbn [parse_loop]. rewrite Lc. cbn [mbind option_bind]. destruct (Z.eqb_spec c 0); [lia |].
  unfold utf8_at. destruct (Z.ltb_spec c 0x80); [lia |]. pose proof (lead_byte c Hc) as Lead.
  destruct (_ =? 0xC0); [| destruct (_ =? 0xE0); [| destruct (_ =? 0xF0); [| done]]];
    destruct (load8 m (0 + zlen s + 1)) as [c1 |]; cbn [mbind option_bind]; try done; rewrite (Ln 2) by lia; done.
Qed.

Lemma truncated_utf8_overruns_witness : ndb_reaction_set (replicate 136 0) [43; 0xF0; 0] 0 = None.
Proof.
  apply (truncated_utf8_overruns (replicate 136 0) [43] 0xF0); [| lia]. constructor; [lia | constructor].
Defined.
