(* ===== verification/NoteJson.v ===== *)
(** * JSON output (src/src/nostrdb.c)

    [ndb_note_json] and [ndb_event_commitment] write a note as JSON into a
    caller's buffer.  The note is read from the memory [nm], the buffer is the
    memory under the cursor: the code only ever serializes into a buffer
    disjoint from the note.  [note_text] and [canonical_text] are the texts
    the writers promise; they are proved to write exactly those, or to fail
    when the buffer is too small. *)

From S2P Require Export Note.
From Stdlib Require Import Ascii String.

(** The bytes of an ASCII literal; the quote character is [DQ]. *)
Definition bytes_of (s : string) : list Z :=
  map (fun a => Z.of_N (N_of_ascii a)) (list_ascii_of_string s).
Definition DQ : Z := 34.
Definition BSL : Z := 92.

(** ** Escaping *)

Definition cursor_push_unescaped_char (c1 c2 : Z) : CM bool :=
  if c2 =? 116 then cursor_push_byte 9
  else if c2 =? 110 then cursor_push_byte 10
  else if c2 =? 114 then cursor_push_byte 13
  else if c2 =? 98 then cursor_push_byte 8
  else if c2 =? 102 then cursor_push_byte 12
  else if c2 =? BSL then cursor_push_byte BSL
  else if c2 =? 47 then cursor_push_byte 47
  else if c2 =? DQ then cursor_push_byte DQ
  else if c2 =? 117 then ret false
  else cursor_push_byte c1 &&* cursor_push_byte c2.

Definition cursor_push_escaped_char (c : Z) : CM bool :=
  if c =? DQ then cursor_push_str [BSL; DQ]
  else if c =? BSL then cursor_push_str [BSL; BSL]
  else if c =? 8 then cursor_push_str [BSL; 98]
  else if c =? 12 then cursor_push_str [BSL; 102]
  else if c =? 10 then cursor_push_str [BSL; 110]
  else if c =? 13 then cursor_push_str [BSL; 114]
  else if c =? 9 then cursor_push_str [BSL; 116]
  else cursor_push_byte c.

Fixpoint push_hex_loop (buf : list Z) : CM bool :=
  match buf with
  | [] => ret true
  | c :: buf =>
      let* h := lift (hexchar (Z.shiftr c 4)) in
      let* l := lift (hexchar (Z.land c 15)) in
      cursor_push_byte h &&* cursor_push_byte l &&* push_hex_loop buf
  end.

Definition cursor_push_hex_str (buf : list Z) : CM bool :=
  if negb (zlen buf mod 2 =? 0) then ret false
  else cursor_push_byte DQ &&* push_hex_loop buf &&* cursor_push_byte DQ.

Fixpoint push_escaped_loop (s : list Z) : CM bool :=
  match s with
  | [] => ret true
  | c :: s => cursor_push_escaped_char c &&* push_escaped_loop s
  end.

(** [s] is a C string: the bytes before its NUL. *)
Definition cursor_push_jsonstr (s : list Z) : CM bool :=
  cursor_push_byte DQ &&* push_escaped_loop s &&* cursor_push_byte DQ.

(** ** Tags *)

Definition cursor_push_json_tag_str (nm : mem) (s : ndb_str) : CM bool :=
  if flag s =? NDB_PACKED_ID then
    let* id := lift (loadn nm (str s) 32) in cursor_push_hex_str id
  else let* s := lift (c_string nm (str s)) in cursor_push_jsonstr s.

(** The elements from [i] on; [k] counts those left. *)
Fixpoint push_json_tag_loop (k : nat) (nm : mem) (note tag i : Z) : CM bool :=
  match k with
  | O => ret true
  | S k =>
      let* s := lift (ndb_tag_str nm note tag i) in
      let* count := lift (ndb_tag_count nm tag) in
      cursor_push_json_tag_str nm s &&*
      (if negb (i =? count - 1) then cursor_push_byte 44 else ret true) &&*
      push_json_tag_loop k nm note tag (i + 1)
  end.

Definition cursor_push_json_tag (nm : mem) (note tag : Z) : CM bool :=
  let* count := lift (ndb_tag_count nm tag) in
  cursor_push_byte 91 &&*
  push_json_tag_loop (Z.to_nat count) nm note tag 0 &&*
  cursor_push_byte 93.

(** The [while] loop over the tags; one more round than there are tags is
    enough for the iterator to stop. *)
Fixpoint push_json_tags_loop (fuel : nat) (nm : mem) (note : Z) (it : ndb_iterator) (i : Z) :
    CM bool :=
  match fuel with
  | O => ret false
  | S fuel =>
      let* ' (more, it) := lift (ndb_tags_iterate_next nm it) in
      if (more : bool) then
        let* tag := lift (iter_tag it) in
        let* count := lift (ndb_tags_count nm (ndb_note_tags note)) in
        cursor_push_json_tag nm note tag &&*
        (if negb (i =? count - 1) then cursor_push_str [44] else ret true) &&*
        push_json_tags_loop fuel nm note it (i + 1)
      else ret true
  end.

Definition cursor_push_json_tags (nm : mem) (note : Z) : CM bool :=
  let* count := lift (ndb_tags_count nm (ndb_note_tags note)) in
  cursor_push_byte 91 &&*
  push_json_tags_loop (S (Z.to_nat count)) nm note (ndb_tags_iterate_start note) 0 &&*
  cursor_push_byte 93.

(** ** Numbers *)

(** Decimal digits, most significant first. *)
Fixpoint dec_loop (fuel : nat) (n : Z) : list Z :=
  match fuel with
  | O => []
  | S fuel => if n <? 10 then [48 + n] else dec_loop fuel (n / 10) ++ [48 + n mod 10]
  end.

(** Twenty digits hold any 64-bit integer. *)
Definition dec (n : Z) : list Z := dec_loop 20 n.

(** [snprintf] with the formats %d and %llu, into a buffer of [size] bytes. *)
Definition snprintf_d (size : nat) (v : Z) : list Z :=
  let v := i32 v in
  take (size - 1) (if v <? 0 then 45 :: dec (- v) else dec v).
Definition snprintf_u64 (size : nat) (v : Z) : list Z := take (size - 1) (dec (u64 v)).

Definition cursor_push_int_str (num : Z) : CM bool := cursor_push_str (snprintf_u64 16 num).

(** Hex digits; the room test keeps one byte spare, and the digits are then
    stored without further tests. *)
Definition cursor_push_hex (bytes : list Z) : CM bool :=
  let* c := cur in
  if c_end c <=? c_p c + zlen bytes * 2 then ret false
  else
    let* digits := lift (hex_encode bytes) in
    do* poke (c_p c) digits in
    do* goto (c_p c + zlen digits) in ret true.

(** ** Whole notes *)

(** Number of bytes written, 0 on failure. *)
Definition written (ok : CM bool) : CM Z :=
  let* b := ok in
  let* c := cur in
  ret (if b : bool then c_p c - c_start c else 0).

Definition ndb_event_commitment (nm : mem) (ev : Z) : CM Z :=
  let* pk := lift (loadn nm (ndb_note_pubkey ev) 32) in
  let* pubkey := lift (hex_encode pk) in
  let* created_at := lift (load_u64 nm (ev + off.created_at)) in
  let* kind := lift (load_u32 nm (ev + off.kind)) in
  let timebuf := snprintf_d 16 (u32 created_at) in
  let kindbuf := snprintf_d 16 kind in
  written
    (cursor_push_str (bytes_of "[0," ++ [DQ]) &&*
     cursor_push_str pubkey &&*
     cursor_push_str ([DQ] ++ bytes_of ",") &&*
     cursor_push_str timebuf &&*
     cursor_push_str (bytes_of ",") &&*
     cursor_push_str kindbuf &&*
     cursor_push_str (bytes_of ",") &&*
     cursor_push_json_tags nm ev &&*
     cursor_push_str (bytes_of ",") &&*
     (let* c := lift (read_content nm ev) in cursor_push_jsonstr c) &&*
     cursor_push_str (bytes_of "]")).

Definition ndb_note_json (nm : mem) (note : Z) : CM Z :=
  written
    (cursor_push_str ([123; DQ] ++ bytes_of "id" ++ [DQ; 58; DQ]) &&*
     (let* id := lift (loadn nm (ndb_note_id note) 32) in cursor_push_hex id) &&*
     cursor_push_str ([DQ; 44; DQ] ++ bytes_of "pubkey" ++ [DQ; 58; DQ]) &&*
     (let* pk := lift (loadn nm (ndb_note_pubkey note) 32) in cursor_push_hex pk) &&*
     cursor_push_str ([DQ; 44; DQ] ++ bytes_of "created_at" ++ [DQ; 58]) &&*
     (let* t := lift (ndb_note_created_at nm note) in cursor_push_int_str t) &&*
     cursor_push_str ([44; DQ] ++ bytes_of "kind" ++ [DQ; 58]) &&*
     (let* k := lift (ndb_note_kind nm note) in cursor_push_int_str k) &&*
     cursor_push_str ([44; DQ] ++ bytes_of "tags" ++ [DQ; 58]) &&*
     cursor_push_json_tags nm note &&*
     cursor_push_str ([44; DQ] ++ bytes_of "content" ++ [DQ; 58]) &&*
     (let* c := lift (read_content nm note) in cursor_push_jsonstr c) &&*
     cursor_push_str ([44; DQ] ++ bytes_of "sig" ++ [DQ; 58; DQ]) &&*
     (let* sig := lift (loadn nm (ndb_note_sig note) 64) in cursor_push_hex sig) &&*
     cursor_push_c_str (Some ([DQ] ++ bytes_of "}"))).

(** ** The texts promised *)

Definition esc (c : Z) : list Z :=
  if c =? DQ then [BSL; DQ]
  else if c =? BSL then [BSL; BSL]
  else if c =? 8 then [BSL; 98]
  else if c =? 12 then [BSL; 102]
  else if c =? 10 then [BSL; 110]
  else if c =? 13 then [BSL; 114]
  else if c =? 9 then [BSL; 116]
  else [c].

Definition escape (s : list Z) : list Z := flat_map esc s.
Definition quote (s : list Z) : list Z := [DQ] ++ escape s ++ [DQ].
Definition hexs (bs : list Z) : list Z := default [] (hex_encode bs).

Definition elem_text (e : elem) : list Z :=
  match e with
  | EStr s => quote s
  | EId id => [DQ] ++ hexs id ++ [DQ]
  end.

Fixpoint commas (l : list (list Z)) : list Z :=
  match l with
  | [] => []
  | t :: l => t ++ (if decide (l = []) then [] else [44]) ++ commas l
  end.

Definition tag_text (es : list elem) : list Z :=
  [91] ++ commas (map elem_text es) ++ [93].
Definition tags_text (ts : list (list elem)) : list Z :=
  [91] ++ commas (map tag_text ts) ++ [93].

(** The content of a note, as its accessors give it. *)
Record note_view := mk_view {
  v_id : list Z; v_pubkey : list Z; v_sig : list Z;
  v_created_at : Z; v_kind : Z; v_content : list Z; v_tags : list (list elem) }.

Definition view (m : mem) (note : Z) : option note_view :=
  id ← loadn m (ndb_note_id note) 32;
  pk ← loadn m (ndb_note_pubkey note) 32;
  sig ← loadn m (ndb_note_sig note) 64;
  t ← load_u64 m (note + off.created_at);
  k ← ndb_note_kind m note;
  c ← read_content m note;
  ts ← read_tags m note;
  Some (mk_view id pk sig t k c ts).

Definition commitment_text (v : note_view) : list Z :=
  bytes_of "[0," ++ [DQ] ++ hexs (v_pubkey v) ++ [DQ] ++ bytes_of "," ++
  snprintf_d 16 (u32 (v_created_at v)) ++ bytes_of "," ++
  snprintf_d 16 (v_kind v) ++ bytes_of "," ++
  tags_text (v_tags v) ++ bytes_of "," ++ quote (v_content v) ++ bytes_of "]".

(** The canonical array of a note: numbers in decimal. *)
Definition canonical_text (v : note_view) : list Z :=
  bytes_of "[0," ++ [DQ] ++ hexs (v_pubkey v) ++ [DQ] ++ bytes_of "," ++ dec (v_created_at v) ++ bytes_of "," ++ dec (v_kind v) ++
  bytes_of "," ++ tags_text (v_tags v) ++ bytes_of "," ++ quote (v_content v) ++ bytes_of "]".

Definition note_text (v : note_view) : list Z :=
  [123; DQ] ++ bytes_of "id" ++ [DQ; 58; DQ] ++ hexs (v_id v) ++
  [DQ; 44; DQ] ++ bytes_of "pubkey" ++ [DQ; 58; DQ] ++ hexs (v_pubkey v) ++
  [DQ; 44; DQ] ++ bytes_of "created_at" ++ [DQ; 58] ++ dec (u32 (v_created_at v)) ++
  [44; DQ] ++ bytes_of "kind" ++ [DQ; 58] ++ dec (v_kind v) ++
  [44; DQ] ++ bytes_of "tags" ++ [DQ; 58] ++ tags_text (v_tags v) ++
  [44; DQ] ++ bytes_of "content" ++ [DQ; 58] ++ quote (v_content v) ++
  [44; DQ] ++ bytes_of "sig" ++ [DQ; 58; DQ] ++ hexs (v_sig v) ++
  [DQ] ++ bytes_of "}".

(** ** Writers that need exactly the room of what they write *)

Abbreviation Exact w d := (Emits w d (zlen (A := Z) d)).

Lemma Exact_andM w1 w2 d1 d2 :
  Exact w1 d1 -> Exact w2 d2 -> Exact (w1 &&* w2) (d1 ++ d2).
Proof.
  intros E1 E2. eapply emits_weaken_eq; [reflexivity | | by apply Emits_andM]. zl.
Qed.

Lemma Exact_nil : Exact (ret true) [].
Proof. apply Emits_ret_true. Qed.

Lemma Emits_lift {A} (o : option A) (a : A) (k : A -> CM bool) d r :
  o = Some a -> Emits (k a) d r -> Emits (let* x := lift o in k x) d r.
Proof. intros ->. done. Qed.

Lemma Exact_byte b : Exact (cursor_push_byte b) [b].
Proof. apply Emits_push_byte. Qed.

Lemma Exact_str d : Exact (cursor_push_str d) d.
Proof. apply Emits_push_str. Qed.

Lemma Exact_eq w d d' : Exact w d -> d = d' -> Exact w d'.
Proof. by intros ? ->. Qed.

Create HintDb emits.
#[export] Hint Resolve Exact_andM Exact_nil Exact_byte Exact_str : emits.

(** Compute what a sequence of writers emits, up to associativity. *)
Ltac emits :=
  eapply Exact_eq; [eauto 30 with emits | rewrite <- ?app_assoc; reflexivity].

Lemma Exact_escaped_char c : Exact (cursor_push_escaped_char c) (esc c).
Proof.
  unfold cursor_push_escaped_char, esc.
  repeat (destruct (_ =? _); [apply Exact_str |]). apply Exact_byte.
Qed.

Lemma Exact_jsonstr s : Exact (cursor_push_jsonstr s) (quote s).
Proof.
  assert (Exact (push_escaped_loop s) (escape s)).
  { induction s; simpl; auto using Exact_escaped_char with emits. }
  unfold cursor_push_jsonstr, quote. emits.
Qed.

Lemma hexs_spec bs : bytes_ok bs -> hex_encode bs = Some (hexs bs) /\ zlen (hexs bs) = 2 * zlen bs.
Proof.
  intros H. unfold hexs. destruct (hex_encode_decode bs H) as (h & -> & ? & _). done.
Qed.

Lemma push_hex_loop_spec bs : bytes_ok bs -> Exact (push_hex_loop bs) (hexs bs).
Proof.
  induction 1 as [| b bs Hb Hbs IH]; [apply Exact_nil |].
  destruct (hex_byte b Hb) as (h & l & E1 & E2 & _).
  destruct (hexs_spec bs Hbs) as [E3 _].
  cbn [push_hex_loop]. apply (Emits_lift _ h); [done |]. apply (Emits_lift _ l); [done |].
  unfold hexs. cbn [hex_encode]. rewrite E1, E2. cbn [mbind option_bind]. rewrite E3.
  change (default [] (Some (h :: l :: hexs bs))) with ([h] ++ [l] ++ hexs bs). emits.
Qed.

Lemma Exact_hex_str id :
  bytes_ok id -> zlen id = 32 -> Exact (cursor_push_hex_str id) ([DQ] ++ hexs id ++ [DQ]).
Proof.
  intros H L. unfold cursor_push_hex_str. rewrite L. simpl negb. cbv iota.
  pose proof (push_hex_loop_spec id H). emits.
Qed.

Lemma Emits_push_hex bs :
  bytes_ok bs -> Emits (cursor_push_hex bs) (hexs bs) (2 * zlen bs + 1).
Proof.
  intros Hb. destruct (hexs_spec bs Hb) as [E L].
  split; [lia | |]; intros [m c] W Hr; simpl in Hr; unfold cursor_push_hex; rewrite bind_cur.
  - destruct (Z.leb_spec (c_end c) (c_p c + zlen bs * 2)); [lia |].
    pose proof W as (?&?&?). simpl in *. rewrite E.
    destruct (storen_in_range m (c_p c) (hexs bs)) as [m' E']; [lia | lia |].
    exists (m', set_p c (c_p c + zlen (hexs bs))). split; [| done].
    unfold lift, bind at 1. by rewrite (bind_poke _ _ _ _ _ _ E'), bind_goto.
  - destruct (Z.leb_spec (c_end c) (c_p c + zlen bs * 2)); [| lia].
    eexists. split; [reflexivity | by apply frame_refl].
Qed.

(** ** Tags *)

Lemma loadn_bytes_ok m a n l : bytes_ok m -> loadn m a n = Some l -> bytes_ok l.
Proof.
  intros H (?&?&?&->)%loadn_Some. unfold bytes_ok in *. by apply Forall_take, Forall_drop.
Qed.

Lemma load_u16_range m a v : bytes_ok m -> load_u16 m a = Some v -> 0 <= v < 2 ^ 16.
Proof.
  unfold load_u16. intros H E. destruct (loadn m a 2) as [l |] eqn:L; simpl in E; [| done].
  injection E as <-. pose proof (le_int_range l (loadn_bytes_ok _ _ _ _ H L)).
  rewrite (loadn_length _ _ _ _ L) in *. done.
Qed.

Section tags.
Context (nm : mem) (Hnm : bytes_ok nm).

Lemma Exact_json_tag_str s e :
  elem_of_str nm s = Some e -> Exact (cursor_push_json_tag_str nm s) (elem_text e).
Proof.
  unfold elem_of_str, cursor_push_json_tag_str. intros H.
  destruct (flag s =? NDB_PACKED_ID).
  - destruct (loadn nm (str s) 32) as [id |] eqn:E; simpl in H; [| done]. injection H as <-.
    apply (Emits_lift _ id); [done |].
    apply Exact_hex_str; [by eapply loadn_bytes_ok | by apply loadn_length in E].
  - destruct (c_string nm (str s)) as [t |] eqn:E; simpl in H; [| done]. injection H as <-.
    apply (Emits_lift _ t); [done |]. apply Exact_jsonstr.
Qed.

Lemma push_json_tag_loop_spec note tag n k : forall es i,
  ndb_tag_count nm tag = Some n ->
  mapM (fun j => s ← ndb_tag_str nm note tag j; elem_of_str nm s) (seqZ i (Z.of_nat k)) = Some es ->
  i + Z.of_nat k = n ->
  Exact (push_json_tag_loop k nm note tag i) (commas (map elem_text es)).
Proof.
  induction k as [| k IH]; intros es i C H Hn.
  - simpl in H. injection H as <-. apply Exact_nil.
  - rewrite Nat2Z.inj_succ, seqZ_cons in H by lia. simpl in H.
    rewrite Z.pred_succ in H.
    destruct (ndb_tag_str nm note tag i) as [s |] eqn:E1; simpl in H; [| done].
    destruct (elem_of_str nm s) as [e |] eqn:E2; simpl in H; [| done].
    destruct (mapM _ (seqZ (Z.succ i) _)) as [es' |] eqn:E3; simpl in H; [| done].
    injection H as <-.
    pose proof (length_mapM _ _ _ E3) as L. rewrite length_seqZ in L.
    cbn [push_json_tag_loop map commas].
    apply (Emits_lift _ s); [done |]. apply (Emits_lift _ n); [done |].
    specialize (IH es' (i + 1) C E3 ltac:(lia)).
    rewrite app_assoc. apply Exact_andM; [| done].
    apply Exact_andM; [by apply Exact_json_tag_str |].
    destruct (Z.eqb_spec i (n - 1)); destruct (decide (map elem_text es' = [])) as [Hm | Hm];
      cbn [negb]; try (apply Exact_nil || apply Exact_byte); exfalso.
    + apply Hm. destruct es'; [done |]. simpl in L. lia.
    + apply map_eq_nil in Hm. subst es'. simpl in L. lia.
Qed.

Lemma Exact_json_tag note tag es :
  read_tag nm note tag = Some es -> Exact (cursor_push_json_tag nm note tag) (tag_text es).
Proof.
  unfold read_tag, cursor_push_json_tag. intros H.
  destruct (ndb_tag_count nm tag) as [n |] eqn:E; simpl in H; [| done].
  apply (Emits_lift _ n); [done |].
  pose proof (load_u16_range _ _ _ Hnm E).
  unfold tag_text, tags_text. rewrite app_assoc.
  apply Exact_andM; [| apply Exact_byte]. apply Exact_andM; [apply Exact_byte |].
  apply push_json_tag_loop_spec with (n := n); [done | | lia]. by rewrite Z2Nat.id by lia.
Qed.

(** The loop prints what [read_tags_loop] reads; it stops when the iterator
    has passed the last tag. *)
Lemma push_json_tags_loop_spec note count fuel : forall it i ts,
  ndb_tags_count nm (ndb_note_tags note) = Some count ->
  iter_note it = note ->
  i = (match iter_tag it with None => 0 | Some _ => iter_index it + 1 end) ->
  0 <= i -> (forall t, iter_tag it = Some t -> 0 <= iter_index it) ->
  read_tags_loop fuel nm it = Some ts ->
  zlen ts = Z.max 0 (count - i) /\
  Exact (push_json_tags_loop fuel nm note it i) (commas (map tag_text ts)).
Proof.
  induction fuel as [| fuel IH]; intros it i ts C En Ei Hi Hx H; [done |].
  cbn [read_tags_loop] in H. cbn [push_json_tags_loop].
  destruct (ndb_tags_iterate_next nm it) as [[more it'] |] eqn:E; simpl in H; [| done].
  pose proof (load_u16_range _ _ _ Hnm C).
  assert (N : more = (i <? count) /\ iter_note it' = note /\ (more = true -> iter_index it' = i)
              /\ exists t, iter_tag it' = Some t).
  { unfold ndb_tags_iterate_next in E. rewrite En, C in E. cbn [mbind option_bind] in E.
    destruct (iter_tag it) as [t |].
    - specialize (Hx t eq_refl). destruct (Z.eqb_spec (iter_index it) (-1)); [lia |].
      rewrite <- Ei in E. destruct (Z.ltb_spec i count).
      + destruct (ndb_tag_count nm t); simpl in E; [| done]. injection E as <- <-.
        simpl. eauto.
      + injection E as <- <-. simpl. eauto.
    - injection E as <- <-. subst i. simpl. split; [| eauto].
      destruct (Z.eqb_spec count 0), (Z.ltb_spec 0 count); simpl; try done; lia. }
  destruct N as (-> & N2 & N3 & t & N4).
  destruct (Z.ltb_spec i count) as [Hlt | Hge].
  - rewrite N4 in H. simpl in H.
    destruct (read_tag nm (iter_note it) t) as [es |] eqn:Et; simpl in H; [| done].
    destruct (read_tags_loop fuel nm it') as [ts' |] eqn:El; simpl in H; [| done].
    injection H as <-. specialize (N3 eq_refl).
    destruct (IH it' (i + 1) ts' C N2) as [L X]; try done; try lia.
    { rewrite N4, N3. done. }
    split; [rewrite zlen_cons, L; lia |]. rewrite En in Et.
    apply (Emits_lift _ (true, it')); [done |]. cbv beta iota.
    apply (Emits_lift _ t); [done |]. apply (Emits_lift _ count); [done |].
    cbn [map commas]. rewrite app_assoc. apply Exact_andM; [| done].
    apply Exact_andM; [by apply Exact_json_tag |].
    destruct (Z.eqb_spec i (count - 1)); destruct (decide (map tag_text ts' = [])) as [Hm | Hm];
      cbn [negb]; try (apply Exact_nil || apply Exact_str); exfalso.
    + apply Hm. destruct ts'; [done |]. rewrite zlen_cons in L. zl.
    + apply map_eq_nil in Hm. subst ts'. rewrite zlen_nil in L. lia.
  - injection H as <-. split; [rewrite zlen_nil; lia |].
    apply (Emits_lift _ (false, it')); [done | apply Exact_nil].
Qed.

Lemma Exact_json_tags note ts :
  read_tags nm note = Some ts -> Exact (cursor_push_json_tags nm note) (tags_text ts).
Proof.
  unfold read_tags, cursor_push_json_tags. intros H.
  destruct (ndb_tags_count nm (ndb_note_tags note)) as [n |] eqn:E; simpl in H; [| done].
  apply (Emits_lift _ n); [done |].
  unfold tag_text, tags_text. rewrite app_assoc.
  apply Exact_andM; [| apply Exact_byte]. apply Exact_andM; [apply Exact_byte |].
  by eapply (push_json_tags_loop_spec note n).
Qed.
End tags.

(** ** Decimal numbers *)

Lemma dec_loop_zlen fuel : forall n k,
  0 <= n < 10 ^ Z.of_nat k -> (0 < k)%nat -> zlen (dec_loop fuel n) <= Z.of_nat k.
Proof.
  induction fuel as [| fuel IH]; intros n k Hn Hk; [simpl; zl |].
  cbn [dec_loop]. destruct (Z.ltb_spec n 10); [zl |].
  destruct k as [| [| k]]; [lia | change (10 ^ Z.of_nat 1) with 10 in Hn; lia |].
  rewrite zlen_app. specialize (IH (n / 10) (S k)).
  rewrite Nat2Z.inj_succ, Z.pow_succ_r in Hn by lia.
  assert (0 <= n / 10 < 10 ^ Z.of_nat (S k)).
  { split; [apply Z.div_pos; lia | apply Z.div_lt_upper_bound; lia]. }
  specialize (IH ltac:(assumption) ltac:(lia)). zl.
Qed.

Lemma dec_u32_zlen n : 0 <= n < 2 ^ 32 -> zlen (dec n) <= 10.
Proof. intros H. apply (dec_loop_zlen 20 n 10); [| lia]. change (Z.of_nat 10) with 10. lia. Qed.

Lemma snprintf_u64_u32 n : 0 <= n < 2 ^ 32 -> snprintf_u64 16 n = dec n.
Proof.
  intros H. unfold snprintf_u64, u64. rewrite Z.mod_small by lia.
  apply take_ge. pose proof (dec_u32_zlen n H). unfold zlen in *. lia.
Qed.

Lemma snprintf_d_u32 n :
  0 <= n < 2 ^ 32 ->
  snprintf_d 16 n = if n <? 2 ^ 31 then dec n else [45] ++ dec (2 ^ 32 - n).
Proof.
  intros H. unfold snprintf_d, i32.
  destruct (Z.ltb_spec n (2 ^ 31)) as [L | L].
  - rewrite Z.mod_small by lia. replace (n + 2 ^ 31 - 2 ^ 31) with n by lia.
    destruct (Z.ltb_spec n 0); [lia |]. apply take_ge.
    pose proof (dec_u32_zlen n H). unfold zlen in *. lia.
  - replace ((n + 2 ^ 31) mod 2 ^ 32) with (n - 2 ^ 31).
    2: { replace (n + 2 ^ 31) with (n - 2 ^ 31 + 1 * 2 ^ 32) by lia.
         rewrite Z.mod_add by lia. rewrite Z.mod_small by lia. done. }
    replace (n - 2 ^ 31 - 2 ^ 31) with (n - 2 ^ 32) by lia.
    destruct (Z.ltb_spec (n - 2 ^ 32) 0); [| lia].
    replace (- (n - 2 ^ 32)) with (2 ^ 32 - n) by lia. simpl app.
    apply take_ge. pose proof (dec_u32_zlen (2 ^ 32 - n) ltac:(lia)).
    unfold zlen in *. simpl. lia.
Qed.

(** ** Whole notes *)

Lemma written_spec w d r s :
  Emits w d r -> cwf s -> c_p (snd s) = c_start (snd s) ->
  (c_p (snd s) + r <= c_end (snd s) ->
    exists s', written w s = Some (zlen d, s') /\ pushed s d s') /\
  (c_end (snd s) < c_p (snd s) + r ->
    exists s', written w s = Some (0, s') /\ frame s s').
Proof.
  intros [R O F] W Hp. split; intros Hr.
  - destruct (O s W Hr) as ([m' c'] & E & P). exists (m', c'). split; [| done].
    unfold written. rewrite (run_bind _ _ _ _ _ E), bind_cur. unfold ret.
    destruct P as [_ P]. simpl in P. subst c'. simpl. do 2 f_equal. lia.
  - destruct (F s W Hr) as ([m' c'] & E & P). exists (m', c'). split; [| done].
    unfold written. by rewrite (run_bind _ _ _ _ _ E), bind_cur.
Qed.

Lemma load_u32_range m a v : bytes_ok m -> load_u32 m a = Some v -> 0 <= v < 2 ^ 32.
Proof.
  unfold load_u32. intros H E. destruct (loadn m a 4) as [l |] eqn:L; simpl in E; [| done].
  injection E as <-. pose proof (le_int_range l (loadn_bytes_ok _ _ _ _ H L)).
  rewrite (loadn_length _ _ _ _ L) in *. done.
Qed.

(** What the accessors return for a note with a view. *)
Lemma view_inv m note v :
  view m note = Some v ->
  loadn m (ndb_note_id note) 32 = Some (v_id v) /\
  loadn m (ndb_note_pubkey note) 32 = Some (v_pubkey v) /\
  loadn m (ndb_note_sig note) 64 = Some (v_sig v) /\
  load_u64 m (note + off.created_at) = Some (v_created_at v) /\
  ndb_note_kind m note = Some (v_kind v) /\
  read_content m note = Some (v_content v) /\ read_tags m note = Some (v_tags v).
Proof.
  unfold view. intros H.
  repeat match type of H with
  | mbind _ ?o = Some _ => destruct o eqn:?; cbn [mbind option_bind] in H; [| discriminate H]
  end. by injection H as <-.
Qed.

Lemma Emits_room w d d' r r' : Emits w d r -> d = d' -> r = r' -> Emits w d' r'.
Proof. by intros ? -> ->. Qed.

Lemma bind_lift {A B} (o : option A) a (k : A -> CM B) s :
  o = Some a -> bind (lift o) k s = k a s.
Proof. by intros ->. Qed.

Lemma ndb_event_commitment_spec nm ev v s :
  bytes_ok nm -> view nm ev = Some v -> cwf s -> c_p (snd s) = c_start (snd s) ->
  let d := commitment_text v in
  (c_p (snd s) + zlen d <= c_end (snd s) ->
    exists s', ndb_event_commitment nm ev s = Some (zlen d, s') /\ pushed s d s') /\
  (c_end (snd s) < c_p (snd s) + zlen d ->
    exists s', ndb_event_commitment nm ev s = Some (0, s') /\ frame s s').
Proof.
  intros Hnm Hv W Hp d.
  destruct (view_inv _ _ _ Hv) as (_ & Epk & _ & Et & Ek & Ec & Ets).
  destruct (hexs_spec (v_pubkey v) (loadn_bytes_ok _ _ _ _ Hnm Epk)) as [Eh _].
  unfold ndb_note_kind in Ek.
  pose proof (Exact_json_tags nm Hnm ev _ Ets).
  assert (Exact (let* c := lift (read_content nm ev) in cursor_push_jsonstr c) (quote (v_content v))).
  { apply (Emits_lift _ (v_content v)); [done |]. apply Exact_jsonstr. }
  unfold ndb_event_commitment.
  rewrite (bind_lift _ _ _ s Epk), (bind_lift _ _ _ s Eh), (bind_lift _ _ _ s Et),
    (bind_lift _ _ _ s Ek).
  apply (written_spec _ d); [| done | done].
  subst d. unfold commitment_text. emits.
Qed.

Lemma ndb_note_json_spec nm note v s :
  bytes_ok nm -> view nm note = Some v -> cwf s -> c_p (snd s) = c_start (snd s) ->
  let d := note_text v ++ [0] in
  (c_p (snd s) + zlen d <= c_end (snd s) ->
    exists s', ndb_note_json nm note s = Some (zlen d, s') /\ pushed s d s') /\
  (c_end (snd s) < c_p (snd s) + zlen d ->
    exists s', ndb_note_json nm note s = Some (0, s') /\ frame s s').
Proof.
  intros Hnm Hv W Hp d.
  destruct (view_inv _ _ _ Hv) as (Eid & Epk & Esig & Et & Ek & Ec & Ets).
  apply (written_spec _ d); [| done | done].
  pose proof (Exact_json_tags nm Hnm note _ Ets).
  assert (H2 : Exact (let* c := lift (read_content nm note) in cursor_push_jsonstr c) (quote (v_content v))).
  { apply (Emits_lift _ (v_content v)); [done |]. apply Exact_jsonstr. }
  assert (H3 : Exact (let* t := lift (ndb_note_created_at nm note) in cursor_push_int_str t)
            (dec (u32 (v_created_at v)))).
  { apply (Emits_lift _ (u32 (v_created_at v))).
    - unfold ndb_note_created_at. by rewrite Et.
    - unfold cursor_push_int_str. rewrite snprintf_u64_u32 by (apply Z.mod_pos_bound; lia).
      apply Exact_str. }
  assert (H4 : Exact (let* k := lift (ndb_note_kind nm note) in cursor_push_int_str k)
            (dec (v_kind v))).
  { apply (Emits_lift _ (v_kind v)); [done |]. unfold cursor_push_int_str.
    rewrite snprintf_u64_u32 by (by eapply load_u32_range). apply Exact_str. }
  assert (Hex : forall a n bs, loadn nm a n = Some bs ->
    Emits (let* x := lift (loadn nm a n) in cursor_push_hex x) (hexs bs) (zlen (hexs bs) + 1)).
  { intros a n bs E. pose proof (loadn_bytes_ok _ _ _ _ Hnm E) as B.
    apply (Emits_lift _ bs); [done |]. destruct (hexs_spec bs B) as [_ ->].
    by apply Emits_push_hex. }
  pose proof (Hex _ _ _ Eid). pose proof (Hex _ _ _ Epk). pose proof (Hex _ _ _ Esig).
  unfold d, note_text. eapply Emits_room.
  - eauto 60 using Emits_andM, Exact_str, Emits_push_c_str.
  - rewrite <- ?app_assoc. reflexivity.
  - zl.
Qed.

(** ** Properties *)

(** Up to second 2^31 and kind 2^31 the conversions of the code are decimal. *)
Lemma commitment_canonical v : 0 <= v_created_at v < 2 ^ 31 -> 0 <= v_kind v < 2 ^ 31 -> commitment_text v = canonical_text v.
Proof.
  intros Ht Hk. unfold commitment_text, canonical_text. replace (u32 (v_created_at v)) with (v_created_at v) by (symmetry; apply Z.mod_small; lia).
  rewrite !snprintf_d_u32 by lia. destruct (Z.ltb_spec (v_created_at v) (2 ^ 31)), (Z.ltb_spec (v_kind v) (2 ^ 31)); (lia || done).
Qed.

(** C11: The event commitment, the text that is hashed into a note's id, is
    exactly the canonical array of NIP-01, for a note created before second 2^31
    whose kind is below 2^31 and whose accessors give the view [v]: zero, the
    author in hex, the time and the kind in decimal, the tags and the content.  The
    writer returns its length and has written it and nothing else whenever the
    buffer can hold it; otherwise it returns 0.  No access is out of bounds
    either way. *)
Theorem event_commitment_exact (nm : mem) (ev : Z) (v : note_view) (s : mem * cursor)
    (Hb : bytes_ok nm) (Hv : view nm ev = Some v) (Hs : cwf s)
    (Ht : 0 <= v_created_at v < 2 ^ 31) (Hk : 0 <= v_kind v < 2 ^ 31)
    (Hp : c_p (snd s) = c_start (snd s)) :
  exists n s', ndb_event_commitment nm ev s = Some (n, s') /\ frame s s' /\
    (if decide (c_p (snd s) + zlen (canonical_text v) <= c_end (snd s))
     then n = zlen (canonical_text v) /\
          loadn (fst s') (c_start (snd s)) n = Some (canonical_text v)
     else n = 0).
Proof.
  rewrite <- (commitment_canonical v Ht Hk). destruct (ndb_event_commitment_spec nm ev v s Hb Hv Hs Hp) as [A B].
  destruct (decide _) as [Hr | Hr].
  - destruct (A Hr) as (s' & E & P). exists (zlen (commitment_text v)), s'.
    split; [done |]. split; [eapply pushed_frame; eauto; lia |]. split; [done |].
    rewrite <- Hp. by apply pushed_loadn.
  - destruct (B ltac:(lia)) as (s' & E & F). eauto.
Qed.

(** A note of kind 1 with one tag p and content hi, created at a second. *)
Definition note_created (t : Z) : mem :=
  [1; 0; 0; 0] ++ replicate 32 0xaa ++ replicate 32 0xbb ++ replicate 64 0xcc ++
  le_bytes 8 t ++ le_bytes 4 1 ++ le_bytes 4 2 ++ [104; 105; 0; 1] ++
  le_bytes 4 170 ++ [0; 0] ++ le_bytes 2 1 ++
  le_bytes 2 2 ++ [112; 0; 0; 1] ++ le_bytes 4 (2 * 2 ^ 24) ++ replicate 32 7 ++ [0].

Definition view_created (t : Z) : note_view :=
  mk_view (replicate 32 0xaa) (replicate 32 0xbb) (replicate 64 0xcc) t 1
    [104; 105] [[EStr [112]; EId (replicate 32 7)]].

(** Created at second 2^31. *)
Definition demo_note : mem := note_created (2 ^ 31).
Definition demo_view : note_view := view_created (2 ^ 31).

Lemma demo_note_view : view demo_note 0 = Some demo_view.
Proof. vm_compute. reflexivity. Qed.

Lemma demo_note_bytes : bytes_ok demo_note.
Proof.
  unfold bytes_ok. apply List.Forall_forall. intros x Hx.
  assert (H : forallb (fun b => (0 <=? b) && (b <? 256)) demo_note = true) by (vm_compute; done).
  rewrite forallb_forall in H. specialize (H x Hx). apply andb_true_iff in H as [??].
  unfold is_byte. lia.
Qed.

(** In the year 2023. *)
Definition note_2023 : mem := note_created 1700000000.
Definition view_2023 : note_view := view_created 1700000000.

Lemma note_2023_bytes : bytes_ok note_2023.
Proof.
  unfold bytes_ok. apply List.Forall_forall. intros x Hx.
  assert (H : forallb (fun b => (0 <=? b) && (b <? 256)) note_2023 = true) by (vm_compute; done).
  rewrite forallb_forall in H. specialize (H x Hx). apply andb_true_iff in H as [??].
  unfold is_byte. lia.
Qed.

Lemma event_commitment_exact_witness :
  exists n s', ndb_event_commitment note_2023 0 (demo_cursor 200) = Some (n, s') /\
    n = 163 /\ loadn (fst s') 0 n = Some (canonical_text view_2023).
Proof.
  destruct (event_commitment_exact note_2023 0 view_2023 (demo_cursor 200)
    note_2023_bytes ltac:(vm_compute; reflexivity) (demo_cwf 200) ltac:(cbn; lia) ltac:(cbn; lia) eq_refl) as (n & s' & E & _ & H).
  exists n, s'. split; [exact E |].
  destruct (decide _) as [d | d]; [exact (conj (eq_trans (proj1 H) ltac:(vm_compute; reflexivity)) (proj2 H)) |].
  exfalso. apply d. vm_compute. discriminate.
Defined.

(** From second 2^31 on, the commitment writes a negative timestamp: the
    32-bit unsigned [created_at] is printed with a signed conversion.  The
    comment says the field is good until 2106, and [ndb_note_json] does print
    the same timestamp as the positive number. *)
Theorem commitment_time_negative (v : note_view) (Ht : 2 ^ 31 <= v_created_at v < 2 ^ 32) :
  commitment_text v =
    bytes_of "[0," ++ [DQ] ++ hexs (v_pubkey v) ++ [DQ] ++ bytes_of "," ++
    [45] ++ dec (2 ^ 32 - v_created_at v) ++ bytes_of "," ++
    snprintf_d 16 (v_kind v) ++ bytes_of "," ++
    tags_text (v_tags v) ++ bytes_of "," ++ quote (v_content v) ++ bytes_of "]" /\
  snprintf_u64 16 (u32 (v_created_at v)) = dec (v_created_at v).
Proof.
  assert (E : u32 (v_created_at v) = v_created_at v) by (apply Z.mod_small; lia).
  split.
  - unfold commitment_text. rewrite E, snprintf_d_u32 by lia.
    destruct (Z.ltb_spec (v_created_at v) (2 ^ 31)); [lia |]. by rewrite <- !app_assoc.
  - rewrite E. apply snprintf_u64_u32. lia.
Qed.

Lemma commitment_time_negative_witness :
  2 ^ 31 <= v_created_at demo_view < 2 ^ 32 /\
  snprintf_u64 16 (u32 (v_created_at demo_view)) = dec (v_created_at demo_view).
Proof.
  assert (H : 2 ^ 31 <= v_created_at demo_view < 2 ^ 32) by (cbn; lia).
  split; [exact H | exact (proj2 (commitment_time_negative demo_view H))].
Defined.

(** C12: The JSON of a note is exactly [note_text] and a NUL: the writer
    returns its length and has written it whenever the buffer can hold it, and
    returns 0 otherwise; no access is out of bounds either way. *)
Theorem note_json_exact (nm : mem) (note : Z) (v : note_view) (s : mem * cursor)
    (Hb : bytes_ok nm) (Hv : view nm note = Some v) (Hs : cwf s)
    (Hp : c_p (snd s) = c_start (snd s)) :
  exists n s', ndb_note_json nm note s = Some (n, s') /\ frame s s' /\
    (if decide (c_p (snd s) + zlen (note_text v) + 1 <= c_end (snd s))
     then n = zlen (note_text v) + 1 /\
          loadn (fst s') (c_start (snd s)) n = Some (note_text v ++ [0])
     else n = 0).
Proof.
  destruct (ndb_note_json_spec nm note v s Hb Hv Hs Hp) as [A B].
  assert (L : zlen (note_text v ++ [0]) = zlen (note_text v) + 1) by zl. rewrite L in A, B.
  destruct (decide _) as [Hr | Hr].
  - destruct (A ltac:(lia)) as (s' & E & P). exists (zlen (note_text v) + 1), s'.
    split; [done |]. split; [eapply pushed_frame; eauto; lia |]. split; [done |].
    rewrite <- Hp, <- L. by apply pushed_loadn.
  - destruct (B ltac:(lia)) as (s' & E & F). eauto.
Qed.

Lemma note_json_exact_witness :
  exists n s', ndb_note_json demo_note 0 (demo_cursor 500) = Some (n, s') /\
    loadn (fst s') 0 n = Some (note_text demo_view ++ [0]).
Proof.
  destruct (note_json_exact demo_note 0 demo_view (demo_cursor 500)
    demo_note_bytes demo_note_view (demo_cwf 500) eq_refl) as (n & s' & E & _ & H).
  exists n, s'. split; [exact E |].
  destruct (decide _) as [d | d]; [exact (proj2 H) |].
  exfalso. apply d. vm_compute. discriminate.
Defined.
