(* ===== verification/Json.v ===== *)
(** * The JSON tokenizer (src/src/jsmn.h)

    jsmn turns a text into an array of tokens in the order they begin, each with
    the range of the text it covers, the number of its children and the index of
    its parent; nostrdb builds it with JSMN_STRICT and JSMN_PARENT_LINKS, and
    always passes it room for tokens.  The tokens in use are the list [tokens],
    so [toknext] is its length; reading past it would read memory nothing has
    written, and is undefined here.  The text is a list of bytes with its length.

    Two things are proved.  Any text at all leaves a forest of tokens in
    preorder ([forest]), in as many rounds as it has bytes.  The text of a value
    ([text]) gives exactly the tokens of the value ([toks]). *)

From Stdlib Require Import String.
From S2P Require Export NoteJson.

(** ** Tokens and the parser *)

Inductive jsmntype :=
| JSMN_UNDEFINED | JSMN_OBJECT | JSMN_ARRAY | JSMN_STRING | JSMN_PRIMITIVE.

#[export] Instance jsmntype_eq_dec : EqDecision jsmntype.
Proof. solve_decision. Defined.

Record jsmntok := mk_tok {
  tk_type : jsmntype; tk_start : Z; tk_end : Z; tk_size : Z; tk_parent : Z }.

Record jsmn_parser := mk_parser {
  jp_pos : Z; jp_toksuper : Z; jp_tokens : list jsmntok }.

Definition JSMN_ERROR_NOMEM : Z := -1.
Definition JSMN_ERROR_INVAL : Z := -2.
Definition JSMN_ERROR_PART : Z := -3.

Definition JM (A : Type) : Type := M jsmn_parser A.

Definition set_pos (i : Z) : JM unit :=
  let* p := get in put (mk_parser i (jp_toksuper p) (jp_tokens p)).
Definition set_toksuper (i : Z) : JM unit :=
  let* p := get in put (mk_parser (jp_pos p) i (jp_tokens p)).
Definition the_pos : JM Z := let* p := get in ret (jp_pos p).
Definition the_toksuper : JM Z := let* p := get in ret (jp_toksuper p).
Definition toknext : JM Z := let* p := get in ret (zlen (jp_tokens p)).
Definition incr_pos : JM unit := let* i := the_pos in set_pos (i + 1).
Definition decr_pos : JM unit := let* i := the_pos in set_pos (i - 1).

(** [tokens[i]]. *)
Definition tok_at (ts : list jsmntok) (i : Z) : option jsmntok :=
  if 0 <=? i then ts !! Z.to_nat i else None.
Definition token (i : Z) : JM jsmntok := let* p := get in lift (tok_at (jp_tokens p) i).
Definition set_token (i : Z) (t : jsmntok) : JM unit :=
  do* token i in
  let* p := get in
  put (mk_parser (jp_pos p) (jp_toksuper p) (<[Z.to_nat i := t]> (jp_tokens p))).

Definition incr_size (i : Z) : JM unit :=
  let* t := token i in
  set_token i (mk_tok (tk_type t) (tk_start t) (tk_end t) (tk_size t + 1) (tk_parent t)).

(** A token begun and not ended. *)
Definition unclosed (t : jsmntok) : bool := negb (tk_start t =? -1) && (tk_end t =? -1).

(** ** Scanning *)

Definition prim_end (c : Z) : bool :=
  (c =? 9) || (c =? 13) || (c =? 10) || (c =? 32) || (c =? 44) || (c =? 93) || (c =? 125).

Definition is_hexdigit (c : Z) : bool :=
  ((48 <=? c) && (c <=? 57)) || ((65 <=? c) && (c <=? 70)) || ((97 <=? c) && (c <=? 102)).

Definition escapable (c : Z) : bool :=
  (c =? DQ) || (c =? 47) || (c =? BSL) || (c =? 98) || (c =? 102) || (c =? 114) ||
  (c =? 110) || (c =? 116).

(** The characters a number, a boolean or null begins with. *)
Definition prim_start (c : Z) : bool :=
  (c =? 45) || ((48 <=? c) && (c <=? 57)) || (c =? 116) || (c =? 102) || (c =? 110).

Definition is_space (c : Z) : bool := (c =? 9) || (c =? 13) || (c =? 10) || (c =? 32).

Section jsmn.
Variables (js : list Z) (num_tokens : Z).

(** The character at the position, if there is one before the end and it is
    not a NUL: the condition of every loop. *)
Definition peek : JM (option Z) :=
  let* i := the_pos in
  ret (match load8 js i with Some c => if c =? 0 then None else Some c | None => None end).

Definition jsmn_alloc_token : JM (option Z) :=
  let* p := get in
  if num_tokens <=? zlen (jp_tokens p) then ret None
  else
    do* put (mk_parser (jp_pos p) (jp_toksuper p)
               (jp_tokens p ++ [mk_tok JSMN_UNDEFINED (-1) (-1) 0 (-1)])) in
    ret (Some (zlen (jp_tokens p))).

Definition jsmn_fill_token (i : Z) (type : jsmntype) (start end_ : Z) : JM unit :=
  let* t := token i in set_token i (mk_tok type start end_ 0 (tk_parent t)).

(** Allocating and filling, as both scanners end: back to [start] when there
    is no token left, to the last character of the token otherwise. *)
Definition emit_token (type : jsmntype) (start from : Z) : JM Z :=
  let* i := jsmn_alloc_token in
  match i with
  | None => do* set_pos start in ret JSMN_ERROR_NOMEM
  | Some i =>
      let* pos := the_pos in
      do* jsmn_fill_token i type from pos in
      let* super := the_toksuper in
      let* t := token i in
      do* set_token i (mk_tok (tk_type t) (tk_start t) (tk_end t) (tk_size t) super) in
      ret 0
  end.

(** The loop over a primitive: 1 at the character that ends it. *)
Fixpoint primitive_loop (fuel : nat) : JM Z :=
  match fuel with
  | O => ub
  | S fuel =>
      let* c := peek in
      match c with
      | None => ret JSMN_ERROR_PART
      | Some c =>
          if prim_end c then ret 1
          else if (c <? 32) || (127 <=? c) then ret JSMN_ERROR_INVAL
          else do* incr_pos in primitive_loop fuel
      end
  end.

Definition jsmn_parse_primitive : JM Z :=
  let* start := the_pos in
  let* r := primitive_loop (S (length js)) in
  if r <? 0 then do* set_pos start in ret r
  else
    let* r := emit_token JSMN_PRIMITIVE start start in
    if r <? 0 then ret r else do* decr_pos in ret 0.

(** The digits after a backslash and a u: at most [k] of them. *)
Fixpoint hex_loop (k : nat) : JM bool :=
  match k with
  | O => ret true
  | S k =>
      let* c := peek in
      match c with
      | None => ret true
      | Some c => if is_hexdigit c then do* incr_pos in hex_loop k else ret false
      end
  end.

(** The character after a backslash: whether it may stand there. *)
Definition escape_char : JM bool :=
  do* incr_pos in
  let* i := the_pos in
  let* c := lift (load8 js i) in
  if escapable c then ret true
  else if c =? 117 then
    do* incr_pos in
    let* ok := hex_loop 4 in
    if ok then do* decr_pos in ret true else ret false
  else ret false.

(** The loop over the characters of a string: 1 at the quote that ends it. *)
Fixpoint string_loop (fuel : nat) : JM Z :=
  match fuel with
  | O => ub
  | S fuel =>
      let* c := peek in
      match c with
      | None => ret JSMN_ERROR_PART
      | Some c =>
          let* i := the_pos in
          if c =? DQ then ret 1
          else
            let* ok := (if (c =? BSL) && (i + 1 <? zlen js) then escape_char else ret true) in
            if ok then do* incr_pos in string_loop fuel else ret JSMN_ERROR_INVAL
      end
  end.

Definition jsmn_parse_string : JM Z :=
  let* start := the_pos in
  do* incr_pos in
  let* r := string_loop (S (length js)) in
  if r <? 0 then do* set_pos start in ret r
  else emit_token JSMN_STRING start (start + 1).

(** ** One character of jsmn_parse

    [Done r] leaves with the result [r]; [Next count idkey] goes on to the next
    character with these values of the local variables. *)

Inductive outcome := Done (r : Z) | Next (count idkey : Z).

Definition open_token (c count idkey : Z) : JM outcome :=
  let* i := jsmn_alloc_token in
  match i with
  | None => ret (Done JSMN_ERROR_NOMEM)
  | Some i =>
      let* super := the_toksuper in
      let* ok :=
        (if super =? -1 then ret true
         else
           let* s := token super in
           if decide (tk_type s = JSMN_OBJECT) then ret false
           else
             do* incr_size super in
             let* t := token i in
             do* set_token i (mk_tok (tk_type t) (tk_start t) (tk_end t) (tk_size t) super) in
             ret true) in
      if negb ok then ret (Done JSMN_ERROR_INVAL)
      else
        let* pos := the_pos in
        let* t := token i in
        do* set_token i (mk_tok (if c =? 123 then JSMN_OBJECT else JSMN_ARRAY) pos
                                (tk_end t) (tk_size t) (tk_parent t)) in
        let* n := toknext in
        do* set_toksuper (n - 1) in
        ret (Next (count + 1) idkey)
  end.

(** The loop from the last token through its parents to the one to close. *)
Fixpoint close_loop (fuel : nat) (type : jsmntype) (i : Z) : JM bool :=
  match fuel with
  | O => ub
  | S fuel =>
      let* t := token i in
      if unclosed t then
        if decide (tk_type t = type) then
          let* pos := the_pos in
          do* set_token i (mk_tok (tk_type t) (tk_start t) (pos + 1) (tk_size t) (tk_parent t)) in
          do* set_toksuper (tk_parent t) in
          ret true
        else ret false
      else if tk_parent t =? -1 then
        let* super := the_toksuper in
        ret (bool_decide (tk_type t = type) && negb (super =? -1))
      else close_loop fuel type (tk_parent t)
  end.

Definition close_token (c count idkey : Z) : JM outcome :=
  let* n := toknext in
  if n <? 1 then ret (Done JSMN_ERROR_INVAL)
  else
    let* ok := close_loop (Z.to_nat n) (if c =? 125 then JSMN_OBJECT else JSMN_ARRAY) (n - 1) in
    ret (if ok then Next count idkey else Done JSMN_ERROR_INVAL).

(** A token was added under the current one. *)
Definition count_child : JM unit :=
  let* super := the_toksuper in
  if super =? -1 then ret tt else incr_size super.

Definition string_token (stop_at_id : bool) (count idkey : Z) : JM outcome :=
  let* r := jsmn_parse_string in
  if r <? 0 then ret (Done r)
  else
    do* count_child in
    if stop_at_id then
      let* n := toknext in
      let* t := token (n - 1) in
      if (idkey =? 1) && (tk_end t - tk_start t =? 64) then
        do* incr_pos in ret (Done (-42))
      else if (idkey =? 0) && (tk_end t - tk_start t =? 2) then
        let* c0 := lift (load8 js (tk_start t)) in
        if c0 =? 105 then
          let* c1 := lift (load8 js (tk_start t + 1)) in
          ret (Next (count + 1) (if c1 =? 100 then 1 else idkey))
        else ret (Next (count + 1) idkey)
      else ret (Next (count + 1) idkey)
    else ret (Next (count + 1) idkey).

Definition colon (count idkey : Z) : JM outcome :=
  let* n := toknext in
  do* set_toksuper (n - 1) in ret (Next count idkey).

Definition comma (count idkey : Z) : JM outcome :=
  let* super := the_toksuper in
  if super =? -1 then ret (Next count idkey)
  else
    let* t := token super in
    if bool_decide (tk_type t = JSMN_ARRAY) || bool_decide (tk_type t = JSMN_OBJECT)
    then ret (Next count idkey)
    else do* set_toksuper (tk_parent t) in ret (Next count idkey).

Definition primitive_token (count idkey : Z) : JM outcome :=
  let* super := the_toksuper in
  let* ok :=
    (if super =? -1 then ret true
     else
       let* t := token super in
       ret (negb (bool_decide (tk_type t = JSMN_OBJECT) ||
                  (bool_decide (tk_type t = JSMN_STRING) && negb (tk_size t =? 0))))) in
  if negb ok then ret (Done JSMN_ERROR_INVAL)
  else
    let* r := jsmn_parse_primitive in
    if r <? 0 then ret (Done r) else do* count_child in ret (Next (count + 1) idkey).

Definition jsmn_char (stop_at_id : bool) (c count idkey : Z) : JM outcome :=
  if (c =? 123) || (c =? 91) then open_token c count idkey
  else if (c =? 125) || (c =? 93) then close_token c count idkey
  else if c =? DQ then string_token stop_at_id count idkey
  else if is_space c then ret (Next count idkey)
  else if c =? 58 then colon count idkey
  else if c =? 44 then comma count idkey
  else if prim_start c then primitive_token count idkey
  else ret (Done JSMN_ERROR_INVAL).

(** The end of the text: every token must be closed. *)
Definition finish (count : Z) : JM Z :=
  let* p := get in
  ret (if existsb unclosed (jp_tokens p) then JSMN_ERROR_PART else count).

Fixpoint jsmn_loop (fuel : nat) (stop_at_id : bool) (count idkey : Z) : JM Z :=
  match fuel with
  | O => ub
  | S fuel =>
      let* c := peek in
      match c with
      | None => finish count
      | Some c =>
          let* o := jsmn_char stop_at_id c count idkey in
          match o with
          | Done r => ret r
          | Next count idkey => do* incr_pos in jsmn_loop fuel stop_at_id count idkey
          end
      end
  end.

Definition jsmn_parse (stop_at_id : bool) : JM Z :=
  let* count := toknext in
  jsmn_loop (S (length js)) stop_at_id count 0.

End jsmn.

Definition jsmn_init : jsmn_parser := mk_parser 0 (-1) [].

(** ** Running to a postcondition

    [wp c s Q]: the computation [c] from [s] is defined and ends with [Q]. *)

Definition wp {S A} (c : M S A) (s : S) (Q : A -> S -> Prop) : Prop :=
  match c s with Some (a, s') => Q a s' | None => False end.

Lemma wp_bind {S A B} (c : M S A) (k : A -> M S B) s Q :
  wp c s (fun a s' => wp (k a) s' Q) -> wp (bind c k) s Q.
Proof. unfold wp, bind. by destruct (c s) as [[a s'] |]. Qed.

(** A first step whose result is known. *)
Lemma wp_step {S A B} {c : M S A} {k : A -> M S B} {s a s'} {Q : B -> S -> Prop} :
  c s = Some (a, s') -> wp (k a) s' Q -> wp (bind c k) s Q.
Proof. unfold wp, bind. by intros ->. Qed.

Lemma wp_ret {S A} (a : A) (s : S) (Q : A -> S -> Prop) : Q a s -> wp (ret a) s Q.
Proof. done. Qed.

Lemma wp_mono {S A} (c : M S A) s (P Q : A -> S -> Prop) :
  wp c s P -> (forall a s', P a s' -> Q a s') -> wp c s Q.
Proof. unfold wp. destruct (c s) as [[a s'] |]; auto. Qed.

Lemma wp_lift {S A} (o : option A) a (s : S) (Q : A -> S -> Prop) :
  o = Some a -> Q a s -> wp (lift o) s Q.
Proof. by intros ->. Qed.

Lemma wp_elim {S A} (c : M S A) s Q : wp c s Q -> exists a s', c s = Some (a, s') /\ Q a s'.
Proof. unfold wp. destruct (c s) as [[a s'] |]; [eauto | done]. Qed.

(** ** Forests in preorder

    A forest is the list of the parents of its nodes, -1 for a root, in the
    order of the nodes.  [anc ps i a]: [a] is [i] or above it. *)

Inductive anc (ps : list Z) : Z -> Z -> Prop :=
| anc_refl i : anc ps i i
| anc_up i p a : load8 ps i = Some p -> 0 <= p < i -> anc ps p a -> anc ps i a.

(** Where the next node may hang: nowhere, or on the path to the last node. *)
Definition spine (ps : list Z) (p : Z) : Prop :=
  p = -1 \/ 0 <= p /\ anc ps (zlen ps - 1) p.

Definition preorder (ps : list Z) : Prop :=
  forall i p, load8 ps i = Some p -> p = -1 \/ 0 <= p /\ anc ps (i - 1) p.

Definition children (ps : list Z) (a : Z) : Z := Z.of_nat (count_occ Z.eq_dec ps a).

Lemma anc_le ps i a : anc ps i a -> a <= i.
Proof. induction 1; lia. Qed.

Lemma anc_trans ps i a b : anc ps i a -> anc ps a b -> anc ps i b.
Proof. induction 1; eauto using anc_up. Qed.

Lemma load8_app_l ps qs i p : load8 ps i = Some p -> load8 (ps ++ qs) i = Some p.
Proof.
  intros H. pose proof (load8_Some_range _ _ _ H). rewrite load8_lookup in * by lia.
  by apply lookup_app_l_Some.
Qed.

Lemma load8_app_inv ps qs i p :
  load8 (ps ++ qs) i = Some p -> i < zlen ps -> load8 ps i = Some p.
Proof.
  intros H Hi. pose proof (load8_Some_range _ _ _ H). rewrite load8_lookup in * by lia.
  rewrite lookup_app_l in H by (unfold zlen in *; lia). done.
Qed.

Lemma load8_snoc ps p : load8 (ps ++ [p]) (zlen ps) = Some p.
Proof. rewrite load8_lookup by zl. rewrite to_nat_zlen. by rewrite list_lookup_middle by done. Qed.

Lemma anc_app ps qs i a : anc ps i a -> anc (ps ++ qs) i a.
Proof. induction 1; eauto using anc, load8_app_l. Qed.

Lemma preorder_snoc ps p : preorder ps -> spine ps p -> preorder (ps ++ [p]).
Proof.
  intros Hp Hs i q Hi. pose proof (load8_Some_range _ _ _ Hi). zl.
  destruct (decide (i = zlen ps)) as [-> |].
  - rewrite load8_snoc in Hi. injection Hi as <-.
    destruct Hs as [-> | []]; [by left | right; eauto using anc_app].
  - apply load8_app_inv in Hi; [| lia].
    destruct (Hp i q Hi) as [-> | []]; [by left | right; eauto using anc_app].
Qed.

Lemma spine_last ps : ps <> [] -> spine ps (zlen ps - 1).
Proof. intros. right. destruct ps; [done |]. split; [zl | constructor]. Qed.

(** The parent of a node on the path is on the path. *)
Lemma spine_up ps i p : preorder ps -> spine ps i -> load8 ps i = Some p -> spine ps p.
Proof.
  intros Hp Hs Hi. destruct (Hp _ _ Hi) as [-> | [Hp0 Ha]]; [by left | right; split; [done |]].
  destruct Hs as [-> | [H0 Hs]]; [by apply load8_Some_range in Hi; lia |].
  eapply anc_trans; [exact Hs |]. eapply anc_up; [exact Hi | | constructor].
  apply anc_le in Ha. lia.
Qed.

(** Between a node and one above it every parent lies in between too. *)
Lemma anc_between ps q : preorder ps -> forall n m j p,
  (m <= Z.of_nat n) -> 0 <= q -> anc ps m q -> q < j <= m -> load8 ps j = Some p -> q <= p.
Proof.
  intros Hp. induction n as [| n IH]; intros m j p Hm Hq Ha Hj Hl; [lia |].
  inversion Ha as [| ? pm ? Em Hpm Ha']; subst; [lia |].
  destruct (decide (j = m)) as [-> |].
  - replace p with pm by congruence. by apply anc_le in Ha'.
  - apply (IH (m - 1) j p); try lia; try done.
    destruct (Hp _ _ Em) as [-> | [? Hb]]; [lia |]. by eapply anc_trans.
Qed.

Lemma children_snoc ps p a :
  children (ps ++ [p]) a = children ps a + (if decide (p = a) then 1 else 0).
Proof.
  unfold children. rewrite count_occ_app. simpl.
  destruct (Z.eq_dec p a), (decide (p = a)); lia.
Qed.

Lemma children_nonneg ps a : 0 <= children ps a.
Proof. unfold children. lia. Qed.

Lemma anc_app_inv ps qs i a : anc (ps ++ qs) i a -> i < zlen ps -> anc ps i a.
Proof.
  induction 1 as [| i p a Hl Hp _ IH]; intros; [constructor |].
  eapply anc_up; [by eapply load8_app_inv | done |]. apply IH. lia.
Qed.

Lemma preorder_snoc_inv ps p : preorder (ps ++ [p]) -> preorder ps /\ spine ps p.
Proof.
  intros Hp. split.
  - intros i r Hi. pose proof (load8_Some_range _ _ _ Hi).
    destruct (Hp i r) as [| [? Ha]]; [by apply load8_app_l | by left | right; split; [done |]].
    eapply anc_app_inv; [exact Ha | lia].
  - destruct (Hp (zlen ps) p) as [| [? Ha]];
      [apply load8_snoc | by left | right; split; [done |]].
    eapply anc_app_inv; [exact Ha | lia].
Qed.

(** A node has no children before itself. *)
Lemma children_none ps q : preorder ps -> zlen ps <= q -> children ps q = 0.
Proof.
  induction ps as [| p ps IH] using rev_ind; intros Hp Hq; [done |].
  apply preorder_snoc_inv in Hp as [Hp Hs]. rewrite children_snoc. zl.
  rewrite IH by (done || lia). destruct (decide (p = q)) as [-> |]; [| lia].
  destruct Hs as [-> | [? Ha]]; [lia | apply anc_le in Ha; lia].
Qed.

(** The nodes after one, as many as it has children, are there and below it. *)
Lemma children_below ps q :
  preorder ps -> 0 <= q < zlen ps ->
  q + children ps q < zlen ps /\
  forall j, q < j <= q + children ps q -> exists p, load8 ps j = Some p /\ q <= p.
Proof.
  revert q. induction ps as [| p ps IH] using rev_ind; intros q Hp Hq; [unfold zlen in Hq; simpl in *; lia |].
  apply preorder_snoc_inv in Hp as [Hp Hs].
  rewrite children_snoc.
  assert (zlen (ps ++ [p]) = zlen ps + 1) as En by zl. rewrite En in *.
  destruct (decide (q = zlen ps)) as [-> | Hn].
  - rewrite children_none by (done || lia).
    rewrite decide_False by (intros ->; destruct Hs as [| [? Ha]]; [zl | apply anc_le in Ha; lia]).
    split; [lia | intros; lia].
  - destruct (IH q Hp ltac:(lia)) as [Hle Hj].
    destruct (decide (p = q)) as [-> |].
    + split; [lia |]. intros j Hjr. destruct (decide (j = zlen ps)) as [-> |].
      { exists q. by rewrite load8_snoc. }
      destruct (load8 ps j) as [r |] eqn:E.
      2: { assert (is_Some (load8 ps j)) as [? ?] by (apply load8_is_Some; lia). congruence. }
      exists r. split; [by apply load8_app_l |].
      destruct Hs as [-> | [? Ha]]; [lia |].
      eapply (anc_between ps q Hp (length ps)); [| | exact Ha | | exact E]; unfold zlen in *; lia.
    + split; [lia |]. intros j Hjr. destruct (Hj j ltac:(lia)) as (r & Er & ?).
      exists r. split; [by apply load8_app_l | done].
Qed.

(** ** The tokens of a run *)

Definition parents (ts : list jsmntok) : list Z := map tk_parent ts.

(** Inside the first [len] bytes, and either closed or a container. *)
Definition token_ok (len : Z) (t : jsmntok) : Prop :=
  0 <= tk_start t <= len /\ tk_type t <> JSMN_UNDEFINED /\
  (tk_end t = -1 /\ (tk_type t = JSMN_OBJECT \/ tk_type t = JSMN_ARRAY) \/
   tk_start t <= tk_end t <= len).

Record tokens_ok (len : Z) (ts : list jsmntok) : Prop := {
  to_preorder : preorder (parents ts);
  to_sizes : forall i t, tok_at ts i = Some t -> tk_size t = children (parents ts) i;
  to_ranges : Forall (token_ok len) ts }.

(** One more child for token [i], if it is a token. *)
Definition bump (ts : list jsmntok) (i : Z) : list jsmntok :=
  match tok_at ts i with
  | Some t =>
      <[Z.to_nat i := mk_tok (tk_type t) (tk_start t) (tk_end t) (tk_size t + 1) (tk_parent t)]> ts
  | None => ts
  end.

(** A new last token, counted by its parent. *)
Definition attach (ts : list jsmntok) (t : jsmntok) : list jsmntok :=
  bump ts (tk_parent t) ++ [t].

Definition at_pos (p : jsmn_parser) (i : Z) : jsmn_parser :=
  mk_parser i (jp_toksuper p) (jp_tokens p).

Lemma tok_at_lookup ts i : 0 <= i -> tok_at ts i = ts !! Z.to_nat i.
Proof. intros H. unfold tok_at. destruct (Z.leb_spec 0 i); [done | lia]. Qed.

Lemma tok_at_is_Some ts i : is_Some (tok_at ts i) <-> 0 <= i < zlen ts.
Proof.
  unfold tok_at, zlen. destruct (Z.leb_spec 0 i).
  - rewrite lookup_lt_is_Some. lia.
  - split; [by intros [? ?] | lia].
Qed.

Lemma tok_at_range ts i t : tok_at ts i = Some t -> 0 <= i < zlen ts.
Proof. intros H. apply tok_at_is_Some. eauto. Qed.

Lemma tok_at_Some ts i : 0 <= i < zlen ts -> exists t, tok_at ts i = Some t.
Proof. intros H. by apply tok_at_is_Some in H as [t ?]; exists t. Qed.

Lemma parents_at ts i : load8 (parents ts) i = tk_parent <$> tok_at ts i.
Proof. unfold load8, tok_at. destruct (0 <=? i); [| done]. apply list_lookup_fmap. Qed.

Lemma tok_at_app_l ts us i t : tok_at ts i = Some t -> tok_at (ts ++ us) i = Some t.
Proof.
  intros H. pose proof (tok_at_range _ _ _ H). rewrite tok_at_lookup in * by lia.
  by apply lookup_app_l_Some.
Qed.

Lemma tok_at_app_inv ts us i t :
  tok_at (ts ++ us) i = Some t -> i < zlen ts -> tok_at ts i = Some t.
Proof.
  intros H Hi. pose proof (tok_at_range _ _ _ H). rewrite tok_at_lookup in * by lia.
  rewrite lookup_app_l in H by (unfold zlen in *; lia). done.
Qed.

Lemma tok_at_last ts t : tok_at (ts ++ [t]) (zlen ts) = Some t.
Proof. rewrite tok_at_lookup by zl. rewrite to_nat_zlen. by rewrite list_lookup_middle by done. Qed.

Lemma tok_at_insert ts i j t :
  0 <= i < zlen ts ->
  tok_at (<[Z.to_nat i := t]> ts) j = if decide (i = j) then Some t else tok_at ts j.
Proof.
  intros Hi. destruct (decide (i = j)) as [<- |].
  - rewrite tok_at_lookup by lia. apply list_lookup_insert_eq. unfold zlen in Hi. lia.
  - unfold tok_at. destruct (Z.leb_spec 0 j); [| done]. apply list_lookup_insert_ne. lia.
Qed.

Lemma insert_same_parents ts i t t' :
  tok_at ts i = Some t -> tk_parent t' = tk_parent t ->
  parents (<[Z.to_nat i := t']> ts) = parents ts.
Proof.
  intros H Hp. pose proof (tok_at_range _ _ _ H). rewrite tok_at_lookup in H by lia.
  unfold parents. rewrite list_fmap_insert. apply list_insert_id.
  rewrite list_lookup_fmap, H. simpl. by rewrite Hp.
Qed.

(** [set_token] and [token] inside the tokens. *)
Lemma token_eq p i t : tok_at (jp_tokens p) i = Some t -> token i p = Some (t, p).
Proof. intros H. unfold token, bind, get, lift. by rewrite H. Qed.

Lemma set_token_eq p i t t0 :
  tok_at (jp_tokens p) i = Some t0 ->
  set_token i t p = Some (tt, mk_parser (jp_pos p) (jp_toksuper p) (<[Z.to_nat i := t]> (jp_tokens p))).
Proof. intros H. unfold set_token. unfold bind at 1. by rewrite (token_eq _ _ _ H). Qed.

Lemma incr_size_eq p i :
  0 <= i < zlen (jp_tokens p) ->
  incr_size i p = Some (tt, mk_parser (jp_pos p) (jp_toksuper p) (bump (jp_tokens p) i)).
Proof.
  intros Hi. destruct (tok_at_Some _ _ Hi) as [t E]. unfold incr_size, bind, bump.
  rewrite (token_eq _ _ _ E), E. by rewrite (set_token_eq _ _ _ _ E).
Qed.

Lemma zlen_bump ts i : zlen (bump ts i) = zlen ts.
Proof. unfold bump, zlen. destruct (tok_at ts i); [by rewrite length_insert | done]. Qed.
#[export] Hint Rewrite zlen_bump : zlen.

Lemma bump_root ts : bump ts (-1) = ts.
Proof. done. Qed.

Lemma tok_at_app_l_eq ts us i : i < zlen ts -> tok_at (ts ++ us) i = tok_at ts i.
Proof.
  intros Hi. unfold tok_at. destruct (Z.leb_spec 0 i); [| done].
  apply lookup_app_l. unfold zlen in Hi. lia.
Qed.

Lemma bump_app ts us i : i < zlen ts -> bump (ts ++ us) i = bump ts i ++ us.
Proof.
  intros Hi. unfold bump. rewrite tok_at_app_l_eq by done.
  destruct (tok_at ts i) as [t |] eqn:E; [| done]. apply tok_at_range in E.
  apply insert_app_l. unfold zlen in *. lia.
Qed.

Lemma parents_bump ts i : parents (bump ts i) = parents ts.
Proof.
  unfold bump. destruct (tok_at ts i) as [t |] eqn:E; [| done].
  by apply (insert_same_parents _ _ _ _ E).
Qed.

Lemma tok_at_bump ts i j t :
  tok_at (bump ts i) j = Some t ->
  exists t0, tok_at ts j = Some t0 /\ tk_type t = tk_type t0 /\ tk_start t = tk_start t0 /\
    tk_end t = tk_end t0 /\ tk_size t = tk_size t0 + (if decide (i = j) then 1 else 0).
Proof.
  unfold bump. destruct (tok_at ts i) as [ti |] eqn:E.
  - rewrite tok_at_insert by (by eapply tok_at_range). destruct (decide (i = j)) as [<- |].
    + intros [= <-]. by exists ti.
    + intros H. exists t. repeat split; try done. lia.
  - intros H. exists t. destruct (decide (i = j)) as [<- |]; [congruence |].
    repeat split; try done. lia.
Qed.

Lemma zlen_parents ts : zlen (parents ts) = zlen ts.
Proof. unfold parents, zlen. by rewrite length_map. Qed.
#[export] Hint Rewrite zlen_parents : zlen.

Lemma parents_attach ts t : parents (attach ts t) = parents ts ++ [tk_parent t].
Proof. unfold attach, parents. rewrite map_app. fold parents. f_equal. apply parents_bump. Qed.

Lemma zlen_attach ts t : zlen (attach ts t) = zlen ts + 1.
Proof. unfold attach. zl. Qed.
#[export] Hint Rewrite zlen_attach : zlen.

Lemma spine_lt ps i : spine ps i -> -1 <= i < Z.max (zlen ps) 0.
Proof. intros [-> | [? Ha%anc_le]]; zl. Qed.

(** ** What keeps the tokens in order *)

Lemma attach_ok len ts t :
  tokens_ok len ts -> spine (parents ts) (tk_parent t) -> tk_size t = 0 -> token_ok len t ->
  tokens_ok len (attach ts t).
Proof.
  intros [Hp Hz Hr] Hs H0 Ht. pose proof (spine_lt _ _ Hs). split.
  - rewrite parents_attach. by apply preorder_snoc.
  - intros i u Hi. pose proof (tok_at_range _ _ _ Hi). rewrite zlen_attach in *.
    rewrite parents_attach, children_snoc. zl.
    destruct (decide (i = zlen ts)) as [-> |].
    + unfold attach in Hi. rewrite <- (zlen_bump ts (tk_parent t)), tok_at_last in Hi.
      injection Hi as <-. rewrite children_none by (done || zl).
      destruct (decide _); lia.
    + unfold attach in Hi. apply tok_at_app_inv in Hi; [| zl].
      apply tok_at_bump in Hi as (u0 & Hu & _ & _ & _ & ->). by rewrite (Hz _ _ Hu).
  - apply Forall_app. split; [| by constructor].
    apply Forall_lookup. intros i u Hu.
    destruct (tok_at_bump ts (tk_parent t) (Z.of_nat i) u) as (u0 & Hu0 & Et & Es & Ee & _).
    { rewrite tok_at_lookup by lia. by rewrite Nat2Z.id. }
    rewrite tok_at_lookup in Hu0 by lia. eapply Forall_lookup in Hr; [| exact Hu0].
    unfold token_ok in *. by rewrite Et, Es, Ee.
Qed.

Lemma attach_spine ts t :
  spine (parents ts) (tk_parent t) -> spine (parents (attach ts t)) (tk_parent t).
Proof.
  rewrite parents_attach. intros [-> | [H0 Ha]]; [by left | right; split; [done |]].
  pose proof (anc_le _ _ _ Ha).
  replace (zlen (parents ts ++ [tk_parent t]) - 1) with (zlen (parents ts)) by zl.
  eapply anc_up; [apply load8_snoc | zl | constructor].
Qed.

Lemma tokens_ok_mono len len' ts : len <= len' -> tokens_ok len ts -> tokens_ok len' ts.
Proof.
  intros Hl [Hp Hz Hr]. split; try done. eapply List.Forall_impl; [| exact Hr].
  unfold token_ok. intros t (? & ? & [? | ?]); split; try lia; split; try done; [by left | right; lia].
Qed.

(** Replacing a token by one with the same parent and size. *)
Lemma replace_ok len ts i t t' :
  tokens_ok len ts -> tok_at ts i = Some t -> tk_parent t' = tk_parent t ->
  tk_size t' = tk_size t -> token_ok len t' -> tokens_ok len (<[Z.to_nat i := t']> ts).
Proof.
  intros [Hp Hz Hr] Hi Ep Ez Ht. pose proof (tok_at_range _ _ _ Hi).
  pose proof (insert_same_parents _ _ _ _ Hi Ep) as Eps. split.
  - by rewrite Eps.
  - rewrite Eps. intros j u. rewrite tok_at_insert by done.
    destruct (decide (i = j)) as [<- |]; [intros [= <-]; rewrite Ez | ]; by apply Hz.
  - by apply Forall_insert.
Qed.

(** ** The scanners *)

Section scan.
Variables (js : list Z) (num_tokens : Z).

(** The position of [p], inside the text or at its end. *)
Definition inside (p : jsmn_parser) : Prop := 0 <= jp_pos p <= zlen js.

Lemma peek_eq p :
  peek js p =
  Some (match load8 js (jp_pos p) with Some c => if c =? 0 then None else Some c | None => None end, p).
Proof. done. Qed.

Lemma the_pos_eq p : the_pos p = Some (jp_pos p, p).
Proof. done. Qed.

Lemma incr_pos_eq p : incr_pos p = Some (tt, at_pos p (jp_pos p + 1)).
Proof. done. Qed.

Lemma at_pos_at p i j : at_pos (at_pos p i) j = at_pos p j.
Proof. done. Qed.

Lemma at_pos_same p : at_pos p (jp_pos p) = p.
Proof. by destruct p. Qed.

(** Case analysis on the character at the position. *)
Lemma peek_wp p (Q : option Z -> jsmn_parser -> Prop) :
  (forall c, load8 js (jp_pos p) = Some c -> c <> 0 -> jp_pos p < zlen js -> Q (Some c) p) ->
  (zlen js <= jp_pos p \/ load8 js (jp_pos p) = Some 0 \/ jp_pos p < 0 -> Q None p) ->
  wp (peek js) p Q.
Proof.
  intros H1 H2. unfold wp. rewrite peek_eq. destruct (load8 js (jp_pos p)) as [c |] eqn:E.
  - pose proof (load8_Some_range _ _ _ E). destruct (Z.eqb_spec c 0) as [-> |]; [by auto |].
    apply H1; done || lia.
  - apply H2. destruct (decide (0 <= jp_pos p < zlen js)) as [Hr%load8_is_Some |]; [| lia].
    destruct Hr as [? Hr]. congruence.
Qed.

(** A scan moves the position forward, no further than [hi]. *)
Definition moved (p p' : jsmn_parser) (hi : Z) : Prop :=
  exists i, p' = at_pos p i /\ jp_pos p <= i <= hi.

Lemma moved_refl p hi : jp_pos p <= hi -> moved p p hi.
Proof. intros. exists (jp_pos p). rewrite at_pos_same. split; [done | lia]. Qed.

Lemma moved_step p p' i hi : jp_pos p <= i -> moved (at_pos p i) p' hi -> moved p p' hi.
Proof. intros Hi (j & -> & Hj). exists j. simpl in *. split; [done | lia]. Qed.

Definition is_error (r : Z) : Prop :=
  r = JSMN_ERROR_NOMEM \/ r = JSMN_ERROR_INVAL \/ r = JSMN_ERROR_PART.

Lemma primitive_loop_wp fuel : forall p,
  inside p -> zlen js - jp_pos p < Z.of_nat fuel ->
  wp (primitive_loop js fuel) p (fun r p' =>
    moved p p' (zlen js) /\
    (is_error r \/ r = 1 /\ exists c, load8 js (jp_pos p') = Some c /\ prim_end c = true)).
Proof.
  induction fuel as [| fuel IH]; intros p Hp Hf; [unfold inside in Hp; lia |].
  simpl. apply wp_bind. unfold inside in Hp. apply peek_wp.
  - intros c Ec Hc Hlt. destruct (prim_end c) eqn:Ee.
    { apply wp_ret. split; [by apply moved_refl; lia |]. right. eauto. }
    destruct ((c <? 32) || (127 <=? c)).
    { apply wp_ret. split; [by apply moved_refl; lia |]. left. unfold is_error. auto. }
    apply (wp_step (incr_pos_eq _)).
    eapply wp_mono; [apply IH; unfold inside; simpl; lia |].
    intros r p' [Hm Hr]. split; [| done]. eapply moved_step; [| exact Hm]. lia.
  - intros _. apply wp_ret. split; [by apply moved_refl; lia |]. left. unfold is_error. auto.
Qed.

Lemma hex_loop_wp k : forall p,
  inside p -> wp (hex_loop js k) p (fun _ p' => moved p p' (zlen js)).
Proof.
  induction k as [| k IH]; intros p Hp; unfold inside in Hp; simpl.
  - apply wp_ret. by apply moved_refl; lia.
  - apply wp_bind, peek_wp.
    + intros c _ _ Hlt. destruct (is_hexdigit c).
      * apply (wp_step (incr_pos_eq _)).
        eapply wp_mono; [apply IH; unfold inside; simpl; lia |].
        intros b p' Hm. eapply moved_step; [| exact Hm]. lia.
      * apply wp_ret. by apply moved_refl; lia.
    + intros _. apply wp_ret. by apply moved_refl; lia.
Qed.

Lemma escape_char_wp p :
  0 <= jp_pos p -> jp_pos p + 1 < zlen js ->
  wp (escape_char js) p (fun ok p' =>
    moved p p' (zlen js) /\ (ok = true -> jp_pos p' < zlen js)).
Proof.
  intros H0 Hlt. unfold escape_char. apply (wp_step (incr_pos_eq _)).
  apply (wp_step (the_pos_eq _)). simpl jp_pos.
  assert (is_Some (load8 js (jp_pos p + 1))) as [c Ec] by (apply load8_is_Some; lia).
  apply wp_bind. eapply wp_lift; [exact Ec |]. cbv beta.
  assert (moved p (at_pos p (jp_pos p + 1)) (zlen js)) as Hm by (eexists; split; [done | lia]).
  destruct (escapable c); [by apply wp_ret |].
  destruct (c =? 117); [| by apply wp_ret].
  apply (wp_step (incr_pos_eq _)), wp_bind.
  eapply wp_mono; [apply hex_loop_wp; unfold inside; simpl; lia |].
  intros ok p2 (i & -> & Hi). simpl in Hi.
  destruct ok; unfold wp; simpl; (split; [eexists; split; [done |] |]); simpl; try lia; done.
Qed.

Lemma string_loop_wp fuel : forall p,
  inside p -> zlen js - jp_pos p < Z.of_nat fuel ->
  wp (string_loop js fuel) p (fun r p' =>
    moved p p' (zlen js) /\ (is_error r \/ r = 1 /\ jp_pos p' < zlen js)).
Proof.
  induction fuel as [| fuel IH]; intros p Hp Hf; [unfold inside in Hp; lia |].
  simpl. apply wp_bind. unfold inside in Hp. apply peek_wp.
  - intros c Ec Hc Hlt. apply (wp_step (the_pos_eq _)). destruct (c =? DQ).
    { apply wp_ret. split; [by apply moved_refl; lia | auto]. }
    apply wp_bind.
    assert (wp (if (c =? BSL) && (jp_pos p + 1 <? zlen js) then escape_char js else ret true) p
              (fun ok p' => moved p p' (zlen js) /\ (ok = true -> jp_pos p' < zlen js))) as Hw.
    { destruct (c =? BSL), (Z.ltb_spec (jp_pos p + 1) (zlen js)); simpl;
        try (apply wp_ret; split; [by apply moved_refl; lia | done]).
      apply escape_char_wp; lia. }
    eapply wp_mono; [exact Hw |]. intros ok p' [Hm Hok]. destruct ok.
    + specialize (Hok eq_refl). destruct Hm as (i & -> & Hi). simpl in Hok.
      apply (wp_step (incr_pos_eq _)). simpl.
      eapply wp_mono; [apply IH; unfold inside; simpl; lia |].
      intros r p' [Hm Hr]. split; [| done]. eapply moved_step; [| exact Hm]. lia.
    + apply wp_ret. split; [done |]. left. unfold is_error. auto.
  - intros _. apply wp_ret. split; [by apply moved_refl; lia |]. left. unfold is_error. auto.
Qed.

(** ** New tokens *)

Definition full (p : jsmn_parser) : bool := num_tokens <=? zlen (jp_tokens p).

Lemma emit_token_eq p type start from :
  emit_token num_tokens type start from p =
  if full p then Some (JSMN_ERROR_NOMEM, at_pos p start)
  else Some (0, mk_parser (jp_pos p) (jp_toksuper p)
                  (jp_tokens p ++ [mk_tok type from (jp_pos p) 0 (jp_toksuper p)])).
Proof.
  unfold emit_token, jsmn_alloc_token, full. unfold bind at 1 2. simpl.
  destruct (num_tokens <=? zlen (jp_tokens p)); [done |].
  unfold bind at 1 2. simpl. set (ts := jp_tokens p).
  set (t0 := mk_tok JSMN_UNDEFINED (-1) (-1) 0 (-1)).
  assert (forall q t, jp_tokens q = ts ++ [t] -> tok_at (jp_tokens q) (zlen ts) = Some t) as Ht
    by (intros q t ->; apply tok_at_last).
  assert (forall (t t' : jsmntok), <[Z.to_nat (zlen ts) := t]> (ts ++ [t']) = ts ++ [t]) as Hi.
  { intros t t'. rewrite to_nat_zlen. rewrite insert_app_r_alt by done. by rewrite Nat.sub_diag. }
  unfold bind at 1 2, jsmn_fill_token. unfold bind at 1.
  erewrite token_eq by (by apply Ht). erewrite set_token_eq by (by apply Ht). simpl. rewrite Hi.
  unfold bind at 1. simpl. unfold bind. erewrite token_eq by (by apply Ht).
  erewrite set_token_eq by (by apply Ht). simpl. by rewrite Hi.
Qed.

(** ** One character keeps the invariant *)

Record inv (p : jsmn_parser) : Prop := {
  iv_tokens : tokens_ok (jp_pos p) (jp_tokens p);
  iv_spine : spine (parents (jp_tokens p)) (jp_toksuper p);
  iv_pos : inside p;
  iv_room : zlen (jp_tokens p) <= num_tokens }.

(** What the parser stops for when asked to: a string of 64 characters. *)
Definition at_id (p : jsmn_parser) : Prop :=
  exists t, tok_at (jp_tokens p) (zlen (jp_tokens p) - 1) = Some t /\
    tk_type t = JSMN_STRING /\ tk_end t - tk_start t = 64.

Definition step_post (stop : bool) (p : jsmn_parser) (o : outcome) (p' : jsmn_parser) : Prop :=
  match o with
  | Done r => is_error r \/ r = -42 /\ stop = true /\ inv p' /\ at_id p'
  | Next count _ =>
      inv (at_pos p' (jp_pos p' + 1)) /\ jp_pos p <= jp_pos p' < zlen js /\
      count = zlen (jp_tokens p')
  end.

Lemma attach_inv p t i :
  inv p -> full p = false -> tk_parent t = jp_toksuper p -> tk_size t = 0 ->
  token_ok i t -> jp_pos p <= i <= zlen js ->
  inv (mk_parser i (jp_toksuper p) (attach (jp_tokens p) t)).
Proof.
  intros [Ht Hs Hp Hr] Hf Et Ez Hok Hi. unfold full in Hf. split; simpl.
  - apply attach_ok; try done; [| by rewrite Et].
    eapply tokens_ok_mono; [| exact Ht]. lia.
  - rewrite <- Et. apply attach_spine. by rewrite Et.
  - unfold inside in *. simpl. lia.
  - rewrite zlen_attach. lia.
Qed.

(** One character on, with the same tokens. *)
Lemma step_inv i super ts :
  tokens_ok i ts -> spine (parents ts) super -> 0 <= i < zlen js -> zlen ts <= num_tokens ->
  inv (mk_parser (i + 1) super ts).
Proof.
  intros. split; simpl; try done; [| unfold inside; simpl; lia].
  eapply tokens_ok_mono; [| done]. lia.
Qed.

Lemma jsmn_parse_string_wp p :
  inside p -> jp_pos p < zlen js ->
  wp (jsmn_parse_string js num_tokens) p (fun r p' =>
    is_error r \/ r = 0 /\ full p = false /\ exists i, jp_pos p < i < zlen js /\
      p' = mk_parser i (jp_toksuper p)
             (jp_tokens p ++ [mk_tok JSMN_STRING (jp_pos p + 1) i 0 (jp_toksuper p)])).
Proof.
  intros Hp Hlt. unfold inside in Hp. unfold jsmn_parse_string.
  apply (wp_step (the_pos_eq _)), (wp_step (incr_pos_eq _)), wp_bind.
  eapply wp_mono; [apply string_loop_wp; unfold inside, zlen in *; simpl; lia |].
  intros r p' [(i & -> & Hi) Hr]. simpl in Hi, Hr. rewrite at_pos_at.
  destruct Hr as [Hr | [-> Hl]].
  - assert ((r <? 0) = true) as ->
      by (unfold is_error, JSMN_ERROR_NOMEM, JSMN_ERROR_INVAL, JSMN_ERROR_PART in *; lia).
    unfold wp. simpl. by left.
  - simpl. unfold wp. rewrite emit_token_eq. unfold full at 1. simpl. fold (full p).
    destruct (full p); [left; unfold is_error; auto |].
    right. split; [done |]. split; [done |]. exists i. split; [lia | done].
Qed.

Lemma jsmn_parse_primitive_wp p c :
  inside p -> load8 js (jp_pos p) = Some c -> prim_start c = true ->
  wp (jsmn_parse_primitive js num_tokens) p (fun r p' =>
    is_error r \/ r = 0 /\ full p = false /\ exists i, jp_pos p <= i < zlen js /\
      p' = mk_parser i (jp_toksuper p)
             (jp_tokens p ++ [mk_tok JSMN_PRIMITIVE (jp_pos p) (i + 1) 0 (jp_toksuper p)])).
Proof.
  intros Hp Ec Hc. unfold inside in Hp. unfold jsmn_parse_primitive.
  apply (wp_step (the_pos_eq _)), wp_bind.
  eapply wp_mono; [apply primitive_loop_wp; unfold inside, zlen in *; lia |].
  intros r p' [(i & -> & Hi) Hr]. simpl in Hr.
  destruct Hr as [Hr | (-> & d & Ed & He)].
  - assert ((r <? 0) = true) as ->
      by (unfold is_error, JSMN_ERROR_NOMEM, JSMN_ERROR_INVAL, JSMN_ERROR_PART in *; lia).
    unfold wp. simpl. by left.
  - simpl. apply wp_bind. unfold wp at 1. rewrite emit_token_eq. unfold full at 1. simpl.
    fold (full p). destruct (full p); [left; unfold is_error; auto |].
    unfold wp. simpl. right. split; [done |]. split; [done |]. exists (i - 1).
    pose proof (load8_Some_range _ _ _ Ed).
    assert (jp_pos p <> i).
    { intros <-. rewrite Ec in Ed. injection Ed as ->.
      unfold prim_start, prim_end in *. lia. }
    split; [lia |]. unfold at_pos. simpl. by replace (i - 1 + 1) with i by lia.
Qed.

(** Nothing or a token that is there. *)
Definition above (ts : list jsmntok) (super : Z) : Prop := super = -1 \/ 0 <= super < zlen ts.

Lemma spine_above ts super : spine (parents ts) super -> above ts super.
Proof. intros [-> | [? Ha%anc_le]]; [by left | right; rewrite zlen_parents in Ha; lia]. Qed.

(** Counting the new token under its parent. *)
Lemma count_child_attach t i super ts :
  super = tk_parent t -> above ts super ->
  count_child (mk_parser i super (ts ++ [t])) = Some (tt, mk_parser i super (attach ts t)).
Proof.
  intros -> Hs. unfold attach, count_child, bind. simpl.
  destruct (Z.eqb_spec (tk_parent t) (-1)) as [E |].
  - by rewrite E.
  - destruct Hs as [| Hs]; [done |].
    rewrite incr_size_eq by (simpl; zl). simpl. by rewrite bump_app by lia.
Qed.

Lemma string_token_wp stop p count idkey :
  inv p -> jp_pos p < zlen js -> count = zlen (jp_tokens p) ->
  wp (string_token js num_tokens stop count idkey) p (step_post stop p).
Proof.
  intros Hi Hlt ->. pose proof Hi as [Ht Hs Hp _]. unfold inside in Hp. unfold string_token.
  apply wp_bind. eapply wp_mono; [by apply jsmn_parse_string_wp |].
  intros r p' [Hr | (-> & Hf & i & Hir & ->)].
  { assert ((r <? 0) = true) as ->
      by (unfold is_error, JSMN_ERROR_NOMEM, JSMN_ERROR_INVAL, JSMN_ERROR_PART in *; lia).
    apply wp_ret. by left. }
  simpl. set (t := mk_tok JSMN_STRING (jp_pos p + 1) i 0 (jp_toksuper p)).
  apply (wp_step (count_child_attach t i (jp_toksuper p) (jp_tokens p) eq_refl (spine_above _ _ Hs))).
  assert (inv (mk_parser (i + 1) (jp_toksuper p) (attach (jp_tokens p) t))) as Hi'.
  { apply attach_inv; try done; [| lia]. unfold token_ok; simpl. split; [lia | split; [done | lia]]. }
  assert (tok_at (attach (jp_tokens p) t) (zlen (attach (jp_tokens p) t) - 1) = Some t) as Hl.
  { rewrite zlen_attach. unfold attach.
    replace (zlen (jp_tokens p) + 1 - 1) with (zlen (bump (jp_tokens p) (tk_parent t))) by zl.
    apply tok_at_last. }
  assert (forall k, step_post stop p (Next (zlen (jp_tokens p) + 1) k)
            (mk_parser i (jp_toksuper p) (attach (jp_tokens p) t))) as Hn.
  { intros k. simpl. split; [done |]. split; [lia |]. by rewrite zlen_attach. }
  destruct stop; [| apply wp_ret, Hn].
  eapply wp_step; [reflexivity |]. apply (wp_step (token_eq (mk_parser _ _ _) _ _ Hl)).
  destruct ((idkey =? 1) && (tk_end t - tk_start t =? 64)) eqn:E64.
  - eapply wp_step; [reflexivity |]. apply wp_ret. right. split; [done |]. split; [done |]. split.
    + exact Hi'.
    + exists t. split; [exact Hl |]. split; [done |]. lia.
  - destruct ((idkey =? 0) && (tk_end t - tk_start t =? 2)) eqn:E2; [| apply wp_ret, Hn].
    simpl in E2.
    assert (is_Some (load8 js (tk_start t))) as [c0 Ec0] by (apply load8_is_Some; simpl; lia).
    assert (is_Some (load8 js (tk_start t + 1))) as [c1 Ec1] by (apply load8_is_Some; simpl; lia).
    apply wp_bind. eapply wp_lift; [exact Ec0 |]. cbv beta. destruct (c0 =? 105); [| apply wp_ret, Hn].
    apply wp_bind. eapply wp_lift; [exact Ec1 |]. apply wp_ret, Hn.
Qed.

Lemma primitive_token_wp stop p c count idkey :
  inv p -> load8 js (jp_pos p) = Some c -> prim_start c = true -> count = zlen (jp_tokens p) ->
  wp (primitive_token js num_tokens count idkey) p (step_post stop p).
Proof.
  intros Hi Ec Hc ->. pose proof Hi as [Ht Hs Hp _]. unfold inside in Hp. unfold primitive_token.
  eapply wp_step; [reflexivity |]. apply wp_bind.
  assert (wp (if jp_toksuper p =? -1 then ret true
              else let* t := token (jp_toksuper p) in
                   ret (negb (bool_decide (tk_type t = JSMN_OBJECT) ||
                       (bool_decide (tk_type t = JSMN_STRING) && negb (tk_size t =? 0))))) p
           (fun _ p' => p' = p)) as Hw.
  { destruct (Z.eqb_spec (jp_toksuper p) (-1)); [by apply wp_ret |].
    pose proof (spine_lt _ _ Hs) as Hlt. rewrite zlen_parents in Hlt.
    destruct (tok_at_Some (jp_tokens p) (jp_toksuper p)) as [t E]; [zl |].
    apply (wp_step (token_eq _ _ _ E)). by apply wp_ret. }
  eapply wp_mono; [exact Hw |]. intros ok p' ->.
  destruct ok; [| apply wp_ret; left; unfold is_error; auto].
  simpl. apply wp_bind. eapply wp_mono; [by apply (jsmn_parse_primitive_wp _ c) |].
  intros r p' [Hr | (-> & Hf & i & Hir & ->)].
  { assert ((r <? 0) = true) as ->
      by (unfold is_error, JSMN_ERROR_NOMEM, JSMN_ERROR_INVAL, JSMN_ERROR_PART in *; lia).
    apply wp_ret. by left. }
  simpl. set (t := mk_tok JSMN_PRIMITIVE (jp_pos p) (i + 1) 0 (jp_toksuper p)).
  apply (wp_step (count_child_attach t i (jp_toksuper p) (jp_tokens p) eq_refl (spine_above _ _ Hs))).
  apply wp_ret. simpl. split; [| by rewrite zlen_attach; split; [lia |]].
  unfold at_pos. simpl. apply attach_inv; try done; [| lia].
  unfold token_ok; simpl. split; [lia | split; [done | lia]].
Qed.

Lemma colon_wp stop p count idkey :
  inv p -> jp_pos p < zlen js -> count = zlen (jp_tokens p) ->
  wp (colon count idkey) p (step_post stop p).
Proof.
  intros [Ht Hs Hp Hr] Hlt ->. unfold wp. simpl. split; [| lia].
  unfold inside in Hp. apply step_inv; [done | | lia | done]. rewrite <- zlen_parents.
  destruct (jp_tokens p) eqn:E; [by left |]. by apply spine_last.
Qed.

Lemma comma_wp stop p count idkey :
  inv p -> jp_pos p < zlen js -> count = zlen (jp_tokens p) ->
  wp (comma count idkey) p (step_post stop p).
Proof.
  intros Hi Hlt ->. pose proof Hi as [Ht Hs Hp Hr]. unfold comma.
  eapply wp_step; [reflexivity |].
  assert (step_post stop p (Next (zlen (jp_tokens p)) idkey) p) as Hsame.
  { unfold inside in Hp. split; [| lia]. apply step_inv; done || lia. }
  destruct (Z.eqb_spec (jp_toksuper p) (-1)); [by apply wp_ret |].
  pose proof (spine_lt _ _ Hs) as Hl. rewrite zlen_parents in Hl.
  destruct (tok_at_Some (jp_tokens p) (jp_toksuper p)) as [t E]; [zl |].
  apply (wp_step (token_eq _ _ _ E)).
  destruct (_ || _); [by apply wp_ret |].
  eapply wp_step; [reflexivity |]. apply wp_ret. simpl. split; [| lia].
  unfold inside in Hp. apply step_inv; [done | | lia | done]. eapply spine_up; [apply Ht | exact Hs |].
  simpl. by rewrite parents_at, E.
Qed.

Definition bracket (c : Z) : jsmntype := if c =? 123 then JSMN_OBJECT else JSMN_ARRAY.

(** Nothing or a token that is no object stands above. *)
Definition may_hold (ts : list jsmntok) (super : Z) : Prop :=
  super = -1 \/ exists t, tok_at ts super = Some t /\ tk_type t <> JSMN_OBJECT.

Lemma insert_last {A} (l : list A) (x y : A) : <[Z.to_nat (zlen l) := y]> (l ++ [x]) = l ++ [y].
Proof. rewrite to_nat_zlen, insert_app_r_alt by done. by rewrite Nat.sub_diag. Qed.

Lemma open_token_eq p c count idkey :
  full p = false ->
  may_hold (jp_tokens p) (jp_toksuper p) ->
  open_token num_tokens c count idkey p =
  Some (Next (count + 1) idkey,
        mk_parser (jp_pos p) (zlen (jp_tokens p))
          (attach (jp_tokens p) (mk_tok (bracket c) (jp_pos p) (-1) 0 (jp_toksuper p)))).
Proof.
  intros Hf Hh. destruct p as [pos super ts]. unfold full in Hf. simpl in *.
  unfold open_token, jsmn_alloc_token. unfold bind at 1 2. simpl. rewrite Hf.
  unfold bind at 1 2. simpl. unfold bind at 1. simpl.
  set (t0 := mk_tok JSMN_UNDEFINED (-1) (-1) 0 (-1)). unfold bind at 1.
  destruct Hh as [-> | (s & Es & Hty)]; simpl.
  - unfold bind. simpl. rewrite (token_eq (mk_parser _ _ _) _ t0) by apply tok_at_last.
    rewrite (set_token_eq (mk_parser _ _ _) _ _ t0) by apply tok_at_last.
    simpl. rewrite insert_last. unfold attach. simpl. rewrite bump_root, zlen_app, zlen_cons, zlen_nil.
    by replace (zlen ts + (1 + 0) - 1) with (zlen ts) by lia.
  - pose proof (tok_at_range _ _ _ Es). destruct (Z.eqb_spec super (-1)); [lia |].
    unfold bind. rewrite (token_eq (mk_parser _ _ _) _ s) by (simpl; by apply tok_at_app_l).
    rewrite decide_False by done. rewrite incr_size_eq by (simpl; zl). simpl.
    rewrite bump_app by lia. assert (zlen ts = zlen (bump ts super)) as -> by zl.
    rewrite (token_eq (mk_parser _ _ _) _ t0) by apply tok_at_last.
    rewrite (set_token_eq (mk_parser _ _ _) _ _ t0) by apply tok_at_last.
    simpl. rewrite insert_last.
    erewrite (token_eq (mk_parser _ _ _)) by apply tok_at_last.
    erewrite (set_token_eq (mk_parser _ _ _)) by apply tok_at_last.
    simpl. rewrite insert_last. unfold attach. simpl. rewrite zlen_app, zlen_cons, zlen_nil.
    by replace (zlen (bump ts super) + (1 + 0) - 1) with (zlen (bump ts super)) by lia.
Qed.

Lemma open_token_wp stop p c count idkey :
  inv p -> jp_pos p < zlen js -> count = zlen (jp_tokens p) ->
  wp (open_token num_tokens c count idkey) p (step_post stop p).
Proof.
  intros Hi Hlt ->. pose proof Hi as [Ht Hs Hp Hr]. unfold inside in Hp.
  destruct (full p) eqn:Hf.
  { unfold wp, open_token, jsmn_alloc_token. unfold bind at 1 2. simpl.
    unfold full in Hf. rewrite Hf. simpl. left. unfold is_error. auto. }
  assert (may_hold (jp_tokens p) (jp_toksuper p) \/
          exists t, tok_at (jp_tokens p) (jp_toksuper p) = Some t /\ tk_type t = JSMN_OBJECT)
    as [Hh | (t & Et & Hty)].
  { destruct (decide (jp_toksuper p = -1)) as [|]; [by left; left |].
    pose proof (spine_lt _ _ Hs) as Hl. rewrite zlen_parents in Hl.
    destruct (tok_at_Some (jp_tokens p) (jp_toksuper p)) as [t E]; [zl |].
    destruct (decide (tk_type t = JSMN_OBJECT)); [right; eauto | left; right; eauto]. }
  - unfold wp. rewrite open_token_eq by done. simpl.
    rewrite zlen_attach. split; [| lia]. unfold at_pos. simpl.
    set (t := mk_tok (bracket c) (jp_pos p) (-1) 0 (jp_toksuper p)).
    destruct (attach_inv p t (jp_pos p + 1)) as [Ht' _ Hp' Hr']; try done.
    2: lia.
    { unfold token_ok, t, bracket; simpl. split; [lia |].
      destruct (c =? 123); (split; [done |]); left; auto. }
    split; try done. simpl. rewrite <- (zlen_parents (jp_tokens p)), parents_attach.
    replace (zlen (parents (jp_tokens p)))
      with (zlen (parents (jp_tokens p) ++ [tk_parent t]) - 1) by zl.
    apply spine_last. by destruct (parents (jp_tokens p)).
  - unfold open_token, jsmn_alloc_token. unfold full in Hf. unfold wp, bind. simpl.
    rewrite Hf. simpl. pose proof (tok_at_range _ _ _ Et).
    destruct (Z.eqb_spec (jp_toksuper p) (-1)); [lia |].
    rewrite (token_eq (mk_parser _ _ _) _ t) by (simpl; by apply tok_at_app_l).
    rewrite decide_True by done. simpl. left. unfold is_error. auto.
Qed.

(** The search for the token to close walks up the path to the last token. *)
Lemma close_loop_wp type stop p fuel : forall i,
  inv p -> jp_pos p < zlen js -> 0 <= i < zlen (jp_tokens p) ->
  spine (parents (jp_tokens p)) i -> i < Z.of_nat fuel ->
  wp (close_loop fuel type i) p (fun ok p' => ok = true ->
    step_post stop p (Next (zlen (jp_tokens p)) 0) p').
Proof.
  induction fuel as [| fuel IH]; intros i Hi Hlt Hr Hsi Hf; [lia |].
  destruct (tok_at_Some _ _ Hr) as [t Et]. pose proof Hi as [Ht Hs Hp Hroom].
  assert (load8 (parents (jp_tokens p)) i = Some (tk_parent t)) as Ep by (by rewrite parents_at, Et).
  assert (spine (parents (jp_tokens p)) (tk_parent t)) as Hsp
    by (eapply spine_up; [apply Ht | exact Hsi | exact Ep]).
  simpl close_loop. apply (wp_step (token_eq _ _ _ Et)). destruct (unclosed t) eqn:Eu.
  - destruct (decide (tk_type t = type)); [| by apply wp_ret].
    eapply wp_step; [reflexivity |]. eapply wp_step; [by eapply set_token_eq |].
    eapply wp_step; [reflexivity |]. apply wp_ret. intros _. simpl.
    assert (zlen (<[Z.to_nat i:=mk_tok (tk_type t) (tk_start t) (jp_pos p + 1) (tk_size t)
                     (tk_parent t)]> (jp_tokens p)) = zlen (jp_tokens p)) as El
      by (unfold zlen; by rewrite length_insert).
    rewrite El. split; [| lia]. split; simpl.
    + apply (replace_ok _ _ _ t); try done; [eapply tokens_ok_mono; [| exact Ht]; lia |].
      pose proof (to_ranges _ _ Ht) as Hok. rewrite tok_at_lookup in Et by lia.
      eapply Forall_lookup in Hok; [| exact Et]. unfold token_ok, inside in *. simpl.
      destruct Hok as (? & ? & Hok). split; [lia |]. split; [done |]. right. lia.
    + by rewrite (insert_same_parents _ _ t).
    + unfold inside in *. simpl. lia.
    + lia.
  - destruct (Z.eqb_spec (tk_parent t) (-1)).
    + eapply wp_step; [reflexivity |]. apply wp_ret. intros _. unfold inside in Hp.
      split; [apply step_inv; done || lia | lia].
    + destruct (to_preorder _ _ Ht _ _ Ep) as [| [? Ha%anc_le]]; [done |].
      apply IH; try done; lia.
Qed.

Lemma close_token_wp stop p c count idkey :
  inv p -> jp_pos p < zlen js -> count = zlen (jp_tokens p) ->
  wp (close_token c count idkey) p (step_post stop p).
Proof.
  intros Hi Hlt ->. unfold close_token. eapply wp_step; [reflexivity |].
  destruct (Z.ltb_spec (zlen (jp_tokens p)) 1); [apply wp_ret; left; unfold is_error; auto |].
  apply wp_bind. eapply wp_mono.
  - apply (close_loop_wp _ stop); try done; try lia. rewrite <- zlen_parents. apply spine_last.
    intros E. rewrite <- zlen_parents, E in H. done.
  - intros ok p' Hok. apply wp_ret. destruct ok; [| left; unfold is_error; auto].
    by apply Hok.
Qed.

Lemma jsmn_char_wp stop p c count idkey :
  inv p -> load8 js (jp_pos p) = Some c -> count = zlen (jp_tokens p) ->
  wp (jsmn_char js num_tokens stop c count idkey) p (step_post stop p).
Proof.
  intros Hi Ec ->. pose proof (load8_Some_range _ _ _ Ec) as Hlt. unfold jsmn_char.
  destruct (_ || _); [apply open_token_wp; done || lia |].
  destruct (_ || _); [apply close_token_wp; done || lia |].
  destruct (c =? DQ); [apply string_token_wp; done || lia |].
  destruct (is_space c).
  { apply wp_ret. destruct Hi. split; [apply step_inv; done || lia | lia]. }
  destruct (c =? 58); [apply colon_wp; done || lia |].
  destruct (c =? 44); [apply comma_wp; done || lia |].
  destruct (prim_start c) eqn:Es; [by apply (primitive_token_wp stop _ c) |].
  apply wp_ret. left. unfold is_error. auto.
Qed.

(** ** The whole text *)

(** What a run leaves: an error, a stop at an id, or as many tokens as it
    says, all of them closed, in a forest that lies inside the text. *)
Definition parsed (stop : bool) (r : Z) (p : jsmn_parser) : Prop :=
  is_error r \/ r = -42 /\ stop = true /\ inv p /\ at_id p \/
  r = zlen (jp_tokens p) /\ inv p /\ Forall (fun t => unclosed t = false) (jp_tokens p).

Lemma jsmn_loop_wp stop fuel : forall p count idkey,
  inv p -> count = zlen (jp_tokens p) -> zlen js - jp_pos p < Z.of_nat fuel ->
  wp (jsmn_loop js num_tokens fuel stop count idkey) p (parsed stop).
Proof.
  induction fuel as [| fuel IH]; intros p count idkey Hi -> Hf.
  { pose proof (iv_pos _ Hi) as Hp. unfold inside in Hp. lia. }
  simpl. apply wp_bind, peek_wp.
  - intros c Ec _ Hlt. apply wp_bind. eapply wp_mono; [by apply jsmn_char_wp |].
    intros [r | count' idkey'] p' Ho.
    + apply wp_ret. destruct Ho as [| Ho]; [by left | right; left; done].
    + destruct Ho as (Hi' & Hp' & ->). apply (wp_step (incr_pos_eq _)).
      apply IH; [done | done | simpl; lia].
  - intros _. unfold wp. simpl. destruct (existsb unclosed (jp_tokens p)) eqn:E.
    + left. unfold is_error. auto.
    + right. right. split; [done |]. split; [done |].
      apply List.Forall_forall. intros t Hin. apply not_true_iff_false. intros Hu.
      apply not_true_iff_false in E. apply E. apply existsb_exists. eauto.
Qed.

Lemma jsmn_parse_wp stop p :
  inv p -> wp (jsmn_parse js num_tokens stop) p (parsed stop).
Proof.
  intros Hi. unfold jsmn_parse. eapply wp_step; [reflexivity |].
  apply jsmn_loop_wp; try done. pose proof (iv_pos _ Hi) as Hp. unfold inside, zlen in *. lia.
Qed.

Lemma inv_init : 0 <= num_tokens -> inv jsmn_init.
Proof.
  intros. split; simpl; try done; [| by left | unfold inside; simpl; zl].
  split; [| | constructor].
  - intros i p Hl. apply load8_Some_range in Hl. unfold zlen in Hl. simpl in Hl. lia.
  - intros i t Hl. apply tok_at_range in Hl. unfold zlen in Hl. simpl in Hl. lia.
Qed.

End scan.

(** ** Stopping at an id and going on *)

Section resume.
Variables (js : list Z) (num_tokens : Z).

(** More fuel does not change a result. *)
Lemma jsmn_loop_more stop fuel : forall fuel' count idkey p x,
  (fuel <= fuel')%nat -> jsmn_loop js num_tokens fuel stop count idkey p = Some x ->
  jsmn_loop js num_tokens fuel' stop count idkey p = Some x.
Proof.
  induction fuel as [| fuel IH]; intros fuel' count idkey p x Hle H; [done |].
  destruct fuel' as [| fuel']; [lia |]. simpl in *. unfold bind in *.
  destruct (peek js p) as [[[c |] p1] |]; try done.
  destruct (jsmn_char _ _ _ _ _ _ _) as [[[r | count' idkey'] p2] |]; try done.
  destruct (incr_pos p2) as [[[] p3] |]; [| done]. apply IH; [lia | done].
Qed.

(** The last local variable is only passed on when the parser does not stop. *)
Definition with_idkey (k : Z) (x : option (outcome * jsmn_parser)) : option (outcome * jsmn_parser) :=
  match x with
  | Some (Next count _, p) => Some (Next count k, p)
  | _ => x
  end.

Ltac passed :=
  repeat match goal with
  | |- context [match ?x with _ => _ end] => destruct x; try done
  end.

Lemma jsmn_char_idkey c count k k' p :
  jsmn_char js num_tokens false c count k' p =
  with_idkey k' (jsmn_char js num_tokens false c count k p).
Proof.
  unfold jsmn_char.
  destruct (_ || _); [unfold open_token, bind; passed |].
  destruct (_ || _); [unfold close_token, bind; passed |].
  destruct (c =? DQ); [unfold string_token, bind; passed |].
  destruct (is_space c); [done |].
  destruct (c =? 58); [unfold colon, bind; passed |].
  destruct (c =? 44); [unfold comma, bind; passed |].
  destruct (prim_start c); [unfold primitive_token, bind; passed | done].
Qed.

(** Stopping differs from going on only where it stops. *)
Definition stop_sim (k : Z) (x : option (outcome * jsmn_parser)) (o : outcome) (p' : jsmn_parser) :
    Prop :=
  match o with
  | Done r =>
      is_error r /\ x = Some (Done r, p') \/
      r = -42 /\ exists count p0, x = Some (Next count k, p0) /\ p' = at_pos p0 (jp_pos p0 + 1)
  | Next count _ => x = Some (Next count k, p')
  end.

Lemma string_token_stop p count k :
  inv js num_tokens p -> jp_pos p < zlen js ->
  wp (string_token js num_tokens true count k) p
     (stop_sim k (string_token js num_tokens false count k p)).
Proof.
  intros Hi Hlt. pose proof Hi as [Ht Hs Hp _].
  destruct (wp_elim _ _ _ (jsmn_parse_string_wp js num_tokens p Hp Hlt))
    as (r & p1 & E & [Hr | (-> & _ & i & Hir & ->)]).
  { assert (Hlt0 : (r <? 0) = true)
      by (unfold is_error, JSMN_ERROR_NOMEM, JSMN_ERROR_INVAL, JSMN_ERROR_PART in *; lia).
    assert (Ef : string_token js num_tokens false count k p = Some (Done r, p1))
      by (unfold string_token, bind; rewrite E; simpl; by rewrite Hlt0).
    rewrite Ef. unfold string_token. apply (wp_step E). rewrite Hlt0. apply wp_ret. by left. }
  set (t := mk_tok JSMN_STRING (jp_pos p + 1) i 0 (jp_toksuper p)) in *.
  pose proof (count_child_attach t i (jp_toksuper p) (jp_tokens p) eq_refl (spine_above _ _ Hs)) as Ec.
  assert (string_token js num_tokens false count k p =
          Some (Next (count + 1) k, mk_parser i (jp_toksuper p) (attach (jp_tokens p) t))) as ->.
  { unfold string_token, bind. rewrite E. simpl. by rewrite Ec. }
  unfold string_token. apply (wp_step E). simpl. apply (wp_step Ec).
  eapply wp_step; [reflexivity |]. unfold inside in Hp.
  assert (tok_at (attach (jp_tokens p) t) (zlen (attach (jp_tokens p) t) - 1) = Some t) as Hl.
  { rewrite zlen_attach. unfold attach.
    replace (zlen (jp_tokens p) + 1 - 1) with (zlen (bump (jp_tokens p) (tk_parent t))) by zl.
    apply tok_at_last. }
  apply (wp_step (token_eq (mk_parser _ _ _) _ _ Hl)).
  destruct (_ && _).
  { unfold wp. simpl. right. split; [done |]. eauto. }
  destruct ((k =? 0) && (tk_end t - tk_start t =? 2)) eqn:E2; [| done].
  simpl in E2.
  assert (is_Some (load8 js (tk_start t))) as [c0 Ec0] by (apply load8_is_Some; simpl; lia).
  assert (is_Some (load8 js (tk_start t + 1))) as [c1 Ec1] by (apply load8_is_Some; simpl; lia).
  apply wp_bind. eapply wp_lift; [exact Ec0 |]. cbv beta. destruct (c0 =? 105); [| done].
  apply wp_bind. by eapply wp_lift; [exact Ec1 |].
Qed.

(** An outcome that is the same either way. *)
Definition plain (k : Z) (x : option (outcome * jsmn_parser)) : Prop :=
  match x with
  | Some (Done r, _) => is_error r
  | Some (Next _ k', _) => k' = k
  | None => True
  end.

Lemma stop_sim_plain k (c : JM outcome) p :
  wp c p (fun _ _ => True) -> plain k (c p) -> wp c p (stop_sim k (c p)).
Proof.
  unfold wp, plain, stop_sim. destruct (c p) as [[[r | count k'] p'] |]; [intros _ He; by left | by intros _ -> | done].
Qed.

Lemma error_inval : is_error JSMN_ERROR_INVAL.
Proof. unfold is_error. auto. Qed.
Lemma error_nomem : is_error JSMN_ERROR_NOMEM.
Proof. unfold is_error. auto. Qed.
Hint Resolve error_inval error_nomem : core.

Lemma primitive_token_plain p c count k :
  inv js num_tokens p -> load8 js (jp_pos p) = Some c -> prim_start c = true ->
  plain k (primitive_token js num_tokens count k p).
Proof.
  intros [Ht Hs Hp _] Ec Hc.
  destruct (wp_elim _ _ _ (jsmn_parse_primitive_wp js num_tokens p c Hp Ec Hc))
    as (r & p1 & E & Hr).
  unfold primitive_token, bind, the_toksuper, ret, bind, get.
  destruct (if jp_toksuper p =? -1 then _ else _) as [[ok p2] |] eqn:Eok; [| done].
  assert (p2 = p) as ->.
  { destruct (jp_toksuper p =? -1); [congruence |]. unfold token, bind, get, lift in Eok.
    destruct (tok_at _ _); congruence. }
  destruct ok; simpl; [| auto]. rewrite E.
  destruct Hr as [Hr | (-> & _)]; [| simpl; destruct (count_child p1) as [[] |]; done].
  assert ((r <? 0) = true) as ->
    by (unfold is_error, JSMN_ERROR_NOMEM, JSMN_ERROR_INVAL, JSMN_ERROR_PART in *; lia).
  done.
Qed.

Lemma jsmn_char_stop p c count k :
  inv js num_tokens p -> load8 js (jp_pos p) = Some c -> count = zlen (jp_tokens p) ->
  wp (jsmn_char js num_tokens true c count k) p
     (stop_sim k (jsmn_char js num_tokens false c count k p)).
Proof.
  intros Hi Ec Hn. pose proof (load8_Some_range _ _ _ Ec) as Hlt.
  pose proof (jsmn_char_wp js num_tokens false p c count k Hi Ec Hn) as Hw.
  apply (wp_mono _ _ _ (fun _ _ => True)) in Hw; [| done].
  unfold jsmn_char in *.
  destruct (_ || _).
  { apply stop_sim_plain; [done |]. unfold open_token, bind, plain.
    destruct (jsmn_alloc_token _ _) as [[[i |] p1] |]; simpl; auto.
    destruct (if jp_toksuper p1 =? -1 then _ else _) as [[[|] p2] |]; simpl; auto.
    by destruct (token i p2) as [[? ?] |]; [destruct (set_token i _ _) as [[? ?] |] |]. }
  destruct (_ || _).
  { apply stop_sim_plain; [done |]. unfold close_token, bind, plain. simpl.
    destruct (_ <? 1); simpl; auto.
    destruct (close_loop _ _ _ _) as [[[|] ?] |]; simpl; auto. }
  destruct (c =? DQ); [apply string_token_stop; done || lia |].
  apply stop_sim_plain; [done |].
  destruct (is_space c); [done |].
  destruct (c =? 58); [done |].
  destruct (c =? 44).
  { unfold comma, bind, plain. simpl. destruct (jp_toksuper p =? -1); [done |].
    unfold token, bind, get, lift. destruct (tok_at _ _); [| done]. by destruct (_ || _). }
  destruct (prim_start c) eqn:Es; [by eapply primitive_token_plain | by simpl; auto].
Qed.

Lemma jsmn_loop_idkey fuel : forall p count k k',
  jsmn_loop js num_tokens fuel false count k p = jsmn_loop js num_tokens fuel false count k' p.
Proof.
  induction fuel as [| fuel IH]; intros p count k k'; [done |].
  simpl. unfold bind. destruct (peek js p) as [[[c |] p1] |]; [| done | done].
  rewrite (jsmn_char_idkey c count k k' p1).
  destruct (jsmn_char _ _ _ _ _ _ _) as [[[r | count' k''] p2] |]; simpl; [done | | done].
  destruct (incr_pos p2) as [[[] p3] |]; [apply IH | done].
Qed.

(** Any fuel that covers the rest of the text gives the same result. *)
Lemma jsmn_loop_enough stop f f' p count k :
  inv js num_tokens p -> count = zlen (jp_tokens p) ->
  zlen js - jp_pos p < Z.of_nat f -> zlen js - jp_pos p < Z.of_nat f' ->
  jsmn_loop js num_tokens f stop count k p = jsmn_loop js num_tokens f' stop count k p.
Proof.
  intros Hi Hc Hf Hf'.
  destruct (wp_elim _ _ _ (jsmn_loop_wp js num_tokens stop f p count k Hi Hc Hf)) as (r & q & E & _).
  destruct (wp_elim _ _ _ (jsmn_loop_wp js num_tokens stop f' p count k Hi Hc Hf')) as (r' & q' & E' & _).
  destruct (decide (f <= f')%nat).
  - rewrite E. symmetry. by apply (jsmn_loop_more stop f).
  - rewrite E'. apply (jsmn_loop_more stop f'); [lia | done].
Qed.

Lemma jsmn_loop_resume fuel' : forall fuel p count k p1,
  zlen js < Z.of_nat fuel' ->
  inv js num_tokens p -> count = zlen (jp_tokens p) -> zlen js - jp_pos p < Z.of_nat fuel ->
  jsmn_loop js num_tokens fuel true count k p = Some (-42, p1) ->
  jsmn_loop js num_tokens fuel false count k p =
  jsmn_loop js num_tokens fuel' false (zlen (jp_tokens p1)) 0 p1.
Proof.
  induction fuel as [| fuel IH]; intros p count k p1 HL Hi Hn Hf H; [done |].
  simpl in *. unfold bind in *.
  destruct (peek js p) as [[oc p0] |] eqn:Ep; [| done].
  unfold peek, the_pos, bind, get, ret in Ep. injection Ep as Eo <-.
  destruct oc as [c |].
  2: { unfold finish, bind, get, ret in H. injection H as H _.
       destruct (existsb _ _); unfold JSMN_ERROR_PART in H; zl. }
  assert (load8 js (jp_pos p) = Some c) as Ec.
  { destruct (load8 js (jp_pos p)) as [d |]; [| done]. destruct (d =? 0); [done | congruence]. }
  pose proof (jsmn_char_wp js num_tokens false p c count k Hi Ec Hn) as Hw.
  pose proof (jsmn_char_stop p c count k Hi Ec Hn) as Hs. unfold wp in Hw, Hs.
  destruct (jsmn_char js num_tokens true c count k p) as [[o p2] |] eqn:Et; [| done].
  pose proof (load8_Some_range _ _ _ Ec).
  destruct o as [r | count' k']; simpl in Hs.
  - injection H as -> ->. destruct Hs as [[He _] | (_ & count' & p0 & Ef & ->)];
      [unfold is_error, JSMN_ERROR_NOMEM, JSMN_ERROR_INVAL, JSMN_ERROR_PART in He; lia |].
    rewrite Ef in Hw |- *. destruct Hw as (Hi' & Hp' & ->). simpl.
    rewrite (jsmn_loop_idkey _ _ _ k 0).
    apply jsmn_loop_enough; [done | done | simpl; lia | simpl; lia].
  - rewrite Hs in Hw |- *. destruct Hw as (Hi' & Hp' & ->). simpl in *.
    rewrite (jsmn_loop_idkey _ _ _ k k'). apply (IH _ _ k'); [done | done | done | simpl; lia | exact H].
Qed.

(** A run that is allowed to stop and does not is the run that is not, errors
    included. *)
Lemma jsmn_loop_unstopped fuel : forall p count k r p1,
  inv js num_tokens p -> count = zlen (jp_tokens p) ->
  jsmn_loop js num_tokens fuel true count k p = Some (r, p1) -> r <> -42 ->
  jsmn_loop js num_tokens fuel false count k p = Some (r, p1).
Proof.
  induction fuel as [| fuel IH]; intros p count k r p1 Hi Hn H Hr; [done |].
  simpl in *. unfold bind in *.
  destruct (peek js p) as [[oc p0] |] eqn:Ep; [| done].
  unfold peek, the_pos, bind, get, ret in Ep. injection Ep as Eo <-.
  destruct oc as [c |]; [| done].
  assert (load8 js (jp_pos p) = Some c) as Ec.
  { destruct (load8 js (jp_pos p)) as [d |]; [| done]. destruct (d =? 0); [done | congruence]. }
  pose proof (jsmn_char_wp js num_tokens false p c count k Hi Ec Hn) as Hw.
  pose proof (jsmn_char_stop p c count k Hi Ec Hn) as Hs. unfold wp in Hw, Hs.
  destruct (jsmn_char js num_tokens true c count k p) as [[o p2] |] eqn:Et; [| done].
  destruct o as [r' | count' k']; simpl in Hs.
  - injection H as -> ->. destruct Hs as [[_ ->] | (-> & _)]; done.
  - rewrite Hs in Hw |- *. destruct Hw as (Hi' & Hp' & ->). simpl in *.
    rewrite (jsmn_loop_idkey _ _ _ k k'). by apply (IH _ _ k').
Qed.

Lemma jsmn_parse_continues p :
  0 <= num_tokens -> jsmn_parse js num_tokens true jsmn_init = Some (-42, p) ->
  jsmn_parse js num_tokens false p = jsmn_parse js num_tokens false jsmn_init.
Proof.
  intros Hn Hstop.
  symmetry. apply (jsmn_loop_resume (S (length js)) (S (length js)) jsmn_init 0 0 p).
  - unfold zlen. lia.
  - by apply inv_init.
  - done.
  - simpl. unfold zlen. lia.
  - exact Hstop.
Qed.

(** The count only grows. *)
Lemma jsmn_char_count stop c count k p count' k' p' :
  jsmn_char js num_tokens stop c count k p = Some (Next count' k', p') -> count <= count'.
Proof.
  unfold jsmn_char, open_token, close_token, string_token, colon, comma, primitive_token, bind, ret, get.
  intros H. repeat case_match; simplify_eq; try lia.
Qed.

Lemma jsmn_loop_count stop fuel : forall p count k r p',
  inv js num_tokens p -> count = zlen (jp_tokens p) ->
  jsmn_loop js num_tokens fuel stop count k p = Some (r, p') -> 0 <= r -> count <= r.
Proof.
  induction fuel as [| fuel IH]; intros p count k r p1 Hi Hn H Hr; [done |].
  simpl in *. unfold bind in *.
  destruct (peek js p) as [[oc p0] |] eqn:Ep; [| done].
  unfold peek, the_pos, bind, get, ret in Ep. injection Ep as Eo <-.
  destruct oc as [c |].
  2: { unfold finish, bind, get, ret in H. injection H as <- _.
       destruct (existsb _ _); [unfold JSMN_ERROR_PART in Hr; lia | lia]. }
  assert (load8 js (jp_pos p) = Some c) as Ec.
  { destruct (load8 js (jp_pos p)) as [d |]; [| done]. destruct (d =? 0); [done | congruence]. }
  pose proof (jsmn_char_wp js num_tokens stop p c count k Hi Ec Hn) as Hw. unfold wp in Hw.
  destruct (jsmn_char js num_tokens stop c count k p) as [[o p2] |] eqn:Et; [| done].
  destruct o as [r' | count' k'].
  - injection H as -> ->.
    destruct Hw as [He | (-> & _)]; [| lia].
    unfold is_error, JSMN_ERROR_NOMEM, JSMN_ERROR_INVAL, JSMN_ERROR_PART in He. lia.
  - apply jsmn_char_count in Et. destruct Hw as (Hi' & Hp' & ->). simpl in *.
    apply (IH _ _ k') in H; [lia | done | done | done].
Qed.

End resume.

(** ** JSON values

    Strings and primitives keep their characters as they stand in the text;
    white space is part of a value, so that every layout of a text is the text
    of some value.  A member of an object is the white space before its key, the
    key, the white space before the colon, and a value. *)

Unset Elimination Schemes.

Inductive json :=
| JString (raw : list Z)
| JPrimitive (raw : list Z)
| JArray (ws : list Z) (items : list json)
| JObject (ws : list Z) (members : list (list Z * list Z * list Z * json))
| JPad (before : list Z) (v : json) (after : list Z).

Set Elimination Schemes.

Section json_ind.
Variable P : json -> Prop.
Hypothesis Hstring : forall raw, P (JString raw).
Hypothesis Hprimitive : forall raw, P (JPrimitive raw).
Hypothesis Harray : forall ws items, Forall P items -> P (JArray ws items).
Hypothesis Hobject : forall ws members, Forall (fun m => P (snd m)) members -> P (JObject ws members).
Hypothesis Hpad : forall a v b, P v -> P (JPad a v b).

Fixpoint json_ind' (v : json) : P v :=
  match v with
  | JString raw => Hstring raw
  | JPrimitive raw => Hprimitive raw
  | JArray ws items =>
      Harray ws items
        ((fix all l : Forall P l :=
            match l with [] => @List.Forall_nil _ _ | v :: l => @List.Forall_cons _ _ v l (json_ind' v) (all l) end)
           items)
  | JObject ws members =>
      Hobject ws members
        ((fix all l : Forall (fun m => P (snd m)) l :=
            match l with
            | [] => @List.Forall_nil _ _
            | m :: l => @List.Forall_cons _ _ m l (json_ind' (snd m)) (all l)
            end) members)
  | JPad a v b => Hpad a v b (json_ind' v)
  end.
End json_ind.

(** The text of a member, around the text of its value. *)
Definition key_text (m : list Z * list Z * list Z * json) (t : list Z) : list Z :=
  let '(w1, key, w2, _) := m in w1 ++ [DQ] ++ key ++ [DQ] ++ w2 ++ [58] ++ t.

Fixpoint text (v : json) : list Z :=
  match v with
  | JString raw => [DQ] ++ raw ++ [DQ]
  | JPrimitive raw => raw
  | JArray ws items => [91] ++ ws ++ commas (map text items) ++ [93]
  | JObject ws members =>
      [123] ++ ws ++ commas (map (fun m => key_text m (text (snd m))) members) ++ [125]
  | JPad a v b => a ++ text v ++ b
  end.

Definition member_text (m : list Z * list Z * list Z * json) : list Z :=
  key_text m (text (snd m)).

(** The characters of a string: no quote, no NUL, and only the escapes of the
    tokenizer. *)
Fixpoint raw_ok (s : list Z) : bool :=
  match s with
  | [] => true
  | c :: s =>
      if c =? BSL then
        match s with
        | e :: s =>
            if escapable e then raw_ok s
            else
              (e =? 117) &&
              match s with
              | h1 :: h2 :: h3 :: h4 :: s =>
                  is_hexdigit h1 && is_hexdigit h2 && is_hexdigit h3 && is_hexdigit h4 && raw_ok s
              | _ => false
              end
        | [] => false
        end
      else negb (c =? DQ) && negb (c =? 0) && raw_ok s
  end.

Definition prim_ok (s : list Z) : bool :=
  match s with
  | [] => false
  | c :: _ => prim_start c
  end && forallb (fun c => (32 <=? c) && (c <? 127) && negb (prim_end c)) s.

Definition spaces (s : list Z) : bool := forallb is_space s.

(** A value whose text the tokenizer reads. *)
Fixpoint value_ok (v : json) : bool :=
  match v with
  | JString raw => raw_ok raw
  | JPrimitive raw => prim_ok raw
  | JArray ws items => spaces ws && forallb value_ok items
  | JObject ws members =>
      spaces ws &&
      forallb (fun m =>
        spaces (fst (fst (fst m))) && raw_ok (snd (fst (fst m))) && spaces (snd (fst m)) &&
        value_ok (snd m)) members
  | JPad a v b => spaces a && value_ok v && spaces b
  end.

(** A primitive with nothing after it: the tokenizer needs to see its end. *)
Fixpoint bare (v : json) : bool :=
  match v with
  | JPrimitive _ => true
  | JPad _ v b => bare v && bool_decide (b = [])
  | _ => false
  end.

(** The tokens of a value whose text begins at [off], the first of them at
    index [i] under the parent [par]. *)
Fixpoint toks (off par i : Z) (v : json) : list jsmntok :=
  match v with
  | JString raw => [mk_tok JSMN_STRING (off + 1) (off + 1 + zlen raw) 0 par]
  | JPrimitive raw => [mk_tok JSMN_PRIMITIVE off (off + zlen raw) 0 par]
  | JArray ws items =>
      mk_tok JSMN_ARRAY off (off + zlen (text v)) (zlen items) par ::
      (fix go off n (l : list json) :=
         match l with
         | [] => []
         | v :: l =>
             let ts := toks off i n v in ts ++ go (off + zlen (text v) + 1) (n + zlen ts) l
         end) (off + 1 + zlen ws) (i + 1) items
  | JObject ws members =>
      mk_tok JSMN_OBJECT off (off + zlen (text v)) (zlen members) par ::
      (fix go off n l :=
         match l with
         | [] => []
         | (w1, key, w2, v) :: l =>
             let o := off + zlen w1 + 1 in
             let ts :=
               mk_tok JSMN_STRING o (o + zlen key) 1 i ::
               toks (o + zlen key + 1 + zlen w2 + 1) n (n + 1) v in
             ts ++ go (o + zlen key + 1 + zlen w2 + 1 + zlen (text v) + 1) (n + zlen ts) l
         end) (off + 1 + zlen ws) (i + 1) members
  | JPad a v _ => toks (off + zlen a) par i v
  end.

(** The tokens of the items of an array, of the members of an object. *)
Fixpoint items_toks (par off n : Z) (l : list json) : list jsmntok :=
  match l with
  | [] => []
  | v :: l =>
      let ts := toks off par n v in
      ts ++ items_toks par (off + zlen (text v) + 1) (n + zlen ts) l
  end.

Definition member_toks (par off n : Z) (m : list Z * list Z * list Z * json) : list jsmntok :=
  let '(w1, key, w2, v) := m in
  let o := off + zlen w1 + 1 in
  mk_tok JSMN_STRING o (o + zlen key) 1 par :: toks (o + zlen key + 1 + zlen w2 + 1) n (n + 1) v.

Fixpoint members_toks (par off n : Z) (l : list (list Z * list Z * list Z * json)) : list jsmntok :=
  match l with
  | [] => []
  | m :: l =>
      let ts := member_toks par off n m in
      ts ++ members_toks par (off + zlen (member_text m) + 1) (n + zlen ts) l
  end.

Lemma toks_array off par i ws items :
  toks off par i (JArray ws items) =
  mk_tok JSMN_ARRAY off (off + zlen (text (JArray ws items))) (zlen items) par ::
  items_toks i (off + 1 + zlen ws) (i + 1) items.
Proof.
  cbn [toks]. f_equal. generalize (off + 1 + zlen ws), (i + 1).
  induction items as [| v items IH]; intros; [done |]. simpl. by rewrite IH.
Qed.

Lemma zlen_member_text w1 key w2 v :
  zlen (member_text (w1, key, w2, v)) = zlen w1 + 1 + zlen key + 1 + zlen w2 + 1 + zlen (text v).
Proof. unfold member_text, key_text. simpl. zl. Qed.

Lemma toks_object off par i ws members :
  toks off par i (JObject ws members) =
  mk_tok JSMN_OBJECT off (off + zlen (text (JObject ws members))) (zlen members) par ::
  members_toks i (off + 1 + zlen ws) (i + 1) members.
Proof.
  cbn [toks]. f_equal. generalize (off + 1 + zlen ws), (i + 1).
  induction members as [| [[[w1 key] w2] v] members IH]; intros; [done |].
  cbn [members_toks]. rewrite zlen_member_text. unfold member_toks. f_equal.
  rewrite IH. f_equal. lia.
Qed.

(** ** The tokenizer on the text of a value *)

Section value.
Variables (js : list Z) (num_tokens : Z).

(** The text holds [t] at [i]. *)
Definition here (i : Z) (t : list Z) : Prop := loadn js i (zlen t) = Some t.

Lemma here_app i a b : here i (a ++ b) -> here i a /\ here (i + zlen a) b.
Proof. apply loadn_app_inv. Qed.

Lemma here_char i c t : here i (c :: t) -> load8 js i = Some c.
Proof.
  intros H. rewrite <- (Z.add_0_r i). rewrite (loadn_load8 _ _ _ _ 0 H) by zl. done.
Qed.

Lemma here_cons i c t : here i (c :: t) -> load8 js i = Some c /\ here (i + 1) t.
Proof.
  intros H. split; [by eapply here_char |]. by apply (here_app i [c] t) in H as [_ H].
Qed.

Lemma here_range i t : here i t -> 0 <= i /\ i + zlen t <= zlen js.
Proof. intros (?&?&?&_)%loadn_Some. lia. Qed.

(** The parser gets from one state to another within as many rounds of its
    loop as it reads characters. *)
Definition runs (p p' : jsmn_parser) : Prop :=
  inv js num_tokens p ->
  inv js num_tokens p' /\ jp_pos p <= jp_pos p' /\
  exists n, Z.of_nat n <= jp_pos p' - jp_pos p /\ forall f,
    jsmn_loop js num_tokens (n + f) false (zlen (jp_tokens p)) 0 p =
    jsmn_loop js num_tokens f false (zlen (jp_tokens p')) 0 p'.

Lemma runs_refl p : runs p p.
Proof. intros Hi. split; [done |]. split; [lia |]. exists 0%nat. split; [lia | done]. Qed.

Lemma runs_trans p q r : runs p q -> runs q r -> runs p r.
Proof.
  intros H1 H2 Hi. destruct (H1 Hi) as (Hq & ? & n & ? & En).
  destruct (H2 Hq) as (Hr & ? & m & ? & Em). split; [done |]. split; [lia |].
  exists (n + m)%nat. split; [lia |]. intros f. by rewrite <- Nat.add_assoc, En, Em.
Qed.

(** One round. *)
Lemma runs_char p c count p' :
  load8 js (jp_pos p) = Some c -> c <> 0 ->
  jsmn_char js num_tokens false c (zlen (jp_tokens p)) 0 p = Some (Next count 0, p') ->
  runs p (at_pos p' (jp_pos p' + 1)).
Proof.
  intros Ec Hc E Hi. pose proof (jsmn_char_wp js num_tokens false p c _ 0 Hi Ec eq_refl) as Hw.
  unfold wp in Hw. rewrite E in Hw. destruct Hw as (Hi' & Hp & ->). split; [done |].
  simpl. split; [lia |]. exists 1%nat. split; [lia |]. intros f. simpl.
  unfold bind. rewrite peek_eq, Ec. destruct (Z.eqb_spec c 0); [done |]. by rewrite E.
Qed.

Lemma runs_spaces s : forall off super ts,
  spaces s = true -> here off s ->
  runs (mk_parser off super ts) (mk_parser (off + zlen s) super ts).
Proof.
  induction s as [| c s IH]; intros off super ts Hs Hh; simpl in Hs.
  { rewrite zlen_nil, Z.add_0_r. apply runs_refl. }
  apply andb_true_iff in Hs as [Hc Hs]. apply here_cons in Hh as [Ec Hh].
  eapply runs_trans; [eapply (runs_char _ c _ (mk_parser off super ts)); [exact Ec | |] |].
  - unfold is_space in Hc. lia.
  - unfold is_space in Hc. assert (c = 9 \/ c = 13 \/ c = 10 \/ c = 32) as [-> | [-> | [-> | ->]]] by lia; done.
  - simpl. rewrite zlen_cons, Z.add_assoc. by apply IH.
Qed.

(** Strings and primitives. *)

Lemma peek_char p c : load8 js (jp_pos p) = Some c -> c <> 0 -> peek js p = Some (Some c, p).
Proof. intros Ec Hc. rewrite peek_eq, Ec. by destruct (Z.eqb_spec c 0). Qed.

Lemma hex_loop_ok hs : forall p,
  forallb is_hexdigit hs = true -> here (jp_pos p) hs ->
  hex_loop js (length hs) p = Some (true, at_pos p (jp_pos p + zlen hs)).
Proof.
  induction hs as [| h hs IH]; intros p Hd Hh; simpl in *.
  { unfold ret. by rewrite zlen_nil, Z.add_0_r, at_pos_same. }
  apply andb_true_iff in Hd as [Hc Hd]. apply here_cons in Hh as [Ec Hh].
  unfold bind. rewrite (peek_char _ _ Ec) by (intros ->; done). rewrite Hc, incr_pos_eq.
  rewrite IH by done. by rewrite zlen_cons, at_pos_at, Z.add_assoc.
Qed.

Lemma escape_char_eq p e :
  load8 js (jp_pos p + 1) = Some e ->
  escape_char js p =
  (if escapable e then ret true
   else if e =? 117 then
     do* incr_pos in
     let* ok := hex_loop js 4 in
     if ok then do* decr_pos in ret true else ret false
   else ret false) (at_pos p (jp_pos p + 1)).
Proof.
  intros Ee. unfold escape_char. unfold bind at 1. rewrite incr_pos_eq. unfold bind at 1.
  rewrite the_pos_eq. simpl jp_pos. unfold bind at 1. by rewrite Ee.
Qed.

Lemma escape_char_hex p hs :
  here (jp_pos p + 1) (117 :: hs) -> length hs = 4%nat -> forallb is_hexdigit hs = true ->
  escape_char js p = Some (true, at_pos p (jp_pos p + 5)).
Proof.
  intros Hh Hl Hd. apply here_cons in Hh as [Eu Hh]. rewrite (escape_char_eq _ _ Eu).
  change (escapable 117) with false. change (117 =? 117) with true. cbv iota.
  rewrite <- Hl. unfold bind at 1. rewrite incr_pos_eq, at_pos_at. unfold bind at 1.
  rewrite hex_loop_ok by done. unfold zlen. rewrite Hl. unfold decr_pos, bind. simpl.
  unfold ret, at_pos. simpl. do 3 f_equal. lia.
Qed.

Lemma string_loop_end fuel p :
  load8 js (jp_pos p) = Some DQ -> string_loop js (S fuel) p = Some (1, p).
Proof. intros E. simpl. unfold bind. by rewrite (peek_char p DQ E). Qed.

Lemma string_loop_plain fuel p c :
  load8 js (jp_pos p) = Some c -> c <> DQ -> c <> BSL -> c <> 0 ->
  string_loop js (S fuel) p = string_loop js fuel (at_pos p (jp_pos p + 1)).
Proof.
  intros E H1 H2 H3. simpl. unfold bind. rewrite (peek_char p c E H3). rewrite the_pos_eq.
  destruct (Z.eqb_spec c DQ); [done |]. by destruct (Z.eqb_spec c BSL).
Qed.

Lemma string_loop_escape fuel p p' :
  load8 js (jp_pos p) = Some BSL -> jp_pos p + 1 < zlen js -> escape_char js p = Some (true, p') ->
  string_loop js (S fuel) p = string_loop js fuel (at_pos p' (jp_pos p' + 1)).
Proof.
  intros E Hl Ee. simpl. unfold bind. rewrite (peek_char p BSL E) by done. rewrite the_pos_eq.
  destruct (Z.ltb_spec (jp_pos p + 1) (zlen js)); [| lia]. simpl. by rewrite Ee.
Qed.

Lemma string_loop_raw n : forall s fuel p,
  (length s <= n)%nat -> raw_ok s = true -> here (jp_pos p) (s ++ [DQ]) ->
  zlen js - jp_pos p < Z.of_nat fuel ->
  string_loop js fuel p = Some (1, at_pos p (jp_pos p + zlen s)).
Proof.
  induction n as [| n IH]; intros s fuel p Hl Hok Hh Hf.
  all: pose proof (here_range _ _ Hh) as Hr; rewrite zlen_app in Hr.
  all: destruct fuel as [| fuel]; [zl |].
  all: destruct s as [| c s]; [| simpl in Hl; try lia].
  1,2: rewrite zlen_nil, Z.add_0_r, at_pos_same; apply string_loop_end;
       eapply here_char; exact Hh.
  simpl in Hh. apply here_cons in Hh as [Ec Hh].
  assert (forall k t, here (jp_pos p + 1 + k) (t ++ [DQ]) -> (length t <= n)%nat -> 0 <= k ->
            raw_ok t = true -> zlen s = k + zlen t ->
            string_loop js fuel (at_pos p (jp_pos p + k + 1)) =
            Some (1, at_pos p (jp_pos p + zlen (c :: s)))) as Hnext.
  { intros k t Ht Hlt Hk Hrt Hz. replace (jp_pos p + k + 1) with (jp_pos p + 1 + k) by lia.
    rewrite (IH t); try done; [| simpl; lia]. rewrite at_pos_at. simpl jp_pos.
    do 3 f_equal. rewrite zlen_cons. lia. }
  simpl in Hok. destruct (Z.eqb_spec c BSL) as [-> | Hb].
  - destruct s as [| e s]; [done |]. simpl in Hh, Hl. destruct (escapable e) eqn:Ee.
    + apply here_cons in Hh as [Ece Hh].
      rewrite (string_loop_escape _ _ (at_pos p (jp_pos p + 1))); [| done | zl |].
      2: by rewrite (escape_char_eq _ _ Ece), Ee.
      apply (Hnext 1 s); try done; [lia | by rewrite zlen_cons].
    + apply andb_true_iff in Hok as [He Hok]. apply Z.eqb_eq in He as ->.
      destruct s as [| h1 [| h2 [| h3 [| h4 s]]]]; try done.
      rewrite !andb_true_iff in Hok. destruct Hok as [[[[??]?]?]?].
      change (117 :: (h1 :: h2 :: h3 :: h4 :: s) ++ [DQ])
        with ((117 :: [h1; h2; h3; h4]) ++ (s ++ [DQ])) in Hh.
      apply here_app in Hh as [Hu Hh].
      rewrite (string_loop_escape _ _ (at_pos p (jp_pos p + 5))); [| done | zl |].
      2: { apply (escape_char_hex _ [h1; h2; h3; h4]); try done. simpl. by rewrite !andb_true_iff. }
      simpl in Hl. apply (Hnext 5 s); try done; [lia |]. rewrite !zlen_cons. lia.
  - apply andb_true_iff in Hok as [[Hq H0]%andb_true_iff Hok].
    rewrite (string_loop_plain _ _ c) by (done || lia).
    rewrite <- (Z.add_0_r (jp_pos p)) at 1. apply (Hnext 0 s); try done; [by rewrite Z.add_0_r | lia].
Qed.

Lemma primitive_loop_raw s : forall fuel p c,
  forallb (fun c => (32 <=? c) && (c <? 127) && negb (prim_end c)) s = true ->
  here (jp_pos p) s -> load8 js (jp_pos p + zlen s) = Some c -> prim_end c = true ->
  zlen js - jp_pos p < Z.of_nat fuel ->
  primitive_loop js fuel p = Some (1, at_pos p (jp_pos p + zlen s)).
Proof.
  induction s as [| d s IH]; intros fuel p c Hs Hh Ec He Hf.
  all: pose proof (load8_Some_range _ _ _ Ec).
  all: destruct fuel as [| fuel]; [zl |]; simpl; unfold bind.
  - rewrite Z.add_0_r in *. rewrite (peek_char p c) by (done || (intros ->; done)).
    rewrite He. unfold ret. by rewrite at_pos_same.
  - simpl in Hs. apply andb_true_iff in Hs as [[[H1 H2]%andb_true_iff H3]%andb_true_iff Hs].
    apply here_cons in Hh as [Ed Hh]. rewrite zlen_cons in *.
    rewrite (peek_char p d) by (done || lia).
    destruct (prim_end d); [done |].
    destruct (Z.ltb_spec d 32), (Z.leb_spec 127 d); cbn [orb]; try lia.
    rewrite incr_pos_eq. rewrite (IH _ _ c); try done.
    + rewrite at_pos_at. simpl jp_pos. do 3 f_equal. lia.
    + simpl. rewrite <- Ec. f_equal. lia.
    + simpl. lia.
Qed.

(** One token at a time. *)

Lemma runs_string off super ts raw :
  raw_ok raw = true -> here off ([DQ] ++ raw ++ [DQ]) -> above ts super -> zlen ts < num_tokens ->
  runs (mk_parser off super ts)
       (mk_parser (off + zlen ([DQ] ++ raw ++ [DQ])) super
          (attach ts (mk_tok JSMN_STRING (off + 1) (off + 1 + zlen raw) 0 super))).
Proof.
  intros Hok Hh Ha Hr. pose proof (here_range _ _ Hh) as Hrange. apply here_cons in Hh as [Ec Hh].
  set (t := mk_tok JSMN_STRING (off + 1) (off + 1 + zlen raw) 0 super).
  assert (jsmn_char js num_tokens false DQ (zlen ts) 0 (mk_parser off super ts) =
          Some (Next (zlen ts + 1) 0, mk_parser (off + 1 + zlen raw) super (attach ts t))) as E.
  { unfold jsmn_char. simpl. unfold string_token, jsmn_parse_string, bind.
    rewrite the_pos_eq, incr_pos_eq. unfold at_pos. simpl jp_pos. simpl jp_toksuper. simpl jp_tokens.
    rewrite (string_loop_raw (length raw) raw) by (simpl; (done || lia || (unfold zlen in *; simpl; lia))).
    simpl. rewrite emit_token_eq. unfold full. simpl.
    destruct (Z.leb_spec num_tokens (zlen ts)); [lia |]. simpl.
    by rewrite (count_child_attach t _ _ ts eq_refl Ha). }
  pose proof (runs_char (mk_parser off super ts) DQ _ _ Ec ltac:(done) E) as H.
  simpl in H. unfold at_pos in H. simpl in H.
  replace (off + zlen ([DQ] ++ raw ++ [DQ])) with (off + 1 + zlen raw + 1) by zl. exact H.
Qed.

(** The token a primitive may stand under: none, an array, or a key without value. *)
Definition accepts (ts : list jsmntok) (super : Z) : Prop :=
  super = -1 \/ exists t, tok_at ts super = Some t /\
    (tk_type t = JSMN_ARRAY \/ tk_type t = JSMN_STRING /\ tk_size t = 0).

Lemma accepts_above ts super : accepts ts super -> above ts super.
Proof. intros [-> | (t & H%tok_at_range & _)]; [by left | by right]. Qed.

Lemma accepts_may_hold ts super : accepts ts super -> may_hold ts super.
Proof.
  intros [-> | (t & H & Ht)]; [by left | right]. exists t. split; [done |].
  by destruct Ht as [-> | [-> _]].
Qed.

Lemma jsmn_char_prim d count k :
  prim_start d = true ->
  jsmn_char js num_tokens false d count k = primitive_token js num_tokens count k.
Proof.
  intros Hd. unfold jsmn_char. rewrite Hd. unfold prim_start, is_space, DQ in *.
  assert (((d =? 123) || (d =? 91)) = false) as -> by lia.
  assert (((d =? 125) || (d =? 93)) = false) as -> by lia.
  assert ((d =? 34) = false) as -> by lia.
  assert (((d =? 9) || (d =? 13) || (d =? 10) || (d =? 32)) = false) as -> by lia.
  assert ((d =? 58) = false) as -> by lia. by assert ((d =? 44) = false) as -> by lia.
Qed.

Lemma runs_primitive off super ts raw c :
  prim_ok raw = true -> here off raw -> load8 js (off + zlen raw) = Some c -> prim_end c = true ->
  accepts ts super -> zlen ts < num_tokens ->
  runs (mk_parser off super ts)
       (mk_parser (off + zlen raw) super
          (attach ts (mk_tok JSMN_PRIMITIVE off (off + zlen raw) 0 super))).
Proof.
  intros Hok Hh Ec He Ha Hr. pose proof (here_range _ _ Hh) as Hrange.
  destruct raw as [| d raw'] eqn:Eraw; [done |]. rewrite <- Eraw in *.
  set (t := mk_tok JSMN_PRIMITIVE off (off + zlen raw) 0 super).
  assert (load8 js off = Some d) as Ed by (rewrite Eraw in Hh; by eapply here_char).
  assert (prim_start d = true /\
    forallb (fun c => (32 <=? c) && (c <? 127) && negb (prim_end c)) raw = true) as [Hd Hall]
    by (rewrite Eraw in *; by apply andb_true_iff in Hok).
  assert (jsmn_char js num_tokens false d (zlen ts) 0 (mk_parser off super ts) =
          Some (Next (zlen ts + 1) 0, mk_parser (off + zlen raw - 1) super (attach ts t))) as E.
  { rewrite jsmn_char_prim by done.
    assert (jsmn_parse_primitive js num_tokens (mk_parser off super ts) =
            Some (0, mk_parser (off + zlen raw - 1) super (ts ++ [t]))) as Ep.
    { unfold jsmn_parse_primitive, bind. rewrite the_pos_eq. simpl jp_pos.
      rewrite (primitive_loop_raw raw _ _ c); try done; [| simpl; unfold zlen in *; lia].
      simpl. rewrite emit_token_eq. unfold full. simpl.
      destruct (Z.leb_spec num_tokens (zlen ts)); [lia |]. done. }
    unfold primitive_token, bind, the_toksuper, ret, bind, get. cbn [jp_toksuper].
    destruct Ha as [-> | (s & Es & Hty)].
    - simpl. by rewrite Ep.
    - pose proof (tok_at_range _ _ _ Es). destruct (Z.eqb_spec super (-1)); [lia |].
      cbv beta iota. rewrite (token_eq (mk_parser _ _ _) _ _ Es).
      assert ((bool_decide (tk_type s = JSMN_OBJECT) ||
               bool_decide (tk_type s = JSMN_STRING) && negb (tk_size s =? 0)) = false) as ->.
      { destruct Hty as [-> | [-> ->]]; done. }
      simpl. rewrite Ep. simpl.
      by rewrite (count_child_attach t _ super ts eq_refl (or_intror H)). }
  pose proof (runs_char (mk_parser off super ts) d (zlen ts + 1)
                (mk_parser (off + zlen raw - 1) super (attach ts t)) Ed) as H.
  assert (d <> 0) as Hd0 by (intros ->; done).
  specialize (H Hd0 E). simpl in H. unfold at_pos in H. simpl in H.
  by replace (off + zlen raw - 1 + 1) with (off + zlen raw) in H by lia.
Qed.

Lemma runs_open off super ts c :
  c = 123 \/ c = 91 -> load8 js off = Some c -> may_hold ts super -> zlen ts < num_tokens ->
  runs (mk_parser off super ts)
       (mk_parser (off + 1) (zlen ts) (attach ts (mk_tok (bracket c) off (-1) 0 super))).
Proof.
  intros Hc Ec Ha Hr.
  assert (jsmn_char js num_tokens false c = open_token num_tokens c) as Ej
    by (by destruct Hc as [-> | ->]).
  eapply (runs_char (mk_parser off super ts) c _ (mk_parser off _ _)); [done | lia |].
  rewrite Ej, open_token_eq; [done | | done]. unfold full. simpl. lia.
Qed.

Lemma runs_colon off super ts :
  load8 js off = Some 58 ->
  runs (mk_parser off super ts) (mk_parser (off + 1) (zlen ts - 1) ts).
Proof.
  intros Ec. by eapply (runs_char (mk_parser off super ts) 58 _ (mk_parser off _ _)).
Qed.

(** A comma goes back from a key to its object. *)
Definition resumed (ts : list jsmntok) (super : Z) : Z :=
  match tok_at ts super with
  | Some t =>
      if bool_decide (tk_type t = JSMN_ARRAY) || bool_decide (tk_type t = JSMN_OBJECT)
      then super else tk_parent t
  | None => super
  end.

Lemma runs_comma off super ts :
  load8 js off = Some 44 -> 0 <= super < zlen ts ->
  runs (mk_parser off super ts) (mk_parser (off + 1) (resumed ts super) ts).
Proof.
  intros Ec Hs. eapply (runs_char (mk_parser off super ts) 44 _ (mk_parser off _ _)); [done | done |].
  change (jsmn_char js num_tokens false 44) with (comma).
  destruct (tok_at_Some _ _ Hs) as [t Et]. unfold comma, the_toksuper, bind, ret, get. cbn [jp_toksuper].
  destruct (Z.eqb_spec super (-1)); [lia |].
  cbv beta iota. rewrite (token_eq (mk_parser _ _ _) _ _ Et).
  unfold resumed. rewrite Et. by destruct (_ || _).
Qed.

(** Closing walks over closed tokens to the one that is open. *)
Lemma close_loop_eq type p a t : forall fuel i,
  anc (parents (jp_tokens p)) i a -> i < Z.of_nat fuel -> i < zlen (jp_tokens p) ->
  (forall j u, a < j -> tok_at (jp_tokens p) j = Some u -> unclosed u = false) ->
  tok_at (jp_tokens p) a = Some t -> unclosed t = true -> tk_type t = type ->
  close_loop fuel type i p =
  Some (true, mk_parser (jp_pos p) (tk_parent t)
          (<[Z.to_nat a := mk_tok type (tk_start t) (jp_pos p + 1) (tk_size t) (tk_parent t)]>
             (jp_tokens p))).
Proof.
  intros fuel i Ha. revert fuel. induction Ha as [i | i q a Hl Hq Ha IH];
    intros fuel Hf Hlt Hcl Et Hu Hty; (destruct fuel as [| fuel]; [apply tok_at_range in Et; lia || lia |]).
  - simpl. unfold bind. rewrite (token_eq _ _ _ Et), Hu, decide_True by done.
    simpl. rewrite (set_token_eq _ _ _ t) by done. simpl. by rewrite Hty.
  - rewrite parents_at in Hl. destruct (tok_at (jp_tokens p) i) as [u |] eqn:Eu; [| done].
    injection Hl as Hl. simpl. unfold bind at 1. rewrite (token_eq _ _ _ Eu).
    rewrite (Hcl i u) by (done || (apply anc_le in Ha; lia)).
    destruct (Z.eqb_spec (tk_parent u) (-1)); [lia |]. rewrite Hl. apply IH; done || lia.
Qed.

(** ** Containers *)

Definition resize (t : jsmntok) (n : Z) : jsmntok :=
  mk_tok (tk_type t) (tk_start t) (tk_end t) n (tk_parent t).

Lemma tok_at_mid ts t body : tok_at (ts ++ t :: body) (zlen ts) = Some t.
Proof. rewrite tok_at_lookup by zl. rewrite to_nat_zlen. by rewrite list_lookup_middle by done. Qed.

Lemma insert_mid {A} (l : list A) x y body :
  <[Z.to_nat (zlen l) := y]> (l ++ x :: body) = l ++ y :: body.
Proof. rewrite to_nat_zlen, insert_app_r_alt by done. by rewrite Nat.sub_diag. Qed.

Lemma bump_mid ts t body : bump (ts ++ t :: body) (zlen ts) = ts ++ resize t (tk_size t + 1) :: body.
Proof. unfold bump. by rewrite tok_at_mid, insert_mid. Qed.

Definition closed (ts : list jsmntok) : Prop := Forall (fun t => unclosed t = false) ts.

Lemma runs_close off super ts t body c :
  c = 125 \/ c = 93 -> load8 js off = Some c ->
  tk_type t = (if c =? 125 then JSMN_OBJECT else JSMN_ARRAY) -> unclosed t = true -> closed body ->
  0 <= super -> anc (parents (ts ++ t :: body)) super (zlen ts) ->
  runs (mk_parser off super (ts ++ t :: body))
       (mk_parser (off + 1) (tk_parent t)
          (ts ++ mk_tok (tk_type t) (tk_start t) (off + 1) (tk_size t) (tk_parent t) :: body)).
Proof.
  intros Hc Ec Hty Hu Hb H0 Ha Hi. pose proof (iv_spine _ _ _ Hi) as [Hs | [_ Hs]]; simpl in Hs; [lia |].
  revert Hi. set (p := mk_parser off super (ts ++ t :: body)).
  eapply (runs_char p c _ (mk_parser off _ _)); [done | lia |].
  assert (jsmn_char js num_tokens false c = close_token c) as -> by (by destruct Hc as [-> | ->]).
  unfold close_token, toknext, ret, bind, get. cbv beta.
  assert (0 <= zlen ts /\ 0 <= zlen body) as [? ?] by zl.
  assert (zlen (jp_tokens p) = zlen ts + 1 + zlen body) as El by (unfold p; simpl; zl).
  rewrite El. destruct (Z.ltb_spec (zlen ts + 1 + zlen body) 1); [lia |].
  rewrite (close_loop_eq _ p (zlen ts) t); simpl; try done; try lia; try (unfold p in El; simpl in El; lia).
  - by rewrite insert_mid, <- Hty.
  - eapply anc_trans; [| exact Ha]. rewrite zlen_parents in Hs.
    unfold p in El. simpl in El. by rewrite El in Hs.
  - intros j u Hj Hju. rewrite tok_at_lookup in Hju by lia.
    rewrite lookup_app_r in Hju by (unfold zlen in *; lia).
    apply lookup_cons_Some in Hju as [[Hz _] | [_ Hju]]; [unfold zlen in *; lia |].
    by eapply (proj1 (Forall_lookup _ _) Hb).
  - unfold p; simpl. apply tok_at_mid.
Qed.

Lemma unclosed_at type s e n p : 0 <= e -> unclosed (mk_tok type s e n p) = false.
Proof. intros. unfold unclosed. simpl. destruct (Z.eqb_spec e (-1)); [lia | by rewrite andb_false_r]. Qed.

Definition closes (v : json) : Prop := forall off par i, 0 <= off -> closed (toks off par i v).

Lemma items_toks_closed a items : Forall closes items -> forall off n,
  0 <= off -> closed (items_toks a off n items).
Proof.
  induction 1 as [| v items Hv _ IH]; intros off n H0; simpl; [constructor |].
  apply Forall_app. split; [by apply Hv | apply IH; zl].
Qed.

Lemma members_toks_closed a members : Forall (fun m => closes (snd m)) members -> forall off n,
  0 <= off -> closed (members_toks a off n members).
Proof.
  induction 1 as [| [[[w1 key] w2] v] members Hv _ IH]; intros off n H0; cbn [members_toks]; [constructor |].
  apply Forall_app. split; [| apply IH; zl].
  constructor; [apply unclosed_at; zl |]. apply Hv. zl.
Qed.

Lemma toks_closed v : closes v.
Proof.
  induction v as [raw | raw | ws items IH | ws members IH | a v b IH] using json_ind';
    intros off par i H0.
  - constructor; [| constructor]. apply unclosed_at. zl.
  - constructor; [| constructor]. apply unclosed_at. zl.
  - rewrite toks_array. constructor; [apply unclosed_at; zl | apply items_toks_closed; [done | zl]].
  - rewrite toks_object. constructor; [apply unclosed_at; zl | apply members_toks_closed; [done | zl]].
  - apply IH. zl.
Qed.

Lemma all_closed items : Forall closes items.
Proof. apply List.Forall_forall. intros. apply toks_closed. Qed.

Lemma all_members_closed (members : list (list Z * list Z * list Z * json)) :
  Forall (fun m => closes (snd m)) members.
Proof. apply List.Forall_forall. intros. apply toks_closed. Qed.

Lemma toks_nonempty v : forall off par i, 1 <= zlen (toks off par i v).
Proof.
  induction v as [raw | raw | ws items _ | ws members _ | a v b IH] using json_ind'; intros off par i;
    [done | done | rewrite toks_array, zlen_cons; zl | rewrite toks_object, zlen_cons; zl | apply IH].
Qed.

(** What the tokenizer does with a value. *)
Definition reads (v : json) : Prop := forall off par ts,
  value_ok v = true -> here off (text v) ->
  (bare v = true -> exists c, load8 js (off + zlen (text v)) = Some c /\ prim_end c = true) ->
  accepts ts par -> zlen ts + zlen (toks off par (zlen ts) v) <= num_tokens ->
  runs (mk_parser off par ts)
       (mk_parser (off + zlen (text v)) par (bump ts par ++ toks off par (zlen ts) v)).

(** What stands between the first of a list and the rest. *)
Definition sep {A} (l : list A) : list Z := match l with [] => [] | _ => [44] end.

Lemma commas_map_cons {A} (f : A -> list Z) x l :
  commas (map f (x :: l)) = f x ++ sep l ++ commas (map f l).
Proof. simpl. by destruct l. Qed.

Lemma runs_items ts arr items c : Forall reads items -> forall off size body,
  tk_type arr = JSMN_ARRAY -> forallb value_ok items = true ->
  here off (commas (map text items)) ->
  load8 js (off + zlen (commas (map text items))) = Some c -> prim_end c = true ->
  zlen ts + 1 + zlen body + zlen (items_toks (zlen ts) off (zlen ts + 1 + zlen body) items) <= num_tokens ->
  runs (mk_parser off (zlen ts) (ts ++ resize arr size :: body))
       (mk_parser (off + zlen (commas (map text items))) (zlen ts)
          (ts ++ resize arr (size + zlen items) ::
           body ++ items_toks (zlen ts) off (zlen ts + 1 + zlen body) items)).
Proof.
  induction 1 as [| v items Hv _ IH]; intros off size body Hty Hok Hh Ec He Hr.
  { simpl. rewrite zlen_nil, !Z.add_0_r, app_nil_r. apply runs_refl. }
  rewrite commas_map_cons in *. cbn [items_toks] in *.
  apply andb_true_iff in Hok as [Hokv Hok].
  apply here_app in Hh as [Hhv Hh]. rewrite zlen_app in Hr.
  set (n := zlen ts + 1 + zlen body) in *.
  assert (zlen (ts ++ resize arr size :: body) = n) as En by (unfold n; zl).
  assert (runs (mk_parser off (zlen ts) (ts ++ resize arr size :: body))
            (mk_parser (off + zlen (text v)) (zlen ts)
               (ts ++ resize arr (size + 1) :: body ++ toks off (zlen ts) n v))) as Hrun.
  { pose proof (Hv off (zlen ts) (ts ++ resize arr size :: body) Hokv Hhv) as H.
    rewrite En, bump_mid in H. rewrite <- app_assoc in H. simpl in H. apply H.
    - intros _. destruct items as [| w items].
      + exists c. split; [| done]. rewrite <- Ec. f_equal. simpl. by rewrite app_nil_r.
      + exists 44. split; [| done]. by apply here_char in Hh.
    - right. eexists. split; [apply tok_at_mid |]. by left.
    - pose proof (zlen_nonneg (items_toks (zlen ts) (off + zlen (text v) + 1)
                   (n + zlen (toks off (zlen ts) n v)) items)). lia. }
  destruct items as [| w items].
  { simpl. rewrite !app_nil_r, zlen_cons, zlen_nil. by rewrite Z.add_0_r. }
  apply here_cons in Hh as [Ecm Hh].
  eapply runs_trans; [exact Hrun |]. eapply runs_trans.
  { apply runs_comma; [exact Ecm |]. unfold n in *. zl. }
  unfold resumed. rewrite tok_at_mid. simpl tk_type. rewrite Hty. cbv [bool_decide].
  assert (n + zlen (toks off (zlen ts) n v) = zlen ts + 1 + zlen (body ++ toks off (zlen ts) n v)) as En'
    by (unfold n; zl).
  rewrite En' in *. rewrite !zlen_app in Ec |- *.
  replace (off + (zlen (text v) + (zlen (sep (w :: items)) + zlen (commas (map text (w :: items))))))
    with (off + zlen (text v) + 1 + zlen (commas (map text (w :: items)))) in * by (simpl; zl).
  specialize (IH (off + zlen (text v) + 1) (size + 1) (body ++ toks off (zlen ts) n v) Hty Hok Hh).
  rewrite <- app_assoc in IH.
  replace (size + zlen (v :: w :: items)) with (size + 1 + zlen (w :: items)) by (rewrite (zlen_cons v); lia).
  apply IH; try done. unfold n in *. zl.
Qed.

Definition member_ok (m : list Z * list Z * list Z * json) : bool :=
  spaces (fst (fst (fst m))) && raw_ok (snd (fst (fst m))) && spaces (snd (fst m)) && value_ok (snd m).

Lemma runs_member ts obj m off size body c :
  reads (snd m) -> member_ok m = true -> here off (member_text m) ->
  load8 js (off + zlen (member_text m)) = Some c -> prim_end c = true ->
  zlen ts + 1 + zlen body + zlen (member_toks (zlen ts) off (zlen ts + 1 + zlen body) m) <= num_tokens ->
  runs (mk_parser off (zlen ts) (ts ++ resize obj size :: body))
       (mk_parser (off + zlen (member_text m)) (zlen ts + 1 + zlen body)
          (ts ++ resize obj (size + 1) ::
           body ++ member_toks (zlen ts) off (zlen ts + 1 + zlen body) m)).
Proof.
  destruct m as [[[w1 key] w2] v]. cbn [snd]. intros Hv Hok Hh Ec He Hr.
  unfold member_ok in Hok. simpl in Hok.
  apply andb_true_iff in Hok as [[[H1 Hk]%andb_true_iff H2]%andb_true_iff Hokv].
  set (n := zlen ts + 1 + zlen body) in *. rewrite zlen_member_text in Ec |- *.
  unfold member_text, key_text in Hh. simpl snd in Hh.
  apply here_app in Hh as [Hw1 Hh].
  rewrite (app_assoc [DQ]), (app_assoc _ [DQ]), <- (app_assoc [DQ] key [DQ]) in Hh.
  apply here_app in Hh as [Hkey Hh]. apply here_app in Hh as [Hw2 Hh].
  apply here_cons in Hh as [Ecol Hv'].
  cbn [member_toks] in Hr |- *.
  set (o := off + zlen w1) in *. rewrite zlen_cons in Hr.
  assert (zlen (ts ++ resize obj size :: body) = n) as En by (unfold n; zl).
  assert (0 <= zlen ts /\ 0 <= zlen body /\ 0 <= zlen key /\ 0 <= zlen w2) as (? & ? & ? & ?) by zl.
  assert (zlen ([DQ] ++ key ++ [DQ]) = zlen key + 2) as Ek by zl. rewrite Ek in *.
  eapply runs_trans; [by apply (runs_spaces w1) |]. fold o.
  eapply runs_trans.
  { apply (runs_string _ _ _ key); [done | done | right; unfold n in *; lia |].
    pose proof (zlen_nonneg (toks (o + 1 + zlen key + 1 + zlen w2 + 1) n (n + 1) v)). lia. }
  unfold attach. simpl tk_parent. rewrite bump_mid, Ek.
  set (kt := mk_tok JSMN_STRING (o + 1) (o + 1 + zlen key) 0 (zlen ts)).
  eapply runs_trans; [by apply (runs_spaces w2) |].
  eapply runs_trans; [by apply runs_colon |].
  set (B := ts ++ resize (resize obj size) (tk_size (resize obj size) + 1) :: body).
  assert (zlen B = n) as EB by (unfold n, B; zl).
  replace (zlen (B ++ [kt]) - 1) with (zlen B) by zl.
  pose proof (Hv (o + (zlen key + 2) + zlen w2 + 1) (zlen B) (B ++ [kt]) Hokv Hv') as Hval.
  replace (o + (zlen key + 2) + zlen w2 + 1) with (o + 1 + zlen key + 1 + zlen w2 + 1) in * by lia.
  rewrite bump_mid in Hval. replace (zlen (B ++ [kt])) with (n + 1) in Hval by zl. rewrite EB in *.
  replace (off + (zlen w1 + 1 + zlen key + 1 + zlen w2 + 1 + zlen (text v)))
    with (o + 1 + zlen key + 1 + zlen w2 + 1 + zlen (text v)) in * by (unfold o; lia).
  assert (forall l, ts ++ resize obj (size + 1) :: body ++ l = B ++ l) as El
    by (intros l; unfold B; by rewrite <- app_assoc).
  rewrite El. rewrite <- app_assoc in Hval. apply Hval.
  - intros _. eauto.
  - right. exists kt. split; [rewrite <- EB; apply tok_at_last | by right].
  - lia.
Qed.

(** The comma after a member goes back to the object. *)
Lemma runs_member_comma i ts obj body off m :
  load8 js i = Some 44 ->
  let n := zlen ts + 1 + zlen body in
  let ts' := ts ++ obj :: body ++ member_toks (zlen ts) off n m in
  runs (mk_parser i n ts') (mk_parser (i + 1) (zlen ts) ts').
Proof.
  intros Ec n ts'. destruct m as [[[w1 key] w2] v].
  set (B := ts ++ obj :: body).
  assert (zlen B = n) as EB by (unfold n, B; zl).
  assert (ts' = B ++ member_toks (zlen ts) off n (w1, key, w2, v)) as ->
    by (unfold B; by rewrite <- app_assoc).
  set (X := B ++ member_toks (zlen ts) off n (w1, key, w2, v)).
  assert (resumed X n = zlen ts) as Er
    by (unfold resumed, X; rewrite <- EB; cbn [member_toks]; by rewrite tok_at_mid).
  rewrite <- Er at 1. apply runs_comma; [exact Ec |].
  unfold X. rewrite zlen_app, EB. simpl. unfold n. zl.
Qed.

Lemma runs_members ts obj members c : Forall (fun m => reads (snd m)) members -> forall off size body,
  tk_type obj = JSMN_OBJECT -> forallb member_ok members = true ->
  here off (commas (map member_text members)) ->
  load8 js (off + zlen (commas (map member_text members))) = Some c -> prim_end c = true ->
  zlen ts + 1 + zlen body + zlen (members_toks (zlen ts) off (zlen ts + 1 + zlen body) members) <= num_tokens ->
  let ts' := ts ++ resize obj (size + zlen members) ::
             body ++ members_toks (zlen ts) off (zlen ts + 1 + zlen body) members in
  exists super, 0 <= super /\ anc (parents ts') super (zlen ts) /\
  runs (mk_parser off (zlen ts) (ts ++ resize obj size :: body))
       (mk_parser (off + zlen (commas (map member_text members))) super ts').
Proof.
  induction 1 as [| m members Hm _ IH]; intros off size body Hty Hok Hh Ec He Hr.
  { exists (zlen ts). split; [zl |]. split; [constructor |].
    simpl. rewrite zlen_nil, !Z.add_0_r, app_nil_r. apply runs_refl. }
  rewrite commas_map_cons in *. cbn [members_toks] in *.
  apply andb_true_iff in Hok as [Hokm Hok].
  apply here_app in Hh as [Hhm Hh]. rewrite zlen_app in Hr.
  set (n := zlen ts + 1 + zlen body) in *.
  pose proof (zlen_nonneg (members_toks (zlen ts) (off + zlen (member_text m) + 1)
                   (n + zlen (member_toks (zlen ts) off n m)) members)).
  pose proof (runs_member ts obj m off size body
                (match members with [] => c | _ => 44 end) Hm Hokm Hhm) as Hrun.
  fold n in Hrun. destruct members as [| m' members].
  { simpl in *. rewrite !app_nil_r in *. exists n. split; [unfold n; zl |].
    change (zlen [m]) with 1.
    rewrite zlen_nil in Hr. split; [| apply Hrun; done || lia].
    apply (anc_up _ _ (zlen ts)); [| unfold n; zl | constructor].
    replace n with (zlen (ts ++ resize obj (size + 1) :: body)) by (unfold n; zl).
    rewrite app_comm_cons, app_assoc, parents_at.
    destruct m as [[[w1 key] w2] v]. simpl. by rewrite tok_at_mid. }
  apply here_cons in Hh as [Ecm Hh].
  specialize (Hrun Ecm eq_refl ltac:(lia)).
  assert (n + zlen (member_toks (zlen ts) off n m) =
          zlen ts + 1 + zlen (body ++ member_toks (zlen ts) off n m)) as En' by (unfold n; zl).
  rewrite En' in *.
  assert (off + zlen (member_text m ++ sep (m' :: members) ++ commas (map member_text (m' :: members))) =
          off + zlen (member_text m) + 1 + zlen (commas (map member_text (m' :: members)))) as Epos
    by (rewrite !zlen_app; simpl sep; zl).
  rewrite Epos in *.
  destruct (IH (off + zlen (member_text m) + 1) (size + 1) (body ++ member_toks (zlen ts) off n m)
              Hty Hok Hh Ec He) as (super & H0 & Ha & Hrest); [unfold n in *; zl |].
  rewrite <- !app_assoc in *.
  replace (size + zlen (m :: m' :: members)) with (size + 1 + zlen (m' :: members))
    by (rewrite (zlen_cons m); lia).
  exists super. split; [done |]. split; [exact Ha |].
  eapply runs_trans; [exact Hrun |]. eapply runs_trans; [| exact Hrest].
  by apply runs_member_comma.
Qed.

Lemma value_reads v : reads v.
Proof.
  induction v as [raw | raw | ws items IH | ws members IH | a v b IH] using json_ind';
    intros off par ts Hok Hh Hb Ha Hr.
  - cbn [toks] in Hr. rewrite zlen_cons, zlen_nil in Hr.
    apply (runs_string _ _ _ raw); [done | done | by apply accepts_above | lia].
  - destruct (Hb eq_refl) as (c & Ec & He). apply (runs_primitive _ _ _ _ c); try done.
    cbn [toks] in Hr. rewrite zlen_cons, zlen_nil in Hr. lia.
  - rewrite toks_array in Hr |- *. simpl in Hok. apply andb_true_iff in Hok as [Hws Hok].
    rewrite zlen_cons in Hr. set (n := zlen ts) in *.
    set (arr := mk_tok JSMN_ARRAY off (-1) 0 par).
    pose proof (here_range _ _ Hh) as Hrange.
    assert (text (JArray ws items) = [91] ++ ws ++ commas (map text items) ++ [93]) as Et by done.
    rewrite Et in Hh. apply here_cons in Hh as [E91 Hh]. apply here_app in Hh as [Hhw Hh].
    apply here_app in Hh as [Hhi H93]. apply here_char in H93.
    set (o := off + 1 + zlen ws) in *.
    assert (off + zlen (text (JArray ws items)) = o + zlen (commas (map text items)) + 1) as El
      by (rewrite Et; unfold o; zl).
    pose proof (zlen_nonneg (items_toks n o (n + 1) items)).
    assert (zlen (bump ts par) = n) as Eb by (unfold n; zl).
    eapply runs_trans; [apply (runs_open _ _ _ 91); [by right | done | by apply accepts_may_hold | lia] |].
    eapply runs_trans; [by apply (runs_spaces ws) |]. fold o n. unfold attach. simpl tk_parent.
    pose proof (runs_items (bump ts par) arr items 93 IH o 0 [] eq_refl Hok Hhi H93 eq_refl) as Hrun.
    rewrite Eb, zlen_nil, !Z.add_0_r in Hrun. specialize (Hrun ltac:(lia)).
    eapply runs_trans; [exact Hrun |]. rewrite El.
    apply (runs_close _ _ _ (resize arr (0 + zlen items)) _ 93); try done; [by right | | | |].
    + unfold unclosed. simpl. destruct (Z.eqb_spec off (-1)); [lia | done].
    + apply items_toks_closed; [apply all_closed | unfold o; zl].
    + unfold n. zl.
    + rewrite Eb. constructor.
  - rewrite toks_object in Hr |- *. simpl in Hok. apply andb_true_iff in Hok as [Hws Hok].
    rewrite zlen_cons in Hr. set (n := zlen ts) in *.
    set (obj := mk_tok JSMN_OBJECT off (-1) 0 par).
    pose proof (here_range _ _ Hh) as Hrange.
    assert (text (JObject ws members) = [123] ++ ws ++ commas (map member_text members) ++ [125]) as Et by done.
    rewrite Et in Hh. apply here_cons in Hh as [E91 Hh]. apply here_app in Hh as [Hhw Hh].
    apply here_app in Hh as [Hhi H93]. apply here_char in H93.
    set (o := off + 1 + zlen ws) in *.
    assert (off + zlen (text (JObject ws members)) = o + zlen (commas (map member_text members)) + 1) as El
      by (rewrite Et; unfold o; zl).
    pose proof (zlen_nonneg (members_toks n o (n + 1) members)).
    assert (zlen (bump ts par) = n) as Eb by (unfold n; zl).
    eapply runs_trans; [apply (runs_open _ _ _ 123); [by left | done | by apply accepts_may_hold | lia] |].
    eapply runs_trans; [by apply (runs_spaces ws) |]. fold o n. unfold attach. simpl tk_parent.
    pose proof (runs_members (bump ts par) obj members 125 IH o 0 [] eq_refl Hok Hhi H93 eq_refl) as Hrun.
    cbv zeta in Hrun. rewrite Eb, zlen_nil, !Z.add_0_r in Hrun.
    destruct (Hrun ltac:(lia)) as (super & H0 & Hanc & Hrun').
    eapply runs_trans; [exact Hrun' |]. rewrite El.
    apply (runs_close _ _ _ (resize obj (0 + zlen members)) _ 125); try done; [by left | | |].
    + unfold unclosed. simpl. destruct (Z.eqb_spec off (-1)); [lia | done].
    + apply members_toks_closed; [apply all_members_closed | unfold o; zl].
    + by rewrite Eb.
  - simpl in *. apply andb_true_iff in Hok as [[Hsa Hok]%andb_true_iff Hsb].
    apply here_app in Hh as [Hha Hh]. apply here_app in Hh as [Hhv Hhb].
    rewrite !zlen_app in *. eapply runs_trans; [by apply (runs_spaces a) |].
    replace (off + (zlen a + (zlen (text v) + zlen b))) with (off + zlen a + zlen (text v) + zlen b) in * by lia.
    eapply runs_trans; [| by apply (runs_spaces b)].
    apply IH; try done. intros Hbv. destruct b as [| c b].
    + rewrite zlen_nil, Z.add_0_r in Hb. apply Hb. by rewrite Hbv.
    + exists c. apply here_char in Hhb. split; [done |]. simpl in Hsb.
      unfold prim_end, is_space in *. lia.
Qed.

End value.

(** ** The tokenizer *)

Lemma jsmn_parse_text num_tokens v :
  value_ok v = true -> bare v = false -> zlen (toks 0 (-1) 0 v) <= num_tokens ->
  jsmn_parse (text v) num_tokens false jsmn_init =
  Some (zlen (toks 0 (-1) 0 v), mk_parser (zlen (text v)) (-1) (toks 0 (-1) 0 v)).
Proof.
  intros Hok Hb Hr. set (js := text v).
  assert (inv js num_tokens jsmn_init) as Hi by (apply inv_init; pose proof (zlen_nonneg (toks 0 (-1) 0 v)); lia).
  destruct (value_reads js num_tokens v 0 (-1) [] Hok) as (Hi' & Hp & n & Hn & En); try done.
  - unfold here, js. rewrite loadn_in_range by zl. f_equal. rewrite to_nat_zlen.
    change (Z.to_nat 0) with 0%nat. by rewrite drop_0, take_ge.
  - by rewrite Hb.
  - by left.
  - rewrite bump_root in *. simpl app in *. rewrite (@zlen_nil jsmntok) in *. simpl jp_pos in *.
    simpl jp_tokens in En. rewrite zlen_nil in En. unfold jsmn_parse, toknext, bind, get, ret. simpl jp_tokens.
    assert (exists f, (S (length js) = n + S f)%nat) as [f ->].
    { exists (length js - n)%nat. unfold js, zlen in *. lia. }
    rewrite zlen_nil. change jsmn_init with (mk_parser 0 (-1) []). rewrite En. simpl. unfold bind.
    rewrite peek_eq. simpl jp_pos.
    match goal with |- context [load8 js ?i] => destruct (load8 js i) eqn:E end;
      [apply load8_Some_range in E; cbn [jp_pos] in E; unfold js in E; lia |].
    unfold finish, bind, get, ret. simpl jp_tokens.
    assert (existsb unclosed (toks 0 (-1) 0 v) = false) as ->; [| done].
    apply not_true_iff_false. intros (t & Hin & Ht)%existsb_exists.
    pose proof (toks_closed v 0 (-1) 0 ltac:(lia)) as Hc.
    unfold closed in Hc. rewrite List.Forall_forall in Hc. rewrite (Hc t Hin) in Ht. done.
Qed.

(** C16: The tokenizer reads JSON.  For every value - nested arrays and objects,
    strings with escapes, numbers, white space anywhere - that is not a lone
    number or word, and room for its tokens, parsing the text of the value ends
    at the end of the text and yields exactly the tokens of the value: type,
    range in the text, number of children and parent of each, in preorder. *)
Theorem jsmn_parse_value (num_tokens : Z) (v : json)
    (Hok : value_ok v = true) (Hb : bare v = false)
    (Hroom : zlen (toks 0 (-1) 0 v) <= num_tokens) :
  jsmn_parse (text v) num_tokens false jsmn_init =
  Some (zlen (toks 0 (-1) 0 v), mk_parser (zlen (text v)) (-1) (toks 0 (-1) 0 v)).
Proof. by apply jsmn_parse_text. Qed.

Definition demo_json : json :=
  JPad [32] (JArray [10]
    [JString (bytes_of "a\nb");
     JPad [32] (JObject [] [([], bytes_of "k", [32], JPrimitive (bytes_of "-12"));
                            ([32], bytes_of "t", [], JArray [] [])]) [];
     JPrimitive (bytes_of "null")]) [].

Lemma jsmn_parse_value_witness :
  zlen (text demo_json) = 35 /\
  jsmn_parse (text demo_json) 8 false jsmn_init =
  Some (8, mk_parser 35 (-1) (toks 0 (-1) 0 demo_json)).
Proof.
  split; [reflexivity |].
  exact (jsmn_parse_value 8 demo_json eq_refl eq_refl ltac:(vm_compute; discriminate)).
Defined.

(** C17: The tokenizer is safe on any bytes.  Whatever the text and however few
    tokens there is room for, it never reads outside the text or touches a token
    it has not allocated, and it stops: with an error; at an id, when asked to
    (the last token is then a string of 64 characters inside the text); or with
    the number of its tokens, all of them closed.  Unless it fails the tokens are
    a forest in preorder: a parent comes before its children and lies on the path
    to the node before, sizes count children, and every range is in the text. *)
Theorem jsmn_parse_safe (js : list Z) (num_tokens : Z) (stop : bool) (Hn : 0 <= num_tokens) :
  exists r p, jsmn_parse js num_tokens stop jsmn_init = Some (r, p) /\
    ((r = JSMN_ERROR_NOMEM \/ r = JSMN_ERROR_INVAL \/ r = JSMN_ERROR_PART) \/
     (r = -42 /\ stop = true /\ at_id p \/ r = zlen (jp_tokens p) /\ closed (jp_tokens p)) /\
     zlen (jp_tokens p) <= num_tokens /\ 0 <= jp_pos p <= zlen js /\ tokens_ok (jp_pos p) (jp_tokens p)).
Proof.
  destruct (wp_elim _ _ _ (jsmn_parse_wp js num_tokens stop _ (inv_init js num_tokens Hn)))
    as (r & p & E & H).
  exists r, p. split; [done |].
  destruct H as [He | [(-> & Hst & [Ht _ Hp Hr] & Ha) | (-> & [Ht _ Hp Hr] & Hc)]]; [by left | |];
    right; (split; [auto |]); done.
Qed.

Lemma jsmn_parse_safe_witness :
  exists r p, jsmn_parse (bytes_of "[1,2}") 3 true jsmn_init = Some (r, p) /\
    ((r = JSMN_ERROR_NOMEM \/ r = JSMN_ERROR_INVAL \/ r = JSMN_ERROR_PART) \/
     (r = -42 /\ true = true /\ at_id p \/ r = zlen (jp_tokens p) /\ closed (jp_tokens p)) /\
     zlen (jp_tokens p) <= 3 /\ 0 <= jp_pos p <= zlen (bytes_of "[1,2}") /\
     tokens_ok (jp_pos p) (jp_tokens p)).
Proof. exact (jsmn_parse_safe (bytes_of "[1,2}") 3 true ltac:(lia)). Defined.

(** A text of an event, with an id. *)
Definition demo_id_json : list Z :=
  bytes_of "{" ++ [DQ] ++ bytes_of "id" ++ [DQ; 58; DQ] ++ replicate 64 97 ++ [DQ; 44; DQ] ++
  bytes_of "a" ++ [DQ; 58] ++ bytes_of "1}".

Example stops_at_the_id : exists p, jsmn_parse demo_id_json 9 true jsmn_init = Some (-42, p) /\ jp_pos p = 72.
Proof. eexists. split; [vm_compute; reflexivity | reflexivity]. Qed.
