(* ===== verification/Builder.v ===== *)
(** * Building notes (src/src/nostrdb.c)

    The note builder writes a note and its string table into one caller's
    buffer: a slice for the note and its tags, a slice for the strings and a
    slice that indexes the strings for sharing.  [ndb_builder_finalize] moves
    the strings next to the note.  The state is the memory and the [builder]
    record of cursors; cryptography (SHA-256, secp256k1, the random source) is
    a parameter. *)

From S2P Require Export NoteJson.

(** ** State *)

Record builder := mk_builder {
  b_mem : cursor;
  note_cur : cursor;
  strings : cursor;
  str_indices : cursor;
  b_note : Z;
  current_tag : Z
}.

Definition BM (A : Type) : Type := M (mem * builder) A.

(** Run a cursor operation on one of the cursors of the builder. *)
Definition on (gc : builder -> cursor) (sc : builder -> cursor -> builder) {A} (w : CM A) :
    BM A :=
  fun s =>
    match w (fst s, gc (snd s)) with
    | None => None
    | Some (a, (m, c)) => Some (a, (m, sc (snd s) c))
    end.

Definition on_mem {A} : CM A -> BM A :=
  on b_mem (fun b c => mk_builder c (note_cur b) (strings b) (str_indices b) (b_note b) (current_tag b)).
Definition on_note_cur {A} : CM A -> BM A :=
  on note_cur (fun b c => mk_builder (b_mem b) c (strings b) (str_indices b) (b_note b) (current_tag b)).
Definition on_strings {A} : CM A -> BM A :=
  on strings (fun b c => mk_builder (b_mem b) (note_cur b) c (str_indices b) (b_note b) (current_tag b)).
Definition on_str_indices {A} : CM A -> BM A :=
  on str_indices (fun b c => mk_builder (b_mem b) (note_cur b) (strings b) c (b_note b) (current_tag b)).

Definition the : BM builder := let* s := get in ret (snd s).
Definition set_builder (b : builder) : BM unit := let* s := get in put (fst s, b).
Definition bload (a n : Z) : BM (list Z) := let* s := get in lift (loadn (fst s) a n).
Definition bstore (a : Z) (bs : list Z) : BM unit :=
  let* s := get in let* m := lift (storen (fst s) a bs) in put (m, snd s).

(** A 16-bit counter in memory. *)
Definition incr_u16 (a : Z) : BM unit :=
  let* l := bload a 2 in bstore a (le_bytes 2 (le_int l + 1)).

(** ** Packed strings *)

Definition ndb_offset_str (offset : Z) : Z := Z.land offset 0xFFFFFF.

(** [pstr->packed.flag = f] on the 32-bit view of the union. *)
Definition set_flag (pstr f : Z) : Z := Z.land pstr 0xFFFFFF + f * 2 ^ 24.

Definition ndb_chars_to_packed_str (c1 c2 : Z) : Z := le_int [c1; c2; 0; NDB_PACKED_STR].

(** The third character is never assigned: [junk] is what it happens to be. *)
Definition ndb_char_to_packed_str (junk c : Z) : Z := le_int [c; 0; junk; NDB_PACKED_STR].

(** ** Initialization and plain fields *)

Definition ndb_builder_init (buf bufsize : Z) : BM bool :=
  if bufsize <? off.sizeof * 2 then ret false
  else
    let str_indices_size := i32 (bufsize / 32) in
    let size := i32 (bufsize - str_indices_size) in
    let half := Z.quot size 2 in
    do* (let* b := the in
         set_builder (mk_builder (make_cursor buf (buf + bufsize)) (note_cur b) (strings b)
                        (str_indices b) buf (current_tag b))) in
    let* n := on_mem (cursor_slice half) in
    match n with None => ret false | Some nc =>
    let* st := on_mem (cursor_slice half) in
    match st with None => ret false | Some sc =>
    let* si := on_mem (cursor_slice str_indices_size) in
    match si with None => ret false | Some ic =>
      do* bstore buf (replicate (Z.to_nat off.sizeof) 0) in
      let* b := the in
      do* set_builder (mk_builder (b_mem b) (set_p nc (c_p nc + off.sizeof)) sc ic buf
                         (current_tag b)) in
      do* bstore (buf + off.strings) (le_bytes 4 (c_start sc - buf)) in
      do* bstore (buf + off.version) [1] in
      ret true
    end end end.

Definition set_field (o : Z) (bs : list Z) : BM unit :=
  let* b := the in bstore (b_note b + o) bs.

Definition ndb_builder_set_pubkey (pubkey : list Z) : BM unit := set_field off.pubkey pubkey.
Definition ndb_builder_set_id (id : list Z) : BM unit := set_field off.id id.
Definition ndb_builder_set_sig (sig : list Z) : BM unit := set_field off.sig sig.
Definition ndb_builder_set_kind (kind : Z) : BM unit := set_field off.kind (le_bytes 4 kind).
Definition ndb_builder_set_created_at (t : Z) : BM unit :=
  set_field off.created_at (le_bytes 8 t).

(** ** Tags *)

Definition cursor_push_tag (count : Z) : CM bool := cursor_push_u16 count.

Definition ndb_builder_new_tag : BM bool :=
  let* b := the in
  do* incr_u16 (b_note b + off.tags_count) in
  let* b := the in
  do* set_builder (mk_builder (b_mem b) (note_cur b) (strings b) (str_indices b) (b_note b)
                     (c_p (note_cur b))) in
  on_note_cur (cursor_push_tag 0).

Definition ndb_builder_finalize_tag (offset : Z) : BM bool :=
  let* ok := on_note_cur (cursor_push_u32 offset) in
  if ok : bool then
    let* b := the in do* incr_u16 (current_tag b) in ret true
  else ret false.

(** ** Strings *)

(** [memcmp] reads all of its two ranges; the NUL is only looked at behind
    equal bytes. *)
Fixpoint find_str_loop (k : nat) (i : Z) (str : list Z) : BM (option Z) :=
  match k with
  | O => ret None
  | S k =>
      let* b := the in
      let* l := bload (c_start (str_indices b) + 4 * i) 4 in
      let index := le_int l in
      let some_str := c_start (strings b) + index in
      let* s := bload some_str (zlen str) in
      if decide (s = str) then
        let* e := bload (some_str + zlen str) 1 in
        if decide (e = [0]) then ret (Some (ndb_offset_str index))
        else find_str_loop k (i + 1) str
      else find_str_loop k (i + 1) str
  end.

Definition ndb_builder_find_str (str : list Z) : BM (option Z) :=
  let* indices := on_str_indices (cursor_count 4) in
  find_str_loop (Z.to_nat indices) 0 str.

Definition ndb_builder_push_str (str : list Z) : BM (option Z) :=
  let* b := the in
  let loc := u32 (c_p (strings b) - c_start (strings b)) in
  let* ok := on_strings (cursor_push str &&* cursor_push_byte 0) in
  if ok : bool then
    do* on_str_indices (cursor_push_u32 loc) in
    ret (Some (ndb_offset_str loc))
  else ret None.

Definition ndb_builder_push_packed_id (id : list Z) : BM (option Z) :=
  let* r := ndb_builder_push_str id in
  ret (option_map (fun p => set_flag p NDB_PACKED_ID) r).

(** [Some r] when the string is short or an id, with the result of packing it. *)
Definition ndb_builder_try_compact_str (junk : Z) (str : list Z) (pack_ids : bool) :
    BM (option Z) :=
  match str with
  | [] => ret (Some (ndb_char_to_packed_str junk 0))
  | [c] => ret (Some (ndb_char_to_packed_str junk c))
  | [c1; c2] => ret (Some (ndb_chars_to_packed_str c1 c2))
  | _ =>
      if pack_ids && (zlen str =? 64) then
        match hex_decode str 32 with
        | Some id_buf => ndb_builder_push_packed_id id_buf
        | None => ret None
        end
      else ret None
  end.

Definition ndb_builder_push_unpacked_str (str : list Z) : BM (option Z) :=
  let* r := ndb_builder_find_str str in
  match r with Some p => ret (Some p) | None => ndb_builder_push_str str end.

Definition ndb_builder_make_str (junk : Z) (str : list Z) (pack_ids : bool) : BM (option Z) :=
  let* r := ndb_builder_try_compact_str junk str pack_ids in
  match r with Some p => ret (Some p) | None => ndb_builder_push_unpacked_str str end.

Definition ndb_builder_set_content (junk : Z) (content : list Z) : BM bool :=
  do* set_field off.content_length (le_bytes 4 (zlen content)) in
  let* r := ndb_builder_make_str junk content false in
  match r with
  | Some p => do* set_field off.content (le_bytes 4 p) in ret true
  | None => ret false
  end.

Definition ndb_builder_push_tag_str (junk : Z) (str : list Z) : BM bool :=
  let* r := ndb_builder_make_str junk str true in
  match r with Some p => ndb_builder_finalize_tag p | None => ret false end.

Definition ndb_builder_push_tag_id (id : list Z) : BM bool :=
  let* r := ndb_builder_push_packed_id id in
  match r with Some p => ndb_builder_finalize_tag p | None => ret false end.

(** ** Strings of a JSON document *)

(** The scan of an escaped string: [p] is the position, [start] the first byte
    not yet pushed.  Each round moves [p] forward, so the length bounds them. *)
Fixpoint json_str_loop (fuel : nat) (str : list Z) (p start : nat) : CM (option (nat * nat)) :=
  match fuel with
  | O => ret (Some (p, start))
  | S fuel =>
      match str !! p with
      | None => ret (Some (p, start))
      | Some c =>
          match (if c =? BSL then str !! S p else None) with
          | Some c2 =>
              let* ok := (if decide (start < p)%nat
                          then cursor_push (take (p - start) (drop start str))
                          else ret true) &&*
                         cursor_push_unescaped_char c c2 in
              if ok : bool then json_str_loop fuel str (p + 2) (p + 2) else ret None
          | None => json_str_loop fuel str (p + 1) start
          end
      end
  end.

(** Success, the packed string (assigned before the strings are pushed) and the
    [written] out parameter. *)
Definition ndb_builder_make_json_str (junk : Z) (str : list Z) (pack_ids : bool) :
    BM (bool * option Z * Z) :=
  let* r := ndb_builder_try_compact_str junk str pack_ids in
  match r with
  | Some p => ret (true, Some p, zlen str)
  | None =>
      let* b := the in
      let pstr := ndb_offset_str (u32 (c_p (strings b) - c_start (strings b))) in
      let builder_start := c_p (strings b) in
      let* r := on_strings (json_str_loop (length str) str 0 0) in
      match r with
      | None => ret (false, Some pstr, zlen str)
      | Some (p, start) =>
          let* ok := on_strings (if decide (start < p)%nat
                                 then cursor_push (take (p - start) (drop start str))
                                 else ret true) in
          if ok : bool then
            let* b := the in
            let written := c_p (strings b) - builder_start in
            let* ok := on_strings (cursor_push_byte 0) in
            ret (ok, Some pstr, written)
          else ret (false, Some pstr, zlen str)
      end
  end.

Definition ndb_builder_push_json_tag (junk : Z) (str : list Z) : BM bool :=
  let* ' (ok, p, _) := ndb_builder_make_json_str junk str true in
  match ok, p with
  | true, Some p => ndb_builder_finalize_tag p
  | _, _ => ret false
  end.

(** ** Ids, signatures and finalization *)

Record keypair := mk_keypair { kp_pubkey : list Z; kp_secret : list Z; kp_pair : list Z }.

Section crypto.
(** SHA-256, and what the code uses of secp256k1 and the random source. *)
Context (sha256 : list Z -> list Z).
Context (schnorrsig_sign32 : list Z -> list Z -> list Z -> option (list Z)).
Context (keypair_create : list Z -> option (list Z)).
Context (keypair_xonly_pub : list Z -> option (list Z)).
Context (fill_random : option (list Z)).

Definition ndb_calculate_id (note buf buflen id : Z) : BM bool :=
  fun s =>
    match ndb_event_commitment (fst s) note (fst s, make_cursor buf (buf + buflen)) with
    | None => None
    | Some (len, (m, _)) =>
        if len =? 0 then Some (false, (m, snd s))
        else
          (let* d := bload buf len in
           do* bstore id (sha256 d) in ret true) (m, snd s)
    end.

Definition ndb_sign_id (kp : keypair) (id : list Z) : option (list Z) :=
  aux ← fill_random; schnorrsig_sign32 (kp_pair kp) id aux.

Definition ndb_create_keypair (secret : list Z) : option keypair :=
  pair ← keypair_create secret;
  pubkey ← keypair_xonly_pub pair;
  Some (mk_keypair pubkey secret pair).

Definition ndb_decode_key (secstr : list Z) : option keypair :=
  secret ← hex_decode secstr 32; ndb_create_keypair secret.

(** The total size, or 0 when the id or the signature cannot be made. *)
Definition ndb_builder_finalize (kp : option keypair) : BM Z :=
  let* b := the in
  let strings_len := i32 (c_p (strings b) - c_start (strings b)) in
  let note_end := c_p (note_cur b) + strings_len in
  let total_size := i32 (note_end - c_start (note_cur b)) in
  let* d := bload (c_start (strings b)) strings_len in
  do* bstore (c_p (note_cur b)) d in
  do* set_field off.strings (le_bytes 4 (c_p (note_cur b) - c_start (note_cur b))) in
  let* ok :=
    match kp with
    | None => ret true
    | Some kp =>
        let start := b_note b + total_size in
        do* ndb_builder_set_pubkey (kp_pubkey kp) in
        let* ok := ndb_calculate_id (b_note b) start (c_end (b_mem b) - start)
                     (b_note b + off.id) in
        if ok : bool then
          let* id := bload (b_note b + off.id) 32 in
          match ndb_sign_id kp id with
          | None => ret false
          | Some sig => do* set_field off.sig sig in ret true
          end
        else ret false
    end in
  if ok : bool then ret (Z.land (total_size + 7) (Z.lnot 7)) else ret 0.
End crypto.

(** ** The representation

    [g] is the geometry of the buffer; the builder stands for the header bytes
    [h] (everything before the tag count), the tags [ts], the string table
    [tbl] and the offsets [idx] of indexed strings. *)

Record geom := mk_geom { g_base : Z; g_size : Z }.

Definition g_isz (g : geom) : Z := g_size g / 32.
Definition g_half (g : geom) : Z := (g_size g - g_isz g) / 2.

Definition geom_ok (g : geom) (m : mem) : Prop :=
  0 <= g_base g /\ 2 * off.sizeof <= g_size g < 2 ^ 31 /\ g_base g + g_size g <= zlen m.

Definition idx_bytes (idx : list Z) : list Z := concat (map (le_bytes 4) idx).

(** Outside the buffer nothing changes. *)
Definition outside (g : geom) (m0 m : mem) : Prop :=
  zlen m = zlen m0 /\
  forall a n, a + n <= g_base g \/ g_base g + g_size g <= a -> loadn m a n = loadn m0 a n.

Record cursors_at (g : geom) (ts : list (list (list Z))) (tbl idx : list Z) (b : builder) : Prop := {
  ca_note : b_note b = g_base g;
  ca_mem : c_end (b_mem b) = g_base g + g_size g;
  ca_nc : note_cur b = mk_cursor (g_base g) (tag_addr (g_base g) ts) (g_base g + g_half g);
  ca_nc_room : off.sizeof + zlen (tags_bytes ts) <= g_half g;
  ca_st : strings b = mk_cursor (g_base g + g_half g) (g_base g + g_half g + zlen tbl)
                        (g_base g + 2 * g_half g);
  ca_st_room : zlen tbl <= g_half g;
  ca_si : str_indices b = mk_cursor (g_base g + 2 * g_half g)
            (g_base g + 2 * g_half g + 4 * zlen idx) (g_base g + 2 * g_half g + g_isz g);
  ca_si_room : 4 * zlen idx <= g_isz g;
  ca_cur : forall pre t, ts = pre ++ [t] -> current_tag b = tag_addr (g_base g) pre
}.

Record bytes_at (g : geom) (m0 : mem) (h : list Z) (n : Z) (tb tbl idx : list Z)
    (m : mem) : Prop := {
  ba_geom : geom_ok g m;
  ba_out : outside g m0 m;
  ba_hdr : loadn m (g_base g) off.tags_count = Some h;
  ba_count : loadn m (g_base g + off.tags_count) 2 = Some (le_bytes 2 n);
  ba_tags : loadn m (g_base g + off.sizeof) (zlen tb) = Some tb;
  ba_tbl : loadn m (g_base g + g_half g) (zlen tbl) = Some tbl;
  ba_idx : loadn m (g_base g + 2 * g_half g) (zlen (idx_bytes idx)) = Some (idx_bytes idx)
}.

Record shape_ok (ts : list (list (list Z))) (tbl idx : list Z) : Prop := {
  sh_count : zlen ts < 2 ^ 16;
  sh_tags : Forall tag_ok ts;
  sh_idx : Forall (fun o => 0 <= o < 2 ^ 32 /\ exists s, slice tbl o (s ++ [0])) idx
}.

Definition binv g m0 h ts tbl idx (s : mem * builder) : Prop :=
  cursors_at g ts tbl idx (snd s) /\
  bytes_at g m0 h (zlen ts) (tags_bytes ts) tbl idx (fst s) /\
  shape_ok ts tbl idx.

Lemma geom_facts g m :
  geom_ok g m -> 0 <= g_isz g /\ 2 * g_half g + g_isz g <= g_size g /\ off.sizeof - 5 <= g_half g.
Proof.
  intros (?&?&?). unfold g_half, g_isz, off.sizeof in *.
  pose proof (Z.div_mod (g_size g) 32). pose proof (Z.mod_pos_bound (g_size g) 32).
  pose proof (Z.div_mod (g_size g - g_size g / 32) 2).
  pose proof (Z.mod_pos_bound (g_size g - g_size g / 32) 2). lia.
Qed.

Lemma zlen_idx_bytes idx : zlen (idx_bytes idx) = 4 * zlen idx.
Proof.
  unfold idx_bytes. induction idx as [| o idx IH]; [done |].
  cbn [map concat]. rewrite zlen_app, zlen_le_bytes, IH, zlen_cons. lia.
Qed.

Lemma outside_store g m0 m a bs m' :
  outside g m0 m -> storen m a bs = Some m' ->
  g_base g <= a -> a + zlen bs <= g_base g + g_size g -> outside g m0 m'.
Proof.
  intros [L O] E H1 H2. split; [by rewrite (storen_length _ _ _ _ E) |].
  intros x n Hx. rewrite (loadn_storen_other _ _ _ _ _ _ E) by lia. by apply O.
Qed.

(** One byte range written, by region. *)
Section stores.
Context (g : geom) (m0 : mem) (h : list Z) (n : Z) (tb tbl idx : list Z).
Context (m m' : mem) (a : Z) (bs : list Z).
Hypothesis (B : bytes_at g m0 h n tb tbl idx m).
Hypothesis (E : storen m a bs = Some m').
Hypothesis (Rt : off.sizeof + zlen tb <= g_half g).
Hypothesis (Rs : zlen tbl <= g_half g).
Hypothesis (Ri : 4 * zlen idx <= g_isz g).

Ltac region :=
  pose proof (geom_facts _ _ (ba_geom _ _ _ _ _ _ _ _ B)); destruct B as [G O Hh Hc Ht Hs Hi];
  pose proof (zlen_nonneg bs); pose proof (zlen_nonneg tbl); pose proof (zlen_nonneg idx);
  pose proof (zlen_nonneg tb); pose proof (zlen_idx_bytes idx) as Zi;
  pose proof (storen_length _ _ _ _ E);
  unfold tag_addr in *; unfold off.sizeof, off.tags_count in *.

Ltac other := unfold off.sizeof, off.tags_count; rewrite (loadn_storen_other _ _ _ _ _ _ E) by lia; done.

Lemma store_header o :
  a = g_base g + o -> 0 <= o -> o + zlen bs <= off.tags_count ->
  exists h', storen h o bs = Some h' /\ bytes_at g m0 h' n tb tbl idx m'.
Proof.
  intros -> Ho1 Ho2. region. pose proof (loadn_length _ _ _ _ Hh) as Lh.
  destruct (storen_in_range h o bs) as [h' E']; [lia | lia |]. exists h'. split; [done |].
  pose proof (storen_length _ _ _ _ E') as Lh'.
  split; [by unfold geom_ok in *; lia | by eapply outside_store; eauto; lia | | other .. ].
  pose proof Hh as (?&?&?&_)%loadn_Some.
  unfold off.tags_count. apply loadn_ext; [lia | lia | lia |]. intros i Hi'.
  rewrite (load8_storen _ _ _ _ _ E).
  pose proof (load8_storen _ _ _ _ i E') as Hx. rewrite load8_lookup in Hx by lia. rewrite Hx.
  rewrite (loadn_load8 _ _ _ _ i Hh) by lia. rewrite load8_lookup by lia.
  destruct (Z.leb_spec (g_base g + o) (g_base g + i)), (Z.leb_spec o i),
    (Z.ltb_spec (g_base g + i) (g_base g + o + zlen bs)), (Z.ltb_spec i (o + zlen bs));
    simpl; try lia; try done. f_equal. lia.
Qed.

Lemma store_count n' :
  a = g_base g + off.tags_count -> bs = le_bytes 2 n' -> bytes_at g m0 h n' tb tbl idx m'.
Proof.
  intros Ha Hb. assert (Zb : zlen bs = 2) by (subst bs; by rewrite zlen_le_bytes).
  region. split; [by unfold geom_ok in *; lia | by eapply outside_store; eauto; lia | other | ..];
    try other.
  unfold off.tags_count. rewrite <- Ha, <- Hb. replace 2 with (zlen bs) at 1.
  by apply (loadn_storen_same m).
Qed.

Lemma store_tag_bytes :
  a = g_base g + off.sizeof + zlen tb -> a + zlen bs <= g_base g + g_half g ->
  bytes_at g m0 h n (tb ++ bs) tbl idx m'.
Proof.
  intros Ha Hr. region.
  split; [by unfold geom_ok in *; lia | by eapply outside_store; eauto; lia | other .. | | |]; try other.
  unfold off.sizeof. rewrite zlen_app. apply loadn_app; [other |].
  rewrite <- Ha. by apply (loadn_storen_same m).
Qed.

(** Rewriting part of the tag bytes, in the middle. *)
Lemma store_in_tags pre old post :
  tb = pre ++ old ++ post -> a = g_base g + off.sizeof + zlen pre -> zlen bs = zlen old ->
  bytes_at g m0 h n (pre ++ bs ++ post) tbl idx m'.
Proof.
  intros Etb Ha Hl. region. subst tb. rewrite !zlen_app in *.
  pose proof (zlen_nonneg pre). pose proof (zlen_nonneg post).
  split; [by unfold geom_ok in *; lia | by eapply outside_store; eauto; lia | other .. | | |]; try other.
  unfold off.sizeof. rewrite <- !zlen_app in Ht.
  apply loadn_app_inv in Ht as [Ht1 Ht2]. apply loadn_app_inv in Ht2 as [Ht2 Ht3].
  rewrite !zlen_app. apply loadn_app; [other |]. apply loadn_app.
  - rewrite <- Ha. by apply (loadn_storen_same m).
  - rewrite Hl. other.
Qed.

Lemma store_strings :
  a = g_base g + g_half g + zlen tbl -> a + zlen bs <= g_base g + 2 * g_half g ->
  bytes_at g m0 h n tb (tbl ++ bs) idx m'.
Proof.
  intros Ha Hr. region.
  split; [by unfold geom_ok in *; lia | by eapply outside_store; eauto; lia | other .. | | other].
  rewrite zlen_app. apply loadn_app; [other |]. rewrite <- Ha. by apply (loadn_storen_same m).
Qed.

Lemma store_index o :
  a = g_base g + 2 * g_half g + 4 * zlen idx -> bs = le_bytes 4 o ->
  4 * (zlen idx + 1) <= g_isz g -> bytes_at g m0 h n tb tbl (idx ++ [o]) m'.
Proof.
  intros Ha Hb Hr. assert (zlen bs = 4) by (subst bs; by rewrite zlen_le_bytes). region.
  split; [by unfold geom_ok in *; lia | by eapply outside_store; eauto; lia | other .. | ].
  assert (Hx : idx_bytes (idx ++ [o]) = idx_bytes idx ++ bs).
  { unfold idx_bytes. rewrite map_app, concat_app. cbn [map concat]. by rewrite app_nil_r, Hb. }
  rewrite Hx, zlen_app. apply loadn_app; [other |]. rewrite Zi, <- Ha.
  by apply (loadn_storen_same m).
Qed.
End stores.

(** ** Running the builder *)

Lemma on_Some {A} gc sc (w : CM A) m b a m' c' :
  w (m, gc b) = Some (a, (m', c')) -> on gc sc w (m, b) = Some (a, (m', sc b c')).
Proof. intros H. unfold on. simpl. by rewrite H. Qed.

Lemma bind_the {B} (k : builder -> BM B) s : bind the k s = k (snd s) s.
Proof. by destruct s. Qed.

Lemma bstore_Some {B} (k : unit -> BM B) m b a bs m' :
  storen m a bs = Some m' -> bind (bstore a bs) k (m, b) = k tt (m', b).
Proof. intros H. unfold bstore, bind, get, lift, put. simpl. by rewrite H. Qed.

Lemma bload_Some {B} (k : list Z -> BM B) m b a n l :
  loadn m a n = Some l -> bind (bload a n) k (m, b) = k l (m, b).
Proof. intros H. unfold bload, bind, get, lift. simpl. by rewrite H. Qed.

Lemma idx_slice_app idx tbl d :
  Forall (fun o => 0 <= o < 2 ^ 32 /\ exists s, slice tbl o (s ++ [0])) idx ->
  Forall (fun o => 0 <= o < 2 ^ 32 /\ exists s, slice (tbl ++ d) o (s ++ [0])) idx.
Proof.
  apply Forall_impl. intros o [? [s ?]]. split; [done |]. exists s. by apply slice_app.
Qed.

Section ops.
Context (g : geom) (m0 : mem).

Lemma set_field_spec h ts tbl idx s o bs :
  binv g m0 h ts tbl idx s -> 0 <= o -> o + zlen bs <= off.tags_count ->
  exists h' s', set_field o bs s = Some (tt, s') /\ storen h o bs = Some h' /\
    binv g m0 h' ts tbl idx s'.
Proof.
  intros (C & B & S) Ho1 Ho2. destruct s as [m b]. simpl in *.
  unfold set_field. rewrite bind_the. simpl. rewrite (ca_note _ _ _ _ _ C).
  pose proof (ba_geom _ _ _ _ _ _ _ _ B) as G. pose proof (geom_facts _ _ G).
  pose proof G as (?&?&?). pose proof (zlen_nonneg bs).
  pose proof (ca_nc_room _ _ _ _ _ C). pose proof (zlen_nonneg (tags_bytes ts)).
  unfold off.tags_count, off.sizeof in *.
  destruct (storen_in_range m (g_base g + o) bs) as [m' E]; [lia | lia |].
  destruct (store_header g m0 h _ _ tbl idx m m' (g_base g + o) bs B E (ca_nc_room _ _ _ _ _ C) o)
    as (h' & E' & B'); [done | done | unfold off.tags_count; lia |].
  exists h', (m', b). split; [| split; [done | by split]].
  unfold bstore, bind, get, lift, put. simpl. by rewrite E.
Qed.

Lemma strings_cwf h ts tbl idx m b :
  binv g m0 h ts tbl idx (m, b) -> cwf (m, strings b).
Proof.
  intros (C & B & S). simpl in *. rewrite (ca_st _ _ _ _ _ C).
  pose proof (ba_geom _ _ _ _ _ _ _ _ B) as G. pose proof (geom_facts _ _ G).
  pose proof G as (?&?&?). pose proof (ca_st_room _ _ _ _ _ C).
  unfold cwf, off.sizeof in *. simpl. zl.
Qed.

Lemma note_cur_cwf h ts tbl idx m b :
  binv g m0 h ts tbl idx (m, b) -> cwf (m, note_cur b).
Proof.
  intros (C & B & S). simpl in *. rewrite (ca_nc _ _ _ _ _ C).
  pose proof (ba_geom _ _ _ _ _ _ _ _ B) as G. pose proof (geom_facts _ _ G).
  pose proof G as (?&?&?). pose proof (ca_nc_room _ _ _ _ _ C).
  unfold cwf, tag_addr, off.sizeof in *. simpl. zl.
Qed.

Lemma str_indices_cwf h ts tbl idx m b :
  binv g m0 h ts tbl idx (m, b) -> cwf (m, str_indices b).
Proof.
  intros (C & B & S). simpl in *. rewrite (ca_si _ _ _ _ _ C).
  pose proof (ba_geom _ _ _ _ _ _ _ _ B) as G. pose proof (geom_facts _ _ G).
  pose proof G as (?&?&?). pose proof (ca_si_room _ _ _ _ _ C).
  unfold cwf, off.sizeof in *. simpl. zl.
Qed.

(** Whatever is pushed on the string cursor is appended to the table. *)
Lemma on_strings_pushed {A} h ts tbl idx m b (w : CM A) a st d :
  binv g m0 h ts tbl idx (m, b) -> w (m, strings b) = Some (a, st) ->
  pushed (m, strings b) d st -> zlen tbl + zlen d <= g_half g ->
  exists s', on_strings w (m, b) = Some (a, s') /\ binv g m0 h ts (tbl ++ d) idx s'.
Proof.
  intros (C & B & S) E [P Q] Hr. destruct st as [m' c']. simpl in *.
  destruct C as [C1 C2 C3 C4 C5 C6 C7 C8 C9]. rewrite C5 in P, Q. simpl in P, Q.
  eexists. split; [eapply on_Some, E |]. subst c'. unfold set_p. simpl. split; [| split].
  - split; simpl; auto; [| zl]. f_equal. zl.
  - eapply (store_strings g m0 h _ _ tbl idx m); eauto. lia.
  - destruct S as [S1 S2 S3]. split; auto. by apply idx_slice_app.
Qed.

Lemma strings_room h ts tbl idx m b n :
  binv g m0 h ts tbl idx (m, b) -> zlen tbl + n <= g_half g ->
  c_p (strings b) + n <= c_end (strings b).
Proof. intros (C & _ & _) ?. simpl in C. rewrite (ca_st _ _ _ _ _ C). simpl. lia. Qed.

Lemma on_strings_spec h ts tbl idx s w d r :
  Emits w d r -> binv g m0 h ts tbl idx s -> zlen tbl + r <= g_half g ->
  exists s', on_strings w s = Some (true, s') /\ binv g m0 h ts (tbl ++ d) idx s'.
Proof.
  intros [Rm O _] I Hr. destruct s as [m b]. pose proof (strings_cwf _ _ _ _ _ _ I) as W.
  destruct (O (m, strings b) W (strings_room _ _ _ _ _ _ _ I Hr)) as (st & E & P).
  eapply on_strings_pushed; eauto. lia.
Qed.

(** Indexing a string never fails the builder: without room it is skipped. *)
Lemma push_index_spec h ts tbl idx s o :
  binv g m0 h ts tbl idx s -> 0 <= o < 2 ^ 32 -> (exists t, slice tbl o (t ++ [0])) ->
  exists ok idx' s', on_str_indices (cursor_push_u32 o) s = Some (ok, s') /\
    binv g m0 h ts tbl idx' s' .
Proof.
  intros I Ho Hsl. destruct s as [m b]. pose proof (str_indices_cwf _ _ _ _ _ _ I) as W.
  pose proof I as (C & B & S). simpl in *. pose proof C as [C1 C2 C3 C4 C5 C6 C7 C8 C9].
  unfold on_str_indices, on. cbn [fst snd]. unfold cursor_push_u32, cursor_push.
  rewrite bind_cur, C7. cbn [c_p c_end]. rewrite zlen_le_bytes.
  destruct (Z.ltb_spec (g_base g + 2 * g_half g + g_isz g)
              (g_base g + 2 * g_half g + 4 * zlen idx + Z.of_nat 4)) as [L | L].
  - exists false, idx. eexists. split; [reflexivity |]. split; [| done].
    split; simpl; auto.
  - pose proof (ba_geom _ _ _ _ _ _ _ _ B) as G. pose proof (geom_facts _ _ G).
    pose proof G as (?&?&?). pose proof (zlen_nonneg idx). unfold off.sizeof in *.
    destruct (storen_in_range m (g_base g + 2 * g_half g + 4 * zlen idx) (le_bytes 4 o))
      as [m' E]; [lia | rewrite zlen_le_bytes; lia |].
    rewrite (bind_poke _ _ _ _ _ _ E), bind_goto.
    exists true, (idx ++ [o]). eexists. split; [reflexivity |]. simpl. split; [| split].
    + split; simpl; auto; [| zl]. unfold set_p. simpl. f_equal. rewrite zlen_app. zl.
    + eapply (store_index g m0 h _ _ tbl idx m); eauto; lia.
    + destruct S as [S1 S2 S3]. split; auto. apply Forall_app. split; [done |].
      constructor; [done | constructor].
Qed.

Lemma Exact_str0 str : Emits (cursor_push str &&* cursor_push_byte 0) (str ++ [0]) (zlen str + 1).
Proof. eapply Emits_room; [apply Emits_andM; apply _ | done | zl]. Qed.

Lemma ndb_offset_str_small o : 0 <= o < 2 ^ 24 -> ndb_offset_str o = o.
Proof. intros. unfold ndb_offset_str. rewrite land_24. by apply Z.mod_small. Qed.

(** A new string goes to the end of the table. *)
Lemma ndb_builder_push_str_spec h ts tbl idx s str :
  binv g m0 h ts tbl idx s -> zlen tbl + zlen str + 1 <= g_half g -> zlen tbl < 2 ^ 24 ->
  exists idx' s', ndb_builder_push_str str s = Some (Some (zlen tbl), s') /\
    binv g m0 h ts (tbl ++ str ++ [0]) idx' s'.
Proof.
  intros I Hr H24. unfold ndb_builder_push_str. rewrite bind_the.
  pose proof I as (C & B & S). rewrite (ca_st _ _ _ _ _ C). cbn [c_p c_start].
  replace (g_base g + g_half g + zlen tbl - (g_base g + g_half g)) with (zlen tbl) by lia.
  assert (E : u32 (zlen tbl) = zlen tbl) by (apply Z.mod_small; zl). rewrite E.
  destruct (on_strings_spec h ts tbl idx s _ _ _ (Exact_str0 str) I) as (s1 & E1 & I1); [lia |].
  rewrite (run_bind _ _ _ _ _ E1).
  destruct (push_index_spec h ts _ idx s1 (zlen tbl) I1) as (ok & idx' & s2 & E2 & I2).
  { zl. } { exists str. apply slice_end. }
  exists idx', s2. rewrite (run_bind _ _ _ _ _ E2). rewrite ndb_offset_str_small by zl. done.
Qed.

(** A stored entry that starts with [str] and a NUL gives a slice of the
    table: a string without NULs cannot run past the entry's terminator. *)
Lemma slice_found m a tbl o t str :
  loadn m a (zlen tbl) = Some tbl -> slice tbl o (t ++ [0]) -> no_nul str ->
  loadn m (a + o) (zlen str) = Some str -> loadn m (a + o + zlen str) 1 = Some [0] ->
  slice tbl o (str ++ [0]).
Proof.
  intros Ht Sl N L1 L2.
  pose proof (slice_loadn _ _ _ _ _ Ht Sl) as Lt. pose proof (slice_range _ _ _ Sl) as R.
  rewrite zlen_app in Lt, R. change (zlen [0]) with 1 in *.
  assert (Hl : zlen str <= zlen t).
  { destruct (Z.le_gt_cases (zlen str) (zlen t)) as [| Hgt]; [done |].
    pose proof (loadn_load8 _ _ _ _ (zlen t) Lt ltac:(zl)) as H1.
    rewrite to_nat_zlen, lookup_app_r, Nat.sub_diag in H1 by lia.
    pose proof (loadn_load8 _ _ _ _ (zlen t) L1 ltac:(zl)) as H2. rewrite H1 in H2.
    symmetry in H2. pose proof (Forall_lookup_1 _ _ _ _ N H2). done. }
  assert (L : loadn m (a + o) (zlen str + 1) = Some (str ++ [0])) by (by apply loadn_app).
  exists (take (Z.to_nat o) tbl), (drop (Z.to_nat (o + (zlen str + 1))) tbl).
  split; [| zl].
  rewrite (loadn_sub _ _ _ _ o (zlen str + 1) Ht) in L by zl. injection L as L.
  rewrite <- L. rewrite (Z2Nat.inj_add o) by zl. rewrite <- drop_drop.
  by rewrite take_drop, take_drop.
Qed.

Lemma find_str_loop_spec h ts tbl idx m b str :
  binv g m0 h ts tbl idx (m, b) -> no_nul str -> zlen tbl + zlen str + 1 <= g_half g ->
  zlen tbl <= 2 ^ 24 ->
  forall k i, i + Z.of_nat k = zlen idx -> 0 <= i ->
  exists r, find_str_loop k i str (m, b) = Some (r, (m, b)) /\
    (forall p, r = Some p -> 0 <= p < 2 ^ 24 /\ slice tbl p (str ++ [0])).
Proof.
  intros I N Hr H24. pose proof I as (C & B & S). cbn [fst snd] in C, B.
  pose proof (ba_geom _ _ _ _ _ _ _ _ B) as G. pose proof (geom_facts _ _ G). pose proof G as (?&?&?).
  induction k as [| k IH]; intros i Hk Hi; [by exists None |].
  destruct (lookup_lt_is_Some_2 idx (Z.to_nat i)) as [o Eo]; [unfold zlen in *; lia |].
  pose proof (Forall_lookup_1 _ _ _ _ (sh_idx _ _ _ S) Eo) as (Ho & t & Sl).
  pose proof (slice_range _ _ _ Sl) as R. rewrite zlen_app in R. change (zlen [0]) with 1 in R.
  cbn [find_str_loop]. rewrite bind_the. simpl in C, B. cbn [snd].
  rewrite (ca_si _ _ _ _ _ C), (ca_st _ _ _ _ _ C). cbn [c_start].
  assert (Li : loadn m (g_base g + 2 * g_half g + 4 * i) 4 = Some (le_bytes 4 o)).
  { rewrite <- (Z2Nat.id i) by lia. apply (loadn_concat4 m _ (map (le_bytes 4) idx)).
    - apply Forall_map, Forall_true. intros. apply zlen_le_bytes.
    - apply (ba_idx _ _ _ _ _ _ _ _ B).
    - by rewrite list_lookup_fmap, Eo. }
  rewrite (bload_Some _ _ _ _ _ _ Li).
  rewrite le_int_le_bytes_small by (change (256 ^ Z.of_nat 4) with (2 ^ 32); lia).
  pose proof (zlen_nonneg str). pose proof (zlen_nonneg t).
  destruct (loadn m (g_base g + g_half g + o) (zlen str)) as [s1 |] eqn:L1.
  2: { exfalso. rewrite loadn_in_range in L1 by (unfold off.sizeof in *; lia). discriminate. }
  rewrite (bload_Some _ _ _ _ _ _ L1).
  destruct (decide (s1 = str)) as [-> |]; [| apply IH; lia].
  destruct (loadn m (g_base g + g_half g + o + zlen str) 1) as [e |] eqn:L2.
  2: { exfalso. rewrite loadn_in_range in L2 by (unfold off.sizeof in *; lia). discriminate. }
  rewrite (bload_Some _ _ _ _ _ _ L2).
  destruct (decide (e = [0])) as [-> |]; [| apply IH; lia].
  eexists. split; [reflexivity |]. intros p [= <-].
  rewrite ndb_offset_str_small by lia. split; [lia |].
  eapply slice_found; eauto. apply (ba_tbl _ _ _ _ _ _ _ _ B).
Qed.

Lemma ndb_builder_find_str_spec h ts tbl idx s str :
  binv g m0 h ts tbl idx s -> no_nul str -> zlen tbl + zlen str + 1 <= g_half g ->
  zlen tbl <= 2 ^ 24 ->
  exists r, ndb_builder_find_str str s = Some (r, s) /\
    (forall p, r = Some p -> 0 <= p < 2 ^ 24 /\ slice tbl p (str ++ [0])).
Proof.
  intros I N Hr H24. destruct s as [m b]. pose proof I as (C & _ & _). simpl in C.
  unfold ndb_builder_find_str.
  assert (E : on_str_indices (cursor_count 4) (m, b) = Some (zlen idx, (m, b))).
  { unfold on_str_indices, on, cursor_count. cbn [fst snd]. rewrite bind_cur.
    rewrite (ca_si _ _ _ _ _ C). cbn [c_p c_start]. unfold ret.
    replace (g_base g + 2 * g_half g + 4 * zlen idx - (g_base g + 2 * g_half g))
      with (zlen idx * 4) by lia.
    rewrite Z.div_mul by lia. rewrite <- (ca_si _ _ _ _ _ C). by destruct b. }
  rewrite (run_bind _ _ _ _ _ E), to_nat_zlen.
  apply (find_str_loop_spec h ts tbl idx m b str I N Hr H24); [unfold zlen; lia | lia].
Qed.

(** What a string is stored as: an id when it is 64 hex digits in a tag. *)
Definition classify (pack_ids : bool) (str : list Z) : elem :=
  match (if pack_ids && (zlen str =? 64) then hex_decode str 32 else None) with
  | Some id => EId id
  | None => EStr str
  end.

Lemma le_bytes_le_int4 p : bytes_ok p -> zlen p = 4 -> le_bytes 4 (le_int p) = p.
Proof.
  intros H L. rewrite <- (le_bytes_le_int p H) at 2. f_equal. unfold zlen in L. lia.
Qed.

Lemma denotes_inline tbl junk s :
  is_byte junk -> bytes_ok s -> no_nul s -> zlen s <= 2 ->
  denotes tbl (le_bytes 4 (match s with
    | [c1; c2] => ndb_chars_to_packed_str c1 c2
    | [c] => ndb_char_to_packed_str junk c
    | _ => ndb_char_to_packed_str junk 0 end)) (EStr s).
Proof.
  intros J Hs N L. unfold ndb_chars_to_packed_str, ndb_char_to_packed_str, NDB_PACKED_STR.
  assert (forall c, is_byte c -> bytes_ok [c; 0; junk; 1]) as F.
  { intros c Hc. repeat (constructor; [assumption || (unfold is_byte; lia) |]). constructor. }
  destruct s as [| c [| c2 [| c3 s]]].
  - rewrite le_bytes_le_int4 by (try done; apply F; unfold is_byte; lia).
    by apply (den_inline _ _ [] [0; junk]).
  - apply Forall_cons_iff in Hs as [Hc _]. rewrite le_bytes_le_int4 by (by try apply F).
    by apply (den_inline _ _ [c] [junk]).
  - apply Forall_cons_iff in Hs as [Hc Hs]. apply Forall_cons_iff in Hs as [Hc2 _].
    rewrite le_bytes_le_int4; [by apply (den_inline _ _ [c; c2] []) | | done].
    repeat (constructor; [assumption || (unfold is_byte; lia) |]). constructor.
  - rewrite !zlen_cons in L. zl.
Qed.

Lemma hex_decode_zlen n : forall s id, hex_decode s n = Some id -> zlen id = Z.of_nat n.
Proof.
  induction n as [| n IH]; intros s id H.
  - destruct s as [| c1 [| c2 s]]; simpl in H; try done; [by injection H as <- |].
    destruct (char_to_hex c1), (char_to_hex c2); done.
  - destruct s as [| c1 [| c2 s]]; simpl in H; try done.
    destruct (char_to_hex c1), (char_to_hex c2); try done.
    destruct (hex_decode s n) as [p |] eqn:E; simpl in H; [| done]. injection H as <-.
    rewrite zlen_cons, (IH _ _ E). lia.
Qed.

(** Packing an id appends it to the table and flags the offset. *)
Lemma ndb_builder_push_packed_id_spec h ts tbl idx s id :
  binv g m0 h ts tbl idx s -> zlen id = 32 -> zlen tbl + 33 <= g_half g ->
  zlen tbl < 2 ^ 24 ->
  exists p x idx' s', ndb_builder_push_packed_id id s = Some (Some p, s') /\
    binv g m0 h ts (tbl ++ x) idx' s' /\ denotes (tbl ++ x) (le_bytes 4 p) (EId id) /\
    zlen x = 33.
Proof.
  intros I L Hr H24.
  destruct (ndb_builder_push_str_spec h ts tbl idx s id I) as (idx' & s' & E & I'); [lia | lia |].
  exists (set_flag (zlen tbl) NDB_PACKED_ID), (id ++ [0]), idx', s'.
  split; [unfold ndb_builder_push_packed_id; by rewrite (run_bind _ _ _ _ _ E) |].
  split; [done |]. split; [| zl].
  apply (den_id _ _ _ (zlen tbl)); [| zl | done |].
  - unfold set_flag, NDB_PACKED_ID. rewrite land_24, Z.mod_small by zl. done.
  - rewrite app_assoc. apply slice_app. apply slice_end.
Qed.

(** Making a string: the packed string denotes it, and the table grows by at
    most the string and its NUL. *)
Lemma ndb_builder_make_str_spec h ts tbl idx s junk str pack_ids :
  binv g m0 h ts tbl idx s -> is_byte junk -> bytes_ok str -> no_nul str ->
  zlen tbl + zlen str + 1 <= g_half g -> zlen tbl < 2 ^ 24 ->
  exists p x idx' s', ndb_builder_make_str junk str pack_ids s = Some (Some p, s') /\
    binv g m0 h ts (tbl ++ x) idx' s' /\
    denotes (tbl ++ x) (le_bytes 4 p) (classify pack_ids str) /\
    zlen x <= zlen str + 1.
Proof.
  intros I J Hs N Hr H24. unfold ndb_builder_make_str.
  destruct (decide (zlen str <= 2)) as [Hsm | Hbig].
  { pose proof (denotes_inline tbl junk str J Hs N Hsm) as D.
    assert (Ecl : classify pack_ids str = EStr str).
    { unfold classify. destruct (Z.eqb_spec (zlen str) 64); [lia |]. by rewrite andb_false_r. }
    rewrite Ecl.
    assert (E : exists p, ndb_builder_try_compact_str junk str pack_ids s = Some (Some p, s) /\
                     denotes tbl (le_bytes 4 p) (EStr str)).
    { destruct str as [| c [| c2 [| c3 str]]]; eauto. rewrite !zlen_cons in Hsm. zl. }
    destruct E as (p & E & D'). exists p, [], idx, s. rewrite (run_bind _ _ _ _ _ E), app_nil_r.
    split; [done |]. split; [done |]. split; [done | zl]. }
  destruct (match (if pack_ids && (zlen str =? 64) then hex_decode str 32 else None) with
            | Some id => Some id | None => None end) as [id |] eqn:Eid.
  - assert (Ecl : classify pack_ids str = EId id).
    { unfold classify. by destruct (if pack_ids && _ then _ else _) as [?|]; simplify_eq. }
    rewrite Ecl.
    destruct (pack_ids && (zlen str =? 64)) eqn:Ep; [| done].
    destruct (hex_decode str 32) as [id' |] eqn:Eh; [| done]. injection Eid as ->.
    pose proof (hex_decode_zlen _ _ _ Eh) as Lid. change (Z.of_nat 32) with 32 in Lid.
    apply andb_true_iff in Ep as [Ep1 Ep2]. apply Z.eqb_eq in Ep2.
    destruct (ndb_builder_push_packed_id_spec h ts tbl idx s id I Lid)
      as (p & x & idx' & s' & E & I' & D & L); [lia | lia |].
    exists p, x, idx', s'. split; [| split; [done | split; [done | lia]]].
    assert (E' : ndb_builder_try_compact_str junk str pack_ids s = Some (Some p, s')).
    { destruct str as [| c [| c2 [| c3 str]]]; try discriminate Ep2.
      unfold ndb_builder_try_compact_str. rewrite Ep1, Ep2. simpl andb. cbv iota.
      by rewrite Eh. }
    by rewrite (run_bind _ _ _ _ _ E').
  - assert (Ecl : classify pack_ids str = EStr str).
    { unfold classify. by destruct (if pack_ids && _ then _ else _) as [?|]. }
    rewrite Ecl.
    assert (E' : ndb_builder_try_compact_str junk str pack_ids s = Some (None, s)).
    { destruct str as [| c [| c2 [| c3 str]]]; try (exfalso; apply Hbig; zl; fail).
      unfold ndb_builder_try_compact_str. destruct (pack_ids && _); [| done].
      destruct (hex_decode _ 32); done. }
    rewrite (run_bind _ _ _ _ _ E'). unfold ndb_builder_push_unpacked_str.
    destruct (ndb_builder_find_str_spec h ts tbl idx s str I N Hr ltac:(lia)) as (r & E & F).
    rewrite (run_bind _ _ _ _ _ E). destruct r as [p |].
    + exists p, [], idx, s. destruct (F p eq_refl) as [Hp Sl]. rewrite app_nil_r.
      split; [done |]. split; [done |]. split; [by eapply den_str | zl].
    + destruct (ndb_builder_push_str_spec h ts tbl idx s str I Hr H24) as (idx' & s' & E2 & I').
      exists (zlen tbl), (str ++ [0]), idx', s'. split; [done |]. split; [done |].
      split; [| zl]. eapply den_str; eauto; [zl |]. apply slice_end.
Qed.

(** Tags. *)
Lemma tag_bytes_snoc t p :
  tag_bytes (t ++ [p]) = le_bytes 2 (zlen t + 1) ++ concat t ++ p.
Proof.
  unfold tag_bytes. rewrite zlen_app, concat_app. change (zlen [p]) with 1.
  cbn [concat]. by rewrite app_nil_r.
Qed.

Lemma incr_u16_Some {B} (k : unit -> BM B) m b a n m' :
  loadn m a 2 = Some (le_bytes 2 n) -> 0 <= n < 2 ^ 16 ->
  storen m a (le_bytes 2 (n + 1)) = Some m' ->
  bind (incr_u16 a) k (m, b) = k tt (m', b).
Proof.
  intros L Hn E. unfold incr_u16. unfold bind at 1.
  rewrite (bload_Some _ _ _ _ _ _ L). rewrite le_int_le_bytes_small by done.
  unfold bstore, bind, get, lift, put. simpl. by rewrite E.
Qed.

Lemma store_u16 m a old v :
  loadn m a 2 = Some old -> exists m', storen m a (le_bytes 2 v) = Some m'.
Proof.
  intros (?&?&?&_)%loadn_Some. apply storen_in_range; [done |]. by rewrite zlen_le_bytes.
Qed.

Lemma ndb_builder_new_tag_spec h ts tbl idx s :
  binv g m0 h ts tbl idx s -> off.sizeof + zlen (tags_bytes ts) + 2 <= g_half g ->
  zlen ts + 1 < 2 ^ 16 ->
  exists s', ndb_builder_new_tag s = Some (true, s') /\ binv g m0 h (ts ++ [[]]) tbl idx s'.
Proof.
  intros (C & B & S) Hr Hn. destruct s as [m b]. cbn [fst snd] in *.
  unfold ndb_builder_new_tag. rewrite bind_the. cbn [snd].
  pose proof C as [C1 C2 C3 C4 C5 C6 C7 C8 C9]. rewrite C1.
  destruct (store_u16 m _ _ (zlen ts + 1) (ba_count _ _ _ _ _ _ _ _ B)) as [m1 E1].
  rewrite (incr_u16_Some _ _ _ _ _ _ (ba_count _ _ _ _ _ _ _ _ B) ltac:(zl) E1).
  pose proof (store_count g m0 h _ _ tbl idx m m1 _ _ B E1 C4 (zlen ts + 1) eq_refl eq_refl) as B1.
  rewrite bind_the. unfold bind at 1, set_builder, bind, get, put. cbn [fst snd].
  unfold on_note_cur, on. cbn [fst snd note_cur]. unfold cursor_push_tag, cursor_push_u16, cursor_push.
  rewrite bind_cur, C3. cbn [c_p c_end]. rewrite zlen_le_bytes.
  destruct (Z.ltb_spec (g_base g + g_half g) (tag_addr (g_base g) ts + Z.of_nat 2)).
  { unfold tag_addr in *. lia. }
  pose proof (ba_geom _ _ _ _ _ _ _ _ B1) as G. pose proof (geom_facts _ _ G).
  pose proof G as (?&?&?). pose proof (zlen_nonneg (tags_bytes ts)).
  destruct (storen_in_range m1 (tag_addr (g_base g) ts) (le_bytes 2 0)) as [m2 E2].
  { unfold tag_addr, off.sizeof. lia. } { rewrite zlen_le_bytes. unfold tag_addr, off.sizeof in *. lia. }
  rewrite (bind_poke _ _ _ _ _ _ E2), bind_goto.
  assert (Et : tags_bytes (ts ++ [[]]) = tags_bytes ts ++ le_bytes 2 0).
  { rewrite tags_bytes_app, tags_bytes_1. done. }
  eexists. split; [reflexivity |]. unfold binv. cbn [fst snd]. split; [| split].
  - split; cbn [b_note b_mem note_cur strings str_indices current_tag]; auto.
    + unfold set_p. cbn [c_start c_end]. f_equal. unfold tag_addr. rewrite Et. zl.
    + rewrite Et, zlen_app, zlen_le_bytes. lia.
    + intros pre t E. apply app_inj_tail in E as [-> _]. done.
  - rewrite Et, zlen_app.
    eapply (store_tag_bytes g m0 h _ _ tbl idx m1); eauto.
  - destruct S as [S1 S2 S3]. split; auto; [zl |]. apply Forall_app. split; [done |].
    constructor; [split; [zl | constructor] | constructor].
Qed.

Lemma ndb_builder_finalize_tag_spec h pre t tbl idx s p :
  binv g m0 h (pre ++ [t]) tbl idx s ->
  off.sizeof + zlen (tags_bytes (pre ++ [t])) + 4 <= g_half g -> zlen t + 1 < 2 ^ 16 ->
  exists s', ndb_builder_finalize_tag p s = Some (true, s') /\
    binv g m0 h (pre ++ [t ++ [le_bytes 4 p]]) tbl idx s'.
Proof.
  intros I Hr Hn. pose proof I as (C & B & S). destruct s as [m b]. cbn [fst snd] in *.
  pose proof C as [C1 C2 C3 C4 C5 C6 C7 C8 C9].
  pose proof (ba_geom _ _ _ _ _ _ _ _ B) as G. pose proof (geom_facts _ _ G).
  pose proof G as (?&?&?). set (ts := pre ++ [t]) in *.
  pose proof (zlen_nonneg (tags_bytes ts)).
  unfold ndb_builder_finalize_tag.
  destruct (storen_in_range m (tag_addr (g_base g) ts) (le_bytes 4 p)) as [m1 E1].
  { unfold tag_addr, off.sizeof. lia. } { rewrite zlen_le_bytes. unfold tag_addr, off.sizeof in *. lia. }
  set (c1 := mk_cursor (g_base g) (tag_addr (g_base g) ts + 4) (g_base g + g_half g)).
  assert (E : on_note_cur (cursor_push_u32 p) (m, b) =
    Some (true, (m1, mk_builder (b_mem b) c1 (strings b) (str_indices b) (b_note b) (current_tag b)))).
  { unfold on_note_cur, on. cbn [fst snd]. unfold cursor_push_u32, cursor_push.
    rewrite bind_cur, C3. cbn [c_p c_end]. rewrite zlen_le_bytes.
    destruct (Z.ltb_spec (g_base g + g_half g) (tag_addr (g_base g) ts + Z.of_nat 4)).
    { unfold tag_addr in *. lia. }
    by rewrite (bind_poke _ _ _ _ _ _ E1), bind_goto. }
  rewrite (run_bind _ _ _ _ _ E). cbv iota. rewrite bind_the. cbn [snd current_tag].
  rewrite (C9 pre t eq_refl).
  assert (Etb : tags_bytes ts ++ le_bytes 4 p =
                tags_bytes pre ++ le_bytes 2 (zlen t) ++ (concat t ++ le_bytes 4 p)).
  { unfold ts. rewrite tags_bytes_app, tags_bytes_1. unfold tag_bytes. by rewrite <- !app_assoc. }
  assert (Et' : tags_bytes (pre ++ [t ++ [le_bytes 4 p]]) =
                tags_bytes pre ++ le_bytes 2 (zlen t + 1) ++ (concat t ++ le_bytes 4 p)).
  { by rewrite tags_bytes_app, tags_bytes_1, tag_bytes_snoc. }
  assert (Hr' : off.sizeof + zlen (tags_bytes ts ++ le_bytes 4 p) <= g_half g).
  { rewrite zlen_app, zlen_le_bytes. lia. }
  assert (B1 : bytes_at g m0 h (zlen ts) (tags_bytes ts ++ le_bytes 4 p) tbl idx m1).
  { eapply (store_tag_bytes g m0 h _ _ tbl idx m); eauto.
    rewrite zlen_le_bytes. unfold tag_addr in *. lia. }
  assert (L1 : loadn m1 (tag_addr (g_base g) pre) 2 = Some (le_bytes 2 (zlen t))).
  { pose proof (ba_tags _ _ _ _ _ _ _ _ B1) as L. rewrite Etb in L.
    apply loadn_app_inv in L as [_ L]. apply loadn_app_inv in L as [L _].
    by rewrite zlen_le_bytes in L. }
  destruct (store_u16 m1 _ _ (zlen t + 1) L1) as [m2 E2].
  rewrite (incr_u16_Some _ _ _ _ _ _ L1 ltac:(zl) E2).
  eexists. split; [reflexivity |]. unfold binv. cbn [fst snd].
  assert (Zl : zlen (tags_bytes (pre ++ [t ++ [le_bytes 4 p]])) = zlen (tags_bytes ts) + 4).
  { rewrite Et'. apply (f_equal zlen) in Etb. rewrite !zlen_app, !zlen_le_bytes in *. lia. }
  split; [| split].
  - split; cbn [b_note b_mem note_cur strings str_indices current_tag]; auto.
    + subst c1. f_equal. unfold tag_addr. rewrite Zl. lia.
    + lia.
    + intros pre' t' Eq. apply app_inj_tail in Eq as [<- _]. done.
  - rewrite Et'. replace (zlen (pre ++ [t ++ [le_bytes 4 p]])) with (zlen ts) by (unfold ts; zl).
    eapply (store_in_tags g m0 h _ _ tbl idx m1); eauto.
  - destruct S as [S1 S2 S3]. split; auto; [unfold ts in S1; zl |].
    apply Forall_app in S2 as [S2 S2']. apply Forall_app. split; [done |].
    apply Forall_cons_iff in S2' as [[_ S2'] _]. constructor; [| constructor].
    split; [zl |]. apply Forall_app. split; [done |]. constructor; [apply zlen_le_bytes | constructor].
Qed.
End ops.

(** ** Initialization *)

Lemma cursor_slice_spec m c size :
  cwf (m, c) -> 0 <= size -> c_p c + size <= c_end c ->
  exists m', cursor_slice size (m, c) =
      Some (Some (mk_cursor (c_p c) (c_p c) (c_p c + size)), (m', set_p c (c_p c + size))) /\
    storen m (c_p c) (replicate (Z.to_nat size) 0) = Some m'.
Proof.
  intros (?&?&?) Hs Hr. simpl in *.
  destruct (storen_in_range m (c_p c) (replicate (Z.to_nat size) 0)) as [m' E]; [lia | zl |].
  exists m'. split; [| done].
  assert (A : cursor_alloc size (m, c) = Some (Some (c_p c), (m', set_p c (c_p c + size)))).
  { unfold cursor_alloc, cursor_malloc. unfold bind at 1. rewrite bind_cur.
    destruct (Z.ltb_spec (c_end c) (c_p c + size)); [lia |]. rewrite bind_goto. unfold ret at 1.
    by rewrite (bind_poke _ _ _ _ _ _ E). }
  unfold cursor_slice. rewrite (run_bind _ _ _ _ _ A), bind_cur. done.
Qed.

Lemma mk_cursor_eq a p e a' p' e' :
  a = a' -> p = p' -> e = e' -> mk_cursor a p e = mk_cursor a' p' e'.
Proof. by intros -> -> ->. Qed.

Lemma i32_small z : 0 <= z < 2 ^ 31 -> i32 z = z.
Proof. intros. unfold i32. rewrite Z.mod_small by lia. lia. Qed.

Lemma bind_set_builder {B} (k : unit -> BM B) b' m b :
  bind (set_builder b') k (m, b) = k tt (m, b').
Proof. reflexivity. Qed.

Lemma bind_bind_the {A B} (f : builder -> BM A) (k : A -> BM B) s :
  bind (bind the f) k s = bind (f (snd s)) k s.
Proof. by destruct s. Qed.

Lemma loadn_zeros_of_store m a n m' b k :
  storen m a (replicate n 0) = Some m' -> a <= b -> 0 <= k -> b + k <= a + Z.of_nat n ->
  loadn m' b k = Some (replicate (Z.to_nat k) 0).
Proof.
  intros E H1 H2 H3. pose proof (loadn_storen_same _ _ _ _ E) as L. rewrite zlen_replicate in L.
  replace b with (a + (b - a)) by lia. rewrite (loadn_sub _ _ _ _ (b - a) k L) by lia.
  rewrite drop_replicate, take_replicate. do 2 f_equal. lia.
Qed.

Definition initial_header (g : geom) (h : list Z) : Prop :=
  exists h1, storen (replicate 158 0) off.strings (le_bytes 4 (g_half g)) = Some h1 /\
    storen h1 off.version [1] = Some h.

Lemma ndb_builder_init_spec g m b :
  geom_ok g m -> off.sizeof <= g_half g ->
  exists h s', ndb_builder_init (g_base g) (g_size g) (m, b) = Some (true, s') /\
    binv g m h [] [] [] s' /\ initial_header g h.
Proof.
  intros G Hh. pose proof G as (G1 & G2 & G3). pose proof (geom_facts _ _ G) as (F1 & F2 & F3).
  unfold ndb_builder_init.
  destruct (Z.ltb_spec (g_size g) (off.sizeof * 2)); [lia |].
  assert (I1 : i32 (g_size g / 32) = g_isz g).
  { apply i32_small. change (g_size g / 32) with (g_isz g).
    unfold off.sizeof in *. lia. }
  rewrite I1. assert (I2 : i32 (g_size g - g_isz g) = g_size g - g_isz g).
  { apply i32_small. unfold off.sizeof in *. lia. }
  rewrite I2. rewrite Z.quot_div_nonneg by (unfold off.sizeof in *; lia).
  change ((g_size g - g_isz g) / 2) with (g_half g).
  rewrite bind_bind_the. cbn [snd]. rewrite bind_set_builder.
  set (bm := fun p => mk_cursor (g_base g) p (g_base g + g_size g)).
  change (make_cursor (g_base g) (g_base g + g_size g)) with (bm (g_base g)).
  unfold off.sizeof in Hh.
  destruct (cursor_slice_spec m (bm (g_base g)) (g_half g)) as (m1 & E1 & S1);
    [unfold cwf; simpl; lia | lia | simpl; lia |]. change (c_p (bm (g_base g))) with (g_base g) in E1, S1.
  pose proof (storen_length _ _ _ _ S1).
  destruct (cursor_slice_spec m1 (bm (g_base g + g_half g)) (g_half g)) as (m2 & E2 & S2);
    [unfold cwf; simpl; lia | lia | simpl; lia |]. change (c_p (bm (g_base g + g_half g))) with (g_base g + g_half g) in E2, S2.
  pose proof (storen_length _ _ _ _ S2).
  destruct (cursor_slice_spec m2 (bm (g_base g + g_half g + g_half g)) (g_isz g)) as (m3 & E3 & S3);
    [unfold cwf; simpl; lia | lia | simpl; lia |]. change (c_p (bm (g_base g + g_half g + g_half g))) with (g_base g + g_half g + g_half g) in E3, S3.
  pose proof (storen_length _ _ _ _ S3).
  unfold on_mem.
  rewrite (run_bind _ _ _ _ _ (on_Some b_mem _ _ _ (mk_builder (bm (g_base g)) _ _ _ _ _) _ _ _ E1)).
  cbn [note_cur strings str_indices b_note current_tag].
  rewrite (run_bind _ _ _ _ _ (on_Some b_mem _ _ _ (mk_builder (bm (g_base g + g_half g)) _ _ _ _ _) _ _ _ E2)).
  cbn [note_cur strings str_indices b_note current_tag].
  rewrite (run_bind _ _ _ _ _ (on_Some b_mem _ _ _ (mk_builder (bm (g_base g + g_half g + g_half g)) _ _ _ _ _) _ _ _ E3)).
  cbn [note_cur strings str_indices b_note current_tag].
  change (Z.to_nat off.sizeof) with 160%nat.
  destruct (storen_in_range m3 (g_base g) (replicate 160 0)) as [m4 S4]; [lia | zl |].
  rewrite (bstore_Some _ _ _ _ _ _ S4), bind_the, bind_set_builder. cbn [snd b_mem current_tag c_start].
  replace (g_base g + g_half g - g_base g) with (g_half g) by lia.
  assert (O4 : outside g m m4).
  { eapply outside_store; [| exact S4 | lia | zl].
    eapply outside_store; [| exact S3 | lia | zl].
    eapply outside_store; [| exact S2 | lia | zl].
    eapply outside_store; [| exact S1 | lia | zl]. by split. }
  pose proof (storen_length _ _ _ _ S4).
  assert (B4 : bytes_at g m (replicate 158 0) 0 [] [] [] m4).
  { split; [unfold geom_ok; unfold off.sizeof; lia | done | | | | |].
    - by apply (loadn_zeros_of_store _ _ _ _ _ 158 S4); lia.
    - unfold off.tags_count. by apply (loadn_zeros_of_store _ _ _ _ _ 2 S4); lia.
    - unfold off.sizeof. rewrite zlen_nil. rewrite loadn_in_range by lia. done.
    - rewrite zlen_nil. rewrite loadn_in_range by lia. done.
    - change (zlen (idx_bytes [])) with 0. rewrite loadn_in_range by lia. done. }
  destruct (storen_in_range m4 (g_base g + off.strings) (le_bytes 4 (g_half g))) as [m5 S5];
    [unfold off.strings; lia | rewrite zlen_le_bytes; unfold off.strings; lia |].
  rewrite (bstore_Some _ _ _ _ _ _ S5).
  destruct (store_header g m _ _ [] [] [] m4 m5 _ _ B4 S5 ltac:(unfold off.sizeof; rewrite zlen_nil; lia)
    off.strings eq_refl ltac:(unfold off.strings; lia)) as (h1 & Eh1 & B5).
  { rewrite zlen_le_bytes. unfold off.strings, off.tags_count. lia. }
  pose proof (storen_length _ _ _ _ S5).
  destruct (storen_in_range m5 (g_base g + off.version) [1]) as [m6 S6];
    [unfold off.version; lia | unfold off.version; zl |].
  rewrite (bstore_Some _ _ _ _ _ _ S6).
  destruct (store_header g m _ _ [] [] [] m5 m6 _ _ B5 S6 ltac:(unfold off.sizeof; rewrite zlen_nil; lia)
    off.version eq_refl ltac:(unfold off.version; lia)) as (h2 & Eh2 & B6).
  { unfold off.version, off.tags_count. zl. }
  exists h2. eexists. split; [reflexivity |]. split; [| by exists h1].
  split; [| split; [exact B6 |]].
  - split; cbn [snd b_note b_mem note_cur strings str_indices current_tag]; try done.
    + unfold set_p, tag_addr, off.sizeof. cbn [c_start c_p c_end]. f_equal.
      change (zlen (tags_bytes [])) with 0. lia.
    + apply mk_cursor_eq; unfold bm; cbn [c_start c_p c_end set_p]; change (zlen (@nil Z)) with 0; lia.
    + rewrite zlen_nil. lia.
    + apply mk_cursor_eq; unfold bm; cbn [c_start c_p c_end set_p]; change (zlen (@nil Z)) with 0; lia.
    + intros pre t E. by destruct pre.
  - split; [done | constructor | constructor].
Qed.

(** ** Sequences of builder calls and what they mean *)

Inductive cmd :=
  | SetId (id : list Z) | SetPubkey (pk : list Z) | SetSig (sig : list Z)
  | SetKind (k : Z) | SetCreatedAt (t : Z) | SetContent (c : list Z)
  | NewTag | PushStr (s : list Z) | PushId (id : list Z).

Definition always (c : BM unit) : BM bool := do* c in ret true.

Definition exec (junk : Z) (c : cmd) : BM bool :=
  match c with
  | SetId id => always (ndb_builder_set_id id)
  | SetPubkey pk => always (ndb_builder_set_pubkey pk)
  | SetSig sig => always (ndb_builder_set_sig sig)
  | SetKind k => always (ndb_builder_set_kind k)
  | SetCreatedAt t => always (ndb_builder_set_created_at t)
  | SetContent c => ndb_builder_set_content junk c
  | NewTag => ndb_builder_new_tag
  | PushStr s => ndb_builder_push_tag_str junk s
  | PushId id => ndb_builder_push_tag_id id
  end.

Fixpoint exec_all (junk : Z) (cs : list cmd) : BM bool :=
  match cs with
  | [] => ret true
  | c :: cs => exec junk c &&* exec_all junk cs
  end.

Section build.
Context (sha256 : list Z -> list Z).
Context (sign32 : list Z -> list Z -> list Z -> option (list Z)).
Context (fill_random : option (list Z)).

(** A client: initialize, call, finalize without a key. *)
Definition build_note (junk buf bufsize : Z) (cs : list cmd) : BM Z :=
  let* ok := ndb_builder_init buf bufsize &&* exec_all junk cs in
  if ok : bool then ndb_builder_finalize sha256 sign32 fill_random None else ret 0.
End build.

Definition cmd_ok (c : cmd) : Prop :=
  match c with
  | SetId id | SetPubkey id => zlen id = 32
  | SetSig sig => zlen sig = 64
  | SetKind k => is_u32 k
  | SetCreatedAt t => is_u64 t
  | SetContent s | PushStr s => bytes_ok s /\ no_nul s /\ zlen s < 2 ^ 31
  | NewTag => True
  | PushId id => zlen id = 32
  end.

(** Append to the last tag; there is none before the first [NewTag]. *)
Fixpoint app_last {A} (x : A) (ts : list (list A)) : option (list (list A)) :=
  match ts with
  | [] => None
  | [t] => Some [t ++ [x]]
  | t :: ts => r ← app_last x ts; Some (t :: r)
  end.

(** The meaning of a call on the content of the note. *)
Definition apply_cmd (c : cmd) (v : note_view) : option note_view :=
  let '(mk_view id pk sig t k cont ts) := v in
  match c with
  | SetId id => Some (mk_view id pk sig t k cont ts)
  | SetPubkey pk => Some (mk_view id pk sig t k cont ts)
  | SetSig sig => Some (mk_view id pk sig t k cont ts)
  | SetKind k => Some (mk_view id pk sig t k cont ts)
  | SetCreatedAt t => Some (mk_view id pk sig t k cont ts)
  | SetContent cont => Some (mk_view id pk sig t k cont ts)
  | NewTag => Some (mk_view id pk sig t k cont (ts ++ [[]]))
  | PushStr s => mk_view id pk sig t k cont <$> app_last (classify true s) ts
  | PushId i => mk_view id pk sig t k cont <$> app_last (EId i) ts
  end.

Fixpoint apply_cmds (cs : list cmd) (v : note_view) : option note_view :=
  match cs with
  | [] => Some v
  | c :: cs => v ← apply_cmd c v; apply_cmds cs v
  end.

Definition empty_view : note_view :=
  mk_view (replicate 32 0) (replicate 32 0) (replicate 64 0) 0 0 [] [].

(** Bytes a call may take from the note slice and from the string slice. *)
Definition note_cost (c : cmd) : Z :=
  match c with NewTag => 2 | PushStr _ | PushId _ => 4 | _ => 0 end.
Definition str_cost (c : cmd) : Z :=
  match c with
  | SetContent s | PushStr s => zlen s + 1
  | PushId id => 33
  | _ => 0
  end.
Definition total (f : cmd -> Z) (cs : list cmd) : Z := foldr (fun c a => f c + a) 0 cs.

Definition sets_content (c : cmd) : bool :=
  match c with SetContent _ => true | _ => false end.

(** ** The representation of a view *)

Lemma loadn_nested m a n h o k :
  loadn m a n = Some h -> 0 <= o -> 0 <= k -> o + k <= n -> loadn m (a + o) k = loadn h o k.
Proof.
  intros L ???. rewrite (loadn_sub _ _ _ _ o k L) by done.
  rewrite loadn_in_range by (rewrite ?(loadn_length _ _ _ _ L); lia). done.
Qed.

Record header_ok (h tbl : list Z) (v : note_view) (content_set : bool) : Prop := {
  ho_version : load8 h off.version = Some 1;
  ho_id : loadn h off.id 32 = Some (v_id v);
  ho_pubkey : loadn h off.pubkey 32 = Some (v_pubkey v);
  ho_sig : loadn h off.sig 64 = Some (v_sig v);
  ho_created : loadn h off.created_at 8 = Some (le_bytes 8 (v_created_at v));
  ho_created_range : is_u64 (v_created_at v);
  ho_kind : loadn h off.kind 4 = Some (le_bytes 4 (v_kind v));
  ho_kind_range : is_u32 (v_kind v);
  ho_content : content_set = true ->
    loadn h off.content_length 4 = Some (le_bytes 4 (zlen (v_content v))) /\
    zlen (v_content v) < 2 ^ 31 /\
    exists p, loadn h off.content 4 = Some p /\ denotes tbl p (EStr (v_content v))
}.

Record rep (g : geom) (m0 : mem) (v : note_view) (cset : bool) (nb sb k : Z)
    (s : mem * builder) : Prop := {
  rep_inv : exists h ts tbl idx, binv g m0 h ts tbl idx s /\ header_ok h tbl v cset /\
    Forall2 (Forall2 (denotes tbl)) ts (v_tags v) /\
    off.sizeof + zlen (tags_bytes ts) = nb /\ zlen tbl <= sb /\
    zlen ts <= k /\ Forall (fun t => zlen t <= k) ts
}.

Lemma header_ok_app h tbl x v cset : header_ok h tbl v cset -> header_ok h (tbl ++ x) v cset.
Proof.
  intros [V H1 H2 H3 H4 H5 H6 H7 H8]. split; auto. intros E.
  destruct (H8 E) as (?&?&p&?&?). split; [done |]. split; [done |]. exists p.
  split; [done |]. by apply denotes_app.
Qed.

Lemma tags_denote_app tbl x ts es :
  Forall2 (Forall2 (denotes tbl)) ts es -> Forall2 (Forall2 (denotes (tbl ++ x))) ts es.
Proof.
  intros H. eapply Forall2_impl; [| exact H]. intros t e Ht.
  eapply Forall2_impl; [| exact Ht]. intros p e' ?. by apply denotes_app.
Qed.

Lemma app_last_Some {A} (x : A) ts ts' :
  app_last x ts = Some ts' -> exists pre t, ts = pre ++ [t] /\ ts' = pre ++ [t ++ [x]].
Proof.
  revert ts'. induction ts as [| t ts IH]; intros ts' H; [done |].
  destruct ts as [| t2 ts]; [injection H as <-; by exists [], t |].
  change (app_last x (t :: t2 :: ts)) with (r ← app_last x (t2 :: ts); Some (t :: r)) in H.
  destruct (app_last x (t2 :: ts)) as [r |]; [| done]. injection H as <-.
  destruct (IH r eq_refl) as (pre & t' & E1 & E2). exists (t :: pre), t'.
  rewrite E1, E2. done.
Qed.

(** Each plain field is one store in the header. *)
Section field.
Context (h h' : list Z) (o : Z) (bs tbl : list Z) (v v' : note_view) (cset : bool).
Hypothesis (E : storen h o bs = Some h').

Lemma field_other o' n : o' + n <= o \/ o + zlen bs <= o' -> loadn h' o' n = loadn h o' n.
Proof. intros. by eapply loadn_storen_other. Qed.

Lemma field_same : loadn h' o (zlen bs) = Some bs.
Proof. by eapply loadn_storen_same. Qed.

Lemma field_version : 1 <= o -> load8 h' off.version = load8 h off.version.
Proof.
  intros. rewrite (load8_storen _ _ _ _ _ E). unfold off.version.
  destruct (Z.leb_spec o 0); [lia | done].
Qed.
End field.

Ltac offs := unfold off.version, off.flags, off.id, off.pubkey, off.sig, off.created_at,
  off.kind, off.content_length, off.content, off.strings, off.tags, off.tags_count, off.sizeof in *.

(** Close the fields of [header_ok] after the store [E] of [L] bytes at an
    offset: the stored field by [field_same], the others by [field_other]. *)
Ltac header E L :=
  repeat match goal with
  | |- load8 ?h' off.version = _ => rewrite (field_version _ _ _ _ E) by (offs; lia)
  | |- loadn ?h' ?o ?n = _ =>
      first [ rewrite (field_other _ _ _ _ E o n) by (rewrite L; offs; lia)
            | rewrite <- L; apply (field_same _ _ _ _ E) ]
  end; try done.

Lemma header_plain h h' tbl v v' cset o bs n :
  header_ok h tbl v cset -> storen h o bs = Some h' -> zlen bs = n ->
  (exists id, o = off.id /\ n = 32 /\ bs = id /\
     v' = mk_view id (v_pubkey v) (v_sig v) (v_created_at v) (v_kind v) (v_content v) (v_tags v)) \/
  (exists pk, o = off.pubkey /\ n = 32 /\ bs = pk /\
     v' = mk_view (v_id v) pk (v_sig v) (v_created_at v) (v_kind v) (v_content v) (v_tags v)) \/
  (exists sig, o = off.sig /\ n = 64 /\ bs = sig /\
     v' = mk_view (v_id v) (v_pubkey v) sig (v_created_at v) (v_kind v) (v_content v) (v_tags v)) \/
  (exists t, o = off.created_at /\ n = 8 /\ is_u64 t /\ bs = le_bytes 8 t /\
     v' = mk_view (v_id v) (v_pubkey v) (v_sig v) t (v_kind v) (v_content v) (v_tags v)) \/
  (exists k, o = off.kind /\ n = 4 /\ is_u32 k /\ bs = le_bytes 4 k /\
     v' = mk_view (v_id v) (v_pubkey v) (v_sig v) (v_created_at v) k (v_content v) (v_tags v)) ->
  header_ok h' tbl v' cset.
Proof.
  intros [V H1 H2 H3 H4 H5 H6 H7 H8] E L.
  intros [(x & -> & -> & -> & ->) | [(x & -> & -> & -> & ->) | [(x & -> & -> & -> & ->) |
    [(x & -> & -> & Hx & -> & ->) | (x & -> & -> & Hx & -> & ->)]]]];
    (split; cbn [v_id v_pubkey v_sig v_created_at v_kind v_content]; header E L;
     intros Ec; destruct (H8 Ec) as (C1 & C2 & p & C3 & C4);
     split; [by header E L | split; [done | exists p; split; [by header E L | done]]]).
Qed.

Lemma exec_field g m0 v v' cset nb sb k s o bs n :
  rep g m0 v cset nb sb k s -> zlen bs = n -> 0 <= o -> o + n <= off.tags_count ->
  v_tags v' = v_tags v ->
  (forall h h' tbl, header_ok h tbl v cset -> storen h o bs = Some h' -> header_ok h' tbl v' cset) ->
  exists s', always (set_field o bs) s = Some (true, s') /\ rep g m0 v' cset nb sb k s'.
Proof.
  intros [(h & ts & tbl & idx & I & Ho & D & N & S & K & Ks)] L Ho1 Ho2 Et Hh.
  destruct (set_field_spec g m0 h ts tbl idx s o bs I Ho1 ltac:(lia)) as (h' & s' & E & E' & I').
  exists s'. split; [unfold always; by rewrite (run_bind _ _ _ _ _ E) |].
  constructor. exists h', ts, tbl, idx. rewrite Et. eauto 10.
Qed.

Lemma rep_weaken g m0 v cset nb sb k s sb' k' :
  rep g m0 v cset nb sb k s -> sb <= sb' -> k <= k' -> rep g m0 v cset nb sb' k' s.
Proof.
  intros [(h & ts & tbl & idx & I & Ho & D & N & S & K & Ks)] ??.
  constructor. exists h, ts, tbl, idx. split; [done |]. split; [done |]. split; [done |].
  split; [done |]. split; [lia |]. split; [lia |].
  eapply Forall_impl; [| exact Ks]. simpl. intros. lia.
Qed.

(** Growing the last tag by a packed string that denotes [e]. *)
Lemma finalize_tag_rep g m0 h ts tbl idx s v v' cset nb sb k p e :
  binv g m0 h ts tbl idx s -> header_ok h tbl v cset ->
  Forall2 (Forall2 (denotes tbl)) ts (v_tags v) ->
  off.sizeof + zlen (tags_bytes ts) = nb -> zlen tbl <= sb -> zlen ts <= k ->
  Forall (fun t => zlen t <= k) ts ->
  denotes tbl (le_bytes 4 p) e ->
  mk_view (v_id v) (v_pubkey v) (v_sig v) (v_created_at v) (v_kind v) (v_content v) <$>
    app_last e (v_tags v) = Some v' ->
  nb + 4 <= g_half g -> k + 1 < 2 ^ 16 ->
  exists s', ndb_builder_finalize_tag p s = Some (true, s') /\
    rep g m0 v' cset (nb + 4) sb (k + 1) s'.
Proof.
  intros I Ho D N S K Ks De Ev Hn Hk.
  destruct (app_last e (v_tags v)) as [es' |] eqn:Ea; simpl in Ev; [| done]. injection Ev as <-.
  destruct (app_last_Some _ _ _ Ea) as (epre & et & E1 & ->). rewrite E1 in D.
  apply Forall2_app_inv_r in D as (pre & t' & Dpre & Dt & ->).
  apply Forall2_cons_inv_r in Dt as (t & t0 & Dt & D0 & ->).
  apply Forall2_nil_inv_r in D0 as ->.
  pose proof (proj2 (proj1 (Forall_app _ _ _) Ks)) as Kt. apply Forall_cons_iff in Kt as [Kt _].
  destruct (ndb_builder_finalize_tag_spec g m0 h pre t tbl idx s p I) as (s' & E & I'); [lia | lia |].
  exists s'. split; [done |]. constructor. exists h, (pre ++ [t ++ [le_bytes 4 p]]), tbl, idx.
  split; [done |].
  split; [destruct Ho as [V H1 H2 H3 H4 H5 H6 H7 H8]; by split |].
  split; [cbn [v_tags]; repeat (apply Forall2_app || apply Forall2_cons || done || constructor) |].
  split.
  { rewrite tags_bytes_app, tags_bytes_1, tag_bytes_snoc.
    rewrite tags_bytes_app, tags_bytes_1 in N. unfold tag_bytes in N.
    rewrite !zlen_app, !zlen_le_bytes in *. lia. }
  split; [done |]. rewrite zlen_app in *. change (zlen [t]) with 1 in K.
  change (zlen [t ++ [le_bytes 4 p]]) with 1. split; [lia |].
  apply Forall_app in Ks as [Ks _]. apply Forall_app. split.
  - eapply Forall_impl; [| exact Ks]. simpl. intros. lia.
  - constructor; [zl | constructor].
Qed.

Lemma header_forget h tbl v cset : header_ok h tbl v cset -> header_ok h tbl v false.
Proof. intros [V H1 H2 H3 H4 H5 H6 H7 H8]. by split. Qed.

(** The content is one store of its length, then one of its packed string. *)
Lemma exec_content g m0 junk c v cset nb sb k s :
  is_byte junk -> rep g m0 v cset nb sb k s -> bytes_ok c -> no_nul c -> zlen c < 2 ^ 31 ->
  sb + (zlen c + 1) <= g_half g -> sb + (zlen c + 1) <= 2 ^ 24 ->
  exists s', ndb_builder_set_content junk c s = Some (true, s') /\
    rep g m0 (mk_view (v_id v) (v_pubkey v) (v_sig v) (v_created_at v) (v_kind v) c (v_tags v))
      true nb (sb + (zlen c + 1)) k s'.
Proof.
  intros J [(h & ts & tbl & idx & I & Ho & D & N & S & K & Ks)] Hb Hn Hl Hs H24.
  pose proof (zlen_nonneg c). unfold ndb_builder_set_content.
  destruct (set_field_spec g m0 h ts tbl idx s off.content_length (le_bytes 4 (zlen c)) I)
    as (h1 & s1 & E1 & S1 & I1).
  { by offs. } { rewrite zlen_le_bytes. by offs. }
  rewrite (run_bind _ _ _ _ _ E1).
  destruct (ndb_builder_make_str_spec g m0 h1 ts tbl idx s1 junk c false I1 J Hb Hn)
    as (p & x & idx' & s2 & E2 & I2 & De & Lx); [lia | lia |].
  rewrite (run_bind _ _ _ _ _ E2).
  destruct (set_field_spec g m0 h1 ts _ idx' s2 off.content (le_bytes 4 p) I2)
    as (h2 & s3 & E3 & S3 & I3).
  { by offs. } { rewrite zlen_le_bytes. by offs. }
  rewrite (run_bind _ _ _ _ _ E3).
  exists s3. split; [done |]. constructor. exists h2, ts, (tbl ++ x), idx'. split; [done |]. split.
  - destruct (header_ok_app _ _ x _ _ Ho) as [V H1 H2 H3 H4 H5 H6 H7 _].
    assert (L4 : forall v, zlen (le_bytes 4 v) = 4) by (intros; by rewrite zlen_le_bytes).
    split; cbn [v_id v_pubkey v_sig v_created_at v_kind v_content];
      header S3 (L4 p); header S1 (L4 (zlen c)).
    intros _. split; [header S3 (L4 p); by header S1 (L4 (zlen c)) |]. split; [done |].
    exists (le_bytes 4 p). split; [by header S3 (L4 p) | done].
  - cbn [v_tags]. split; [by apply tags_denote_app |]. split; [done |].
    split; [rewrite zlen_app; lia | done].
Qed.

Lemma exec_spec g m0 junk c v v' cset nb sb k s :
  is_byte junk -> rep g m0 v cset nb sb k s -> apply_cmd c v = Some v' -> cmd_ok c ->
  nb + note_cost c <= g_half g -> sb + str_cost c <= g_half g -> sb + str_cost c <= 2 ^ 24 ->
  k + 1 < 2 ^ 16 ->
  exists s', exec junk c s = Some (true, s') /\
    rep g m0 v' (cset || sets_content c) (nb + note_cost c) (sb + str_cost c) (k + 1) s'.
Proof.
  intros J R Ha Hc Hn Hs H24 Hk.
  assert (Field : forall o bs n, zlen bs = n -> 0 <= o -> o + n <= off.tags_count ->
    v_tags v' = v_tags v ->
    (forall h h' tbl, header_ok h tbl v cset -> storen h o bs = Some h' -> header_ok h' tbl v' cset) ->
    exists s', always (set_field o bs) s = Some (true, s') /\
      rep g m0 v' (cset || false) (nb + 0) (sb + 0) (k + 1) s').
  { intros o bs n L Ho1 Ho2 Et Hh. rewrite orb_false_r, !Z.add_0_r.
    destruct (exec_field g m0 v v' cset nb sb k s o bs n R L Ho1 Ho2 Et Hh) as (s' & E & R').
    exists s'. split; [done |]. eapply rep_weaken; eauto; lia. }
  destruct v as [id pk sig t kd cont ts0]. destruct c; cbn [apply_cmd] in Ha; cbn [cmd_ok] in Hc;
    cbn [exec note_cost str_cost sets_content] in *.
  - injection Ha as <-. apply (Field _ _ 32); try done. intros h h' tbl Ho E.
    eapply (header_plain h h' tbl _ _ cset off.id id0 32); eauto 10.
  - injection Ha as <-. apply (Field _ _ 32); try done. intros h h' tbl Ho E.
    eapply (header_plain h h' tbl _ _ cset off.pubkey pk0 32); eauto 10.
  - injection Ha as <-. apply (Field _ _ 64); try done. intros h h' tbl Ho E.
    eapply (header_plain h h' tbl _ _ cset off.sig sig0 64); eauto 10.
  - injection Ha as <-. apply (Field _ _ 4); try done. intros h h' tbl Ho E.
    eapply (header_plain h h' tbl _ _ cset off.kind (le_bytes 4 k0) 4); eauto 12.
  - injection Ha as <-. apply (Field _ _ 8); try done. intros h h' tbl Ho E.
    eapply (header_plain h h' tbl _ _ cset off.created_at (le_bytes 8 t0) 8); eauto 12.
  - injection Ha as <-. destruct Hc as (Hb & Hn' & Hl). rewrite orb_true_r, Z.add_0_r.
    destruct (exec_content g m0 junk c _ cset nb sb k s J R Hb Hn' Hl Hs H24) as (s' & E & R').
    exists s'. split; [done |]. eapply rep_weaken; eauto; lia.
  - injection Ha as <-. destruct R as [(h & ts & tbl & idx & I & Ho & D & N & S & K & Ks)].
    destruct (ndb_builder_new_tag_spec g m0 h ts tbl idx s I) as (s' & E & I'); [lia | lia |].
    exists s'. split; [done |]. rewrite orb_false_r, Z.add_0_r. constructor.
    exists h, (ts ++ [[]]), tbl, idx. split; [done |].
    split; [destruct Ho as [V H1 H2 H3 H4 H5 H6 H7 H8]; by split |].
    cbn [v_tags] in *. split; [apply Forall2_app; [done | constructor; [constructor | constructor]] |].
    split; [rewrite tags_bytes_app, tags_bytes_1, zlen_app; change (zlen (tag_bytes [])) with 2; lia |].
    split; [done |]. split; [zl |]. apply Forall_app. split.
    + eapply Forall_impl; [| exact Ks]. simpl. intros. lia.
    + constructor; [| constructor]. change (zlen (@nil (list Z))) with 0. zl.
  - destruct Hc as (Hb & Hn' & Hl). destruct R as [(h & ts & tbl & idx & I & Ho & D & N & S & K & Ks)].
    pose proof (zlen_nonneg s0). unfold ndb_builder_push_tag_str.
    destruct (ndb_builder_make_str_spec g m0 h ts tbl idx s junk s0 true I J Hb Hn')
      as (p & x & idx' & s1 & E1 & I1 & De & Lx); [lia | lia |].
    rewrite (run_bind _ _ _ _ _ E1). rewrite orb_false_r.
    eapply (finalize_tag_rep g m0 h ts (tbl ++ x) idx'); eauto using header_ok_app, tags_denote_app.
    rewrite zlen_app. lia.
  - destruct R as [(h & ts & tbl & idx & I & Ho & D & N & S & K & Ks)].
    unfold ndb_builder_push_tag_id.
    destruct (ndb_builder_push_packed_id_spec g m0 h ts tbl idx s id0 I Hc)
      as (p & x & idx' & s1 & E1 & I1 & De & Lx); [lia | lia |].
    rewrite (run_bind _ _ _ _ _ E1). rewrite orb_false_r.
    eapply (finalize_tag_rep g m0 h ts (tbl ++ x) idx'); eauto using header_ok_app, tags_denote_app.
    rewrite zlen_app. lia.
Qed.

Lemma total_nonneg f cs : (forall c, 0 <= f c) -> 0 <= total f cs.
Proof. intros H. induction cs as [| c cs IH]; simpl; [lia |]. specialize (H c). lia. Qed.

Lemma note_cost_nonneg c : 0 <= note_cost c.
Proof. destruct c; simpl; lia. Qed.

Lemma str_cost_nonneg c : 0 <= str_cost c.
Proof. destruct c; simpl; zl. Qed.

(** Sequences, by induction: with room for all of them every call succeeds. *)
Lemma exec_all_spec g m0 junk cs : forall v v' cset nb sb k s,
  is_byte junk -> rep g m0 v cset nb sb k s -> apply_cmds cs v = Some v' -> Forall cmd_ok cs ->
  nb + total note_cost cs <= g_half g -> sb + total str_cost cs <= g_half g ->
  sb + total str_cost cs <= 2 ^ 24 -> k + zlen cs < 2 ^ 16 ->
  exists s', exec_all junk cs s = Some (true, s') /\
    rep g m0 v' (cset || existsb sets_content cs) (nb + total note_cost cs)
      (sb + total str_cost cs) (k + zlen cs) s'.
Proof.
  induction cs as [| c cs IH]; intros v v' cset nb sb k s J R Ha Hc Hn Hs H24 Hk.
  - injection Ha as <-. exists s. split; [done |]. cbn [existsb total foldr]. change (zlen (@nil cmd)) with 0.
    by rewrite orb_false_r, !Z.add_0_r.
  - cbn [apply_cmds] in Ha. destruct (apply_cmd c v) as [v1 |] eqn:E1; simpl in Ha; [| done].
    apply Forall_cons_iff in Hc as [Hc1 Hc]. rewrite zlen_cons in *.
    cbn [total foldr] in *. change (foldr (fun c a => note_cost c + a) 0 cs) with (total note_cost cs) in *.
    change (foldr (fun c a => str_cost c + a) 0 cs) with (total str_cost cs) in *.
    pose proof (total_nonneg note_cost cs note_cost_nonneg).
    pose proof (total_nonneg str_cost cs str_cost_nonneg). pose proof (zlen_nonneg cs).
    destruct (exec_spec g m0 junk c v v1 cset nb sb k s J R E1 Hc1) as (s1 & X1 & R1); try lia.
    destruct (IH v1 v' _ _ _ _ s1 J R1 Ha Hc) as (s2 & X2 & R2); try lia.
    exists s2. cbn [exec_all]. unfold andM. rewrite (run_bind _ _ _ _ _ X1). split; [done |].
    cbn [existsb]. rewrite orb_assoc, !Z.add_assoc. done.
Qed.

(** ** Finalization *)

Lemma loadn_empty m a : 0 <= a <= zlen m -> loadn m a 0 = Some [].
Proof. intros. rewrite loadn_in_range by lia. done. Qed.

Lemma round_up_8 n : 0 <= n -> Z.land (n + 7) (Z.lnot 7) = n + padding 3 n.
Proof.
  intros H. pose proof (align_up_pow2 3 n ltac:(lia) H) as E.
  change (2 ^ 3 - 1) with 7 in E. lia.
Qed.

(** The accessors of a finished note, from the header, tags and table bytes. *)
Lemma view_of_bytes g m0 h ts es tbl v m st :
  bytes_at g m0 h (zlen ts) (tags_bytes ts) [] [] m -> header_ok h tbl v true ->
  Forall2 (Forall2 (denotes tbl)) ts (v_tags v) -> Forall tag_ok ts -> zlen ts < 2 ^ 16 ->
  0 <= st < 2 ^ 32 -> loadn h off.strings 4 = Some (le_bytes 4 st) ->
  loadn m (g_base g + st) (zlen tbl) = Some tbl -> es = v_tags v ->
  view m (g_base g) = Some v /\
  ndb_note_content_length m (g_base g) = Some (zlen (v_content v)) /\
  ndb_note_from_bytes m (g_base g) = Some (Some (g_base g)).
Proof.
  intros B Ho D Ok K Hst Ls Lt ->. pose proof (ba_hdr _ _ _ _ _ _ _ _ B) as Lh.
  assert (F : forall o n, 0 <= o -> 0 <= n -> o + n <= off.tags_count ->
    loadn m (g_base g + o) n = loadn h o n) by (intros; by eapply loadn_nested).
  destruct Ho as [V H1 H2 H3 H4 H5 H6 H7 H8]. destruct (H8 eq_refl) as (C1 & C2 & p & C3 & C4).
  assert (S : strings_at m (g_base g) st tbl).
  { split; [done | | done]. rewrite F by (offs; lia). done. }
  assert (T : tags_at m (g_base g) ts).
  { split; [done | done | |]; apply B. }
  assert (Rc : read_content m (g_base g) = Some (v_content v)).
  { eapply read_content_spec; [done | | done]. rewrite F by (offs; lia). done. }
  pose proof (read_tags_spec _ _ _ _ _ _ S T D) as Rt.
  split; [| split].
  - unfold view, ndb_note_id, ndb_note_pubkey, ndb_note_sig.
    rewrite !F by (offs; lia). rewrite H1, H2, H3. cbn [mbind option_bind].
    rewrite (load_u64_spec _ _ (v_created_at v)); [| done | rewrite F by (offs; lia); done].
    unfold ndb_note_kind.
    rewrite (load_u32_spec _ _ (v_kind v)); [| done | rewrite F by (offs; lia); done].
    cbn [mbind option_bind]. rewrite Rc. cbn [mbind option_bind]. rewrite Rt.
    by destruct v.
  - apply load_u32_spec; [zl |]. rewrite F by (offs; lia). done.
  - unfold ndb_note_from_bytes. pose proof (loadn_length _ _ _ _ Lh) as Zh.
    pose proof (loadn_load8 _ _ _ _ off.version Lh ltac:(by offs)) as E8.
    rewrite load8_lookup in V by (offs; lia). rewrite E8, V. done.
Qed.

Section finalize.
Context (sha256 : list Z -> list Z).
Context (sign32 : list Z -> list Z -> list Z -> option (list Z)).
Context (fill_random : option (list Z)).

Lemma ndb_builder_finalize_spec g m0 v nb sb k s :
  rep g m0 v true nb sb k s -> nb <= g_half g -> sb <= g_half g -> k < 2 ^ 16 ->
  exists n s', ndb_builder_finalize sha256 sign32 fill_random None s = Some (n, s') /\
    view (fst s') (g_base g) = Some v /\
    ndb_note_content_length (fst s') (g_base g) = Some (zlen (v_content v)) /\
    ndb_note_from_bytes (fst s') (g_base g) = Some (Some (g_base g)) /\
    outside g m0 (fst s') /\ 0 < n <= nb + sb + 7 /\ n mod 8 = 0.
Proof.
  intros [(h & ts & tbl & idx & I & Ho & D & N & S & K & Ks)] Hn Hs Hk.
  destruct s as [m b]. destruct I as (C & B & Sh). cbn [fst snd] in *.
  pose proof (ba_geom _ _ _ _ _ _ _ _ B) as G. pose proof (geom_facts _ _ G) as (F1 & F2 & F3).
  pose proof G as (G1 & G2 & G3). pose proof (zlen_nonneg tbl). pose proof (zlen_nonneg (tags_bytes ts)).
  unfold ndb_builder_finalize. rewrite bind_the. cbn [snd].
  rewrite (ca_st _ _ _ _ _ C), (ca_nc _ _ _ _ _ C). cbn [c_p c_start].
  replace (g_base g + g_half g + zlen tbl - (g_base g + g_half g)) with (zlen tbl) by lia.
  assert (Hsz : off.sizeof + zlen (tags_bytes ts) + zlen tbl < 2 ^ 31) by (offs; lia).
  rewrite (i32_small (zlen tbl)) by lia.
  replace (tag_addr (g_base g) ts + zlen tbl - g_base g)
    with (off.sizeof + zlen (tags_bytes ts) + zlen tbl) by (unfold tag_addr; lia).
  rewrite i32_small by (offs; lia).
  replace (tag_addr (g_base g) ts - g_base g) with (off.sizeof + zlen (tags_bytes ts))
    by (unfold tag_addr; lia).
  set (st := off.sizeof + zlen (tags_bytes ts)).
  rewrite (bload_Some _ _ _ _ _ _ (ba_tbl _ _ _ _ _ _ _ _ B)).
  destruct (storen_in_range m (tag_addr (g_base g) ts) tbl) as [m1 E1];
    [unfold tag_addr; offs; lia | unfold tag_addr; offs; lia |].
  rewrite (bstore_Some _ _ _ _ _ _ E1). pose proof (storen_length _ _ _ _ E1) as Z1.
  assert (B1 : bytes_at g m0 h (zlen ts) (tags_bytes ts) [] [] m1).
  { destruct B as [_ O Hh Hc Ht _ _]. unfold tag_addr in E1.
    split; [unfold geom_ok in *; lia | by eapply outside_store; eauto; offs; lia | | | | |];
      try (rewrite (loadn_storen_other _ _ _ _ _ _ E1) by (offs; lia); done);
      apply loadn_empty; offs; lia. }
  destruct (storen_in_range m1 (g_base g + off.strings) (le_bytes 4 st)) as [m2 E2];
    [offs; lia | rewrite zlen_le_bytes; offs; lia |].
  destruct (store_header g m0 h _ _ [] [] m1 m2 _ _ B1 E2 ltac:(lia) off.strings eq_refl)
    as (h' & E3 & B2); [by offs | rewrite zlen_le_bytes; by offs |].
  unfold set_field at 1. rewrite bind_bind_the. cbn [snd]. rewrite (ca_note _ _ _ _ _ C).
  rewrite (bstore_Some _ _ _ _ _ _ E2).
  exists (st + zlen tbl + padding 3 (st + zlen tbl)), (m2, b). cbn [fst].
  assert (L4 : zlen (le_bytes 4 st) = 4) by (by rewrite zlen_le_bytes).
  split.
  { unfold bind, ret. cbv iota. rewrite round_up_8 by (offs; lia). done. }
  assert (Ho' : header_ok h' tbl v true).
  { destruct Ho as [V H1 H2 H3 H4 H5 H6 H7 H8]. split; header E3 L4.
    intros Ec. destruct (H8 Ec) as (C1 & C2 & p & C3 & C4).
    split; [by header E3 L4 | split; [done | exists p; split; [by header E3 L4 | done]]]. }
  destruct (view_of_bytes g m0 h' ts (v_tags v) tbl v m2 st B2 Ho' D) as (R1 & R2 & R3); try done.
  - apply Sh.
  - lia.
  - offs. lia.
  - rewrite <- L4. apply (field_same _ _ _ _ E3).
  - rewrite (loadn_storen_other _ _ _ _ _ _ E2) by (rewrite L4; offs; lia).
    replace (g_base g + st) with (tag_addr (g_base g) ts) by (unfold tag_addr, st; lia).
    by apply (loadn_storen_same m).
  - split; [done |]. split; [done |]. split; [done |]. split; [apply B2 |].
    unfold padding. change (2 ^ 3) with 8.
    pose proof (Z.mod_pos_bound (- (st + zlen tbl)) 8 ltac:(lia)).
    split; [unfold st in *; offs; lia |].
    rewrite Z.add_mod_idemp_r by lia. by rewrite Z.add_opp_diag_r.
Qed.
End finalize.

Lemma initial_rep g m s h :
  binv g m h [] [] [] s -> initial_header g h -> rep g m empty_view false off.sizeof 0 0 s.
Proof.
  intros I (h1 & E1 & E2). constructor. exists h, [], [], [].
  split; [done |]. split.
  - assert (F : forall o n, 1 <= o -> 0 <= n -> o + n <= off.strings ->
      loadn h o n = Some (replicate (Z.to_nat n) 0)).
    { intros o n ???. rewrite (loadn_storen_other _ _ _ _ _ _ E2) by (right; exact H).
      rewrite (loadn_storen_other _ _ _ _ _ _ E1) by (left; done).
      rewrite loadn_in_range by (rewrite ?zlen_replicate; offs; lia).
      rewrite drop_replicate, take_replicate. do 2 f_equal. offs. lia. }
    split; try (rewrite F by (offs; lia); reflexivity); try done.
    rewrite (load8_storen _ _ _ _ _ E2). done.
  - split; [constructor |]. split; [done |]. split; [done |]. split; [done | constructor].
Qed.

(** ** Properties *)

(** C4: Building a note and reading it back.  Take a sequence of fewer than 2^16
    builder calls, one of which sets the content, whose strings have no zero byte,
    and a buffer with room for it: each half holds what the calls cost, and the
    strings are at most 2^24 bytes.  Then initialization, every call and
    finalization succeed without touching memory outside the buffer, and the
    accessors read exactly the note the calls describe: ids, signature,
    timestamp, kind, content, and every tag with its strings and packed ids, 64
    hex digits in a tag being read back as the 32-byte id they spell.  Shared
    strings, inline strings and the move of the string table are invisible to
    the reader. *)
Theorem build_read_roundtrip sha256 sign32 fill_random (junk buf bufsize : Z) (cs : list cmd)
    (v : note_view) (m : mem) (b : builder)
    (Hg : geom_ok (mk_geom buf bufsize) m) (Hj : is_byte junk)
    (Hcs : Forall cmd_ok cs) (Hv : apply_cmds cs empty_view = Some v)
    (Hc : existsb sets_content cs = true) (Hlen : zlen cs < 2 ^ 16)
    (Hnote : off.sizeof + total note_cost cs <= g_half (mk_geom buf bufsize))
    (Hstr : total str_cost cs <= g_half (mk_geom buf bufsize))
    (H24 : total str_cost cs <= 2 ^ 24) :
  exists n s', build_note sha256 sign32 fill_random junk buf bufsize cs (m, b) = Some (n, s') /\
    view (fst s') buf = Some v /\
    ndb_note_content_length (fst s') buf = Some (zlen (v_content v)) /\
    ndb_note_from_bytes (fst s') buf = Some (Some buf) /\
    outside (mk_geom buf bufsize) m (fst s') /\
    0 < n <= off.sizeof + total note_cost cs + total str_cost cs + 7 /\ n mod 8 = 0.
Proof.
  pose proof (total_nonneg note_cost cs note_cost_nonneg).
  destruct (ndb_builder_init_spec (mk_geom buf bufsize) m b Hg) as (h & s1 & E1 & I1 & Hh); [lia |].
  destruct (exec_all_spec _ m junk cs _ v _ _ _ _ s1 Hj (initial_rep _ _ _ _ I1 Hh) Hv Hcs)
    as (s2 & E2 & R2); try lia.
  rewrite Hc in R2. simpl orb in R2.
  destruct (ndb_builder_finalize_spec sha256 sign32 fill_random _ _ _ _ _ _ s2 R2)
    as (n & s3 & E3 & V & L & F & O & N & A); try lia.
  exists n, s3. split; [| split_and!; try done; lia].
  unfold build_note. unfold bind at 1, andM. cbn [g_base g_size] in E1.
  rewrite (run_bind _ _ _ _ _ E1), E2. done.
Qed.

Definition no_builder : builder :=
  let c := mk_cursor 0 0 0 in mk_builder c c c c 0 0.

(** A reply with a repeated string, an id given in hex and one in binary. *)
Definition demo_cmds : list cmd :=
  [SetKind 1; SetCreatedAt 1700000000; SetContent [104; 101; 108; 108; 111];
   NewTag; PushStr [101]; PushStr (replicate 64 97); PushStr [114; 111; 111; 116];
   NewTag; PushStr [112]; PushId (replicate 32 3); PushStr [114; 111; 111; 116]].

Lemma build_read_roundtrip_witness :
  exists n s', build_note (fun x => x) (fun _ _ _ => None) None 0 16 1024 demo_cmds
      (replicate 1100 7, no_builder) = Some (n, s') /\
    view (fst s') 16 = Some (mk_view (replicate 32 0) (replicate 32 0) (replicate 64 0)
      1700000000 1 [104; 101; 108; 108; 111]
      [[EStr [101]; EId (replicate 32 0xaa); EStr [114; 111; 111; 116]];
       [EStr [112]; EId (replicate 32 3); EStr [114; 111; 111; 116]]]).
Proof.
  destruct (build_read_roundtrip (fun x => x) (fun _ _ _ => None) None 0 16 1024 demo_cmds
    (mk_view (replicate 32 0) (replicate 32 0) (replicate 64 0)
      1700000000 1 [104; 101; 108; 108; 111]
      [[EStr [101]; EId (replicate 32 0xaa); EStr [114; 111; 111; 116]];
       [EStr [112]; EId (replicate 32 3); EStr [114; 111; 111; 116]]])
    (replicate 1100 7) no_builder) as (n & s' & E & V & _).
  - unfold geom_ok. vm_compute. repeat split; discriminate || reflexivity.
  - unfold is_byte. lia.
  - repeat (constructor; [first [exact I | reflexivity | unfold cmd_ok, is_u32, is_u64; lia |
      (split; [repeat (constructor; [unfold is_byte; lia |]); constructor |
       split; [repeat (constructor; [discriminate |]); constructor | reflexivity]])] |]).
    constructor.
  - vm_compute. reflexivity.
  - reflexivity.
  - reflexivity.
  - vm_compute. discriminate.
  - vm_compute. discriminate.
  - vm_compute. discriminate.
  - exists n, s'. split; [exact E | exact V].
Defined.

(** The size test of [ndb_builder_init] lets through buffers of 320 to 329
    bytes, for which the slice set aside for the note is smaller than the note
    itself: initialization succeeds with the note cursor beyond its end, over
    the slice of the strings. *)
Theorem small_buffer_accepted (m : mem) (b : builder) (buf bufsize : Z)
    (Hs : 320 <= bufsize < 330) (Hg : geom_ok (mk_geom buf bufsize) m) :
  g_half (mk_geom buf bufsize) < off.sizeof /\
  exists s', ndb_builder_init buf bufsize (m, b) = Some (true, s') /\
    c_end (note_cur (snd s')) < c_p (note_cur (snd s')) /\
    c_start (strings (snd s')) < buf + off.sizeof.
Proof.
  assert (Hh : g_isz (mk_geom buf bufsize) = 10 /\ 155 <= g_half (mk_geom buf bufsize) < 160).
  { unfold g_half, g_isz. cbn [g_size].
    assert (E : bufsize / 32 = 10) by (symmetry; apply Z.div_unique with (bufsize - 320); lia).
    rewrite E. split; [done |].
    pose proof (Z.div_mod (bufsize - 10) 2 ltac:(lia)).
    pose proof (Z.mod_pos_bound (bufsize - 10) 2 ltac:(lia)). lia. }
  destruct Hh as [Hi Hh]. split; [offs; lia |].
  pose proof Hg as (G1 & G2 & G3). pose proof (geom_facts _ _ Hg). cbn [g_base g_size] in *.
  set (g := mk_geom buf bufsize) in *.
  unfold ndb_builder_init. destruct (Z.ltb_spec bufsize (off.sizeof * 2)); [offs; lia |].
  change (bufsize / 32) with (g_isz g). rewrite (i32_small (g_isz g)), (i32_small (bufsize - g_isz g)) by lia.
  rewrite Z.quot_div_nonneg by lia. change ((bufsize - g_isz g) / 2) with (g_half g).
  rewrite bind_bind_the. cbn [snd]. rewrite bind_set_builder.
  set (bm := fun p => mk_cursor buf p (buf + bufsize)).
  change (make_cursor buf (buf + bufsize)) with (bm buf). rewrite Hi.
  destruct (cursor_slice_spec m (bm buf) (g_half g)) as (m1 & E1 & S1);
    [unfold cwf; simpl; lia | lia | simpl; lia |].
  pose proof (storen_length _ _ _ _ S1).
  destruct (cursor_slice_spec m1 (bm (buf + g_half g)) (g_half g)) as (m2 & E2 & S2);
    [unfold cwf; simpl; lia | lia | simpl; lia |].
  pose proof (storen_length _ _ _ _ S2).
  destruct (cursor_slice_spec m2 (bm (buf + g_half g + g_half g)) 10) as (m3 & E3 & S3);
    [unfold cwf; simpl; lia | lia | simpl; lia |].
  pose proof (storen_length _ _ _ _ S3). unfold on_mem.
  rewrite (run_bind _ _ _ _ _ (on_Some b_mem _ _ _ (mk_builder (bm buf) _ _ _ _ _) _ _ _ E1)).
  cbn [note_cur strings str_indices b_note current_tag].
  rewrite (run_bind _ _ _ _ _ (on_Some b_mem _ _ _ (mk_builder (bm (buf + g_half g)) _ _ _ _ _) _ _ _ E2)).
  cbn [note_cur strings str_indices b_note current_tag].
  rewrite (run_bind _ _ _ _ _ (on_Some b_mem _ _ _ (mk_builder (bm (buf + g_half g + g_half g)) _ _ _ _ _) _ _ _ E3)).
  change (Z.to_nat off.sizeof) with 160%nat.
  destruct (storen_in_range m3 buf (replicate 160 0)) as [m4 S4]; [lia | zl |].
  pose proof (storen_length _ _ _ _ S4).
  rewrite (bstore_Some _ _ _ _ _ _ S4), bind_the, bind_set_builder.
  destruct (storen_in_range m4 (buf + off.strings) (le_bytes 4 (buf + g_half g - buf)))
    as [m5 S5]; [offs; lia | rewrite zlen_le_bytes; offs; lia |].
  pose proof (storen_length _ _ _ _ S5).
  destruct (storen_in_range m5 (buf + off.version) [1]) as [m6 S6]; [offs; lia | offs; change (zlen [1]) with 1; lia |].
  eexists. split.
  - etransitivity; [eapply bstore_Some; exact S5 |].
    rewrite (bstore_Some _ _ _ _ _ _ S6). reflexivity.
  - cbn. offs. lia.
Qed.

Lemma small_buffer_accepted_witness :
  exists s', ndb_builder_init 0 320 (replicate 400 0, no_builder) = Some (true, s') /\
    c_end (note_cur (snd s')) < c_p (note_cur (snd s')).
Proof.
  assert (G : geom_ok (mk_geom 0 320) (replicate 400 0)) by (unfold geom_ok; vm_compute; repeat split; discriminate || reflexivity).
  destruct (small_buffer_accepted (replicate 400 0) no_builder 0 320 ltac:(lia) G)
    as (_ & s' & E & H & _).
  exists s'. split; [exact E | exact H].
Defined.

(** ** JSON strings *)

(** What the character after a backslash stands for; [None] is the escape the
    builder refuses. *)
Definition decode_escape (x : Z) : option (list Z) :=
  if x =? 116 then Some [9]
  else if x =? 110 then Some [10]
  else if x =? 114 then Some [13]
  else if x =? 98 then Some [8]
  else if x =? 102 then Some [12]
  else if x =? BSL then Some [BSL]
  else if x =? 47 then Some [47]
  else if x =? DQ then Some [DQ]
  else if x =? 117 then None
  else Some [BSL; x].

(** The string an escaped text stands for. *)
Fixpoint unescape (raw : list Z) : option (list Z) :=
  match raw with
  | [] => Some []
  | c :: r =>
      if c =? BSL then
        match r with
        | [] => Some [c]
        | x :: r => d ← decode_escape x; s ← unescape r; Some (d ++ s)
        end
      else s ← unescape r; Some (c :: s)
  end.

Lemma unescape_char x d : decode_escape x = Some d -> Exact (cursor_push_unescaped_char BSL x) d.
Proof.
  unfold decode_escape, cursor_push_unescaped_char. intros H.
  repeat match type of H with
  | (if ?b then _ else _) = _ => destruct b; [first [discriminate H | injection H as <-; apply Exact_byte] |]
  end. injection H as <-. apply (Exact_andM _ _ [BSL] [x]); apply Exact_byte.
Qed.

Lemma esc_cases c : (esc c = [c] /\ c <> BSL) \/ exists x, esc c = [BSL; x] /\ decode_escape x = Some [c].
Proof.
  unfold esc, DQ, BSL.
  repeat match goal with |- context [if c =? ?k then _ else _] =>
    destruct (Z.eqb_spec c k); [subst; right; eexists; split; reflexivity |] end.
  auto.
Qed.

Lemma unescape_escape s : unescape (escape s) = Some s.
Proof.
  induction s as [| c s IH]; [done |].
  change (escape (c :: s)) with (esc c ++ escape s).
  destruct (esc_cases c) as [[-> Hc] | (x & -> & Ex)]; simpl.
  - destruct (Z.eqb_spec c BSL); [done |]. by rewrite IH.
  - by rewrite Ex, IH.
Qed.

Lemma unescape_zlen n : forall raw s, (length raw <= n)%nat -> unescape raw = Some s -> zlen s <= zlen raw.
Proof.
  assert (forall x d, decode_escape x = Some d -> zlen d <= 2) as Hd.
  { intros x d. unfold decode_escape. repeat destruct (_ =? _); intros [= <-]; unfold zlen; simpl; lia. }
  induction n as [| n IH]; intros [| c raw] s Hl H; simpl in *; try lia; [by injection H as <- ..|].
  destruct (c =? BSL).
  - destruct raw as [| x raw]; [by injection H as <- |]. simpl in Hl.
    destruct (decode_escape x) as [d |] eqn:Ex; [| done]. simpl in H.
    destruct (unescape raw) as [s' |] eqn:Es; [| done]. injection H as <-.
    apply Hd in Ex. apply IH in Es; [zl | lia].
  - destruct (unescape raw) as [s' |] eqn:Es; [| done]. injection H as <-.
    apply IH in Es; [zl | lia].
Qed.

Lemma lookup_mid {A} (l1 l2 : list A) x : (l1 ++ x :: l2) !! length l1 = Some x.
Proof. rewrite lookup_app_r by lia. by rewrite Nat.sub_diag. Qed.

Lemma chunk_of {A} (l1 l2 l3 : list A) :
  take (length (l1 ++ l2) - length l1) (drop (length l1) (l1 ++ l2 ++ l3)) = l2.
Proof.
  rewrite drop_app_length, length_app.
  replace (length l1 + length l2 - length l1)%nat with (length l2) by lia. by rewrite take_app_length.
Qed.

Lemma Exact_chunk (str l1 l2 l3 : list Z) :
  str = l1 ++ l2 ++ l3 ->
  Exact (if decide (length l1 < length (l1 ++ l2))%nat
         then cursor_push (take (length (l1 ++ l2) - length l1) (drop (length l1) str))
         else ret true) l2.
Proof.
  intros ->. rewrite chunk_of. destruct (decide _) as [| Hn]; [apply Emits_push |].
  rewrite length_app in Hn. destruct l2; [apply Exact_nil | simpl in Hn; lia].
Qed.

(** Scanning an escaped string: what was pushed and the chunk that is left
    over make up the string. *)
Lemma json_str_loop_spec str n : forall raw s fuel l1 l2 st,
  (length raw <= n)%nat -> unescape raw = Some s ->
  str = l1 ++ l2 ++ raw ->
  (length raw <= fuel)%nat -> cwf st ->
  c_p (snd st) + zlen l2 + zlen s <= c_end (snd st) ->
  exists d m1 m2 st', json_str_loop fuel str (length (l1 ++ l2)) (length l1) st =
      Some (Some (length str, length m1), st') /\
    pushed st d st' /\ str = m1 ++ m2 /\ d ++ m2 = l2 ++ s.
Proof.
  assert (forall fuel l1 l2 st, cwf st -> str = l1 ++ l2 ->
    exists d m1 m2 st', json_str_loop fuel str (length (l1 ++ l2)) (length l1) st =
      Some (Some (length str, length m1), st') /\
    pushed st d st' /\ str = m1 ++ m2 /\ d ++ m2 = l2 ++ []) as Hend.
  { intros fuel l1 l2 st W ->. exists [], l1, l2, st. rewrite app_nil_r.
    split; [| split; [by apply pushed_nil | done]].
    destruct fuel; [done |]. cbn [json_str_loop]. by rewrite lookup_ge_None_2. }
  induction n as [| n IH]; intros [| c raw] s fuel l1 l2 st Hn Hu Es Hf W Hr; simpl in Hn; try lia;
    [injection Hu as <-; (apply Hend; [done | by rewrite Es, app_nil_r]) .. |].
  simpl in Hf. destruct fuel as [| fuel]; [lia |]. cbn [json_str_loop unescape] in *.
  assert (Lp : str !! length (l1 ++ l2) = Some c) by (rewrite Es, app_assoc; apply lookup_mid).
  rewrite Lp.
  assert (Hplain : forall s', unescape raw = Some s' -> s = c :: s' ->
    exists d m1 m2 st', json_str_loop fuel str (length (l1 ++ l2) + 1) (length l1) st =
      Some (Some (length str, length m1), st') /\
    pushed st d st' /\ str = m1 ++ m2 /\ d ++ m2 = l2 ++ s).
  { intros s' Hs' ->.
    destruct (IH raw s' fuel l1 (l2 ++ [c]) st) as (d & m1 & m2 & st' & X & P & Y & Z0);
      [lia | done | by rewrite Es, <- !app_assoc | lia | done | zl |].
    exists d, m1, m2, st'.
    replace (length (l1 ++ l2) + 1)%nat with (length (l1 ++ l2 ++ [c])) by (rewrite !length_app; simpl; lia).
    split; [exact X |]. split; [done |]. split; [done |]. by rewrite Z0, <- app_assoc. }
  destruct (Z.eqb_spec c BSL) as [-> |].
  - destruct raw as [| x raw].
    + injection Hu as <-.
      assert (str !! S (length (l1 ++ l2)) = None) as ->
        by (apply lookup_ge_None_2; rewrite Es, !length_app; simpl; lia).
      by apply (Hplain []).
    + destruct (decode_escape x) as [dx |] eqn:Ex; [| done]. simpl in Hu.
      destruct (unescape raw) as [s' |] eqn:Es'; [| done]. injection Hu as <-.
      assert (Lq : str !! S (length (l1 ++ l2)) = Some x).
      { replace (S (length (l1 ++ l2))) with (length ((l1 ++ l2) ++ [BSL])) by (rewrite length_app; simpl; lia).
        rewrite Es. change (BSL :: x :: raw) with ([BSL] ++ x :: raw).
        rewrite !app_assoc. rewrite <- app_assoc. apply lookup_mid. }
      rewrite Lq.
      pose proof (Exact_andM _ _ _ _ (Exact_chunk str l1 l2 _ Es) (unescape_char x dx Ex)) as Em.
      destruct (@emits_ok _ _ _ Em st W) as (st1 & X1 & P1); [zl |].
      rewrite (run_bind _ _ _ _ _ X1). cbv iota.
      assert (F1 : frame st st1) by (eapply pushed_frame; eauto; zl).
      assert (C1 : c_p (snd st1) = c_p (snd st) + zlen (l2 ++ dx) /\ c_end (snd st1) = c_end (snd st))
        by (destruct P1 as [_ ->]; done).
      simpl in Hn, Hf.
      destruct (IH raw s' fuel (l1 ++ l2 ++ [BSL; x]) [] st1) as (d & m1 & m2 & st' & X & P & Y & Z0);
        [lia | done | by rewrite Es, <- !app_assoc | lia | by eapply frame_cwf | zl |].
      rewrite app_nil_r in X. simpl app in Z0.
      exists ((l2 ++ dx) ++ d), m1, m2, st'.
      replace (length (l1 ++ l2) + 2)%nat with (length (l1 ++ l2 ++ [BSL; x])) by (rewrite !length_app; simpl; lia).
      split; [exact X |]. split; [by eapply pushed_app |]. split; [exact Y |].
      by rewrite <- !app_assoc, Z0.
  - destruct (unescape raw) as [s' |] eqn:Es'; [| done]. injection Hu as <-. by apply (Hplain s').
Qed.

(** Unescaping a JSON string of three or more characters into the table. *)
Lemma ndb_builder_make_json_str_spec g m0 h ts tbl idx st junk raw s pack_ids :
  binv g m0 h ts tbl idx st -> unescape raw = Some s -> no_nul s -> 3 <= zlen raw ->
  pack_ids && (zlen raw =? 64) = false \/ hex_decode raw 32 = None ->
  zlen tbl + zlen s + 1 <= g_half g -> zlen tbl < 2 ^ 24 ->
  exists p st', ndb_builder_make_json_str junk raw pack_ids st =
      Some ((true, Some p, zlen s), st') /\
    binv g m0 h ts (tbl ++ s ++ [0]) idx st' /\
    denotes (tbl ++ s ++ [0]) (le_bytes 4 p) (EStr s).
Proof.
  intros I U N H3 Hp Hr H24. unfold ndb_builder_make_json_str.
  assert (E0 : ndb_builder_try_compact_str junk raw pack_ids st = Some (None, st)).
  { destruct raw as [| c1 [| c2 [| c3 l]]]; try (exfalso; clear - H3; rewrite ?zlen_cons, zlen_nil in H3; lia).
    unfold ndb_builder_try_compact_str. destruct Hp as [-> | ->]; [done |]. by destruct (_ && _). }
  rewrite (run_bind _ _ _ _ _ E0). cbv iota. rewrite bind_the.
  destruct st as [m b]. cbn [snd]. pose proof I as (C & B & S). cbn [fst snd] in C, B.
  pose proof (ca_st _ _ _ _ _ C) as Cs.
  set (loc := u32 (c_p (strings b) - c_start (strings b))).
  assert (Eloc : loc = zlen tbl).
  { unfold loc. rewrite Cs. cbn [c_p c_start].
    replace (g_base g + g_half g + zlen tbl - (g_base g + g_half g)) with (zlen tbl) by lia.
    apply Z.mod_small. zl. }
  pose proof (strings_cwf _ _ _ _ _ _ _ _ I) as W. pose proof (zlen_nonneg s).
  destruct (json_str_loop_spec raw (length raw) raw s (length raw) [] [] (m, strings b))
    as (d & m1 & m2 & st1 & X & P & Y & Z0); [done | done | done | done | done | |].
  { change (zlen (@nil Z)) with 0. pose proof (strings_room _ _ _ _ _ _ _ _ (zlen s) I). simpl. lia. }
  simpl app in X, Z0. simpl length in X.
  assert (Zs : zlen d + zlen m2 = zlen s) by (rewrite <- Z0; zl).
  destruct (on_strings_pushed g m0 h ts tbl idx m b _ _ st1 d I X P) as (s1 & E1 & I1); [zl |].
  rewrite (run_bind _ _ _ _ _ E1). cbv iota beta.
  pose proof (Exact_chunk raw m1 m2 [] ltac:(by rewrite app_nil_r)) as Em.
  rewrite <- Y in Em.
  destruct (on_strings_spec g m0 h ts (tbl ++ d) idx s1 _ _ _ Em I1) as (s2 & E2 & I2);
    [rewrite zlen_app; lia |].
  rewrite (run_bind _ _ _ _ _ E2). cbv iota. rewrite bind_the.
  rewrite <- app_assoc, Z0 in I2.
  destruct (on_strings_spec g m0 h ts (tbl ++ s) idx s2 _ _ _ (Exact_byte 0) I2) as (s3 & E3 & I3);
    [rewrite zlen_app; change (zlen [0]) with 1; lia |].
  rewrite (run_bind _ _ _ _ _ E3). rewrite <- app_assoc in I3.
  exists (ndb_offset_str loc), s3. rewrite Eloc, ndb_offset_str_small by zl.
  split; [| split; [done |]].
  - unfold ret. do 4 f_equal. rewrite Cs. destruct I2 as (C2 & _ & _).
    rewrite (ca_st _ _ _ _ _ C2). cbn [c_p]. rewrite zlen_app. lia.
  - eapply den_str; [done | zl | done |]. apply slice_end.
Qed.

(** JSON strings round trip through the builder: unescaping what
    [cursor_push_jsonstr] escapes gives back the string, with its length as the
    written count, for every string whose escaped form has at least three
    characters. *)
Theorem json_string_roundtrip g m0 h ts tbl idx st junk s
    (I : binv g m0 h ts tbl idx st) (N : no_nul s) (H3 : 3 <= zlen (escape s))
    (Hr : zlen tbl + zlen s + 1 <= g_half g) (H24 : zlen tbl < 2 ^ 24) :
  exists p st', ndb_builder_make_json_str junk (escape s) false st =
      Some ((true, Some p, zlen s), st') /\
    binv g m0 h ts (tbl ++ s ++ [0]) idx st' /\
    denotes (tbl ++ s ++ [0]) (le_bytes 4 p) (EStr s).
Proof. apply ndb_builder_make_json_str_spec; try done; [apply unescape_escape | by left]. Qed.

Lemma json_string_roundtrip_witness :
  exists h st p st', ndb_builder_make_json_str 0 (escape [104; 10; 34; 105]) false st =
      Some ((true, Some p, 4), st') /\
    binv (mk_geom 0 1024) (replicate 1024 9) h [] [104; 10; 34; 105; 0] [] st'.
Proof.
  assert (G : geom_ok (mk_geom 0 1024) (replicate 1024 9))
    by (unfold geom_ok; vm_compute; repeat split; discriminate || reflexivity).
  destruct (ndb_builder_init_spec (mk_geom 0 1024) (replicate 1024 9) no_builder G)
    as (h & st & _ & I & _); [vm_compute; discriminate |].
  destruct (json_string_roundtrip (mk_geom 0 1024) (replicate 1024 9) h [] [] [] st 0
    [104; 10; 34; 105] I) as (p & st' & E & I' & _).
  - repeat (constructor; [discriminate |]). constructor.
  - vm_compute. discriminate.
  - vm_compute. discriminate.
  - reflexivity.
  - exists h, st, p, st'. split; [exact E | exact I'].
Defined.

(** A two-character escape is not decoded.  The builder packs any string of
    two characters inline before it looks for escapes, so a JSON string that is
    just an escaped newline, quote, tab or backslash is stored as the backslash
    and the letter, and reads back as those two characters. *)
Theorem two_char_escape_kept junk c x s pack_ids (He : esc c = [BSL; x]) :
  ndb_builder_make_json_str junk (escape [c]) pack_ids s =
    Some ((true, Some (ndb_chars_to_packed_str BSL x), 2), s) /\
  (forall tbl, denotes tbl (le_bytes 4 (ndb_chars_to_packed_str BSL x)) (EStr (escape [c]))) /\
  escape [c] <> [c].
Proof.
  unfold escape, flat_map. rewrite He. cbn [app]. split; [reflexivity |]. split; [| done].
  intros tbl. assert (Hx : is_byte x /\ x <> 0).
  { revert He. unfold esc, DQ, BSL.
    repeat match goal with |- context [if ?c =? ?k then _ else _] => destruct (c =? k) end;
      intros [= <-]; unfold is_byte; lia. }
  apply (denotes_inline tbl 0 [BSL; x]).
  - unfold is_byte. lia.
  - constructor; [unfold BSL, is_byte; lia | constructor; [apply Hx | constructor]].
  - constructor; [done | constructor; [apply Hx | constructor]].
  - done.
Qed.

Lemma two_char_escape_kept_witness :
  exists r, ndb_builder_make_json_str 0 (escape [10]) false (replicate 4 0, no_builder) = Some r /\
    fst r = (true, Some (ndb_chars_to_packed_str BSL 110), 2).
Proof.
  destruct (two_char_escape_kept 0 10 110 (replicate 4 0, no_builder) false eq_refl) as [E _].
  eexists. split; [exact E | reflexivity].
Defined.

(** Looking for an existing copy of a string is given the string's full
    length as the size to compare, whatever is left of the buffer behind the
    indexed string: in a buffer that ends where memory ends, adding a string
    longer than the room left reads out of bounds when some string is already
    indexed, instead of failing as it does when none is. *)
Theorem find_str_overreads :
  let long := SetContent (replicate 200 97) in
  let run cs := (ndb_builder_init 0 352 &&* exec_all 0 cs) (replicate 352 0, no_builder) in
  run [SetContent [97; 98; 99]; long] = None /\
  fst <$> run [long] = Some false.
Proof. vm_compute. split; reflexivity. Qed.
