(* ===== verification/JsonNote.v ===== *)
(** * Notes and events from JSON (src/src/nostrdb.c)

    [ndb_note_from_json], [ndb_client_event_from_json] and
    [ndb_ws_event_from_json]: the tokens of Json.v are walked and the fields of a
    note are given to the builder of Builder.v.  The buffer of the caller is
    split in two: the builder works in the first half, the tokens live in the
    second.  The first half is memory; the token array is a function from indices,
    which beyond the tokens in use returns whatever that memory holds.  Positions
    in the text are offsets from its start. *)

From Stdlib Require Import String.
From S2P Require Export Json Builder.

(** ** Pieces of text *)

Definition toksize (tok : jsmntok) : Z := tk_end tok - tk_start tok.

(** [hex_decode] with the buffer it writes: the bytes before a bad digit stay
    written. *)
Fixpoint hex_decode_buf (str buf : list Z) : bool * list Z :=
  match str with
  | c1 :: c2 :: str =>
      match char_to_hex c1, char_to_hex c2 with
      | Some v1, Some v2 =>
          match buf with
          | [] => (false, [])
          | _ :: buf =>
              let '(ok, buf) := hex_decode_buf str buf in
              (ok, Z.lor (u8 (Z.shiftl v1 4)) v2 :: buf)
          end
      | _, _ => (false, buf)
      end
  | [] => (bool_decide (buf = []), buf)
  | [_] => (false, buf)
  end.

(** The loop over the digits: what is left when it stops, how many there were
    and their value; [None] is the overflow. *)
Fixpoint digits_loop (s : list Z) (number digits : Z) : option (Z * Z) :=
  match s with
  | [] => Some (number, digits)
  | c :: s =>
      if (c <? 48) || (57 <? c) then Some (number, digits)
      else
        let digit := c - 48 in
        if (2 ^ 32 - 1 - digit) / 10 <? number then None
        else digits_loop s (u32 (number * 10 + digit)) (digits + 1)
  end.

Definition parse_unsigned_int (s : list Z) : option Z :=
  match digits_loop s 0 0 with
  | Some (number, digits) => if digits =? 0 then None else Some number
  | None => None
  end.

Definition NDB_PARSED_ID : Z := Z.shiftl 1 0.
Definition NDB_PARSED_PUBKEY : Z := Z.shiftl 1 1.
Definition NDB_PARSED_SIG : Z := Z.shiftl 1 2.
Definition NDB_PARSED_CREATED_AT : Z := Z.shiftl 1 3.
Definition NDB_PARSED_KIND : Z := Z.shiftl 1 4.
Definition NDB_PARSED_CONTENT : Z := Z.shiftl 1 5.
Definition NDB_PARSED_TAGS : Z := Z.shiftl 1 6.
Definition NDB_PARSED_ALL : Z :=
  Z.lor (Z.lor (Z.lor (Z.lor (Z.lor (Z.lor NDB_PARSED_ID NDB_PARSED_PUBKEY) NDB_PARSED_SIG)
    NDB_PARSED_CREATED_AT) NDB_PARSED_KIND) NDB_PARSED_CONTENT) NDB_PARSED_TAGS.

Section note.
(** The text, the token array, the number of tokens; [junk] is the byte a packed
    one-character string leaves unassigned. *)
Variables (json : list Z) (toks : Z -> option jsmntok) (num_tokens junk : Z).

Definition tok (i : Z) : BM jsmntok := lift (toks i).
Definition json_at (i n : Z) : BM (list Z) := lift (loadn json i n).
Definition tok_text (t : jsmntok) : BM (list Z) := json_at (tk_start t) (toksize t).

Definition jsoneq (t : jsmntok) (tok_len : Z) (s : list Z) : BM bool :=
  if bool_decide (tk_type t = JSMN_STRING) && (zlen s =? tok_len) then
    let* l := json_at (tk_start t) tok_len in ret (bool_decide (l = s))
  else ret false.

(** ** Tags *)

(** The elements from token [array + 1 + i] on; [k] counts those left. *)
Fixpoint tag_elems_loop (k : nat) (array i : Z) : BM bool :=
  match k with
  | O => ret true
  | S k =>
      let* str_tok := tok (array + i + 1) in
      let* str := tok_text str_tok in
      ndb_builder_push_json_tag junk str &&* tag_elems_loop k array (i + 1)
  end.

Definition ndb_builder_tag_from_json_array (array : Z) : BM bool :=
  let* a := tok array in
  if tk_size a =? 0 then ret false
  else ndb_builder_new_tag &&* tag_elems_loop (Z.to_nat (tk_size a)) array 0.

(** [tag] moves on by the size of each tag, [i] by one. *)
Fixpoint json_tags_loop (k : nat) (tag i : Z) : BM bool :=
  match k with
  | O => ret true
  | S k =>
      let* ok := ndb_builder_tag_from_json_array (tag + i + 1) in
      if ok : bool then
        let* t := tok (tag + i + 1) in
        json_tags_loop k (tag + tk_size t) (i + 1)
      else ret false
  end.

Definition ndb_builder_process_json_tags (array : Z) : BM bool :=
  let* a := tok array in
  if tk_size a =? 0 then ret true
  else json_tags_loop (Z.to_nat (tk_size a)) array 0.

(** ** The fields of a note *)

(** What the loop carries: its index, the fields seen, and the scratch buffer
    hex is decoded into. *)
Record note_loop := mk_loop { nl_i : Z; nl_parsed : Z; nl_hexbuf : list Z }.

Definition seen (l : note_loop) (flag : Z) (hexbuf : list Z) : note_loop :=
  mk_loop (nl_i l) (Z.lor (nl_parsed l) flag) hexbuf.

(** The next token is hex; whether it was is not looked at. *)
Definition hex_field (l : note_loop) (flag : Z) (set : list Z -> BM unit) : BM (option note_loop) :=
  let* t := tok (nl_i l + 1) in
  let* s := tok_text t in
  let hexbuf := snd (hex_decode_buf s (nl_hexbuf l)) in
  do* set hexbuf in
  ret (Some (seen l flag hexbuf)).

(** The next token is a number. *)
Definition int_field (l : note_loop) (tok_len flag : Z) (set : Z -> BM unit) : BM (option note_loop) :=
  let* t := tok (nl_i l + 1) in
  if negb (bool_decide (tk_type t = JSMN_PRIMITIVE)) || (tok_len <=? 0) then ret None
  else
    let* s := tok_text t in
    match parse_unsigned_int s with
    | None => ret None
    | Some n => do* set n in ret (Some (seen l flag (nl_hexbuf l)))
    end.

Definition content_field (l : note_loop) : BM (option note_loop) :=
  let* t := tok (nl_i l + 1) in
  let* s := tok_text t in
  let* ' (ok, pstr, written) := ndb_builder_make_json_str junk s false in
  match ok, pstr with
  | true, Some p =>
      do* set_field off.content_length (le_bytes 4 written) in
      do* set_field off.content (le_bytes 4 p) in
      ret (Some (seen l NDB_PARSED_CONTENT (nl_hexbuf l)))
  | _, _ => ret None
  end.

Definition tags_field (l : note_loop) : BM (option note_loop) :=
  let* t := tok (nl_i l + 1) in
  do* ndb_builder_process_json_tags (nl_i l + 1) in
  ret (Some (mk_loop (nl_i l + tk_size t) (Z.lor (nl_parsed l) NDB_PARSED_TAGS) (nl_hexbuf l))).

(** One token; [None] is the failure of the whole note. *)
Definition note_token (l : note_loop) : BM (option note_loop) :=
  let* t := tok (nl_i l) in
  let tok_len := toksize t in
  if (tok_len =? 0) || (num_tokens <=? nl_i l + 1) then ret (Some l)
  else
    let* c0 := lift (load8 json (tk_start t)) in
    let* is_pubkey := (if c0 =? 112 then jsoneq t tok_len (bytes_of "pubkey") else ret false) in
    if is_pubkey then
      hex_field l NDB_PARSED_PUBKEY (fun h => ndb_builder_set_pubkey (take 32 h))
    else
      let* is_id :=
        (if (tok_len =? 2) && (c0 =? 105) then
           let* c1 := lift (load8 json (tk_start t + 1)) in ret (c1 =? 100)
         else ret false) in
      if is_id then hex_field l NDB_PARSED_ID (fun h => ndb_builder_set_id (take 32 h))
      else
        let* is_sig :=
          (if (tok_len =? 3) && (c0 =? 115) then
             let* c1 := lift (load8 json (tk_start t + 1)) in
             if c1 =? 105 then
               let* c2 := lift (load8 json (tk_start t + 2)) in ret (c2 =? 103)
             else ret false
           else ret false) in
        if is_sig then hex_field l NDB_PARSED_SIG (fun h => ndb_builder_set_sig (take 64 h))
        else
          let* is_kind := (if c0 =? 107 then jsoneq t tok_len (bytes_of "kind") else ret false) in
          if is_kind then int_field l tok_len NDB_PARSED_KIND ndb_builder_set_kind
          else if c0 =? 99 then
            let* is_created := jsoneq t tok_len (bytes_of "created_at") in
            if is_created then int_field l tok_len NDB_PARSED_CREATED_AT ndb_builder_set_created_at
            else
              let* is_content := jsoneq t tok_len (bytes_of "content") in
              if is_content then content_field l else ret (Some l)
          else
            let* is_tags := (if c0 =? 116 then jsoneq t tok_len (bytes_of "tags") else ret false) in
            if is_tags then tags_field l else ret (Some l).

(** The loop over the tokens; every round moves the index, so their number
    bounds the rounds. *)
Fixpoint note_tokens (fuel : nat) (l : note_loop) : BM (option note_loop) :=
  match fuel with
  | O => ub
  | S fuel =>
      if num_tokens <=? nl_i l then ret (Some l)
      else
        let* r := note_token l in
        match r with
        | None => ret None
        | Some l => note_tokens fuel (mk_loop (nl_i l + 1) (nl_parsed l) (nl_hexbuf l))
        end
  end.

(** SHA-256 and signing are arguments of the builder's finalization, which uses
    neither when there is no key. *)
Context (sha256 : list Z -> list Z).
Context (schnorrsig_sign32 : list Z -> list Z -> list Z -> option (list Z)).
Context (fill_random : option (list Z)).

(** [hexbuf] is what the uninitialised scratch buffer holds. *)
Definition ndb_parse_json_note_custom (i : Z) (hexbuf : list Z) (parse_cond : Z) : BM Z :=
  let* t := tok i in
  if negb (bool_decide (tk_type t = JSMN_OBJECT)) then ret 0
  else
    let* r := note_tokens (S (Z.to_nat num_tokens)) (mk_loop (i + 1) 0 hexbuf) in
    match r with
    | None => ret 0
    | Some l =>
        if negb (Z.land (nl_parsed l) parse_cond =? parse_cond) then ret 0
        else ndb_builder_finalize sha256 schnorrsig_sign32 fill_random None
    end.

Definition ndb_parse_json_note (i : Z) (hexbuf : list Z) : BM Z :=
  ndb_parse_json_note_custom i hexbuf NDB_PARSED_ALL.

End note.

(** ** The parser and its callers *)

(** [sizeof(jsmntok_t)]. *)
Definition sizeof_jsmntok : Z := 20.

Inductive ndb_idres := NDB_IDRES_CONT | NDB_IDRES_STOP.

Inductive fce_type := NDB_FCE_EVENT.
Inductive tce_type := NDB_TCE_EVENT | NDB_TCE_OK | NDB_TCE_NOTICE | NDB_TCE_EOSE | NDB_TCE_AUTH.

(** A range of the text: where it starts and its length. *)
Definition range : Type := (Z * Z)%type.

Record ndb_fce := mk_fce { fce_evtype : option fce_type }.

(** What a message to a client sets; [None] is a field left alone. *)
Record ndb_tce := mk_tce {
  tce_evtype : option tce_type; tce_subid : option range;
  tce_ok : option bool; tce_msg : option range }.

Section parser.
Variables (json : list Z) (junk : Z).
(** What the memory of unused tokens, the index of a parser that read nothing
    and the scratch buffer for hex happen to hold. *)
Variables (junk_tok : Z -> jsmntok) (junk_i : Z) (hexbuf : list Z).
Context (sha256 : list Z -> list Z).
Context (schnorrsig_sign32 : list Z -> list Z -> list Z -> option (list Z)).
Context (fill_random : option (list Z)).

(** Room for tokens in the second half of the buffer. *)
Definition json_cap (bufsize : Z) : Z := (bufsize - bufsize / 2) / sizeof_jsmntok.

Definition token_memory (cap : Z) (ts : list jsmntok) (i : Z) : option jsmntok :=
  if (0 <=? i) && (i <? cap)
  then Some (match tok_at ts i with Some t => t | None => junk_tok i end)
  else None.

Definition ndb_json_parser_init (buf bufsize : Z) : BM bool := ndb_builder_init buf (bufsize / 2).

(** The state of a parser that has run: its tokens, how many it reports, and
    where it stands. *)
Record json_parser := mk_jp { jsp_toks : Z -> option jsmntok; jsp_num_tokens : Z; jsp_i : Z }.

(** The callback is given the text from the id on. *)
Definition ndb_json_parser_parse (cap : Z) (cb : option (list Z -> ndb_idres)) :
    option (Z * json_parser) :=
  '(res, p) ← jsmn_parse json cap (match cb with Some _ => true | None => false end) jsmn_init;
  if res =? -42 then
    t ← tok_at (jp_tokens p) (zlen (jp_tokens p) - 1);
    fn ← cb;
    match fn (drop (Z.to_nat (tk_start t)) json) with
    | NDB_IDRES_CONT =>
        '(res, p) ← jsmn_parse json cap false p;
        Some (1, mk_jp (token_memory cap (jp_tokens p)) res 0)
    | NDB_IDRES_STOP => Some (-42, mk_jp (token_memory cap (jp_tokens p)) 0 junk_i)
    end
  else if res =? 0 then Some (0, mk_jp (token_memory cap (jp_tokens p)) 0 junk_i)
  else Some (1, mk_jp (token_memory cap (jp_tokens p)) res 0).

Definition parse_note_at (p : json_parser) (i parse_cond : Z) : BM Z :=
  ndb_parse_json_note_custom json (jsp_toks p) (jsp_num_tokens p) junk sha256 schnorrsig_sign32
    fill_random i hexbuf parse_cond.

Definition ndb_note_from_json_custom (buf bufsize parse_cond : Z) : BM Z :=
  let* ok := ndb_json_parser_init buf bufsize in
  if negb ok then ret 0
  else
    let* ' (res, p) := lift (ndb_json_parser_parse (json_cap bufsize) None) in
    if res <? 0 then ret res
    else if jsp_num_tokens p <? 1 then ret 0
    else parse_note_at p (jsp_i p) parse_cond.

Definition ndb_note_from_json (buf bufsize : Z) : BM Z :=
  ndb_note_from_json_custom buf bufsize NDB_PARSED_ALL.

(** The bytes of a token against a word of its length. *)
Definition is_word (t : jsmntok) (s : list Z) : BM bool :=
  if toksize t =? zlen s then
    let* l := json_at json (tk_start t) (zlen s) in ret (bool_decide (l = s))
  else ret false.

Definition is_type (t : jsmntok) (ty : jsmntype) : bool := bool_decide (tk_type t = ty).

Definition ndb_client_event_from_json (buf bufsize : Z) (cb : option (list Z -> ndb_idres)) :
    BM (Z * ndb_fce) :=
  let none := mk_fce None in
  let event := mk_fce (Some NDB_FCE_EVENT) in
  let* ok := ndb_json_parser_init buf bufsize in
  if negb ok then ret (0, none)
  else
    let* ' (res, p) := lift (ndb_json_parser_parse (json_cap bufsize) cb) in
    if res <? 0 then ret (res, none)
    else
      let* t0 := lift (jsp_toks p 0) in
      if is_type t0 JSMN_OBJECT then
        let* n := parse_note_at p (jsp_i p) NDB_PARSED_ALL in ret (n, event)
      else if (jsp_num_tokens p <=? 3) || negb (is_type t0 JSMN_ARRAY) then ret (0, none)
      else
        let* t := lift (jsp_toks p 1) in
        if negb (is_type t JSMN_STRING) then ret (0, none)
        else
          let* event_word := is_word t (bytes_of "EVENT") in
          if event_word then
            let* n := parse_note_at p 2 NDB_PARSED_ALL in ret (n, event)
          else ret (0, none).

Definition token_range (t : jsmntok) : range := (tk_start t, toksize t).

(** The subscription of a message; [None] when it is no string. *)
Definition subid_token (p : json_parser) : BM (option range) :=
  let* t := lift (jsp_toks p 2) in
  ret (if is_type t JSMN_STRING then Some (token_range t) else None).

(** A message that is its type and a subscription. *)
Definition subid_message (p : json_parser) (ty : tce_type) : BM (Z * ndb_tce) :=
  let* s := subid_token p in
  match s with
  | None => ret (0, mk_tce (Some ty) None None None)
  | Some r => ret (1, mk_tce (Some ty) (Some r) None None)
  end.

Definition ok_message (p : json_parser) : BM (Z * ndb_tce) :=
  if negb (jsp_num_tokens p =? 5) then ret (0, mk_tce None None None None)
  else
    let* s := subid_token p in
    match s with
    | None => ret (0, mk_tce (Some NDB_TCE_OK) None None None)
    | Some r =>
        let* t := lift (jsp_toks p 3) in
        if negb (is_type t JSMN_PRIMITIVE) || (toksize t =? 0)
        then ret (0, mk_tce (Some NDB_TCE_OK) (Some r) None None)
        else
          let* c := lift (load8 json (tk_start t)) in
          let ok := Some (c =? 116) in
          let* m := lift (jsp_toks p 4) in
          if negb (is_type m JSMN_STRING) then ret (0, mk_tce (Some NDB_TCE_OK) (Some r) ok None)
          else ret (1, mk_tce (Some NDB_TCE_OK) (Some r) ok (Some (token_range m)))
    end.

Definition ndb_ws_event_from_json (buf bufsize : Z) (cb : option (list Z -> ndb_idres)) :
    BM (Z * ndb_tce) :=
  let none := mk_tce None None None None in
  let* ok := ndb_json_parser_init buf bufsize in
  if negb ok then ret (0, none)
  else
    let* ' (res, p) := lift (ndb_json_parser_parse (json_cap bufsize) cb) in
    if res <? 0 then ret (res, none)
    else
      let* t0 := lift (jsp_toks p 0) in
      if is_type t0 JSMN_OBJECT then
        let* n := parse_note_at p (jsp_i p) NDB_PARSED_ALL in
        ret (n, mk_tce (Some NDB_TCE_EVENT) None None None)
      else if (jsp_num_tokens p <? 3) || negb (is_type t0 JSMN_ARRAY) then ret (0, none)
      else
        let* t := lift (jsp_toks p 1) in
        if negb (is_type t JSMN_STRING) then ret (0, none)
        else
          let* event_word := is_word t (bytes_of "EVENT") in
          if event_word then
            let* s := subid_token p in
            match s with
            | None => ret (0, mk_tce (Some NDB_TCE_EVENT) None None None)
            | Some r =>
                let* n := parse_note_at p 3 NDB_PARSED_ALL in
                ret (n, mk_tce (Some NDB_TCE_EVENT) (Some r) None None)
            end
          else
            let* eose_word := is_word t (bytes_of "EOSE") in
            if eose_word then subid_message p NDB_TCE_EOSE
            else
              let* ok_word := is_word t (bytes_of "OK") in
              if ok_word then ok_message p
              else
                let* auth_word := is_word t (bytes_of "AUTH") in
                if auth_word then subid_message p NDB_TCE_AUTH else ret (0, none).

End parser.

(** ** What the fields do to the note

    A JSON string becomes: itself, up to two characters; in a tag, the id that 64
    hex digits spell; otherwise the string its escapes stand for. *)

Definition json_elem (pack_ids : bool) (raw : list Z) : option elem :=
  if zlen raw <? 3 then Some (EStr raw)
  else
    match (if pack_ids && (zlen raw =? 64) then hex_decode raw 32 else None) with
    | Some id => Some (EId id)
    | None => EStr <$> unescape raw
    end.

(** The builder calls a text is turned into. *)
Inductive jcmd := Plain (c : cmd) | JContent (raw : list Z) | JTagStr (raw : list Z).

Definition json_content (junk : Z) (raw : list Z) : BM bool :=
  let* ' (ok, pstr, written) := ndb_builder_make_json_str junk raw false in
  match ok, pstr with
  | true, Some p =>
      do* set_field off.content_length (le_bytes 4 written) in
      do* set_field off.content (le_bytes 4 p) in
      ret true
  | _, _ => ret false
  end.

Definition jexec (junk : Z) (c : jcmd) : BM bool :=
  match c with
  | Plain c => exec junk c
  | JContent raw => json_content junk raw
  | JTagStr raw => ndb_builder_push_json_tag junk raw
  end.

Fixpoint jexec_all (junk : Z) (cs : list jcmd) : BM bool :=
  match cs with
  | [] => ret true
  | c :: cs => jexec junk c &&* jexec_all junk cs
  end.

(** What a call does to the content of the note. *)
Definition apply_jcmd (c : jcmd) (v : note_view) : option note_view :=
  match c with
  | Plain c => apply_cmd c v
  | JContent raw =>
      match json_elem false raw with Some (EStr s) => apply_cmd (SetContent s) v | _ => None end
  | JTagStr raw =>
      e ← json_elem true raw;
      mk_view (v_id v) (v_pubkey v) (v_sig v) (v_created_at v) (v_kind v) (v_content v) <$>
        app_last e (v_tags v)
  end.

Fixpoint apply_jcmds (cs : list jcmd) (v : note_view) : option note_view :=
  match cs with
  | [] => Some v
  | c :: cs => v ← apply_jcmd c v; apply_jcmds cs v
  end.

Definition jcmd_ok (c : jcmd) : Prop :=
  match c with
  | Plain c => cmd_ok c
  | JContent raw | JTagStr raw => bytes_ok raw /\ no_nul raw /\ zlen raw < 2 ^ 31
  end.

Definition jnote_cost (c : jcmd) : Z :=
  match c with Plain c => note_cost c | JTagStr _ => 4 | JContent _ => 0 end.
Definition jstr_cost (c : jcmd) : Z :=
  match c with Plain c => str_cost c | JContent raw | JTagStr raw => zlen raw + 1 end.
Definition jtotal (f : jcmd -> Z) (cs : list jcmd) : Z := foldr (fun c a => f c + a) 0 cs.
Definition jsets_content (c : jcmd) : bool :=
  match c with Plain c => sets_content c | JContent _ => true | JTagStr _ => false end.

Lemma decode_escape_no_nul x d : x <> 0 -> decode_escape x = Some d -> no_nul d.
Proof.
  intros Hx H. unfold decode_escape, BSL, DQ in H.
  repeat match type of H with
  | (if ?b then _ else _) = _ => destruct b; [first [discriminate H | injection H as <-; by repeat constructor] |]
  end. injection H as <-. repeat constructor; done.
Qed.

Lemma unescape_no_nul n : forall raw s,
  (length raw <= n)%nat -> no_nul raw -> unescape raw = Some s -> no_nul s.
Proof.
  induction n as [| n IH]; intros [| c raw] s Hl Hn H; simpl in *; try lia; [by injection H as <- ..|].
  apply Forall_cons_iff in Hn as [Hc Hn]. destruct (c =? BSL).
  - destruct raw as [| x raw]; [injection H as <-; by constructor |]. simpl in Hl.
    apply Forall_cons_iff in Hn as [Hx Hn].
    destruct (decode_escape x) as [d |] eqn:Ex; [| done]. simpl in H.
    destruct (unescape raw) as [s' |] eqn:Es; [| done]. injection H as <-.
    apply Forall_app. split; [by eapply decode_escape_no_nul | apply (IH raw); done || lia].
  - destruct (unescape raw) as [s' |] eqn:Es; [| done]. injection H as <-.
    constructor; [done | apply (IH raw); done || lia].
Qed.

(** A JSON string as the builder packs it. *)
Lemma json_str_spec g m0 h ts tbl idx s junk raw pack_ids e :
  binv g m0 h ts tbl idx s -> is_byte junk -> bytes_ok raw -> no_nul raw ->
  json_elem pack_ids raw = Some e ->
  zlen tbl + zlen raw + 1 <= g_half g -> zlen tbl < 2 ^ 24 ->
  exists p x idx' s' written,
    ndb_builder_make_json_str junk raw pack_ids s = Some ((true, Some p, written), s') /\
    binv g m0 h ts (tbl ++ x) idx' s' /\ denotes (tbl ++ x) (le_bytes 4 p) e /\
    zlen x <= zlen raw + 1 /\ (forall str, e = EStr str -> written = zlen str /\ zlen str <= zlen raw).
Proof.
  intros I J Hs N He Hr H24. unfold json_elem in He.
  destruct (Z.ltb_spec (zlen raw) 3) as [Hsm | Hbig].
  { injection He as <-. pose proof (denotes_inline tbl junk raw J Hs N ltac:(lia)) as D.
    assert (E : exists p, ndb_builder_try_compact_str junk raw pack_ids s = Some (Some p, s) /\
                     denotes tbl (le_bytes 4 p) (EStr raw)).
    { destruct raw as [| c [| c2 [| c3 raw]]]; eauto. rewrite !zlen_cons in Hsm. zl. }
    destruct E as (p & E & D'). exists p, [], idx, s, (zlen raw). rewrite app_nil_r.
    split; [unfold ndb_builder_make_json_str; by rewrite (run_bind _ _ _ _ _ E) |].
    split; [done |]. split; [done |]. split; [zl |]. intros str [= <-]. lia. }
  destruct (if pack_ids && (zlen raw =? 64) then hex_decode raw 32 else None) as [id |] eqn:Eid.
  - injection He as <-. destruct (pack_ids && (zlen raw =? 64)) eqn:Ep; [| done].
    pose proof (hex_decode_zlen _ _ _ Eid) as Lid. change (Z.of_nat 32) with 32 in Lid.
    apply andb_true_iff in Ep as [Ep1 Ep2].
    destruct (ndb_builder_push_packed_id_spec g m0 h ts tbl idx s id I Lid)
      as (p & x & idx' & s' & E & I' & D & L); [lia | lia |].
    exists p, x, idx', s', (zlen raw). split; [| split; [done | split; [done | split; [lia | done]]]].
    assert (E' : ndb_builder_try_compact_str junk raw pack_ids s = Some (Some p, s')).
    { destruct raw as [| c [| c2 [| c3 raw]]]; try discriminate Ep2.
      unfold ndb_builder_try_compact_str. rewrite Ep1, Ep2. simpl andb. cbv iota. by rewrite Eid. }
    unfold ndb_builder_make_json_str. by rewrite (run_bind _ _ _ _ _ E').
  - destruct (unescape raw) as [str |] eqn:Eu; [| done]. injection He as <-.
    pose proof (unescape_zlen _ _ _ (Nat.le_refl _) Eu) as Hl.
    destruct (ndb_builder_make_json_str_spec g m0 h ts tbl idx s junk raw str pack_ids I Eu)
      as (p & s' & E & I' & D); try done; try lia.
    + by apply (unescape_no_nul _ _ _ (Nat.le_refl _) N).
    + destruct (pack_ids && (zlen raw =? 64)); [by right | by left].
    + exists p, (str ++ [0]), idx, s', (zlen str). split; [done |]. split; [done |].
      split; [done |]. split; [zl |]. by intros ? [= <-].
Qed.

Lemma jexec_content g m0 junk raw c v cset nb sb k s :
  is_byte junk -> rep g m0 v cset nb sb k s -> bytes_ok raw -> no_nul raw -> zlen raw < 2 ^ 31 ->
  json_elem false raw = Some (EStr c) ->
  sb + (zlen raw + 1) <= g_half g -> sb + (zlen raw + 1) <= 2 ^ 24 ->
  exists s', json_content junk raw s = Some (true, s') /\
    rep g m0 (mk_view (v_id v) (v_pubkey v) (v_sig v) (v_created_at v) (v_kind v) c (v_tags v))
      true nb (sb + (zlen raw + 1)) k s'.
Proof.
  intros J [(h & ts & tbl & idx & I & Ho & D & N & S & K & Ks)] Hb Hn Hl He Hs H24.
  pose proof (zlen_nonneg raw). unfold json_content.
  destruct (json_str_spec g m0 h ts tbl idx s junk raw false (EStr c) I J Hb Hn He)
    as (p & x & idx' & s1 & w & E1 & I1 & De & Lx & Hw); [lia | lia |].
  destruct (Hw c eq_refl) as [-> Hc].
  rewrite (run_bind _ _ _ _ _ E1).
  destruct (set_field_spec g m0 h ts _ idx' s1 off.content_length (le_bytes 4 (zlen c)) I1)
    as (h1 & s2 & E2 & S2 & I2).
  { by offs. } { rewrite zlen_le_bytes. by offs. }
  rewrite (run_bind _ _ _ _ _ E2).
  destruct (set_field_spec g m0 h1 ts _ idx' s2 off.content (le_bytes 4 p) I2)
    as (h2 & s3 & E3 & S3 & I3).
  { by offs. } { rewrite zlen_le_bytes. by offs. }
  rewrite (run_bind _ _ _ _ _ E3).
  exists s3. split; [done |]. constructor. exists h2, ts, (tbl ++ x), idx'. split; [done |]. split.
  - destruct (header_ok_app _ _ x _ _ Ho) as [V H1 H2 H3 H4 H5 H6 H7 _].
    assert (L4 : forall v, zlen (le_bytes 4 v) = 4) by (intros; by rewrite zlen_le_bytes).
    split; cbn [v_id v_pubkey v_sig v_created_at v_kind v_content];
      header S3 (L4 p); header S2 (L4 (zlen c)).
    intros _. split; [header S3 (L4 p); by header S2 (L4 (zlen c)) |]. split; [lia |].
    exists (le_bytes 4 p). split; [by header S3 (L4 p) | done].
  - cbn [v_tags]. split; [by apply tags_denote_app |]. split; [done |].
    split; [rewrite zlen_app; lia | done].
Qed.

Lemma jexec_spec g m0 junk c v v' cset nb sb k s :
  is_byte junk -> rep g m0 v cset nb sb k s -> apply_jcmd c v = Some v' -> jcmd_ok c ->
  nb + jnote_cost c <= g_half g -> sb + jstr_cost c <= g_half g -> sb + jstr_cost c <= 2 ^ 24 ->
  k + 1 < 2 ^ 16 ->
  exists s', jexec junk c s = Some (true, s') /\
    rep g m0 v' (cset || jsets_content c) (nb + jnote_cost c) (sb + jstr_cost c) (k + 1) s'.
Proof.
  intros J R Ha Hc Hn Hs H24 Hk. destruct c as [c | raw | raw]; cbn [jexec jnote_cost jstr_cost jsets_content] in *.
  - by apply (exec_spec g m0 junk c v v').
  - destruct Hc as (Hb & Hn' & Hl). cbn [apply_jcmd] in Ha.
    destruct (json_elem false raw) as [[cont |] |] eqn:He; try done.
    destruct v as [id pk sig t kd cont0 ts0]. injection Ha as <-.
    destruct (jexec_content g m0 junk raw cont _ cset nb sb k s J R Hb Hn' Hl He Hs H24) as (s' & E & R').
    exists s'. split; [done |]. rewrite orb_true_r, Z.add_0_r. eapply rep_weaken; eauto; lia.
  - destruct Hc as (Hb & Hn' & Hl). cbn [apply_jcmd] in Ha.
    destruct (json_elem true raw) as [e |] eqn:He; [| done]. simpl in Ha.
    destruct R as [(h & ts & tbl & idx & I & Ho & D & N & S & K & Ks)]. pose proof (zlen_nonneg raw).
    unfold ndb_builder_push_json_tag.
    destruct (json_str_spec g m0 h ts tbl idx s junk raw true e I J Hb Hn' He)
      as (p & x & idx' & s1 & w & E1 & I1 & De & Lx & _); [lia | lia |].
    rewrite (run_bind _ _ _ _ _ E1). rewrite orb_false_r.
    eapply (finalize_tag_rep g m0 h ts (tbl ++ x) idx'); eauto using header_ok_app, tags_denote_app.
    rewrite zlen_app. lia.
Qed.

Lemma jtotal_app f cs ds : jtotal f (cs ++ ds) = jtotal f cs + jtotal f ds.
Proof. induction cs as [| c cs IH]; simpl; [done | lia]. Qed.

Lemma jcost_nonneg cs : 0 <= jtotal jnote_cost cs /\ 0 <= jtotal jstr_cost cs.
Proof.
  induction cs as [| c cs [IH1 IH2]]; simpl; [lia |]. destruct c as [c | raw | raw]; simpl.
  - pose proof (note_cost_nonneg c). pose proof (str_cost_nonneg c). lia.
  - pose proof (zlen_nonneg raw). lia.
  - pose proof (zlen_nonneg raw). lia.
Qed.

(** With room for all of them, every call of a sequence succeeds. *)
Lemma jexec_all_spec g m0 junk cs : forall v v' cset nb sb k s,
  is_byte junk -> rep g m0 v cset nb sb k s -> apply_jcmds cs v = Some v' -> Forall jcmd_ok cs ->
  nb + jtotal jnote_cost cs <= g_half g -> sb + jtotal jstr_cost cs <= g_half g ->
  sb + jtotal jstr_cost cs <= 2 ^ 24 -> k + zlen cs < 2 ^ 16 ->
  exists s', jexec_all junk cs s = Some (true, s') /\
    rep g m0 v' (cset || existsb jsets_content cs) (nb + jtotal jnote_cost cs)
      (sb + jtotal jstr_cost cs) (k + zlen cs) s'.
Proof.
  induction cs as [| c cs IH]; intros v v' cset nb sb k s J R Ha Hc Hn Hs H24 Hk.
  - injection Ha as <-. exists s. split; [done |]. cbn [existsb jtotal foldr]. change (zlen (@nil jcmd)) with 0.
    by rewrite orb_false_r, !Z.add_0_r.
  - cbn [apply_jcmds] in Ha. destruct (apply_jcmd c v) as [v1 |] eqn:E1; simpl in Ha; [| done].
    apply Forall_cons_iff in Hc as [Hc1 Hc]. rewrite zlen_cons in *.
    cbn [jtotal foldr] in *. fold (jtotal jnote_cost cs) in *. fold (jtotal jstr_cost cs) in *.
    pose proof (jcost_nonneg cs). pose proof (zlen_nonneg cs).
    destruct (jexec_spec g m0 junk c v v1 cset nb sb k s J R E1 Hc1) as (s1 & X1 & R1); try lia.
    destruct (IH v1 v' _ _ _ _ s1 J R1 Ha Hc) as (s2 & X2 & R2); try lia.
    exists s2. cbn [jexec_all]. unfold andM. rewrite (run_bind _ _ _ _ _ X1). split; [done |].
    cbn [existsb]. rewrite orb_assoc, !Z.add_assoc. done.
Qed.

(** ** Walking the tokens

    The words that name a field, wherever they stand: the loop looks at every
    token, not only at the keys of the note. *)

Definition keyword (raw : list Z) : bool :=
  existsb (fun w => bool_decide (raw = w))
    [bytes_of "pubkey"; bytes_of "id"; bytes_of "sig"; bytes_of "kind"; bytes_of "created_at";
     bytes_of "content"; bytes_of "tags"].

(** A value none of whose strings and keys is such a word. *)
Fixpoint quiet (v : Json.json) : bool :=
  match v with
  | JString raw => negb (keyword raw)
  | JPrimitive _ => true
  | JArray _ items => forallb quiet items
  | JObject _ members =>
      forallb (fun m => negb (keyword (snd (fst (fst m)))) && quiet (snd m)) members
  | JPad _ v _ => quiet v
  end.

(** The value without the white space around it. *)
Fixpoint strip (v : Json.json) : Json.json :=
  match v with JPad _ v _ => strip v | _ => v end.

Lemma hex_decode_buf_ok n : forall s id buf,
  hex_decode s n = Some id -> (n <= length buf)%nat ->
  snd (hex_decode_buf s buf) = id ++ drop n buf.
Proof.
  induction n as [| n IH]; intros s id buf H Hl.
  - destruct s as [| c1 [| c2 s]]; simpl in H; try done; [by injection H as <- |].
    by destruct (char_to_hex c1), (char_to_hex c2).
  - destruct s as [| c1 [| c2 s]]; simpl in H; try done.
    destruct buf as [| b buf]; [simpl in Hl; lia |].
    simpl. destruct (char_to_hex c1) as [v1 |], (char_to_hex c2) as [v2 |]; try done.
    destruct (hex_decode s n) as [p |] eqn:E; simpl in H; [| done]. injection H as <-.
    specialize (IH s p buf E ltac:(simpl in Hl; lia)).
    destruct (hex_decode_buf s buf) as [ok buf']. simpl in *. by rewrite IH.
Qed.

Section walk.
Variables (js : list Z) (T : list jsmntok) (toks_at : Z -> option jsmntok) (num junk : Z).
Hypothesis Htoks : forall i t, tok_at T i = Some t -> toks_at i = Some t.
Hypothesis Hnum : num = zlen T.

Abbreviation here := (here js).
Abbreviation note_token := (note_token js toks_at num junk).
Abbreviation note_tokens := (note_tokens js toks_at num junk).

(** The tokens from index [i] on begin with [ts]. *)
Definition segment (i : Z) (ts : list jsmntok) : Prop :=
  exists pre post, T = pre ++ ts ++ post /\ zlen pre = i.

Lemma segment_app i a b : segment i (a ++ b) -> segment i a /\ segment (i + zlen a) b.
Proof.
  intros (pre & post & E & <-). split.
  - exists pre, (b ++ post). split; [by rewrite E, <- app_assoc | done].
  - exists (pre ++ a), post. split; [by rewrite E, <- !app_assoc | zl].
Qed.

Lemma segment_cons i t ts : segment i (t :: ts) -> tok_at T i = Some t /\ segment (i + 1) ts.
Proof.
  intros H. split.
  - destruct H as (pre & post & E & <-). rewrite E. apply tok_at_mid.
  - by apply (segment_app i [t] ts) in H as [_ H].
Qed.

Lemma segment_range i ts : segment i ts -> 0 <= i /\ i + zlen ts <= num.
Proof. intros (pre & post & E & <-). rewrite Hnum, E. zl. Qed.

Lemma tok_eq i t s : tok_at T i = Some t -> tok toks_at i s = Some (t, s).
Proof. intros H. unfold tok, lift. by rewrite (Htoks _ _ H). Qed.

(** What a token covers. *)
Definition covers (t : jsmntok) (raw : list Z) : Prop :=
  here (tk_start t) raw /\ tk_end t = tk_start t + zlen raw.

Lemma covers_size t raw : covers t raw -> toksize t = zlen raw.
Proof. intros [_ E]. unfold toksize. lia. Qed.

Lemma tok_text_eq t raw s : covers t raw -> tok_text js t s = Some (raw, s).
Proof.
  intros H. unfold tok_text, json_at, lift. rewrite (covers_size _ _ H).
  destruct H as [H _]. unfold Json.here in H. by rewrite H.
Qed.

Lemma jsoneq_eq t raw w s :
  covers t raw ->
  jsoneq js t (zlen raw) w s =
  Some (bool_decide (tk_type t = JSMN_STRING) && bool_decide (raw = w), s).
Proof.
  intros H. unfold jsoneq. destruct (bool_decide (tk_type t = JSMN_STRING)); [| done].
  destruct (Z.eqb_spec (zlen w) (zlen raw)) as [E | Hn]; simpl.
  - unfold json_at, bind, lift. destruct H as [H _]. unfold Json.here in H. by rewrite H.
  - rewrite bool_decide_eq_false_2; [done |]. by intros ->.
Qed.

(** A word test that looks at the first character before. *)
Lemma word_test t raw c0 d w x s :
  covers t raw -> raw = c0 :: x -> hd_error w = Some d ->
  (if c0 =? d then jsoneq js t (zlen raw) w else ret false) s =
  Some (bool_decide (tk_type t = JSMN_STRING) && bool_decide (raw = w), s).
Proof.
  intros H Er Ew. destruct w as [| d' w]; [done |]. injection Ew as ->.
  destruct (Z.eqb_spec c0 d) as [-> | Hn]; [by apply jsoneq_eq |].
  rewrite Er. rewrite (bool_decide_eq_false_2 (c0 :: x = _)) by congruence. by rewrite andb_false_r.
Qed.

Lemma covers_char t raw i c : covers t raw -> raw !! i = Some c -> load8 js (tk_start t + Z.of_nat i) = Some c.
Proof.
  intros [H _] Hi. unfold Json.here in H. rewrite (loadn_load8 _ _ _ _ (Z.of_nat i) H).
  - by rewrite Nat2Z.id.
  - apply lookup_lt_Some in Hi. unfold zlen. lia.
Qed.

(** The tests for id and sig look at single characters. *)
Lemma id_test t raw c0 x (s : mem * builder) :
  covers t raw -> raw = c0 :: x ->
  (if (zlen raw =? 2) && (c0 =? 105) then
     let* c1 := lift (load8 js (tk_start t + 1)) in ret (c1 =? 100) else ret false : BM bool) s =
  Some (bool_decide (raw = bytes_of "id"), s).
Proof.
  intros H Er. destruct (Z.eqb_spec (zlen raw) 2) as [E2 | Hn]; simpl.
  - destruct x as [| c1 [| c2 x]]; rewrite Er in E2; try (exfalso; rewrite ?zlen_cons in E2; zl; fail).
    destruct (Z.eqb_spec c0 105) as [-> | Hn].
    + unfold bind, lift. pose proof (covers_char t raw 1 c1 H ltac:(by rewrite Er)) as E1'.
      change (Z.of_nat 1) with 1 in E1'. rewrite E1'.
      unfold ret. rewrite Er. destruct (Z.eqb_spec c1 100) as [-> |]; [done |].
      rewrite bool_decide_eq_false_2; [done |]. change (bytes_of "id") with [105; 100]. congruence.
    + rewrite Er, bool_decide_eq_false_2; [done |]. change (bytes_of "id") with [105; 100]. congruence.
  - rewrite bool_decide_eq_false_2; [done |]. intros ->. done.
Qed.

Lemma sig_test t raw c0 x (s : mem * builder) :
  covers t raw -> raw = c0 :: x ->
  (if (zlen raw =? 3) && (c0 =? 115) then
     let* c1 := lift (load8 js (tk_start t + 1)) in
     if c1 =? 105 then
       let* c2 := lift (load8 js (tk_start t + 2)) in ret (c2 =? 103)
     else ret false
   else ret false : BM bool) s =
  Some (bool_decide (raw = bytes_of "sig"), s).
Proof.
  intros H Er. destruct (Z.eqb_spec (zlen raw) 3) as [E3 | Hn]; simpl.
  - destruct x as [| c1 [| c2 [| c3 x]]]; rewrite Er in E3; try (exfalso; rewrite ?zlen_cons in E3; zl; fail).
    destruct (Z.eqb_spec c0 115) as [-> | Hn].
    + unfold bind at 1, lift at 1. pose proof (covers_char t raw 1 c1 H ltac:(by rewrite Er)) as E1'.
      change (Z.of_nat 1) with 1 in E1'. rewrite E1'.
      rewrite Er. destruct (Z.eqb_spec c1 105) as [-> |].
      * unfold bind, lift. pose proof (covers_char t raw 2 c2 H ltac:(by rewrite Er)) as E2'.
      change (Z.of_nat 2) with 2 in E2'. rewrite E2'.
        unfold ret. destruct (Z.eqb_spec c2 103) as [-> |]; [done |].
        rewrite bool_decide_eq_false_2; [done |]. change (bytes_of "sig") with [115; 105; 103]. congruence.
      * rewrite bool_decide_eq_false_2; [done |]. change (bytes_of "sig") with [115; 105; 103]. congruence.
    + rewrite Er, bool_decide_eq_false_2; [done |]. change (bytes_of "sig") with [115; 105; 103]. congruence.
  - rewrite bool_decide_eq_false_2; [done |]. intros ->. done.
Qed.

(** What the loop does at a token, by what the token reads. *)
Definition field (l : note_loop) (string : bool) (raw : list Z) : BM (option note_loop) :=
  let says w := string && bool_decide (raw = bytes_of w) in
  if says "pubkey"%string then
    hex_field js toks_at l NDB_PARSED_PUBKEY (fun h => ndb_builder_set_pubkey (take 32 h))
  else if bool_decide (raw = bytes_of "id") then
    hex_field js toks_at l NDB_PARSED_ID (fun h => ndb_builder_set_id (take 32 h))
  else if bool_decide (raw = bytes_of "sig") then
    hex_field js toks_at l NDB_PARSED_SIG (fun h => ndb_builder_set_sig (take 64 h))
  else if says "kind"%string then int_field js toks_at l (zlen raw) NDB_PARSED_KIND ndb_builder_set_kind
  else if says "created_at"%string then
    int_field js toks_at l (zlen raw) NDB_PARSED_CREATED_AT ndb_builder_set_created_at
  else if says "content"%string then content_field js toks_at junk l
  else if says "tags"%string then tags_field js toks_at junk l
  else ret (Some l).

Lemma bind_eq {S A B} (c : M S A) (k : A -> M S B) s a s' : c s = Some (a, s') -> bind c k s = k a s'.
Proof. intros E. unfold bind. by rewrite E. Qed.

Lemma note_token_eq l t raw s :
  tok_at T (nl_i l) = Some t -> covers t raw -> raw <> [] -> nl_i l + 1 < num ->
  note_token l s = field l (bool_decide (tk_type t = JSMN_STRING)) raw s.
Proof.
  intros Et H Hraw Hlast. unfold JsonNote.note_token. erewrite bind_eq by (by apply tok_eq).
  rewrite (covers_size _ _ H). destruct raw as [| c0 x] eqn:Er; [done |]. rewrite <- Er in *.
  destruct (Z.eqb_spec (zlen raw) 0); [rewrite Er in *; exfalso; rewrite zlen_cons in *; zl; fail |].
  destruct (Z.leb_spec num (nl_i l + 1)); [lia |]. cbn [orb]. cbv iota.
  assert (load8 js (tk_start t) = Some c0) as E0.
  { rewrite <- (Z.add_0_r (tk_start t)). apply (covers_char t raw 0); [done | by rewrite Er]. }
  erewrite bind_eq by (unfold lift; by rewrite E0).
  erewrite bind_eq by (by apply (word_test t raw c0 112 (bytes_of "pubkey") x)).
  unfold field. destruct (bool_decide (tk_type t = JSMN_STRING) && bool_decide (raw = bytes_of "pubkey")); [done |].
  erewrite bind_eq by (by apply (id_test t raw c0 x)).
  destruct (bool_decide (raw = bytes_of "id")); [done |].
  erewrite bind_eq by (by apply (sig_test t raw c0 x)).
  destruct (bool_decide (raw = bytes_of "sig")); [done |].
  erewrite bind_eq by (by apply (word_test t raw c0 107 (bytes_of "kind") x)).
  destruct (bool_decide (tk_type t = JSMN_STRING) && bool_decide (raw = bytes_of "kind")); [done |].
  destruct (Z.eqb_spec c0 99) as [-> | Hn].
  - erewrite bind_eq by (by apply jsoneq_eq).
    destruct (bool_decide (tk_type t = JSMN_STRING) && bool_decide (raw = bytes_of "created_at")); [done |].
    erewrite bind_eq by (by apply jsoneq_eq).
    destruct (bool_decide (tk_type t = JSMN_STRING) && bool_decide (raw = bytes_of "content")); [done |].
    rewrite (bool_decide_eq_false_2 (raw = bytes_of "tags")) by (rewrite Er; discriminate).
    by rewrite andb_false_r.
  - rewrite (bool_decide_eq_false_2 (raw = bytes_of "created_at"))
      by (rewrite Er; intros [= Hc _]; done).
    rewrite (bool_decide_eq_false_2 (raw = bytes_of "content"))
      by (rewrite Er; intros [= Hc _]; done).
    rewrite !andb_false_r.
    erewrite bind_eq by (by apply (word_test t raw c0 116 (bytes_of "tags") x)).
    by destruct (bool_decide (tk_type t = JSMN_STRING) && bool_decide (raw = bytes_of "tags")).
Qed.

(** ** Tokens that name nothing *)

Definition quiet_tok (t : jsmntok) : Prop :=
  exists raw, covers t raw /\
    (tk_type t = JSMN_STRING /\ keyword raw = false \/
     tk_type t <> JSMN_STRING /\ exists c x, raw = c :: x /\ c <> 105 /\ c <> 115).

Lemma field_quiet l string raw :
  (string = true -> keyword raw = false) ->
  (string = false -> exists c x, raw = c :: x /\ c <> 105 /\ c <> 115) ->
  field l string raw = ret (Some l).
Proof.
  intros H1 H2. unfold field. destruct string; simpl andb.
  - specialize (H1 eq_refl). unfold keyword in H1. simpl in H1.
    repeat (apply orb_false_iff in H1 as [-> H1]). done.
  - destruct (H2 eq_refl) as (c & x & -> & Hc & Hs).
    rewrite (bool_decide_eq_false_2 (c :: x = bytes_of "id")) by (intros [= E _]; by apply Hc).
    rewrite (bool_decide_eq_false_2 (c :: x = bytes_of "sig")) by (intros [= E _]; by apply Hs).
    done.
Qed.

Lemma note_token_quiet l t s :
  tok_at T (nl_i l) = Some t -> quiet_tok t -> note_token l s = Some (Some l, s).
Proof.
  intros Et (raw & Hc & Hq). destruct (decide (raw = [] \/ num <= nl_i l + 1)) as [Hskip | Hgo].
  - unfold JsonNote.note_token. erewrite bind_eq by (by apply tok_eq).
    rewrite (covers_size _ _ Hc).
    assert ((zlen raw =? 0) || (num <=? nl_i l + 1) = true) as ->; [| done].
    destruct Hskip as [-> | ?]; [done |]. apply orb_true_iff. right. lia.
  - rewrite (note_token_eq _ _ _ _ Et Hc) by (try lia; intros ->; apply Hgo; by left).
    rewrite field_quiet; [done | |].
    + intros Ht. apply bool_decide_eq_true in Ht. destruct Hq as [[_ Hk] | [Hn _]]; done.
    + intros Ht. apply bool_decide_eq_false in Ht. destruct Hq as [[Hs _] | [_ Hx]]; done.
Qed.

(** The loop gets from one state to another, in no more rounds than the index
    moves. *)
Definition walks (l : note_loop) (s : mem * builder) (l' : note_loop) (s' : mem * builder) : Prop :=
  exists n, Z.of_nat n <= nl_i l' - nl_i l /\
    forall f, note_tokens (n + f) l s = note_tokens f l' s'.

Definition at_index (l : note_loop) (i : Z) : note_loop := mk_loop i (nl_parsed l) (nl_hexbuf l).

Lemma walks_refl l s : walks l s l s.
Proof. exists 0%nat. split; [lia | done]. Qed.

Lemma walks_trans l1 s1 l2 s2 l3 s3 : walks l1 s1 l2 s2 -> walks l2 s2 l3 s3 -> walks l1 s1 l3 s3.
Proof.
  intros (n & Hn & En) (m & Hm & Em). exists (n + m)%nat. split; [lia |].
  intros f. by rewrite <- Nat.add_assoc, En, Em.
Qed.

Lemma walks_token l s l' s' :
  nl_i l < num -> nl_i l <= nl_i l' -> note_token l s = Some (Some l', s') ->
  walks l s (at_index l' (nl_i l' + 1)) s'.
Proof.
  intros Hi Hle E. exists 1%nat. split; [simpl; lia |]. intros f. simpl.
  destruct (Z.leb_spec num (nl_i l)); [lia |]. unfold bind. by rewrite E.
Qed.

Lemma walks_quiet ts : forall l s,
  Forall quiet_tok ts -> segment (nl_i l) ts -> walks l s (at_index l (nl_i l + zlen ts)) s.
Proof.
  induction ts as [| t ts IH]; intros l s Hq Hs.
  - rewrite zlen_nil, Z.add_0_r. destruct l. apply walks_refl.
  - apply Forall_cons_iff in Hq as [Ht Hq]. pose proof (segment_range _ _ Hs) as Hr.
    rewrite zlen_cons in *. pose proof (zlen_nonneg ts). apply segment_cons in Hs as [Et Hs].
    eapply walks_trans.
    + apply walks_token; [lia | reflexivity | by eapply note_token_quiet].
    + replace (nl_i l + (1 + zlen ts)) with (nl_i (at_index l (nl_i l + 1)) + zlen ts) by (simpl; lia).
      apply (IH (at_index l (nl_i l + 1))); [done | exact Hs].
Qed.

(** The tokens of a quiet value are quiet. *)
Definition quietly (v : Json.json) : Prop := forall off par i,
  value_ok v = true -> quiet v = true -> here off (text v) -> Forall quiet_tok (toks off par i v).

Lemma covers_range type off raw size par : here off raw -> covers (mk_tok type off (off + zlen raw) size par) raw.
Proof. intros H. by split. Qed.

Lemma quiet_string off raw size par :
  here off ([DQ] ++ raw ++ [DQ]) -> keyword raw = false ->
  quiet_tok (mk_tok JSMN_STRING (off + 1) (off + 1 + zlen raw) size par).
Proof.
  intros Hh Hk. exists raw. apply here_app in Hh as [_ Hh]. apply here_app in Hh as [Hh _].
  split; [by apply covers_range | by left].
Qed.

Lemma quiet_items items : Forall quietly items -> forall off par n,
  forallb value_ok items = true -> forallb quiet items = true -> here off (commas (map text items)) ->
  Forall quiet_tok (items_toks par off n items).
Proof.
  induction 1 as [| v items Hv _ IH]; intros off par n Hok Hq Hh; [constructor |].
  rewrite commas_map_cons in Hh. simpl in Hok, Hq |- *.
  apply andb_true_iff in Hok as [Hokv Hok]. apply andb_true_iff in Hq as [Hqv Hq].
  apply here_app in Hh as [Hhv Hh]. apply Forall_app. split; [by apply Hv |].
  destruct items as [| w items]; [constructor |]. apply here_cons in Hh as [_ Hh]. by apply IH.
Qed.

Lemma quiet_members members : Forall (fun m => quietly (snd m)) members -> forall off par n,
  forallb member_ok members = true ->
  forallb (fun m => negb (keyword (snd (fst (fst m)))) && quiet (snd m)) members = true ->
  here off (commas (map member_text members)) -> Forall quiet_tok (members_toks par off n members).
Proof.
  induction 1 as [| [[[w1 key] w2] v] members Hv _ IH]; intros off par n Hok Hq Hh; [constructor |].
  rewrite commas_map_cons in Hh. cbn [members_toks]. simpl in Hok, Hq, Hv.
  apply andb_true_iff in Hok as [Hokm Hok]. apply andb_true_iff in Hq as [[Hqk Hqv]%andb_true_iff Hq].
  unfold member_ok in Hokm. simpl in Hokm.
  apply andb_true_iff in Hokm as [[[_ Hrk]%andb_true_iff _]%andb_true_iff Hokv].
  apply here_app in Hh as [Hhm Hh]. apply Forall_app. split.
  - unfold member_text, key_text in Hhm. simpl snd in Hhm. apply here_app in Hhm as [_ Hhm].
    rewrite (app_assoc [DQ]), (app_assoc _ [DQ]), <- (app_assoc [DQ] key [DQ]) in Hhm.
    apply here_app in Hhm as [Hkey Hhm]. apply here_app in Hhm as [_ Hhm].
    apply here_cons in Hhm as [_ Hhv]. constructor.
    + apply quiet_string; [exact Hkey | by destruct (keyword key)].
    + apply Hv; try done.
      assert (zlen ([DQ] ++ key ++ [DQ]) = zlen key + 2) as Ek by zl. rewrite Ek in Hhv.
      by replace (off + zlen w1 + 1 + zlen key + 1 + zlen w2 + 1)
        with (off + zlen w1 + (zlen key + 2) + zlen w2 + 1) by lia.
  - destruct members as [| m' members]; [constructor |]. apply here_cons in Hh as [_ Hh]. by apply IH.
Qed.

Lemma prim_ok_char raw : prim_ok raw = true -> exists c x, raw = c :: x /\ prim_start c = true.
Proof.
  destruct raw as [| c x]; [done |]. intros H. apply andb_true_iff in H as [H _]. eauto.
Qed.

Lemma toks_quiet v : quietly v.
Proof.
  induction v as [raw | raw | ws items IH | ws members IH | a v b IH] using json_ind';
    intros off par i Hok Hq Hh.
  - constructor; [| constructor]. apply quiet_string; [done |]. simpl in Hq. by destruct (keyword raw).
  - constructor; [| constructor]. exists raw. split; [by apply covers_range | right]. split; [done |].
    destruct (prim_ok_char _ Hok) as (c & x & -> & Hc). exists c, x. split; [done |].
    unfold prim_start in Hc. lia.
  - rewrite toks_array. simpl in Hok, Hq. apply andb_true_iff in Hok as [_ Hok]. constructor.
    + exists (text (JArray ws items)). split; [by apply covers_range | right]. split; [done |].
      eexists _, _. split; [reflexivity | lia].
    + change (text (JArray ws items)) with ([91] ++ ws ++ commas (map text items) ++ [93]) in Hh.
      apply here_cons in Hh as [_ Hh]. apply here_app in Hh as [_ Hh]. apply here_app in Hh as [Hh _].
      by apply quiet_items.
  - rewrite toks_object. simpl in Hok, Hq. apply andb_true_iff in Hok as [_ Hok]. constructor.
    + exists (text (JObject ws members)). split; [by apply covers_range | right]. split; [done |].
      eexists _, _. split; [reflexivity | lia].
    + change (text (JObject ws members)) with ([123] ++ ws ++ commas (map member_text members) ++ [125]) in Hh.
      apply here_cons in Hh as [_ Hh]. apply here_app in Hh as [_ Hh]. apply here_app in Hh as [Hh _].
      by apply quiet_members.
  - simpl in *. apply andb_true_iff in Hok as [[_ Hok]%andb_true_iff _].
    apply here_app in Hh as [_ Hh]. apply here_app in Hh as [Hh _]. by apply IH.
Qed.

(** ** The members of a note *)

(** A string or primitive, as one token. *)
Definition flat_text (v : Json.json) : option (list Z) :=
  match strip v with JString raw | JPrimitive raw => Some raw | _ => None end.

Fixpoint all_some {A B} (f : A -> option B) (l : list A) : option (list B) :=
  match l with
  | [] => Some []
  | x :: l => y ← f x; ys ← all_some f l; Some (y :: ys)
  end.

(** A tag: a non-empty array of strings. *)
Definition tag_cmds (v : Json.json) : option (list jcmd) :=
  match strip v with
  | JArray _ [] => None
  | JArray _ elems => raws ← all_some flat_text elems; Some (Plain NewTag :: map JTagStr raws)
  | _ => None
  end.

Definition tags_cmds (v : Json.json) : option (list jcmd) :=
  match strip v with
  | JArray _ items => cs ← all_some tag_cmds items; Some (concat cs)
  | _ => None
  end.

Definition hex_value (v : Json.json) (n : nat) : option (list Z) :=
  match strip v with JString raw => hex_decode raw n | _ => None end.

(** Digits and nothing else, with a value of 32 bits. *)
Definition is_digit (c : Z) : bool := (48 <=? c) && (c <=? 57).
Definition decimal_from (number : Z) (s : list Z) : Z := fold_left (fun n c => n * 10 + (c - 48)) s number.
Definition decimal_value (s : list Z) : option Z :=
  if negb (bool_decide (s = [])) && forallb is_digit s && (decimal_from 0 s <? 2 ^ 32) then Some (decimal_from 0 s) else None.

Definition int_value (v : Json.json) : option Z :=
  match strip v with JPrimitive raw => decimal_value raw | _ => None end.

Lemma decimal_from_ge s : forall number, forallb is_digit s = true -> 0 <= number -> number <= decimal_from number s.
Proof.
  induction s as [| c s IH]; intros number H Hn; [done |]. apply andb_true_iff in H as [Hc H]. unfold is_digit in Hc.
  change (decimal_from number (c :: s)) with (decimal_from (number * 10 + (c - 48)) s). specialize (IH (number * 10 + (c - 48)) H). lia.
Qed.

Lemma digits_loop_decimal s : forall number digits, forallb is_digit s = true -> 0 <= number -> decimal_from number s < 2 ^ 32 ->
  digits_loop s number digits = Some (decimal_from number s, digits + zlen s).
Proof.
  induction s as [| c s IH]; intros number digits H Hn Hl; [change (zlen (@nil Z)) with 0; by rewrite Z.add_0_r |].
  apply andb_true_iff in H as [Hc H]. unfold is_digit in Hc. apply andb_true_iff in Hc as [H1%Z.leb_le H2%Z.leb_le].
  change (decimal_from number (c :: s)) with (decimal_from (number * 10 + (c - 48)) s) in *.
  pose proof (decimal_from_ge s (number * 10 + (c - 48)) H ltac:(lia)). cbn [digits_loop].
  destruct (Z.ltb_spec c 48), (Z.ltb_spec 57 c); try lia. cbn [orb].
  assert (number <= (2 ^ 32 - 1 - (c - 48)) / 10) by (apply Z.div_le_lower_bound; lia).
  destruct (Z.ltb_spec ((2 ^ 32 - 1 - (c - 48)) / 10) number); [lia |].
  unfold u32. rewrite Z.mod_small by lia. rewrite IH by (done || lia). rewrite zlen_cons. do 2 f_equal. lia.
Qed.

(** The parser of the code finds the value of a decimal number. *)
Lemma decimal_parses s n : decimal_value s = Some n -> parse_unsigned_int s = Some n.
Proof.
  unfold decimal_value, parse_unsigned_int. destruct s as [| c s]; [done |]. rewrite bool_decide_eq_false_2 by done. cbn [negb andb].
  destruct (forallb is_digit (c :: s)) eqn:Ed; [| done]. destruct (Z.ltb_spec (decimal_from 0 (c :: s)) (2 ^ 32)); [| done]. cbn [andb].
  intros [= <-]. rewrite digits_loop_decimal by (done || lia). rewrite zlen_cons. pose proof (zlen_nonneg s).
  by destruct (Z.eqb_spec (0 + (1 + zlen s)) 0); [lia |].
Qed.

(** The field a member sets and the calls it makes; [None] is a member the
    statements below do not speak about. *)
Definition member_cmds (m : list Z * list Z * list Z * Json.json) : option (Z * list jcmd) :=
  let '(_, key, _, v) := m in
  if negb (quiet v) then None
  else if bool_decide (key = bytes_of "pubkey") then
    id ← hex_value v 32; Some (NDB_PARSED_PUBKEY, [Plain (SetPubkey id)])
  else if bool_decide (key = bytes_of "id") then
    id ← hex_value v 32; Some (NDB_PARSED_ID, [Plain (SetId id)])
  else if bool_decide (key = bytes_of "sig") then
    sig ← hex_value v 64; Some (NDB_PARSED_SIG, [Plain (SetSig sig)])
  else if bool_decide (key = bytes_of "kind") then
    k ← int_value v; Some (NDB_PARSED_KIND, [Plain (SetKind k)])
  else if bool_decide (key = bytes_of "created_at") then
    t ← int_value v; Some (NDB_PARSED_CREATED_AT, [Plain (SetCreatedAt t)])
  else if bool_decide (key = bytes_of "content") then
    match strip v with JString raw => Some (NDB_PARSED_CONTENT, [JContent raw]) | _ => None end
  else if bool_decide (key = bytes_of "tags") then
    cs ← tags_cmds v; Some (NDB_PARSED_TAGS, cs)
  else Some (0, []).

Fixpoint members_cmds (ms : list (list Z * list Z * list Z * Json.json)) : option (Z * list jcmd) :=
  match ms with
  | [] => Some (0, [])
  | m :: ms =>
      '(f, cs) ← member_cmds m;
      '(fs, ds) ← members_cmds ms;
      Some (Z.lor f fs, cs ++ ds)
  end.

(** The first token of a value, through the white space. *)
Lemma strip_string v raw : strip v = JString raw -> forall off par i,
  here off (text v) -> exists o,
  toks off par i v = [mk_tok JSMN_STRING o (o + zlen raw) 0 par] /\ here o raw.
Proof.
  induction v as [raw' | raw' | ws items _ | ws members _ | a v b IH] using json_ind';
    intros E off par i Hh; simpl in E; try discriminate E.
  - injection E as ->. exists (off + 1). split; [done |]. apply here_app in Hh as [_ Hh].
    by apply here_app in Hh as [Hh _].
  - simpl in Hh |- *. apply here_app in Hh as [_ Hh]. apply here_app in Hh as [Hh _]. by apply IH.
Qed.

Lemma strip_primitive v raw : strip v = JPrimitive raw -> forall off par i,
  here off (text v) -> exists o,
  toks off par i v = [mk_tok JSMN_PRIMITIVE o (o + zlen raw) 0 par] /\ here o raw.
Proof.
  induction v as [raw' | raw' | ws items _ | ws members _ | a v b IH] using json_ind';
    intros E off par i Hh; simpl in E; try discriminate E.
  - injection E as ->. by exists off.
  - simpl in Hh |- *. apply here_app in Hh as [_ Hh]. apply here_app in Hh as [Hh _]. by apply IH.
Qed.

Lemma flat_token v raw off par i :
  flat_text v = Some raw -> here off (text v) -> exists t,
  toks off par i v = [t] /\ covers t raw.
Proof.
  unfold flat_text. intros H Hh. destruct (strip v) as [raw' | raw' | | |] eqn:E; try done; injection H as ->.
  - destruct (strip_string _ _ E off par i Hh) as (o & -> & Ho). eexists. split; [done |]. by apply covers_range.
  - destruct (strip_primitive _ _ E off par i Hh) as (o & -> & Ho). eexists. split; [done |]. by apply covers_range.
Qed.

Lemma strip_array v ws items : strip v = JArray ws items -> forall off par i,
  here off (text v) -> exists o e,
  toks off par i v = mk_tok JSMN_ARRAY o e (zlen items) par :: items_toks i (o + 1 + zlen ws) (i + 1) items /\
  here (o + 1 + zlen ws) (commas (map text items)).
Proof.
  induction v as [raw' | raw' | ws' items' _ | ws' members _ | a v b IH] using json_ind';
    intros E off par i Hh; simpl in E; try discriminate E.
  - injection E as -> ->. exists off. eexists. split; [apply toks_array |].
    change (text (JArray ws items)) with ([91] ++ ws ++ commas (map text items) ++ [93]) in Hh.
    apply here_cons in Hh as [_ Hh]. apply here_app in Hh as [_ Hh]. by apply here_app in Hh as [Hh _].
  - simpl in Hh |- *. apply here_app in Hh as [_ Hh]. apply here_app in Hh as [Hh _]. by apply IH.
Qed.

(** ** Tags *)

Lemma jexec_all_app a b s : jexec_all junk (a ++ b) s = (jexec_all junk a &&* jexec_all junk b) s.
Proof.
  revert s. induction a as [| c a IH]; intros s; [done |]. simpl. unfold andM, bind.
  destruct (jexec junk c s) as [[[|] s'] |]; [| done | done]. rewrite IH. done.
Qed.

Lemma andM_ret_true (c : BM bool) s : (c &&* ret true) s = c s.
Proof. unfold andM, bind, ret. by destruct (c s) as [[[|] s'] |]. Qed.

Lemma tag_elems_eq elems : forall raws off par n array i s,
  all_some flat_text elems = Some raws -> here off (commas (map text elems)) ->
  segment (array + i + 1) (items_toks par off n elems) ->
  tag_elems_loop js toks_at junk (length elems) array i s = jexec_all junk (map JTagStr raws) s /\
  zlen (items_toks par off n elems) = zlen elems.
Proof.
  induction elems as [| v elems IH]; intros raws off par n array i s Hf Hh Hs.
  { by injection Hf as <-. }
  simpl in Hf. destruct (flat_text v) as [raw |] eqn:Ev; [| done]. simpl in Hf.
  destruct (all_some flat_text elems) as [raws' |] eqn:Er; [| done]. injection Hf as <-.
  rewrite commas_map_cons in Hh. apply here_app in Hh as [Hhv Hh].
  cbn [items_toks] in Hs |- *.
  destruct (flat_token v raw off par n Ev Hhv) as (t & Et & Hc). rewrite Et in *.
  simpl app in *. apply segment_cons in Hs as [Ht Hs].
  assert (here (off + zlen (text v) + 1) (commas (map text elems)) \/ elems = []) as Hh'.
  { destruct elems; [by right | left]. by apply here_cons in Hh as [_ Hh]. }
  assert (forall s', tag_elems_loop js toks_at junk (length elems) array (i + 1) s' =
            jexec_all junk (map JTagStr raws') s' /\
          zlen (items_toks par (off + zlen (text v) + 1) (n + zlen [t]) elems) = zlen elems) as IH'.
  { intros s'. destruct Hh' as [Hh' | ->]; [| by injection Er as <-].
    apply (IH raws'); try done. by replace (array + (i + 1) + 1) with (array + i + 1 + 1) by lia. }
  split.
  - simpl. erewrite bind_eq by (by apply tok_eq). erewrite bind_eq by (by apply tok_text_eq).
    unfold andM, bind. destruct (ndb_builder_push_json_tag junk raw s) as [[[|] s'] |]; try done.
    by destruct (IH' s') as [-> _].
  - destruct (IH' s) as [_ El]. revert El. generalize (n + zlen [t]). intros k El.
    rewrite !zlen_cons. by rewrite El.
Qed.

Lemma tag_eq v cs off par n s :
  tag_cmds v = Some cs -> here off (text v) -> segment n (toks off par n v) ->
  ndb_builder_tag_from_json_array js toks_at junk n s = jexec_all junk cs s /\
  exists t, tok_at T n = Some t /\ zlen (toks off par n v) = 1 + tk_size t.
Proof.
  unfold tag_cmds. intros Hc Hh Hs.
  destruct (strip v) as [| | ws elems | |] eqn:E; try done.
  assert (elems <> [] /\ exists raws, all_some flat_text elems = Some raws /\
          cs = Plain NewTag :: map JTagStr raws) as (Hne & raws & Hr & ->).
  { destruct elems as [| e elems]; [done |]. split; [done |].
    destruct (all_some flat_text (e :: elems)) as [raws |] eqn:Er; [| done]. exists raws. by injection Hc as <-. }
  destruct (strip_array v ws elems E off par n Hh) as (o & e & Et & He).
  rewrite Et in *. apply segment_cons in Hs as [Ht Hs].
  assert (forall s', tag_elems_loop js toks_at junk (length elems) n 0 s' = jexec_all junk (map JTagStr raws) s' /\
            zlen (items_toks n (o + 1 + zlen ws) (n + 1) elems) = zlen elems) as Hel.
  { intros s'. apply (tag_elems_eq elems raws _ _ _ n 0 s' Hr He). by rewrite Z.add_0_r. }
  split.
  - unfold ndb_builder_tag_from_json_array. erewrite bind_eq by (by apply tok_eq). cbn [tk_size].
    destruct (Z.eqb_spec (zlen elems) 0) as [Hz | _].
    { destruct elems; [done |]. rewrite zlen_cons in Hz. zl. }
    rewrite to_nat_zlen. simpl. unfold andM, bind.
    destruct (ndb_builder_new_tag s) as [[[|] s'] |]; try done. by destruct (Hel s') as [-> _].
  - eexists. split; [exact Ht |]. rewrite zlen_cons. simpl. destruct (Hel s) as [_ ->]. done.
Qed.

Lemma tags_loop_eq items : forall css off par n tag i s,
  all_some tag_cmds items = Some css -> here off (commas (map text items)) ->
  tag + i + 1 = n -> segment n (items_toks par off n items) ->
  json_tags_loop js toks_at junk (length items) tag i s = jexec_all junk (concat css) s.
Proof.
  induction items as [| v items IH]; intros css off par n tag i s Hc Hh Hn Hs.
  { by injection Hc as <-. }
  simpl in Hc. destruct (tag_cmds v) as [cs |] eqn:Ev; [| done]. simpl in Hc.
  destruct (all_some tag_cmds items) as [css' |] eqn:Er; [| done]. injection Hc as <-.
  rewrite commas_map_cons in Hh. apply here_app in Hh as [Hhv Hh].
  cbn [items_toks] in Hs. apply segment_app in Hs as [Hsv Hs].
  destruct (tag_eq v cs off par n s Ev Hhv Hsv) as [Eq (t & Et & El)].
  simpl. rewrite Hn. rewrite jexec_all_app. unfold andM, bind. rewrite Eq.
  destruct (jexec_all junk cs s) as [[[|] s'] |]; try done.
  rewrite (tok_eq _ _ _ Et).
  destruct items as [| w items]; [by injection Er as <- |].
  apply here_cons in Hh as [_ Hh].
  apply (IH css' _ par (n + zlen (toks off par n v)) _ _ s' eq_refl Hh); [lia | exact Hs].
Qed.

(** ** One member *)

(** Where the key and the value of a member stand. *)
Lemma member_here off w1 key w2 v :
  here off (member_text (w1, key, w2, v)) ->
  here (off + zlen w1 + 1) key /\ here (off + zlen w1 + 1 + zlen key + 1 + zlen w2 + 1) (text v).
Proof.
  unfold member_text, key_text. simpl snd. intros Hh. apply here_app in Hh as [_ Hh].
  rewrite (app_assoc [DQ]), (app_assoc _ [DQ]), <- (app_assoc [DQ] key [DQ]) in Hh.
  apply here_app in Hh as [Hkey Hh]. apply here_app in Hh as [_ Hh]. apply here_cons in Hh as [_ Hh].
  split; [apply here_cons in Hkey as [_ Hkey]; by apply here_app in Hkey as [Hkey _] |].
  assert (zlen ([DQ] ++ key ++ [DQ]) = zlen key + 2) as Ek by zl. rewrite Ek in Hh.
  by replace (off + zlen w1 + 1 + zlen key + 1 + zlen w2 + 1)
    with (off + zlen w1 + (zlen key + 2) + zlen w2 + 1) by lia.
Qed.

(** After the key the rest of the value names nothing. *)
Lemma member_tail l l1 s s' ts :
  note_token l s = Some (Some l1, s') -> segment (nl_i l + 1) ts -> Forall quiet_tok ts ->
  0 <= nl_i l -> nl_i l <= nl_i l1 <= nl_i l + zlen ts ->
  walks l s (at_index l1 (nl_i l + 1 + zlen ts)) s'.
Proof.
  intros E Hs Hq H0 Hk. pose proof (segment_range _ _ Hs) as Hr. pose proof (zlen_nonneg ts).
  eapply walks_trans; [apply (walks_token _ _ l1 s'); [lia | lia | exact E] |].
  set (k := Z.to_nat (nl_i l1 - nl_i l)).
  assert (zlen (drop k ts) = zlen ts - (nl_i l1 - nl_i l)) as El by (unfold k; zl).
  replace (nl_i l + 1 + zlen ts) with (nl_i (at_index l1 (nl_i l1 + 1)) + zlen (drop k ts)) by (unfold at_index; cbn [nl_i]; lia).
  apply (walks_quiet _ (at_index l1 (nl_i l1 + 1))).
  - rewrite <- (take_drop k ts) in Hq. by apply Forall_app in Hq as [_ Hq].
  - simpl. rewrite <- (take_drop k ts) in Hs. apply segment_app in Hs as [_ Hs].
    replace (nl_i l1 + 1) with (nl_i l + 1 + zlen (take k ts)) by (unfold k; zl). exact Hs.
Qed.

Lemma set_plain c s s' :
  jexec_all junk [Plain c] s = Some (true, s') -> exec junk c s = Some (true, s').
Proof.
  simpl. unfold andM, bind, ret. by destruct (exec junk c s) as [[[|] s1] |].
Qed.

Lemma always_inv (c : BM unit) s s' : always c s = Some (true, s') -> c s = Some (tt, s').
Proof. unfold always, bind, ret. destruct (c s) as [[[] s1] |]; [by intros [= ->] | done]. Qed.

Lemma hex_field_eq l flag set n v id s s' off par i :
  hex_value v n = Some id -> here off (text v) -> segment (nl_i l + 1) (toks off par i v) ->
  (n <= 64)%nat -> length (nl_hexbuf l) = 64%nat -> set (id ++ drop n (nl_hexbuf l)) s = Some (tt, s') ->
  hex_field js toks_at l flag set s = Some (Some (seen l flag (id ++ drop n (nl_hexbuf l))), s').
Proof.
  unfold hex_value. intros Hv Hh Hs Hn Hl Eset.
  destruct (strip v) as [raw | | | |] eqn:E; try done.
  destruct (strip_string v raw E off par i Hh) as (o & Et & Ho). rewrite Et in Hs.
  apply segment_cons in Hs as [Ht _]. unfold hex_field.
  erewrite bind_eq by (by apply tok_eq). erewrite bind_eq by (by apply tok_text_eq, covers_range).
  cbv zeta. rewrite (hex_decode_buf_ok n raw id) by (done || lia).
  by erewrite bind_eq by exact Eset.
Qed.

Lemma int_field_eq l tok_len flag set n v s s' off par i :
  int_value v = Some n -> here off (text v) -> segment (nl_i l + 1) (toks off par i v) ->
  0 < tok_len -> set n s = Some (tt, s') ->
  int_field js toks_at l tok_len flag set s = Some (Some (seen l flag (nl_hexbuf l)), s').
Proof.
  unfold int_value. intros Hv Hh Hs Hl Eset.
  destruct (strip v) as [| raw | | |] eqn:E; try done.
  destruct (strip_primitive v raw E off par i Hh) as (o & Et & Ho). rewrite Et in Hs.
  apply segment_cons in Hs as [Ht _]. unfold int_field.
  erewrite bind_eq by (by apply tok_eq). cbn [tk_type].
  rewrite bool_decide_eq_true_2 by done. destruct (Z.leb_spec tok_len 0); [lia |]. cbn [negb orb].
  erewrite bind_eq by (by apply tok_text_eq, covers_range). rewrite (decimal_parses _ _ Hv).
  by erewrite bind_eq by exact Eset.
Qed.

Lemma content_field_eq l v raw s s' off par i :
  strip v = JString raw -> here off (text v) -> segment (nl_i l + 1) (toks off par i v) ->
  json_content junk raw s = Some (true, s') ->
  content_field js toks_at junk l s = Some (Some (seen l NDB_PARSED_CONTENT (nl_hexbuf l)), s').
Proof.
  intros E Hh Hs Ec. destruct (strip_string v raw E off par i Hh) as (o & Et & Ho). rewrite Et in Hs.
  apply segment_cons in Hs as [Ht _]. unfold content_field.
  erewrite bind_eq by (by apply tok_eq). erewrite bind_eq by (by apply tok_text_eq, covers_range).
  unfold json_content in Ec. unfold bind in Ec |- *.
  destruct (ndb_builder_make_json_str junk raw false s) as [[[[[|] [p |]] w] s1] |]; try done.
  destruct (set_field off.content_length (le_bytes 4 w) s1) as [[[] s2] |]; [| done].
  destruct (set_field off.content (le_bytes 4 p) s2) as [[[] s3] |]; [| done].
  unfold ret in *. by injection Ec as ->.
Qed.

Lemma items_toks_zlen items : forall off par n, zlen items <= zlen (items_toks par off n items).
Proof.
  induction items as [| v items IH]; intros off par n; [done |].
  simpl. rewrite zlen_cons, zlen_app. pose proof (toks_nonempty v off par n).
  specialize (IH (off + zlen (text v) + 1) par (n + zlen (toks off par n v))). lia.
Qed.

Lemma tags_field_eq l v cs s s' off par i :
  tags_cmds v = Some cs -> here off (text v) -> nl_i l + 1 = i -> segment i (toks off par i v) ->
  jexec_all junk cs s = Some (true, s') ->
  exists n, tags_field js toks_at junk l s =
    Some (Some (mk_loop (nl_i l + n) (Z.lor (nl_parsed l) NDB_PARSED_TAGS) (nl_hexbuf l)), s') /\
    0 <= n <= zlen (toks off par i v).
Proof.
  unfold tags_cmds. intros Hc Hh <- Hs Ec.
  destruct (strip v) as [| | ws items | |] eqn:E; try done.
  destruct (all_some tag_cmds items) as [css |] eqn:Er; [| done]. injection Hc as <-.
  destruct (strip_array v ws items E off par (nl_i l + 1) Hh) as (o & e & Et & He). rewrite Et in *.
  apply segment_cons in Hs as [Ht Hs]. exists (zlen items). split.
  - unfold tags_field. erewrite bind_eq by (by apply tok_eq).
    assert (ndb_builder_process_json_tags js toks_at junk (nl_i l + 1) s = Some (true, s')) as Ep.
    { unfold ndb_builder_process_json_tags. erewrite bind_eq by (by apply tok_eq). cbn [tk_size].
      destruct (Z.eqb_spec (zlen items) 0) as [Hz | _].
      - destruct items; [| rewrite zlen_cons in Hz; zl]. injection Er as <-. exact Ec.
      - rewrite to_nat_zlen.
        by rewrite (tags_loop_eq items css (o + 1 + zlen ws) (nl_i l + 1) (nl_i l + 1 + 1) (nl_i l + 1) 0 s Er He
                   ltac:(lia) Hs). }
    erewrite bind_eq by exact Ep. done.
  - rewrite zlen_cons. pose proof (items_toks_zlen items (o + 1 + zlen ws) (nl_i l + 1) (nl_i l + 1 + 1)). zl.
Qed.

Lemma member_walks m off par l s s' flag cs :
  member_cmds m = Some (flag, cs) -> member_ok m = true -> here off (member_text m) ->
  segment (nl_i l) (member_toks par off (nl_i l) m) -> length (nl_hexbuf l) = 64%nat ->
  jexec_all junk cs s = Some (true, s') ->
  exists l', walks l s l' s' /\ nl_i l' = nl_i l + zlen (member_toks par off (nl_i l) m) /\
    nl_parsed l' = Z.lor (nl_parsed l) flag /\ length (nl_hexbuf l') = 64%nat.
Proof.
  destruct m as [[[w1 key] w2] v]. intros Hc Hok Hh Hs Hb Ex.
  unfold member_ok in Hok. simpl in Hok.
  apply andb_true_iff in Hok as [[[_ Hrk]%andb_true_iff _]%andb_true_iff Hokv].
  destruct (member_here _ _ _ _ _ Hh) as [Hkey Hv].
  cbn [member_toks] in Hs |- *. pose proof (segment_range _ _ Hs) as Hr.
  set (o := off + zlen w1 + 1) in *. set (ov := o + zlen key + 1 + zlen w2 + 1) in *.
  apply segment_cons in Hs as [Ht Hs].
  set (ts := toks ov (nl_i l) (nl_i l + 1) v) in *.
  pose proof (toks_nonempty v ov (nl_i l) (nl_i l + 1)) as Hne. fold ts in Hne. rewrite zlen_cons in *.
  simpl in Hc. destruct (quiet v) eqn:Hq; [| done]. simpl in Hc.
  pose proof (toks_quiet v ov (nl_i l) (nl_i l + 1) Hokv Hq Hv) as Hqt. fold ts in Hqt.
  assert (Htail : forall l1, note_token l s = Some (Some l1, s') ->
    nl_i l <= nl_i l1 <= nl_i l + zlen ts -> nl_parsed l1 = Z.lor (nl_parsed l) flag ->
    length (nl_hexbuf l1) = 64%nat ->
    exists l', walks l s l' s' /\ nl_i l' = nl_i l + (1 + zlen ts) /\
      nl_parsed l' = Z.lor (nl_parsed l) flag /\ length (nl_hexbuf l') = 64%nat).
  { intros l1 E Hk Hp Hl1. exists (at_index l1 (nl_i l + 1 + zlen ts)).
    split; [apply member_tail; done || lia |]. unfold at_index. simpl. split; [lia | done]. }
  assert (Hf : key <> [] -> forall s, note_token l s = field l true key s).
  { intros Hk s0. apply (note_token_eq l _ key s0 Ht); [by apply covers_range | done | lia]. }
  assert (Hlen : forall (id : list Z) n, length id = n -> (n <= 64)%nat ->
            length (id ++ drop n (nl_hexbuf l)) = 64%nat).
  { intros id n Hid Hn. rewrite length_app, length_drop. lia. }
  assert (Hdec : forall n id, hex_value v n = Some id -> length id = n).
  { intros n id Hid. unfold hex_value in Hid. destruct (strip v); try done.
    apply hex_decode_zlen in Hid. unfold zlen in Hid. lia. }
  destruct (bool_decide_reflect (key = bytes_of "pubkey")) as [-> | N1].
  { destruct (hex_value v 32) as [id |] eqn:Ev; [| done]. injection Hc as <- <-.
    apply set_plain, always_inv in Ex. pose proof (Hdec _ _ Ev) as Hid. eapply Htail.
    - rewrite Hf by done.
      apply (hex_field_eq l NDB_PARSED_PUBKEY _ 32 v id s s' ov (nl_i l) (nl_i l + 1)); try done; [lia | cbv beta; rewrite take_app_length' by done; exact Ex].
    - simpl. lia.
    - done.
    - by apply Hlen; [| lia]. }
  destruct (bool_decide_reflect (key = bytes_of "id")) as [-> | N2].
  { destruct (hex_value v 32) as [id |] eqn:Ev; [| done]. injection Hc as <- <-.
    apply set_plain, always_inv in Ex. pose proof (Hdec _ _ Ev) as Hid. eapply Htail.
    - rewrite Hf by done.
      apply (hex_field_eq l NDB_PARSED_ID _ 32 v id s s' ov (nl_i l) (nl_i l + 1)); try done; [lia | cbv beta; rewrite take_app_length' by done; exact Ex].
    - simpl. lia.
    - done.
    - by apply Hlen; [| lia]. }
  destruct (bool_decide_reflect (key = bytes_of "sig")) as [-> | N3].
  { destruct (hex_value v 64) as [id |] eqn:Ev; [| done]. injection Hc as <- <-.
    apply set_plain, always_inv in Ex. pose proof (Hdec _ _ Ev) as Hid. eapply Htail.
    - rewrite Hf by done.
      apply (hex_field_eq l NDB_PARSED_SIG _ 64 v id s s' ov (nl_i l) (nl_i l + 1)); try done.
      cbv beta. rewrite take_app_length' by done. exact Ex.
    - simpl. lia.
    - done.
    - by apply Hlen; [| lia]. }
  destruct (bool_decide_reflect (key = bytes_of "kind")) as [-> | N4].
  { destruct (int_value v) as [n |] eqn:Ev; [| done]. injection Hc as <- <-.
    apply set_plain, always_inv in Ex. eapply Htail.
    - rewrite Hf by done.
      by apply (int_field_eq l _ NDB_PARSED_KIND ndb_builder_set_kind n v s s' ov (nl_i l) (nl_i l + 1)).
    - simpl. lia.
    - done.
    - done. }
  destruct (bool_decide_reflect (key = bytes_of "created_at")) as [-> | N5].
  { destruct (int_value v) as [n |] eqn:Ev; [| done]. injection Hc as <- <-.
    apply set_plain, always_inv in Ex. eapply Htail.
    - rewrite Hf by done.
      by apply (int_field_eq l _ NDB_PARSED_CREATED_AT ndb_builder_set_created_at n v s s' ov (nl_i l) (nl_i l + 1)).
    - simpl. lia.
    - done.
    - done. }
  destruct (bool_decide_reflect (key = bytes_of "content")) as [-> | N6].
  { destruct (strip v) as [raw | | | |] eqn:Ev; try done. injection Hc as <- <-.
    assert (json_content junk raw s = Some (true, s')) as Ex'.
    { simpl in Ex. unfold andM, bind, ret in Ex. by destruct (json_content junk raw s) as [[[|] s1] |]. }
    eapply Htail.
    - rewrite Hf by done. by apply (content_field_eq l v raw s s' ov (nl_i l) (nl_i l + 1)).
    - simpl. lia.
    - done.
    - done. }
  destruct (bool_decide_reflect (key = bytes_of "tags")) as [-> | N7].
  { destruct (tags_cmds v) as [cs' |] eqn:Ev; [| done]. injection Hc as <- <-.
    destruct (tags_field_eq l v cs' s s' ov (nl_i l) (nl_i l + 1) Ev Hv eq_refl Hs Ex) as (n & Et & Hn).
    eapply Htail.
    - rewrite Hf by done. exact Et.
    - simpl. fold ts in Hn. lia.
    - done.
    - done. }
  injection Hc as <- <-. injection Ex as <-. rewrite Z.lor_0_r in *.
  apply (Htail l); try done; [| lia].
  eapply note_token_quiet; [exact Ht |]. exists key. split; [by apply covers_range |]. left. split; [done |].
  unfold keyword. simpl. rewrite !bool_decide_eq_false_2 by done. done.
Qed.

Lemma jexec_all_split a b s s' :
  jexec_all junk (a ++ b) s = Some (true, s') ->
  exists s1, jexec_all junk a s = Some (true, s1) /\ jexec_all junk b s1 = Some (true, s').
Proof.
  rewrite jexec_all_app. unfold andM, bind, ret.
  destruct (jexec_all junk a s) as [[[|] s1] |]; [eauto | done | done].
Qed.

Lemma members_walk ms : forall off par l s s' flags cs,
  members_cmds ms = Some (flags, cs) -> forallb member_ok ms = true ->
  here off (commas (map member_text ms)) ->
  segment (nl_i l) (members_toks par off (nl_i l) ms) -> length (nl_hexbuf l) = 64%nat ->
  jexec_all junk cs s = Some (true, s') ->
  exists l', walks l s l' s' /\ nl_i l' = nl_i l + zlen (members_toks par off (nl_i l) ms) /\
    nl_parsed l' = Z.lor (nl_parsed l) flags.
Proof.
  induction ms as [| m ms IH]; intros off par l s s' flags cs Hc Hok Hh Hs Hb Ex.
  { injection Hc as <- <-. injection Ex as <-. exists l. rewrite Z.lor_0_r. split; [apply walks_refl |].
    split; [simpl; zl | done]. }
  simpl in Hc. destruct (member_cmds m) as [[f cm] |] eqn:Em; [| done]. simpl in Hc.
  destruct (members_cmds ms) as [[fs cs'] |] eqn:Ems; [| done]. injection Hc as <- <-.
  simpl in Hok. apply andb_true_iff in Hok as [Hokm Hok].
  rewrite commas_map_cons in Hh. apply here_app in Hh as [Hhm Hh].
  cbn [members_toks] in Hs |- *. apply segment_app in Hs as [Hsm Hs].
  apply jexec_all_split in Ex as (s1 & E1 & E2).
  destruct (member_walks m off par l s s1 f cm Em Hokm Hhm Hsm Hb E1) as (l1 & W1 & I1 & P1 & B1).
  rewrite <- I1 in Hs |- *.
  destruct ms as [| m' ms].
  { injection Ems as <- <-. injection E2 as <-. exists l1. split; [done |]. rewrite app_nil_r.
    split; [exact I1 |]. by rewrite P1, Z.lor_0_r. }
  apply here_cons in Hh as [_ Hh].
  destruct (IH _ par l1 s1 s' fs cs' eq_refl Hok Hh Hs B1 E2) as (l2 & W2 & I2 & P2).
  exists l2. split; [by eapply walks_trans |]. split; [rewrite I2, I1, zlen_app; lia |].
  by rewrite P2, P1, Z.lor_assoc.
Qed.

(** The loop over all the tokens of a note. *)
Lemma note_tokens_members par off i ms s s' flags cs hexbuf :
  members_cmds ms = Some (flags, cs) -> forallb member_ok ms = true ->
  here off (commas (map member_text ms)) -> segment i (members_toks par off i ms) ->
  i + zlen (members_toks par off i ms) = num -> length hexbuf = 64%nat ->
  jexec_all junk cs s = Some (true, s') ->
  exists l, note_tokens (S (Z.to_nat num)) (mk_loop i 0 hexbuf) s = Some (Some l, s') /\
    nl_parsed l = flags.
Proof.
  intros Hc Hok Hh Hs Hn Hb Ex. pose proof (segment_range _ _ Hs) as Hr.
  destruct (members_walk ms off par (mk_loop i 0 hexbuf) s s' flags cs Hc Hok Hh Hs Hb Ex)
    as (l & (n & Hle & En) & Hi & Hp). simpl in Hi, Hle, Hp.
  exists l. split; [| done].
  assert (exists f, (S (Z.to_nat num) = n + S f)%nat) as [f ->] by (exists (Z.to_nat num - n)%nat; lia).
  rewrite En. simpl. destruct (Z.leb_spec num (nl_i l)); [done | lia].
Qed.

End walk.

(** ** The calls are well-formed *)

Lemma digits_loop_range s : forall number digits n d,
  is_u32 number -> digits_loop s number digits = Some (n, d) -> is_u32 n.
Proof.
  induction s as [| c s IH]; intros number digits n d Hn H; simpl in H.
  { by injection H as <- <-. }
  destruct ((c <? 48) || (57 <? c)); [by injection H as <- <- |].
  destruct (_ <? number); [done |]. eapply IH; [| exact H].
  unfold is_u32, u32. apply Z.mod_pos_bound. lia.
Qed.

Lemma parse_unsigned_int_range s n : parse_unsigned_int s = Some n -> is_u32 n.
Proof.
  unfold parse_unsigned_int. destruct (digits_loop s 0 0) as [[m d] |] eqn:E; [| done].
  destruct (d =? 0); [done |]. intros [= <-]. eapply digits_loop_range; [| exact E].
  unfold is_u32. lia.
Qed.

Lemma raw_ok_no_nul n : forall s, (length s <= n)%nat -> raw_ok s = true -> no_nul s.
Proof.
  induction n as [| n IH]; intros [| c s] Hl H; try (constructor; fail); [simpl in Hl; lia |].
  simpl in Hl, H. destruct (Z.eqb_spec c BSL) as [-> | Hb].
  - destruct s as [| e s]; [done |]. simpl in Hl. constructor; [done |].
    destruct (escapable e) eqn:Ee.
    + constructor; [intros ->; done | apply IH; done || lia].
    + apply andb_true_iff in H as [He H]. destruct s as [| h1 [| h2 [| h3 [| h4 s]]]]; try done.
      rewrite !andb_true_iff in H. destruct H as [[[[D1 D2] D3] D4] Hs]. simpl in Hl.
      repeat (constructor; [intros ->; done |]). apply IH; [lia | done].
  - rewrite !andb_true_iff in H. destruct H as [[Hq H0] H].
    constructor; [intros ->; done | apply IH; done || lia].
Qed.

Lemma prim_ok_no_nul s : prim_ok s = true -> no_nul s.
Proof.
  destruct s as [| c s]; [done |]. intros H. apply andb_true_iff in H as [_ H].
  rewrite forallb_forall in H. apply List.Forall_forall. intros x Hx ->.
  apply H in Hx. done.
Qed.

(** The text of a value bounds the characters of what is in it. *)
Lemma strip_bytes v : bytes_ok (text v) -> bytes_ok (text (strip v)).
Proof.
  induction v as [raw | raw | ws items _ | ws members _ | a v b IH] using json_ind'; intros H; try done.
  simpl in *. apply IH. apply Forall_app in H as [_ H]. by apply Forall_app in H as [H _].
Qed.

Lemma strip_ok v : value_ok v = true -> value_ok (strip v) = true.
Proof.
  induction v as [raw | raw | ws items _ | ws members _ | a v b IH] using json_ind'; intros H; try done.
  simpl in *. apply IH. by apply andb_true_iff in H as [[_ H]%andb_true_iff _].
Qed.

Lemma strip_short v : zlen (text (strip v)) <= zlen (text v).
Proof.
  induction v as [raw | raw | ws items _ | ws members _ | a v b IH] using json_ind'; try (simpl; lia).
  simpl. rewrite !zlen_app. zl.
Qed.

Definition json_string_ok (raw : list Z) : Prop := bytes_ok raw /\ no_nul raw /\ zlen raw < 2 ^ 31.

Lemma flat_ok v raw :
  value_ok v = true -> bytes_ok (text v) -> zlen (text v) < 2 ^ 31 -> flat_text v = Some raw ->
  json_string_ok raw.
Proof.
  intros Hok Hb Hl H. apply strip_ok in Hok. apply strip_bytes in Hb. pose proof (strip_short v) as Hsh.
  unfold flat_text in H. destruct (strip v) as [raw' | raw' | | |]; try done; injection H as ->; simpl in *.
  - apply (Forall_app _ [DQ]) in Hb as [_ Hb]. apply Forall_app in Hb as [Hb _]. split; [done |].
    split; [by apply (raw_ok_no_nul (length raw)) |]. rewrite zlen_cons, zlen_app in Hsh. zl.
  - split; [done |]. split; [by apply prim_ok_no_nul | lia].
Qed.

(** Parts of an array that is well-formed. *)
Lemma commas_part {A} (f : A -> list Z) l x :
  In x l -> bytes_ok (commas (map f l)) -> bytes_ok (f x) /\ zlen (f x) <= zlen (commas (map f l)).
Proof.
  induction l as [| y l IH]; intros Hin H; [done |]. rewrite commas_map_cons in *.
  apply Forall_app in H as [Hy H]. rewrite !zlen_app. pose proof (zlen_nonneg (f y)).
  destruct Hin as [-> | Hin]; [split; [done | zl] |].
  apply Forall_app in H as [_ H]. destruct (IH Hin H). split; [done | zl].
Qed.

Lemma strip_array_parts v ws items x :
  value_ok v = true -> bytes_ok (text v) -> zlen (text v) < 2 ^ 31 -> strip v = JArray ws items ->
  In x items -> value_ok x = true /\ bytes_ok (text x) /\ zlen (text x) < 2 ^ 31.
Proof.
  intros Hok Hb Hl E Hin. apply strip_ok in Hok. apply strip_bytes in Hb. pose proof (strip_short v) as Hsh.
  rewrite E in *. simpl in Hok. apply andb_true_iff in Hok as [_ Hok]. rewrite forallb_forall in Hok.
  change (text (JArray ws items)) with ([91] ++ ws ++ commas (map text items) ++ [93]) in *.
  apply (Forall_app _ [91]) in Hb as [_ Hb]. apply Forall_app in Hb as [_ Hb]. apply Forall_app in Hb as [Hb _].
  destruct (commas_part text items x Hin Hb) as [Hbx Hlx].
  split; [by apply Hok |]. split; [done |]. rewrite !zlen_app in Hsh. zl.
Qed.

Lemma all_some_Forall {A B} (f : A -> option B) (P : B -> Prop) l : forall ys,
  (forall x y, In x l -> f x = Some y -> P y) -> all_some f l = Some ys -> Forall P ys.
Proof.
  induction l as [| x l IH]; intros ys Hp H; simpl in H; [injection H as <-; constructor |].
  destruct (f x) as [y |] eqn:E; [| done]. simpl in H.
  destruct (all_some f l) as [ys' |]; [| done]. injection H as <-.
  constructor; [by apply (Hp x); [left |] |]. apply IH; [| done]. intros x' y' Hin. apply Hp. by right.
Qed.

Lemma tag_cmds_ok v cs :
  value_ok v = true -> bytes_ok (text v) -> zlen (text v) < 2 ^ 31 -> tag_cmds v = Some cs ->
  Forall jcmd_ok cs.
Proof.
  intros Hok Hb Hl H. unfold tag_cmds in H. destruct (strip v) as [| | ws elems | |] eqn:E; try done.
  assert (exists raws, all_some flat_text elems = Some raws /\ cs = Plain NewTag :: map JTagStr raws)
    as (raws & Hr & ->).
  { destruct elems as [| e elems]; [done |].
    destruct (all_some flat_text (e :: elems)) as [raws |]; [| done]. injection H as <-. by exists raws. }
  constructor; [done |].
  assert (Forall json_string_ok raws) as Hall.
  { eapply all_some_Forall; [| exact Hr]. intros x raw Hin Hx.
    destruct (strip_array_parts v ws elems x Hok Hb Hl E Hin) as (? & ? & ?). by apply (flat_ok x). }
  apply List.Forall_map. exact Hall.
Qed.

Lemma tags_cmds_ok v cs :
  value_ok v = true -> bytes_ok (text v) -> zlen (text v) < 2 ^ 31 -> tags_cmds v = Some cs ->
  Forall jcmd_ok cs.
Proof.
  intros Hok Hb Hl H. unfold tags_cmds in H. destruct (strip v) as [| | ws items | |] eqn:E; try done.
  destruct (all_some tag_cmds items) as [css |] eqn:Er; [| done]. injection H as <-.
  apply List.Forall_concat. eapply all_some_Forall; [| exact Er]. intros x c Hin Hx.
  destruct (strip_array_parts v ws items x Hok Hb Hl E Hin) as (? & ? & ?). by apply (tag_cmds_ok x).
Qed.

Lemma member_cmds_ok m flag cs :
  member_ok m = true -> bytes_ok (member_text m) -> zlen (member_text m) < 2 ^ 31 ->
  member_cmds m = Some (flag, cs) ->
  Forall jcmd_ok cs /\ (Z.testbit flag 5 = true -> existsb jsets_content cs = true).
Proof.
  destruct m as [[[w1 key] w2] v]. intros Hok Hb Hl Hc.
  unfold member_ok in Hok. simpl in Hok. apply andb_true_iff in Hok as [_ Hok].
  rewrite zlen_member_text in Hl. unfold member_text, key_text in Hb. simpl snd in Hb.
  assert (bytes_ok (text v)) as Hbv by (unfold bytes_ok in *; rewrite !List.Forall_app in Hb; tauto).
  assert (zlen (text v) < 2 ^ 31) as Hlv by zl.
  assert (Hhex : forall n id, hex_value v n = Some id -> zlen id = Z.of_nat n).
  { intros n id Hid. unfold hex_value in Hid. destruct (strip v); try done. by apply hex_decode_zlen in Hid. }
  assert (Hint : forall n, int_value v = Some n -> is_u32 n).
  { intros n Hn. unfold int_value in Hn. destruct (strip v); try done. by apply decimal_parses, parse_unsigned_int_range in Hn. }
  simpl in Hc. destruct (quiet v); [| done]. simpl in Hc.
  repeat match type of Hc with
  | (if ?b then _ else _) = _ => destruct b
  end.
  - destruct (hex_value v 32) as [id |] eqn:E; [| done]. injection Hc as <- <-. split; [| done].
    repeat constructor. by apply Hhex in E.
  - destruct (hex_value v 32) as [id |] eqn:E; [| done]. injection Hc as <- <-. split; [| done].
    repeat constructor. by apply Hhex in E.
  - destruct (hex_value v 64) as [id |] eqn:E; [| done]. injection Hc as <- <-. split; [| done].
    repeat constructor. by apply Hhex in E.
  - destruct (int_value v) as [n |] eqn:E; [| done]. injection Hc as <- <-. split; [| done].
    constructor; [by apply Hint | constructor].
  - destruct (int_value v) as [n |] eqn:E; [| done]. injection Hc as <- <-. split; [| done].
    constructor; [| constructor]. specialize (Hint n eq_refl). simpl. unfold is_u32, is_u64 in *. lia.
  - destruct (strip v) as [raw | | | |] eqn:E; try done. injection Hc as <- <-. split; [| done].
    constructor; [| constructor]. apply (flat_ok v); try done. unfold flat_text. by rewrite E.
  - destruct (tags_cmds v) as [cs' |] eqn:E; [| done]. injection Hc as <- <-.
    split; [by apply (tags_cmds_ok v) | done].
  - injection Hc as <- <-. split; [constructor | done].
Qed.

Lemma members_cmds_ok ms : forall flags cs,
  forallb member_ok ms = true -> bytes_ok (commas (map member_text ms)) ->
  zlen (commas (map member_text ms)) < 2 ^ 31 -> members_cmds ms = Some (flags, cs) ->
  Forall jcmd_ok cs /\ (Z.testbit flags 5 = true -> existsb jsets_content cs = true).
Proof.
  induction ms as [| m ms IH]; intros flags cs Hok Hb Hl Hc.
  { injection Hc as <- <-. split; [constructor | done]. }
  simpl in Hc. destruct (member_cmds m) as [[f cm] |] eqn:Em; [| done]. simpl in Hc.
  destruct (members_cmds ms) as [[fs cs'] |] eqn:Ems; [| done]. injection Hc as <- <-.
  simpl in Hok. apply andb_true_iff in Hok as [Hokm Hok].
  destruct (commas_part member_text (m :: ms) m (or_introl eq_refl) Hb) as [Hbm Hlm].
  rewrite commas_map_cons in Hb, Hl. rewrite !zlen_app in Hl.
  apply Forall_app in Hb as [_ Hb]. apply Forall_app in Hb as [_ Hb].
  destruct (member_cmds_ok m f cm Hokm Hbm) as [H1 H2]; [zl | done |].
  destruct (IH fs cs' Hok Hb) as [H3 H4]; [zl | done |].
  split; [by apply Forall_app |]. rewrite Z.lor_spec, existsb_app. intros [H | H]%orb_true_iff.
  - by rewrite H2.
  - rewrite H4 by done. apply orb_true_r.
Qed.

(** ** Reading a note *)

Definition note_members : Type := list (list Z * list Z * list Z * Json.json).

(** The text of a note: an object whose members the loop understands, with all
    seven fields, and the content it gives the note. *)
Record note_value (ws : list Z) (ms : note_members) (cs : list jcmd) (v : note_view) : Prop := {
  nv_spaces : spaces ws = true;
  nv_ok : forallb member_ok ms = true;
  nv_bytes : bytes_ok (text (JObject ws ms));
  nv_short : zlen (text (JObject ws ms)) < 2 ^ 31;
  nv_cmds : exists flags, members_cmds ms = Some (flags, cs) /\
    Z.land flags NDB_PARSED_ALL = NDB_PARSED_ALL;
  nv_view : apply_jcmds cs empty_view = Some v }.

(** Room for the calls in a builder of [half] bytes. *)
Record room_for (g : geom) (cs : list jcmd) : Prop := {
  rf_count : zlen cs < 2 ^ 16;
  rf_note : off.sizeof + jtotal jnote_cost cs <= g_half g;
  rf_str : jtotal jstr_cost cs <= g_half g;
  rf_24 : jtotal jstr_cost cs <= 2 ^ 24 }.

(** The number of tokens of a value. *)
Fixpoint token_count (v : Json.json) : Z :=
  match v with
  | JString _ | JPrimitive _ => 1
  | JArray _ items => 1 + foldr (fun v n => token_count v + n) 0 items
  | JObject _ members => 1 + foldr (fun m n => 1 + token_count (snd m) + n) 0 members
  | JPad _ v _ => token_count v
  end.

Lemma toks_count v : forall off par i, zlen (Json.toks off par i v) = token_count v.
Proof.
  induction v as [raw | raw | ws items IH | ws members IH | a v b IH] using json_ind';
    intros off par i; try done; [| | apply IH].
  - rewrite toks_array, zlen_cons. simpl. f_equal.
    generalize (off + 1 + zlen ws), (i + 1). induction IH as [| v items Hv _ IHl]; intros o n; [done |].
    simpl. by rewrite zlen_app, Hv, IHl.
  - rewrite toks_object, zlen_cons. simpl. f_equal.
    generalize (off + 1 + zlen ws), (i + 1).
    induction IH as [| [[[w1 key] w2] v] members Hv _ IHl]; intros o n; [done |].
    cbn [members_toks member_toks foldr snd]. rewrite zlen_app, zlen_cons, IHl. simpl in Hv. rewrite Hv. lia.
Qed.

Lemma here_all l : here l 0 l.
Proof.
  unfold here. rewrite loadn_in_range by zl. rewrite to_nat_zlen. change (Z.to_nat 0) with 0%nat.
  by rewrite drop_0, take_ge.
Qed.

Section reading.
Variables (json : list Z) (junk : Z) (junk_tok : Z -> jsmntok) (junk_i : Z) (hexbuf : list Z).
Context (sha256 : list Z -> list Z).
Context (schnorrsig_sign32 : list Z -> list Z -> list Z -> option (list Z)).
Context (fill_random : option (list Z)).

Hypothesis (Hjunk : is_byte junk) (Hhex : length hexbuf = 64%nat).

Lemma token_memory_in cap ts i t :
  zlen ts <= cap -> tok_at ts i = Some t -> token_memory junk_tok cap ts i = Some t.
Proof.
  clear Hhex Hjunk. intros Hc Ht. pose proof (tok_at_range _ _ _ Ht). unfold token_memory. rewrite Ht.
  destruct (Z.leb_spec 0 i), (Z.ltb_spec i cap); try lia. done.
Qed.

(** What is read back of a note built in a buffer. *)
Definition built (g : geom) (m0 : mem) (n : Z) (s : mem * builder) (v : note_view) (bound : Z) : Prop :=
  view (fst s) (g_base g) = Some v /\
  ndb_note_from_bytes (fst s) (g_base g) = Some (Some (g_base g)) /\
  outside g m0 (fst s) /\ 0 < n <= bound /\ n mod 8 = 0.

(** The note object at token [i], parsed by a builder that was just initialized. *)
Lemma parse_note_object g m0 s cap ts i ws ms cs v off0 par num :
  rep g m0 empty_view false off.sizeof 0 0 s -> note_value ws ms cs v -> room_for g cs ->
  num = zlen ts -> zlen ts <= cap -> here json off0 (text (JObject ws ms)) ->
  segment ts i (Json.toks off0 par i (JObject ws ms)) ->
  i + zlen (Json.toks off0 par i (JObject ws ms)) = num ->
  exists n s', parse_note_at json junk hexbuf sha256 schnorrsig_sign32 fill_random
      (mk_jp (token_memory junk_tok cap ts) num i) i NDB_PARSED_ALL s = Some (n, s') /\
    built g m0 n s' v (off.sizeof + jtotal jnote_cost cs + jtotal jstr_cost cs + 7).
Proof.
  intros R [Hsp Hok Hb Hl (flags & Hc & Hf) Hv] [Rc Rn Rs R24] Hn Hcap Hh Hs Hi.
  rewrite toks_object in Hs, Hi. rewrite zlen_cons in Hi.
  pose proof (segment_range _ num Hn _ _ Hs) as Hr.
  apply segment_cons in Hs as [Ht Hs].
  change (text (JObject ws ms)) with ([123] ++ ws ++ commas (map member_text ms) ++ [125]) in *.
  apply (here_app json off0 [123]) in Hh as [_ Hh]. apply here_app in Hh as [_ Hh].
  apply here_app in Hh as [Hh _].
  assert (bytes_ok (commas (map member_text ms))) as Hbm
    by (unfold bytes_ok in *; rewrite !List.Forall_app in Hb; tauto).
  rewrite !zlen_app in Hl.
  destruct (members_cmds_ok ms flags cs Hok Hbm ltac:(zl) Hc) as [Hcs Hcont].
  assert (Z.testbit flags 5 = true) as H5.
  { assert (Z.testbit (Z.land flags NDB_PARSED_ALL) 5 = true) as E by (by rewrite Hf).
    rewrite Z.land_spec in E. by apply andb_true_iff in E as [E _]. }
  destruct (jexec_all_spec g m0 junk cs empty_view v _ _ _ _ s Hjunk R Hv Hcs) as (s1 & E1 & R1); try lia.
  rewrite (Hcont H5) in R1. simpl orb in R1.
  destruct (note_tokens_members json ts (token_memory junk_tok cap ts) num junk
              (fun i t => token_memory_in cap ts i t Hcap) Hn i (off0 + 1 + zlen ws) (i + 1) ms s s1 flags cs hexbuf
              Hc Hok Hh Hs ltac:(lia) Hhex E1) as (l & El & Hp).
  destruct (ndb_builder_finalize_spec sha256 schnorrsig_sign32 fill_random _ _ _ _ _ _ s1 R1)
    as (n & s2 & E2 & V & _ & F & O & N & A); try lia.
  exists n, s2. split; [| split; [done | split; [done | split; [done | split; [lia | done]]]]].
  unfold parse_note_at, ndb_parse_json_note_custom. cbn [jsp_toks jsp_num_tokens].
  erewrite bind_eq by (unfold tok, lift; by rewrite (token_memory_in _ _ _ _ Hcap Ht)).
  cbn [tk_type]. rewrite bool_decide_eq_true_2 by done. cbn [negb].
  erewrite bind_eq by exact El. cbv beta iota. rewrite Hp, Hf, Z.eqb_refl. exact E2.
Qed.

(** The parser is set up and has read a text. *)
Lemma parser_ready (obj : Json.json) (buf bufsize : Z) (m : mem) (b : builder) :
  json = text obj -> value_ok obj = true -> bare obj = false ->
  geom_ok (mk_geom buf (bufsize / 2)) m -> off.sizeof <= g_half (mk_geom buf (bufsize / 2)) ->
  token_count obj <= json_cap bufsize ->
  let ts := Json.toks 0 (-1) 0 obj in
  zlen ts <= json_cap bufsize /\ 0 < zlen ts /\
  exists s1, ndb_json_parser_init buf bufsize (m, b) = Some (true, s1) /\
    rep (mk_geom buf (bufsize / 2)) m empty_view false off.sizeof 0 0 s1 /\
    ndb_json_parser_parse json junk_tok junk_i (json_cap bufsize) None =
      Some (1, mk_jp (token_memory junk_tok (json_cap bufsize) ts) (zlen ts) 0).
Proof.
  clear Hhex Hjunk. intros Hjs Hok Hbare Hg Hroom Hcap ts.
  assert (zlen ts <= json_cap bufsize) as Hcap' by (unfold ts; by rewrite toks_count).
  pose proof (toks_nonempty obj 0 (-1) 0) as Hne. fold ts in Hne.
  split; [done |]. split; [lia |].
  destruct (ndb_builder_init_spec (mk_geom buf (bufsize / 2)) m b Hg Hroom) as (h & s1 & E1 & I1 & Hh).
  exists s1. split; [exact E1 |]. split; [by eapply initial_rep |].
  unfold ndb_json_parser_parse. rewrite Hjs, (jsmn_parse_text _ obj Hok Hbare Hcap').
  cbn [mbind option_bind]. fold ts.
  destruct (Z.eqb_spec (zlen ts) (-42)); [lia |]. by destruct (Z.eqb_spec (zlen ts) 0); [lia |].
Qed.

(** A text of the right form becomes a note. *)
Lemma note_from_json_text (buf bufsize : Z) (pre ws post : list Z) (ms : note_members) (cs : list jcmd)
    (v : note_view) (m : mem) (b : builder) :
  json = pre ++ text (JObject ws ms) ++ post ->
  spaces pre = true -> spaces post = true -> note_value ws ms cs v ->
  geom_ok (mk_geom buf (bufsize / 2)) m -> room_for (mk_geom buf (bufsize / 2)) cs ->
  token_count (JObject ws ms) <= json_cap bufsize ->
  exists n s', ndb_note_from_json json junk junk_tok junk_i hexbuf
      sha256 schnorrsig_sign32 fill_random buf bufsize (m, b) = Some (n, s') /\
    built (mk_geom buf (bufsize / 2)) m n s' v
      (off.sizeof + jtotal jnote_cost cs + jtotal jstr_cost cs + 7).
Proof.
  intros Hjs Hpre Hpost Hv Hg Hr Hcap. pose proof Hv as [Hsp Hok _ _ _ _].
  destruct (parser_ready (JPad pre (JObject ws ms) post) buf bufsize m b) as (Hcap' & Hne & s1 & E1 & R & Ep);
    try done.
  { simpl. rewrite Hpre, Hpost, Hsp. simpl. by rewrite andb_true_r. }
  { pose proof (jcost_nonneg cs). destruct Hr. lia. }
  set (ts := Json.toks 0 (-1) 0 _) in *.
  unfold ndb_note_from_json, ndb_note_from_json_custom. rewrite (bind_eq _ _ _ _ _ E1). cbn [negb].
  rewrite Ep. rewrite (bind_eq _ _ s1 _ _ eq_refl). cbn [jsp_num_tokens jsp_i Z.ltb Z.compare].
  destruct (Z.ltb_spec (zlen ts) 1); [lia |].
  destruct (parse_note_object _ m s1 (json_cap bufsize) ts 0 ws ms cs v (zlen pre) (-1) (zlen ts)
             R Hv Hr eq_refl Hcap') as (sz & s2 & E2 & B).
  - assert (here json 0 (pre ++ text (JObject ws ms) ++ post)) as Hall
      by (rewrite Hjs; apply here_all).
    apply here_app in Hall as [_ Hall]. by apply here_app in Hall as [Hall _].
  - exists [], []. split; [by rewrite app_nil_r | done].
  - done.
  - exists sz, s2. by split.
Qed.

End reading.

(** C13: Parsing a note reads what is written.  Take the text of an object, in any
    white space, that has the seven fields of a note in any order, and further
    members: the id and the author of 64 hex digits, the signature of 128, time and
    kind in decimal below 2^32, content a string, tags an array of arrays with at
    least one string or primitive each.  Strings of more than two characters in the
    content and the tags have no escape \u, which the code does not decode; no
    string outside the object's own keys spells the name of a field; the text is
    shorter than 2^31 and the token memory and the builder's buffers have room.
    Then the note the fields describe is in the buffer: hex becomes bytes, escapes
    are undone, 64 hex digits in a tag become an id, strings of up to two
    characters are taken as they stand.  Whatever the unused token memory and the
    scratch buffer held, nothing outside the buffer changed. *)
Theorem note_from_json_reads junk junk_tok junk_i hexbuf sha256 sign32 fill_random
    (buf bufsize : Z) (pre ws post : list Z) (ms : note_members) (cs : list jcmd) (v : note_view)
    (m : mem) (b : builder)
    (Hj : is_byte junk) (Hx : length hexbuf = 64%nat)
    (Hpre : spaces pre = true) (Hpost : spaces post = true)
    (Hv : note_value ws ms cs v)
    (Hg : geom_ok (mk_geom buf (bufsize / 2)) m) (Hr : room_for (mk_geom buf (bufsize / 2)) cs)
    (Hcap : token_count (JObject ws ms) <= json_cap bufsize) :
  exists n s', ndb_note_from_json (pre ++ text (JObject ws ms) ++ post) junk junk_tok junk_i hexbuf
      sha256 sign32 fill_random buf bufsize (m, b) = Some (n, s') /\
    built (mk_geom buf (bufsize / 2)) m n s' v
      (off.sizeof + jtotal jnote_cost cs + jtotal jstr_cost cs + 7).
Proof. by eapply note_from_json_text. Qed.

(** Byte lists written out. *)
Lemma bytes_literal l : forallb (fun c => (0 <=? c) && (c <? 256)) l = true -> bytes_ok l.
Proof.
  intros H. apply List.Forall_forall. intros c Hc. rewrite forallb_forall in H.
  specialize (H c Hc). unfold is_byte. lia.
Qed.

(** A note written by hand: white space, an escape, an unknown member. *)
Definition demo_source : note_members :=
  let sp := [32] in
  [([10], bytes_of "kind", [], JPad sp (JPrimitive (bytes_of "30023")) []);
   (sp, bytes_of "id", [], JString (flat_map (fun _ => bytes_of "0a") (replicate 32 0)));
   (sp, bytes_of "pubkey", sp, JString (flat_map (fun _ => bytes_of "fF") (replicate 32 0)));
   (sp, bytes_of "x", [], JArray [] [JPrimitive (bytes_of "true"); JPrimitive (bytes_of "null")]);
   (sp, bytes_of "tags", [],
    JArray [] [JArray [] [JString (bytes_of "e"); JString (flat_map (fun _ => bytes_of "1b") (replicate 32 0))];
               JArray [] [JString (bytes_of "t"); JString (bytes_of "no" ++ [BSL; 110] ++ bytes_of "str")]]);
   (sp, bytes_of "content", [], JString (bytes_of "a" ++ [BSL; 34] ++ bytes_of "b"));
   (sp, bytes_of "created_at", [], JPrimitive (bytes_of "1700000000"));
   (sp, bytes_of "sig", [], JString (flat_map (fun _ => bytes_of "77") (replicate 64 0)))].

Definition demo_source_view : note_view :=
  mk_view (replicate 32 10) (replicate 32 255) (replicate 64 0x77) 1700000000 30023
    [97; 34; 98] [[EStr [101]; EId (replicate 32 27)]; [EStr [116]; EStr ([110; 111; 10] ++ [115; 116; 114])]].

Definition demo_source_cmds : list jcmd :=
  match members_cmds demo_source with Some (_, cs) => cs | None => [] end.

Lemma demo_source_value : note_value [] demo_source demo_source_cmds demo_source_view.
Proof.
  split; [reflexivity | vm_compute; reflexivity | | | | vm_compute; reflexivity].
  - apply bytes_literal. vm_compute. reflexivity.
  - vm_compute. reflexivity.
  - exists NDB_PARSED_ALL. split; vm_compute; reflexivity.
Qed.

Definition demo_tok : jsmntok := mk_tok JSMN_UNDEFINED 0 0 0 0.
Definition demo_memory : mem := replicate 4000 0.

Lemma demo_geom : geom_ok (mk_geom 16 (3000 / 2)) demo_memory.
Proof. vm_compute. intuition congruence. Qed.

Lemma note_from_json_reads_witness :
  exists n s', ndb_note_from_json ([32] ++ text (JObject [] demo_source) ++ [10]) 0 (fun _ => demo_tok) 0
      (replicate 64 0) (fun x => x) (fun _ _ _ => None) None 16 3000 (demo_memory, no_builder) =
      Some (n, s') /\ view (fst s') 16 = Some demo_source_view.
Proof.
  destruct (note_from_json_reads 0 (fun _ => demo_tok) 0 (replicate 64 0) (fun x => x) (fun _ _ _ => None)
              None 16 3000 [32] [] [10] demo_source demo_source_cmds demo_source_view demo_memory no_builder)
    as (n & s' & E & V & _).
  - unfold is_byte. lia.
  - reflexivity.
  - reflexivity.
  - reflexivity.
  - exact demo_source_value.
  - exact demo_geom.
  - split; vm_compute; congruence.
  - vm_compute. congruence.
  - exists n, s'. split; [exact E | exact V].
Defined.
