(* ===== verification/JsonPrint.v ===== *)
(** * Printing a note and parsing it

    [ndb_note_json] of NoteJson.v and [ndb_note_from_json] of JsonNote.v against
    each other: the text the printer writes is the text of a JSON value the
    parser's loop understands, and its calls build the note that was printed. *)

From Stdlib Require Import String.
From S2P Require Export JsonNote.

(** ** What is printed can be parsed *)

(** A string that comes back as it was: it has no NUL, spells no field name, and
    is no single escaped character. *)
Definition plain_string (s : list Z) : Prop :=
  bytes_ok s /\ no_nul s /\ keyword (escape s) = false /\ (zlen s = 1 -> escape s = s).

Definition plain_elem (e : elem) : Prop :=
  match e with
  | EStr s => plain_string s /\ (zlen (escape s) = 64 -> hex_decode (escape s) 32 = None)
  | EId id => bytes_ok id /\ zlen id = 32
  end.

Record plain_note (v : note_view) : Prop := {
  pn_created : is_u32 (v_created_at v);
  pn_content : plain_string (v_content v);
  pn_tags : Forall (fun es => es <> [] /\ Forall plain_elem es) (v_tags v) }.

Definition elem_value (e : elem) : Json.json :=
  match e with EStr s => JString (escape s) | EId id => JString (hexs id) end.
Definition tag_value (es : list elem) : Json.json := JArray [] (map elem_value es).

Definition member (key : string) (v : Json.json) : list Z * list Z * list Z * Json.json :=
  ([], bytes_of key, [], v).

Definition printed_members (v : note_view) : note_members :=
  [member "id" (JString (hexs (v_id v))); member "pubkey" (JString (hexs (v_pubkey v)));
   member "created_at" (JPrimitive (dec (u32 (v_created_at v))));
   member "kind" (JPrimitive (dec (v_kind v)));
   member "tags" (JArray [] (map tag_value (v_tags v)));
   member "content" (JString (escape (v_content v)));
   member "sig" (JString (hexs (v_sig v)))].

Lemma text_elem e : text (elem_value e) = elem_text e.
Proof. by destruct e. Qed.

Lemma text_tag es : text (tag_value es) = tag_text es.
Proof.
  unfold tag_value, tag_text. cbn [text]. rewrite map_map. f_equal. simpl. do 2 f_equal.
  apply map_ext. intros e. apply text_elem.
Qed.

Lemma text_printed v : text (JObject [] (printed_members v)) = note_text v.
Proof.
  assert (map text (map tag_value (v_tags v)) = map tag_text (v_tags v)) as Et
    by (rewrite map_map; apply map_ext; intros es; apply text_tag).
  unfold note_text, tags_text, quote. rewrite <- Et.
  unfold printed_members, member. cbn [text map key_text snd commas].
  repeat (rewrite decide_False by done). rewrite decide_True by done.
  rewrite <- !app_assoc. done.
Qed.

Lemma escapable_esc c x : esc c = [BSL; x] -> escapable x = true.
Proof.
  unfold esc, DQ, BSL. intros H.
  repeat match type of H with
  | (if ?c =? ?k then _ else _) = _ => destruct (Z.eqb_spec c k); [injection H as <-; reflexivity |]
  end. discriminate.
Qed.

Lemma esc_plain c : esc c = [c] -> c <> DQ /\ c <> BSL.
Proof.
  intros H. split; intros ->; discriminate H.
Qed.

Lemma raw_ok_escape s : no_nul s -> raw_ok (escape s) = true.
Proof.
  induction 1 as [| c s Hc _ IH]; [done |].
  change (escape (c :: s)) with (esc c ++ escape s).
  destruct (esc_cases c) as [[E _] | (x & E & _)].
  - destruct (esc_plain c E) as [H1 H2]. rewrite E. simpl.
    destruct (Z.eqb_spec c BSL); [done |]. rewrite IH.
    destruct (Z.eqb_spec c DQ), (Z.eqb_spec c 0); done.
  - rewrite E. simpl. rewrite (escapable_esc c x E). done.
Qed.

Lemma bytes_escape s : bytes_ok s -> bytes_ok (escape s).
Proof.
  induction 1 as [| c s Hc _ IH]; [constructor |].
  change (escape (c :: s)) with (esc c ++ escape s). apply Forall_app. split; [| done].
  destruct (esc_cases c) as [[E _] | (x & E & _)].
  - rewrite E. constructor; [done | constructor].
  - rewrite E. constructor; [unfold is_byte, BSL; lia |]. constructor; [| constructor].
    apply escapable_esc in E. unfold escapable, DQ, BSL in E. unfold is_byte. lia.
Qed.

Lemma escape_short s : zlen (escape s) < 3 -> (zlen s = 1 -> escape s = s) -> escape s = s.
Proof.
  assert (forall c, 1 <= zlen (esc c)) as H1.
  { intros c. destruct (esc_cases c) as [[-> _] | (x & -> & _)]; done. }
  intros Hl Hs. destruct s as [| c [| c2 s]]; [done | by apply Hs |].
  change (escape (c :: c2 :: s)) with (esc c ++ esc c2 ++ escape s) in *.
  destruct (esc_cases c) as [[E _] | (x & E & _)], (esc_cases c2) as [[E2 _] | (y & E2 & _)];
    rewrite E, E2 in *; simpl app in *; rewrite ?zlen_cons in Hl; try (zl; fail).
  destruct s as [| c3 s]; [done |].
  change (escape (c3 :: s)) with (esc c3 ++ escape s) in Hl.
  specialize (H1 c3). rewrite zlen_app in Hl. zl.
Qed.

(** A plain string is read back as itself. *)
Lemma json_elem_plain pack_ids s :
  plain_string s -> (pack_ids = true -> zlen (escape s) = 64 -> hex_decode (escape s) 32 = None) ->
  json_elem pack_ids (escape s) = Some (EStr s).
Proof.
  intros (_ & _ & _ & H1) Hh. unfold json_elem.
  destruct (Z.ltb_spec (zlen (escape s)) 3); [by rewrite escape_short |].
  rewrite unescape_escape. destruct pack_ids; [| done]. simpl.
  destruct (Z.eqb_spec (zlen (escape s)) 64); [| done]. by rewrite Hh.
Qed.

Lemma hexs_facts bs :
  bytes_ok bs -> zlen (hexs bs) = 2 * zlen bs /\ bytes_ok (hexs bs) /\
  hex_decode (hexs bs) (length bs) = Some bs.
Proof.
  intros H. destruct (hex_encode_decode bs H) as (h & E & L & B & _ & D).
  unfold hexs. rewrite E. done.
Qed.

Lemma char_to_hex_digit c v : char_to_hex c = Some v -> is_hexdigit c = true.
Proof.
  unfold char_to_hex, hex_table, is_hexdigit, in_range. intros H.
  destruct ((48 <=? c) && (c <=? 57)) eqn:E1; [done |].
  destruct ((97 <=? c) && (c <=? 102)) eqn:E2; [by rewrite orb_true_r |].
  destruct ((65 <=? c) && (c <=? 70)) eqn:E3; [done |].
  simpl in H. destruct (Z.eqb_spec c 48); [lia | done].
Qed.

Lemma hex_decode_digits n : forall s l, hex_decode s n = Some l -> forallb is_hexdigit s = true.
Proof.
  induction n as [| n IH]; intros s l H.
  - destruct s as [| c1 [| c2 s]]; simpl in H; try done.
    by destruct (char_to_hex c1), (char_to_hex c2).
  - destruct s as [| c1 [| c2 s]]; simpl in H; try done.
    destruct (char_to_hex c1) as [v1 |] eqn:E1, (char_to_hex c2) as [v2 |] eqn:E2; try done.
    destruct (hex_decode s n) as [p |] eqn:E; [| done].
    simpl. rewrite (char_to_hex_digit _ _ E1), (char_to_hex_digit _ _ E2). by eapply IH.
Qed.

Lemma raw_ok_hex s : forallb is_hexdigit s = true -> raw_ok s = true.
Proof.
  induction s as [| c s IH]; [done |]. simpl. intros [Hc Hs]%andb_true_iff.
  unfold is_hexdigit, BSL, DQ in *.
  destruct (Z.eqb_spec c 92), (Z.eqb_spec c 34), (Z.eqb_spec c 0); try lia. by apply IH.
Qed.

(** No field name is longer than ten characters. *)
Lemma keyword_long s : 10 < zlen s -> keyword s = false.
Proof.
  intros H. unfold keyword. simpl.
  rewrite !bool_decide_eq_false_2 by (intros ->; vm_compute in H; done). done.
Qed.

(** Decimal numbers. *)
Lemma dec_loop_digits fuel : forall n, 0 <= n ->
  Forall (fun c => 48 <= c <= 57) (dec_loop fuel n) /\ (fuel <> O -> dec_loop fuel n <> []).
Proof.
  induction fuel as [| fuel IH]; intros n Hn; [split; [constructor | done] |].
  cbn [dec_loop]. destruct (Z.ltb_spec n 10).
  - split; [constructor; [lia | constructor] | done].
  - pose proof (Z.mod_pos_bound n 10 ltac:(lia)). destruct (IH (n / 10)) as [H1 _]; [apply Z.div_pos; lia |].
    split; [| intros _; by destruct (dec_loop fuel (n / 10))].
    apply Forall_app. split; [done |]. constructor; [lia | constructor].
Qed.

Lemma prim_ok_digits s : Forall (fun c => 48 <= c <= 57) s -> s <> [] -> prim_ok s = true.
Proof.
  intros H Hne. destruct s as [| c s]; [done |]. apply andb_true_iff. split.
  - apply Forall_cons_iff in H as [H _]. unfold prim_start. lia.
  - apply forallb_forall. intros x Hx. rewrite List.Forall_forall in H. apply H in Hx.
    unfold prim_end. lia.
Qed.

Lemma decimal_dec fuel : forall n, 0 <= n < 10 ^ Z.of_nat fuel -> decimal_from 0 (dec_loop fuel n) = n /\ forallb is_digit (dec_loop fuel n) = true.
Proof.
  induction fuel as [| fuel IH]; intros n Hn; [change (10 ^ Z.of_nat 0) with 1 in Hn; cbn; split; [lia | done] |].
  rewrite Nat2Z.inj_succ, Z.pow_succ_r in Hn by lia. cbn [dec_loop]. destruct (Z.ltb_spec n 10).
  - unfold is_digit. cbn. split; [lia |]. rewrite !andb_true_iff, !Z.leb_le. lia.
  - destruct (IH (n / 10)) as [E D]; [split; [apply Z.div_pos; lia | apply Z.div_lt_upper_bound; lia] |].
    pose proof (Z.mod_pos_bound n 10 ltac:(lia)). pose proof (Z.div_mod n 10 ltac:(lia)).
    unfold decimal_from in *. rewrite fold_left_app, E, forallb_app, D. unfold is_digit. cbn. split; [lia |]. rewrite !andb_true_iff, !Z.leb_le. lia.
Qed.

Lemma value_dec n : is_u32 n -> decimal_value (dec n) = Some n.
Proof.
  intros Hn. unfold is_u32 in Hn. destruct (decimal_dec 20 n) as [E D]; [change (10 ^ Z.of_nat 20) with 100000000000000000000; lia |].
  unfold decimal_value. change (dec n) with (dec_loop 20 n). rewrite E, D. destruct (dec_loop_digits 20 n) as [_ Hne]; [unfold is_u32 in *; lia |].
  rewrite bool_decide_eq_false_2 by by apply Hne. by destruct (Z.ltb_spec n (2 ^ 32)); [| lia].
Qed.

(** The calls a printed note is parsed into. *)
Definition elem_raw (e : elem) : list Z :=
  match e with EStr s => escape s | EId id => hexs id end.
Definition printed_tag (es : list elem) : list jcmd := Plain NewTag :: map JTagStr (map elem_raw es).
Definition printed_cmds (v : note_view) : list jcmd :=
  [Plain (SetId (v_id v)); Plain (SetPubkey (v_pubkey v)); Plain (SetCreatedAt (v_created_at v));
   Plain (SetKind (v_kind v))] ++
  concat (map printed_tag (v_tags v)) ++
  [JContent (escape (v_content v)); Plain (SetSig (v_sig v))].

Lemma elem_value_ok e : plain_elem e ->
  value_ok (elem_value e) = true /\ quiet (elem_value e) = true /\
  flat_text (elem_value e) = Some (elem_raw e) /\ json_elem true (elem_raw e) = Some e.
Proof.
  destruct e as [s | id]; simpl.
  - intros [(Hb & Hn & Hk & H1) H64]. split; [by apply raw_ok_escape |]. split; [by rewrite Hk |].
    split; [done |]. by apply json_elem_plain.
  - intros [Hb Hl]. destruct (hexs_facts id Hb) as (L & _ & D).
    split; [eapply raw_ok_hex, hex_decode_digits, D |].
    split; [rewrite keyword_long; [done | lia] |]. split; [done |].
    unfold json_elem. destruct (Z.ltb_spec (zlen (hexs id)) 3); [lia |].
    rewrite L, Hl. simpl. assert (length id = 32%nat) as E by (unfold zlen in Hl; lia).
    rewrite E in D. by rewrite D.
Qed.

Lemma all_some_map {A B} (f : A -> option B) (g : A -> B) l :
  Forall (fun x => f x = Some (g x)) l -> all_some f l = Some (map g l).
Proof. induction 1 as [| x l Hx _ IH]; [done |]. simpl. rewrite Hx. simpl. by rewrite IH. Qed.

Lemma all_some_comp {A B C} (f : B -> option C) (h : A -> B) (g : A -> C) l :
  Forall (fun x => f (h x) = Some (g x)) l -> all_some f (map h l) = Some (map g l).
Proof. induction 1 as [| x l Hx _ IH]; [done |]. simpl. rewrite Hx. simpl. by rewrite IH. Qed.

Lemma forallb_image {A B} (f : B -> bool) (g : A -> B) l :
  forallb f (map g l) = forallb (fun x => f (g x)) l.
Proof. induction l as [| x l IH]; [done |]. simpl. by rewrite IH. Qed.

Lemma tag_value_ok es : es <> [] -> Forall plain_elem es ->
  value_ok (tag_value es) = true /\ quiet (tag_value es) = true /\
  tag_cmds (tag_value es) = Some (printed_tag es).
Proof.
  intros Hne H. unfold tag_value. simpl. rewrite !forallb_image. split; [| split].
  - apply forallb_forall. intros e He. rewrite List.Forall_forall in H. by apply elem_value_ok, H.
  - apply forallb_forall. intros e He. rewrite List.Forall_forall in H. by apply elem_value_ok, H.
  - unfold tag_cmds. simpl strip. cbv iota.
    assert (all_some flat_text (map elem_value es) = Some (map elem_raw es)) as E.
    { apply all_some_comp. eapply List.Forall_impl; [| exact H]. intros e He. by apply elem_value_ok. }
    destruct es as [| e es]; [done |]. unfold printed_tag. revert E.
    cbn [map strip]. cbv iota. by intros ->.
Qed.

Lemma dec_ok n : is_u32 n -> prim_ok (dec n) = true.
Proof.
  intros H. destruct (dec_loop_digits 20 n) as [H1 H2]; [unfold is_u32 in H; lia |].
  apply prim_ok_digits; [done |]. by apply H2.
Qed.

Lemma hex_member_ok bs n : bytes_ok bs -> length bs = n -> (6 <= n)%nat ->
  raw_ok (hexs bs) = true /\ keyword (hexs bs) = false /\ hex_decode (hexs bs) n = Some bs.
Proof.
  intros Hb <- Hn. destruct (hexs_facts bs Hb) as (L & _ & D).
  split; [eapply raw_ok_hex, hex_decode_digits, D |]. split; [| done].
  apply keyword_long. unfold zlen in *. lia.
Qed.

(** The fields of a note in memory have their sizes. *)
Record view_sized (v : note_view) : Prop := {
  vz_id : bytes_ok (v_id v) /\ length (v_id v) = 32%nat;
  vz_pubkey : bytes_ok (v_pubkey v) /\ length (v_pubkey v) = 32%nat;
  vz_sig : bytes_ok (v_sig v) /\ length (v_sig v) = 64%nat;
  vz_kind : is_u32 (v_kind v) }.

Lemma printed_members_cmds v : view_sized v -> plain_note v ->
  members_cmds (printed_members v) = Some (NDB_PARSED_ALL, printed_cmds v) /\
  forallb member_ok (printed_members v) = true.
Proof.
  intros [[B1 L1] [B2 L2] [B3 L3] Hk] [Ht (Hb & Hn & Hkw & H1) Htags].
  destruct (hex_member_ok _ _ B1 L1 ltac:(lia)) as (R1 & K1 & D1).
  destruct (hex_member_ok _ _ B2 L2 ltac:(lia)) as (R2 & K2 & D2).
  destruct (hex_member_ok _ _ B3 L3 ltac:(lia)) as (R3 & K3 & D3).
  assert (u32 (v_created_at v) = v_created_at v) as Eu by (apply Z.mod_small; exact Ht).
  assert (Hall : Forall (fun es => value_ok (tag_value es) = true /\ quiet (tag_value es) = true /\
            tag_cmds (tag_value es) = Some (printed_tag es)) (v_tags v)).
  { eapply List.Forall_impl; [| exact Htags]. intros es [Hne He]. by apply tag_value_ok. }
  assert (forallb value_ok (map tag_value (v_tags v)) = true) as Hvok.
  { rewrite forallb_image. apply forallb_forall. intros es Hin. rewrite List.Forall_forall in Hall. by apply Hall. }
  assert (forallb quiet (map tag_value (v_tags v)) = true) as Hvq.
  { rewrite forallb_image. apply forallb_forall. intros es Hin. rewrite List.Forall_forall in Hall. by apply Hall. }
  assert (tags_cmds (JArray [] (map tag_value (v_tags v))) = Some (concat (map printed_tag (v_tags v)))) as Htc.
  { unfold tags_cmds. simpl strip. cbv iota. rewrite (all_some_comp _ _ printed_tag); [done |].
    eapply List.Forall_impl; [| exact Hall]. by intros es (_ & _ & H). }
  split.
  - unfold printed_members, members_cmds, member_cmds, member, hex_value, int_value.
    cbn [strip quiet]. rewrite K1, K2, K3, Hkw, Hvq, D1, D2, D3, Htc, Eu, !value_dec by done.
    cbn [negb]. reflexivity.
  - unfold printed_members, member_ok, member, forallb. cbn [fst snd value_ok].
    rewrite R1, R2, R3, Hvok, Eu, !dec_ok, raw_ok_escape by done. reflexivity.
Qed.

Lemma apply_jcmds_app a b v : apply_jcmds (a ++ b) v = (v' ← apply_jcmds a v; apply_jcmds b v').
Proof.
  revert v. induction a as [| c a IH]; intros v; [done |]. simpl.
  destruct (apply_jcmd c v) as [v' |]; [apply IH | done].
Qed.

Lemma app_last_snoc {A} (x : A) ts t : app_last x (ts ++ [t]) = Some (ts ++ [t ++ [x]]).
Proof.
  induction ts as [| t' ts IH]; [done |]. simpl. destruct (ts ++ [t]) eqn:E; [by destruct ts |].
  by rewrite IH.
Qed.

Definition set_tags (v : note_view) (ts : list (list elem)) : note_view :=
  mk_view (v_id v) (v_pubkey v) (v_sig v) (v_created_at v) (v_kind v) (v_content v) ts.

Lemma apply_elems es : forall v ts t, Forall plain_elem es -> v_tags v = ts ++ [t] ->
  apply_jcmds (map JTagStr (map elem_raw es)) v = Some (set_tags v (ts ++ [t ++ es])).
Proof.
  induction es as [| e es IH]; intros v ts t H Hv.
  { simpl. rewrite app_nil_r, <- Hv. by destruct v. }
  apply Forall_cons_iff in H as [He H]. destruct (elem_value_ok e He) as (_ & _ & _ & E).
  cbn [map apply_jcmds apply_jcmd]. rewrite E. cbn [mbind option_bind].
  rewrite Hv, app_last_snoc. cbn [fmap option_fmap option_map mbind option_bind].
  rewrite (IH _ ts (t ++ [e])) by done. unfold set_tags. simpl. by rewrite <- app_assoc.
Qed.

Lemma apply_tags tags : forall v,
  Forall (fun es => es <> [] /\ Forall plain_elem es) tags ->
  apply_jcmds (concat (map printed_tag tags)) v = Some (set_tags v (v_tags v ++ tags)).
Proof.
  induction tags as [| es tags IH]; intros v H.
  { simpl. rewrite app_nil_r. by destruct v. }
  apply Forall_cons_iff in H as [[_ He] H]. cbn [map concat]. rewrite apply_jcmds_app.
  destruct v as [id pk sig t k c ts]. unfold printed_tag.
  cbn [apply_jcmds apply_jcmd apply_cmd mbind option_bind].
  rewrite (apply_elems es _ ts []) by done. cbn [mbind option_bind]. rewrite IH by done.
  unfold set_tags. simpl. by rewrite <- app_assoc.
Qed.

Lemma apply_printed v : plain_note v -> apply_jcmds (printed_cmds v) empty_view = Some v.
Proof.
  intros [_ Hc Htags]. unfold printed_cmds. rewrite apply_jcmds_app.
  cbn [apply_jcmds apply_jcmd apply_cmd empty_view mbind option_bind].
  rewrite apply_jcmds_app, apply_tags by done. cbn [mbind option_bind apply_jcmds apply_jcmd].
  rewrite json_elem_plain by done. by destruct v.
Qed.

(** ** Printing a note and parsing it *)

Lemma view_is_sized m note v : bytes_ok m -> view m note = Some v -> view_sized v.
Proof.
  intros Hm (E1 & E2 & E3 & _ & Ek & _ & _)%view_inv.
  assert (forall a n l, loadn m a (Z.of_nat n) = Some l -> bytes_ok l /\ length l = n) as H.
  { intros a n l E. split; [by eapply loadn_bytes_ok |]. apply loadn_length in E. unfold zlen in E. lia. }
  split; [by eapply (H _ 32%nat) | by eapply (H _ 32%nat) | by eapply (H _ 64%nat) |].
  by eapply load_u32_range.
Qed.

Lemma bytes_commas l : Forall bytes_ok l -> bytes_ok (commas l).
Proof.
  induction 1 as [| t l Ht _ IH]; [constructor |]. simpl. apply List.Forall_app. split; [done |].
  apply List.Forall_app. split; [| done]. case_decide; [constructor |].
  constructor; [unfold is_byte; lia | constructor].
Qed.

Lemma bytes_quote s : bytes_ok s -> bytes_ok (quote s).
Proof.
  intros H. unfold quote, DQ. constructor; [unfold is_byte; lia |].
  apply List.Forall_app. split; [by apply bytes_escape |].
  constructor; [unfold is_byte; lia | constructor].
Qed.

Lemma bytes_hexs bs : bytes_ok bs -> bytes_ok (hexs bs).
Proof. intros H. by apply hexs_facts. Qed.

Lemma bytes_dec n : is_u32 n -> bytes_ok (dec n).
Proof.
  intros H. destruct (dec_loop_digits 20 n) as [H1 _]; [unfold is_u32 in H; lia |].
  eapply List.Forall_impl; [| exact H1]. intros c Hc. cbv beta in Hc. unfold is_byte. lia.
Qed.

Lemma bytes_tag es : Forall plain_elem es -> bytes_ok (tag_text es).
Proof.
  intros H. unfold tag_text. constructor; [unfold is_byte; lia |].
  apply List.Forall_app. split; [| constructor; [unfold is_byte; lia | constructor]].
  apply bytes_commas. apply List.Forall_map. eapply List.Forall_impl; [| exact H].
  intros [s | id]; simpl; [intros [(Hb & _) _]; by apply bytes_quote |].
  intros [Hb _]. unfold DQ. constructor; [unfold is_byte; lia |].
  apply List.Forall_app. split; [by apply bytes_hexs |].
  constructor; [unfold is_byte; lia | constructor].
Qed.

Lemma bytes_note v : view_sized v -> plain_note v -> bytes_ok (note_text v).
Proof.
  intros [[B1 _] [B2 _] [B3 _] Hk] [Ht (Hb & _) Htags].
  assert (is_u32 (u32 (v_created_at v))) as Hu by (unfold is_u32, u32; pose proof (Z.mod_pos_bound (v_created_at v) (2 ^ 32)); lia).
  assert (bytes_ok (tags_text (v_tags v))) as Hts.
  { unfold tags_text. constructor; [unfold is_byte; lia |].
    apply List.Forall_app. split; [| constructor; [unfold is_byte; lia | constructor]].
    apply bytes_commas, List.Forall_map. eapply List.Forall_impl; [| exact Htags].
    intros es [_ He]. by apply bytes_tag. }
  unfold note_text, bytes_ok. rewrite !List.Forall_app.
  repeat split; try (by apply bytes_hexs); try (by apply bytes_dec); try done; try (by apply bytes_quote);
    apply bytes_literal; reflexivity.
Qed.

Lemma printed_note_value v : view_sized v -> plain_note v -> zlen (note_text v) < 2 ^ 31 ->
  note_value [] (printed_members v) (printed_cmds v) v.
Proof.
  intros Hz Hp Hl. destruct (printed_members_cmds v Hz Hp) as [Hc Hok].
  split; [done | done | | | | by apply apply_printed].
  - rewrite text_printed. by apply bytes_note.
  - by rewrite text_printed.
  - by exists NDB_PARSED_ALL.
Qed.

(** C14: A note survives being printed and parsed.  The JSON that [ndb_note_json]
    writes for a note in memory, given to [ndb_note_from_json], is the same note:
    id, key, signature, time, kind, content and every tag element, an id in a tag
    included.  The strings have no NUL and spell no field name, a one character
    string needs no escape, no tag is empty, and the time fits 32 bits: the
    printer and the parser lose each of the others. *)
Theorem note_json_roundtrip junk junk_tok junk_i hexbuf sha256 sign32 fill_random
    (nm : mem) (note : Z) (v : note_view) (s : mem * cursor)
    (buf bufsize : Z) (m : mem) (b : builder)
    (Hnm : bytes_ok nm) (Hv : view nm note = Some v) (Hs : cwf s)
    (Hp : c_p (snd s) = c_start (snd s)) (Hroom : c_p (snd s) + zlen (note_text v) + 1 <= c_end (snd s))
    (Hplain : plain_note v) (Hshort : zlen (note_text v) < 2 ^ 31)
    (Hj : is_byte junk) (Hx : length hexbuf = 64%nat)
    (Hg : geom_ok (mk_geom buf (bufsize / 2)) m)
    (Hr : room_for (mk_geom buf (bufsize / 2)) (printed_cmds v))
    (Hcap : token_count (JObject [] (printed_members v)) <= json_cap bufsize) :
  exists len s1 js n s2,
    ndb_note_json nm note s = Some (len, s1) /\
    loadn (fst s1) (c_start (snd s)) (len - 1) = Some js /\
    ndb_note_from_json js junk junk_tok junk_i hexbuf sha256 sign32 fill_random
      buf bufsize (m, b) = Some (n, s2) /\
    0 < n /\ view (fst s2) buf = Some v /\ ndb_note_from_bytes (fst s2) buf = Some (Some buf).
Proof.
  destruct (ndb_note_json_spec nm note v s Hnm Hv Hs Hp) as [A _].
  destruct A as (s1 & E1 & P1); [rewrite zlen_app; simpl; zl |].
  pose proof (pushed_loadn _ _ _ P1) as Ld. rewrite Hp in Ld.
  pose proof (view_is_sized _ _ _ Hnm Hv) as Hz.
  destruct (note_from_json_text (note_text v) junk junk_tok junk_i hexbuf sha256 sign32 fill_random Hj Hx
              buf bufsize [] [] [] (printed_members v) (printed_cmds v) v m b)
    as (n & s2 & E2 & V & F & _ & N & _); try done.
  { by rewrite text_printed, app_nil_r. }
  { by apply printed_note_value. }
  exists (zlen (note_text v ++ [0])), s1, (note_text v), n, s2.
  split; [exact E1 |]. split; [| split; [exact E2 | split; [lia | by split]]].
  rewrite zlen_app. replace (zlen (note_text v) + zlen [0] - 1) with (zlen (note_text v)) by zl.
  by apply loadn_app_inv in Ld as [Ld _].
Qed.

Lemma demo_plain : plain_note demo_view.
Proof.
  assert (forall c, 0 < c < 256 -> esc c = [c] -> keyword [c] = false -> plain_string [c]) as H.
  { intros c Hc E K. unfold plain_string. assert (escape [c] = [c]) as -> by (unfold escape; simpl; by rewrite E).
    repeat split; try done; (constructor; [unfold is_byte; lia | constructor]). }
  split; [unfold is_u32; simpl; lia | |].
  - repeat split; try reflexivity; try (repeat (constructor; [unfold is_byte; lia |]); constructor).
  - constructor; [| constructor]. split; [done |].
    constructor; [split; [apply H; [lia | reflexivity | reflexivity] | vm_compute; congruence] |].
    constructor; [split; [apply bytes_literal; reflexivity | reflexivity] | constructor].
Qed.

Lemma note_json_roundtrip_witness :
  exists len s1 js n s2,
    ndb_note_json demo_note 0 (demo_cursor 800) = Some (len, s1) /\
    loadn (fst s1) 0 (len - 1) = Some js /\
    ndb_note_from_json js 0 (fun _ => demo_tok) 0 (replicate 64 0) (fun x => x) (fun _ _ _ => None) None
      16 3000 (demo_memory, no_builder) = Some (n, s2) /\
    view (fst s2) 16 = Some demo_view.
Proof.
  destruct (note_json_roundtrip 0 (fun _ => demo_tok) 0 (replicate 64 0) (fun x => x) (fun _ _ _ => None) None
              demo_note 0 demo_view (demo_cursor 800) 16 3000 demo_memory no_builder
              demo_note_bytes demo_note_view (demo_cwf 800) eq_refl)
    as (len & s1 & js & n & s2 & E1 & E2 & E3 & _ & V & _).
  - vm_compute. congruence.
  - exact demo_plain.
  - vm_compute. reflexivity.
  - unfold is_byte. lia.
  - reflexivity.
  - exact demo_geom.
  - split; vm_compute; congruence.
  - vm_compute. congruence.
  - exists len, s1, js, n, s2. split; [exact E1 | split; [exact E2 | split; [exact E3 | exact V]]].
Defined.

(** ** Where the parser and the protocol part

    The loop looks at every token after the object, keys and values alike. *)

Definition with_content (c : string) : list Z :=
  text (JObject [] (map (fun m => if bool_decide (snd (fst (fst m)) = bytes_of "content")
                                  then member "content" (JString (bytes_of c)) else m) demo_source)).

Abbreviation parse_demo js := (ndb_note_from_json js 0 (fun _ => demo_tok) 0 (replicate 64 0)
  (fun x => x) (fun _ _ _ => None) None 16 3000 (demo_memory, no_builder)).

(** A note whose content is the word kind is refused; one whose content is the
    word id is accepted, with the id of its next key: the signature's name is no
    hex, and the scratch buffer still holds the public key. *)
Lemma content_spelling_a_field :
  (exists s, parse_demo (with_content "kind") = Some (0, s)) /\
  (exists n s v, parse_demo (with_content "id") = Some (n, s) /\ 0 < n /\
     view (fst s) 16 = Some v /\ v_id v = v_pubkey v /\ v_id v <> v_id demo_source_view).
Proof.
  split.
  - eexists. vm_compute. reflexivity.
  - eexists _, _, _. split; [vm_compute; reflexivity |].
    split; [done |]. split; [vm_compute; reflexivity |]. split; [reflexivity | discriminate].
Qed.
