(* ===== verification/Messages.v ===== *)
(** * Messages between clients and relays

    What [ndb_ws_event_from_json] and [ndb_client_event_from_json] of JsonNote.v
    make of the texts of the protocol, and what the callback that is shown the id
    of a note changes. *)

From Stdlib Require Import String.
From S2P Require Export JsonNote.

(** ** The parts of an array *)

(** The tokens of a value under its white space. *)
Lemma strip_toks js v : forall off par i, here js off (text v) ->
  exists o, toks off par i v = toks o par i (strip v) /\ here js o (text (strip v)).
Proof.
  induction v as [raw | raw | ws items _ | ws members _ | a v b IH] using json_ind';
    intros off par i Hh; try (exists off; by split).
  simpl in Hh |- *. apply here_app in Hh as [_ Hh]. apply here_app in Hh as [Hh _]. by apply IH.
Qed.

(** The items of an array, one at a time. *)
Definition at_items (js : list Z) (ts : list jsmntok) (par off n : Z) (items : list Json.json) : Prop :=
  (items <> [] -> here js off (commas (map text items))) /\ segment ts n (items_toks par off n items).

Lemma at_items_cons js ts par off n v items :
  at_items js ts par off n (v :: items) ->
  here js off (text v) /\ segment ts n (toks off par n v) /\
  at_items js ts par (off + zlen (text v) + 1) (n + zlen (toks off par n v)) items.
Proof.
  intros [Hh Hs]. specialize (Hh ltac:(done)). rewrite commas_map_cons in Hh.
  apply here_app in Hh as [Hv Hh]. cbn [items_toks] in Hs. apply segment_app in Hs as [Hs Hs'].
  split; [done |]. split; [done |]. split; [| done].
  intros Hne. destruct items; [done |]. apply here_cons in Hh as [_ Hh]. exact Hh.
Qed.

Lemma at_items_string js ts par off n v raw items :
  strip v = JString raw -> at_items js ts par off n (v :: items) ->
  exists t, tok_at ts n = Some t /\ tk_type t = JSMN_STRING /\ toksize t = zlen raw /\
    loadn js (tk_start t) (zlen raw) = Some raw /\
    at_items js ts par (off + zlen (text v) + 1) (n + 1) items.
Proof.
  intros E H. apply at_items_cons in H as (Hh & Hs & H).
  destruct (strip_string js v raw E off par n Hh) as (o & Et & Ho). rewrite Et in *.
  apply segment_cons in Hs as [Ht _]. eexists. split; [exact Ht |].
  unfold toksize. simpl. split; [done |]. split; [lia |]. split; [exact Ho | exact H].
Qed.

Lemma at_items_primitive js ts par off n v raw items :
  strip v = JPrimitive raw -> at_items js ts par off n (v :: items) ->
  exists t, tok_at ts n = Some t /\ tk_type t = JSMN_PRIMITIVE /\ toksize t = zlen raw /\
    loadn js (tk_start t) (zlen raw) = Some raw /\
    at_items js ts par (off + zlen (text v) + 1) (n + 1) items.
Proof.
  intros E H. apply at_items_cons in H as (Hh & Hs & H).
  destruct (strip_primitive js v raw E off par n Hh) as (o & Et & Ho). rewrite Et in *.
  apply segment_cons in Hs as [Ht _]. eexists. split; [exact Ht |].
  unfold toksize. simpl. split; [done |]. split; [lia |]. split; [exact Ho | exact H].
Qed.

(** A text that is an array. *)
Lemma array_items js pre ws items post :
  js = text (JPad pre (JArray ws items) post) ->
  let ts := toks 0 (-1) 0 (JPad pre (JArray ws items) post) in
  tok_at ts 0 = Some (mk_tok JSMN_ARRAY (zlen pre) (zlen pre + zlen (text (JArray ws items))) (zlen items) (-1)) /\
  at_items js ts 0 (zlen pre + 1 + zlen ws) 1 items.
Proof.
  intros Hjs ts. unfold ts.
  change (toks 0 (-1) 0 (JPad pre (JArray ws items) post)) with (toks (zlen pre) (-1) 0 (JArray ws items)).
  rewrite toks_array. split; [done |]. split.
  - intros _. assert (here js 0 (pre ++ text (JArray ws items) ++ post)) as H by (rewrite Hjs; apply here_all).
    apply here_app in H as [_ H]. apply here_app in H as [H _]. change (0 + zlen pre) with (zlen pre) in H.
    change (text (JArray ws items)) with ([91] ++ ws ++ commas (map text items) ++ [93]) in H.
    apply here_cons in H as [_ H]. apply here_app in H as [_ H]. by apply here_app in H as [H _].
  - eexists [_], []. split; [by rewrite app_nil_r | done].
Qed.

Lemma is_word_eq js t s w st :
  toksize t = zlen s -> loadn js (tk_start t) (zlen s) = Some s ->
  is_word js t w st = Some (bool_decide (s = w), st).
Proof.
  intros Ht Hl. unfold is_word. rewrite Ht. destruct (Z.eqb_spec (zlen s) (zlen w)) as [E | E].
  - rewrite <- E. erewrite bind_eq by (unfold json_at, lift; by rewrite Hl). done.
  - rewrite bool_decide_eq_false_2; [done |]. by intros ->.
Qed.

Lemma token_count_strip v : token_count (strip v) = token_count v.
Proof. induction v using json_ind'; done. Qed.

Lemma note_members_nonempty ws ms cs v : note_value ws ms cs v -> 3 <= token_count (JObject ws ms).
Proof.
  intros [_ _ _ _ (flags & Hc & Hf) _]. destruct ms as [| m ms].
  - simpl in Hc. injection Hc as <- _. done.
  - simpl. assert (forall v, 1 <= token_count v) as H1.
    { intros v'. rewrite <- (toks_count v' 0 0 0). pose proof (toks_nonempty v' 0 0 0). lia. }
    assert (0 <= foldr (fun m n => 1 + token_count (snd m) + n) 0 ms) as H2.
    { clear Hc. induction ms as [| m' ms IH]; simpl; [lia |]. specialize (H1 (snd m')). lia. }
    specialize (H1 (snd m)). lia.
Qed.

Section messages.
Variables (js : list Z) (junk : Z) (junk_tok : Z -> jsmntok) (junk_i : Z) (hexbuf : list Z).
Context (sha256 : list Z -> list Z).
Context (schnorrsig_sign32 : list Z -> list Z -> list Z -> option (list Z)).
Context (fill_random : option (list Z)).

Hypothesis (Hjunk : is_byte junk) (Hhex : length hexbuf = 64%nat).

(** The note that ends an array. *)
Lemma parse_note_item g m0 s cap ts o off n ws ms cs v :
  rep g m0 empty_view false off.sizeof 0 0 s -> note_value ws ms cs v -> room_for g cs ->
  zlen ts <= cap -> strip o = JObject ws ms -> at_items js ts 0 off n [o] ->
  n + token_count o = zlen ts ->
  exists sz s', parse_note_at js junk hexbuf sha256 schnorrsig_sign32 fill_random
      (mk_jp (token_memory junk_tok cap ts) (zlen ts) 0) n NDB_PARSED_ALL s = Some (sz, s') /\
    built g m0 sz s' v (off.sizeof + jtotal jnote_cost cs + jtotal jstr_cost cs + 7).
Proof.
  intros R Hv Hr Hcap E (Hh & Hs & _)%at_items_cons Hn.
  destruct (strip_toks js o off 0 n Hh) as (o' & Et & Ho). rewrite E in Et, Ho. rewrite Et in Hs.
  apply (parse_note_object js junk junk_tok hexbuf sha256 schnorrsig_sign32 fill_random Hjunk Hhex
           g m0 s cap ts n ws ms cs v o' 0 (zlen ts)); try done.
  rewrite <- Et, toks_count. done.
Qed.

Lemma item_at g (ts : list jsmntok) cap i t :
  zlen ts <= cap -> tok_at ts i = Some t ->
  (lift (token_memory junk_tok cap ts i) : BM jsmntok) g = Some (t, g).
Proof. clear Hhex Hjunk. intros Hc Ht. unfold lift. by rewrite (token_memory_in junk_tok cap ts i t Hc Ht). Qed.

(** What an array message is read as, up to its second token. *)
Record array_message (pre ws post : list Z) (items : list Json.json) (buf bufsize : Z) (m : mem) : Prop := {
  am_pre : spaces pre = true; am_post : spaces post = true; am_ws : spaces ws = true;
  am_items : forallb value_ok items = true;
  am_geom : geom_ok (mk_geom buf (bufsize / 2)) m;
  am_room : off.sizeof <= g_half (mk_geom buf (bufsize / 2));
  am_cap : token_count (JArray ws items) <= json_cap bufsize }.

Lemma array_message_ready pre ws post items buf bufsize m b :
  js = text (JPad pre (JArray ws items) post) -> array_message pre ws post items buf bufsize m ->
  exists ts s1 a, zlen ts <= json_cap bufsize /\ zlen ts = token_count (JArray ws items) /\
    ndb_json_parser_init buf bufsize (m, b) = Some (true, s1) /\
    rep (mk_geom buf (bufsize / 2)) m empty_view false off.sizeof 0 0 s1 /\
    ndb_json_parser_parse js junk_tok junk_i (json_cap bufsize) None =
      Some (1, mk_jp (token_memory junk_tok (json_cap bufsize) ts) (zlen ts) 0) /\
    tok_at ts 0 = Some a /\ tk_type a = JSMN_ARRAY /\
    at_items js ts 0 (zlen pre + 1 + zlen ws) 1 items.
Proof.
  clear Hhex Hjunk. intros Hjs [Hpre Hpost Hws Hit Hg Hroom Hcap].
  destruct (parser_ready js junk_tok junk_i (JPad pre (JArray ws items) post) buf bufsize m b)
    as (Hcap' & Hne & s1 & E1 & R & Ep); try done.
  { simpl. rewrite Hpre, Hpost, Hws, Hit. done. }
  destruct (array_items js pre ws items post Hjs) as [Ha Hi].
  eexists _, s1, _. split; [exact Hcap' |]. split; [by rewrite toks_count |].
  split; [exact E1 |]. split; [exact R |]. split; [exact Ep |]. split; [exact Ha |]. split; [done | exact Hi].
Qed.

Abbreviation ws_event := (ndb_ws_event_from_json js junk junk_tok junk_i hexbuf sha256
  schnorrsig_sign32 fill_random).
Abbreviation client_event := (ndb_client_event_from_json js junk junk_tok junk_i hexbuf sha256
  schnorrsig_sign32 fill_random).

(** An array message of at least two items is read up to its first word. *)
Lemma ws_message_word pre ws post k s2 rest w buf bufsize m b :
  js = text (JPad pre (JArray ws (k :: s2 :: rest)) post) ->
  array_message pre ws post (k :: s2 :: rest) buf bufsize m -> strip k = JString w ->
  exists ts s1 off t1,
    let p := mk_jp (token_memory junk_tok (json_cap bufsize) ts) (zlen ts) 0 in
    zlen ts <= json_cap bufsize /\ zlen ts = 2 + foldr (fun v n => token_count v + n) 0 (s2 :: rest) /\
    rep (mk_geom buf (bufsize / 2)) m empty_view false off.sizeof 0 0 s1 /\
    at_items js ts 0 off 2 (s2 :: rest) /\
    ndb_json_parser_init buf bufsize (m, b) = Some (true, s1) /\
    ndb_json_parser_parse js junk_tok junk_i (json_cap bufsize) None = Some (1, p) /\
    (exists a, lift (jsp_toks p 0) s1 = Some (a, s1) /\ tk_type a = JSMN_ARRAY) /\
    lift (jsp_toks p 1) s1 = Some (t1, s1) /\ tk_type t1 = JSMN_STRING /\
    forall x, is_word js t1 x s1 = Some (bool_decide (w = x), s1).
Proof.
  clear Hhex Hjunk. intros Hjs Ham Hw.
  destruct (array_message_ready _ _ _ _ _ _ _ b Hjs Ham) as (ts & s1 & a & Hc & Hn & E1 & R & Ep & Ha & Hty & Hi).
  apply (at_items_string _ _ _ _ _ _ _ _ Hw) in Hi as (t1 & Ht & Hty1 & Hl & Hld & Hi).
  exists ts, s1, (zlen pre + 1 + zlen ws + zlen (text k) + 1), t1. intros p.
  split; [exact Hc |]. split.
  { rewrite Hn. simpl. rewrite <- (token_count_strip k), Hw. simpl. lia. }
  split; [exact R |]. split; [exact Hi |]. split; [exact E1 |]. split; [exact Ep |].
  split; [exists a; split; [by apply item_at | exact Hty] |].
  split; [by apply item_at |]. split; [exact Hty1 |]. intros x. by apply is_word_eq.
Qed.

(** Step to the comparison of the first word. *)
Ltac to_first_word E1 Ep Ea Hta Et Ht1 :=
  rewrite (bind_eq _ _ _ _ _ E1); cbn [negb];
  rewrite Ep, (bind_eq _ _ _ _ _ (eq_refl : lift (Some _) _ = Some (_, _))); cbv beta iota;
  cbn [Z.ltb Z.compare];
  rewrite (bind_eq _ _ _ _ _ Ea); unfold is_type at 1 2; rewrite Hta; cbn [jsp_num_tokens];
  match goal with
  | |- context [zlen ?ts <? ?k] => destruct (Z.ltb_spec (zlen ts) k); [lia |]
  | |- context [zlen ?ts <=? ?k] => destruct (Z.leb_spec (zlen ts) k); [lia |]
  end;
  rewrite bool_decide_eq_false_2 by done; rewrite bool_decide_eq_true_2 by done; cbn [orb negb];
  rewrite (bind_eq _ _ _ _ _ Et); unfold is_type at 1; rewrite Ht1;
  rewrite bool_decide_eq_true_2 by done; cbn [negb].

Lemma subid_token_eq ts cap num t st :
  zlen ts <= cap -> tok_at ts 2 = Some t -> tk_type t = JSMN_STRING ->
  subid_token (mk_jp (token_memory junk_tok cap ts) num 0) st = Some (Some (token_range t), st).
Proof.
  clear Hhex Hjunk. intros Hc Ht Hty. unfold subid_token. cbn [jsp_toks].
  erewrite bind_eq by (by apply item_at). unfold is_type. by rewrite bool_decide_eq_true_2.
Qed.

Lemma ok_message_eq ts cap t2 t3 t4 c raw st :
  zlen ts <= cap -> zlen ts = 5 ->
  tok_at ts 2 = Some t2 -> tk_type t2 = JSMN_STRING ->
  tok_at ts 3 = Some t3 -> tk_type t3 = JSMN_PRIMITIVE -> toksize t3 = zlen (c :: raw) ->
  loadn js (tk_start t3) (zlen (c :: raw)) = Some (c :: raw) ->
  tok_at ts 4 = Some t4 -> tk_type t4 = JSMN_STRING ->
  ok_message js (mk_jp (token_memory junk_tok cap ts) (zlen ts) 0) st =
  Some ((1, mk_tce (Some NDB_TCE_OK) (Some (token_range t2)) (Some (c =? 116)) (Some (token_range t4))), st).
Proof.
  clear Hhex Hjunk. intros Hc H5 H2 T2 H3 T3 L3 D3 H4 T4. unfold ok_message. cbn [jsp_num_tokens].
  rewrite H5. cbn [negb Z.eqb Pos.eqb].
  erewrite bind_eq by (by apply subid_token_eq). cbv beta iota. cbn [jsp_toks].
  erewrite bind_eq by (by apply item_at). unfold is_type. rewrite T3, L3.
  rewrite bool_decide_eq_true_2 by done. rewrite zlen_cons.
  destruct (Z.eqb_spec (1 + zlen raw) 0); [zl |]. cbn [negb orb].
  assert (load8 js (tk_start t3) = Some c) as E8 by (by apply loadn_cons in D3 as [D3 _]).
  erewrite bind_eq by (unfold lift; by rewrite E8).
  erewrite bind_eq by (by apply item_at). rewrite T4, bool_decide_eq_true_2 by done. done.
Qed.

(** C15: A relay's event is read.  The text of an array of "EVENT", a subscription
    and a note, whatever the white space, gives the range of the subscription's
    characters in the text and the note that its members describe.  The note is an
    object with the seven fields of a note in any order, and further members: id,
    author and signature of 64, 64 and 128 hex digits, time and kind in decimal
    below 2^32, content a string, tags an array of arrays of at least one string
    or primitive; no escape \u in a string of more than two characters, and no
    string but the object's own keys that spells the name of a field.  The token
    memory and the builder's buffers have room. *)
Theorem ws_event_reads pre ws post e s o ows ms sub cs v buf bufsize m b
    (Hjs : js = text (JPad pre (JArray ws [e; s; o]) post))
    (Ham : array_message pre ws post [e; s; o] buf bufsize m)
    (He : strip e = JString (bytes_of "EVENT")) (Hs : strip s = JString sub)
    (Ho : strip o = JObject ows ms) (Hv : note_value ows ms cs v)
    (Hr : room_for (mk_geom buf (bufsize / 2)) cs) :
  exists n s' r, ws_event buf bufsize None (m, b) =
      Some ((n, mk_tce (Some NDB_TCE_EVENT) (Some r) None None), s') /\
    loadn js (fst r) (snd r) = Some sub /\
    built (mk_geom buf (bufsize / 2)) m n s' v
      (off.sizeof + jtotal jnote_cost cs + jtotal jstr_cost cs + 7).
Proof.
  destruct (ws_message_word _ _ _ _ _ _ _ _ _ _ b Hjs Ham He)
    as (ts & s1 & off & t1 & Hc & Hn & R & Hi & E1 & Ep & (a & Ea & Hta) & Et & Ht1 & Hw).
  apply (at_items_string _ _ _ _ _ _ _ _ Hs) in Hi as (t2 & Ht2 & Hty2 & Hl2 & Hld2 & Hi).
  assert (3 + token_count o = zlen ts) as Hno.
  { rewrite Hn. simpl. rewrite <- (token_count_strip s), Hs. simpl. lia. }
  destruct (parse_note_item _ m s1 _ ts o _ 3 ows ms cs v R Hv Hr Hc Ho Hi Hno) as (sz & s' & E & B).
  pose proof (note_members_nonempty _ _ _ _ Hv) as H3. rewrite <- Ho, token_count_strip in H3.
  exists sz, s', (token_range t2). split; [| split; [by unfold token_range; simpl; rewrite Hl2 | exact B]].
  unfold ndb_ws_event_from_json. to_first_word E1 Ep Ea Hta Et Ht1.
  rewrite (bind_eq _ _ _ _ _ (Hw _)). rewrite bool_decide_eq_true_2 by done.
  erewrite bind_eq by (by apply subid_token_eq).
  cbv beta iota. by rewrite (bind_eq _ _ _ _ _ E).
Qed.

(** An event published by a client is read.  The text of an array of "EVENT"
    and a note, whatever the white space, gives the note that its members
    describe. *)
Theorem client_event_reads pre ws post e o ows ms cs v buf bufsize m b
    (Hjs : js = text (JPad pre (JArray ws [e; o]) post))
    (Ham : array_message pre ws post [e; o] buf bufsize m)
    (He : strip e = JString (bytes_of "EVENT"))
    (Ho : strip o = JObject ows ms) (Hv : note_value ows ms cs v)
    (Hr : room_for (mk_geom buf (bufsize / 2)) cs) :
  exists n s', client_event buf bufsize None (m, b) = Some ((n, mk_fce (Some NDB_FCE_EVENT)), s') /\
    built (mk_geom buf (bufsize / 2)) m n s' v
      (off.sizeof + jtotal jnote_cost cs + jtotal jstr_cost cs + 7).
Proof.
  destruct (ws_message_word _ _ _ _ _ _ _ _ _ _ b Hjs Ham He)
    as (ts & s1 & off & t1 & Hc & Hn & R & Hi & E1 & Ep & (a & Ea & Hta) & Et & Ht1 & Hw).
  assert (2 + token_count o = zlen ts) as Hno by (rewrite Hn; simpl; lia).
  destruct (parse_note_item _ m s1 _ ts o _ 2 ows ms cs v R Hv Hr Hc Ho Hi Hno) as (sz & s' & E & B).
  pose proof (note_members_nonempty _ _ _ _ Hv) as H3. rewrite <- Ho, token_count_strip in H3.
  exists sz, s'. split; [| exact B].
  unfold ndb_client_event_from_json. to_first_word E1 Ep Ea Hta Et Ht1.
  rewrite (bind_eq _ _ _ _ _ (Hw _)). rewrite bool_decide_eq_true_2 by done.
  by rewrite (bind_eq _ _ _ _ _ E).
Qed.

(** A relay's other messages are read.  The array of "EOSE" or "AUTH" and a
    string gives the range of the string, whatever follows; "OK", an id, a
    primitive and a text gives both ranges and whether the primitive starts with
    a t; any other first word is refused and sets nothing. *)
Theorem ws_reply_reads pre ws post k s rest w sub buf bufsize m b
    (Hjs : js = text (JPad pre (JArray ws (k :: s :: rest)) post))
    (Ham : array_message pre ws post (k :: s :: rest) buf bufsize m)
    (Hk : strip k = JString w) (Hs : strip s = JString sub) :
  exists r s', loadn js (fst r) (snd r) = Some sub /\
    (w = bytes_of "EOSE" ->
      ws_event buf bufsize None (m, b) = Some ((1, mk_tce (Some NDB_TCE_EOSE) (Some r) None None), s')) /\
    (w = bytes_of "AUTH" ->
      ws_event buf bufsize None (m, b) = Some ((1, mk_tce (Some NDB_TCE_AUTH) (Some r) None None), s')) /\
    (forall p c raw q msg, w = bytes_of "OK" -> rest = [p; q] -> strip p = JPrimitive (c :: raw) ->
      strip q = JString msg -> exists r2, loadn js (fst r2) (snd r2) = Some msg /\
      ws_event buf bufsize None (m, b) =
        Some ((1, mk_tce (Some NDB_TCE_OK) (Some r) (Some (c =? 116)) (Some r2)), s')) /\
    (w ∉ map bytes_of ["EVENT"; "EOSE"; "OK"; "AUTH"]%string ->
      ws_event buf bufsize None (m, b) = Some ((0, mk_tce None None None None), s')).
Proof.
  clear Hhex Hjunk.
  destruct (ws_message_word _ _ _ _ _ _ _ _ _ _ b Hjs Ham Hk)
    as (ts & s1 & off & t1 & Hc & Hn & R & Hi & E1 & Ep & (a & Ea & Hta) & Et & Ht1 & Hw).
  apply (at_items_string _ _ _ _ _ _ _ _ Hs) in Hi as (t2 & Ht2 & Hty2 & Hl2 & Hld2 & Hi).
  assert (zlen ts = 3 + foldr (fun v n => token_count v + n) 0 rest) as Hn'.
  { rewrite Hn. simpl. rewrite <- (token_count_strip s), Hs. simpl. lia. }
  assert (0 <= foldr (fun v n => token_count v + n) 0 rest) as H0.
  { clear. induction rest as [| v l IH]; simpl; [lia |].
    rewrite <- (toks_count v 0 0 0). pose proof (zlen_nonneg (toks 0 0 0 v)). lia. }
  exists (token_range t2), s1. split; [by unfold token_range; simpl; rewrite Hl2 |].
  unfold ndb_ws_event_from_json. split; [| split; [| split]].
  - intros ->. to_first_word E1 Ep Ea Hta Et Ht1.
    do 1 (rewrite (bind_eq _ _ _ _ _ (Hw _)); rewrite bool_decide_eq_false_2 by (vm_compute; discriminate); cbv iota).
    rewrite (bind_eq _ _ _ _ _ (Hw _)), bool_decide_eq_true_2 by done.
    unfold subid_message. by rewrite (bind_eq _ _ _ _ _ (subid_token_eq _ _ _ _ _ Hc Ht2 Hty2)).
  - intros ->. to_first_word E1 Ep Ea Hta Et Ht1.
    do 3 (rewrite (bind_eq _ _ _ _ _ (Hw _)); rewrite bool_decide_eq_false_2 by (vm_compute; discriminate); cbv iota).
    rewrite (bind_eq _ _ _ _ _ (Hw _)), bool_decide_eq_true_2 by done.
    unfold subid_message. by rewrite (bind_eq _ _ _ _ _ (subid_token_eq _ _ _ _ _ Hc Ht2 Hty2)).
  - intros p c raw q msg -> -> Hp Hq.
    apply (at_items_primitive _ _ _ _ _ _ _ _ Hp) in Hi as (t3 & Ht3 & Hty3 & Hl3 & Hld3 & Hi).
    apply (at_items_string _ _ _ _ _ _ _ _ Hq) in Hi as (t4 & Ht4 & Hty4 & Hl4 & Hld4 & _).
    exists (token_range t4). split; [by unfold token_range; simpl; rewrite Hl4 |].
    to_first_word E1 Ep Ea Hta Et Ht1.
    do 2 (rewrite (bind_eq _ _ _ _ _ (Hw _)); rewrite bool_decide_eq_false_2 by (vm_compute; discriminate); cbv iota).
    rewrite (bind_eq _ _ _ _ _ (Hw _)), bool_decide_eq_true_2 by done.
    apply (ok_message_eq ts _ t2 t3 t4 c raw); try done. rewrite Hn'. simpl.
    by rewrite <- (token_count_strip p), <- (token_count_strip q), Hp, Hq.
  - intros Hw'. to_first_word E1 Ep Ea Hta Et Ht1.
    do 4 (rewrite (bind_eq _ _ _ _ _ (Hw _)); rewrite bool_decide_eq_false_2; cbv iota;
      [| intros ->; apply Hw'; simpl; by repeat constructor]).
    done.
Qed.

End messages.

(** The string a parser that may stop at an id stops behind. *)
Definition shown_id (js : list Z) (cap : Z) : option jsmntok :=
  '(r, q) ← jsmn_parse js cap true jsmn_init;
  if r =? -42 then tok_at (jp_tokens q) (zlen (jp_tokens q) - 1) else None.

(** C18: The callback does not change what is read.  A parse with a function to
    call at the id of a note stops at most once, behind a string of 64 characters
    that lies in the text, and calls it with the text from that string on.  If the
    function says to stop, the parse reports -42; if it says to go on, or is never
    called, the parse ends with the result, the tokens and the error of a parse
    without it. *)
Theorem json_callback_transparent (js : list Z) (junk_tok : Z -> jsmntok) (junk_i cap : Z)
    (cb : list Z -> ndb_idres) (Hcap : 0 <= cap) :
  (forall t, shown_id js cap = Some t ->
     tk_type t = JSMN_STRING /\ 0 <= tk_start t /\ tk_end t = tk_start t + 64 /\ tk_end t <= zlen js) /\
  match shown_id js cap with
  | Some t =>
      match cb (drop (Z.to_nat (tk_start t)) js) with
      | NDB_IDRES_STOP => exists p, ndb_json_parser_parse js junk_tok junk_i cap (Some cb) = Some (-42, p)
      | NDB_IDRES_CONT =>
          ndb_json_parser_parse js junk_tok junk_i cap (Some cb) = ndb_json_parser_parse js junk_tok junk_i cap None
      end
  | None => ndb_json_parser_parse js junk_tok junk_i cap (Some cb) = ndb_json_parser_parse js junk_tok junk_i cap None
  end /\
  exists r p, ndb_json_parser_parse js junk_tok junk_i cap None = Some (r, p) /\ r <> -42.
Proof.
  pose proof (inv_init js cap Hcap) as I0.
  destruct (wp_elim _ _ _ (jsmn_parse_wp js cap true _ I0)) as (r & p & E & H).
  destruct (wp_elim _ _ _ (jsmn_parse_wp js cap false _ I0)) as (r0 & p0 & E0 & H0).
  assert (Hn0 : r0 <> -42).
  { destruct H0 as [He | [(_ & Hf & _) | (-> & _)]]; [| done | pose proof (zlen_nonneg (jp_tokens p0)); lia].
    unfold is_error, JSMN_ERROR_NOMEM, JSMN_ERROR_INVAL, JSMN_ERROR_PART in He. lia. }
  assert (Plain : exists q, ndb_json_parser_parse js junk_tok junk_i cap None =
    Some (if r0 =? 0 then (0, mk_jp (token_memory junk_tok cap (jp_tokens p0)) 0 junk_i)
          else (1, mk_jp (token_memory junk_tok cap (jp_tokens p0)) r0 0)) /\ q = p0).
  { exists p0. split; [| done]. unfold ndb_json_parser_parse. rewrite E0. cbn [mbind option_bind].
    destruct (Z.eqb_spec r0 (-42)); [done |]. by destruct (r0 =? 0). }
  destruct Plain as (_ & Plain & _). unfold shown_id. rewrite E, Plain. cbn [mbind option_bind].
  split; [| split; [| destruct (r0 =? 0); eexists _, _; (split; [reflexivity | lia])]].
  - destruct (Z.eqb_spec r (-42)) as [-> |]; [| done].
    destruct H as [He | [(_ & _ & Hi & (t & Ht & Hs & H64)) | (Hr & _)]]; [unfold is_error, JSMN_ERROR_NOMEM, JSMN_ERROR_INVAL, JSMN_ERROR_PART in He; lia | |
      pose proof (zlen_nonneg (jp_tokens p)); lia].
    intros t' Ht'. rewrite Ht in Ht'. injection Ht' as <-. pose proof (tok_at_range _ _ _ Ht). rewrite tok_at_lookup in Ht by lia.
    apply (proj1 (Forall_lookup _ _) (to_ranges _ _ (iv_tokens _ _ _ Hi))) in Ht as (Hst & _ & He).
    pose proof (iv_pos _ _ _ Hi) as Hp. unfold inside in Hp. split; [done |]. lia.
  - unfold ndb_json_parser_parse at 1 2 3. rewrite E. cbn [mbind option_bind]. destruct (Z.eqb_spec r (-42)) as [-> | Hr].
    + destruct H as [He | [(_ & _ & Hi & (t & Ht & Hs & H64)) | (Hr & _)]]; [unfold is_error, JSMN_ERROR_NOMEM, JSMN_ERROR_INVAL, JSMN_ERROR_PART in He; lia | |
        pose proof (zlen_nonneg (jp_tokens p)); lia].
      rewrite Ht. cbn [mbind option_bind]. destruct (cb _); [| by eexists].
      rewrite (jsmn_parse_continues _ _ _ Hcap E), E0. cbn [mbind option_bind].
      assert (r0 <> 0); [| by destruct (Z.eqb_spec r0 0)]. intros ->.
      rewrite <- (jsmn_parse_continues _ _ _ Hcap E) in E0.
      pose proof (jsmn_loop_count _ _ _ _ _ _ _ _ _ Hi eq_refl E0 ltac:(lia)). pose proof (tok_at_range _ _ _ Ht). lia.
    + pose proof (jsmn_loop_unstopped _ _ _ _ _ _ _ _ I0 eq_refl E Hr) as E'.
      change (jsmn_parse js cap false jsmn_init = Some (r, p)) in E'. rewrite E' in E0. injection E0 as <- <-.
      by destruct (r =? 0).
Qed.

Lemma json_callback_transparent_witness :
  shown_id demo_id_json 9 <> None /\
  ndb_json_parser_parse demo_id_json (fun _ => demo_tok) 0 9 (Some (fun _ => NDB_IDRES_CONT)) =
    ndb_json_parser_parse demo_id_json (fun _ => demo_tok) 0 9 None.
Proof.
  destruct (json_callback_transparent demo_id_json (fun _ => demo_tok) 0 9 (fun _ => NDB_IDRES_CONT) ltac:(lia)) as (_ & H & _).
  destruct (shown_id demo_id_json 9) as [t |] eqn:E; [by split |].
  assert (Some tt = None); [| done]. transitivity ((fun _ => tt) <$> shown_id demo_id_json 9); [vm_compute; reflexivity | by rewrite E].
Defined.

(** Messages with white space around their parts. *)
Definition demo_event : Json.json :=
  JPad [32] (JArray [32] [JString (bytes_of "EVENT"); JPad [32] (JString (bytes_of "sub:1")) [32];
                          JPad [10] (JObject [] demo_source) []]) [10].

Definition demo_client_event : Json.json :=
  JPad [] (JArray [] [JString (bytes_of "EVENT"); JPad [10] (JObject [] demo_source) []]) [10].

Definition demo_ok : Json.json :=
  JPad [] (JArray [] [JString (bytes_of "OK"); JPad [32] (JString (bytes_of "5c83")) [];
                      JPrimitive (bytes_of "false"); JString (bytes_of "blocked: spam")]) [].

Lemma demo_array_message pre ws post items :
  spaces pre = true -> spaces post = true -> spaces ws = true -> forallb value_ok items = true ->
  token_count (JArray ws items) <= json_cap 3000 ->
  array_message pre ws post items 16 3000 demo_memory.
Proof. intros. by split. Qed.

Lemma ws_event_reads_witness :
  exists n s' r, ndb_ws_event_from_json (text demo_event) 0 (fun _ => demo_tok) 0 (replicate 64 0)
      (fun x => x) (fun _ _ _ => None) None 16 3000 None (demo_memory, no_builder) =
      Some ((n, mk_tce (Some NDB_TCE_EVENT) (Some r) None None), s') /\
    loadn (text demo_event) (fst r) (snd r) = Some (bytes_of "sub:1") /\
    view (fst s') 16 = Some demo_source_view.
Proof.
  destruct (ws_event_reads (text demo_event) 0 (fun _ => demo_tok) 0 (replicate 64 0)
              (fun x => x) (fun _ _ _ => None) None ltac:(unfold is_byte; lia) eq_refl
              [32] [32] [10] (JString (bytes_of "EVENT")) (JPad [32] (JString (bytes_of "sub:1")) [32])
              (JPad [10] (JObject [] demo_source) []) [] demo_source (bytes_of "sub:1") demo_source_cmds
              demo_source_view 16 3000 demo_memory no_builder)
    as (n & s' & r & E & L & V & _).
  - reflexivity.
  - apply demo_array_message; try reflexivity; vm_compute; congruence.
  - reflexivity.
  - reflexivity.
  - reflexivity.
  - exact demo_source_value.
  - split; vm_compute; congruence.
  - exists n, s', r. split; [exact E | split; [exact L | exact V]].
Defined.

Lemma client_event_reads_witness :
  exists n s', ndb_client_event_from_json (text demo_client_event) 0 (fun _ => demo_tok) 0 (replicate 64 0)
      (fun x => x) (fun _ _ _ => None) None 16 3000 None (demo_memory, no_builder) =
      Some ((n, mk_fce (Some NDB_FCE_EVENT)), s') /\
    view (fst s') 16 = Some demo_source_view.
Proof.
  destruct (client_event_reads (text demo_client_event) 0 (fun _ => demo_tok) 0 (replicate 64 0)
              (fun x => x) (fun _ _ _ => None) None ltac:(unfold is_byte; lia) eq_refl
              [] [] [10] (JString (bytes_of "EVENT")) (JPad [10] (JObject [] demo_source) []) []
              demo_source demo_source_cmds demo_source_view 16 3000 demo_memory no_builder)
    as (n & s' & E & V & _).
  - reflexivity.
  - apply demo_array_message; try reflexivity; vm_compute; congruence.
  - reflexivity.
  - reflexivity.
  - exact demo_source_value.
  - split; vm_compute; congruence.
  - exists n, s'. split; [exact E | exact V].
Defined.

Lemma ws_reply_reads_witness :
  exists r s' r2, loadn (text demo_ok) (fst r) (snd r) = Some (bytes_of "5c83") /\
    loadn (text demo_ok) (fst r2) (snd r2) = Some (bytes_of "blocked: spam") /\
    ndb_ws_event_from_json (text demo_ok) 0 (fun _ => demo_tok) 0 (replicate 64 0)
      (fun x => x) (fun _ _ _ => None) None 16 3000 None (demo_memory, no_builder) =
      Some ((1, mk_tce (Some NDB_TCE_OK) (Some r) (Some false) (Some r2)), s').
Proof.
  destruct (ws_reply_reads (text demo_ok) 0 (fun _ => demo_tok) 0 (replicate 64 0)
              (fun x => x) (fun _ _ _ => None) None
              [] [] [] (JString (bytes_of "OK")) (JPad [32] (JString (bytes_of "5c83")) [])
              [JPrimitive (bytes_of "false"); JString (bytes_of "blocked: spam")]
              (bytes_of "OK") (bytes_of "5c83") 16 3000 demo_memory no_builder)
    as (r & s' & L & _ & _ & H & _).
  - reflexivity.
  - apply demo_array_message; try reflexivity; vm_compute; congruence.
  - reflexivity.
  - reflexivity.
  - destruct (H (JPrimitive (bytes_of "false")) 102 (bytes_of "alse") (JString (bytes_of "blocked: spam"))
                (bytes_of "blocked: spam") eq_refl eq_refl eq_refl eq_refl) as (r2 & L2 & E).
    exists r, s', r2. split; [exact L | split; [exact L2 | exact E]].
Defined.
