(* ===== verification/Filter.v ===== *)
(** * Filters (src/src/nostrdb.c, src/src/nostrdb.h)

    A filter is a list of fields in one buffer and the bytes of their ids and
    strings in another; an element is an integer or an offset into those bytes.
    The model keeps the byte buffer as bytes and the field buffer as records,
    with the sizes that decide when it is full: a field takes 16 bytes and each
    of its elements 8.  Fields are laid out in the order they are started, so
    the array of offsets of ended fields is the list [fields].

    [None] stands for an access outside the filter's arrays or buffers, or a
    failed assertion.  Allocation is taken to succeed.  The theorems show that
    the builder keeps the invariant the matcher relies on (sorted, in-range
    elements), that matching decides the declarative meaning of the fields, and
    what comparing and printing filters do. *)

From S2P Require Export NoteJson Order.
From stdpp Require Import sorting.
From Stdlib Require Import (notations) String.
Open Scope Z_scope.
Open Scope ndb_scope.

(** ** Data *)

Inductive fieldtype :=
  | IDS | AUTHORS | KINDS | TAGS | SINCE | UNTIL | LIMIT | SEARCH | RELAYS | CUSTOM.

Inductive elemtype := ELEM_UNKNOWN | ELEM_STRING | ELEM_ID | ELEM_INT | ELEM_CUSTOM.

#[export] Instance fieldtype_eq_dec : EqDecision fieldtype.
Proof. solve_decision. Defined.
#[export] Instance elemtype_eq_dec : EqDecision elemtype.
Proof. solve_decision. Defined.

(** The numbers of [enum ndb_filter_fieldtype]. *)
Definition fieldtype_num (t : fieldtype) : Z :=
  match t with
  | IDS => 1 | AUTHORS => 2 | KINDS => 3 | TAGS => 4 | SINCE => 5
  | UNTIL => 6 | LIMIT => 7 | SEARCH => 8 | RELAYS => 9 | CUSTOM => 10
  end.

(** A field with its elements; [count] is their number. *)
Record field := mk_field {
  f_type : fieldtype;
  f_elem : elemtype;
  f_tag : Z;
  elements : list Z
}.

Definition f_count (f : field) : Z := zlen (elements f).

(** The field in progress.  [Unreserved]: starting the field ran out of room
    after [current] was set, so its header was never reserved. *)
Inductive curfield := NoField | InField (f : field) | Unreserved.

Record filter := mk_filter {
  elem_end : Z;          (* size of the field buffer *)
  data_end : Z;          (* size of the data buffer *)
  data : list Z;         (* bytes pushed on the data buffer *)
  fields : list field;   (* ended fields *)
  current : curfield;
  finalized : bool
}.

(** An argument of [ndb_filter_add_element], the union by its member. *)
Inductive filter_element :=
  | ElStr (s : list Z) | ElId (id : list Z) | ElInt (i : Z) | ElCustom (c : list Z).

Definition NDB_NUM_FILTERS : Z := 10.
Definition NDB_FILTER_PAGE_SIZE : Z := 4096.
Definition NDB_FILTER_PAGES : Z := 64.

Definition FM (A : Type) : Type := M filter A.

Definition field_size (f : field) : Z := 16 + 8 * f_count f.
Definition elem_p (flt : filter) : Z :=
  foldr (fun f n => field_size f + n) 0 (fields flt) +
  match current flt with InField f => field_size f | _ => 0 end.

(** ** Construction *)

Definition ndb_filter_init_with (pages : Z) : filter :=
  let buf_size := NDB_FILTER_PAGE_SIZE * pages in
  let elem_size := buf_size / 4 in
  mk_filter elem_size (buf_size - elem_size) [] [] NoField false.

Definition ndb_filter_init : filter := ndb_filter_init_with NDB_FILTER_PAGES.

Definition NDB_FILTER_IDS_PER_PAGE : Z := NDB_FILTER_PAGE_SIZE * 3 / 4 / 32.

Definition ndb_filter_init_for_ids (num_ids : Z) : filter :=
  let pages := Z.quot num_ids NDB_FILTER_IDS_PER_PAGE + 2 in
  ndb_filter_init_with (if pages <? NDB_FILTER_PAGES then NDB_FILTER_PAGES else pages).

Definition set_current (flt : filter) (c : curfield) : filter :=
  mk_filter (elem_end flt) (data_end flt) (data flt) (fields flt) c (finalized flt).
Definition set_data (flt : filter) (d : list Z) : filter :=
  mk_filter (elem_end flt) (data_end flt) d (fields flt) (current flt) (finalized flt).

(** [None]: no field is in progress.  The fields of a header that was never
    reserved are outside the model. *)
Definition ndb_filter_current_element : FM (option field) :=
  let* flt := get in
  match current flt with
  | NoField => ret None
  | InField f => ret (Some f)
  | Unreserved => ub
  end.

Definition ndb_filter_start_field_impl (t : fieldtype) (tag : Z) : FM bool :=
  let* flt := get in
  match current flt with
  | NoField =>
      if existsb (fun el => bool_decide (f_type el = t) && bool_decide (t <> TAGS)) (fields flt)
      then ret false
      else if elem_end flt <=? elem_p flt + 16 then
        do* put (set_current flt Unreserved) in ret false
      else
        do* put (set_current flt (InField (mk_field t ELEM_UNKNOWN tag []))) in ret true
  | _ => ret false
  end.

Definition ndb_filter_start_field (t : fieldtype) : FM bool := ndb_filter_start_field_impl t 0.
Definition ndb_filter_start_tag_field (tag : Z) : FM bool := ndb_filter_start_field_impl TAGS tag.

(** [cursor_push] on the data buffer. *)
Definition push_data (bs : list Z) : FM bool :=
  let* flt := get in
  if data_end flt <? zlen (data flt) + zlen bs then ret false
  else do* put (set_data flt (data flt ++ bs)) in ret true.

(** [cursor_push] of one element on the field buffer, and the count. *)
Definition push_elem (offset : Z) : FM bool :=
  let* flt := get in
  match current flt with
  | InField f =>
      if elem_end flt <? elem_p flt + 8 then ret false
      else
        do* put (set_current flt
               (InField (mk_field (f_type f) (f_elem f) (f_tag f) (elements f ++ [u64 offset])))) in
        ret true
  | _ => ub
  end.

Definition push_str_data (el : filter_element) : FM bool :=
  match el with ElStr s => push_data s &&* push_data [0] | _ => ub end.
Definition push_id_data (el : filter_element) : FM bool :=
  match el with ElId id => push_data id | _ => ub end.

Definition ndb_filter_add_element (el : filter_element) : FM bool :=
  let* cur := ndb_filter_current_element in
  match cur with
  | None => ret false
  | Some cf =>
      let* flt := get in
      let offset := zlen (data flt) in
      match f_type cf with
      | CUSTOM => match el with ElCustom c => push_data c &&* push_elem offset | _ => ub end
      | IDS | AUTHORS => push_id_data el &&* push_elem offset
      | KINDS => match el with ElInt i => push_elem i | _ => ub end
      | SINCE | UNTIL | LIMIT =>
          if negb (f_count cf =? 0) then ret false
          else match el with ElInt i => push_elem i | _ => ub end
      | SEARCH | RELAYS =>
          if decide (f_elem cf = ELEM_STRING) then push_str_data el &&* push_elem offset
          else ret false
      | TAGS =>
          match f_elem cf with
          | ELEM_ID => push_id_data el &&* push_elem offset
          | ELEM_STRING => push_str_data el &&* push_elem offset
          | _ => ret false
          end
      end
  end.

Definition ndb_filter_set_elem_type (t : elemtype) : FM bool :=
  let* cur := ndb_filter_current_element in
  match cur with
  | None => ret false
  | Some cf =>
      if bool_decide (f_elem cf <> t) && bool_decide (f_elem cf <> ELEM_UNKNOWN) then ret false
      else
        let* flt := get in
        do* put (set_current flt (InField (mk_field (f_type cf) t (f_tag cf) (elements cf)))) in
        ret true
  end.

Definition ndb_filter_add_str_element_len (s : list Z) : FM bool :=
  let* cur := ndb_filter_current_element in
  match cur with
  | None => ret false
  | Some cf =>
      match f_type cf with
      | SINCE | UNTIL | LIMIT | IDS | AUTHORS | KINDS | CUSTOM => ret false
      | SEARCH =>
          if f_count cf =? 1 then ret false
          else ndb_filter_set_elem_type ELEM_STRING &&* ndb_filter_add_element (ElStr s)
      | RELAYS | TAGS => ndb_filter_set_elem_type ELEM_STRING &&* ndb_filter_add_element (ElStr s)
      end
  end.

Definition ndb_filter_add_str_element (s : list Z) : FM bool := ndb_filter_add_str_element_len s.

Definition ndb_filter_add_custom_filter_element (c : list Z) : FM bool :=
  let* cur := ndb_filter_current_element in
  match cur with
  | None => ret false
  | Some cf =>
      match f_type cf with
      | CUSTOM => ndb_filter_set_elem_type ELEM_CUSTOM &&* ndb_filter_add_element (ElCustom c)
      | _ => ret false
      end
  end.

Definition ndb_filter_add_int_element (i : Z) : FM bool :=
  let* cur := ndb_filter_current_element in
  match cur with
  | None => ret false
  | Some cf =>
      match f_type cf with
      | IDS | AUTHORS | TAGS | SEARCH | RELAYS | CUSTOM => ret false
      | KINDS | SINCE | UNTIL | LIMIT =>
          ndb_filter_set_elem_type ELEM_INT &&* ndb_filter_add_element (ElInt i)
      end
  end.

Definition ndb_filter_add_id_element (id : list Z) : FM bool :=
  let* cur := ndb_filter_current_element in
  match cur with
  | None => ret false
  | Some cf =>
      match f_type cf with
      | SINCE | UNTIL | LIMIT | KINDS | SEARCH | RELAYS | CUSTOM => ret false
      | IDS | AUTHORS | TAGS =>
          ndb_filter_set_elem_type ELEM_ID &&* ndb_filter_add_element (ElId id)
      end
  end.

(** ** Elements *)

(** The offset of an element's bytes; the argument is an [int] in C. *)
Definition ndb_filter_elements_data (flt : filter) (offset : Z) : option Z :=
  if (i32 offset <? 0) || (zlen (data flt) <? i32 offset) then None else Some (i32 offset).

Definition ndb_filter_get_int_element (f : field) (i : nat) : option Z := elements f !! i.

(** The 32 bytes of an id, and the bytes of a string up to its NUL. *)
Definition id_at (flt : filter) (offset : Z) : option (list Z) :=
  o ← ndb_filter_elements_data flt offset; loadn (data flt) o 32.
Definition str_at (flt : filter) (offset : Z) : option (list Z) :=
  o ← ndb_filter_elements_data flt offset; c_string (data flt) o.
Definition custom_at (flt : filter) (offset : Z) : option (list Z) :=
  o ← ndb_filter_elements_data flt offset; loadn (data flt) o 16.

Definition ndb_filter_get_id_element (flt : filter) (f : field) (i : nat) : option (list Z) :=
  e ← elements f !! i; id_at flt e.
Definition ndb_filter_get_string_element (flt : filter) (f : field) (i : nat) : option (list Z) :=
  e ← elements f !! i; str_at flt e.
Definition ndb_filter_get_custom_element (flt : filter) (f : field) : option (list Z) :=
  e ← elements f !! 0%nat; custom_at flt e.

Definition ndb_filter_get_elements (flt : filter) (index : Z) : option field :=
  if index <? 0 then None else fields flt !! Z.to_nat index.

(** ** Sorting, ending a field, finalizing *)

Definition compare_ids (flt : filter) (a b : Z) : option Z :=
  x ← id_at flt a; y ← id_at flt b; Some (memcmp x y).
Definition compare_strs (flt : filter) (a b : Z) : option Z :=
  x ← str_at flt a; y ← str_at flt b; Some (strcmp x y).
Definition compare_kinds (a b : Z) : option Z := Some (u64_cmp a b).

(** [qsort], by insertion.  The comparison may be undefined on a bad offset. *)
Fixpoint qinsert {A} (cmp : A -> A -> option Z) (x : A) (l : list A) : option (list A) :=
  match l with
  | [] => Some [x]
  | y :: l' =>
      c ← cmp x y;
      if 0 <? c then r ← qinsert cmp x l'; Some (y :: r) else Some (x :: l)
  end.

Fixpoint qsort {A} (cmp : A -> A -> option Z) (l : list A) : option (list A) :=
  match l with
  | [] => Some []
  | x :: l => r ← qsort cmp l; qinsert cmp x r
  end.

Definition ndb_filter_elem_is_ptr (f : field) : bool :=
  match f_elem f with ELEM_STRING | ELEM_ID => true | _ => false end.

Definition sort_elements (f : field) (cmp : Z -> Z -> option Z) : option field :=
  es ← qsort cmp (elements f); Some (mk_field (f_type f) (f_elem f) (f_tag f) es).

(** The elements are asserted to be pointers.  The type of the elements is
    unknown until the first one is added: a field without any is refused. *)
Definition sort_filter_elements (f : field) (cmp : Z -> Z -> option Z) : option field :=
  if ndb_filter_elem_is_ptr f then sort_elements f cmp else None.

Definition sort_field (flt : filter) (f : field) : option field :=
  match f_type f with
  | IDS | AUTHORS => sort_filter_elements f (compare_ids flt)
  | RELAYS => sort_filter_elements f (compare_strs flt)
  | KINDS => sort_elements f compare_kinds
  | _ => Some f
  end.

(** The offset is recorded in an array of [NDB_NUM_FILTERS] entries whose bound
    is not checked. *)
Definition ndb_filter_end_field : FM unit :=
  let* cur := ndb_filter_current_element in
  match cur with
  | None => ret tt
  | Some cf =>
      let* flt := get in
      if NDB_NUM_FILTERS <=? zlen (fields flt) then ub
      else
        let* cf := lift (sort_field flt cf) in
        put (mk_filter (elem_end flt) (data_end flt) (data flt) (fields flt ++ [cf]) NoField
               (finalized flt))
  end.

(** The buffers of a finalized filter that holds nothing have been freed. *)
Definition freed (flt : filter) : bool :=
  finalized flt && (elem_p flt =? 0) && (zlen (data flt) =? 0).

(** Both buffers shrink to what they hold; they are asserted to be there. *)
Definition ndb_filter_end : FM bool :=
  let* flt := get in
  if freed flt then ub
  else if finalized flt then ret false
  else
    do* put (mk_filter (elem_p flt) (zlen (data flt)) (data flt) (fields flt) (current flt) true) in
    ret true.

(** Only a finalized filter is cloned; the destination has been overwritten
    either way. *)
Definition ndb_filter_clone (src : filter) : bool * filter := (finalized src, src).

(** ** Matching *)

(** [bsearch]: [cmp] compares the key with an element. *)
Fixpoint bsearch_loop (fuel : nat) (cmp : Z -> option Z) (l : list Z) (lo hi : Z) :
    option bool :=
  match fuel with
  | O => Some false
  | S fuel =>
      if lo <? hi then
        let mid := (lo + hi) / 2 in
        x ← l !! Z.to_nat mid;
        c ← cmp x;
        if c <? 0 then bsearch_loop fuel cmp l lo mid
        else if 0 <? c then bsearch_loop fuel cmp l (mid + 1) hi
        else Some true
      else Some false
  end.

Definition bsearch (cmp : Z -> option Z) (l : list Z) : option bool :=
  bsearch_loop (S (length l)) cmp l 0 (zlen l).

(** The element is read as a 32-bit integer. *)
Definition search_strs (flt : filter) (key : list Z) (mid : Z) : option Z :=
  s ← str_at flt (u32 mid); Some (strcmp key s).
Definition search_ids (flt : filter) (key : list Z) (mid : Z) : option Z :=
  s ← id_at flt (u32 mid); Some (memcmp key s).

(** The loop over the elements of a tag filter, against one tag value. *)
Fixpoint tag_value_in (flt : filter) (m : mem) (f : field) (str : ndb_str) (i : nat) (k : nat) :
    option bool :=
  match k with
  | O => Some false
  | S k =>
      match f_elem f with
      | ELEM_ID =>
          id ← ndb_filter_get_id_element flt f i;
          v ← loadn m (Note.str str) 32;
          if memcmp id v =? 0 then Some true else tag_value_in flt m f str (S i) k
      | ELEM_STRING =>
          s ← ndb_filter_get_string_element flt f i;
          v ← c_string m (Note.str str);
          if strcmp s v =? 0 then Some true else tag_value_in flt m f str (S i) k
      | _ => Some false
      end
  end.

(** What one tag of the note decides: it matches, is passed over, or ends the
    search because the filter has no usable elements. *)
Inductive tag_result := TagMatch | TagSkip | TagStop.

Definition tag_filter_step (flt : filter) (f : field) (m : mem) (note tag : Z) :
    option tag_result :=
  count ← ndb_tag_count m tag;
  if count <? 2 then Some TagSkip
  else
    str ← ndb_tag_str m note tag 0;
    if negb (flag str =? NDB_PACKED_STR) then Some TagSkip
    else
      c0 ← load8 m (Note.str str);
      c1 ← load8 m (Note.str str + 1);
      if negb (c0 =? u8 (f_tag f)) || negb (c1 =? 0) then Some TagSkip
      else
        str ← ndb_tag_str m note tag 1;
        match f_elem f with
        | ELEM_ID =>
            if negb (flag str =? NDB_PACKED_ID) then Some TagSkip
            else
              r ← tag_value_in flt m f str 0 (length (elements f));
              Some (if r : bool then TagMatch else TagSkip)
        | ELEM_STRING =>
            if flag str =? NDB_PACKED_ID then Some TagSkip
            else
              r ← tag_value_in flt m f str 0 (length (elements f));
              Some (if r : bool then TagMatch else TagSkip)
        | _ => Some TagStop
        end.

Fixpoint tag_filter_loop (fuel : nat) (flt : filter) (f : field) (m : mem) (it : ndb_iterator) :
    option bool :=
  match fuel with
  | O => Some false
  | S fuel =>
      r ← ndb_tags_iterate_next m it;
      if (fst r : bool) then
        tag ← iter_tag (snd r);
        t ← tag_filter_step flt f m (iter_note it) tag;
        match t with
        | TagMatch => Some true
        | TagSkip => tag_filter_loop fuel flt f m (snd r)
        | TagStop => Some false
        end
      else Some false
  end.

Definition ndb_tag_filter_matches (flt : filter) (f : field) (m : mem) (note : Z) : option bool :=
  count ← ndb_tags_count m (ndb_note_tags note);
  tag_filter_loop (S (Z.to_nat count)) flt f m (ndb_tags_iterate_start note).

(** The relays a note was seen on, one [ndb_note_relay_iterate_next] at a time. *)
Fixpoint relay_loop (flt : filter) (f : field) (relays : list (list Z)) : option bool :=
  match relays with
  | [] => Some false
  | r :: relays =>
      b ← bsearch (search_strs flt r) (elements f);
      if (b : bool) then Some true else relay_loop flt f relays
  end.

Section matching.
(** The callback of a custom filter, given the 16 bytes stored for it. *)
Context (custom_cb : list Z -> mem -> Z -> bool).

(** Does one field let the note through?  [relays] is the relay iterator; a
    filter on relays without one fails an assertion. *)
Definition field_matches (flt : filter) (m : mem) (note : Z)
    (relays : option (list (list Z))) (f : field) : option bool :=
  match f_type f with
  | KINDS =>
      kind ← load_u32 m (note + off.kind);
      Some (existsb (fun e => u32 e =? kind) (elements f))
  | RELAYS => rs ← relays; relay_loop flt f rs
  | IDS => id ← loadn m (ndb_note_id note) 32; bsearch (search_ids flt id) (elements f)
  | AUTHORS => pk ← loadn m (ndb_note_pubkey note) 32; bsearch (search_ids flt pk) (elements f)
  | TAGS => ndb_tag_filter_matches flt f m note
  | SINCE =>
      if f_count f =? 1 then
        t ← load_u64 m (note + off.created_at); e ← elements f !! 0%nat; Some (e <=? t)
      else None
  | UNTIL =>
      if f_count f =? 1 then
        t ← load_u64 m (note + off.created_at); e ← elements f !! 0%nat; Some (t <? e)
      else None
  | SEARCH => Some true
  | CUSTOM => c ← ndb_filter_get_custom_element flt f; Some (custom_cb c m note)
  | LIMIT => Some true
  end.

Fixpoint matches_loop (flt : filter) (m : mem) (note already_matched : Z)
    (relays : option (list (list Z))) (fs : list field) : option bool :=
  match fs with
  | [] => Some true
  | f :: fs =>
      if negb (Z.land (Z.shiftl 1 (fieldtype_num (f_type f))) already_matched =? 0)
      then matches_loop flt m note already_matched relays fs
      else
        b ← field_matches flt m note relays f;
        if (b : bool) then matches_loop flt m note already_matched relays fs else Some false
  end.

Definition ndb_filter_matches_with (flt : filter) (m : mem) (note already_matched : Z)
    (relays : option (list (list Z))) : option bool :=
  matches_loop flt m note already_matched relays (fields flt).

Definition ndb_filter_matches (flt : filter) (m : mem) (note : Z) : option bool :=
  ndb_filter_matches_with flt m note 0 None.

Definition ndb_filter_matches_with_relay (flt : filter) (m : mem) (note : Z)
    (relays : option (list (list Z))) : option bool :=
  ndb_filter_matches_with flt m note 0 relays.

(** ** Groups of filters *)

Definition MAX_FILTERS : Z := 16.

(** The filters counted by [num_filters]. *)
Definition filter_group : Type := list filter.

Definition ndb_filter_group_init : filter_group := [].

(** The count is advanced before the clone is known to succeed. *)
Definition ndb_filter_group_add (g : filter_group) (flt : filter) : bool * filter_group :=
  if MAX_FILTERS <? zlen g + 1 then (false, g)
  else
    let '(ok, copy) := ndb_filter_clone flt in (ok, g ++ [copy]).

Fixpoint ndb_filter_group_add_filters (g : filter_group) (fs : list filter) : bool * filter_group :=
  match fs with
  | [] => (true, g)
  | f :: fs =>
      let '(ok, g) := ndb_filter_group_add g f in
      if ok : bool then ndb_filter_group_add_filters g fs else (false, g)
  end.

Fixpoint group_matches_loop (fs : list filter) (m : mem) (note : Z) : option bool :=
  match fs with
  | [] => Some false
  | f :: fs =>
      b ← ndb_filter_matches f m note;
      if (b : bool) then Some true else group_matches_loop fs m note
  end.

Definition ndb_filter_group_matches (g : filter_group) (m : mem) (note : Z) : option bool :=
  if zlen g =? 0 then Some true else group_matches_loop g m note.
End matching.

(** ** Comparison *)

Definition ndb_filter_find_elements (flt : filter) (t : fieldtype) : option field :=
  List.find (fun f => bool_decide (f_type f = t)) (fields flt).

Definition ndb_filter_find_search (flt : filter) : option (list Z) :=
  f ← ndb_filter_find_elements flt SEARCH; ndb_filter_get_string_element flt f 0.

Definition ndb_filter_get_elem (flt : filter) (t : fieldtype) : option (list Z) :=
  elements <$> ndb_filter_find_elements flt t.

(** The first element, read through the pointer the C function returns. *)
Definition ndb_filter_get_int (flt : filter) (t : fieldtype) : option Z :=
  es ← ndb_filter_get_elem flt t; es !! 0%nat.

Fixpoint field_eq_loop (a_filt : filter) (a : field) (b_filt : filter) (b : field) (i k : nat) :
    option bool :=
  match k with
  | O => Some true
  | S k =>
      eq ← match f_elem a with
           | ELEM_CUSTOM =>
               x ← ndb_filter_get_custom_element a_filt a;
               y ← ndb_filter_get_custom_element b_filt b; Some (memcmp x y =? 0)
           | ELEM_UNKNOWN => Some false
           | ELEM_STRING =>
               x ← ndb_filter_get_string_element a_filt a i;
               y ← ndb_filter_get_string_element b_filt b i; Some (strcmp x y =? 0)
           | ELEM_ID =>
               x ← ndb_filter_get_id_element a_filt a i;
               y ← ndb_filter_get_id_element b_filt b i; Some (memcmp x y =? 0)
           | ELEM_INT =>
               x ← ndb_filter_get_int_element a i;
               y ← ndb_filter_get_int_element b i; Some (x =? y)
           end;
      if (eq : bool) then field_eq_loop a_filt a b_filt b (S i) k else Some false
  end.

Definition ndb_filter_field_eq (a_filt : filter) (a : field) (b_filt : filter) (b : field) :
    option bool :=
  if negb (f_count a =? f_count b) then Some false
  else if negb (bool_decide (f_type a = f_type b)) then Some false
  else if negb (bool_decide (f_elem a = f_elem b)) then Some false
  else if bool_decide (f_elem a = ELEM_UNKNOWN) then Some false
  else field_eq_loop a_filt a b_filt b 0 (length (elements a)).

(** Every field of [fs] has an equal field, of the filter [b], found by type. *)
Fixpoint fields_found (a_filt : filter) (fs : list field) (b_filt : filter) (flip : bool) :
    option bool :=
  match fs with
  | [] => Some true
  | f :: fs =>
      match ndb_filter_find_elements b_filt (f_type f) with
      | None => Some false
      | Some g =>
          eq ← (if flip then ndb_filter_field_eq b_filt g a_filt f
                else ndb_filter_field_eq a_filt f b_filt g);
          if (eq : bool) then fields_found a_filt fs b_filt flip else Some false
      end
  end.

Definition ndb_filter_eq (a b : filter) : option bool :=
  if negb (zlen (fields a) =? zlen (fields b)) then Some false
  else fields_found a (fields a) b false.

Definition ndb_filter_is_subset_of (a b : filter) : option bool :=
  if zlen (fields b) =? 0 then Some true
  else if zlen (fields a) <? zlen (fields b) then Some false
  else if zlen (fields b) =? zlen (fields a) then ndb_filter_eq a b
  else fields_found b (fields b) a true.

(** ** Filters as JSON *)

Fixpoint push_elem_array_loop (flt : filter) (f : field) (i k : nat) : CM bool :=
  match k with
  | O => ret true
  | S k =>
      (match f_elem f with
       | ELEM_CUSTOM => ret true
       | ELEM_STRING =>
           let* s := lift (ndb_filter_get_string_element flt f i) in cursor_push_jsonstr s
       | ELEM_ID =>
           let* id := lift (ndb_filter_get_id_element flt f i) in cursor_push_hex_str id
       | ELEM_INT =>
           let* v := lift (ndb_filter_get_int_element f i) in cursor_push_int_str v
       | ELEM_UNKNOWN => ret false
       end) &&*
      (if negb (Z.of_nat i =? f_count f - 1) then cursor_push_byte 44 else ret true) &&*
      push_elem_array_loop flt f (S i) k
  end.

Definition cursor_push_json_elem_array (flt : filter) (f : field) : CM bool :=
  cursor_push_byte 91 &&*
  push_elem_array_loop flt f 0 (length (elements f)) &&*
  cursor_push_str [93].

Definition field_key (name : String.string) : list Z := [DQ] ++ bytes_of name ++ [DQ; 58].

Definition push_int0 (f : field) : CM bool :=
  let* v := lift (ndb_filter_get_int_element f 0) in cursor_push_int_str v.

Definition push_filter_field (flt : filter) (f : field) : CM bool :=
  match f_type f with
  | CUSTOM => ret true
  | IDS => cursor_push_str (field_key "ids"%string) &&* cursor_push_json_elem_array flt f
  | SEARCH =>
      cursor_push_str (field_key "search"%string) &&*
      (let* s := lift (ndb_filter_get_string_element flt f 0) in cursor_push_jsonstr s)
  | AUTHORS => cursor_push_str (field_key "authors"%string) &&* cursor_push_json_elem_array flt f
  | KINDS => cursor_push_str (field_key "kinds"%string) &&* cursor_push_json_elem_array flt f
  | TAGS =>
      cursor_push_str [DQ; 35] &&* cursor_push_byte (u8 (f_tag f)) &&* cursor_push_str [DQ; 58] &&*
      cursor_push_json_elem_array flt f
  | SINCE => cursor_push_str (field_key "since"%string) &&* push_int0 f
  | UNTIL => cursor_push_str (field_key "until"%string) &&* push_int0 f
  | LIMIT => cursor_push_str (field_key "limit"%string) &&* push_int0 f
  | RELAYS => cursor_push_str (field_key "relays"%string) &&* cursor_push_json_elem_array flt f
  end.

Fixpoint push_filter_fields (flt : filter) (n i : Z) (fs : list field) : CM bool :=
  match fs with
  | [] => ret true
  | f :: fs =>
      push_filter_field flt f &&*
      (if negb (i =? n - 1) then cursor_push_byte 44 else ret true) &&*
      push_filter_fields flt n (i + 1) fs
  end.

Definition ndb_filter_json (flt : filter) : CM Z :=
  if negb (finalized flt) then ret 0
  else
    written
      (cursor_push_str [123] &&*
       push_filter_fields flt (zlen (fields flt)) 0 (fields flt) &&*
       cursor_push_c_str (Some [125])).

(** * Lemmas *)

(** ** Sorting and searching *)

Lemma bsearch_loop_spec cmp l cs :
  mapM cmp l = Some cs ->
  (forall i j a b, (i <= j)%nat -> cs !! i = Some a -> cs !! j = Some b ->
     (a < 0 -> b < 0) /\ (0 < b -> 0 < a)) ->
  forall fuel lo hi, 0 <= lo -> hi <= zlen l -> hi - lo < Z.of_nat fuel ->
  (forall i a, cs !! i = Some a -> Z.of_nat i < lo -> 0 < a) ->
  (forall i a, cs !! i = Some a -> hi <= Z.of_nat i -> a < 0) ->
  bsearch_loop fuel cmp l lo hi = Some (existsb (Z.eqb 0) cs).
Proof.
  intros Hm Hs. pose proof (length_mapM _ _ _ Hm) as Hlen.
  induction fuel as [| fuel IH]; intros lo hi Hlo Hhi Hf Hl Hh.
  - cbn [bsearch_loop]. f_equal. symmetry. apply not_true_is_false. intros E.
    apply existsb_exists in E as (x & Hx & E). apply Z.eqb_eq in E. subst x.
    apply list_elem_of_In, list_elem_of_lookup in Hx as [i Hi].
    destruct (Z.lt_ge_cases (Z.of_nat i) lo); [specialize (Hl i 0 Hi); lia |].
    specialize (Hh i 0 Hi). lia.
  - cbn [bsearch_loop]. destruct (Z.ltb_spec lo hi) as [L | L].
    + assert (M : lo <= (lo + hi) / 2 < hi).
      { split; [apply Z.div_le_lower_bound; lia | apply Z.div_lt_upper_bound; lia]. }
      set (mid := (lo + hi) / 2) in *.
      destruct (lookup_lt_is_Some_2 l (Z.to_nat mid)) as [x Ex]; [unfold zlen in *; lia |].
      rewrite Ex. cbn [mbind option_bind].
      apply mapM_Some in Hm. destruct (Forall2_lookup_l _ _ _ _ _ Hm Ex) as (c & Ec & Exc).
      rewrite Exc. cbn [mbind option_bind].
      destruct (Z.ltb_spec c 0); [| destruct (Z.ltb_spec 0 c)].
      * apply IH; try lia; [done |]. intros i a Ha Hi.
        destruct (Hs (Z.to_nat mid) i c a ltac:(lia) Ec Ha). lia.
      * apply IH; try lia; [| done]. intros i a Ha Hi.
        destruct (Hs i (Z.to_nat mid) a c ltac:(lia) Ha Ec). lia.
      * f_equal. symmetry. apply existsb_exists. exists c. split; [| lia].
        apply list_elem_of_In, list_elem_of_lookup. eauto.
    + f_equal. symmetry. apply not_true_is_false. intros E.
      apply existsb_exists in E as (x & Hx & E). apply Z.eqb_eq in E. subst x.
      apply list_elem_of_In, list_elem_of_lookup in Hx as [i Hi].
      destruct (Z.lt_ge_cases (Z.of_nat i) lo); [specialize (Hl i 0 Hi); lia |].
      specialize (Hh i 0 Hi). lia.
Qed.

Lemma sorted_lookup {K} (R : K -> K -> Prop) l : StronglySorted R l ->
  forall i j x y, (i < j)%nat -> l !! i = Some x -> l !! j = Some y -> R x y.
Proof.
  induction 1 as [| a l Hs IH Hf]; intros i j x y Hij Hx Hy; [done |].
  destruct j as [| j]; [lia |]. destruct i as [| i]; simpl in Hx, Hy.
  - injection Hx as ->. by apply (Forall_lookup_1 _ _ _ _ Hf Hy).
  - eapply (IH i j); eauto. lia.
Qed.

(** An order on elements through their keys. *)
Section sorting.
Context {K : Type} (c : K -> K -> comparison) `{!TotalCmp c} (key : Z -> option K).

Definition key_le (a b : K) : Prop := c a b <> Gt.
Definition keyed (l : list Z) (ks : list K) : Prop := Forall2 (fun e k => key e = Some k) l ks.
Definition cmp_on (a b : Z) : option Z := x ← key a; y ← key b; Some (sgn (c x y)).

Lemma key_le_trans a b d : key_le a b -> key_le b d -> key_le a d.
Proof.
  unfold key_le. intros H1 H2 H3.
  destruct (c a b) eqn:E1; [| | done].
  - apply (cmp_eq (cmp := c)) in E1 as ->. done.
  - destruct (c b d) eqn:E2; [| | done].
    + apply (cmp_eq (cmp := c)) in E2 as ->. congruence.
    + rewrite (cmp_trans (cmp := c) a b d E1 E2) in H3. done.
Qed.

Lemma qinsert_spec e k : forall l ks,
  key e = Some k -> keyed l ks -> StronglySorted key_le ks ->
  exists l' ks', qinsert cmp_on e l = Some l' /\ keyed l' ks' /\ StronglySorted key_le ks' /\
    l' ≡ₚ e :: l /\ ks' ≡ₚ k :: ks.
Proof.
  induction l as [| y l IH]; intros ks Ek Hk Hs.
  - apply Forall2_nil_inv_l in Hk as ->. exists [e], [k]. split; [done |]. split; [by repeat constructor |].
    split; [by repeat constructor | done].
  - apply Forall2_cons_inv_l in Hk as (ky & ks0 & Ey & Hk' & ->).
    apply StronglySorted_inv in Hs as [Hs Hf].
    assert (Ec : cmp_on e y = Some (sgn (c k ky))) by (unfold cmp_on; by rewrite Ek, Ey).
    cbn [qinsert]. rewrite Ec. cbn [mbind option_bind].
    destruct (Z.ltb_spec 0 (sgn (c k ky))) as [L | L].
    + destruct (IH ks0 Ek Hk' Hs) as (l1 & ks1 & E & K1 & S1 & P1 & P2).
      exists (y :: l1), (ky :: ks1). rewrite E. split; [done |]. split; [by constructor |].
      split; [| split; [by rewrite P1, Permutation_swap | by rewrite P2, Permutation_swap]].
      constructor; [done |]. rewrite P2. constructor; [| done].
      unfold key_le. intros Hgt. rewrite (cmp_antisym (cmp := c)) in Hgt.
      destruct (c k ky); simpl in *; try discriminate; lia.
    + exists (e :: y :: l), (k :: ky :: ks0). split; [done |]. split; [by repeat constructor |].
      split; [| done]. assert (key_le k ky).
      { unfold key_le. intros Hgt. rewrite Hgt in L. simpl in L. lia. }
      constructor; [by constructor |]. constructor; [done |].
      apply (Forall_impl _ _ _ Hf). intros d Hd. by eapply key_le_trans.
Qed.

Lemma qsort_spec l : forall ks,
  keyed l ks ->
  exists l' ks', qsort cmp_on l = Some l' /\ keyed l' ks' /\ StronglySorted key_le ks' /\
    l' ≡ₚ l /\ ks' ≡ₚ ks.
Proof.
  induction l as [| e l IH]; intros ks Hk.
  - apply Forall2_nil_inv_l in Hk as ->. exists [], []. split; [done |]. split; [constructor | split; [constructor | done]].
  - apply Forall2_cons_inv_l in Hk as (k & ks0 & Ek & Hk & ->).
    destruct (IH _ Hk) as (l1 & ks1 & E & K1 & S1 & P1 & P2).
    destruct (qinsert_spec e k l1 ks1 Ek K1 S1) as (l2 & ks2 & E2 & K2 & S2 & P3 & P4).
    exists l2, ks2. cbn [qsort]. rewrite E. split; [done |]. split; [done |]. split; [done |].
    by rewrite P3, P4, P1, P2.
Qed.

(** Searching sorted elements decides membership of the key. *)
Lemma bsearch_spec `{EqDecision K} l ks (k : K) :
  keyed l ks -> StronglySorted key_le ks ->
  bsearch (fun e => x ← key e; Some (sgn (c k x))) l = Some (bool_decide (k ∈ ks)).
Proof.
  intros Hk Hs. unfold bsearch.
  pose proof (Forall2_length _ _ _ Hk) as Hlen.
  rewrite (bsearch_loop_spec _ l (map (fun x => sgn (c k x)) ks)); [| | | lia | lia | unfold zlen; lia | |].
  - f_equal. apply eq_bool_prop_intro. rewrite bool_decide_spec. rewrite Is_true_true, existsb_exists.
    split.
    + intros (z & Hz & E). apply Z.eqb_eq in E. apply in_map_iff in Hz as (x & Ex & Hx).
      assert (c k x = Eq) as ->%(cmp_eq (cmp := c)) by (destruct (c k x); simpl in *; congruence || lia || done).
      by apply list_elem_of_In.
    + intros Hx. exists 0. split; [| done]. apply in_map_iff. exists k.
      split; [by rewrite (cmp_refl c) | by apply list_elem_of_In].
  - clear Hs Hlen. induction Hk as [| e x l ks Ee _ IH]; [done |].
    cbn [mapM map]. rewrite Ee. cbn [mbind option_bind]. rewrite IH. done.
  - intros i j a b Hij Ha Hb. rewrite list_lookup_fmap in Ha, Hb.
    destruct (ks !! i) as [x |] eqn:Ei; [| done]. destruct (ks !! j) as [y |] eqn:Ej; [| done].
    injection Ha as <-. injection Hb as <-.
    assert (Hxy : i = j \/ key_le x y).
    { destruct (decide (i = j)); [by left | right]. apply (sorted_lookup _ _ Hs i j); [lia | done | done]. }
    destruct Hxy as [-> | Hxy]; [simplify_eq; lia |].
    unfold key_le in Hxy. destruct (c x y) eqn:E; [| | done].
    { apply (cmp_eq (cmp := c)) in E as ->. lia. }
    pose proof (cmp_trans (cmp := c) k x y) as T1. pose proof (cmp_trans (cmp := c) x y k) as T2.
    rewrite (cmp_antisym (cmp := c) k y), (cmp_antisym (cmp := c) k x) in T2.
    destruct (c k x), (c k y); simpl in *; lia || (exfalso; intuition congruence) || (split; intros; try lia; intuition congruence).
  - intros i a _ Hi. lia.
  - intros i a Ha Hi. apply lookup_lt_Some in Ha. rewrite length_map in Ha. unfold zlen in Hi. lia.
Qed.
End sorting.

(** ** What a field declares

    The abstract filter: fields with their values, in the order the caller gave
    them. *)

Inductive key := KId (id : list Z) | KStr (s : list Z) | KInt (i : Z) | KCustom (c : list Z).

#[export] Instance key_eq_dec : EqDecision key.
Proof. solve_decision. Defined.

Record afield := mk_afield { a_type : fieldtype; a_tag : Z; a_keys : list key }.

(** A note as a filter sees it: fields, the tags with the flag of each string,
    the relays it was seen on, and what a custom callback says of it. *)
Record fnote := mk_fnote {
  n_id : list Z; n_pubkey : list Z; n_kind : Z; n_created_at : Z;
  n_tags : list (list (Z * elem)); n_relays : list (list Z); n_custom : list Z -> bool }.

(** A tag of the note answers a declared tag field. *)
Definition tag_meaning (a : afield) (t : list (Z * elem)) : bool :=
  match t with
  | (f0, EStr [c]) :: (f1, e) :: _ =>
      (f0 =? NDB_PACKED_STR) && (c =? u8 (a_tag a)) &&
      match e with
      | EId id => bool_decide (KId id ∈ a_keys a)
      | EStr s => bool_decide (KStr s ∈ a_keys a)
      end
  | _ => false
  end.

(** The meaning of a declared field. *)
Definition meaning (n : fnote) (a : afield) : bool :=
  match a_type a with
  | IDS => bool_decide (KId (n_id n) ∈ a_keys a)
  | AUTHORS => bool_decide (KId (n_pubkey n) ∈ a_keys a)
  | KINDS => bool_decide (KInt (n_kind n) ∈ a_keys a)
  | TAGS => existsb (tag_meaning a) (n_tags n)
  | SINCE => match a_keys a with KInt t :: _ => t <=? n_created_at n | _ => false end
  | UNTIL => match a_keys a with KInt t :: _ => n_created_at n <? t | _ => false end
  | RELAYS => existsb (fun r => bool_decide (KStr r ∈ a_keys a)) (n_relays n)
  | LIMIT | SEARCH => true
  | CUSTOM => match a_keys a with KCustom c :: _ => n_custom n c | _ => false end
  end.

(** ** Representation *)

Definition elem_rep (d : list Z) (et : elemtype) (e : Z) (k : key) : Prop :=
  match et, k with
  | ELEM_ID, KId id => 0 <= e < 2 ^ 31 /\ loadn d e 32 = Some id
  | ELEM_STRING, KStr s => 0 <= e < 2 ^ 31 /\ c_string d e = Some s
  | ELEM_INT, KInt i => e = i /\ is_u64 i
  | ELEM_CUSTOM, KCustom c => 0 <= e < 2 ^ 31 /\ loadn d e 16 = Some c
  | _, _ => False
  end.

Definition key_bytes (k : key) : list Z :=
  match k with KId b | KStr b | KCustom b => b | KInt _ => [] end.
Definition key_int (k : key) : Z := match k with KInt i => i | _ => 0 end.

Definition sorted_keys (t : fieldtype) (ks : list key) : Prop :=
  match t with
  | IDS | AUTHORS | RELAYS => StronglySorted (key_le bytes_cmp) (map key_bytes ks)
  | KINDS => StronglySorted (key_le Z.compare) (map key_int ks)
  | _ => True
  end.

(** The values a field type admits. *)
Definition key_ok (t : fieldtype) (k : key) : Prop :=
  match t, k with
  | (IDS | AUTHORS), KId id => zlen id = 32
  | TAGS, KId id => zlen id = 32
  | (TAGS | RELAYS | SEARCH), KStr s => no_nul s
  | KINDS, KInt i => is_u32 i
  | (SINCE | UNTIL | LIMIT), KInt i => is_u64 i
  | CUSTOM, KCustom c => zlen c = 16
  | _, _ => False
  end.

Definition key_elem (k : key) : elemtype :=
  match k with
  | KId _ => ELEM_ID | KStr _ => ELEM_STRING | KInt _ => ELEM_INT | KCustom _ => ELEM_CUSTOM
  end.

Definition single (t : fieldtype) : bool :=
  match t with SINCE | UNTIL | LIMIT | SEARCH | CUSTOM => true | _ => false end.

(** The fields whose elements are sorted as pointers. *)
Definition sorted_ptrs (t : fieldtype) : bool :=
  match t with IDS | AUTHORS | RELAYS => true | _ => false end.

Record afield_ok (a : afield) : Prop := {
  ao_keys : Forall (key_ok (a_type a)) (a_keys a);
  ao_uniform : forall k1 k2, k1 ∈ a_keys a -> k2 ∈ a_keys a -> key_elem k1 = key_elem k2;
  ao_single : single (a_type a) = true -> zlen (a_keys a) = 1;
  ao_tag : a_type a = TAGS -> u8 (a_tag a) <> 0;
  ao_some : sorted_ptrs (a_type a) = true -> a_keys a <> []
}.

Record field_rep (d : list Z) (f : field) (a : afield) : Prop := {
  fr_type : f_type f = a_type a;
  fr_tag : a_type a = TAGS -> f_tag f = a_tag a;
  fr_elem : f_elem f = ELEM_UNKNOWN -> elements f = [];
  fr_keys : exists ks, ks ≡ₚ a_keys a /\ Forall2 (elem_rep d (f_elem f)) (elements f) ks /\
    sorted_keys (f_type f) ks
}.

(** ** Reading elements *)

Section reading.
Context (flt : filter) (Hd : zlen (data flt) < 2 ^ 31).

Lemma elements_data_ok e :
  0 <= e <= zlen (data flt) -> ndb_filter_elements_data flt e = Some e.
Proof.
  intros H. unfold ndb_filter_elements_data, i32.
  rewrite Z.mod_small by lia. replace (e + 2 ^ 31 - 2 ^ 31) with e by lia.
  destruct (Z.ltb_spec e 0), (Z.ltb_spec (zlen (data flt)) e); simpl; try lia. done.
Qed.

Lemma id_at_rep e id : elem_rep (data flt) ELEM_ID e (KId id) -> id_at flt e = Some id.
Proof.
  intros [Hr L]. unfold id_at. pose proof L as (?&?&?&_)%loadn_Some.
  rewrite elements_data_ok by lia. done.
Qed.

Lemma str_at_rep e s : elem_rep (data flt) ELEM_STRING e (KStr s) -> str_at flt e = Some s.
Proof.
  intros [Hr L]. unfold str_at. pose proof L as [_ (?&?&?&_)%loadn_Some]%c_string_inv.
  pose proof (zlen_nonneg (s ++ [0])). rewrite elements_data_ok by lia. done.
Qed.

Lemma custom_at_rep e c : elem_rep (data flt) ELEM_CUSTOM e (KCustom c) -> custom_at flt e = Some c.
Proof.
  intros [Hr L]. unfold custom_at. pose proof L as (?&?&?&_)%loadn_Some.
  rewrite elements_data_ok by lia. done.
Qed.

(** Elements of one type, as keyed lists for sorting and searching. *)
Lemma ids_keyed es ks :
  Forall2 (elem_rep (data flt) ELEM_ID) es ks ->
  keyed (id_at flt) es (map key_bytes ks) /\ map KId (map key_bytes ks) = ks /\
  Forall (fun id => zlen id = 32) (map key_bytes ks).
Proof.
  induction 1 as [| e k es ks E _ (IH1 & IH2 & IH3)]; [repeat constructor |].
  destruct k; simpl in E; try done. simpl.
  split; [constructor; [by apply id_at_rep | done] |]. split; [by rewrite IH2 |].
  constructor; [| done]. destruct E as [_ E]. by apply loadn_length in E.
Qed.

Lemma strs_keyed es ks :
  Forall2 (elem_rep (data flt) ELEM_STRING) es ks ->
  keyed (str_at flt) es (map key_bytes ks) /\ map KStr (map key_bytes ks) = ks.
Proof.
  induction 1 as [| e k es ks E _ (IH1 & IH2)]; [repeat constructor |].
  destruct k; simpl in E; try done. simpl.
  split; [constructor; [by apply str_at_rep | done] | by rewrite IH2].
Qed.

Lemma ints_keyed es ks :
  Forall2 (elem_rep (data flt) ELEM_INT) es ks ->
  keyed Some es (map key_int ks) /\ map KInt (map key_int ks) = ks /\ es = map key_int ks /\
  Forall is_u64 es.
Proof.
  induction 1 as [| e k es ks E _ (IH1 & IH2 & IH3 & IH4)]; [repeat constructor |].
  destruct k; simpl in E; try done. destruct E as [-> R]. simpl.
  split; [by constructor |]. split; [by rewrite IH2 |]. split; [by rewrite <- IH3 |].
  by constructor.
Qed.

Lemma elem_in_map {A} (C : A -> key) (l : list A) x :
  (forall a b, C a = C b -> a = b) -> C x ∈ map C l <-> x ∈ l.
Proof.
  intros Inj. rewrite list_elem_of_fmap. split; [| by eauto].
  by intros (y & ->%Inj & ?).
Qed.

Lemma bsearch_ext cmp1 cmp2 (es : list Z) :
  (forall i x, es !! i = Some x -> cmp1 x = cmp2 x) -> bsearch cmp1 es = bsearch cmp2 es.
Proof.
  intros H. unfold bsearch. generalize 0, (zlen es), (Datatypes.S (length es)). intros lo hi n.
  revert lo hi. induction n as [| n IH]; intros lo hi; [done |]. cbn [bsearch_loop].
  destruct (lo <? hi); [| done]. destruct (es !! Z.to_nat ((lo + hi) / 2)) as [x |] eqn:Ex; [| done].
  cbn [mbind option_bind]. rewrite (H _ _ Ex). destruct (cmp2 x); [| done]. cbn [mbind option_bind].
  destruct (_ <? 0); [apply IH |]. destruct (0 <? _); [apply IH | done].
Qed.

(** Binary search over a sorted field decides membership. *)
Lemma search_ids_spec es ks id :
  Forall2 (elem_rep (data flt) ELEM_ID) es ks -> zlen id = 32 ->
  StronglySorted (key_le bytes_cmp) (map key_bytes ks) ->
  bsearch (search_ids flt id) es = Some (bool_decide (KId id ∈ ks)).
Proof.
  intros F L S. destruct (ids_keyed es ks F) as (K & E & L32).
  rewrite (bsearch_ext _ (fun e => x ← id_at flt e; Some (sgn (bytes_cmp id x)))).
  2: { intros i x Ex. destruct (Forall2_lookup_l _ _ _ _ _ F Ex) as (k & Ek & Rk).
       destruct k; simpl in Rk; try done. pose proof (id_at_rep _ _ Rk) as Ei. destruct Rk as [Rr Rl].
       unfold search_ids. assert (Hu : u32 x = x) by (apply Z.mod_small; lia).
       rewrite Hu, Ei. cbn [mbind option_bind].
       rewrite memcmp_sgn; [done |]. apply loadn_length in Rl. unfold zlen in *. lia. }
  rewrite (bsearch_spec bytes_cmp (id_at flt) es (map key_bytes ks)) by done.
  f_equal. apply bool_decide_ext. rewrite <- E at 2.
  symmetry. apply elem_in_map. by intros ?? [=].
Qed.

Lemma search_strs_spec es ks s :
  Forall2 (elem_rep (data flt) ELEM_STRING) es ks ->
  StronglySorted (key_le bytes_cmp) (map key_bytes ks) ->
  bsearch (search_strs flt s) es = Some (bool_decide (KStr s ∈ ks)).
Proof.
  intros F S. destruct (strs_keyed es ks F) as (K & E).
  rewrite (bsearch_ext _ (fun e => x ← str_at flt e; Some (sgn (bytes_cmp s x)))).
  2: { intros i x Ex. destruct (Forall2_lookup_l _ _ _ _ _ F Ex) as (k & Ek & Rk).
       destruct k; simpl in Rk; try done. destruct Rk as [Rr _].
       unfold search_strs. assert (Hu : u32 x = x) by (apply Z.mod_small; lia). by rewrite Hu. }
  rewrite (bsearch_spec bytes_cmp (str_at flt) es (map key_bytes ks)) by done.
  f_equal. apply bool_decide_ext. rewrite <- E at 2.
  symmetry. apply elem_in_map. by intros ?? [=].
Qed.
End reading.

(** ** Matching *)

Definition raw_of (m : mem) (s : ndb_str) : option (Z * elem) :=
  e ← elem_of_str m s; Some (flag s, e).

Definition raw_tag (m : mem) (note tag : Z) : option (list (Z * elem)) :=
  n ← ndb_tag_count m tag;
  mapM (fun j => s ← ndb_tag_str m note tag j; raw_of m s) (seqZ 0 n).

(** The tags the iterator visits, with the flags of their strings. *)
Fixpoint raw_tags_loop (fuel : nat) (m : mem) (it : ndb_iterator) :
    option (list (list (Z * elem))) :=
  match fuel with
  | O => None
  | S fuel =>
      r ← ndb_tags_iterate_next m it;
      if (fst r : bool) then
        tag ← iter_tag (snd r);
        t ← raw_tag m (iter_note it) tag;
        ts ← raw_tags_loop fuel m (snd r);
        Some (t :: ts)
      else Some []
  end.

Definition raw_tags (m : mem) (note : Z) : option (list (list (Z * elem))) :=
  count ← ndb_tags_count m (ndb_note_tags note);
  raw_tags_loop (S (Z.to_nat count)) m (ndb_tags_iterate_start note).

(** What the matcher reads of a note. *)
Record note_reads (cb : list Z -> mem -> Z -> bool) (m : mem) (note : Z) (n : fnote) : Prop := {
  nr_bytes : bytes_ok m;
  nr_id : loadn m (ndb_note_id note) 32 = Some (n_id n);
  nr_pubkey : loadn m (ndb_note_pubkey note) 32 = Some (n_pubkey n);
  nr_kind : load_u32 m (note + off.kind) = Some (n_kind n);
  nr_created : load_u64 m (note + off.created_at) = Some (n_created_at n);
  nr_tags : raw_tags m note = Some (n_tags n);
  nr_custom : forall c, cb c m note = n_custom n c
}.

Section tags.
Context (flt : filter) (Hd : zlen (data flt) < 2 ^ 31) (m : mem) (f : field) (a : afield).
Hypothesis (R : field_rep (data flt) f a) (Oa : afield_ok a) (Ht : a_type a = TAGS).

Lemma memcmp_eq0 x y : zlen x = zlen y -> (memcmp x y =? 0) = bool_decide (x = y).
Proof.
  intros H. apply eq_bool_prop_intro. rewrite bool_decide_spec, Is_true_true, Z.eqb_eq.
  apply memcmp_zero. unfold zlen in H. lia.
Qed.

Lemma strcmp_eq0 x y : (strcmp x y =? 0) = bool_decide (x = y).
Proof.
  unfold strcmp. case_bool_decide as H.
  - subst. by rewrite (cmp_refl bytes_cmp).
  - destruct (bytes_cmp x y) eqn:E; try done. by apply (cmp_eq (cmp := bytes_cmp)) in E.
Qed.

Definition key_of (e : elem) : key := match e with EId id => KId id | EStr s => KStr s end.

(** The loop over the elements: is the value of the tag one of the keys? *)
Lemma tag_value_in_spec s e ks : forall k i,
  elem_of_str m s = Some e -> f_elem f = key_elem (key_of e) ->
  (flag s =? NDB_PACKED_ID) = match e with EId _ => true | _ => false end ->
  Forall2 (elem_rep (data flt) (f_elem f)) (drop i (elements f)) ks -> k = length ks ->
  tag_value_in flt m f s i k = Some (bool_decide (key_of e ∈ ks)).
Proof.
  induction ks as [| k0 ks IH]; intros k i Es Et Fl F ->; [done |].
  apply Forall2_cons_inv_r in F as (el & es & Rk & F & Edrop).
  assert (Ei : elements f !! i = Some el).
  { rewrite <- (Nat.add_0_r i), <- lookup_drop, Edrop. done. }
  assert (F' : Forall2 (elem_rep (data flt) (f_elem f)) (drop (Datatypes.S i) (elements f)) ks).
  { assert (Ed : drop (Datatypes.S i) (elements f) = es).
    { replace (Datatypes.S i) with (i + 1)%nat by lia. rewrite <- drop_drop, Edrop. done. }
    by rewrite Ed. }
  specialize (IH _ (Datatypes.S i) Es Et Fl F' eq_refl). cbn [length tag_value_in]. rewrite Et.
  unfold elem_of_str in Es. rewrite Fl in Es. rewrite Et in Rk.
  destruct e as [v | v]; cbn [key_of key_elem] in *.
  - destruct k0 as [| s0 | |]; simpl in Rk; try done.
    unfold ndb_filter_get_string_element. rewrite Ei. cbn [mbind option_bind].
    rewrite (str_at_rep flt Hd _ _ Rk). cbn [mbind option_bind].
    destruct (c_string m (Note.str s)) as [v' |] eqn:Ev; simpl in Es; [| done]. injection Es as ->.
    cbn [mbind option_bind]. rewrite strcmp_eq0. destruct (decide (s0 = v)) as [C | C].
    + rewrite !bool_decide_eq_true_2; [done | apply elem_of_cons; left; congruence | done].
    + rewrite (bool_decide_eq_false_2 (s0 = v)) by done. rewrite IH. f_equal. apply bool_decide_ext. rewrite elem_of_cons.
      split; [intros ?; by right | intros [E |]; [congruence | done]].
  - destruct k0 as [s0 | | |]; simpl in Rk; try done.
    unfold ndb_filter_get_id_element. rewrite Ei. cbn [mbind option_bind].
    rewrite (id_at_rep flt Hd _ _ Rk). cbn [mbind option_bind].
    destruct (loadn m (Note.str s) 32) as [v' |] eqn:Ev; simpl in Es; [| done]. injection Es as ->.
    cbn [mbind option_bind]. destruct Rk as [_ Rk].
    rewrite memcmp_eq0 by (apply loadn_length in Rk, Ev; lia).
    destruct (decide (s0 = v)) as [C | C].
    + rewrite !bool_decide_eq_true_2; [done | apply elem_of_cons; left; congruence | done].
    + rewrite (bool_decide_eq_false_2 (s0 = v)) by done. rewrite IH. f_equal. apply bool_decide_ext. rewrite elem_of_cons.
      split; [intros ?; by right | intros [E |]; [congruence | done]].
Qed.

(** The keys of a tag field are all ids or all strings, as its element type
    says. *)
Lemma tag_keys_elem k : k ∈ a_keys a -> f_elem f = key_elem k.
Proof.
  intros Hk. destruct (fr_keys _ _ _ R) as (ks & P & F & _). rewrite <- P in Hk.
  apply list_elem_of_lookup in Hk as [i Hi].
  destruct (Forall2_lookup_r _ _ _ _ _ F Hi) as (e & _ & Rk).
  destruct (f_elem f), k; simpl in Rk; done.
Qed.

(** A string that is not packed inline starts neither with a letter. *)
Lemma step_reads note tag t :
  raw_tag m note tag = Some t ->
  exists n, ndb_tag_count m tag = Some n /\ zlen t = Z.max 0 n /\
    forall (j : nat) r, t !! j = Some r ->
      exists s, ndb_tag_str m note tag (Z.of_nat j) = Some s /\ raw_of m s = Some r.
Proof.
  unfold raw_tag. intros H. destruct (ndb_tag_count m tag) as [n |]; simpl in H; [| done].
  exists n. split; [done |]. pose proof (length_mapM _ _ _ H) as L. rewrite length_seqZ in L.
  split; [unfold zlen; lia |]. intros j r Hj. apply mapM_Some in H.
  destruct (Forall2_lookup_r _ _ _ _ _ H Hj) as (x & Ex & E).
  apply lookup_seqZ in Ex as [-> _]. rewrite Z.add_0_l in E.
  destruct (ndb_tag_str m note tag (Z.of_nat j)) as [s |]; simpl in E; [| done]. eauto.
Qed.

Lemma raw_of_inv s fl e :
  raw_of m s = Some (fl, e) -> flag s = fl /\ elem_of_str m s = Some e /\
  (flag s =? NDB_PACKED_ID) = match e with EId _ => true | _ => false end.
Proof.
  unfold raw_of. intros H. destruct (elem_of_str m s) as [e' |] eqn:E; simpl in H; [| done].
  injection H as <- <-. split; [done |]. split; [done |].
  unfold elem_of_str in E. destruct (flag s =? NDB_PACKED_ID).
  - destruct (loadn m (Note.str s) 32); simpl in E; [| done]. by injection E as <-.
  - destruct (c_string m (Note.str s)); simpl in E; [| done]. by injection E as <-.
Qed.

(** An inline string is read in place, inside its four bytes. *)
Lemma inline_str note tag i s c0 :
  ndb_tag_str m note tag i = Some s -> flag s = NDB_PACKED_STR -> load8 m (Note.str s) = Some c0 ->
  exists c1, load8 m (Note.str s + 1) = Some c1.
Proof.
  unfold ndb_tag_str, ndb_note_str. intros H Hf E0.
  destruct (load8 m (tag + 2 + 4 * i + 3)) as [fl |] eqn:E3; simpl in H; [| done].
  destruct (Z.eqb_spec fl NDB_PACKED_STR) as [-> |].
  - injection H as <-. cbn [Note.str] in *. pose proof (load8_Some_range _ _ _ E3).
    pose proof (load8_Some_range _ _ _ E0). apply load8_is_Some. lia.
  - destruct (load_u32 m (note + off.strings)); simpl in H; [| done].
    destruct (load_u32 m _); simpl in H; [| done]. injection H as <-. done.
Qed.

(** The first two bytes of a C string. *)
Lemma c_string_head s x c1 :
  c_string m s = Some x -> load8 m (s + 1) = Some c1 ->
  exists c0, load8 m s = Some c0 /\
    (c0 = 0 <-> x = []) /\ (forall c, c <> 0 -> (c0 = c /\ c1 = 0 <-> x = [c])).
Proof.
  intros H E1. apply c_string_inv in H as [N L].
  destruct x as [| z x]; cbn [app] in L; apply loadn_cons in L as [L0 L].
  - exists 0. split; [done |]. split; [done |]. intros c Hc. split; [lia | done].
  - apply Forall_cons_iff in N as [Na N]. exists z. split; [done |]. split; [done |].
    intros c Hc. destruct x as [| b x]; cbn [app] in L; apply loadn_cons in L as [L1 _];
      rewrite E1 in L1; injection L1 as ->.
    + split; [intros [-> _]; done | intros [= ->]; done].
    + apply Forall_cons_iff in N as [Nb _]. split; [lia | done].
Qed.

Lemma value_meaning s e :
  elem_of_str m s = Some e -> f_elem f = key_elem (key_of e) ->
  (flag s =? NDB_PACKED_ID) = match e with EId _ => true | _ => false end ->
  tag_value_in flt m f s 0 (length (elements f)) = Some (bool_decide (key_of e ∈ a_keys a)).
Proof.
  intros Es Et Fl. destruct (fr_keys _ _ _ R) as (ks & P & F & _).
  rewrite (tag_value_in_spec s e ks); [| done | done | done | by rewrite drop_0 | by apply Forall2_length in F].
  f_equal. apply bool_decide_ext. by rewrite P.
Qed.

Lemma tag_filter_step_spec note tag t :
  raw_tag m note tag = Some t ->
  exists r, tag_filter_step flt f m note tag = Some r /\
    (r = TagMatch <-> tag_meaning a t = true) /\ (r = TagStop -> a_keys a = []).
Proof.
  intros Hr. destruct (step_reads note tag t Hr) as (n & Ec & En & Rd).
  unfold tag_filter_step. rewrite Ec. cbn [mbind option_bind].
  destruct t as [| [f0 e0] t].
  { destruct (Z.ltb_spec n 2); [| rewrite zlen_nil in En; lia]. exists TagSkip. done. }
  destruct t as [| [f1 e1] t].
  { destruct (Z.ltb_spec n 2); [| rewrite zlen_cons, zlen_nil in En; lia]. exists TagSkip.
    split; [done |]. split; [| done]. split; [done |].
    simpl. destruct e0 as [[| c [| ]] |]; done. }
  destruct (Z.ltb_spec n 2); [rewrite !zlen_cons in En; pose proof (zlen_nonneg t); lia |].
  destruct (Rd 0%nat _ eq_refl) as (s0 & E0 & Q0). destruct (Rd 1%nat _ eq_refl) as (s1 & E1 & Q1).
  change (Z.of_nat 0) with 0 in E0. change (Z.of_nat 1) with 1 in E1.
  destruct (raw_of_inv _ _ _ Q0) as (<- & X0 & F0). destruct (raw_of_inv _ _ _ Q1) as (<- & X1 & F1).
  rewrite E0. cbn [mbind option_bind]. cbn [tag_meaning].
  destruct (Z.eqb_spec (flag s0) NDB_PACKED_STR) as [Hs0 | Hs0]; cbn [negb andb].
  2: { exists TagSkip. split; [done |]. split; [| done]. by destruct e0 as [[| c [| ]] |]. }
  assert (exists x, e0 = EStr x /\ c_string m (Note.str s0) = Some x) as (x & -> & Cx).
  { unfold elem_of_str in X0. rewrite Hs0 in X0. simpl in X0.
    destruct (c_string m (Note.str s0)) as [x |]; simpl in X0; [| done]. injection X0 as <-. eauto. }
  pose proof (c_string_inv _ _ _ Cx) as [_ (? & ? & Lx & _)%loadn_Some].
  assert (Zx : 0 < zlen (x ++ [0])) by zl.
  destruct (load8 m (Note.str s0)) as [c0 |] eqn:Ec0.
  2: { exfalso. assert (H5 : is_Some (load8 m (Note.str s0))) by (apply load8_is_Some; lia).
       rewrite Ec0 in H5. by destruct H5. }
  destruct (inline_str _ _ _ _ _ E0 Hs0 Ec0) as [c1 Ec1].
  destruct (c_string_head _ _ _ Cx Ec1) as (c0' & Ec0' & Hnil & Hone).
  rewrite Ec0 in Ec0'. injection Ec0' as <-. rewrite Ec1. cbn [mbind option_bind].
  pose proof (ao_tag _ Oa Ht) as Htag. rewrite (fr_tag _ _ _ R Ht).
  specialize (Hone (u8 (a_tag a)) Htag).
  destruct (decide (x = [u8 (a_tag a)])) as [-> | Hx].
  2: { assert (negb (c0 =? u8 (a_tag a)) || negb (c1 =? 0) = true) as ->.
       { destruct (Z.eqb_spec c0 (u8 (a_tag a))), (Z.eqb_spec c1 0); simpl; try done.
         exfalso. apply Hx, Hone. done. }
       exists TagSkip. split; [done |]. split; [| done]. split; [done |].
       destruct x as [| c [| ]]; try done. destruct (Z.eqb_spec c (u8 (a_tag a))); [congruence | done]. }
  destruct (proj2 Hone eq_refl) as [-> ->]. rewrite !Z.eqb_refl. cbn [negb orb andb].
  rewrite E1. cbn [mbind option_bind].
  pose proof (value_meaning s1 e1 X1) as V.
  destruct (f_elem f) eqn:Ef; cbn [negb].
  - exists TagStop. split; [done |]. rewrite <- Ef in *.
    assert (Hk : a_keys a = []).
    { destruct (fr_keys _ _ _ R) as (ks & P & F & _).
      rewrite (fr_elem _ _ _ R Ef) in F. inversion F; subst. by apply Permutation_nil_l in P. }
    split; [| done]. split; [done |]. rewrite Hk. by destruct e1.
  - rewrite F1. destruct e1 as [v | v]; cbn [negb].
    + rewrite V by done. cbn [mbind option_bind key_of].
      eexists; split; [reflexivity |]. destruct (bool_decide _); (split; [split|]); done.
    + exists TagSkip. split; [done |]. split; [| done]. split; [done |].
      intros H5%bool_decide_eq_true. apply tag_keys_elem in H5. simpl in H5. congruence.
  - rewrite F1. destruct e1 as [v | v]; cbn [negb].
    + exists TagSkip. split; [done |]. split; [| done]. split; [done |].
      intros H5%bool_decide_eq_true. apply tag_keys_elem in H5. simpl in H5. congruence.
    + rewrite V by done. cbn [mbind option_bind key_of].
      eexists; split; [reflexivity |]. destruct (bool_decide _); (split; [split|]); done.
  - exists TagStop. split; [done |].
    assert (Hk : forall k, k ∈ a_keys a -> False).
    { intros k Hk. pose proof (tag_keys_elem k Hk) as He.
      pose proof (proj1 (Forall_forall _ _) (ao_keys _ Oa) k) as Ok.
      rewrite Ht in Ok. destruct k; simpl in *; try congruence; by apply Ok, list_elem_of_In. }
    split; [| intros _; destruct (a_keys a) as [| k l]; [done | destruct (Hk k); apply elem_of_cons; by left]].
    split; [done |]. destruct e1; intros H5%bool_decide_eq_true; destruct (Hk _ H5).
  - exists TagStop. split; [done |].
    assert (Hk : forall k, k ∈ a_keys a -> False).
    { intros k Hk. pose proof (tag_keys_elem k Hk) as He.
      pose proof (proj1 (Forall_forall _ _) (ao_keys _ Oa) k) as Ok.
      rewrite Ht in Ok. destruct k; simpl in *; try congruence; by apply Ok, list_elem_of_In. }
    split; [| intros _; destruct (a_keys a) as [| k l]; [done | destruct (Hk k); apply elem_of_cons; by left]].
    split; [done |]. destruct e1; intros H5%bool_decide_eq_true; destruct (Hk _ H5).
Qed.
End tags.

Section match_spec.
Context (cb : list Z -> mem -> Z -> bool).
Context (flt : filter) (Hd : zlen (data flt) < 2 ^ 31) (m : mem) (note : Z) (n : fnote).
Hypothesis (N : note_reads cb m note n).

Lemma tag_filter_loop_spec f a fuel : forall it ts,
  field_rep (data flt) f a -> afield_ok a -> a_type a = TAGS ->
  raw_tags_loop fuel m it = Some ts ->
  tag_filter_loop fuel flt f m it = Some (existsb (tag_meaning a) ts).
Proof.
  induction fuel as [| fuel IH]; intros it ts R Oa Ht H; [done |].
  cbn [raw_tags_loop] in H. cbn [tag_filter_loop].
  destruct (ndb_tags_iterate_next m it) as [[more it'] |]; simpl in H; [| done].
  cbn [mbind option_bind fst snd]. destruct more; [| by injection H as <-].
  destruct (iter_tag it') as [tag |]; simpl in H; [| done]. cbn [mbind option_bind].
  destruct (raw_tag m (iter_note it) tag) as [t |] eqn:Et; simpl in H; [| done].
  destruct (raw_tags_loop fuel m it') as [ts' |] eqn:El; simpl in H; [| done]. injection H as <-.
  destruct (tag_filter_step_spec flt Hd m f a R Oa Ht _ _ _ Et) as (r & -> & E1 & E2).
  cbn [mbind option_bind existsb]. destruct r.
  - by rewrite (proj1 E1 eq_refl).
  - destruct (tag_meaning a t); [discriminate (proj2 E1 eq_refl) |]. by apply IH.
  - specialize (E2 eq_refl).
    assert (Z0 : forall t, tag_meaning a t = false).
    { intros [| [f0 [[| c [|]] |]] [| [f1 e1] t2]]; try done. unfold tag_meaning. rewrite E2.
      destruct e1; by rewrite andb_false_r. }
    f_equal. symmetry. rewrite Z0. simpl.
    clear - Z0. induction ts' as [| t' ts' IH']; [done |]. simpl. rewrite Z0. apply IH'.
Qed.

Lemma single_key {A} (ks ks' : list A) : ks ≡ₚ ks' -> zlen ks' = 1 -> exists k, ks = [k] /\ ks' = [k].
Proof.
  intros P L. destruct ks' as [| k [| ]].
  - discriminate L.
  - exists k. split; [by apply Permutation_singleton_r in P | done].
  - rewrite !zlen_cons in L. zl.
Qed.

Lemma rep_elem f a e k i ks :
  field_rep (data flt) f a -> Forall2 (elem_rep (data flt) (f_elem f)) (elements f) ks ->
  elements f !! i = Some e -> ks !! i = Some k -> f_elem f = key_elem k /\
  elem_rep (data flt) (key_elem k) e k.
Proof.
  intros _ F E1 E2. pose proof (Forall2_lookup_lr _ _ _ _ _ _ F E1 E2) as H.
  destruct (f_elem f), k; simpl in H; done.
Qed.

(** Elements all of one kind have that element type. *)
Lemma rep_all f a et :
  field_rep (data flt) f a -> (forall k, k ∈ a_keys a -> key_elem k = et) ->
  exists ks, ks ≡ₚ a_keys a /\ Forall2 (elem_rep (data flt) et) (elements f) ks /\
    sorted_keys (a_type a) ks.
Proof.
  intros R Hk. destruct (fr_keys _ _ _ R) as (ks & P & F & S). exists ks.
  rewrite <- (fr_type _ _ _ R). split; [done |]. split; [| done].
  destruct ks as [| k ks]; [by inversion F |].
  assert (He : f_elem f = et).
  { destruct (elements f) as [| e es] eqn:E; [by inversion F |].
    rewrite <- E in F. destruct (rep_elem f a e k 0 (k :: ks) R F) as [-> _]; [by rewrite E | done |].
    apply Hk. rewrite <- P. apply elem_of_cons. by left. }
  by rewrite <- He.
Qed.

Lemma keys_elem a et :
  afield_ok a -> (forall k, key_ok (a_type a) k -> key_elem k = et) ->
  forall k, k ∈ a_keys a -> key_elem k = et.
Proof.
  intros Oa H k Hk. apply H. by apply (proj1 (Forall_forall _ _) (ao_keys _ Oa)).
Qed.

Lemma relay_loop_spec f a rs :
  field_rep (data flt) f a -> afield_ok a -> a_type a = RELAYS ->
  relay_loop flt f rs = Some (existsb (fun r => bool_decide (KStr r ∈ a_keys a)) rs).
Proof.
  intros R Oa Ht.
  destruct (rep_all f a ELEM_STRING R) as (ks & P & F & S).
  { apply (keys_elem a); [done |]. rewrite Ht. by intros [] ?. }
  rewrite Ht in S. induction rs as [| r rs IH]; [done |]. cbn [relay_loop existsb].
  rewrite (search_strs_spec flt Hd _ ks) by done. cbn [mbind option_bind].
  assert (bool_decide (KStr r ∈ ks) = bool_decide (KStr r ∈ a_keys a)) as ->
    by (apply bool_decide_ext; by rewrite P).
  by destruct (bool_decide _).
Qed.

(** One field lets a note through exactly when it means to. *)
Lemma field_matches_spec f a :
  field_rep (data flt) f a -> afield_ok a ->
  field_matches cb flt m note (Some (n_relays n)) f = Some (meaning n a).
Proof.
  intros R Oa. destruct N as [Nb Nid Npk Nk Nt Ntags Nc].
  unfold field_matches, meaning. rewrite (fr_type _ _ _ R).
  pose proof (keys_elem a) as Ke. pose proof (ao_single _ Oa) as Sg.
  destruct (a_type a) eqn:Ht.
  - rewrite Nid. cbn [mbind option_bind].
    destruct (rep_all f a ELEM_ID R) as (ks & P & F & S); [apply Ke; [done | by intros [] ?] |].
    rewrite Ht in S. rewrite (search_ids_spec flt Hd _ ks) by (done || by apply loadn_length in Nid).
    f_equal. apply bool_decide_ext. by rewrite P.
  - rewrite Npk. cbn [mbind option_bind].
    destruct (rep_all f a ELEM_ID R) as (ks & P & F & S); [apply Ke; [done | by intros [] ?] |].
    rewrite Ht in S. rewrite (search_ids_spec flt Hd _ ks) by (done || by apply loadn_length in Npk).
    f_equal. apply bool_decide_ext. by rewrite P.
  - rewrite Nk. cbn [mbind option_bind]. f_equal.
    destruct (rep_all f a ELEM_INT R) as (ks & P & F & S); [apply Ke; [done | by intros [] ?] |].
    apply eq_bool_prop_intro. rewrite bool_decide_spec, Is_true_true, existsb_exists, <- P.
    assert (U : forall k, k ∈ ks -> key_ok KINDS k).
    { intros k. rewrite P, <- Ht. apply (proj1 (Forall_forall _ _) (ao_keys _ Oa)). }
    split.
    + intros (e & He & E). apply Z.eqb_eq in E. apply list_elem_of_In, list_elem_of_lookup in He as [i Hi].
      destruct (Forall2_lookup_l _ _ _ _ _ F Hi) as (k & Ek & Rk).
      assert (Hk : k ∈ ks) by (apply list_elem_of_lookup; eauto). specialize (U _ Hk).
      destruct k; simpl in Rk, U; try done. destruct Rk as [-> _].
      rewrite <- E. unfold u32. by rewrite Z.mod_small.
    + intros Hk. pose proof (U _ Hk) as Uk. apply list_elem_of_lookup in Hk as [i Hi].
      destruct (Forall2_lookup_r _ _ _ _ _ F Hi) as (e & Ee & Rk). simpl in Rk, Uk.
      exists e. split; [apply list_elem_of_In, list_elem_of_lookup; eauto |].
      destruct Rk as [-> _]. apply Z.eqb_eq. unfold u32. by apply Z.mod_small.
  - unfold ndb_tag_filter_matches. unfold raw_tags in Ntags.
    destruct (ndb_tags_count m (ndb_note_tags note)) as [c |]; simpl in Ntags; [| done].
    cbn [mbind option_bind]. by apply tag_filter_loop_spec.
  - destruct (rep_all f a ELEM_INT R) as (ks & P & F & S); [apply Ke; [done | by intros [] ?] |].
    destruct (single_key _ _ P (Sg eq_refl)) as (k & -> & ->).
    apply Forall2_cons_inv_r in F as (e & es & Rk & F & Ee). apply Forall2_nil_inv_r in F as ->.
    unfold f_count. rewrite Ee, Nt. destruct k; simpl in Rk; try done. by destruct Rk as [-> _].
  - destruct (rep_all f a ELEM_INT R) as (ks & P & F & S); [apply Ke; [done | by intros [] ?] |].
    destruct (single_key _ _ P (Sg eq_refl)) as (k & -> & ->).
    apply Forall2_cons_inv_r in F as (e & es & Rk & F & Ee). apply Forall2_nil_inv_r in F as ->.
    unfold f_count. rewrite Ee, Nt. destruct k; simpl in Rk; try done. by destruct Rk as [-> _].
  - done.
  - done.
  - cbn [mbind option_bind]. by apply relay_loop_spec.
  - destruct (rep_all f a ELEM_CUSTOM R) as (ks & P & F & S); [apply Ke; [done | by intros [] ?] |].
    destruct (single_key _ _ P (Sg eq_refl)) as (k & -> & ->).
    apply Forall2_cons_inv_r in F as (e & es & Rk & F & Ee).
    unfold ndb_filter_get_custom_element. rewrite Ee.
    change ((e :: es) !! 0%nat) with (Some e). cbn [mbind option_bind].
    destruct k; simpl in Rk; try done. rewrite (custom_at_rep flt Hd _ _ Rk). cbn [mbind option_bind].
    by rewrite Nc.
Qed.

(** A filter lets a note through when every field it still has to check does. *)
Lemma matches_with_spec already afs :
  Forall2 (field_rep (data flt)) (fields flt) afs -> Forall afield_ok afs ->
  ndb_filter_matches_with cb flt m note already (Some (n_relays n)) =
    Some (forallb (fun a => negb (Z.land (Z.shiftl 1 (fieldtype_num (a_type a))) already =? 0)
                            || meaning n a) afs).
Proof.
  unfold ndb_filter_matches_with. induction 1 as [| f a fs afs R _ IH]; intros Oa; [done |].
  apply Forall_cons_iff in Oa as [Oa1 Oa]. cbn [matches_loop forallb].
  rewrite (fr_type _ _ _ R). destruct (negb _); cbn [orb andb]; [by apply IH |].
  rewrite (field_matches_spec f a R Oa1). cbn [mbind option_bind].
  destruct (meaning n a); [by apply IH | done].
Qed.
End match_spec.

(** ** Building a declared filter

    The calls a client makes for a list of declared fields. *)

Definition add_key (k : key) : FM bool :=
  match k with
  | KId id => ndb_filter_add_id_element id
  | KStr s => ndb_filter_add_str_element s
  | KInt i => ndb_filter_add_int_element i
  | KCustom c => ndb_filter_add_custom_filter_element c
  end.

Fixpoint add_keys (ks : list key) : FM bool :=
  match ks with [] => ret true | k :: ks => add_key k &&* add_keys ks end.

Definition declare (a : afield) : FM bool :=
  (if decide (a_type a = TAGS) then ndb_filter_start_tag_field (a_tag a)
   else ndb_filter_start_field (a_type a)) &&*
  add_keys (a_keys a) &&*
  (do* ndb_filter_end_field in ret true).

Fixpoint declare_all (afs : list afield) : FM bool :=
  match afs with [] => ret true | a :: afs => declare a &&* declare_all afs end.

Definition build_filter (afs : list afield) : FM bool := declare_all afs &&* ndb_filter_end.

(** Room taken in the two buffers. *)
Definition key_cost (k : key) : Z :=
  match k with KId _ => 32 | KStr s => zlen s + 1 | KInt _ => 0 | KCustom _ => 16 end.
Definition sum_Z (l : list Z) : Z := foldr Z.add 0 l.
Definition field_cost (a : afield) : Z := 16 + 8 * zlen (a_keys a).
Definition data_cost (a : afield) : Z := sum_Z (map key_cost (a_keys a)).

Lemma loadn_app_l d x e n l : loadn d e n = Some l -> loadn (d ++ x) e n = Some l.
Proof.
  intros (?&?&?&->)%loadn_Some. apply loadn_Some. split; [done |]. split; [done |].
  split; [zl |]. unfold zlen in *. rewrite drop_app_le by lia. rewrite take_app_le; [done |].
  rewrite length_drop. lia.
Qed.

Lemma loadn_app_r d x : loadn (d ++ x) (zlen d) (zlen x) = Some x.
Proof.
  apply loadn_Some. split; [zl |]. split; [zl |]. split; [zl |].
  rewrite !to_nat_zlen, drop_app_length. by rewrite take_ge.
Qed.

Lemma elem_rep_app d x et e k : elem_rep d et e k -> elem_rep (d ++ x) et e k.
Proof.
  destruct et, k; simpl; try done; intros [? L]; (split; [done |]); try by apply loadn_app_l.
  apply c_string_inv in L as [N L]. apply (loadn_app_l _ x) in L. by apply c_string_spec.
Qed.

Lemma field_rep_app d x f a : field_rep d f a -> field_rep (d ++ x) f a.
Proof.
  intros [T G E (ks & P & F & S)]. split; auto. exists ks. split; [done |]. split; [| done].
  apply (Forall2_impl _ _ _ _ F). intros e k. apply elem_rep_app.
Qed.

(** A field in progress: the elements of the keys added so far, in order. *)
Record in_progress (flt0 flt : filter) (f : field) (a : afield) (ks : list key) : Prop := {
  ip_elem_end : elem_end flt = elem_end flt0;
  ip_data_end : data_end flt = data_end flt0;
  ip_fields : fields flt = fields flt0;
  ip_final : finalized flt = finalized flt0;
  ip_data : exists x, data flt = data flt0 ++ x /\ zlen x = sum_Z (map key_cost ks);
  ip_cur : current flt = InField f;
  ip_type : f_type f = a_type a;
  ip_tag : a_type a = TAGS -> f_tag f = a_tag a;
  ip_elem : f_elem f = match ks with [] => ELEM_UNKNOWN | k :: _ => key_elem k end;
  ip_keys : Forall2 (elem_rep (data flt) (f_elem f)) (elements f) ks
}.

Lemma bind_current {B} flt f (k : option field -> FM B) :
  current flt = InField f -> bind ndb_filter_current_element k flt = k (Some f) flt.
Proof. intros H. unfold ndb_filter_current_element, bind, get. by rewrite H. Qed.

Lemma bind_get {B} (k : filter -> FM B) flt : bind get k flt = k flt flt.
Proof. reflexivity. Qed.

Lemma push_data_ok flt bs :
  zlen (data flt) + zlen bs <= data_end flt ->
  push_data bs flt = Some (true, set_data flt (data flt ++ bs)).
Proof.
  intros H. unfold push_data. rewrite bind_get.
  destruct (Z.ltb_spec (data_end flt) (zlen (data flt) + zlen bs)); [lia | done].
Qed.

Lemma push_elem_ok flt f e :
  current flt = InField f -> elem_p flt + 8 <= elem_end flt ->
  push_elem e flt = Some (true, set_current flt
    (InField (mk_field (f_type f) (f_elem f) (f_tag f) (elements f ++ [u64 e])))).
Proof.
  intros Hc H. unfold push_elem. rewrite bind_get, Hc.
  destruct (Z.ltb_spec (elem_end flt) (elem_p flt + 8)); [lia | done].
Qed.

Lemma set_elem_type_ok flt f et :
  current flt = InField f -> f_elem f = et \/ f_elem f = ELEM_UNKNOWN ->
  ndb_filter_set_elem_type et flt = Some (true, set_current flt
    (InField (mk_field (f_type f) et (f_tag f) (elements f)))).
Proof.
  intros Hc He. unfold ndb_filter_set_elem_type. rewrite (bind_current _ _ _ Hc).
  assert (bool_decide (f_elem f <> et) && bool_decide (f_elem f <> ELEM_UNKNOWN) = false) as ->.
  { destruct He as [-> | ->]; rewrite ?(bool_decide_eq_false_2 (_ <> _)) by naive_solver; done || by rewrite andb_false_r. }
  reflexivity.
Qed.

Lemma u64_offset x : 0 <= x < 2 ^ 31 -> u64 x = x.
Proof. intros. apply Z.mod_small. lia. Qed.

Definition el_of (k : key) : filter_element :=
  match k with KId id => ElId id | KStr s => ElStr s | KInt i => ElInt i | KCustom c => ElCustom c end.
Definition key_data (k : key) : list Z :=
  match k with KId id => id | KStr s => s ++ [0] | KInt _ => [] | KCustom c => c end.
Definition key_val (d : list Z) (k : key) : Z := match k with KInt i => i | _ => zlen d end.

Definition pushed_key (flt : filter) (f : field) (k : key) : filter :=
  set_current (set_data flt (data flt ++ key_data k))
    (InField (mk_field (f_type f) (key_elem k) (f_tag f) (elements f ++ [u64 (key_val (data flt) k)]))).

Lemma key_data_cost t k : key_ok t k -> zlen (key_data k) = key_cost k.
Proof. destruct t, k; simpl; try done; intros; zl; lia. Qed.

Lemma elem_p_set_data flt d : elem_p (set_data flt d) = elem_p flt.
Proof. done. Qed.

Lemma set_data_same flt : set_data flt (data flt) = flt.
Proof. by destruct flt. Qed.

Lemma set_data_twice flt d1 d2 : set_data (set_data flt d1) d2 = set_data flt d2.
Proof. done. Qed.

Lemma run_andM {S} (w1 w2 : M S bool) s s1 : w1 s = Some (true, s1) -> (w1 &&* w2) s = w2 s1.
Proof. intros H. unfold andM. by rewrite (run_bind _ _ _ _ _ H). Qed.

(** The data of a key, pushed. *)
Lemma push_key_data flt k :
  zlen (data flt) + zlen (key_data k) <= data_end flt ->
  match k with
  | KStr s => push_str_data (ElStr s) flt
  | KId id => push_id_data (ElId id) flt
  | KCustom c => push_data c flt
  | KInt _ => Some (true, set_data flt (data flt ++ key_data k))
  end = Some (true, set_data flt (data flt ++ key_data k)).
Proof.
  intros H. destruct k as [id | s | i | c]; cbn [key_data] in *; try done.
  - by apply push_data_ok.
  - unfold push_str_data. rewrite (run_andM _ _ _ _ (push_data_ok flt s ltac:(zl))).
    rewrite push_data_ok; [rewrite set_data_twice; cbn [data set_data]; by rewrite <- app_assoc |].
    cbn [data data_end set_data]. zl.
  - by apply push_data_ok.
Qed.

Lemma add_element_ok flt f k :
  current flt = InField f -> f_elem f = key_elem k -> key_ok (f_type f) k ->
  (single (f_type f) = true -> f_count f = 0) ->
  elem_p flt + 8 <= elem_end flt -> zlen (data flt) + key_cost k <= data_end flt ->
  ndb_filter_add_element (el_of k) flt = Some (true, pushed_key flt f k).
Proof.
  intros Hc He Hk Hs Hp Hd. rewrite <- (key_data_cost _ _ Hk) in Hd.
  pose proof (push_key_data flt k Hd) as Hpush.
  unfold ndb_filter_add_element. rewrite (bind_current _ _ _ Hc), bind_get.
  assert (Hint : forall i, k = KInt i -> push_elem i flt = Some (true, pushed_key flt f k)).
  { intros i ->. rewrite (push_elem_ok flt f i Hc Hp). unfold pushed_key. cbn [key_data key_val].
    by rewrite app_nil_r, set_data_same, He. }
  assert (Hoff : key_val (data flt) k = zlen (data flt) ->
    push_elem (zlen (data flt)) (set_data flt (data flt ++ key_data k)) = Some (true, pushed_key flt f k)).
  { intros E. rewrite (push_elem_ok _ f); [| done | by rewrite elem_p_set_data].
    unfold pushed_key. by rewrite E, He. }
  destruct (f_type f) eqn:Et, k as [id | s | i | c]; simpl in Hk; try done; cbn [el_of];
    rewrite ?He; cbn [key_elem];
    try (destruct (decide (ELEM_STRING = ELEM_STRING)); [| done]);
    try (specialize (Hs eq_refl); rewrite Hs; simpl negb; cbv iota);
    first [ by apply Hint | rewrite (run_andM _ _ _ _ Hpush); by apply Hoff ].
Qed.

Lemma add_key_ok flt f k :
  current flt = InField f -> f_elem f = key_elem k \/ f_elem f = ELEM_UNKNOWN ->
  key_ok (f_type f) k -> (single (f_type f) = true -> f_count f = 0) ->
  elem_p flt + 8 <= elem_end flt -> zlen (data flt) + key_cost k <= data_end flt ->
  add_key k flt = Some (true, pushed_key flt f k).
Proof.
  intros Hc He Hk Hs Hp Hd.
  pose proof (set_elem_type_ok flt f (key_elem k) Hc He) as E1.
  set (f1 := mk_field (f_type f) (key_elem k) (f_tag f) (elements f)) in *.
  set (flt1 := set_current flt (InField f1)) in *.
  assert (E2 : ndb_filter_add_element (el_of k) flt1 = Some (true, pushed_key flt1 f1 k)).
  { apply add_element_ok; try done. unfold flt1, elem_p in *. rewrite Hc in Hp. done. }
  assert (E3 : pushed_key flt1 f1 k = pushed_key flt f k) by done. rewrite E3 in E2.
  assert (E4 : (ndb_filter_set_elem_type (key_elem k) &&* ndb_filter_add_element (el_of k)) flt =
               Some (true, pushed_key flt f k)) by (by rewrite (run_andM _ _ _ _ E1)).
  unfold add_key, ndb_filter_add_str_element, ndb_filter_add_id_element,
    ndb_filter_add_str_element_len, ndb_filter_add_int_element, ndb_filter_add_custom_filter_element.
  destruct k as [id | s | i | c]; rewrite (bind_current _ _ _ Hc);
    destruct (f_type f) eqn:Et; simpl in Hk; try done.
  specialize (Hs eq_refl). rewrite Hs. done.
Qed.

Lemma add_key_spec flt0 flt f a ks k :
  in_progress flt0 flt f a ks -> key_ok (a_type a) k ->
  (forall k', k' ∈ ks -> key_elem k' = key_elem k) ->
  (single (a_type a) = true -> ks = []) ->
  elem_p flt + 8 <= elem_end flt -> zlen (data flt) + key_cost k <= data_end flt ->
  data_end flt < 2 ^ 31 ->
  exists flt' f', add_key k flt = Some (true, flt') /\ in_progress flt0 flt' f' a (ks ++ [k]) /\
    elem_p flt' = elem_p flt + 8.
Proof.
  intros [I1 I2 I3 I4 (x & I5 & I5') I6 I7 I8 I9 I10] Hk Hu Hs Hp Hd H31.
  pose proof (key_data_cost _ _ Hk) as Hkd. pose proof (zlen_nonneg (data flt)).
  assert (Hel : f_elem f = key_elem k \/ f_elem f = ELEM_UNKNOWN).
  { rewrite I9. destruct ks as [| k' ks]; [by right | left]. apply Hu, elem_of_cons. by left. }
  exists (pushed_key flt f k). eexists. split; [| split].
  - apply add_key_ok; try done; rewrite I7; [done |].
    intros Hsg. rewrite (Hs Hsg) in I10. unfold f_count. by inversion I10.
  - split; cbn [pushed_key set_current set_data elem_end data_end data fields current finalized
      f_type f_elem f_tag elements]; try done.
    + exists (x ++ key_data k). rewrite I5, <- app_assoc. split; [done |].
      rewrite map_app, zlen_app, I5', Hkd. unfold sum_Z. rewrite foldr_app. simpl.
      generalize (map key_cost ks). intros l. induction l; simpl; lia.
    + destruct ks as [| k' ks]; [done |]. symmetry. apply Hu, elem_of_cons. by left.
    + apply Forall2_app.
      * destruct ks as [| k' ks].
        { apply Forall2_nil_inv_r in I10 as ->. constructor. }
        rewrite <- (Hu k') by (apply elem_of_cons; by left). rewrite <- I9.
        apply (Forall2_impl _ _ _ _ I10). intros e kk. apply elem_rep_app.
      * constructor; [| constructor].
        assert (Hz : zlen (data flt) < 2 ^ 31) by (pose proof (zlen_nonneg (key_data k)); lia).
        destruct k as [id | s | i | c]; cbn [key_elem elem_rep key_val key_data] in *.
        -- rewrite u64_offset by lia. split; [lia |].
           replace 32 with (zlen id) by (destruct (a_type a); simpl in Hk; done). apply loadn_app_r.
        -- assert (Hn : no_nul s) by (destruct (a_type a); simpl in Hk; done).
           rewrite u64_offset by lia. split; [lia |].
           apply c_string_spec; [done |]. apply loadn_app_r.
        -- assert (is_u64 i) by (destruct (a_type a); simpl in Hk; unfold is_u32, is_u64 in *; try done; lia).
           split; [| done]. by apply Z.mod_small.
        -- rewrite u64_offset by lia. split; [lia |].
           replace 16 with (zlen c) by (destruct (a_type a); simpl in Hk; done). apply loadn_app_r.
  - unfold elem_p, pushed_key. cbn [set_current set_data current fields]. rewrite I6.
    unfold field_size, f_count. cbn [elements]. rewrite zlen_app. change (zlen [_]) with 1. lia.
Qed.

(** ** Ending a field sorts it *)

Lemma qinsert_elem {A} (cmp : A -> A -> option Z) x l : forall l', qinsert cmp x l = Some l' -> l' ≡ₚ x :: l.
Proof.
  induction l as [| y l IH]; intros l' H; simpl in H; [by injection H as <- |].
  destruct (cmp x y) as [c |]; simpl in H; [| done]. destruct (0 <? c); [| by injection H as <-].
  destruct (qinsert cmp x l) as [r |]; simpl in H; [| done]. injection H as <-.
  rewrite (IH r eq_refl). apply Permutation_swap.
Qed.

Lemma qsort_perm {A} (cmp : A -> A -> option Z) l : forall l', qsort cmp l = Some l' -> l' ≡ₚ l.
Proof.
  induction l as [| x l IH]; intros l' H; simpl in H; [by injection H as <- |].
  destruct (qsort cmp l) as [r |]; simpl in H; [| done].
  rewrite (qinsert_elem _ _ _ _ H). by rewrite (IH r eq_refl).
Qed.

Lemma qinsert_ext {A} (cmp1 cmp2 : A -> A -> option Z) x l :
  (forall y, y ∈ l -> cmp1 x y = cmp2 x y) -> qinsert cmp1 x l = qinsert cmp2 x l.
Proof.
  induction l as [| y l IH]; intros H; [done |]. cbn [qinsert].
  rewrite (H y) by (apply elem_of_cons; by left).
  rewrite IH; [done |]. intros z Hz. apply H, elem_of_cons. by right.
Qed.

Lemma qsort_ext {A} (cmp1 cmp2 : A -> A -> option Z) l :
  (forall x y, x ∈ l -> y ∈ l -> cmp1 x y = cmp2 x y) -> qsort cmp1 l = qsort cmp2 l.
Proof.
  induction l as [| x l IH]; intros H; [done |]. cbn [qsort].
  rewrite IH by (intros y z Hy Hz; apply H; apply elem_of_cons; by right).
  destruct (qsort cmp2 l) as [r |] eqn:E; [| done]. cbn [mbind option_bind].
  apply qinsert_ext. intros y Hy. rewrite (qsort_perm _ _ _ E) in Hy.
  apply H; apply elem_of_cons; [by left | by right].
Qed.

(** Sorted offsets stand for the sorted keys. *)
Lemma resort {K} d et (kf : Z -> option K) (C : K -> key) es ks l' (bs : list K) :
  Forall2 (elem_rep d et) es ks -> keyed kf l' bs -> l' ≡ₚ es ->
  (forall e k, elem_rep d et e k -> exists b, k = C b /\ kf e = Some b) ->
  Forall2 (elem_rep d et) l' (map C bs).
Proof.
  intros F Hk P H.
  assert (Hin : Forall (fun e => e ∈ es) l') by (apply Forall_forall; intros e He; by rewrite <- P).
  clear P. induction Hk as [| e b l' bs E _ IH]; [constructor |].
  apply Forall_cons_iff in Hin as [He Hin]. cbn [map]. constructor; [| by apply IH].
  apply list_elem_of_lookup in He as [i Hi].
  destruct (Forall2_lookup_l _ _ _ _ _ F Hi) as (k & _ & Rk).
  destruct (H _ _ Rk) as (b' & -> & E'). rewrite E in E'. by injection E' as ->.
Qed.

Section ending.
Context (flt : filter) (Hd : zlen (data flt) < 2 ^ 31).

(** One sorted field type: the elements are permuted, and their keys sorted. *)
Lemma sort_keys {K} (c : K -> K -> comparison) `{!TotalCmp c} et (kf : Z -> option K)
    (C : K -> key) (proj : key -> K) cmp es ks :
  Forall2 (elem_rep (data flt) et) es ks ->
  (forall e k, elem_rep (data flt) et e k -> exists b, k = C b /\ kf e = Some b) ->
  (forall b, proj (C b) = b) ->
  (forall x y k1 k2, elem_rep (data flt) et x k1 -> elem_rep (data flt) et y k2 ->
     cmp x y = cmp_on c kf x y) ->
  exists es' ks', qsort cmp es = Some es' /\ Forall2 (elem_rep (data flt) et) es' ks' /\
    ks' ≡ₚ ks /\ StronglySorted (key_le c) (map proj ks') /\ length es' = length es.
Proof.
  intros F H Hp Hcmp.
  assert (Hk : keyed kf es (map proj ks) /\ map C (map proj ks) = ks).
  { clear Hcmp. induction F as [| e k es ks Rk _ [IH1 IH2]]; [by repeat constructor |].
    destruct (H _ _ Rk) as (b & -> & E). cbn [map]. rewrite Hp, IH2.
    split; [by constructor | done]. }
  destruct Hk as [Hk Ek].
  destruct (qsort_spec c kf es _ Hk) as (es' & bs & E & K' & S & P1 & P2).
  exists es', (map C bs). rewrite <- E. split.
  - apply qsort_ext. intros x y Hx Hy.
    apply list_elem_of_lookup in Hx as [i Hi]. apply list_elem_of_lookup in Hy as [j Hj].
    destruct (Forall2_lookup_l _ _ _ _ _ F Hi) as (k1 & _ & R1).
    destruct (Forall2_lookup_l _ _ _ _ _ F Hj) as (k2 & _ & R2). eauto.
  - split; [by eapply resort |]. split; [by rewrite <- Ek, P2 |]. split.
    + rewrite map_map. erewrite map_ext; [by rewrite map_id | done].
    + by apply Permutation_length.
Qed.

Lemma compare_ids_on x y k1 k2 :
  elem_rep (data flt) ELEM_ID x k1 -> elem_rep (data flt) ELEM_ID y k2 ->
  compare_ids flt x y = cmp_on bytes_cmp (id_at flt) x y.
Proof.
  intros R1 R2. destruct k1 as [i1 | | |], k2 as [i2 | | |]; simpl in R1, R2; try done.
  unfold compare_ids, cmp_on. rewrite (id_at_rep flt Hd x i1 R1), (id_at_rep flt Hd y i2 R2).
  cbn [mbind option_bind]. rewrite memcmp_sgn; [done |].
  destruct R1 as [_ L1], R2 as [_ L2]. apply loadn_length in L1, L2. unfold zlen in *. lia.
Qed.

Lemma rep_unfold_id e k :
  elem_rep (data flt) ELEM_ID e k -> exists b, k = KId b /\ id_at flt e = Some b.
Proof. destruct k; simpl; try done. intros R. eexists. split; [done |]. by apply id_at_rep. Qed.

Lemma rep_unfold_str e k :
  elem_rep (data flt) ELEM_STRING e k -> exists b, k = KStr b /\ str_at flt e = Some b.
Proof. destruct k; simpl; try done. intros R. eexists. split; [done |]. by apply str_at_rep. Qed.

Lemma rep_unfold_int e k :
  elem_rep (data flt) ELEM_INT e k -> exists b, k = KInt b /\ Some e = Some b.
Proof. destruct k; simpl; try done. intros [-> _]. eauto. Qed.

Lemma elem_is_ptr f : f_elem f = ELEM_STRING \/ f_elem f = ELEM_ID -> ndb_filter_elem_is_ptr f = true.
Proof using Type. unfold ndb_filter_elem_is_ptr. by intros [-> | ->]. Qed.

Lemma sort_field_spec flt0 f a :
  in_progress flt0 flt f a (a_keys a) -> afield_ok a ->
  exists f', sort_field flt f = Some f' /\ field_rep (data flt) f' a /\ field_size f' = field_size f.
Proof.
  intros [I1 I2 I3 I4 I5 I6 I7 I8 I9 I10] Oa.
  assert (Keep : sorted_keys (a_type a) (a_keys a) ->
    exists f', Some f = Some f' /\ field_rep (data flt) f' a /\ field_size f' = field_size f).
  { intros Hs. exists f. split; [done |]. split; [| done]. split; auto.
    - intros E. rewrite E in I10. destruct (elements f) as [| e es]; [done |].
      apply Forall2_cons_inv_l in I10 as (k & ? & Rk & _ & _). by destruct k.
    - exists (a_keys a). rewrite I7. done. }
  assert (Done : forall es' ks' , length es' = length (elements f) ->
    Forall2 (elem_rep (data flt) (f_elem f)) es' ks' -> ks' ≡ₚ a_keys a ->
    sorted_keys (a_type a) ks' ->
    let f' := mk_field (f_type f) (f_elem f) (f_tag f) es' in
    field_rep (data flt) f' a /\ field_size f' = field_size f).
  { intros es' ks' L F P S f'. split.
    - split; cbn [f' f_type f_elem f_tag elements]; auto.
      + intros E. rewrite E in F. destruct es' as [| e es]; [done |].
        apply Forall2_cons_inv_l in F as (k & ? & Rk & _ & _). by destruct k.
      + exists ks'. rewrite I7. done.
    - unfold field_size, f_count, zlen, f'. cbn [elements]. by rewrite L. }
  unfold sort_field. rewrite I7. pose proof (keys_elem a) as Ke.
  destruct (decide (a_keys a = [])) as [Hn | Hn].
  { rewrite Hn in I10. apply Forall2_nil_inv_r in I10 as He.
    pose proof (ao_some _ Oa) as Hsome. unfold sort_elements. rewrite He. cbn [qsort mbind option_bind].
    assert (F0 : Forall2 (elem_rep (data flt) (f_elem f)) [] []) by constructor.
    destruct (Done [] [] ltac:(by rewrite He) F0) as [D1 D2];
      [by rewrite Hn | by destruct (a_type a); simpl; constructor |].
    assert (Ef : mk_field (f_type f) (f_elem f) (f_tag f) [] = f) by (rewrite <- He; by destruct f).
    rewrite Ef in *. destruct (a_type a); eauto; by destruct (Hsome eq_refl). }
  assert (Het : forall et, (forall k, key_ok (a_type a) k -> key_elem k = et) -> f_elem f = et).
  { intros et H. rewrite I9. destruct (a_keys a) as [| k ks] eqn:E; [done |].
    apply (Ke et Oa H). apply elem_of_cons. by left. }
  destruct (a_type a) eqn:Ht; try (by apply Keep); unfold sort_filter_elements, sort_elements.
  1, 2: specialize (Het ELEM_ID ltac:(by intros [] ?)); rewrite (elem_is_ptr f) by auto; rewrite Het in I10;
    destruct (sort_keys bytes_cmp ELEM_ID (id_at flt) KId key_bytes (compare_ids flt) _ _ I10
      rep_unfold_id ltac:(done) compare_ids_on) as (es' & ks' & -> & F & P & S & L);
    cbn [mbind option_bind]; rewrite <- Het in F;
    destruct (Done es' ks' L F P S); eauto.
  - specialize (Het ELEM_INT ltac:(by intros [] ?)). rewrite Het in I10.
    destruct (sort_keys Z.compare ELEM_INT Some KInt key_int compare_kinds _ _ I10
      rep_unfold_int ltac:(done)) as (es' & ks' & -> & F & P & S & L).
    { intros. unfold compare_kinds, cmp_on. simpl. by rewrite u64_cmp_sgn. }
    cbn [mbind option_bind]. rewrite <- Het in F. destruct (Done es' ks' L F P S); eauto.
  - specialize (Het ELEM_STRING ltac:(by intros [] ?)). rewrite (elem_is_ptr f) by auto. rewrite Het in I10.
    destruct (sort_keys bytes_cmp ELEM_STRING (str_at flt) KStr key_bytes (compare_strs flt) _ _ I10
      rep_unfold_str ltac:(done) ltac:(done)) as (es' & ks' & -> & F & P & S & L).
    cbn [mbind option_bind]. rewrite <- Het in F. destruct (Done es' ks' L F P S); eauto.
Qed.
End ending.

(** ** Declaring fields *)

Lemma sum_map_nonneg {A} (f : A -> Z) l : (forall x, 0 <= f x) -> 0 <= sum_Z (map f l).
Proof.
  intros H. unfold sum_Z. induction l as [| x l IH]; simpl; [lia |]. specialize (H x). lia.
Qed.

Lemma key_cost_nonneg k : 0 <= key_cost k.
Proof. destruct k; simpl; zl. Qed.

Lemma sum_Z_app l1 l2 : sum_Z (l1 ++ l2) = sum_Z l1 + sum_Z l2.
Proof. unfold sum_Z. rewrite foldr_app. induction l1; simpl; lia. Qed.

Lemma add_keys_spec flt0 a : forall ks2 ks1 flt f,
  in_progress flt0 flt f a ks1 -> afield_ok a -> a_keys a = ks1 ++ ks2 ->
  elem_p flt + 8 * zlen ks2 <= elem_end flt ->
  zlen (data flt) + sum_Z (map key_cost ks2) <= data_end flt -> data_end flt < 2 ^ 31 ->
  exists flt' f', add_keys ks2 flt = Some (true, flt') /\ in_progress flt0 flt' f' a (a_keys a) /\
    elem_p flt' = elem_p flt + 8 * zlen ks2.
Proof.
  induction ks2 as [| k ks2 IH]; intros ks1 flt f I Oa Ek Hp Hd H31.
  - rewrite app_nil_r in Ek. subst. exists flt, f. split; [done |].
    split; [done |]. change (zlen (@nil key)) with 0. lia.
  - rewrite zlen_cons in Hp. cbn [map sum_Z foldr] in Hd. fold (sum_Z (map key_cost ks2)) in Hd.
    pose proof (sum_map_nonneg key_cost ks2 key_cost_nonneg).
    assert (Hk : k ∈ a_keys a).
    { rewrite Ek. apply elem_of_app. right. apply elem_of_cons. by left. }
    pose proof (zlen_nonneg ks2).
    destruct (add_key_spec flt0 flt f a ks1 k I) as (flt1 & f1 & E1 & I1 & P1); try lia.
    + by apply (proj1 (Forall_forall _ _) (ao_keys _ Oa)).
    + intros k' Hk'. apply (ao_uniform _ Oa); [| done]. rewrite Ek. apply elem_of_app. by left.
    + intros Hs. pose proof (ao_single _ Oa Hs) as L. rewrite Ek, zlen_app, zlen_cons in L.
      destruct ks1; [done |]. rewrite zlen_cons in L. pose proof (zlen_nonneg ks1). lia.
    + destruct (IH (ks1 ++ [k]) flt1 f1 I1 Oa) as (flt' & f' & E & I' & P').
      * by rewrite Ek, <- app_assoc.
      * rewrite P1, (ip_elem_end _ _ _ _ _ I1), <- (ip_elem_end _ _ _ _ _ I). lia.
      * destruct (ip_data _ _ _ _ _ I) as (x & Ex & Lx). destruct (ip_data _ _ _ _ _ I1) as (x1 & Ex1 & Lx1).
        rewrite map_app, sum_Z_app in Lx1. unfold sum_Z in Lx1 at 2. simpl in Lx1.
        rewrite (ip_data_end _ _ _ _ _ I1), <- (ip_data_end _ _ _ _ _ I).
        rewrite Ex1, zlen_app. rewrite Ex, zlen_app in Hd. lia.
      * by rewrite (ip_data_end _ _ _ _ _ I1), <- (ip_data_end _ _ _ _ _ I).
      * exists flt', f'. cbn [add_keys]. rewrite (run_andM _ _ _ _ E1).
        split; [done |]. split; [done |]. rewrite P', P1, zlen_cons. lia.
Qed.

(** A filter ready for its next field. *)
Record ready (flt : filter) (afs : list afield) : Prop := {
  rd_cur : current flt = NoField;
  rd_final : finalized flt = false;
  rd_fields : Forall2 (field_rep (data flt)) (fields flt) afs;
  rd_elem : elem_p flt = sum_Z (map field_cost afs);
  rd_data : zlen (data flt) = sum_Z (map data_cost afs)
}.

Lemma fields_size_app fs f :
  foldr (fun f n => field_size f + n) 0 (fs ++ [f]) = foldr (fun f n => field_size f + n) 0 fs + field_size f.
Proof. induction fs; simpl; lia. Qed.

Lemma declare_spec flt afs a :
  ready flt afs -> afield_ok a ->
  (a_type a <> TAGS -> ~ (exists a', a' ∈ afs /\ a_type a' = a_type a)) ->
  zlen afs < NDB_NUM_FILTERS ->
  elem_p flt + field_cost a < elem_end flt ->
  zlen (data flt) + data_cost a <= data_end flt -> data_end flt < 2 ^ 31 ->
  exists flt', declare a flt = Some (true, flt') /\ ready flt' (afs ++ [a]) /\
    elem_end flt' = elem_end flt /\ data_end flt' = data_end flt.
Proof.
  intros [R1 R2 R3 R4 R5] Oa Hu Hn Hp Hd H31. unfold field_cost in Hp.
  pose proof (zlen_nonneg (a_keys a)).
  set (tag := if decide (a_type a = TAGS) then a_tag a else 0).
  set (f0 := mk_field (a_type a) ELEM_UNKNOWN tag []).
  set (flt1 := set_current flt (InField f0)).
  assert (E1 : ndb_filter_start_field_impl (a_type a) tag flt = Some (true, flt1)).
  { unfold ndb_filter_start_field_impl. rewrite bind_get, R1.
    destruct (existsb _ (fields flt)) eqn:Ex.
    - exfalso. apply existsb_exists in Ex as (el & Hel & Ex). apply andb_true_iff in Ex as [X1 X2].
      apply bool_decide_eq_true in X1. apply bool_decide_eq_true in X2.
      apply list_elem_of_In, list_elem_of_lookup in Hel as [i Hi].
      destruct (Forall2_lookup_l _ _ _ _ _ R3 Hi) as (a' & Ha' & Rf).
      apply Hu; [done |]. exists a'. split; [apply list_elem_of_lookup; eauto |].
      by rewrite <- (fr_type _ _ _ Rf).
    - destruct (Z.leb_spec (elem_end flt) (elem_p flt + 16)); [lia | done]. }
  assert (E1' : (if decide (a_type a = TAGS) then ndb_filter_start_tag_field (a_tag a)
                 else ndb_filter_start_field (a_type a)) flt = Some (true, flt1)).
  { unfold ndb_filter_start_tag_field, ndb_filter_start_field. rewrite <- E1. unfold tag.
    destruct (decide (a_type a = TAGS)) as [e |]; [by rewrite e | done]. }
  assert (I1 : in_progress flt flt1 f0 a []).
  { split; try done.
    - exists []. by rewrite app_nil_r.
    - intros Ht. unfold f0, tag. cbn [f_tag]. by rewrite decide_True. }
  assert (P1 : elem_p flt1 = elem_p flt + 16).
  { unfold elem_p, flt1. cbn [set_current current fields]. rewrite R1.
    change (field_size f0) with 16. lia. }
  destruct (add_keys_spec flt a (a_keys a) [] flt1 f0 I1 Oa eq_refl) as (flt2 & f2 & E2 & I2 & P2).
  { rewrite P1. change (elem_end flt1) with (elem_end flt). lia. }
  { done. } { done. }
  destruct (ip_data _ _ _ _ _ I2) as (x & Ed & Lx).
  assert (Hd2 : zlen (data flt2) = zlen (data flt) + data_cost a).
  { rewrite Ed, zlen_app, Lx. done. }
  destruct (sort_field_spec flt2 ltac:(lia) flt f2 a I2 Oa) as (f3 & E3 & Rf & Sz).
  exists (mk_filter (elem_end flt2) (data_end flt2) (data flt2) (fields flt2 ++ [f3]) NoField (finalized flt2)).
  split; [| split].
  - unfold declare. rewrite (run_andM _ _ flt flt2).
    2: { by rewrite (run_andM _ _ _ _ E1'). }
    assert (E4 : ndb_filter_end_field flt2 = Some (tt,
      mk_filter (elem_end flt2) (data_end flt2) (data flt2) (fields flt2 ++ [f3]) NoField (finalized flt2))).
    { unfold ndb_filter_end_field. rewrite (bind_current _ _ _ (ip_cur _ _ _ _ _ I2)), bind_get.
      destruct (Z.leb_spec NDB_NUM_FILTERS (zlen (fields flt2))) as [Hc |].
      { rewrite (ip_fields _ _ _ _ _ I2) in Hc. apply Forall2_length in R3. unfold zlen in *. lia. }
      by rewrite E3. }
    by rewrite (run_bind _ _ _ _ _ E4).
  - split; cbn [current finalized fields data]; try done.
    + by rewrite (ip_final _ _ _ _ _ I2).
    + rewrite (ip_fields _ _ _ _ _ I2). apply Forall2_app; [| by constructor].
      rewrite Ed. apply (Forall2_impl _ _ _ _ R3). intros. by apply field_rep_app.
    + unfold elem_p. cbn [current fields]. rewrite fields_size_app, Sz, map_app, sum_Z_app.
      unfold elem_p in P2, P1, R4. rewrite (ip_cur _ _ _ _ _ I2) in P2.
      rewrite R1 in R4. rewrite <- R4. unfold sum_Z. cbn [map foldr]. unfold field_cost.
      unfold elem_p in P2. rewrite P2, P1. rewrite R1. lia.
    + rewrite Hd2, R5, map_app, sum_Z_app. unfold sum_Z at 3. simpl. lia.
  - by rewrite <- (ip_elem_end _ _ _ _ _ I2), <- (ip_data_end _ _ _ _ _ I2).
Qed.

Lemma cost_nonneg a : 0 <= field_cost a /\ 0 <= data_cost a.
Proof.
  unfold field_cost, data_cost. split; [zl | apply sum_map_nonneg, key_cost_nonneg].
Qed.

Lemma costs_nonneg afs : 0 <= sum_Z (map field_cost afs) /\ 0 <= sum_Z (map data_cost afs).
Proof.
  split; apply sum_map_nonneg; intros a; apply (cost_nonneg a).
Qed.

(** No field type but [TAGS] twice. *)
Definition distinct_types (afs : list afield) : Prop :=
  forall i j a b, (i < j)%nat -> afs !! i = Some a -> afs !! j = Some b ->
    a_type b <> TAGS -> a_type a <> a_type b.

Lemma declare_all_spec afs2 : forall afs1 flt,
  ready flt afs1 -> Forall afield_ok afs2 -> distinct_types (afs1 ++ afs2) ->
  zlen (afs1 ++ afs2) <= NDB_NUM_FILTERS ->
  elem_p flt + sum_Z (map field_cost afs2) < elem_end flt ->
  zlen (data flt) + sum_Z (map data_cost afs2) <= data_end flt -> data_end flt < 2 ^ 31 ->
  exists flt', declare_all afs2 flt = Some (true, flt') /\ ready flt' (afs1 ++ afs2) /\
    elem_end flt' = elem_end flt /\ data_end flt' = data_end flt.
Proof.
  induction afs2 as [| a afs2 IH]; intros afs1 flt R Oa Hu Hn Hp Hd H31.
  - exists flt. rewrite app_nil_r. done.
  - apply Forall_cons_iff in Oa as [Oa1 Oa]. pose proof (costs_nonneg afs2). pose proof (zlen_nonneg afs2).
    unfold sum_Z in Hp, Hd. cbn [map foldr] in Hp, Hd.
    fold (sum_Z (map field_cost afs2)) in Hp. fold (sum_Z (map data_cost afs2)) in Hd.
    destruct (declare_spec flt afs1 a R Oa1) as (flt1 & E1 & R1 & X1 & X2); try lia.
    + intros Ht (a' & Ha' & Et). apply list_elem_of_lookup in Ha' as [i Hi].
      refine (Hu i (length afs1) a' a _ _ _ Ht Et).
      * by apply lookup_lt_Some in Hi.
      * by apply lookup_app_l_Some.
      * by apply list_lookup_middle.
    + rewrite zlen_app, zlen_cons in Hn. lia.
    + pose proof (rd_elem _ _ R) as Q1. pose proof (rd_elem _ _ R1) as Q2.
      pose proof (rd_data _ _ R) as Q3. pose proof (rd_data _ _ R1) as Q4.
      rewrite map_app, sum_Z_app in Q2, Q4. unfold sum_Z in Q2 at 2, Q4 at 2. simpl in Q2, Q4.
      
      destruct (IH (afs1 ++ [a]) flt1 R1 Oa) as (flt' & E & R' & Y1 & Y2);
        try rewrite <- app_assoc; try done; try lia.
      exists flt'. cbn [declare_all]. rewrite (run_andM _ _ _ _ E1).
      rewrite <- app_assoc in R'. split; [done |]. split; [done |]. by rewrite Y1, Y2.
Qed.

(** * Properties *)

(** A declaration the builder has room for: at most ten fields, no type but
    tags twice, and the two buffers not exhausted. *)
Record declared_ok (afs : list afield) : Prop := {
  do_fields : Forall afield_ok afs;
  do_distinct : distinct_types afs;
  do_count : zlen afs <= NDB_NUM_FILTERS;
  do_elems : sum_Z (map field_cost afs) < 65536;
  do_data : sum_Z (map data_cost afs) <= 196608
}.

Lemma build_filter_spec afs : declared_ok afs ->
  exists flt, build_filter afs ndb_filter_init = Some (true, flt) /\ finalized flt = true /\
    Forall2 (field_rep (data flt)) (fields flt) afs /\ zlen (data flt) < 2 ^ 31.
Proof.
  intros [D1 D2 D3 D4 D5].
  destruct (declare_all_spec afs [] ndb_filter_init) as (flt & E & R & _ & _); try done.
  unfold build_filter. rewrite (run_andM _ _ _ _ E). unfold ndb_filter_end.
  unfold freed. rewrite bind_get, (rd_final _ _ R). cbn [andb]. eexists. split; [reflexivity |]. cbn [finalized data fields].
  split; [done |]. split; [apply (rd_fields _ _ R) |]. rewrite (rd_data _ _ R). simpl app. lia.
Qed.

(** Without relay fields the relays do not matter. *)
Lemma matches_loop_relays cb flt m note already rs fs : Forall (fun f => f_type f <> RELAYS) fs ->
  matches_loop cb flt m note already None fs = matches_loop cb flt m note already (Some rs) fs.
Proof.
  induction 1 as [| f fs N _ IH]; [done |]. cbn [matches_loop]. rewrite IH.
  destruct (negb _); [done |]. unfold field_matches. by destruct (f_type f).
Qed.

Lemma build_filter_matches cb afs : declared_ok afs ->
  exists flt, build_filter afs ndb_filter_init = Some (true, flt) /\ finalized flt = true /\
    forall m note n, note_reads cb m note n ->
      ndb_filter_matches_with_relay cb flt m note (Some (n_relays n)) =
        Some (forallb (meaning n) afs).
Proof.
  intros Oa. destruct (build_filter_spec afs Oa) as (flt & E & Hfin & F & Hd). exists flt.
  split; [done |]. split; [done |].
  intros m note n Rn. unfold ndb_filter_matches_with_relay.
  rewrite (matches_with_spec cb flt Hd m note n Rn 0 afs F (do_fields _ Oa)).
  f_equal. clear. induction afs as [| a afs IH]; [done |]. cbn [forallb].
  by rewrite Z.land_0_r, IH.
Qed.

(** C5: Building a filter from declared fields with the API of the library
    (start a field, add its elements, end it, end the filter) succeeds, and the
    finished filter matches a note exactly when every declared field admits it:
    the ids, authors and relays are found by binary search in the arrays that
    ending a field sorted, kinds and tag values by a scan, the bounds by
    comparison.  The declaration has at most ten fields, no two of one kind, that
    fit the buffers, and no empty field of ids, authors or relays, which the
    library refuses with an assertion. *)
Theorem filter_build_matches (cb : list Z -> mem -> Z -> bool) (afs : list afield)
    (Oa : declared_ok afs) :
  exists flt, build_filter afs ndb_filter_init = Some (true, flt) /\
    forall m note n, note_reads cb m note n ->
      ndb_filter_matches_with_relay cb flt m note (Some (n_relays n)) =
        Some (forallb (meaning n) afs).
Proof.
  destruct (build_filter_matches cb afs Oa) as (flt & E & _ & H). by exists flt.
Qed.

(** ** Filters as JSON *)

Definition key_text (k : key) : list Z :=
  match k with
  | KId id => [DQ] ++ hexs id ++ [DQ]
  | KStr s => quote s
  | KInt i => snprintf_u64 16 i
  | KCustom _ => []
  end.
Definition keys_text (ks : list key) : list Z := [91] ++ commas (map key_text ks) ++ [93].
Definition first_text (ks : list key) : list Z :=
  match ks with k :: _ => key_text k | [] => [] end.

(** The JSON member a declared field is printed as. *)
Definition afield_text (a : afield) : list Z :=
  match a_type a with
  | IDS => field_key "ids"%string ++ keys_text (a_keys a)
  | AUTHORS => field_key "authors"%string ++ keys_text (a_keys a)
  | KINDS => field_key "kinds"%string ++ keys_text (a_keys a)
  | TAGS => [DQ; 35; u8 (a_tag a); DQ; 58] ++ keys_text (a_keys a)
  | SINCE => field_key "since"%string ++ first_text (a_keys a)
  | UNTIL => field_key "until"%string ++ first_text (a_keys a)
  | LIMIT => field_key "limit"%string ++ first_text (a_keys a)
  | SEARCH => field_key "search"%string ++ first_text (a_keys a)
  | RELAYS => field_key "relays"%string ++ keys_text (a_keys a)
  | CUSTOM => []
  end.
Definition filter_text (afs : list afield) : list Z := [123] ++ commas (map afield_text afs) ++ [125].

Definition key_bytes_ok (k : key) : Prop := bytes_ok (key_bytes k).

Section json.
Context (flt : filter) (Hd : zlen (data flt) < 2 ^ 31).

Lemma push_elem_spec f i e k :
  elements f !! i = Some e -> elem_rep (data flt) (f_elem f) e k ->
  key_ok (f_type f) k -> f_type f <> CUSTOM -> key_bytes_ok k ->
  Exact (match f_elem f with
         | ELEM_CUSTOM => ret true
         | ELEM_STRING =>
             let* s := lift (ndb_filter_get_string_element flt f i) in cursor_push_jsonstr s
         | ELEM_ID =>
             let* id := lift (ndb_filter_get_id_element flt f i) in cursor_push_hex_str id
         | ELEM_INT =>
             let* v := lift (ndb_filter_get_int_element f i) in cursor_push_int_str v
         | ELEM_UNKNOWN => ret false
         end) (key_text k).
Proof.
  intros Ei R Ok Nc Hb. destruct (f_elem f), k; try done.
  - apply (Emits_lift _ s); [| apply Exact_jsonstr].
    unfold ndb_filter_get_string_element. rewrite Ei. by apply str_at_rep.
  - apply (Emits_lift _ id).
    + unfold ndb_filter_get_id_element. rewrite Ei. by apply id_at_rep.
    + apply Exact_hex_str; [done |]. simpl in R. destruct R as [_ R]. by apply loadn_length in R.
  - destruct R as [-> _]. apply (Emits_lift _ i0); [| apply Exact_str].
    done.
  - by destruct (f_type f).
Qed.

Lemma push_elem_array_loop_spec f ks : forall k i,
  Forall2 (elem_rep (data flt) (f_elem f)) (drop i (elements f)) ks ->
  Forall (key_ok (f_type f)) ks -> Forall key_bytes_ok ks -> f_type f <> CUSTOM ->
  k = length ks ->
  Exact (push_elem_array_loop flt f i k) (commas (map key_text ks)).
Proof.
  induction ks as [| k0 ks IH]; intros k i F Ok Hb Nc ->; [apply Exact_nil |].
  apply Forall2_cons_inv_r in F as (e & es & Rk & F & Ed).
  apply Forall_cons_iff in Ok as [Ok1 Ok]. apply Forall_cons_iff in Hb as [Hb1 Hb].
  assert (Ei : elements f !! i = Some e).
  { rewrite <- (Nat.add_0_r i), <- lookup_drop, Ed. done. }
  assert (Ed' : drop (Datatypes.S i) (elements f) = es).
  { replace (Datatypes.S i) with (i + 1)%nat by lia. rewrite <- drop_drop, Ed. done. }
  cbn [length push_elem_array_loop map commas]. rewrite app_assoc.
  apply Exact_andM; [| apply IH; try done; by rewrite Ed'].
  apply Exact_andM; [by eapply push_elem_spec |].
  assert (L : f_count f = Z.of_nat i + 1 + zlen ks).
  { apply Forall2_length in F. rewrite <- Ed' in F. rewrite length_drop in F.
    apply lookup_lt_Some in Ei. unfold f_count, zlen. lia. }
  destruct (Z.eqb_spec (Z.of_nat i) (f_count f - 1)) as [C | C];
    destruct (decide (map key_text ks = [])) as [D | D]; cbn [negb];
    try (apply Exact_nil || apply Exact_byte); exfalso.
  - apply D. destruct ks; [done |]. rewrite zlen_cons in L. pose proof (zlen_nonneg ks). lia.
  - apply map_eq_nil in D as ->. change (zlen (@nil key)) with 0 in L. lia.
Qed.

(** A field of the filter, printed with its keys in the order it holds them. *)
Definition holds (f : field) (a : afield) : Prop :=
  f_type f = a_type a /\ (a_type a = TAGS -> f_tag f = a_tag a) /\
  Forall2 (elem_rep (data flt) (f_elem f)) (elements f) (a_keys a).

Lemma json_elem_array_spec f a :
  holds f a -> afield_ok a -> Forall key_bytes_ok (a_keys a) -> a_type a <> CUSTOM ->
  Exact (cursor_push_json_elem_array flt f) (keys_text (a_keys a)).
Proof.
  intros (T & _ & F) Oa Hb Nc. unfold cursor_push_json_elem_array, keys_text. rewrite app_assoc.
  apply Exact_andM; [| apply Exact_str]. apply Exact_andM; [apply Exact_byte |].
  apply push_elem_array_loop_spec; rewrite ?T; try done; [apply (ao_keys _ Oa) |].
  by apply Forall2_length in F.
Qed.

Lemma push_first_spec f a : holds f a -> afield_ok a -> single (a_type a) = true ->
  (key_elem <$> a_keys a = [ELEM_INT] -> Exact (push_int0 f) (first_text (a_keys a))) /\
  (key_elem <$> a_keys a = [ELEM_STRING] ->
   Exact (let* s := lift (ndb_filter_get_string_element flt f 0) in cursor_push_jsonstr s)
     (first_text (a_keys a))).
Proof.
  intros (T & _ & F) Oa Hs. split; intros E.
  - destruct (a_keys a) as [| k [|]]; try done.
    apply Forall2_cons_inv_r in F as (e & es & Rk & F & Ed).
    destruct k; try done. destruct (f_elem f); try done. destruct Rk as [-> _].
    unfold push_int0, ndb_filter_get_int_element. rewrite Ed. apply (Emits_lift _ i); [done | apply Exact_str].
  - destruct (a_keys a) as [| k [|]]; try done.
    apply Forall2_cons_inv_r in F as (e & es & Rk & F & Ed).
    destruct k; try done. destruct (f_elem f); try done.
    apply (Emits_lift _ s); [| apply Exact_jsonstr].
    unfold ndb_filter_get_string_element. rewrite Ed. by apply str_at_rep.
Qed.
End json.

Lemma single_int a : afield_ok a -> (a_type a = SINCE \/ a_type a = UNTIL \/ a_type a = LIMIT) ->
  key_elem <$> a_keys a = [ELEM_INT].
Proof.
  intros Oa Ht. pose proof (ao_single _ Oa) as Hs. pose proof (ao_keys _ Oa) as Ok.
  destruct (a_keys a) as [| k [| k2 ks]].
  - destruct Ht as [E | [E | E]]; rewrite E in Hs; specialize (Hs eq_refl);
      change (zlen (@nil key)) with 0 in Hs; lia.
  - apply Forall_cons_iff in Ok as [Ok _].
    destruct Ht as [E | [E | E]]; rewrite E in Ok; by destruct k.
  - destruct Ht as [E | [E | E]]; rewrite E in Hs; specialize (Hs eq_refl);
      rewrite !zlen_cons in Hs; pose proof (zlen_nonneg ks); lia.
Qed.

Lemma single_search a : afield_ok a -> a_type a = SEARCH -> key_elem <$> a_keys a = [ELEM_STRING].
Proof.
  intros Oa E. pose proof (ao_single _ Oa) as Hs. pose proof (ao_keys _ Oa) as Ok.
  rewrite E in Hs, Ok. specialize (Hs eq_refl).
  destruct (a_keys a) as [| k [| k2 ks]].
  - change (zlen (@nil key)) with 0 in Hs; lia.
  - apply Forall_cons_iff in Ok as [Ok _]. by destruct k.
  - rewrite !zlen_cons in Hs; pose proof (zlen_nonneg ks); lia.
Qed.

Section json_fields.
Context (flt : filter) (Hd : zlen (data flt) < 2 ^ 31).

Lemma push_filter_field_spec f a :
  holds flt f a -> afield_ok a -> Forall key_bytes_ok (a_keys a) -> a_type a <> CUSTOM ->
  Exact (push_filter_field flt f) (afield_text a).
Proof.
  intros H Oa Hb Nc. pose proof (json_elem_array_spec flt Hd f a H Oa Hb Nc) as A.
  pose proof H as (T & G & _). unfold push_filter_field, afield_text. rewrite T.
  destruct (a_type a) eqn:Et; try done; try (apply Exact_andM; [apply Exact_str | exact A]).
  - rewrite (G eq_refl).
    change ([DQ; 35; u8 (a_tag a); DQ; 58] ++ keys_text (a_keys a))
      with (([DQ; 35] ++ [u8 (a_tag a)] ++ [DQ; 58]) ++ keys_text (a_keys a)).
    apply Exact_andM; [| exact A]. rewrite app_assoc.
    apply Exact_andM; [apply Exact_andM; [apply Exact_str | apply Exact_byte] | apply Exact_str].
  - apply Exact_andM; [apply Exact_str |].
    eapply (push_first_spec flt Hd f a H Oa); [by rewrite Et | apply single_int; auto].
  - apply Exact_andM; [apply Exact_str |].
    eapply (push_first_spec flt Hd f a H Oa); [by rewrite Et | apply single_int; auto].
  - apply Exact_andM; [apply Exact_str |].
    eapply (push_first_spec flt Hd f a H Oa); [by rewrite Et | apply single_int; auto].
  - apply Exact_andM; [apply Exact_str |].
    eapply (push_first_spec flt Hd f a H Oa); [by rewrite Et | by apply single_search].
Qed.

Lemma push_filter_fields_spec n fs : forall i afs,
  Forall2 (holds flt) fs afs -> Forall afield_ok afs ->
  Forall (fun a => Forall key_bytes_ok (a_keys a) /\ a_type a <> CUSTOM) afs ->
  n = i + zlen fs ->
  Exact (push_filter_fields flt n i fs) (commas (map afield_text afs)).
Proof.
  induction fs as [| f fs IH]; intros i afs F Oa Ha Hn.
  - apply Forall2_nil_inv_l in F as ->. apply Exact_nil.
  - apply Forall2_cons_inv_l in F as (a & afs' & H & F & ->).
    apply Forall_cons_iff in Oa as [Oa1 Oa]. apply Forall_cons_iff in Ha as [[Hb Nc] Ha].
    rewrite zlen_cons in Hn. cbn [push_filter_fields map commas]. rewrite app_assoc.
    apply Exact_andM; [| apply IH; try done; lia].
    apply Exact_andM; [by apply push_filter_field_spec |].
    apply Forall2_length in F. pose proof (zlen_nonneg fs).
    destruct (Z.eqb_spec i (n - 1)) as [C | C]; destruct (decide (map afield_text afs' = [])) as [D | D];
      cbn [negb]; try (apply Exact_nil || apply Exact_byte); exfalso.
    + apply D. destruct afs'; [done |]. unfold zlen in *. simpl in F. lia.
    + apply map_eq_nil in D as ->. unfold zlen in *. simpl in F. lia.
Qed.
End json_fields.

(** The declaration with the keys of each field in the order the filter holds
    them. *)
Definition reordered (a b : afield) : Prop :=
  a_type b = a_type a /\ a_tag b = a_tag a /\ a_keys b ≡ₚ a_keys a /\
  sorted_keys (a_type b) (a_keys b).

Lemma afield_ok_reordered a b : reordered a b -> afield_ok a -> afield_ok b.
Proof.
  intros (T & G & P & _) [O1 O2 O3 O4 O5]. split.
  - rewrite T. by rewrite P.
  - intros k1 k2. rewrite P. apply O2.
  - rewrite T. intros Hs. specialize (O3 Hs). apply Permutation_length in P. unfold zlen in *. lia.
  - rewrite T, G. done.
  - rewrite T. intros Hs Hb. apply (O5 Hs), Permutation_nil. by rewrite <- Hb.
Qed.

Lemma holds_reordered flt f a : field_rep (data flt) f a ->
  exists b, reordered a b /\ holds flt f b.
Proof.
  intros [T G E (ks & P & F & S)]. exists (mk_afield (a_type a) (a_tag a) ks).
  split; [split; [done | split; [done |]] | split; [done | done]].
  cbn [a_keys a_type]. rewrite <- T. done.
Qed.

Lemma all_holds flt fs afs : Forall2 (field_rep (data flt)) fs afs ->
  exists bfs, Forall2 reordered afs bfs /\ Forall2 (holds flt) fs bfs.
Proof.
  induction 1 as [| f a fs afs R _ (bfs & B1 & B2)]; [by exists [] |].
  destruct (holds_reordered flt f a R) as (b & Rb & Hb). exists (b :: bfs). by split; constructor.
Qed.

Lemma reordered_side afs bfs : Forall2 reordered afs bfs -> Forall afield_ok afs ->
  Forall (fun a => Forall key_bytes_ok (a_keys a) /\ a_type a <> CUSTOM) afs ->
  Forall afield_ok bfs /\ Forall (fun a => Forall key_bytes_ok (a_keys a) /\ a_type a <> CUSTOM) bfs.
Proof.
  induction 1 as [| a b afs bfs R _ IH]; intros Oa Ha; [done |].
  apply Forall_cons_iff in Oa as [Oa1 Oa]. apply Forall_cons_iff in Ha as [[Hb Nc] Ha].
  destruct (IH Oa Ha) as [I1 I2]. split; constructor; try done.
  - by eapply afield_ok_reordered.
  - destruct R as (T & _ & P & _). rewrite T. split; [by rewrite P | done].
Qed.

Lemma ndb_filter_json_spec afs s : declared_ok afs ->
  Forall (fun a => Forall key_bytes_ok (a_keys a) /\ a_type a <> CUSTOM) afs ->
  cwf s -> c_p (snd s) = c_start (snd s) ->
  exists flt bfs, build_filter afs ndb_filter_init = Some (true, flt) /\ Forall2 reordered afs bfs /\
    let d := filter_text bfs ++ [0] in
    (c_p (snd s) + zlen d <= c_end (snd s) ->
      exists s', ndb_filter_json flt s = Some (zlen d, s') /\ pushed s d s') /\
    (c_end (snd s) < c_p (snd s) + zlen d ->
      exists s', ndb_filter_json flt s = Some (0, s') /\ frame s s').
Proof.
  intros Oa Ha Hs Hp. destruct (build_filter_spec afs Oa) as (flt & E & Fin & F & Hd).
  destruct (all_holds flt _ _ F) as (bfs & B1 & B2).
  destruct (reordered_side _ _ B1 (do_fields _ Oa) Ha) as [O1 O2].
  assert (X : Exact (cursor_push_str [123] &&*
       push_filter_fields flt (zlen (fields flt)) 0 (fields flt) &&*
       cursor_push_c_str (Some [125])) (filter_text bfs ++ [0])).
  { unfold filter_text. eapply Exact_eq.
    - apply Exact_andM; [apply Exact_andM; [apply Exact_str |] | exact (Emits_push_c_str [125])].
      by eapply push_filter_fields_spec.
    - by rewrite <- !app_assoc. }
  exists flt, bfs. split; [done |]. split; [done |]. unfold ndb_filter_json. rewrite Fin. simpl negb. cbv iota.
  exact (written_spec _ _ _ s X Hs Hp).
Qed.

(** The JSON of a finished filter is exactly the object with one member per
    declared field, in the order of declaration, ids in hex, strings escaped,
    the keys of ids, authors, kinds and relays in ascending order; it is
    followed by a terminating zero.  With too little room the writer returns 0.
    Fields of ids, authors and relays are not empty, since ending an empty one
    fails an assertion; a field of custom callbacks has no JSON form and is
    excluded. *)
Theorem filter_json_exact (afs : list afield) (s : mem * cursor) (Oa : declared_ok afs)
    (Ha : Forall (fun a => Forall key_bytes_ok (a_keys a) /\ a_type a <> CUSTOM) afs)
    (Hs : cwf s) (Hp : c_p (snd s) = c_start (snd s)) :
  exists flt bfs n s', build_filter afs ndb_filter_init = Some (true, flt) /\
    Forall2 reordered afs bfs /\ ndb_filter_json flt s = Some (n, s') /\ frame s s' /\
    (if decide (c_p (snd s) + zlen (filter_text bfs ++ [0]) <= c_end (snd s))
     then n = zlen (filter_text bfs ++ [0]) /\
          loadn (fst s') (c_start (snd s)) n = Some (filter_text bfs ++ [0])
     else n = 0).
Proof.
  destruct (ndb_filter_json_spec afs s Oa Ha Hs Hp) as (flt & bfs & E & B1 & A & B). exists flt, bfs.
  destruct (decide _) as [Hr | Hr].
  - destruct (A Hr) as (s' & E' & P). exists (zlen (filter_text bfs ++ [0])), s'.
    split; [done |]. split; [done |]. split; [done |]. split; [eapply pushed_frame; eauto; lia |].
    split; [done |]. rewrite <- Hp. by apply pushed_loadn.
  - destruct (B ltac:(lia)) as (s' & E' & P). exists 0, s'. done.
Qed.

(** ** Witnesses *)

(** {"kinds":[7,1],"ids":[aa..],"#p":[07..],"until":2^31+1,"search":"hi"} *)
Definition demo_fields : list afield :=
  [ mk_afield KINDS 0 [KInt 7; KInt 1];
    mk_afield IDS 0 [KId (replicate 32 0xbb); KId (replicate 32 0xaa)];
    mk_afield TAGS 112 [KId (replicate 32 7)];
    mk_afield UNTIL 0 [KInt (2 ^ 31 + 1)];
    mk_afield SEARCH 0 [KStr [104; 105]] ].

Definition demo_fnote : fnote :=
  mk_fnote (replicate 32 0xaa) (replicate 32 0xbb) 1 (2 ^ 31)
    [[(NDB_PACKED_STR, EStr [112]); (NDB_PACKED_ID, EId (replicate 32 7))]] [] (fun _ => false).

Lemma demo_reads : note_reads (fun _ _ _ => false) demo_note 0 demo_fnote.
Proof. split; [exact demo_note_bytes | vm_compute; reflexivity .. | done]. Qed.

(** Uniform and single keys of a list known at check time. *)
Definition uniform_dec (ks : list key) : bool :=
  forallb (fun k1 => forallb (fun k2 => bool_decide (key_elem k1 = key_elem k2)) ks) ks.

Lemma uniform_dec_spec ks : uniform_dec ks = true ->
  forall k1 k2, k1 ∈ ks -> k2 ∈ ks -> key_elem k1 = key_elem k2.
Proof.
  unfold uniform_dec. rewrite forallb_forall. intros H k1 k2 H1 H2.
  specialize (H k1 (proj1 (list_elem_of_In _ _) H1)). rewrite forallb_forall in H.
  specialize (H k2 (proj1 (list_elem_of_In _ _) H2)). by apply bool_decide_eq_true in H.
Qed.

Definition distinct_dec (afs : list afield) : bool :=
  bool_decide (NoDup (map a_type (List.filter (fun a => negb (bool_decide (a_type a = TAGS))) afs))).

Lemma distinct_dec_spec afs : distinct_dec afs = true -> distinct_types afs.
Proof.
  unfold distinct_dec. rewrite bool_decide_eq_true. unfold distinct_types.
  induction afs as [| c afs IH]; intros H i j a b Hij Ha Hb Hn; [by rewrite lookup_nil in Ha |].
  destruct j as [| j]; [lia |]. cbn [List.filter] in H.
  destruct i as [| i]; simpl in Ha, Hb.
  - injection Ha as ->. intros E. rewrite bool_decide_eq_false_2 in H by congruence. simpl in H.
    apply NoDup_cons in H as [H _]. apply H. rewrite E. apply list_elem_of_In, in_map, filter_In.
    split; [apply list_elem_of_In, list_elem_of_lookup; eauto |]. by rewrite bool_decide_eq_false_2.
  - assert (H' : NoDup (map a_type (List.filter (fun a => negb (bool_decide (a_type a = TAGS))) afs))).
    { destruct (bool_decide (a_type c = TAGS)); simpl in H; [done |]. by apply NoDup_cons in H as [_ H]. }
    apply (IH H' i j a b); [lia | done ..].
Qed.

Lemma demo_fields_ok : declared_ok demo_fields.
Proof.
  split.
  - repeat constructor; try (intros k1 k2; apply uniform_dec_spec; vm_compute; reflexivity);
      try (vm_compute; done); try (by intros b []%elem_of_nil).
  - apply distinct_dec_spec. vm_compute. done.
  - vm_compute. done.
  - vm_compute. done.
  - vm_compute. done.
Qed.

Lemma filter_build_matches_witness :
  exists flt, build_filter demo_fields ndb_filter_init = Some (true, flt) /\
    ndb_filter_matches_with_relay (fun _ _ _ => false) flt demo_note 0 (Some []) = Some true.
Proof.
  destruct (filter_build_matches (fun _ _ _ => false) demo_fields demo_fields_ok) as (flt & E & H).
  exists flt. split; [exact E |].
  exact (eq_trans (H demo_note 0 demo_fnote demo_reads) ltac:(vm_compute; reflexivity)).
Defined.

Lemma printable_dec afs :
  forallb (fun a => forallb (fun k => forallb (fun b => (0 <=? b) && (b <? 256)) (key_bytes k)) (a_keys a)
                    && negb (bool_decide (a_type a = CUSTOM))) afs = true ->
  Forall (fun a => Forall key_bytes_ok (a_keys a) /\ a_type a <> CUSTOM) afs.
Proof.
  rewrite forallb_forall. intros H. apply List.Forall_forall. intros a Hin.
  specialize (H a Hin). apply andb_true_iff in H as [H1 H2]. split.
  - apply List.Forall_forall. intros k Hk. rewrite forallb_forall in H1. apply bytes_ok_dec. by apply H1.
  - apply negb_true_iff, bool_decide_eq_false in H2. done.
Qed.

Lemma filter_json_exact_witness :
  exists flt bfs n s', build_filter demo_fields ndb_filter_init = Some (true, flt) /\
    Forall2 reordered demo_fields bfs /\
    ndb_filter_json flt (demo_cursor 500) = Some (n, s') /\ frame (demo_cursor 500) s' /\
    (if decide (zlen (filter_text bfs ++ [0]) <= 500)
     then n = zlen (filter_text bfs ++ [0]) /\ loadn (fst s') 0 n = Some (filter_text bfs ++ [0])
     else n = 0).
Proof.
  apply (filter_json_exact demo_fields (demo_cursor 500) demo_fields_ok);
    [apply printable_dec; vm_compute; reflexivity | exact (demo_cwf 500) | reflexivity].
Defined.

(** ** Comparison *)

(** Two elements are compared by the values they stand for. *)
Definition elem_eq (a_filt : filter) (a : field) (b_filt : filter) (b : field) (i : nat) : option bool :=
  match f_elem a with
  | ELEM_CUSTOM =>
      x ← ndb_filter_get_custom_element a_filt a;
      y ← ndb_filter_get_custom_element b_filt b; Some (memcmp x y =? 0)
  | ELEM_UNKNOWN => Some false
  | ELEM_STRING =>
      x ← ndb_filter_get_string_element a_filt a i;
      y ← ndb_filter_get_string_element b_filt b i; Some (strcmp x y =? 0)
  | ELEM_ID =>
      x ← ndb_filter_get_id_element a_filt a i;
      y ← ndb_filter_get_id_element b_filt b i; Some (memcmp x y =? 0)
  | ELEM_INT =>
      x ← ndb_filter_get_int_element a i;
      y ← ndb_filter_get_int_element b i; Some (x =? y)
  end.

Section eq.
Context (fa fb : filter) (Ha : zlen (data fa) < 2 ^ 31) (Hb : zlen (data fb) < 2 ^ 31).

Lemma elem_eq_spec f g i e e' k k' :
  f_elem f = f_elem g -> elements f !! i = Some e -> elements g !! i = Some e' ->
  elem_rep (data fa) (f_elem f) e k -> elem_rep (data fb) (f_elem g) e' k' ->
  (f_elem f = ELEM_CUSTOM -> i = 0%nat) ->
  elem_eq fa f fb g i = Some (bool_decide (k = k')).
Proof.
  intros Ee Ei Ei' R R' Hc. unfold elem_eq, ndb_filter_get_custom_element,
    ndb_filter_get_string_element, ndb_filter_get_id_element, ndb_filter_get_int_element.
  rewrite <- Ee in R'.
  destruct (f_elem f), k, k'; try done.
  - rewrite Ei, Ei'. cbn [mbind option_bind].
    rewrite (str_at_rep fa Ha _ _ R), (str_at_rep fb Hb _ _ R'). cbn [mbind option_bind].
    rewrite strcmp_eq0. f_equal. apply bool_decide_ext. split; congruence.
  - rewrite Ei, Ei'. cbn [mbind option_bind].
    rewrite (id_at_rep fa Ha _ _ R), (id_at_rep fb Hb _ _ R'). cbn [mbind option_bind].
    destruct R as [_ R], R' as [_ R'].
    rewrite memcmp_eq0 by (apply loadn_length in R, R'; lia). f_equal. apply bool_decide_ext. split; congruence.
  - rewrite Ei, Ei'. cbn [mbind option_bind]. destruct R as [-> _], R' as [-> _]. f_equal.
    destruct (Z.eqb_spec i0 i1); symmetry; [by apply bool_decide_eq_true_2; f_equal |
      apply bool_decide_eq_false_2; congruence].
  - rewrite (Hc eq_refl) in *. rewrite Ei, Ei'. cbn [mbind option_bind].
    rewrite (custom_at_rep fa Ha _ _ R), (custom_at_rep fb Hb _ _ R'). cbn [mbind option_bind].
    destruct R as [_ R], R' as [_ R'].
    rewrite memcmp_eq0 by (apply loadn_length in R, R'; lia). f_equal. apply bool_decide_ext. split; congruence.
Qed.

Lemma field_eq_loop_spec f g : forall k i ks ks',
  f_elem f = f_elem g ->
  Forall2 (elem_rep (data fa) (f_elem f)) (drop i (elements f)) ks ->
  Forall2 (elem_rep (data fb) (f_elem g)) (drop i (elements g)) ks' ->
  k = length ks -> k = length ks' -> (f_elem f = ELEM_CUSTOM -> i + k <= 1)%nat ->
  field_eq_loop fa f fb g i k = Some (bool_decide (ks = ks')).
Proof.
  induction k as [| k IH]; intros i ks ks' Ee F F' L L' Hc.
  - destruct ks, ks'; try done.
  - destruct ks as [| k0 ks], ks' as [| k0' ks']; try done. simpl in L, L'.
    apply Forall2_cons_inv_r in F as (e & es & Rk & F & Ed).
    apply Forall2_cons_inv_r in F' as (e' & es' & Rk' & F' & Ed').
    assert (D : forall T (l : list T) x xs, drop i l = x :: xs -> l !! i = Some x /\ drop (S i) l = xs).
    { intros T l x xs E. split.
      - rewrite <- (Nat.add_0_r i), <- lookup_drop, E. done.
      - replace (S i) with (i + 1)%nat by lia. rewrite <- drop_drop, E. done. }
    apply D in Ed as [Ei Ed]. apply D in Ed' as [Ei' Ed'].
    cbn [field_eq_loop]. fold (elem_eq fa f fb g i).
    rewrite (elem_eq_spec f g i e e' k0 k0') by (done || (intros C; specialize (Hc C); lia)).
    cbn [mbind option_bind]. destruct (decide (k0 = k0')) as [-> | C].
    + rewrite bool_decide_eq_true_2 by done. rewrite (IH _ ks ks'); try done; try lia;
        try (by rewrite ?Ed, ?Ed').
      * f_equal. apply bool_decide_ext. split; congruence.
      * intros C. specialize (Hc C). lia.
    + rewrite bool_decide_eq_false_2 by done. f_equal. symmetry. apply bool_decide_eq_false_2. congruence.
Qed.

(** Comparing two represented fields: same type, same keys in the order held;
    an empty field without an element type equals nothing. *)
Lemma field_eq_spec f g a b :
  holds fa f a -> holds fb g b -> afield_ok a -> afield_ok b ->
  (f_elem g = ELEM_UNKNOWN -> elements g = []) ->
  exists r, ndb_filter_field_eq fa f fb g = Some r /\
    (r = true -> a_type a = a_type b /\ a_keys a = a_keys b).
Proof.
  intros (T & _ & F) (T' & _ & F') Oa Ob Hu. unfold ndb_filter_field_eq, f_count.
  pose proof (Forall2_length _ _ _ F) as L. pose proof (Forall2_length _ _ _ F') as L'.
  destruct (Z.eqb_spec (zlen (elements f)) (zlen (elements g))) as [C |]; [| by exists false].
  case_bool_decide as C2; [| by exists false]. case_bool_decide as C3; [| by exists false].
  cbn [negb]. case_bool_decide as C4; [by exists false |].
  rewrite (field_eq_loop_spec f g _ 0 (a_keys a) (a_keys b)); try done.
  - eexists. split; [done |]. rewrite bool_decide_eq_true. rewrite <- T, <- T'. done.
  - unfold zlen in *. lia.
  - intros E. assert (S1 : elements f = [] \/ a_type a = CUSTOM).
    { destruct (elements f) as [| e es]; [by left | right].
      apply Forall2_cons_inv_l in F as (k & ks & Rk & F & Ek). rewrite E in Rk.
      pose proof (ao_keys _ Oa) as Ok. rewrite Ek in Ok. apply Forall_cons_iff in Ok as [Ok _].
      destruct k; try done. destruct (a_type a); done. }
    destruct S1 as [-> | S1]; [simpl; lia |].
    pose proof (ao_single _ Oa) as Sg. rewrite S1 in Sg. specialize (Sg eq_refl).
    unfold zlen in *. lia.
Qed.
End eq.

Section filter_eq.
Context (fa fb : filter) (Ha : zlen (data fa) < 2 ^ 31) (Hb : zlen (data fb) < 2 ^ 31).
Context (bfs : list afield) (B : Forall2 (holds fb) (fields fb) bfs) (Ob : Forall afield_ok bfs).
Context (Hu : Forall (fun g => f_elem g = ELEM_UNKNOWN -> elements g = []) (fields fb)).

Lemma fields_found_spec fs afs :
  Forall2 (holds fa) fs afs -> Forall afield_ok afs ->
  exists r, fields_found fa fs fb false = Some r /\
    (r = true -> forall a, a ∈ afs -> exists b, b ∈ bfs /\ a_type b = a_type a /\ a_keys b = a_keys a).
Proof.
  induction 1 as [| f a fs afs H _ IH]; intros Oa.
  - exists true. split; [done |]. by intros _ a Ha'%elem_of_nil.
  - apply Forall_cons_iff in Oa as [Oa1 Oa]. destruct (IH Oa) as (r & E & Hr).
    cbn [fields_found]. unfold ndb_filter_find_elements.
    destruct (List.find _ (fields fb)) as [g |] eqn:Ef; [| by exists false].
    apply find_some in Ef as [Hg _]. apply list_elem_of_In, list_elem_of_lookup in Hg as [i Hi].
    destruct (Forall2_lookup_l _ _ _ _ _ B Hi) as (b & Ei & Hh).
    pose proof (Forall_lookup_1 _ _ _ _ Ob Ei) as Ob1.
    pose proof (Forall_lookup_1 _ _ _ _ Hu Hi) as Hu1.
    destruct (field_eq_spec fa fb Ha Hb f g a b H Hh Oa1 Ob1 Hu1) as (q & Eq & Hq).
    rewrite Eq. cbn [mbind option_bind]. destruct q; [| by exists false].
    exists r. split; [done |]. intros Ht a' [-> | Ha']%elem_of_cons; [| by apply Hr].
    exists b. split; [apply list_elem_of_lookup; eauto |]. by destruct (Hq eq_refl).
Qed.
End filter_eq.

(** Without tags a field's meaning is that of its type and the set of its keys. *)
Lemma meaning_keys n a b : a_type a = a_type b -> a_type a <> TAGS -> a_keys a ≡ₚ a_keys b ->
  afield_ok a -> afield_ok b -> meaning n a = meaning n b.
Proof.
  intros T Nt P Oa Ob. unfold meaning. rewrite <- T.
  assert (Sg : single (a_type a) = true -> a_keys a = a_keys b).
  { intros Hs. pose proof (ao_single _ Oa Hs) as L. unfold zlen in L.
    destruct (a_keys a) as [| k [|]]; simpl in L; try lia.
    symmetry. by apply Permutation_singleton_r. }
  assert (M : forall k, bool_decide (k ∈ a_keys a) = bool_decide (k ∈ a_keys b)).
  { intros k. apply bool_decide_ext. by rewrite P. }
  destruct (a_type a); try done; try (by rewrite (Sg eq_refl)); try apply M.
  induction (n_relays n) as [| r rs IH]; [done |]. cbn [existsb]. by rewrite M, IH.
Qed.

Lemma distinct_NoDup afs : distinct_types afs -> Forall (fun a => a_type a <> TAGS) afs ->
  NoDup (map a_type afs).
Proof.
  intros D N. apply NoDup_alt. intros i j t Hi Hj.
  rewrite list_lookup_fmap in Hi, Hj.
  destruct (afs !! i) as [a |] eqn:Ei; simpl in Hi; [| done].
  destruct (afs !! j) as [b |] eqn:Ej; simpl in Hj; [| done].
  assert (Na : a_type a <> TAGS) by exact (Forall_lookup_1 _ _ _ _ N Ei).
  assert (Nb : a_type b <> TAGS) by exact (Forall_lookup_1 _ _ _ _ N Ej).
  destruct (Nat.lt_trichotomy i j) as [L | [-> | L]]; [| done |]; exfalso.
  - apply (D i j a b L Ei Ej Nb). congruence.
  - apply (D j i b a L Ej Ei Na). congruence.
Qed.

(** Same number of fields, each of the first found in the second: same fields. *)
Lemma same_fields afs bfs :
  NoDup (map a_type afs) -> length afs = length bfs ->
  (forall a, a ∈ afs -> exists b, b ∈ bfs /\ a_type b = a_type a /\ a_keys b ≡ₚ a_keys a) ->
  map a_type afs ≡ₚ map a_type bfs.
Proof.
  intros N L H. apply submseteq_length_Permutation.
  - apply NoDup_submseteq; [done |]. intros t Ht.
    apply list_elem_of_In, in_map_iff in Ht as (a & <- & Hin). apply list_elem_of_In in Hin.
    destruct (H a Hin) as (b & Hb & E & _). apply list_elem_of_In, in_map_iff.
    exists b. split; [done |]. by apply list_elem_of_In.
  - rewrite !length_map. lia.
Qed.

Lemma NoDup_type_inj (bfs : list afield) b b' : NoDup (map a_type bfs) -> b ∈ bfs -> b' ∈ bfs ->
  a_type b = a_type b' -> b = b'.
Proof.
  intros N [i Hi]%list_elem_of_lookup [j Hj]%list_elem_of_lookup E.
  assert (i = j); [| congruence]. apply (proj1 (NoDup_alt _) N i j (a_type b)).
  - by rewrite list_lookup_fmap, Hi.
  - by rewrite list_lookup_fmap, Hj, E.
Qed.

Lemma eq_meaning n afs bfs : NoDup (map a_type afs) -> Forall (fun a => a_type a <> TAGS) afs ->
  length afs = length bfs -> Forall afield_ok afs -> Forall afield_ok bfs ->
  (forall a, a ∈ afs -> exists b, b ∈ bfs /\ a_type b = a_type a /\ a_keys b ≡ₚ a_keys a) ->
  forallb (meaning n) afs = forallb (meaning n) bfs.
Proof.
  intros N Nt L Oa Ob H. pose proof (same_fields _ _ N L H) as P.
  assert (Nb : NoDup (map a_type bfs)) by (by rewrite <- P).
  assert (Step : forall a, a ∈ afs -> exists b, b ∈ bfs /\ a_type b = a_type a /\ meaning n a = meaning n b).
  { intros a Hin. destruct (H a Hin) as (b & Hb & E & K). exists b. split; [done |]. split; [done |].
    apply meaning_keys; try done.
    - by apply (proj1 (Forall_forall _ _) Nt).
    - by apply (proj1 (Forall_forall _ _) Oa).
    - by apply (proj1 (Forall_forall _ _) Ob). }
  apply eq_bool_prop_intro. rewrite !Is_true_true, !forallb_forall. split; intros F x Hx%list_elem_of_In.
  - assert (Hx' : a_type x ∈ map a_type afs).
    { rewrite P. apply list_elem_of_In, in_map. by apply list_elem_of_In. }
    apply list_elem_of_In, in_map_iff in Hx' as (a & Ea & Hin). apply list_elem_of_In in Hin as Hin'.
    destruct (Step a Hin') as (b & Hb & E & M).
    assert (b = x) as -> by (eapply NoDup_type_inj; eauto; congruence).
    rewrite <- M. by apply F.
  - destruct (Step x Hx) as (b & Hb & E & ->). apply F. by apply list_elem_of_In.
Qed.

(** [ndb_filter_eq] is a sound test for filters without tag fields: on two
    finished filters it always answers, and when it says they are equal they
    match the same notes. *)
Theorem filter_eq_sound (afs bfs : list afield) (Oa : declared_ok afs) (Ob : declared_ok bfs)
    (Nt : Forall (fun a => a_type a <> TAGS) afs) :
  exists fa fb r, build_filter afs ndb_filter_init = Some (true, fa) /\
    build_filter bfs ndb_filter_init = Some (true, fb) /\ ndb_filter_eq fa fb = Some r /\
    (r = true -> forall n, forallb (meaning n) afs = forallb (meaning n) bfs).
Proof.
  destruct (build_filter_spec afs Oa) as (fa & Ea & _ & Fa & Ha).
  destruct (build_filter_spec bfs Ob) as (fb & Eb & _ & Fb & Hb).
  destruct (all_holds fa _ _ Fa) as (afs' & A1 & A2).
  destruct (all_holds fb _ _ Fb) as (bfs' & B1 & B2).
  assert (Rok : forall l l', Forall2 reordered l l' -> Forall afield_ok l -> Forall afield_ok l').
  { induction 1 as [| x y l l' R _ IH]; [done |]. intros [O1 O2]%Forall_cons_iff.
    constructor; [by eapply afield_ok_reordered | by apply IH]. }
  pose proof (Rok _ _ A1 (do_fields _ Oa)) as Oa'. pose proof (Rok _ _ B1 (do_fields _ Ob)) as Ob'.
  assert (Hu : Forall (fun g => f_elem g = ELEM_UNKNOWN -> elements g = []) (fields fb)).
  { apply Forall_lookup. intros i g Hi. destruct (Forall2_lookup_l _ _ _ _ _ Fb Hi) as (b & _ & R).
    apply (fr_elem _ _ _ R). }
  exists fa, fb. unfold ndb_filter_eq.
  destruct (Z.eqb_spec (zlen (fields fa)) (zlen (fields fb))) as [C | C]; [| by exists false].
  destruct (fields_found_spec fa fb Ha Hb bfs' B2 Ob' Hu (fields fa) afs' A2 Oa') as (r & Er & Hr).
  exists r. cbn [negb]. split; [done |]. split; [done |]. split; [done |]. intros Ht n.
  apply eq_meaning; [by apply distinct_NoDup; [apply (do_distinct _ Oa) |] | done | | apply Oa | apply Ob |].
  - apply Forall2_length in Fa, Fb. unfold zlen in C. lia.
  - intros a Hin. apply list_elem_of_lookup in Hin as [i Hi].
    destruct (Forall2_lookup_l _ _ _ _ _ A1 Hi) as (a' & Hi' & (T & _ & P & _)).
    destruct (Hr Ht a') as (b' & Hb' & T' & K'); [apply list_elem_of_lookup; eauto |].
    apply list_elem_of_lookup in Hb' as [j Hj].
    destruct (Forall2_lookup_r _ _ _ _ _ B1 Hj) as (b & Hj' & (Tb & _ & Pb & _)).
    exists b. split; [apply list_elem_of_lookup; eauto |]. split; [congruence |].
    by rewrite <- Pb, K'.
Qed.

(** The same ids and kinds in another order. *)
Definition demo_kinds (a b : Z) : list afield :=
  [mk_afield KINDS 0 [KInt a; KInt b]; mk_afield LIMIT 0 [KInt 20]].

Lemma demo_kinds_ok a b : is_u32 a -> is_u32 b -> declared_ok (demo_kinds a b).
Proof.
  intros Ra Rb. split; [| apply distinct_dec_spec; vm_compute; done | vm_compute; done ..].
  unfold demo_kinds. repeat constructor; cbn [a_type a_keys key_ok]; try done; try lia;
    try (destruct Ra; lia); try (destruct Rb; lia);
    intros k1 k2; intros; by repeat match goal with
      | H : _ ∈ [] |- _ => by apply elem_of_nil in H
      | H : _ ∈ _ :: _ |- _ => apply elem_of_cons in H as [-> | H]
      end.
Qed.

Lemma filter_eq_sound_witness :
  exists fa fb, build_filter (demo_kinds 7 1) ndb_filter_init = Some (true, fa) /\
    build_filter (demo_kinds 1 7) ndb_filter_init = Some (true, fb) /\
    ndb_filter_eq fa fb = Some true /\
    (forall n, forallb (meaning n) (demo_kinds 7 1) = forallb (meaning n) (demo_kinds 1 7)).
Proof.
  destruct (filter_eq_sound (demo_kinds 7 1) (demo_kinds 1 7)) as (fa & fb & r & E1 & E2 & E3 & H).
  - apply demo_kinds_ok; unfold is_u32; lia.
  - apply demo_kinds_ok; unfold is_u32; lia.
  - repeat apply List.Forall_cons; try apply List.Forall_nil; discriminate.
  - exists fa, fb. split; [exact E1 |]. split; [exact E2 |].
    vm_compute in E1, E2. injection E1 as <-. injection E2 as <-.
    vm_compute in E3. injection E3 as <-. split; [reflexivity | exact (H eq_refl)].
Defined.

(** ** Limits of the implementation *)

(** The table of field offsets has ten entries and ending a field does not
    check its bound: after ten declared fields, an eleventh (a tag field, the
    only kind that may repeat) can be started, and ending it writes outside the
    filter. *)
Theorem eleventh_field_overflows (afs : list afield) (tag : Z) (Oa : declared_ok afs)
    (Hn : zlen afs = NDB_NUM_FILTERS) (Hr : sum_Z (map field_cost afs) + 16 < 65536) :
  exists flt, (declare_all afs &&* ndb_filter_start_tag_field tag) ndb_filter_init = Some (true, flt) /\
    ndb_filter_end_field flt = None.
Proof.
  destruct (declare_all_spec afs [] ndb_filter_init) as (flt & E & R & X & _);
    try (by destruct Oa).
  rewrite (run_andM _ _ _ _ E). unfold ndb_filter_start_tag_field, ndb_filter_start_field_impl.
  rewrite bind_get, (rd_cur _ _ R).
  replace (existsb _ (fields flt)) with false.
  2: { symmetry. apply not_true_is_false. intros H. apply existsb_exists in H as (f & _ & H).
       apply andb_true_iff in H as [_ H]. by apply bool_decide_eq_true in H. }
  rewrite X. pose proof (rd_elem _ _ R) as Q. simpl app in Q. rewrite Q.
  destruct (Z.leb_spec (elem_end ndb_filter_init) (sum_Z (map field_cost afs) + 16)) as [C |].
  { change (elem_end ndb_filter_init) with 65536 in C. lia. }
  eexists. split; [reflexivity |]. unfold ndb_filter_end_field.
  rewrite (bind_current _ (mk_field TAGS ELEM_UNKNOWN tag [])) by done. rewrite bind_get.
  cbn [set_current fields]. pose proof (rd_fields _ _ R) as F. apply Forall2_length in F.
  destruct (Z.leb_spec NDB_NUM_FILTERS (zlen (fields flt))) as [_ | C]; [done |].
  unfold zlen in *. simpl app in F. lia.
Qed.

(** Ten tag fields. *)
Definition ten_tags : list afield := replicate 10 (mk_afield TAGS 116 [KStr [110]]).

Lemma ten_tags_ok : declared_ok ten_tags.
Proof.
  split; [| apply distinct_dec_spec; vm_compute; done | vm_compute; done ..].
  repeat constructor; try (intros k1 k2; apply uniform_dec_spec; vm_compute; reflexivity);
    try (vm_compute; done); try (by intros b []%elem_of_nil).
Qed.

Lemma eleventh_field_overflows_witness :
  exists flt, (declare_all ten_tags &&* ndb_filter_start_tag_field 112) ndb_filter_init
      = Some (true, flt) /\ ndb_filter_end_field flt = None.
Proof.
  exact (eleventh_field_overflows ten_tags 112 ten_tags_ok eq_refl ltac:(vm_compute; reflexivity)).
Defined.

(** [ndb_filter_eq] does not compare the letter of tag fields: a filter on
    the tag "p" and one on the tag "e" with the same id are called equal,
    though a note tagged with that "p" matches only the first. *)
Theorem filter_eq_ignores_tag_letter :
  exists fp fe,
    build_filter [mk_afield TAGS 112 [KId (replicate 32 7)]] ndb_filter_init = Some (true, fp) /\
    build_filter [mk_afield TAGS 101 [KId (replicate 32 7)]] ndb_filter_init = Some (true, fe) /\
    ndb_filter_eq fp fe = Some true /\
    ndb_filter_matches (fun _ _ _ => false) fp demo_note 0 = Some true /\
    ndb_filter_matches (fun _ _ _ => false) fe demo_note 0 = Some false.
Proof.
  eexists _, _. split; [vm_compute; reflexivity |]. split; [vm_compute; reflexivity |].
  vm_compute. done.
Qed.

(** The filters of a subscription are matched without a relay iterator, so a
    subscription whose filter names relays stops the process: whatever the
    note, as soon as the fields before it admit it the matcher fails its
    assertion. *)
Theorem relay_subscription_asserts (cb : list Z -> mem -> Z -> bool) (relays : list key)
    (Ok : declared_ok [mk_afield RELAYS 0 relays]) (m : mem) (note : Z) :
  exists flt g, build_filter [mk_afield RELAYS 0 relays] ndb_filter_init = Some (true, flt) /\
    ndb_filter_group_add ndb_filter_group_init flt = (true, g) /\
    ndb_filter_group_matches cb g m note = None.
Proof.
  destruct (build_filter_spec _ Ok) as (flt & E & Fin & F & _). exists flt, [flt].
  split; [done |]. split; [unfold ndb_filter_group_add, ndb_filter_clone; by rewrite Fin |].
  apply Forall2_cons_inv_r in F as (f & fs & R & F & Ef). apply Forall2_nil_inv_r in F as ->.
  unfold ndb_filter_group_matches. change (zlen [flt] =? 0) with false. cbv iota.
  cbn [group_matches_loop]. unfold ndb_filter_matches, ndb_filter_matches_with. rewrite Ef.
  cbn [matches_loop]. rewrite Z.land_0_r. simpl negb. cbv iota. unfold field_matches.
  by rewrite (fr_type _ _ _ R).
Qed.

Lemma relay_subscription_asserts_witness :
  exists flt g, build_filter [mk_afield RELAYS 0 [KStr [119; 115]]] ndb_filter_init = Some (true, flt) /\
    ndb_filter_group_add ndb_filter_group_init flt = (true, g) /\
    ndb_filter_group_matches (fun _ _ _ => false) g demo_note 0 = None.
Proof.
  apply (relay_subscription_asserts (fun _ _ _ => false) [KStr [119; 115]]).
  split; [| apply distinct_dec_spec; vm_compute; done | vm_compute; done ..].
  repeat constructor; try (intros k1 k2; apply uniform_dec_spec; vm_compute; reflexivity);
    try (vm_compute; done).
Defined.

(** A custom field ends up between commas in the JSON of a filter: the
    writer prints nothing for it but still prints the separator, so the object
    it produces is not JSON. *)
Theorem custom_field_stray_comma :
  exists flt n s',
    build_filter [mk_afield CUSTOM 0 [KCustom (replicate 16 0)]; mk_afield KINDS 0 [KInt 1]]
      ndb_filter_init = Some (true, flt) /\
    ndb_filter_json flt (demo_cursor 100) = Some (n, s') /\
    loadn (fst s') 0 (n - 1) = Some ([123; 44] ++ field_key "kinds"%string ++ [91; 49; 93; 125]).
Proof.
  eexists _, _, _. split; [vm_compute; reflexivity |]. split; [vm_compute; reflexivity |].
  vm_compute. reflexivity.
Qed.

(** Ending a field of ids, authors or relays without elements fails the assertion
    that they are pointers, so a filter that declares one cannot be built. *)
Lemma empty_id_field_asserts (t : fieldtype) (Ht : sorted_ptrs t = true) :
  build_filter [mk_afield t 0 []] ndb_filter_init = None.
Proof. by destruct t. Qed.
