(* ===== verification/FilterJson.v ===== *)
(** * Filters from JSON (src/src/nostrdb.c)

    [ndb_filter_from_json]: the tokens of a JSON object are walked and its
    members become fields of a filter, through the builder of Filter.v.  The
    index of the parser is threaded through the functions as an argument and a
    result. *)

From Stdlib Require Import String.
From S2P Require Export JsonPrint Messages Filter.

(** ** The fields of a filter *)

(** The letter of a key of two characters, the first a hash. *)
Definition tag_letter (s : list Z) : option Z :=
  match s with [h; c] => if h =? 35 then Some c else None | _ => None end.

(** The field a key names and the letter of a tag field. *)
Definition ndb_filter_parse_field (s : list Z) : option (fieldtype * Z) :=
  if bool_decide (s = bytes_of "authors") then Some (AUTHORS, 0)
  else if bool_decide (s = bytes_of "ids") then Some (IDS, 0)
  else if bool_decide (s = bytes_of "kinds") then Some (KINDS, 0)
  else match tag_letter s with
  | Some c => Some (TAGS, c)
  | None =>
      if bool_decide (s = bytes_of "since") then Some (SINCE, 0)
      else if bool_decide (s = bytes_of "until") then Some (UNTIL, 0)
      else if bool_decide (s = bytes_of "limit") then Some (LIMIT, 0)
      else if bool_decide (s = bytes_of "search") then Some (SEARCH, 0)
      else None
  end.

(** [hex_decode] of [2 * n] digits at [a] of the text, which stops reading at the
    first character that is no digit. *)
Fixpoint hex_decode_at (json : list Z) (a : Z) (n : nat) : option (option (list Z)) :=
  match n with
  | O => Some (Some [])
  | S n =>
      c1 ← load8 json a;
      match char_to_hex c1 with
      | None => Some None
      | Some v1 =>
          c2 ← load8 json (a + 1);
          match char_to_hex c2 with
          | None => Some None
          | Some v2 =>
              r ← hex_decode_at json (a + 2) n;
              Some (match r with Some l => Some (Z.lor (u8 (Z.shiftl v1 4)) v2 :: l) | None => None end)
          end
      end
  end.

Section filter.
Variables (json : list Z) (toks : Z -> option jsmntok) (num_tokens : Z).

Definition ftok (i : Z) : FM jsmntok := lift (toks i).
Definition ftext (t : jsmntok) : FM (list Z) := lift (loadn json (tk_start t) (toksize t)).

(** One step of a loop over elements: the rest of the loop if it succeeded. *)
Definition and_next (ok : FM bool) (i : Z) (next : FM (bool * Z)) : FM (bool * Z) :=
  let* b := ok in if b : bool then next else ret (false, i).

(** The loops over the items of an array leave the index at its last token. *)
Definition array_loop (loop : nat -> Z -> FM (bool * Z)) (i : Z) : FM (bool * Z) :=
  let* t := ftok i in
  if negb (is_type t JSMN_ARRAY) then ret (false, i + 1)
  else
    let* ' (ok, i) := loop (Z.to_nat (tk_size t)) (i + 1) in
    ret (ok, if ok : bool then i - 1 else i).

Fixpoint ids_loop (k : nat) (i : Z) : FM (bool * Z) :=
  match k with
  | O => ret (true, i)
  | S k =>
      let* t := ftok i in
      if negb (is_type t JSMN_STRING) then ret (false, i)
      else if negb (toksize t =? 64) then ret (false, i)
      else
        let* s := ftext t in
        match hex_decode s 32 with
        | None => ret (false, i)
        | Some id => and_next (ndb_filter_add_id_element id) i (ids_loop k (i + 1))
        end
  end.

Definition ndb_filter_parse_json_ids (i : Z) : FM (bool * Z) := array_loop ids_loop i.

(** The elements after the first: all ids, or all strings. *)
Fixpoint more_elems_loop (ids : bool) (k : nat) (i : Z) : FM (bool * Z) :=
  match k with
  | O => ret (true, i)
  | S k =>
      let* t := ftok i in
      if negb (is_type t JSMN_STRING) then ret (false, i)
      else if ids then
        let* r := lift (hex_decode_at json (tk_start t) 32) in
        match r with
        | None => ret (false, i)
        | Some id => and_next (ndb_filter_add_id_element id) i (more_elems_loop ids k (i + 1))
        end
      else
        let* s := ftext t in
        and_next (ndb_filter_add_str_element_len s) i (more_elems_loop ids k (i + 1))
  end.

Definition elems_loop (k : nat) (i : Z) : FM (bool * Z) :=
  match k with
  | O => ret (true, i)
  | S k =>
      let* t := ftok i in
      if negb (is_type t JSMN_STRING) then ret (false, i)
      else
        let* s := ftext t in
        match (if toksize t =? 64 then hex_decode s 32 else None) with
        | Some id => and_next (ndb_filter_add_id_element id) i (more_elems_loop true k (i + 1))
        | None => and_next (ndb_filter_add_str_element_len s) i (more_elems_loop false k (i + 1))
        end
  end.

Definition ndb_filter_parse_json_elems (i : Z) : FM (bool * Z) := array_loop elems_loop i.

Definition ndb_filter_parse_json_str (i : Z) : FM bool :=
  let* t := ftok i in
  if negb (is_type t JSMN_STRING) then ret false
  else let* s := ftext t in ndb_filter_add_str_element_len s.

Definition ndb_filter_parse_json_int (i : Z) : FM bool :=
  let* t := ftok i in
  if negb (is_type t JSMN_PRIMITIVE) then ret false
  else
    let* s := ftext t in
    match parse_unsigned_int s with
    | None => ret false
    | Some n => ndb_filter_add_int_element n
    end.

Fixpoint ints_loop (k : nat) (i : Z) : FM (bool * Z) :=
  match k with
  | O => ret (true, i)
  | S k => and_next (ndb_filter_parse_json_int i) i (ints_loop k (i + 1))
  end.

Definition ndb_filter_parse_json_ints (i : Z) : FM (bool * Z) := array_loop ints_loop i.

(** The value of a field. *)
Definition parse_json_value (field : fieldtype) (i : Z) : FM (bool * Z) :=
  match field with
  | CUSTOM => ret (true, i)
  | AUTHORS | IDS => ndb_filter_parse_json_ids i
  | SEARCH => let* ok := ndb_filter_parse_json_str i in ret (ok, i)
  | SINCE | UNTIL | LIMIT => let* ok := ndb_filter_parse_json_int i in ret (ok, i)
  | KINDS => ndb_filter_parse_json_ints i
  | RELAYS | TAGS => ndb_filter_parse_json_elems i
  end.

(** The members from token [i] on; every round moves the index. *)
Fixpoint parse_json_loop (fuel : nat) (i : Z) : FM bool :=
  match fuel with
  | O => ub
  | S fuel =>
      if num_tokens <=? i then ndb_filter_end
      else
        let* t := ftok i in
        let* s := ftext t in
        match ndb_filter_parse_field s with
        | None => parse_json_loop fuel (i + 2)
        | Some (field, tag) =>
            (if negb (tag =? 0) then ndb_filter_start_tag_field tag else ndb_filter_start_field field) &&*
            (let* ' (ok, i) := parse_json_value field (i + 1) in
             if ok : bool then
               do* ndb_filter_end_field in parse_json_loop fuel (i + 1)
             else ret false)
        end
  end.

Definition ndb_filter_parse_json (i : Z) : FM bool :=
  let* t := ftok i in
  if negb (is_type t JSMN_OBJECT) then ret false
  else parse_json_loop (S (Z.to_nat num_tokens)) (i + 1).

End filter.

(** The parser's memory next to the filter. *)
Definition FJ (A : Type) : Type := M ((mem * builder) * filter) A.
Definition on_parser {A} (w : BM A) : FJ A :=
  fun s => '(a, b) ← w (fst s); Some (a, (b, snd s)).
Definition on_filter {A} (w : FM A) : FJ A :=
  fun s => '(a, f) ← w (snd s); Some (a, (fst s, f)).

(** A buffer too small for a builder leaves the tokenizer unset, and its result
    is not looked at. *)
Definition ndb_filter_from_json (json : list Z) (junk_tok : Z -> jsmntok) (junk_i : Z)
    (buf bufsize : Z) : FJ Z :=
  let* s := get in
  if finalized (snd s) then ret 0
  else
    let* ok := on_parser (ndb_json_parser_init buf bufsize) in
    if negb ok then ub
    else
      let* ' (res, p) := lift (ndb_json_parser_parse json junk_tok junk_i (json_cap bufsize) None) in
      if res <? 0 then ret res
      else if jsp_num_tokens p <? 1 then ret 0
      else
        let* ok := on_filter (ndb_filter_parse_json json (jsp_toks p) (jsp_num_tokens p) (jsp_i p)) in
        ret (if ok : bool then 1 else 0).

(** ** What a text declares

    An id is a string of 64 hex digits; the elements of a tag field are ids when
    the first one is, strings as they stand in the text otherwise. *)

Definition id_key (v : Json.json) : option key :=
  match strip v with JString raw => id ← hex_decode raw 32; Some (KId id) | _ => None end.
Definition str_key (v : Json.json) : option key :=
  match strip v with JString raw => Some (KStr raw) | _ => None end.
Definition num_key (v : Json.json) : option key :=
  match strip v with JPrimitive raw => n ← decimal_value raw; Some (KInt n) | _ => None end.

Definition elem_keys (items : list Json.json) : option (list key) :=
  match items with
  | [] => Some []
  | v :: _ => match id_key v with Some _ => all_some id_key items | None => all_some str_key items end
  end.

Definition items_of (v : Json.json) : option (list Json.json) :=
  match strip v with JArray _ items => Some items | _ => None end.

(** The elements a value gives a field. *)
Definition field_keys (t : fieldtype) (v : Json.json) : option (list key) :=
  match t with
  | IDS | AUTHORS => items ← items_of v; all_some id_key items
  | KINDS => items ← items_of v; all_some num_key items
  | TAGS | RELAYS => items ← items_of v; elem_keys items
  | SINCE | UNTIL | LIMIT => k ← num_key v; Some [k]
  | SEARCH => k ← str_key v; Some [k]
  | CUSTOM => None
  end.

(** The fields the members of an object declare; a member with another key is
    passed over if its value is a single token. *)
Definition member_fields (m : list Z * list Z * list Z * Json.json) : option (list afield) :=
  match ndb_filter_parse_field (snd (fst (fst m))) with
  | Some (t, tag) => ks ← field_keys t (snd m); Some [mk_afield t tag ks]
  | None => flat_text (snd m) ≫= fun _ => Some []
  end.

Fixpoint members_fields (ms : note_members) : option (list afield) :=
  match ms with
  | [] => Some []
  | m :: ms => a ← member_fields m; afs ← members_fields ms; Some (a ++ afs)
  end.

(** ** The loops make the builder's calls *)

Lemma hex_decode_at_eq js n : forall a raw l,
  loadn js a (zlen raw) = Some raw -> hex_decode raw n = Some l -> hex_decode_at js a n = Some (Some l).
Proof.
  induction n as [| n IH]; intros a raw l Hl Hd.
  - destruct raw as [| c1 [| c2 raw]]; simpl in Hd; try done; [by injection Hd as <- |].
    by destruct (char_to_hex c1), (char_to_hex c2).
  - destruct raw as [| c1 [| c2 raw]]; simpl in Hd; try done.
    apply loadn_cons in Hl as [H1 Hl]. apply loadn_cons in Hl as [H2 Hl]. simpl. rewrite H1. simpl.
    destruct (char_to_hex c1) as [v1 |]; [| done]. rewrite H2. simpl.
    destruct (char_to_hex c2) as [v2 |]; [| done].
    destruct (hex_decode raw n) as [p |] eqn:E; [| done]. simpl in Hd. injection Hd as <-.
    replace (a + 2) with (a + 1 + 1) by lia. by rewrite (IH _ _ _ Hl E).
Qed.

(** A parser that adds the keys and ends at [i]. *)
Definition follows (w : FM (bool * Z)) (ks : list key) (i : Z) : Prop := forall s,
  match add_keys ks s with
  | Some (true, s') => w s = Some ((true, i), s')
  | Some (false, s') => exists i', w s = Some ((false, i'), s')
  | None => w s = None
  end.

Lemma follows_nil i : follows (ret (true, i)) [] i.
Proof. intros s. done. Qed.

Lemma follows_cons k ks i i' next : follows next ks i -> follows (and_next (add_key k) i' next) (k :: ks) i.
Proof.
  intros H s. cbn [add_keys]. unfold and_next, andM, bind.
  destruct (add_key k s) as [[[|] s'] |]; [apply H | by exists i' | done].
Qed.

Lemma follows_eq w w' ks i i' : follows w ks i -> (forall s, w' s = w s) -> i = i' -> follows w' ks i'.
Proof. intros H E <- s. specialize (H s). by rewrite E. Qed.

Lemma hex_decode_source n : forall s l, hex_decode s n = Some l -> zlen s = 2 * Z.of_nat n.
Proof.
  induction n as [| n IH]; intros s l H.
  - destruct s as [| c1 [| c2 s]]; simpl in H; try done.
    by destruct (char_to_hex c1), (char_to_hex c2).
  - destruct s as [| c1 [| c2 s]]; simpl in H; try done.
    destruct (char_to_hex c1), (char_to_hex c2); try done.
    destruct (hex_decode s n) eqn:E; [| done]. apply IH in E. rewrite !zlen_cons. lia.
Qed.

Section walk.
Variables (js : list Z) (ts : list jsmntok) (T : Z -> option jsmntok).
Hypothesis (HT : forall i t, tok_at ts i = Some t -> T i = Some t).

Abbreviation at_items := (at_items js ts).

Lemma ftok_eq i t s : tok_at ts i = Some t -> ftok T i s = Some (t, s).
Proof. intros H. unfold ftok, lift. by rewrite (HT _ _ H). Qed.

Lemma ftext_eq t raw s : toksize t = zlen raw -> loadn js (tk_start t) (zlen raw) = Some raw ->
  ftext js t s = Some (raw, s).
Proof. intros H L. unfold ftext, lift. by rewrite H, L. Qed.

Lemma str_tok par off n v raw items : strip v = JString raw -> at_items par off n (v :: items) ->
  exists t, (forall s, ftok T n s = Some (t, s)) /\ is_type t JSMN_STRING = true /\
    toksize t = zlen raw /\ loadn js (tk_start t) (zlen raw) = Some raw /\
    (forall s, ftext js t s = Some (raw, s)) /\
    at_items par (off + zlen (text v) + 1) (n + 1) items.
Proof.
  intros E H. apply (at_items_string _ _ _ _ _ _ _ _ E) in H as (t & Ht & Hty & Hl & Hd & H).
  exists t. split; [intros s; by apply ftok_eq |]. split; [unfold is_type; by rewrite Hty |].
  split; [done |]. split; [done |]. split; [intros s; by apply ftext_eq | done].
Qed.

(** A loop that adds one key for each item. *)
Definition adds (loop : nat -> Z -> FM (bool * Z)) (mk : Json.json -> option key) : Prop :=
  forall k v key par off n items, mk v = Some key -> at_items par off n (v :: items) ->
  (forall s, loop (S k) n s = and_next (add_key key) n (loop k (n + 1)) s) /\
  at_items par (off + zlen (text v) + 1) (n + 1) items.

Lemma items_follow loop mk items : (forall n, loop O n = ret (true, n)) -> adds loop mk ->
  forall ks par off n, all_some mk items = Some ks -> at_items par off n items ->
  follows (loop (length items) n) ks (n + zlen items).
Proof.
  intros H0 Hs. induction items as [| v items IH]; intros ks par off n Hk Hi.
  { injection Hk as <-. simpl. rewrite H0. replace (n + zlen []) with n by (unfold zlen; simpl; lia).
    apply follows_nil. }
  simpl in Hk. destruct (mk v) as [k |] eqn:Ek; [| done]. simpl in Hk.
  destruct (all_some mk items) as [ks' |] eqn:Eks; [| done]. injection Hk as <-.
  destruct (Hs (length items) v k par off n items Ek Hi) as [E Hi'].
  eapply follows_eq; [apply (follows_cons k ks' _ n), (IH _ _ _ _ eq_refl Hi') | exact E |].
  rewrite zlen_cons. lia.
Qed.

Lemma id_key_inv v k : id_key v = Some k -> exists raw id, strip v = JString raw /\
  hex_decode raw 32 = Some id /\ k = KId id /\ zlen raw = 64.
Proof.
  unfold id_key. destruct (strip v) as [raw | | | |]; try done. intros H.
  destruct (hex_decode raw 32) as [id |] eqn:E; [| done]. injection H as <-.
  exists raw, id. split; [done |]. split; [done |]. split; [done |]. by apply hex_decode_source in E.
Qed.

Lemma ids_loop_adds : adds (ids_loop js T) id_key.
Proof.
  intros k v key par off n items (raw & id & Ev & Eh & -> & H64)%id_key_inv Hi.
  destruct (str_tok _ _ _ _ _ _ Ev Hi) as (t & Et & Hty & Hl & _ & Ex & Hi'). split; [| exact Hi'].
  intros s. cbn [ids_loop]. rewrite (bind_eq _ _ _ _ _ (Et s)), Hty, Hl, H64. cbn [negb Z.eqb Pos.eqb].
  rewrite (bind_eq _ _ _ _ _ (Ex s)). by rewrite Eh.
Qed.

Lemma more_ids_adds : adds (more_elems_loop js T true) id_key.
Proof.
  intros k v key par off n items (raw & id & Ev & Eh & -> & H64)%id_key_inv Hi.
  destruct (str_tok _ _ _ _ _ _ Ev Hi) as (t & Et & Hty & Hl & Hd & Ex & Hi'). split; [| exact Hi'].
  intros s. cbn [more_elems_loop]. rewrite (bind_eq _ _ _ _ _ (Et s)), Hty. cbn [negb].
  pose proof (hex_decode_at_eq js 32 _ _ _ Hd Eh) as E.
  by erewrite bind_eq by (unfold lift; by rewrite E).
Qed.

Lemma more_strs_adds : adds (more_elems_loop js T false) str_key.
Proof.
  intros k v key par off n items Hk Hi. unfold str_key in Hk.
  destruct (strip v) as [raw | | | |] eqn:Ev; try done. injection Hk as <-.
  destruct (str_tok _ _ _ _ _ _ Ev Hi) as (t & Et & Hty & Hl & Hd & Ex & Hi'). split; [| exact Hi'].
  intros s. cbn [more_elems_loop]. rewrite (bind_eq _ _ _ _ _ (Et s)), Hty. cbn [negb].
  by rewrite (bind_eq _ _ _ _ _ (Ex s)).
Qed.

Lemma parse_int_adds v k par off n items : num_key v = Some k -> at_items par off n (v :: items) ->
  (forall s, ndb_filter_parse_json_int js T n s = add_key k s) /\
  at_items par (off + zlen (text v) + 1) (n + 1) items.
Proof.
  intros Hk Hi. unfold num_key in Hk. destruct (strip v) as [| raw | | |] eqn:Ev; try done.
  destruct (decimal_value raw) as [i |] eqn:Ep; [| done]. injection Hk as <-. apply decimal_parses in Ep.
  apply (at_items_primitive _ _ _ _ _ _ _ _ Ev) in Hi as (t & Ht & Hty & Hl & Hd & Hi). split; [| exact Hi].
  intros s. unfold ndb_filter_parse_json_int. rewrite (bind_eq _ _ _ _ _ (ftok_eq _ _ s Ht)).
  unfold is_type. rewrite Hty. cbn [negb].
  rewrite bool_decide_eq_true_2 by done. cbn [negb].
  rewrite (bind_eq _ _ _ _ _ (ftext_eq _ _ s Hl Hd)). by rewrite Ep.
Qed.

Lemma ints_loop_adds : adds (ints_loop js T) num_key.
Proof.
  intros k v key par off n items Hk Hi.
  destruct (parse_int_adds _ _ _ _ _ _ Hk Hi) as [E Hi']. split; [| exact Hi'].
  intros s. cbn [ints_loop]. unfold and_next, bind. by rewrite E.
Qed.

Lemma elems_follow items ks par off n : elem_keys items = Some ks -> at_items par off n items ->
  follows (elems_loop js T (length items) n) ks (n + zlen items).
Proof.
  destruct items as [| v items].
  { intros [= <-] _. replace (n + zlen []) with n by (unfold zlen; simpl; lia). apply follows_nil. }
  unfold elem_keys. destruct (id_key v) as [k |] eqn:Ek; intros Hk Hi; simpl in Hk.
  - rewrite Ek in Hk. destruct (all_some id_key items) as [ks' |] eqn:Eks; [| done]. injection Hk as <-.
    apply id_key_inv in Ek as (raw & id & Ev & Eh & -> & H64).
    destruct (str_tok _ _ _ _ _ _ Ev Hi) as (t & Et & Hty & Hl & _ & Ex & Hi').
    eapply follows_eq;
      [apply (follows_cons (KId id) ks' _ n), (items_follow _ _ _ (fun _ => eq_refl) more_ids_adds _ _ _ _ Eks Hi') | |];
      [| rewrite zlen_cons; lia].
    intros s. cbn [elems_loop length]. rewrite (bind_eq _ _ _ _ _ (Et s)), Hty. cbn [negb].
    rewrite (bind_eq _ _ _ _ _ (Ex s)), Hl, H64, Eh. done.
  - destruct (str_key v) as [k |] eqn:Es; [| done]. unfold id_key in Ek. unfold str_key in Es.
    destruct (strip v) as [raw | | | |] eqn:Ev; try done. injection Es as <-. simpl in Hk. destruct (all_some str_key items) as [ks' |] eqn:Eks; [| done]. injection Hk as <-.
    destruct (str_tok _ _ _ _ _ _ Ev Hi) as (t & Et & Hty & Hl & _ & Ex & Hi').
    eapply follows_eq;
      [apply (follows_cons (KStr raw) ks' _ n), (items_follow _ _ _ (fun _ => eq_refl) more_strs_adds _ _ _ _ Eks Hi') | |];
      [| rewrite zlen_cons; lia].
    intros s. cbn [elems_loop length]. rewrite (bind_eq _ _ _ _ _ (Et s)), Hty. cbn [negb].
    rewrite (bind_eq _ _ _ _ _ (Ex s)). destruct (hex_decode raw 32); [done |]. by destruct (toksize t =? 64).
Qed.

(** An array value. *)
Lemma array_follows loop items v off par n ks :
  items_of v = Some items -> here js off (text v) -> segment ts n (toks off par n v) ->
  (forall off' , at_items n off' (n + 1) items -> follows (loop (length items) (n + 1)) ks (n + 1 + zlen items)) ->
  follows (array_loop T loop n) ks (n + zlen items).
Proof.
  unfold items_of. destruct (strip v) as [| | ws items' | |] eqn:Ev; try done. intros [= ->] Hh Hs H.
  destruct (strip_array js v ws items Ev off par n Hh) as (o & e & Et & Hi). rewrite Et in Hs.
  apply segment_cons in Hs as [Ht Hs].
  specialize (H (o + 1 + zlen ws) (conj (fun _ => Hi) Hs)). intros s. specialize (H s).
  unfold array_loop. rewrite (bind_eq _ _ _ _ _ (ftok_eq _ _ s Ht)).
  unfold is_type. cbn [tk_type]. rewrite bool_decide_eq_true_2 by done. cbn [negb tk_size].
  rewrite to_nat_zlen. destruct (add_keys ks s) as [[[|] s'] |].
  - rewrite (bind_eq _ _ _ _ _ H). cbv beta iota. unfold ret. do 3 f_equal. lia.
  - destruct H as [i' H]. exists i'. by rewrite (bind_eq _ _ _ _ _ H).
  - unfold bind. by rewrite H.
Qed.

Lemma all_some_flat (mk : Json.json -> option key) items :
  (forall v k, mk v = Some k -> token_count v = 1) ->
  forall ks, all_some mk items = Some ks -> Forall (fun v => token_count v = 1) items.
Proof.
  intros H1. induction items as [| v items IH]; intros ks Hk; [constructor |].
  simpl in Hk. destruct (mk v) as [k |] eqn:E; [| done]. simpl in Hk.
  destruct (all_some mk items) as [ks' |]; [| done]. constructor; eauto.
Qed.

Lemma id_key_count v k : id_key v = Some k -> token_count v = 1.
Proof. rewrite <- token_count_strip. unfold id_key. by destruct (strip v). Qed.
Lemma str_key_count v k : str_key v = Some k -> token_count v = 1.
Proof. rewrite <- token_count_strip. unfold str_key. by destruct (strip v). Qed.
Lemma num_key_count v k : num_key v = Some k -> token_count v = 1.
Proof. rewrite <- token_count_strip. unfold num_key. by destruct (strip v). Qed.

Lemma elem_keys_flat items ks : elem_keys items = Some ks -> Forall (fun v => token_count v = 1) items.
Proof.
  destruct items as [| v items]; [constructor |]. unfold elem_keys. destruct (id_key v).
  - apply all_some_flat, id_key_count.
  - apply all_some_flat, str_key_count.
Qed.

Lemma items_count v items : items_of v = Some items -> Forall (fun v => token_count v = 1) items ->
  token_count v = 1 + zlen items.
Proof.
  unfold items_of. rewrite <- (token_count_strip v). destruct (strip v); try done. intros [= ->] H.
  simpl. f_equal. induction H as [| x l Hx _ IH]; [done |]. simpl. rewrite Hx, IH, zlen_cons. lia.
Qed.

Lemma at_items_one par off n v :
  here js off (text v) -> segment ts n (toks off par n v) -> at_items par off n [v].
Proof. intros Hh Hs. split; [intros _; simpl; by rewrite app_nil_r | simpl; by rewrite app_nil_r]. Qed.

Lemma follows_one (w : FM bool) k n : (forall s, w s = add_key k s) ->
  follows (let* ok := w in ret (ok, n)) [k] n.
Proof.
  intros H s. simpl. unfold andM, bind. rewrite H. destruct (add_key k s) as [[[|] s'] |]; [done | by exists n | done].
Qed.

Lemma parse_str_adds v k par off n : str_key v = Some k -> at_items par off n [v] ->
  forall s, ndb_filter_parse_json_str js T n s = add_key k s.
Proof.
  intros Hk Hi s. unfold str_key in Hk. destruct (strip v) as [raw | | | |] eqn:Ev; try done. injection Hk as <-.
  destruct (str_tok _ _ _ _ _ _ Ev Hi) as (t & Et & Hty & Hl & _ & Ex & Hi').
  unfold ndb_filter_parse_json_str. rewrite (bind_eq _ _ _ _ _ (Et s)), Hty. cbn [negb].
  by rewrite (bind_eq _ _ _ _ _ (Ex s)).
Qed.

(** The value of a field. *)
Lemma value_follows t v ks off par n :
  field_keys t v = Some ks -> here js off (text v) -> segment ts n (toks off par n v) ->
  follows (parse_json_value js T t n) ks (n + token_count v - 1).
Proof.
  intros Hk Hh Hs.
  assert (forall items loop, items_of v = Some items -> Forall (fun v => token_count v = 1) items ->
    (forall off', at_items n off' (n + 1) items -> follows (loop (length items) (n + 1)) ks (n + 1 + zlen items)) ->
    follows (array_loop T loop n) ks (n + token_count v - 1)) as Harr.
  { intros items loop Hit H1 Hf. rewrite (items_count _ _ Hit H1).
    replace (n + (1 + zlen items) - 1) with (n + zlen items) by lia. by eapply array_follows. }
  assert (forall k, num_key v = Some k ->
    follows (let* ok := ndb_filter_parse_json_int js T n in ret (ok, n)) [k] (n + token_count v - 1)) as Hnum.
  { intros k Ek. rewrite (num_key_count _ _ Ek). replace (n + 1 - 1) with n by lia.
    apply follows_one, (parse_int_adds _ _ _ _ _ _ Ek (at_items_one _ _ _ _ Hh Hs)). }
  destruct t; simpl in Hk; try done;
    try (destruct (num_key v) as [k |] eqn:Ek; [| done]; injection Hk as <-; by apply Hnum);
    try (destruct (items_of v) as [items |] eqn:Ei; [| done]; simpl in Hk).
  1,2: apply (Harr items); [done | by eapply all_some_flat, Hk; apply id_key_count |];
       intros off' Hi; eapply (items_follow _ _ _ (fun _ => eq_refl) ids_loop_adds); done.
  - apply (Harr items); [done | by eapply all_some_flat, Hk; apply num_key_count |].
    intros off' Hi. eapply (items_follow _ _ _ (fun _ => eq_refl) ints_loop_adds); done.
  - apply (Harr items); [done | by eapply elem_keys_flat |]. intros off' Hi. by eapply elems_follow.
  - destruct (str_key v) as [k |] eqn:Ek; [| done]. injection Hk as <-.
    rewrite (str_key_count _ _ Ek). replace (n + 1 - 1) with n by lia.
    by eapply follows_one, parse_str_adds, at_items_one.
  - apply (Harr items); [done | by eapply elem_keys_flat |]. intros off' Hi. by eapply elems_follow.
Qed.

Lemma parse_field_tag s t tag : raw_ok s = true -> ndb_filter_parse_field s = Some (t, tag) ->
  if decide (t = TAGS) then tag <> 0 else tag = 0.
Proof.
  intros Hr H. unfold ndb_filter_parse_field in H.
  repeat (destruct (bool_decide _); [injection H as <- <-; by rewrite decide_False |]).
  destruct (tag_letter s) as [c |] eqn:E.
  - injection H as <- <-. rewrite decide_True by done. intros ->.
    destruct s as [| h [| c [| x s]]]; try done. simpl in E. destruct (Z.eqb_spec h 35) as [-> |]; [| done].
    by injection E as ->.
  - repeat (destruct (bool_decide _); [injection H as <- <-; by rewrite decide_False |]). done.
Qed.

Lemma declare_one t tag ks w i next s :
  (if decide (t = TAGS) then tag <> 0 else tag = 0) -> follows w ks i ->
  ((if negb (tag =? 0) then ndb_filter_start_tag_field tag else ndb_filter_start_field t) &&*
   (let* ' (ok, i) := w in
    if ok : bool then do* ndb_filter_end_field in next (i + 1) else ret false)) s =
  (declare (mk_afield t tag ks) &&* next (i + 1)) s.
Proof.
  intros Ht Hw. unfold declare. cbn [a_type a_tag a_keys].
  set (st := if decide (t = TAGS) then ndb_filter_start_tag_field tag else ndb_filter_start_field t).
  transitivity ((st &&* (let* ' (ok, i) := w in
    if ok : bool then do* ndb_filter_end_field in next (i + 1) else ret false)) s).
  { unfold st. destruct (decide (t = TAGS)); [by destruct (Z.eqb_spec tag 0) | by rewrite Ht]. }
  transitivity ((st &&* add_keys ks &&* (do* ndb_filter_end_field in ret true) &&* next (i + 1)) s); [| reflexivity].
  unfold andM, bind. destruct (st s) as [[[|] s1] |]; try done.
  specialize (Hw s1). destruct (add_keys ks s1) as [[[|] s2] |].
  - rewrite Hw. by destruct (ndb_filter_end_field s2) as [[[] s3] |].
  - destruct Hw as [i' ->]. done.
  - by rewrite Hw.
Qed.

Lemma andM_assoc {S} (a b c : M S bool) s : ((a &&* b) &&* c) s = (a &&* (b &&* c)) s.
Proof. unfold andM, bind. destruct (a s) as [[[|] s1] |]; done. Qed.

Lemma parse_loop_declares num ms : num = zlen ts -> forall afs fuel par off n s,
  members_fields ms = Some afs -> forallb member_ok ms = true ->
  (ms <> [] -> here js off (commas (map member_text ms))) ->
  segment ts n (members_toks par off n ms) -> n + zlen (members_toks par off n ms) = num ->
  num - n < Z.of_nat fuel ->
  parse_json_loop js T num fuel n s = (declare_all afs &&* ndb_filter_end) s.
Proof.
  intros Hnum. induction ms as [| [[[w1 key] w2] v] ms IH]; intros afs fuel par off n s Hm Hok Hh Hs Hn Hf.
  { injection Hm as <-. unfold zlen in Hn. simpl in Hn. destruct fuel as [| fuel]; [lia |]. simpl.
    destruct (Z.leb_spec num n); [done | lia]. }
  simpl in Hm. destruct (member_fields (w1, key, w2, v)) as [a |] eqn:Ea; [| done]. simpl in Hm.
  destruct (members_fields ms) as [afs' |] eqn:Eafs; [| done]. injection Hm as <-.
  simpl in Hok. apply andb_true_iff in Hok as [Hok1 Hok]. unfold member_ok in Hok1. simpl in Hok1.
  apply andb_true_iff in Hok1 as [[[_ Hrk]%andb_true_iff _]%andb_true_iff Hokv].
  specialize (Hh ltac:(done)). rewrite commas_map_cons in Hh. apply here_app in Hh as [Hhm Hh].
  apply (member_here js ts) in Hhm as [Hkey Hv].
  cbn [members_toks member_toks] in Hs, Hn. set (ov := off + zlen w1 + 1 + zlen key + 1 + zlen w2 + 1) in *.
  set (tk := mk_tok JSMN_STRING _ _ _ _) in *.
  apply segment_app in Hs as [Hs Hs']. apply segment_cons in Hs as [Ht Hs].
  rewrite zlen_app in Hn. rewrite zlen_cons, toks_count in Hs', Hn.
  assert (0 < token_count v) as Hpos.
  { rewrite <- (toks_count v 0 0 0). pose proof (toks_nonempty v 0 0 0). lia. }
  pose proof (zlen_nonneg (members_toks par (off + zlen (member_text (w1, key, w2, v)) + 1)
    (n + (1 + token_count v)) ms)).
  assert (forall f s, num - n - 1 < Z.of_nat f ->
    parse_json_loop js T num f (n + (1 + token_count v)) s = (declare_all afs' &&* ndb_filter_end) s) as Hrest.
  { intros f s' Hf'. apply (IH afs' f par (off + zlen (member_text (w1, key, w2, v)) + 1)); try done; try lia.
    intros Hne. destruct ms; [done |]. by apply here_cons in Hh as [_ Hh]. }
  destruct fuel as [| fuel]; [lia |]. cbn [parse_json_loop].
  destruct (Z.leb_spec num n); [lia |].
  rewrite (bind_eq _ _ _ _ _ (ftok_eq _ _ s Ht)).
  rewrite (bind_eq _ _ _ _ _ (ftext_eq tk key s ltac:(unfold toksize; simpl; lia) Hkey)).
  unfold member_fields in Ea. cbn [fst snd] in Ea.
  destruct (ndb_filter_parse_field key) as [[t tag] |] eqn:Ef.
  - destruct (field_keys t v) as [ks |] eqn:Ek; [| done]. injection Ea as <-.
    rewrite (declare_one _ _ ks _ _ (parse_json_loop js T num fuel) s (parse_field_tag _ _ _ Hrk Ef)
               (value_follows t v ks ov n (n + 1) Ek Hv Hs)).
    cbn [app declare_all]. rewrite andM_assoc. unfold andM at 1 2, bind.
    destruct (declare (mk_afield t tag ks) s) as [[[|] s1] |]; try done.
    replace (n + 1 + token_count v - 1 + 1) with (n + (1 + token_count v)) by lia. apply Hrest. lia.
  - destruct (flat_text v) as [raw |] eqn:Ev; [| done]. injection Ea as <-.
    assert (token_count v = 1) as E1.
    { rewrite <- token_count_strip. unfold flat_text in Ev. by destruct (strip v). }
    cbn [app]. rewrite <- (Hrest fuel s) by lia. rewrite E1. by replace (n + (1 + 1)) with (n + 2) by lia.
Qed.

End walk.

(** ** The whole text *)

Definition parser_room (bufsize : Z) (buf : Z) (m : mem) : Prop :=
  geom_ok (mk_geom buf (bufsize / 2)) m /\ off.sizeof <= g_half (mk_geom buf (bufsize / 2)).

Lemma filter_from_json_text js junk_tok junk_i buf bufsize pre ws ms post afs m b flt :
  js = pre ++ text (JObject ws ms) ++ post ->
  spaces pre = true -> spaces ws = true -> spaces post = true -> forallb member_ok ms = true ->
  members_fields ms = Some afs -> parser_room bufsize buf m ->
  token_count (JObject ws ms) <= json_cap bufsize -> finalized flt = false ->
  exists mb, ndb_filter_from_json js junk_tok junk_i buf bufsize ((m, b), flt) =
    '(ok, flt') ← build_filter afs flt; Some (if ok : bool then 1 else 0, (mb, flt')).
Proof.
  intros Hjs Hpre Hws Hpost Hok Hm [Hg Hroom] Hcap Hfin.
  destruct (parser_ready js junk_tok junk_i (JPad pre (JObject ws ms) post) buf bufsize m b)
    as (Hcap' & Hne & s1 & E1 & R & Ep); try done.
  { simpl. rewrite Hpre, Hpost, Hws. simpl. by rewrite andb_true_r. }
  set (ts := Json.toks 0 (-1) 0 _) in *.
  exists s1. unfold ndb_filter_from_json. rewrite (bind_eq _ _ _ _ _ (eq_refl : get _ = Some (_, _))). cbn [snd]. rewrite Hfin.
  erewrite bind_eq by (unfold on_parser; cbn [fst snd]; by rewrite E1). cbn [negb].
  rewrite Ep, (bind_eq _ _ _ _ _ (eq_refl : lift (Some _) _ = Some (_, _))). cbv beta iota.
  cbn [Z.ltb Z.compare jsp_num_tokens jsp_toks jsp_i].
  destruct (Z.ltb_spec (zlen ts) 1); [lia |].
  assert (Hrun : ndb_filter_parse_json js (token_memory junk_tok (json_cap bufsize) ts) (zlen ts) 0 flt =
                 build_filter afs flt).
  { assert (forall i t, tok_at ts i = Some t -> token_memory junk_tok (json_cap bufsize) ts i = Some t) as HT
      by (intros i t; by apply token_memory_in).
    assert (here js 0 (pre ++ text (JObject ws ms) ++ post)) as Hall by (rewrite Hjs; apply here_all).
    apply here_app in Hall as [_ Hall]. apply here_app in Hall as [Hall _].
    change (text (JObject ws ms)) with ([123] ++ ws ++ commas (map member_text ms) ++ [125]) in Hall.
    apply here_cons in Hall as [_ Hall]. apply here_app in Hall as [_ Hall]. apply here_app in Hall as [Hall _].
    assert (segment ts 0 (toks (zlen pre) (-1) 0 (JObject ws ms))) as Hseg
      by (exists [], []; split; [by rewrite app_nil_r | done]).
    pose proof (toks_count (JObject ws ms) (zlen pre) (-1) 0) as Hc.
    assert (zlen ts = token_count (JObject ws ms)) as Hts by (unfold ts; by rewrite toks_count).
    rewrite toks_object in Hseg, Hc. rewrite zlen_cons in Hc. apply segment_cons in Hseg as [Ht Hseg].
    unfold ndb_filter_parse_json. rewrite (bind_eq _ _ _ _ _ (ftok_eq ts _ HT _ _ flt Ht)).
    unfold is_type. cbn [tk_type]. rewrite bool_decide_eq_true_2 by done. cbn [negb].
    change (0 + zlen pre) with (zlen pre) in Hall.
    apply (parse_loop_declares js ts _ HT (zlen ts) ms eq_refl afs _ 0 (zlen pre + 1 + zlen ws)); try done; lia. }
  unfold bind, on_filter. cbn [fst snd]. rewrite Hrun.
  destruct (build_filter afs flt) as [[[|] flt'] |]; done.
Qed.

(** C23: Parsing a filter makes the calls that build it.  Take the text of an object,
    whatever its white space, whose members have the values their names ask for
    (lists of strings of 64 hex digits, lists of strings, decimal numbers below
    2^32 or lists of them, a string) or, under names that are no field of a
    filter, relays among them, a string or primitive.  It is read by exactly the
    calls that declare the fields its members name (ids in hex, strings as they
    stand, numbers in decimal), from any state of the filter, through failures
    and failed assertions too: an empty list of ids or authors is one.  So what
    the builder guarantees of declared filters holds of parsed ones. *)
Theorem filter_from_json_builds (junk_tok : Z -> jsmntok) (junk_i buf bufsize : Z)
    (pre ws post : list Z) (ms : note_members) (afs : list afield) (m : mem) (b : builder) (flt : filter)
    (Hpre : spaces pre = true) (Hws : spaces ws = true) (Hpost : spaces post = true)
    (Hok : forallb member_ok ms = true) (Hm : members_fields ms = Some afs)
    (Hroom : parser_room bufsize buf m) (Hcap : token_count (JObject ws ms) <= json_cap bufsize)
    (Hfin : finalized flt = false) :
  exists mb, ndb_filter_from_json (pre ++ text (JObject ws ms) ++ post) junk_tok junk_i buf bufsize
      ((m, b), flt) =
    match build_filter afs flt with
    | Some (true, flt') => Some (1, (mb, flt'))
    | Some (false, flt') => Some (0, (mb, flt'))
    | None => None
    end.
Proof.
  destruct (filter_from_json_text _ junk_tok junk_i buf bufsize pre ws ms post afs m b flt eq_refl
              Hpre Hws Hpost Hok Hm Hroom Hcap Hfin) as (mb & E).
  exists mb. rewrite E. by destruct (build_filter afs flt) as [[[|] flt'] |].
Qed.

(** ** What is printed can be parsed *)

(** A key that comes back as it was: the parser keeps strings as they stand in
    the text, and takes a number modulo nothing but refuses it past 32 bits. *)
Definition plain_key (k : key) : Prop :=
  match k with
  | KId id => bytes_ok id
  | KStr s => escape s = s /\ hex_decode s 32 = None /\ bytes_ok s
  | KInt i => is_u32 i
  | KCustom _ => False
  end.

Record plain_field (a : afield) : Prop := {
  pf_keys : Forall plain_key (a_keys a);
  pf_type : a_type a <> RELAYS /\ a_type a <> CUSTOM;
  pf_tag : if decide (a_type a = TAGS) then is_byte (a_tag a) /\ raw_ok [35; a_tag a] = true
           else a_tag a = 0 }.

Definition key_value (k : key) : Json.json :=
  match k with
  | KId id => JString (hexs id)
  | KStr s => JString (escape s)
  | KInt i => JPrimitive (snprintf_u64 16 i)
  | KCustom _ => JString []
  end.

Definition field_name (a : afield) : list Z :=
  match a_type a with
  | IDS => bytes_of "ids" | AUTHORS => bytes_of "authors" | KINDS => bytes_of "kinds"
  | TAGS => [35; u8 (a_tag a)] | SINCE => bytes_of "since" | UNTIL => bytes_of "until"
  | LIMIT => bytes_of "limit" | SEARCH => bytes_of "search" | RELAYS => bytes_of "relays"
  | CUSTOM => []
  end.

Definition field_value (a : afield) : Json.json :=
  match a_type a, a_keys a with
  | (SINCE | UNTIL | LIMIT | SEARCH), k :: _ => key_value k
  | _, ks => JArray [] (map key_value ks)
  end.

Definition field_member (a : afield) : list Z * list Z * list Z * Json.json :=
  ([], field_name a, [], field_value a).
Definition filter_value (afs : list afield) : Json.json := JObject [] (map field_member afs).

Lemma text_key k : plain_key k -> text (key_value k) = Filter.key_text k.
Proof. by destruct k. Qed.

Lemma text_keys ks : Forall plain_key ks -> text (JArray [] (map key_value ks)) = keys_text ks.
Proof.
  intros H. cbn [text app]. unfold keys_text. simpl. do 3 f_equal. rewrite map_map.
  apply List.map_ext_in. intros k Hk. rewrite List.Forall_forall in H. by apply text_key, H.
Qed.

Lemma only_key a : afield_ok a -> single (a_type a) = true -> exists k, a_keys a = [k].
Proof.
  intros [_ _ H _] Hs. specialize (H Hs). destruct (a_keys a) as [| k [| k2 l]]; [done | by exists k |].
  rewrite !zlen_cons in H. pose proof (zlen_nonneg l). lia.
Qed.

Lemma text_field a : afield_ok a -> plain_field a -> member_text (field_member a) = afield_text a.
Proof.
  intros Ha [Hk [Hr Hc] _]. unfold member_text, field_member, Json.key_text, afield_text, field_name, field_value,
    field_key. cbn [snd app]. pose proof (text_keys _ Hk) as Et.
  destruct (a_type a) eqn:E; try done; try (rewrite Et; reflexivity);
    (destruct (only_key a Ha) as [k Ek]; [by rewrite E |]; rewrite Ek in *; simpl first_text;
     apply Forall_cons_iff in Hk as [Hk _]; rewrite <- (text_key _ Hk); reflexivity).
Qed.

Lemma text_filter afs : Forall afield_ok afs -> Forall plain_field afs ->
  text (filter_value afs) = filter_text afs.
Proof.
  intros Ha Hp. unfold filter_value, filter_text. cbn [text app]. simpl. do 3 f_equal.
  rewrite map_map. apply List.map_ext_in. intros a Hin. rewrite List.Forall_forall in Ha, Hp.
  exact (text_field a (Ha a Hin) (Hp a Hin)).
Qed.

Lemma key_value_ok t k : key_ok t k -> plain_key k -> value_ok (key_value k) = true.
Proof.
  destruct k as [id | s | i | c]; simpl; try done.
  - intros _ Hb. destruct (hexs_facts id Hb) as (_ & _ & D). by eapply raw_ok_hex, hex_decode_digits.
  - intros Hk _. apply raw_ok_escape. by destruct t.
  - intros _ Hi. rewrite snprintf_u64_u32 by exact Hi. by apply dec_ok.
Qed.

Lemma id_key_value t id : key_ok t (KId id) -> plain_key (KId id) -> id_key (key_value (KId id)) = Some (KId id).
Proof.
  simpl. intros Hk Hb. destruct (hexs_facts id Hb) as (_ & _ & D). unfold id_key. simpl.
  assert (length id = 32%nat) as E by (destruct t; simpl in Hk; try done; unfold zlen in Hk; lia).
  rewrite E in D. by rewrite D.
Qed.

Lemma str_key_value s : plain_key (KStr s) -> str_key (key_value (KStr s)) = Some (KStr s) /\
  id_key (key_value (KStr s)) = None.
Proof. simpl. intros (He & Hd & _). unfold str_key, id_key. simpl. by rewrite He, Hd. Qed.

Lemma num_key_value i : plain_key (KInt i) -> num_key (key_value (KInt i)) = Some (KInt i).
Proof. simpl. intros Hi. unfold num_key. simpl. by rewrite snprintf_u64_u32, value_dec. Qed.

Lemma keys_image (mk : Json.json -> option key) ks :
  Forall (fun k => mk (key_value k) = Some k) ks -> all_some mk (map key_value ks) = Some ks.
Proof. intros H. rewrite (all_some_comp _ _ (fun k => k)); [by rewrite map_id | done]. Qed.

Lemma elem_keys_image ks : Forall (key_ok TAGS) ks -> Forall plain_key ks ->
  (forall k1 k2, k1 ∈ ks -> k2 ∈ ks -> key_elem k1 = key_elem k2) ->
  elem_keys (map key_value ks) = Some ks.
Proof.
  intros Hk Hp Hu. destruct ks as [| k ks]; [done |].
  assert (forall k', k' ∈ k :: ks -> key_elem k' = key_elem k) as Hu' by (intros k' H; apply Hu; [done | constructor]).
  rewrite List.Forall_forall in Hk, Hp. unfold elem_keys. cbn [map].
  destruct k as [id | s | i | c]; [| | by destruct (Hk (KInt i) (or_introl eq_refl)) | by destruct (Hk (KCustom c) (or_introl eq_refl))].
  - rewrite (id_key_value TAGS); [| by apply Hk; left | by apply Hp; left].
    apply (keys_image id_key (KId id :: ks)). apply List.Forall_forall. intros k' Hin.
    specialize (Hu' k' (proj2 (list_elem_of_In _ _) Hin)). destruct k' as [id' | | |]; try done.
    apply (id_key_value TAGS); [by apply Hk | by apply Hp].
  - destruct (str_key_value s) as [_ En]; [by apply Hp; left |]. rewrite En.
    apply (keys_image str_key (KStr s :: ks)). apply List.Forall_forall. intros k' Hin.
    specialize (Hu' k' (proj2 (list_elem_of_In _ _) Hin)). destruct k' as [| s' | |]; try done.
    apply str_key_value. by apply Hp.
Qed.

Lemma ids_image t ks : t = IDS \/ t = AUTHORS -> Forall (key_ok t) ks -> Forall plain_key ks ->
  all_some id_key (map key_value ks) = Some ks.
Proof.
  intros Ht Hk Hp. apply keys_image, List.Forall_forall. intros k Hin. rewrite List.Forall_forall in Hk, Hp.
  specialize (Hk k Hin). destruct k as [id | | |]; try (by destruct Ht as [-> | ->]).
  eapply id_key_value; [exact Hk | by apply Hp].
Qed.

Lemma nums_image ks : Forall (key_ok KINDS) ks -> Forall plain_key ks ->
  all_some num_key (map key_value ks) = Some ks.
Proof.
  intros Hk Hp. apply keys_image, List.Forall_forall. intros k Hin. rewrite List.Forall_forall in Hk, Hp.
  specialize (Hk k Hin). destruct k as [| | i |]; try done. by apply num_key_value, Hp.
Qed.

Lemma field_keys_image a : afield_ok a -> plain_field a ->
  field_keys (a_type a) (field_value a) = Some (a_keys a).
Proof.
  intros Ha [Hk [Hr Hc] _]. pose proof Ha as [Hok Hu _ _]. unfold field_value.
  destruct (single (a_type a)) eqn:Es.
  - destruct (only_key a Ha Es) as [k Ek]. rewrite Ek in *.
    apply Forall_cons_iff in Hok as [Hok _]. apply Forall_cons_iff in Hk as [Hk _].
    destruct (a_type a); try done; destruct k as [| s | i |]; try done; unfold field_keys.
    1-3: by rewrite num_key_value.
    destruct (str_key_value s Hk) as [-> _]. done.
  - destruct (a_type a) eqn:Et; try done; unfold field_keys, items_of; cbn [strip mbind option_bind].
    + apply (ids_image IDS); auto.
    + apply (ids_image AUTHORS); auto.
    + by apply nums_image.
    + by apply elem_keys_image.
Qed.

Lemma field_value_ok a : afield_ok a -> plain_field a -> value_ok (field_value a) = true.
Proof.
  intros Ha [Hk [Hr Hc] _]. pose proof Ha as [Hok _ _ _].
  assert (value_ok (JArray [] (map key_value (a_keys a))) = true) as Hv.
  { simpl. rewrite forallb_image. apply forallb_forall. intros k Hin.
    rewrite List.Forall_forall in Hok, Hk. eapply key_value_ok; [by apply Hok | by apply Hk]. }
  unfold field_value. simpl in Hv.
  destruct (a_type a); try exact Hv; destruct (a_keys a); try done;
    simpl in Hv; by apply andb_true_iff in Hv as [-> _].
Qed.

Lemma field_member_parsed a : afield_ok a -> plain_field a ->
  member_ok (field_member a) = true /\ member_fields (field_member a) = Some [a].
Proof.
  intros Ha Hp. pose proof (field_keys_image a Ha Hp) as Hkeys. pose proof (field_value_ok a Ha Hp) as Hv.
  destruct Hp as [_ [Hr Hc] Ht].
  assert (raw_ok (field_name a) = true /\ ndb_filter_parse_field (field_name a) = Some (a_type a, a_tag a)) as [Hn Hf].
  { unfold field_name. destruct (a_type a) eqn:Et; try done; try (rewrite decide_False in Ht by done; by rewrite Ht).
    rewrite decide_True in Ht by done. destruct Ht as [Hb Ht].
    assert (u8 (a_tag a) = a_tag a) as -> by (apply Z.mod_small; exact Hb).
    split; [exact Ht |]. unfold ndb_filter_parse_field.
    repeat (rewrite bool_decide_eq_false_2 by done). done. }
  unfold member_ok, member_fields, field_member. cbn [fst snd]. rewrite Hn, Hv, Hf. split; [done |].
  rewrite Hkeys. by destruct a.
Qed.

Lemma filter_value_parsed afs : Forall afield_ok afs -> Forall plain_field afs ->
  forallb member_ok (map field_member afs) = true /\ members_fields (map field_member afs) = Some afs.
Proof.
  intros Ha Hp. induction afs as [| a afs IH]; [done |].
  apply Forall_cons_iff in Ha as [Ha1 Ha]. apply Forall_cons_iff in Hp as [Hp1 Hp].
  destruct (field_member_parsed a Ha1 Hp1) as [H1 H2]. destruct (IH Ha Hp) as [H3 H4].
  simpl. rewrite H1, H2, H3, H4. done.
Qed.

(** ** Fields in another order of elements *)

Lemma existsb_same {A} (f g : A -> bool) l : (forall x, f x = g x) -> existsb f l = existsb g l.
Proof. intros H. induction l as [| x l IH]; [done |]. simpl. by rewrite H, IH. Qed.

Lemma meaning_reordered n a b : reordered a b -> afield_ok a -> meaning n b = meaning n a.
Proof.
  intros (T & G & P & _) Ha. unfold meaning. rewrite T.
  assert (forall k, bool_decide (k ∈ a_keys b) = bool_decide (k ∈ a_keys a)) as Hin
    by (intros k; apply bool_decide_ext; by rewrite P).
  assert (single (a_type a) = true -> a_keys b = a_keys a) as Hone.
  { intros Hs. destruct (only_key a Ha Hs) as [k E]. rewrite E in *. by apply Permutation_singleton_r in P. }
  destruct (a_type a) eqn:E; try done; try apply Hin; try (by rewrite Hone).
  - apply existsb_same. intros t. unfold tag_meaning. rewrite G.
    repeat case_match; try done; by rewrite Hin.
  - apply existsb_same. intros r. apply Hin.
Qed.

Lemma meanings_reordered n afs bfs : Forall2 reordered afs bfs -> Forall afield_ok afs ->
  forallb (meaning n) bfs = forallb (meaning n) afs.
Proof.
  induction 1 as [| a b afs bfs R _ IH]; [done |]. intros [Ha Hf]%Forall_cons_iff. simpl.
  by rewrite (meaning_reordered n a b R Ha), IH.
Qed.

Lemma plain_reordered afs bfs : Forall2 reordered afs bfs -> Forall plain_field afs -> Forall plain_field bfs.
Proof.
  induction 1 as [| a b afs bfs (T & G & P & _) _ IH]; [done |]. intros [[Hk Ht Hg] Hf]%Forall_cons_iff.
  constructor; [| by apply IH]. split; rewrite ?T, ?G; try done. by rewrite P.
Qed.

Lemma ok_reordered afs bfs : Forall2 reordered afs bfs -> Forall afield_ok afs -> Forall afield_ok bfs.
Proof.
  induction 1 as [| a b afs bfs R _ IH]; [done |]. intros [Ha Hf]%Forall_cons_iff.
  constructor; [by eapply afield_ok_reordered | by apply IH].
Qed.

Lemma sum_Z_perm l l' : l ≡ₚ l' -> sum_Z l = sum_Z l'.
Proof. unfold sum_Z. induction 1; simpl; lia. Qed.

(** What is the same of fields in another order. *)
Lemma sums_reordered (f : afield -> Z) afs bfs : Forall2 reordered afs bfs ->
  (forall a b, reordered a b -> f b = f a) -> sum_Z (map f bfs) = sum_Z (map f afs).
Proof.
  intros H Hf. unfold sum_Z. induction H as [| a b afs bfs R _ IH]; [done |]. simpl. by rewrite (Hf _ _ R), IH.
Qed.

Lemma types_reordered afs bfs : Forall2 reordered afs bfs -> map a_type bfs = map a_type afs.
Proof. induction 1 as [| a b afs bfs (T & _) _ IH]; [done |]. simpl. by rewrite T, IH. Qed.

Lemma declared_reordered afs bfs : Forall2 reordered afs bfs -> declared_ok afs -> declared_ok bfs.
Proof.
  intros H [D1 D2 D3 D4 D5]. split.
  - by eapply ok_reordered.
  - intros i j a b Hij Ha Hb Hn.
    pose proof (types_reordered _ _ H) as Ht.
    assert (forall i x, bfs !! i = Some x -> exists y, afs !! i = Some y /\ a_type y = a_type x) as Hx.
    { intros i' x Hi. assert (map a_type afs !! i' = Some (a_type x)) as E.
      { rewrite <- Ht. rewrite list_lookup_fmap. by rewrite Hi. }
      rewrite list_lookup_fmap in E. destruct (afs !! i') as [y |]; [| done]. exists y. by injection E. }
    destruct (Hx _ _ Ha) as (a' & Ha' & <-). destruct (Hx _ _ Hb) as (b' & Hb' & Eb). rewrite <- Eb in Hn |- *.
    by apply (D2 i j a' b').
  - apply Forall2_length in H. unfold zlen in *. by rewrite <- H.
  - rewrite (sums_reordered _ _ _ H); [done |]. intros a b (_ & _ & P & _). unfold field_cost.
    apply Permutation_length in P. unfold zlen. by rewrite P.
  - rewrite (sums_reordered _ _ _ H); [done |]. intros a b (_ & _ & P & _). unfold data_cost.
    apply sum_Z_perm. by rewrite P.
Qed.

Lemma key_count k : token_count (key_value k) = 1.
Proof. by destruct k. Qed.

Lemma value_count_reordered a b : reordered a b ->
  token_count (field_value b) = token_count (field_value a).
Proof.
  intros (T & _ & P & _). unfold field_value. rewrite T.
  assert (forall ks, token_count (JArray [] (map key_value ks)) = 1 + zlen ks) as Hc.
  { intros ks. simpl. f_equal. induction ks as [| k ks IH]; [done |]. simpl. by rewrite key_count, IH, zlen_cons. }
  assert (zlen (a_keys b) = zlen (a_keys a)) as Hl by (apply Permutation_length in P; unfold zlen; by rewrite P).
  destruct (a_type a); try (rewrite !Hc, Hl; reflexivity);
    (destruct (a_keys b), (a_keys a); rewrite ?zlen_cons, ?zlen_nil in Hl; try zl; by rewrite ?key_count).
Qed.

Lemma filter_count_reordered afs bfs : Forall2 reordered afs bfs ->
  token_count (filter_value bfs) = token_count (filter_value afs).
Proof.
  intros H. unfold filter_value. simpl. f_equal. induction H as [| a b afs bfs R _ IH]; [done |]. simpl.
  by rewrite (value_count_reordered a b R), IH.
Qed.

Lemma zlen_commas l : zlen (commas l) = sum_Z (map zlen l) + Z.max 0 (zlen l - 1).
Proof.
  unfold sum_Z. induction l as [| t l IH]; [done |]. cbn [commas map foldr].
  rewrite !zlen_app, IH, zlen_cons. pose proof (zlen_nonneg l). case_decide as E.
  - subst. unfold zlen. simpl. lia.
  - assert (0 < zlen l) by (destruct l as [| x l]; [done | rewrite zlen_cons; pose proof (zlen_nonneg l); lia]).
    change (zlen [44]) with 1. lia.
Qed.

Lemma zlen_field_reordered a b : reordered a b -> afield_ok a ->
  zlen (afield_text b) = zlen (afield_text a).
Proof.
  intros (T & G & P & _) Ha. unfold afield_text. rewrite T, G.
  assert (zlen (keys_text (a_keys b)) = zlen (keys_text (a_keys a))) as Hk.
  { unfold keys_text. rewrite !zlen_app, !zlen_commas. f_equal. f_equal.
    rewrite (sum_Z_perm (map zlen (map Filter.key_text (a_keys b))) (map zlen (map Filter.key_text (a_keys a))))
      by (by rewrite P).
    unfold zlen. rewrite !length_map. by rewrite P. }
  assert (single (a_type a) = true -> a_keys b = a_keys a) as Hone.
  { intros Hs. destruct (only_key a Ha Hs) as [k E]. rewrite E in *. by apply Permutation_singleton_r in P. }
  destruct (a_type a); rewrite ?zlen_app, ?Hk; try done; by rewrite Hone.
Qed.

Lemma zlen_filter_reordered afs bfs : Forall2 reordered afs bfs -> Forall afield_ok afs ->
  zlen (filter_text bfs) = zlen (filter_text afs).
Proof.
  intros H Ha. unfold filter_text. rewrite !zlen_app, !zlen_commas. do 2 f_equal.
  assert (length bfs = length afs) as El by (symmetry; by eapply Forall2_length).
  unfold zlen at 2 4. rewrite !length_map, El. f_equal.
  clear El. unfold sum_Z. induction H as [| a b afs bfs R _ IH]; [done |].
  apply Forall_cons_iff in Ha as [Ha1 Ha]. simpl. by rewrite (zlen_field_reordered a b R Ha1), IH.
Qed.

Lemma plain_printable afs : Forall plain_field afs -> Forall afield_ok afs ->
  Forall (fun a => Forall key_bytes_ok (a_keys a) /\ a_type a <> CUSTOM) afs.
Proof.
  intros Hp _. eapply List.Forall_impl; [| exact Hp]. intros a [Hk [_ Hc] _]. split; [| done].
  eapply List.Forall_impl; [| exact Hk]. intros [id | s | i | c]; unfold key_bytes_ok; simpl; try done.
  - by intros (_ & _ & H).
  - constructor.
Qed.

(** C22: A filter survives being printed and parsed.  The JSON that
    [ndb_filter_json] writes for a filter built from declared fields, given to
    [ndb_filter_from_json] with a fresh filter, gives a finished filter that
    matches exactly the notes the first one matches.  No field is one of relays or
    callbacks, the numbers fit 32 bits, the strings need no escape and no tag
    string spells an id: the printer and the parser lose each of the others.  No
    field of ids or authors is empty: no such filter can be built. *)
Theorem filter_json_roundtrip (cb : list Z -> mem -> Z -> bool) (junk_tok : Z -> jsmntok) (junk_i : Z)
    (afs : list afield) (s : mem * cursor) (buf bufsize : Z) (m : mem) (b : builder)
    (Oa : declared_ok afs) (Hplain : Forall plain_field afs)
    (Hs : cwf s) (Hp : c_p (snd s) = c_start (snd s))
    (Hroom : c_p (snd s) + zlen (filter_text afs) + 1 <= c_end (snd s))
    (Hbuf : parser_room bufsize buf m) (Hcap : token_count (filter_value afs) <= json_cap bufsize) :
  exists flt len s1 js mb flt',
    build_filter afs ndb_filter_init = Some (true, flt) /\
    ndb_filter_json flt s = Some (len, s1) /\ loadn (fst s1) (c_start (snd s)) (len - 1) = Some js /\
    ndb_filter_from_json js junk_tok junk_i buf bufsize ((m, b), ndb_filter_init) = Some (1, (mb, flt')) /\
    finalized flt' = true /\
    forall nm note n, note_reads cb nm note n ->
      ndb_filter_matches_with_relay cb flt' nm note (Some (n_relays n)) =
        Some (forallb (meaning n) afs) /\
      ndb_filter_matches_with_relay cb flt nm note (Some (n_relays n)) =
        Some (forallb (meaning n) afs).
Proof.
  pose proof (do_fields _ Oa) as Hok.
  destruct (ndb_filter_json_spec afs s Oa (plain_printable _ Hplain Hok) Hs Hp) as (flt & bfs & E & B & A & _).
  destruct (build_filter_matches cb afs Oa) as (flt0 & E0 & _ & M0). rewrite E in E0. injection E0 as <-.
  pose proof (declared_reordered _ _ B Oa) as Ob. pose proof (do_fields _ Ob) as Hokb.
  pose proof (plain_reordered _ _ B Hplain) as Hpb.
  destruct (build_filter_matches cb bfs Ob) as (flt' & E' & Hfin & M').
  pose proof (zlen_filter_reordered _ _ B Hok) as Hlen.
  assert (zlen (filter_text bfs ++ [0]) = zlen (filter_text afs) + 1) as Hl
    by (rewrite zlen_app, Hlen; reflexivity).
  destruct A as (s1 & E1 & P1); [lia |].
  destruct (filter_value_parsed bfs Hokb Hpb) as [Hmo Hmf].
  destruct (filter_from_json_text (filter_text bfs) junk_tok junk_i buf bufsize [] [] (map field_member bfs) []
              bfs m b ndb_filter_init) as (mb & E2); try done.
  { by rewrite app_nil_r, <- (text_filter bfs Hokb Hpb). }
  { change (token_count (filter_value bfs) <= json_cap bufsize). by rewrite (filter_count_reordered _ _ B). }
  rewrite E' in E2. pose proof (pushed_loadn _ _ _ P1) as Ld. rewrite Hp in Ld.
  exists flt, (zlen (filter_text bfs ++ [0])), s1, (filter_text bfs), mb, flt'.
  split; [exact E |]. split; [exact E1 |]. split.
  { rewrite Hl, <- Hlen. replace (zlen (filter_text bfs) + 1 - 1) with (zlen (filter_text bfs)) by lia.
    by apply loadn_app_inv in Ld as [Ld _]. }
  split; [exact E2 |]. split; [exact Hfin |]. intros nm note n Rn. split; [| by apply M0].
  rewrite (M' _ _ _ Rn). by rewrite (meanings_reordered n _ _ B Hok).
Qed.

(** ** Witnesses *)

Definition demo_hex (c : string) : list Z := flat_map (fun _ => bytes_of c) (replicate 32 0).

(** A filter written by hand: white space, and a member that is no field. *)
Definition demo_members : note_members :=
  [([32], bytes_of "kinds", [], JArray [32] [JPrimitive (bytes_of "7"); JPad [32] (JPrimitive (bytes_of "1")) []]);
   ([], bytes_of "x", [32], JPad [32] (JString (bytes_of "y")) []);
   ([], bytes_of "#e", [], JArray [] [JString (demo_hex "0a")]);
   ([], bytes_of "since", [], JPrimitive (bytes_of "1700000000"))].

Definition demo_declared : list afield :=
  [mk_afield KINDS 0 [KInt 7; KInt 1]; mk_afield TAGS 101 [KId (replicate 32 10)];
   mk_afield SINCE 0 [KInt 1700000000]].

Lemma demo_room : parser_room 3000 16 demo_memory.
Proof. split; [exact demo_geom | vm_compute; congruence]. Qed.

Lemma filter_from_json_builds_witness :
  exists mb flt', ndb_filter_from_json ([32] ++ text (JObject [10] demo_members) ++ [10]) (fun _ => demo_tok) 0 16 3000
      ((demo_memory, no_builder), ndb_filter_init) = Some (1, (mb, flt')) /\
    build_filter demo_declared ndb_filter_init = Some (true, flt').
Proof.
  destruct (filter_from_json_builds (fun _ => demo_tok) 0 16 3000 [32] [10] [10] demo_members demo_declared
              demo_memory no_builder ndb_filter_init eq_refl eq_refl eq_refl eq_refl ltac:(vm_compute; reflexivity)
              demo_room ltac:(vm_compute; congruence) eq_refl) as (mb & E).
  exists mb. eexists. split; [exact (eq_trans E ltac:(vm_compute; reflexivity)) | vm_compute; reflexivity].
Defined.

Lemma demo_fields_plain : Forall plain_field demo_fields.
Proof.
  repeat (constructor; [split; [repeat constructor; try (by apply bytes_literal); try (unfold is_u32; lia); try reflexivity
                               | split; discriminate | try (split; [unfold is_byte; simpl; lia |]); reflexivity] |]).
  constructor.
Qed.

Lemma filter_json_roundtrip_witness :
  exists flt len s1 js mb flt',
    build_filter demo_fields ndb_filter_init = Some (true, flt) /\
    ndb_filter_json flt (demo_cursor 500) = Some (len, s1) /\ loadn (fst s1) 0 (len - 1) = Some js /\
    ndb_filter_from_json js (fun _ => demo_tok) 0 16 3000 ((demo_memory, no_builder), ndb_filter_init) =
      Some (1, (mb, flt')) /\
    ndb_filter_matches_with_relay (fun _ _ _ => false) flt' demo_note 0 (Some []) = Some true.
Proof.
  destruct (filter_json_roundtrip (fun _ _ _ => false) (fun _ => demo_tok) 0 demo_fields (demo_cursor 500) 16 3000
              demo_memory no_builder demo_fields_ok demo_fields_plain (demo_cwf 500) eq_refl
              ltac:(vm_compute; congruence) demo_room ltac:(vm_compute; congruence))
    as (flt & len & s1 & js & mb & flt' & E1 & E2 & E3 & E4 & _ & H).
  exists flt, len, s1, js, mb, flt'. split; [exact E1 | split; [exact E2 | split; [exact E3 | split; [exact E4 |]]]].
  destruct (H demo_note 0 demo_fnote demo_reads) as [H1 _]. exact (eq_trans H1 ltac:(vm_compute; reflexivity)).
Defined.

(** ** Where the parser of filters and the parser of notes part *)

(** A tag string with an escape is unescaped in a note and kept as it stands in a
    filter, so the filter does not match the note. *)
Lemma filter_strings_stay_escaped :
  let raw := bytes_of "say " ++ [BSL; DQ] in
  let str := bytes_of "say " ++ [DQ] in
  json_elem true raw = Some (EStr str) /\
  exists afs, members_fields [member "#t" (JArray [] [JString raw])] = Some afs /\
    forallb (meaning (mk_fnote [] [] 1 0 [[(NDB_PACKED_STR, EStr [116]); (NDB_PACKED_STR, EStr str)]] []
                        (fun _ => false))) afs = false.
Proof. split; [reflexivity |]. eexists. split; [reflexivity | reflexivity]. Qed.

(** After an id, any string that starts with 64 hex digits is taken for an id. *)
Lemma later_ids_are_cut :
  exists mb flt, ndb_filter_from_json
      (text (JObject [] [member "#e" (JArray [] [JString (demo_hex "0a"); JString (demo_hex "0b" ++ bytes_of "zz")])]))
      (fun _ => demo_tok) 0 16 3000 ((demo_memory, no_builder), ndb_filter_init) = Some (1, (mb, flt)) /\
    build_filter [mk_afield TAGS 101 [KId (replicate 32 10); KId (replicate 32 11)]] ndb_filter_init =
      Some (true, flt).
Proof. eexists _, _. split; [vm_compute; reflexivity | vm_compute; reflexivity]. Qed.

(** An empty list of ids in the text of a filter fails the assertion of the
    builder. *)
Lemma empty_ids_text_asserts :
  ndb_filter_from_json (text (JObject [] [member "ids" (JArray [] [])]))
    (fun _ => demo_tok) 0 16 3000 ((demo_memory, no_builder), ndb_filter_init) = None.
Proof. by vm_compute. Qed.
