(* ===== verification/Query.v ===== *)
(** * Query plans (src/src/nostrdb.c, ndb_filter_plan to ndb_query)

    A query runs each filter by one of ten plans over the indexes, pushes the
    notes that match on a result state (a bounded buffer, or a visitor callback)
    and sorts what it collected.  The state records what it has; a push or a
    full state ends a plan early.

    [None] is undefined behaviour.  Text search and profile search are
    arguments of the dispatcher.  The theorems show that a plan driven by the
    merger pushes the newest matching notes and stops exactly at the limit, and
    what the planner bounds. *)

From stdpp Require Import sorting.
From S2P Require Export Merge Filter.
Open Scope Z_scope.
Open Scope ndb_scope.

Definition NDB_MAX_AUTHOR_KIND_SCANNERS : Z := 64.

Inductive ndb_query_plan :=
  | NDB_PLAN_KINDS | NDB_PLAN_IDS | NDB_PLAN_AUTHORS | NDB_PLAN_AUTHOR_KINDS | NDB_PLAN_CREATED
  | NDB_PLAN_TAGS | NDB_PLAN_SEARCH | NDB_PLAN_RELAY_KINDS | NDB_PLAN_PROFILE_SEARCH
  | NDB_PLAN_ALL_NOTES.

Record query_result := mk_result { r_note : list Z; r_note_size : Z; r_note_id : Z }.

Definition ndb_query_result_init (note : list Z) (note_size note_id : Z) : query_result :=
  mk_result note note_size note_id.

Inductive ndb_visitor_action := NDB_VISITOR_STOP | NDB_VISITOR_CONT.

(** The state of a query: [V] is the visitor's own context. *)
Inductive query_type (V : Type) :=
  | STANDARD (capacity : Z) (results : list query_result)
  | VISITOR (visited : Z) (done : bool) (ctx : V).
Arguments STANDARD {V}.
Arguments VISITOR {V}.

Record query_state (V : Type) := mk_state { q_type : query_type V; limit : Z }.
Arguments mk_state {V}.
Arguments q_type {V}.
Arguments limit {V}.

(** ** Results *)

Section results.
Context {V : Type} (visitor : V -> query_result -> ndb_visitor_action * V).

Definition push_query_result (st : query_state V) (res : query_result) : bool * query_state V :=
  match q_type st with
  | STANDARD capacity results =>
      if capacity <? zlen results + 1 then (false, st)
      else (true, mk_state (STANDARD capacity (results ++ [res])) (limit st))
  | VISITOR visited done ctx =>
      let '(action, ctx) := visitor ctx res in
      match action with
      | NDB_VISITOR_STOP => (false, mk_state (VISITOR (u64 (visited + 1)) true ctx) (limit st))
      | NDB_VISITOR_CONT => (true, mk_state (VISITOR (u64 (visited + 1)) done ctx) (limit st))
      end
  end.

Definition query_is_full (st : query_state V) : bool :=
  match q_type st with
  | STANDARD capacity results =>
      if capacity <=? zlen results then true
      else if limit st =? 0 then false
      else limit st <=? zlen results
  | VISITOR visited done _ =>
      if done then true else if limit st =? 0 then false else limit st <=? visited
  end.
End results.

Definition compare_query_results (a b : query_result) : option Z :=
  ta ← load_u64 (r_note a) off.created_at;
  tb ← load_u64 (r_note b) off.created_at;
  Some (if ta =? tb then 0 else if tb <? ta then -1 else 1).

(** ** Plans *)

(** A filter released by [ndb_filter_end] because it needs no storage. *)
Definition filter_is_empty (flt : filter) : bool := elem_end flt + data_end flt =? 0.

Definition ndb_filter_plan (flt : filter) : option ndb_query_plan :=
  let ids := ndb_filter_find_elements flt IDS in
  let search := ndb_filter_find_elements flt SEARCH in
  let kinds := ndb_filter_find_elements flt KINDS in
  let authors := ndb_filter_find_elements flt AUTHORS in
  let tags := ndb_filter_find_elements flt TAGS in
  let relays := ndb_filter_find_elements flt RELAYS in
  if filter_is_empty flt then Some NDB_PLAN_ALL_NOTES
  else
    profile ← match kinds with
              | Some k =>
                  if f_count k =? 1 then
                    e ← elements k !! 0%nat;
                    Some ((e =? 0) && bool_decide (is_Some search))
                  else Some false
              | None => Some false
              end;
    if (profile : bool) then Some NDB_PLAN_PROFILE_SEARCH
    else
      Some match search, ids, relays, kinds, authors, tags with
           | Some _, _, _, _, _, _ => NDB_PLAN_SEARCH
           | None, Some _, _, _, _, _ => NDB_PLAN_IDS
           | None, None, Some _, Some _, None, _ => NDB_PLAN_RELAY_KINDS
           | None, None, _, k, a, t =>
               let fits := match k, a with
                           | Some k, Some a =>
                               (f_count a =? 1) ||
                               (i32 (f_count a * f_count k) <=? NDB_MAX_AUTHOR_KIND_SCANNERS)
                           | _, _ => false
                           end in
               if fits then NDB_PLAN_AUTHOR_KINDS
               else if match a with Some a => f_count a =? 1 | None => false end then NDB_PLAN_AUTHORS
               else if match t with Some t => f_count t =? 1 | None => false end then NDB_PLAN_TAGS
               else match k with Some _ => NDB_PLAN_KINDS | None => NDB_PLAN_CREATED end
           end.

(** The pointer to the first element, read: [Some None] when there is no such
    field, undefined when the field has no elements. *)
Definition get_int (flt : filter) (t : fieldtype) : option (option Z) :=
  match ndb_filter_get_elem flt t with
  | None => Some None
  | Some es => e ← es !! 0%nat; Some (Some e)
  end.

Definition ndb_query_state_fill_limit {V} (st : query_state V) (flt : filter)
    (result_capacity : option Z) : option (query_state V) :=
  pint ← get_int flt LIMIT;
  let limit := match result_capacity with Some c => u64 c | None => 0 end in
  let limit := match pint with
               | Some p =>
                   if p =? 0 then limit
                   else match result_capacity with
                        | Some c => u64 (Z.min c (i32 p))
                        | None => p
                        end
               | None => limit
               end in
  Some (mk_state (q_type st) limit).

Section plans.
Context {D C V : Type} `{!Lmdb D C}.
Context (visitor : V -> query_result -> ndb_visitor_action * V).
Context (custom_cb : list Z -> mem -> Z -> bool).
Context (txn : ndb_txn D).
Abbreviation state := (query_state V).

Definition bit (t : fieldtype) : Z := Z.shiftl 1 (fieldtype_num t).

Definition need_relays (flt : filter) : bool :=
  bool_decide (is_Some (ndb_filter_find_elements flt RELAYS)).

(** Fetch the note, match it against the rest of the filter, push it.  The flag
    says that the push failed, which ends the scan. *)
Definition visit_note (flt : filter) (already : Z) (relays : bool) (note_key : Z) (st : state) :
    option (bool * state) :=
  match ndb_get_note_by_key txn note_key with
  | None => Some (false, st)
  | Some note =>
      b ← ndb_filter_matches_with custom_cb flt note 0 already
            (if relays then Some (ndb_note_relay_iterate txn note_key) else None);
      if negb b then Some (false, st)
      else
        let '(ok, st) := push_query_result visitor st (ndb_query_result_init note (zlen note) note_key) in
        Some (negb ok, st)
  end.

Definition until_of (flt : filter) : option Z := p ← get_int flt UNTIL; Some (default UINT64_MAX p).
Definition since_of (flt : filter) : option Z := p ← get_int flt SINCE; Some (default 0 p).

(** Every note in key order, unchecked; stops when the push fails. *)
Fixpoint all_notes_loop (fuel : nat) (r : option (C * item)) (st : state) : option state :=
  match fuel, r with
  | O, _ => None
  | _, None => Some st
  | S fuel, Some (c, it) =>
      note_id ← u64_at (fst it) 0;
      let '(ok, st) := push_query_result visitor st
                         (ndb_query_result_init (snd it) (zlen (snd it)) note_id) in
      if (ok : bool) then all_notes_loop fuel (mdb_cursor_get c MDB_NEXT) st else Some st
  end.

Definition ndb_query_plan_all_notes (st : state) : option (bool * state) :=
  match mdb_cursor_open (txn NDB_DB_NOTE) with
  | None => Some (false, st)
  | Some c =>
      st ← all_notes_loop (S (S (length (db_items (txn NDB_DB_NOTE))))) (mdb_cursor_get c MDB_FIRST) st;
      Some (true, st)
  end.

(** *** By ids *)

Fixpoint ids_loop (flt : filter) (ids : field) (until : Z) (relays : bool) (c : C) (i k : nat)
    (st : state) : option state :=
  match k with
  | O => Some st
  | S k =>
      if query_is_full st then Some st
      else
        id ← ndb_filter_get_id_element flt ids i;
        match ndb_cursor_start c (ndb_tsid_init id until) with
        | None => ids_loop flt ids until relays c (S i) k st
        | Some (c, it) =>
            note_id ← u64_at (snd it) 0;
            kid ← loadn (fst it) 0 32;
            if negb (memcmp id kid =? 0) then ids_loop flt ids until relays c (S i) k st
            else
              r ← visit_note flt (bit IDS) relays note_id st;
              if (fst r : bool) then Some (snd r)
              else ids_loop flt ids until relays c (S i) k (snd r)
        end
  end.

Definition ndb_query_plan_execute_ids (flt : filter) (st : state) : option (bool * state) :=
  match ndb_filter_find_elements flt IDS with
  | None => Some (false, st)
  | Some ids =>
      until ← until_of flt;
      match mdb_cursor_open (txn NDB_DB_NOTE_ID) with
      | None => Some (false, st)
      | Some c =>
          st ← ids_loop flt ids until (need_relays flt) c 0 (length (elements ids)) st;
          Some (true, st)
      end
  end.

(** *** By authors *)

Fixpoint author_scan (fuel : nat) (flt : filter) (author : list Z) (since : Z) (relays : bool)
    (c : C) (it : item) (st : state) : option state :=
  match fuel with
  | O => None
  | S fuel =>
      if query_is_full st then Some st
      else
        kid ← loadn (fst it) 0 32;
        ts ← u64_at (fst it) 32;
        note_key ← u64_at (snd it) 0;
        if ts <? since then Some st
        else if negb (memcmp author kid =? 0) then Some st
        else
          r ← visit_note flt (bit AUTHORS) relays note_key st;
          if (fst r : bool) then Some (snd r)
          else
            match mdb_cursor_get c MDB_PREV with
            | None => Some (snd r)
            | Some (c, it) => author_scan fuel flt author since relays c it (snd r)
            end
  end.

Fixpoint authors_loop (flt : filter) (authors : field) (since until : Z) (relays : bool) (c : C)
    (i k : nat) (st : state) : option state :=
  match k with
  | O => Some st
  | S k =>
      author ← ndb_filter_get_id_element flt authors i;
      match ndb_cursor_start c (ndb_tsid_init author until) with
      | None => authors_loop flt authors since until relays c (S i) k st
      | Some (c, it) =>
          st ← author_scan (S (length (db_items (txn NDB_DB_NOTE_PUBKEY)))) flt author since relays c it st;
          authors_loop flt authors since until relays c (S i) k st
      end
  end.

Definition ndb_query_plan_execute_authors (flt : filter) (st : state) : option (bool * state) :=
  match ndb_filter_find_elements flt AUTHORS with
  | None => Some (false, st)
  | Some authors =>
      until ← until_of flt;
      since ← since_of flt;
      match mdb_cursor_open (txn NDB_DB_NOTE_PUBKEY) with
      | None => Some (false, st)
      | Some c =>
          st ← authors_loop flt authors since until (need_relays flt) c 0 (length (elements authors)) st;
          Some (true, st)
      end
  end.

(** *** By one tag value *)

Fixpoint tag_scan (fuel : nat) (flt : filter) (tag : Z) (val : list Z) (relays : bool)
    (c : C) (it : item) (st : state) : option state :=
  match fuel with
  | O => None
  | S fuel =>
      if query_is_full st then Some st
      else
        k0 ← load8 (fst it) 0;
        if negb (k0 =? i8 tag) then Some st
        else if negb (zlen val =? zlen (fst it) - 9) then Some st
        else
          kval ← loadn (fst it) 1 (zlen (fst it) - 9);
          if negb (memcmp kval val =? 0) then Some st
          else
            note_id ← u64_at (snd it) 0;
            r ← visit_note flt (bit TAGS) relays note_id st;
            if (fst r : bool) then Some (snd r)
            else
              match mdb_cursor_get c MDB_PREV with
              | None => Some (snd r)
              | Some (c, it) => tag_scan fuel flt tag val relays c it (snd r)
              end
  end.

(** The key of a tag value, in a buffer of 255 bytes; the length of the value
    is passed as a byte. *)
Definition tag_scan_key (tag : Z) (val : list Z) (until : Z) : option (option (list Z)) :=
  r ← with_cursor 0 255 (ndb_encode_tag_key 255 (u8 tag) (take (Z.to_nat (u8 (zlen val))) val) until)
        (replicate 255 0);
  match fst r with
  | None => Some None
  | Some len => k ← loadn (snd r) 0 len; Some (Some k)
  end.

(** The flag is false when a value has no key: the plan fails. *)
Fixpoint tags_loop (flt : filter) (tags : field) (until : Z) (relays : bool) (c : C) (i k : nat)
    (st : state) : option (bool * state) :=
  match k with
  | O => Some (true, st)
  | S k =>
      val ← (if bool_decide (f_elem tags = ELEM_ID) then ndb_filter_get_id_element flt tags i
             else ndb_filter_get_string_element flt tags i);
      key ← tag_scan_key (f_tag tags) val until;
      match key with
      | None => Some (false, st)
      | Some key =>
          match ndb_cursor_start c key with
          | None => tags_loop flt tags until relays c (S i) k st
          | Some (c, it) =>
              st ← tag_scan (S (length (db_items (txn NDB_DB_NOTE_TAGS)))) flt (f_tag tags) val relays c it st;
              tags_loop flt tags until relays c (S i) k st
          end
      end
  end.

Definition ndb_query_plan_execute_tags (flt : filter) (st : state) : option (bool * state) :=
  match ndb_filter_find_elements flt TAGS with
  | None => Some (false, st)
  | Some tags =>
      until ← until_of flt;
      match mdb_cursor_open (txn NDB_DB_NOTE_TAGS) with
      | None => Some (false, st)
      | Some c => tags_loop flt tags until (need_relays flt) c 0 (length (elements tags)) st
      end
  end.

(** *** Merged scans *)

Fixpoint drain_loop (fuel : nat) (flt : filter) (already : Z) (relays : bool)
    (m : ndb_index_merger D C) (st : state) : option state :=
  match fuel with
  | O => None
  | S fuel =>
      if query_is_full st then Some st
      else
        r ← ndb_index_merger_next m;
        match fst r with
        | None => Some st
        | Some note_key =>
            v ← visit_note flt already relays note_key st;
            if (fst v : bool) then Some (snd v)
            else drain_loop fuel flt already relays (snd r) (snd v)
        end
  end.

(** Each scanner gives at most as many entries as the table has. *)
Definition ndb_query_drain_merger (flt : filter) (m : ndb_index_merger D C) (already : Z) (relays : bool)
    (st : state) : option state :=
  drain_loop (S (length (heap m) * length (db_items (m_db m)))) flt already relays m st.

(** Add a scanner per key, then drain; the plans differ in the keys. *)
Definition merge_plan (flt : filter) (db : ndb_dbs) (type : ndb_scan_key_type) (since capacity : Z)
    (keys : list (list Z)) (already : Z) (relays : bool) (st : state) : option (bool * state) :=
  r ← add_groups (ndb_index_merger_init (txn db) type since capacity) keys;
  if (fst r : bool) then
    st ← ndb_query_drain_merger flt (snd r) already relays st; Some (true, st)
  else Some (false, st).

(** Hops from kind to kind; [None] inside when the cursor cannot be opened. *)
Fixpoint all_kinds_loop (fuel : nat) (c : C) (key : list Z) : option (list Z) :=
  match fuel with
  | O => None
  | S fuel =>
      match mdb_cursor_get c (MDB_SET_RANGE key) with
      | None => Some []
      | Some (c, it) =>
          kind ← u64_at (fst it) 0;
          if kind =? UINT64_MAX then Some [kind]
          else kinds ← all_kinds_loop fuel c (ndb_u64_ts_init (kind + 1) 0); Some (kind :: kinds)
      end
  end.

Definition ndb_all_kinds : option (option (list Z)) :=
  match mdb_cursor_open (txn NDB_DB_NOTE_KIND) with
  | None => Some None
  | Some c =>
      kinds ← all_kinds_loop (S (length (db_items (txn NDB_DB_NOTE_KIND)))) c (ndb_u64_ts_init 0 0);
      Some (Some kinds)
  end.

Definition ndb_query_plan_execute_created_at (flt : filter) (st : state) : option (bool * state) :=
  until ← until_of flt;
  since ← since_of flt;
  kinds ← ndb_all_kinds;
  match kinds with
  | None => Some (false, st)
  | Some kinds =>
      merge_plan flt NDB_DB_NOTE_KIND NDB_SCAN_KEY_U64_TS since (zlen kinds)
        (map (fun kind => ndb_u64_ts_init kind until) kinds) 0 (need_relays flt) st
  end.

Definition ndb_query_plan_execute_kinds (flt : filter) (st : state) : option (bool * state) :=
  match ndb_filter_find_elements flt KINDS with
  | None => Some (false, st)
  | Some kinds =>
      until ← until_of flt;
      since ← since_of flt;
      merge_plan flt NDB_DB_NOTE_KIND NDB_SCAN_KEY_U64_TS since (f_count kinds)
        (map (fun kind => ndb_u64_ts_init kind until) (elements kinds)) (bit KINDS) (need_relays flt) st
  end.

Definition ndb_query_plan_execute_author_kinds (flt : filter) (st : state) : option (bool * state) :=
  match ndb_filter_find_elements flt KINDS, ndb_filter_find_elements flt AUTHORS with
  | Some kinds, Some authors =>
      until ← until_of flt;
      since ← since_of flt;
      ids ← mapM (ndb_filter_get_id_element flt authors) (seq 0 (length (elements authors)));
      merge_plan flt NDB_DB_NOTE_PUBKEY_KIND NDB_SCAN_KEY_ID_U64_TS since
        (i32 (f_count authors * f_count kinds))
        (flat_map (fun author => map (fun kind => ndb_id_u64_ts_init author kind until) (elements kinds)) ids)
        (Z.lor (bit KINDS) (bit AUTHORS)) (need_relays flt) st
  | _, _ => Some (false, st)
  end.

(** The start key of a relay and kind; pairs that have no key are skipped. *)
Definition relay_scan_key (relay : list Z) (kind until : Z) : option (option (list Z)) :=
  match ndb_relay_kind_key_init_high (Some relay) kind until with
  | None => Some None
  | Some key =>
      r ← with_cursor 0 NDB_SCAN_KEY_MAX (ndb_build_relay_kind_key key) (replicate 288 0);
      match fst r with
      | None => Some None
      | Some len => k ← loadn (snd r) 0 len; Some (Some k)
      end
  end.

Definition ndb_query_plan_execute_relay_kinds (flt : filter) (st : state) : option (bool * state) :=
  match ndb_filter_find_elements flt KINDS, ndb_filter_find_elements flt RELAYS with
  | Some kinds, Some relays =>
      until ← until_of flt;
      since ← since_of flt;
      urls ← mapM (ndb_filter_get_string_element flt relays) (seq 0 (length (elements relays)));
      keys ← mapM (fun p => relay_scan_key (fst p) (snd p) until)
               (flat_map (fun relay => map (fun kind => (relay, kind)) (elements kinds)) urls);
      merge_plan flt NDB_DB_NOTE_RELAY_KIND NDB_SCAN_KEY_RELAY_KIND since
        (i32 (f_count relays * f_count kinds)) (omap id keys) (Z.lor (bit KINDS) (bit RELAYS)) false st
  | _, _ => Some (false, st)
  end.

(** *** A filter, and several *)

Section dispatch.
(** The two plans that search text. *)
Context (execute_search execute_profile_search : filter -> state -> option (bool * state)).

Definition ndb_query_filter (flt : filter) (st : state) : option (bool * state) :=
  plan ← ndb_filter_plan flt;
  match plan with
  | NDB_PLAN_ALL_NOTES => ndb_query_plan_all_notes st
  | NDB_PLAN_IDS => ndb_query_plan_execute_ids flt st
  | NDB_PLAN_RELAY_KINDS => ndb_query_plan_execute_relay_kinds flt st
  | NDB_PLAN_SEARCH => execute_search flt st
  | NDB_PLAN_PROFILE_SEARCH => execute_profile_search flt st
  | NDB_PLAN_KINDS => ndb_query_plan_execute_kinds flt st
  | NDB_PLAN_TAGS => ndb_query_plan_execute_tags flt st
  | NDB_PLAN_CREATED => ndb_query_plan_execute_created_at flt st
  | NDB_PLAN_AUTHORS => ndb_query_plan_execute_authors flt st
  | NDB_PLAN_AUTHOR_KINDS => ndb_query_plan_execute_author_kinds flt st
  end.

Definition visited_of (st : state) : Z :=
  match q_type st with VISITOR visited _ _ => visited | STANDARD _ _ => 0 end.
Definition is_done (st : state) : bool :=
  match q_type st with VISITOR _ done _ => done | STANDARD _ _ => false end.

Fixpoint visit_loop (filters : list filter) (st : state) : option (bool * state) :=
  match filters with
  | [] => Some (true, st)
  | flt :: filters =>
      if is_done st then Some (true, st)
      else
        st1 ← ndb_query_state_fill_limit st flt None;
        let st1 := if limit st1 =? 0 then st1
                   else mk_state (q_type st1) (u64 (limit st1 + visited_of st)) in
        r ← ndb_query_filter flt st1;
        if (fst r : bool) then visit_loop filters (snd r) else Some (false, snd r)
  end.

Definition ndb_query_visit (filters : list filter) (ctx : V) : option (bool * state) :=
  if zlen filters =? 0 then Some (false, mk_state (VISITOR 0 false ctx) 0)
  else visit_loop filters (mk_state (VISITOR 0 false ctx) 0).

(** Run one filter into a fresh buffer. *)
Definition run_standard (flt : filter) (capacity : Z) : option (option (list query_result)) :=
  st ← ndb_query_state_fill_limit (mk_state (STANDARD capacity []) 0) flt (Some capacity);
  r ← ndb_query_filter flt st;
  if (fst r : bool) then
    match q_type (snd r) with STANDARD _ results => Some (Some results) | VISITOR _ _ _ => None end
  else Some None.

Fixpoint run_all (filters : list filter) (capacity : Z) : option (option (list query_result)) :=
  match filters with
  | [] => Some (Some [])
  | flt :: filters =>
      r ← run_standard flt capacity;
      match r with
      | None => Some None
      | Some results =>
          rest ← run_all filters capacity;
          Some (match rest with None => None | Some rest => Some (results ++ rest) end)
      end
  end.

(** The results, newest first; [Some None] when the query fails. *)
Definition ndb_query (filters : list filter) (result_capacity : Z) : option (option (list query_result)) :=
  match filters with
  | [] => Some None
  | [flt] =>
      r ← run_standard flt result_capacity;
      match r with
      | None => Some None
      | Some results => l ← qsort compare_query_results results; Some (Some l)
      end
  | _ =>
      r ← run_all filters result_capacity;
      match r with
      | None => Some None
      | Some results =>
          l ← qsort compare_query_results results;
          Some (Some (take (Z.to_nat result_capacity) l))
      end
  end.
End dispatch.
End plans.

(** * Lemmas *)

(** ** Plans over the merger *)

Section plan_specs.
Context {D C V : Type} `{!Lmdb D C}.
Context (visitor : V -> query_result -> ndb_visitor_action * V).
Context (custom_cb : list Z -> mem -> Z -> bool).
Context (txn : ndb_txn D).
Abbreviation state := (query_state V).

(** Visiting note keys in order. *)
Fixpoint visit_all (flt : filter) (already : Z) (relays : bool) (keys : list Z) (st : state) :
    option state :=
  match keys with
  | [] => Some st
  | k :: keys =>
      if query_is_full st then Some st
      else
        v ← visit_note visitor custom_cb txn flt already relays k st;
        if (fst v : bool) then Some (snd v) else visit_all flt already relays keys (snd v)
  end.

Lemma visit_all_full flt already relays keys st :
  query_is_full st = true -> visit_all flt already relays keys st = Some st.
Proof. destruct keys as [| k keys]; [done |]. cbn [visit_all]. by intros ->. Qed.

(** Draining visits everything pending, newest first. *)
Lemma drain_loop_spec flt already relays fuel : forall m st,
  merger_ok m -> (length (pending m) < fuel)%nat ->
  exists out, descending out /\ out ≡ₚ pending m /\
    drain_loop visitor custom_cb txn fuel flt already relays m st =
      visit_all flt already relays (map snd out) st.
Proof.
  induction fuel as [| fuel IH]; intros m st M Hf; [lia |]. cbn [drain_loop].
  destruct (drain_spec (S fuel) m M Hf) as (out0 & _ & P0 & S0).
  destruct (query_is_full st) eqn:Ef.
  { exists out0. split; [done |]. split; [done |]. by rewrite visit_all_full. }
  pose proof (next_spec m M) as N. destruct (heap m) as [| top tl] eqn:Eh.
  - rewrite N. cbn [mbind option_bind fst]. exists []. split; [constructor |].
    split; [unfold pending; by rewrite Eh | done].
  - destruct N as (m' & E & M' & _ & P). rewrite E. cbn [mbind option_bind fst snd].
    assert (Hf' : (length (pending m') < fuel)%nat) by (apply Permutation_length in P; simpl in P; lia).
    assert (Ds : forall out, descending out -> out ≡ₚ pending m' ->
      descending (pri (scanners m) top :: out) /\ pri (scanners m) top :: out ≡ₚ pending m).
    { intros out So Po. split; [| by rewrite P, Po]. constructor; [done |].
      rewrite List.Forall_forall. intros y Hy%list_elem_of_In. apply (root_is_newest m top tl y M Eh).
      rewrite P. apply elem_of_cons. right. by rewrite <- Po. }
    destruct (drain_spec fuel m' M' Hf') as (out1 & _ & P1 & S1).
    destruct (visit_note visitor custom_cb txn flt already relays (snd (pri (scanners m) top)) st)
      as [[stop st'] |] eqn:Ev.
    + cbn [mbind option_bind fst snd]. destruct stop.
      * exists (pri (scanners m) top :: out1). destruct (Ds out1 S1 P1). split; [done |]. split; [done |].
        cbn [map visit_all]. rewrite Ef, Ev. done.
      * destruct (IH m' st' M' Hf') as (out & So & Po & Ed). exists (pri (scanners m) top :: out).
        destruct (Ds out So Po). split; [done |]. split; [done |].
        cbn [map visit_all]. rewrite Ef, Ev. exact Ed.
    + exists (pri (scanners m) top :: out1). destruct (Ds out1 S1 P1). split; [done |]. split; [done |].
      cbn [map visit_all]. by rewrite Ef, Ev.
Qed.

Lemma scan_length type since g l : (length (scan type since g l) <= length l)%nat.
Proof.
  induction l as [| it l IH]; [done |]. cbn [scan length].
  destruct (ndb_scanner_in_group _ _ _) as [[|] |]; simpl; try lia.
  destruct (ndb_scanner_read _ _); simpl; [| lia]. destruct (_ <=? _); simpl; lia.
Qed.

Lemma pending_length (m : ndb_index_merger D C) :
  (length (pending m) <= length (heap m) * length (db_items (m_db m)))%nat.
Proof.
  unfold pending. generalize (heap m) as h. induction h as [| i h IH]; [simpl; lia |].
  cbn [flat_map]. rewrite length_app. simpl length. rewrite Nat.mul_succ_l.
  assert (L : (length (merger_stream m i) <= length (db_items (m_db m)))%nat); [| lia].
  unfold merger_stream. destruct (scanners m !! i); [| simpl; lia]. unfold stream_of.
  destruct (cur_pos _) as [p |]; [| simpl; lia].
  etransitivity; [apply scan_length |]. unfold backward. rewrite length_rev, length_take. lia.
Qed.

Lemma drain_merger_spec flt already relays m st : merger_ok m ->
  exists out, descending out /\ out ≡ₚ pending m /\
    ndb_query_drain_merger visitor custom_cb txn flt m already relays st =
      visit_all flt already relays (map snd out) st.
Proof.
  intros M. apply drain_loop_spec; [done |]. pose proof (pending_length m). lia.
Qed.

(** A plan that merges the groups of a table. *)
Lemma merge_plan_spec {type K G} `{!LmdbKey K} `{!EqDecision G} {gc : G -> G -> comparison}
    `{!ScanIndex type K G gc} flt db since until cap groups already relays st l c :
  scan_table (txn db) l -> mdb_cursor_open (txn db) = Some c -> Forall si_group_wf groups ->
  is_u64 until -> zlen groups <= cap ->
  exists out, descending out /\ out ≡ₚ flat_map (table_entries l since until) groups /\
    merge_plan visitor custom_cb txn flt db type since cap
      (map (fun g => Keys.key_bytes (si_start g until)) groups) already relays st =
      (st ← visit_all flt already relays (map snd out) st; Some (true, st)).
Proof.
  intros T Ho Wg Wu Hc.
  destruct (groups_added (txn db) c l groups since until cap T Ho Wg Wu Hc) as (m & E & M & _ & P).
  destruct (drain_merger_spec flt already relays m st M) as (out & So & Po & Ed).
  exists out. split; [done |]. split; [by rewrite Po, P |].
  unfold merge_plan. rewrite E. cbn [mbind option_bind fst snd]. by rewrite Ed.
Qed.

(** ** Visiting with a result buffer *)

(** The result a note key gives, if the note exists and matches. *)
Definition pick (flt : filter) (already : Z) (relays : bool) (k : Z) : option query_result :=
  note ← ndb_get_note_by_key txn k;
  b ← ndb_filter_matches_with custom_cb flt note 0 already
        (if relays then Some (ndb_note_relay_iterate txn k) else None);
  if (b : bool) then Some (mk_result note (zlen note) k) else None.

(** Matching is defined on the notes of the keys. *)
Definition decided (flt : filter) (already : Z) (relays : bool) (keys : list Z) : Prop :=
  forall k note, k ∈ keys -> ndb_get_note_by_key txn k = Some note ->
    is_Some (ndb_filter_matches_with custom_cb flt note 0 already
               (if relays then Some (ndb_note_relay_iterate txn k) else None)).

(** What a standard query may hold. *)
Definition bound (capacity lim : Z) : Z := if lim =? 0 then capacity else Z.min capacity lim.

Lemma visit_all_standard flt already relays keys : forall capacity lim rs,
  decided flt already relays keys ->
  visit_all flt already relays keys (mk_state (STANDARD capacity rs) lim) =
    Some (mk_state (STANDARD capacity
      (rs ++ take (Z.to_nat (bound capacity lim - zlen rs)) (omap (pick flt already relays) keys))) lim).
Proof.
  induction keys as [| k keys IH]; intros capacity lim rs Hd.
  - cbn [visit_all omap list_omap]. by rewrite take_nil, app_nil_r.
  - assert (Hd' : decided flt already relays keys).
    { intros k' note Hk'. apply Hd, elem_of_cons. by right. }
    cbn [visit_all]. destruct (query_is_full _) eqn:Ef.
    { replace (Z.to_nat (bound capacity lim - zlen rs)) with 0%nat; [by rewrite take_0, app_nil_r |].
      unfold query_is_full in Ef. cbn [q_type limit] in Ef. unfold bound.
      destruct (Z.leb_spec capacity (zlen rs)), (Z.eqb_spec lim 0), (Z.leb_spec lim (zlen rs)); try done; lia. }
    assert (Hroom : zlen rs < capacity /\ zlen rs < bound capacity lim).
    { unfold query_is_full in Ef. cbn [q_type limit] in Ef. unfold bound.
      destruct (Z.leb_spec capacity (zlen rs)), (Z.eqb_spec lim 0), (Z.leb_spec lim (zlen rs)); try done; lia. }
    cbn [omap list_omap]. unfold visit_note, pick.
    destruct (ndb_get_note_by_key txn k) as [note |] eqn:En; cbn [mbind option_bind fst snd]; [| by apply IH].
    destruct (Hd k note ltac:(apply elem_of_cons; by left) En) as [b Eb]. rewrite Eb. cbn [mbind option_bind].
    destruct b; cbn [negb fst snd]; [| by apply IH].
    unfold push_query_result. cbn [q_type limit].
    destruct (Z.ltb_spec capacity (zlen rs + 1)); [lia |]. cbn [negb mbind option_bind fst snd].
    rewrite IH by done. do 3 f_equal. rewrite zlen_app. change (zlen [_]) with 1.
    replace (Z.to_nat (bound capacity lim - zlen rs))
      with (S (Z.to_nat (bound capacity lim - (zlen rs + 1)))) by lia.
    cbn [take]. by rewrite <- app_assoc.
Qed.
End plan_specs.

(** ** The filter a plan reads *)

(** The declared field of a type. *)
Definition declared (afs : list afield) (t : fieldtype) : option afield :=
  List.find (fun a => bool_decide (a_type a = t)) afs.

Definition declared_int (afs : list afield) (t : fieldtype) : option Z :=
  a ← declared afs t; match a_keys a with KInt i :: _ => Some i | _ => None end.

Section filter_reads.
Context (flt : filter) (afs : list afield).
Hypothesis (R : Forall2 (field_rep (data flt)) (fields flt) afs) (Oa : Forall afield_ok afs).

Lemma find_spec t :
  match ndb_filter_find_elements flt t, declared afs t with
  | Some f, Some a => field_rep (data flt) f a /\ afield_ok a /\ a_type a = t
  | None, None => True
  | _, _ => False
  end.
Proof using R Oa.
  unfold ndb_filter_find_elements, declared. generalize (fields flt) afs R Oa. clear R Oa. intros fs as'.
  induction 1 as [| f a fs as' Rf _ IH]; intros Oa'; [done |].
  apply Forall_cons_iff in Oa' as [Oa1 Oa']. cbn [List.find]. rewrite (fr_type _ _ _ Rf).
  destruct (decide (a_type a = t)) as [E | E].
  - by rewrite bool_decide_eq_true_2.
  - rewrite bool_decide_eq_false_2 by done. exact (IH Oa').
Qed.

Lemma int_field t f a : ndb_filter_find_elements flt t = Some f -> declared afs t = Some a ->
  (t = KINDS \/ t = SINCE \/ t = UNTIL \/ t = LIMIT) ->
  exists ks, ks ≡ₚ a_keys a /\ elements f = map key_int ks /\ Forall (fun k => is_u64 (key_int k)) ks.
Proof using R Oa.
  intros Ef Ea Ht. pose proof (find_spec t) as F. rewrite Ef, Ea in F. destruct F as (Rf & Oa1 & Et).
  destruct (fr_keys _ _ _ Rf) as (ks & P & F & _). exists ks. split; [done |].
  assert (Ok : Forall (key_ok t) ks) by (rewrite <- Et, P; apply (ao_keys _ Oa1)).
  clear - F Ok Ht. induction F as [| e k es ks Rk _ IH]; [done |].
  apply Forall_cons_iff in Ok as [Ok1 Ok]. destruct (IH Ok) as [IH1 IH2].
  assert (X : e = key_int k /\ is_u64 (key_int k)).
  { assert (Ki : exists i, k = KInt i).
    { destruct Ht as [-> | [-> | [-> | ->]]]; destruct k; cbn in Ok1; eauto; contradiction. }
    destruct Ki as [i ->]. destruct (f_elem f); cbn in Rk; try contradiction. exact Rk. }
  destruct X as [-> X]. split; [cbn [map]; by rewrite IH1 | by constructor].
Qed.

Lemma get_int_spec t : (t = SINCE \/ t = UNTIL \/ t = LIMIT) ->
  get_int flt t = Some (declared_int afs t) /\ (forall i, declared_int afs t = Some i -> is_u64 i).
Proof using R Oa.
  intros Ht. unfold get_int, declared_int, ndb_filter_get_elem. pose proof (find_spec t) as F.
  destruct (ndb_filter_find_elements flt t) as [f |] eqn:Ef, (declared afs t) as [a |] eqn:Ea; try done.
  destruct F as (Rf & Oa1 & Et). destruct (int_field t f a Ef Ea ltac:(tauto)) as (ks & P & Ee & U).
  assert (Hs : single t = true) by (destruct Ht as [-> | [-> | ->]]; done).
  pose proof (single_int a Oa1 ltac:(rewrite Et; tauto)) as Sk.
  cbn [mbind option_bind]. destruct (a_keys a) as [| k [|]]; try done. apply Permutation_singleton_r in P as ->.
  cbn [fmap option_fmap option_map]. rewrite Ee. cbn [map]. cbn [mbind option_bind].
  change ((key_int k :: []) !! 0%nat) with (Some (key_int k)). cbn [mbind option_bind].
  destruct k; try discriminate Sk. split; [reflexivity |]. intros i' [= <-]. by apply Forall_cons_iff in U as [U _].
Qed.

Lemma since_until_spec :
  since_of flt = Some (default 0 (declared_int afs SINCE)) /\
  until_of flt = Some (default UINT64_MAX (declared_int afs UNTIL)) /\
  is_u64 (default UINT64_MAX (declared_int afs UNTIL)).
Proof using R Oa.
  unfold since_of, until_of. destruct (get_int_spec SINCE) as [-> _]; [tauto |].
  destruct (get_int_spec UNTIL) as [-> U]; [tauto |]. split; [done |]. split; [done |].
  destruct (declared_int afs UNTIL); simpl; [by apply U | unfold is_u64, UINT64_MAX; lia].
Qed.

Lemma need_relays_spec : need_relays flt = false -> Forall (fun f => f_type f <> RELAYS) (fields flt).
Proof using.
  unfold need_relays. rewrite bool_decide_eq_false. unfold ndb_filter_find_elements. intros H.
  apply Forall_lookup. intros i f Hf E. apply H.
  destruct (List.find _ (fields flt)) eqn:Ef; [eauto |]. exfalso.
  pose proof (find_none _ _ Ef f) as Hn.
  apply bool_decide_eq_false in Hn; [done |]. apply list_elem_of_In, list_elem_of_lookup. eauto.
Qed.
End filter_reads.

Section admitting.
Context {D C V : Type} `{!Lmdb D C}.
Context (visitor : V -> query_result -> ndb_visitor_action * V).
Context (custom_cb : list Z -> mem -> Z -> bool) (txn : ndb_txn D).

(** The notes of the database read as [fn] says, relays included. *)
Definition notes_read (fn : Z -> fnote) : Prop :=
  forall k note, ndb_get_note_by_key txn k = Some note ->
    note_reads custom_cb note 0 (fn k) /\ n_relays (fn k) = ndb_note_relay_iterate txn k.

(** Does the note pass the fields that the index has not already decided? *)
Definition admitted (already : Z) (afs : list afield) (n : fnote) : bool :=
  forallb (fun a => negb (Z.land (bit (a_type a)) already =? 0) || meaning n a) afs.

Definition result_of (fn : Z -> fnote) (already : Z) (afs : list afield) (k : Z) : option query_result :=
  note ← ndb_get_note_by_key txn k;
  if admitted already afs (fn k) then Some (mk_result note (zlen note) k) else None.

Lemma matches_admitted flt afs fn already k note :
  Forall2 (field_rep (data flt)) (fields flt) afs -> Forall afield_ok afs -> zlen (data flt) < 2 ^ 31 ->
  notes_read fn -> ndb_get_note_by_key txn k = Some note ->
  ndb_filter_matches_with custom_cb flt note 0 already
    (if need_relays flt then Some (ndb_note_relay_iterate txn k) else None) =
  Some (admitted already afs (fn k)).
Proof.
  intros R Oa Hd Hn En. destruct (Hn k note En) as [Rn Er].
  change (Some (admitted already afs (fn k))) with
    (Some (forallb (fun a => negb (Z.land (Z.shiftl 1 (fieldtype_num (a_type a))) already =? 0) ||
                             meaning (fn k) a) afs)).
  rewrite <- (matches_with_spec custom_cb flt Hd note 0 (fn k) Rn already afs R Oa), Er.
  destruct (need_relays flt) eqn:E; [done |]. apply matches_loop_relays. by apply need_relays_spec.
Qed.

Lemma pick_result flt afs fn already keys :
  Forall2 (field_rep (data flt)) (fields flt) afs -> Forall afield_ok afs -> zlen (data flt) < 2 ^ 31 ->
  notes_read fn ->
  decided custom_cb txn flt already (need_relays flt) keys /\
  omap (pick custom_cb txn flt already (need_relays flt)) keys = omap (result_of fn already afs) keys.
Proof.
  intros R Oa Hd Hn. split.
  - intros k note _ En. rewrite (matches_admitted flt afs fn) by done. eauto.
  - induction keys as [| k keys IH]; [done |]. cbn [omap list_omap]. unfold pick, result_of.
    destruct (ndb_get_note_by_key txn k) as [note |] eqn:En; cbn [mbind option_bind]; [| exact IH].
    rewrite (matches_admitted flt afs fn) by done. cbn [mbind option_bind].
    destruct (admitted already afs (fn k)); [| exact IH]. f_equal. exact IH.
Qed.
End admitting.

(** ** The plans over the merger, into a buffer *)

Section buffered.
Context {D C V : Type} `{!Lmdb D C}.
Context (visitor : V -> query_result -> ndb_visitor_action * V).
Context (custom_cb : list Z -> mem -> Z -> bool) (txn : ndb_txn D).
Context (afs : list afield) (flt : filter) (fn : Z -> fnote).
Hypothesis (R : Forall2 (field_rep (data flt)) (fields flt) afs) (Oa : Forall afield_ok afs).
Hypothesis (Hd : zlen (data flt) < 2 ^ 31) (Hn : notes_read custom_cb txn fn).

(** The window of the filter. *)
Definition window_since : Z := default 0 (declared_int afs SINCE).
Definition window_until : Z := default UINT64_MAX (declared_int afs UNTIL).

Lemma merge_plan_result {type K G} `{!LmdbKey K} `{!EqDecision G} {gc : G -> G -> comparison}
    `{!ScanIndex type K G gc} db cap groups already l c capacity lim :
  scan_table (txn db) l -> mdb_cursor_open (txn db) = Some c -> Forall si_group_wf groups ->
  zlen groups <= cap ->
  exists out, descending out /\
    out ≡ₚ flat_map (table_entries l window_since window_until) groups /\
    merge_plan visitor custom_cb txn flt db type window_since cap
      (map (fun g => Keys.key_bytes (si_start g window_until)) groups) already (need_relays flt)
      (mk_state (STANDARD capacity []) lim) =
    Some (true, mk_state (STANDARD capacity
      (take (Z.to_nat (bound capacity lim)) (omap (result_of txn fn already afs) (map snd out)))) lim).
Proof using R Oa Hd Hn.
  intros T Ho Wg Hc. destruct (since_until_spec flt afs R Oa) as (_ & _ & Wu).
  destruct (merge_plan_spec visitor custom_cb txn flt db window_since window_until cap groups already
              (need_relays flt) (mk_state (STANDARD capacity []) lim) l c T Ho Wg Wu Hc)
    as (out & So & Po & Ed).
  exists out. split; [done |]. split; [done |]. rewrite Ed.
  destruct (pick_result custom_cb txn flt afs fn already (map snd out) R Oa Hd Hn) as [Hdec Ep].
  rewrite visit_all_standard by done. cbn [mbind option_bind]. rewrite Ep.
  change (zlen (@nil query_result)) with 0. by rewrite Z.sub_0_r.
Qed.

(** The kinds of the filter, in the order of its sorted array. *)
Lemma kinds_read a : declared afs KINDS = Some a ->
  exists f ks, ndb_filter_find_elements flt KINDS = Some f /\ elements f = ks /\
    ks ≡ₚ map key_int (a_keys a) /\ Forall is_u64 ks.
Proof using R Oa.
  intros Ea. pose proof (find_spec flt afs R Oa KINDS) as F. rewrite Ea in F.
  destruct (ndb_filter_find_elements flt KINDS) as [f |] eqn:Ef; [| done].
  destruct (int_field flt afs R Oa KINDS f a Ef Ea ltac:(tauto)) as (ks & P & Ee & U).
  exists f, (map key_int ks). split; [done |]. split; [done |]. split; [by rewrite P |].
  by apply Forall_map.
Qed.

Lemma kinds_plan_result a l c capacity lim : declared afs KINDS = Some a ->
  scan_table (txn NDB_DB_NOTE_KIND) l -> mdb_cursor_open (txn NDB_DB_NOTE_KIND) = Some c ->
  exists out, descending out /\
    out ≡ₚ flat_map (table_entries l window_since window_until) (map key_int (a_keys a)) /\
    ndb_query_plan_execute_kinds visitor custom_cb txn flt (mk_state (STANDARD capacity []) lim) =
    Some (true, mk_state (STANDARD capacity
      (take (Z.to_nat (bound capacity lim)) (omap (result_of txn fn (bit KINDS) afs) (map snd out)))) lim).
Proof using R Oa Hd Hn.
  intros Ea T Ho. destruct (kinds_read a Ea) as (f & ks & Ef & Ee & P & U).
  destruct (since_until_spec flt afs R Oa) as (Es & Eu & _).
  destruct (merge_plan_result NDB_DB_NOTE_KIND (f_count f) ks (bit KINDS) l c capacity lim T Ho U)
    as (out & So & Po & Ed); [unfold f_count; rewrite Ee; lia |].
  exists out. split; [done |]. split; [rewrite Po; by apply Permutation_flat_map |].
  unfold ndb_query_plan_execute_kinds. rewrite Ef, Eu, Es. cbn [mbind option_bind]. rewrite Ee. exact Ed.
Qed.
End buffered.

(** Notes 3, 4 and 5 of the demonstration index; the database has no note 2. *)
Definition note_at (ts kind : Z) : mem :=
  [1; 0; 0; 0] ++ replicate 32 0xaa ++ replicate 32 0xbb ++ replicate 64 0xcc ++
  le_bytes 8 ts ++ le_bytes 4 kind ++ le_bytes 4 2 ++ [104; 105; 0; 1] ++
  le_bytes 4 170 ++ [0; 0] ++ le_bytes 2 1 ++
  le_bytes 2 2 ++ [112; 0; 0; 1] ++ le_bytes 4 (2 * 2 ^ 24) ++ replicate 32 7 ++ [0].

Definition fnote_at (ts kind : Z) : fnote :=
  mk_fnote (replicate 32 0xaa) (replicate 32 0xbb) kind ts
    [[(NDB_PACKED_STR, EStr [112]); (NDB_PACKED_ID, EId (replicate 32 7))]] [] (fun _ => false).

Definition demo_note_db : list_db :=
  mk_list_db (fun a b => Some (le_int a - le_int b)) None
    [(le_bytes 8 3, note_at 150 7); (le_bytes 8 4, note_at 150 7); (le_bytes 8 5, note_at 100 1)].

Definition demo_query_txn : ndb_txn list_db := fun db =>
  match db with
  | NDB_DB_NOTE => demo_note_db
  | NDB_DB_NOTE_KIND => Merge.demo_kind_db
  | _ => mk_list_db (fun a b => Some (memcmp a b)) None []
  end.

Definition demo_fn (k : Z) : fnote :=
  if le_int (le_bytes 8 k) =? 5 then fnote_at 100 1 else fnote_at 150 7.

Definition no_custom : list Z -> mem -> Z -> bool := fun _ _ _ => false.

Lemma note_at_reads ts kind : (ts, kind) = (150, 7) \/ (ts, kind) = (100, 1) ->
  note_reads no_custom (note_at ts kind) 0 (fnote_at ts kind).
Proof.
  intros [[= -> ->] | [= -> ->]]; (split; [by apply bytes_ok_dec | vm_compute; reflexivity .. | done]).
Qed.

Lemma demo_notes_read : notes_read (C := list_db * option nat) no_custom demo_query_txn demo_fn.
Proof.
  intros k note E. split; [| unfold demo_fn; by destruct (_ =? 5)].
  unfold ndb_get_note_by_key, ndb_lookup_by_key in E.
  cbn -[le_bytes le_int note_at] in E. unfold demo_fn.
  change (le_int (le_bytes 8 3)) with 3 in E. change (le_int (le_bytes 8 4)) with 4 in E.
  change (le_int (le_bytes 8 5)) with 5 in E.
  destruct (decide (Some (3 - le_int (le_bytes 8 k)) = Some 0)) as [[= H] | _].
  { injection E as <-. destruct (Z.eqb_spec (le_int (le_bytes 8 k)) 5); [lia |]. apply note_at_reads. by left. }
  cbn -[le_bytes le_int note_at] in E.
  destruct (decide (Some (4 - le_int (le_bytes 8 k)) = Some 0)) as [[= H] | _].
  { injection E as <-. destruct (Z.eqb_spec (le_int (le_bytes 8 k)) 5); [lia |]. apply note_at_reads. by left. }
  cbn -[le_bytes le_int note_at] in E.
  destruct (decide (Some (5 - le_int (le_bytes 8 k)) = Some 0)) as [[= H] | _]; [| done].
  injection E as <-. destruct (Z.eqb_spec (le_int (le_bytes 8 k)) 5); [| lia]. apply note_at_reads. by right.
Qed.

Definition demo_query : list afield :=
  [ mk_afield KINDS 0 [KInt 7; KInt 1]; mk_afield UNTIL 0 [KInt 200];
    mk_afield AUTHORS 0 [KId (replicate 32 0xbb)] ].

Lemma demo_query_ok : declared_ok demo_query.
Proof.
  split.
  - repeat constructor; try (intros k1 k2; apply uniform_dec_spec; vm_compute; reflexivity);
      try (vm_compute; done); try (by intros b []%elem_of_nil).
  - apply distinct_dec_spec. vm_compute. done.
  - vm_compute. done.
  - vm_compute. done.
  - vm_compute. done.
Qed.

(** ** The kinds of the database *)

(** MDB_SET_RANGE stands on the first item that is not below the key. *)
Lemma set_range_spec {D C} `{!Lmdb D C} (c : C) k :
  match db_items (cur_db c) !! below (cur_db c) k with
  | Some it => exists c', mdb_cursor_get c (MDB_SET_RANGE k) = Some (c', it) /\ cur_db c' = cur_db c
  | None => mdb_cursor_get c (MDB_SET_RANGE k) = None
  end.
Proof.
  unfold below.
  assert (G : mdb_goto (db_cmp (cur_db c)) (db_items (cur_db c)) (cur_pos c) (MDB_SET_RANGE k)
    = find_pos (not_below (cur_db c) k) (db_items (cur_db c))) by done.
  destruct (find_pos _ _) as [p |] eqn:E.
  - apply find_pos_Some in E as [(it & El & _) _]. rewrite El.
    destruct (cursor_get_Some c _ p it G El) as (c1 & E1 & D1 & _). eauto.
  - rewrite lookup_ge_None_2 by lia. by apply cursor_get_None.
Qed.

Section kinds.
Context {D C V : Type} `{!Lmdb D C} (txn : ndb_txn D) (l : list (Z * (Z * Z))).
Hypothesis (T : scan_table (txn NDB_DB_NOTE_KIND) l).
Abbreviation d := (txn NDB_DB_NOTE_KIND).

Lemma kinds_wf i x : l !! i = Some x -> is_u64 (fst x) /\ is_u64 (fst (snd x)).
Proof using T. intros H. destruct (Forall_lookup_1 _ _ _ _ (st_wf _ _ T) H) as (? & ? & _). done. Qed.

Lemma kinds_below g i x : is_u64 g -> l !! i = Some x ->
  (i < below d (ndb_u64_ts_init g 0))%nat <-> fst x < g.
Proof using T.
  intros Wg Hx. destruct (kinds_wf i x Hx) as [_ Wt].
  pose proof (below_spec d _ (scan_table_index d l T) (mk_u64_ts g 0) i (si_key x, si_val x)) as B.
  rewrite B; [| done | by rewrite list_lookup_fmap, Hx].
  destruct x as [g' [t n]]. cbn [fst snd key_ord u64_ts_key si_key kind_scan]. unfold pair_cmp, u64_ts_tuple.
  simpl in *. unfold is_u64 in Wt. rewrite lex_Lt, Z.compare_eq_iff, !Z.compare_lt_iff. lia.
Qed.

Lemma kinds_sorted i j x y : (i <= j)%nat -> l !! i = Some x -> l !! j = Some y -> fst x <= fst y.
Proof using T.
  intros Hij Hx Hy. destruct (decide (i = j)) as [-> | N].
  { rewrite Hx in Hy. injection Hy as ->. lia. }
  assert (Hij' : (i < j)%nat) by lia. clear Hij N. revert i j Hij' Hx Hy.
  pose proof (st_sorted _ _ T) as S. clear T.
  induction S as [| z l' S IH F]; intros i j Hij Hx Hy; [done |].
  destruct j as [| j]; [lia |]. destruct i as [| i]; simpl in Hx, Hy; [| by apply (IH i j); [lia | |]].
  injection Hx as ->. pose proof (Forall_lookup_1 _ _ _ _ F Hy) as [E | [-> _]]; [| lia].
  apply (proj1 (Z.compare_lt_iff _ _)) in E. lia.
Qed.

Definition from_kind (g : Z) : list (Z * (Z * Z)) := List.filter (fun x => g <=? fst x) l.

Lemma from_kind_less g x : x ∈ l -> g <= fst x ->
  (length (from_kind (fst x + 1)) < length (from_kind g))%nat.
Proof using.
  clear T. intros Hx Hg. unfold from_kind. induction l as [| y l' IH]; [by apply elem_of_nil in Hx |].
  assert (L : forall l0 : list (Z * (Z * Z)), (length (List.filter (fun y => Z.leb (fst x + 1) (fst y)) l0) <=
    length (List.filter (fun y => Z.leb g (fst y)) l0))%nat).
  { intros l0. induction l0 as [| z l0 IH0]; [done |]. cbn [List.filter].
    destruct (Z.leb_spec (fst x + 1) (fst z)), (Z.leb_spec g (fst z)); simpl; lia. }
  cbn [List.filter]. apply elem_of_cons in Hx as [-> | Hx].
  - specialize (L l'). destruct (Z.leb_spec (fst y + 1) (fst y)), (Z.leb_spec g (fst y)); simpl in *; lia.
  - specialize (IH Hx). specialize (L l').
    destruct (Z.leb_spec (fst x + 1) (fst y)), (Z.leb_spec g (fst y)); simpl in *; lia.
Qed.

Lemma all_kinds_loop_spec fuel : forall (c : C) g, cur_db c = d -> is_u64 g ->
  (length (from_kind g) < fuel)%nat ->
  exists ks, all_kinds_loop fuel c (ndb_u64_ts_init g 0) = Some ks /\ StronglySorted Z.lt ks /\
    forall k, k ∈ ks <-> k ∈ map fst l /\ g <= k.
Proof using T.
  assert (In : forall k, k ∈ map fst l <-> exists i x, l !! i = Some x /\ fst x = k).
  { intros k. rewrite list_elem_of_In, in_map_iff. split.
    - intros (x & E & Hx). apply list_elem_of_In, list_elem_of_lookup in Hx as [i Hi]. eauto.
    - intros (i & x & Hi & E). exists x. split; [done |]. apply list_elem_of_In, list_elem_of_lookup. eauto. }
  induction fuel as [| fuel IH]; intros c g Hc Wg Hf; [lia |]. cbn [all_kinds_loop].
  pose proof (set_range_spec c (ndb_u64_ts_init g 0)) as S. rewrite Hc in S.
  rewrite (st_items _ _ T), list_lookup_fmap in S. set (p := below d _) in *.
  assert (B : forall i x, l !! i = Some x -> (i < p)%nat <-> fst x < g) by (intros; by apply kinds_below).
  destruct (l !! p) as [x |] eqn:Ex; cbn [fmap option_fmap option_map] in S.
  - destruct S as (c' & -> & Hc'). destruct (kinds_wf p x Ex) as [Wx _].
    assert (Gx : g <= fst x) by (pose proof (B p x Ex); lia).
    assert (After : forall k, k ∈ map fst l -> g <= k -> fst x <= k).
    { intros k (i & y & Hi & <-)%In Hk. apply (kinds_sorted p i); [| done ..].
      pose proof (B i y Hi). lia. }
    cbn [fst]. assert (Ek : u64_at (Keys.key_bytes (si_key x)) 0 = Some (fst x)).
    { destruct x as [k [t n]]. exact (u64_at_mid _ [] k (le_bytes 8 t) 0 eq_refl eq_refl Wx). }
    rewrite Ek. cbn [mbind option_bind].
    assert (Here : fst x ∈ map fst l) by (apply In; eauto).
    destruct (Z.eqb_spec (fst x) UINT64_MAX) as [M | M].
    + exists [fst x]. split; [done |]. split; [repeat constructor |]. intros k. rewrite list_elem_of_singleton.
      split; [by intros -> |]. intros [H1 H2]. specialize (After k H1 H2).
      apply In in H1 as (i & y & Hi & <-). destruct (kinds_wf i y Hi) as [Wy _].
      unfold is_u64, UINT64_MAX in *. lia.
    + destruct (IH c' (fst x + 1)) as (ks & Ek' & Ss & Hk).
      { by rewrite Hc'. } { unfold is_u64, UINT64_MAX in *. lia. }
      { pose proof (from_kind_less g x). assert (x ∈ l) by (apply list_elem_of_lookup; eauto).
        specialize (H H0 Gx). lia. }
      exists (fst x :: ks). rewrite Ek'. cbn [mbind option_bind]. split; [done |]. split.
      { constructor; [done |]. rewrite List.Forall_forall. intros k Hin%list_elem_of_In%Hk. lia. }
      intros k. rewrite elem_of_cons, Hk. split.
      { intros [-> | [H1 H2]]; split; try done; lia. }
      intros [H1 H2]. specialize (After k H1 H2). destruct (decide (k = fst x)); [by left | right].
      split; [done | lia].
  - rewrite S. exists []. split; [done |]. split; [constructor |]. intros k. rewrite elem_of_nil.
    split; [done |]. intros [(i & y & Hi & <-)%In Hk]. apply lookup_ge_None in Ex.
    pose proof (lookup_lt_Some _ _ _ Hi). pose proof (B i y Hi). lia.
Qed.
End kinds.

(** The hop over the kind index (seek to the kind, then to the kind after
    it) ends and finds every kind of the database once, in ascending order. *)
Theorem all_kinds_complete {D C : Type} `{!Lmdb D C} (txn : ndb_txn D) (l : list (Z * (Z * Z))) (c : C)
    (T : scan_table (txn NDB_DB_NOTE_KIND) l) (Ho : mdb_cursor_open (txn NDB_DB_NOTE_KIND) = Some c) :
  exists kinds, ndb_all_kinds (C := C) txn = Some (Some kinds) /\ StronglySorted Z.lt kinds /\
    forall k, k ∈ kinds <-> k ∈ map fst l.
Proof.
  destruct (cursor_open_spec _ _ Ho) as [Hc _].
  destruct (all_kinds_loop_spec txn l T (S (length (db_items (txn NDB_DB_NOTE_KIND)))) c 0 Hc)
    as (ks & E & S & H); [unfold is_u64; lia | |].
  { rewrite (st_items _ _ T), length_map. unfold from_kind.
    pose proof (List.filter_length_le (fun x : Z * (Z * Z) => 0 <=? fst x) l). lia. }
  exists ks. unfold ndb_all_kinds. rewrite Ho, E. cbn [mbind option_bind]. split; [done |]. split; [done |].
  intros k. rewrite H. split; [by intros [? _] |]. intros Hk. split; [done |].
  apply list_elem_of_In, in_map_iff in Hk as (x & <- & Hx).
  apply list_elem_of_In, list_elem_of_lookup in Hx as [i Hi]. destruct (kinds_wf txn l T i x Hi) as [Wx _].
  unfold is_u64 in Wx. lia.
Qed.

Lemma all_kinds_complete_witness :
  exists kinds, ndb_all_kinds (C := list_db * option nat) demo_query_txn = Some (Some kinds) /\
    StronglySorted Z.lt kinds /\ forall k, k ∈ kinds <-> k ∈ [1; 1; 7; 7].
Proof.
  exact (all_kinds_complete (C := list_db * option nat) demo_query_txn Merge.demo_kinds
    (Merge.demo_kind_db, None) demo_kind_table eq_refl).
Defined.

(** ** The newest notes of all kinds *)

(** The entries inside the window, whatever the kind. *)
Definition window_entries (l : list (Z * (Z * Z))) (since until : Z) : list (Z * Z) :=
  map snd (List.filter (fun x => (fst (snd x) <? until) && (since <=? fst (snd x))) l).

Lemma flat_map_nil {A B} (f : A -> list B) l : (forall x, x ∈ l -> f x = []) -> flat_map f l = [].
Proof.
  induction l as [| x l IH]; intros H; [done |]. cbn [flat_map].
  rewrite (H x), IH; [done | | apply elem_of_cons; by left].
  intros y Hy. apply H, elem_of_cons. by right.
Qed.

Lemma flat_map_once {A B} `{!EqDecision A} (f g : A -> list B) a x ks : NoDup ks -> a ∈ ks ->
  (forall k, f k = (if bool_decide (a = k) then [x] else []) ++ g k) ->
  flat_map f ks ≡ₚ x :: flat_map g ks.
Proof.
  intros N Ha H. induction ks as [| k ks IH]; [by apply elem_of_nil in Ha |].
  apply list.NoDup_cons in N as [Nk N]. cbn [flat_map]. rewrite H. apply elem_of_cons in Ha as [-> | Ha].
  - rewrite bool_decide_eq_true_2 by done. simpl. constructor. f_equiv.
    clear -Nk H. induction ks as [| k' ks IH]; [done |]. cbn [flat_map].
    rewrite H, bool_decide_eq_false_2; [| intros ->; apply Nk, elem_of_cons; by left].
    simpl. f_equiv. apply IH. intros Hk. apply Nk, elem_of_cons. by right.
  - rewrite bool_decide_eq_false_2 by (intros ->; done). simpl. rewrite IH by done.
    by rewrite Permutation_middle.
Qed.

Lemma all_groups_window (l : list (Z * (Z * Z))) since until ks :
  NoDup ks -> (forall x, x ∈ l -> fst x ∈ ks) ->
  flat_map (table_entries l since until) ks ≡ₚ window_entries l since until.
Proof.
  intros N. induction l as [| [k [t n]] l IH]; intros H.
  { unfold window_entries. simpl. rewrite flat_map_nil; done. }
  assert (H' : forall x, x ∈ l -> fst x ∈ ks) by (intros; apply H, elem_of_cons; by right).
  specialize (IH H'). unfold window_entries. cbn [List.filter fst snd].
  assert (E : forall g, table_entries ((k, (t, n)) :: l) since until g =
    (if bool_decide (k = g) && ((t <? until) && (since <=? t)) then [(t, n)] else []) ++
      table_entries l since until g).
  { intros g. unfold table_entries, group_entries. cbn [List.filter fst snd]. simpl si_cut.
    rewrite andb_assoc. by destruct (bool_decide (k = g) && _ && _). }
  destruct ((t <? until) && (since <=? t)).
  - cbn [map snd]. rewrite (flat_map_once _ (table_entries l since until) k (t, n)); [by rewrite IH | done | |].
    { apply (H (k, (t, n))), elem_of_cons. by left. }
    intros g. rewrite E. by destruct (bool_decide (k = g)).
  - rewrite <- IH.
    assert (X : forall g, table_entries ((k, (t, n)) :: l) since until g = table_entries l since until g).
    { intros g. rewrite E, andb_false_r. done. }
    clear -X. induction ks as [| g ks IH]; [done |]. cbn [flat_map]. by rewrite X, IH.
Qed.

(** A query with nothing to index on still returns the newest notes: the
    plan merges the scans of all the kinds of the database, visits every entry
    of the window from newest to oldest, and keeps the notes the filter admits,
    as many as the capacity and the limit allow. *)
Theorem created_plan_newest {D C V : Type} `{!Lmdb D C} (visitor : V -> query_result -> ndb_visitor_action * V)
    (cb : list Z -> mem -> Z -> bool) (txn : ndb_txn D) (afs : list afield)
    (fn : Z -> fnote) (l : list (Z * (Z * Z))) (c : C) (capacity lim : Z)
    (Oa : declared_ok afs) (Hn : notes_read cb txn fn)
    (T : scan_table (txn NDB_DB_NOTE_KIND) l) (Ho : mdb_cursor_open (txn NDB_DB_NOTE_KIND) = Some c) :
  exists flt out, build_filter afs ndb_filter_init = Some (true, flt) /\ descending out /\
    out ≡ₚ window_entries l (window_since afs) (window_until afs) /\
    ndb_query_plan_execute_created_at visitor cb txn flt (mk_state (STANDARD capacity []) lim) =
    Some (true, mk_state (STANDARD capacity
      (take (Z.to_nat (bound capacity lim)) (omap (result_of txn fn 0 afs) (map snd out)))) lim).
Proof.
  destruct (build_filter_spec afs Oa) as (flt & E & _ & R & Hd).
  destruct (cursor_open_spec _ _ Ho) as [Hc _].
  destruct (all_kinds_loop_spec txn l T (S (length (db_items (txn NDB_DB_NOTE_KIND)))) c 0 Hc)
    as (ks & Ek & S & H); [unfold is_u64; lia | |].
  { rewrite (st_items _ _ T), length_map. unfold from_kind.
    pose proof (List.filter_length_le (fun x : Z * (Z * Z) => 0 <=? fst x) l). lia. }
  assert (Wf : forall x, x ∈ l -> is_u64 (fst x)).
  { intros x [i Hi]%list_elem_of_lookup. by destruct (kinds_wf txn l T i x Hi). }
  assert (Wk : Forall is_u64 ks).
  { rewrite List.Forall_forall. intros k Hk%list_elem_of_In%H. destruct Hk as [Hk _].
    apply list_elem_of_In, in_map_iff in Hk as (x & <- & Hx%list_elem_of_In). auto. }
  destruct (merge_plan_result visitor cb txn afs flt fn R (do_fields _ Oa) Hd Hn NDB_DB_NOTE_KIND (zlen ks) ks
    0 l c capacity lim T Ho Wk ltac:(lia)) as (out & So & Po & Ed).
  exists flt, out. split; [done |]. split; [done |]. split.
  - rewrite Po. apply all_groups_window.
    + clear -S. induction S as [| k ks S IH F]; [constructor |]. apply list.NoDup_cons. split; [| done].
      intros Hk. rewrite List.Forall_forall in F. specialize (F k (proj1 (list_elem_of_In _ _) Hk)). lia.
    + intros x Hx. apply H. specialize (Wf x Hx). unfold is_u64 in Wf. split; [| lia].
      apply list_elem_of_In, in_map_iff. exists x. split; [done | by apply list_elem_of_In].
  - destruct (since_until_spec flt afs R (do_fields _ Oa)) as (Es & Eu & _).
    unfold ndb_query_plan_execute_created_at. rewrite Eu, Es. cbn [mbind option_bind].
    unfold ndb_all_kinds. rewrite Ho, Ek. cbn [mbind option_bind]. exact Ed.
Qed.

(** The window and one author, no kinds. *)
Lemma created_plan_newest_witness :
  exists flt out, build_filter (tail demo_query) ndb_filter_init = Some (true, flt) /\ descending out /\
    out ≡ₚ [(100, 5); (150, 3); (150, 4)] /\
    ndb_query_plan_execute_created_at (C := list_db * option nat) (fun (v : unit) _ => (NDB_VISITOR_CONT, v))
      no_custom demo_query_txn flt (mk_state (STANDARD 10 []) 0) =
    Some (true, mk_state (STANDARD 10 (take 10
      (omap (result_of (C := list_db * option nat) demo_query_txn demo_fn 0 (tail demo_query)) (map snd out)))) 0).
Proof.
  apply (created_plan_newest (C := list_db * option nat) (fun (v : unit) _ => (NDB_VISITOR_CONT, v)) no_custom
    demo_query_txn (tail demo_query) demo_fn Merge.demo_kinds (Merge.demo_kind_db, None) 10 0);
    [| exact demo_notes_read | exact demo_kind_table | reflexivity].
  split.
  - exact (proj2 (proj1 (Forall_cons_iff _ _ _) (do_fields _ demo_query_ok))).
  - apply distinct_dec_spec. vm_compute. done.
  - vm_compute. done.
  - vm_compute. done.
  - vm_compute. done.
Defined.

(** ** The whole query *)

Definition created_of (r : query_result) : Z := default 0 (load_u64 (r_note r) off.created_at).
Definition has_time (r : query_result) : Prop := is_Some (load_u64 (r_note r) off.created_at).

Lemma compare_results_ok a b : has_time a -> has_time b ->
  compare_query_results a b =
    Some (if created_of a =? created_of b then 0 else if created_of b <? created_of a then -1 else 1).
Proof. intros [x Hx] [y Hy]. unfold compare_query_results, created_of. by rewrite Hx, Hy. Qed.

Definition newer (a b : query_result) : Prop := created_of b <= created_of a.

Lemma qinsert_results x l : has_time x -> Forall has_time l -> StronglySorted newer l ->
  exists l', qinsert compare_query_results x l = Some l' /\ StronglySorted newer l'.
Proof.
  intros Hx F S. induction S as [| y l S IH Fy]; [exists [x]; split; [done | repeat constructor] |].
  apply Forall_cons_iff in F as [Hy F]. destruct (IH F) as (l' & E & S'). cbn [qinsert].
  rewrite compare_results_ok by done. cbn [mbind option_bind].
  destruct (Z.ltb_spec 0 (if created_of x =? created_of y then 0 else
                            if created_of y <? created_of x then -1 else 1)) as [L | L].
  - exists (y :: l'). rewrite E. split; [done |]. constructor; [done |].
    rewrite (qinsert_elem _ _ _ _ E). constructor; [| done]. unfold newer.
    destruct (Z.eqb_spec (created_of x) (created_of y)), (Z.ltb_spec (created_of y) (created_of x)); lia.
  - exists (x :: y :: l). split; [done |]. assert (N : newer x y).
    { unfold newer. destruct (Z.eqb_spec (created_of x) (created_of y)),
        (Z.ltb_spec (created_of y) (created_of x)); lia. }
    constructor; [by constructor |]. constructor; [done |].
    revert Fy. apply Forall_impl. unfold newer in *. intros z Hz. lia.
Qed.

Lemma qsort_results l : Forall has_time l ->
  exists l', qsort compare_query_results l = Some l' /\ StronglySorted newer l' /\ l' ≡ₚ l.
Proof.
  induction 1 as [| x l Hx F IH]; [exists []; repeat split; constructor |].
  destruct IH as (l1 & E1 & S1 & P1).
  destruct (qinsert_results x l1 Hx) as (l2 & E2 & S2); [by rewrite P1 | done |].
  exists l2. cbn [qsort]. rewrite E1. cbn [mbind option_bind]. split; [done |]. split; [done |].
  by rewrite (qinsert_elem _ _ _ _ E2), P1.
Qed.

(** A declaration that leaves only the kinds to search by. *)
Definition kinds_only (afs : list afield) : Prop :=
  Forall (fun a => match a_type a with KINDS | SINCE | UNTIL | LIMIT | CUSTOM => True | _ => False end) afs.

Lemma declared_none afs t : kinds_only afs ->
  match t with KINDS | SINCE | UNTIL | LIMIT | CUSTOM => False | _ => True end -> declared afs t = None.
Proof.
  intros K Ht. unfold declared. induction K as [| a afs Ha _ IH]; [done |]. cbn [List.find].
  rewrite bool_decide_eq_false_2; [done |]. intros E. rewrite E in Ha. by destruct t.
Qed.

(** A filter built from a declaration keeps its storage. *)
Lemma built_not_empty afs flt : declared_ok afs -> afs <> [] ->
  build_filter afs ndb_filter_init = Some (true, flt) -> filter_is_empty flt = false.
Proof.
  intros [D1 D2 D3 D4 D5] Hne E.
  destruct (declare_all_spec afs [] ndb_filter_init) as (flt1 & E1 & R & _ & _); try done.
  unfold build_filter in E. rewrite (run_andM _ _ _ _ E1) in E. unfold ndb_filter_end, freed in E.
  rewrite bind_get, (rd_final _ _ R) in E. cbn [andb] in E. injection E as <-.
  unfold filter_is_empty. cbn [elem_end data_end]. rewrite (rd_elem _ _ R). cbn [app].
  destruct afs as [| a afs]; [done |]. cbn [map]. unfold sum_Z. cbn [foldr].
  assert (0 <= foldr Z.add 0 (map field_cost afs)).
  { clear. induction afs as [| b afs IH]; simpl; [lia |]. unfold field_cost at 1.
    pose proof (zlen_nonneg (a_keys b)). lia. }
  unfold field_cost at 1. pose proof (zlen_nonneg (a_keys a)). pose proof (zlen_nonneg (data flt1)).
  apply Z.eqb_neq. lia.
Qed.

Lemma kinds_plan flt afs a : filter_is_empty flt = false -> Forall2 (field_rep (data flt)) (fields flt) afs -> Forall afield_ok afs ->
  kinds_only afs -> declared afs KINDS = Some a -> ndb_filter_plan flt = Some NDB_PLAN_KINDS.
Proof.
  intros Ne R Oa Ko Ea.
  assert (N : forall t, match t with KINDS | SINCE | UNTIL | LIMIT | CUSTOM => False | _ => True end ->
    ndb_filter_find_elements flt t = None).
  { intros t Ht. pose proof (find_spec flt afs R Oa t) as F. rewrite (declared_none afs t Ko Ht) in F.
    by destruct (ndb_filter_find_elements flt t). }
  pose proof (find_spec flt afs R Oa KINDS) as F. rewrite Ea in F.
  destruct (ndb_filter_find_elements flt KINDS) as [f |] eqn:Ef; [| contradiction]. clear F.
  unfold ndb_filter_plan.
  rewrite Ne, (N IDS I), (N SEARCH I), (N AUTHORS I), (N TAGS I), (N RELAYS I), Ef.
  destruct (f_count f =? 1) eqn:E1; [| reflexivity].
  destruct (elements f) as [| e es] eqn:Ee; [unfold f_count in E1; by rewrite Ee in E1 |].
  cbn. destruct (e =? 0); reflexivity.
Qed.

Lemma picked_time {D C} `{!Lmdb D C} (cb : list Z -> mem -> Z -> bool) (txn : ndb_txn D) fn already afs keys :
  notes_read cb txn fn -> Forall has_time (omap (result_of txn fn already afs) keys).
Proof.
  intros Hn. rewrite List.Forall_forall. intros r Hr%list_elem_of_In.
  apply list_elem_of_omap in Hr as (k & _ & Hk). unfold result_of in Hk.
  destruct (ndb_get_note_by_key txn k) as [note |] eqn:En; cbn [mbind option_bind] in Hk; [| done].
  destruct (admitted already afs (fn k)); [| done]. injection Hk as <-.
  destruct (Hn k note En) as [Rn _]. unfold has_time. cbn [r_note].
  pose proof (nr_created _ _ _ _ Rn) as Ht. rewrite Z.add_0_l in Ht. by rewrite Ht.
Qed.

(** What the LIMIT of a filter makes of the capacity of the buffer. *)
Lemma fill_limit_spec {V} flt afs (st : query_state V) capacity :
  Forall2 (field_rep (data flt)) (fields flt) afs -> Forall afield_ok afs ->
  ndb_query_state_fill_limit st flt (Some capacity) =
    Some (mk_state (q_type st)
      (match declared_int afs LIMIT with
       | Some p => if p =? 0 then u64 capacity else u64 (Z.min capacity (i32 p))
       | None => u64 capacity
       end)).
Proof.
  intros R Oa. unfold ndb_query_state_fill_limit.
  destruct (get_int_spec flt afs R Oa LIMIT) as [-> _]; [tauto |]. cbn [mbind option_bind].
  destruct (declared_int afs LIMIT); done.
Qed.

(** The limit of a declaration below 2^31, zero meaning none. *)
Definition result_limit (afs : list afield) (capacity : Z) : Z :=
  match declared_int afs LIMIT with
  | Some p => if p =? 0 then capacity else Z.min capacity p
  | None => capacity
  end.

Lemma kinds_query_result {D C V : Type} `{!Lmdb D C} (visitor : V -> query_result -> ndb_visitor_action * V)
    (cb : list Z -> mem -> Z -> bool) (txn : ndb_txn D) search profile_search (afs : list afield) (a : afield)
    (fn : Z -> fnote) (l : list (Z * (Z * Z))) (c : C) (capacity : Z)
    (Oa : declared_ok afs) (Ko : kinds_only afs) (Ea : declared afs KINDS = Some a)
    (Hl : forall p, declared_int afs LIMIT = Some p -> p < 2 ^ 31) (Hc : 0 <= capacity < 2 ^ 31)
    (Hn : notes_read cb txn fn)
    (T : scan_table (txn NDB_DB_NOTE_KIND) l) (Ho : mdb_cursor_open (txn NDB_DB_NOTE_KIND) = Some c) :
  exists flt out rs, build_filter afs ndb_filter_init = Some (true, flt) /\ descending out /\
    out ≡ₚ flat_map (table_entries l (window_since afs) (window_until afs)) (map key_int (a_keys a)) /\
    ndb_query visitor cb txn search profile_search [flt] capacity = Some (Some rs) /\
    StronglySorted newer rs /\
    rs ≡ₚ take (Z.to_nat (result_limit afs capacity)) (omap (result_of txn fn (bit KINDS) afs) (map snd out)).
Proof.
  destruct (build_filter_spec afs Oa) as (flt & E & _ & R & Hd). pose proof (do_fields _ Oa) as Of.
  assert (Ne : filter_is_empty flt = false) by (apply (built_not_empty afs); [done | by intros -> | done]).
  set (lim := match declared_int afs LIMIT with
              | Some p => if p =? 0 then u64 capacity else u64 (Z.min capacity (i32 p))
              | None => u64 capacity
              end).
  destruct (kinds_plan_result visitor cb txn afs flt fn R Of Hd Hn a l c capacity lim Ea T Ho)
    as (out & So & Po & Ed).
  set (picked := omap (result_of txn fn (bit KINDS) afs) (map snd out)) in *.
  assert (Lb : bound capacity lim = result_limit afs capacity).
  { unfold bound, lim, result_limit.
    destruct (get_int_spec flt afs R Of LIMIT) as [_ U]; [tauto |].
    destruct (declared_int afs LIMIT) as [p |] eqn:El.
    - specialize (Hl p eq_refl). specialize (U p eq_refl). unfold is_u64, u64, i32 in *.
      destruct (Z.eqb_spec p 0).
      + rewrite Z.mod_small by lia. destruct (Z.eqb_spec capacity 0); lia.
      + rewrite (Z.mod_small (p + 2 ^ 31)) by lia. rewrite Z.mod_small by lia.
        destruct (Z.eqb_spec (Z.min capacity (p + 2 ^ 31 - 2 ^ 31)) 0); lia.
    - unfold u64. rewrite Z.mod_small by lia. destruct (Z.eqb_spec capacity 0); lia. }
  rewrite Lb in Ed.
  assert (Ft : Forall has_time (take (Z.to_nat (result_limit afs capacity)) picked))
    by (apply Forall_take; by eapply picked_time).
  destruct (qsort_results _ Ft) as (rs & Eq & Sr & Pr).
  exists flt, out, rs. split; [done |]. split; [done |]. split; [done |].
  split; [| split; [done | exact Pr]].
  unfold ndb_query, run_standard. rewrite (fill_limit_spec flt afs _ _ R Of). cbn [mbind option_bind q_type].
  unfold ndb_query_filter. rewrite (kinds_plan flt afs a Ne R Of Ko Ea). cbn [mbind option_bind].
  fold lim. rewrite Ed. cbn [mbind option_bind fst snd q_type]. by rewrite Eq.
Qed.

(** C6: A query whose filter searches by kinds (with bounds, a limit below 2^31
    or custom tests besides) answers with the newest matching notes, newest
    first: a permutation of the first notes, up to the capacity and the limit,
    that the merged kind scans give and the filter admits, sorted by time. *)
Theorem query_by_kinds {D C V : Type} `{!Lmdb D C} (visitor : V -> query_result -> ndb_visitor_action * V)
    (cb : list Z -> mem -> Z -> bool) (txn : ndb_txn D) search profile_search (afs : list afield) (a : afield)
    (fn : Z -> fnote) (l : list (Z * (Z * Z))) (c : C) (capacity : Z)
    (Oa : declared_ok afs) (Ko : kinds_only afs) (Ea : declared afs KINDS = Some a)
    (Hl : forall p, declared_int afs LIMIT = Some p -> p < 2 ^ 31) (Hc : 0 <= capacity < 2 ^ 31)
    (Hn : notes_read cb txn fn)
    (T : scan_table (txn NDB_DB_NOTE_KIND) l) (Ho : mdb_cursor_open (txn NDB_DB_NOTE_KIND) = Some c) :
  exists flt out rs, build_filter afs ndb_filter_init = Some (true, flt) /\ descending out /\
    out ≡ₚ flat_map (table_entries l (window_since afs) (window_until afs)) (map key_int (a_keys a)) /\
    ndb_query visitor cb txn search profile_search [flt] capacity = Some (Some rs) /\
    StronglySorted newer rs /\
    rs ≡ₚ take (Z.to_nat (result_limit afs capacity)) (omap (result_of txn fn (bit KINDS) afs) (map snd out)).
Proof. exact (kinds_query_result visitor cb txn search profile_search afs a fn l c capacity Oa Ko Ea Hl Hc Hn T Ho). Qed.

Definition demo_limited : list afield :=
  [ mk_afield KINDS 0 [KInt 7; KInt 1]; mk_afield UNTIL 0 [KInt 200]; mk_afield LIMIT 0 [KInt 2] ].

Lemma demo_limited_ok : declared_ok demo_limited.
Proof.
  split.
  - repeat constructor; try (intros k1 k2; apply uniform_dec_spec; vm_compute; reflexivity);
      try (vm_compute; done); try (by intros b []%elem_of_nil).
  - apply distinct_dec_spec. vm_compute. done.
  - vm_compute. done.
  - vm_compute. done.
  - vm_compute. done.
Qed.

(** Kinds 7 and 1 before 200, limit 2. *)
Lemma query_by_kinds_witness :
  exists flt out rs, build_filter demo_limited ndb_filter_init = Some (true, flt) /\ descending out /\
    out ≡ₚ [(150, 3); (150, 4); (100, 5)] /\
    ndb_query (C := list_db * option nat) (fun (v : unit) _ => (NDB_VISITOR_CONT, v)) no_custom
      demo_query_txn (fun _ _ => None) (fun _ _ => None) [flt] 10 = Some (Some rs) /\
    StronglySorted newer rs /\
    rs ≡ₚ take 2 (omap (result_of (C := list_db * option nat) demo_query_txn demo_fn (bit KINDS) demo_limited)
                   (map snd out)).
Proof.
  exact (query_by_kinds (C := list_db * option nat) (fun (v : unit) _ => (NDB_VISITOR_CONT, v)) no_custom
    demo_query_txn (fun _ _ => None) (fun _ _ => None) demo_limited (mk_afield KINDS 0 [KInt 7; KInt 1]) demo_fn
    Merge.demo_kinds (Merge.demo_kind_db, None) 10 demo_limited_ok
    ltac:(by repeat constructor) eq_refl ltac:(by intros p [= <-]) ltac:(lia)
    demo_notes_read demo_kind_table eq_refl).
Defined.

(** The limit of a filter passes through a 32-bit integer when the query has
    a buffer: a limit of k * 2^32 + r, larger than the buffer, acts as r. *)
Theorem query_limit_truncated {V : Type} (st : query_state V) (afs : list afield) (k r capacity : Z)
    (Oa : declared_ok afs) (El : declared_int afs LIMIT = Some (k * 2 ^ 32 + r))
    (Hr : 0 < r < capacity) (Hk : 0 < k) (Hc : capacity < 2 ^ 31) :
  exists flt, build_filter afs ndb_filter_init = Some (true, flt) /\
    ndb_query_state_fill_limit st flt (Some capacity) = Some (mk_state (q_type st) r).
Proof.
  destruct (build_filter_spec afs Oa) as (flt & E & _ & R & Hd). exists flt. split; [done |].
  rewrite (fill_limit_spec flt afs _ _ R (do_fields _ Oa)), El. do 2 f_equal.
  destruct (Z.eqb_spec (k * 2 ^ 32 + r) 0); [lia |]. unfold i32, u64.
  replace (k * 2 ^ 32 + r + 2 ^ 31) with (r + 2 ^ 31 + k * 2 ^ 32) by lia.
  rewrite Z_mod_plus_full, (Z.mod_small (r + 2 ^ 31)) by lia. rewrite Z.mod_small by lia. lia.
Qed.

Lemma query_limit_truncated_witness :
  exists flt, build_filter [mk_afield LIMIT 0 [KInt (2 ^ 32 + 5)]] ndb_filter_init = Some (true, flt) /\
    ndb_query_state_fill_limit (mk_state (STANDARD (V := unit) 100 []) 0) flt (Some 100) =
      Some (mk_state (STANDARD 100 []) 5).
Proof.
  apply (query_limit_truncated (mk_state (STANDARD (V := unit) 100 []) 0)
    [mk_afield LIMIT 0 [KInt (2 ^ 32 + 5)]] 1 5 100); [| reflexivity | lia | lia | lia].
  split.
  - repeat constructor; try (intros k1 k2; apply uniform_dec_spec; vm_compute; reflexivity);
      try (vm_compute; done); try (by intros b []%elem_of_nil).
  - apply distinct_dec_spec. vm_compute. done.
  - vm_compute. done.
  - vm_compute. done.
  - vm_compute. done.
Defined.

(** Note 5 was seen on relays a and b. *)
Definition demo_seen : list ((list Z * Z) * (Z * Z)) := [(([97], 1), (100, 5)); (([98], 1), (100, 5))].

Definition demo_relay_txn : ndb_txn list_db := fun db =>
  match db with
  | NDB_DB_NOTE => demo_note_db
  | NDB_DB_NOTE_RELAY_KIND =>
      mk_list_db ndb_relay_kind_cmp None (map (fun x => (Keys.key_bytes (si_key x), si_val x)) demo_seen)
  | _ => mk_list_db (fun a b => Some (memcmp a b)) None []
  end.

(** A query by two relays and a kind returns a note seen on both relays
    twice: the merged scans of the relay index are not deduplicated. *)
Theorem relay_query_duplicates :
  exists flt r, build_filter [mk_afield RELAYS 0 [KStr [97]; KStr [98]]; mk_afield KINDS 0 [KInt 1]]
      ndb_filter_init = Some (true, flt) /\
    ndb_query (C := list_db * option nat) (fun (v : unit) _ => (NDB_VISITOR_CONT, v)) no_custom
      demo_relay_txn (fun _ _ => None) (fun _ _ => None) [flt] 10 = Some (Some [r; r]) /\
    r_note_id r = 5.
Proof.
  eexists _, _. split; [vm_compute; reflexivity |]. split; [vm_compute; reflexivity | vm_compute; reflexivity].
Qed.
