(* ===== verification/Queue.v ===== *)
(** * The protected queue (src/src/protected_queue.h, src/src/threadpool.h)

    A ring buffer of fixed-size elements over one byte buffer, with a mutex and a
    condition variable.  Every operation runs under the mutex, so it is one step
    on the record of the queue; waiting on the condition is a status of the
    thread that calls a pop.  [None] is undefined behaviour (a copy outside the
    buffer, a failed assertion).

    The theorems show that the ring buffer refines a bounded FIFO, that under
    any interleaving of producers and consumers nothing is lost, duplicated or
    reordered, and that the single consumer of an inbox never sleeps while the
    queue holds elements. *)

From stdpp Require Import relations.
From S2P Require Export Prelude.
Open Scope Z_scope.

Record prot_queue := mk_queue {
  buf : mem; buflen : Z; head : Z; tail : Z; count : Z; elem_size : Z }.

Definition prot_queue_init (buf : mem) (buflen elem_size : Z) : option (bool * prot_queue) :=
  if (buflen =? 0) || negb (buflen mod elem_size =? 0) then None
  else Some (true, mk_queue buf buflen 0 0 0 elem_size).

Definition prot_queue_capacity (q : prot_queue) : Z := buflen q / elem_size q.

Definition prot_queue_empty (q : prot_queue) : bool := count q =? 0.

Definition prot_queue_push (q : prot_queue) (data : mem) : option (bool * prot_queue) :=
  let cap := prot_queue_capacity q in
  if count q =? cap then Some (false, q)
  else
    d ← loadn data 0 (elem_size q);
    buf' ← storen (buf q) (tail q * elem_size q) d;
    Some (true, mk_queue buf' (buflen q) (head q) ((tail q + 1) mod cap) (count q + 1) (elem_size q)).

Definition prot_queue_push_all (q : prot_queue) (data : mem) (n : Z) : option (Z * prot_queue) :=
  let cap := prot_queue_capacity q in
  if cap <? count q + n then Some (0, q)
  else
    let first_copy_count := Z.min n (cap - tail q) in
    let second_copy_count := n - first_copy_count in
    d1 ← loadn data 0 (first_copy_count * elem_size q);
    buf1 ← storen (buf q) (tail q * elem_size q) d1;
    let tail1 := (tail q + first_copy_count) mod cap in
    if 0 <? second_copy_count then
      d2 ← loadn data (first_copy_count * elem_size q) (second_copy_count * elem_size q);
      buf2 ← storen buf1 (tail1 * elem_size q) d2;
      Some (n, mk_queue buf2 (buflen q) (head q) ((tail1 + second_copy_count) mod cap) (count q + n)
                 (elem_size q))
    else Some (n, mk_queue buf1 (buflen q) (head q) tail1 (count q + n) (elem_size q)).

(** The number of elements popped, their bytes and the queue: the common part
    of the pops of several elements. *)
Definition pop_items (q : prot_queue) (max_items : Z) : option (Z * mem * prot_queue) :=
  let items_until_end := (buflen q - head q * elem_size q) / elem_size q in
  let items_to_pop := Z.min (Z.min (count q) max_items) items_until_end in
  d ← loadn (buf q) (head q * elem_size q) (items_to_pop * elem_size q);
  Some (items_to_pop, d,
        mk_queue (buf q) (buflen q) ((head q + items_to_pop) mod prot_queue_capacity q) (tail q)
          (count q - items_to_pop) (elem_size q)).

Definition prot_queue_try_pop_all (q : prot_queue) (max_items : Z) : option (Z * mem * prot_queue) :=
  if count q =? 0 then Some (0, [], q) else pop_items q max_items.

(** A pop that may wait: [Some None] when the thread waits on the condition. *)
Definition prot_queue_pop_all (q : prot_queue) (max_items : Z) :
    option (option (Z * mem * prot_queue)) :=
  if count q =? 0 then Some None else r ← pop_items q max_items; Some (Some r).

Definition prot_queue_pop (q : prot_queue) : option (option (mem * prot_queue)) :=
  if count q =? 0 then Some None
  else
    d ← loadn (buf q) (head q * elem_size q) (elem_size q);
    Some (Some (d, mk_queue (buf q) (buflen q) ((head q + 1) mod prot_queue_capacity q) (tail q)
                     (count q - 1) (elem_size q))).

(** ** The thread pool *)

(** The inboxes of the threads, dispatched to in turn. *)
Record threadpool := mk_pool { inboxes : list prot_queue; next_thread : Z }.

(** One inbox per thread; no thread is next. *)
Definition threadpool_init (num_threads q_elem_size q_num_elems : Z) (qmem : mem) : option (bool * threadpool) :=
  if num_threads <=? 0 then Some (false, mk_pool [] (-1))
  else
    r ← prot_queue_init qmem (q_elem_size * q_num_elems) q_elem_size;
    Some (true, mk_pool (replicate (Z.to_nat num_threads) (snd r)) (-1)).

Definition threadpool_next_thread (tp : threadpool) : threadpool :=
  mk_pool (inboxes tp) ((next_thread tp + 1) mod zlen (inboxes tp)).

Definition threadpool_dispatch (tp : threadpool) (msg : mem) : option (bool * threadpool) :=
  let tp := threadpool_next_thread tp in
  q ← inboxes tp !! Z.to_nat (next_thread tp);
  r ← prot_queue_push q msg;
  Some (fst r, mk_pool (<[Z.to_nat (next_thread tp) := snd r]> (inboxes tp)) (next_thread tp)).

Fixpoint dispatch_each (qs : list prot_queue) (msg : mem) (ok : bool) : option (bool * list prot_queue) :=
  match qs with
  | [] => Some (ok, [])
  | q :: qs =>
      r ← (if ok then prot_queue_push q msg else Some (false, q));
      rest ← dispatch_each qs msg (ok && fst r);
      Some (fst rest, snd r :: snd rest)
  end.

(** The first inbox that is full ends it. *)
Definition threadpool_dispatch_all_threads (tp : threadpool) (msg : mem) : option (bool * threadpool) :=
  r ← dispatch_each (inboxes tp) msg true; Some (fst r, mk_pool (snd r) (next_thread tp)).

Definition threadpool_dispatch_all (tp : threadpool) (msgs : mem) (num_msgs : Z) : option (Z * threadpool) :=
  let tp := threadpool_next_thread tp in
  q ← inboxes tp !! Z.to_nat (next_thread tp);
  r ← prot_queue_push_all q msgs num_msgs;
  Some (fst r, mk_pool (<[Z.to_nat (next_thread tp) := snd r]> (inboxes tp)) (next_thread tp)).

(** ** The abstract queue *)

(** A bounded FIFO of elements. *)
Definition fifo_push (cap : Z) (xs : list mem) (x : mem) : bool * list mem :=
  if zlen xs =? cap then (false, xs) else (true, xs ++ [x]).

Definition fifo_push_all (cap : Z) (xs ys : list mem) : Z * list mem :=
  if cap <? zlen xs + zlen ys then (0, xs) else (zlen ys, xs ++ ys).

(** The queue is well formed and holds the elements [xs]. *)
Record holds (q : prot_queue) (cap : Z) (xs : list mem) : Prop := {
  h_elem : 0 < elem_size q;
  h_cap : 0 < cap;
  h_buflen : buflen q = cap * elem_size q;
  h_buf : zlen (buf q) = buflen q;
  h_head : 0 <= head q < cap;
  h_count : count q = zlen xs;
  h_room : zlen xs <= cap;
  h_tail : tail q = (head q + count q) mod cap;
  h_size : Forall (fun x => zlen x = elem_size q) xs;
  h_slot : forall i x, xs !! i = Some x ->
    loadn (buf q) ((head q + Z.of_nat i) mod cap * elem_size q) (elem_size q) = Some x
}.

(** ** Interleaved threads *)

Inductive status := Running | Blocked | Woken.

(** [pthread_cond_signal] wakes at least one of the waiting threads. *)
Inductive woken : list status -> list status -> Prop :=
  | woken_nil : woken [] []
  | woken_same s cs cs' : woken cs cs' -> woken (s :: cs) (s :: cs')
  | woken_wake cs cs' : woken cs cs' -> woken (Blocked :: cs) (Woken :: cs').

Definition signal (cs cs' : list status) : Prop := woken cs cs' /\ (Blocked ∈ cs -> cs' <> cs).

(** A queue, the threads that pop from it, and what went in and out. *)
Record system := mk_system {
  queue : prot_queue; threads : list status; pushed : list mem; popped : list mem }.

(** One critical section per step.  [ys] are the elements of the bytes moved. *)
Inductive step : system -> system -> Prop :=
  | step_push q cs cs' ins outs x ok q' :
      zlen x = elem_size q -> prot_queue_push q x = Some (ok, q') ->
      (if ok : bool then signal cs cs' else cs' = cs) ->
      step (mk_system q cs ins outs)
           (mk_system q' cs' (if ok then ins ++ [x] else ins) outs)
  | step_push_all q cs cs' ins outs ys n q' :
      Forall (fun x => zlen x = elem_size q) ys ->
      prot_queue_push_all q (concat ys) (zlen ys) = Some (n, q') ->
      (if 0 <? n then signal cs cs' else cs' = cs) ->
      step (mk_system q cs ins outs)
           (mk_system q' cs' (if 0 <? n then ins ++ ys else ins) outs)
  | step_wait q cs ins outs i s max :
      cs !! i = Some s -> s <> Blocked -> prot_queue_pop_all q max = Some None ->
      step (mk_system q cs ins outs) (mk_system q (<[i := Blocked]> cs) ins outs)
  | step_pop q cs ins outs i s max n d ys q' :
      cs !! i = Some s -> s <> Blocked -> 0 <= max ->
      prot_queue_pop_all q max = Some (Some (n, d, q')) ->
      d = concat ys -> Forall (fun x => zlen x = elem_size q) ys ->
      step (mk_system q cs ins outs) (mk_system q' (<[i := Running]> cs) ins (outs ++ ys))
  | step_spurious q cs ins outs i :
      cs !! i = Some Blocked ->
      step (mk_system q cs ins outs) (mk_system q (<[i := Woken]> cs) ins outs).

Inductive reachable (s0 : system) : system -> Prop :=
  | reach_init : reachable s0 s0
  | reach_step s s' : reachable s0 s -> step s s' -> reachable s0 s'.

(** An initialised queue and its idle threads. *)
Definition start (q : prot_queue) (nthreads : nat) : system := mk_system q (replicate nthreads Running) [] [].

(** * Lemmas *)

(** ** Blocks of one size *)

Lemma zlen_concat es ys : Forall (fun y : mem => zlen y = es) ys -> zlen (concat ys) = zlen ys * es.
Proof. induction 1 as [| y ys Hy _ IH]; [done |]. cbn [concat]. rewrite zlen_app, zlen_cons, IH. lia. Qed.

Lemma load_concat m es ys : forall a, 0 <= a -> a + zlen ys * es <= zlen m ->
  (forall i y, ys !! i = Some y -> loadn m (a + Z.of_nat i * es) es = Some y) ->
  loadn m a (zlen ys * es) = Some (concat ys).
Proof.
  induction ys as [| y ys IH]; intros a Ha Hm H.
  - change (zlen (@nil mem) * es) with 0 in *. by rewrite loadn_in_range by lia.
  - cbn [concat]. rewrite zlen_cons. replace ((1 + zlen ys) * es) with (es + zlen ys * es) by lia.
    pose proof (H 0%nat y eq_refl) as Hy. rewrite Z.mul_0_l, Z.add_0_r in Hy.
    pose proof Hy as (_ & ? & ? & _)%loadn_Some.
    apply loadn_app; [done |]. apply IH; [lia | rewrite zlen_cons in Hm; lia |].
    intros i z Hz. specialize (H (S i) z Hz). rewrite <- H. f_equal. lia.
Qed.

Lemma concat_load m es ys : Forall (fun y : mem => zlen y = es) ys -> forall a,
  loadn m a (zlen ys * es) = Some (concat ys) ->
  forall i y, ys !! i = Some y -> loadn m (a + Z.of_nat i * es) es = Some y.
Proof.
  induction 1 as [| z ys Hz F IH]; intros a Hl i y Hy; [done |]. cbn [concat] in Hl.
  replace (zlen (z :: ys) * es) with (zlen (z ++ concat ys)) in Hl
    by (rewrite zlen_app, zlen_cons, (zlen_concat es) by done; lia).
  apply loadn_app_inv in Hl as [L1 L2]. rewrite Hz in L1, L2. destruct i as [| i]; simpl in Hy.
  - injection Hy as <-. by rewrite Z.mul_0_l, Z.add_0_r.
  - rewrite (zlen_concat es) in L2 by done. rewrite <- (IH _ L2 i y Hy). f_equal. lia.
Qed.

(** ** Slots of the ring *)

Lemma wrap h i cap : 0 <= h < cap -> 0 <= i <= cap ->
  (h + i) mod cap = if h + i <? cap then h + i else h + i - cap.
Proof.
  intros Hh Hi. destruct (Z.ltb_spec (h + i) cap); [by apply Z.mod_small; lia |].
  replace (h + i) with (h + i - cap + 1 * cap) at 1 by lia. rewrite Z_mod_plus_full. by apply Z.mod_small; lia.
Qed.

Definition slots (m : mem) (h cap es : Z) (xs : list mem) : Prop :=
  forall i x, xs !! i = Some x -> loadn m ((h + Z.of_nat i) mod cap * es) es = Some x.

(** A run of elements stored behind the last one. *)
Lemma store_run m m' h cap es xs ys t :
  0 < es -> 0 <= h < cap -> zlen xs + zlen ys <= cap -> t = (h + zlen xs) mod cap -> t + zlen ys <= cap ->
  Forall (fun y => zlen y = es) ys -> storen m (t * es) (concat ys) = Some m' ->
  slots m h cap es xs -> slots m' h cap es (xs ++ ys).
Proof.
  intros He Hh Hr Et Ht F St Sl i x Hx. pose proof (zlen_nonneg xs). pose proof (zlen_nonneg ys).
  assert (Hw : t = if h + zlen xs <? cap then h + zlen xs else h + zlen xs - cap)
    by (rewrite Et; apply wrap; lia).
  assert (Lx : length xs = Z.to_nat (zlen xs)) by (by rewrite to_nat_zlen).
  apply lookup_app_Some in Hx as [Hx | [Hi Hx]].
  - pose proof (lookup_lt_Some _ _ _ Hx). rewrite <- (Sl i x Hx).
    apply (loadn_storen_other _ _ _ _ _ _ St). rewrite (zlen_concat es) by done.
    rewrite wrap by lia. destruct (Z.ltb_spec (h + zlen xs) cap), (Z.ltb_spec (h + Z.of_nat i) cap); nia.
  - pose proof (lookup_lt_Some _ _ _ Hx). assert (Ly : length ys = Z.to_nat (zlen ys)) by (by rewrite to_nat_zlen).
    replace ((h + Z.of_nat i) mod cap) with (t + Z.of_nat (i - length xs)).
    2: { rewrite wrap by lia. destruct (Z.ltb_spec (h + zlen xs) cap), (Z.ltb_spec (h + Z.of_nat i) cap); lia. }
    rewrite Z.mul_add_distr_r. apply (concat_load m' es ys F); [| done].
    pose proof (loadn_storen_same _ _ _ _ St) as L. by rewrite (zlen_concat es) in L.
Qed.

Lemma holds_tail q cap xs : holds q cap xs -> 0 <= tail q < cap.
Proof. intros [? ? ? ? ? ? ? -> ? ?]. by apply Z.mod_pos_bound. Qed.

Lemma capacity_ok q cap xs : holds q cap xs -> prot_queue_capacity q = cap.
Proof. intros [? ? E ? ? ? ? ? ? ?]. unfold prot_queue_capacity. rewrite E. apply Z.div_mul. lia. Qed.

(** A run that fits behind the tail is stored. *)
Lemma run_stored q cap xs ys : holds q cap xs -> tail q + zlen ys <= cap ->
  Forall (fun y => zlen y = elem_size q) ys ->
  exists m', storen (buf q) (tail q * elem_size q) (concat ys) = Some m' /\ zlen m' = buflen q.
Proof.
  intros H Ht F. pose proof (holds_tail _ _ _ H) as Rt. pose proof (h_elem _ _ _ H).
  pose proof (h_buflen _ _ _ H). pose proof (h_buf _ _ _ H).
  destruct (storen_in_range (buf q) (tail q * elem_size q) (concat ys)) as [m' E].
  { nia. } { rewrite (zlen_concat (elem_size q)) by done. nia. }
  exists m'. split; [done |]. rewrite (storen_length _ _ _ _ E). lia.
Qed.

Lemma holds_app q cap xs ys m' : holds q cap xs -> zlen xs + zlen ys <= cap -> tail q + zlen ys <= cap ->
  Forall (fun y => zlen y = elem_size q) ys ->
  storen (buf q) (tail q * elem_size q) (concat ys) = Some m' ->
  holds (mk_queue m' (buflen q) (head q) ((tail q + zlen ys) mod cap) (count q + zlen ys) (elem_size q))
    cap (xs ++ ys).
Proof.
  intros H Hr Ht F St. pose proof (storen_length _ _ _ _ St) as L. destruct H as [H1 H2 H3 H4 H5 H6 H7 H8 H9 H10].
  split; cbn [buf buflen head tail count elem_size]; rewrite ?zlen_app; try lia || done.
  - rewrite H8, Zplus_mod_idemp_l. f_equal. lia.
  - by apply Forall_app.
  - apply (store_run (buf q) m' (head q) cap (elem_size q) xs ys (tail q)); try done. by rewrite H8, H6.
Qed.

(** ** Each operation does what the FIFO does *)

Lemma queue_init_spec b n es q : 0 < es -> 0 < n -> zlen b = n * es ->
  prot_queue_init b (n * es) es = Some (true, q) -> holds q n [].
Proof.
  intros He Hn Hb. unfold prot_queue_init.
  destruct (_ || _); [done |]. intros [= <-].
  split; cbn [buf buflen head tail count elem_size]; rewrite ?zlen_nil; try lia || done.
Qed.

Lemma queue_init_ok b n es : 0 < es -> 0 < n ->
  prot_queue_init b (n * es) es = Some (true, mk_queue b (n * es) 0 0 0 es).
Proof.
  intros He Hn. unfold prot_queue_init. rewrite Z.mod_mul by lia.
  destruct (Z.eqb_spec (n * es) 0); [nia | done].
Qed.

Lemma queue_push_spec q cap xs x : holds q cap xs -> zlen x = elem_size q ->
  exists q', prot_queue_push q x = Some (fst (fifo_push cap xs x), q') /\
    holds q' cap (snd (fifo_push cap xs x)) /\ elem_size q' = elem_size q.
Proof.
  intros H Hx. unfold prot_queue_push, fifo_push. rewrite (capacity_ok _ _ _ H), (h_count _ _ _ H).
  destruct (Z.eqb_spec (zlen xs) cap) as [E | E]; [eauto |].
  pose proof (h_room _ _ _ H). pose proof (holds_tail _ _ _ H). pose proof (h_elem _ _ _ H).
  assert (F : Forall (fun y => zlen y = elem_size q) [x]) by by repeat constructor.
  destruct (run_stored q cap xs [x] H ltac:(change (zlen [x]) with 1; lia) F) as (m' & St & _).
  cbn [concat] in St. rewrite app_nil_r in St.
  rewrite loadn_in_range by lia. rewrite <- Hx. change (Z.to_nat 0) with 0%nat. rewrite drop_0, to_nat_zlen, take_ge by lia.
  cbn [mbind option_bind]. rewrite Hx, St. cbn [mbind option_bind fst snd].
  eexists. split; [done |]. split; [| done].
  rewrite <- (h_count _ _ _ H). apply (holds_app q cap xs [x]); try done; change (zlen [x]) with 1; try lia.
  cbn [concat]. by rewrite app_nil_r.
Qed.

Lemma load_prefix (d1 d2 : mem) : loadn (d1 ++ d2) 0 (zlen d1) = Some d1.
Proof.
  pose proof (zlen_nonneg d2). pose proof (zlen_nonneg d1).
  rewrite loadn_in_range by (rewrite ?zlen_app; lia). change (Z.to_nat 0) with 0%nat.
  by rewrite drop_0, to_nat_zlen, take_app_length.
Qed.

Lemma load_suffix (d1 d2 : mem) : loadn (d1 ++ d2) (zlen d1) (zlen d2) = Some d2.
Proof.
  pose proof (zlen_nonneg d2). pose proof (zlen_nonneg d1).
  rewrite loadn_in_range by (rewrite ?zlen_app; lia).
  by rewrite !to_nat_zlen, drop_app_length, take_ge by lia.
Qed.

Lemma push_all_spec q cap xs ys : holds q cap xs -> Forall (fun y => zlen y = elem_size q) ys ->
  exists q', prot_queue_push_all q (concat ys) (zlen ys) = Some (fst (fifo_push_all cap xs ys), q') /\
    holds q' cap (snd (fifo_push_all cap xs ys)) /\ elem_size q' = elem_size q.
Proof.
  intros H F. unfold prot_queue_push_all, fifo_push_all. rewrite (capacity_ok _ _ _ H), (h_count _ _ _ H).
  destruct (Z.ltb_spec cap (zlen xs + zlen ys)) as [E | E]; [eauto |].
  pose proof (holds_tail _ _ _ H) as Rt. pose proof (zlen_nonneg ys). pose proof (h_elem _ _ _ H).
  set (k := Z.min (zlen ys) (cap - tail q)). set (y1 := take (Z.to_nat k) ys). set (y2 := drop (Z.to_nat k) ys).
  assert (Ey : ys = y1 ++ y2) by (symmetry; apply take_drop).
  assert (L1 : zlen y1 = k) by (unfold y1; zl; lia). assert (L2 : zlen y2 = zlen ys - k) by (unfold y2; zl; lia).
  assert (F' : Forall (fun y => zlen y = elem_size q) y1 /\ Forall (fun y => zlen y = elem_size q) y2)
    by (rewrite Ey in F; by apply Forall_app in F). destruct F' as [F1 F2].
  destruct (run_stored q cap xs y1 H ltac:(lia) F1) as (m1 & St1 & Lm1).
  replace (loadn (concat ys) 0 (k * elem_size q)) with (Some (concat y1)).
  2: { rewrite Ey at 1. rewrite concat_app, <- L1, <- (zlen_concat _ _ F1). symmetry. apply load_prefix. }
  cbn [mbind option_bind]. rewrite St1. cbn [mbind option_bind].
  pose proof (holds_app q cap xs y1 m1 H ltac:(lia) ltac:(lia) F1 St1) as Hq1. rewrite L1 in Hq1.
  destruct (Z.ltb_spec 0 (zlen ys - k)) as [K | K].
  - set (q1 := mk_queue _ _ _ _ _ _) in Hq1.
    assert (T1 : tail q1 = 0).
    { unfold q1. cbn [tail]. replace (tail q + k) with (0 + 1 * cap) by lia.
      rewrite Z_mod_plus_full. by apply Z.mod_small; lia. }
    destruct (run_stored q1 cap (xs ++ y1) y2 Hq1 ltac:(rewrite T1, L2; pose proof (zlen_nonneg xs); lia) F2)
      as (m2 & St2 & Lm2).
    replace (loadn (concat ys) (k * elem_size q) ((zlen ys - k) * elem_size q)) with (Some (concat y2)).
    2: { rewrite Ey at 1. rewrite concat_app, <- L1, <- (zlen_concat _ _ F1), L1, <- L2, <- (zlen_concat _ _ F2).
         symmetry. apply load_suffix. }
    cbn [mbind option_bind]. change (storen m1 _ _) with (storen (buf q1) (tail q1 * elem_size q1) (concat y2)).
    rewrite St2. cbn [mbind option_bind fst snd]. eexists. split; [done |]. split; [| done].
    pose proof (holds_app q1 cap (xs ++ y1) y2 m2 Hq1 ltac:(rewrite zlen_app; lia)
      ltac:(rewrite T1, L2; pose proof (zlen_nonneg xs); lia) F2 St2) as Hq2.
    rewrite <- app_assoc, <- Ey in Hq2. cbn [buf buflen head tail count elem_size q1] in Hq2. rewrite L2 in Hq2.
    replace (count q + k + (zlen ys - k)) with (zlen xs + zlen ys) in Hq2 by (rewrite (h_count _ _ _ H); lia).
    exact Hq2.
  - assert (Ek : k = zlen ys) by lia. cbn [fst snd]. eexists. split; [done |]. split; [| done].
    assert (E2 : y2 = []) by (unfold y2; apply drop_ge; rewrite Ek, to_nat_zlen; lia).
    rewrite Ey, E2, app_nil_r. rewrite L1, <- (h_count _ _ _ H). exact Hq1.
Qed.

(** The elements a pop of at most [max] takes at once: up to the end of the buffer. *)
Definition run_length (q : prot_queue) (cap max : Z) : Z :=
  Z.min (Z.min (count q) max) (cap - head q).

Lemma pop_items_spec q cap xs max : holds q cap xs -> 0 <= max ->
  let n := run_length q cap max in
  exists q', pop_items q max = Some (n, concat (take (Z.to_nat n) xs), q') /\
    holds q' cap (drop (Z.to_nat n) xs) /\ elem_size q' = elem_size q /\ 0 <= n <= zlen xs /\
    head q' = (head q + n) mod cap.
Proof.
  intros H Hm n. pose proof (capacity_ok _ _ _ H) as Ec. pose proof (holds_tail _ _ _ H).
  destruct H as [H1 H2 H3 H4 H5 H6 H7 H8 H9 H10]. pose proof (zlen_nonneg xs).
  assert (Eu : (buflen q - head q * elem_size q) / elem_size q = cap - head q).
  { rewrite H3, <- Z.mul_sub_distr_r. apply Z.div_mul. lia. }
  assert (Hn : 0 <= n <= zlen xs /\ n <= cap - head q) by (unfold n, run_length; lia).
  set (xs1 := take (Z.to_nat n) xs). assert (Lx : zlen xs1 = n) by (unfold xs1; zl; lia).
  assert (Ld : loadn (buf q) (head q * elem_size q) (n * elem_size q) = Some (concat xs1)).
  { rewrite <- Lx. apply load_concat; [nia | rewrite Lx, H4, H3; nia |].
    intros i x Hx. assert (Hi : (i < Z.to_nat n)%nat).
    { apply lookup_lt_Some in Hx. unfold xs1 in Hx. rewrite length_take in Hx. lia. }
    unfold xs1 in Hx. rewrite lookup_take_lt in Hx by done. rewrite <- (H10 i x Hx). f_equal.
    rewrite wrap by lia. destruct (Z.ltb_spec (head q + Z.of_nat i) cap); nia. }
  unfold pop_items. rewrite Eu, Ec. fold (run_length q cap max). fold n. rewrite Ld. cbn [mbind option_bind].
  eexists. split; [reflexivity |]. split; [| split; [done | split; [lia | done]]].
  assert (Lr : zlen (drop (Z.to_nat n) xs) = zlen xs - n) by (zl; lia).
  split; cbn [buf buflen head tail count elem_size]; try lia || done.
  - apply Z.mod_pos_bound. lia.
  - rewrite H8, Zplus_mod_idemp_l. f_equal. lia.
  - by apply Forall_drop.
  - intros i x Hx. rewrite lookup_drop in Hx. rewrite <- (H10 _ _ Hx), Zplus_mod_idemp_l.
    do 3 f_equal. lia.
Qed.

Lemma concat_inj es (xs : list mem) : 0 < es -> forall ys : list mem,
  Forall (fun y => zlen y = es) xs -> Forall (fun y => zlen y = es) ys -> concat xs = concat ys -> xs = ys.
Proof.
  intros He. induction xs as [| x xs IH]; intros [| y ys] F1 F2 E; [done | | |].
  - apply Forall_cons_iff in F2 as [Hy _]. apply (f_equal zlen) in E. cbn [concat] in E.
    rewrite zlen_app in E. change (zlen (@nil Z)) with 0 in E. pose proof (zlen_nonneg (concat ys)). lia.
  - apply Forall_cons_iff in F1 as [Hx _]. apply (f_equal zlen) in E. cbn [concat] in E.
    rewrite zlen_app in E. change (zlen (@nil Z)) with 0 in E. pose proof (zlen_nonneg (concat xs)). lia.
  - apply Forall_cons_iff in F1 as [Hx F1], F2 as [Hy F2]. cbn [concat] in E.
    apply app_inj_1 in E as [-> E]; [| unfold zlen in *; lia]. f_equal. by apply IH.
Qed.

(** ** Refinement *)

Inductive queue_op := Push (x : mem) | PushAll (ys : list mem) | TryPopAll (max : Z).
Inductive queue_result := RPush (ok : bool) | RPushAll (n : Z) | RItems (n : Z) (data : mem).

Definition op_ok (es : Z) (o : queue_op) : Prop :=
  match o with
  | Push x => zlen x = es
  | PushAll ys => Forall (fun y => zlen y = es) ys
  | TryPopAll max => 0 <= max
  end.

(** The operation on the ring buffer. *)
Definition exec (q : prot_queue) (o : queue_op) : option (queue_result * prot_queue) :=
  match o with
  | Push x => r ← prot_queue_push q x; Some (RPush (fst r), snd r)
  | PushAll ys => r ← prot_queue_push_all q (concat ys) (zlen ys); Some (RPushAll (fst r), snd r)
  | TryPopAll max => '(n, d, q') ← prot_queue_try_pop_all q max; Some (RItems n d, q')
  end.

Fixpoint exec_all (q : prot_queue) (os : list queue_op) : option (list queue_result * prot_queue) :=
  match os with
  | [] => Some ([], q)
  | o :: os => r ← exec q o; rs ← exec_all (snd r) os; Some (fst r :: fst rs, snd rs)
  end.

(** What a bounded FIFO of capacity [cap] does: a pop takes a prefix of at most
    [max] elements, not empty unless it has to be. *)
Inductive fifo_spec (cap : Z) : list mem -> queue_op -> queue_result -> list mem -> Prop :=
  | spec_push xs x : fifo_spec cap xs (Push x) (RPush (fst (fifo_push cap xs x))) (snd (fifo_push cap xs x))
  | spec_push_all xs ys :
      fifo_spec cap xs (PushAll ys) (RPushAll (fst (fifo_push_all cap xs ys))) (snd (fifo_push_all cap xs ys))
  | spec_pop max ys xs : zlen ys <= max -> (ys = [] -> xs = [] \/ max = 0) ->
      fifo_spec cap (ys ++ xs) (TryPopAll max) (RItems (zlen ys) (concat ys)) xs.

Inductive fifo_run (cap : Z) : list mem -> list queue_op -> list queue_result -> list mem -> Prop :=
  | run_nil xs : fifo_run cap xs [] [] xs
  | run_cons xs o r xs' os rs xs'' : fifo_spec cap xs o r xs' -> fifo_run cap xs' os rs xs'' ->
      fifo_run cap xs (o :: os) (r :: rs) xs''.

Lemma exec_refines q cap xs o : holds q cap xs -> op_ok (elem_size q) o ->
  exists r q' xs', exec q o = Some (r, q') /\ fifo_spec cap xs o r xs' /\ holds q' cap xs' /\
    elem_size q' = elem_size q.
Proof.
  intros H Ho. destruct o as [x | ys | max]; cbn [exec op_ok] in *.
  - destruct (queue_push_spec q cap xs x H Ho) as (q' & -> & H' & Es). cbn [mbind option_bind fst snd].
    eexists _, _, _. split; [done |]. split; [constructor | done].
  - destruct (push_all_spec q cap xs ys H Ho) as (q' & -> & H' & Es). cbn [mbind option_bind fst snd].
    eexists _, _, _. split; [done |]. split; [constructor | done].
  - unfold prot_queue_try_pop_all. rewrite (h_count _ _ _ H). destruct (Z.eqb_spec (zlen xs) 0) as [E | E].
    + cbn [mbind option_bind]. assert (xs = []) as -> by (destruct xs; [done | zl]).
      eexists _, _, []. split; [reflexivity |]. split; [| done].
      exact (spec_pop cap max [] [] Ho (fun _ => or_introl eq_refl)).
    + destruct (pop_items_spec q cap xs max H Ho) as (q' & -> & H' & Es & Hn & _).
      cbn [mbind option_bind]. eexists _, _, _. split; [reflexivity |]. split; [| done].
      set (n := run_length q cap max) in *.
      assert (Ln : zlen (take (Z.to_nat n) xs) = n) by (zl; lia).
      rewrite <- (take_drop (Z.to_nat n) xs) at 1.
      replace (RItems n) with (RItems (zlen (take (Z.to_nat n) xs))) by (by rewrite Ln). constructor.
      * rewrite Ln. unfold n, run_length. lia.
      * intros E0. rewrite E0 in Ln. change (zlen (@nil mem)) with 0 in Ln. right.
        pose proof (h_head _ _ _ H). pose proof (h_count _ _ _ H). pose proof (zlen_nonneg xs).
        unfold n, run_length in Ln. lia.
Qed.

(** C9: The ring buffer refines a bounded FIFO: from a freshly initialised queue
    (any buffer that holds [cap] elements) every sequence of pushes, group pushes
    and pops is defined, and its results are those of a FIFO of that capacity.  A
    push is refused exactly when the queue is full, a group is stored whole or
    not at all, also across the end of the buffer, where the comment in the
    source says it is refused, and a pop takes a prefix in order. *)
Theorem queue_refines_fifo (b : mem) (cap es : Z) (os : list queue_op) (He : 0 < es) (Hc : 0 < cap)
    (Hb : zlen b = cap * es) (Ho : Forall (op_ok es) os) :
  exists q rs q' xs, prot_queue_init b (cap * es) es = Some (true, q) /\
    exec_all q os = Some (rs, q') /\ fifo_run cap [] os rs xs /\ holds q' cap xs.
Proof.
  pose proof (queue_init_ok b cap es He Hc) as E. exists (mk_queue b (cap * es) 0 0 0 es).
  pose proof (queue_init_spec b cap es _ He Hc Hb E) as H.
  assert (G : forall q xs, holds q cap xs -> elem_size q = es ->
    exists rs q' xs', exec_all q os = Some (rs, q') /\ fifo_run cap xs os rs xs' /\ holds q' cap xs').
  { clear -Ho. induction Ho as [| o os Ho1 _ IH]; intros q xs H Es.
    - exists [], q, xs. split; [done |]. split; [constructor | done].
    - destruct (exec_refines q cap xs o H ltac:(by rewrite Es)) as (r & q1 & xs1 & E1 & S1 & H1 & Es1).
      destruct (IH q1 xs1 H1 ltac:(by rewrite Es1)) as (rs & q2 & xs2 & E2 & S2 & H2).
      exists (r :: rs), q2, xs2. cbn [exec_all]. rewrite E1. cbn [mbind option_bind snd fst]. rewrite E2.
      split; [done |]. split; [by econstructor | done]. }
  destruct (G _ [] H eq_refl) as (rs & q' & xs & G1 & G2 & G3).
  exists rs, q', xs. done.
Qed.

(** A queue of three pairs that wraps. *)
Lemma queue_refines_fifo_witness :
  exists q rs q' xs, prot_queue_init (replicate 6 0) (3 * 2) 2 = Some (true, q) /\
    exec_all q [PushAll [[1; 2]; [3; 4]]; TryPopAll 1; PushAll [[5; 6]; [7; 8]]; TryPopAll 9; Push [9; 9]] =
      Some (rs, q') /\
    fifo_run 3 [] [PushAll [[1; 2]; [3; 4]]; TryPopAll 1; PushAll [[5; 6]; [7; 8]]; TryPopAll 9; Push [9; 9]] rs xs /\
    holds q' 3 xs.
Proof.
  apply (queue_refines_fifo (replicate 6 0) 3 2); [lia | lia | done |].
  repeat constructor; simpl; lia.
Defined.

(** ** Interleavings *)

Section interleaved.
Context (q0 : prot_queue) (cap : Z) (nthreads : nat).
Hypothesis (H0 : holds q0 cap []).

Definition in_order (s : system) : Prop :=
  exists xs, holds (queue s) cap xs /\ pushed s = popped s ++ xs.

Lemma pop_all_inv q xs max n d q' ys : holds q cap xs -> 0 <= max ->
  prot_queue_pop_all q max = Some (Some (n, d, q')) -> d = concat ys ->
  Forall (fun x => zlen x = elem_size q) ys ->
  exists xs', xs = ys ++ xs' /\ holds q' cap xs' /\ zlen ys = run_length q cap max.
Proof using.
  intros H Hm E -> F. unfold prot_queue_pop_all in E. destruct (count q =? 0); [done |].
  destruct (pop_items_spec q cap xs max H Hm) as (q1 & E1 & H1 & _ & Hn & _). rewrite E1 in E.
  cbn [mbind option_bind] in E. injection E as En Ec ->. set (k := run_length q cap max) in *.
  assert (F1 : Forall (fun x => zlen x = elem_size q) (take (Z.to_nat k) xs))
    by (apply Forall_take, (h_size _ _ _ H)).
  apply (concat_inj (elem_size q) _ (h_elem _ _ _ H) _ F1 F) in Ec.
  exists (drop (Z.to_nat k) xs). rewrite <- Ec, take_drop. split; [done |]. split; [done |]. zl.
Qed.

Lemma step_in_order s s' : in_order s -> step s s' -> in_order s'.
Proof using.
  intros (xs & H & E) S. destruct S as [q cs cs' ins outs x ok q' Hx Ep _ | q cs cs' ins outs ys n q' F Ep _ |
    | q cs ins outs i st max n d ys q' _ _ Hm Ep Ed F |]; cbn [queue pushed popped] in *.
  - destruct (queue_push_spec q cap xs x H Hx) as (q1 & E1 & H1 & _). rewrite E1 in Ep. injection Ep as <- <-.
    unfold fifo_push in *. destruct (zlen xs =? cap); cbn [fst snd] in *; [by exists xs |].
    exists (xs ++ [x]). cbn [queue pushed popped]. by rewrite E, app_assoc.
  - destruct (push_all_spec q cap xs ys H F) as (q1 & E1 & H1 & _). rewrite E1 in Ep. injection Ep as <- <-.
    unfold fifo_push_all in *. destruct (cap <? zlen xs + zlen ys); cbn [fst snd] in *; [by exists xs |].
    exists (xs ++ ys). cbn [queue pushed popped]. split; [done |].
    destruct (Z.ltb_spec 0 (zlen ys)); [by rewrite E, app_assoc |].
    assert (ys = []) as -> by (destruct ys; [done | zl]). by rewrite app_nil_r.
  - by exists xs.
  - destruct (pop_all_inv q xs max n d q' ys H Hm Ep Ed F) as (xs' & -> & H' & _).
    exists xs'. cbn [queue pushed popped]. by rewrite E, app_assoc.
  - by exists xs.
Qed.

Lemma reachable_in_order s : reachable (start q0 nthreads) s -> in_order s.
Proof using H0.
  induction 1 as [| s s' _ IH S]; [by exists [] | by eapply step_in_order].
Qed.
End interleaved.

(** C10: However producers and consumers interleave, nothing is lost, duplicated
    or reordered: at every moment the elements accepted so far are the elements
    popped so far followed by the elements in the buffer, which are at most the
    capacity. *)
Theorem queue_conserves (b : mem) (cap es : Z) (nthreads : nat) (q : prot_queue) (s : system)
    (He : 0 < es) (Hc : 0 < cap) (Hb : zlen b = cap * es)
    (Hi : prot_queue_init b (cap * es) es = Some (true, q)) (Hr : reachable (start q nthreads) s) :
  exists xs, holds (queue s) cap xs /\ pushed s = popped s ++ xs /\ zlen xs <= cap.
Proof.
  pose proof (queue_init_spec b cap es q He Hc Hb Hi) as H.
  destruct (reachable_in_order q cap nthreads H s Hr) as (xs & Hx & E).
  exists xs. split; [done |]. split; [done | apply (h_room _ _ _ Hx)].
Qed.

Lemma queue_conserves_witness :
  exists xs, holds (mk_queue [1; 2; 0; 0] 4 0 1 1 2) 2 xs /\ [[1; 2]] = [] ++ xs /\ zlen xs <= 2.
Proof.
  apply (queue_conserves (replicate 4 0) 2 2 1 (mk_queue (replicate 4 0) 4 0 0 0 2)
    (mk_system (mk_queue [1; 2; 0; 0] 4 0 1 1 2) [Running] [[1; 2]] []));
    [lia | lia | reflexivity | reflexivity |].
  apply (reach_step _ (start (mk_queue (replicate 4 0) 4 0 0 0 2) 1)); [constructor |].
  apply (step_push _ [Running] [Running] [] [] [1; 2] true); [done | reflexivity |].
  split; [repeat constructor |]. intros H. apply list_elem_of_singleton in H. done.
Defined.

Lemma woken_one t cs' : woken [t] cs' -> cs' = [t] \/ (t = Blocked /\ cs' = [Woken]).
Proof.
  intros W. inversion W as [| ? ? ? W' |]; subst.
  - inversion W'; subst. by left.
  - match goal with W' : woken [] _ |- _ => inversion W'; subst end. by right.
Qed.

Lemma step_one_thread cap s s' t : in_order cap s -> threads s = [t] ->
  (t = Blocked -> count (queue s) = 0) -> step s s' ->
  exists t', threads s' = [t'] /\ (t' = Blocked -> count (queue s') = 0).
Proof.
  intros (xs & H & E) Et Hb S.
  assert (One : forall cs i u, cs = [t] -> cs !! i = Some u -> i = 0%nat).
  { intros cs i u -> Hi. apply lookup_lt_Some in Hi. simpl in Hi. lia. }
  assert (Sg : forall cs', signal [t] cs' -> exists t', cs' = [t'] /\ t' <> Blocked).
  { intros cs' [W N]. apply woken_one in W as [-> | [-> ->]]; [| by exists Woken].
    exists t. split; [done |]. intros ->. apply N; [by apply list_elem_of_singleton | done]. }
  destruct S as [q cs cs' ins outs x ok q' Hx Ep Hs | q cs cs' ins outs ys n q' F Ep Hs |
    q cs ins outs i u max Hi Hu Ep | q cs ins outs i u max n d ys q' Hi Hu Hm Ep Ed F | q cs ins outs i Hi];
    cbn [queue threads] in *.
  - subst cs. destruct ok.
    + destruct (Sg cs' Hs) as (t' & -> & N). exists t'. done.
    + subst cs'. exists t. split; [done |]. intros Ht. specialize (Hb Ht).
      destruct (queue_push_spec q cap xs x H Hx) as (q1 & E1 & H1 & _). rewrite E1 in Ep. injection Ep as Ef <-.
      unfold fifo_push in *. destruct (zlen xs =? cap); cbn [fst snd] in *; [| done].
      rewrite (h_count _ _ _ H1), <- (h_count _ _ _ H). done.
  - subst cs. destruct (Z.ltb_spec 0 n) as [L | L].
    + destruct (Sg cs' Hs) as (t' & -> & N). exists t'. done.
    + subst cs'. exists t. split; [done |]. intros Ht. specialize (Hb Ht).
      destruct (push_all_spec q cap xs ys H F) as (q1 & E1 & H1 & _). rewrite E1 in Ep. injection Ep as Ef <-.
      unfold fifo_push_all in *. destruct (cap <? zlen xs + zlen ys); cbn [fst snd] in *.
      * by rewrite (h_count _ _ _ H1), <- (h_count _ _ _ H).
      * assert (ys = []) as -> by (destruct ys; [done | zl]). rewrite app_nil_r in H1.
        by rewrite (h_count _ _ _ H1), <- (h_count _ _ _ H).
  - rewrite (One cs i u Et Hi), Et. exists Blocked. split; [done |]. intros _.
    unfold prot_queue_pop_all in Ep. destruct (Z.eqb_spec (count q) 0); [done |].
    by destruct (pop_items q max).
  - rewrite (One cs i u Et Hi), Et. by exists Running.
  - rewrite (One cs i _ Et Hi), Et. by exists Woken.
Qed.

Lemma one_thread q cap s : holds q cap [] -> reachable (start q 1) s ->
  exists t, threads s = [t] /\ (t = Blocked -> count (queue s) = 0).
Proof.
  intros H R. induction R as [| s s' R IH S]; [by exists Running |].
  destruct IH as (t & Et & Hb). apply (step_one_thread cap s s' t); try done.
  by apply (reachable_in_order q cap 1).
Qed.

(** C25: No wake-up is lost with one consumer, as every inbox has: in every
    reachable state in which the consumer sleeps on the condition, the queue is
    empty, whatever the producers pushed, one element or a group at a time. *)
Theorem consumer_never_stalls (b : mem) (cap es : Z) (q : prot_queue) (s : system)
    (He : 0 < es) (Hc : 0 < cap) (Hb : zlen b = cap * es)
    (Hi : prot_queue_init b (cap * es) es = Some (true, q)) (Hr : reachable (start q 1) s)
    (Ht : Blocked ∈ threads s) :
  prot_queue_empty (queue s) = true /\ popped s = pushed s.
Proof.
  pose proof (queue_init_spec b cap es q He Hc Hb Hi) as H.
  destruct (one_thread q cap s H Hr) as (t & Et & Hz). rewrite Et in Ht. apply list_elem_of_singleton in Ht as <-.
  specialize (Hz eq_refl). split; [by apply Z.eqb_eq |].
  destruct (reachable_in_order q cap 1 H s Hr) as (xs & Hx & E). rewrite (h_count _ _ _ Hx) in Hz.
  assert (xs = []) as -> by (destruct xs; [done | zl]). by rewrite app_nil_r in E.
Qed.

(** The consumer waits, sees an element arrive, pops it and waits again. *)
Lemma consumer_never_stalls_witness :
  let q := mk_queue (replicate 4 0) 4 0 0 0 2 in
  let s := mk_system (mk_queue [1; 2; 0; 0] 4 1 1 0 2) [Blocked] [[1; 2]] [[1; 2]] in
  reachable (start q 1) s /\ prot_queue_empty (queue s) = true /\ popped s = pushed s.
Proof.
  intros q s. assert (R : reachable (start q 1) s).
  { apply (reach_step _ (mk_system (mk_queue [1; 2; 0; 0] 4 1 1 0 2) [Running] [[1; 2]] [[1; 2]])).
    2: { apply (step_wait _ [Running] _ _ 0 Running 5); [done | done | reflexivity]. }
    apply (reach_step _ (mk_system (mk_queue [1; 2; 0; 0] 4 0 1 1 2) [Woken] [[1; 2]] [])).
    2: { apply (step_pop _ [Woken] _ [] 0 Woken 5 1 [1; 2] [[1; 2]]); [done | done | lia | reflexivity | done |].
         by repeat constructor. }
    apply (reach_step _ (mk_system q [Blocked] [] [])).
    2: { apply (step_push _ [Blocked] [Woken] [] [] [1; 2] true); [done | reflexivity |].
         split; [repeat constructor | done]. }
    apply (reach_step _ (start q 1)); [constructor |].
    apply (step_wait _ [Running] _ _ 0 Running 5); [done | done | reflexivity]. }
  split; [exact R |].
  apply (consumer_never_stalls (replicate 4 0) 2 2 q s); [lia | lia | reflexivity | reflexivity | exact R |].
  by apply list_elem_of_singleton.
Defined.

(** A pop of at least one element, and nothing else. *)
Definition pop_step (s s' : system) : Prop :=
  step s s' /\ pushed s' = pushed s /\ (length (popped s) < length (popped s'))%nat.

Lemma pop_once cap s xs t max : holds (queue s) cap xs -> xs <> [] -> threads s = [t] -> t <> Blocked ->
  cap <= max -> exists s', pop_step s s' /\ threads s' = [Running] /\ pushed s' = pushed s /\
    let n := Z.min (zlen xs) (cap - head (queue s)) in
    popped s' = popped s ++ take (Z.to_nat n) xs /\ holds (queue s') cap (drop (Z.to_nat n) xs) /\
    head (queue s') = (head (queue s) + n) mod cap.
Proof.
  intros H Hx Et Nb Hm. destruct s as [q cs ins outs]. cbn [queue threads pushed popped] in *. subst cs.
  pose proof (h_cap _ _ _ H). pose proof (h_room _ _ _ H).
  assert (0 < zlen xs) by (destruct xs; [done | zl]). pose proof (h_head _ _ _ H).
  destruct (pop_items_spec q cap xs max H ltac:(lia)) as (q' & E & H' & Es & Hn & Eh).
  assert (En : run_length q cap max = Z.min (zlen xs) (cap - head q))
    by (unfold run_length; rewrite (h_count _ _ _ H); lia).
  rewrite En in *. set (n := Z.min _ _) in *.
  exists (mk_system q' [Running] ins (outs ++ take (Z.to_nat n) xs)). cbn [threads pushed popped queue].
  split; [| done]. split; [| split; [done |]].
  - apply (step_pop q [t] ins outs 0 t max n (concat (take (Z.to_nat n) xs)));
      [done | done | lia | | done | apply Forall_take, (h_size _ _ _ H)].
    unfold prot_queue_pop_all. rewrite (h_count _ _ _ H). destruct (Z.eqb_spec (zlen xs) 0); [lia |]. by rewrite E.
  - cbn [popped]. rewrite length_app, length_take. unfold zlen in *. lia.
Qed.

(** What was pushed comes out: in every reachable state of a queue with one
    consumer that is not waiting, at most two pops (of at least the capacity)
    deliver everything accepted so far, the second one only because a pop stops
    at the end of the buffer. *)
Theorem queue_drains (b : mem) (cap es : Z) (q : prot_queue) (s : system)
    (He : 0 < es) (Hc : 0 < cap) (Hb : zlen b = cap * es)
    (Hi : prot_queue_init b (cap * es) es = Some (true, q)) (Hr : reachable (start q 1) s) :
  Blocked ∉ threads s ->
  exists n s', (n <= 2)%nat /\ nsteps pop_step n s s' /\ popped s' = pushed s.
Proof.
  intros Nb. pose proof (queue_init_spec b cap es q He Hc Hb Hi) as H.
  destruct (one_thread q cap s H Hr) as (t & Et & _). rewrite Et in Nb.
  assert (Nt : t <> Blocked) by (intros ->; apply Nb; by apply list_elem_of_singleton).
  destruct (reachable_in_order q cap 1 H s Hr) as (xs & Hx & E).
  destruct (decide (xs = [])) as [-> | Nx].
  { exists 0%nat, s. rewrite app_nil_r in E. split; [lia |]. split; [constructor | done]. }
  destruct (pop_once cap s xs t cap Hx Nx Et Nt ltac:(lia)) as (s1 & P1 & T1 & U1 & V1 & W1 & X1).
  set (n := Z.min _ _) in *. destruct (decide (drop (Z.to_nat n) xs = [])) as [Ed | Nd].
  { exists 1%nat, s1. split; [lia |]. split; [by apply nsteps_once |].
    rewrite V1, E. f_equal. rewrite <- (take_drop (Z.to_nat n) xs) at 2. by rewrite Ed, app_nil_r. }
  destruct (pop_once cap s1 _ Running cap W1 Nd T1 ltac:(done) ltac:(lia)) as (s2 & P2 & T2 & U2 & V2 & W2 & X2).
  exists 2%nat, s2. split; [lia |]. split; [by eapply nsteps_l, nsteps_once |].
  pose proof (h_head _ _ _ Hx). pose proof (h_room _ _ _ Hx).
  assert (Hl : zlen (drop (Z.to_nat n) xs) <> 0) by (intros El; apply Nd; destruct (drop _ _); [done | zl]).
  assert (En : n = cap - head (queue s)) by (unfold n in *; autorewrite with zlen in Hl; lia).
  assert (Eh : head (queue s1) = 0).
  { rewrite X1, En. replace (head (queue s) + (cap - head (queue s))) with (0 + 1 * cap) by lia.
    rewrite Z_mod_plus_full. by apply Z.mod_small; lia. }
  rewrite V2, V1, E, <- app_assoc, Eh. f_equal.
  rewrite (take_ge (drop _ _)); [by rewrite take_drop |].
  pose proof (h_room _ _ _ W1). unfold zlen in *. lia.
Qed.

(** A queue of two elements that wraps: two pops. *)
Lemma queue_drains_witness :
  exists n s', (n <= 2)%nat /\
    nsteps pop_step n (mk_system (mk_queue [5; 3] 2 1 1 2 1) [Running] [[2]; [3]; [5]] [[2]]) s' /\
    popped s' = [[2]; [3]; [5]].
Proof.
  set (q := mk_queue (replicate 2 0) 2 0 0 0 1).
  set (s := mk_system (mk_queue [5; 3] 2 1 1 2 1) [Running] [[2]; [3]; [5]] [[2]]).
  assert (Sg : signal [Running] [Running]).
  { split; [repeat constructor |]. intros H. by apply list_elem_of_singleton in H. }
  apply (queue_drains (replicate 2 0) 2 1 q s); [lia | lia | reflexivity | reflexivity | |].
  - apply (reach_step _ (mk_system (mk_queue [2; 3] 2 1 0 1 1) [Running] [[2]; [3]] [[2]])).
    2: { apply (step_push _ [Running] [Running] [[2]; [3]] [[2]] [5] true); [done | reflexivity | done]. }
    apply (reach_step _ (mk_system (mk_queue [2; 3] 2 0 0 2 1) [Running] [[2]; [3]] [])).
    2: { apply (step_pop _ [Running] _ [] 0 Running 1 1 [2] [[2]]); [done | done | lia | reflexivity | done |].
         by repeat constructor. }
    apply (reach_step _ (start q 1)); [constructor |].
    apply (step_push_all _ [Running] [Running] [] [] [[2]; [3]] 2); [by repeat constructor | reflexivity | done].
  - intros H. by apply list_elem_of_singleton in H.
Defined.
