(* ===== verification/Monitor.v ===== *)
(** * Subscriptions (src/src/nostrdb.c: ndb_subscribe to ndb_wait_for_notes)

    The monitor holds the subscriptions: an id, a group of filters and an inbox
    of note keys.  After a batch of notes is committed the writer matches every
    note against every subscription and pushes the keys on the inboxes; clients
    poll, or wait for the condition of the monitor.  Every operation holds the
    mutex of the monitor, so it is one step on the record.

    [None] is undefined behaviour or a failed assertion.  The theorems show that
    the ids stay unique, that a subscription receives exactly the notes its
    filters admit, in order, and what unsubscribing does to a waiting client. *)

From stdpp Require Import relations.
From S2P Require Import Queue.
From S2P Require Export Filter.
Open Scope Z_scope.

Definition MAX_SUBSCRIPTIONS : Z := 256.
Definition DEFAULT_QUEUE_SIZE : Z := 32768.

Record ndb_subscription := mk_sub { subid : Z; group : filter_group; inbox : Queue.prot_queue }.

(** The static counter of ids is part of the state; [sub_cb] tells whether a
    callback is registered. *)
Record ndb_monitor := mk_monitor {
  subscriptions : list ndb_subscription; subids : Z; sub_cb : bool }.

Definition ndb_monitor_init (cb : bool) (ids : Z) : ndb_monitor := mk_monitor [] ids cb.

Definition ndb_num_subscriptions (mon : ndb_monitor) : Z := zlen (subscriptions mon).

Record written_note := mk_written { w_id : Z; w_note : mem }.

Section monitor.
Context (custom_cb : list Z -> mem -> Z -> bool).

(** Push the notes the group matches; a full inbox drops the note. *)
Fixpoint push_matching (sub : ndb_subscription) (wrote : list written_note) (pushed : Z) :
    option (Z * ndb_subscription) :=
  match wrote with
  | [] => Some (pushed, sub)
  | w :: wrote =>
      b ← ndb_filter_group_matches custom_cb (group sub) (w_note w) 0;
      if (b : bool) then
        r ← Queue.prot_queue_push (inbox sub) (le_bytes 8 (w_id w));
        push_matching (mk_sub (subid sub) (group sub) (snd r)) wrote
          (if (fst r : bool) then pushed + 1 else pushed)
      else push_matching sub wrote pushed
  end.

(** The subscriptions, and the ids the callback is called with. *)
Fixpoint notify_loop (cb : bool) (subs : list ndb_subscription) (wrote : list written_note) :
    option (list ndb_subscription * list Z) :=
  match subs with
  | [] => Some ([], [])
  | sub :: subs =>
      r ← push_matching sub wrote 0;
      rest ← notify_loop cb subs wrote;
      Some (snd r :: fst rest,
            (if cb && (0 <? fst r) then [subid (snd r)] else []) ++ snd rest)
  end.

Definition ndb_notify_subscriptions (mon : ndb_monitor) (wrote : list written_note) :
    option (ndb_monitor * list Z) :=
  r ← notify_loop (sub_cb mon) (subscriptions mon) wrote;
  Some (mk_monitor (fst r) (subids mon) (sub_cb mon), snd r).
End monitor.

Definition ndb_monitor_find_subscription (mon : ndb_monitor) (id : Z) : option (nat * ndb_subscription) :=
  list_find (fun sub => subid sub = id) (subscriptions mon).

Definition set_inbox (mon : ndb_monitor) (i : nat) (sub : ndb_subscription) (q : Queue.prot_queue) : ndb_monitor :=
  mk_monitor (<[i := mk_sub (subid sub) (group sub) q]> (subscriptions mon)) (subids mon) (sub_cb mon).

(** The number of note keys, their bytes and the monitor. *)
Definition ndb_poll_for_notes (mon : ndb_monitor) (id : Z) (note_id_capacity : Z) :
    option (Z * mem * ndb_monitor) :=
  if id =? 0 then Some (0, [], mon)
  else
    match ndb_monitor_find_subscription mon id with
    | None => Some (0, [], mon)
    | Some (i, sub) =>
        '(n, d, q) ← Queue.prot_queue_try_pop_all (inbox sub) note_id_capacity;
        Some (n, d, set_inbox mon i sub q)
    end.

(** One round of the loop: [Some None] when the thread waits on the condition. *)
Definition ndb_wait_for_notes (mon : ndb_monitor) (id : Z) (note_id_capacity : Z) :
    option (option (Z * mem * ndb_monitor)) :=
  if id =? 0 then Some (Some (0, [], mon))
  else
    match ndb_monitor_find_subscription mon id with
    | None => Some (Some (0, [], mon))
    | Some (i, sub) =>
        '(n, d, q) ← Queue.prot_queue_try_pop_all (inbox sub) note_id_capacity;
        if 0 <? n then Some (Some (n, d, set_inbox mon i sub q)) else Some None
    end.

(** The subscriptions behind move down; nobody is woken. *)
Definition ndb_unsubscribe (mon : ndb_monitor) (id : Z) : bool * ndb_monitor :=
  match ndb_monitor_find_subscription mon id with
  | None => (false, mon)
  | Some (i, _) =>
      (true, mk_monitor (take i (subscriptions mon) ++ drop (S i) (subscriptions mon)) (subids mon) (sub_cb mon))
  end.

(** The id, zero on failure; [junk] is the fresh memory of the inbox. *)
Definition ndb_subscribe (mon : ndb_monitor) (filters : list filter) (junk : mem) :
    option (Z * ndb_monitor) :=
  if MAX_SUBSCRIPTIONS <=? zlen (subscriptions mon) + 1 then Some (0, mon)
  else
    let subid := u64 (subids mon + 1) in
    let mon := mk_monitor (subscriptions mon) subid (sub_cb mon) in
    let '(ok, g) := ndb_filter_group_add_filters ndb_filter_group_init filters in
    if ok : bool then
      r ← Queue.prot_queue_init junk (8 * DEFAULT_QUEUE_SIZE) 8;
      if (fst r : bool) then
        Some (subid, mk_monitor (subscriptions mon ++ [mk_sub subid g (snd r)]) subid (sub_cb mon))
      else Some (0, mon)
    else Some (0, mon).

(** * Lemmas *)

Definition es8 (q : Queue.prot_queue) (xs : list mem) : Prop :=
  Queue.holds q DEFAULT_QUEUE_SIZE xs /\ Queue.elem_size q = 8.

(** The state of the monitor between two operations. *)
Record mon_ok (mon : ndb_monitor) : Prop := {
  mo_ids : NoDup (map subid (subscriptions mon));
  mo_range : Forall (fun s => 0 < subid s <= subids mon) (subscriptions mon);
  mo_count : 0 <= subids mon;
  mo_room : zlen (subscriptions mon) < MAX_SUBSCRIPTIONS;
  mo_inbox : Forall (fun s => exists xs, es8 (inbox s) xs) (subscriptions mon)
}.

Section specs.
Context (cb : list Z -> mem -> Z -> bool).

Definition matched (g : filter_group) (w : written_note) : bool :=
  default false (ndb_filter_group_matches cb g (w_note w) 0).

(** The keys of the notes a group matches, as the inbox stores them. *)
Definition keys_for (g : filter_group) (wrote : list written_note) : list mem :=
  map (fun w => le_bytes 8 (w_id w)) (List.filter (matched g) wrote).

Definition decidable_on (g : filter_group) (wrote : list written_note) : Prop :=
  Forall (fun w => is_Some (ndb_filter_group_matches cb g (w_note w) 0)) wrote.

Lemma push_matching_decides wrote : forall sub p r,
  push_matching cb sub wrote p = Some r -> decidable_on (group sub) wrote.
Proof.
  induction wrote as [| w wrote IH]; intros sub p r E; [constructor |]. cbn [push_matching] in E.
  destruct (ndb_filter_group_matches _ _ _ _) as [b |] eqn:Em; cbn [mbind option_bind] in E; [| done].
  assert (D : decidable_on (group sub) wrote).
  { destruct b; [| by eapply IH].
    destruct (Queue.prot_queue_push _ _) as [x |]; cbn [mbind option_bind] in E; [| done].
    apply IH in E. exact E. }
  constructor; [by rewrite Em | done].
Qed.

Definition room (xs : list mem) : nat := Z.to_nat (DEFAULT_QUEUE_SIZE - zlen xs).

Lemma push_matching_spec wrote : forall sub xs p, es8 (inbox sub) xs -> decidable_on (group sub) wrote ->
  exists q, push_matching cb sub wrote p =
      Some (p + zlen (take (room xs) (keys_for (group sub) wrote)), mk_sub (subid sub) (group sub) q) /\
    es8 q (xs ++ take (room xs) (keys_for (group sub) wrote)).
Proof.
  induction wrote as [| w wrote IH]; intros sub xs p [H Es] D.
  - exists (inbox sub). cbn [push_matching]. unfold keys_for. simpl. rewrite take_nil, app_nil_r.
    change (zlen (@nil mem)) with 0. rewrite Z.add_0_r. split; [by destruct sub | done].
  - apply Forall_cons_iff in D as [[b Eb] D]. cbn [push_matching]. rewrite Eb. cbn [mbind option_bind].
    unfold keys_for. cbn [List.filter]. assert (Em : matched (group sub) w = b) by (unfold matched; by rewrite Eb).
    rewrite Em. destruct b; [| by apply IH]. cbn [map].
    destruct (Queue.queue_push_spec (inbox sub) DEFAULT_QUEUE_SIZE xs (le_bytes 8 (w_id w)) H) as (q & E & Hq & Eq).
    { by rewrite zlen_le_bytes, Es. }
    rewrite E. cbn [mbind option_bind snd fst]. unfold Queue.fifo_push in *.
    pose proof (Queue.h_room _ _ _ H) as Hr.
    destruct (Z.eqb_spec (zlen xs) DEFAULT_QUEUE_SIZE) as [Ef | Ef]; cbn [fst snd] in *.
    + destruct (IH (mk_sub (subid sub) (group sub) q) xs p ltac:(split; [done | cbn [inbox]; congruence]) D) as (q' & E' & H').
      exists q'. assert (R0 : room xs = 0%nat) by (unfold room; lia). cbn [group] in E'.
      rewrite R0 in *. rewrite take_0 in *. done.
    + destruct (IH (mk_sub (subid sub) (group sub) q) (xs ++ [le_bytes 8 (w_id w)]) (p + 1)
        ltac:(split; [done | cbn [inbox]; congruence]) D) as (q' & E' & H').
      exists q'. cbn [group] in *. change (subid {| subid := _; group := _; inbox := _ |}) with (subid sub) in E'.
      assert (R1 : room xs = S (room (xs ++ [le_bytes 8 (w_id w)]))).
      { unfold room. rewrite zlen_app. change (zlen [_]) with 1. lia. }
      rewrite R1. cbn [take]. split.
      * rewrite E'. rewrite zlen_cons. do 2 f_equal. unfold keys_for. lia.
      * destruct H' as [H' Es']. split; [| done]. rewrite <- app_assoc in H'. exact H'.
Qed.

Lemma notify_loop_spec c wrote subs :
  Forall (fun s => exists xs, es8 (inbox s) xs) subs -> Forall (fun s => decidable_on (group s) wrote) subs ->
  exists subs' called, notify_loop cb c subs wrote = Some (subs', called) /\
    Forall2 (fun s s' => subid s' = subid s /\ group s' = group s /\
      forall xs, es8 (inbox s) xs -> es8 (inbox s') (xs ++ take (room xs) (keys_for (group s) wrote))) subs subs' /\
    (forall i, i ∈ called <-> c = true /\ exists s xs, s ∈ subs /\ subid s = i /\ es8 (inbox s) xs /\
       take (room xs) (keys_for (group s) wrote) <> []).
Proof.
  induction subs as [| s subs IH]; intros F D.
  { exists [], []. split; [done |]. split; [constructor |]. intros i. rewrite elem_of_nil.
    split; [done |]. by intros (_ & s & xs & ?%elem_of_nil & _). }
  apply Forall_cons_iff in F as [[xs Hx] F], D as [D1 D].
  destruct (IH F D) as (subs' & called & E & F2 & Hc). cbn [notify_loop].
  destruct (push_matching_spec wrote s xs 0 Hx D1) as (q & Eq & Hq). rewrite Eq, E.
  cbn [mbind option_bind fst snd subid]. eexists _, _. split; [done |].
  assert (Uq : forall ys, es8 (inbox s) ys -> ys = xs).
  { intros ys [Hy _]. destruct Hx as [Hx _]. apply list_eq. intros i.
    pose proof (Queue.h_count _ _ _ Hx) as C1. pose proof (Queue.h_count _ _ _ Hy) as C2.
    destruct (ys !! i) as [y |] eqn:Ey.
    - destruct (lookup_lt_is_Some_2 xs i) as [x Ex]; [apply lookup_lt_Some in Ey; unfold zlen in *; lia |].
      pose proof (Queue.h_slot _ _ _ Hx i x Ex) as L1. pose proof (Queue.h_slot _ _ _ Hy i y Ey) as L2.
      rewrite L1 in L2. injection L2 as ->. done.
    - apply lookup_ge_None in Ey. symmetry. apply lookup_ge_None. unfold zlen in *. lia. }
  split.
  - constructor; [| done]. cbn [subid group inbox]. split; [done |]. split; [done |].
    intros ys Hy. by rewrite (Uq ys Hy).
  - intros i. rewrite elem_of_app, Hc. split.
    + intros [Hi | (Ec & t & zs & Ht & Ei & Hz & Hne)].
      * destruct c; cbn [andb] in Hi; [| by apply elem_of_nil in Hi].
        destruct (Z.ltb_spec 0 (0 + zlen (take (room xs) (keys_for (group s) wrote)))) as [L | L];
          [| by apply elem_of_nil in Hi].
        apply list_elem_of_singleton in Hi as ->. split; [done |]. exists s, xs.
        split; [apply elem_of_cons; by left |]. split; [done |]. split; [done |].
        intros E0. rewrite E0 in L. change (zlen (@nil mem)) with 0 in L. lia.
      * split; [done |]. exists t, zs. split; [apply elem_of_cons; by right |]. done.
    + intros (-> & t & zs & Ht & <- & Hz & Hne). apply elem_of_cons in Ht as [-> | Ht].
      * left. rewrite (Uq zs Hz) in Hne. cbn [andb].
        destruct (Z.ltb_spec 0 (0 + zlen (take (room xs) (keys_for (group s) wrote)))) as [L | L];
          [by apply list_elem_of_singleton |].
        exfalso. apply Hne. destruct (take _ _); [done | zl].
      * right. split; [done |]. by exists t, zs.
Qed.

Lemma notify_decides c subs wrote : forall r, notify_loop cb c subs wrote = Some r ->
  Forall (fun s => decidable_on (group s) wrote) subs.
Proof.
  induction subs as [| s subs IH]; intros r E; [constructor |]. cbn [notify_loop] in E.
  destruct (push_matching cb s wrote 0) eqn:Ep; cbn [mbind option_bind] in E; [| done].
  destruct (notify_loop cb c subs wrote) eqn:En; cbn [mbind option_bind] in E; [| done].
  constructor; [by eapply push_matching_decides | by eapply IH].
Qed.
End specs.

(** ** Finding a subscription *)

Lemma find_unique mon i s : mon_ok mon -> subscriptions mon !! i = Some s ->
  ndb_monitor_find_subscription mon (subid s) = Some (i, s).
Proof.
  intros M Hi. unfold ndb_monitor_find_subscription. apply list_find_Some. split; [done |]. split; [done |].
  intros j y Hj Hji E. pose proof (mo_ids _ M) as N.
  assert (j = i); [| lia]. apply (NoDup_lookup (map subid (subscriptions mon)) j i (subid s) N).
  - by rewrite list_lookup_fmap, Hj, <- E.
  - by rewrite list_lookup_fmap, Hi.
Qed.

Lemma find_none mon id : id ∉ map subid (subscriptions mon) -> ndb_monitor_find_subscription mon id = None.
Proof.
  intros N. unfold ndb_monitor_find_subscription. apply list_find_None. apply List.Forall_forall. intros s Hs E.
  apply N. rewrite <- E. by apply list_elem_of_In, in_map.
Qed.

Lemma NoDup_remove (l : list Z) i : NoDup l -> NoDup (take i l ++ drop (S i) l).
Proof.
  intros N. apply (sublist_NoDup _ l); [done |]. rewrite <- (take_drop i l) at 3.
  apply sublist_app; [reflexivity |]. replace (S i) with (i + 1)%nat by lia. rewrite <- drop_drop.
  apply sublist_drop.
Qed.

(** What is left after unsubscribing a subscription. *)
Lemma unsubscribe_spec mon i s : mon_ok mon -> subscriptions mon !! i = Some s ->
  let mon' := mk_monitor (take i (subscriptions mon) ++ drop (S i) (subscriptions mon)) (subids mon) (sub_cb mon) in
  ndb_unsubscribe mon (subid s) = (true, mon') /\ mon_ok mon' /\ subid s ∉ map subid (subscriptions mon').
Proof.
  intros M Hi mon'. unfold ndb_unsubscribe. rewrite (find_unique mon i s M Hi). split; [done |].
  assert (Em : map subid (subscriptions mon') =
    take i (map subid (subscriptions mon)) ++ drop (S i) (map subid (subscriptions mon))).
  { cbn [subscriptions mon']. rewrite map_app. f_equal; [apply fmap_take | apply fmap_drop]. }
  split.
  - destruct M as [M1 M2 M3 M4 M5]. split; cbn [subscriptions subids mon'].
    + change (map subid (take i _ ++ _)) with (map subid (subscriptions mon')). rewrite Em. by apply NoDup_remove.
    + apply Forall_app. split; [by apply Forall_take | by apply Forall_drop].
    + done.
    + rewrite zlen_app, zlen_take, zlen_drop. unfold zlen in *. lia.
    + apply Forall_app. split; [by apply Forall_take | by apply Forall_drop].
  - rewrite Em. intros Hin. pose proof (mo_ids _ M) as N. set (l := map subid (subscriptions mon)) in *.
    assert (Hl : l !! i = Some (subid s)) by (unfold l; by rewrite list_lookup_fmap, Hi).
    apply elem_of_app in Hin as [[j Hj]%list_elem_of_lookup | [j Hj]%list_elem_of_lookup].
    + pose proof (lookup_lt_Some _ _ _ Hj) as L. rewrite length_take in L. rewrite lookup_take_lt in Hj by lia.
      assert (j = i) by (by eapply NoDup_lookup). lia.
    + rewrite lookup_drop in Hj. assert (S i + j = i)%nat by (by eapply NoDup_lookup). lia.
Qed.

(** A new subscription. *)
Lemma subscribe_spec mon fs g junk : mon_ok mon -> zlen (subscriptions mon) + 1 < MAX_SUBSCRIPTIONS ->
  subids mon + 1 < 2 ^ 64 -> ndb_filter_group_add_filters ndb_filter_group_init fs = (true, g) ->
  zlen junk = DEFAULT_QUEUE_SIZE * 8 ->
  let id := subids mon + 1 in
  exists q, ndb_subscribe mon fs junk =
      Some (id, mk_monitor (subscriptions mon ++ [mk_sub id g q]) id (sub_cb mon)) /\
    es8 q [] /\ Queue.head q = 0 /\ mon_ok (mk_monitor (subscriptions mon ++ [mk_sub id g q]) id (sub_cb mon)).
Proof.
  intros M Hr Hs Eg Hj id. pose proof (mo_count _ M) as Hc. unfold ndb_subscribe.
  destruct (Z.leb_spec MAX_SUBSCRIPTIONS (zlen (subscriptions mon) + 1)); [lia |].
  assert (Ei : u64 (subids mon + 1) = id) by (unfold u64, id; apply Z.mod_small; lia). rewrite Ei, Eg.
  rewrite (Z.mul_comm 8), (Queue.queue_init_ok junk DEFAULT_QUEUE_SIZE 8) by (unfold DEFAULT_QUEUE_SIZE; lia).
  cbn [mbind option_bind fst snd subscriptions sub_cb]. eexists. split; [reflexivity |].
  assert (He : es8 (Queue.mk_queue junk (DEFAULT_QUEUE_SIZE * 8) 0 0 0 8) []).
  { split; [| done]. apply (Queue.queue_init_spec junk DEFAULT_QUEUE_SIZE 8); [lia | done | done |].
    by apply Queue.queue_init_ok. }
  split; [exact He |]. split; [done |]. destruct M as [M1 M2 M3 M4 M5]. split; cbn [subscriptions subids].
  - rewrite map_app. apply list.NoDup_app. split; [done |]. split; [| apply NoDup_singleton].
    intros x Hx%list_elem_of_In%in_map_iff E%list_elem_of_singleton. destruct Hx as (s & Es & Hs').
    cbn [subid] in E. rewrite List.Forall_forall in M2. specialize (M2 s Hs'). unfold id in E. lia.
  - apply Forall_app. split; [| constructor; [cbn; unfold id; lia | done]].
    revert M2. apply Forall_impl. intros s Hs'. unfold id. lia.
  - unfold id. lia.
  - rewrite zlen_app. change (zlen [_]) with 1. lia.
  - apply Forall_app. split; [done |]. constructor; [eauto | done].
Qed.

(** Polling takes a prefix of the inbox. *)
Lemma poll_spec mon i s xs max : mon_ok mon -> subscriptions mon !! i = Some s -> es8 (inbox s) xs -> 0 <= max ->
  exists n q, ndb_poll_for_notes mon (subid s) max =
      Some (n, concat (take (Z.to_nat n) xs), set_inbox mon i s q) /\
    es8 q (drop (Z.to_nat n) xs) /\
    n = Z.min (Z.min (zlen xs) max) (DEFAULT_QUEUE_SIZE - Queue.head (inbox s)).
Proof.
  intros M Hi [H Es] Hm. unfold ndb_poll_for_notes. rewrite (find_unique mon i s M Hi).
  pose proof (mo_range _ M) as R. rewrite List.Forall_forall in R.
  assert (Hin : In s (subscriptions mon)) by (apply list_elem_of_In, list_elem_of_lookup; eauto).
  specialize (R s Hin). destruct (Z.eqb_spec (subid s) 0); [lia |].
  unfold Queue.prot_queue_try_pop_all. pose proof (Queue.h_count _ _ _ H) as C.
  pose proof (Queue.h_head _ _ _ H).
  rewrite C. destruct (Z.eqb_spec (zlen xs) 0) as [E | E]; cbn [mbind option_bind].
  - assert (xs = []) as -> by (destruct xs; [done | zl]). exists 0, (inbox s). split; [done |].
    split; [done |]. change (zlen (@nil mem)) with 0. lia.
  - destruct (Queue.pop_items_spec (inbox s) _ xs max H Hm) as (q & Eq & Hq & Ees & _). rewrite Eq.
    cbn [mbind option_bind]. eexists _, q. split; [reflexivity |]. split; [split; [done | congruence] |].
    unfold Queue.run_length. by rewrite C.
Qed.

Lemma set_inbox_ok mon i s q xs : mon_ok mon -> subscriptions mon !! i = Some s -> es8 q xs ->
  mon_ok (set_inbox mon i s q).
Proof.
  intros M Hi Hq. destruct M as [M1 M2 M3 M4 M5]. unfold set_inbox.
  assert (Em : map subid (<[i := mk_sub (subid s) (group s) q]> (subscriptions mon)) = map subid (subscriptions mon)).
  { apply list_eq. intros j. rewrite !list_lookup_fmap. destruct (decide (i = j)) as [<- | N].
    - rewrite list_lookup_insert_eq by (by eapply lookup_lt_Some). by rewrite Hi.
    - by rewrite list_lookup_insert_ne. }
  split; cbn [subscriptions subids]; [by rewrite Em | | done | |].
  - apply Forall_insert; [done |]. exact (Forall_lookup_1 _ _ _ _ M2 Hi).
  - unfold zlen. by rewrite length_insert.
  - apply Forall_insert; [done | eauto].
Qed.

(** ** The operations as steps *)

Inductive mon_step (cb : list Z -> mem -> Z -> bool) : ndb_monitor -> ndb_monitor -> Prop :=
  | mon_subscribe mon fs junk id mon' : zlen junk = DEFAULT_QUEUE_SIZE * 8 -> subids mon + 1 < 2 ^ 64 ->
      ndb_subscribe mon fs junk = Some (id, mon') -> mon_step cb mon mon'
  | mon_unsubscribe mon id : mon_step cb mon (snd (ndb_unsubscribe mon id))
  | mon_poll mon id max n d mon' : 0 <= max -> ndb_poll_for_notes mon id max = Some (n, d, mon') ->
      mon_step cb mon mon'
  | mon_notify mon wrote mon' called : ndb_notify_subscriptions cb mon wrote = Some (mon', called) ->
      mon_step cb mon mon'.

Lemma find_in mon id i s : ndb_monitor_find_subscription mon id = Some (i, s) ->
  subscriptions mon !! i = Some s /\ subid s = id.
Proof. intros H. apply list_find_Some in H as (? & ? & _). done. Qed.

Lemma forall2_ids (P : ndb_subscription -> ndb_subscription -> Prop) subs subs' :
  (forall s s', P s s' -> subid s' = subid s) -> Forall2 P subs subs' -> map subid subs' = map subid subs.
Proof. intros H. induction 1 as [| s s' subs subs' E _ IH]; [done |]. cbn [map]. by rewrite (H s s' E), IH. Qed.

Lemma notify_ok cb mon wrote mon' called : mon_ok mon ->
  ndb_notify_subscriptions cb mon wrote = Some (mon', called) -> mon_ok mon'.
Proof.
  intros M E. unfold ndb_notify_subscriptions in E.
  destruct (notify_loop cb _ _ _) as [r |] eqn:En; cbn [mbind option_bind] in E; [| done].
  injection E as <- <-. pose proof (notify_decides cb _ _ _ _ En) as D.
  destruct M as [M1 M2 M3 M4 M5].
  destruct (notify_loop_spec cb (sub_cb mon) wrote (subscriptions mon) M5 D) as (subs' & cl & E' & F & _).
  rewrite En in E'. injection E' as ->. cbn [fst snd].
  pose proof (forall2_ids _ _ _ (fun s s' H => proj1 H) F) as Ei.
  split; cbn [subscriptions subids]; [by rewrite Ei | | done | |].
  - apply (Forall_map subid (fun x => 0 < x <= subids mon)). rewrite Ei. by apply Forall_map.
  - apply Forall2_length in F. unfold zlen in *. lia.
  - clear -F M5. induction F as [| s s' subs subs' (E1 & E2 & E3) _ IH]; [constructor |].
    apply Forall_cons_iff in M5 as [[xs Hx] M5]. constructor; [eauto | by apply IH].
Qed.

Lemma mon_step_ok cb mon mon' : mon_ok mon -> mon_step cb mon mon' -> mon_ok mon'.
Proof.
  intros M S. destruct S as [mon fs junk id mon' Hj Hs E | mon id | mon id max n d mon' Hm E | mon wrote mon' called E].
  - pose proof E as E0. unfold ndb_subscribe in E.
    destruct (Z.leb_spec MAX_SUBSCRIPTIONS (zlen (subscriptions mon) + 1)); [by injection E as <- <- |].
    destruct (ndb_filter_group_add_filters _ _) as [ok g] eqn:Eg. destruct ok.
    + destruct (subscribe_spec mon fs g junk M ltac:(lia) Hs Eg Hj) as (q & E1 & _ & _ & M').
      rewrite E1 in E0. injection E0 as <- <-. exact M'.
    + injection E as <- <-. pose proof (mo_count _ M). unfold u64. rewrite Z.mod_small by lia.
      destruct M as [M1 M2 M3 M4 M5]. split; cbn [subscriptions subids]; try done; [| lia].
      revert M2. apply Forall_impl. intros s Hs'. lia.
  - destruct (ndb_monitor_find_subscription mon id) as [[i s] |] eqn:E.
    + apply find_in in E as [Hi <-]. destruct (unsubscribe_spec mon i s M Hi) as (-> & M' & _). exact M'.
    + unfold ndb_unsubscribe. by rewrite E.
  - unfold ndb_poll_for_notes in E. destruct (id =? 0) eqn:E0; [by injection E as <- <- <- |].
    destruct (ndb_monitor_find_subscription mon id) as [[i s] |] eqn:Ef; [| by injection E as <- <- <-].
    apply find_in in Ef as [Hi <-]. pose proof (mo_inbox _ M) as F.
    destruct (Forall_lookup_1 _ _ _ _ F Hi) as [xs Hx].
    destruct (poll_spec mon i s xs max M Hi Hx Hm) as (n' & q & E' & Hq & _).
    unfold ndb_poll_for_notes in E'. rewrite E0, (find_unique mon i s M Hi) in E'. rewrite E in E'.
    injection E' as -> -> ->. by eapply set_inbox_ok.
  - by eapply notify_ok.
Qed.

(** C24: The monitor stays well formed under every sequence of subscribing,
    unsubscribing, polling and notifying: subscription ids are unique and
    positive, there are fewer than the maximum, and every inbox is a well-formed
    queue of note keys. *)
Theorem monitor_invariant (cb : list Z -> mem -> Z -> bool) (callback : bool) (ids : Z) (mon : ndb_monitor)
    (Hi : 0 <= ids) (Hr : rtc (mon_step cb) (ndb_monitor_init callback ids) mon) : mon_ok mon.
Proof.
  assert (M0 : mon_ok (ndb_monitor_init callback ids)) by (split; [constructor | constructor | done | done | constructor]).
  revert M0. induction Hr as [| mon mon1 mon2 S _ IH]; intros M; [done |].
  apply IH. by eapply mon_step_ok.
Qed.

(** Fresh memory for an inbox. *)
Definition fresh_inbox : mem := replicate (Z.to_nat (DEFAULT_QUEUE_SIZE * 8)) 0.

Lemma fresh_inbox_length : zlen fresh_inbox = DEFAULT_QUEUE_SIZE * 8.
Proof. unfold fresh_inbox. rewrite zlen_replicate. apply Z2Nat.id. unfold DEFAULT_QUEUE_SIZE. lia. Qed.
#[global] Opaque fresh_inbox.

Lemma monitor_invariant_witness :
  mon_ok (mk_monitor [] 8 true).
Proof.
  apply (monitor_invariant (fun _ _ _ => false) true 7 (mk_monitor [] 8 true)); [lia |].
  pose proof fresh_inbox_length as L. revert L. generalize fresh_inbox as junk. intros junk L.
  apply (rtc_l _ _ (mk_monitor [mk_sub 8 [] (Queue.mk_queue junk 262144 0 0 0 8)] 8 true)).
  - apply (mon_subscribe _ _ [] junk 8); [exact L | done | reflexivity].
  - apply rtc_once. exact (mon_unsubscribe (fun _ _ _ => false) (mk_monitor [_] 8 true) 8).
Defined.

(** *** Delivery *)

(** A note the declared fields admit; the writer matches without relays. *)
Definition delivered (afs : list afield) (wrote : list written_note) (ns : list fnote) : list mem :=
  omap (fun p => if forallb (meaning (snd p)) afs then Some (le_bytes 8 (w_id (fst p))) else None)
       (zip wrote ns).

Lemma keys_delivered cb flt afs wrote ns :
  Forall2 (field_rep (data flt)) (fields flt) afs -> Forall afield_ok afs -> zlen (data flt) < 2 ^ 31 ->
  Forall (fun a => a_type a <> RELAYS) afs ->
  Forall2 (fun w n => note_reads cb (w_note w) 0 n) wrote ns ->
  decidable_on cb [flt] wrote /\ keys_for cb [flt] wrote = delivered afs wrote ns.
Proof.
  intros R Oa Hd Nr F.
  assert (Nf : Forall (fun f => f_type f <> RELAYS) (fields flt)).
  { clear -R Nr. induction R as [| f a fs afs Rf _ IH]; [constructor |].
    apply Forall_cons_iff in Nr as [N1 Nr]. constructor; [by rewrite (fr_type _ _ _ Rf) | by apply IH]. }
  assert (Em : forall w n, note_reads cb (w_note w) 0 n ->
    ndb_filter_group_matches cb [flt] (w_note w) 0 = Some (forallb (meaning n) afs)).
  { intros w n Rn. unfold ndb_filter_group_matches. change (zlen [flt] =? 0) with false. cbv iota.
    cbn [group_matches_loop]. unfold ndb_filter_matches, ndb_filter_matches_with.
    rewrite (matches_loop_relays cb flt _ _ _ (n_relays n) _ Nf).
    pose proof (matches_with_spec cb flt Hd (w_note w) 0 n Rn 0 afs R Oa) as E.
    unfold ndb_filter_matches_with in E. rewrite E. cbn [mbind option_bind].
    assert (X : forall bs, forallb (fun a => negb (Z.land (Z.shiftl 1 (fieldtype_num (a_type a))) 0 =? 0)
      || meaning n a) bs = forallb (meaning n) bs).
    { induction bs as [| a bs IH]; [done |]. cbn [forallb]. by rewrite Z.land_0_r, IH. }
    rewrite X. by destruct (forallb (meaning n) afs). }
  split.
  - clear -F Em. induction F as [| w n wrote ns Rn _ IH]; [constructor |].
    constructor; [by rewrite (Em w n Rn) | done].
  - unfold keys_for, delivered. clear -F Em. induction F as [| w n wrote ns Rn _ IH]; [done |].
    cbn [List.filter zip zip_with omap list_omap fst snd]. unfold matched at 1. rewrite (Em w n Rn). cbn [default].
    destruct (forallb (meaning n) afs); cbn [map]; [exact (f_equal _ IH) | exact IH].
Qed.

(** Notifying does not move the head of an inbox. *)
Lemma push_matching_head cb w : forall s p r, push_matching cb s w p = Some r ->
  Queue.head (inbox (snd r)) = Queue.head (inbox s).
Proof.
  induction w as [| w ws IH]; intros s p r E; cbn [push_matching] in E; [by injection E as <- |].
  destruct (ndb_filter_group_matches _ _ _ _) as [b |]; cbn [mbind option_bind] in E; [| done].
  destruct b; [| by eapply IH]. unfold Queue.prot_queue_push in E.
  destruct (_ =? _); cbn [mbind option_bind fst snd] in E; [by apply IH in E |].
  destruct (loadn _ _ _); cbn [mbind option_bind fst snd] in E; [| done].
  destruct (storen _ _ _); cbn [mbind option_bind fst snd] in E; [| done].
  apply IH in E. exact E.
Qed.

Lemma notify_head cb c wrote subs : forall r i s t, notify_loop cb c subs wrote = Some r ->
  subs !! i = Some s -> fst r !! i = Some t -> Queue.head (inbox t) = Queue.head (inbox s).
Proof.
  induction subs as [| s0 subs IH]; intros r i s t E Hi Ht; [done |]. cbn [notify_loop] in E.
  destruct (push_matching cb s0 wrote 0) as [x |] eqn:Ex; cbn [mbind option_bind] in E; [| done].
  destruct (notify_loop cb c subs wrote) as [y |] eqn:Ey; cbn [mbind option_bind] in E; [| done].
  injection E as <-. cbn [fst] in Ht. destruct i as [| i]; cbn in Hi, Ht.
  - injection Hi as <-. injection Ht as <-. by eapply push_matching_head.
  - by apply (IH y i s t).
Qed.

(** C8: A subscription receives exactly the notes its filter admits: subscribe
    with a declared filter, let the writer commit a batch of at most 32768 notes,
    poll, and the answer is the keys of the notes that every declared field
    admits, in the order of the batch; the callback is called for the
    subscription exactly when there is one.  The monitor has room for the
    subscription, the filters of the other subscriptions can be matched on the
    batch, and the filter has no relays field and no empty field of ids or
    authors, on which the library fails an assertion. *)
Theorem subscription_delivers (cb : list Z -> mem -> Z -> bool) (mon : ndb_monitor) (afs : list afield)
    (junk : mem) (wrote : list written_note) (ns : list fnote)
    (M : mon_ok mon) (Hroom : zlen (subscriptions mon) + 1 < MAX_SUBSCRIPTIONS) (Hs : subids mon + 1 < 2 ^ 64)
    (Oa : declared_ok afs) (Nr : Forall (fun a => a_type a <> RELAYS) afs)
    (Hj : zlen junk = DEFAULT_QUEUE_SIZE * 8) (Hw : zlen wrote <= DEFAULT_QUEUE_SIZE)
    (Rn : Forall2 (fun w n => note_reads cb (w_note w) 0 n) wrote ns)
    (D : Forall (fun s => decidable_on cb (group s) wrote) (subscriptions mon)) :
  exists flt id mon1 mon2 called mon3, build_filter afs ndb_filter_init = Some (true, flt) /\
    ndb_subscribe mon [flt] junk = Some (id, mon1) /\ id <> 0 /\
    ndb_notify_subscriptions cb mon1 wrote = Some (mon2, called) /\
    ndb_poll_for_notes mon2 id DEFAULT_QUEUE_SIZE =
      Some (zlen (delivered afs wrote ns), concat (delivered afs wrote ns), mon3) /\
    (id ∈ called <-> sub_cb mon = true /\ delivered afs wrote ns <> []).
Proof.
  destruct (build_filter_spec afs Oa) as (flt & E & Fin & R & Hd).
  destruct (keys_delivered cb flt afs wrote ns R (do_fields _ Oa) Hd Nr Rn) as [Df Ek].
  assert (Eg : ndb_filter_group_add_filters ndb_filter_group_init [flt] = (true, [flt])).
  { cbn [ndb_filter_group_add_filters]. unfold ndb_filter_group_add, ndb_filter_clone. by rewrite Fin. }
  destruct (subscribe_spec mon [flt] [flt] junk M Hroom Hs Eg Hj) as (q & Es & Hq & Hh & M1).
  set (id := subids mon + 1) in *. set (mon1 := mk_monitor _ id _) in *.
  destruct (notify_loop_spec cb (sub_cb mon1) wrote (subscriptions mon1) (mo_inbox _ M1))
    as (subs' & called & En & F & Hc).
  { apply Forall_app. split; [done |]. by constructor. }
  set (keys := delivered afs wrote ns) in *.
  assert (Lk : zlen keys <= DEFAULT_QUEUE_SIZE).
  { rewrite <- Ek. unfold keys_for, zlen. rewrite length_map.
    pose proof (List.filter_length_le (matched cb [flt]) wrote). unfold zlen in Hw. lia. }
  assert (Tk : take (room []) keys = keys).
  { apply take_ge. unfold room, zlen in *. simpl. lia. }
  pose proof (mo_count _ M) as Hc0.
  set (k := length (subscriptions mon)).
  assert (Hk : subscriptions mon1 !! k = Some (mk_sub id [flt] q)) by (by apply list_lookup_middle).
  destruct (Forall2_lookup_l _ _ _ _ _ F Hk) as (s' & Hs' & E1 & E2 & E3). cbn [subid group inbox] in *.
  specialize (E3 [] Hq). rewrite Ek, Tk in E3. cbn [app] in E3.
  set (mon2 := mk_monitor subs' (subids mon1) (sub_cb mon1)).
  assert (En2 : ndb_notify_subscriptions cb mon1 wrote = Some (mon2, called))
    by (unfold ndb_notify_subscriptions; rewrite En; done).
  pose proof (notify_ok cb mon1 wrote mon2 called M1 En2) as M2.
  destruct (poll_spec mon2 k s' keys DEFAULT_QUEUE_SIZE M2 Hs' E3 ltac:(done)) as (n & q' & Ep & _ & Hn).
  assert (En3 : n = zlen keys).
  { rewrite Hn. assert (Queue.head (inbox s') = 0); [| lia].
    rewrite (notify_head _ _ _ _ _ _ _ _ En Hk Hs'). exact Hh. }
  rewrite En3, to_nat_zlen, take_ge in Ep by lia. rewrite E1 in Ep.
  exists flt, id, mon1, mon2, called, (set_inbox mon2 k s' q').
  split; [done |]. split; [done |]. split; [unfold id; lia |]. split; [done |]. split; [exact Ep |].
  rewrite Hc. cbn [sub_cb mon1]. split.
  - intros [-> (s & xs & Hin & Eid & Hx & Hne)]. split; [done |].
    assert (s = mk_sub id [flt] q) as ->.
    { apply list_elem_of_lookup in Hin as [j Hj'].
      assert (j = k) as ->; [| congruence]. apply (NoDup_lookup _ _ _ id (mo_ids _ M1)).
      - by rewrite list_lookup_fmap, Hj', <- Eid.
      - by rewrite list_lookup_fmap, Hk. }
    cbn [group inbox] in *. rewrite Ek in Hne. intros E0. by rewrite E0, take_nil in Hne.
  - intros [-> Hne]. split; [done |]. exists (mk_sub id [flt] q), [].
    split; [by apply list_elem_of_lookup; eauto |]. split; [done |]. split; [done |].
    cbn [group]. by rewrite Ek, Tk.
Qed.

(** Kinds 1 only, in a batch of a note of kind 1 and a note of kind 7. *)
Lemma subscription_delivers_witness :
  exists flt id mon1 mon2 called mon3,
    build_filter [mk_afield KINDS 0 [KInt 1]] ndb_filter_init = Some (true, flt) /\
    ndb_subscribe (ndb_monitor_init true 0) [flt] fresh_inbox = Some (id, mon1) /\ id <> 0 /\
    ndb_notify_subscriptions (fun _ _ _ => false) mon1 [mk_written 42 demo_note] = Some (mon2, called) /\
    ndb_poll_for_notes mon2 id DEFAULT_QUEUE_SIZE = Some (1, le_bytes 8 42, mon3) /\
    (id ∈ called <-> true = true /\ [le_bytes 8 42] <> []).
Proof.
  apply (subscription_delivers (fun _ _ _ => false) (ndb_monitor_init true 0) [mk_afield KINDS 0 [KInt 1]]
    fresh_inbox [mk_written 42 demo_note] [demo_fnote]).
  - split; [constructor | constructor | done | done | constructor].
  - done.
  - done.
  - split; [| apply distinct_dec_spec; vm_compute; done | vm_compute; done ..].
    repeat constructor; try (intros k1 k2; apply uniform_dec_spec; vm_compute; reflexivity);
      try (vm_compute; done).
  - by repeat constructor.
  - exact fresh_inbox_length.
  - done.
  - constructor; [exact demo_reads | constructor].
  - constructor.
Defined.

(** Unsubscribing concerns that subscription only: the id is no longer
    found, polls answer with nothing, and every other subscription keeps its
    filters, its inbox and its place in line. *)
Theorem unsubscribe_isolated (mon : ndb_monitor) (i : nat) (s : ndb_subscription)
    (M : mon_ok mon) (Hi : subscriptions mon !! i = Some s) :
  exists mon', ndb_unsubscribe mon (subid s) = (true, mon') /\ mon_ok mon' /\
    (forall max, ndb_poll_for_notes mon' (subid s) max = Some (0, [], mon')) /\
    (forall j t, j <> i -> subscriptions mon !! j = Some t ->
       exists j', ndb_monitor_find_subscription mon' (subid t) = Some (j', t)).
Proof.
  destruct (unsubscribe_spec mon i s M Hi) as (E & M' & N). eexists. split; [exact E |]. split; [exact M' |]. split.
  - intros max. unfold ndb_poll_for_notes. rewrite find_none by done. by destruct (_ =? 0).
  - intros j t Hj Ht. set (mon' := mk_monitor _ _ _) in *.
    assert (L : exists j', subscriptions mon' !! j' = Some t).
    { cbn [subscriptions mon']. destruct (decide (j < i)%nat) as [C | C].
      - exists j. rewrite lookup_app_l by (rewrite length_take; apply lookup_lt_Some in Ht, Hi; lia).
        by rewrite lookup_take_lt.
      - exists (i + (j - S i))%nat. pose proof (lookup_lt_Some _ _ _ Hi).
        assert (Li : length (take i (subscriptions mon)) = i) by (rewrite length_take; lia).
        rewrite lookup_app_r by lia. rewrite Li, lookup_drop. rewrite <- Ht. f_equal. lia. }
    destruct L as [j' Hj']. exists j'. by apply find_unique.
Qed.

Lemma unsubscribe_isolated_witness :
  exists mon', ndb_unsubscribe (mk_monitor [mk_sub 1 [] (Queue.mk_queue fresh_inbox 262144 0 0 0 8)] 1 false) 1 =
      (true, mon') /\ mon_ok mon' /\
    (forall max, ndb_poll_for_notes mon' 1 max = Some (0, [], mon')) /\
    (forall j t, j <> 0%nat ->
       [mk_sub 1 [] (Queue.mk_queue fresh_inbox 262144 0 0 0 8)] !! j = Some t ->
       exists j', ndb_monitor_find_subscription mon' (subid t) = Some (j', t)).
Proof.
  apply (unsubscribe_isolated (mk_monitor [_] 1 false) 0 (mk_sub 1 [] (Queue.mk_queue fresh_inbox 262144 0 0 0 8)));
    [| reflexivity].
  destruct (subscribe_spec (ndb_monitor_init false 0) [] [] fresh_inbox) as (q & E & Hq & _ & M);
    [split; [constructor | constructor | done | done | constructor] | done | done | reflexivity |
     exact fresh_inbox_length |].
  change (Some (1, mk_monitor [mk_sub 1 [] (Queue.mk_queue fresh_inbox 262144 0 0 0 8)] 1 false) =
    Some (1, mk_monitor [mk_sub 1 [] q] 1 false)) in E.
  injection E as <-. exact M.
Defined.

(** ** A client that waits *)

(** A thread inside [ndb_wait_for_notes]: the subscription it waits for, and
    whether it sleeps on the condition of the monitor. *)
Record client := mk_client { c_mon : ndb_monitor; c_sub : Z; c_sleeps : bool }.

(** What the other threads do meanwhile; only a notification wakes the sleepers
    (spurious wake-ups, which no code may count on, aside). *)
Inductive quiet (cb : list Z -> mem -> Z -> bool) : client -> client -> Prop :=
  | quiet_subscribe mon fs junk id mon' i b : ndb_subscribe mon fs junk = Some (id, mon') ->
      quiet cb (mk_client mon i b) (mk_client mon' i b)
  | quiet_unsubscribe mon id i b :
      quiet cb (mk_client mon i b) (mk_client (snd (ndb_unsubscribe mon id)) i b)
  | quiet_poll mon id max r i b : ndb_poll_for_notes mon id max = Some r ->
      quiet cb (mk_client mon i b) (mk_client (snd r) i b)
  | quiet_round mon i max : ndb_wait_for_notes mon i max = Some None ->
      quiet cb (mk_client mon i false) (mk_client mon i true)
  | quiet_return mon i max r : ndb_wait_for_notes mon i max = Some (Some r) ->
      quiet cb (mk_client mon i false) (mk_client (snd r) i false).

Lemma quiet_sleeps cb s s' : rtc (quiet cb) s s' -> c_sleeps s = true -> c_sleeps s' = true.
Proof. induction 1 as [| s s1 s2 S _ IH]; intros H; [done |]. apply IH. by destruct S. Qed.

(** Unsubscribing strands a waiting client: a client that waits on a
    subscription without notes sleeps; when another thread unsubscribes it, the
    wait could answer at once (the subscription is gone), but nothing wakes the
    client: it sleeps until the writer commits some other batch of notes. *)
Theorem unsubscribe_strands_waiter (cb : list Z -> mem -> Z -> bool) (mon : ndb_monitor) (i : nat)
    (s : ndb_subscription) (max : Z) (M : mon_ok mon) (Hi : subscriptions mon !! i = Some s)
    (He : es8 (inbox s) []) (Hm : 0 <= max) :
  let mon' := snd (ndb_unsubscribe mon (subid s)) in
  let gone := mk_client mon' (subid s) true in
  rtc (quiet cb) (mk_client mon (subid s) false) gone /\
  ndb_wait_for_notes mon' (subid s) max = Some (Some (0, [], mon')) /\
  forall s', rtc (quiet cb) gone s' -> c_sleeps s' = true.
Proof.
  intros mon' gone. destruct (unsubscribe_spec mon i s M Hi) as (E & M' & N).
  assert (E' : mon' = snd (ndb_unsubscribe mon (subid s))) by done. rewrite E in E'. cbn [snd] in E'.
  split; [| split].
  - apply (rtc_l _ _ (mk_client mon (subid s) true)); [| by apply rtc_once, quiet_unsubscribe].
    apply (quiet_round cb mon (subid s) max). unfold ndb_wait_for_notes.
    pose proof (mo_range _ M) as R. pose proof (Forall_lookup_1 _ _ _ _ R Hi) as Hs. cbn in Hs.
    destruct (Z.eqb_spec (subid s) 0); [lia |]. rewrite (find_unique mon i s M Hi).
    unfold Queue.prot_queue_try_pop_all. destruct He as [H _]. by rewrite (Queue.h_count _ _ _ H).
  - unfold ndb_wait_for_notes. rewrite E', find_none by done. by destruct (_ =? 0).
  - intros s' S. by apply (quiet_sleeps cb gone).
Qed.

Lemma unsubscribe_strands_waiter_witness :
  let mon := mk_monitor [mk_sub 1 [] (Queue.mk_queue fresh_inbox 262144 0 0 0 8)] 1 false in
  let mon' := snd (ndb_unsubscribe mon 1) in
  rtc (quiet (fun _ _ _ => false)) (mk_client mon 1 false) (mk_client mon' 1 true) /\
  ndb_wait_for_notes mon' 1 5 = Some (Some (0, [], mon')) /\
  forall s', rtc (quiet (fun _ _ _ => false)) (mk_client mon' 1 true) s' -> c_sleeps s' = true.
Proof.
  intros mon.
  destruct (subscribe_spec (ndb_monitor_init false 0) [] [] fresh_inbox) as (q & E & Hq & _ & M);
    [split; [constructor | constructor | done | done | constructor] | done | done | reflexivity |
     exact fresh_inbox_length |].
  change (Some (1, mon) = Some (1, mk_monitor [mk_sub 1 [] q] 1 false)) in E.
  injection E as Eq. subst q.
  apply (unsubscribe_strands_waiter (fun _ _ _ => false) mon 0
    (mk_sub 1 [] (Queue.mk_queue fresh_inbox 262144 0 0 0 8)) 5); [exact M | reflexivity | exact Hq | lia].
Defined.
