(* ===== verification/Store.v ===== *)
(** * Writing to LMDB, and the tables of nostrdb (src/src/nostrdb.c: ndb_init_lmdb)

    LMDB keeps every table sorted by the comparator of its keys and, in a table
    with duplicates, the values of one key sorted too.  [LmdbPut] states what
    the writes rely on: where [mdb_put] leaves the pair, and what [mdb_drop]
    leaves; either may fail.  [dbi_config] is the configuration the tables are
    opened with.

    The theorems of the file are the lemmas the writers share: a put is a sorted
    insertion, so a table that holds encoded entries of a total order still
    does. *)

From stdpp Require Import sorting.
From S2P Require Export Lmdb.
Open Scope Z_scope.

(** ** Comparing pairs *)

Definition item_cmp (cmp : list Z -> list Z -> option Z) (dup : option (list Z -> list Z -> option Z))
    (a b : item) : option Z :=
  c ← cmp (fst a) (fst b);
  if c =? 0 then match dup with Some dup => dup (snd a) (snd b) | None => Some 0 end else Some c.

(** A pair that is there already stays; without duplicates its value is replaced. *)
Fixpoint put_items (cmp : list Z -> list Z -> option Z) (dup : option (list Z -> list Z -> option Z))
    (it : item) (l : list item) : option (list item) :=
  match l with
  | [] => Some [it]
  | it' :: l' =>
      c ← item_cmp cmp dup it it';
      if c <? 0 then Some (it :: l)
      else if c =? 0 then Some (match dup with Some _ => it' | None => it end :: l')
      else r ← put_items cmp dup it l'; Some (it' :: r)
  end.

(** The sizes [mdb_put] accepts (lmdb.h: MDB_BAD_VALSIZE): a key is not empty, and
    neither it nor a value of a table with duplicates is longer than 511 bytes. *)
Definition MDB_MAXKEYSIZE : Z := 511.
Definition MAXDATASIZE : Z := 0xffffffff.

Definition sizes_ok {A} (dup : option A) (k v : list Z) : bool :=
  (1 <=? zlen k) && (zlen k <=? MDB_MAXKEYSIZE) &&
  (zlen v <=? match dup with Some _ => MDB_MAXKEYSIZE | None => MAXDATASIZE end).

(** [mdb_put d k v nodup]: with MDB_NODUPDATA a pair that is there is an error. *)
Class LmdbPut (D C : Type) `{!Lmdb D C} := {
  db_dup : D -> option (list Z -> list Z -> option Z);
  mdb_put : D -> list Z -> list Z -> bool -> option D;
  mdb_drop : D -> option D;
  mdb_put_spec : forall d k v nodup d', mdb_put d k v nodup = Some d' ->
    db_cmp d' = db_cmp d /\ db_dup d' = db_dup d /\
    Some (db_items d') = put_items (db_cmp d) (db_dup d) (k, v) (db_items d) /\
    (nodup = true -> forall it, it ∈ db_items d -> item_cmp (db_cmp d) (db_dup d) (k, v) it <> Some 0);
  mdb_put_sizes : forall d k v nodup, sizes_ok (db_dup d) k v = false -> mdb_put d k v nodup = None;
  mdb_drop_spec : forall d d', mdb_drop d = Some d' ->
    db_cmp d' = db_cmp d /\ db_dup d' = db_dup d /\ db_items d' = []
}.

Definition list_put (d : list_db) (k v : list Z) (nodup : bool) : option list_db :=
  if negb (sizes_ok (ld_dup d) k v) then None
  else if nodup && existsb (fun it => bool_decide (item_cmp (ld_cmp d) (ld_dup d) (k, v) it = Some 0)) (ld_items d)
  then None
  else l ← put_items (ld_cmp d) (ld_dup d) (k, v) (ld_items d); Some (mk_list_db (ld_cmp d) (ld_dup d) l).

#[export] Instance list_lmdb_put : LmdbPut list_db (list_db * option nat).
Proof.
  refine {| db_dup := ld_dup; mdb_put := list_put; mdb_drop d := Some (mk_list_db (ld_cmp d) (ld_dup d) []) |}.
  - intros d k v nodup d' E. unfold list_put in E.
    destruct (negb _); [done |]. destruct (nodup && _) eqn:En; [done |].
    destruct (put_items _ _ _ _) as [l |] eqn:El; cbn [mbind option_bind] in E; [| done].
    injection E as <-. cbn. split; [done |]. split; [done |]. split; [done |].
    intros -> it Hit Ec. apply not_true_iff_false in En. apply En. cbn [andb].
    apply existsb_exists. exists it. split; [by apply list_elem_of_In |]. by apply bool_decide_eq_true_2.
  - intros d k v nodup E. unfold list_put. by rewrite E.
  - intros d d' [= <-]. done.
Defined.

(** ** The tables *)

(** MDB_INTEGERKEY and MDB_INTEGERDUP compare native integers. *)
Definition int_cmp (a b : list Z) : option Z := x ← u64_at a 0; y ← u64_at b 0; Some (u64_cmp x y).

(** The default order of keys and values: byte strings, shorter first. *)
Definition mem_cmp (a b : list Z) : option Z := Some (mdb_cmp_memn a b).

(** The comparator of the keys and, with MDB_DUPSORT, of the values. *)
Definition dbi_config (db : ndb_dbs) :
    (list Z -> list Z -> option Z) * option (list Z -> list Z -> option Z) :=
  match db with
  | NDB_DB_NOTE => (int_cmp, None)
  | NDB_DB_META => (mem_cmp, None)
  | NDB_DB_PROFILE => (int_cmp, None)
  | NDB_DB_PROFILE_SEARCH => (ndb_search_key_cmp, None)
  | NDB_DB_NDB_META => (int_cmp, None)
  | NDB_DB_PROFILE_LAST_FETCH => (mem_cmp, None)
  | NDB_DB_NOTE_RELAY_KIND => (ndb_relay_kind_cmp, None)
  | NDB_DB_NOTE_RELAYS => (mem_cmp, Some mem_cmp)
  | NDB_DB_NOTE_ID => (ndb_tsid_compare, Some mem_cmp)
  | NDB_DB_PROFILE_PK => (ndb_tsid_compare, Some mem_cmp)
  | NDB_DB_NOTE_KIND => (ndb_u64_ts_compare, Some int_cmp)
  | NDB_DB_NOTE_PUBKEY => (ndb_tsid_compare, Some int_cmp)
  | NDB_DB_NOTE_PUBKEY_KIND => (ndb_id_u64_ts_compare, Some int_cmp)
  | NDB_DB_NOTE_TEXT => (ndb_text_search_key_compare, Some mem_cmp)
  | NDB_DB_NOTE_BLOCKS => (int_cmp, None)
  | NDB_DB_NOTE_TAGS => (ndb_tag_key_compare, Some mem_cmp)
  end.

(** An environment opened with that configuration. *)
Definition env_ok {D C} `{!Lmdb D C} `{!LmdbPut D C} (txn : ndb_txn D) : Prop :=
  forall db, db_cmp (txn db) = fst (dbi_config db) /\ db_dup (txn db) = snd (dbi_config db).

(** ** Writes of a transaction *)

#[export] Instance ndb_dbs_eq_dec : EqDecision ndb_dbs.
Proof. solve_decision. Defined.

Definition upd {D} (txn : ndb_txn D) (db : ndb_dbs) (d : D) : ndb_txn D :=
  fun db' => if bool_decide (db = db') then d else txn db'.

Section put.
Context {D C : Type} `{!Lmdb D C} `{!LmdbPut D C}.

(** The success of [mdb_put] and the transaction after it. *)
Definition txn_put (db : ndb_dbs) (k v : list Z) (nodup : bool) : M (ndb_txn D) bool :=
  fun txn =>
    match mdb_put (txn db) k v nodup with
    | None => Some (false, txn)
    | Some d => Some (true, upd txn db d)
    end.
End put.

(** * Lemmas *)

(** ** A put is a sorted insertion *)

Section insertion.
Context {E : Type} (ecmp : E -> E -> comparison) `{!TotalCmp ecmp}.

Fixpoint insert_entry (x : E) (l : list E) : list E :=
  match l with
  | [] => [x]
  | y :: l' => match ecmp x y with Lt => x :: l | Eq => l | Gt => y :: insert_entry x l' end
  end.

Definition ele (x y : E) : Prop := ecmp x y <> Gt.

Lemma insert_entry_elem x l : StronglySorted ele l ->
  insert_entry x l ≡ₚ x :: l \/ (x ∈ l /\ insert_entry x l = l).
Proof.
  induction 1 as [| y l S IH F]; [by left |]. cbn [insert_entry].
  destruct (ecmp x y) eqn:Ec; [| by left |].
  - right. apply cmp_eq in Ec as ->. split; [apply elem_of_cons; by left | done].
  - destruct IH as [IH | [Hx IH]].
    + left. rewrite IH. apply Permutation_swap.
    + right. split; [apply elem_of_cons; by right | by rewrite IH].
Qed.

Lemma insert_entry_sorted x l : StronglySorted ele l -> StronglySorted ele (insert_entry x l).
Proof.
  intros S. induction S as [| y l S IH F]; [repeat constructor |]. cbn [insert_entry].
  destruct (ecmp x y) eqn:Ec; [by constructor | |].
  - assert (Hxy : ele x y) by (unfold ele; congruence).
    constructor; [by constructor |]. constructor; [done |]. revert F. apply Forall_impl. intros z Hz.
    unfold ele in *. intros Hgt. destruct (ecmp y z) eqn:Eyz; [| | done].
    + apply cmp_eq in Eyz as ->. congruence.
    + rewrite (cmp_trans x y z Ec Eyz) in Hgt. done.
  - constructor; [done |]. assert (Hy : ele y x) by (unfold ele; rewrite (cmp_antisym x y), Ec; done).
    destruct (insert_entry_elem x l S) as [P | [_ ->]]; [| done].
    rewrite P. by constructor.
Qed.

Lemma insert_entry_NoDup x l : StronglySorted ele l -> NoDup l -> NoDup (insert_entry x l).
Proof.
  induction 1 as [| y l S IH F]; intros Nd; [by apply NoDup_singleton |]. cbn [insert_entry].
  apply list.NoDup_cons in Nd as [Ny Nd]. destruct (ecmp x y) eqn:Ec.
  - by apply list.NoDup_cons.
  - apply list.NoDup_cons. split; [| by apply list.NoDup_cons].
    intros [-> | Hin]%elem_of_cons; [by rewrite (cmp_refl ecmp) in Ec |].
    apply list_elem_of_In, (proj1 (List.Forall_forall _ _) F) in Hin.
    apply Hin. by rewrite (cmp_antisym x y), Ec.
  - apply list.NoDup_cons. split; [| by apply IH].
    destruct (insert_entry_elem x l S) as [P | [_ ->]]; [| done]. rewrite P.
    intros [-> | Hin]%elem_of_cons; [by rewrite (cmp_refl ecmp) in Ec | done].
Qed.

(** On encoded entries. *)
Lemma put_items_enc (cmp : list Z -> list Z -> option Z) dup (enc : E -> item) x l :
  is_Some dup -> (forall y, y ∈ l -> item_cmp cmp dup (enc x) (enc y) = Some (sgn (ecmp x y))) ->
  put_items cmp dup (enc x) (map enc l) = Some (map enc (insert_entry x l)).
Proof.
  intros Hd H. induction l as [| y l IH]; [done |]. cbn [map put_items insert_entry].
  rewrite (H y) by (apply elem_of_cons; by left). cbn [mbind option_bind].
  destruct (ecmp x y) eqn:Ec; cbn [sgn].
  - destruct dup; [done | by destruct Hd].
  - done.
  - rewrite IH by (intros z Hz; apply H, elem_of_cons; by right). done.
Qed.

(** Without duplicates, when equal keys are equal entries. *)
Lemma put_items_enc_unique (cmp : list Z -> list Z -> option Z) (enc : E -> item) x l :
  (forall y, y ∈ l -> item_cmp cmp None (enc x) (enc y) = Some (sgn (ecmp x y))) ->
  put_items cmp None (enc x) (map enc l) = Some (map enc (insert_entry x l)).
Proof.
  intros H. induction l as [| y l IH]; [done |]. cbn [map put_items insert_entry].
  rewrite (H y) by (apply elem_of_cons; by left). cbn [mbind option_bind].
  destruct (ecmp x y) eqn:Ec; cbn [sgn]; [| done |].
  - apply cmp_eq in Ec as ->. done.
  - rewrite IH by (intros z Hz; apply H, elem_of_cons; by right). done.
Qed.
End insertion.

Lemma int_cmp_bytes a b : is_u64 a -> is_u64 b -> int_cmp (le_bytes 8 a) (le_bytes 8 b) = Some (sgn (a ?= b)).
Proof.
  intros Ha Hb. unfold int_cmp.
  rewrite (u64_at_mid (le_bytes 8 a) [] a [] 0), (u64_at_mid (le_bytes 8 b) [] b [] 0)
    by (done || by rewrite app_nil_r).
  cbn [mbind option_bind]. by rewrite u64_cmp_sgn.
Qed.

Lemma upd_same {D} (txn : ndb_txn D) db d : upd txn db d db = d.
Proof. unfold upd. by rewrite bool_decide_eq_true_2. Qed.

Lemma upd_other {D} (txn : ndb_txn D) db db' d : db <> db' -> upd txn db d db' = txn db'.
Proof. intros. unfold upd. by rewrite bool_decide_eq_false_2. Qed.

Lemma env_ok_upd {D C} `{!Lmdb D C} `{!LmdbPut D C} (txn : ndb_txn D) db k v nodup d :
  env_ok txn -> mdb_put (txn db) k v nodup = Some d -> env_ok (upd txn db d).
Proof.
  intros H E db'. destruct (mdb_put_spec _ _ _ _ _ E) as (E1 & E2 & _).
  destruct (decide (db = db')) as [<- | N].
  - rewrite upd_same, E1, E2. apply H.
  - rewrite upd_other by done. apply H.
Qed.

(** ** Tables of encoded pairs *)

(** The values of a table with duplicates: how they are encoded, and that the
    comparator of the table is a total order on what they encode. *)
Class DupValue (V : Type) (dup : list Z -> list Z -> option Z) := {
  dv_bytes : V -> list Z;
  dv_wf : V -> Prop;
  dv_ord : V -> V -> comparison;
  dv_total : TotalCmp dv_ord;
  dv_ok : forall a b, dv_wf a -> dv_wf b -> dup (dv_bytes a) (dv_bytes b) = Some (sgn (dv_ord a b))
}.

#[export] Instance int_value : DupValue Z int_cmp :=
  {| dv_bytes := le_bytes 8; dv_wf := is_u64; dv_ord := Z.compare; dv_total := TotalCmp_Z; dv_ok := int_cmp_bytes |}.

#[export] Instance mem_value : DupValue (list Z) mem_cmp.
Proof.
  refine {| dv_bytes v := v; dv_wf _ := True; dv_ord := bytes_cmp; dv_total := TotalCmp_bytes |}.
  intros a b _ _. unfold mem_cmp. by rewrite mdb_cmp_memn_sgn.
Defined.

(** LMDB has room: it stores every pair of acceptable sizes that its comparators
    can place. *)
Definition puts_ok (D : Type) {C} `{!Lmdb D C} `{!LmdbPut D C} : Prop := forall d k v,
  sizes_ok (db_dup d) k v = true -> is_Some (put_items (db_cmp d) (db_dup d) (k, v) (db_items d)) -> is_Some (mdb_put d k v false).

Lemma list_puts_ok : puts_ok list_db (C := list_db * option nat).
Proof.
  intros d k v Hs [l E]. unfold mdb_put, list_lmdb_put, list_put. cbn [andb].
  change (ld_items d) with (db_items d). change (ld_cmp d) with (db_cmp d). change (ld_dup d) with (db_dup d).
  rewrite Hs, E. eauto.
Qed.

Lemma sizes_ok_intro {A} (dup : option A) k v : 0 < zlen k <= MDB_MAXKEYSIZE -> zlen v <= MDB_MAXKEYSIZE -> sizes_ok dup k v = true.
Proof.
  intros Hk Hv. unfold sizes_ok. rewrite (proj2 (Z.leb_le 1 (zlen k))), (proj2 (Z.leb_le _ MDB_MAXKEYSIZE)) by lia.
  apply Z.leb_le. destruct dup; [done |]. unfold MAXDATASIZE, MDB_MAXKEYSIZE in *. lia.
Qed.

(** Without duplicates the value may be long. *)
Lemma sizes_ok_none {A} k v : 0 < zlen k <= MDB_MAXKEYSIZE -> zlen v <= MAXDATASIZE -> sizes_ok (@None A) k v = true.
Proof.
  intros Hk Hv. unfold sizes_ok. rewrite (proj2 (Z.leb_le 1 (zlen k))), (proj2 (Z.leb_le _ MDB_MAXKEYSIZE)) by lia.
  by apply Z.leb_le.
Qed.

Lemma put_long_key {D C} `{!Lmdb D C} `{!LmdbPut D C} (txn : ndb_txn D) db k v nodup : MDB_MAXKEYSIZE < zlen k ->
  txn_put db k v nodup txn = Some (false, txn).
Proof.
  intros Hk. unfold txn_put. rewrite mdb_put_sizes; [done |]. unfold sizes_ok.
  destruct (Z.leb_spec (zlen k) MDB_MAXKEYSIZE); [lia |]. by rewrite andb_false_r.
Qed.

Lemma insert_entry_in {E} (ecmp : E -> E -> comparison) `{!TotalCmp ecmp} x l : StronglySorted (ele ecmp) l ->
  forall y, y ∈ insert_entry ecmp x l <-> y = x \/ y ∈ l.
Proof.
  intros S y. destruct (insert_entry_elem ecmp x l S) as [-> | [Hx ->]]; [by rewrite elem_of_cons |].
  split; [by right | by intros [-> | ?]].
Qed.

Section value_tables.
Context {D C : Type} `{!Lmdb D C} `{!LmdbPut D C}.

Section table.
Context {K V : Type} {dup : list Z -> list Z -> option Z} `{!LmdbKey K} `{!DupValue V dup}.

Definition pair_ord : K * V -> K * V -> comparison := pair_cmp key_ord dv_ord.
Definition pair_enc (e : K * V) : item := (key_bytes (fst e), dv_bytes (snd e)).
Definition pair_wf (e : K * V) : Prop := key_wf (fst e) /\ dv_wf (snd e).

#[local] Instance pair_total : TotalCmp pair_ord.
Proof. apply TotalCmp_pair; [apply key_total | apply dv_total]. Qed.

(** The table holds the pairs [l], sorted by key and value. *)
Record value_table (d : D) (l : list (K * V)) : Prop := {
  vt_cmp : db_cmp d = key_compare (K := K);
  vt_dup : db_dup d = Some dup;
  vt_items : db_items d = map pair_enc l;
  vt_wf : Forall pair_wf l;
  vt_sorted : StronglySorted (ele pair_ord) l;
  vt_nodup : NoDup l
}.

Lemma pair_item_cmp x y : pair_wf x -> pair_wf y ->
  item_cmp (key_compare (K := K)) (Some dup) (pair_enc x) (pair_enc y) = Some (sgn (pair_ord x y)).
Proof using C.
  intros [K1 V1] [K2 V2]. unfold item_cmp, pair_enc. cbn [fst snd]. rewrite (key_compare_ok _ _ K1 K2).
  cbn [mbind option_bind]. unfold pair_ord, pair_cmp. destruct (key_ord (fst x) (fst y)); [| done ..].
  cbn [sgn lex Z.eqb]. by apply dv_ok.
Qed.

Lemma value_table_put_items d l x : value_table d l -> pair_wf x ->
  put_items (db_cmp d) (db_dup d) (pair_enc x) (db_items d) = Some (map pair_enc (insert_entry pair_ord x l)).
Proof.
  intros T W. rewrite (vt_cmp _ _ T), (vt_dup _ _ T), (vt_items _ _ T).
  apply put_items_enc; [eauto |]. intros y Hy. apply pair_item_cmp; [done |].
  exact (proj1 (List.Forall_forall _ _) (vt_wf _ _ T) y (proj1 (list_elem_of_In _ _) Hy)).
Qed.

Lemma value_table_put d l x d' : value_table d l -> pair_wf x ->
  mdb_put d (key_bytes (fst x)) (dv_bytes (snd x)) false = Some d' ->
  value_table d' (insert_entry pair_ord x l).
Proof.
  intros T W E. destruct (mdb_put_spec _ _ _ _ _ E) as (E1 & E2 & E3 & _).
  pose proof (value_table_put_items d l x T W) as P. unfold pair_enc at 1 in P. rewrite P in E3. injection E3 as E3.
  split.
  - rewrite E1. apply (vt_cmp _ _ T).
  - rewrite E2. apply (vt_dup _ _ T).
  - done.
  - apply List.Forall_forall. intros y Hy%list_elem_of_In.
    apply (insert_entry_in pair_ord x l (vt_sorted _ _ T)) in Hy as [-> | Hy]; [done |].
    exact (proj1 (List.Forall_forall _ _) (vt_wf _ _ T) y (proj1 (list_elem_of_In _ _) Hy)).
  - exact (insert_entry_sorted pair_ord x l (vt_sorted _ _ T)).
  - exact (insert_entry_NoDup pair_ord x l (vt_sorted _ _ T) (vt_nodup _ _ T)).
Qed.

(** The table holds exactly the pairs [P] describes. *)
Definition table_holds (d : D) (P : K -> V -> Prop) : Prop :=
  exists l, value_table d l /\ forall k v, (k, v) ∈ l <-> P k v.

Lemma table_holds_iff d P Q : (forall k v, P k v <-> Q k v) -> table_holds d P -> table_holds d Q.
Proof. intros H (l & T & M). exists l. split; [done |]. intros k v. by rewrite M. Qed.

Lemma table_holds_put (Po : puts_ok D) (txn : ndb_txn D) db P k v : table_holds (txn db) P -> key_wf k -> dv_wf v ->
  0 < zlen (key_bytes k) <= MDB_MAXKEYSIZE -> zlen (dv_bytes v) <= MDB_MAXKEYSIZE ->
  exists d', txn_put db (key_bytes k) (dv_bytes v) false txn = Some (true, upd txn db d') /\
    mdb_put (txn db) (key_bytes k) (dv_bytes v) false = Some d' /\
    table_holds d' (fun k' v' => (k' = k /\ v' = v) \/ P k' v').
Proof.
  intros (l & T & M) Wk Wv Sk Sv.
  destruct (Po (txn db) (key_bytes k) (dv_bytes v)) as [d' E]; [by apply sizes_ok_intro | |].
  { pose proof (value_table_put_items _ l (k, v) T (conj Wk Wv)) as Pi. unfold pair_enc at 1 in Pi.
    cbn [fst snd] in Pi. rewrite Pi. eauto. }
  exists d'. split; [unfold txn_put; by rewrite E |]. split; [done |].
  exists (insert_entry pair_ord (k, v) l). split; [by apply (value_table_put (txn db) l (k, v)) |].
  intros k' v'. rewrite (insert_entry_in pair_ord (k, v) l (vt_sorted _ _ T)), M.
  split; (intros [? | ?]; [left | by right]); [by simplify_eq | by destruct H as [-> ->]].
Qed.
End table.
End value_tables.
