(* ===== verification/Search.v ===== *)
(** * Full-text index and search (src/src/nostrdb.c: ndb_parse_words to
      ndb_text_search)

    The content of a note is cut into words with the cursor; every word becomes
    a key of the text table.  A search cuts the query the same way, walks the
    keys of its longest word in time order and, for every note it meets, looks
    for a key of each other word with the same note id.

    [None] is undefined behaviour.  The loop of the search has fuel: [Some None]
    is a search still running after that many rounds.  The theorems show how a
    text is cut, what a note adds to the table, what the results of a search
    guarantee, and two ways it goes wrong. *)

From stdpp Require Import sorting.
From S2P Require Import Store.
From S2P Require Export Words Query.
Open Scope Z_scope.
Open Scope ndb_scope.

Definition MAX_TEXT_SEARCH_RESULTS : Z := 128.
Definition MAX_TEXT_SEARCH_WORDS : Z := 8.

(** ** Cutting a text into words *)

Section words.
Context {S : Type} (fn : S -> list Z -> Z -> option (bool * S)).

(** Every round that goes on advances the cursor, so its length bounds the
    rounds. *)
Fixpoint parse_words_loop (fuel : nat) (words : Z) (ctx : S) : CM S :=
  match fuel with
  | O => ret ctx
  | Datatypes.S fuel =>
      let* c := cur in
      if c_p c <? c_end c then
        do* consume_whitespace_or_punctuation in
        let* c1 := cur in
        if c_end c1 <=? c_p c1 then ret ctx
        else
          let* ok := consume_until_boundary in
          if negb ok then ret ctx
          else
            let* c2 := cur in
            let word_len := c_p c2 - c_p c1 in
            if (word_len =? 0) && (c_end c2 <=? c_p c2) then ret ctx
            else if word_len =? 0 then
              let* ok := cursor_skip 1 in
              if ok : bool then parse_words_loop fuel words ctx else ret ctx
            else
              let* word := peekn (c_p c1) word_len in
              let* r := lift (fn ctx word words) in
              parse_words_loop fuel (if (fst r : bool) then words + 1 else words) (snd r)
      else ret ctx
  end.

Definition ndb_parse_words (ctx : S) : CM S :=
  let* c := cur in parse_words_loop (Z.to_nat (c_end c - c_p c)) 0 ctx.
End words.

(** ** Writing the words of a note *)

Section index.
Context {D C : Type} `{!Lmdb D C} `{!LmdbPut D C}.
(** The uninitialised buffer of a key, 1024 bytes. *)
Context (buffer : mem).

Definition ndb_write_word_to_index (word : list Z) (word_index timestamp note_id : Z) :
    M (ndb_txn D) bool :=
  fun txn =>
    r ← with_cursor 0 1024 (ndb_make_text_search_key word_index word timestamp note_id) buffer;
    match fst r with
    | None => Some (false, txn)
    | Some keysize => k ← loadn (snd r) 0 keysize; txn_put NDB_DB_NOTE_TEXT k [] false txn
    end.

(** The context of the callback is the transaction. *)
Definition ndb_fulltext_word_writer (created_at note_id : Z) (txn : ndb_txn D) (word : list Z) (words : Z) :
    option (bool * ndb_txn D) :=
  ndb_write_word_to_index word words created_at note_id txn.

Definition ndb_write_note_fulltext_index (nm : mem) (note : Z) (note_id : Z) : M (ndb_txn D) bool :=
  fun txn =>
    s ← ndb_note_str nm note (note + off.content);
    if flag s =? NDB_PACKED_ID then Some (false, txn)
    else
      len ← ndb_note_content_length nm note;
      created_at ← load_u64 nm (note + off.created_at);
      r ← ndb_parse_words (ndb_fulltext_word_writer created_at note_id) txn
            (nm, make_cursor (str s) (str s + len));
      Some (true, fst r).
End index.

(** ** Searching *)

Definition ndb_parse_search_words (words : list (list Z)) (word : list Z) (_ : Z) :
    option (bool * list (list Z)) :=
  if MAX_TEXT_SEARCH_WORDS <? zlen words + 1 then Some (false, words) else Some (true, words ++ [word]).

Definition compare_search_words (a b : list Z) : option Z :=
  Some (if zlen a =? zlen b then 0 else if zlen b <? zlen a then -1 else 1).

Definition sort_largest_to_smallest (words : list (list Z)) : option (list (list Z)) :=
  qsort compare_search_words words.

Fixpoint prefix_count (a b : list Z) : Z :=
  match a, b with
  | x :: a, y :: b => if tolower x =? tolower y then 1 + prefix_count a b else 0
  | _, _ => 0
  end.

(** The number of prefix characters when the word of a key matches. *)
Definition ndb_prefix_matches (key_str word : list Z) : option (option Z) :=
  if (zlen key_str <? 2) || (zlen word <? 2) then Some None
  else
    k0 ← key_str !! 0%nat; k1 ← key_str !! 1%nat; w0 ← word !! 0%nat; w1 ← word !! 1%nat;
    if negb (k0 =? tolower w0) && negb (k1 =? tolower w1) then Some None
    else
      let n := prefix_count key_str word in
      Some (if n <=? zlen word * 2 / 3 then None else Some n).

Record text_result := mk_text_result {
  tr_str : list Z; tr_timestamp : Z; tr_note_id : Z; tr_word_index : Z; tr_prefix_chars : Z;
  tr_note : option (list Z); tr_note_size : Z }.

(** How the next key is reached: by seeking it, or by a step in the order. *)
Inductive text_op := SetRange (k : list Z) | Step.

(** The verdict on the key of the cursor. *)
Inductive key_match := NoPrefix | NoMatch | Match (r : text_result).

(** The key unpacked as far as it is needed; [last] is the note of the last match. *)
Definition match_key (k : list Z) (word : list Z) (last : option Z) : option key_match :=
  r ← ndb_unpack_text_search_key_noteid (k, make_cursor 0 (zlen k));
  match fst r with
  | None => Some NoMatch
  | Some note_id =>
      if match last with Some l => negb (l =? note_id) | None => false end then Some NoMatch
      else
        r ← ndb_unpack_text_search_key_string (snd r);
        match fst r with
        | None => Some NoMatch
        | Some (p, len) =>
            s ← loadn k p len;
            n ← ndb_prefix_matches s word;
            match n with
            | None => Some NoPrefix
            | Some n =>
                r ← ndb_unpack_remaining_text_search_key (snd r);
                Some match fst r with
                     | None => NoMatch
                     | Some (timestamp, word_index) =>
                         Match (mk_text_result s timestamp note_id word_index n None 0)
                     end
            end
        end
  end.

Section search.
Context {D C : Type} `{!Lmdb D C}.
Context (custom_cb : list Z -> mem -> Z -> bool) (txn : ndb_txn D) (buffer : mem).

(** [asc]: the order of the search.  A seek past the last key leaves the cursor
    behind it, and a step back from there reaches it. *)
Definition ndb_text_search_next_word (c : C) (op : text_op) (asc : bool) (word : list Z) (last : option Z) :
    option (option (C * list Z * text_result)) :=
  let step := if asc then MDB_NEXT else MDB_PREV in
  let first := match op with
               | SetRange k =>
                   match mdb_cursor_get c (MDB_SET_RANGE k) with
                   | Some r => Some r
                   | None => if asc then None else mdb_cursor_get c MDB_LAST
                   end
               | Step => mdb_cursor_get c step
               end in
  match first with
  | None => Some None
  | Some (c, it) =>
      m ← match_key (fst it) word last;
      match m, op with
      | Match r, _ => Some (Some (c, fst it, r))
      | NoPrefix, SetRange _ =>
          if asc then Some None
          else
            let '(c, k) := match mdb_cursor_get c MDB_PREV with
                           | Some (c, it) => (c, fst it)
                           | None => (c, fst it)
                           end in
            m ← match_key k word last;
            match m with Match r => Some (Some (c, k, r)) | _ => Some None end
      | _, _ => Some None
      end
  end.

(** What one round over the words ends with: no more root words, or the key of
    the root word to go on from and the result if every word matched. *)
Inductive round := Exhausted | Next (c : C) (saved : list Z) (matched : option text_result).

(** The words after the first: each is sought with the note id of the last match. *)
Fixpoint match_rest (c : C) (asc : bool) (saved : list Z) (results : list text_result)
    (words : list (list Z)) (last : text_result) : option round :=
  match words with
  | [] => Some (Next c saved (Some last))
  | word :: words =>
      if zlen word =? 0 then match_rest c asc saved results words last
      else if existsb (fun r => tr_note_id r =? tr_note_id last) results then Some (Next c saved None)
      else
        b ← with_cursor 0 1024
              (ndb_make_noted_text_search_key word (tr_timestamp last) (tr_note_id last)) buffer;
        match fst b with
        | None => match_rest c asc saved results words last
        | Some keysize =>
            k ← loadn (snd b) 0 keysize;
            r ← ndb_text_search_next_word c (SetRange k) asc word (Some (tr_note_id last));
            match r with
            | None => Some (Next c saved None)
            | Some (c, _, res) =>
                if MAX_TEXT_SEARCH_RESULTS <=? zlen results then None
                else
                  match_rest c asc saved results words
                    (mk_text_result (tr_str res) (tr_timestamp res) (tr_note_id res) (tr_word_index res)
                       (tr_prefix_chars res) (tr_note last) (tr_note_size last))
            end
        end
  end.

(** One round: the next key of the root word, the filter, the other words.
    [note_size] is the size of the last note the search looked up, which a failed
    lookup leaves as it was. *)
Definition match_round (c : C) (op : text_op) (asc : bool) (flt : option filter) (note_size : Z)
    (results : list text_result) (root : list Z) (words : list (list Z)) : option (round * Z) :=
  r ← ndb_text_search_next_word c op asc root None;
  match r with
  | None => Some (Exhausted, note_size)
  | Some (c, k, res) =>
      if MAX_TEXT_SEARCH_RESULTS <=? zlen results then None
      else
        let found := match flt with Some _ => ndb_get_note_by_key txn (tr_note_id res) | None => None end in
        let note_size := match found with Some n => zlen n | None => note_size end in
        b ← match flt, found with
            | Some f, Some note => ndb_filter_matches custom_cb f note 0
            | _, _ => Some true
            end;
        if negb b then Some (Next c k None, note_size)
        else
          r ← match_rest c asc k results words
                (mk_text_result (tr_str res) (tr_timestamp res) (tr_note_id res) (tr_word_index res)
                   (tr_prefix_chars res) found note_size);
          Some (r, note_size)
  end.

(** [saved]: the key of the last root match.  A root word without a key starts
    the round again. *)
Fixpoint search_loop (fuel : nat) (c : C) (asc : bool) (flt : option filter) (limit timestamp_op : Z)
    (saved : option (list Z)) (note_size : Z) (results : list text_result) (root : list Z) (words : list (list Z)) :
    option (option (list text_result)) :=
  match fuel with
  | O => Some None
  | S fuel =>
      if zlen results <? limit then
        let next c op :=
          r ← match_round c op asc flt note_size results root words;
          match fst r with
          | Exhausted => Some (Some results)
          | Next c k m =>
              search_loop fuel c asc flt limit timestamp_op (Some k) (snd r)
                (match m with Some res => results ++ [res] | None => results end) root words
          end in
        match saved with
        | Some k =>
            match mdb_cursor_get c (MDB_SET_RANGE k) with
            | None => Some (Some results)
            | Some (c, _) => next c Step
            end
        | None =>
            b ← with_cursor 0 1024
                  (if asc then ndb_make_text_search_key_low root timestamp_op
                   else ndb_make_text_search_key_high root timestamp_op) buffer;
            match fst b with
            | None => search_loop fuel c asc flt limit timestamp_op None note_size results root words
            | Some keysize => k ← loadn (snd b) 0 keysize; next c (SetRange k)
            end
        end
      else Some (Some results)
  end.

Record search_config := mk_config { cfg_ascending : bool; cfg_limit : Z }.

Definition ndb_default_text_search_config : search_config := mk_config false MAX_TEXT_SEARCH_RESULTS.

(** The words of the query, from the start of a NUL-terminated string. *)
Definition search_words (query : list Z) : option (list (list Z)) :=
  r ← ndb_parse_words ndb_parse_search_words [] (query, make_cursor 0 (zlen query));
  Some (fst r).

(** The flag of the function and the results. *)
Definition ndb_text_search_with (fuel : nat) (query : list Z) (config : option search_config)
    (flt : option filter) : option (option (bool * list text_result)) :=
  until ← match flt with Some f => until_of f | None => Some UINT64_MAX end;
  since ← match flt with Some f => since_of f | None => Some 0 end;
  pint ← match flt with Some f => get_int f LIMIT | None => Some None end;
  let limit := match pint with Some p => i32 p | None => MAX_TEXT_SEARCH_RESULTS end in
  let asc := match config with Some cfg => cfg_ascending cfg | None => false end in
  let limit := match config with Some cfg => Z.min limit (cfg_limit cfg) | None => limit end in
  words ← search_words query;
  if zlen words =? 0 then Some (Some (false, []))
  else
    match mdb_cursor_open (txn NDB_DB_NOTE_TEXT) with
    | None => Some (Some (false, []))
    | Some c =>
        sorted ← sort_largest_to_smallest words;
        match sorted with
        | [] => None
        | root :: rest =>
            r ← search_loop fuel c asc flt limit (if asc then since else until) None 0 [] root rest;
            Some (match r with Some rs => Some (true, rs) | None => None end)
        end
    end.

Definition ndb_text_search (fuel : nat) (query : list Z) (config : option search_config) :=
  ndb_text_search_with fuel query config None.

Section plan.
Context {V : Type} (visitor : V -> query_result -> ndb_visitor_action * V).

(** A note the search did not find is a null pointer, which the standard query
    dereferences when it sorts. *)
Fixpoint push_text_results (rs : list text_result) (st : query_state V) : option (query_state V) :=
  match rs with
  | [] => Some st
  | r :: rs =>
      if query_is_full st then Some st
      else
        note ← tr_note r;
        let '(ok, st) := push_query_result visitor st (mk_result note (tr_note_size r) (tr_note_id r)) in
        if (ok : bool) then push_text_results rs st else Some st
  end.

Definition ndb_query_plan_execute_search (fuel : nat) (flt : filter) (st : query_state V) :
    option (bool * query_state V) :=
  match ndb_filter_find_search flt with
  | None => Some (false, st)
  | Some search =>
      r ← ndb_text_search_with fuel search (Some ndb_default_text_search_config) (Some flt);
      r ← r;
      if (fst r : bool) then st ← push_text_results (snd r) st; Some (true, st) else Some (false, st)
  end.
End plan.
End search.

(** * Lemmas *)

(** ** Cutting a text *)

(** A scanner leaves memory alone. *)
Class Reads {A} (w : CM A) : Prop :=
  reads_mem : forall s a s', w s = Some (a, s') -> fst s' = fst s.

#[export] Instance Reads_ret {A} (a : A) : Reads (ret a).
Proof. by intros s a' s' [= _ <-]. Qed.
#[export] Instance Reads_bind {A B} (w : CM A) (k : A -> CM B) : Reads w -> (forall a, Reads (k a)) -> Reads (bind w k).
Proof.
  intros Hw Hk s b s' E. unfold bind in E. destruct (w s) as [[a s1] |] eqn:Ew; [| done].
  rewrite (Hk a s1 b s' E). by eapply Hw.
Qed.
#[export] Instance Reads_cur : Reads cur.
Proof. by intros s a s' [= _ <-]. Qed.
#[export] Instance Reads_goto p : Reads (goto p).
Proof. by intros s a s' [= _ <-]. Qed.
#[export] Instance Reads_peek8 a : Reads (peek8 a).
Proof.
  intros s b s' E. unfold peek8, bind, get, lift in E. simpl in E. destruct (load8 _ _); [| done].
  by injection E as _ <-.
Qed.
#[export] Instance Reads_if {A} (b : bool) (w1 w2 : CM A) : Reads w1 -> Reads w2 -> Reads (if b then w1 else w2).
Proof. by destruct b. Qed.

#[export] Instance Reads_whitespace : Reads consume_whitespace_or_punctuation.
Proof.
  apply Reads_bind; [apply _ |]. intros c. generalize (Z.to_nat (c_end c - c_p c)) as fuel.
  induction fuel as [| fuel IH]; cbn [whitespace_or_punctuation_loop]; apply _.
Qed.

#[export] Instance Reads_skip n : Reads (cursor_skip n).
Proof. unfold cursor_skip. apply _. Qed.

#[export] Instance Reads_peek_char i : Reads (peek_char i).
Proof. unfold peek_char. apply _. Qed.
#[export] Instance Reads_parse_byte : Reads parse_byte.
Proof. unfold parse_byte. apply _. Qed.

#[export] Instance Reads_utf8_tail k i cp len : Reads (utf8_tail k i cp len).
Proof. revert i cp. induction k as [| k IH]; intros i cp; cbn [utf8_tail]; apply _. Qed.

#[export] Instance Reads_parse_utf8 cp len : Reads (parse_utf8_char cp len).
Proof. unfold parse_utf8_char. apply Reads_bind; [apply _ |]. intros [b |]; apply _. Qed.

#[export] Instance Reads_boundary : Reads consume_until_boundary.
Proof.
  apply Reads_bind; [apply _ |]. intros c. generalize (Z.to_nat (c_end c - c_p c)) as fuel.
  induction fuel as [| fuel IH]; cbn [until_boundary_loop]; [apply _ |].
  apply Reads_bind; [apply _ |]. intros c'. apply Reads_if; [| apply _].
  apply Reads_bind; [apply _ |]. intros b. apply Reads_if; [apply _ |].
  apply Reads_bind; [apply _ |]. intros [[ok cp] len]. apply _.
Qed.

(** The words given to the callback one after the other. *)
Fixpoint feed {S} (fn : S -> list Z -> Z -> option (bool * S)) (ws : list (list Z)) (words : Z) (ctx : S) :
    option S :=
  match ws with
  | [] => Some ctx
  | w :: ws => r ← fn ctx w words; feed fn ws (if (fst r : bool) then words + 1 else words) (snd r)
  end.

(** Cutting a text hands the callback the words of the text one after the other,
    whatever the callback does, and reads nothing outside the text. *)
Lemma parse_words_loop_spec fuel : forall m lo cend p, 0 <= lo <= p -> p <= cend <= zlen m -> (Z.to_nat (cend - p) <= fuel)%nat ->
  exists ws q, splits m lo cend p ws /\
    forall S (fn : S -> list Z -> Z -> option (bool * S)) words ctx,
      parse_words_loop fn fuel words ctx (m, mk_cursor lo p cend) =
        match feed fn ws words ctx with None => None | Some ctx => Some (ctx, (m, mk_cursor lo q cend)) end.
Proof.
  intros m lo cend p Hp Hcend Hf. revert p Hp Hcend Hf. induction fuel as [| fuel IH]; intros p Hp Hcend Hf.
  { exists [], p. split; [| done]. apply splits_at_end. lia. }
  destruct (gap_at m m lo cend ltac:(lia) ltac:(done) ltac:(lia) p ltac:(lia)) as (a & E1 & G).
  assert (Ha : p <= a <= cend) by apply G.
  destruct (boundary_at m m lo cend ltac:(lia) ltac:(done) ltac:(lia) a ltac:(lia)) as (ok & e & E2 & He & Hw & Hok).
  assert (Unf : forall S (fn : S -> list Z -> Z -> option (bool * S)) words ctx,
    parse_words_loop fn (Datatypes.S fuel) words ctx (m, mk_cursor lo p cend) =
      if cend <=? p then Some (ctx, (m, mk_cursor lo p cend))
      else if cend <=? a then Some (ctx, (m, mk_cursor lo a cend))
      else if negb ok then Some (ctx, (m, mk_cursor lo e cend))
      else if (e - a =? 0) && (cend <=? e) then Some (ctx, (m, mk_cursor lo e cend))
      else if e - a =? 0 then
        (let* ok := cursor_skip 1 in if ok : bool then parse_words_loop fn fuel words ctx else ret ctx) (m, mk_cursor lo e cend)
      else (let* word := peekn a (e - a) in
            let* r := lift (fn ctx word words) in
            parse_words_loop fn fuel (if (fst r : bool) then words + 1 else words) (snd r)) (m, mk_cursor lo e cend)).
  { intros S fn words ctx. cbn [parse_words_loop]. rewrite bind_cur. cbn [c_p c_end].
    destruct (Z.ltb_spec p cend), (Z.leb_spec cend p); try lia; [| done]. rewrite (run_bind _ _ _ _ _ E1), bind_cur. cbn [c_p c_end].
    destruct (cend <=? a); [done |]. rewrite (run_bind _ _ _ _ _ E2). destruct ok; cbn [negb]; [| done]. rewrite bind_cur. cbn [c_p c_end].
    destruct ((e - a =? 0) && _); [done |]. by destruct (e - a =? 0). }
  setoid_rewrite Unf. clear Unf E1 E2.
  destruct (Z.leb_spec cend p).
  { exists [], p. split; [| done]. apply splits_at_end. lia. }
  destruct (Z.leb_spec cend a).
  { exists [], a. split; [| done]. constructor. by assert (a = cend) as -> by lia. }
  destruct ok; cbn [negb].
  2: { exists [], e. split; [| done]. apply (splits_broken m lo cend p a e); [done | done | done | by apply Hok]. }
  assert (Hn : ~ breaks m lo cend e) by (intros [=]%Hok).
  destruct (Z.eqb_spec (e - a) 0) as [Z0 | Z0]; cbn [andb].
  - assert (e = a) as -> by lia. destruct (Z.leb_spec cend a); [lia |].
    assert (Ec : forall S (fn : S -> list Z -> Z -> option (bool * S)) words ctx,
      (let* ok := cursor_skip 1 in if ok : bool then parse_words_loop fn fuel words ctx else ret ctx) (m, mk_cursor lo a cend) =
        if cend <=? a + 1 then Some (ctx, (m, mk_cursor lo a cend)) else parse_words_loop fn fuel words ctx (m, mk_cursor lo (a + 1) cend)).
    { intros S fn words ctx. unfold cursor_skip. unfold bind at 1. rewrite bind_cur. cbn [c_end c_p].
      by destruct (cend <=? a + 1). }
    setoid_rewrite Ec. destruct (Z.leb_spec cend (a + 1)).
    + exists [], a. split; [| done]. apply (splits_mark m lo cend p a); try done. by apply splits_at_end; lia.
    + destruct (IH (a + 1) ltac:(lia) ltac:(lia) ltac:(lia)) as (ws & q & Hs & Hfeed).
      exists ws, q. split; [| exact Hfeed]. by apply (splits_mark m lo cend p a).
  - pose proof (loadn_in_range m a (e - a) ltac:(lia) ltac:(lia) ltac:(lia)) as Lw. set (w := take _ _) in Lw.
    destruct (IH e ltac:(lia) ltac:(lia) ltac:(lia)) as (ws & q & Hs & Hfeed).
    exists (w :: ws), q. split; [apply (splits_word m lo cend p a e); try done; lia |].
    intros S fn words ctx. rewrite (bind_peekn _ _ _ _ _ _ Lw).
    cbn [feed]. unfold bind at 1, lift. destruct (fn ctx w words) as [[b ctx'] |]; [| done].
    cbn [mbind option_bind fst snd]. by rewrite Hfeed.
Qed.

(** Cutting a text into words ends on every text and hands the callback its
    words, in order. *)
Lemma parse_words_cuts (m : mem) (p q : Z) (Hp : 0 <= p <= q) (Hq : q <= zlen m) :
  exists ws p', splits m p q p ws /\
    forall S (fn : S -> list Z -> Z -> option (bool * S)) ctx,
      ndb_parse_words fn ctx (m, make_cursor p q) =
        match feed fn ws 0 ctx with
        | None => None
        | Some ctx => Some (ctx, (m, set_p (make_cursor p q) p'))
        end.
Proof.
  destruct (parse_words_loop_spec (Z.to_nat (q - p)) m p q p) as (ws & p' & H1 & H2); [lia | lia | done |].
  exists ws, p'. split; [exact H1 |]. intros S fn ctx. unfold ndb_parse_words. rewrite bind_cur. apply H2.
Qed.

(** ** The text table *)

Definition text_cmp (a b : text_key) : comparison := key_ord a b.

(** The table holds the keys [es], with empty values. *)
Definition text_table {D C} `{!Lmdb D C} (d : D) (es : list text_key) : Prop :=
  index_of d (map (fun k => (k, [])) es).

Lemma text_key_size wi w ts nid : zlen w <= 968 -> zlen (text_key_bytes (text_key_of wi w ts nid)) < 1024.
Proof.
  intros H. unfold text_key_bytes. set (body := text_key_body _ _ _ _).
  assert (Lb : zlen body <= zlen w + 40).
  { unfold body, text_key_body, text_key_of. cbn [tx_index tx_word tx_timestamp tx_note_id].
    assert (L : zlen (map tolower w) = zlen w) by (unfold zlen; by rewrite length_map).
    pose proof (varint_zlen (u64 (i32 nid))). pose proof (varint_zlen (zlen (map tolower w))).
    pose proof (varint_zlen (u64 (i32 ts))). pose proof (varint_zlen (u64 wi)).
    rewrite !zlen_app. lia. }
  rewrite zlen_app. pose proof (padding_range 3 (zlen body) ltac:(lia)) as R. change (2 ^ 3) with 8 in R.
  rewrite zlen_align_pad. lia.
Qed.

(** *** Keys LMDB does not take *)

#[local] Instance Safe_push_varint_ok n : Safe (push_varint_ok n).
Proof. unfold push_varint_ok. apply _. Qed.
#[local] Instance Safe_align_8 : Safe (cursor_align 8).
Proof.
  apply Safe_cur_bind. intros m c W. cbv zeta. set (pad := Z.land _ _ - _).
  destruct (Z.ltb_spec 0 pad) as [Hp |]; [| exists true, (m, c); auto using frame_refl].
  apply (Emits_Safe _ _ _ (Emits_memset 0 pad (Z.lt_le_incl _ _ Hp))). exact W.
Qed.

(** Failures to write a number go unnoticed, a word without room fails. *)
Lemma lowercase_advances w s : cwf s ->
  exists b s', cursor_push_lowercase w s = Some (b, s') /\ frame s s' /\ (b = true -> c_p (snd s) + zlen w <= c_p (snd s')).
Proof.
  intros W. destruct (Emits_push_lowercase w) as [_ Ok Fail].
  destruct (Z.le_gt_cases (c_p (snd s) + (zlen w + 1)) (c_end (snd s))) as [H | H].
  - destruct (Ok s W H) as (s' & E & P). exists true, s'. split; [done |]. assert (L : zlen (map tolower w) = zlen w) by (unfold zlen; by rewrite length_map).
    split; [eapply pushed_frame; [done | | exact P]; lia |]. intros _. destruct P as [_ ->]. cbn. lia.
  - destruct (Fail s W ltac:(lia)) as (s' & E & F). by exists false, s'.
Qed.

Lemma andM_advances (w1 w2 : CM bool) (n : Z) s : cwf s ->
  (exists b s', w1 s = Some (b, s') /\ frame s s' /\ (b = true -> n <= c_p (snd s'))) -> Safe w2 ->
  exists b s', (w1 &&* w2) s = Some (b, s') /\ frame s s' /\ (b = true -> n <= c_p (snd s')).
Proof.
  intros W (b1 & s1 & E1 & F1 & H1) S2. unfold andM. rewrite (run_bind _ _ _ _ _ E1).
  destruct b1; [| exists false, s1; by split].
  destruct (safe_run (w := w2) s1) as (b & s2 & E2 & F2); [by eapply frame_cwf |].
  exists b, s2. split; [done |]. split; [by eapply frame_trans |]. intros _. specialize (H1 eq_refl). destruct F2 as (_ & _ & F2 & _). lia.
Qed.

Lemma andM_then (w1 w2 : CM bool) (n : Z) s : cwf s -> Safe w1 ->
  (forall s1, cwf s1 -> 0 <= c_p (snd s1) -> exists b s', w2 s1 = Some (b, s') /\ frame s1 s' /\ (b = true -> n <= c_p (snd s'))) ->
  exists b s', (w1 &&* w2) s = Some (b, s') /\ frame s s' /\ (b = true -> n <= c_p (snd s')).
Proof.
  intros W S1 H2. destruct (safe_run (w := w1) s W) as (b1 & s1 & E1 & F1). assert (W1 : cwf s1) by by eapply frame_cwf.
  unfold andM. rewrite (run_bind _ _ _ _ _ E1). destruct b1; [| exists false, s1; by split].
  destruct (H2 s1 W1) as (b & s2 & E2 & F2 & H); [unfold cwf in W1; lia |]. exists b, s2. split; [done |]. split; [by eapply frame_trans | done].
Qed.

(** The key of a long word is not built, or is at least as long as the word. *)
Lemma long_word_key wi w ts nid m : zlen m = 1024 ->
  exists r m', with_cursor 0 1024 (ndb_make_text_search_key wi w ts nid) m = Some (r, m') /\
    forall n, r = Some n -> zlen w <= n /\ exists k, loadn m' 0 n = Some k /\ zlen k = n.
Proof.
  intros Hm. assert (W : cwf (m, make_cursor 0 1024)) by (unfold cwf; cbn; lia).
  destruct (andM_advances (push_varint_ok (i32 nid) &&* push_varint_ok (zlen w) &&* cursor_push_lowercase w &&*
      push_varint_ok (i32 ts) &&* push_varint_ok wi) (cursor_align 8) (zlen w) _ W) as (b & [m' c'] & E & F & H); [| apply _ |].
  { apply andM_advances; [done | | apply _]. apply andM_advances; [done | | apply _].
    apply andM_then; [done | apply _ |]. intros s1 W1 H1. destruct (lowercase_advances w s1 W1) as (b & s' & E & F & H).
    exists b, s'. split; [done |]. split; [done |]. intros Hb. specialize (H Hb). lia. }
  unfold with_cursor, ndb_make_text_search_key. rewrite (run_bind _ _ _ _ _ E). destruct F as (F1 & F2 & F3 & F4 & _). cbn in F1, F2, F3, F4.
  destruct b; [| exists None, m'; split; [done | by intros]]. specialize (H eq_refl). cbn in H.
  exists (Some (c_p c' - c_start c')), m'. split; [done |]. intros n [= <-]. rewrite F1. split; [lia |].
  pose proof (loadn_in_range m' 0 (c_p c' - 0) ltac:(lia) ltac:(lia) ltac:(lia)) as L. eexists. split; [exact L |].
  by apply loadn_length in L.
Qed.

Lemma text_table_sorted {D C} `{!Lmdb D C} (d : D) es : text_table d es -> StronglySorted (ele text_cmp) es.
Proof.
  intros T. pose proof (ix_sorted _ _ T) as S. clear -S. induction es as [| k es IH]; [constructor |].
  apply StronglySorted_inv in S as [S F]. constructor; [by apply IH |].
  apply (proj1 (Forall_map _ _ _)) in F. exact F.
Qed.

Section indexing.
Context {D C : Type} `{!Lmdb D C} `{!LmdbPut D C}.

Lemma text_put_items (d : D) es k : text_table d es -> key_wf k ->
  put_items (db_cmp d) (Some mem_cmp) (Keys.key_bytes k, []) (db_items d) =
    Some (map (fun k => (Keys.key_bytes k, [])) (insert_entry text_cmp k es)).
Proof.
  intros T Wk. pose proof (key_total (K := text_key)) as Tt.
  assert (Wes : Forall key_wf es) by (apply (Forall_map (fun k => (k, [] : list Z)) (fun e => key_wf (fst e))), (ix_wf _ _ T)).
  rewrite (ix_items _ _ T), map_map.
  apply (put_items_enc text_cmp _ _ (fun k : text_key => (Keys.key_bytes k, [] : list Z))); [eauto |].
  intros y Hy. unfold item_cmp. cbn [fst snd]. rewrite (ix_cmp _ _ T). rewrite List.Forall_forall in Wes.
  rewrite (key_compare_ok k y Wk (Wes y (proj1 (list_elem_of_In _ _) Hy))). cbn [mbind option_bind].
  unfold text_cmp. by destruct (key_ord k y).
Qed.

Lemma text_table_put (d d' : D) es k : text_table d es -> db_dup d = Some mem_cmp -> key_wf k ->
  mdb_put d (Keys.key_bytes k) [] false = Some d' ->
  text_table d' (insert_entry text_cmp k es) /\ db_dup d' = Some mem_cmp.
Proof.
  intros T Hd Wk E. pose proof (key_total (K := text_key)) as Tt.
  destruct (mdb_put_spec _ _ _ _ _ E) as (E1 & E2 & E3 & _). split; [| by rewrite E2].
  rewrite Hd, (text_put_items d es k T Wk) in E3. injection E3 as E3.
  pose proof (text_table_sorted d es T) as Se.
  assert (Wes : Forall key_wf es) by (apply (Forall_map (fun k => (k, [] : list Z)) (fun e => key_wf (fst e))), (ix_wf _ _ T)).
  assert (Ws : Forall key_wf (insert_entry text_cmp k es)).
  { destruct (insert_entry_elem text_cmp k es Se) as [Q | [_ Q]]; rewrite Q; [by constructor | done]. }
  split.
  - rewrite E1. apply (ix_cmp _ _ T).
  - rewrite E3, map_map. done.
  - by apply Forall_map.
  - pose proof (insert_entry_sorted text_cmp k es Se) as S. clear -S.
    induction S as [| x l S IH F]; [constructor |]. cbn [map]. constructor; [done |]. apply Forall_map. exact F.
Qed.

(** The keys of the words from number [i] on.  A word whose key is too long for
    LMDB is skipped and has no number. *)
Fixpoint word_keys (ws : list (list Z)) (i ts nid : Z) : list text_key :=
  match ws with
  | [] => []
  | w :: ws =>
      let k := text_key_of i w ts nid in
      if zlen (text_key_bytes k) <=? MDB_MAXKEYSIZE then k :: word_keys ws (i + 1) ts nid else word_keys ws i ts nid
  end.

Lemma key_of_word_size i w ts nid : let k := text_key_of i w ts nid in
  zlen w < zlen (text_key_bytes k) /\ (zlen w <= 968 -> zlen (text_key_bytes k) < 1024).
Proof.
  intros k. split; [| apply text_key_size]. unfold k, text_key_bytes, text_key_body, text_key_of.
  cbn [tx_index tx_word tx_timestamp tx_note_id].
  assert (L : zlen (map tolower w) = zlen w) by (unfold zlen; by rewrite length_map).
  pose proof (varint_zlen (u64 (i32 nid))). pose proof (varint_zlen (zlen (map tolower w))).
  rewrite !zlen_app. pose proof (zlen_nonneg (varint (u64 (i32 ts)))). pose proof (zlen_nonneg (varint (u64 i))).
  match goal with |- context [align_pad ?x] => pose proof (zlen_nonneg (align_pad x)) end. lia.
Qed.

(** The callback on one word. *)
Lemma word_written (buffer : mem) (Hb : zlen buffer = 1024) w i ts nid (txn : ndb_txn D) :
  let k := text_key_of i w ts nid in
  ndb_fulltext_word_writer buffer ts nid txn w i =
    if zlen (text_key_bytes k) <=? MDB_MAXKEYSIZE then txn_put NDB_DB_NOTE_TEXT (Keys.key_bytes k) [] false txn
    else Some (false, txn).
Proof.
  intros k. destruct (key_of_word_size i w ts nid) as [H1 H2]. fold k in H1, H2. unfold MDB_MAXKEYSIZE.
  unfold ndb_fulltext_word_writer, ndb_write_word_to_index. destruct (Z.le_gt_cases (zlen w) 968) as [Hw | Hw].
  - destruct (make_text_search_key_spec i w ts nid buffer 0 1024) as (m' & Em & St & _).
    { unfold cwf, make_cursor. cbn. lia. } { fold k. specialize (H2 Hw). lia. }
    fold k in Em, St. pose proof (loadn_storen_same _ _ _ _ St) as Lk.
    unfold with_cursor. rewrite Em. cbn [mbind option_bind fst snd]. rewrite Lk. cbn [mbind option_bind].
    change (text_key_bytes k) with (Keys.key_bytes k).
    destruct (Z.leb_spec (zlen (Keys.key_bytes k)) 511); [done |]. by apply put_long_key.
  - destruct (Z.leb_spec (zlen (text_key_bytes k)) 511); [lia |].
    destruct (long_word_key i w ts nid buffer Hb) as (r & m' & E & Hr). rewrite E. cbn [mbind option_bind fst snd].
    destruct r as [n |]; [| done]. destruct (Hr n eq_refl) as (Hn & k' & L & Lk). rewrite L. cbn [mbind option_bind].
    apply put_long_key. unfold MDB_MAXKEYSIZE. lia.
Qed.

Lemma put_word (Po : puts_ok D) (txn : ndb_txn D) es k : env_ok txn -> text_table (txn NDB_DB_NOTE_TEXT) es -> NoDup es ->
  key_wf k -> zlen (Keys.key_bytes k) <= MDB_MAXKEYSIZE -> 0 < zlen (Keys.key_bytes k) ->
  exists txn' es', txn_put NDB_DB_NOTE_TEXT (Keys.key_bytes k) [] false txn = Some (true, txn') /\ env_ok txn' /\
    text_table (txn' NDB_DB_NOTE_TEXT) es' /\ NoDup es' /\ (forall k', k' ∈ es' <-> k' = k \/ k' ∈ es) /\
    (forall db, db <> NDB_DB_NOTE_TEXT -> txn' db = txn db).
Proof.
  intros Ee T Nd Wk Hs H0. destruct (Ee NDB_DB_NOTE_TEXT) as [_ Edup]. cbn [dbi_config snd] in Edup.
  pose proof (key_total (K := text_key)) as Tt. pose proof (text_table_sorted _ es T) as Se.
  destruct (Po (txn NDB_DB_NOTE_TEXT) (Keys.key_bytes k) []) as [d' Ep];
    [by apply sizes_ok_intro | rewrite Edup, (text_put_items _ es k T Wk); eauto |].
  destruct (text_table_put _ _ es k T Edup Wk Ep) as [T' Edup'].
  exists (upd txn NDB_DB_NOTE_TEXT d'), (insert_entry text_cmp k es). split; [unfold txn_put; by rewrite Ep |].
  split; [by eapply env_ok_upd |]. split; [by rewrite upd_same |]. split; [by apply (insert_entry_NoDup text_cmp) |].
  split; [| intros db N; by apply upd_other]. intros k'.
  destruct (insert_entry_elem text_cmp k es Se) as [Q | [Hk ->]]; [by rewrite Q, elem_of_cons |].
  split; [tauto |]. by intros [-> | ?].
Qed.

Lemma feed_words (buffer : mem) (Hb : zlen buffer = 1024) (Po : puts_ok D) ws : forall i ts nid (txn : ndb_txn D) es,
  env_ok txn -> text_table (txn NDB_DB_NOTE_TEXT) es -> NoDup es ->
  exists txn' es', feed (ndb_fulltext_word_writer buffer ts nid) ws i txn = Some txn' /\
    env_ok txn' /\ text_table (txn' NDB_DB_NOTE_TEXT) es' /\ NoDup es' /\
    (forall k, k ∈ es' <-> k ∈ es \/ k ∈ word_keys ws i ts nid) /\
    (forall db, db <> NDB_DB_NOTE_TEXT -> txn' db = txn db).
Proof.
  induction ws as [| w ws IH]; intros i ts nid txn es Ee T Nd.
  { exists txn, es. do 4 (split; [done |]). split; [| done]. intros k. cbn [word_keys]. rewrite elem_of_nil. tauto. }
  cbn [feed word_keys]. set (k := text_key_of i w ts nid). rewrite (word_written buffer Hb). fold k. cbv zeta.
  destruct (key_of_word_size i w ts nid) as [H1 _]. fold k in H1. pose proof (zlen_nonneg w) as H0.
  destruct (Z.leb_spec (zlen (text_key_bytes k)) MDB_MAXKEYSIZE) as [Hs | Hs].
  - destruct (put_word Po txn es k Ee T Nd) as (txn1 & es1 & E1 & Ee1 & T1 & Nd1 & M1 & S1).
    { apply text_key_of_wf. unfold MDB_MAXKEYSIZE in Hs. lia. } { exact Hs. } { change (0 < zlen (text_key_bytes k)). lia. }
    rewrite E1. cbn [mbind option_bind fst snd].
    destruct (IH (i + 1) ts nid txn1 es1 Ee1 T1 Nd1) as (txn' & es' & E & Ee' & T' & Nd' & M & S).
    exists txn', es'. do 4 (split; [done |]). split; [| intros db N; by rewrite S, S1].
    intros k'. rewrite M, M1, elem_of_cons. tauto.
  - cbn [mbind option_bind fst snd]. by apply IH.
Qed.
End indexing.

(** The words the callback is called with. *)
Definition words_of (m : mem) (p q : Z) : option (list (list Z)) :=
  fst <$> ndb_parse_words (fun acc w _ => Some (true, acc ++ [w])) [] (m, make_cursor p q).

Lemma feed_collect ws : forall n acc,
  feed (fun acc w _ => Some (true, acc ++ [w])) ws n acc = Some (acc ++ ws).
Proof.
  induction ws as [| w ws IH]; intros n acc; [by rewrite app_nil_r |].
  cbn [feed mbind option_bind fst snd]. by rewrite IH, <- app_assoc.
Qed.

Lemma words_of_spec m p q : 0 <= p <= q -> q <= zlen m ->
  exists ws p', words_of m p q = Some ws /\ splits m p q p ws /\
    forall S (fn : S -> list Z -> Z -> option (bool * S)) ctx,
      ndb_parse_words fn ctx (m, make_cursor p q) =
        match feed fn ws 0 ctx with
        | None => None
        | Some ctx => Some (ctx, (m, set_p (make_cursor p q) p'))
        end.
Proof.
  intros Hp Hq. destruct (parse_words_cuts m p q Hp Hq) as (ws & p' & H1 & H2).
  exists ws, p'. split; [| done]. unfold words_of. rewrite H2, feed_collect. done.
Qed.

Section fulltext.
Context {D C : Type} `{!Lmdb D C} `{!LmdbPut D C} (buffer nm : mem) (note nid : Z) (txn : ndb_txn D)
  (es : list text_key) (s : ndb_str) (len ts : Z).
Hypothesis (Hb : zlen buffer = 1024) (Po : puts_ok D) (Ee : env_ok txn)
  (T : text_table (txn NDB_DB_NOTE_TEXT) es) (Nd : NoDup es)
  (Es : ndb_note_str nm note (note + off.content) = Some s) (Ef : flag s <> NDB_PACKED_ID)
  (El : ndb_note_content_length nm note = Some len) (Et : load_u64 nm (note + off.created_at) = Some ts)
  (Hs : 0 <= str s) (Hl : 0 <= len) (Hr : str s + len <= zlen nm).

Lemma fulltext_spec ws : words_of nm (str s) (str s + len) = Some ws ->
  exists txn' es', ndb_write_note_fulltext_index buffer nm note nid txn = Some (true, txn') /\
    env_ok txn' /\ text_table (txn' NDB_DB_NOTE_TEXT) es' /\ NoDup es' /\
    (forall k, k ∈ es' <-> k ∈ es \/ k ∈ word_keys ws 0 ts nid) /\
    (forall db, db <> NDB_DB_NOTE_TEXT -> txn' db = txn db).
Proof using Hb Po Ee T Nd Es Ef El Et Hs Hl Hr.
  intros Ew. destruct (words_of_spec nm (str s) (str s + len)) as (ws' & p' & Ew' & _ & Hf); [lia | done |].
  rewrite Ew in Ew'. injection Ew' as <-.
  destruct (feed_words buffer Hb Po ws 0 ts nid txn es Ee T Nd) as (txn' & es' & E & H).
  exists txn', es'. split; [| exact H].
  unfold ndb_write_note_fulltext_index. rewrite Es. cbn [mbind option_bind].
  destruct (Z.eqb_spec (flag s) NDB_PACKED_ID); [done |]. rewrite El, Et. cbn [mbind option_bind].
  rewrite Hf, E. done.
Qed.
End fulltext.

(** C20: Indexing a note's content adds, when LMDB has room, one key to the text
    table for every word of it whose key is at most 511 bytes long, the most LMDB
    takes, and nothing else: the word in lower case with the time of the note, its
    key and the number of words indexed before it.  Longer words are skipped,
    without a number; the other tables are as before.  The words are the runs of
    characters between whitespace and punctuation, up to where the text is
    malformed. *)
Theorem fulltext_indexes_words {D C : Type} `{!Lmdb D C} `{!LmdbPut D C} (buffer nm : mem) (note nid : Z)
    (txn : ndb_txn D) (es : list text_key) (s : ndb_str) (len ts : Z)
    (Hb : zlen buffer = 1024) (Po : puts_ok D) (Ee : env_ok txn)
    (T : text_table (txn NDB_DB_NOTE_TEXT) es) (Nd : NoDup es)
    (Es : ndb_note_str nm note (note + off.content) = Some s) (Ef : flag s <> NDB_PACKED_ID)
    (El : ndb_note_content_length nm note = Some len) (Et : load_u64 nm (note + off.created_at) = Some ts)
    (Hs : 0 <= str s) (Hl : 0 <= len) (Hr : str s + len <= zlen nm) :
  exists ws, splits nm (str s) (str s + len) (str s) ws /\
    exists txn' es', ndb_write_note_fulltext_index buffer nm note nid txn = Some (true, txn') /\
      text_table (txn' NDB_DB_NOTE_TEXT) es' /\ NoDup es' /\
      (forall k, k ∈ es' <-> k ∈ es \/ k ∈ word_keys ws 0 ts nid) /\
      (forall db, db <> NDB_DB_NOTE_TEXT -> txn' db = txn db).
Proof.
  destruct (words_of_spec nm (str s) (str s + len)) as (ws & p' & Ew & Hcut & _); [lia | done |].
  exists ws. split; [exact Hcut |].
  destruct (fulltext_spec buffer nm note nid txn es s len ts Hb Po Ee T Nd Es Ef El Et Hs Hl Hr ws Ew)
    as (txn' & es' & E & _ & H). by exists txn', es'.
Qed.

(** An empty environment. *)
Definition empty_txn : ndb_txn list_db := fun db => mk_list_db (fst (dbi_config db)) (snd (dbi_config db)) [].

Lemma fulltext_indexes_words_witness :
  exists ws, splits demo_note 148 150 148 ws /\
    exists txn' es', ndb_write_note_fulltext_index (C := list_db * option nat) (replicate 1024 0) demo_note 0 5
        empty_txn = Some (true, txn') /\
      text_table (C := list_db * option nat) (txn' NDB_DB_NOTE_TEXT) es' /\ NoDup es' /\
      (forall k, k ∈ es' <-> k ∈ [] \/ k ∈ word_keys ws 0 (2 ^ 31) 5) /\
      (forall db, db <> NDB_DB_NOTE_TEXT -> txn' db = empty_txn db).
Proof.
  apply (fulltext_indexes_words (C := list_db * option nat) (replicate 1024 0) demo_note 0 5 empty_txn []
    (mk_str 1 148) 2 (2 ^ 31)); [reflexivity | exact list_puts_ok | done | | constructor | vm_compute; reflexivity |
    done | vm_compute; reflexivity | vm_compute; reflexivity | simpl; lia | lia | vm_compute; discriminate].
  split; [done | done | constructor | constructor].
Defined.

(** "hi", a word of 600 letters and "you": the long word is skipped. *)
Example long_word_skipped : word_keys [[104; 105]; replicate 600 97; [121; 111; 117]] 0 7 5
  = [text_key_of 0 [104; 105] 7 5; text_key_of 1 [121; 111; 117] 7 5].
Proof. by vm_compute. Qed.

(** ** Matching a key *)

Definition result_of_key (k : text_key) (n : Z) : text_result :=
  mk_text_result (tx_word k) (tx_timestamp k) (tx_note_id k) (tx_index k) n None 0.

Lemma prefix_total s w : exists r, ndb_prefix_matches s w = Some r.
Proof.
  unfold ndb_prefix_matches. destruct (Z.ltb_spec (zlen s) 2); [by eexists |].
  destruct (Z.ltb_spec (zlen w) 2); [by eexists |]. cbn [orb].
  destruct s as [| s0 [| s1 s]]; [zl | zl |]. destruct w as [| w0 [| w1 w]]; [zl | zl |].
  cbn [lookup list_lookup mbind option_bind]. destruct (_ && _); eexists; reflexivity.
Qed.

(** The word of the key has a long enough common prefix with the search word. *)
Definition matches_word (k : text_key) (w : list Z) (n : Z) : Prop :=
  ndb_prefix_matches (tx_word k) w = Some (Some n).

Lemma match_key_spec k w last : text_key_wf k ->
  match_key (text_key_bytes k) w last =
    if match last with Some l => negb (l =? tx_note_id k) | None => false end then Some NoMatch
    else n ← ndb_prefix_matches (tx_word k) w;
         Some match n with None => NoPrefix | Some n => Match (result_of_key k n) end.
Proof.
  intros (W1 & W2 & W3 & W4).
  assert (Hl : loadn (text_key_bytes k) 0 (zlen (text_key_bytes k)) = Some (text_key_bytes k)).
  { rewrite loadn_in_range by (pose proof (zlen_nonneg (text_key_bytes k)); lia).
    change (Z.to_nat 0) with 0%nat. by rewrite drop_0, to_nat_zlen, take_ge by lia. }
  unfold match_key. remember (text_key_bytes k) as m eqn:Em.
  unfold text_key_bytes, text_key_body in Em.
  set (pad := align_pad _) in *. rewrite <- !app_assoc in Em. match type of Em with _ = ?r => assert (Hr : loadn m 0 (zlen r) = Some r) by (by rewrite <- Em) end. clear Hl. rename Hr into Hl.
  apply loadn_app_inv in Hl as [L1 Hl]. apply loadn_app_inv in Hl as [L2 Hl].
  apply loadn_app_inv in Hl as [L3 Hl]. apply loadn_app_inv in Hl as [L4 Hl].
  apply loadn_app_inv in Hl as [L5 _]. pose proof (f_equal zlen Em) as He. rewrite !zlen_app in He.
  pose proof (zlen_nonneg pad). pose proof (zlen_nonneg (tx_word k)).
  pose proof (varint_zlen (tx_note_id k)). pose proof (varint_zlen (zlen (tx_word k))).
  pose proof (varint_zlen (tx_timestamp k)). pose proof (varint_zlen (tx_index k)).
  rewrite (unpack_noteid_spec (tx_note_id k) m (make_cursor 0 (zlen m))) by (simpl; (lia || exact L1)).
  cbn [mbind option_bind fst snd]. rewrite u64_id by done.
  destruct (match last with Some l => negb (l =? tx_note_id k) | None => false end); [done |].
  rewrite (unpack_string_spec (tx_word k)) by (simpl; (done || lia || exact L2)).
  cbn [mbind option_bind fst snd c_p set_p make_cursor]. rewrite L3. cbn [mbind option_bind].
  destruct (prefix_total (tx_word k) w) as [r ->]. cbn [mbind option_bind]. destruct r as [n |]; [| done].
  rewrite (unpack_remaining_spec (tx_timestamp k) (tx_index k)) by (simpl; (lia || exact L4 || exact L5)).
  cbn [mbind option_bind fst snd]. rewrite !u64_id by done. done.
Qed.

(** ** Walking the text table *)

Section walk.
Context {D C : Type} `{!Lmdb D C} (d : D) (es : list text_key).
Hypothesis (T : text_table d es) (Nd : NoDup es).

(** The cursor stands on entry number [p]. *)
Definition at_entry (c : C) (p : nat) : Prop := cur_db c = d /\ cur_pos c = Some p.

Lemma text_items : db_items d = map (fun k => (text_key_bytes k, [])) es.
Proof using T. rewrite (ix_items _ _ T), map_map. done. Qed.

Lemma text_wf p k : es !! p = Some k -> text_key_wf k.
Proof using T.
  intros H. pose proof (proj1 (Forall_map _ _ _) (ix_wf _ _ T)) as W. exact (Forall_lookup_1 _ _ _ _ W H).
Qed.

Lemma get_entry (c c' : C) op it : cur_db c = d -> mdb_cursor_get c op = Some (c', it) ->
  exists p k, mdb_goto (db_cmp d) (db_items d) (cur_pos c) op = Some p /\ es !! p = Some k /\
    it = (text_key_bytes k, []) /\ at_entry c' p.
Proof using T.
  intros Hc E. pose proof (cursor_get_spec c op) as S. rewrite Hc in S.
  destruct (mdb_goto _ _ _ _) as [p |] eqn:G; [| congruence].
  destruct (db_items d !! p) as [it' |] eqn:Ei; [| congruence].
  destruct S as (c1 & E1 & D1 & P1). rewrite E in E1. injection E1 as <- <-.
  rewrite text_items, list_lookup_fmap in Ei. destruct (es !! p) as [k |] eqn:Ek; [| done].
  injection Ei as <-. exists p, k. split; [done |]. split; [done |]. split; [done |]. by split; [rewrite D1 |].
Qed.

Lemma entry_order i j a b : (i < j)%nat -> es !! i = Some a -> es !! j = Some b -> key_ord a b = Lt.
Proof using T Nd.
  intros Hij Ha Hb. pose proof (key_total (K := text_key)) as Tt.
  pose proof (sorted_lookup _ _ (text_table_sorted d es T) i j a b Hij Ha Hb) as H. unfold ele, text_cmp in H.
  destruct (key_ord a b) eqn:E; [| done | done].
  apply cmp_eq in E as ->. pose proof (NoDup_lookup es i j b Nd Ha Hb). lia.
Qed.

(** Seeking a key of the table finds its entry. *)
Lemma seek_entry (c : C) p k : cur_db c = d -> es !! p = Some k ->
  exists c', mdb_cursor_get c (MDB_SET_RANGE (text_key_bytes k)) = Some (c', (text_key_bytes k, [])) /\ at_entry c' p.
Proof using T Nd.
  intros Hc Hk. pose proof (key_total (K := text_key)) as Tt.
  assert (B : below d (text_key_bytes k) = p).
  { assert (X : forall i e, es !! i = Some e -> (i < below d (text_key_bytes k))%nat <-> key_ord e k = Lt).
    { intros i e He. change (text_key_bytes k) with (Keys.key_bytes k).
      rewrite (below_spec d _ T k i (e, [])); [done | by apply (text_wf p) | by rewrite list_lookup_fmap, He]. }
    pose proof (X p k Hk) as Xp. rewrite (cmp_refl key_ord) in Xp.
    destruct (Nat.lt_trichotomy (below d (text_key_bytes k)) p) as [L | [E | L]]; [| done | exfalso; by apply Xp in L].
    destruct (lookup_lt_is_Some_2 es (below d (text_key_bytes k))) as [e He]; [apply lookup_lt_Some in Hk; lia |].
    pose proof (proj2 (X _ e He) (entry_order _ _ _ _ L He Hk)). lia. }
  assert (Ei : db_items d !! p = Some (text_key_bytes k, [])) by (by rewrite text_items, list_lookup_fmap, Hk).
  pose proof (set_range_spec c (text_key_bytes k)) as S. rewrite Hc, B, Ei in S.
  destruct S as (c' & E & Hc'). exists c'. split; [done |].
  destruct (get_entry c c' _ _ Hc E) as (p' & k' & _ & Hk' & Ek & A).
  assert (k' = k) as ->.
  { apply (f_equal fst) in Ek. cbn [fst] in Ek. symmetry.
    exact (key_bytes_inj k k' (text_wf p k Hk) (text_wf p' k' Hk') Ek). }
  by rewrite (NoDup_lookup es p p' k Nd Hk Hk').
Qed.

(** A step in the order of the search. *)
Lemma step_entry (c c' : C) p it (asc : bool) : at_entry c p ->
  mdb_cursor_get c (if asc then MDB_NEXT else MDB_PREV) = Some (c', it) ->
  exists q k, es !! q = Some k /\ it = (text_key_bytes k, []) /\ at_entry c' q /\
    (if asc then q = S p else p = S q).
Proof using T.
  intros [Hc Hp] E. destruct (get_entry c c' _ it Hc E) as (q & k & G & Hk & Ei & A).
  exists q, k. split; [done |]. split; [done |]. split; [done |]. rewrite Hp in G. destruct asc; cbn [mdb_goto] in G.
  - destruct (decide _); [by injection G as <- | done].
  - destruct p; [done | by injection G as <-].
Qed.

(** The entry a search stands on answers the word. *)
Definition answers (c : C) (k : list Z) (res : text_result) (w : list Z) (last : option Z) (p : nat) : Prop :=
  exists tk n, es !! p = Some tk /\ k = text_key_bytes tk /\ res = result_of_key tk n /\
    matches_word tk w n /\ at_entry c p /\ (forall l, last = Some l -> l = tx_note_id tk).

Lemma match_entry (c : C) p tk w last : es !! p = Some tk -> at_entry c p ->
  exists m, match_key (text_key_bytes tk) w last = Some m /\
    (forall res, m = Match res -> answers c (text_key_bytes tk) res w last p).
Proof using T.
  intros Hk A. rewrite match_key_spec by (by apply (text_wf p)).
  destruct (match last with Some l => negb (l =? tx_note_id tk) | None => false end) eqn:El; [by eexists |].
  destruct (prefix_total (tx_word tk) w) as [[n |] E]; rewrite E; cbn [mbind option_bind]; [| by eexists].
  eexists. split; [done |]. intros res [= <-]. exists tk, n. do 5 (split; [done |]).
  intros l ->. destruct (Z.eqb_spec l (tx_note_id tk)); done.
Qed.

Lemma next_word_spec (c : C) op (asc : bool) w last : cur_db c = d ->
  exists r, ndb_text_search_next_word c op asc w last = Some r /\
    forall c' k res, r = Some (c', k, res) -> exists p, answers c' k res w last p /\
      (forall q, op = Step -> cur_pos c = Some q -> if asc then p = S q else q = S p).
Proof using T.
  intros Hc. unfold ndb_text_search_next_word.
  set (first := match op with SetRange k => _ | Step => _ end).
  assert (Ff : forall c1 it, first = Some (c1, it) -> exists p tk, es !! p = Some tk /\
    it = (text_key_bytes tk, []) /\ at_entry c1 p /\
    (forall q, op = Step -> cur_pos c = Some q -> if asc then p = S q else q = S p)).
  { intros c1 it E. unfold first in E. destruct op as [k |].
    - assert (X : exists o, mdb_cursor_get c o = Some (c1, it)).
      { destruct (mdb_cursor_get c (MDB_SET_RANGE k)) as [r |] eqn:Er; [exists (MDB_SET_RANGE k); congruence |].
        destruct asc; [done | eauto]. }
      destruct X as [o X]. destruct (get_entry c c1 o it Hc X) as (p & tk & _ & ? & ? & ?).
      exists p, tk. done.
    - destruct (get_entry c c1 _ it Hc E) as (p & tk & G & ? & ? & ?). exists p, tk.
      do 3 (split; [done |]). intros q _ Hq. rewrite Hq in G. destruct asc; cbn [mdb_goto] in G.
      + destruct (decide _); [by injection G as <- | done].
      + destruct q; [done | by injection G as <-]. }
  destruct first as [[c1 it] |]; [| exists None; split; [done | by intros]].
  destruct (Ff c1 it eq_refl) as (p & tk & Hk & -> & A & Hs). cbn [fst].
  destruct (match_entry c1 p tk w last Hk A) as (m & -> & Hm). cbn [mbind option_bind].
  destruct m as [| | res].
  - destruct op as [k |]; [| exists None; split; [done | by intros]].
    destruct asc; [exists None; split; [done | by intros] |].
    assert (G : forall c2 p2 tk2, es !! p2 = Some tk2 -> at_entry c2 p2 ->
      exists r, (m ← match_key (text_key_bytes tk2) w last;
        match m with Match r => Some (Some (c2, text_key_bytes tk2, r)) | _ => Some None end) = Some r /\
        forall c' k0 res, r = Some (c', k0, res) -> exists p0, answers c' k0 res w last p0 /\
          (forall q, SetRange k = Step -> cur_pos c = Some q -> q = S p0)).
    { intros c2 p2 tk2 Hk2 A2. destruct (match_entry c2 p2 tk2 w last Hk2 A2) as (m2 & -> & Hm2).
      cbn [mbind option_bind]. destruct m2 as [| | res2]; [exists None; split; [done | by intros] .. |].
      eexists. split; [done |]. intros c' k0 res [= <- <- <-]. exists p2. split; [by apply Hm2 | done]. }
    destruct (mdb_cursor_get c1 MDB_PREV) as [[c2 it2] |] eqn:E2; cbn [fst].
    + destruct (step_entry c1 c2 p it2 false A E2) as (q & k2 & Hk2 & -> & A2 & _). cbn [fst]. by apply (G c2 q).
    + by apply (G c1 p).
  - exists None. split; [by destruct op | by intros].
  - eexists. split; [reflexivity |]. intros c' k res' [= <- <- <-]. exists p. split; [by apply Hm | done].
Qed.
End walk.

(** ** One round of the search *)

(** Words a key of 1024 bytes has room for. *)
Definition fits (w : list Z) : Prop := zlen w <= 968.

Lemma search_key_ok buffer wi w ts nid : zlen buffer = 1024 -> fits w ->
  exists m n k, with_cursor 0 1024 (ndb_make_text_search_key wi w ts nid) buffer = Some (Some n, m) /\
    loadn m 0 n = Some k.
Proof.
  intros Hb Hw. destruct (make_text_search_key_spec wi w ts nid buffer 0 1024) as (m & E & S & _).
  { unfold cwf, make_cursor. cbn. lia. } { pose proof (text_key_size wi w ts nid Hw). lia. }
  eexists m, _, _. unfold with_cursor. rewrite E. split; [reflexivity |]. by eapply loadn_storen_same.
Qed.

(** In which direction the search walks. *)
Definition after (asc : bool) (p q : nat) : Prop := if asc then (p < q)%nat else (q < p)%nat.

Section rounds.
Context {D C : Type} `{!Lmdb D C}.
Context (custom_cb : list Z -> mem -> Z -> bool) (txn : ndb_txn D) (buffer : mem) (es : list text_key).
Context (flt : option filter) (asc : bool) (limit : Z) (root : list Z) (words : list (list Z)).
Hypothesis (Hb : zlen buffer = 1024) (T : text_table (txn NDB_DB_NOTE_TEXT) es) (Nd : NoDup es)
  (Hroot : fits root) (Hwords : Forall fits words) (Hlim : limit <= 128)
  (Hflt : forall f id note, flt = Some f -> ndb_get_note_by_key txn id = Some note ->
            is_Some (ndb_filter_matches custom_cb f note 0)).

#[local] Abbreviation d := (txn NDB_DB_NOTE_TEXT).

(** A key of the note answers the word. *)
Definition has_word (id : Z) (w : list Z) : Prop :=
  exists k n, k ∈ es /\ tx_note_id k = id /\ matches_word k w n.

(** What a result promises: its root key, a key of the same note for every other
    word, and the note if the filter was asked about it. *)
Definition hit (res : text_result) (rk : text_key) : Prop :=
  rk ∈ es /\ tx_note_id rk = tr_note_id res /\ (exists n, matches_word rk root n) /\
  (forall w, w ∈ words -> w <> [] -> has_word (tr_note_id res) w) /\
  (forall f, flt = Some f -> tr_note res = ndb_get_note_by_key txn (tr_note_id res) /\
     forall note, tr_note res = Some note -> ndb_filter_matches custom_cb f note 0 = Some true).

Lemma match_rest_spec c saved results ws : cur_db c = d -> zlen results < 128 -> Forall fits ws ->
  forall last, exists c' m, match_rest buffer c asc saved results ws last = Some (Next c' saved m) /\ cur_db c' = d /\
    forall res, m = Some res -> tr_note_id res = tr_note_id last /\ tr_note res = tr_note last /\
      (forall w, w ∈ ws -> w <> [] -> has_word (tr_note_id res) w) /\
      ((exists w, w ∈ ws /\ w <> []) -> tr_note_id res ∉ map tr_note_id results).
Proof using Hb T Nd.
  intros Hc Hr F. revert c Hc. induction ws as [| w ws IH]; intros c Hc last.
  { exists c, (Some last). split; [done |]. split; [done |]. intros res [= <-]. split; [done |]. split; [done |].
    split; [intros w Hw; by apply elem_of_nil in Hw | intros (w & Hw & _); by apply elem_of_nil in Hw]. }
  apply Forall_cons_iff in F as [Hw F]. specialize (IH F). cbn [match_rest].
  destruct (Z.eqb_spec (zlen w) 0) as [Z0 | Z0].
  { assert (w = []) as -> by (destruct w; [done | zl]). destruct (IH c Hc last) as (c' & m & E & Hc' & H). exists c', m.
    split; [done |]. split; [done |]. intros res Hm. destruct (H res Hm) as (H1 & H2 & H3 & H4).
    split; [done |]. split; [done |]. split.
    - intros w' [-> | ?]%elem_of_cons; [done | by apply H3].
    - intros (w' & [-> | ?]%elem_of_cons & ?); [done |]. apply H4. eauto. }
  destruct (existsb _ results) eqn:Ex; [by exists c, None |].
  assert (Nin : tr_note_id last ∉ map tr_note_id results).
  { intros Hin. apply list_elem_of_fmap in Hin as (r & Er & Hin).
    apply not_true_iff_false in Ex. apply Ex, existsb_exists. exists r.
    split; [by apply list_elem_of_In | by apply Z.eqb_eq]. }
  destruct (search_key_ok buffer 0 w (tr_timestamp last) (tr_note_id last) Hb Hw) as (m & n & k & E & L).
  unfold ndb_make_noted_text_search_key. rewrite E. cbn [mbind option_bind fst snd]. rewrite L.
  cbn [mbind option_bind].
  destruct (next_word_spec d es T c (SetRange k) asc w (Some (tr_note_id last)) Hc) as (r & Er & Hn).
  rewrite Er. cbn [mbind option_bind]. destruct r as [[[c1 k1] res1] |]; [| by exists c, None].
  destruct (Hn c1 k1 res1 eq_refl) as (p & (tk & n1 & Hp & _ & -> & Hm & [Hc1 _] & Hl) & _).
  destruct (Z.leb_spec MAX_TEXT_SEARCH_RESULTS (zlen results)); [unfold MAX_TEXT_SEARCH_RESULTS in *; lia |].
  set (last1 := mk_text_result _ _ _ _ _ _ _). destruct (IH c1 Hc1 last1) as (c' & m' & E' & Hc' & H').
  exists c', m'. split; [done |]. split; [done |]. intros res Hres. destruct (H' res Hres) as (H1 & H2 & H3 & H4).
  assert (Eid : tr_note_id last = tx_note_id tk) by (by apply Hl).
  assert (E1 : tr_note_id res = tx_note_id tk) by (rewrite H1; done).
  split; [by rewrite Eid |]. split; [done |]. split.
  - intros w' [-> | ?]%elem_of_cons Hne; [| by apply H3]. exists tk, n1. split; [by apply list_elem_of_lookup; eauto |]. done.
  - intros _. by rewrite E1, <- Eid.
Qed.

Lemma match_round_spec c op ns results : cur_db c = d -> zlen results < 128 ->
  exists r, match_round custom_cb txn buffer c op asc flt ns results root words = Some r /\
    match fst r with
    | Exhausted => True
    | Next c' k m => cur_db c' = d /\ exists p tk, es !! p = Some tk /\ k = text_key_bytes tk /\
        (forall q, op = Step -> cur_pos c = Some q -> if asc then p = S q else q = S p) /\
        forall res, m = Some res -> hit res tk /\
          ((exists w, w ∈ words /\ w <> []) -> tr_note_id res ∉ map tr_note_id results)
    end.
Proof using Hb T Nd Hwords Hflt.
  intros Hc Hr. unfold match_round.
  destruct (next_word_spec d es T c op asc root None Hc) as (r & Er & Hn). rewrite Er. cbn [mbind option_bind].
  destruct r as [[[c1 k1] res1] |]; [| by eexists].
  destruct (Hn c1 k1 res1 eq_refl) as (p & (tk & n & Hp & -> & -> & Hm & [Hc1 _] & _) & Hs).
  destruct (Z.leb_spec MAX_TEXT_SEARCH_RESULTS (zlen results)); [unfold MAX_TEXT_SEARCH_RESULTS in *; lia |].
  cbn [tr_note_id result_of_key tr_str tr_timestamp tr_word_index tr_prefix_chars].
  set (found := match flt with Some _ => _ | None => None end).
  assert (B : exists b, match flt, found with
                   | Some f, Some note => ndb_filter_matches custom_cb f note 0
                   | _, _ => Some true
                   end = Some b /\
            (b = true -> forall f, flt = Some f -> found = ndb_get_note_by_key txn (tx_note_id tk) /\
               forall note, found = Some note -> ndb_filter_matches custom_cb f note 0 = Some true)).
  { unfold found. destruct flt as [f |] eqn:Ef; [| by exists true].
    destruct (ndb_get_note_by_key txn (tx_note_id tk)) as [note |] eqn:En.
    - destruct (Hflt f _ note eq_refl En) as [b Eb]. exists b. split; [done |]. intros -> f' [= <-].
      split; [done |]. by intros note' [= <-].
    - exists true. split; [done |]. intros _ f' _. done. }
  destruct B as (b & -> & Hbf). cbn [mbind option_bind]. destruct b; cbn [negb].
  - set (last := mk_text_result _ _ _ _ _ _ _).
    destruct (match_rest_spec c1 (text_key_bytes tk) results words Hc1 Hr Hwords last) as (c' & m & E & Hc' & Hm').
    rewrite E. eexists. split; [reflexivity |]. split; [done |]. exists p, tk. split; [done |]. split; [done |]. split; [done |].
    intros res Hres. destruct (Hm' res Hres) as (H1 & H2 & H3 & H4). split; [| done]. split.
    { apply list_elem_of_lookup. eauto. } split; [by rewrite H1 |]. split; [by exists n |]. split; [done |].
    intros f Hf. rewrite H1, H2. exact (Hbf eq_refl f Hf).
  - eexists. split; [reflexivity |]. split; [done |]. exists p, tk. done.
Qed.
End rounds.

(** ** The loop of the search *)

Section loop.
Context {D C : Type} `{!Lmdb D C}.
Context (custom_cb : list Z -> mem -> Z -> bool) (txn : ndb_txn D) (buffer : mem) (es : list text_key).
Context (flt : option filter) (asc : bool) (limit op_ts : Z) (root : list Z) (words : list (list Z)).
Hypothesis (Hb : zlen buffer = 1024) (T : text_table (txn NDB_DB_NOTE_TEXT) es) (Nd : NoDup es)
  (Hroot : fits root) (Hwords : Forall fits words) (Hlim : limit <= 128)
  (Hflt : forall f id note, flt = Some f -> ndb_get_note_by_key txn id = Some note ->
            is_Some (ndb_filter_matches custom_cb f note 0)).

#[local] Abbreviation hit_at := (hit custom_cb txn es flt root words).

(** The results so far and the entries of the root word they came from. *)
Record found_from (results : list text_result) (roots : list nat) : Prop := {
  ff_hits : Forall2 (fun res q => exists rk, es !! q = Some rk /\ hit_at res rk) results roots;
  ff_order : StronglySorted (after asc) roots;
  ff_limit : zlen results <= Z.max 0 limit;
  ff_once : (exists w, w ∈ words /\ w <> []) -> NoDup (map tr_note_id results)
}.

Lemma found_step results roots p tk m : found_from results roots -> zlen results < limit ->
  es !! p = Some tk -> Forall (fun q => after asc q p) roots ->
  (forall res, m = Some res -> hit_at res tk /\
     ((exists w, w ∈ words /\ w <> []) -> tr_note_id res ∉ map tr_note_id results)) ->
  exists roots', found_from (match m with Some res => results ++ [res] | None => results end) roots' /\
    Forall (fun q => after asc q p \/ q = p) roots'.
Proof using Hlim.
  intros [F1 F2 F3 F4] Hr Hp Fa Hm. destruct m as [res |].
  - destruct (Hm res eq_refl) as [Hh Hn]. exists (roots ++ [p]). split.
    + split.
      * apply Forall2_app; [done |]. constructor; [eauto | constructor].
      * apply StronglySorted_app. split; [| split]; [| done | repeat constructor].
        intros x1 x2 H1 H2. apply list_elem_of_singleton in H2 as ->.
        exact (proj1 (List.Forall_forall _ _) Fa x1 (proj1 (list_elem_of_In _ _) H1)).
      * rewrite zlen_app. change (zlen [res]) with 1. lia.
      * intros Hw. rewrite map_app. apply list.NoDup_app. split; [by apply F4 |]. split; [| apply NoDup_singleton].
        intros x Hx Hx'. apply list_elem_of_singleton in Hx' as ->. by apply (Hn Hw).
    + apply Forall_app. split; [| constructor; [by right | constructor]]. revert Fa. apply Forall_impl. intros ? ?. by left.
  - exists roots. split; [by split |]. revert Fa. apply Forall_impl. intros ? ?. by left.
Qed.

Lemma search_from fuel : forall c ns results roots p tk, cur_db c = txn NDB_DB_NOTE_TEXT -> es !! p = Some tk ->
  ((if asc then length es - p else S p) <= fuel)%nat -> found_from results roots ->
  Forall (fun q => after asc q p \/ q = p) roots ->
  exists rs roots', search_loop custom_cb txn buffer fuel c asc flt limit op_ts (Some (text_key_bytes tk)) ns results
      root words = Some (Some rs) /\ found_from rs roots'.
Proof using Hb T Nd Hwords Hlim Hflt.
  induction fuel as [| fuel IH]; intros c ns results roots p tk Hc Hp Hf Hff Ha.
  { apply lookup_lt_Some in Hp. destruct asc; lia. }
  cbn [search_loop]. destruct (Z.ltb_spec (zlen results) limit) as [L |]; [| by exists results, roots].
  destruct (seek_entry _ _ T Nd c p tk Hc Hp) as (c1 & -> & [Hc1 Hp1]).
  destruct (match_round_spec custom_cb txn buffer es flt asc root words Hb T Nd Hwords Hflt c1 Step ns results Hc1
    ltac:(lia)) as ([r ns'] & -> & Hr). cbn [mbind option_bind fst snd] in Hr |- *.
  destruct r as [| c2 k m]; [by exists results, roots |].
  destruct Hr as (Hc2 & q & tk2 & Hq & -> & Hs & Hm). specialize (Hs p eq_refl Hp1).
  assert (Fa : Forall (fun i => after asc i q) roots).
  { revert Ha. apply Forall_impl. unfold after. intros i Hi. destruct asc; lia. }
  destruct (found_step results roots q tk2 m Hff L Hq Fa Hm) as (roots' & Hff' & Ha').
  apply (IH c2 ns' _ roots' q tk2 Hc2 Hq); [| done ..]. apply lookup_lt_Some in Hq. destruct asc; lia.
Qed.

Lemma search_loop_spec fuel c : cur_db c = txn NDB_DB_NOTE_TEXT -> (length es < fuel)%nat ->
  exists rs roots, search_loop custom_cb txn buffer fuel c asc flt limit op_ts None 0 [] root words = Some (Some rs) /\
    found_from rs roots.
Proof using Hb T Nd Hroot Hwords Hlim Hflt.
  intros Hc Hf. destruct fuel as [| fuel]; [lia |]. cbn [search_loop].
  assert (F0 : found_from [] []).
  { split; [constructor | constructor | change (zlen (@nil text_result)) with 0; lia | intros _; constructor]. }
  destruct (Z.ltb_spec (zlen (@nil text_result)) limit) as [L |]; [| by exists [], []].
  assert (E : exists m n k, with_cursor 0 1024
    (if asc then ndb_make_text_search_key_low root op_ts else ndb_make_text_search_key_high root op_ts) buffer =
      Some (Some n, m) /\ loadn m 0 n = Some k) by (destruct asc; by apply search_key_ok).
  destruct E as (m & n & k & -> & Lk). cbn [mbind option_bind fst snd]. rewrite Lk. cbn [mbind option_bind].
  destruct (match_round_spec custom_cb txn buffer es flt asc root words Hb T Nd Hwords Hflt c (SetRange k) 0 [] Hc
    ltac:(change (zlen (@nil text_result)) with 0; lia)) as ([r ns'] & -> & Hr). cbn [mbind option_bind fst snd] in Hr |- *.
  destruct r as [| c2 k2 m2]; [by exists [], [] |].
  destruct Hr as (Hc2 & q & tk2 & Hq & -> & _ & Hm).
  destruct (found_step [] [] q tk2 m2 F0 L Hq ltac:(constructor) Hm) as (roots' & Hff' & Ha').
  apply (search_from fuel c2 ns' _ roots' q tk2 Hc2 Hq); [| exact Hff' | exact Ha'].
  apply lookup_lt_Some in Hq. destruct asc; lia.
Qed.
End loop.

(** A search keeps the first words of the query. *)
Lemma feed_search_words ws : forall n acc, zlen acc <= MAX_TEXT_SEARCH_WORDS ->
  feed ndb_parse_search_words ws n acc = Some (acc ++ take (Z.to_nat (MAX_TEXT_SEARCH_WORDS - zlen acc)) ws).
Proof.
  unfold MAX_TEXT_SEARCH_WORDS. induction ws as [| w ws IH]; intros n acc Ha.
  { by rewrite take_nil, app_nil_r. }
  cbn [feed].
  assert (Ew : ndb_parse_search_words acc w n = if 8 <? zlen acc + 1 then Some (false, acc) else Some (true, acc ++ [w])) by done.
  rewrite Ew. clear Ew.
  destruct (Z.ltb_spec 8 (zlen acc + 1)); cbn [mbind option_bind fst snd].
  - rewrite IH by done. replace (8 - zlen acc) with 0 by lia. done.
  - assert (El : zlen (acc ++ [w]) = zlen acc + 1) by by rewrite zlen_app.
    rewrite IH by lia. rewrite El, <- app_assoc. do 2 f_equal.
    replace (Z.to_nat (8 - zlen acc)) with (S (Z.to_nat (8 - (zlen acc + 1)))) by lia. done.
Qed.

Lemma search_words_spec query : exists ws, splits query 0 (zlen query) 0 ws /\ search_words query = Some (take 8 ws) /\
  Forall (fun w => w <> [] /\ zlen w <= zlen query) (take 8 ws).
Proof.
  pose proof (zlen_nonneg query) as Hn.
  destruct (parse_words_cuts query 0 (zlen query)) as (ws & p & Hs & Hf); [lia | done |].
  exists ws. split; [done |]. split.
  - unfold search_words. rewrite Hf, feed_search_words by done. done.
  - apply splits_words in Hs; [| lia]. rewrite Z.sub_0_r in Hs. by apply Forall_take.
Qed.

Lemma sort_words_ok words : exists l, sort_largest_to_smallest words = Some l /\ l ≡ₚ words.
Proof.
  assert (I : forall x l, exists r, qinsert compare_search_words x l = Some r).
  { intros x l. induction l as [| y l [r IH]]; [by eexists |]. cbn [qinsert]. change (compare_search_words x y) with (Some (if zlen x =? zlen y then 0 else if zlen y <? zlen x then -1 else 1)).
    cbn [mbind option_bind]. destruct (Z.ltb 0 _); [rewrite IH |]; by eexists. }
  unfold sort_largest_to_smallest. assert (E : exists l, qsort compare_search_words words = Some l).
  { induction words as [| w words [l IH]]; [by eexists |]. cbn [qsort]. rewrite IH. apply I. }
  destruct E as [l E]. exists l. split; [done |]. by apply (qsort_perm _ _ _ E).
Qed.

(** A word of the index answers a word of a query when the two agree, in any
    case, from their first character on for more than two thirds of the latter. *)
Definition alike (key w : list Z) : Prop :=
  2 <= zlen key /\ 2 <= zlen w /\ exists n : nat, 2 * zlen w < 3 * Z.of_nat n /\
    (n <= length key)%nat /\ (n <= length w)%nat /\ map tolower (take n key) = map tolower (take n w).

Lemma prefix_count_agrees key w : exists n : nat, prefix_count key w = Z.of_nat n /\
  (n <= length key)%nat /\ (n <= length w)%nat /\ map tolower (take n key) = map tolower (take n w).
Proof.
  revert w. induction key as [| x key IH]; intros [| y w]; try (exists 0%nat; cbn; split; [done | lia || split; [lia | by split; [lia |]]]).
  cbn [prefix_count]. destruct (Z.eqb_spec (tolower x) (tolower y)) as [E |].
  - destruct (IH w) as (n & -> & H1 & H2 & H3). exists (S n). cbn [length take map]. rewrite E, H3. split; [lia |]. split; [lia |]. split; [lia | done].
  - exists 0%nat. cbn [length take map]. split; [done |]. split; [lia |]. split; [lia | done].
Qed.

Lemma matches_alike k w n : matches_word k w n -> alike (tx_word k) w.
Proof.
  unfold matches_word, ndb_prefix_matches. intros H.
  destruct (Z.ltb_spec (zlen (tx_word k)) 2); [done |]. destruct (Z.ltb_spec (zlen w) 2); [done |]. cbn [orb] in H.
  destruct (tx_word k !! 0%nat); [| done]. destruct (tx_word k !! 1%nat); [| done].
  destruct (w !! 0%nat); [| done]. destruct (w !! 1%nat); [| done]. cbn [mbind option_bind] in H.
  destruct (_ && _); [done |]. split; [done |]. split; [done |].
  destruct (prefix_count_agrees (tx_word k) w) as (j & E & Hj). rewrite E in H. exists j. split; [| done].
  destruct (Z.leb_spec (Z.of_nat j) (zlen w * 2 / 3)) as [| Hlt]; [done |].
  pose proof (Z.div_mod (zlen w * 2) 3 ltac:(lia)). pose proof (Z.mod_pos_bound (zlen w * 2) 3 ltac:(lia)). lia.
Qed.

(** What a search for [words] promises of its results. *)
Record sound_results {D C} `{!Lmdb D C} (custom_cb : list Z -> mem -> Z -> bool) (txn : ndb_txn D)
    (es : list text_key) (flt : option filter) (cfg : search_config) (words : list (list Z))
    (rs : list text_result) : Prop := {
  sr_words : forall res w, res ∈ rs -> w ∈ words ->
    exists k, k ∈ es /\ tx_note_id k = tr_note_id res /\ alike (tx_word k) w;
  sr_filter : forall res f, res ∈ rs -> flt = Some f ->
    tr_note res = ndb_get_note_by_key txn (tr_note_id res) /\
    forall note, tr_note res = Some note -> ndb_filter_matches custom_cb f note 0 = Some true;
  sr_order : exists roots, StronglySorted (after (cfg_ascending cfg)) roots /\
    Forall2 (fun res q => exists k, es !! q = Some k /\ tx_note_id k = tr_note_id res) rs roots;
  sr_limit : zlen rs <= Z.max 0 (cfg_limit cfg);
  sr_once : 1 < zlen words -> NoDup (map tr_note_id rs)
}.

Lemma no_results {D C} `{!Lmdb D C} custom_cb (txn : ndb_txn D) es flt cfg words :
  sound_results custom_cb txn es flt cfg words [].
Proof.
  split.
  - intros res w Hr. by apply elem_of_nil in Hr.
  - intros res f Hr. by apply elem_of_nil in Hr.
  - exists []. split; constructor.
  - change (zlen (@nil text_result)) with 0. lia.
  - intros _. constructor.
Qed.

Lemma found_sound {D C} `{!Lmdb D C} custom_cb (txn : ndb_txn D) es flt cfg limit words root rest rs roots :
  root :: rest ≡ₚ words -> Forall (fun w => w <> []) words -> limit <= cfg_limit cfg ->
  found_from custom_cb txn es flt (cfg_ascending cfg) limit root rest rs roots ->
  sound_results custom_cb txn es flt cfg words rs.
Proof.
  intros Hp Hne Hl [F1 F2 F3 F4].
  assert (Hit : forall res, res ∈ rs -> exists rk, hit custom_cb txn es flt root rest res rk).
  { intros res Hr. apply list_elem_of_lookup in Hr as [i Hi].
    destruct (Forall2_lookup_l _ _ _ _ _ F1 Hi) as (q & _ & rk & _ & Hh). eauto. }
  split.
  - intros res w Hr Hw. destruct (Hit res Hr) as (rk & H1 & H2 & [n H3] & H4 & _).
    assert (Hh : has_word es (tr_note_id res) w); [| destruct Hh as (k & j & A & B & M%matches_alike); eauto].
    rewrite <- Hp in Hw. apply elem_of_cons in Hw as [-> | Hw]; [by exists rk, n |].
    apply H4; [done |]. apply (proj1 (List.Forall_forall _ _) Hne), list_elem_of_In. rewrite <- Hp.
    apply elem_of_cons. by right.
  - intros res f Hr Hf. destruct (Hit res Hr) as (rk & _ & _ & _ & _ & H5). by apply H5.
  - exists roots. split; [done |]. revert F1. apply Forall2_impl. intros res q (rk & H1 & H2 & H3 & _). eauto.
  - lia.
  - intros H1. apply F4. destruct rest as [| w rest].
    + apply Permutation_length in Hp. unfold zlen in H1. simpl in Hp. lia.
    + exists w. split; [apply elem_of_cons; by left |].
      apply (proj1 (List.Forall_forall _ _) Hne), list_elem_of_In. rewrite <- Hp. apply elem_of_cons. right. apply elem_of_cons. by left.
Qed.

(** C19: A search always ends, within as many rounds as the table has keys and one
    more, without touching memory outside its buffers, when the query is short
    (968 bytes), the configured limit is at most 128 and the stored notes can be
    filtered.  It returns 0 exactly when the query has no word or the cursor cannot
    be opened.  Only the first eight words of the query count: every result is a
    note that for each of them has a key whose word agrees with it, in any case,
    from the first character on for more than two thirds of it, and that, when it
    is stored and there is a filter, satisfies the filter.  The results are in
    the order of the keys they were found by, at most as many as the configured
    limit, and a query of several words returns no note twice. *)
Theorem search_sound {D C} `{!Lmdb D C} (custom_cb : list Z -> mem -> Z -> bool) (txn : ndb_txn D) (buffer : mem)
    (es : list text_key) (query : list Z) (cfg : search_config) (flt : option filter) (fuel : nat)
    (Hb : zlen buffer = 1024) (T : text_table (txn NDB_DB_NOTE_TEXT) es) (Nd : NoDup es)
    (Hq : zlen query <= 968) (Hlim : cfg_limit cfg <= MAX_TEXT_SEARCH_RESULTS) (Hfuel : (length es < fuel)%nat)
    (Hflt : forall f, flt = Some f -> is_Some (until_of f) /\ is_Some (since_of f) /\ is_Some (get_int f LIMIT) /\
       forall id note, ndb_get_note_by_key txn id = Some note -> is_Some (ndb_filter_matches custom_cb f note 0)) :
  exists words ok rs, splits query 0 (zlen query) 0 words /\
    ndb_text_search_with custom_cb txn buffer fuel query (Some cfg) flt = Some (Some (ok, rs)) /\
    (ok = false <-> words = [] \/ mdb_cursor_open (txn NDB_DB_NOTE_TEXT) = None) /\
    sound_results custom_cb txn es flt cfg (take 8 words) rs.
Proof.
  destruct (search_words_spec query) as (all & Hall & Ew & Fw). remember (take 8 all) as words eqn:Ewords.
  assert (Hempty : all = [] <-> words = []) by (rewrite Ewords; by destruct all).
  assert (Fl : forall f id note, flt = Some f -> ndb_get_note_by_key txn id = Some note ->
    is_Some (ndb_filter_matches custom_cb f note 0)).
  { intros f id note Ef. apply (Hflt f Ef). }
  assert (O : exists u s p,
    match flt with Some f => until_of f | None => Some UINT64_MAX end = Some u /\
    match flt with Some f => since_of f | None => Some 0 end = Some s /\
    match flt with Some f => get_int f LIMIT | None => Some None end = Some p).
  { destruct flt as [f |]; [| by eexists _, _, _]. destruct (Hflt f eq_refl) as ([u ?] & [s ?] & [p ?] & _). by exists u, s, p. }
  destruct O as (u & s & p & Eu & Es & Ep). exists all. rewrite <- Ewords.
  unfold ndb_text_search_with. rewrite Eu, Es, Ep, Ew. cbn [mbind option_bind].
  destruct (Z.eqb_spec (zlen words) 0) as [Z0 | Z0].
  { assert (Hw : words = []) by (destruct words; [reflexivity | zl]). exists false, [].
    do 2 (split; [done |]). split; [split; [intros _; left; by apply Hempty | done] | apply no_results]. }
  destruct (mdb_cursor_open (txn NDB_DB_NOTE_TEXT)) as [c |] eqn:Eo.
  2: { exists false, []. do 2 (split; [done |]). split; [split; [by right | done] | apply no_results]. }
  destruct (cursor_open_spec _ _ Eo) as [Hc _].
  destruct (sort_words_ok words) as (sorted & -> & Hp). cbn [mbind option_bind].
  destruct sorted as [| root rest].
  { apply Permutation_nil in Hp. by rewrite Hp in Z0. }
  assert (Fs : Forall fits (root :: rest)).
  { rewrite Hp. revert Fw. apply Forall_impl. unfold fits. intros w [_ Hw]. lia. }
  apply Forall_cons_iff in Fs as [Hr Hrest]. set (limit := Z.min _ _).
  assert (Hl : limit <= cfg_limit cfg) by apply Z.le_min_r.
  destruct (search_loop_spec custom_cb txn buffer es flt (cfg_ascending cfg) limit
    (if cfg_ascending cfg then s else u) root rest Hb T Nd Hr Hrest) with (fuel := fuel) (c := c)
    as (rs & roots & -> & Hff); [unfold MAX_TEXT_SEARCH_RESULTS in *; lia | done ..|].
  cbn [mbind option_bind]. exists true, rs. do 2 (split; [done |]). split.
  - split; [done |]. intros [E | ?]; [| done]. rewrite (proj1 Hempty E) in Hp. by apply Permutation_nil_r in Hp.
  - apply (found_sound custom_cb txn es flt cfg limit words root rest rs roots Hp); [| done ..].
    revert Fw. apply Forall_impl. by intros w [? _].
Qed.

(** ** Where a search goes wrong *)

Lemma andM_false {S} (w1 : M S bool) s s' w2 : w1 s = Some (false, s') -> (w1 &&* w2) s = Some (false, s').
Proof. intros E. unfold andM. by rewrite (run_bind _ _ _ _ _ E). Qed.

Lemma long_key_fails wi w ts nid buffer : zlen buffer = 1024 -> 1024 <= zlen w ->
  exists m, with_cursor 0 1024 (ndb_make_text_search_key wi w ts nid) buffer = Some (None, m).
Proof.
  intros Hb Hw.
  assert (W0 : cwf (buffer, make_cursor 0 1024)) by (unfold cwf; cbn; lia).
  unfold with_cursor, ndb_make_text_search_key.
  assert (E : exists s, (push_varint_ok (i32 nid) &&* push_varint_ok (zlen w) &&* cursor_push_lowercase w)
                          (buffer, make_cursor 0 1024) = Some (false, s)).
  { destruct (safe_run (w := push_varint_ok (i32 nid) &&* push_varint_ok (zlen w)) _ W0) as (b & [m c] & E & F).
    unfold andM at 1. rewrite (run_bind _ _ _ _ _ E). destruct b; [| by eexists].
    exists (m, c). unfold cursor_push_lowercase. rewrite bind_cur.
    destruct F as (_ & F1 & F2 & _). cbn in F1, F2. by destruct (Z.leb_spec (c_end c) (c_p c + zlen w)); [| lia]. }
  destruct E as (s & E). eapply andM_false, andM_false, andM_false in E.
  rewrite (run_bind _ _ _ _ _ E). destruct s as [m c]. exists m. reflexivity.
Qed.

(** A query whose longest word has 1024 bytes or more is searched forever: no
    key fits the buffer, and the loop starts its round again with nothing changed. *)
Theorem long_word_hangs {D C} `{!Lmdb D C} (custom_cb : list Z -> mem -> Z -> bool) (txn : ndb_txn D) (buffer : mem)
    (query root : list Z) (words rest : list (list Z)) (c : C) (fuel : nat)
    (Hb : zlen buffer = 1024) (Eo : mdb_cursor_open (txn NDB_DB_NOTE_TEXT) = Some c)
    (Ew : search_words query = Some words) (Es : sort_largest_to_smallest words = Some (root :: rest))
    (Hl : 1024 <= zlen root) :
  ndb_text_search custom_cb txn buffer fuel query None = Some None.
Proof.
  unfold ndb_text_search, ndb_text_search_with. cbn [mbind option_bind]. rewrite Ew. cbn [mbind option_bind].
  destruct (Z.eqb_spec (zlen words) 0) as [Z0 | _].
  { assert (words = []) as -> by (destruct words; [done | zl]). done. }
  rewrite Eo, Es. cbn [mbind option_bind].
  assert (E : search_loop custom_cb txn buffer fuel c false None MAX_TEXT_SEARCH_RESULTS UINT64_MAX None 0 [] root rest
    = Some None); [| by rewrite E].
  induction fuel as [| fuel IH]; [done |]. cbn [search_loop].
  change (zlen (@nil text_result) <? MAX_TEXT_SEARCH_RESULTS) with true. cbn iota.
  destruct (long_key_fails 0 root UINT64_MAX INT32_MAX buffer Hb Hl) as (m & E).
  unfold ndb_make_text_search_key_high. rewrite E. cbn [mbind option_bind fst snd]. exact IH.
Qed.

(** A note of two words "hello hello". *)
Definition demo_text : list text_key :=
  [ text_key_of 0 [104; 101; 108; 108; 111] 10 5; text_key_of 1 [104; 101; 108; 108; 111] 10 5;
    text_key_of 0 [119; 111; 114; 108; 100] 20 6 ].

Definition demo_text_txn : ndb_txn list_db := fun db =>
  mk_list_db (fst (dbi_config db)) (snd (dbi_config db))
    match db with NDB_DB_NOTE_TEXT => map (fun k => (text_key_bytes k, [])) demo_text | _ => [] end.

Lemma demo_text_table : text_table (C := list_db * option nat) (demo_text_txn NDB_DB_NOTE_TEXT) demo_text.
Proof.
  split; [done | done | |].
  - apply Forall_map. unfold demo_text. repeat (constructor; [apply text_key_of_wf; reflexivity |]). constructor.
  - repeat constructor; vm_compute; discriminate.
Qed.

Lemma search_sound_witness :
  exists words ok rs, splits [119; 111; 114; 108; 100; 32; 104; 105] 0 8 0 words /\
    ndb_text_search_with (C := list_db * option nat) no_custom demo_text_txn (replicate 1024 0) 4
      [119; 111; 114; 108; 100; 32; 104; 105] (Some ndb_default_text_search_config) None = Some (Some (ok, rs)) /\
    (ok = false <-> words = [] \/ mdb_cursor_open (C := list_db * option nat) (demo_text_txn NDB_DB_NOTE_TEXT) = None) /\
    sound_results (C := list_db * option nat) no_custom demo_text_txn demo_text None ndb_default_text_search_config
      (take 8 words) rs.
Proof.
  apply (search_sound (C := list_db * option nat)); [done | exact demo_text_table | | vm_compute; discriminate |
    done | simpl; lia | done].
  apply (NoDup_fmap_1 text_key_bytes), (bool_decide_unpack _). vm_compute. done.
Defined.

Lemma long_word_hangs_witness :
  ndb_text_search (C := list_db * option nat) no_custom demo_text_txn (replicate 1024 0) 10 (replicate 1100 97) None
    = Some None.
Proof.
  apply (long_word_hangs (C := list_db * option nat) no_custom demo_text_txn (replicate 1024 0) (replicate 1100 97)
    (replicate 1100 97) [replicate 1100 97] [] (demo_text_txn NDB_DB_NOTE_TEXT, None) 10);
    [reflexivity | reflexivity | vm_compute; reflexivity | vm_compute; reflexivity | vm_compute; discriminate].
Defined.

(** A query of one word returns a note once for every key that matches: the
    check against the results so far is only made for the other words. *)
Theorem one_word_search_duplicates :
  exists r1 r2, ndb_text_search (C := list_db * option nat) no_custom demo_text_txn (replicate 1024 0) 4
      [104; 101; 108; 108; 111] None = Some (Some (true, [r1; r2])) /\ tr_note_id r1 = tr_note_id r2.
Proof. eexists _, _. split; [vm_compute; reflexivity | done]. Qed.
