(* ===== verification/Write.v ===== *)
(** * Writing notes (src/src/nostrdb.c: the index writers to ndb_write_note)

    A note is stored under the next key of the note table and added to the
    indexes by id, kind, tag, author, author and kind and, for the relay it came
    from, to the relay tables.  A note that is there already only gains a relay,
    or is overwritten in place when a rumor replaces a plain note.

    Every writer is a computation over the transaction.  [None] is undefined
    behaviour; a failed LMDB write is a false flag.  The content blocks and the
    counters of other notes are arguments of [ndb_write_note].  The theorems show
    that the tables stay exactly what the stored notes say they should hold,
    that a stored note is found again, and where writing departs from that. *)

From stdpp Require Import sorting.
From S2P Require Import Store.
From S2P Require Export Search.
Open Scope Z_scope.
Open Scope ndb_scope.

(** A note on its way to the database: its block of memory, the relay it came
    from, and the key to overwrite or 0. *)
Record ndb_writer_note := mk_writer_note {
  wn_note : mem; wn_relay : option (list Z); wn_overwrite : Z }.

Definition NDB_FLAG_NO_FULLTEXT : Z := Z.shiftl 1 2.
Definition NDB_FLAG_NO_NOTE_BLOCKS : Z := Z.shiftl 1 3.
Definition NDB_FLAG_NO_STATS : Z := Z.shiftl 1 4.
Definition ndb_flag_set (flags flag : Z) : bool := Z.land flags flag =? flag.

Section writers.
Context {D C : Type} `{!Lmdb D C} `{!LmdbPut D C}.
(** The uninitialised bytes of the buffers of the keys. *)
Context (buffer relay_buf tag_buf : mem).

(** ** The relays of a note *)

(** [relay_len] is a byte. *)
Definition ndb_write_note_relay (note_key : Z) (relay : option (list Z)) (relay_len : Z) : M (ndb_txn D) bool :=
  fun txn =>
    match relay with
    | None => Some (false, txn)
    | Some relay =>
        if relay_len =? 0 then Some (false, txn)
        else
          r ← with_cursor 0 256 (prepare_relay_buf (take (Z.to_nat relay_len) relay)) relay_buf;
          match fst r with
          | None => Some (false, txn)
          | Some len =>
              if len =? 0 then Some (false, txn)
              else if len mod 8 =? 0 then
                v ← loadn (snd r) 0 len; txn_put NDB_DB_NOTE_RELAYS (le_bytes 8 note_key) v true txn
              else None
          end
    end.

Definition ndb_write_note_relay_kind_index (key : ndb_relay_kind_key) : M (ndb_txn D) bool :=
  fun txn =>
    if (248 <? rk_relay_len key) || (rk_relay_len key =? 0) then Some (false, txn)
    else
      r ← with_cursor 0 256 (ndb_build_relay_kind_key key) relay_buf;
      match fst r with
      | None => Some (false, txn)
      | Some len =>
          if len =? 0 then Some (false, txn)
          else k ← loadn (snd r) 0 len; txn_put NDB_DB_NOTE_RELAY_KIND k [] false txn
      end.

Definition ndb_write_note_relay_indexes (key : ndb_relay_kind_key) : M (ndb_txn D) bool :=
  do* ndb_write_note_relay_kind_index key in
  do* ndb_write_note_relay (rk_note_key key) (Some (rk_relay key)) (rk_relay_len key) in
  ret true.

(** ** The indexes of a note *)

Definition ndb_write_note_id_index (nm : mem) (note note_key : Z) : M (ndb_txn D) bool :=
  fun txn =>
    id ← loadn nm (ndb_note_id note) 32;
    created_at ← load_u64 nm (note + off.created_at);
    txn_put NDB_DB_NOTE_ID (ndb_tsid_init id created_at) (le_bytes 8 note_key) false txn.

Definition ndb_write_note_kind_index (nm : mem) (note note_key : Z) : M (ndb_txn D) bool :=
  fun txn =>
    kind ← load_u32 nm (note + off.kind);
    created_at ← load_u64 nm (note + off.created_at);
    txn_put NDB_DB_NOTE_KIND (ndb_u64_ts_init kind created_at) (le_bytes 8 note_key) false txn.

(** The accessor of the time has a 32-bit result. *)
Definition ndb_write_note_pubkey_index (nm : mem) (note note_key : Z) : M (ndb_txn D) bool :=
  fun txn =>
    pk ← loadn nm (ndb_note_pubkey note) 32;
    created_at ← ndb_note_created_at nm note;
    txn_put NDB_DB_NOTE_PUBKEY (ndb_tsid_init pk created_at) (le_bytes 8 note_key) false txn.

Definition ndb_write_note_pubkey_kind_index (nm : mem) (note note_key : Z) : M (ndb_txn D) bool :=
  fun txn =>
    pk ← loadn nm (ndb_note_pubkey note) 32;
    kind ← ndb_note_kind nm note;
    created_at ← ndb_note_created_at nm note;
    txn_put NDB_DB_NOTE_PUBKEY_KIND (ndb_id_u64_ts_init pk kind created_at) (le_bytes 8 note_key) false txn.

(** The key of one tag, if it has one: a first string of one character, a value
    whose length is taken as a byte. *)
Definition tag_index_key (nm : mem) (note tag : Z) : option (option (list Z)) :=
  count ← ndb_tag_count nm tag;
  if count <? 2 then Some None
  else
    tkey ← ndb_tag_str nm note tag 0;
    tchar ← load8 nm (str tkey);
    if tchar =? 0 then Some None
    else
      c1 ← load8 nm (str tkey + 1);
      if negb (c1 =? 0) then Some None
      else
        tval ← ndb_tag_str nm note tag 1;
        len ← ndb_str_len nm tval;
        val ← loadn nm (str tval) (u8 len);
        created_at ← ndb_note_created_at nm note;
        r ← with_cursor 0 255 (ndb_encode_tag_key 255 tchar val created_at) tag_buf;
        match fst r with
        | None => Some None
        | Some len => if len =? 0 then Some None else k ← loadn (snd r) 0 len; Some (Some k)
        end.

(** [count] bounds the rounds of the iterator. *)
Fixpoint tag_index_loop (fuel : nat) (nm : mem) (it : ndb_iterator) (note_key : Z) : M (ndb_txn D) bool :=
  fun txn =>
    match fuel with
    | O => Some (true, txn)
    | S fuel =>
        r ← ndb_tags_iterate_next nm it;
        if (fst r : bool) then
          tag ← iter_tag (snd r);
          k ← tag_index_key nm (iter_note it) tag;
          match k with
          | None => tag_index_loop fuel nm (snd r) note_key txn
          | Some k =>
              w ← txn_put NDB_DB_NOTE_TAGS k (le_bytes 8 note_key) false txn;
              if (fst w : bool) then tag_index_loop fuel nm (snd r) note_key (snd w) else Some (false, snd w)
          end
        else Some (true, txn)
    end.

Definition ndb_write_note_tag_index (nm : mem) (note note_key : Z) : M (ndb_txn D) bool :=
  fun txn =>
    count ← ndb_tags_count nm (ndb_note_tags note);
    tag_index_loop (S (Z.to_nat count)) nm (ndb_tags_iterate_start note) note_key txn.

(** ** Writing a note *)

(** 0 for an empty table, or one that cannot be read. *)
Definition ndb_get_last_key (txn : ndb_txn D) (db : ndb_dbs) : option Z :=
  match mdb_cursor_open (txn db) with
  | None => Some 0
  | Some c =>
      match mdb_cursor_get c MDB_LAST with
      | None => Some 0
      | Some (_, it) => if zlen (fst it) =? 8 then u64_at (fst it) 0 else None
      end
  end.

(** The messages it tries to push on the inbox of the writer, and its result. *)
Definition handle_reprocessed_giftwrap (txn : ndb_txn D) (nm : mem) (rumor : Z) (relay : option (list Z)) :
    option (bool * list ndb_writer_note) :=
  wrap ← ndb_note_rumor_giftwrap_id nm rumor;
  wrap ← wrap;
  id ← loadn nm wrap 32;
  match ndb_get_note_by_id txn id with
  | None => Some (false, [])
  | Some (giftwrap, note_key) =>
      flags ← load_u16 giftwrap (ndb_note_flags 0);
      if negb (Z.land flags NDB_NOTE_FLAG_UNWRAPPED =? 0) then Some (true, [])
      else
        data ← storen giftwrap (ndb_note_flags 0) (le_bytes 2 (Z.lor flags NDB_NOTE_FLAG_UNWRAPPED));
        Some (true, [mk_writer_note data relay note_key])
  end.

(** Content blocks, and the counters kept in the metadata of other notes. *)
Context (ndb_write_new_blocks : mem -> Z -> Z -> M (ndb_txn D) bool).
Context (ndb_process_note_stats ndb_write_reaction_stats ndb_process_repost_stats
         ndb_write_unverified_zap_stats : mem -> Z -> M (ndb_txn D) unit).

(** What depends on the kind of the note: false ends the write with 0. *)
Definition write_by_kind (ndb_flags : Z) (nm : mem) (note_key kind : Z) : M (ndb_txn D) bool :=
  if (kind =? 1) || (kind =? 30023) then
    let* ok := (if negb (ndb_flag_set ndb_flags NDB_FLAG_NO_FULLTEXT)
                then ndb_write_note_fulltext_index buffer nm 0 note_key else ret true) in
    if negb ok then ret false
    else
      do* (if negb (ndb_flag_set ndb_flags NDB_FLAG_NO_NOTE_BLOCKS)
           then ndb_write_new_blocks nm 0 note_key else ret true) in
      do* ndb_process_note_stats nm 0 in ret true
  else if (kind =? 7) && negb (ndb_flag_set ndb_flags NDB_FLAG_NO_STATS) then
    do* ndb_write_reaction_stats nm 0 in ret true
  else if (kind =? 6) || (kind =? 16) then do* ndb_process_repost_stats nm 0 in ret true
  else if (kind =? 9735) && negb (ndb_flag_set ndb_flags NDB_FLAG_NO_STATS) then
    do* ndb_write_unverified_zap_stats nm 0 in ret true
  else ret true.

(** The relay tables gain the relay of the note, if it has one. *)
Definition write_relay (nm : mem) (note_key kind : Z) (relay : option (list Z)) : M (ndb_txn D) bool :=
  fun txn =>
    created_at ← ndb_note_created_at nm 0;
    match ndb_relay_kind_key_init note_key kind created_at relay with
    | Some key => ndb_write_note_relay_indexes key txn
    | None => Some (false, txn)
    end.

(** A promoted note is written but its key is not reported. *)
Definition store_note (ndb_flags : Z) (nm : mem) (kind : Z) (relay : option (list Z)) (overwrite : Z)
    (promoted : bool) : M (ndb_txn D) Z :=
  let* txn := get in
  let* note_key := lift (if negb (overwrite =? 0) then Some overwrite
                         else last ← ndb_get_last_key txn NDB_DB_NOTE; Some (u64 (last + 1))) in
  let* ok := txn_put NDB_DB_NOTE (le_bytes 8 note_key) nm false in
  if negb ok then ret 0
  else
    do* ndb_write_note_id_index nm 0 note_key in
    do* ndb_write_note_kind_index nm 0 note_key in
    do* ndb_write_note_tag_index nm 0 note_key in
    do* ndb_write_note_pubkey_index nm 0 note_key in
    do* ndb_write_note_pubkey_kind_index nm 0 note_key in
    do* write_relay nm note_key kind relay in
    let* ok := write_by_kind ndb_flags nm note_key kind in
    if negb ok then ret 0 else ret (if promoted then 0 else note_key).

(** The key of the note written or 0, and the messages for the writer.
    [inbox] tells whether there is a writer to send messages to. *)
Definition ndb_write_note (ndb_flags : Z) (inbox : bool) (note : ndb_writer_note) :
    M (ndb_txn D) (Z * list ndb_writer_note) :=
  let nm := wn_note note in
  let* txn := get in
  let* kind := lift (load_u32 nm off.kind) in
  let* existing := lift (if wn_overwrite note =? 0 then id ← loadn nm (ndb_note_id 0) 32;
                                                       ndb_get_notekey_by_id txn id
                         else Some 0) in
  let* rumor := lift (ndb_note_is_rumor nm 0) in
  let* promote := lift (if negb (existing =? 0) && rumor then
                          match ndb_get_note_by_key txn existing with
                          | Some old => r ← ndb_note_is_rumor old 0; Some (negb r)
                          | None => Some false
                          end
                        else Some false) in
  if negb (existing =? 0) && negb promote then
    do* write_relay nm existing kind (wn_relay note) in ret (0, [])
  else
    let* msgs := lift (if rumor && inbox then snd <$> handle_reprocessed_giftwrap txn nm 0 (wn_relay note)
                       else Some []) in
    let* key := store_note ndb_flags nm kind (wn_relay note)
                  (if negb (existing =? 0) then existing else wn_overwrite note) (negb (existing =? 0)) in
    ret (key, msgs).

(** ** Rebuilding indexes *)

(** The numbers of the enumeration [ndb_dbs]. *)
Definition ndb_dbs_num (db : ndb_dbs) : Z :=
  match db with
  | NDB_DB_NOTE => 0 | NDB_DB_META => 1 | NDB_DB_PROFILE => 2 | NDB_DB_NOTE_ID => 3
  | NDB_DB_PROFILE_PK => 4 | NDB_DB_NDB_META => 5 | NDB_DB_PROFILE_SEARCH => 6
  | NDB_DB_PROFILE_LAST_FETCH => 7 | NDB_DB_NOTE_KIND => 8 | NDB_DB_NOTE_TEXT => 9
  | NDB_DB_NOTE_BLOCKS => 10 | NDB_DB_NOTE_TAGS => 11 | NDB_DB_NOTE_PUBKEY => 12
  | NDB_DB_NOTE_PUBKEY_KIND => 13 | NDB_DB_NOTE_RELAY_KIND => 14 | NDB_DB_NOTE_RELAYS => 15
  end.

(** The tables in the order ndb_init_lmdb opens them; LMDB numbers the handles
    from CORE_DBS = 2. *)
Definition opened : list ndb_dbs :=
  [ NDB_DB_NOTE; NDB_DB_META; NDB_DB_PROFILE; NDB_DB_PROFILE_SEARCH; NDB_DB_NDB_META;
    NDB_DB_PROFILE_LAST_FETCH; NDB_DB_NOTE_RELAY_KIND; NDB_DB_NOTE_RELAYS; NDB_DB_NOTE_ID;
    NDB_DB_PROFILE_PK; NDB_DB_NOTE_KIND; NDB_DB_NOTE_PUBKEY; NDB_DB_NOTE_PUBKEY_KIND;
    NDB_DB_NOTE_TEXT; NDB_DB_NOTE_BLOCKS; NDB_DB_NOTE_TAGS ].

Definition handle_db (dbi : Z) : option ndb_dbs :=
  if dbi <? 2 then None else opened !! Z.to_nat (dbi - 2).

Definition ndb_db_is_index (db : ndb_dbs) : bool :=
  match db with
  | NDB_DB_NOTE | NDB_DB_META | NDB_DB_PROFILE | NDB_DB_NOTE_ID | NDB_DB_NDB_META
  | NDB_DB_PROFILE_SEARCH | NDB_DB_PROFILE_LAST_FETCH | NDB_DB_NOTE_RELAYS => false
  | _ => true
  end.

(** The handle passed to LMDB is the number of the enumeration. *)
Fixpoint drop_loop (indices : list ndb_dbs) : M (ndb_txn D) bool :=
  fun txn =>
    match indices with
    | [] => Some (true, txn)
    | index :: indices =>
        match handle_db (ndb_dbs_num index) with
        | None => Some (false, txn)
        | Some db =>
            match mdb_drop (txn db) with
            | None => Some (false, txn)
            | Some d => drop_loop indices (upd txn db d)
            end
        end
    end.

(** One note into the indexes: the result to return with, if any. *)
Fixpoint rebuild_note (indices : list ndb_dbs) (nm : mem) (note_key : Z) : M (ndb_txn D) (option Z) :=
  match indices with
  | [] => ret None
  | index :: indices =>
      match index with
      | NDB_DB_NOTE_PUBKEY =>
          let* ok := ndb_write_note_pubkey_index nm 0 note_key in
          if ok : bool then rebuild_note indices nm note_key else ret (Some (-1))
      | NDB_DB_NOTE_PUBKEY_KIND =>
          let* ok := ndb_write_note_pubkey_kind_index nm 0 note_key in
          if ok : bool then rebuild_note indices nm note_key else ret (Some (-1))
      | NDB_DB_NOTE_RELAY_KIND => ret (Some 0)
      | _ => ret (Some (-1))
      end
  end.

(** The cursor steps through the note table, which the loop does not write;
    the number of notes bounds the rounds. *)
Fixpoint rebuild_loop (fuel : nat) (indices : list ndb_dbs) (c : C) (count : Z) : M (ndb_txn D) Z :=
  fun txn =>
    match fuel with
    | O => None
    | S fuel =>
        match mdb_cursor_get c MDB_NEXT with
        | None => Some (count, txn)
        | Some (c, it) =>
            note_key ← u64_at (fst it) 0;
            r ← rebuild_note indices (snd it) note_key txn;
            match fst r with
            | Some res => Some (res, snd r)
            | None => rebuild_loop fuel indices c (count + 1) (snd r)
            end
        end
    end.

Definition ndb_rebuild_note_indices (indices : list ndb_dbs) : M (ndb_txn D) Z :=
  if negb (forallb ndb_db_is_index indices) then ret (-1)
  else
    let* ok := drop_loop indices in
    if negb ok then ret (-1)
    else
      let* txn := get in
      match mdb_cursor_open (txn NDB_DB_NOTE) with
      | None => ret (-1)
      | Some c => rebuild_loop (S (length (db_items (txn NDB_DB_NOTE)))) indices c 0
      end.

(** The migration to the indexes by author. *)
Definition ndb_migrate_profile_indices : M (ndb_txn D) bool :=
  let* count := ndb_rebuild_note_indices [NDB_DB_NOTE_PUBKEY; NDB_DB_NOTE_PUBKEY_KIND] in
  ret (negb (count =? -1)).
End writers.

(** * Lemmas *)

(** ** The note table *)

Record note_table {D C} `{!Lmdb D C} `{!LmdbPut D C} (d : D) (ns : list (Z * mem)) : Prop := {
  nt_cmp : db_cmp d = int_cmp;
  nt_dup : db_dup d = None;
  nt_items : db_items d = map (fun p => (le_bytes 8 (fst p), snd p)) ns;
  nt_wf : Forall (fun p => is_u64 (fst p)) ns;
  nt_sorted : StronglySorted (fun p q => fst p < fst q) ns
}.

Section notes.
Context {D C : Type} `{!Lmdb D C} `{!LmdbPut D C}.

Lemma nt_key_wf (d : D) ns p : note_table d ns -> p ∈ ns -> is_u64 (fst p).
Proof. intros T Hp. exact (proj1 (List.Forall_forall _ _) (nt_wf _ _ T) p (proj1 (list_elem_of_In _ _) Hp)). Qed.

Lemma nt_key_unique (d : D) ns k n n' : note_table d ns -> (k, n) ∈ ns -> (k, n') ∈ ns -> n = n'.
Proof.
  intros T. pose proof (nt_sorted _ _ T) as S. clear T. induction S as [| p ns S IH F]; intros H1 H2.
  { by apply elem_of_nil in H1. }
  rewrite List.Forall_forall in F.
  apply elem_of_cons in H1 as [<- | H1]; apply elem_of_cons in H2 as [E2 | H2].
  - by simplify_eq.
  - apply list_elem_of_In, F in H2. simpl in H2. lia.
  - subst p. apply list_elem_of_In, F in H1. simpl in H1. lia.
  - by apply IH.
Qed.

(** A note is found under its key. *)
Lemma nt_get (d : D) ns k n : note_table d ns -> is_u64 k -> mdb_get d (le_bytes 8 k) = Some n <-> (k, n) ∈ ns.
Proof.
  intros T Wk. rewrite mdb_get_spec, (nt_items _ _ T), (nt_cmp _ _ T).
  assert (Ek : forall p, p ∈ ns -> int_cmp (le_bytes 8 (fst p)) (le_bytes 8 k) = Some 0 <-> fst p = k).
  { intros p Hp. rewrite int_cmp_bytes by (done || by apply (nt_key_wf d ns)).
    split; [| intros ->; by rewrite Z.compare_refl]. intros [= E]. apply Z.compare_eq. by destruct (_ ?= _). }
  destruct (list_find _ _) as [[i it] |] eqn:El.
  - apply list_find_Some in El as (E1 & E2 & _). rewrite list_lookup_fmap in E1.
    destruct (ns !! i) as [p |] eqn:Ep; [| done]. injection E1 as <-. cbn [fst] in E2.
    assert (Hp : p ∈ ns) by (apply list_elem_of_lookup; eauto). apply (Ek p Hp) in E2 as <-.
    cbn [fmap option_fmap option_map compose snd]. split; [intros [= <-]; by destruct p |].
    intros H. f_equal. by apply (nt_key_unique d ns (fst p)); [| destruct p |].
  - apply list_find_None in El. split; [done |]. intros H. exfalso.
    rewrite List.Forall_forall in El. apply (El (le_bytes 8 k, n)).
    + apply list_elem_of_In, list_elem_of_fmap. by exists (k, n).
    + cbn [fst]. by apply (Ek (k, n) H).
Qed.

Lemma last_pos_snoc (l : list item) x : last_pos (l ++ [x]) = Some (length l).
Proof. unfold last_pos. rewrite length_app. simpl. destruct l; simpl; f_equal; lia. Qed.

Definition last_key (ns : list (Z * mem)) : Z := match list.last ns with Some p => fst p | None => 0 end.

Lemma last_key_spec (txn : ndb_txn D) ns : note_table (txn NDB_DB_NOTE) ns ->
  is_Some (mdb_cursor_open (txn NDB_DB_NOTE)) -> ndb_get_last_key txn NDB_DB_NOTE = Some (last_key ns).
Proof.
  intros T [c Ho]. unfold ndb_get_last_key. rewrite Ho. destruct (cursor_open_spec _ _ Ho) as [Dc _].
  pose proof (cursor_get_spec c MDB_LAST) as S. rewrite Dc, (nt_items _ _ T) in S. cbn [mdb_goto] in S.
  destruct ns as [| p ns _] using rev_ind; [by rewrite S |].
  rewrite map_app in S. cbn [map] in S. rewrite last_pos_snoc, lookup_app_r, Nat.sub_diag in S by lia.
  cbn in S. destruct S as (c' & -> & _). cbn [fst snd]. change (zlen (le_bytes 8 (fst p)) =? 8) with true. cbn iota.
  unfold last_key. rewrite last_snoc.
  rewrite (u64_at_mid (le_bytes 8 (fst p)) [] (fst p) [] 0); [done | by rewrite app_nil_r | done |].
  apply (nt_key_wf _ _ p T), elem_of_app. right. by apply list_elem_of_singleton.
Qed.

Lemma last_key_max (d : D) ns : note_table d ns -> is_u64 (last_key ns) /\ Forall (fun p => fst p <= last_key ns) ns.
Proof.
  intros T. pose proof (nt_wf _ _ T) as W. pose proof (nt_sorted _ _ T) as S. clear T. unfold last_key.
  destruct ns as [| p ns _] using rev_ind; [split; [done | constructor] |].
  rewrite last_snoc. apply Forall_app in W as [_ W].
  split; [by apply Forall_cons_iff in W as [W _] |]. apply Forall_app. split; [| by repeat constructor].
  apply StronglySorted_app in S as (S & _). apply List.Forall_forall. intros q Hq%list_elem_of_In.
  specialize (S q p Hq). cbn in S. apply Z.lt_le_incl, S. by apply list_elem_of_singleton.
Qed.

(** Storing a note under a new last key. *)
Lemma nt_append (Po : puts_ok D) (txn : ndb_txn D) ns k n : note_table (txn NDB_DB_NOTE) ns ->
  is_u64 k -> last_key ns < k -> zlen n <= MAXDATASIZE ->
  exists d', txn_put NDB_DB_NOTE (le_bytes 8 k) n false txn = Some (true, upd txn NDB_DB_NOTE d') /\
    mdb_put (txn NDB_DB_NOTE) (le_bytes 8 k) n false = Some d' /\ note_table d' (ns ++ [(k, n)]).
Proof.
  intros T Wk Hk Hn. set (d := txn NDB_DB_NOTE) in *. destruct (last_key_max d ns T) as [_ F].
  assert (E : put_items (db_cmp d) (db_dup d) (le_bytes 8 k, n) (db_items d) =
              Some (map (fun p => (le_bytes 8 (fst p), snd p)) (ns ++ [(k, n)]))).
  { rewrite (nt_items _ _ T), (nt_cmp _ _ T), (nt_dup _ _ T). pose proof (nt_wf _ _ T) as W. clear T.
    induction ns as [| p ns IH]; [done |]. cbn [map put_items app]. unfold item_cmp at 1. cbn [fst snd].
    apply Forall_cons_iff in W as [Wp W]. 
    assert (Hp : forall q, q ∈ p :: ns -> fst q < k).
    { intros q Hq. apply list_elem_of_In, (proj1 (List.Forall_forall _ _) F) in Hq. lia. }
    rewrite int_cmp_bytes by done. cbn [mbind option_bind].
    specialize (Hp p ltac:(apply elem_of_cons; by left)) as Hp1.
    rewrite (proj2 (Z.compare_gt_iff k (fst p)) Hp1). cbn [sgn Z.eqb Z.ltb Z.compare mbind option_bind].
    assert (IH' : put_items int_cmp None (le_bytes 8 k, n) (map (fun p => (le_bytes 8 (fst p), snd p)) ns) =
      Some (map (fun p => (le_bytes 8 (fst p), snd p)) (ns ++ [(k, n)]))); [| by rewrite IH'].
    destruct ns as [| q ns]; [done |]. apply IH; [exact Hk | by apply Forall_cons_iff in F as [_ F] | done]. }
  destruct (Po d (le_bytes 8 k) n) as [d' Ep]; [rewrite (nt_dup _ _ T); by apply sizes_ok_none | rewrite E; eauto |]. exists d'.
  split; [unfold txn_put; fold d; by rewrite Ep |]. split; [done |].
  destruct (mdb_put_spec _ _ _ _ _ Ep) as (E1 & E2 & E3 & _). rewrite E in E3. injection E3 as E3.
  split.
  - rewrite E1. apply (nt_cmp _ _ T).
  - rewrite E2. apply (nt_dup _ _ T).
  - done.
  - apply Forall_app. split; [apply (nt_wf _ _ T) | by apply Forall_singleton].
  - apply StronglySorted_app. split; [| split]; [| apply (nt_sorted _ _ T) | repeat constructor].
    intros x y Hx Hy. apply list_elem_of_singleton in Hy as ->. cbn [fst].
    apply list_elem_of_In, (proj1 (List.Forall_forall _ _) F) in Hx. lia.
Qed.
End notes.

(** ** What the indexes hold for a note *)

Definition id_entry (key : Z) (f : fnote) : tsid * list Z := (mk_tsid (n_id f) (n_created_at f), le_bytes 8 key).
Definition kind_entry (key : Z) (f : fnote) : u64_ts * Z := (mk_u64_ts (n_kind f) (n_created_at f), key).
Definition pubkey_entry (key : Z) (f : fnote) : tsid * Z := (mk_tsid (n_pubkey f) (u32 (n_created_at f)), key).
Definition pubkey_kind_entry (key : Z) (f : fnote) : id_u64_ts * Z :=
  (mk_id_u64_ts (n_pubkey f) (n_kind f) (u32 (n_created_at f)), key).

(** The letter of a tag: a first string of one character.  An id that starts
    with a byte and a zero passes for one. *)
Definition tag_letter (e : elem) : option Z :=
  match e with
  | EStr [c] => Some c
  | EId (c :: c1 :: _) => if negb (c =? 0) && (c1 =? 0) then Some c else None
  | _ => None
  end.

(** The value as it is indexed: its length modulo 256. *)
Definition indexed_value (e : elem) : list Z :=
  match e with EId id => id | EStr s => take (Z.to_nat (u8 (zlen s))) s end.

(** The key of a tag; one that does not fit 255 bytes is left out. *)
Definition tag_key_of (ts : Z) (t : list (Z * elem)) : option tag_key :=
  match t with
  | (_, e0) :: (_, e1) :: _ =>
      c ← tag_letter e0;
      if zlen (indexed_value e1) <=? 246 then Some (mk_tag_key c (indexed_value e1) ts) else None
  | _ => None
  end.

Definition tag_entries (key : Z) (f : fnote) : list (tag_key * list Z) :=
  map (fun k => (k, le_bytes 8 key)) (omap (tag_key_of (u32 (n_created_at f))) (n_tags f)).

(** ** The key of a tag *)

Lemma encode_tag_key_spec tag_buf c val ts : zlen tag_buf = 255 ->
  exists m, if zlen val <=? 246
    then with_cursor 0 255 (ndb_encode_tag_key 255 c val ts) tag_buf = Some (Some (9 + zlen val), m) /\
         loadn m 0 (9 + zlen val) = Some (Keys.key_bytes (mk_tag_key c val ts))
    else with_cursor 0 255 (ndb_encode_tag_key 255 c val ts) tag_buf = Some (None, m).
Proof.
  intros Hb. pose proof (zlen_nonneg val) as Hn. unfold with_cursor, ndb_encode_tag_key.
  destruct (Z.leb_spec 255 (zlen val)).
  { exists tag_buf. by destruct (Z.leb_spec (zlen val) 246); [lia |]. }
  set (w := _ &&* _). assert (Ew : Emits w (([c] ++ val) ++ le_bytes 8 ts)
    (Z.max (Z.max 1 (zlen [c] + zlen val)) (zlen ([c] ++ val) + zlen (le_bytes 8 ts)))) by apply _.
  assert (W : cwf (tag_buf, make_cursor 0 255)) by (unfold cwf; cbn; lia).
  rewrite zlen_app, zlen_le_bytes in Ew. change (zlen [c]) with 1 in Ew. destruct Ew as [_ Ok Fl].
  destruct (Z.leb_spec (zlen val) 246).
  - destruct (Ok _ W) as ([m c'] & E & Sm & Sc); [cbn; lia |]. cbn [fst snd] in Sm, Sc. exists m.
    rewrite (run_bind _ _ _ _ _ E). subst c'.
    assert (Lz : zlen (([c] ++ val) ++ le_bytes 8 ts) = 9 + zlen val).
    { rewrite !zlen_app, zlen_le_bytes. change (zlen [c]) with 1. lia. }
    rewrite Lz. split.
    { transitivity (Some (Some (0 + (9 + zlen val) - 0), m)); [reflexivity |]. do 3 f_equal. lia. }

    apply loadn_storen_same in Sm. rewrite Lz in Sm. exact Sm.
  - destruct (Fl _ W) as ([m c'] & E & _); [cbn; lia |]. exists m. by rewrite (run_bind _ _ _ _ _ E).
Qed.

(** The code reads the letter of a tag from the first string. *)
Lemma tag_letter_spec m s e : bytes_ok m -> elem_of_str m s = Some e ->
  exists c0, load8 m (Note.str s) = Some c0 /\
    if c0 =? 0 then tag_letter e = None
    else exists c1, load8 m (Note.str s + 1) = Some c1 /\
      tag_letter e = if c1 =? 0 then Some c0 else None.
Proof.
  intros Hb E. unfold elem_of_str in E. destruct (flag s =? NDB_PACKED_ID).
  - destruct (loadn m (Note.str s) 32) as [id |] eqn:L; [| done]. injection E as <-.
    pose proof (loadn_length _ _ _ _ L) as Li. destruct id as [| c [| c1 id]]; [zl | zl |].
    replace 32 with (zlen (c :: c1 :: id)) in L by lia.
    apply loadn_cons in L as [L0 L]. apply loadn_cons in L as [L1 _]. exists c. split; [done |].
    cbn [tag_letter]. destruct (Z.eqb_spec c 0) as [-> | N]; [done |]. exists c1. split; [done |].
    by destruct (c1 =? 0).
  - destruct (c_string m (Note.str s)) as [x |] eqn:L; [| done]. injection E as <-.
    apply c_string_inv in L as [N L]. destruct x as [| c x]; cbn [app] in L; apply loadn_cons in L as [L0 L].
    + by exists 0.
    + apply Forall_cons_iff in N as [Nc N]. exists c. split; [done |]. destruct (Z.eqb_spec c 0); [done |].
      destruct x as [| c1 x]; cbn [app] in L; apply loadn_cons in L as [L1 _].
      * by exists 0.
      * apply Forall_cons_iff in N as [Nc1 _]. exists c1. split; [done |]. by destruct (Z.eqb_spec c1 0).
Qed.

Lemma indexed_value_spec m s e : elem_of_str m s = Some e ->
  (flag s =? NDB_PACKED_ID) = match e with EId _ => true | _ => false end ->
  exists len, ndb_str_len m s = Some len /\ loadn m (Note.str s) (u8 len) = Some (indexed_value e).
Proof.
  intros E Hf. unfold ndb_str_len, elem_of_str in *. rewrite Hf in *. destruct e as [x | id].
  - destruct (c_string m (Note.str s)) as [x' |] eqn:Ec; [| done]. injection E as ->.
    pose proof (c_string_inv _ _ _ Ec) as [N L]. destruct (c_string_spec _ _ _ N L) as [-> _].
    exists (zlen x). split; [done |]. apply loadn_app_inv in L as [L _].
    assert (Hu : 0 <= u8 (zlen x) <= zlen x).
    { unfold u8. pose proof (zlen_nonneg x). pose proof (Z.mod_pos_bound (zlen x) (2 ^ 8)).
      pose proof (Z.mod_le (zlen x) (2 ^ 8)). lia. }
    rewrite <- (take_drop (Z.to_nat (u8 (zlen x))) x) in L at 1 2. apply loadn_app_inv in L as [L _].
    assert (Lt : zlen (take (Z.to_nat (u8 (zlen x))) x) = u8 (zlen x)).
    { unfold zlen in *. rewrite length_take. lia. }
    rewrite Lt in L. exact L.
  - destruct (loadn m (Note.str s) 32) as [i |] eqn:L; [| done]. injection E as ->. by exists 32.
Qed.

Lemma tag_index_key_spec tag_buf m note tag t ts : zlen tag_buf = 255 -> bytes_ok m ->
  raw_tag m note tag = Some t -> ndb_note_created_at m note = Some ts ->
  tag_index_key tag_buf m note tag = Some (Keys.key_bytes <$> tag_key_of ts t).
Proof.
  intros Hb Ho Hr Et. destruct (step_reads _ _ _ _ Hr) as (n & Ec & En & Rd).
  unfold tag_index_key. rewrite Ec. cbn [mbind option_bind].
  destruct t as [| [f0 e0] t].
  { change (zlen (@nil (Z * elem))) with 0 in En. by destruct (Z.ltb_spec n 2); [| lia]. }
  destruct t as [| [f1 e1] t].
  { rewrite zlen_cons in En. change (zlen (@nil (Z * elem))) with 0 in En. by destruct (Z.ltb_spec n 2); [| lia]. }
  destruct (Z.ltb_spec n 2); [rewrite !zlen_cons in En; pose proof (zlen_nonneg t); lia |].
  destruct (Rd 0%nat _ eq_refl) as (s0 & E0 & Q0). destruct (Rd 1%nat _ eq_refl) as (s1 & E1 & Q1).
  change (Z.of_nat 0) with 0 in E0. change (Z.of_nat 1) with 1 in E1.
  destruct (raw_of_inv _ _ _ _ Q0) as (_ & X0 & _). destruct (raw_of_inv _ _ _ _ Q1) as (_ & X1 & F1).
  rewrite E0. cbn [mbind option_bind tag_key_of]. destruct (tag_letter_spec m s0 e0 Ho X0) as (c0 & -> & Hl).
  cbn [mbind option_bind]. destruct (c0 =? 0); [by rewrite Hl |].
  destruct Hl as (c1 & -> & ->). cbn [mbind option_bind]. destruct (c1 =? 0); cbn [negb]; [| done].
  rewrite E1. cbn [mbind option_bind]. destruct (indexed_value_spec m s1 e1 X1 F1) as (len & -> & El).
  cbn [mbind option_bind]. rewrite El, Et. cbn [mbind option_bind].
  destruct (encode_tag_key_spec tag_buf c0 (indexed_value e1) ts Hb) as (m' & Hk).
  pose proof (zlen_nonneg (indexed_value e1)).
  destruct (zlen (indexed_value e1) <=? 246).
  - destruct Hk as [-> Lk]. cbn [mbind option_bind fst snd].
    destruct (Z.eqb_spec (9 + zlen (indexed_value e1)) 0); [lia |]. rewrite Lk. done.
  - rewrite Hk. done.
Qed.

(** ** The tables as the stored notes say *)

Section consistency.
Context {D C : Type} `{!Lmdb D C} `{!LmdbPut D C}.
Context (cb : list Z -> mem -> Z -> bool) (flags : Z).

(** A stored note: its key, its bytes, and what they read as. *)
#[local] Abbreviation stored_note := (Z * (mem * fnote))%type.

(** The table holds the entries of the notes and nothing else. *)
Definition indexes {K V dup} `{!LmdbKey K} `{!DupValue V dup} (entries : Z -> fnote -> list (K * V))
    (notes : list stored_note) (d : D) : Prop :=
  table_holds d (fun k v => exists p, p ∈ notes /\ (k, v) ∈ entries (fst p) (snd (snd p))).

Definition fulltext_kind (f : fnote) : bool :=
  ((n_kind f =? 1) || (n_kind f =? 30023)) && negb (ndb_flag_set flags NDB_FLAG_NO_FULLTEXT).

Definition content_words (nm : mem) : option (list (list Z)) :=
  s ← ndb_note_str nm 0 off.content; len ← ndb_note_content_length nm 0; words_of nm (str s) (str s + len).

Definition text_entries (p : stored_note) : list text_key :=
  if fulltext_kind (snd (snd p)) then
    match content_words (fst (snd p)) with
    | Some ws => word_keys ws 0 (n_created_at (snd (snd p))) (fst p)
    | None => []
    end
  else [].

Definition table_ok (notes : list stored_note) (db : ndb_dbs) (d : D) : Prop :=
  match db with
  | NDB_DB_NOTE => note_table d (map (fun p => (fst p, fst (snd p))) notes)
  | NDB_DB_NOTE_ID => indexes (fun k f => [id_entry k f]) notes d
  | NDB_DB_NOTE_KIND => indexes (fun k f => [kind_entry k f]) notes d
  | NDB_DB_NOTE_PUBKEY => indexes (fun k f => [pubkey_entry k f]) notes d
  | NDB_DB_NOTE_PUBKEY_KIND => indexes (fun k f => [pubkey_kind_entry k f]) notes d
  | NDB_DB_NOTE_TAGS => indexes tag_entries notes d
  | NDB_DB_NOTE_TEXT => exists es, text_table d es /\ NoDup es /\
      forall k, k ∈ es <-> exists p, p ∈ notes /\ k ∈ text_entries p
  | _ => True
  end.

(** [inv]: what the counters and the content blocks need of their tables. *)
Context (inv : D -> D -> Prop).

Definition env_inv (txn : ndb_txn D) : Prop :=
  env_ok txn /\ inv (txn NDB_DB_META) (txn NDB_DB_NOTE_BLOCKS).

(** A database that stores the notes. *)
Record stores (txn : ndb_txn D) (notes : list stored_note) : Prop := {
  st_env : env_inv txn;
  st_tables : forall db, table_ok notes db (txn db);
  st_reads : Forall (fun p => note_reads cb (fst (snd p)) 0 (snd (snd p))) notes;
  st_ids : NoDup (map (fun p => n_id (snd (snd p))) notes)
}.

(** The tables [table_ok] speaks of. *)
Definition indexed_db (db : ndb_dbs) : bool :=
  match db with
  | NDB_DB_NOTE | NDB_DB_NOTE_ID | NDB_DB_NOTE_KIND | NDB_DB_NOTE_PUBKEY | NDB_DB_NOTE_PUBKEY_KIND
  | NDB_DB_NOTE_TAGS | NDB_DB_NOTE_TEXT => true
  | _ => false
  end.

(** A writer that leaves those tables alone. *)
Definition benign {A} (w : M (ndb_txn D) A) : Prop := forall txn, env_inv txn ->
  exists a txn', w txn = Some (a, txn') /\ env_inv txn' /\
    forall db, indexed_db db = true -> txn' db = txn db.

(** Half-way through a write: the tables of [done] know the new notes. *)
Definition halfway (old new : list stored_note) (dbs : list ndb_dbs) (txn : ndb_txn D) : Prop :=
  env_inv txn /\ forall db, table_ok (if decide (db ∈ dbs) then new else old) db (txn db).

Lemma halfway_step old new dbs txn db d : halfway old new dbs txn -> env_ok (upd txn db d) ->
  db <> NDB_DB_META -> db <> NDB_DB_NOTE_BLOCKS -> table_ok new db d ->
  halfway old new (db :: dbs) (upd txn db d).
Proof.
  intros [[_ I] H] Ee N1 N2 Hd. split.
  - split; [done |]. by rewrite !upd_other.
  - intros db'. destruct (decide (db = db')) as [<- | N].
    + rewrite upd_same. by rewrite decide_True by (apply elem_of_cons; by left).
    + rewrite upd_other by done. destruct (decide (db' ∈ db :: dbs)) as [Hin | Hni].
      * apply elem_of_cons in Hin as [-> | Hin]; [done |]. specialize (H db'). by rewrite decide_True in H.
      * specialize (H db'). rewrite decide_False in H; [done |]. intros Hin. apply Hni, elem_of_cons. by right.
Qed.

(** *** One entry more *)

Lemma indexes_put {K V dup} `{!LmdbKey K} `{!DupValue V dup} (Po : puts_ok D) (entries : Z -> fnote -> list (K * V)) (notes : list stored_note)
    (txn : ndb_txn D) db (k : K) (v : V) (l : list (K * V)) :
  table_holds (txn db) (fun k' v' => (exists p, p ∈ notes /\ (k', v') ∈ entries (fst p) (snd (snd p))) \/ (k', v') ∈ l) ->
  key_wf k -> dv_wf v -> 0 < zlen (Keys.key_bytes k) <= MDB_MAXKEYSIZE -> zlen (dv_bytes v) <= MDB_MAXKEYSIZE ->
  exists d', txn_put db (Keys.key_bytes k) (dv_bytes v) false txn = Some (true, upd txn db d') /\
    mdb_put (txn db) (Keys.key_bytes k) (dv_bytes v) false = Some d' /\
    table_holds d' (fun k' v' => (exists p, p ∈ notes /\ (k', v') ∈ entries (fst p) (snd (snd p))) \/
                                 (k', v') ∈ l ++ [(k, v)]).
Proof.
  intros H Wk Wv Sk Sv. destruct (table_holds_put Po txn db _ k v H Wk Wv Sk Sv) as (d' & E1 & E2 & E3).
  exists d'. split; [done |]. split; [done |]. revert E3. apply table_holds_iff. intros k' v'.
  rewrite elem_of_app, list_elem_of_singleton. split.
  - intros [[-> ->] | [? | ?]]; [right; by right | by left | right; by left].
  - intros [? | [? | [= -> ->]]]; [right; by left | right; by right | by left].
Qed.

Lemma indexes_start {K V dup} `{!LmdbKey K} `{!DupValue V dup} (entries : Z -> fnote -> list (K * V)) (notes : list stored_note) (d : D) :
  indexes entries notes d ->
  table_holds d (fun k' v' => (exists p, p ∈ notes /\ (k', v') ∈ entries (fst p) (snd (snd p))) \/ (k', v') ∈ []).
Proof using. apply table_holds_iff. intros k v. rewrite elem_of_nil. split; [by left | by intros [? | []]]. Qed.

Lemma indexes_done {K V dup} `{!LmdbKey K} `{!DupValue V dup} (entries : Z -> fnote -> list (K * V)) (notes : list stored_note)
    (key : Z) (b : mem) (f : fnote) (d : D) :
  table_holds d (fun k' v' => (exists p, p ∈ notes /\ (k', v') ∈ entries (fst p) (snd (snd p))) \/
                              (k', v') ∈ entries key f) ->
  indexes entries (notes ++ [(key, (b, f))]) d.
Proof.
  apply table_holds_iff. intros k v. split.
  - intros [(p & Hp & Hkv) | Hkv].
    + exists p. split; [apply elem_of_app; by left | done].
    + exists (key, (b, f)). split; [apply elem_of_app; right; by apply list_elem_of_singleton | done].
  - intros (p & [Hp | ->%list_elem_of_singleton]%elem_of_app & Hkv); [left; eauto | by right].
Qed.
End consistency.

(** A writer that takes the counters and blocks from one state to another and
    leaves the tables of the notes alone. *)
Definition becomes {D C} `{!Lmdb D C} `{!LmdbPut D C} (inv inv' : D -> D -> Prop) {A} (w : M (ndb_txn D) A) : Prop :=
  forall txn, env_inv inv txn ->
  exists a txn', w txn = Some (a, txn') /\ env_inv inv' txn' /\ forall db, indexed_db db = true -> txn' db = txn db.

Lemma halfway_becomes {D C} `{!Lmdb D C} `{!LmdbPut D C} flags (inv inv' : D -> D -> Prop) {A} (w : M (ndb_txn D) A) old new dbs txn :
  becomes inv inv' w -> halfway flags inv old new dbs txn ->
  exists a txn', w txn = Some (a, txn') /\ halfway flags inv' old new dbs txn'.
Proof.
  intros B [I H]. destruct (B txn I) as (a & txn' & E & I' & S). exists a, txn'. split; [done |]. split; [done |].
  intros db. destruct (indexed_db db) eqn:Ei; [by rewrite S | by destruct db].
Qed.

(** ** The relay tables *)

Lemma align_8_multiple s s' : cwf s -> cursor_align 8 s = Some (true, s') ->
  (c_p (snd s') - c_start (snd s')) mod 8 = 0.
Proof.
  destruct s as [m c]. intros W E. unfold cursor_align in E. rewrite bind_cur in E. cbn [fst snd] in *.
  set (size := c_p c - c_start c) in *. pose proof W as (?&?&?). cbn [fst snd] in *.
  change (8 - 1) with (2 ^ 3 - 1) in E. rewrite align_up_pow2 in E by (unfold size; lia).
  pose proof (padding_range 3 size ltac:(lia)) as R.
  assert (P : (size + padding 3 size) mod 8 = 0).
  { unfold padding. change (2 ^ 3) with 8. rewrite Zplus_mod_idemp_r. by rewrite Z.add_opp_diag_r. }
  destruct (Z.ltb_spec 0 (padding 3 size)).
  - unfold cursor_memset in E. rewrite bind_cur in E. destruct (_ <=? _); [done |].
    unfold bind, poke, goto, bind, get, put, lift, ret in E. cbn in E. destruct (storen _ _ _); cbn in E; [| done]. injection E as <-.
    cbn [snd c_p c_start set_p]. replace (_ + _ - _) with (size + padding 3 size) by (unfold size; lia). done.
  - injection E as <-. cbn [snd]. fold size. by replace size with (size + padding 3 size) by lia.
Qed.

#[local] Instance Safe_push d : Safe (cursor_push d).
Proof. apply (Emits_Safe _ _ _ _). Qed.
#[local] Instance Safe_push_byte b : Safe (cursor_push_byte b).
Proof. apply (Emits_Safe _ _ _ _). Qed.
#[local] Instance Safe_align_8 : Safe (cursor_align 8).
Proof.
  apply Safe_cur_bind. intros m c W. cbv zeta. set (pad := Z.land _ _ - _).
  destruct (Z.ltb_spec 0 pad) as [Hp |]; [| exists true, (m, c); auto using frame_refl].
  pose proof (Emits_memset 0 pad (Z.lt_le_incl _ _ Hp)) as Em. pose proof (Emits_Safe _ _ _ Em) as Sf.
  apply Sf. exact W.
Qed.

Section relays.
Context {D C : Type} `{!Lmdb D C} `{!LmdbPut D C} (inv : D -> D -> Prop).

Lemma benign_put db k v nodup : indexed_db db = false -> db <> NDB_DB_META -> db <> NDB_DB_NOTE_BLOCKS ->
  benign inv (txn_put db k v nodup).
Proof.
  intros Hd N1 N2 txn [Ee I]. unfold txn_put. destruct (mdb_put (txn db) k v nodup) as [d |] eqn:E.
  - exists true, (upd txn db d). split; [done |]. split.
    + split; [by eapply env_ok_upd |]. by rewrite !upd_other.
    + intros db' Hi. apply upd_other. congruence.
  - exists false, txn. by split.
Qed.

Lemma benign_ret {A} (a : A) : benign inv (ret a : M (ndb_txn D) A).
Proof. intros txn I. by exists a, txn. Qed.

Lemma benign_bind {A B} (w : M (ndb_txn D) A) (k : A -> M (ndb_txn D) B) :
  benign inv w -> (forall a, benign inv (k a)) -> benign inv (bind w k).
Proof.
  intros Hw Hk txn I. destruct (Hw txn I) as (a & txn1 & E1 & I1 & S1).
  destruct (Hk a txn1 I1) as (b & txn2 & E2 & I2 & S2). exists b, txn2.
  unfold bind. rewrite E1. split; [done |]. split; [done |]. intros db Hd. by rewrite S2, S1.
Qed.

Lemma benign_read {A B} (o : option A) (k : A -> M (ndb_txn D) B) : is_Some o -> (forall a, benign inv (k a)) ->
  benign inv (fun txn => a ← o; k a txn).
Proof. intros [a ->] H. apply H. Qed.

(** A key builder that does not run into undefined behaviour leaves its result
    in the buffer. *)
Lemma built_key (w : CM bool) `{!Safe w} m : zlen m = 256 ->
  exists r m', with_cursor 0 256 (let* ok := w in if ok : bool then let* n := cursor_used in ret (Some n) else ret None) m
      = Some (r, m') /\
    forall n, r = Some n -> is_Some (loadn m' 0 n) /\
      exists s', w (m, make_cursor 0 256) = Some (true, s') /\ n = c_p (snd s') - c_start (snd s').
Proof.
  intros Hm. assert (W : cwf (m, make_cursor 0 256)) by (unfold cwf; cbn; lia).
  destruct (safe_run (w := w) _ W) as (ok & [m' c'] & E & F). unfold with_cursor. rewrite (run_bind _ _ _ _ _ E).
  destruct ok; [| by exists None, m'].
  exists (Some (c_p c' - c_start c')), m'. split; [done |]. intros n [= <-]. split; [| eauto].
  destruct F as (F1 & F2 & F3 & F4 & _). cbn in *. rewrite loadn_in_range by lia. eauto.
Qed.

Lemma relay_kind_index_benign buf key : zlen buf = 256 -> benign inv (ndb_write_note_relay_kind_index buf key).
Proof.
  intros Hb txn I. unfold ndb_write_note_relay_kind_index.
  destruct (_ || _); [by apply benign_ret |].
  destruct (built_key (cursor_push (le_bytes 8 (rk_note_key key)) &&* cursor_push (le_bytes 8 (rk_kind key)) &&*
    cursor_push (le_bytes 8 (rk_created_at key)) &&* cursor_push_byte (rk_relay_len key) &&*
    cursor_push (take (Z.to_nat (rk_relay_len key)) (rk_relay key)) &&* cursor_push_byte 0 &&* cursor_align 8) buf Hb)
    as (r & m' & E & H).
  unfold ndb_build_relay_kind_key. rewrite E.
  cbn [mbind option_bind fst snd]. destruct r as [len |]; [| by apply benign_ret].
  destruct (H len eq_refl) as [[k Ek] _]. destruct (len =? 0); [by apply benign_ret |].
  rewrite Ek. cbn [mbind option_bind]. by apply benign_put.
Qed.

Lemma note_relay_benign buf key relay len : zlen buf = 256 -> benign inv (ndb_write_note_relay buf key relay len).
Proof.
  intros Hb txn I. unfold ndb_write_note_relay. destruct relay as [relay |]; [| by apply benign_ret].
  destruct (len =? 0); [by apply benign_ret |].
  set (w := cursor_push (take (Z.to_nat len) relay) &&* cursor_push_byte 0).
  destruct (built_key (w &&* cursor_align 8) buf Hb) as (r & m' & E & H). unfold prepare_relay_buf. fold w. rewrite E.
  cbn [mbind option_bind fst snd]. destruct r as [n |]; [| by apply benign_ret].
  destruct (H n eq_refl) as ([v Ev] & s' & Ew & ->). destruct (_ =? 0); [by apply benign_ret |].
  assert (A : (c_p (snd s') - c_start (snd s')) mod 8 = 0).
  { assert (W : cwf (buf, make_cursor 0 256)) by (unfold cwf; cbn; lia).
    unfold andM, bind in Ew. fold w in Ew. destruct (safe_run (w := w) _ W) as (ok & s1 & E1 & F1).
    unfold w, andM, bind in E1, Ew. rewrite E1 in Ew. destruct ok; [| done].
    apply (align_8_multiple s1); [by eapply frame_cwf | done]. }
  rewrite A, Ev. cbn [Z.eqb mbind option_bind]. by apply benign_put.
Qed.

Lemma write_relay_benign buf nm key kind relay : zlen buf = 256 -> is_Some (ndb_note_created_at nm 0) ->
  benign inv (write_relay buf nm key kind relay).
Proof.
  intros Hb Hc. apply benign_read; [done |]. intros ts.
  destruct (ndb_relay_kind_key_init key kind ts relay) as [k |]; [| by apply benign_ret].
  apply benign_bind; [by apply relay_kind_index_benign |]. intros _.
  apply benign_bind; [by apply note_relay_benign |]. intros _. by apply benign_ret.
Qed.
End relays.

(** ** Writing the indexes of a note *)

Lemma note_id_wf cb nm f : note_reads cb nm 0 f -> id_wf (n_id f) /\ id_wf (n_pubkey f) /\ is_u64 (n_kind f) /\
  is_u64 (n_created_at f) /\ is_u64 (u32 (n_created_at f)).
Proof.
  intros [Hb Hi Hp Hk Ht _ _]. unfold load_u32, load_u64 in *.
  assert (R : forall a n v, 0 <= n -> le_int <$> loadn nm a n = Some v -> 0 <= v < 256 ^ n).
  { intros a n v Hn E. destruct (loadn nm a n) as [l |] eqn:L; [| done]. injection E as <-.
    pose proof (loadn_length _ _ _ _ L) as Ll. pose proof (loadn_bytes_ok nm a n l Hb L) as Hl.
    pose proof (le_int_range l Hl) as Rl. by rewrite Ll in Rl. }
  apply R in Hk; [| lia]. apply R in Ht; [| lia]. apply loadn_length in Hi, Hp.
  unfold id_wf, is_u64, u32. pose proof (Z.mod_pos_bound (n_created_at f) (2 ^ 32)).
  change (256 ^ 4) with (2 ^ 32) in Hk. change (256 ^ 8) with (2 ^ 64) in Ht. lia.
Qed.

#[local] Ltac key_size :=
  unfold MDB_MAXKEYSIZE, id_wf, id_entry, kind_entry, pubkey_entry, pubkey_kind_entry in *;
  cbn [Keys.key_bytes tsid_key u64_ts_key id_u64_ts_key dv_bytes int_value mem_value fst snd
       ts_id ts_timestamp ut_u64 ut_timestamp iu_id iu_u64 iu_timestamp];
  unfold ndb_tsid_init, ndb_u64_ts_init, ndb_id_u64_ts_init; rewrite ?zlen_app, ?zlen_le_bytes by lia; lia.

Section writing.
Context {D C : Type} `{!Lmdb D C} `{!LmdbPut D C}.
Context (cb : list Z -> mem -> Z -> bool) (flags : Z) (inv : D -> D -> Prop).
Context (buffer relay_buf tag_buf : mem).
Context (notes : list (Z * (mem * fnote))) (key : Z) (b : mem) (f : fnote).
Hypothesis (Po : puts_ok D) (Hb1 : zlen buffer = 1024) (Hb2 : zlen relay_buf = 256) (Hb3 : zlen tag_buf = 255)
  (Hkey : is_u64 key) (Rd : note_reads cb b 0 f).

#[local] Abbreviation new := (notes ++ [(key, (b, f))]).
#[local] Abbreviation half := (halfway flags inv notes new).

(** An index with one entry per note. *)
Lemma step_put {K V dup} `{!LmdbKey K} `{!DupValue V dup} (entry : Z -> fnote -> K * V) db dbs txn :
  (forall ns d, table_ok flags ns db d = indexes (fun k f => [entry k f]) ns d) ->
  db ∉ dbs -> db <> NDB_DB_META -> db <> NDB_DB_NOTE_BLOCKS -> key_wf (fst (entry key f)) -> dv_wf (snd (entry key f)) ->
  0 < zlen (Keys.key_bytes (fst (entry key f))) <= MDB_MAXKEYSIZE -> zlen (dv_bytes (snd (entry key f))) <= MDB_MAXKEYSIZE ->
  half dbs txn ->
  exists txn', txn_put db (Keys.key_bytes (fst (entry key f))) (dv_bytes (snd (entry key f))) false txn = Some (true, txn') /\
    half (db :: dbs) txn'.
Proof using Po.
  intros He Hn N1 N2 Wk Wv Sk Sv H. pose proof (proj2 H db) as Hd. rewrite decide_False, He in Hd by done.
  destruct (indexes_put Po _ notes txn db (fst (entry key f)) (snd (entry key f)) [] (indexes_start _ _ _ Hd) Wk Wv Sk Sv)
    as (d' & E1 & E2 & E3).
  exists (upd txn db d'). split; [exact E1 |]. apply halfway_step; [done | | done | done |].
  - eapply env_ok_upd; [apply H | exact E2].
  - rewrite He. apply indexes_done. revert E3. apply table_holds_iff. intros k v. by destruct (entry key f).
Qed.

Lemma step_id dbs txn : NDB_DB_NOTE_ID ∉ dbs -> half dbs txn ->
  exists txn', ndb_write_note_id_index b 0 key txn = Some (true, txn') /\ half (NDB_DB_NOTE_ID :: dbs) txn'.
Proof using Po Hkey Rd.
  intros Hn H. destruct (note_id_wf _ _ _ Rd) as (W1 & W2 & W3 & W4 & W5). unfold ndb_write_note_id_index.
  rewrite (nr_id _ _ _ _ Rd), (nr_created _ _ _ _ Rd). cbn [mbind option_bind].
  refine (step_put (dup := mem_cmp) id_entry NDB_DB_NOTE_ID dbs txn _ Hn _ _ _ _ _ _ H); try done; key_size.
Qed.

Lemma step_kind dbs txn : NDB_DB_NOTE_KIND ∉ dbs -> half dbs txn ->
  exists txn', ndb_write_note_kind_index b 0 key txn = Some (true, txn') /\ half (NDB_DB_NOTE_KIND :: dbs) txn'.
Proof using Po Hkey Rd.
  intros Hn H. destruct (note_id_wf _ _ _ Rd) as (W1 & W2 & W3 & W4 & W5). unfold ndb_write_note_kind_index.
  rewrite (nr_kind _ _ _ _ Rd), (nr_created _ _ _ _ Rd). cbn [mbind option_bind].
  refine (step_put (dup := int_cmp) kind_entry NDB_DB_NOTE_KIND dbs txn _ Hn _ _ _ _ _ _ H); try done; key_size.
Qed.

Lemma created_32 : ndb_note_created_at b 0 = Some (u32 (n_created_at f)).
Proof using Rd. unfold ndb_note_created_at. by rewrite (nr_created _ _ _ _ Rd). Qed.

Lemma step_pubkey dbs txn : NDB_DB_NOTE_PUBKEY ∉ dbs -> half dbs txn ->
  exists txn', ndb_write_note_pubkey_index b 0 key txn = Some (true, txn') /\ half (NDB_DB_NOTE_PUBKEY :: dbs) txn'.
Proof using Po Hkey Rd.
  intros Hn H. destruct (note_id_wf _ _ _ Rd) as (W1 & W2 & W3 & W4 & W5). unfold ndb_write_note_pubkey_index.
  rewrite (nr_pubkey _ _ _ _ Rd), created_32. cbn [mbind option_bind].
  refine (step_put (dup := int_cmp) pubkey_entry NDB_DB_NOTE_PUBKEY dbs txn _ Hn _ _ _ _ _ _ H); try done; key_size.
Qed.

Lemma step_pubkey_kind dbs txn : NDB_DB_NOTE_PUBKEY_KIND ∉ dbs -> half dbs txn ->
  exists txn', ndb_write_note_pubkey_kind_index b 0 key txn = Some (true, txn') /\
    half (NDB_DB_NOTE_PUBKEY_KIND :: dbs) txn'.
Proof using Po Hkey Rd.
  intros Hn H. destruct (note_id_wf _ _ _ Rd) as (W1 & W2 & W3 & W4 & W5). unfold ndb_write_note_pubkey_kind_index, ndb_note_kind.
  rewrite (nr_pubkey _ _ _ _ Rd), (nr_kind _ _ _ _ Rd), created_32. cbn [mbind option_bind].
  refine (step_put (dup := int_cmp) pubkey_kind_entry NDB_DB_NOTE_PUBKEY_KIND dbs txn _ Hn _ _ _ _ _ _ H); try done; key_size.
Qed.

(** *** The tags *)

Lemma iterate_next_note m it more it' : ndb_tags_iterate_next m it = Some (more, it') -> iter_note it' = iter_note it.
Proof.
  unfold ndb_tags_iterate_next. intros E.
  destruct (ndb_tags_count m (ndb_note_tags (iter_note it))) as [n |]; destruct (iter_tag it) as [tag |];
    cbn [mbind option_bind] in E; try done; [| by injection E as <- <- | by destruct (_ =? -1)].
  destruct (_ =? -1); [by injection E as <- <- |]. destruct (_ <? _); [| by injection E as <- <-].
  destruct (ndb_tag_count m tag); [by injection E as <- <- | done].
Qed.

Lemma tag_key_of_ts ts t k : tag_key_of ts t = Some k -> tg_timestamp k = ts.
Proof.
  unfold tag_key_of. destruct t as [| [f0 e0] [| [f1 e1] t]]; try done.
  destruct (tag_letter e0); cbn [mbind option_bind]; [| done]. destruct (_ <=? _); [by intros [= <-] | done].
Qed.

Lemma tag_key_size ts t k : tag_key_of ts t = Some k -> 0 < zlen (Keys.key_bytes k) <= MDB_MAXKEYSIZE.
Proof.
  unfold tag_key_of. destruct t as [| [f0 e0] [| [f1 e1] t]]; try done.
  destruct (tag_letter e0); cbn [mbind option_bind]; [| done]. destruct (Z.leb_spec (zlen (indexed_value e1)) 246); [| done].
  intros [= <-]. cbn [Keys.key_bytes tag_key_key tg_tag tg_val tg_timestamp]. rewrite zlen_app, zlen_cons, zlen_le_bytes by lia.
  pose proof (zlen_nonneg (indexed_value e1)). unfold MDB_MAXKEYSIZE. lia.
Qed.

(** Tables other than that of the tags stay. *)
Definition only_tags (txn txn' : ndb_txn D) : Prop := forall db, db <> NDB_DB_NOTE_TAGS -> txn' db = txn db.

Lemma tag_loop_spec fuel : forall it ts txn l, raw_tags_loop fuel b it = Some ts -> iter_note it = 0 -> env_ok txn ->
  table_holds (txn NDB_DB_NOTE_TAGS) (fun k v => (exists p, p ∈ notes /\ (k, v) ∈ tag_entries (fst p) (snd (snd p))) \/
                                                 (k, v) ∈ l) ->
  exists txn', tag_index_loop tag_buf fuel b it key txn = Some (true, txn') /\ env_ok txn' /\ only_tags txn txn' /\
    table_holds (txn' NDB_DB_NOTE_TAGS) (fun k v => (exists p, p ∈ notes /\ (k, v) ∈ tag_entries (fst p) (snd (snd p))) \/
      (k, v) ∈ l ++ map (fun k => (k, le_bytes 8 key)) (omap (tag_key_of (u32 (n_created_at f))) ts)).
Proof using Po Hb3 Hkey Rd.
  induction fuel as [| fuel IH]; intros it ts txn l Et Hi Ee Ht; [done |].
  cbn [raw_tags_loop] in Et. cbn [tag_index_loop].
  destruct (ndb_tags_iterate_next b it) as [[more it'] |] eqn:En; [| done]. cbn [mbind option_bind fst snd] in *.
  destruct more; [| injection Et as <-; exists txn; do 3 (split; [done |]); rewrite app_nil_r; exact Ht].
  destruct (iter_tag it') as [tag |]; [| done]. cbn [mbind option_bind] in *. rewrite Hi in *.
  destruct (raw_tag b 0 tag) as [t |] eqn:Eg; [| done]. cbn [mbind option_bind] in Et.
  destruct (raw_tags_loop fuel b it') as [ts' |] eqn:El; [| done]. injection Et as <-.
  rewrite (tag_index_key_spec tag_buf b 0 tag t _ Hb3 (nr_bytes _ _ _ _ Rd) Eg created_32). cbn [mbind option_bind].
  pose proof (iterate_next_note _ _ _ _ En) as Hi'. rewrite Hi in Hi'.
  cbn [omap list_omap]. destruct (tag_key_of _ t) as [k |] eqn:Ek; cbn [fmap option_fmap option_map].
  - destruct (indexes_put Po tag_entries notes txn NDB_DB_NOTE_TAGS k (le_bytes 8 key) l Ht) as (d' & E1 & E2 & E3);
      [| done | by eapply tag_key_size | key_size |].
    { apply tag_key_of_ts in Ek. change (is_u64 (tg_timestamp k)). rewrite Ek. apply (note_id_wf _ _ _ Rd). }
    change (le_bytes 8 key) with (dv_bytes (le_bytes 8 key)) at 1. rewrite E1. cbn [mbind option_bind fst snd].
    destruct (IH it' ts' (upd txn NDB_DB_NOTE_TAGS d') (l ++ [(k, le_bytes 8 key)]) El Hi') as (txn' & E & Ee' & S & Ht').
    { by eapply env_ok_upd. } { by rewrite upd_same. }
    exists txn'. split; [done |]. split; [done |]. split.
    + intros db N. rewrite S by done. by apply upd_other.
    + revert Ht'. apply table_holds_iff. intros k' v'. by rewrite <- app_assoc.
  - by apply IH.
Qed.

Lemma step_tags dbs txn : NDB_DB_NOTE_TAGS ∉ dbs -> half dbs txn ->
  exists txn', ndb_write_note_tag_index tag_buf b 0 key txn = Some (true, txn') /\ half (NDB_DB_NOTE_TAGS :: dbs) txn'.
Proof using Po Hb3 Hkey Rd.
  intros Hn H. pose proof (nr_tags _ _ _ _ Rd) as Et. unfold raw_tags in Et. unfold ndb_write_note_tag_index.
  destruct (ndb_tags_count b (ndb_note_tags 0)) as [n |]; [| done]. cbn [mbind option_bind] in *.
  pose proof (proj2 H NDB_DB_NOTE_TAGS) as Ht. rewrite decide_False in Ht by done.
  destruct (tag_loop_spec _ _ _ txn [] Et eq_refl (proj1 (proj1 H)) (indexes_start _ _ _ Ht)) as (txn' & E & Ee & S & Ht').
  exists txn'. split; [exact E |]. split.
  - split; [done |]. rewrite !S by done. apply H.
  - intros db. destruct (decide (NDB_DB_NOTE_TAGS = db)) as [<- | N].
    + rewrite decide_True by (apply elem_of_cons; by left). apply indexes_done. exact Ht'.
    + rewrite S by done. pose proof (proj2 H db) as Hd.
      destruct (decide (db ∈ dbs)); [rewrite decide_True by (apply elem_of_cons; by right); done |].
      rewrite decide_False; [done |]. intros [-> | ?]%elem_of_cons; done.
Qed.

(** *** The text *)

(** Content the full-text index takes: a string of the note. *)
Definition indexable_text : Prop := exists s len,
  ndb_note_str b 0 off.content = Some s /\ flag s <> NDB_PACKED_ID /\ ndb_note_content_length b 0 = Some len /\
  0 <= str s /\ 0 <= len /\ str s + len <= zlen b.

Lemma text_new (es es' ws : list text_key) :
  (forall k, k ∈ es <-> exists p, p ∈ notes /\ k ∈ text_entries flags p) ->
  (forall k, k ∈ es' <-> k ∈ es \/ k ∈ ws) -> ws = text_entries flags (key, (b, f)) ->
  forall k, k ∈ es' <-> exists p, p ∈ new /\ k ∈ text_entries flags p.
Proof using.
  intros H1 H2 -> k. rewrite H2, H1. split.
  - intros [(p & Hp & Hk) | Hk].
    + exists p. split; [apply elem_of_app; by left | done].
    + exists (key, (b, f)). split; [apply elem_of_app; right; by apply list_elem_of_singleton | done].
  - intros (p & [Hp | ->%list_elem_of_singleton]%elem_of_app & Hk); [left; eauto | by right].
Qed.

Lemma step_text dbs txn : NDB_DB_NOTE_TEXT ∉ dbs -> fulltext_kind flags f = true -> indexable_text -> half dbs txn ->
  exists txn', ndb_write_note_fulltext_index buffer b 0 key txn = Some (true, txn') /\
    half (NDB_DB_NOTE_TEXT :: dbs) txn'.
Proof using Po Hb1 Hkey Rd.
  intros Hn Hf (s & len & E1 & E2 & E3 & H1 & H2 & H3) H.
  destruct (words_of_spec b (str s) (str s + len)) as (ws & _ & E4 & _); [lia | done |].
  pose proof (proj2 H NDB_DB_NOTE_TEXT) as Ht. rewrite decide_False in Ht by done. destruct Ht as (es & T & Nd & Hes).
  destruct (fulltext_spec buffer b 0 key txn es s len (n_created_at f) Hb1 Po (proj1 (proj1 H)) T Nd E1 E2 E3
    (nr_created _ _ _ _ Rd) H1 H2 H3 ws E4) as (txn' & es' & E & Ee & T' & Nd' & Hes' & S).
  exists txn'. split; [exact E |]. split.
  - split; [done |]. rewrite !S by done. apply H.
  - intros db. destruct (decide (NDB_DB_NOTE_TEXT = db)) as [<- | N].
    + rewrite decide_True by (apply elem_of_cons; by left). exists es'. split; [done |]. split; [done |].
      apply (text_new es es' _ Hes Hes'). unfold text_entries, content_words. cbn [fst snd].
      rewrite Hf, E1, E3. cbn [mbind option_bind]. by rewrite E4.
    + rewrite S by done. pose proof (proj2 H db) as Hd.
      destruct (decide (db ∈ dbs)); [rewrite decide_True by (apply elem_of_cons; by right); done |].
      rewrite decide_False; [done |]. intros [-> | ?]%elem_of_cons; done.
Qed.

(** Without full-text index the text table is up to date already. *)
Lemma skip_text dbs txn : fulltext_kind flags f = false -> half dbs txn -> half (NDB_DB_NOTE_TEXT :: dbs) txn.
Proof using.
  intros Hf H. split; [apply H |]. intros db. pose proof (proj2 H db) as Hd.
  destruct (decide (db ∈ dbs)) as [Hin | Hni]; [rewrite decide_True by (apply elem_of_cons; by right); done |].
  destruct (decide (NDB_DB_NOTE_TEXT = db)) as [<- | N].
  - rewrite decide_True by (apply elem_of_cons; by left). destruct Hd as (es & T & Nd & Hes).
    exists es. split; [done |]. split; [done |]. apply (text_new es es [] Hes).
    + intros k. rewrite elem_of_nil. split; [by left | by intros [? | []]].
    + unfold text_entries. cbn [fst snd]. by rewrite Hf.
  - rewrite decide_False; [done |]. intros [-> | ?]%elem_of_cons; done.
Qed.
End writing.

(** ** Storing a note *)

(** A table of pairs is an index of its keys. *)
Lemma value_table_index {D C} `{!Lmdb D C} `{!LmdbPut D C} {K V dup} `{!LmdbKey K} `{!DupValue V dup}
    (d : D) (l : list (K * V)) :
  value_table d l -> index_of d (map (fun e => (fst e, dv_bytes (snd e))) l).
Proof.
  intros T. split.
  - apply (vt_cmp _ _ T).
  - rewrite (vt_items _ _ T), map_map. done.
  - apply Forall_map. generalize (vt_wf _ _ T). apply Forall_impl. intros e He. exact (proj1 He).
  - apply (sorted_map_impl _ (ele pair_ord) _ (fun _ => True)); [apply (vt_sorted _ _ T) | by apply List.Forall_forall |].
    intros x y _ _ H. cbn [fst]. unfold ele, pair_ord, pair_cmp in H. by destruct (key_ord (fst x) (fst y)).
Qed.

Section storing.
Context {D C : Type} `{!Lmdb D C} `{!LmdbPut D C}.
Context (cb : list Z -> mem -> Z -> bool) (flags : Z) (inv : D -> D -> Prop).
Context (buffer relay_buf tag_buf : mem).
Context (blocks : mem -> Z -> Z -> M (ndb_txn D) bool)
        (note_stats reaction_stats repost_stats zap_stats : mem -> Z -> M (ndb_txn D) unit).
Hypothesis (Po : puts_ok D) (Co : forall d : D, is_Some (mdb_cursor_open d))
  (Hb1 : zlen buffer = 1024) (Hb2 : zlen relay_buf = 256) (Hb3 : zlen tag_buf = 255).

#[local] Abbreviation the_stores := (stores cb flags inv).

Lemma lookup_absent txn notes id : the_stores txn notes -> id_wf id ->
  id ∉ map (fun p => n_id (snd (snd p))) notes -> ndb_get_notekey_by_id txn id = Some 0.
Proof using Co.
  intros St Hid Hn. destruct (st_tables _ _ _ _ _ St NDB_DB_NOTE_ID) as (l & T & Hl).
  destruct (Co (txn NDB_DB_NOTE_ID)) as [c Ho].
  pose proof (get_tsid_spec txn NDB_DB_NOTE_ID _ id c (value_table_index _ _ T) Hid Ho) as S.
  unfold ndb_get_notekey_by_id, ndb_get_indexkey_by_id.
  destruct (ndb_get_tsid txn NDB_DB_NOTE_ID id) as [v |]; [exfalso | done].
  destruct S as (ts & Hin & _). apply list_elem_of_fmap in Hin as ([k' v'] & [= <- ->] & Hin).
  apply Hl in Hin as (p & Hp & [= -> _ _]%list_elem_of_singleton). apply Hn, list_elem_of_fmap. eauto.
Qed.

(** The counters a note of a kind updates. *)
Definition kind_stats (b : mem) (kind : Z) : M (ndb_txn D) unit :=
  if (kind =? 1) || (kind =? 30023) then note_stats b 0
  else if (kind =? 7) && negb (ndb_flag_set flags NDB_FLAG_NO_STATS) then reaction_stats b 0
  else if (kind =? 6) || (kind =? 16) then repost_stats b 0
  else if (kind =? 9735) && negb (ndb_flag_set flags NDB_FLAG_NO_STATS) then zap_stats b 0
  else ret tt.

Lemma kind_stats_benign b kind : benign inv (note_stats b 0) -> benign inv (reaction_stats b 0) -> benign inv (repost_stats b 0) ->
  benign inv (zap_stats b 0) -> becomes inv inv (kind_stats b kind).
Proof using.
  intros Bn Br Bp Bz. unfold kind_stats. repeat (destruct (_ && _) || destruct (_ || _)); try done. exact (benign_ret inv tt).
Qed.

Section one_note.
Context (notes : list (Z * (mem * fnote))) (key : Z) (b : mem) (f : fnote) (inv' : D -> D -> Prop).
Hypothesis (Hkey : is_u64 key) (Rd : note_reads cb b 0 f)
  (Bb : forall k, benign inv (blocks b 0 k)) (Bs : becomes inv inv' (kind_stats b (n_kind f)))
  (Ht : fulltext_kind flags f = true -> indexable_text b) (Hsz : zlen b <= MAXDATASIZE).

#[local] Abbreviation new := (notes ++ [(key, (b, f))]).
#[local] Abbreviation half := (halfway flags inv notes new).

Lemma step_benign {A} (w : M (ndb_txn D) A) dbs txn : benign inv w -> half dbs txn ->
  exists a txn', w txn = Some (a, txn') /\ half dbs txn'.
Proof using. intros Bw H. by apply (halfway_becomes flags inv inv). Qed.

Lemma step_stats dbs txn : half dbs txn ->
  exists txn', kind_stats b (n_kind f) txn = Some (tt, txn') /\ halfway flags inv' notes new dbs txn'.
Proof using Bs.
  intros H. destruct (halfway_becomes flags inv inv' _ _ _ _ _ Bs H) as ([] & txn' & E & H'). by exists txn'.
Qed.

Lemma step_kind_work dbs txn : NDB_DB_NOTE_TEXT ∉ dbs -> half dbs txn ->
  exists txn', write_by_kind buffer blocks note_stats reaction_stats repost_stats zap_stats flags b key (n_kind f) txn =
    Some (true, txn') /\ halfway flags inv' notes new (NDB_DB_NOTE_TEXT :: dbs) txn'.
Proof using Po Hb1 Hkey Rd Bb Bs Ht.
  intros Hn H. pose proof (benign_ret inv (A := bool)) as R. pose proof step_stats as St. unfold kind_stats in St.
  unfold write_by_kind. destruct ((n_kind f =? 1) || (n_kind f =? 30023)) eqn:Ek.
  - assert (X : exists txn', (if negb (ndb_flag_set flags NDB_FLAG_NO_FULLTEXT)
        then ndb_write_note_fulltext_index buffer b 0 key else ret true) txn = Some (true, txn') /\
        half (NDB_DB_NOTE_TEXT :: dbs) txn').
    { destruct (fulltext_kind flags f) eqn:Ef; pose proof Ef as Ef'; unfold fulltext_kind in Ef'; rewrite Ek in Ef';
        cbn [andb] in Ef'; rewrite Ef'.
      - apply (step_text cb); auto.
      - exists txn. split; [done |]. by apply (skip_text flags inv). }
    destruct X as (txn1 & E1 & H1). rewrite (run_bind _ _ _ _ _ E1). cbn [negb].
    set (w := if negb (ndb_flag_set flags NDB_FLAG_NO_NOTE_BLOCKS) then blocks b 0 key else ret true).
    assert (Bw : benign inv w) by (unfold w; case (negb (ndb_flag_set flags NDB_FLAG_NO_NOTE_BLOCKS)); [exact (Bb key) | exact (R true)]).
    destruct (step_benign w _ _ Bw H1) as (a & txn2 & E2 & H2). rewrite (run_bind _ _ _ _ _ E2).
    destruct (St _ _ H2) as (txn3 & E3 & H3). rewrite (run_bind _ _ _ _ _ E3). by exists txn3.
  - assert (Ef : fulltext_kind flags f = false) by (unfold fulltext_kind; by rewrite Ek).
    apply (skip_text flags inv) in H; [| done]. destruct (St _ _ H) as (txn' & E & H'). exists txn'. split; [| done]. revert E. clear.
    destruct (_ && _); [intros E; by rewrite (run_bind _ _ _ _ _ E) |]. destruct (_ || _); [intros E; by rewrite (run_bind _ _ _ _ _ E) |].
    destruct (_ && _); [intros E; by rewrite (run_bind _ _ _ _ _ E) |]. by intros [= ->].
Qed.

Lemma all_done txn : NoDup (map (fun p => n_id (snd (snd p))) new) ->
  Forall (fun p => note_reads cb (fst (snd p)) 0 (snd (snd p))) notes ->
  halfway flags inv' notes new [NDB_DB_NOTE_TEXT; NDB_DB_NOTE_PUBKEY_KIND; NDB_DB_NOTE_PUBKEY; NDB_DB_NOTE_TAGS;
        NDB_DB_NOTE_KIND; NDB_DB_NOTE_ID; NDB_DB_NOTE] txn -> stores cb flags inv' txn new.
Proof using Rd.
  intros Nd F [I H]. split; [done | | | done].
  - intros db. specialize (H db). destruct (decide _) as [| Hn]; [done |].
    destruct db; try done; exfalso; apply Hn; repeat (first [by left | right]).
  - apply Forall_app. split; [done |]. by apply Forall_singleton.
Qed.

Lemma store_note_spec txn relay : the_stores txn notes -> key = last_key (map (fun p => (fst p, fst (snd p))) notes) + 1 ->
  n_id f ∉ map (fun p => n_id (snd (snd p))) notes ->
  exists txn', store_note buffer relay_buf tag_buf blocks note_stats reaction_stats repost_stats zap_stats flags b
      (n_kind f) relay 0 false txn = Some (key, txn') /\ stores cb flags inv' txn' new.
Proof using Po Co Hb1 Hb2 Hb3 Hkey Rd Bb Bs Ht Hsz.
  intros St Ek Hid. pose proof (st_tables _ _ _ _ _ St NDB_DB_NOTE) as Tn. cbn [table_ok] in Tn.
  unfold store_note. unfold bind at 1, get. cbn [Z.eqb negb]. unfold bind at 1, lift.
  rewrite (last_key_spec txn _ Tn (Co _)). cbn [mbind option_bind]. rewrite <- Ek.
  assert (Eu : u64 key = key) by (unfold u64; by apply Z.mod_small). rewrite Eu.
  destruct (nt_append Po txn _ key b Tn Hkey) as (d & E & Ep & Tn'); [lia | done |].
  rewrite (run_bind _ _ _ _ _ E). cbn [negb].
  assert (H0 : half [NDB_DB_NOTE] (upd txn NDB_DB_NOTE d)).
  { apply halfway_step; [| by eapply env_ok_upd; [apply (st_env _ _ _ _ _ St) |] | done | done |].
    - split; [apply (st_env _ _ _ _ _ St) |]. intros db. apply (st_tables _ _ _ _ _ St).
    - cbn [table_ok]. rewrite map_app. exact Tn'. }
  assert (N : forall (db : ndb_dbs) (dbs : list ndb_dbs), bool_decide (db ∈ dbs) = false -> db ∉ dbs) by (intros db dbs; apply bool_decide_eq_false_1).
  destruct (step_id cb flags inv notes key b f Po Hkey Rd _ _ (N NDB_DB_NOTE_ID [NDB_DB_NOTE] eq_refl) H0) as (t1 & E1 & H1).
  rewrite (run_bind _ _ _ _ _ E1).
  destruct (step_kind cb flags inv notes key b f Po Hkey Rd _ _ (N NDB_DB_NOTE_KIND [NDB_DB_NOTE_ID; NDB_DB_NOTE] eq_refl) H1) as (t2 & E2 & H2).
  rewrite (run_bind _ _ _ _ _ E2).
  destruct (step_tags cb flags inv tag_buf notes key b f Po Hb3 Hkey Rd _ _ (N NDB_DB_NOTE_TAGS [NDB_DB_NOTE_KIND; NDB_DB_NOTE_ID; NDB_DB_NOTE] eq_refl) H2) as (t3 & E3 & H3).
  rewrite (run_bind _ _ _ _ _ E3).
  destruct (step_pubkey cb flags inv notes key b f Po Hkey Rd _ _ (N NDB_DB_NOTE_PUBKEY [NDB_DB_NOTE_TAGS; NDB_DB_NOTE_KIND; NDB_DB_NOTE_ID; NDB_DB_NOTE] eq_refl) H3) as (t4 & E4 & H4).
  rewrite (run_bind _ _ _ _ _ E4).
  destruct (step_pubkey_kind cb flags inv notes key b f Po Hkey Rd _ _ (N NDB_DB_NOTE_PUBKEY_KIND [NDB_DB_NOTE_PUBKEY; NDB_DB_NOTE_TAGS; NDB_DB_NOTE_KIND; NDB_DB_NOTE_ID; NDB_DB_NOTE] eq_refl) H4) as (t5 & E5 & H5).
  rewrite (run_bind _ _ _ _ _ E5).
  assert (Bw : benign inv (write_relay relay_buf b key (n_kind f) relay)).
  { apply write_relay_benign; [done |]. rewrite (created_32 cb b f Rd). eauto. }
  destruct (step_benign _ _ _ Bw H5) as (a & t6 & E6 & H6). rewrite (run_bind _ _ _ _ _ E6).
  destruct (step_kind_work _ t6 (N NDB_DB_NOTE_TEXT [NDB_DB_NOTE_PUBKEY_KIND; NDB_DB_NOTE_PUBKEY; NDB_DB_NOTE_TAGS; NDB_DB_NOTE_KIND; NDB_DB_NOTE_ID; NDB_DB_NOTE] eq_refl) H6) as (t7 & E7 & H7).
  rewrite (run_bind _ _ _ _ _ E7). cbn [negb]. exists t7. split; [done |].
  apply all_done; [| apply (st_reads _ _ _ _ _ St) | exact H7].
  rewrite map_app. apply list.NoDup_app. split; [apply (st_ids _ _ _ _ _ St) |].
  split; [| apply NoDup_singleton]. intros x Hx ->%list_elem_of_singleton. done.
Qed.

(** The whole of the writer, for a note whose id is not stored yet. *)
Lemma write_new_note txn relay inbox rumor : the_stores txn notes -> key = last_key (map (fun p => (fst p, fst (snd p))) notes) + 1 ->
  n_id f ∉ map (fun p => n_id (snd (snd p))) notes -> ndb_note_is_rumor b 0 = Some rumor -> rumor && inbox = false ->
  exists txn', ndb_write_note buffer relay_buf tag_buf blocks note_stats reaction_stats repost_stats zap_stats flags inbox
      (mk_writer_note b relay 0) txn = Some ((key, []), txn') /\ stores cb flags inv' txn' new.
Proof using Po Co Hb1 Hb2 Hb3 Hkey Rd Bb Bs Ht Hsz.
  intros St Ek Hn Hr Hi. destruct (note_id_wf _ _ _ Rd) as (W1 & _).
  destruct (store_note_spec txn relay St Ek Hn) as (txn' & E & St').
  exists txn'. split; [| exact St']. unfold ndb_write_note. cbn [wn_note wn_overwrite wn_relay].
  rewrite run_get. change off.kind with (0 + off.kind). rewrite (run_lift _ _ _ _ (nr_kind _ _ _ _ Rd)).
  cbn [Z.eqb]. rewrite (nr_id _ _ _ _ Rd). cbn [mbind option_bind].
  rewrite (run_lift _ _ _ _ (lookup_absent txn notes _ St W1 Hn)), (run_lift _ _ _ _ Hr).
  cbn [Z.eqb negb andb]. rewrite (run_lift (Some false) false _ _ eq_refl). rewrite Hi. cbn [negb].
  rewrite (run_lift (Some []) [] _ _ eq_refl).
  rewrite (run_bind _ _ _ _ _ E). done.
Qed.
End one_note.

(** The next key. *)
Lemma next_key_wf txn notes : the_stores txn notes -> last_key (map (fun p => (fst p, fst (snd p))) notes) < UINT64_MAX ->
  is_u64 (last_key (map (fun p => (fst p, fst (snd p))) notes) + 1).
Proof using.
  intros St Hk. destruct (last_key_max _ _ (st_tables _ _ _ _ _ St NDB_DB_NOTE)) as [W _]. unfold is_u64, UINT64_MAX in *. lia.
Qed.
End storing.

(** * Writing, then reading *)

(** C1: Writing a note that is not stored yet keeps the database consistent: it
    gets the next key, which is the result, and afterwards the note table and
    the indexes by id, kind, author, author and kind, tag and word hold exactly
    what the stored notes and the new one say; the words whose key is longer than
    the 511 bytes LMDB takes are not indexed.  The note must be readable and of at
    most 2^32 - 1 bytes, it must not be flagged as a rumor when the writer has an
    inbox (the giftwrap it came in would be looked up), the writers of counters
    and content blocks must leave the other tables alone, cursors can be
    opened, and LMDB has room: every put of a key and value of the sizes LMDB takes
    succeeds. *)
Theorem write_note_stores {D C} `{!Lmdb D C} `{!LmdbPut D C} (cb : list Z -> mem -> Z -> bool) (flags : Z)
    (inv : D -> D -> Prop) (buffer relay_buf tag_buf : mem)
    (blocks : mem -> Z -> Z -> M (ndb_txn D) bool)
    (note_stats reaction_stats repost_stats zap_stats : mem -> Z -> M (ndb_txn D) unit)
    (txn : ndb_txn D) (notes : list (Z * (mem * fnote))) (b : mem) (f : fnote) (relay : option (list Z)) (inbox rumor : bool)
    (Po : puts_ok D) (Co : forall d : D, is_Some (mdb_cursor_open d))
    (Hb1 : zlen buffer = 1024) (Hb2 : zlen relay_buf = 256) (Hb3 : zlen tag_buf = 255)
    (Bb : forall k, benign inv (blocks b 0 k)) (Bn : benign inv (note_stats b 0))
    (Br : benign inv (reaction_stats b 0)) (Bp : benign inv (repost_stats b 0)) (Bz : benign inv (zap_stats b 0))
    (St : stores cb flags inv txn notes) (Rd : note_reads cb b 0 f)
    (Hr : ndb_note_is_rumor b 0 = Some rumor) (Hi : rumor && inbox = false)
    (Ht : fulltext_kind flags f = true -> indexable_text b) (Hsz : zlen b <= MAXDATASIZE)
    (Hn : n_id f ∉ map (fun p => n_id (snd (snd p))) notes)
    (Hk : last_key (map (fun p => (fst p, fst (snd p))) notes) < UINT64_MAX) :
  let key := last_key (map (fun p => (fst p, fst (snd p))) notes) + 1 in
  exists txn', ndb_write_note buffer relay_buf tag_buf blocks note_stats reaction_stats repost_stats zap_stats flags inbox
      (mk_writer_note b relay 0) txn = Some ((key, []), txn') /\
    stores cb flags inv txn' (notes ++ [(key, (b, f))]).
Proof.
  intros key. apply (write_new_note cb flags inv) with (rumor := rumor); try done; [by apply (next_key_wf cb flags inv txn) | by apply kind_stats_benign].
Qed.

Section reading.
Context {D C : Type} `{!Lmdb D C} `{!LmdbPut D C}.
Context (cb : list Z -> mem -> Z -> bool) (flags : Z) (inv : D -> D -> Prop) (txn : ndb_txn D).
Context (notes : list (Z * (mem * fnote))).
Hypothesis (St : stores cb flags inv txn notes) (Co : forall d : D, is_Some (mdb_cursor_open d)).

Lemma stored_get k b : is_u64 k ->
  ndb_get_note_by_key txn k = Some b <-> exists f, (k, (b, f)) ∈ notes.
Proof using St.
  intros Hk. unfold ndb_get_note_by_key, ndb_lookup_by_key.
  rewrite (nt_get _ _ k b (st_tables _ _ _ _ _ St NDB_DB_NOTE) Hk), list_elem_of_fmap. split.
  - intros ([k' [b' f]] & [= <- <-] & Hp). eauto.
  - intros (f & Hp). by exists (k, (b, f)).
Qed.

Lemma stored_key_wf p : p ∈ notes -> is_u64 (fst p).
Proof using St.
  intros Hp. apply (nt_key_wf _ _ (fst p, fst (snd p)) (st_tables _ _ _ _ _ St NDB_DB_NOTE)).
  apply list_elem_of_fmap. eauto.
Qed.

Lemma stored_note_unique k b f b' f' : (k, (b, f)) ∈ notes -> (k, (b', f')) ∈ notes -> b = b' /\ f = f'.
Proof using St.
  intros H1 H2. pose proof (st_tables _ _ _ _ _ St NDB_DB_NOTE) as T.
  pose proof (nt_sorted _ _ T) as S. clear T. revert H1 H2 S. clear. induction notes as [| p ns IH]; intros H1 H2 S.
  { by apply elem_of_nil in H1. }
  cbn [map] in S. apply StronglySorted_inv in S as [S F]. rewrite List.Forall_forall in F.
  assert (Lt : forall x, x ∈ ns -> fst p < fst x).
  { intros x Hx. apply (F (fst x, fst (snd x))). apply in_map_iff. exists x. split; [done | by apply list_elem_of_In]. }
  apply elem_of_cons in H1 as [<- | H1]; apply elem_of_cons in H2 as [E2 | H2].
  - by simplify_eq.
  - apply Lt in H2. simpl in H2. lia.
  - subst p. apply Lt in H1. simpl in H1. lia.
  - by apply IH.
Qed.
End reading.

Lemma stored_tsid {D C} `{!Lmdb D C} `{!LmdbPut D C} (cb : list Z -> mem -> Z -> bool) (flags : Z)
    (inv : D -> D -> Prop) (txn : ndb_txn D) (notes : list (Z * (mem * fnote))) :
  stores cb flags inv txn notes -> (forall d : D, is_Some (mdb_cursor_open d)) ->
  forall k b f, (k, (b, f)) ∈ notes -> n_created_at f < UINT64_MAX ->
  ndb_get_tsid txn NDB_DB_NOTE_ID (n_id f) = Some (le_bytes 8 k).
Proof.
  intros St Co k b f Hp Ht. destruct (st_tables _ _ _ _ _ St NDB_DB_NOTE_ID) as (l & T & Hl).
  pose proof (proj1 (List.Forall_forall _ _) (st_reads _ _ _ _ _ St) _ (proj1 (list_elem_of_In _ _) Hp)) as Rd.
  cbn [fst snd] in Rd. destruct (note_id_wf _ _ _ Rd) as (W1 & _).
  destruct (Co (txn NDB_DB_NOTE_ID)) as [c Ho].
  pose proof (get_tsid_spec txn NDB_DB_NOTE_ID _ (n_id f) c (value_table_index _ _ T) W1 Ho) as S.
  assert (Hin : forall ts v, (mk_tsid (n_id f) ts, v) ∈ map (fun e : tsid * list Z => (fst e, dv_bytes (snd e))) l <->
    ts = n_created_at f /\ v = le_bytes 8 k).
  { intros ts v. rewrite list_elem_of_fmap. split.
    - intros ([k' v'] & [= <- ->] & Hin). apply Hl in Hin as (p & Hq & [= Ei -> ->]%list_elem_of_singleton).
      assert (Eq : p = (k, (b, f))); [| by subst p].
      apply list_elem_of_lookup in Hp as [i Hi]. apply list_elem_of_lookup in Hq as [j Hj].
      assert (i = j) as <-; [| congruence].
      apply (NoDup_lookup _ i j (n_id f) (st_ids _ _ _ _ _ St)); rewrite list_lookup_fmap; [by rewrite Hi | by rewrite Hj, Ei].
    - intros [-> ->]. exists (mk_tsid (n_id f) (n_created_at f), le_bytes 8 k). split; [done |].
      apply Hl. exists (k, (b, f)). split; [done | by apply list_elem_of_singleton]. }
  destruct (ndb_get_tsid txn NDB_DB_NOTE_ID (n_id f)) as [v |].
  - destruct S as (ts & Hv & _). by apply Hin in Hv as [_ ->].
  - specialize (S (n_created_at f) (le_bytes 8 k) (proj2 (Hin _ _) (conj eq_refl eq_refl))). lia.
Qed.

(** In a consistent database every stored note is found by its id, with its
    key, unless it carries the last representable time. *)
Theorem stored_note_found {D C} `{!Lmdb D C} `{!LmdbPut D C} (cb : list Z -> mem -> Z -> bool) (flags : Z)
    (inv : D -> D -> Prop) (txn : ndb_txn D) (notes : list (Z * (mem * fnote))) (k : Z) (b : mem) (f : fnote)
    (St : stores cb flags inv txn notes) (Co : forall d : D, is_Some (mdb_cursor_open d))
    (Hp : (k, (b, f)) ∈ notes) (Ht : n_created_at f < UINT64_MAX) :
  ndb_get_note_by_id txn (n_id f) = Some (b, k).
Proof.
  pose proof (stored_key_wf cb flags inv txn notes St _ Hp) as Wk. cbn [fst] in Wk.
  unfold ndb_get_note_by_id, ndb_lookup_tsid. rewrite (stored_tsid cb flags inv txn notes St Co k b f Hp Ht).
  cbn [mbind option_bind]. rewrite (u64_at_mid (le_bytes 8 k) [] k [] 0) by (done || by rewrite app_nil_r).
  cbn [mbind option_bind].
  assert (G : ndb_get_note_by_key txn k = Some b) by (apply (stored_get cb flags inv txn notes St k b Wk); eauto).
  unfold ndb_get_note_by_key, ndb_lookup_by_key in G. by rewrite G.
Qed.

(** ** Queries over the stored notes *)

Section stored_queries.
Context {D C : Type} `{!Lmdb D C} `{!LmdbPut D C}.
Context (cb : list Z -> mem -> Z -> bool) (flags : Z) (inv : D -> D -> Prop) (txn : ndb_txn D).
Context (notes : list (Z * (mem * fnote))).
Hypothesis (St : stores cb flags inv txn notes).

(** What the note under a key reads as, with the relays it was seen on. *)
Definition note_fn (k : Z) : fnote :=
  match list_find (fun p => fst p = u64 k) notes with
  | Some (_, (_, (_, f))) =>
      mk_fnote (n_id f) (n_pubkey f) (n_kind f) (n_created_at f) (n_tags f) (ndb_note_relay_iterate txn k) (n_custom f)
  | None => mk_fnote [] [] 0 0 [] (ndb_note_relay_iterate txn k) (fun _ => false)
  end.

Lemma le_bytes_u64 k : le_bytes 8 k = le_bytes 8 (u64 k).
Proof using.
  rewrite <- (le_bytes_le_int (le_bytes 8 k)) by apply le_bytes_ok. rewrite le_int_le_bytes.
  by rewrite length_le_bytes.
Qed.

Lemma stored_notes_read : notes_read cb txn note_fn.
Proof using St.
  intros k note E. unfold ndb_get_note_by_key, ndb_lookup_by_key in E. rewrite le_bytes_u64 in E.
  apply (nt_get _ _ (u64 k) note (st_tables _ _ _ _ _ St NDB_DB_NOTE) (u64_range k)) in E.
  apply list_elem_of_fmap in E as ([k' [b f]] & [= Ek ->] & Hp).
  unfold note_fn. destruct (list_find _ notes) as [[i [k2 [b2 f2]]] |] eqn:El.
  - apply list_find_Some in El as (E1 & E2 & _). cbn [fst] in E2. rewrite Ek in E2. subst k2.
    assert (Hp2 : (k', (b2, f2)) ∈ notes) by (apply list_elem_of_lookup; eauto).
    destruct (stored_note_unique cb flags inv txn notes St k' b f b2 f2 Hp Hp2) as [<- <-].
    pose proof (proj1 (List.Forall_forall _ _) (st_reads _ _ _ _ _ St) _ (proj1 (list_elem_of_In _ _) Hp)) as [].
    split; [by split | done].
  - apply list_find_None in El. exfalso. rewrite List.Forall_forall in El.
    apply (El _ (proj1 (list_elem_of_In _ _) Hp)). by rewrite Ek.
Qed.

(** The notes of a kind in a window, as time and key. *)
Definition notes_of_kind (since until kind : Z) : list (Z * Z) :=
  map (fun p => (n_created_at (snd (snd p)), fst p))
    (List.filter (fun p => let f := snd (snd p) in
       (n_kind f =? kind) && (n_created_at f <? until) && (since <=? n_created_at f)) notes).

Definition scan_entry (e : u64_ts * Z) : Z * (Z * Z) := (ut_u64 (fst e), (ut_timestamp (fst e), snd e)).

Lemma value_table_scan (d : D) l : value_table (dup := int_cmp) d l -> scan_table d (map scan_entry l).
Proof using.
  intros T. split.
  - apply (vt_cmp _ _ T).
  - rewrite (vt_items _ _ T), map_map. apply map_ext. by intros [[u t] v].
  - apply Forall_map. generalize (vt_wf _ _ T). apply Forall_impl. intros [[u t] v] [[W1 W2] W3]. done.
  - apply (sorted_map_impl _ (ele pair_ord) _ (fun _ => True)); [apply (vt_sorted _ _ T) | by apply List.Forall_forall |].
    intros [[u1 t1] v1] [[u2 t2] v2] _ _ H. unfold ele, pair_ord, pair_cmp in H. cbn in H. unfold entry_le, ple, scan_entry.
    cbn. unfold pair_cmp in H. cbn in H.
    destruct (Z.compare_spec u1 u2); cbn in H; [| by left | done].
    right. split; [done |]. destruct (Z.compare_spec t1 t2); cbn in H; [| by left | done].
    right. split; [done |]. destruct (Z.compare_spec v1 v2); [lia | lia | done].
Qed.

Lemma kind_entries_notes (l : list (u64_ts * Z)) since until kind : NoDup l ->
  (forall k v, (k, v) ∈ l <-> exists p, p ∈ notes /\ (k, v) ∈ [kind_entry (fst p) (snd (snd p))]) ->
  table_entries (map scan_entry l) since until kind ≡ₚ notes_of_kind since until kind.
Proof using St.
  intros Nl Hl. apply NoDup_Permutation.
  - unfold table_entries, group_entries. clear Hl. induction Nl as [| e l He Nl IH]; [constructor |].
    cbn [map List.filter]. destruct (_ && _) eqn:Ek; [| done]. cbn [map]. apply list.NoDup_cons. split; [| done].
    intros Hin. apply list_elem_of_fmap in Hin as (x & Ex & Hx). apply list_elem_of_In, filter_In in Hx as [Hx Kx].
    apply in_map_iff in Hx as (y & <- & Hy). apply He. apply list_elem_of_In in Hy.
    assert (e = y) as ->; [| done]. apply andb_true_iff in Ek as [Ek _]. apply andb_true_iff in Ek as [Ek _].
    apply andb_true_iff in Kx as [Kx _]. apply andb_true_iff in Kx as [Kx _]. apply bool_decide_eq_true in Ek, Kx.
    destruct e as [[u1 t1] v1], y as [[u2 t2] v2]. cbn in *. congruence.
  - unfold notes_of_kind. pose proof (nt_sorted _ _ (st_tables _ _ _ _ _ St NDB_DB_NOTE)) as S. revert S. clear.
    induction notes as [| p ns IH]; intros S; [constructor |]. cbn [map] in S. apply StronglySorted_inv in S as [S F].
    cbn [List.filter]. destruct (_ && _); [| by apply IH]. cbn [map]. apply list.NoDup_cons. split; [| by apply IH].
    intros Hin. apply list_elem_of_fmap in Hin as (x & [= _ Ex] & Hx). apply list_elem_of_In, filter_In in Hx as [Hx _].
    rewrite List.Forall_forall in F. specialize (F (fst x, fst (snd x))). cbn in F.
    assert (Hm : In (fst x, fst (snd x)) (map (fun p => (fst p, fst (snd p))) ns)) by (apply in_map_iff; eauto).
    specialize (F Hm). lia.
  - intros [t k]. unfold table_entries, group_entries, notes_of_kind. rewrite !list_elem_of_fmap. split.
    + intros (x & -> & Hx). apply list_elem_of_In, filter_In in Hx as [Hx Kx].
      apply in_map_iff in Hx as ([[u1 t1] v1] & <- & Hy). apply list_elem_of_In, Hl in Hy as (p & Hp & Ep%list_elem_of_singleton).
      injection Ep as -> -> ->. exists p. split; [done |]. apply list_elem_of_In, filter_In.
      split; [by apply list_elem_of_In |]. cbn in Kx. rewrite bool_decide_decide in Kx.
      destruct (decide _) as [E |]; [| done]. apply Z.eqb_eq in E. rewrite E. exact Kx.
    + intros (p & [= -> ->] & Hp). apply list_elem_of_In, filter_In in Hp as [Hp Kp].
      exists (scan_entry (kind_entry (fst p) (snd (snd p)))). split; [done |]. apply list_elem_of_In, filter_In. split.
      * apply in_map_iff. eexists. split; [reflexivity |]. apply list_elem_of_In. destruct (kind_entry _ _) as [k v] eqn:Ee.
        apply Hl. exists p. split; [by apply list_elem_of_In | by apply list_elem_of_singleton].
      * cbn. rewrite bool_decide_decide. destruct (decide _) as [E | E]; [| exfalso; apply E; apply Z.eqb_eq].
        -- rewrite E, Z.eqb_refl in Kp. exact Kp.
        -- by destruct (_ =? kind).
Qed.
End stored_queries.

(** C3: From a consistent database a query by kinds is answered from the stored
    notes: the newest of the notes of these kinds in the window, up to the limit,
    that the filter admits, newest first. *)
Theorem stored_query_by_kinds {D C V} `{!Lmdb D C} `{!LmdbPut D C} (visitor : V -> query_result -> ndb_visitor_action * V)
    (cb : list Z -> mem -> Z -> bool) (flags : Z) (inv : D -> D -> Prop) (txn : ndb_txn D) search profile_search
    (notes : list (Z * (mem * fnote))) (afs : list afield) (a : afield) (capacity : Z)
    (St : stores cb flags inv txn notes) (Co : forall d : D, is_Some (mdb_cursor_open d))
    (Oa : declared_ok afs) (Ko : kinds_only afs) (Ea : declared afs KINDS = Some a)
    (Hl : forall p, declared_int afs LIMIT = Some p -> p < 2 ^ 31) (Hc : 0 <= capacity < 2 ^ 31) :
  exists flt out rs, build_filter afs ndb_filter_init = Some (true, flt) /\ descending out /\
    out ≡ₚ flat_map (notes_of_kind notes (window_since afs) (window_until afs)) (map key_int (a_keys a)) /\
    ndb_query visitor cb txn search profile_search [flt] capacity = Some (Some rs) /\
    StronglySorted newer rs /\
    rs ≡ₚ take (Z.to_nat (result_limit afs capacity))
            (omap (result_of txn (note_fn txn notes) (bit KINDS) afs) (map snd out)).
Proof.
  destruct (st_tables _ _ _ _ _ St NDB_DB_NOTE_KIND) as (l & T & Hm).
  destruct (Co (txn NDB_DB_NOTE_KIND)) as [c Ho].
  destruct (kinds_query_result visitor cb txn search profile_search afs a (note_fn txn notes) (map scan_entry l) c capacity
    Oa Ko Ea Hl Hc (stored_notes_read cb flags inv txn notes St) (value_table_scan _ l T) Ho)
    as (flt & out & rs & E1 & So & Po & E2 & E3 & E4).
  exists flt, out, rs. do 2 (split; [done |]). split; [| done]. rewrite Po.
  generalize (map key_int (a_keys a)) as kinds. intros kinds. induction kinds as [| kind kinds IH]; [done |].
  cbn [flat_map]. rewrite IH. apply Permutation_app_tail.
  exact (kind_entries_notes cb flags inv txn notes St l _ _ kind (vt_nodup _ _ T) Hm).
Qed.

(** ** A database of one note *)

#[local] Abbreviation LC := (list_db * option nat)%type.
Definition no_inv : list_db -> list_db -> Prop := fun _ _ => True.
Definition no_work {A} (a : A) : M (ndb_txn list_db) A := ret a.

Lemma empty_stores : stores (C := LC) no_custom 0 no_inv empty_txn [].
Proof.
  split.
  - split; [done | exact I].
  - assert (V : forall K V dup `{!LmdbKey K} `{!DupValue V dup} (entries : Z -> fnote -> list (K * V)) (d : list_db),
      ld_cmp d = key_compare (K := K) -> ld_dup d = Some dup -> ld_items d = [] -> indexes (C := LC) entries [] d).
    { intros K V dup LK DV entries d E1 E2 E3. exists []. split; [split; (done || constructor) |].
      intros k v. rewrite elem_of_nil. split; [done |]. by intros (p & []%elem_of_nil & _). }
    intros []; cbn [table_ok]; try exact I; try (by apply V).
    + split; (done || constructor).
    + exists []. split; [split; (done || constructor) |]. split; [constructor |].
      intros k. rewrite elem_of_nil. split; [done |]. by intros (p & []%elem_of_nil & _).
  - constructor.
  - constructor.
Qed.

Lemma list_cursor_ok (d : list_db) : is_Some (mdb_cursor_open (C := LC) d).
Proof. by eexists. Qed.

Lemma demo_text_ok : indexable_text (note_at 100 1).
Proof.
  exists (mk_str 1 148), 2.
  split; [vm_compute; reflexivity |]. split; [done |]. split; [vm_compute; reflexivity |].
  split; [simpl; lia |]. split; [lia | vm_compute; discriminate].
Qed.

Lemma write_note_stores_witness :
  exists txn', ndb_write_note (C := LC) (replicate 1024 0) (replicate 256 0) (replicate 255 0) (fun _ _ _ => no_work true)
      (fun _ _ => no_work tt) (fun _ _ => no_work tt) (fun _ _ => no_work tt) (fun _ _ => no_work tt) 0 true
      (mk_writer_note (note_at 100 1) None 0) empty_txn = Some ((1, []), txn') /\
    stores (C := LC) no_custom 0 no_inv txn' [(1, (note_at 100 1, fnote_at 100 1))].
Proof.
  apply (write_note_stores (C := LC) no_custom 0 no_inv (replicate 1024 0) (replicate 256 0) (replicate 255 0)
    (fun _ _ _ => no_work true) (fun _ _ => no_work tt) (fun _ _ => no_work tt) (fun _ _ => no_work tt)
    (fun _ _ => no_work tt) empty_txn [] (note_at 100 1) (fnote_at 100 1) None true false);
    [exact list_puts_ok | exact list_cursor_ok | reflexivity | reflexivity | reflexivity |
     intros k; apply benign_ret | apply benign_ret | apply benign_ret | apply benign_ret | apply benign_ret |
     exact empty_stores | apply note_at_reads; by right | vm_compute; reflexivity | done | intros _; exact demo_text_ok |
     vm_compute; discriminate | apply not_elem_of_nil | done].
Defined.

Lemma demo_stores : exists txn, stores (C := LC) no_custom 0 no_inv txn [(1, (note_at 100 1, fnote_at 100 1))].
Proof.
  assert (Rd : note_reads no_custom (note_at 100 1) 0 (fnote_at 100 1)) by (apply note_at_reads; by right).
  destruct (store_note_spec (C := LC) no_custom 0 no_inv (replicate 1024 0) (replicate 256 0) (replicate 255 0)
    (fun _ _ _ => no_work true) (fun _ _ => no_work tt) (fun _ _ => no_work tt) (fun _ _ => no_work tt)
    (fun _ _ => no_work tt) list_puts_ok list_cursor_ok eq_refl eq_refl eq_refl [] 1 (note_at 100 1) (fnote_at 100 1)
    no_inv ltac:(done) Rd (fun _ => benign_ret _ _) (kind_stats_benign _ _ _ _ _ _ _ _ (benign_ret _ _) (benign_ret _ _) (benign_ret _ _) (benign_ret _ _))
    (fun _ => demo_text_ok) ltac:(by vm_compute) empty_txn None empty_stores eq_refl (not_elem_of_nil _)) as (txn & _ & St).
  by exists txn.
Qed.

Lemma stored_note_found_witness :
  exists txn : ndb_txn list_db, ndb_get_note_by_id (C := LC) txn (replicate 32 0xaa) = Some (note_at 100 1, 1).
Proof.
  destruct demo_stores as [txn St]. exists txn.
  apply (stored_note_found (C := LC) no_custom 0 no_inv txn [(1, (note_at 100 1, fnote_at 100 1))] 1 (note_at 100 1)
    (fnote_at 100 1) St list_cursor_ok); [by apply list_elem_of_singleton | done].
Defined.

(** Kinds 7 and 1 before 200, limit 2. *)
Lemma stored_query_by_kinds_witness :
  exists (txn : ndb_txn list_db) flt out rs, build_filter demo_limited ndb_filter_init = Some (true, flt) /\
    descending out /\ out ≡ₚ [(100, 1)] /\
    ndb_query (C := LC) (fun (v : unit) _ => (NDB_VISITOR_CONT, v)) no_custom txn (fun _ _ => None) (fun _ _ => None)
      [flt] 10 = Some (Some rs) /\
    StronglySorted newer rs /\
    rs ≡ₚ take 2 (omap (result_of (C := LC) txn (note_fn (C := LC) txn [(1, (note_at 100 1, fnote_at 100 1))]) (bit KINDS)
                    demo_limited) (map snd out)).
Proof.
  destruct demo_stores as [txn St]. exists txn.
  exact (stored_query_by_kinds (C := LC) (fun (v : unit) _ => (NDB_VISITOR_CONT, v)) no_custom 0 no_inv txn
    (fun _ _ => None) (fun _ _ => None) [(1, (note_at 100 1, fnote_at 100 1))] demo_limited
    (mk_afield KINDS 0 [KInt 7; KInt 1]) 10 St list_cursor_ok demo_limited_ok
    ltac:(by repeat constructor) eq_refl ltac:(by intros p [= <-]) ltac:(lia)).
Defined.

(** ** Writing a note that is there already *)

(** A note whose id is stored already is not written again: the result is 0
    and only the two relay tables can change, so a note seen on another relay
    gains that relay and nothing else.  (The stored key must not be a multiple
    of 2^32, because it is read as 32 bits.) *)
Theorem known_note_only_gains_relay {D C} `{!Lmdb D C} `{!LmdbPut D C} (cb : list Z -> mem -> Z -> bool) (flags : Z)
    (inv : D -> D -> Prop) (buffer relay_buf tag_buf : mem)
    (blocks : mem -> Z -> Z -> M (ndb_txn D) bool)
    (note_stats reaction_stats repost_stats zap_stats : mem -> Z -> M (ndb_txn D) unit)
    (txn : ndb_txn D) (notes : list (Z * (mem * fnote))) (k : Z) (b b' : mem) (f f' : fnote)
    (relay : option (list Z)) (inbox : bool)
    (Co : forall d : D, is_Some (mdb_cursor_open d)) (Hb2 : zlen relay_buf = 256)
    (St : stores cb flags inv txn notes) (Hp : (k, (b, f)) ∈ notes) (Hk : k mod 2 ^ 32 <> 0)
    (Rd : note_reads cb b' 0 f') (Hid : n_id f' = n_id f) (Ht : n_created_at f < UINT64_MAX)
    (Hr : ndb_note_is_rumor b' 0 = Some false) :
  exists txn', ndb_write_note buffer relay_buf tag_buf blocks note_stats reaction_stats repost_stats zap_stats flags inbox
      (mk_writer_note b' relay 0) txn = Some ((0, []), txn') /\
    stores cb flags inv txn' notes /\
    forall db, indexed_db db = true -> txn' db = txn db.
Proof.
  pose proof (stored_key_wf cb flags inv txn notes St _ Hp) as Wk. cbn [fst] in Wk.
  assert (El : ndb_get_notekey_by_id txn (n_id f') = Some (k mod 2 ^ 32)).
  { pose proof (stored_tsid cb flags inv txn notes St Co k b f Hp Ht) as E. rewrite Hid.
    unfold ndb_get_notekey_by_id, ndb_get_indexkey_by_id. rewrite E.
    change (loadn (le_bytes 8 k) 0 4) with (Some (le_bytes 4 k)). cbn [fmap option_fmap option_map].
    f_equal. exact (le_int_le_bytes 4 k). }
  assert (Bw : benign inv (write_relay relay_buf b' (k mod 2 ^ 32) (n_kind f') relay)).
  { apply write_relay_benign; [done |]. rewrite (created_32 cb b' f' Rd). eauto. }
  destruct (Bw txn (st_env _ _ _ _ _ St)) as (r & txn' & E & I & S).
  exists txn'. split.
  - unfold ndb_write_note. cbn [wn_note wn_overwrite wn_relay].
    rewrite run_get. change off.kind with (0 + off.kind). rewrite (run_lift _ _ _ _ (nr_kind _ _ _ _ Rd)).
    cbn [Z.eqb]. rewrite (nr_id _ _ _ _ Rd). cbn [mbind option_bind].
    rewrite (run_lift _ _ _ _ El), (run_lift _ _ _ _ Hr).
    destruct (Z.eqb_spec (k mod 2 ^ 32) 0); [done |]. cbn [negb andb].
    rewrite (run_lift (Some false) false _ _ eq_refl). cbn [negb andb]. by rewrite (run_bind _ _ _ _ _ E).
  - split; [| done]. split; [done | | apply (st_reads _ _ _ _ _ St) | apply (st_ids _ _ _ _ _ St)].
    intros db. destruct (indexed_db db) eqn:Ei; [rewrite S by done; apply (st_tables _ _ _ _ _ St) | by destruct db].
Qed.

(** The demonstration note again, now from a relay. *)
Lemma known_note_only_gains_relay_witness :
  exists txn txn' : ndb_txn list_db, ndb_write_note (C := LC) (replicate 1024 0) (replicate 256 0) (replicate 255 0)
      (fun _ _ _ => no_work true) (fun _ _ => no_work tt) (fun _ _ => no_work tt) (fun _ _ => no_work tt)
      (fun _ _ => no_work tt) 0 true (mk_writer_note (note_at 100 1) (Some [119; 115; 58; 47; 47; 97]) 0) txn =
        Some ((0, []), txn') /\
    stores (C := LC) no_custom 0 no_inv txn' [(1, (note_at 100 1, fnote_at 100 1))] /\
    forall db, indexed_db db = true -> txn' db = txn db.
Proof.
  destruct demo_stores as [txn St]. exists txn.
  apply (known_note_only_gains_relay (C := LC) no_custom 0 no_inv (replicate 1024 0) (replicate 256 0) (replicate 255 0)
    (fun _ _ _ => no_work true) (fun _ _ => no_work tt) (fun _ _ => no_work tt) (fun _ _ => no_work tt)
    (fun _ _ => no_work tt) txn [(1, (note_at 100 1, fnote_at 100 1))] 1 (note_at 100 1) (note_at 100 1)
    (fnote_at 100 1) (fnote_at 100 1) (Some [119; 115; 58; 47; 47; 97]) true list_cursor_ok);
    [reflexivity | exact St | by apply list_elem_of_singleton | done | apply note_at_reads; by right | done | done |
     vm_compute; reflexivity].
Defined.

(** ** Deviations *)

(** The length of a tag value goes through a byte: a value of 256 bytes or
    more is indexed under its first length mod 256 bytes, so a search for that
    prefix finds the note. *)
Theorem long_tag_value_truncated (tag_buf m : mem) (note tag : Z) (f0 f1 c ts : Z) (s : list Z) (rest : list (Z * elem))
    (Hb : zlen tag_buf = 255) (Ho : bytes_ok m)
    (Hr : raw_tag m note tag = Some ((f0, EStr [c]) :: (f1, EStr s) :: rest))
    (Et : ndb_note_created_at m note = Some ts) (Hs : 256 <= zlen s) (Hm : zlen s mod 256 <= 246) :
  tag_index_key tag_buf m note tag =
    Some (Some ((c :: take (Z.to_nat (zlen s mod 256)) s) ++ le_bytes 8 ts)) /\
  zlen (take (Z.to_nat (zlen s mod 256)) s) < zlen s.
Proof.
  pose proof (Z.mod_pos_bound (zlen s) 256 ltac:(lia)) as R.
  assert (Lt : zlen (take (Z.to_nat (zlen s mod 256)) s) = zlen s mod 256).
  { unfold zlen in *. rewrite length_take. lia. }
  split; [| lia]. rewrite (tag_index_key_spec tag_buf m note tag _ ts Hb Ho Hr Et). cbn [tag_key_of tag_letter mbind option_bind].
  cbn [indexed_value]. unfold u8. change (2 ^ 8) with 256. rewrite Lt.
  by destruct (Z.leb_spec (zlen s mod 256) 246); [| lia].
Qed.

(** A note with a tag t of 300 letters. *)
Definition long_tag_note : mem :=
  [1; 0; 0; 0] ++ replicate 32 0xaa ++ replicate 32 0xbb ++ replicate 64 0xcc ++
  le_bytes 8 100 ++ le_bytes 4 1 ++ le_bytes 4 2 ++ [104; 105; 0; 1] ++
  le_bytes 4 170 ++ [0; 0] ++ le_bytes 2 1 ++
  le_bytes 2 2 ++ [116; 0; 0; 1] ++ le_bytes 4 0 ++ replicate 300 97 ++ [0].

Lemma long_tag_value_truncated_witness :
  tag_index_key (replicate 255 0) long_tag_note 0 160 = Some (Some ((116 :: replicate 44 97) ++ le_bytes 8 100)) /\
  zlen (take 44 (replicate 300 97)) < 300.
Proof.
  apply (long_tag_value_truncated (replicate 255 0) long_tag_note 0 160 1 0 116 100 (replicate 300 97) []);
    [reflexivity | by apply bytes_ok_dec | vm_compute; reflexivity | vm_compute; reflexivity | vm_compute; discriminate |
     vm_compute; discriminate].
Defined.

(** *** Rebuilding an index empties others *)

Section rebuilding.
Context {D C : Type} `{!Lmdb D C} `{!LmdbPut D C}.

(** The tables a rebuild of the author indexes writes. *)
Definition rebuilt (db : ndb_dbs) : Prop := db = NDB_DB_NOTE_PUBKEY \/ db = NDB_DB_NOTE_PUBKEY_KIND.

(** One put into a table of pairs. *)
Lemma rebuilt_put {K V dup} `{!LmdbKey K} `{!DupValue V dup} (Po : puts_ok D) (txn : ndb_txn D) db (P : K -> V -> Prop) (k : K) (v : V) :
  env_ok txn -> table_holds (txn db) P -> key_wf k -> dv_wf v -> 0 < zlen (Keys.key_bytes k) <= MDB_MAXKEYSIZE ->
  zlen (dv_bytes v) <= MDB_MAXKEYSIZE ->
  exists txn', txn_put db (Keys.key_bytes k) (dv_bytes v) false txn = Some (true, txn') /\ env_ok txn' /\
    table_holds (txn' db) (fun k' v' => (k', v') = (k, v) \/ P k' v') /\ forall db', db' <> db -> txn' db' = txn db'.
Proof.
  intros Ee H Wk Wv Sk Sv. destruct (table_holds_put Po txn db P k v H Wk Wv Sk Sv) as (d & E1 & E2 & E3).
  exists (upd txn db d). split; [exact E1 |]. split; [by eapply env_ok_upd |]. split.
  - rewrite upd_same. revert E3. apply table_holds_iff. intros k' v'. split; (intros [H' | ?]; [left | by right]).
    + by destruct H' as [-> ->].
    + by injection H' as -> ->.
  - intros db' N. apply upd_other. congruence.
Qed.

Lemma rebuild_note_run (cb : list Z -> mem -> Z -> bool) (Po : puts_ok D) (txn : ndb_txn D) (P : tsid -> Z -> Prop) (Q : id_u64_ts -> Z -> Prop) nm f key :
  note_reads cb nm 0 f -> is_u64 key -> env_ok txn -> table_holds (txn NDB_DB_NOTE_PUBKEY) P -> table_holds (txn NDB_DB_NOTE_PUBKEY_KIND) Q ->
  exists txn', rebuild_note [NDB_DB_NOTE_PUBKEY; NDB_DB_NOTE_PUBKEY_KIND] nm key txn = Some (None, txn') /\ env_ok txn' /\
    table_holds (txn' NDB_DB_NOTE_PUBKEY) (fun k v => (k, v) = pubkey_entry key f \/ P k v) /\
    table_holds (txn' NDB_DB_NOTE_PUBKEY_KIND) (fun k v => (k, v) = pubkey_kind_entry key f \/ Q k v) /\
    forall db, ~ rebuilt db -> txn' db = txn db.
Proof.
  intros Rd Hk Ee HP HQ. destruct (note_id_wf _ _ _ Rd) as (W1 & W2 & W3 & W4 & W5).
  destruct (rebuilt_put (dup := int_cmp) Po txn NDB_DB_NOTE_PUBKEY P (fst (pubkey_entry key f)) (snd (pubkey_entry key f)) Ee HP)
    as (t1 & E1 & Ee1 & H1 & O1); [by split | done | key_size | key_size |].
  destruct (rebuilt_put (dup := int_cmp) Po t1 NDB_DB_NOTE_PUBKEY_KIND Q (fst (pubkey_kind_entry key f)) (snd (pubkey_kind_entry key f)) Ee1)
    as (t2 & E2 & Ee2 & H2 & O2); [by rewrite O1 | by split | done | key_size | key_size |].
  unfold pubkey_entry, pubkey_kind_entry in E1, E2.
  cbn [Keys.key_bytes tsid_key id_u64_ts_key dv_bytes int_value fst snd ts_id ts_timestamp iu_id iu_u64 iu_timestamp] in E1, E2.
  exists t2. split; [| split; [done |]; split; [by rewrite O2 |]; split; [done |]].
  - cbn [rebuild_note]. unfold bind at 1. unfold ndb_write_note_pubkey_index. rewrite (nr_pubkey _ _ _ _ Rd), (created_32 cb nm f Rd).
    cbn [mbind option_bind]. rewrite E1.
    unfold bind at 1. unfold ndb_write_note_pubkey_kind_index, ndb_note_kind. rewrite (nr_pubkey _ _ _ _ Rd), (nr_kind _ _ _ _ Rd), (created_32 cb nm f Rd).
    cbn [mbind option_bind]. by rewrite E2.
  - intros db N. rewrite O2, O1; [done | |]; intros ->; apply N; [by left | by right].
Qed.

Lemma rebuild_loop_run (cb : list Z -> mem -> Z -> bool) (Po : puts_ok D) (notes : list (Z * (mem * fnote))) (d : D) :
  note_table d (map (fun p => (fst p, fst (snd p))) notes) -> Forall (fun p => note_reads cb (fst (snd p)) 0 (snd (snd p))) notes ->
  forall todo done_, notes = done_ ++ todo -> forall fuel c count (txn : ndb_txn D) (P : tsid -> Z -> Prop) (Q : id_u64_ts -> Z -> Prop),
  (length todo < fuel)%nat -> cur_db c = d -> length done_ = match cur_pos c with None => 0%nat | Some p => S p end ->
  env_ok txn -> table_holds (txn NDB_DB_NOTE_PUBKEY) P -> table_holds (txn NDB_DB_NOTE_PUBKEY_KIND) Q ->
  exists txn', rebuild_loop fuel [NDB_DB_NOTE_PUBKEY; NDB_DB_NOTE_PUBKEY_KIND] c count txn = Some (count + zlen todo, txn') /\ env_ok txn' /\
    table_holds (txn' NDB_DB_NOTE_PUBKEY) (fun k v => (exists p, p ∈ todo /\ (k, v) = pubkey_entry (fst p) (snd (snd p))) \/ P k v) /\
    table_holds (txn' NDB_DB_NOTE_PUBKEY_KIND) (fun k v => (exists p, p ∈ todo /\ (k, v) = pubkey_kind_entry (fst p) (snd (snd p))) \/ Q k v) /\
    forall db, ~ rebuilt db -> txn' db = txn db.
Proof.
  intros T Rd. induction todo as [| [key [nm f]] todo IH]; intros dn En fuel c count txn P Q Hf Hc Hp Ee HP HQ;
    (destruct fuel as [| fuel]; [cbn in Hf; lia |]); cbn [rebuild_loop].
  - assert (El : length (db_items (cur_db c)) = length dn) by (rewrite Hc, (nt_items _ _ T), !length_map, En, app_nil_r; done).
    rewrite cursor_get_None.
    + exists txn. change (zlen []) with 0. rewrite Z.add_0_r. split; [done |]. split; [done |].
      split; [| split; [| done]]; eapply table_holds_iff; [| exact HP | | exact HQ];
        (intros k v; split; [by right |]; intros [(p & Hin & _) | ?]; [by apply elem_of_nil in Hin | done]).
    + unfold mdb_goto. destruct (cur_pos c) as [p |]; [rewrite decide_False by lia; done |].
      rewrite Hp in El. by destruct (db_items (cur_db c)).
  - assert (Hat : db_items (cur_db c) !! length dn = Some (le_bytes 8 key, nm)).
    { rewrite Hc, (nt_items _ _ T), !list_lookup_fmap, En, (list_lookup_middle dn todo (key, (nm, f)) (length dn)) by done. done. }
    destruct (cursor_get_Some c MDB_NEXT (length dn) (le_bytes 8 key, nm)) as (c' & Eg & Hc' & Hp'); [| exact Hat |].
    { unfold mdb_goto. pose proof (lookup_lt_Some _ _ _ Hat). destruct (cur_pos c) as [p |].
      - rewrite decide_True by lia. by rewrite Hp.
      - rewrite Hp in *. by destruct (db_items (cur_db c)). }
    rewrite Eg. cbn [fst snd].
    assert (Wk : is_u64 key) by (apply (nt_key_wf _ _ (key, nm) T), list_elem_of_fmap; exists (key, (nm, f)); split; [done |]; rewrite En, elem_of_app; right; apply elem_of_cons; by left).
    rewrite (u64_at_mid (le_bytes 8 key) [] key [] 0) by (done || by rewrite app_nil_r). cbn [mbind option_bind].
    assert (Rn : note_reads cb nm 0 f) by (rewrite En in Rd; apply List.Forall_app in Rd as [_ Rd]; by apply List.Forall_cons_iff in Rd as [Rd _]).
    destruct (rebuild_note_run cb Po txn P Q nm f key Rn Wk Ee HP HQ) as (t1 & E1 & Ee1 & HP1 & HQ1 & O1). rewrite E1. cbn [mbind option_bind fst snd].
    destruct (IH (dn ++ [(key, (nm, f))]) ltac:(by rewrite <- app_assoc) fuel c' (count + 1) t1 _ _ ltac:(cbn in Hf; lia) ltac:(by rewrite Hc') ltac:(rewrite Hp', length_app; cbn; lia) Ee1 HP1 HQ1)
      as (txn' & E & Ee' & HP' & HQ' & O').
    exists txn'. rewrite E, zlen_cons. split; [do 2 f_equal; lia |]. split; [done |].
    split; [| split; [| intros db N; by rewrite O', O1]]; eapply table_holds_iff; [| exact HP' | | exact HQ'];
      (intros k v; split; [intros [(p & Hin & E') | [E' | ?]]; [left; exists p; split; [by right | done] | left; exists (key, (nm, f)); split; [by left | done] | by right] |
         intros [(p & [-> | Hin]%elem_of_cons & E') | ?]; [right; by left | left; by exists p | right; by right]]).
Qed.

(** What [mdb_drop] is called on: two handles taken for two others. *)
Lemma dropped_tables (txn : ndb_txn D) : (forall d : D, is_Some (mdb_drop d)) -> env_ok txn ->
  exists txn', drop_loop [NDB_DB_NOTE_PUBKEY; NDB_DB_NOTE_PUBKEY_KIND] txn = Some (true, txn') /\ env_ok txn' /\
    db_items (txn' NDB_DB_NOTE_KIND) = [] /\ table_holds (txn' NDB_DB_NOTE_PUBKEY) (fun (_ : tsid) (_ : Z) => False) /\
    forall db, db <> NDB_DB_NOTE_KIND -> db <> NDB_DB_NOTE_PUBKEY -> txn' db = txn db.
Proof.
  intros Dr Ee. cbn [drop_loop].
  change (handle_db (ndb_dbs_num NDB_DB_NOTE_PUBKEY)) with (Some NDB_DB_NOTE_KIND).
  change (handle_db (ndb_dbs_num NDB_DB_NOTE_PUBKEY_KIND)) with (Some NDB_DB_NOTE_PUBKEY). cbn iota.
  destruct (Dr (txn NDB_DB_NOTE_KIND)) as [d1 E1]. rewrite E1. rewrite upd_other by done.
  destruct (Dr (txn NDB_DB_NOTE_PUBKEY)) as [d2 E2]. rewrite E2.
  destruct (mdb_drop_spec _ _ E1) as (C1 & D1 & I1), (mdb_drop_spec _ _ E2) as (C2 & D2 & I2).
  eexists. split; [reflexivity |]. split; [| split; [| split]].
  - intros db. unfold upd. repeat case_bool_decide; subst; rewrite ?C1, ?C2, ?D1, ?D2; apply Ee.
  - by rewrite upd_other, upd_same.
  - rewrite upd_same. exists []. destruct (Ee NDB_DB_NOTE_PUBKEY) as [Ec Ed].
    split; [split; rewrite ?C2, ?D2, ?Ec, ?Ed; (done || constructor) |]. intros k v. by rewrite elem_of_nil.
  - intros db N1 N2. by rewrite !upd_other.
Qed.
End rebuilding.

(** C40: The migration that builds the indexes by author empties the index by
    kind: it passes the numbers of the tables to mdb_drop where LMDB expects
    their handles, and 12, the number of note_pubkey, is the handle of
    note_kind.  When cursors can be opened, tables emptied, puts of the sizes LMDB
    takes succeed and the stored notes can be read, it reports success; the index
    by kind is then empty, note_pubkey holds the entries of the stored notes and
    nothing else, note_pubkey_kind holds them and every entry it held before, and
    the other tables are as they were. *)
Theorem rebuild_empties_kind_index {D C} `{!Lmdb D C} `{!LmdbPut D C} (cb : list Z -> mem -> Z -> bool)
    (txn : ndb_txn D) (notes : list (Z * (mem * fnote))) (old : id_u64_ts -> Z -> Prop)
    (Po : puts_ok D) (Co : forall d : D, is_Some (mdb_cursor_open d)) (Dr : forall d : D, is_Some (mdb_drop d)) (Ee : env_ok txn)
    (T : note_table (txn NDB_DB_NOTE) (map (fun p => (fst p, fst (snd p))) notes))
    (Rd : Forall (fun p => note_reads cb (fst (snd p)) 0 (snd (snd p))) notes)
    (Old : table_holds (txn NDB_DB_NOTE_PUBKEY_KIND) old) :
  exists txn', ndb_migrate_profile_indices txn = Some (true, txn') /\
    db_items (txn' NDB_DB_NOTE_KIND) = [] /\
    table_holds (txn' NDB_DB_NOTE_PUBKEY) (fun k v => exists p, p ∈ notes /\ (k, v) = pubkey_entry (fst p) (snd (snd p))) /\
    table_holds (txn' NDB_DB_NOTE_PUBKEY_KIND)
      (fun k v => (exists p, p ∈ notes /\ (k, v) = pubkey_kind_entry (fst p) (snd (snd p))) \/ old k v) /\
    forall db, db <> NDB_DB_NOTE_KIND -> ~ rebuilt db -> txn' db = txn db.
Proof.
  destruct (dropped_tables txn Dr Ee) as (t1 & Ed & Ee1 & Hk & Hp & O1).
  destruct (Co (t1 NDB_DB_NOTE)) as [c Ho]. destruct (cursor_open_spec _ _ Ho) as [Hc Hpos].
  assert (T1 : note_table (t1 NDB_DB_NOTE) (map (fun p => (fst p, fst (snd p))) notes)) by (by rewrite O1).
  destruct (rebuild_loop_run cb Po notes _ T1 Rd notes [] eq_refl (S (length (db_items (t1 NDB_DB_NOTE)))) c 0 t1 (fun (_ : tsid) (_ : Z) => False) old) as (txn' & E & Ee' & HP & HQ & O').
  { rewrite (nt_items _ _ T1), !length_map. lia. } { done. } { by rewrite Hpos. } { done. } { exact Hp. } { by rewrite O1. }
  exists txn'. split.
  - unfold ndb_migrate_profile_indices, ndb_rebuild_note_indices. cbn [forallb ndb_db_is_index andb negb].
    unfold bind at 1. unfold bind at 1. rewrite Ed. cbn [negb]. rewrite run_get, Ho, E. unfold ret. do 3 f_equal.
    pose proof (zlen_nonneg notes). destruct (Z.eqb_spec (0 + zlen notes) (-1)); [lia | done].
  - split; [rewrite O'; [done | by intros [? | ?]] |]. split; [| split; [exact HQ |]].
    + revert HP. apply table_holds_iff. intros k v. split; [by intros [? | []] | by left].
    + intros db Nk Nr. rewrite O' by done. apply O1; [done |]. intros ->. apply Nr. by left.
Qed.

(** A database with a note, its entry in the index by kind and a stale entry in
    the index by author and kind. *)
Definition kind_txn : ndb_txn list_db := fun db =>
  mk_list_db (fst (dbi_config db)) (snd (dbi_config db))
    match db with
    | NDB_DB_NOTE => [(le_bytes 8 1, note_at 100 1)]
    | NDB_DB_NOTE_KIND => [(ndb_u64_ts_init 1 100, le_bytes 8 1)]
    | NDB_DB_NOTE_PUBKEY_KIND => [(ndb_id_u64_ts_init (replicate 32 7) 1 100, le_bytes 8 9)]
    | _ => []
    end.

Definition stale_entry : id_u64_ts * Z := (mk_id_u64_ts (replicate 32 7) 1 100, 9).

Lemma rebuild_empties_kind_index_witness :
  db_items (kind_txn NDB_DB_NOTE_KIND) <> [] /\
  exists txn', ndb_migrate_profile_indices (C := LC) kind_txn = Some (true, txn') /\ db_items (txn' NDB_DB_NOTE_KIND) = [] /\
    table_holds (C := LC) (txn' NDB_DB_NOTE_PUBKEY_KIND) (fun k v =>
      (exists p, p ∈ [(1, (note_at 100 1, fnote_at 100 1))] /\ (k, v) = pubkey_kind_entry (fst p) (snd (snd p))) \/ (k, v) = stale_entry).
Proof.
  split; [done |].
  destruct (rebuild_empties_kind_index (C := LC) no_custom kind_txn [(1, (note_at 100 1, fnote_at 100 1))] (fun k v => (k, v) = stale_entry))
    as (txn' & E & Hk & _ & Hpk & _); [exact list_puts_ok | exact list_cursor_ok | by eexists | done | | | | by exists txn'].
  - split; [done | done | done | by repeat constructor | repeat constructor].
  - constructor; [apply note_at_reads; by right | constructor].
  - exists [stale_entry]. split; [split; try done; [by repeat constructor | repeat constructor | apply NoDup_singleton] |].
    intros k v. apply list_elem_of_singleton.
Defined.
