(* ===== verification/Metadata.v ===== *)
(** * Note metadata (src/src/metadata.h, src/src/metadata.c)

    The metadata of a note is one block: a header of 16 bytes and entries of 16
    bytes each, sorted by type and, among reactions, by reaction.  An entry holds
    the counters of its type.  Code that updates it clones it into a buffer,
    with an entry for the counter it wants.

    Functions work on a memory and addresses into it; the builder is a cursor.
    [None] is undefined behaviour or a failed assertion.  A pointer to metadata
    is NULL, a value of the database, or the buffer of the caller, whose first
    byte is at address 0.  The lemmas relate the bytes to [note_meta], a header
    and a list of entries sorted by their keys, and the theorems show that an
    update keeps that list sorted, touches one entry and loses none. *)

From stdpp Require Import sorting.
From S2P Require Import Keys.
From S2P Require Export Binmoji Filter.
Open Scope Z_scope.
Open Scope ndb_scope.

(** ** Layout *)

Definition NDB_NOTE_META_RESERVED : Z := 0.
Definition NDB_NOTE_META_COUNTS : Z := 100.
Definition NDB_NOTE_META_REACTION : Z := 200.
Definition NDB_NOTE_META_ZAP : Z := 300.
Definition NDB_NOTE_META_ZAP_UNVERIFIED : Z := 302.

Definition NDB_NOTE_META_FLAG_DELETED : Z := 0.
Definition NDB_NOTE_META_FLAG_SEEN : Z := 2.
Definition NDB_NOTE_META_FLAG_ZAP_VERIFIED : Z := 4.

(** Offsets of the packed [struct ndb_note_meta] and [struct ndb_note_meta_entry]. *)
Module moff.
Definition version : Z := 0.
Definition padding : Z := 1.
Definition count : Z := 2.
Definition data_table_size : Z := 4.
Definition flags : Z := 8.
Definition sizeof : Z := 16.
Definition e_type : Z := 0.
Definition e_aux2 : Z := 2.
Definition e_aux : Z := 4.
Definition e_payload : Z := 8.
Definition direct_replies : Z := 8.
Definition quotes : Z := 10.
Definition thread_replies : Z := 12.
Definition sizeof_entry : Z := 16.
End moff.

(** ** The header *)

Definition ndb_note_meta_entries_count (m : mem) (meta : Z) : option Z := load_u16 m (meta + moff.count).

Definition ndb_note_meta_header_init (m : mem) (meta : Z) : option mem :=
  m ← storen m (meta + moff.version) [1];
  m ← storen m (meta + moff.flags) (le_bytes 8 0);
  m ← storen m (meta + moff.count) (le_bytes 2 0);
  storen m (meta + moff.data_table_size) (le_bytes 4 0).

Definition ndb_note_meta_entries_size (m : mem) (meta : Z) : option Z :=
  count ← ndb_note_meta_entries_count m meta; Some (moff.sizeof_entry * count).

(** The addition is on a pointer to a header, so it counts in headers. *)
Definition ndb_note_meta_data_table (m : mem) (meta : Z) : option Z :=
  size ← ndb_note_meta_entries_size m meta; Some (meta + moff.sizeof * size).

Definition ndb_note_meta_total_size (m : mem) (header : Z) : option Z :=
  table ← load_u32 m (header + moff.data_table_size);
  entries ← ndb_note_meta_entries_size m header;
  let total_size := moff.sizeof + table + entries in
  if total_size mod 8 =? 0 then Some total_size else None.

Definition ndb_note_meta_flags (meta : Z) : Z := meta + moff.flags.

(** A 32-bit argument for a 64-bit field. *)
Definition ndb_note_meta_set_flags (m : mem) (meta flags : Z) : option mem :=
  storen m (meta + moff.flags) (le_bytes 8 (u32 flags)).

(** ** Entries *)

Definition ndb_note_meta_entries (meta : Z) : Z := meta + moff.sizeof.

Definition ndb_note_meta_entry_at (m : mem) (meta i : Z) : option (option Z) :=
  count ← ndb_note_meta_entries_count m meta;
  Some (if count <=? i then None else Some (ndb_note_meta_entries meta + moff.sizeof_entry * i)).

Definition ndb_note_meta_entry_type (entry : Z) : Z := entry + moff.e_type.
Definition ndb_note_meta_reaction_count (entry : Z) : Z := entry + moff.e_aux.
Definition ndb_note_meta_reaction_str (entry : Z) : Z := entry + moff.e_payload.
Definition ndb_note_meta_counts_direct_replies (entry : Z) : Z := entry + moff.direct_replies.
Definition ndb_note_meta_counts_quotes (entry : Z) : Z := entry + moff.quotes.
Definition ndb_note_meta_counts_thread_replies (entry : Z) : Z := entry + moff.thread_replies.
Definition ndb_note_meta_counts_total_reactions (entry : Z) : Z := entry + moff.e_aux.
Definition ndb_note_meta_counts_reposts (entry : Z) : Z := entry + moff.e_aux2.
Definition ndb_note_meta_zap_count (entry : Z) : Z := entry + moff.e_aux.
Definition ndb_note_meta_zap_msats (entry : Z) : Z := entry + moff.e_payload.
Definition ndb_note_meta_zap_unverified_count (entry : Z) : Z := entry + moff.e_aux.
Definition ndb_note_meta_zap_unverified_msats (entry : Z) : Z := entry + moff.e_payload.

Definition ndb_note_meta_reaction_set (m : mem) (entry count str : Z) : option mem :=
  m ← storen m (entry + moff.e_type) (le_bytes 2 NDB_NOTE_META_REACTION);
  m ← storen m (entry + moff.e_aux2) (le_bytes 2 0);
  m ← storen m (entry + moff.e_aux) (le_bytes 4 count);
  storen m (entry + moff.e_payload) (le_bytes 8 str).

Definition ndb_note_meta_reaction_set_count (m : mem) (entry count : Z) : option mem :=
  storen m (entry + moff.e_aux) (le_bytes 4 count).

Definition ndb_note_meta_counts_set (m : mem) (entry total_reactions quotes direct_replies thread_replies reposts : Z) :
    option mem :=
  m ← storen m (entry + moff.e_type) (le_bytes 2 NDB_NOTE_META_COUNTS);
  m ← storen m (entry + moff.e_aux) (le_bytes 4 total_reactions);
  m ← storen m (entry + moff.e_aux2) (le_bytes 2 reposts);
  m ← storen m (entry + moff.quotes) (le_bytes 2 quotes);
  m ← storen m (entry + moff.direct_replies) (le_bytes 2 direct_replies);
  storen m (entry + moff.thread_replies) (le_bytes 4 thread_replies).

(** [aux2] keeps what the buffer holds. *)
Definition ndb_note_meta_zap_set (m : mem) (entry count msats : Z) : option mem :=
  m ← storen m (entry + moff.e_type) (le_bytes 2 NDB_NOTE_META_ZAP);
  m ← storen m (entry + moff.e_aux) (le_bytes 4 count);
  storen m (entry + moff.e_payload) (le_bytes 8 msats).

Definition ndb_note_meta_zap_unverified_set (m : mem) (entry count msats : Z) : option mem :=
  m ← storen m (entry + moff.e_type) (le_bytes 2 NDB_NOTE_META_ZAP_UNVERIFIED);
  m ← storen m (entry + moff.e_aux) (le_bytes 4 count);
  storen m (entry + moff.e_payload) (le_bytes 8 msats).

(** ** Finding an entry *)

Fixpoint find_entry_loop (k : nat) (m : mem) (entry type : Z) (payload : option Z) : option (option Z) :=
  match k with
  | O => Some None
  | S k =>
      if entry mod 8 =? 0 then
        t ← load_u16 m (entry + moff.e_type);
        if negb (t =? type) then find_entry_loop k m (entry + moff.sizeof_entry) type payload
        else
          match payload with
          | None => Some (Some entry)
          | Some p =>
              v ← load_u64 m (entry + moff.e_payload);
              if negb (p =? v) then find_entry_loop k m (entry + moff.sizeof_entry) type payload
              else Some (Some entry)
          end
      else None
  end.

(** The argument [sorted] is not used. *)
Definition ndb_note_meta_find_entry_impl (m : mem) (meta type : Z) (payload : option Z) (sorted : bool) : option (option Z) :=
  count ← ndb_note_meta_entries_count m meta;
  if count =? 0 then Some None
  else find_entry_loop (Z.to_nat count) m (ndb_note_meta_entries meta) type payload.

Definition ndb_note_meta_find_entry (m : mem) (meta type : Z) (payload : option Z) : option (option Z) :=
  ndb_note_meta_find_entry_impl m meta type payload true.

Definition ndb_note_meta_builder_find_entry (type : Z) (payload : option Z) : CM (option Z) :=
  let* s := get in
  lift (ndb_note_meta_find_entry_impl (fst s) (c_start (snd s)) type payload false).

(** ** Building *)

Definition ndb_note_meta_builder_init : CM bool :=
  let* r := cursor_malloc moff.sizeof in
  match r with
  | None => ret false
  | Some _ =>
      let* s := get in
      let* m := lift (ndb_note_meta_header_init (fst s) (c_start (snd s))) in
      do* put (m, snd s) in ret true
  end.

Definition ndb_note_meta_add_entry : CM (option Z) :=
  let* c := cur in
  if c_p c =? c_start c then ub
  else
    let* r := cursor_malloc moff.sizeof_entry in
    match r with
    | None => ret None
    | Some entry =>
        let* s := get in
        let* count := lift (ndb_note_meta_entries_count (fst s) (c_start c)) in
        do* poke (c_start c + moff.count) (le_bytes 2 (u16 (count + 1))) in
        ret (Some entry)
    end.

Definition compare_entries (a b : list Z) : option Z :=
  ta ← load_u16 a moff.e_type; tb ← load_u16 b moff.e_type;
  let res := ta - tb in
  if (res =? 0) && (ta =? NDB_NOTE_META_REACTION) then
    binmoji_a ← load_u64 a moff.e_payload; binmoji_b ← load_u64 b moff.e_payload;
    Some (if binmoji_a <? binmoji_b then -1 else if binmoji_b <? binmoji_a then 1 else 0)
  else Some res.

(** The entries as the array [qsort] sorts. *)
Definition entry_array (m : mem) (entries count : Z) : option (list (list Z)) :=
  mapM (fun i => loadn m (entries + moff.sizeof_entry * i) moff.sizeof_entry) (seqZ 0 count).

Definition ndb_note_meta_build : CM Z :=
  let* s := get in
  let header := c_start (snd s) in
  if c_p (snd s) =? header then ub
  else
    let* count := lift (ndb_note_meta_entries_count (fst s) header) in
    if 1 <? count then
      let entries := ndb_note_meta_entries header in
      let* es := lift (entry_array (fst s) entries count) in
      let* es := lift (qsort compare_entries es) in
      do* poke entries (concat es) in
      ret header
    else ret header.

(** ** Cloning with room for an entry *)

Inductive meta_ptr := In_db (v : mem) | In_buf.

Definition meta_mem (p : meta_ptr) (buf : mem) : mem := match p with In_db v => v | In_buf => buf end.

(** The entry found or made; the new metadata is in the buffer. *)
Inductive ndb_meta_clone_result :=
  | NDB_META_CLONE_FAILED
  | NDB_META_CLONE_EXISTING_ENTRY (entry : Z)
  | NDB_META_CLONE_NEW_ENTRY (entry : Z).

(** [memcpy] onto itself changes nothing. *)
Definition clone_bytes (p : meta_ptr) (size : Z) : M mem unit :=
  let* buf := get in
  let* data := lift (loadn (meta_mem p buf) 0 size) in
  let* buf := lift (storen buf 0 data) in put buf.

(** The builder on the buffer: a clone with an entry more.  Sets the type and
    the payload, not the other fields of the entry. *)
Definition clone_new_entry (p : meta_ptr) (size type : Z) (payload : option Z) : CM Z :=
  do* ndb_note_meta_builder_init in
  let* s := get in
  let* r := lift (clone_bytes p size (fst s)) in
  do* put (snd r, set_p (snd s) size) in
  let* e := ndb_note_meta_add_entry in
  match e with
  | None => ub
  | Some entry =>
      do* poke (entry + moff.e_type) (le_bytes 2 type) in
      do* poke (entry + moff.e_payload) (le_bytes 8 (default 0 payload)) in
      let* meta := ndb_note_meta_build in
      let* s := get in
      let* e := lift (ndb_note_meta_find_entry (fst s) meta type payload) in
      match e with
      | None => ub
      | Some entry => ret entry
      end
  end.

(** For no metadata, the first entry of new metadata: nothing of it is set. *)
Definition clone_first_entry : CM Z :=
  do* ndb_note_meta_builder_init in
  let* e := ndb_note_meta_add_entry in
  match e with
  | None => ub
  | Some entry => do* ndb_note_meta_build in ret entry
  end.

Definition ndb_note_meta_clone_with_entry (meta : option meta_ptr) (type : Z) (payload : option Z) (bufsize : Z) :
    M mem ndb_meta_clone_result :=
  match meta with
  | None =>
      let* entry := with_cursor 0 bufsize clone_first_entry in
      ret (NDB_META_CLONE_NEW_ENTRY entry)
  | Some p =>
      let* buf := get in
      let* size := lift (ndb_note_meta_total_size (meta_mem p buf) 0) in
      if bufsize <? size then ret NDB_META_CLONE_FAILED
      else
        let* e := lift (ndb_note_meta_find_entry (meta_mem p buf) 0 type payload) in
        match e with
        | Some entry =>
            if (entry <? size) && (entry mod 16 =? 0) then
              do* clone_bytes p size in ret (NDB_META_CLONE_EXISTING_ENTRY entry)
            else ub
        | None =>
            if bufsize <? size + moff.sizeof_entry then ret NDB_META_CLONE_FAILED
            else
              let* entry := with_cursor 0 bufsize (clone_new_entry p size type payload) in
              ret (NDB_META_CLONE_NEW_ENTRY entry)
        end
  end.

(** * Lemmas *)

(** ** Metadata as a header and a list of entries *)

Record meta_entry := mk_entry { me_type : Z; me_aux2 : Z; me_aux : Z; me_payload : Z }.

Definition entry_bytes (e : meta_entry) : list Z :=
  le_bytes 2 (me_type e) ++ le_bytes 2 (me_aux2 e) ++ le_bytes 4 (me_aux e) ++ le_bytes 8 (me_payload e).

Record entry_wf (e : meta_entry) : Prop := {
  ew_type : is_u16 (me_type e); ew_aux2 : is_u16 (me_aux2 e); ew_aux : is_u32 (me_aux e); ew_payload : is_u64 (me_payload e)
}.

(** What tells entries apart: the type, and the reaction of a reaction. *)
Definition entry_key (e : meta_entry) : Z * Z :=
  (me_type e, if me_type e =? NDB_NOTE_META_REACTION then me_payload e else 0).

Definition key_cmp : Z * Z -> Z * Z -> comparison := pair_cmp Z.compare Z.compare.

#[export] Instance key_cmp_total : TotalCmp key_cmp.
Proof. apply _. Qed.

Definition entry_lt (a b : meta_entry) : Prop := key_cmp (entry_key a) (entry_key b) = Lt.

Record note_meta := mk_meta { nm_version : Z; nm_padding : Z; nm_flags : Z; nm_entries : list meta_entry }.

Definition header_bytes (nm : note_meta) : list Z :=
  [nm_version nm; nm_padding nm] ++ le_bytes 2 (zlen (nm_entries nm)) ++ le_bytes 4 0 ++ le_bytes 8 (nm_flags nm).

Definition meta_bytes (nm : note_meta) : list Z := header_bytes nm ++ concat (map entry_bytes (nm_entries nm)).

Record meta_wf (nm : note_meta) : Prop := {
  mw_entries : Forall entry_wf (nm_entries nm);
  mw_sorted : StronglySorted entry_lt (nm_entries nm);
  mw_count : zlen (nm_entries nm) < 2 ^ 16
}.

Definition meta_size (es : list meta_entry) : Z := 16 + 16 * zlen es.

Lemma zlen_entry_bytes e : zlen (entry_bytes e) = 16.
Proof. unfold entry_bytes. rewrite !zlen_app, !zlen_le_bytes. done. Qed.

Lemma zlen_header_bytes nm : zlen (header_bytes nm) = 16.
Proof. unfold header_bytes. rewrite !zlen_app, !zlen_cons, !zlen_le_bytes, zlen_nil. done. Qed.

Lemma zlen_entries_bytes es : zlen (concat (map entry_bytes es)) = 16 * zlen es.
Proof. induction es as [| e es IH]; [done |]. cbn [map concat]. rewrite zlen_app, zlen_entry_bytes, IH, zlen_cons. lia. Qed.
#[export] Hint Rewrite zlen_entry_bytes zlen_header_bytes zlen_entries_bytes : zlen.

Lemma zlen_meta_bytes nm : zlen (meta_bytes nm) = meta_size (nm_entries nm).
Proof. unfold meta_bytes, meta_size. zl. Qed.
#[export] Hint Rewrite zlen_meta_bytes : zlen.

Lemma storen_mid pre x post y a : a = zlen pre -> zlen x = zlen y -> storen (pre ++ x ++ post) a y = Some (pre ++ y ++ post).
Proof.
  intros -> H. apply storen_Some. split; [apply zlen_nonneg |]. split; [zl |].
  rewrite to_nat_zlen, take_app_length. do 2 f_equal. unfold zlen in H.
  replace (length pre + length y)%nat with (length (pre ++ x)) by (rewrite length_app; lia).
  by rewrite app_assoc, drop_app_length.
Qed.

(** Fields at a known place. *)
Lemma load_u16_mid pre v post a : is_u16 v -> a = zlen pre -> load_u16 (pre ++ le_bytes 2 v ++ post) a = Some v.
Proof. intros Hv ->. apply load_u16_spec; [done |]. by apply loadn_mid with (pre := pre) (post := post). Qed.

Lemma load_u32_mid pre v post a : is_u32 v -> a = zlen pre -> load_u32 (pre ++ le_bytes 4 v ++ post) a = Some v.
Proof. intros Hv ->. apply load_u32_spec; [done |]. by apply loadn_mid with (pre := pre) (post := post). Qed.

Lemma load_u64_mid pre v post a : is_u64 v -> a = zlen pre -> load_u64 (pre ++ le_bytes 8 v ++ post) a = Some v.
Proof. intros Hv ->. apply load_u64_spec; [done |]. by apply loadn_mid with (pre := pre) (post := post). Qed.

Lemma is_u16_zlen nm : meta_wf nm -> is_u16 (zlen (nm_entries nm)).
Proof. intros W. pose proof (mw_count _ W). pose proof (zlen_nonneg (nm_entries nm)). unfold is_u16. lia. Qed.

Lemma read_count nm rest : meta_wf nm ->
  ndb_note_meta_entries_count (meta_bytes nm ++ rest) 0 = Some (zlen (nm_entries nm)).
Proof.
  intros W. unfold ndb_note_meta_entries_count, meta_bytes, header_bytes. rewrite <- !app_assoc.
  apply (load_u16_mid [nm_version nm; nm_padding nm]); [by apply is_u16_zlen | done].
Qed.

Lemma read_total_size nm rest : meta_wf nm ->
  ndb_note_meta_total_size (meta_bytes nm ++ rest) 0 = Some (meta_size (nm_entries nm)).
Proof.
  intros W. unfold ndb_note_meta_total_size, ndb_note_meta_entries_size. rewrite (read_count nm rest W).
  unfold meta_bytes, header_bytes. rewrite <- !app_assoc.
  rewrite (app_assoc [nm_version nm; nm_padding nm]).
  rewrite (load_u32_mid ([nm_version nm; nm_padding nm] ++ le_bytes 2 (zlen (nm_entries nm))) 0) by (done || zl).
  cbn [mbind option_bind]. unfold moff.sizeof, moff.sizeof_entry, meta_size.
  replace (16 + 0 + 16 * zlen (nm_entries nm)) with ((2 + 2 * zlen (nm_entries nm)) * 8) by lia.
  rewrite Z.mod_mul by lia. cbn [Z.eqb]. f_equal. lia.
Qed.

(** ** Finding *)

Definition matches_entry (type : Z) (payload : option Z) (e : meta_entry) : Prop :=
  me_type e = type /\ match payload with None => True | Some p => p = me_payload e end.

#[export] Instance matches_entry_dec type payload e : Decision (matches_entry type payload e).
Proof. unfold matches_entry. destruct payload; apply _. Defined.

Definition entry_index (type : Z) (payload : option Z) (es : list meta_entry) : option nat :=
  fst <$> list_find (matches_entry type payload) es.

Lemma entry_index_cons type payload e es :
  entry_index type payload (e :: es) =
    if decide (matches_entry type payload e) then Some 0%nat else S <$> entry_index type payload es.
Proof.
  unfold entry_index. cbn [list_find]. destruct (decide _); [done |]. by destruct (list_find _ es) as [[i x] |].
Qed.

Lemma entry_type_read pre e rest a : entry_wf e -> a = zlen pre ->
  load_u16 (pre ++ entry_bytes e ++ rest) (a + moff.e_type) = Some (me_type e).
Proof.
  intros W ->. unfold entry_bytes. rewrite <- !app_assoc. apply load_u16_mid; [apply W | unfold moff.e_type; lia].
Qed.

Lemma entry_payload_read pre e rest a : entry_wf e -> a = zlen pre ->
  load_u64 (pre ++ entry_bytes e ++ rest) (a + moff.e_payload) = Some (me_payload e).
Proof.
  intros W ->. unfold entry_bytes. rewrite <- !app_assoc.
  rewrite (app_assoc pre), (app_assoc (pre ++ _)), (app_assoc ((pre ++ _) ++ _)).
  apply load_u64_mid; [apply W | unfold moff.e_payload; zl].
Qed.

Lemma find_entry_loop_spec type payload es : forall pre rest a, Forall entry_wf es -> a = zlen pre -> a mod 8 = 0 ->
  find_entry_loop (length es) (pre ++ concat (map entry_bytes es) ++ rest) a type payload =
    Some ((fun i => a + 16 * Z.of_nat i) <$> entry_index type payload es).
Proof.
  induction es as [| e es IH]; intros pre rest a W Ha Hm; [done |].
  apply Forall_cons_iff in W as [We W]. cbn [length find_entry_loop map concat]. rewrite Hm. cbn [Z.eqb].
  rewrite <- app_assoc, (entry_type_read pre e _ a We Ha). cbn [mbind option_bind].
  assert (Next : find_entry_loop (length es) (pre ++ entry_bytes e ++ concat (map entry_bytes es) ++ rest) (a + moff.sizeof_entry) type payload =
    Some ((fun i => a + 16 * Z.of_nat i) <$> (S <$> entry_index type payload es))).
  { rewrite (app_assoc pre). rewrite IH; [| done | unfold moff.sizeof_entry; zl |].
    - f_equal. destruct (entry_index type payload es); [cbn; unfold moff.sizeof_entry; f_equal; lia | done].
    - unfold moff.sizeof_entry. rewrite <- Z.add_mod_idemp_l, Hm by lia. done. }
  rewrite entry_index_cons. destruct (Z.eqb_spec (me_type e) type) as [Et | Nt]; cbn [negb].
  - destruct payload as [p |].
    + rewrite (entry_payload_read pre e _ a We Ha). cbn [mbind option_bind].
      destruct (Z.eqb_spec p (me_payload e)) as [Ep | Np]; cbn [negb].
      * rewrite decide_True by done. cbn. do 2 f_equal. lia.
      * rewrite decide_False by (by intros [_ ?]). exact Next.
    + rewrite decide_True by done. cbn. do 2 f_equal. lia.
  - rewrite decide_False by (by intros [? _]). exact Next.
Qed.

Lemma find_entry_spec nm rest type payload sorted : meta_wf nm ->
  ndb_note_meta_find_entry_impl (meta_bytes nm ++ rest) 0 type payload sorted =
    Some ((fun i => 16 + 16 * Z.of_nat i) <$> entry_index type payload (nm_entries nm)).
Proof.
  intros W. unfold ndb_note_meta_find_entry_impl. rewrite (read_count nm rest W). cbn [mbind option_bind].
  destruct (Z.eqb_spec (zlen (nm_entries nm)) 0) as [E |].
  - destruct (nm_entries nm); [done | zl].
  - rewrite to_nat_zlen. unfold meta_bytes. rewrite <- app_assoc. apply find_entry_loop_spec; [apply W | | done].
    unfold ndb_note_meta_entries, moff.sizeof. zl.
Qed.

(** ** Sorting *)

Lemma compare_entries_spec a b : entry_wf a -> entry_wf b ->
  exists c, compare_entries (entry_bytes a) (entry_bytes b) = Some c /\ (0 < c <-> key_cmp (entry_key a) (entry_key b) = Gt).
Proof.
  intros Wa Wb. unfold compare_entries.
  assert (T : forall e, entry_wf e -> load_u16 (entry_bytes e) moff.e_type = Some (me_type e)).
  { intros e W. pose proof (entry_type_read [] e [] 0 W eq_refl) as E. cbn [app] in E. by rewrite app_nil_r in E. }
  assert (P : forall e, entry_wf e -> load_u64 (entry_bytes e) moff.e_payload = Some (me_payload e)).
  { intros e W. pose proof (entry_payload_read [] e [] 0 W eq_refl) as E. cbn [app] in E. by rewrite app_nil_r in E. }
  rewrite (T a Wa), (T b Wb), (P a Wa), (P b Wb). cbn [mbind option_bind].
  unfold key_cmp, pair_cmp, entry_key. cbn [fst snd]. pose proof (Z.compare_spec (me_type a) (me_type b)) as S.
  destruct (me_type a ?= me_type b) eqn:Ec; inversion S as [Et | Et | Et]; cbn [lex].
  - rewrite Et, Z.sub_diag. cbn [Z.eqb andb]. destruct (_ =? _).
    + pose proof (Z.compare_spec (me_payload a) (me_payload b)) as S2. eexists. split; [reflexivity |].
      destruct (Z.ltb_spec (me_payload a) (me_payload b)), (Z.ltb_spec (me_payload b) (me_payload a)); inversion S2; try lia; (split; [lia | done]) || (split; [done | lia]).
    + eexists. split; [reflexivity |]. split; [lia | done].
  - destruct (Z.eqb_spec (me_type a - me_type b) 0); [lia |]. eexists. split; [reflexivity |]. split; [lia | done].
  - destruct (Z.eqb_spec (me_type a - me_type b) 0); [lia |]. eexists. split; [reflexivity |]. split; [done | lia].
Qed.

Fixpoint insert_meta (x : meta_entry) (l : list meta_entry) : list meta_entry :=
  match l with
  | [] => [x]
  | y :: l' => match key_cmp (entry_key x) (entry_key y) with Gt => y :: insert_meta x l' | _ => x :: l end
  end.

Lemma insert_meta_perm x l : insert_meta x l ≡ₚ x :: l.
Proof.
  induction l as [| y l IH]; [done |]. cbn [insert_meta]. destruct (key_cmp _ _); [done | done |].
  rewrite IH. apply Permutation_swap.
Qed.

Lemma qinsert_entries x l : entry_wf x -> Forall entry_wf l ->
  qinsert compare_entries (entry_bytes x) (map entry_bytes l) = Some (map entry_bytes (insert_meta x l)).
Proof.
  intros Wx. induction 1 as [| y l Wy _ IH]; [done |]. cbn [map qinsert insert_meta].
  destruct (compare_entries_spec x y Wx Wy) as (c & -> & Hc). cbn [mbind option_bind].
  destruct (Z.ltb_spec 0 c) as [L | L].
  - apply Hc in L. by rewrite L, IH.
  - destruct (key_cmp _ _) eqn:E; [done | done |]. exfalso. pose proof (proj2 Hc eq_refl). lia.
Qed.

Definition sort_meta (l : list meta_entry) : list meta_entry := foldr insert_meta [] l.

Lemma sort_meta_perm l : sort_meta l ≡ₚ l.
Proof. induction l as [| x l IH]; [done |]. cbn [sort_meta foldr]. by rewrite insert_meta_perm, IH. Qed.

Lemma qsort_entries l : Forall entry_wf l -> qsort compare_entries (map entry_bytes l) = Some (map entry_bytes (sort_meta l)).
Proof.
  induction 1 as [| x l Wx W IH]; [done |]. cbn [map qsort sort_meta foldr]. rewrite IH. cbn [mbind option_bind].
  apply qinsert_entries; [done |]. by rewrite sort_meta_perm.
Qed.

Lemma entry_lt_trans a b d : entry_lt a b -> entry_lt b d -> entry_lt a d.
Proof. apply cmp_trans. Qed.

Lemma insert_meta_sorted x l : StronglySorted entry_lt l -> entry_key x ∉ map entry_key l -> StronglySorted entry_lt (insert_meta x l).
Proof.
  induction 1 as [| y l S IH F]; intros N; [by repeat constructor |]. cbn [insert_meta].
  cbn [map] in N. rewrite not_elem_of_cons in N. destruct N as [N1 N2]. destruct (key_cmp _ _) eqn:E.
  - apply (cmp_eq (cmp := key_cmp)) in E. done.
  - constructor; [by constructor |]. constructor; [done |]. revert F. apply Forall_impl. intros z Hz. by apply (entry_lt_trans x y z).
  - constructor; [by apply IH |]. rewrite insert_meta_perm. constructor; [| done]. unfold entry_lt.
    by rewrite (cmp_antisym (cmp := key_cmp)), E.
Qed.

Lemma sort_meta_sorted l : NoDup (map entry_key l) -> StronglySorted entry_lt (sort_meta l).
Proof.
  induction l as [| x l IH]; intros N; [constructor |]. cbn [map] in N. apply list.NoDup_cons in N as [N1 N2].
  cbn [sort_meta foldr]. apply insert_meta_sorted; [by apply IH |]. by rewrite sort_meta_perm.
Qed.

Lemma sorted_keys es : StronglySorted entry_lt es -> NoDup (map entry_key es).
Proof.
  induction 1 as [| x l S IH F]; [constructor |]. cbn [map]. apply list.NoDup_cons. split; [| done].
  intros (y & Ey & Hy)%list_elem_of_fmap. apply list_elem_of_In, (proj1 (List.Forall_forall _ _) F) in Hy.
  unfold entry_lt in Hy. by rewrite Ey, (cmp_refl key_cmp) in Hy.
Qed.

Lemma entry_array_spec es : forall pre rest a, a = zlen pre ->
  entry_array (pre ++ concat (map entry_bytes es) ++ rest) a (zlen es) = Some (map entry_bytes es).
Proof.
  unfold entry_array. intros pre rest a ->. apply mapM_Some. apply Forall2_same_length_lookup. split.
  - rewrite length_seqZ, length_map. unfold zlen. lia.
  - intros i x y (Hx & Hi)%lookup_seqZ Hy. apply list_lookup_fmap_Some in Hy as (e & -> & He).
    pose proof (lookup_lt_Some _ _ _ He) as Hl. rewrite <- (take_drop_middle es i e He).
    rewrite map_app, concat_app. cbn [map concat]. rewrite <- !app_assoc, (app_assoc pre).
    apply loadn_mid with (pre := pre ++ concat (map entry_bytes (take i es))) (post := concat (map entry_bytes (drop (S i) es)) ++ rest); [done | | by rewrite zlen_entry_bytes].
    rewrite zlen_app, zlen_entries_bytes, zlen_take. unfold moff.sizeof_entry, zlen. lia.
Qed.

(** ** Keys and places *)

(** Reactions are searched by payload, everything else by type alone. *)
Definition query_ok (type : Z) (payload : option Z) : Prop :=
  match payload with Some p => type = NDB_NOTE_META_REACTION /\ is_u64 p | None => is_u16 type /\ type <> NDB_NOTE_META_REACTION end.

Definition query_key (type : Z) (payload : option Z) : Z * Z := (type, default 0 payload).

Lemma matches_key type payload e : query_ok type payload -> matches_entry type payload e <-> entry_key e = query_key type payload.
Proof.
  unfold matches_entry, entry_key, query_key, query_ok. destruct payload as [p |]; cbn [default from_option id].
  - intros [-> _]. split.
    + by intros [-> ->].
    + intros E. injection E as E1 E2. rewrite E1 in E2. by subst p.
  - intros [_ N]. split.
    + intros [-> _]. by destruct (Z.eqb_spec type NDB_NOTE_META_REACTION).
    + intros E. by injection E as E1 _.
Qed.

(** The entry under a key. *)
Definition entry_at (k : Z * Z) (es : list meta_entry) : option meta_entry := snd <$> list_find (fun e => entry_key e = k) es.

Lemma entry_at_app k l1 l2 : entry_at k (l1 ++ l2) = match entry_at k l1 with Some e => Some e | None => entry_at k l2 end.
Proof.
  unfold entry_at. induction l1 as [| e l1 IH]; [done |]. cbn [app list_find]. destruct (decide _); [done |].
  destruct (list_find _ (l1 ++ l2)) as [[? ?] |], (list_find _ l1) as [[? ?] |]; cbn in IH |- *; try done;
    by destruct (list_find _ l2) as [[? ?] |].
Qed.

Lemma entry_at_cons k e l : entry_at k (e :: l) = if decide (entry_key e = k) then Some e else entry_at k l.
Proof. unfold entry_at. cbn [list_find]. destruct (decide _); [done |]. by destruct (list_find _ l) as [[? ?] |]. Qed.

Lemma entry_at_None k l : entry_at k l = None <-> k ∉ map entry_key l.
Proof.
  induction l as [| e l IH]; [split; [intros _; apply not_elem_of_nil | done] |]. rewrite entry_at_cons. cbn [map].
  rewrite not_elem_of_cons, <- IH. destruct (decide _) as [-> | N]; [split; [done | by intros [? _]] |].
  split; [intros H; split; [congruence | done] | by intros [_ H]].
Qed.

(** An entry of key [k] stands between [l1] and [l2]. *)
Definition slot (k : Z * Z) (l1 l2 : list meta_entry) : Prop :=
  Forall (fun e => key_cmp (entry_key e) k = Lt) l1 /\ Forall (fun e => key_cmp k (entry_key e) = Lt) l2 /\
  StronglySorted entry_lt (l1 ++ l2).

Lemma sorted_slot l1 e l2 : StronglySorted entry_lt (l1 ++ e :: l2) <-> slot (entry_key e) l1 l2.
Proof.
  unfold slot. induction l1 as [| x l1 IH]; cbn [app].
  - split.
    + intros [S F]%StronglySorted_inv. split; [constructor | done].
    + intros (_ & F & S). by constructor.
  - split.
    + intros [S F]%StronglySorted_inv. apply IH in S as (F1 & F2 & S).
      apply Forall_app in F as [Fa [Fb Fc]%Forall_cons_iff]. split; [by constructor |]. split; [done |].
      constructor; [done |]. apply Forall_app. done.
    + intros ([F1 F1']%Forall_cons_iff & F2 & [S F]%StronglySorted_inv). apply Forall_app in F as [Fa Fc].
      constructor; [apply IH; done |]. apply Forall_app. split; [done |]. by constructor.
Qed.

Lemma slot_absent k l1 l2 : slot k l1 l2 -> entry_at k l1 = None /\ entry_at k l2 = None.
Proof.
  intros (F1 & F2 & _). split; apply entry_at_None; intros (e & -> & He%list_elem_of_In)%list_elem_of_fmap.
  - apply (proj1 (List.Forall_forall _ _) F1) in He. by rewrite (cmp_refl key_cmp) in He.
  - apply (proj1 (List.Forall_forall _ _) F2) in He. by rewrite (cmp_refl key_cmp) in He.
Qed.

Lemma entry_at_slot k l1 e l2 k' : slot k l1 l2 -> entry_key e = k ->
  entry_at k' (l1 ++ e :: l2) = if decide (k' = k) then Some e else entry_at k' (l1 ++ l2).
Proof.
  intros S Ek. destruct (slot_absent k l1 l2 S) as [E1 E2]. rewrite !entry_at_app, entry_at_cons.
  destruct (decide (k' = k)) as [-> | N].
  - rewrite E1. by rewrite decide_True.
  - by rewrite (decide_False (P := entry_key e = k')) by congruence.
Qed.

#[local] Instance entry_lt_antisymm : AntiSymm (=) entry_lt.
Proof. intros a b H1 H2. unfold entry_lt in *. rewrite (cmp_antisym (cmp := key_cmp)), H1 in H2. done. Qed.

(** Sorting an entry with a new key into sorted entries. *)
Lemma sort_meta_slot es x : StronglySorted entry_lt es -> entry_key x ∉ map entry_key es ->
  exists l1 l2, es = l1 ++ l2 /\ sort_meta (es ++ [x]) = l1 ++ x :: l2 /\ slot (entry_key x) l1 l2.
Proof.
  intros S N. assert (P : sort_meta (es ++ [x]) ≡ₚ x :: es) by (by rewrite sort_meta_perm, Permutation_app_comm).
  assert (S' : StronglySorted entry_lt (sort_meta (es ++ [x]))).
  { apply sort_meta_sorted. rewrite map_app. apply list.NoDup_app. split; [by apply sorted_keys |].
    split; [| apply NoDup_singleton]. by intros k Hk ->%list_elem_of_singleton. }
  assert (Hx : x ∈ sort_meta (es ++ [x])) by (rewrite P; apply elem_of_cons; by left).
  apply list_elem_of_split in Hx as (l1 & l2 & E). rewrite E in *. apply sorted_slot in S' as Sl.
  exists l1, l2. split; [| done]. apply (StronglySorted_unique entry_lt); [done | apply Sl |].
  apply (Permutation_cons_inv (a := x)). rewrite <- P. symmetry. apply Permutation_middle.
Qed.

Lemma entry_index_Some type payload es i : query_ok type payload -> entry_index type payload es = Some i ->
  exists l1 e l2, es = l1 ++ e :: l2 /\ length l1 = i /\ entry_key e = query_key type payload.
Proof.
  intros Q H. unfold entry_index in H. destruct (list_find _ es) as [[j e] |] eqn:E; [| done]. injection H as ->.
  apply list_find_Some in E as (He & Hm & _). apply (matches_key _ _ _ Q) in Hm.
  pose proof (lookup_lt_Some _ _ _ He). exists (take i es), e, (drop (S i) es).
  split; [symmetry; by apply take_drop_middle |]. split; [rewrite length_take; lia | done].
Qed.

Lemma entry_index_None type payload es : query_ok type payload -> entry_index type payload es = None ->
  query_key type payload ∉ map entry_key es.
Proof.
  intros Q H. unfold entry_index in H. destruct (list_find _ es) as [[j e] |] eqn:E; [done |].
  apply list_find_None in E. intros (e & Ek & He%list_elem_of_In)%list_elem_of_fmap.
  apply (proj1 (List.Forall_forall _ _) E) in He. by apply He, matches_key.
Qed.

Lemma entry_index_slot type payload l1 e l2 : query_ok type payload -> entry_key e = query_key type payload ->
  slot (entry_key e) l1 l2 -> entry_index type payload (l1 ++ e :: l2) = Some (length l1).
Proof.
  intros Q Ek Sl. destruct (slot_absent _ _ _ Sl) as [N _]. apply entry_at_None in N. clear Sl. revert N.
  induction l1 as [| x l1 IH]; cbn [app map length]; rewrite entry_index_cons.
  - intros _. by rewrite decide_True by (by apply matches_key).
  - rewrite not_elem_of_cons. intros [N1 N2]. rewrite decide_False, IH; [done | done |].
    intros M. apply (matches_key _ _ _ Q) in M. congruence.
Qed.

(** ** Cloning *)

Lemma storen_at m pre x post y a : m = pre ++ x ++ post -> a = zlen pre -> zlen x = zlen y ->
  storen m a y = Some (pre ++ y ++ post).
Proof. intros ->. apply storen_mid. Qed.

(** Lists equal up to the nesting of their appends. *)
Ltac app_eq := repeat (rewrite <- !app_assoc || cbn [app]); reflexivity.

Lemma cut n (l : list Z) : 0 <= n <= zlen l -> exists x y, l = x ++ y /\ zlen x = n.
Proof. intros H. exists (take (Z.to_nat n) l), (drop (Z.to_nat n) l). rewrite take_drop. split; [done | zl]. Qed.

(** Any sixteen bytes are an entry. *)
Lemma bytes_entry x : bytes_ok x -> zlen x = 16 -> exists e, x = entry_bytes e /\ entry_wf e.
Proof.
  intros B L. destruct (cut 2 x) as (a & y & -> & La); [lia |]. rewrite zlen_app in L.
  destruct (cut 2 y) as (b & z & -> & Lb); [lia |]. rewrite zlen_app in L. destruct (cut 4 z) as (c & d & -> & Lc); [lia |].
  rewrite zlen_app in L. apply Forall_app in B as [Ba B]. apply Forall_app in B as [Bb B]. apply Forall_app in B as [Bc Bd].
  exists (mk_entry (le_int a) (le_int b) (le_int c) (le_int d)). unfold entry_bytes. cbn [me_type me_aux2 me_aux me_payload].
  assert (R : forall n w, bytes_ok w -> zlen w = Z.of_nat n -> le_bytes n (le_int w) = w /\ 0 <= le_int w < 256 ^ Z.of_nat n).
  { intros n w Bw Lw. split; [| rewrite <- Lw; by apply le_int_range].
    replace n with (length w) by (unfold zlen in Lw; lia). by apply le_bytes_le_int. }
  destruct (R 2%nat a) as [-> Ra]; [done | lia |]. destruct (R 2%nat b) as [-> Rb]; [done | lia |].
  destruct (R 4%nat c) as [-> Rc]; [done | lia |]. destruct (R 8%nat d) as [-> Rd]; [done | lia |].
  split; [done |]. split; done.
Qed.

Definition with_entries (nm : note_meta) (es : list meta_entry) : note_meta :=
  mk_meta (nm_version nm) (nm_padding nm) (nm_flags nm) es.

Lemma header_init_spec buf : 16 <= zlen buf ->
  exists pad, ndb_note_meta_header_init buf 0 = Some (header_bytes (mk_meta 1 pad 0 []) ++ drop 16 buf).
Proof.
  intros H. destruct (cut 16 buf) as (h & rest & -> & Hh); [lia |].
  replace (drop 16 (h ++ rest)) with rest by (replace 16%nat with (length h) by (unfold zlen in Hh; lia); by rewrite drop_app_length).
  destruct h as [| b0 [| b1 h]]; [zl .. |]. exists b1. rewrite !zlen_cons in Hh.
  destruct (cut 2 h) as (x2 & h' & -> & L2); [lia |]. rewrite zlen_app in Hh. destruct (cut 4 h') as (x4 & x8 & -> & L4); [lia |].
  rewrite zlen_app in Hh. unfold ndb_note_meta_header_init, moff.version, moff.flags, moff.count, moff.data_table_size.
  rewrite (storen_at _ [] [b0] ([b1] ++ x2 ++ x4 ++ x8 ++ rest) [1]) by (app_eq || done). cbn [mbind option_bind].
  rewrite (storen_at _ ([1; b1] ++ x2 ++ x4) x8 rest (le_bytes 8 0)) by (app_eq || zl). cbn [mbind option_bind].
  rewrite (storen_at _ [1; b1] x2 (x4 ++ le_bytes 8 0 ++ rest) (le_bytes 2 0)) by (app_eq || zl). cbn [mbind option_bind].
  rewrite (storen_at _ ([1; b1] ++ le_bytes 2 0) x4 (le_bytes 8 0 ++ rest) (le_bytes 4 0)) by (app_eq || zl).
  reflexivity.
Qed.

(** What a clone with an entry for the key [k] leaves in the buffer of [n] bytes. *)
Inductive clone_outcome (nm : note_meta) (k : Z * Z) (n : Z) : ndb_meta_clone_result -> mem -> Prop :=
  | co_existing l1 e l2 rest : nm_entries nm = l1 ++ e :: l2 -> entry_key e = k -> slot k l1 l2 ->
      bytes_ok rest -> meta_size (nm_entries nm) + zlen rest = n ->
      clone_outcome nm k n (NDB_META_CLONE_EXISTING_ENTRY (meta_size l1)) (meta_bytes nm ++ rest)
  | co_new l1 e l2 rest : nm_entries nm = l1 ++ l2 -> slot k l1 l2 -> entry_wf e ->
      bytes_ok rest -> meta_size (nm_entries nm) + 16 + zlen rest = n ->
      clone_outcome nm k n (NDB_META_CLONE_NEW_ENTRY (meta_size l1)) (meta_bytes (with_entries nm (l1 ++ e :: l2)) ++ rest).

(** The bytes of metadata whose header counts [n] entries. *)
Definition counted_bytes (nm : note_meta) (n : Z) (es : list meta_entry) : list Z :=
  [nm_version nm; nm_padding nm] ++ le_bytes 2 n ++ le_bytes 4 0 ++ le_bytes 8 (nm_flags nm) ++ concat (map entry_bytes es).

Lemma counted_meta nm : counted_bytes nm (zlen (nm_entries nm)) (nm_entries nm) = meta_bytes nm.
Proof. unfold counted_bytes, meta_bytes, header_bytes. app_eq. Qed.

Lemma zlen_counted nm n es : zlen (counted_bytes nm n es) = meta_size es.
Proof. unfold counted_bytes, meta_size. zl. Qed.
#[export] Hint Rewrite zlen_counted : zlen.

Lemma counted_snoc nm n es x rest : counted_bytes nm n es ++ entry_bytes x ++ rest = counted_bytes nm n (es ++ [x]) ++ rest.
Proof. unfold counted_bytes. rewrite map_app, concat_app. cbn [map concat]. rewrite app_nil_r. app_eq. Qed.

Lemma counted_count nm n es rest : is_u16 n -> ndb_note_meta_entries_count (counted_bytes nm n es ++ rest) 0 = Some n.
Proof.
  intros Hn. unfold counted_bytes, ndb_note_meta_entries_count. rewrite <- !app_assoc.
  by apply (load_u16_mid [nm_version nm; nm_padding nm]).
Qed.

(** Adding an entry at the end of what the buffer holds; the count is 16 bits. *)
Lemma add_entry_spec nm n es x rest bufsize : meta_size es + 16 <= bufsize -> is_u16 n ->
  ndb_note_meta_add_entry (counted_bytes nm n es ++ entry_bytes x ++ rest, mk_cursor 0 (meta_size es) bufsize) =
    Some (Some (meta_size es), (counted_bytes nm (u16 (n + 1)) es ++ entry_bytes x ++ rest, mk_cursor 0 (meta_size es + 16) bufsize)).
Proof.
  intros Hb Hn. pose proof (zlen_nonneg es). unfold meta_size in *.
  unfold ndb_note_meta_add_entry. rewrite run_cur. cbn [c_p c_start].
  destruct (Z.eqb_spec (16 + 16 * zlen es) 0); [lia |]. unfold moff.sizeof_entry.
  rewrite run_malloc by (cbn [c_p c_end]; lia). cbn [c_p set_p c_start c_end]. rewrite run_get. cbn [fst].
  rewrite (run_lift _ n) by (by apply counted_count).
  rewrite (run_poke _ _ _ _ _ _ (storen_at _ [nm_version nm; nm_padding nm] (le_bytes 2 n)
             (le_bytes 4 0 ++ le_bytes 8 (nm_flags nm) ++ concat (map entry_bytes es) ++ entry_bytes x ++ rest)
             (le_bytes 2 (u16 (n + 1))) _ ltac:(unfold counted_bytes; app_eq) eq_refl ltac:(zl))).
  unfold ret, counted_bytes. app_eq.
Qed.

(** Sorting the entries the buffer holds. *)
Lemma build_spec nm es rest p bufsize : p <> 0 -> Forall entry_wf es -> 0 < zlen es < 2 ^ 16 ->
  ndb_note_meta_build (counted_bytes nm (zlen es) es ++ rest, mk_cursor 0 p bufsize) =
    Some (0, (counted_bytes nm (zlen es) (sort_meta es) ++ rest, mk_cursor 0 p bufsize)).
Proof.
  intros Hp W Hn. unfold ndb_note_meta_build. rewrite run_get. cbn [fst snd c_p c_start].
  destruct (Z.eqb_spec p 0); [done |]. rewrite (run_lift _ (zlen es)) by (apply counted_count; unfold is_u16; lia).
  destruct (Z.ltb_spec 1 (zlen es)) as [L | L].
  - set (h := [nm_version nm; nm_padding nm] ++ le_bytes 2 (zlen es) ++ le_bytes 4 0 ++ le_bytes 8 (nm_flags nm)).
    assert (E : counted_bytes nm (zlen es) es ++ rest = h ++ concat (map entry_bytes es) ++ rest) by (unfold counted_bytes, h; app_eq).
    rewrite E. assert (Hh : ndb_note_meta_entries 0 = zlen h) by (unfold ndb_note_meta_entries, moff.sizeof, h; zl).
    rewrite (run_lift _ _ _ _ (entry_array_spec es h rest _ Hh)), (run_lift _ _ _ _ (qsort_entries es W)).
    rewrite (run_poke _ _ _ _ _ _ (storen_at _ h (concat (map entry_bytes es)) rest (concat (map entry_bytes (sort_meta es))) _
               eq_refl Hh ltac:(rewrite !zlen_entries_bytes; unfold zlen; by rewrite sort_meta_perm))).
    unfold ret, counted_bytes, h. app_eq.
  - destruct es as [| e [| e' es]]; [zl | done | zl].
Qed.

Lemma sort_meta_wf es : Forall entry_wf es -> Forall entry_wf (sort_meta es).
Proof. intros W. by rewrite sort_meta_perm. Qed.

Lemma slot_meta_wf nm l1 e l2 : meta_wf nm -> nm_entries nm = l1 ++ l2 -> zlen (nm_entries nm) < 65535 -> slot (entry_key e) l1 l2 ->
  entry_wf e -> meta_wf (with_entries nm (l1 ++ e :: l2)).
Proof.
  intros W E L Sl We. pose proof (mw_entries _ W) as F. rewrite E in *. split; cbn [nm_entries with_entries].
  - rewrite <- Permutation_middle. by constructor.
  - by apply sorted_slot.
  - zl.
Qed.

Lemma builder_init_spec buf bufsize : 16 <= bufsize <= zlen buf ->
  exists pad, ndb_note_meta_builder_init (buf, mk_cursor 0 0 bufsize) =
    Some (true, (header_bytes (mk_meta 1 pad 0 []) ++ drop 16 buf, mk_cursor 0 16 bufsize)).
Proof.
  intros H. destruct (header_init_spec buf) as [pad E]; [lia |]. exists pad.
  unfold ndb_note_meta_builder_init, moff.sizeof. rewrite run_malloc by (cbn [c_p c_end]; lia).
  rewrite run_get. cbn [fst snd c_start set_p c_p c_end]. rewrite (run_lift _ _ _ _ E), run_put. done.
Qed.

Lemma clone_bytes_spec v buf : zlen v <= zlen buf -> clone_bytes (In_db v) (zlen v) buf = Some (tt, v ++ drop (length v) buf).
Proof.
  intros H. destruct (cut (zlen v) buf) as (x & rest & -> & Lx); [zl |]. unfold clone_bytes. rewrite run_get. cbn [meta_mem].
  rewrite (run_lift _ v) by (apply loadn_mid with (pre := []) (post := []); [by rewrite app_nil_r | done | done]).
  rewrite (run_lift _ _ _ _ (storen_at (x ++ rest) [] x rest v 0 eq_refl eq_refl Lx)). unfold put. cbn [app].
  replace (length v) with (length x) by (unfold zlen in Lx; lia). by rewrite drop_app_length.
Qed.

(** The room for one entry after the cloned ones. *)
Lemma room_for_entry es buf : bytes_ok buf -> meta_size es + 16 <= zlen buf ->
  exists x rest, drop (Z.to_nat (meta_size es)) buf = entry_bytes x ++ rest /\ entry_wf x /\ bytes_ok rest /\
    meta_size es + 16 + zlen rest = zlen buf.
Proof.
  intros Hb H. unfold meta_size in *. pose proof (zlen_nonneg es).
  destruct (cut 16 (drop (Z.to_nat (16 + 16 * zlen es)) buf)) as (x & rest & E & Lx); [zl |].
  assert (B : bytes_ok (x ++ rest)) by (rewrite <- E; by apply Forall_drop). apply Forall_app in B as [Bx Br].
  destruct (bytes_entry x Bx Lx) as (e & -> & W). exists e, rest. split; [done |]. split; [done |]. split; [done |].
  apply (f_equal zlen) in E. rewrite zlen_app, zlen_entry_bytes, zlen_drop in E. lia.
Qed.

Definition fresh_entry (x : meta_entry) (type : Z) (payload : option Z) : meta_entry :=
  mk_entry type (me_aux2 x) (me_aux x) (default 0 payload).

Lemma fresh_entry_ok x type payload : entry_wf x -> query_ok type payload ->
  entry_wf (fresh_entry x type payload) /\ entry_key (fresh_entry x type payload) = query_key type payload.
Proof.
  intros [W1 W2 W3 W4] Q. split.
  - split; cbn; try done; destruct payload; unfold query_ok, NDB_NOTE_META_REACTION, is_u16, is_u64 in *; cbn; lia.
  - apply (matches_key type payload _ Q). unfold matches_entry. cbn. by destruct payload.
Qed.

(** Its type and payload set. *)
Lemma set_fresh_spec {B} pre x rest type payload a c (k : CM B) : a = zlen pre ->
  (do* poke (a + moff.e_type) (le_bytes 2 type) in
   do* poke (a + moff.e_payload) (le_bytes 8 (default 0 payload)) in k) (pre ++ entry_bytes x ++ rest, c) =
  k (pre ++ entry_bytes (fresh_entry x type payload) ++ rest, c).
Proof.
  intros ->. unfold moff.e_type, moff.e_payload. destruct x as [t a2 a4 p]. unfold entry_bytes, fresh_entry. cbn [me_type me_aux2 me_aux me_payload].
  rewrite (run_poke _ _ _ _ _ _ (storen_at _ pre (le_bytes 2 t) ((le_bytes 2 a2 ++ le_bytes 4 a4 ++ le_bytes 8 p) ++ rest)
    (le_bytes 2 type) (zlen pre + 0) ltac:(app_eq) ltac:(lia) eq_refl)).
  rewrite (run_poke _ _ _ _ _ _ (storen_at _ (pre ++ le_bytes 2 type ++ le_bytes 2 a2 ++ le_bytes 4 a4) (le_bytes 8 p) rest
    (le_bytes 8 (default 0 payload)) (zlen pre + 8) ltac:(app_eq) ltac:(zl) eq_refl)).
  f_equal. f_equal. app_eq.
Qed.

(** After the first steps of a clone with a new entry. *)
Lemma clone_started nm buf bufsize : 16 + meta_size (nm_entries nm) <= bufsize <= zlen buf -> bytes_ok buf ->
  exists x rest h, entry_wf x /\ bytes_ok rest /\ meta_size (nm_entries nm) + 16 + zlen rest = zlen buf /\
    ndb_note_meta_builder_init (buf, mk_cursor 0 0 bufsize) = Some (true, (h, mk_cursor 0 16 bufsize)) /\
    clone_bytes (In_db (meta_bytes nm)) (meta_size (nm_entries nm)) h =
      Some (tt, counted_bytes nm (zlen (nm_entries nm)) (nm_entries nm) ++ entry_bytes x ++ rest).
Proof.
  intros Hs Hb. pose proof (zlen_nonneg (nm_entries nm)). unfold meta_size in Hs.
  destruct (room_for_entry (nm_entries nm) buf Hb) as (x & rest & Er & Wx & Br & Lr); [unfold meta_size; lia |].
  destruct (builder_init_spec buf bufsize) as [pad Init]; [lia |]. exists x, rest. eexists. do 3 (split; [done |]). split; [exact Init |].
  rewrite <- zlen_meta_bytes. rewrite clone_bytes_spec by (zl; unfold meta_size; lia).
  rewrite <- Er, <- counted_meta. do 3 f_equal.
  replace (length (counted_bytes nm _ _)) with (length (header_bytes (mk_meta 1 pad 0 [])) + Z.to_nat (16 * zlen (nm_entries nm)))%nat.
  - rewrite drop_app_add', drop_drop by done. f_equal. unfold meta_size. lia.
  - rewrite <- (to_nat_zlen (counted_bytes nm _ _)), <- (to_nat_zlen (header_bytes _)), zlen_counted, zlen_header_bytes.
    unfold meta_size. lia.
Qed.

Lemma meta_of_counted nm l : counted_bytes nm (zlen l) l = meta_bytes (with_entries nm l).
Proof. by rewrite <- counted_meta. Qed.

Lemma clone_new_entry_spec nm buf bufsize type payload : meta_wf nm -> zlen (nm_entries nm) < 65535 -> query_ok type payload ->
  bytes_ok buf -> meta_size (nm_entries nm) + 16 <= bufsize <= zlen buf ->
  query_key type payload ∉ map entry_key (nm_entries nm) ->
  exists entry buf', with_cursor 0 bufsize (clone_new_entry (In_db (meta_bytes nm)) (meta_size (nm_entries nm)) type payload) buf = Some (entry, buf') /\
    clone_outcome nm (query_key type payload) (zlen buf) (NDB_META_CLONE_NEW_ENTRY entry) buf'.
Proof.
  intros W Hn Q Hb Hs Hk. set (es := nm_entries nm) in *. pose proof (zlen_nonneg es).
  destruct (clone_started nm buf bufsize) as (x & rest & h & Wx & Br & Lr & Init & Clone); [fold es; lia | done |]. fold es in Clone.
  destruct (fresh_entry_ok x type payload Wx Q) as [Wf Kf]. set (fresh := fresh_entry x type payload) in *.
  destruct (sort_meta_slot es fresh (mw_sorted _ W)) as (l1 & l2 & Es & Esort & Sl); [by rewrite Kf |].
  assert (Wn : meta_wf (with_entries nm (l1 ++ fresh :: l2))) by (apply slot_meta_wf; done).
  exists (meta_size l1), (meta_bytes (with_entries nm (l1 ++ fresh :: l2)) ++ rest).
  split; [| apply co_new; [done | by rewrite <- Kf | done | done | done]].
  unfold with_cursor, clone_new_entry, make_cursor. unfold meta_size in Hs.
  rewrite (run_bind _ _ _ _ _ Init), run_get. cbn [fst snd set_p c_start c_p c_end].
  rewrite (run_lift _ _ _ _ Clone), run_put. cbn [snd].
  rewrite (run_bind _ _ _ _ _ (add_entry_spec nm (zlen es) es x rest bufsize ltac:(unfold meta_size; lia) ltac:(unfold is_u16; lia))).
  rewrite set_fresh_spec by (by rewrite zlen_counted). fold fresh. rewrite counted_snoc.
  replace (u16 (zlen es + 1)) with (zlen (es ++ [fresh])) by (unfold u16; rewrite Z.mod_small; zl).
  rewrite (run_bind _ _ _ _ _ (build_spec nm (es ++ [fresh]) rest (meta_size es + 16) bufsize ltac:(unfold meta_size; lia)
    ltac:(apply Forall_app; split; [apply W | by apply Forall_singleton]) ltac:(zl))).
  rewrite Esort, run_get. cbn [fst].
  replace (zlen (es ++ [fresh])) with (zlen (l1 ++ fresh :: l2)) by (rewrite Es; zl).
  rewrite meta_of_counted.
  rewrite (run_lift _ _ _ _ (find_entry_spec _ rest type payload true Wn)). cbn [nm_entries with_entries].
  rewrite (entry_index_slot type payload l1 fresh l2 Q Kf Sl). cbn [fmap option_fmap option_map]. unfold ret, meta_size.
  done.
Qed.

(** The outcome of cloning metadata of the database. *)
Lemma clone_db_spec nm buf bufsize type payload : meta_wf nm -> zlen (nm_entries nm) < 65535 -> query_ok type payload ->
  bytes_ok buf -> bufsize <= zlen buf ->
  exists r buf', ndb_note_meta_clone_with_entry (Some (In_db (meta_bytes nm))) type payload bufsize buf = Some (r, buf') /\
    ((r = NDB_META_CLONE_FAILED /\ buf' = buf /\ bufsize < meta_size (nm_entries nm) + 16) \/
     clone_outcome nm (query_key type payload) (zlen buf) r buf').
Proof.
  intros W Hn Q Hb Hs. unfold ndb_note_meta_clone_with_entry. rewrite run_get. cbn [meta_mem].
  pose proof (read_total_size nm [] W) as Et. pose proof (find_entry_spec nm [] type payload true W) as Ef. rewrite app_nil_r in Et, Ef.
  rewrite (run_lift _ _ _ _ Et). destruct (Z.ltb_spec bufsize (meta_size (nm_entries nm))) as [L | L].
  { exists NDB_META_CLONE_FAILED, buf. split; [done |]. left. split; [done |]. split; [done | lia]. }
  rewrite (run_lift _ _ _ _ Ef). destruct (entry_index type payload (nm_entries nm)) as [i |] eqn:Ei; cbn [fmap option_fmap option_map].
  - destruct (entry_index_Some _ _ _ _ Q Ei) as (l1 & e & l2 & Es & <- & Ek).
    assert (Em : 16 + 16 * Z.of_nat (length l1) = meta_size l1) by done. rewrite Em.
    destruct (Z.ltb_spec (meta_size l1) (meta_size (nm_entries nm))) as [Lt | Ge];
      [| rewrite Es in Ge; unfold meta_size in Ge; zl].
    replace (meta_size l1 mod 16) with 0
      by (unfold meta_size; replace (16 + 16 * zlen l1) with ((1 + zlen l1) * 16) by lia; by rewrite Z.mod_mul).
    cbn [Z.eqb andb]. rewrite <- zlen_meta_bytes.
    rewrite (run_bind _ _ _ _ _ (clone_bytes_spec (meta_bytes nm) buf ltac:(rewrite zlen_meta_bytes; lia))).
    exists (NDB_META_CLONE_EXISTING_ENTRY (meta_size l1)). eexists. split; [reflexivity |]. right.
    apply co_existing with (e := e) (l2 := l2); [done | done | | by apply Forall_drop |].
    + rewrite <- Ek. apply sorted_slot. rewrite <- Es. apply W.
    + pose proof (zlen_meta_bytes nm) as Lm. unfold zlen in *. rewrite length_drop. lia.
  - unfold moff.sizeof_entry. destruct (Z.ltb_spec bufsize (meta_size (nm_entries nm) + 16)) as [L' | L'].
    { exists NDB_META_CLONE_FAILED, buf. split; [done |]. by left. }
    destruct (clone_new_entry_spec nm buf bufsize type payload W Hn Q Hb) as (entry & buf' & E & O);
      [lia | by apply (entry_index_None _ _ _ Q) |].
    exists (NDB_META_CLONE_NEW_ENTRY entry), buf'. rewrite (run_bind _ _ _ _ _ E). split; [done | by right].
Qed.

(** New metadata: one entry, of which nothing is set. *)
Lemma clone_null_spec k buf bufsize type payload : bytes_ok buf -> 32 <= bufsize <= zlen buf ->
  exists pad r buf', ndb_note_meta_clone_with_entry None type payload bufsize buf = Some (r, buf') /\
    clone_outcome (mk_meta 1 pad 0 []) k (zlen buf) r buf'.
Proof.
  intros Hb Hs. destruct (room_for_entry [] buf Hb) as (x & rest & Er & Wx & Br & Lr); [unfold meta_size; zl |].
  destruct (builder_init_spec buf bufsize) as [pad Init]; [lia |]. exists pad.
  unfold ndb_note_meta_clone_with_entry, with_cursor, clone_first_entry, make_cursor.
  set (nm := mk_meta 1 pad 0 []) in *.
  assert (Eh : header_bytes nm ++ drop 16 buf = counted_bytes nm 0 [] ++ entry_bytes x ++ rest).
  { change (Z.to_nat (meta_size [])) with 16%nat in Er. by rewrite Er. }
  rewrite Eh in Init.
  assert (Run : (do* ndb_note_meta_builder_init in let* e := ndb_note_meta_add_entry in
      match e with None => ub | Some entry => do* ndb_note_meta_build in ret entry end) (buf, mk_cursor 0 0 bufsize) =
    Some (16, (meta_bytes (with_entries nm [x]) ++ rest, mk_cursor 0 32 bufsize))).
  { rewrite (run_bind _ _ _ _ _ Init).
    rewrite (run_bind _ _ _ _ _ (add_entry_spec nm 0 [] x rest bufsize ltac:(unfold meta_size; zl) ltac:(unfold is_u16; lia))).
    rewrite counted_snoc. change (u16 (0 + 1)) with (zlen [x]).
    rewrite (run_bind _ _ _ _ _ (build_spec nm [x] rest (meta_size [] + 16) bufsize ltac:(done) ltac:(by apply Forall_singleton) ltac:(zl))).
    by rewrite <- meta_of_counted. }
  eexists _, _. unfold bind at 1. rewrite Run. split; [reflexivity |]. change 16 with (meta_size []).
  apply (co_new nm k _ [] x []); [done | | done | done | done]. split; [constructor |]. split; constructor.
Qed.

(** *** Cloning what is in the buffer already *)

Lemma clone_self nm rest : clone_bytes In_buf (meta_size (nm_entries nm)) (meta_bytes nm ++ rest) = Some (tt, meta_bytes nm ++ rest).
Proof.
  unfold clone_bytes. rewrite run_get. cbn [meta_mem].
  rewrite (run_lift _ (meta_bytes nm)) by (apply loadn_mid with (pre := []) (post := rest); [done | done | by rewrite zlen_meta_bytes]).
  by rewrite (run_lift _ _ _ _ (storen_at (meta_bytes nm ++ rest) [] (meta_bytes nm) rest (meta_bytes nm) 0 eq_refl eq_refl eq_refl)).
Qed.

Lemma clone_buf_existing nm rest bufsize type payload e : meta_wf nm -> query_ok type payload ->
  entry_at (query_key type payload) (nm_entries nm) = Some e -> meta_size (nm_entries nm) <= bufsize ->
  exists l1 l2, nm_entries nm = l1 ++ e :: l2 /\ entry_key e = query_key type payload /\ slot (query_key type payload) l1 l2 /\
    ndb_note_meta_clone_with_entry (Some In_buf) type payload bufsize (meta_bytes nm ++ rest) =
      Some (NDB_META_CLONE_EXISTING_ENTRY (meta_size l1), meta_bytes nm ++ rest).
Proof.
  intros W Q He Hs. unfold ndb_note_meta_clone_with_entry. rewrite run_get. cbn [meta_mem].
  rewrite (run_lift _ _ _ _ (read_total_size nm rest W)). destruct (Z.ltb_spec bufsize (meta_size (nm_entries nm))) as [L | _]; [lia |].
  rewrite (run_lift _ _ _ _ (find_entry_spec nm rest type payload true W)).
  destruct (entry_index type payload (nm_entries nm)) as [i |] eqn:Ei; cbn [fmap option_fmap option_map].
  2: { apply (entry_index_None _ _ _ Q), entry_at_None in Ei. congruence. }
  destruct (entry_index_Some _ _ _ _ Q Ei) as (l1 & e' & l2 & Es & <- & Ek).
  assert (Em : 16 + 16 * Z.of_nat (length l1) = meta_size l1) by done. rewrite Em.
  destruct (Z.ltb_spec (meta_size l1) (meta_size (nm_entries nm))) as [Lt | Ge]; [| rewrite Es in Ge; unfold meta_size in Ge; zl].
  replace (meta_size l1 mod 16) with 0
    by (unfold meta_size; replace (16 + 16 * zlen l1) with ((1 + zlen l1) * 16) by lia; by rewrite Z.mod_mul).
  assert (Sl : slot (query_key type payload) l1 l2) by (rewrite <- Ek; apply sorted_slot; rewrite <- Es; apply W).
  assert (e' = e) as ->.
  { rewrite Es, (entry_at_slot _ l1 e' l2 _ Sl Ek), decide_True in He by done. by injection He. }
  cbn [Z.eqb andb]. rewrite (run_bind _ _ _ _ _ (clone_self nm rest)). by exists l1, l2.
Qed.

(** Without such an entry, initialising the builder takes the entries out of the
    header that is being cloned, and the new entry is not found. *)
Lemma clone_buf_missing nm rest bufsize type payload : meta_wf nm -> query_ok type payload -> bytes_ok rest -> nm_entries nm <> [] ->
  entry_at (query_key type payload) (nm_entries nm) = None -> meta_size (nm_entries nm) + 16 <= bufsize <= zlen (meta_bytes nm ++ rest) ->
  ndb_note_meta_clone_with_entry (Some In_buf) type payload bufsize (meta_bytes nm ++ rest) = None.
Proof.
  intros W Q Hb Hne He Hs. unfold ndb_note_meta_clone_with_entry. rewrite run_get. cbn [meta_mem].
  set (es := nm_entries nm) in *. pose proof (zlen_nonneg es) as Pn. unfold meta_size in Hs.
  rewrite (run_lift _ _ _ _ (read_total_size nm rest W)). fold es. destruct (Z.ltb_spec bufsize (meta_size es)) as [L | _]; [unfold meta_size in L; lia |].
  rewrite (run_lift _ _ _ _ (find_entry_spec nm rest type payload true W)). fold es.
  destruct (entry_index type payload es) as [i |] eqn:Ei; cbn [fmap option_fmap option_map].
  { destruct (entry_index_Some _ _ _ _ Q Ei) as (l1 & e' & l2 & Es & _ & Ek). apply entry_at_None in He. exfalso. apply He.
    rewrite <- Ek, Es, map_app. apply elem_of_app. right. by left. }
  unfold moff.sizeof_entry. destruct (Z.ltb_spec bufsize (meta_size es + 16)) as [L | _]; [unfold meta_size in L; lia |].
  destruct (cut 16 rest) as (x0 & rest' & -> & Lx); [rewrite zlen_app, zlen_meta_bytes in Hs; unfold meta_size in Hs; fold es in Hs; lia |].
  apply Forall_app in Hb as [Bx _]. destruct (bytes_entry x0 Bx Lx) as (x & -> & Wx).
  destruct (builder_init_spec (meta_bytes nm ++ entry_bytes x ++ rest') bufsize) as [pad Init]; [lia |].
  set (nm0 := mk_meta 1 pad 0 []) in *. unfold meta_bytes in Init at 2. rewrite <- app_assoc in Init.
  assert (Ed : forall l, drop 16 (header_bytes nm ++ l) = l).
  { intros l. replace 16%nat with (length (header_bytes nm)) by (pose proof (zlen_header_bytes nm) as Hh; unfold zlen in Hh; lia). by rewrite drop_app_length. }
  rewrite Ed in Init. assert (Eh : header_bytes nm0 ++ concat (map entry_bytes es) ++ entry_bytes x ++ rest' = counted_bytes nm0 0 es ++ entry_bytes x ++ rest')
    by (unfold header_bytes, counted_bytes; app_eq).
  fold es in Init. rewrite Eh in Init.
  unfold bind at 1. unfold with_cursor, clone_new_entry, make_cursor. rewrite (run_bind _ _ _ _ _ Init), run_get. cbn [fst snd set_p c_start c_p c_end].
  assert (Self : clone_bytes In_buf (meta_size es) (counted_bytes nm0 0 es ++ entry_bytes x ++ rest') = Some (tt, counted_bytes nm0 0 es ++ entry_bytes x ++ rest')).
  { unfold clone_bytes. rewrite run_get. cbn [meta_mem].
    rewrite (run_lift _ (counted_bytes nm0 0 es)) by (apply loadn_mid with (pre := []) (post := entry_bytes x ++ rest'); [done | done | by rewrite zlen_counted]).
    by rewrite (run_lift _ _ _ _ (storen_at _ [] (counted_bytes nm0 0 es) (entry_bytes x ++ rest') (counted_bytes nm0 0 es) 0 eq_refl eq_refl eq_refl)). }
  rewrite (run_lift _ _ _ _ Self), run_put. cbn [snd].
  rewrite (run_bind _ _ _ _ _ (add_entry_spec nm0 0 es x rest' bufsize ltac:(unfold meta_size; lia) ltac:(unfold is_u16; lia))).
  rewrite set_fresh_spec by (by rewrite zlen_counted). change (u16 (0 + 1)) with 1.
  unfold ndb_note_meta_build at 1. unfold bind at 1. rewrite run_get. cbn [fst snd c_p c_start].
  destruct (Z.eqb_spec (meta_size es + 16) 0) as [E0 | _]; [unfold meta_size in E0; lia |].
  rewrite (run_lift _ 1) by (by apply counted_count). cbn [Z.ltb Z.compare Pos.compare Pos.compare_cont]. unfold ret at 1. rewrite run_get. cbn [fst].
  destruct es as [| e0 tl] eqn:Ees; [done |].
  assert (W0 : meta_wf (with_entries nm0 [e0])).
  { split; cbn [nm_entries with_entries]; [| repeat constructor | done]. pose proof (mw_entries _ W) as F. fold es in F. rewrite Ees in F.
    apply Forall_cons_iff in F as [F _]. by apply Forall_singleton. }
  assert (Eb : forall t, counted_bytes nm0 1 (e0 :: tl) ++ t = meta_bytes (with_entries nm0 [e0]) ++ concat (map entry_bytes tl) ++ t).
  { intros t. rewrite <- meta_of_counted. unfold counted_bytes. cbn [map concat]. rewrite app_nil_r. app_eq. }
  rewrite Eb. unfold ndb_note_meta_find_entry, bind, lift at 1. rewrite (find_entry_spec _ _ type payload true W0). cbn [nm_entries with_entries].
  rewrite entry_index_cons, decide_False; [done |]. intros M. apply (matches_key _ _ _ Q) in M.
  apply entry_at_None in He. apply He. cbn [map]. rewrite M. by left.
Qed.

(** Nor is there room for one more. *)
Lemma clone_buf_full nm rest bufsize type payload : meta_wf nm -> query_ok type payload ->
  entry_at (query_key type payload) (nm_entries nm) = None -> bufsize < meta_size (nm_entries nm) + 16 ->
  ndb_note_meta_clone_with_entry (Some In_buf) type payload bufsize (meta_bytes nm ++ rest) = Some (NDB_META_CLONE_FAILED, meta_bytes nm ++ rest).
Proof.
  intros W Q He Hs. unfold ndb_note_meta_clone_with_entry. rewrite run_get. cbn [meta_mem].
  rewrite (run_lift _ _ _ _ (read_total_size nm rest W)). destruct (Z.ltb_spec bufsize (meta_size (nm_entries nm))); [done |].
  rewrite (run_lift _ _ _ _ (find_entry_spec nm rest type payload true W)).
  destruct (entry_index type payload (nm_entries nm)) as [i |] eqn:Ei; cbn [fmap option_fmap option_map].
  - destruct (entry_index_Some _ _ _ _ Q Ei) as (l1 & e' & l2 & Es & _ & Ek). apply entry_at_None in He. exfalso. apply He.
    rewrite <- Ek, Es, map_app. apply elem_of_app. right. by left.
  - unfold moff.sizeof_entry. destruct (Z.ltb_spec bufsize (meta_size (nm_entries nm) + 16)); [done | lia].
Qed.

(** ** Setting the entry *)

(** [f] turns the entry [e] into [e'] wherever it is. *)
Definition updates (f : mem -> Z -> option mem) (e e' : meta_entry) : Prop := forall pre post a,
  a = zlen pre -> f (pre ++ entry_bytes e ++ post) a = Some (pre ++ entry_bytes e' ++ post).

Lemma updates_at f nm l1 e l2 e' rest : updates f e e' ->
  f (meta_bytes (with_entries nm (l1 ++ e :: l2)) ++ rest) (meta_size l1) = Some (meta_bytes (with_entries nm (l1 ++ e' :: l2)) ++ rest).
Proof.
  intros U. rewrite <- !meta_of_counted.
  set (pre := [nm_version nm; nm_padding nm] ++ le_bytes 2 (zlen (l1 ++ e :: l2)) ++ le_bytes 4 0 ++ le_bytes 8 (nm_flags nm) ++
    concat (map entry_bytes l1)).
  assert (E : forall e0, counted_bytes nm (zlen (l1 ++ e0 :: l2)) (l1 ++ e0 :: l2) ++ rest =
    pre ++ entry_bytes e0 ++ concat (map entry_bytes l2) ++ rest).
  { intros e0. unfold counted_bytes, pre. rewrite map_app, concat_app. cbn [map concat].
    replace (zlen (l1 ++ e0 :: l2)) with (zlen (l1 ++ e :: l2)) by zl. app_eq. }
  rewrite !E. apply U. unfold pre, meta_size. zl.
Qed.

Lemma with_entries_id nm es : nm_entries nm = es -> with_entries nm es = nm.
Proof. intros <-. by destruct nm. Qed.

(** What is left once the entry is set: sorted metadata with the new entry
    under its key and the others as they were. *)
Definition entry_updated (nm nm' : note_meta) (k : Z * Z) (e' : meta_entry) : Prop :=
  meta_wf nm' /\ nm_flags nm' = nm_flags nm /\ zlen (nm_entries nm') <= zlen (nm_entries nm) + 1 /\
  forall k', entry_at k' (nm_entries nm') = if decide (k' = k) then Some e' else entry_at k' (nm_entries nm).

Lemma slot_updated nm k l1 l2 e' : meta_wf nm -> zlen (nm_entries nm) < 65535 -> slot k l1 l2 -> entry_key e' = k -> entry_wf e' ->
  (nm_entries nm = l1 ++ l2 \/ exists e, nm_entries nm = l1 ++ e :: l2 /\ entry_key e = k) ->
  entry_updated nm (with_entries nm (l1 ++ e' :: l2)) k e'.
Proof.
  intros W Hn Sl Ek We Hes. assert (F : Forall entry_wf (l1 ++ e' :: l2)).
  { pose proof (mw_entries _ W) as F. rewrite <- Permutation_middle. constructor; [done |].
    destruct Hes as [Es | (e & Es & _)]; rewrite Es in F; [done |]. rewrite <- Permutation_middle in F. by apply Forall_cons_iff in F as [_ F]. }
  split; [| split; [done |]].
  - split; cbn [nm_entries with_entries]; [done | apply sorted_slot; by rewrite Ek |].
    destruct Hes as [Es | (e & Es & _)]; rewrite Es in Hn; zl.
  - cbn [nm_entries with_entries]. split.
    + destruct Hes as [Es | (e & Es & _)]; rewrite Es; zl.
    + intros k'. rewrite (entry_at_slot k l1 e' l2 k' Sl Ek). destruct (decide (k' = k)) as [-> | N]; [done |].
      destruct Hes as [Es | (e & Es & Eke)]; rewrite Es; [done |]. rewrite (entry_at_slot k l1 e l2 k' Sl Eke). by rewrite decide_False.
Qed.

(** Following a clone with the right update of the entry. *)
Lemma outcome_updated nm k n r buf (fnew fnext : mem -> Z -> option mem) (init : meta_entry -> meta_entry) (next : meta_entry -> meta_entry) :
  meta_wf nm -> zlen (nm_entries nm) < 65535 -> clone_outcome nm k n r buf ->
  (forall e, entry_wf e -> updates fnew e (init e) /\ entry_key (init e) = k /\ entry_wf (init e)) ->
  (forall e, entry_wf e -> entry_key e = k -> updates fnext e (next e) /\ entry_key (next e) = k /\ entry_wf (next e)) ->
  exists buf' rest nm' e', buf' = meta_bytes nm' ++ rest /\ entry_updated nm nm' k e' /\ bytes_ok rest /\ zlen buf' = n /\
    match r with
    | NDB_META_CLONE_FAILED => False
    | NDB_META_CLONE_NEW_ENTRY a => fnew buf a = Some buf' /\ entry_at k (nm_entries nm) = None /\ exists x, entry_wf x /\ e' = init x
    | NDB_META_CLONE_EXISTING_ENTRY a => fnext buf a = Some buf' /\ exists e, entry_at k (nm_entries nm) = Some e /\ entry_wf e /\ e' = next e
    end.
Proof.
  intros W Hn O Hi Hx. pose proof (mw_entries _ W) as F. destruct O as [l1 e l2 rest Es Ek Sl Br Lr | l1 e l2 rest Es Sl We Br Lr].
  - assert (We : entry_wf e) by (rewrite Es, <- Permutation_middle in F; by apply Forall_cons_iff in F as [? _]).
    destruct (Hx e We Ek) as (U & Kn & Wn). exists (meta_bytes (with_entries nm (l1 ++ next e :: l2)) ++ rest), rest, (with_entries nm (l1 ++ next e :: l2)), (next e).
    split; [done |]. split; [apply slot_updated; try done; by right; exists e |].
    split; [done |]. split; [rewrite Es in Lr; unfold meta_size in Lr; rewrite zlen_app, zlen_meta_bytes; unfold meta_size; cbn [nm_entries with_entries]; zl |]. rewrite <- (with_entries_id nm _ Es) at 1. split; [by apply updates_at |]. exists e. split; [| done].
    rewrite Es, (entry_at_slot k l1 e l2 k Sl Ek). by rewrite decide_True.
  - destruct (Hi e We) as (U & Kn & Wn). exists (meta_bytes (with_entries nm (l1 ++ init e :: l2)) ++ rest), rest, (with_entries nm (l1 ++ init e :: l2)), (init e).
    split; [done |]. split; [apply slot_updated; try done; by left |].
    split; [done |]. split; [rewrite Es in Lr; unfold meta_size in Lr; rewrite zlen_app, zlen_meta_bytes; unfold meta_size; cbn [nm_entries with_entries]; zl |].
    split; [by apply updates_at |]. split; [| by exists e].
    destruct (slot_absent k l1 l2 Sl) as [E1 E2]. by rewrite Es, entry_at_app, E1.
Qed.

(** ** Counters *)

Lemma le_bytes_pair n k a b : 0 <= a < 256 ^ Z.of_nat n -> le_bytes (n + k) (a + 256 ^ Z.of_nat n * b) = le_bytes n a ++ le_bytes k b.
Proof.
  revert a. induction n as [| n IH]; intros a Ha.
  - replace (a + 256 ^ Z.of_nat 0 * b) with b by (cbn in *; lia). done.
  - rewrite Nat2Z.inj_succ, Z.pow_succ_r in * by lia. unfold le_bytes; fold le_bytes. cbn [Nat.add app].
    change (le_bytes (S (n + k)) ?v) with (v mod 256 :: le_bytes (n + k) (v / 256)).
    change (le_bytes (S n) ?v) with (v mod 256 :: le_bytes n (v / 256)). cbn [app].
    replace (a + 256 * 256 ^ Z.of_nat n * b) with (a + (256 ^ Z.of_nat n * b) * 256) by lia.
    rewrite Z.mod_add, Z.div_add by lia. rewrite IH; [done |]. pose proof (Z.div_lt_upper_bound a 256 (256 ^ Z.of_nat n)).
    split; [apply Z.div_pos; lia | lia].
Qed.

(** The counters of a note. *)
Record note_counts := mk_counts { nc_total_reactions : Z; nc_quotes : Z; nc_direct_replies : Z; nc_thread_replies : Z; nc_reposts : Z }.

Definition no_counts : note_counts := mk_counts 0 0 0 0 0.

Definition counts_wf (c : note_counts) : Prop :=
  is_u32 (nc_total_reactions c) /\ is_u16 (nc_quotes c) /\ is_u16 (nc_direct_replies c) /\ is_u32 (nc_thread_replies c) /\
  is_u16 (nc_reposts c).

Definition counts_payload (c : note_counts) : Z :=
  nc_direct_replies c + 2 ^ 16 * (nc_quotes c + 2 ^ 16 * nc_thread_replies c).

Definition counts_entry (c : note_counts) : meta_entry :=
  mk_entry NDB_NOTE_META_COUNTS (nc_reposts c) (nc_total_reactions c) (counts_payload c).

(** The counters an entry of counts holds. *)
Definition counts_of (e : meta_entry) : note_counts :=
  mk_counts (me_aux e) (me_payload e / 2 ^ 16 mod 2 ^ 16) (me_payload e mod 2 ^ 16) (me_payload e / 2 ^ 32) (me_aux2 e).

Lemma counts_of_entry c : counts_wf c -> counts_of (counts_entry c) = c.
Proof.
  intros (H1 & H2 & H3 & H4 & H5). unfold is_u16, is_u32 in *. destruct c as [t q d r p]. unfold counts_of, counts_entry, counts_payload. cbn in *.
  f_equal.
  - rewrite (Z.add_comm d), Z.mul_comm, Z.div_add_l, (Z.div_small d), Z.add_0_r by lia.
    rewrite (Z.mul_comm 65536), Z.mod_add by lia. by apply Z.mod_small.
  - rewrite Z.mul_comm, Z.mod_add by lia. by apply Z.mod_small.
  - symmetry. apply Z.div_unique with (d + 65536 * q); lia.
Qed.

Lemma counts_entry_wf c : counts_wf c -> entry_wf (counts_entry c).
Proof.
  intros (H1 & H2 & H3 & H4 & H5). unfold is_u16, is_u32 in *. split; cbn; unfold is_u16, is_u32, is_u64, counts_payload; try done.
  lia.
Qed.

Lemma counts_of_wf e : entry_wf e -> me_type e = NDB_NOTE_META_COUNTS -> counts_wf (counts_of e) /\ counts_entry (counts_of e) = e.
Proof.
  intros [W1 W2 W3 W4] Et. destruct e as [t a2 a4 p]. cbn in *. subst t. unfold is_u16, is_u32, is_u64 in *. split.
  - unfold counts_wf, counts_of. cbn. pose proof (Z.mod_pos_bound (p / 2 ^ 16) (2 ^ 16) ltac:(lia)).
    pose proof (Z.mod_pos_bound p (2 ^ 16) ltac:(lia)). unfold is_u16, is_u32.
    pose proof (Z.div_lt_upper_bound p (2 ^ 32) (2 ^ 32) ltac:(lia) ltac:(lia)). pose proof (Z.div_pos p (2 ^ 32) ltac:(lia) ltac:(lia)).
    repeat split; lia.
  - unfold counts_entry, counts_of, counts_payload. cbn. f_equal.
    change (2 ^ 32) with (2 ^ 16 * 2 ^ 16). rewrite <- Z.div_div by lia.
    pose proof (Z.div_mod p (2 ^ 16) ltac:(lia)). pose proof (Z.div_mod (p / 2 ^ 16) (2 ^ 16) ltac:(lia)). lia.
Qed.

Lemma counts_entry_bytes c : counts_wf c -> entry_bytes (counts_entry c) =
  le_bytes 2 NDB_NOTE_META_COUNTS ++ le_bytes 2 (nc_reposts c) ++ le_bytes 4 (nc_total_reactions c) ++
  le_bytes 2 (nc_direct_replies c) ++ le_bytes 2 (nc_quotes c) ++ le_bytes 4 (nc_thread_replies c).
Proof.
  intros (H1 & H2 & H3 & H4 & H5). unfold is_u16, is_u32 in *. unfold entry_bytes. cbn [me_type me_aux2 me_aux me_payload counts_entry].
  do 3 f_equal. unfold counts_payload. change (2 ^ 16) with (256 ^ Z.of_nat 2).
  rewrite (le_bytes_pair 2 6) by (cbn; lia). f_equal. by rewrite (le_bytes_pair 2 4) by (cbn; lia).
Qed.

(** The fields of an entry, set one after the other. *)
Lemma reaction_set_updates e count str : updates (fun m a => ndb_note_meta_reaction_set m a count str) e
  (mk_entry NDB_NOTE_META_REACTION 0 count str).
Proof.
  intros pre post a ->. destruct e as [t a2 a4 p]. unfold ndb_note_meta_reaction_set, entry_bytes, moff.e_type, moff.e_aux2, moff.e_aux, moff.e_payload.
  cbn [me_type me_aux2 me_aux me_payload].
  rewrite (storen_at _ pre (le_bytes 2 t) (le_bytes 2 a2 ++ le_bytes 4 a4 ++ le_bytes 8 p ++ post) (le_bytes 2 NDB_NOTE_META_REACTION))
    by (app_eq || zl). cbn [mbind option_bind].
  rewrite (storen_at _ (pre ++ le_bytes 2 NDB_NOTE_META_REACTION) (le_bytes 2 a2) (le_bytes 4 a4 ++ le_bytes 8 p ++ post) (le_bytes 2 0))
    by (app_eq || zl). cbn [mbind option_bind].
  rewrite (storen_at _ (pre ++ le_bytes 2 NDB_NOTE_META_REACTION ++ le_bytes 2 0) (le_bytes 4 a4) (le_bytes 8 p ++ post) (le_bytes 4 count))
    by (app_eq || zl). cbn [mbind option_bind].
  rewrite (storen_at _ (pre ++ le_bytes 2 NDB_NOTE_META_REACTION ++ le_bytes 2 0 ++ le_bytes 4 count) (le_bytes 8 p) post (le_bytes 8 str))
    by (app_eq || zl). f_equal. app_eq.
Qed.

Lemma counts_set_updates e c : counts_wf c -> updates (fun m a => ndb_note_meta_counts_set m a (nc_total_reactions c) (nc_quotes c)
  (nc_direct_replies c) (nc_thread_replies c) (nc_reposts c)) e (counts_entry c).
Proof.
  intros Wc pre post a ->. rewrite (counts_entry_bytes c Wc). destruct e as [t a2 a4 p].
  unfold ndb_note_meta_counts_set, entry_bytes, moff.e_type, moff.e_aux2, moff.e_aux, moff.direct_replies, moff.quotes, moff.thread_replies.
  cbn [me_type me_aux2 me_aux me_payload].
  destruct (cut 2 (le_bytes 8 p)) as (d & y & E & Ld); [zl |]. pose proof (zlen_le_bytes 8 p) as Lp. rewrite E in *. rewrite zlen_app in Lp.
  destruct (cut 2 y) as (q & r & -> & Lq); [lia |]. rewrite zlen_app in Lp.
  set (ty := le_bytes 2 NDB_NOTE_META_COUNTS).
  rewrite (storen_at _ pre (le_bytes 2 t) (le_bytes 2 a2 ++ le_bytes 4 a4 ++ d ++ q ++ r ++ post) ty)
    by (app_eq || (unfold ty; zl)). cbn [mbind option_bind].
  rewrite (storen_at _ (pre ++ ty ++ le_bytes 2 a2) (le_bytes 4 a4) (d ++ q ++ r ++ post) (le_bytes 4 (nc_total_reactions c)))
    by (app_eq || (unfold ty; zl)). cbn [mbind option_bind].
  set (tot := le_bytes 4 (nc_total_reactions c)).
  rewrite (storen_at _ (pre ++ ty) (le_bytes 2 a2) (tot ++ d ++ q ++ r ++ post) (le_bytes 2 (nc_reposts c)))
    by (app_eq || (unfold ty; zl)). cbn [mbind option_bind].
  set (rep := le_bytes 2 (nc_reposts c)).
  rewrite (storen_at _ (pre ++ ty ++ rep ++ tot ++ d) q (r ++ post) (le_bytes 2 (nc_quotes c)))
    by (app_eq || (unfold ty, rep, tot; zl)). cbn [mbind option_bind].
  rewrite (storen_at _ (pre ++ ty ++ rep ++ tot) d (le_bytes 2 (nc_quotes c) ++ r ++ post) (le_bytes 2 (nc_direct_replies c)))
    by (app_eq || (unfold ty, rep, tot; zl)). cbn [mbind option_bind].
  rewrite (storen_at _ (pre ++ ty ++ rep ++ tot ++ le_bytes 2 (nc_direct_replies c) ++ le_bytes 2 (nc_quotes c)) r post
             (le_bytes 4 (nc_thread_replies c))) by (app_eq || (unfold ty, rep, tot; zl)). f_equal. app_eq.
Qed.

Lemma zap_set_updates type e count msats :
  updates (fun m a => m ← storen m (a + moff.e_type) (le_bytes 2 type); m ← storen m (a + moff.e_aux) (le_bytes 4 count);
                      storen m (a + moff.e_payload) (le_bytes 8 msats)) e (mk_entry type (me_aux2 e) count msats).
Proof.
  intros pre post a ->. destruct e as [t a2 a4 p]. unfold entry_bytes, moff.e_type, moff.e_aux, moff.e_payload.
  cbn [me_type me_aux2 me_aux me_payload].
  rewrite (storen_at _ pre (le_bytes 2 t) (le_bytes 2 a2 ++ le_bytes 4 a4 ++ le_bytes 8 p ++ post) (le_bytes 2 type))
    by (app_eq || zl). cbn [mbind option_bind].
  rewrite (storen_at _ (pre ++ le_bytes 2 type ++ le_bytes 2 a2) (le_bytes 4 a4) (le_bytes 8 p ++ post) (le_bytes 4 count))
    by (app_eq || zl). cbn [mbind option_bind].
  rewrite (storen_at _ (pre ++ le_bytes 2 type ++ le_bytes 2 a2 ++ le_bytes 4 count) (le_bytes 8 p) post (le_bytes 8 msats))
    by (app_eq || zl). f_equal. app_eq.
Qed.

(** * Properties *)

Lemma storen_updates e e' : updates (fun m a => storen m a (entry_bytes e')) e e'.
Proof. intros pre post a Ha. apply storen_mid; [done | by rewrite !zlen_entry_bytes]. Qed.

(** C27: cloning metadata of the database for a counter gives an entry of that
    key, an existing one if there is one and a new one if not, or fails for
    lack of room; writing the entry leaves metadata that is sorted without
    duplicates, with the written entry under its key and every other entry
    unchanged. *)
Theorem clone_updates_entry (nm : note_meta) (buf : mem) (bufsize type : Z) (payload : option Z) (e' : meta_entry)
    (W : meta_wf nm) (Hn : zlen (nm_entries nm) < 65535) (Q : query_ok type payload) (Hb : bytes_ok buf)
    (Hs : bufsize <= zlen buf) (Ek : entry_key e' = query_key type payload) (We : entry_wf e') :
  exists r buf', ndb_note_meta_clone_with_entry (Some (In_db (meta_bytes nm))) type payload bufsize buf = Some (r, buf') /\
    match r with
    | NDB_META_CLONE_FAILED => buf' = buf /\ bufsize < meta_size (nm_entries nm) + 16
    | NDB_META_CLONE_EXISTING_ENTRY a => is_Some (entry_at (entry_key e') (nm_entries nm)) /\
        exists nm' rest, storen buf' a (entry_bytes e') = Some (meta_bytes nm' ++ rest) /\ entry_updated nm nm' (entry_key e') e'
    | NDB_META_CLONE_NEW_ENTRY a => entry_at (entry_key e') (nm_entries nm) = None /\
        exists nm' rest, storen buf' a (entry_bytes e') = Some (meta_bytes nm' ++ rest) /\ entry_updated nm nm' (entry_key e') e'
    end.
Proof.
  destruct (clone_db_spec nm buf bufsize type payload W Hn Q Hb Hs) as (r & buf' & E & [(-> & -> & L) | O]); [by exists NDB_META_CLONE_FAILED, buf |].
  exists r, buf'. split; [done |].
  destruct (outcome_updated nm (query_key type payload) (zlen buf) r buf' (fun m a => storen m a (entry_bytes e')) (fun m a => storen m a (entry_bytes e'))
    (fun _ => e') (fun _ => e') W Hn O) as (b & rest & nm' & e2 & -> & U & _ & _ & R).
  - intros e We'. split; [apply storen_updates | done].
  - intros e We' _. split; [apply storen_updates | done].
  - rewrite Ek. destruct r; [done | |].
    + destruct R as (Er & e & He & We' & ->). split; [eauto |]. eauto.
    + destruct R as (Er & He & x & _ & ->). eauto.
Qed.

Definition fits (z n : Z) : bool := (0 <=? z) && (z <? n).

Lemma entry_wf_dec e : fits (me_type e) (2 ^ 16) && fits (me_aux2 e) (2 ^ 16) && fits (me_aux e) (2 ^ 32) && fits (me_payload e) (2 ^ 64) = true ->
  entry_wf e.
Proof. unfold fits. intros H. split; unfold is_u16, is_u32, is_u64; lia. Qed.

(** Counts and two reactions. *)
Definition demo_meta : note_meta :=
  mk_meta 1 0 0 [counts_entry (mk_counts 3 0 1 1 0); mk_entry NDB_NOTE_META_REACTION 0 2 11016; mk_entry NDB_NOTE_META_REACTION 0 1 99999].

Lemma demo_meta_wf : meta_wf demo_meta.
Proof.
  split; [| | vm_compute; done].
  - unfold demo_meta; cbn [nm_entries]. repeat (apply List.Forall_cons); [by apply entry_wf_dec .. | constructor].
  - cbn [demo_meta nm_entries]. repeat first [apply SSorted_nil | apply SSorted_cons | apply List.Forall_nil | apply List.Forall_cons | (vm_compute; reflexivity)].
Qed.

Lemma clone_updates_entry_witness :
  let e' := mk_entry NDB_NOTE_META_REACTION 0 1 50000 in
  exists r buf', ndb_note_meta_clone_with_entry (Some (In_db (meta_bytes demo_meta))) NDB_NOTE_META_REACTION (Some 50000) 128 (replicate 128 0) = Some (r, buf') /\
    match r with
    | NDB_META_CLONE_FAILED => buf' = replicate 128 0 /\ 128 < meta_size (nm_entries demo_meta) + 16
    | NDB_META_CLONE_EXISTING_ENTRY a => is_Some (entry_at (entry_key e') (nm_entries demo_meta)) /\
        exists nm' rest, storen buf' a (entry_bytes e') = Some (meta_bytes nm' ++ rest) /\ entry_updated demo_meta nm' (entry_key e') e'
    | NDB_META_CLONE_NEW_ENTRY a => entry_at (entry_key e') (nm_entries demo_meta) = None /\
        exists nm' rest, storen buf' a (entry_bytes e') = Some (meta_bytes nm' ++ rest) /\ entry_updated demo_meta nm' (entry_key e') e'
    end.
Proof.
  intros e'. apply (clone_updates_entry demo_meta (replicate 128 0) 128 NDB_NOTE_META_REACTION (Some 50000) e').
  - apply demo_meta_wf.
  - vm_compute. done.
  - vm_compute. split; [done | split; [discriminate | done]].
  - by apply bytes_ok_dec.
  - vm_compute. discriminate.
  - done.
  - by apply entry_wf_dec.
Defined.

Lemma build_unsorted m p bufsize n : p <> 0 -> ndb_note_meta_entries_count m 0 = Some n -> n <= 1 ->
  ndb_note_meta_build (m, mk_cursor 0 p bufsize) = Some (0, (m, mk_cursor 0 p bufsize)).
Proof.
  intros Hp E Hn. unfold ndb_note_meta_build. rewrite run_get. cbn [fst snd c_p c_start].
  destruct (Z.eqb_spec p 0); [done |]. rewrite (run_lift _ _ _ _ E). by destruct (Z.ltb_spec 1 n); [lia |].
Qed.

(** the count of entries is 16 bits: adding a reaction to metadata that holds
    65535 entries wraps it to 0, and the assertion that finds the new entry
    again fails.  Two megabytes of scratch, the default, leave room for it. *)
Theorem entry_count_wraps (nm : note_meta) (buf : mem) (bufsize type : Z) (payload : option Z)
    (W : meta_wf nm) (Hn : zlen (nm_entries nm) = 65535) (Q : query_ok type payload) (Hb : bytes_ok buf)
    (Hs : meta_size (nm_entries nm) + 16 <= bufsize <= zlen buf) (Ha : entry_at (query_key type payload) (nm_entries nm) = None) :
  ndb_note_meta_clone_with_entry (Some (In_db (meta_bytes nm))) type payload bufsize buf = None.
Proof.
  unfold ndb_note_meta_clone_with_entry. rewrite run_get. cbn [meta_mem].
  pose proof (read_total_size nm [] W) as Et. pose proof (find_entry_spec nm [] type payload true W) as Ef. rewrite app_nil_r in Et, Ef.
  rewrite (run_lift _ _ _ _ Et). destruct (Z.ltb_spec bufsize (meta_size (nm_entries nm))); [lia |].
  rewrite (run_lift _ _ _ _ Ef). destruct (entry_index type payload (nm_entries nm)) as [i |] eqn:Ei; cbn [fmap option_fmap option_map].
  { destruct (entry_index_Some _ _ _ _ Q Ei) as (l1 & e & l2 & Es & _ & Ek). exfalso. apply entry_at_None in Ha. apply Ha.
    rewrite <- Ek, Es, map_app. cbn [map]. apply elem_of_app. right. apply elem_of_cons. by left. }
  unfold moff.sizeof_entry. destruct (Z.ltb_spec bufsize (meta_size (nm_entries nm) + 16)); [lia |].
  destruct (clone_started nm buf bufsize) as (x & rest & h & Wx & Br & Lr & Init & Clone); [lia | done |].
  unfold bind at 1, with_cursor, clone_new_entry, make_cursor.
  rewrite (run_bind _ _ _ _ _ Init), run_get. cbn [fst snd set_p c_start c_p c_end].
  rewrite (run_lift _ _ _ _ Clone), run_put. cbn [snd].
  rewrite (run_bind _ _ _ _ _ (add_entry_spec nm (zlen (nm_entries nm)) (nm_entries nm) x rest bufsize ltac:(lia) ltac:(unfold is_u16; lia))).
  rewrite set_fresh_spec by (by rewrite zlen_counted). rewrite Hn. change (u16 (65535 + 1)) with 0.
  set (m := counted_bytes nm 0 (nm_entries nm) ++ _).
  assert (E0 : ndb_note_meta_entries_count m 0 = Some 0) by (apply counted_count; unfold is_u16; lia).
  rewrite (run_bind _ _ _ _ _ (build_unsorted m (meta_size (nm_entries nm) + 16) bufsize 0 ltac:(unfold meta_size; lia) E0 ltac:(lia))), run_get. cbn [fst].
  rewrite (run_lift _ None); [done |]. unfold ndb_note_meta_find_entry, ndb_note_meta_find_entry_impl. by rewrite E0.
Qed.

(** As many reactions as the count can hold. *)
Definition many_reactions : list meta_entry := map (fun i => mk_entry NDB_NOTE_META_REACTION 0 1 i) (seqZ 0 65535).

Lemma many_reactions_sorted k : forall z,
  StronglySorted entry_lt (map (fun i => mk_entry NDB_NOTE_META_REACTION 0 1 i) (seqZ z (Z.of_nat k))).
Proof.
  induction k as [| k IH]; intros z; [constructor |]. rewrite seqZ_cons by lia. cbn [map].
  replace (Z.pred (Z.of_nat (S k))) with (Z.of_nat k) by lia. constructor; [apply IH |].
  apply List.Forall_forall. intros e (i & <- & Hi%list_elem_of_In)%in_map_iff. apply elem_of_seqZ in Hi.
  unfold entry_lt, entry_key, key_cmp, pair_cmp. cbn. apply Z.compare_lt_iff. lia.
Qed.

Lemma many_reactions_wf : meta_wf (mk_meta 1 0 0 many_reactions) /\ zlen many_reactions = 65535.
Proof.
  assert (L : zlen many_reactions = 65535) by (unfold many_reactions, zlen; rewrite length_map, length_seqZ; lia).
  split; [| done]. split; cbn [nm_entries].
  - apply List.Forall_forall. intros e (i & <- & Hi%list_elem_of_In)%in_map_iff. apply elem_of_seqZ in Hi.
    split; cbn; unfold is_u16, is_u32, is_u64, NDB_NOTE_META_REACTION; lia.
  - exact (many_reactions_sorted (Z.to_nat 65535) 0).
  - lia.
Qed.

Lemma entry_count_wraps_witness :
  ndb_note_meta_clone_with_entry (Some (In_db (meta_bytes (mk_meta 1 0 0 many_reactions)))) NDB_NOTE_META_REACTION (Some 65535)
    (2 * 1024 * 1024) (replicate (Z.to_nat (2 * 1024 * 1024)) 0) = None.
Proof.
  destruct many_reactions_wf as [W L].
  apply (entry_count_wraps (mk_meta 1 0 0 many_reactions)); cbn [nm_entries].
  - exact W.
  - exact L.
  - split; [done | unfold is_u64; lia].
  - apply Forall_replicate. unfold is_byte. lia.
  - rewrite zlen_replicate. unfold meta_size. rewrite L. lia.
  - apply entry_at_None. intros (e & Ek & (i & <- & Hi%list_elem_of_In)%list_elem_of_In%in_map_iff)%list_elem_of_fmap.
    apply elem_of_seqZ in Hi. unfold query_key, entry_key in Ek. cbn in Ek. injection Ek as Ek. lia.
Defined.
