(* ===== verification/Stats.v ===== *)
(** * Counting what notes do to other notes (src/src/nostrdb.c: ndb_note_last_id_tag to
      ndb_migrate_metadata, the metadata writers, ndb_verify_zap)

    A stored note may react to, quote, reply to, repost or zap another note; each
    of these increments a counter in the metadata of the other note.  The same
    counters can be rebuilt from the tag index.  A zap counts as unverified
    until [ndb_verify_zap] moves it.

    Writers run in the monad of the transaction; [scratch] is the buffer of the
    writer thread with whatever it holds.  [bolt11_decode_minimal], of the
    vendored invoice library, is an argument: [None] when it fails, else the
    amount in millisatoshis if there is one. *)

From S2P Require Import Store.
From S2P Require Export Write Metadata.
Open Scope Z_scope.
Open Scope ndb_scope.

(** ** What the tags of a note refer to *)

(** The address of the id in the last tag whose inline name starts with [type]. *)
Fixpoint last_id_loop (fuel : nat) (m : mem) (note type : Z) (it : ndb_iterator) (last : option Z) : option (option Z) :=
  match fuel with
  | O => None
  | S fuel =>
      r ← ndb_tags_iterate_next m it;
      if negb (fst r) then Some last
      else
        let it := snd r in
        tag ← iter_tag it; n ← ndb_tag_count m tag;
        if n <? 2 then last_id_loop fuel m note type it last
        else
          s ← ndb_tag_str m note tag 0;
          named ← (if flag s =? NDB_PACKED_STR then c ← load8 m (str s); Some (c =? type) else Some false);
          if named : bool then
            s ← ndb_tag_str m note tag 1;
            last_id_loop fuel m note type it (if flag s =? NDB_PACKED_ID then Some (str s) else last)
          else last_id_loop fuel m note type it last
  end.

Definition tags_fuel (m : mem) (note : Z) : option nat :=
  count ← ndb_tags_count m (ndb_note_tags note); Some (S (Z.to_nat count)).

Definition ndb_note_last_id_tag (m : mem) (note type : Z) : option (option Z) :=
  fuel ← tags_fuel m note; last_id_loop fuel m note type (ndb_tags_iterate_start note) None.

Fixpoint first_id_loop (fuel : nat) (m : mem) (note tag_ : Z) (it : ndb_iterator) : option (option Z) :=
  match fuel with
  | O => None
  | S fuel =>
      r ← ndb_tags_iterate_next m it;
      if negb (fst r) then Some None
      else
        let it := snd r in
        tag ← iter_tag it; n ← ndb_tag_count m tag;
        if n <? 2 then first_id_loop fuel m note tag_ it
        else
          s ← ndb_tag_str m note tag 0;
          named ← (if flag s =? NDB_PACKED_STR then c ← load8 m (str s); Some (c =? tag_) else Some false);
          if named : bool then
            s ← ndb_tag_str m note tag 1;
            if flag s =? NDB_PACKED_ID then Some (Some (str s)) else first_id_loop fuel m note tag_ it
          else first_id_loop fuel m note tag_ it
  end.

Definition ndb_note_first_tag_id (m : mem) (note tag : Z) : option (option Z) :=
  fuel ← tags_fuel m note; first_id_loop fuel m note tag (ndb_tags_iterate_start note).

(** The value of the first tag with a name, or the empty string structure. *)
Fixpoint find_tag_str_loop (fuel : nat) (m : mem) (note : Z) (tag_name : list Z) (it : ndb_iterator) : option (option ndb_str) :=
  match fuel with
  | O => None
  | S fuel =>
      r ← ndb_tags_iterate_next m it;
      if negb (fst r) then Some None
      else
        let it := snd r in
        tag ← iter_tag it; n ← ndb_tag_count m tag;
        if n <? 2 then find_tag_str_loop fuel m note tag_name it
        else
          s ← ndb_tag_str m note tag 0;
          named ← (if flag s =? NDB_PACKED_ID then Some false
                   else x ← c_string m (str s); Some (bool_decide (x = tag_name)));
          if named : bool then s ← ndb_tag_str m note tag 1; Some (Some s)
          else find_tag_str_loop fuel m note tag_name it
  end.

Definition ndb_note_find_tag_str (m : mem) (note : Z) (tag_name : list Z) : option (option ndb_str) :=
  fuel ← tags_fuel m note; find_tag_str_loop fuel m note tag_name (ndb_tags_iterate_start note).

(** ** Replies *)

(** The code keeps addresses of ids, or NULL; the lemmas also use the ids. *)
Record ndb_note_reply (A : Type) := mk_reply { nr_reply : option A; nr_root : option A; nr_mention : option A }.
#[global] Arguments mk_reply {A} _ _ _.
#[global] Arguments nr_reply {A} _.
#[global] Arguments nr_root {A} _.
#[global] Arguments nr_mention {A} _.

Definition marker_root : list Z := [114; 111; 111; 116].
Definition marker_reply : list Z := [114; 101; 112; 108; 121].
Definition marker_mention : list Z := [109; 101; 110; 116; 105; 111; 110].

Record reply_state (A : Type) := mk_rs { rs_reply : ndb_note_reply A; rs_any_marker : bool; rs_first : bool }.
#[global] Arguments mk_rs {A} _ _ _.
#[global] Arguments rs_reply {A} _.

(** One id with its marker. *)
Definition reply_step {A} (s : reply_state A) (id : A) (marker : option (list Z)) : reply_state A :=
  let '(mk_rs (mk_reply reply root mention) any_marker first) := s in
  match marker with
  | Some marker =>
      mk_rs (if bool_decide (marker = marker_root) then mk_reply reply (Some id) mention
             else if bool_decide (marker = marker_reply) then mk_reply (Some id) root mention
             else if bool_decide (marker = marker_mention) then mk_reply reply root (Some id)
             else mk_reply reply root mention) true first
  | None =>
      if negb any_marker && first then mk_rs (mk_reply reply (Some id) mention) any_marker false
      else if negb any_marker && match reply with None => true | Some _ => false end then mk_rs (mk_reply (Some id) root mention) any_marker first
      else s
  end.

Definition reply_done {A} (r : ndb_note_reply A) : bool :=
  match r with mk_reply (Some _) (Some _) (Some _) => true | _ => false end.

Definition reply_start {A} : reply_state A := mk_rs (mk_reply None None None) false true.

Fixpoint parse_reply_loop (fuel : nat) (m : mem) (note : Z) (it : ndb_iterator) (s : reply_state Z) : option (ndb_note_reply Z) :=
  match fuel with
  | O => None
  | S fuel =>
      r ← ndb_tags_iterate_next m it;
      if negb (fst r) || reply_done (rs_reply s) then Some (rs_reply s)
      else
        let it := snd r in
        tag ← iter_tag it; count ← ndb_tag_count m tag;
        if count <? 2 then parse_reply_loop fuel m note it s
        else
          p ← ndb_tag_str m note tag 0;
          named ← (if flag p =? NDB_PACKED_STR then c ← load8 m (str p); Some (c =? 101) else Some false);
          if negb (named : bool) then parse_reply_loop fuel m note it s
          else
            i ← ndb_tag_str m note tag 1;
            if negb (flag i =? NDB_PACKED_ID) then parse_reply_loop fuel m note it s
            else
              marker ← (if 4 <=? count then
                          p ← ndb_tag_str m note tag 3;
                          if flag p =? NDB_PACKED_STR then x ← c_string m (str p); Some (Some x) else Some None
                        else Some None);
              parse_reply_loop fuel m note it (reply_step s (str i) marker)
  end.

Definition ndb_parse_reply (m : mem) (note : Z) : option (ndb_note_reply Z) :=
  fuel ← tags_fuel m note;
  parse_reply_loop fuel m note (ndb_tags_iterate_start note) reply_start.

Definition ndb_is_reply_to_root (m : mem) (reply : ndb_note_reply Z) : option bool :=
  match nr_root reply, nr_reply reply with
  | Some _, None => Some true
  | Some root, Some reply => a ← loadn m root 32; b ← loadn m reply 32; Some (memcmp a b =? 0)
  | None, _ => Some false
  end.

(** The note replied to. *)
Definition reply_target (m : mem) (reply : ndb_note_reply Z) : option (option Z) :=
  to_root ← ndb_is_reply_to_root m reply;
  Some (if to_root : bool then nr_root reply else nr_reply reply).

(** ** Updating a counter *)

(** [++] on counters of 16 and 32 bits, [+=] on one of 64. *)
Definition incr16 (m : mem) (a : Z) : option mem := v ← load_u16 m a; storen m a (le_bytes 2 (u16 (v + 1))).
Definition incr32 (m : mem) (a : Z) : option mem := v ← load_u32 m a; storen m a (le_bytes 4 (u32 (v + 1))).
Definition add64 (m : mem) (a n : Z) : option mem := v ← load_u64 m a; storen m a (le_bytes 8 (u64 (v + n))).

Section writers.
Context {D C : Type} `{!Lmdb D C} `{!LmdbPut D C}.
Context (scratch output_emoji strbuf : mem).
Context (bolt11_decode_minimal : list Z -> option (option Z)).

Definition ndb_get_note_meta (txn : ndb_txn D) (id : list Z) : option mem := mdb_get (txn NDB_DB_META) id.

Definition ndb_writer_set_note_meta (id : list Z) (meta : mem) : M (ndb_txn D) bool :=
  fun txn => size ← ndb_note_meta_total_size meta 0; v ← loadn meta 0 size; txn_put NDB_DB_META id v false txn.

(** The steps the counters share: clone the metadata of [id] with an entry, set
    it, and put the result. *)
Definition update_meta (id : list Z) (type : Z) (payload : option Z) (set_new set_existing : mem -> Z -> option mem) :
    M (ndb_txn D) bool :=
  fun txn =>
    r ← ndb_note_meta_clone_with_entry (In_db <$> ndb_get_note_meta txn id) type payload (zlen scratch) scratch;
    match fst r with
    | NDB_META_CLONE_FAILED => Some (false, txn)
    | NDB_META_CLONE_NEW_ENTRY entry => buf ← set_new (snd r) entry; ndb_writer_set_note_meta id buf txn
    | NDB_META_CLONE_EXISTING_ENTRY entry => buf ← set_existing (snd r) entry; ndb_writer_set_note_meta id buf txn
    end.

Definition ndb_increment_total_reactions (liked : list Z) : M (ndb_txn D) bool :=
  update_meta liked NDB_NOTE_META_COUNTS None
    (fun buf entry => ndb_note_meta_counts_set buf entry 1 0 0 0 0)
    (fun buf entry => incr32 buf (ndb_note_meta_counts_total_reactions entry)).

Definition ndb_increment_quote_metadata (id : list Z) : M (ndb_txn D) bool :=
  update_meta id NDB_NOTE_META_COUNTS None
    (fun buf entry => ndb_note_meta_counts_set buf entry 0 1 0 0 0)
    (fun buf entry => incr16 buf (ndb_note_meta_counts_quotes entry)).

Definition ndb_increment_direct_reply_metadata (id : list Z) : M (ndb_txn D) bool :=
  update_meta id NDB_NOTE_META_COUNTS None
    (fun buf entry => ndb_note_meta_counts_set buf entry 0 0 1 0 0)
    (fun buf entry => incr16 buf (ndb_note_meta_counts_direct_replies entry)).

Definition ndb_increment_thread_reply_metadata (id : list Z) : M (ndb_txn D) bool :=
  update_meta id NDB_NOTE_META_COUNTS None
    (fun buf entry => ndb_note_meta_counts_set buf entry 0 0 0 1 0)
    (fun buf entry => incr32 buf (ndb_note_meta_counts_thread_replies entry)).

Definition ndb_increment_repost_metadata (id : list Z) : M (ndb_txn D) bool :=
  update_meta id NDB_NOTE_META_COUNTS None
    (fun buf entry => ndb_note_meta_counts_set buf entry 0 0 0 0 1)
    (fun buf entry => incr16 buf (ndb_note_meta_counts_reposts entry)).

(** ** Reactions, quotes, replies, reposts, zaps

    The ids are the 32 bytes the pointers of the code point to. *)

Definition plus_str : mem := [43; 0].
Definition bolt11_tag : list Z := [98; 111; 108; 116; 49; 49].

(** The liked id, or NULL when the note likes none; the flag is the result. *)
Definition ndb_process_reaction (nm : mem) (note : Z) : M (ndb_txn D) (bool * option (list Z)) :=
  fun txn =>
    liked ← ndb_note_last_id_tag nm note 101;
    match liked with
    | None => Some ((false, None), txn)
    | Some liked =>
        id ← loadn nm liked 32;
        content ← ndb_note_content nm note;
        r ← ndb_reaction_set output_emoji nm content;
        str ← (if fst r : bool then Some (snd r)
               else r ← ndb_reaction_set output_emoji plus_str 0; if fst r : bool then Some (snd r) else None);
        w ← update_meta id NDB_NOTE_META_REACTION (Some str)
              (fun buf entry => _ ← ndb_reaction_to_str str strbuf; ndb_note_meta_reaction_set buf entry 1 str)
              (fun buf entry => incr32 buf (ndb_note_meta_reaction_count entry)) txn;
        Some ((fst w, Some id), snd w)
    end.

Definition ndb_write_reaction_stats (nm : mem) (note : Z) : M (ndb_txn D) bool :=
  let* r := ndb_process_reaction nm note in
  match r with
  | (true, Some liked) => ndb_increment_total_reactions liked
  | _ => ret false
  end.

(** [None] is failure, else the amount. *)
Definition ndb_parse_zap_bolt11 (nm : mem) (note : Z) : option (option Z) :=
  s ← ndb_note_find_tag_str nm note bolt11_tag;
  match s with
  | None => Some None
  | Some s =>
      if flag s =? NDB_PACKED_ID then Some None
      else
        x ← c_string nm (str s);
        Some (match bolt11_decode_minimal x with
              | None => None
              | Some msat => Some (default 0 msat)
              end)
  end.

Definition ndb_write_unverified_zap_stats (nm : mem) (note : Z) : M (ndb_txn D) bool :=
  fun txn =>
    zapped ← ndb_note_last_id_tag nm note 101;
    match zapped with
    | None => Some (false, txn)
    | Some zapped =>
        m ← ndb_parse_zap_bolt11 nm note;
        match m with
        | None => Some (false, txn)
        | Some msats =>
            id ← loadn nm zapped 32;
            update_meta id NDB_NOTE_META_ZAP_UNVERIFIED None
              (fun buf entry => ndb_note_meta_zap_unverified_set buf entry 1 msats)
              (fun buf entry =>
                 buf ← incr32 buf (ndb_note_meta_zap_unverified_count entry);
                 add64 buf (ndb_note_meta_zap_unverified_msats entry) msats) txn
        end
    end.

(** For the note at an address, if it is one. *)
Definition for_id (nm : mem) (a : option Z) (w : list Z -> M (ndb_txn D) bool) : M (ndb_txn D) unit :=
  match a with
  | None => ret tt
  | Some a => let* id := lift (loadn nm a 32) in do* w id in ret tt
  end.

Definition ndb_process_repost_stats (nm : mem) (note : Z) : M (ndb_txn D) unit :=
  let* id := lift (ndb_note_first_tag_id nm note 101) in
  for_id nm id ndb_increment_repost_metadata.

Definition ndb_process_note_stats (nm : mem) (note : Z) : M (ndb_txn D) unit :=
  let* quoted := lift (ndb_note_first_tag_id nm note 113) in
  do* for_id nm quoted ndb_increment_quote_metadata in
  let* reply := lift (ndb_parse_reply nm note) in
  let* reply_id := lift (reply_target nm reply) in
  do* for_id nm reply_id ndb_increment_direct_reply_metadata in
  for_id nm (nr_root reply) ndb_increment_thread_reply_metadata.

(** ** Verifying a zap

    [scratch] and [scratch2] are its local buffers of 4096 bytes.  The result
    comes with the messages [ndb_set_note_meta] leaves for the writer. *)

Definition receipt_meta (scratch2 : mem) (meta : option mem) : option (option mem) :=
  match meta with
  | None =>
      r ← with_cursor 0 4096 (do* ndb_note_meta_builder_init in ndb_note_meta_build) scratch2;
      Some (Some (snd r))
  | Some meta =>
      size ← ndb_note_meta_total_size meta 0;
      if 4096 <? size then Some None
      else data ← loadn meta 0 size; buf ← storen scratch2 0 data; Some (Some buf)
  end.

Definition mark_verified (scratch2 : mem) (meta : option mem) : option (option mem) :=
  r ← receipt_meta scratch2 meta;
  match r with
  | None => Some None
  | Some buf =>
      flags ← load_u64 buf (ndb_note_meta_flags 0);
      buf ← storen buf (ndb_note_meta_flags 0) (le_bytes 8 (Z.lor flags NDB_NOTE_META_FLAG_ZAP_VERIFIED));
      size ← ndb_note_meta_total_size buf 0; data ← loadn buf 0 size; Some (Some data)
  end.

(** The metadata of the zapped note, or [None] when no entry could be had. *)
Definition move_zap (scratch : mem) (target_meta : option mem) (msats : Z) : option (option mem) :=
  r ← ndb_note_meta_clone_with_entry (In_db <$> target_meta) NDB_NOTE_META_ZAP None 4096 scratch;
  buf ← match fst r with
        | NDB_META_CLONE_FAILED => Some None
        | NDB_META_CLONE_NEW_ENTRY entry => Some <$> ndb_note_meta_zap_set (snd r) entry 1 msats
        | NDB_META_CLONE_EXISTING_ENTRY entry =>
            buf ← incr32 (snd r) (ndb_note_meta_zap_count entry);
            Some <$> add64 buf (ndb_note_meta_zap_msats entry) msats
        end;
  match buf with
  | None => Some None
  | Some buf =>
      r ← ndb_note_meta_clone_with_entry (Some In_buf) NDB_NOTE_META_ZAP_UNVERIFIED None 4096 buf;
      match fst r with
      | NDB_META_CLONE_FAILED => None
      | NDB_META_CLONE_NEW_ENTRY _ =>
          size ← ndb_note_meta_total_size (snd r) 0; Some <$> loadn (snd r) 0 size
      | NDB_META_CLONE_EXISTING_ENTRY entry =>
          let buf := snd r in
          count ← load_u32 buf (ndb_note_meta_zap_unverified_count entry);
          buf ← (if 0 <? count then storen buf (ndb_note_meta_zap_unverified_count entry) (le_bytes 4 (count - 1)) else Some buf);
          total ← load_u64 buf (ndb_note_meta_zap_unverified_msats entry);
          buf ← storen buf (ndb_note_meta_zap_unverified_msats entry) (le_bytes 8 (if msats <=? total then total - msats else 0));
          size ← ndb_note_meta_total_size buf 0; Some <$> loadn buf 0 size
      end
  end.

Definition ndb_verify_zap (scratch scratch2 : mem) (txn : ndb_txn D) (zap_note_id : list Z) :
    option (bool * list (list Z * mem)) :=
  match ndb_get_note_by_id (C := C) txn zap_note_id with
  | None => Some (false, [])
  | Some (note, _) =>
      let meta := ndb_get_note_meta txn zap_note_id in
      verified ← match meta with
                 | Some meta => flags ← load_u64 meta (ndb_note_meta_flags 0);
                                Some (negb (Z.land flags NDB_NOTE_META_FLAG_ZAP_VERIFIED =? 0))
                 | None => Some false
                 end;
      if verified : bool then Some (true, [])
      else
        m ← ndb_parse_zap_bolt11 note 0;
        match m with
        | None => Some (false, [])
        | Some msats =>
            zapped ← ndb_note_last_id_tag note 0 101;
            sent ← match zapped with
                   | None => Some []
                   | Some zapped =>
                       id ← loadn note zapped 32;
                       r ← move_zap scratch (ndb_get_note_meta txn id) msats;
                       Some (match r with Some meta => [(id, meta)] | None => [] end)
                   end;
            r ← mark_verified scratch2 meta;
            Some (match r with
                  | Some zap_meta => (true, sent ++ [(zap_note_id, zap_meta)])
                  | None => (false, sent)
                  end)
        end
  end.

(** ** Counting again from the tag index

    The scan of the keys that start with a letter and an id, up to the first that
    does not. *)

Fixpoint scan_loop {A} (fuel : nat) (c : C) (it : item) (letter : Z) (id : list Z)
    (read : list Z -> option Z) (visit : Z -> A -> option A) (acc : A) : option A :=
  match fuel with
  | O => None
  | S fuel =>
      note_key ← read (snd it);
      if zlen (fst it) <? 41 then Some acc
      else
        k0 ← load8 (fst it) 0; kid ← loadn (fst it) 1 32;
        if negb (k0 =? letter) || negb (memcmp kid id =? 0) then Some acc
        else
          acc ← visit note_key acc;
          match mdb_cursor_get c MDB_NEXT with
          | None => Some acc
          | Some (c, it) => scan_loop fuel c it letter id read visit acc
          end
  end.

(** The result and the counters; failing to open the cursor leaves them. *)
Definition scan_tags {A} (txn : ndb_txn D) (letter : Z) (id : list Z) (read : list Z -> option Z)
    (visit : Z -> A -> option A) (acc : A) : option (bool * A) :=
  match mdb_cursor_open (txn NDB_DB_NOTE_TAGS) with
  | None => Some (false, acc)
  | Some c =>
      match mdb_cursor_get c (MDB_SET_RANGE (letter :: id ++ replicate 8 0)) with
      | None => Some (true, acc)
      | Some (c, it) =>
          acc ← scan_loop (S (length (db_items (txn NDB_DB_NOTE_TAGS)))) c it letter id read visit acc;
          Some (true, acc)
      end
  end.

Definition read_note_key (v : list Z) : option Z := u64_at v 0.

Definition reply_visit (txn : ndb_txn D) (note_id : list Z) (note_key : Z) (acc : Z * Z) : option (Z * Z) :=
  match ndb_get_note_by_key txn note_key with
  | None => Some acc
  | Some note =>
      kind ← ndb_note_kind note 0;
      if negb (kind =? 1) then Some acc
      else
        reply ← ndb_parse_reply note 0;
        target ← reply_target note reply;
        direct ← match target with
                 | None => Some false
                 | Some a => x ← loadn note a 32; Some (memcmp x note_id =? 0)
                 end;
        thread ← match nr_root reply with
                 | None => Some false
                 | Some a => x ← loadn note a 32; Some (memcmp x note_id =? 0)
                 end;
        Some (if direct : bool then u16 (fst acc + 1) else fst acc, if thread : bool then u32 (snd acc + 1) else snd acc)
  end.

Definition ndb_count_replies (txn : ndb_txn D) (note_id : list Z) : option (bool * (Z * Z)) :=
  scan_tags txn 101 note_id read_note_key (reply_visit txn note_id) (0, 0).

Definition repost_visit (txn : ndb_txn D) (note_key : Z) (count : Z) : option Z :=
  match ndb_get_note_by_key txn note_key with
  | None => Some count
  | Some note =>
      kind ← ndb_note_kind note 0;
      Some (if (kind =? 6) || (kind =? 16) then u16 (count + 1) else count)
  end.

Definition ndb_count_reposts (txn : ndb_txn D) (note_id : list Z) : option (bool * Z) :=
  scan_tags txn 101 note_id read_note_key (repost_visit txn) 0.

(** The values are not read. *)
Definition ndb_count_quotes (txn : ndb_txn D) (note_id : list Z) : option (bool * Z) :=
  scan_tags txn 113 note_id (fun _ => Some 0) (fun _ count => Some (u16 (count + 1))) 0.

(** The count of reactions and the builder, the metadata built so far. *)
Definition reaction_visit (txn : ndb_txn D) (note_id : list Z) (note_key : Z) (acc : Z * (mem * cursor)) :
    option (Z * (mem * cursor)) :=
  match ndb_get_note_by_key txn note_key with
  | None => Some acc
  | Some note =>
      kind ← ndb_note_kind note 0;
      if negb (kind =? 7) then Some acc
      else
        last_id ← ndb_note_last_id_tag note 0 101;
        match last_id with
        | None => Some acc
        | Some a =>
            x ← loadn note a 32;
            if negb (memcmp x note_id =? 0) then Some acc
            else
              content ← ndb_note_content note 0;
              r ← ndb_reaction_set output_emoji note content;
              str ← (if fst r : bool then Some (snd r) else snd <$> ndb_reaction_set output_emoji plus_str 0);
              e ← ndb_note_meta_builder_find_entry NDB_NOTE_META_REACTION (Some str) (snd acc);
              b ← match e with
                  | (Some entry, (m, c)) => m ← incr32 m (ndb_note_meta_reaction_count entry); Some (m, c)
                  | (None, b) =>
                      e ← ndb_note_meta_add_entry b;
                      match e with
                      | (Some entry, (m, c)) => m ← ndb_note_meta_reaction_set m entry 1 str; Some (m, c)
                      | (None, b) => Some b
                      end
                  end;
              Some (u32 (fst acc + 1), b)
        end
  end.

Definition ndb_rebuild_reaction_metadata (txn : ndb_txn D) (note_id : list Z) (builder : mem * cursor) :
    option (bool * (Z * (mem * cursor))) :=
  scan_tags txn 101 note_id read_note_key (reaction_visit txn note_id) (0, builder).

(** The total of reactions is not looked at. *)
Definition ndb_note_meta_builder_counts (txn : ndb_txn D) (note_id : list Z) : CM bool :=
  fun builder =>
    r0 ← ndb_rebuild_reaction_metadata txn note_id builder;
    let '(rc0, (total_reactions, builder)) := r0 in
    r1 ← ndb_count_quotes txn note_id;
    let '(rc1, quotes) := r1 in
    r2 ← ndb_count_replies txn note_id;
    let '(rc2, (direct_replies, thread_replies)) := r2 in
    r3 ← ndb_count_reposts txn note_id;
    let '(rc3, reposts) := r3 in
    if negb rc0 && negb rc1 && negb rc2 && negb rc3 then Some (false, builder)
    else if (quotes =? 0) && (direct_replies =? 0) && (thread_replies =? 0) && (quotes =? 0) && (reposts =? 0) then
      Some (false, builder)
    else
      e ← ndb_note_meta_add_entry builder;
      match e with
      | (None, builder) => Some (false, builder)
      | (Some entry, (m, c)) =>
          m ← ndb_note_meta_counts_set m entry total_reactions quotes direct_replies thread_replies reposts;
          Some (true, (m, c))
      end.
End writers.

(** * Lemmas *)

(** ** References *)

(** An address and the id it points to. *)
Definition points (m : mem) (a : option Z) (id : option (list Z)) : Prop :=
  match a, id with
  | Some a, Some id => loadn m a 32 = Some id
  | None, None => True
  | _, _ => False
  end.

(** The inline string of an element. *)
Definition inline_str (x : Z * elem) : option (list Z) :=
  match x with (fl, EStr s) => if fl =? NDB_PACKED_STR then Some s else None | _ => None end.

Definition inline_named (letter : Z) (x : Z * elem) : bool :=
  match inline_str x with Some (c :: _) => c =? letter | _ => false end.

(** The id a tag with that letter refers to. *)
Definition tag_id (letter : Z) (t : list (Z * elem)) : option (list Z) :=
  match t with
  | x :: (_, EId id) :: _ => if inline_named letter x then Some id else None
  | _ => None
  end.

(** The id of an [e] tag and its marker. *)
Definition e_tag (t : list (Z * elem)) : option (list Z * option (list Z)) :=
  id ← tag_id 101 t; Some (id, x ← t !! 3%nat; inline_str x).

Lemma named_spec m s x letter : raw_of m s = Some x -> letter <> 0 ->
  (if flag s =? NDB_PACKED_STR then c ← load8 m (str s); Some (c =? letter) else Some false) = Some (inline_named letter x).
Proof.
  intros H Hl. destruct x as [fl e]. pose proof H as R. apply raw_of_inv in R as (<- & E & F). unfold inline_named, inline_str.
  destruct (Z.eqb_spec (flag s) NDB_PACKED_STR) as [Ef | Nf].
  - rewrite Ef in F. destruct e as [x | id]; [| done]. unfold elem_of_str in E. rewrite Ef in E. change (NDB_PACKED_STR =? NDB_PACKED_ID) with false in E.
    destruct (c_string m (str s)) as [x' |] eqn:Ec; [| done]. injection E as ->. apply c_string_inv in Ec as [_ L].
    destruct x as [| c x]; cbn [app] in L; apply loadn_cons in L as [-> _]; cbn [mbind option_bind].
    + by destruct (Z.eqb_spec 0 letter); [subst; done |].
    + done.
  - by destruct e.
Qed.

(** What the loops see of a tag of the note. *)
Lemma tag_seen m note tag t : raw_tag m note tag = Some t ->
  exists n, ndb_tag_count m tag = Some n /\
    if n <? 2 then (length t < 2)%nat
    else exists s0 s1 x0 x1 t', t = x0 :: x1 :: t' /\ n = zlen t /\
      ndb_tag_str m note tag 0 = Some s0 /\ raw_of m s0 = Some x0 /\ ndb_tag_str m note tag 1 = Some s1 /\ raw_of m s1 = Some x1.
Proof.
  intros H. destruct (step_reads _ _ _ _ H) as (n & En & Hn & R). exists n. split; [done |].
  destruct (Z.ltb_spec n 2) as [L | L]; [unfold zlen in Hn; lia |].
  destruct t as [| x0 [| x1 t']]; [unfold zlen in Hn; cbn in Hn; lia .. |].
  destruct (R 0%nat x0 eq_refl) as (s0 & E0 & R0). destruct (R 1%nat x1 eq_refl) as (s1 & E1 & R1).
  exists s0, s1, x0, x1, t'. split; [done |]. split; [lia | done].
Qed.

Lemma raw_id m s x : raw_of m s = Some x ->
  if flag s =? NDB_PACKED_ID then exists fl id, x = (fl, EId id) /\ loadn m (str s) 32 = Some id
  else exists fl y, x = (fl, EStr y).
Proof.
  destruct x as [fl e]. intros H. apply raw_of_inv in H as (<- & E & ->). destruct e as [y | id]; [by exists (flag s), y |].
  exists (flag s), id. split; [done |]. unfold elem_of_str in E. destruct (_ =? _).
  - destruct (loadn m (str s) 32); [by injection E as -> | done].
  - by destruct (c_string m (str s)).
Qed.

Lemma tag_id_short letter t : (length t < 2)%nat -> tag_id letter t = None.
Proof. destruct t as [| x [| y t]]; cbn; try done. lia. Qed.

(** The steps of a loop over the tags. *)
Lemma tags_loop_step m it fuel ts : raw_tags_loop (S fuel) m it = Some ts ->
  exists more it', ndb_tags_iterate_next m it = Some (more, it') /\ iter_note it' = iter_note it /\
    if more : bool then exists tag t ts', iter_tag it' = Some tag /\ raw_tag m (iter_note it) tag = Some t /\
      raw_tags_loop fuel m it' = Some ts' /\ ts = t :: ts'
    else ts = [].
Proof.
  cbn [raw_tags_loop]. intros H. destruct (ndb_tags_iterate_next m it) as [[more it'] |] eqn:En; [| done].
  cbn [mbind option_bind fst snd] in H. pose proof (iterate_next_note _ _ _ _ En) as Hi. exists more, it'. split; [done |]. split; [done |].
  destruct more; [| by injection H as <-]. destruct (iter_tag it') as [tag |]; [| done]. cbn [mbind option_bind] in H.
  destruct (raw_tag m (iter_note it) tag) as [t |] eqn:Et; [| done]. cbn [mbind option_bind] in H.
  destruct (raw_tags_loop fuel m it') as [ts' |] eqn:El; [| done]. injection H as <-. exists tag, t, ts'. done.
Qed.

Definition last_or (last : option (list Z)) (ids : list (list Z)) : option (list Z) :=
  match list.last ids with Some id => Some id | None => last end.

Lemma last_or_cons last id ids : last_or last (id :: ids) = last_or (Some id) ids.
Proof. unfold last_or. rewrite list.last_cons. by destruct (list.last ids). Qed.

Lemma last_id_loop_spec letter m note fuel : letter <> 0 -> forall it ts last l, raw_tags_loop fuel m it = Some ts -> iter_note it = note ->
  points m last l -> exists r, last_id_loop fuel m note letter it last = Some r /\ points m r (last_or l (omap (tag_id letter) ts)).
Proof.
  intros Hl. induction fuel as [| fuel IH]; intros it ts last l H Hi P; [done |].
  destruct (tags_loop_step _ _ _ _ H) as (more & it' & En & Hi' & M). rewrite Hi in Hi'. cbn [last_id_loop].
  rewrite En. cbn [mbind option_bind fst snd]. destruct more; cbn [negb]; [| subst ts; by exists last].
  destruct M as (tag & t & ts' & -> & Et & El & ->). rewrite Hi in Et. cbn [mbind option_bind].
  destruct (tag_seen _ _ _ _ Et) as (n & -> & Hn). cbn [mbind option_bind]. destruct (n <? 2).
  { cbn [omap list_omap]. rewrite (tag_id_short letter t Hn). by apply IH. }
  destruct Hn as (s0 & s1 & x0 & x1 & t' & -> & _ & -> & R0 & -> & R1). cbn [mbind option_bind].
  rewrite (named_spec m s0 x0 letter R0 Hl). cbn [mbind option_bind omap list_omap]. pose proof (raw_id _ _ _ R1) as I1.
  destruct (flag s1 =? NDB_PACKED_ID).
  - destruct I1 as (fl & id & -> & L). cbn [tag_id]. destruct (inline_named letter x0); [| by apply IH].
    rewrite last_or_cons. by apply IH.
  - destruct I1 as (fl & y & ->). cbn [tag_id]. destruct (inline_named letter x0); by apply IH.
Qed.

Lemma first_id_loop_spec letter m note fuel : letter <> 0 -> forall it ts, raw_tags_loop fuel m it = Some ts -> iter_note it = note ->
  exists r, first_id_loop fuel m note letter it = Some r /\ points m r (head (omap (tag_id letter) ts)).
Proof.
  intros Hl. induction fuel as [| fuel IH]; intros it ts H Hi; [done |].
  destruct (tags_loop_step _ _ _ _ H) as (more & it' & En & Hi' & M). rewrite Hi in Hi'. cbn [first_id_loop].
  rewrite En. cbn [mbind option_bind fst snd]. destruct more; cbn [negb]; [| subst ts; by exists None].
  destruct M as (tag & t & ts' & -> & Et & El & ->). rewrite Hi in Et. cbn [mbind option_bind].
  destruct (tag_seen _ _ _ _ Et) as (n & -> & Hn). cbn [mbind option_bind]. destruct (n <? 2).
  { cbn [omap list_omap]. rewrite (tag_id_short letter t Hn). by apply IH. }
  destruct Hn as (s0 & s1 & x0 & x1 & t' & -> & _ & -> & R0 & -> & R1). cbn [mbind option_bind].
  rewrite (named_spec m s0 x0 letter R0 Hl). cbn [mbind option_bind omap list_omap]. pose proof (raw_id _ _ _ R1) as I1.
  destruct (flag s1 =? NDB_PACKED_ID).
  - destruct I1 as (fl & id & -> & L). cbn [tag_id]. destruct (inline_named letter x0); [| by apply IH].
    by exists (Some (str s1)).
  - destruct I1 as (fl & y & ->). cbn [tag_id]. destruct (inline_named letter x0); by apply IH.
Qed.

Section note_references.
Context (cb : list Z -> mem -> Z -> bool) (m : mem) (note : Z) (f : fnote).
Hypothesis (Rd : note_reads cb m note f).

Lemma tags_fuel_spec : exists fuel, tags_fuel m note = Some fuel /\ raw_tags_loop fuel m (ndb_tags_iterate_start note) = Some (n_tags f).
Proof using Rd.
  pose proof (nr_tags _ _ _ _ Rd) as H. unfold raw_tags in H. unfold tags_fuel.
  destruct (ndb_tags_count m (ndb_note_tags note)) as [n |]; [| done]. cbn [mbind option_bind] in *. eauto.
Qed.

Lemma last_id_tag_spec letter : letter <> 0 ->
  exists a, ndb_note_last_id_tag m note letter = Some a /\ points m a (list.last (omap (tag_id letter) (n_tags f))).
Proof using Rd.
  intros Hl. destruct tags_fuel_spec as (fuel & E & H). unfold ndb_note_last_id_tag. rewrite E. cbn [mbind option_bind].
  destruct (last_id_loop_spec letter m note fuel Hl _ _ None None H eq_refl I) as (r & -> & P). exists r. split; [done |].
  unfold last_or in P. by destruct (list.last _).
Qed.

Lemma first_id_tag_spec letter : letter <> 0 ->
  exists a, ndb_note_first_tag_id m note letter = Some a /\ points m a (head (omap (tag_id letter) (n_tags f))).
Proof using Rd.
  intros Hl. destruct tags_fuel_spec as (fuel & E & H). unfold ndb_note_first_tag_id. rewrite E. cbn [mbind option_bind].
  by apply first_id_loop_spec.
Qed.
End note_references.

(** *** Replies *)

Definition reply_points (m : mem) (r : ndb_note_reply Z) (r' : ndb_note_reply (list Z)) : Prop :=
  points m (nr_reply r) (nr_reply r') /\ points m (nr_root r) (nr_root r') /\ points m (nr_mention r) (nr_mention r').

Definition state_points (m : mem) (s : reply_state Z) (s' : reply_state (list Z)) : Prop :=
  reply_points m (rs_reply s) (rs_reply s') /\ rs_any_marker _ s = rs_any_marker _ s' /\ rs_first _ s = rs_first _ s'.

(** The reading of the tags, on ids. *)
Fixpoint reply_of (ts : list (list (Z * elem))) (s : reply_state (list Z)) : reply_state (list Z) :=
  match ts with
  | [] => s
  | t :: ts =>
      if reply_done (rs_reply s) then s
      else reply_of ts (match e_tag t with Some (id, marker) => reply_step s id marker | None => s end)
  end.

Definition note_reply (f : fnote) : ndb_note_reply (list Z) := rs_reply (reply_of (n_tags f) reply_start).

Lemma reply_step_points m s s' a id marker : state_points m s s' -> loadn m a 32 = Some id ->
  state_points m (reply_step s a marker) (reply_step s' id marker).
Proof.
  destruct s as [[p r n] any first], s' as [[p' r' n'] any' first'].
  intros [(P1 & P2 & P3) [Ea Ef]] Ha. cbn in P1, P2, P3, Ea, Ef. subst any' first'. destruct marker as [mk |]; cbn.
  - repeat (destruct (bool_decide _); [done |]). done.
  - destruct (negb any && first); [done |].
    destruct p, p'; try done; cbn [andb]; destruct any; done.
Qed.

Lemma reply_done_points m r r' : reply_points m r r' -> reply_done r = reply_done r'.
Proof. destruct r as [p r n], r' as [p' r' n']. intros (P1 & P2 & P3). cbn in *. by destruct p, p', r, r', n, n'. Qed.

Lemma parse_reply_loop_spec m note fuel : forall it ts s s', raw_tags_loop fuel m it = Some ts -> iter_note it = note ->
  state_points m s s' ->
  exists r, parse_reply_loop fuel m note it s = Some r /\ reply_points m r (rs_reply (reply_of ts s')).
Proof.
  induction fuel as [| fuel IH]; intros it ts s s' H Hi P; [done |].
  destruct (tags_loop_step _ _ _ _ H) as (more & it' & En & Hi' & M). rewrite Hi in Hi'. cbn [parse_reply_loop].
  rewrite En. cbn [mbind option_bind fst snd]. destruct more; cbn [negb orb]; [| subst ts; exists (rs_reply s); split; [done | apply P]].
  destruct M as (tag & t & ts' & Ei & Et & El & ->). rewrite Hi in Et. cbn [reply_of].
  rewrite <- (reply_done_points m _ _ (proj1 P)). destruct (reply_done (rs_reply s)); [exists (rs_reply s); split; [done | apply P] |].
  rewrite Ei. cbn [mbind option_bind]. pose proof Et as Et'. destruct (tag_seen _ _ _ _ Et) as (n & En' & Hn).
  rewrite En'. cbn [mbind option_bind]. destruct (n <? 2).
  { assert (E0 : e_tag t = None) by (unfold e_tag; by rewrite (tag_id_short 101 t Hn)). rewrite E0. by apply IH. }
  destruct Hn as (s0 & s1 & x0 & x1 & t' & -> & Hn & -> & R0 & -> & R1). cbn [mbind option_bind].
  rewrite (named_spec m s0 x0 101 R0) by done. cbn [mbind option_bind]. pose proof (raw_id _ _ _ R1) as I1.
  unfold e_tag, tag_id. destruct (flag s1 =? NDB_PACKED_ID) eqn:Ef.
  2: { destruct I1 as (fl & y & ->). destruct (inline_named 101 x0); cbn [negb]; by apply IH. }
  destruct I1 as (fl & id & -> & L). destruct (inline_named 101 x0); cbn [negb]; [| by apply IH].
  cbn [mbind option_bind]. destruct (step_reads _ _ _ _ Et') as (n' & E2 & _ & R). rewrite En' in E2. injection E2 as <-.
  assert (Mk : (if 4 <=? n then p ← ndb_tag_str m note tag 3;
      if flag p =? NDB_PACKED_STR then x ← c_string m (str p); Some (Some x) else Some None else Some None) =
    Some (x ← (x0 :: (fl, EId id) :: t') !! 3%nat; inline_str x)).
  { destruct (Z.leb_spec 4 n) as [L4 | L4].
    - destruct ((x0 :: (fl, EId id) :: t') !! 3%nat) as [x |] eqn:E3.
      2: { apply lookup_ge_None in E3. unfold zlen in Hn. lia. }
      destruct (R 3%nat x E3) as (s3 & Es & R3). change (Z.of_nat 3) with 3 in Es. rewrite Es. cbn [mbind option_bind].
      destruct x as [f3 e3]. apply raw_of_inv in R3 as (<- & E & F). unfold inline_str.
      destruct (Z.eqb_spec (flag s3) NDB_PACKED_STR) as [Es3 | _]; [| by destruct e3].
      rewrite Es3 in F. destruct e3 as [y |]; [| done]. unfold elem_of_str in E. rewrite Es3 in E.
      change (NDB_PACKED_STR =? NDB_PACKED_ID) with false in E. destruct (c_string m (str s3)); [by injection E as -> | done].
    - destruct ((x0 :: (fl, EId id) :: t') !! 3%nat) as [x |] eqn:E3; [| done].
      apply lookup_lt_Some in E3. unfold zlen in Hn. lia. }
  rewrite Mk. cbn [mbind option_bind]. apply IH; [done | done |]. by apply reply_step_points.
Qed.

(** Who a note replies to: the reply, or the root when there is none. *)
Definition direct_target {A} (r : ndb_note_reply A) : option A :=
  match nr_reply r with Some id => Some id | None => nr_root r end.

Section note_reply.
Context (cb : list Z -> mem -> Z -> bool) (m : mem) (note : Z) (f : fnote).
Hypothesis (Rd : note_reads cb m note f).

Lemma parse_reply_spec : exists r, ndb_parse_reply m note = Some r /\ reply_points m r (note_reply f).
Proof using Rd.
  destruct (tags_fuel_spec cb m note f Rd) as (fuel & E & H). unfold ndb_parse_reply. rewrite E. cbn [mbind option_bind].
  apply parse_reply_loop_spec; [done | done |]. split; [split; [done | split; done] | done].
Qed.

Lemma reply_target_spec r r' : reply_points m r r' -> exists a, reply_target m r = Some a /\ points m a (direct_target r').
Proof using.
  destruct r as [p r n], r' as [p' r' n']. intros (P1 & P2 & _). cbn in P1, P2. unfold reply_target, ndb_is_reply_to_root, direct_target. cbn.
  destruct r as [r |], r' as [r' |]; try done; destruct p as [p |], p' as [p' |]; try done; cbn in P1, P2 |- *.
  - rewrite P1, P2. cbn [mbind option_bind]. rewrite memcmp_eq0 by (apply loadn_length in P1, P2; lia).
    destruct (decide (r' = p')) as [-> | N].
    + rewrite bool_decide_eq_true_2 by done. by exists (Some r).
    + rewrite bool_decide_eq_false_2 by done. by exists (Some p).
  - by exists (Some r).
  - by exists (Some p).
  - by exists None.
Qed.
End note_reply.

(** An inline string lies in the four bytes of its descriptor, whose last is the
    flag: it ends there or goes on with a one. *)
Definition inline_shaped (s : list Z) : Prop := forall c, s !! 3%nat = Some c -> c = NDB_PACKED_STR.

Lemma inline_str_shaped m note tag i s x y : ndb_tag_str m note tag i = Some s -> raw_of m s = Some x -> inline_str x = Some y ->
  inline_shaped y.
Proof.
  intros Es Hx Hy c Hc. destruct x as [fl [z | id]]; [| done]. cbn [inline_str] in Hy. destruct (Z.eqb_spec fl NDB_PACKED_STR); [| done].
  injection Hy as ->. subst fl. apply raw_of_inv in Hx as (Ef & Ex & _). unfold ndb_tag_str, ndb_note_str in Es.
  destruct (load8 m (tag + 2 + 4 * i + 3)) as [b |] eqn:Eb; [| done]. cbn [mbind option_bind] in Es.
  destruct (Z.eqb_spec b NDB_PACKED_STR) as [-> | Nb].
  - injection Es as <-. unfold elem_of_str in Ex. cbn in Ex.
    destruct (c_string m _) as [w |] eqn:Ec in Ex; [| done]. injection Ex as ->. apply c_string_inv in Ec as [_ L].
    destruct y as [| c0 [| c1 [| c2 [| c3 y]]]]; try done. injection Hc as ->. cbn [app] in L.
    do 3 (apply loadn_cons in L as [_ L]). apply loadn_cons in L as [L _].
    replace (tag + 2 + 4 * i + 1 + 1 + 1) with (tag + 2 + 4 * i + 3) in L by lia. congruence.
  - destruct (load_u32 m (note + off.strings)) as [st |]; [| done]. cbn [mbind option_bind] in Es.
    destruct (load_u32 m _) as [o |]; [| done]. injection Es as <-. cbn [flag] in Ef. congruence.
Qed.

Lemma raw_tags_shaped fuel m : forall it ts, raw_tags_loop fuel m it = Some ts ->
  forall t x s, t ∈ ts -> x ∈ t -> inline_str x = Some s -> inline_shaped s.
Proof.
  induction fuel as [| fuel IH]; intros it ts H; [done |].
  destruct (tags_loop_step _ _ _ _ H) as (more & it' & _ & _ & M). destruct more; [| subst ts; by intros t x s ?%elem_of_nil].
  destruct M as (tag & t0 & ts' & _ & Et & El & ->). intros t x s [-> | Ht]%elem_of_cons Hx Hs; [| by eapply IH].
  destruct (step_reads _ _ _ _ Et) as (n & _ & _ & R). apply list_elem_of_lookup in Hx as [j Hj].
  destruct (R j x Hj) as (s' & E1 & E2). by eapply inline_str_shaped.
Qed.

Lemma note_inline_shaped cb m note f : note_reads cb m note f ->
  forall t x s, t ∈ n_tags f -> x ∈ t -> inline_str x = Some s -> inline_shaped s.
Proof.
  intros Rd. pose proof (nr_tags _ _ _ _ Rd) as H. unfold raw_tags in H.
  destruct (ndb_tags_count m (ndb_note_tags note)); [| done]. exact (raw_tags_shaped _ _ _ _ H).
Qed.

(** The ids of the [e] tags before the first with an inline marker. *)
Fixpoint unmarked_ids (ts : list (list (Z * elem))) : list (list Z) :=
  match ts with
  | [] => []
  | t :: ts => match e_tag t with Some (id, None) => id :: unmarked_ids ts | Some (_, Some _) => [] | None => unmarked_ids ts end
  end.

Lemma shaped_not_marker s : inline_shaped s ->
  s <> marker_root /\ s <> marker_reply /\ s <> marker_mention.
Proof. intros H. split; [| split]; intros ->; by specialize (H _ eq_refl). Qed.

Lemma e_tag_shaped t id s : (forall x s, x ∈ t -> inline_str x = Some s -> inline_shaped s) -> e_tag t = Some (id, Some s) ->
  inline_shaped s.
Proof.
  intros H E. unfold e_tag in E. destruct (tag_id 101 t); [| done]. cbn [mbind option_bind] in E.
  destruct (t !! 3%nat) as [x |] eqn:E3; cbn [mbind option_bind] in E; [| done]. injection E as _ E.
  apply (H x s); [by eapply list_elem_of_lookup_2 | done].
Qed.

(** Once an inline marker is seen nothing changes. *)
Lemma reply_of_marked ts p r fs : (forall t x s, t ∈ ts -> x ∈ t -> inline_str x = Some s -> inline_shaped s) ->
  rs_reply (reply_of ts (mk_rs (mk_reply p r None) true fs)) = mk_reply p r None.
Proof.
  induction ts as [| t ts IH]; intros H; [done |]. cbn [reply_of].
  assert (Hd : reply_done (rs_reply (mk_rs (mk_reply p r None) true fs)) = false) by (by destruct p, r). rewrite Hd.
  assert (IH' := IH (fun t' x s Ht => H t' x s (proj2 (elem_of_cons _ _ _) (or_intror Ht)))).
  destruct (e_tag t) as [[id [s |]] |] eqn:Et; [| done | done].
  destruct (shaped_not_marker s) as (N1 & N2 & N3); [eapply e_tag_shaped; [| done]; intros x s' Hx; apply (H t); [apply elem_of_cons; by left | done] |].
  cbn [reply_step]. by rewrite !bool_decide_eq_false_2.
Qed.

Lemma reply_of_unmarked ts : (forall t x s, t ∈ ts -> x ∈ t -> inline_str x = Some s -> inline_shaped s) ->
  forall p r, let fs := match r with None => true | Some _ => false end in (r = None -> p = None) ->
  rs_reply (reply_of ts (mk_rs (mk_reply p r None) false fs)) =
    match r, p with
    | Some _, Some _ => mk_reply p r None
    | Some _, None => mk_reply (unmarked_ids ts !! 0%nat) r None
    | None, _ => mk_reply (unmarked_ids ts !! 1%nat) (unmarked_ids ts !! 0%nat) None
    end.
Proof.
  induction ts as [| t ts IH]; intros H p r fs Hp; [destruct r, p; try done; cbn; by rewrite Hp |]. cbn [reply_of].
  assert (Hd : reply_done (rs_reply (mk_rs (mk_reply p r None) false fs)) = false) by (by destruct p, r). rewrite Hd.
  assert (Hs := fun t' x s Ht => H t' x s (proj2 (elem_of_cons _ _ _) (or_intror Ht))).
  cbn [unmarked_ids]. destruct (e_tag t) as [[id [s |]] |] eqn:Et.
  - destruct (shaped_not_marker s) as (N1 & N2 & N3); [eapply e_tag_shaped; [| done]; intros x s' Hx; apply (H t); [apply elem_of_cons; by left | done] |].
    cbn [reply_step]. rewrite !bool_decide_eq_false_2 by done. rewrite reply_of_marked by done.
    destruct r, p; try done. by specialize (Hp eq_refl).
  - cbn [reply_step negb andb]. destruct r as [r |]; subst fs; cbn [andb].
    + destruct p as [p |].
      * by rewrite (IH Hs (Some p) (Some r)) by done.
      * by rewrite (IH Hs (Some id) (Some r)) by done.
    + rewrite (Hp eq_refl). by rewrite (IH Hs None (Some id)) by done.
  - by apply IH.
Qed.

(** ** The metadata table *)

Section table.
Context {D C : Type} `{!Lmdb D C} `{!LmdbPut D C}.

Lemma mem_cmp_eq a b : mem_cmp a b = Some 0 <-> a = b.
Proof using.
  unfold mem_cmp. rewrite mdb_cmp_memn_sgn. split.
  - intros H. injection H as H. apply (cmp_eq (cmp := bytes_cmp)). by destruct (bytes_cmp a b).
  - intros ->. by rewrite (cmp_refl bytes_cmp).
Qed.

(** Getting from a list of pairs, and from what a put leaves of it. *)
Definition pick (l : list item) (k : list Z) : option (list Z) := snd ∘ snd <$> list_find (fun it => mem_cmp (fst it) k = Some 0) l.

Lemma pick_cons it l k : pick (it :: l) k = if decide (fst it = k) then Some (snd it) else pick l k.
Proof using.
  unfold pick. cbn [list_find]. destruct (decide (mem_cmp (fst it) k = Some 0)) as [E | N].
  - rewrite mem_cmp_eq in E. by rewrite decide_True.
  - rewrite mem_cmp_eq in N. rewrite decide_False by done. by destruct (list_find _ l) as [[? ?] |].
Qed.

Lemma put_items_pick k v l : exists l', put_items mem_cmp None (k, v) l = Some l' /\
  forall k', pick l' k' = if decide (k' = k) then Some v else pick l k'.
Proof using.
  induction l as [| it l (l' & IH & P)].
  - exists [(k, v)]. split; [done |]. intros k'. rewrite pick_cons. cbn [fst snd].
    destruct (decide (k' = k)) as [-> | N]; [by rewrite !decide_True by done | by rewrite decide_False by congruence].
  - cbn [put_items]. unfold item_cmp. cbn [fst snd].
    assert (E : exists c, mem_cmp k (fst it) = Some c /\ (c = 0 <-> k = fst it)).
    { eexists. split; [reflexivity |]. rewrite <- mem_cmp_eq. unfold mem_cmp. split; [by intros -> | by intros [= ->]]. }
    destruct E as (c & -> & Hc). cbn [mbind option_bind]. destruct (Z.eqb_spec c 0) as [-> | Nc].
    + destruct Hc as [Hc _]. cbn [mbind option_bind Z.ltb Z.eqb Z.compare]. exists ((k, v) :: l). split; [done |].
      intros k'. rewrite !pick_cons. cbn [fst snd]. rewrite <- (Hc eq_refl). 
      destruct (decide (k' = k)) as [-> | N]; [by rewrite !decide_True by done | by rewrite !decide_False by congruence].
    + cbn [mbind option_bind]. destruct (Z.ltb_spec c 0).
      * exists ((k, v) :: it :: l). split; [done |]. intros k'. rewrite pick_cons. cbn [fst snd].
        destruct (decide (k' = k)) as [-> | N]; [by rewrite !decide_True by done | by rewrite decide_False by congruence].
      * destruct (Z.eqb_spec c 0); [done |]. rewrite IH. cbn [mbind option_bind]. exists (it :: l'). split; [done |].
        intros k'. rewrite !pick_cons, P. destruct (decide (fst it = k')) as [<- | N]; [| done].
        rewrite decide_False; [done |]. intros E. apply Nc, Hc. done.
Qed.

(** Abstractly, metadata by the id of the note. *)
Definition metas : Type := list Z -> option note_meta.

Definition set_meta (id : list Z) (nm : note_meta) (ms : metas) : metas := fun id' => if decide (id' = id) then Some nm else ms id'.

Record meta_table (d : D) (ms : metas) : Prop := {
  mt_get : forall id, mdb_get d id = meta_bytes <$> ms id;
  mt_wf : forall id nm, ms id = Some nm -> meta_wf nm
}.

Lemma put_meta (Po : puts_ok D) (txn : ndb_txn D) ms id nm : env_ok txn -> meta_table (txn NDB_DB_META) ms -> meta_wf nm -> zlen id = 32 ->
  exists d, txn_put NDB_DB_META id (meta_bytes nm) false txn = Some (true, upd txn NDB_DB_META d) /\
    env_ok (upd txn NDB_DB_META d) /\ meta_table d (set_meta id nm ms).
Proof.
  intros E T W Hid. destruct (E NDB_DB_META) as [Ec Ed]. cbn [dbi_config fst snd] in Ec, Ed.
  destruct (put_items_pick id (meta_bytes nm) (db_items (txn NDB_DB_META))) as (l & El & Pl).
  destruct (Po (txn NDB_DB_META) id (meta_bytes nm)) as [d Hd]; [| rewrite Ec, Ed, El; eauto |].
  { rewrite Ed. pose proof (mw_count _ W). pose proof (zlen_nonneg (nm_entries nm)).
    apply sizes_ok_none; [unfold MDB_MAXKEYSIZE; lia |]. rewrite zlen_meta_bytes. unfold meta_size, MAXDATASIZE. lia. }
  destruct (mdb_put_spec _ _ _ _ _ Hd) as (E1 & E2 & E3 & _). rewrite Ec, Ed, El in E3. injection E3 as E3.
  exists d. split; [unfold txn_put; by rewrite Hd |]. split; [by eapply env_ok_upd |]. split.
  - intros id'. rewrite mdb_get_spec, E1, Ec, E3. fold (pick l id'). rewrite Pl. unfold set_meta.
    destruct (decide (id' = id)); [done |]. rewrite <- (mt_get _ _ T). rewrite mdb_get_spec, Ec. done.
  - intros id' nm'. unfold set_meta. destruct (decide (id' = id)); [by intros [= <-] | apply (mt_wf _ _ T)].
Qed.

(** The entry under a key in the metadata of a note. *)
Definition meta_at (ms : metas) (id : list Z) (k : Z * Z) : option meta_entry := nm ← ms id; entry_at k (nm_entries nm).

(** Room for [n] entries more in every metadata. *)
Definition roomy (size : Z) (n : Z) (ms : metas) : Prop := (16 + 16 * n <= size /\ n < 65536) /\
  forall id nm, ms id = Some nm -> meta_size (nm_entries nm) + 16 * n <= size /\ zlen (nm_entries nm) + n < 65536.

(** [ms'] is [ms] with the entry [e'] under the key [k] of the note [id]. *)
Definition stat_updated (id : list Z) (k : Z * Z) (e' : meta_entry) (ms ms' : metas) : Prop :=
  (forall id', id' <> id -> ms' id' = ms id') /\
  (forall k', meta_at ms' id k' = if decide (k' = k) then Some e' else meta_at ms id k').

Context (scratch : mem) (Po : puts_ok D) (Hb : bytes_ok scratch).

Lemma update_meta_spec n id type payload fnew fnext init next (txn : ndb_txn D) ms :
  env_ok txn -> meta_table (txn NDB_DB_META) ms -> 1 <= n -> roomy (zlen scratch) n ms -> query_ok type payload -> zlen id = 32 ->
  (forall e, entry_wf e -> updates fnew e (init e) /\ entry_key (init e) = query_key type payload /\ entry_wf (init e)) ->
  (forall e, entry_wf e -> entry_key e = query_key type payload ->
    updates fnext e (next e) /\ entry_key (next e) = query_key type payload /\ entry_wf (next e)) ->
  exists txn' ms' e', update_meta scratch id type payload fnew fnext txn = Some (true, txn') /\
    env_ok txn' /\ (forall db, db <> NDB_DB_META -> txn' db = txn db) /\ meta_table (txn' NDB_DB_META) ms' /\
    roomy (zlen scratch) (n - 1) ms' /\ stat_updated id (query_key type payload) e' ms ms' /\
    match meta_at ms id (query_key type payload) with
    | None => exists x, entry_wf x /\ e' = init x
    | Some e => entry_wf e /\ e' = next e
    end.
Proof using Po Hb.
  intros E T Hn [[R0 Rn] R] Q Hid Hi Hx. unfold update_meta, ndb_get_note_meta. rewrite (mt_get _ _ T).
  set (k := query_key type payload) in *.
  assert (Base : exists nm r buf, ndb_note_meta_clone_with_entry (In_db <$> (meta_bytes <$> ms id)) type payload (zlen scratch) scratch = Some (r, buf) /\
    clone_outcome nm k (zlen scratch) r buf /\ meta_wf nm /\ meta_size (nm_entries nm) + 16 * n <= zlen scratch /\ zlen (nm_entries nm) + n < 65536 /\
    forall k', entry_at k' (nm_entries nm) = meta_at ms id k').
  { unfold meta_at. destruct (ms id) as [nm |] eqn:Em; cbn [fmap option_fmap option_map mbind option_bind].
    - destruct (R id nm Em) as [R1 R2]. pose proof (mt_wf _ _ T id nm Em) as W.
      destruct (clone_db_spec nm scratch (zlen scratch) type payload W) as (r & buf & Ec & [(_ & _ & L) | O]); [lia | done | done | lia | lia |].
      exists nm, r, buf. done.
    - destruct (clone_null_spec k scratch (zlen scratch) type payload Hb) as (pad & r & buf & Ec & O); [lia |].
      exists (mk_meta 1 pad 0 []), r, buf. split; [exact Ec |]. split; [done |]. unfold meta_size. cbn [nm_entries]. change (zlen (@nil meta_entry)) with 0.
      split; [split; cbn [nm_entries]; [constructor | constructor | done] |]. split; [lia |]. split; [lia | done]. }
  destruct Base as (nm & r & buf & Ec & O & W & R1 & R2 & Hat). rewrite Ec. cbn [mbind option_bind fst snd].
  destruct (outcome_updated nm k (zlen scratch) r buf fnew fnext init next W) as (buf' & rest & nm' & e' & -> & U & _ & _ & Hr); [lia | done | done | done |].
  destruct U as (W' & _ & L' & A').
  assert (Put : exists txn', ndb_writer_set_note_meta id (meta_bytes nm' ++ rest) txn = Some (true, txn') /\ env_ok txn' /\
    (forall db, db <> NDB_DB_META -> txn' db = txn db) /\ meta_table (txn' NDB_DB_META) (set_meta id nm' ms)).
  { destruct (put_meta Po txn ms id nm' E T W' Hid) as (d & Ed & E' & T'). exists (upd txn NDB_DB_META d).
    unfold ndb_writer_set_note_meta. rewrite (read_total_size nm' rest W'). cbn [mbind option_bind].
    rewrite (loadn_mid _ [] (meta_bytes nm') rest 0 _ eq_refl eq_refl) by (by rewrite zlen_meta_bytes). cbn [mbind option_bind].
    split; [done |]. split; [done |]. split; [intros db Hdb; by apply upd_other |]. by rewrite upd_same. }
  destruct Put as (txn' & Ep & E' & S' & T'). exists txn', (set_meta id nm' ms), e'.
  split; [destruct r as [| a | a]; [done | |]; destruct Hr as [Hr _]; rewrite Hr; cbn [mbind option_bind]; done |].
  split; [done |]. split; [done |]. split; [done |]. split; [split; [lia |] |].
  - intros id' nm0. unfold set_meta. destruct (decide (id' = id)).
    + intros [= <-]. unfold meta_size in *. lia.
    + intros H0. destruct (R id' nm0 H0). lia.
  - split; [split |].
    + intros id' N. unfold set_meta. by rewrite decide_False.
    + intros k'. unfold meta_at at 1, set_meta. rewrite decide_True by done. cbn [mbind option_bind]. rewrite A'. by rewrite Hat.
    + rewrite <- Hat. destruct r as [| a | a]; [done | |].
      * destruct Hr as (_ & e & -> & We & ->). done.
      * destruct Hr as (_ & -> & x & Wx & ->). by exists x.
Qed.
End table.

(** ** Counters and what increments them *)

Definition counts_key : Z * Z := (NDB_NOTE_META_COUNTS, 0).

Definition add_reaction (c : note_counts) : note_counts :=
  mk_counts (u32 (nc_total_reactions c + 1)) (nc_quotes c) (nc_direct_replies c) (nc_thread_replies c) (nc_reposts c).
Definition add_quote (c : note_counts) : note_counts :=
  mk_counts (nc_total_reactions c) (u16 (nc_quotes c + 1)) (nc_direct_replies c) (nc_thread_replies c) (nc_reposts c).
Definition add_direct_reply (c : note_counts) : note_counts :=
  mk_counts (nc_total_reactions c) (nc_quotes c) (u16 (nc_direct_replies c + 1)) (nc_thread_replies c) (nc_reposts c).
Definition add_thread_reply (c : note_counts) : note_counts :=
  mk_counts (nc_total_reactions c) (nc_quotes c) (nc_direct_replies c) (u32 (nc_thread_replies c + 1)) (nc_reposts c).
Definition add_repost (c : note_counts) : note_counts :=
  mk_counts (nc_total_reactions c) (nc_quotes c) (nc_direct_replies c) (nc_thread_replies c) (u16 (nc_reposts c + 1)).

Lemma incr16_at m pre v post a : is_u16 v -> m = pre ++ le_bytes 2 v ++ post -> a = zlen pre ->
  incr16 m a = Some (pre ++ le_bytes 2 (u16 (v + 1)) ++ post).
Proof.
  intros Hv -> ->. unfold incr16. rewrite load_u16_mid by done. cbn [mbind option_bind]. apply storen_mid; zl.
Qed.

Lemma incr32_at m pre v post a : is_u32 v -> m = pre ++ le_bytes 4 v ++ post -> a = zlen pre ->
  incr32 m a = Some (pre ++ le_bytes 4 (u32 (v + 1)) ++ post).
Proof.
  intros Hv -> ->. unfold incr32. rewrite load_u32_mid by done. cbn [mbind option_bind]. apply storen_mid; zl.
Qed.

Lemma add64_at m pre v post a n : is_u64 v -> m = pre ++ le_bytes 8 v ++ post -> a = zlen pre ->
  add64 m a n = Some (pre ++ le_bytes 8 (u64 (v + n)) ++ post).
Proof.
  intros Hv -> ->. unfold add64. rewrite load_u64_mid by done. cbn [mbind option_bind]. apply storen_mid; zl.
Qed.

(** The field after the count entry: [w] sets it where [bump] says. *)
Definition counts_update (w : mem -> Z -> option mem) (bump : note_counts -> note_counts) : Prop :=
  forall c, counts_wf c -> counts_wf (bump c) /\ updates w (counts_entry c) (counts_entry (bump c)).

Lemma u16_wf v : is_u16 (u16 v).
Proof. unfold is_u16, u16. apply Z.mod_pos_bound. lia. Qed.

Lemma u32_wf v : is_u32 (u32 v).
Proof. unfold is_u32, u32. apply Z.mod_pos_bound. lia. Qed.

Ltac counts_update_tac c W W' :=
  intros c W; pose proof W as (W1 & W2 & W3 & W4 & W5);
  match goal with |- counts_wf ?x /\ _ => assert (W' : counts_wf x) by (refine (conj _ (conj _ (conj _ (conj _ _)))); try assumption; first [apply u16_wf | apply u32_wf]) end;
  split; [exact W' |]; intros pre post a ->; rewrite (counts_entry_bytes _ W), (counts_entry_bytes _ W');
  cbn [nc_total_reactions nc_quotes nc_direct_replies nc_thread_replies nc_reposts add_reaction add_quote add_direct_reply add_thread_reply add_repost].

Lemma total_reactions_update : counts_update (fun m a => incr32 m (ndb_note_meta_counts_total_reactions a)) add_reaction.
Proof.
  counts_update_tac c W W'. set (t := le_bytes 2 NDB_NOTE_META_COUNTS).
  rewrite (incr32_at _ (pre ++ t ++ le_bytes 2 (nc_reposts c)) (nc_total_reactions c)
    (le_bytes 2 (nc_direct_replies c) ++ le_bytes 2 (nc_quotes c) ++ le_bytes 4 (nc_thread_replies c) ++ post)).
  all: try done. 2: app_eq. 2: unfold ndb_note_meta_counts_total_reactions, moff.e_aux, t; zl. f_equal. app_eq.
Qed.

Lemma quotes_update : counts_update (fun m a => incr16 m (ndb_note_meta_counts_quotes a)) add_quote.
Proof.
  counts_update_tac c W W'. set (t := le_bytes 2 NDB_NOTE_META_COUNTS).
  rewrite (incr16_at _ (pre ++ t ++ le_bytes 2 (nc_reposts c) ++ le_bytes 4 (nc_total_reactions c) ++ le_bytes 2 (nc_direct_replies c))
    (nc_quotes c) (le_bytes 4 (nc_thread_replies c) ++ post)).
  all: try done. 2: app_eq. 2: unfold ndb_note_meta_counts_quotes, moff.quotes, t; zl. f_equal. app_eq.
Qed.

Lemma direct_replies_update : counts_update (fun m a => incr16 m (ndb_note_meta_counts_direct_replies a)) add_direct_reply.
Proof.
  counts_update_tac c W W'. set (t := le_bytes 2 NDB_NOTE_META_COUNTS).
  rewrite (incr16_at _ (pre ++ t ++ le_bytes 2 (nc_reposts c) ++ le_bytes 4 (nc_total_reactions c))
    (nc_direct_replies c) (le_bytes 2 (nc_quotes c) ++ le_bytes 4 (nc_thread_replies c) ++ post)).
  all: try done. 2: app_eq. 2: unfold ndb_note_meta_counts_direct_replies, moff.direct_replies, t; zl. f_equal. app_eq.
Qed.

Lemma thread_replies_update : counts_update (fun m a => incr32 m (ndb_note_meta_counts_thread_replies a)) add_thread_reply.
Proof.
  counts_update_tac c W W'. set (t := le_bytes 2 NDB_NOTE_META_COUNTS).
  rewrite (incr32_at _ (pre ++ t ++ le_bytes 2 (nc_reposts c) ++ le_bytes 4 (nc_total_reactions c) ++ le_bytes 2 (nc_direct_replies c) ++
    le_bytes 2 (nc_quotes c)) (nc_thread_replies c) post).
  all: try done. 2: app_eq. 2: unfold ndb_note_meta_counts_thread_replies, moff.thread_replies, t; zl. f_equal. app_eq.
Qed.

Lemma reposts_update : counts_update (fun m a => incr16 m (ndb_note_meta_counts_reposts a)) add_repost.
Proof.
  counts_update_tac c W W'. set (t := le_bytes 2 NDB_NOTE_META_COUNTS).
  rewrite (incr16_at _ (pre ++ t) (nc_reposts c) (le_bytes 4 (nc_total_reactions c) ++ le_bytes 2 (nc_direct_replies c) ++
    le_bytes 2 (nc_quotes c) ++ le_bytes 4 (nc_thread_replies c) ++ post)).
  all: try done. 2: app_eq. 2: unfold ndb_note_meta_counts_reposts, moff.e_aux2, t; zl. f_equal. app_eq.
Qed.

Lemma no_counts_wf : counts_wf no_counts.
Proof. unfold counts_wf, is_u16, is_u32. cbn. lia. Qed.

Section increments.
Context {D C : Type} `{!Lmdb D C} `{!LmdbPut D C}.
Context (scratch : mem) (Po : puts_ok D) (Hb : bytes_ok scratch).

(** The transaction stores [ms], with room for [n] updates. *)
Record meta_state (n : Z) (txn : ndb_txn D) (ms : metas) : Prop := {
  me_env : env_ok txn;
  me_table : meta_table (txn NDB_DB_META) ms;
  me_room : roomy (zlen scratch) n ms
}.

(** Only the metadata table differs. *)
Definition only_meta (txn txn' : ndb_txn D) : Prop := forall db, db <> NDB_DB_META -> txn' db = txn db.

Definition counts_at (ms : metas) (id : list Z) : note_counts :=
  match meta_at ms id counts_key with Some e => counts_of e | None => no_counts end.

(** The counters of every note change as [f] says, and no other entry does. *)
Definition counts_step (f : list Z -> note_counts -> note_counts) (ms ms' : metas) : Prop :=
  (forall id, counts_at ms' id = f id (counts_at ms id)) /\ (forall id k, k <> counts_key -> meta_at ms' id k = meta_at ms id k).

(** [bump] for the note [o], if it is one. *)
Definition at_id (o : option (list Z)) (bump : note_counts -> note_counts) (id : list Z) (c : note_counts) : note_counts :=
  if decide (o = Some id) then bump c else c.

Lemma counts_step_trans f g ms ms1 ms2 : counts_step f ms ms1 -> counts_step g ms1 ms2 ->
  counts_step (fun id c => g id (f id c)) ms ms2.
Proof using.
  intros [F F'] [G G']. split.
  - intros id. by rewrite G, F.
  - intros id k Hk. by rewrite G', F'.
Qed.

Lemma meta_state_weaken n k txn ms : meta_state n txn ms -> 0 <= k <= n -> meta_state k txn ms.
Proof using.
  intros [E T [[R1 R2] R]] Hk. split; [done | done |]. split; [lia |]. intros id nm H. destruct (R id nm H). lia.
Qed.

Lemma update_counts_spec n id fnew w bump txn ms : 1 <= n -> meta_state n txn ms -> zlen id = 32 -> counts_update w bump ->
  (forall e, updates fnew e (counts_entry (bump no_counts))) ->
  exists txn' ms', update_meta scratch id NDB_NOTE_META_COUNTS None fnew w txn = Some (true, txn') /\
    meta_state (n - 1) txn' ms' /\ only_meta txn txn' /\ counts_step (at_id (Some id) bump) ms ms'.
Proof using Po Hb.
  intros Hn [E T R] Hid U Ui. pose proof no_counts_wf as W0.
  assert (Hnext : forall e, entry_wf e -> entry_key e = query_key NDB_NOTE_META_COUNTS None ->
    updates w e (counts_entry (bump (counts_of e))) /\ entry_key (counts_entry (bump (counts_of e))) = query_key NDB_NOTE_META_COUNTS None /\
    entry_wf (counts_entry (bump (counts_of e)))).
  { intros e We Ek. injection Ek as Et _. destruct (counts_of_wf e We Et) as [Wc Ee].
    destruct (U _ Wc) as [Wb Ub]. rewrite Ee in Ub. split; [done |]. split; [done |]. by apply counts_entry_wf. }
  destruct (update_meta_spec scratch Po Hb n id NDB_NOTE_META_COUNTS None fnew w (fun _ => counts_entry (bump no_counts))
    (fun e => counts_entry (bump (counts_of e))) txn ms E T Hn R) as (txn' & ms' & e' & Eu & E' & S' & T' & R' & [O At] & He).
  - done.
  - exact Hid.
  - intros e We. split; [apply Ui |]. split; [done |]. by apply counts_entry_wf, U.
  - exact Hnext.
  - exists txn', ms'. split; [done |]. split; [by split |]. split; [done |]. change (query_key _ _) with counts_key in *. split.
    + intros id'. unfold at_id. destruct (decide (Some id = Some id')) as [Eid | N].
      * injection Eid as <-. unfold counts_at at 1. rewrite At, decide_True by done. unfold counts_at.
        destruct (meta_at ms id counts_key) as [e |] eqn:Em.
        -- destruct He as [We ->]. assert (Ek : entry_key e = counts_key).
           { unfold meta_at in Em. destruct (ms id) as [nm |]; [| done]. cbn [mbind option_bind] in Em. unfold entry_at in Em.
             destruct (list_find _ _) as [[i x] |] eqn:Ef; [| done]. apply list_find_Some in Ef as (_ & Ef & _). by injection Em as <-. }
           injection Ek as Et _. rewrite counts_of_entry; [done |]. apply U. by apply counts_of_wf.
        -- destruct He as (x & _ & ->). apply counts_of_entry. by apply U.
      * unfold counts_at, meta_at. rewrite (O id') by congruence. done.
    + intros id' k Hk. destruct (decide (id' = id)) as [-> | N]; [by rewrite At, decide_False |].
      unfold meta_at. by rewrite (O id').
Qed.

(** The increments. *)
Definition Increments (w : list Z -> M (ndb_txn D) bool) (bump : note_counts -> note_counts) : Prop :=
  forall n id txn ms, 1 <= n -> meta_state n txn ms -> zlen id = 32 ->
  exists txn' ms', w id txn = Some (true, txn') /\ meta_state (n - 1) txn' ms' /\ only_meta txn txn' /\ counts_step (at_id (Some id) bump) ms ms'.

Lemma increment_total_reactions_spec : Increments (ndb_increment_total_reactions scratch) add_reaction.
Proof using Po Hb.
  intros n id txn ms Hn S Hid. apply update_counts_spec; [done | done | done | apply total_reactions_update |].
  intros e. apply (counts_set_updates e (add_reaction no_counts)). exact (proj1 (total_reactions_update _ no_counts_wf)).
Qed.

Lemma increment_quote_spec : Increments (ndb_increment_quote_metadata scratch) add_quote.
Proof using Po Hb.
  intros n id txn ms Hn S Hid. apply update_counts_spec; [done | done | done | apply quotes_update |].
  intros e. apply (counts_set_updates e (add_quote no_counts)). exact (proj1 (quotes_update _ no_counts_wf)).
Qed.

Lemma increment_direct_reply_spec : Increments (ndb_increment_direct_reply_metadata scratch) add_direct_reply.
Proof using Po Hb.
  intros n id txn ms Hn S Hid. apply update_counts_spec; [done | done | done | apply direct_replies_update |].
  intros e. apply (counts_set_updates e (add_direct_reply no_counts)). exact (proj1 (direct_replies_update _ no_counts_wf)).
Qed.

Lemma increment_thread_reply_spec : Increments (ndb_increment_thread_reply_metadata scratch) add_thread_reply.
Proof using Po Hb.
  intros n id txn ms Hn S Hid. apply update_counts_spec; [done | done | done | apply thread_replies_update |].
  intros e. apply (counts_set_updates e (add_thread_reply no_counts)). exact (proj1 (thread_replies_update _ no_counts_wf)).
Qed.

Lemma increment_repost_spec : Increments (ndb_increment_repost_metadata scratch) add_repost.
Proof using Po Hb.
  intros n id txn ms Hn S Hid. apply update_counts_spec; [done | done | done | apply reposts_update |].
  intros e. apply (counts_set_updates e (add_repost no_counts)). exact (proj1 (reposts_update _ no_counts_wf)).
Qed.

Lemma for_id_spec nm a o w bump n txn ms : Increments w bump -> points nm a o -> 1 <= n -> meta_state n txn ms ->
  exists txn' ms', for_id nm a w txn = Some (tt, txn') /\ meta_state (n - 1) txn' ms' /\ only_meta txn txn' /\
    counts_step (at_id o bump) ms ms'.
Proof using.
  intros I P Hn S. destruct a as [a |], o as [id |]; try done; cbn [for_id].
  - cbn in P. destruct (I n id txn ms Hn S (loadn_length _ _ _ _ P)) as (txn' & ms' & E & R). exists txn', ms'. split; [| done].
    unfold bind at 1, lift. rewrite P. cbn [mbind option_bind]. unfold bind. by rewrite E.
  - exists txn, ms. split; [done |]. split; [eapply meta_state_weaken; [done | lia] |]. split; [done |]. split; [| done].
    intros id. unfold at_id. by rewrite decide_False.
Qed.

(** What a text note counts for: the quoted note, the one replied to, the thread. *)
Definition note_stats_of (f : fnote) (id : list Z) (c : note_counts) : note_counts :=
  at_id (nr_root (note_reply f)) add_thread_reply id
    (at_id (direct_target (note_reply f)) add_direct_reply id
       (at_id (head (omap (tag_id 113) (n_tags f))) add_quote id c)).

Lemma process_note_stats_spec cb nm note f n txn ms : note_reads cb nm note f -> 3 <= n -> meta_state n txn ms ->
  exists txn' ms', ndb_process_note_stats scratch nm note txn = Some (tt, txn') /\ meta_state (n - 3) txn' ms' /\
    only_meta txn txn' /\ counts_step (note_stats_of f) ms ms'.
Proof using Po Hb.
  intros Rd Hn S. unfold ndb_process_note_stats.
  destruct (first_id_tag_spec cb nm note f Rd 113 ltac:(done)) as (q & Eq & Pq).
  destruct (parse_reply_spec cb nm note f Rd) as (r & Er & Pr). destruct (reply_target_spec nm r _ Pr) as (t & Et & Pt).
  destruct (for_id_spec nm q _ _ _ n txn ms increment_quote_spec Pq ltac:(lia) S) as (txn1 & ms1 & E1 & S1 & O1 & C1).
  destruct (for_id_spec nm t _ _ _ (n - 1) txn1 ms1 increment_direct_reply_spec Pt ltac:(lia) S1) as (txn2 & ms2 & E2 & S2 & O2 & C2).
  destruct (for_id_spec nm (nr_root r) (nr_root (note_reply f)) _ _ (n - 1 - 1) txn2 ms2 increment_thread_reply_spec ltac:(apply Pr) ltac:(lia) S2)
    as (txn3 & ms3 & E3 & S3 & O3 & C3).
  exists txn3, ms3. split; [| split; [| split]].
  - rewrite (run_lift _ _ _ _ Eq). unfold bind at 1. rewrite E1. rewrite (run_lift _ _ _ _ Er), (run_lift _ _ _ _ Et).
    unfold bind. by rewrite E2.
  - by replace (n - 3) with (n - 1 - 1 - 1) by lia.
  - intros db Hdb. by rewrite O3, O2, O1.
  - unfold note_stats_of. eapply counts_step_trans; [eapply counts_step_trans |]; [exact C1 | exact C2 | exact C3].
Qed.

Lemma process_repost_stats_spec cb nm note f n txn ms : note_reads cb nm note f -> 1 <= n -> meta_state n txn ms ->
  exists txn' ms', ndb_process_repost_stats scratch nm note txn = Some (tt, txn') /\ meta_state (n - 1) txn' ms' /\
    only_meta txn txn' /\ counts_step (at_id (head (omap (tag_id 101) (n_tags f))) add_repost) ms ms'.
Proof using Po Hb.
  intros Rd Hn S. unfold ndb_process_repost_stats.
  destruct (first_id_tag_spec cb nm note f Rd 101 ltac:(done)) as (q & Eq & Pq).
  rewrite (run_lift _ _ _ _ Eq). eapply for_id_spec; [apply increment_repost_spec | done | done | done].
Qed.

(** *** Reactions and zaps *)

Definition incr_aux (e : meta_entry) : meta_entry := mk_entry (me_type e) (me_aux2 e) (u32 (me_aux e + 1)) (me_payload e).

Lemma incr_aux_updates e : entry_wf e -> updates (fun m a => incr32 m (ndb_note_meta_reaction_count a)) e (incr_aux e).
Proof using.
  intros [W1 W2 W3 W4] pre post a ->. destruct e as [t a2 c p]. unfold entry_bytes, incr_aux. cbn [me_type me_aux2 me_aux me_payload].
  rewrite (incr32_at _ (pre ++ le_bytes 2 t ++ le_bytes 2 a2) c (le_bytes 8 p ++ post)).
  all: try done. 2: app_eq. 2: unfold ndb_note_meta_reaction_count, moff.e_aux; zl. f_equal. app_eq.
Qed.

Lemma incr_aux_wf e : entry_wf e -> entry_wf (incr_aux e) /\ entry_key (incr_aux e) = entry_key e.
Proof using. intros [W1 W2 W3 W4]. split; [| done]. split; try done. apply u32_wf. Qed.

(** The number of reactions of a note with that string. *)
Definition reactions_at (ms : metas) (id : list Z) (str : Z) : Z :=
  match meta_at ms id (NDB_NOTE_META_REACTION, str) with Some e => me_aux e | None => 0 end.

(** Only the entry under [k] of [id] changes. *)
Definition only_entry (id : list Z) (k : Z * Z) (ms ms' : metas) : Prop :=
  forall id' k', (id', k') <> (id, k) -> meta_at ms' id' k' = meta_at ms id' k'.

Lemma stat_updated_only id k e' ms ms' : stat_updated id k e' ms ms' -> only_entry id k ms ms'.
Proof using.
  intros [O A] id' k' N. destruct (decide (id' = id)) as [-> | Ni].
  - rewrite A, decide_False by congruence. done.
  - unfold meta_at. by rewrite O.
Qed.

Lemma update_reaction_spec n id str fnew txn ms : 1 <= n -> meta_state n txn ms -> is_u64 str -> zlen id = 32 ->
  (forall e, updates fnew e (mk_entry NDB_NOTE_META_REACTION 0 1 str)) ->
  exists txn' ms', update_meta scratch id NDB_NOTE_META_REACTION (Some str) fnew
      (fun m a => incr32 m (ndb_note_meta_reaction_count a)) txn = Some (true, txn') /\
    meta_state (n - 1) txn' ms' /\ only_meta txn txn' /\ only_entry id (NDB_NOTE_META_REACTION, str) ms ms' /\
    reactions_at ms' id str = u32 (reactions_at ms id str + 1).
Proof using Po Hb.
  intros Hn [E T R] Hs Hid Ui.
  destruct (update_meta_spec scratch Po Hb n id NDB_NOTE_META_REACTION (Some str) fnew (fun m a => incr32 m (ndb_note_meta_reaction_count a))
    (fun _ => mk_entry NDB_NOTE_META_REACTION 0 1 str) incr_aux txn ms E T Hn R) as (txn' & ms' & e' & Eu & E' & S' & T' & R' & St & He).
  - done.
  - exact Hid.
  - intros e We. split; [apply Ui |]. split; [done |]. split; cbn; unfold is_u16, is_u32; try done; lia.
  - intros e We Ek. destruct (incr_aux_wf e We) as [Wi Ki]. split; [by apply incr_aux_updates |]. by rewrite Ki.
  - exists txn', ms'. split; [done |]. split; [by split |]. split; [done |]. split; [by eapply stat_updated_only |].
    destruct St as [_ A]. unfold reactions_at. rewrite A, decide_True by done. change (query_key _ _) with (NDB_NOTE_META_REACTION, str) in He.
    destruct (meta_at ms id (NDB_NOTE_META_REACTION, str)) as [e |].
    + by destruct He as [_ ->].
    + by destruct He as (x & _ & ->).
Qed.

(** The string a reaction is counted under: longer text counts as a plus. *)
Definition reaction_value (b : binmoji) (s : list Z) : Z :=
  if decide (stored_as_emoji b s) then binmoji_encode b
  else if decide (length s <= 6)%nat then le_int (packed_text s)
  else Z.shiftl 43 PRIMARY_CP_SHIFT.

Section reaction.
Context (output_emoji strbuf : mem) (Ho : zlen output_emoji = 136) (Hsb : zlen strbuf = 128).

Lemma plus_reaction : ndb_reaction_set output_emoji plus_str 0 = Some (true, Z.shiftl 43 PRIMARY_CP_SHIFT).
Proof using Ho.
  destruct (reaction_set_spec output_emoji plus_str 0 (mk_binmoji 43 [] 0 0 0 0) [43]) as (r & -> & R & _); [repeat constructor; lia | done | reflexivity | reflexivity |].
  rewrite bool_decide_eq_true_2 by (left; reflexivity). by rewrite R.
Qed.

(** Setting the string, or the plus when it is too long. *)
Lemma reaction_str_spec nm content b s : bytes_ok nm -> binmoji_parse nm content = Some b -> c_string nm content = Some s ->
  (r ← ndb_reaction_set output_emoji nm content;
   if fst r : bool then Some (snd r)
   else r ← ndb_reaction_set output_emoji plus_str 0; if fst r : bool then Some (snd r) else None) = Some (reaction_value b s).
Proof using Ho.
  intros Hnm Hp Hc. destruct (reaction_set_spec output_emoji nm content b s Hnm Ho Hp Hc) as (r & -> & R1 & R2).
  cbn [mbind option_bind fst snd]. unfold reaction_value. destruct (decide (stored_as_emoji b s)) as [Em | Ne].
  - rewrite bool_decide_eq_true_2 by (by left). by rewrite (R1 Em).
  - destruct (decide (length s <= 6)%nat) as [L | L].
    + rewrite bool_decide_eq_true_2 by (by right). by rewrite (R2 Ne L).
    + rewrite bool_decide_eq_false_2 by tauto. rewrite plus_reaction. done.
Qed.

Lemma reaction_value_ok nm content b s : bytes_ok nm -> binmoji_parse nm content = Some b -> c_string nm content = Some s ->
  is_u64 (reaction_value b s) /\ is_Some (ndb_reaction_to_str (reaction_value b s) strbuf).
Proof using Hsb.
  intros Hnm Hp Hc. destruct (binmoji_parse_ok nm content b Hnm Hp) as [B _]. unfold reaction_value.
  destruct (decide (stored_as_emoji b s)) as [Em | Ne]; [split; [by apply encode_u64 | by apply encode_prints] |].
  destruct (decide (length s <= 6)%nat) as [L | L].
  - apply c_string_inv in Hc as [N Lo]. pose proof (loadn_bytes_ok nm content _ _ Hnm Lo) as Bs. apply Forall_app in Bs as [Bs _].
    destruct (packed_text_bytes s Bs ltac:(lia)) as [Bp Lp]. destruct (packed_text_reads s strbuf Bs N L) as [_ ->]. split; [| eauto].
    pose proof (le_int_range _ Bp) as Rg. unfold zlen in Rg. rewrite Lp in Rg. exact Rg.
  - split; [vm_compute; done |]. apply (encode_prints (mk_binmoji 43 [] 0 0 0 0)); [| done]. split; cbn; unfold cp_ok; try done; lia.
Qed.

Lemma write_reaction_stats_spec cb nm note f content b s n txn ms : note_reads cb nm note f -> 2 <= n -> meta_state n txn ms ->
  ndb_note_content nm note = Some content -> binmoji_parse nm content = Some b -> c_string nm content = Some s ->
  match list.last (omap (tag_id 101) (n_tags f)) with
  | None => ndb_write_reaction_stats scratch output_emoji strbuf nm note txn = Some (false, txn)
  | Some id =>
      exists txn' ms', ndb_write_reaction_stats scratch output_emoji strbuf nm note txn = Some (true, txn') /\
        meta_state (n - 2) txn' ms' /\ only_meta txn txn' /\
        (forall id', counts_at ms' id' = at_id (Some id) add_reaction id' (counts_at ms id')) /\
        reactions_at ms' id (reaction_value b s) = u32 (reactions_at ms id (reaction_value b s) + 1) /\
        forall id' k, k <> counts_key -> (id', k) <> (id, (NDB_NOTE_META_REACTION, reaction_value b s)) -> meta_at ms' id' k = meta_at ms id' k
  end.
Proof using Po Hb Ho Hsb.
  intros Rd Hn S Hc Hp Hs. pose proof (nr_bytes _ _ _ _ Rd) as Hnm.
  destruct (reaction_value_ok nm content b s Hnm Hp Hs) as [Hv [t Ht]]. pose proof (reaction_str_spec nm content b s Hnm Hp Hs) as Er.
  destruct (last_id_tag_spec cb nm note f Rd 101 ltac:(done)) as (a & Ea & Pa). unfold ndb_write_reaction_stats, ndb_process_reaction, bind.
  rewrite Ea. cbn [mbind option_bind]. set (v := reaction_value b s) in *.
  destruct (list.last _) as [id |], a as [a |]; try done. cbn in Pa. rewrite Pa. cbn [mbind option_bind]. rewrite Hc. cbn [mbind option_bind].
  destruct (update_reaction_spec n id v (fun buf entry => _ ← ndb_reaction_to_str v strbuf; ndb_note_meta_reaction_set buf entry 1 v) txn ms ltac:(lia) S Hv (loadn_length _ _ _ _ Pa))
    as (txn1 & ms1 & E1 & S1 & O1 & K1 & C1).
  { intros e. rewrite Ht. cbn [mbind option_bind]. apply reaction_set_updates. }
  destruct (increment_total_reactions_spec (n - 1) id txn1 ms1 ltac:(lia) S1 (loadn_length _ _ _ _ Pa)) as (txn2 & ms2 & E2 & S2 & O2 & C2 & K2).
  exists txn2, ms2. split; [| split; [by replace (n - 2) with (n - 1 - 1) by lia | split; [intros db Hdb; by rewrite O2, O1 |]]].
  - destruct (ndb_reaction_set output_emoji nm content) as [r |]; [| done]. cbn [mbind option_bind] in Er |- *. rewrite Er.
    cbn [mbind option_bind]. rewrite E1. cbn [mbind option_bind fst snd]. exact E2.
  - split; [| split].
    + intros id'. rewrite C2. unfold counts_at. rewrite K1 by (intros [= _ ?]; done). done.
    + unfold reactions_at. rewrite K2 by done. exact C1.
    + intros id' k Hk N. rewrite K2 by done. by apply K1.
Qed.
End reaction.

(** *** Zaps *)

Lemma find_tag_str_loop_spec m note name fuel : forall it ts, raw_tags_loop fuel m it = Some ts -> iter_note it = note ->
  exists r, find_tag_str_loop fuel m note name it = Some r /\
    match head (omap (fun t => match t with (_, EStr x) :: v :: _ => if decide (x = name) then Some v else None | _ => None end) ts), r with
    | Some v, Some s => raw_of m s = Some v
    | None, None => True
    | _, _ => False
    end.
Proof using.
  induction fuel as [| fuel IH]; intros it ts H Hi; [done |].
  destruct (tags_loop_step _ _ _ _ H) as (more & it' & En & Hi' & M). rewrite Hi in Hi'. cbn [find_tag_str_loop].
  rewrite En. cbn [mbind option_bind fst snd]. destruct more; cbn [negb]; [| subst ts; by exists None].
  destruct M as (tag & t & ts' & -> & Et & El & ->). rewrite Hi in Et. cbn [mbind option_bind].
  destruct (tag_seen _ _ _ _ Et) as (n & -> & Hn). cbn [mbind option_bind omap list_omap]. destruct (n <? 2).
  { destruct t as [| [? []] [| ? ?]]; cbn in Hn; try lia; by apply IH. }
  destruct Hn as (s0 & s1 & x0 & x1 & t' & -> & _ & -> & R0 & -> & R1). cbn [mbind option_bind].
  pose proof (raw_id _ _ _ R0) as I0. destruct (flag s0 =? NDB_PACKED_ID) eqn:Ef.
  - destruct I0 as (fl & id & -> & _). cbn [mbind option_bind]. by apply IH.
  - destruct I0 as (fl & y & ->). apply raw_of_inv in R0 as (_ & E0 & _). unfold elem_of_str in E0. rewrite Ef in E0.
    destruct (c_string m (str s0)) as [y' |]; [| done]. injection E0 as ->. cbn [mbind option_bind].
    destruct (decide (y = name)) as [E | N].
    + rewrite bool_decide_eq_true_2 by done. exists (Some s1). by cbn.
    + rewrite bool_decide_eq_false_2 by done. by apply IH.
Qed.

Section zaps.
Context (bolt11_decode_minimal : list Z -> option (option Z)).
Hypothesis (Hbolt : forall x msat, bolt11_decode_minimal x = Some (Some msat) -> is_u64 msat).

(** The amount of a zap receipt, or nothing when its invoice is missing or bad. *)
Definition zap_amount (f : fnote) : option Z :=
  v ← head (omap (fun t => match t with (_, EStr x) :: v :: _ => if decide (x = bolt11_tag) then Some v else None | _ => None end) (n_tags f));
  match v with
  | (_, EStr x) => default 0 <$> bolt11_decode_minimal x
  | (_, EId _) => None
  end.

Lemma parse_zap_spec cb nm note f : note_reads cb nm note f -> ndb_parse_zap_bolt11 bolt11_decode_minimal nm note = Some (zap_amount f).
Proof using.
  intros Rd. destruct (tags_fuel_spec cb nm note f Rd) as (fuel & E & H). unfold ndb_parse_zap_bolt11, ndb_note_find_tag_str, zap_amount.
  rewrite E. cbn [mbind option_bind]. destruct (find_tag_str_loop_spec nm note bolt11_tag fuel _ _ H eq_refl) as (r & -> & P).
  cbn [mbind option_bind]. destruct (head _) as [v |], r as [s |]; try done. cbn [mbind option_bind]. pose proof (raw_id _ _ _ P) as I.
  destruct (flag s =? NDB_PACKED_ID) eqn:Ef.
  - by destruct I as (fl & id & -> & _).
  - destruct I as (fl & x & ->). apply raw_of_inv in P as (_ & Ex & _). unfold elem_of_str in Ex. rewrite Ef in Ex.
    destruct (c_string nm (str s)) as [x' |]; [| done]. injection Ex as ->. cbn [mbind option_bind].
    by destruct (bolt11_decode_minimal x).
Qed.

Lemma zap_amount_u64 f msats : zap_amount f = Some msats -> is_u64 msats.
Proof using Hbolt.
  unfold zap_amount. destruct (head _) as [[fl [x | id]] |]; cbn [mbind option_bind]; try done.
  destruct (bolt11_decode_minimal x) as [[z |] |] eqn:Ex; cbn; try done.
  - intros [= <-]. by eapply Hbolt.
  - intros [= <-]. unfold is_u64. lia.
Qed.

(** The unverified zaps of a note: how many and how much. *)
Definition unverified_at (ms : metas) (id : list Z) : Z * Z :=
  match meta_at ms id (NDB_NOTE_META_ZAP_UNVERIFIED, 0) with Some e => (me_aux e, me_payload e) | None => (0, 0) end.

Definition add_zap (msats : Z) (e : meta_entry) : meta_entry :=
  mk_entry (me_type e) (me_aux2 e) (u32 (me_aux e + 1)) (u64 (me_payload e + msats)).

Lemma add_zap_updates msats e : entry_wf e ->
  updates (fun m a => m ← incr32 m (ndb_note_meta_zap_unverified_count a); add64 m (ndb_note_meta_zap_unverified_msats a) msats) e (add_zap msats e).
Proof using.
  intros [W1 W2 W3 W4] pre post a ->. destruct e as [t a2 c p]. unfold entry_bytes, add_zap. cbn [me_type me_aux2 me_aux me_payload].
  rewrite (incr32_at _ (pre ++ le_bytes 2 t ++ le_bytes 2 a2) c (le_bytes 8 p ++ post)); [| done | app_eq |].
  2: unfold ndb_note_meta_zap_unverified_count, moff.e_aux; zl. cbn [mbind option_bind].
  rewrite (add64_at _ (pre ++ le_bytes 2 t ++ le_bytes 2 a2 ++ le_bytes 4 (u32 (c + 1))) p post); [| done | app_eq |].
  2: unfold ndb_note_meta_zap_unverified_msats, moff.e_payload; zl. f_equal. app_eq.
Qed.

Lemma write_unverified_zap_spec cb nm note f n txn ms : note_reads cb nm note f -> 1 <= n -> meta_state n txn ms ->
  match list.last (omap (tag_id 101) (n_tags f)), zap_amount f with
  | Some id, Some msats =>
      exists txn' ms', ndb_write_unverified_zap_stats scratch bolt11_decode_minimal nm note txn = Some (true, txn') /\
        meta_state (n - 1) txn' ms' /\ only_meta txn txn' /\ only_entry id (NDB_NOTE_META_ZAP_UNVERIFIED, 0) ms ms' /\
        unverified_at ms' id = (u32 (fst (unverified_at ms id) + 1), u64 (snd (unverified_at ms id) + msats))
  | _, _ => ndb_write_unverified_zap_stats scratch bolt11_decode_minimal nm note txn = Some (false, txn)
  end.
Proof using Po Hb Hbolt.
  intros Rd Hn S. destruct (last_id_tag_spec cb nm note f Rd 101 ltac:(done)) as (a & Ea & Pa).
  unfold ndb_write_unverified_zap_stats. rewrite Ea. cbn [mbind option_bind]. destruct (list.last _) as [id |], a as [a |]; try done.
  rewrite (parse_zap_spec cb nm note f Rd). cbn [mbind option_bind]. destruct (zap_amount f) as [msats |] eqn:Ez; [| done].
  cbn in Pa. rewrite Pa. cbn [mbind option_bind]. destruct S as [E T R]. pose proof (zap_amount_u64 f msats Ez) as Hz.
  destruct (update_meta_spec scratch Po Hb n id NDB_NOTE_META_ZAP_UNVERIFIED None
    (fun buf entry => ndb_note_meta_zap_unverified_set buf entry 1 msats)
    (fun buf entry => buf ← incr32 buf (ndb_note_meta_zap_unverified_count entry); add64 buf (ndb_note_meta_zap_unverified_msats entry) msats)
    (fun e => mk_entry NDB_NOTE_META_ZAP_UNVERIFIED (me_aux2 e) 1 msats) (add_zap msats) txn ms E T Hn R) as (txn' & ms' & e' & Eu & E' & S' & T' & R' & St & He).
  - done.
  - exact (loadn_length _ _ _ _ Pa).
  - intros e We. split; [apply zap_set_updates |]. split; [done |]. destruct We. split; cbn; unfold is_u16, is_u32 in *; try done; lia.
  - intros e We Ek. injection Ek as Et _. split; [by apply add_zap_updates |].
    split; [unfold entry_key, add_zap; cbn; by rewrite Et |]. destruct We. split; cbn; try done; [apply u32_wf |].
    unfold is_u64, u64. apply Z.mod_pos_bound. lia.
  - exists txn', ms'. split; [done |]. split; [by split |]. split; [done |]. split; [by eapply stat_updated_only |].
    destruct St as [_ A]. unfold unverified_at. rewrite A, decide_True by done. change (query_key _ _) with (NDB_NOTE_META_ZAP_UNVERIFIED, 0) in He.
    destruct (meta_at ms id (NDB_NOTE_META_ZAP_UNVERIFIED, 0)) as [e |].
    + by destruct He as [_ ->].
    + destruct He as (x & _ & ->). cbn [me_aux me_payload fst snd]. f_equal. unfold u64. symmetry. apply Z.mod_small. exact Hz.
Qed.
End zaps.
End increments.

(** ** The counters as a tally of the stored notes *)

Section tally.
Context {D C : Type} `{!Lmdb D C} `{!LmdbPut D C}.
Context (cb : list Z -> mem -> Z -> bool) (flags : Z) (scratch output_emoji strbuf : mem).
Context (bolt11_decode_minimal : list Z -> option (option Z)).

#[local] Abbreviation stored_note := (Z * (mem * fnote))%type.

Definition counts_stats : bool := negb (ndb_flag_set flags NDB_FLAG_NO_STATS).

(** The string of a reaction note. *)
Definition reaction_of (b : mem) : option Z :=
  content ← ndb_note_content b 0; e ← binmoji_parse b content; s ← c_string b content; Some (reaction_value e s).

(** The note a reaction or a zap is for. *)
Definition last_e (f : fnote) : option (list Z) := list.last (omap (tag_id 101) (n_tags f)).

(** What storing a note does to the counters of [id]. *)
Definition counts_effect (f : fnote) (id : list Z) (c : note_counts) : note_counts :=
  if (n_kind f =? 1) || (n_kind f =? 30023) then note_stats_of f id c
  else if (n_kind f =? 7) && counts_stats then at_id (last_e f) add_reaction id c
  else if (n_kind f =? 6) || (n_kind f =? 16) then at_id (head (omap (tag_id 101) (n_tags f))) add_repost id c
  else c.

Definition reaction_effect (p : stored_note) (id : list Z) (str : Z) (n : Z) : Z :=
  if decide ((n_kind (snd (snd p)) =? 7) && counts_stats = true /\ last_e (snd (snd p)) = Some id /\ reaction_of (fst (snd p)) = Some str)
  then u32 (n + 1) else n.

Definition zap_effect (f : fnote) (id : list Z) (z : Z * Z) : Z * Z :=
  match zap_amount bolt11_decode_minimal f with
  | Some msats => if decide ((n_kind f =? 9735) && counts_stats = true /\ last_e f = Some id) then (u32 (fst z + 1), u64 (snd z + msats)) else z
  | None => z
  end.

Definition tally_counts (notes : list stored_note) (id : list Z) : note_counts :=
  foldl (fun c p => counts_effect (snd (snd p)) id c) no_counts notes.
Definition tally_reactions (notes : list stored_note) (id : list Z) (str : Z) : Z :=
  foldl (fun n p => reaction_effect p id str n) 0 notes.
Definition tally_zaps (notes : list stored_note) (id : list Z) : Z * Z :=
  foldl (fun z p => zap_effect (snd (snd p)) id z) (0, 0) notes.

Record tallied (notes : list stored_note) (ms : metas) : Prop := {
  ta_counts : forall id, counts_at ms id = tally_counts notes id;
  ta_reactions : forall id str, reactions_at ms id str = tally_reactions notes id str;
  ta_zaps : forall id, unverified_at ms id = tally_zaps notes id
}.

(** The metadata tallies the notes and has room for [n] entries more. *)
Definition stats_inv (n : Z) (notes : list stored_note) (meta blocks : D) : Prop :=
  exists ms, meta_table meta ms /\ tallied notes ms /\ roomy (zlen scratch) n ms.

Definition stat_note (nm : mem) (note : Z) : M (ndb_txn D) unit := ndb_process_note_stats scratch nm note.
Definition stat_reaction (nm : mem) (note : Z) : M (ndb_txn D) unit :=
  do* ndb_write_reaction_stats scratch output_emoji strbuf nm note in ret tt.
Definition stat_repost (nm : mem) (note : Z) : M (ndb_txn D) unit := ndb_process_repost_stats scratch nm note.
Definition stat_zap (nm : mem) (note : Z) : M (ndb_txn D) unit :=
  do* ndb_write_unverified_zap_stats scratch bolt11_decode_minimal nm note in ret tt.

Hypothesis (Po : puts_ok D) (Hs : bytes_ok scratch) (Ho : zlen output_emoji = 136) (Hsb : zlen strbuf = 128)
  (Hbolt : forall x msat, bolt11_decode_minimal x = Some (Some msat) -> is_u64 msat).

Context (n : Z) (notes : list stored_note) (key : Z) (b : mem) (f : fnote).
Hypothesis (Hn : 3 <= n) (Rd : note_reads cb b 0 f)
  (Hre : n_kind f = 7 -> counts_stats = true -> is_Some (reaction_of b)).

#[local] Abbreviation new := (notes ++ [(key, (b, f))]).

(** The counters are the tally again when each changed as the note says. *)
Lemma tallied_step ms ms' : tallied notes ms ->
  (forall id, counts_at ms' id = counts_effect f id (counts_at ms id)) ->
  (forall id str, reactions_at ms' id str = reaction_effect (key, (b, f)) id str (reactions_at ms id str)) ->
  (forall id, unverified_at ms' id = zap_effect f id (unverified_at ms id)) -> tallied new ms'.
Proof using.
  intros [T1 T2 T3] H1 H2 H3. split; intros.
  - rewrite H1, T1. unfold tally_counts. by rewrite foldl_app.
  - rewrite H2, T2. unfold tally_reactions. by rewrite foldl_app.
  - rewrite H3, T3. unfold tally_zaps. by rewrite foldl_app.
Qed.

Lemma reactions_same ms ms' : (forall id k, k <> counts_key -> meta_at ms' id k = meta_at ms id k) ->
  (forall id str, reactions_at ms' id str = reactions_at ms id str) /\ (forall id, unverified_at ms' id = unverified_at ms id).
Proof using. intros H. split; intros; unfold reactions_at, unverified_at; by rewrite H. Qed.

Lemma reaction_effect_none id str r : (n_kind f =? 7) && counts_stats = false \/ last_e f <> Some id \/ reaction_of b <> Some str ->
  reaction_effect (key, (b, f)) id str r = r.
Proof using.
  intros H. unfold reaction_effect. cbn [fst snd]. rewrite decide_False; [done |]. intros (K & L & R).
  destruct H as [H | [H | H]]; [by rewrite H in K | done | done].
Qed.

Lemma zap_effect_none id z : (n_kind f =? 9735) && counts_stats = false \/ last_e f <> Some id -> zap_effect f id z = z.
Proof using.
  intros H. unfold zap_effect. destruct (zap_amount _ _); [| done]. rewrite decide_False; [done |]. intros (K & L).
  destruct H as [H | H]; [by rewrite H in K | done].
Qed.

Lemma at_none bump id c : at_id None bump id c = c.
Proof using. done. Qed.

(** A writer of counters that keeps the tally. *)
Definition Tallies (w : M (ndb_txn D) unit) : Prop := forall txn ms, meta_state scratch n txn ms ->
  exists txn' ms', w txn = Some (tt, txn') /\ meta_state scratch (n - 3) txn' ms' /\ only_meta txn txn' /\ (tallied notes ms -> tallied new ms').

Lemma tallies_becomes w : Tallies w -> becomes (stats_inv n notes) (stats_inv (n - 3) new) w.
Proof using.
  intros H txn [E (ms & T & Ta & R)]. destruct (H txn ms) as (txn' & ms' & Ew & [E' T' R'] & O & Ta'); [by split |].
  exists tt, txn'. split; [done |]. split.
  - split; [done |]. exists ms'. auto.
  - intros db Hd. apply O. by intros ->.
Qed.

Lemma weaken3 k txn ms : 0 <= k <= 3 -> meta_state scratch (n - k) txn ms -> meta_state scratch (n - 3) txn ms.
Proof using Hn. intros Hk S. eapply meta_state_weaken; [exact S | lia]. Qed.

(** Notes that count for nothing. *)
Lemma tallies_nothing w : (forall txn ms, meta_state scratch n txn ms -> w txn = Some (tt, txn)) -> (forall id c, counts_effect f id c = c) ->
  (forall id str r, reaction_effect (key, (b, f)) id str r = r) -> (forall id z, zap_effect f id z = z) -> Tallies w.
Proof using Hn.
  intros Hw H1 H2 H3 txn ms S. exists txn, ms. split; [by eapply Hw |]. split; [apply (weaken3 0); [lia |]; by rewrite Z.sub_0_r |].
  split; [done |]. intros Ta. apply (tallied_step ms ms Ta); intros; [by rewrite H1 | by rewrite H2 | by rewrite H3].
Qed.

Lemma text_tallies : (n_kind f =? 1) || (n_kind f =? 30023) = true -> Tallies (stat_note b 0).
Proof using Po Hs Hn Rd.
  intros K txn ms S. destruct (process_note_stats_spec scratch Po Hs cb b 0 f n txn ms Rd Hn S) as (txn' & ms' & E & S' & O & C1 & C2).
  exists txn', ms'. split; [exact E |]. split; [done |]. split; [done |]. intros Ta. destruct (reactions_same _ _ C2) as [Q1 Q2].
  apply (tallied_step ms ms' Ta); intros.
  - unfold counts_effect. by rewrite C1, K.
  - rewrite reaction_effect_none; [apply Q1 | left]. replace (n_kind f =? 7) with false by lia. done.
  - rewrite zap_effect_none; [apply Q2 | left]. replace (n_kind f =? 9735) with false by lia. done.
Qed.

Lemma repost_tallies : (n_kind f =? 6) || (n_kind f =? 16) = true -> Tallies (stat_repost b 0).
Proof using Po Hs Hn Rd.
  intros K txn ms S. destruct (process_repost_stats_spec scratch Po Hs cb b 0 f n txn ms Rd ltac:(lia) S) as (txn' & ms' & E & S' & O & C1 & C2).
  exists txn', ms'. split; [exact E |]. split; [by apply (weaken3 1) |]. split; [done |]. intros Ta. destruct (reactions_same _ _ C2) as [Q1 Q2].
  apply (tallied_step ms ms' Ta); intros.
  - unfold counts_effect. rewrite C1, K. replace ((n_kind f =? 1) || (n_kind f =? 30023)) with false by lia.
    by replace (n_kind f =? 7) with false by lia.
  - rewrite reaction_effect_none; [apply Q1 | left]. by replace (n_kind f =? 7) with false by lia.
  - rewrite zap_effect_none; [apply Q2 | left]. by replace (n_kind f =? 9735) with false by lia.
Qed.

Lemma counts_effect_reaction id c : (n_kind f =? 7) && counts_stats = true -> counts_effect f id c = at_id (last_e f) add_reaction id c.
Proof using.
  intros K. unfold counts_effect. rewrite K. apply andb_prop in K as [K _].
  by replace ((n_kind f =? 1) || (n_kind f =? 30023)) with false by lia.
Qed.

Lemma reaction_tallies : (n_kind f =? 7) && counts_stats = true -> Tallies (stat_reaction b 0).
Proof using Po Hs Ho Hsb Hn Rd Hre.
  intros K. pose proof K as [K7 Ks]%andb_prop. assert (K9 : (n_kind f =? 9735) && counts_stats = false) by (replace (n_kind f =? 9735) with false by lia; done).
  destruct (Hre ltac:(lia) Ks) as [v Hv]. unfold reaction_of in Hv.
  destruct (ndb_note_content b 0) as [content |] eqn:Ec; [| done]. cbn [mbind option_bind] in Hv.
  destruct (binmoji_parse b content) as [e |] eqn:Ee; [| done]. cbn [mbind option_bind] in Hv.
  destruct (c_string b content) as [s |] eqn:Es; [| done]. cbn [mbind option_bind] in Hv. injection Hv as Hv.
  assert (Er : reaction_of b = Some v) by (unfold reaction_of; rewrite Ec; cbn [mbind option_bind]; rewrite Ee; cbn [mbind option_bind]; by rewrite Es, <- Hv).
  assert (W := fun txn ms S => write_reaction_stats_spec scratch Po Hs output_emoji strbuf Ho Hsb cb b 0 f content e s n txn ms Rd ltac:(lia) S Ec Ee Es).
  fold (last_e f) in W. rewrite Hv in W. destruct (last_e f) as [id |] eqn:El.
  - intros txn ms S. destruct (W txn ms S) as (txn' & ms' & E & S' & O & C1 & C2 & C3). exists txn', ms'.
    split; [unfold stat_reaction, bind; by rewrite E |]. split; [apply (weaken3 2); [lia | done] |]. split; [done |]. intros Ta.
    apply (tallied_step ms ms' Ta).
    + intros id'. rewrite counts_effect_reaction by done. by rewrite El, C1.
    + intros id' str. unfold reaction_effect. cbn [fst snd]. rewrite El, Er.
      destruct (decide _) as [(_ & [= <-] & [= <-]) | N]; [exact C2 |].
      unfold reactions_at. rewrite C3; [done | done |]. intros [= -> ->]. by apply N.
    + intros id'. rewrite zap_effect_none by (by left). unfold unverified_at. by rewrite C3.
  - apply tallies_nothing.
    + intros txn ms S. unfold stat_reaction, bind. by rewrite (W txn ms S).
    + intros id c. rewrite counts_effect_reaction by done. by rewrite El.
    + intros id str r. apply reaction_effect_none. rewrite El. right. by left.
    + intros id z. apply zap_effect_none. by left.
Qed.

Lemma counts_effect_none id c : (n_kind f =? 1) || (n_kind f =? 30023) = false -> (n_kind f =? 7) && counts_stats = false ->
  (n_kind f =? 6) || (n_kind f =? 16) = false -> counts_effect f id c = c.
Proof using. intros E1 E2 E3. unfold counts_effect. by rewrite E1, E2, E3. Qed.

Lemma zap_tallies : (n_kind f =? 9735) && counts_stats = true -> Tallies (stat_zap b 0).
Proof using Po Hs Hbolt Hn Rd.
  intros K. pose proof K as [K9 Ks]%andb_prop.
  assert (Zc : forall id c, counts_effect f id c = c).
  { intros. apply counts_effect_none; [lia | by replace (n_kind f =? 7) with false by lia | lia]. }
  assert (Zr : forall id str r, reaction_effect (key, (b, f)) id str r = r).
  { intros. apply reaction_effect_none. left. by replace (n_kind f =? 7) with false by lia. }
  assert (W := fun txn ms S => write_unverified_zap_spec scratch Po Hs bolt11_decode_minimal Hbolt cb b 0 f n txn ms Rd ltac:(lia) S).
  fold (last_e f) in W. destruct (last_e f) as [id |] eqn:El.
  2: { apply tallies_nothing; [| done | done | intros; apply zap_effect_none; rewrite El; by right].
       intros txn ms S. unfold stat_zap, bind. by rewrite (W txn ms S). }
  destruct (zap_amount bolt11_decode_minimal f) as [msats |] eqn:Ez.
  2: { apply tallies_nothing; [| done | done | intros; unfold zap_effect; by rewrite Ez].
       intros txn ms S. unfold stat_zap, bind. by rewrite (W txn ms S). }
  intros txn ms S. destruct (W txn ms S) as (txn' & ms' & E & S' & O & C1 & C2). exists txn', ms'.
  split; [unfold stat_zap, bind; by rewrite E |]. split; [by apply (weaken3 1) |]. split; [done |]. intros Ta. apply (tallied_step ms ms' Ta); intros.
  - rewrite Zc. unfold counts_at. by rewrite C1.
  - rewrite Zr. unfold reactions_at. by rewrite C1.
  - unfold zap_effect. rewrite Ez, K, El. destruct (decide _) as [(_ & [= <-]) | N]; [exact C2 |].
    unfold unverified_at. rewrite C1; [done |]. intros [= ->]. by apply N.
Qed.

Lemma kind_stats_tally : becomes (stats_inv n notes) (stats_inv (n - 3) new) (kind_stats flags stat_note stat_reaction stat_repost stat_zap b (n_kind f)).
Proof using Po Hs Ho Hsb Hbolt Hn Rd Hre.
  apply tallies_becomes. unfold kind_stats. fold counts_stats.
  destruct ((n_kind f =? 1) || (n_kind f =? 30023)) eqn:E1; [by apply text_tallies |].
  destruct ((n_kind f =? 7) && counts_stats) eqn:E7; [by apply reaction_tallies |].
  destruct ((n_kind f =? 6) || (n_kind f =? 16)) eqn:E6; [by apply repost_tallies |].
  destruct ((n_kind f =? 9735) && counts_stats) eqn:E9; [by apply zap_tallies |].
  apply tallies_nothing; [done | | |]; intros; [by apply counts_effect_none | apply reaction_effect_none; by left | apply zap_effect_none; by left].
Qed.
End tally.

(** * Properties *)

(** C2: Writing a note that is not stored yet keeps the counters a tally of the
    stored notes: for every note id, the quotes, direct replies, thread replies,
    reposts and reactions (in total, and by string) and the unverified zaps in
    the metadata table are what the stored notes say, each to its width.  The
    note must be readable, of at most 2^32 - 1 bytes and not flagged as a rumor
    when the writer has an inbox; the metadata must have room for three entries
    more, the content of a reaction must be text that can be parsed, and LMDB must
    have room: every put of a key and value of the sizes it takes succeeds. *)
Theorem write_note_tallies {D C} `{!Lmdb D C} `{!LmdbPut D C} (cb : list Z -> mem -> Z -> bool) (flags n : Z)
    (buffer relay_buf tag_buf scratch output_emoji strbuf : mem) (bolt11_decode_minimal : list Z -> option (option Z))
    (blocks : mem -> Z -> Z -> M (ndb_txn D) bool)
    (txn : ndb_txn D) (notes : list (Z * (mem * fnote))) (b : mem) (f : fnote) (relay : option (list Z)) (inbox rumor : bool)
    (Po : puts_ok D) (Co : forall d : D, is_Some (mdb_cursor_open d))
    (Hb1 : zlen buffer = 1024) (Hb2 : zlen relay_buf = 256) (Hb3 : zlen tag_buf = 255)
    (Hs : bytes_ok scratch) (Ho : zlen output_emoji = 136) (Hsb : zlen strbuf = 128)
    (Hbolt : forall x msat, bolt11_decode_minimal x = Some (Some msat) -> is_u64 msat)
    (Bb : forall k txn, env_ok txn -> exists ok txn', blocks b 0 k txn = Some (ok, txn') /\ env_ok txn' /\
       forall db, db <> NDB_DB_NOTE_BLOCKS -> txn' db = txn db)
    (St : stores cb flags (stats_inv flags scratch bolt11_decode_minimal n notes) txn notes) (Hn : 3 <= n)
    (Rd : note_reads cb b 0 f) (Hr : ndb_note_is_rumor b 0 = Some rumor) (Hi : rumor && inbox = false)
    (Ht : fulltext_kind flags f = true -> indexable_text b) (Hsz : zlen b <= MAXDATASIZE)
    (Hre : n_kind f = 7 -> counts_stats flags = true -> is_Some (reaction_of b))
    (Hid : n_id f ∉ map (fun p => n_id (snd (snd p))) notes)
    (Hk : last_key (map (fun p => (fst p, fst (snd p))) notes) < UINT64_MAX) :
  let key := last_key (map (fun p => (fst p, fst (snd p))) notes) + 1 in
  let new := notes ++ [(key, (b, f))] in
  exists txn', ndb_write_note buffer relay_buf tag_buf blocks (stat_note scratch) (stat_reaction scratch output_emoji strbuf)
      (stat_repost scratch) (stat_zap scratch bolt11_decode_minimal) flags inbox (mk_writer_note b relay 0) txn = Some ((key, []), txn') /\
    stores cb flags (stats_inv flags scratch bolt11_decode_minimal (n - 3) new) txn' new.
Proof.
  intros key new. apply (write_new_note cb flags (stats_inv flags scratch bolt11_decode_minimal n notes)) with (rumor := rumor); try done.
  - exact (next_key_wf cb flags _ txn notes St Hk).
  - intros k t [E I]. destruct (Bb k t E) as (ok & t' & Eb & E' & O). exists ok, t'. split; [done |]. split.
    + split; [done |]. destruct I as (ms & I). exists ms. by rewrite O.
    + intros db Hd. apply O. by intros ->.
  - by apply (kind_stats_tally cb).
Qed.

(** A reply to the note of sevens in the thread of the note of eights, with the
    markers a client writes, the reply first. *)
Definition reply_note : mem :=
  [1; 0; 0; 0] ++ replicate 32 0xab ++ replicate 32 0xbb ++ replicate 64 0xcc ++
  le_bytes 8 100 ++ le_bytes 4 1 ++ le_bytes 4 2 ++ [104; 105; 0; 1] ++
  le_bytes 4 196 ++ [0; 0] ++ le_bytes 2 2 ++
  le_bytes 2 4 ++ [101; 0; 0; 1] ++ le_bytes 4 (2 * 2 ^ 24) ++ [0; 0; 0; 1] ++ le_bytes 4 64 ++
  le_bytes 2 4 ++ [101; 0; 0; 1] ++ le_bytes 4 (2 * 2 ^ 24 + 32) ++ [0; 0; 0; 1] ++ le_bytes 4 70 ++
  replicate 32 7 ++ replicate 32 8 ++ marker_reply ++ [0] ++ marker_root ++ [0].

Definition reply_fnote : fnote :=
  mk_fnote (replicate 32 0xab) (replicate 32 0xbb) 1 100
    [[(NDB_PACKED_STR, EStr [101]); (NDB_PACKED_ID, EId (replicate 32 7)); (NDB_PACKED_STR, EStr []); (0, EStr marker_reply)];
     [(NDB_PACKED_STR, EStr [101]); (NDB_PACKED_ID, EId (replicate 32 8)); (NDB_PACKED_STR, EStr []); (0, EStr marker_root)]]
    [] (fun _ => false).

Lemma reply_note_reads : note_reads no_custom reply_note 0 reply_fnote.
Proof. split; [by apply bytes_ok_dec | vm_compute; reflexivity .. | done]. Qed.

Lemma reply_text_ok : indexable_text reply_note.
Proof.
  exists (mk_str 1 148), 2.
  split; [vm_compute; reflexivity |]. split; [done |]. split; [vm_compute; reflexivity |].
  split; [simpl; lia |]. split; [lia | vm_compute; discriminate].
Qed.

#[local] Abbreviation LC := (list_db * option nat)%type.

Lemma empty_tallied scratch bolt11 n : 16 + 16 * n <= zlen scratch -> n < 65536 ->
  stores (C := LC) no_custom 0 (stats_inv (C := LC) 0 scratch bolt11 n []) empty_txn [].
Proof.
  intros H1 H2. destruct empty_stores as [[E _] T R I]. split; [| exact T | exact R | exact I]. split; [exact E |].
  exists (fun _ => None). split; [by split |]. split; [by split |]. by split.
Qed.

Lemma write_note_tallies_witness :
  exists txn', ndb_write_note (C := LC) (replicate 1024 0) (replicate 256 0) (replicate 255 0) (fun _ _ _ => no_work true)
      (stat_note (C := LC) (replicate 64 0)) (stat_reaction (C := LC) (replicate 64 0) (replicate 136 0) (replicate 128 0))
      (stat_repost (C := LC) (replicate 64 0)) (stat_zap (C := LC) (replicate 64 0) (fun _ => None)) 0 true
      (mk_writer_note reply_note None 0) empty_txn = Some ((1, []), txn') /\
    stores (C := LC) no_custom 0 (stats_inv (C := LC) 0 (replicate 64 0) (fun _ => None) 0 [(1, (reply_note, reply_fnote))]) txn'
      [(1, (reply_note, reply_fnote))] /\
    tally_counts 0 [(1, (reply_note, reply_fnote))] (replicate 32 7) = mk_counts 0 0 0 1 0 /\
    tally_counts 0 [(1, (reply_note, reply_fnote))] (replicate 32 8) = mk_counts 0 0 1 0 0.
Proof.
  destruct (write_note_tallies (C := LC) no_custom 0 3 (replicate 1024 0) (replicate 256 0) (replicate 255 0) (replicate 64 0)
    (replicate 136 0) (replicate 128 0) (fun _ => None) (fun _ _ _ => no_work true) empty_txn [] reply_note reply_fnote None true false)
    as (txn' & E & St);
    [exact list_puts_ok | exact list_cursor_ok | reflexivity | reflexivity | reflexivity | by apply bytes_ok_dec | reflexivity | reflexivity |
     done | intros k t Ht; by exists true, t | by apply empty_tallied | lia | exact reply_note_reads | vm_compute; reflexivity | done |
     intros _; exact reply_text_ok | vm_compute; discriminate | done | apply not_elem_of_nil | done |].
  exists txn'. split; [exact E |]. split; [exact St |]. split; vm_compute; reflexivity.
Defined.

(** What the code takes as the root and the parent of a note does not depend
    on the markers of its [e] tags: a marker is read only when it is stored
    inline, where no marker fits.  The root is the first id and the parent the
    second, of the [e] tags up to one with an inline fourth element, and no id
    is ever a mention. *)
Theorem reply_markers_ignored (cb : list Z -> mem -> Z -> bool) (m : mem) (note : Z) (f : fnote) (Rd : note_reads cb m note f) :
  exists r, ndb_parse_reply m note = Some r /\
    reply_points m r (mk_reply (unmarked_ids (n_tags f) !! 1%nat) (unmarked_ids (n_tags f) !! 0%nat) None).
Proof.
  destruct (parse_reply_spec cb m note f Rd) as (r & E & P). exists r. split; [done |].
  pose proof (reply_of_unmarked (n_tags f) (note_inline_shaped cb m note f Rd) None None (fun _ => eq_refl)) as Q.
  unfold note_reply, reply_start in P. cbn iota in Q. by rewrite <- Q.
Qed.

(** The tags say that it replies to sevens, with eights as the root. *)
Lemma reply_markers_ignored_witness : exists r, ndb_parse_reply reply_note 0 = Some r /\
  reply_points reply_note r (mk_reply (Some (replicate 32 8)) (Some (replicate 32 7)) None).
Proof. exact (reply_markers_ignored no_custom reply_note 0 reply_fnote reply_note_reads). Defined.

(** ** Verifying a zap *)

Definition zap_key : Z * Z := (NDB_NOTE_META_ZAP, 0).
Definition unverified_key : Z * Z := (NDB_NOTE_META_ZAP_UNVERIFIED, 0).

(** One zap less: count and amount stop at zero. *)
Definition sub_zap (msats : Z) (e : meta_entry) : meta_entry :=
  mk_entry (me_type e) (me_aux2 e) (if 0 <? me_aux e then me_aux e - 1 else me_aux e)
    (if msats <=? me_payload e then me_payload e - msats else 0).

(** The second half of [move_zap], on the entry. *)
Lemma sub_zap_updates msats e : entry_wf e ->
  updates (fun m a =>
    count ← load_u32 m (ndb_note_meta_zap_unverified_count a);
    buf ← (if 0 <? count then storen m (ndb_note_meta_zap_unverified_count a) (le_bytes 4 (count - 1)) else Some m);
    total ← load_u64 buf (ndb_note_meta_zap_unverified_msats a);
    storen buf (ndb_note_meta_zap_unverified_msats a) (le_bytes 8 (if msats <=? total then total - msats else 0))) e (sub_zap msats e).
Proof.
  intros [W1 W2 W3 W4] pre post a ->. destruct e as [t a2 c p]. unfold entry_bytes, sub_zap. cbn [me_type me_aux2 me_aux me_payload] in *.
  unfold ndb_note_meta_zap_unverified_count, ndb_note_meta_zap_unverified_msats, moff.e_aux, moff.e_payload.
  set (h := pre ++ le_bytes 2 t ++ le_bytes 2 a2).
  assert (Lh : zlen pre + 4 = zlen h) by (unfold h; zl).
  replace (pre ++ (le_bytes 2 t ++ le_bytes 2 a2 ++ le_bytes 4 c ++ le_bytes 8 p) ++ post) with (h ++ le_bytes 4 c ++ le_bytes 8 p ++ post)
    by (unfold h; app_eq).
  rewrite load_u32_mid by done. cbn [mbind option_bind]. set (c' := if 0 <? c then c - 1 else c).
  assert (Ec : (if 0 <? c then storen (h ++ le_bytes 4 c ++ le_bytes 8 p ++ post) (zlen pre + 4) (le_bytes 4 (c - 1))
    else Some (h ++ le_bytes 4 c ++ le_bytes 8 p ++ post)) = Some (h ++ le_bytes 4 c' ++ le_bytes 8 p ++ post)).
  { unfold c'. destruct (0 <? c); [| done]. apply storen_mid; [done | zl]. }
  rewrite Ec. cbn [mbind option_bind].
  rewrite (app_assoc h), load_u64_mid by (done || zl). cbn [mbind option_bind].
  rewrite storen_mid by zl. f_equal. unfold h. app_eq.
Qed.

(** Outcome of the first half of [move_zap], as [outcome_updated] wants it. *)
Lemma zap_new_ok msats e : is_u64 msats -> entry_wf e ->
  updates (fun m a => ndb_note_meta_zap_set m a 1 msats) e (mk_entry NDB_NOTE_META_ZAP (me_aux2 e) 1 msats) /\
  entry_key (mk_entry NDB_NOTE_META_ZAP (me_aux2 e) 1 msats) = zap_key /\ entry_wf (mk_entry NDB_NOTE_META_ZAP (me_aux2 e) 1 msats).
Proof.
  intros Hz []. split; [apply zap_set_updates |]. split; [done |]. split; cbn; unfold is_u16, is_u32 in *; try done; lia.
Qed.

Lemma key_type k e : entry_key e = (k, 0) -> me_type e = k.
Proof. intros E. by injection E. Qed.

Lemma add_zap_ok msats k e : k <> NDB_NOTE_META_REACTION -> entry_wf e -> entry_key e = (k, 0) ->
  entry_key (add_zap msats e) = (k, 0) /\ entry_wf (add_zap msats e).
Proof.
  intros Hk [] Ek. apply key_type in Ek. split.
  - unfold entry_key, add_zap. cbn. rewrite Ek. by destruct (Z.eqb_spec k NDB_NOTE_META_REACTION).
  - split; cbn; try done; [apply u32_wf |]. unfold is_u64, u64. apply Z.mod_pos_bound. lia.
Qed.

Lemma sub_zap_ok msats e : is_u64 msats -> entry_wf e -> entry_key e = unverified_key ->
  entry_key (sub_zap msats e) = unverified_key /\ entry_wf (sub_zap msats e).
Proof.
  intros Hz [] Ek. apply key_type in Ek. split.
  - unfold entry_key, sub_zap. cbn. by rewrite Ek.
  - unfold is_u32, is_u64 in *. split; cbn; unfold is_u32, is_u64; try done.
    + destruct (Z.ltb_spec 0 (me_aux e)); lia.
    + destruct (Z.leb_spec msats (me_payload e)); lia.
Qed.

(** The verified zaps after one more. *)
Definition more_zaps (msats : Z) (es : list meta_entry) (e' : meta_entry) : Prop :=
  match entry_at zap_key es with
  | Some e => e' = add_zap msats e
  | None => exists x, e' = mk_entry NDB_NOTE_META_ZAP x 1 msats
  end.

(** The first half of [move_zap], after the clone. *)
Lemma set_zap_outcome msats r buf buf' (P Q : Prop) :
  match r with
  | NDB_META_CLONE_FAILED => False
  | NDB_META_CLONE_NEW_ENTRY a => ndb_note_meta_zap_set buf a 1 msats = Some buf' /\ P
  | NDB_META_CLONE_EXISTING_ENTRY a => (m ← incr32 buf (ndb_note_meta_zap_count a); add64 m (ndb_note_meta_zap_msats a) msats) = Some buf' /\ Q
  end ->
  match r with
  | NDB_META_CLONE_FAILED => Some None
  | NDB_META_CLONE_NEW_ENTRY entry => Some <$> ndb_note_meta_zap_set buf entry 1 msats
  | NDB_META_CLONE_EXISTING_ENTRY entry =>
      buf ← incr32 buf (ndb_note_meta_zap_count entry); Some <$> add64 buf (ndb_note_meta_zap_msats entry) msats
  end = Some (Some buf').
Proof.
  intros Hr. destruct r; [done | |]; destruct Hr as [Hr _]; [| by rewrite Hr].
  destruct (incr32 _ _); [| done]. cbn [mbind option_bind] in *. by rewrite Hr.
Qed.

(** The zap is moved when the note has unverified zaps. *)
Lemma move_zap_spec nm scratch msats u : meta_wf nm -> bytes_ok scratch -> zlen scratch = 4096 -> is_u64 msats ->
  meta_size (nm_entries nm) + 16 <= 4096 -> entry_at unverified_key (nm_entries nm) = Some u ->
  exists nm' e', move_zap scratch (Some (meta_bytes nm)) msats = Some (Some (meta_bytes nm')) /\ meta_wf nm' /\ nm_flags nm' = nm_flags nm /\
    more_zaps msats (nm_entries nm) e' /\
    forall k, entry_at k (nm_entries nm') =
      if decide (k = zap_key) then Some e' else if decide (k = unverified_key) then Some (sub_zap msats u) else entry_at k (nm_entries nm).
Proof.
  intros W Hb Hl Hz Hs Hu. pose proof (zlen_nonneg (nm_entries nm)) as Pn. pose proof Hs as Hs'. unfold meta_size in Hs'.
  destruct (clone_db_spec nm scratch 4096 NDB_NOTE_META_ZAP None W) as (r & buf & Ec & [(_ & _ & L) | O]); [lia | done | done | lia | lia |].
  destruct (outcome_updated nm zap_key (zlen scratch) r buf (fun m a => ndb_note_meta_zap_set m a 1 msats)
    (fun m a => m ← incr32 m (ndb_note_meta_zap_count a); add64 m (ndb_note_meta_zap_msats a) msats)
    (fun e => mk_entry NDB_NOTE_META_ZAP (me_aux2 e) 1 msats) (add_zap msats) W ltac:(lia) O) as (buf' & rest & nm1 & e1 & -> & (W1 & F1 & L1 & A1) & Br & Lr & Hr).
  { intros e We. by apply zap_new_ok. }
  { intros e We Ek. split; [by apply add_zap_updates |]. by apply add_zap_ok. }
  assert (Hu1 : entry_at unverified_key (nm_entries nm1) = Some u) by (rewrite A1, decide_False; done).
  destruct (clone_buf_existing nm1 rest 4096 NDB_NOTE_META_ZAP_UNVERIFIED None u W1) as (l1 & l2 & Es & Ek & Sl & Ec2); [done | done | unfold meta_size; lia |].
  change (query_key _ _) with unverified_key in Ek, Sl.
  assert (Wu : entry_wf u) by (pose proof (mw_entries _ W1) as F; rewrite Es, <- Permutation_middle in F; by apply Forall_cons_iff in F as [? _]).
  destruct (sub_zap_ok msats u Hz Wu Ek) as [Ks Ws].
  destruct (slot_updated nm1 unverified_key l1 l2 (sub_zap msats u) W1 ltac:(lia) Sl Ks Ws) as (W2 & F2 & L2 & A2); [right; by exists u |].
  pose proof (updates_at _ nm1 l1 u l2 (sub_zap msats u) rest (sub_zap_updates msats u Wu)) as Up. rewrite (with_entries_id nm1 _ Es) in Up.
  set (nm2 := with_entries nm1 (l1 ++ sub_zap msats u :: l2)) in *. exists nm2, e1. split; [| split; [done | split; [by rewrite F2 | split]]].
  - unfold move_zap. cbn [fmap option_fmap option_map]. rewrite Ec. cbn [mbind option_bind fst snd].
    rewrite (set_zap_outcome msats r buf _ _ _ Hr). cbn [mbind option_bind]. rewrite Ec2. cbn [mbind option_bind fst snd]. revert Up.
    destruct (load_u32 _ _) as [count |]; [| done]. cbn [mbind option_bind]. destruct (if 0 <? count then _ else _) as [b2 |]; [| done].
    cbn [mbind option_bind]. destruct (load_u64 _ _) as [total |]; [| done]. cbn [mbind option_bind]. intros ->. cbn [mbind option_bind].
    rewrite (read_total_size nm2 rest W2). cbn [mbind option_bind].
    rewrite (loadn_mid _ [] (meta_bytes nm2) rest 0 _ eq_refl eq_refl) by (by rewrite zlen_meta_bytes). done.
  - unfold more_zaps. destruct r; [done | |].
    + destruct Hr as (_ & e & -> & _ & ->). done.
    + destruct Hr as (_ & -> & x & _ & ->). by exists (me_aux2 x).
  - intros k. rewrite A2, A1. destruct (decide (k = unverified_key)) as [-> |]; [by rewrite decide_False | done].
Qed.

(** Without unverified zaps the second clone, out of the buffer it clones into,
    fails or does not find the entry it has made. *)
Lemma move_zap_fails (target : option note_meta) scratch msats : match target with Some nm => meta_wf nm /\ meta_size (nm_entries nm) + 16 <= 4096 /\
    entry_at unverified_key (nm_entries nm) = None | None => True end -> bytes_ok scratch -> zlen scratch = 4096 -> is_u64 msats ->
  move_zap scratch (meta_bytes <$> target) msats = None.
Proof.
  intros Ht Hb Hl Hz.
  assert (Base : exists nm r buf, ndb_note_meta_clone_with_entry (In_db <$> (meta_bytes <$> target)) NDB_NOTE_META_ZAP None 4096 scratch = Some (r, buf) /\
    clone_outcome nm zap_key (zlen scratch) r buf /\ meta_wf nm /\ meta_size (nm_entries nm) + 16 <= 4096 /\
    entry_at unverified_key (nm_entries nm) = None).
  { destruct target as [nm |]; cbn [fmap option_fmap option_map].
    - destruct Ht as (W & Hs & Hu). pose proof Hs as Hs'. unfold meta_size in Hs'.
      destruct (clone_db_spec nm scratch 4096 NDB_NOTE_META_ZAP None W) as (r & buf & Ec & [(_ & _ & L) | O]); [lia | done | done | lia | lia |].
      by exists nm, r, buf.
    - destruct (clone_null_spec zap_key scratch 4096 NDB_NOTE_META_ZAP None Hb) as (pad & r & buf & Ec & O); [lia |].
      exists (mk_meta 1 pad 0 []), r, buf. split; [done |]. split; [done |]. split; [| by unfold meta_size].
      split; cbn [nm_entries]; [constructor | constructor | done]. }
  destruct Base as (nm & r & buf & Ec & O & W & Hs & Hu). pose proof Hs as Hs'. unfold meta_size in Hs'.
  destruct (outcome_updated nm zap_key (zlen scratch) r buf (fun m a => ndb_note_meta_zap_set m a 1 msats)
    (fun m a => m ← incr32 m (ndb_note_meta_zap_count a); add64 m (ndb_note_meta_zap_msats a) msats)
    (fun e => mk_entry NDB_NOTE_META_ZAP (me_aux2 e) 1 msats) (add_zap msats) W ltac:(lia) O) as (buf' & rest & nm1 & e1 & -> & (W1 & F1 & L1 & A1) & Br & Lr & Hr).
  { intros e We. by apply zap_new_ok. }
  { intros e We Ek. split; [by apply add_zap_updates |]. by apply add_zap_ok. }
  unfold move_zap. rewrite Ec. cbn [mbind option_bind fst snd]. rewrite (set_zap_outcome msats r buf _ _ _ Hr). cbn [mbind option_bind].
  assert (Hu1 : entry_at unverified_key (nm_entries nm1) = None) by (rewrite A1, decide_False; done).
  destruct (decide (meta_size (nm_entries nm1) + 16 <= 4096)) as [L | L].
  - rewrite (clone_buf_missing nm1 rest 4096 NDB_NOTE_META_ZAP_UNVERIFIED None W1); [done | done | done | | done | lia].
    intros E0. specialize (A1 zap_key). rewrite E0, decide_True in A1 by done. done.
  - rewrite (clone_buf_full nm1 rest 4096 NDB_NOTE_META_ZAP_UNVERIFIED None W1); [done | done | done | lia].
Qed.

Definition flag_verified (nm : note_meta) : note_meta :=
  mk_meta (nm_version nm) (nm_padding nm) (Z.lor (nm_flags nm) NDB_NOTE_META_FLAG_ZAP_VERIFIED) (nm_entries nm).

Lemma meta_flags_at nm rest : meta_bytes nm ++ rest =
  ([nm_version nm; nm_padding nm] ++ le_bytes 2 (zlen (nm_entries nm)) ++ le_bytes 4 0) ++ le_bytes 8 (nm_flags nm) ++
  concat (map entry_bytes (nm_entries nm)) ++ rest.
Proof. unfold meta_bytes, header_bytes. app_eq. Qed.

Lemma load_flags nm rest : is_u64 (nm_flags nm) -> load_u64 (meta_bytes nm ++ rest) (ndb_note_meta_flags 0) = Some (nm_flags nm).
Proof.
  intros H. rewrite meta_flags_at. apply load_u64_mid; [done |]. unfold ndb_note_meta_flags, moff.flags. zl.
Qed.

(** The receipt is marked: metadata of its own, or the metadata it had. *)
Lemma mark_verified_spec scratch2 (receipt : option note_meta) : zlen scratch2 = 4096 ->
  match receipt with Some r => meta_wf r /\ is_u64 (nm_flags r) /\ meta_size (nm_entries r) <= 4096 | None => True end ->
  exists r, mark_verified scratch2 (meta_bytes <$> receipt) = Some (Some (meta_bytes (flag_verified r))) /\
    match receipt with Some r0 => r = r0 | None => nm_flags r = 0 /\ nm_entries r = [] end.
Proof.
  intros Hl Hr.
  assert (Base : exists r rest, receipt_meta scratch2 (meta_bytes <$> receipt) = Some (Some (meta_bytes r ++ rest)) /\ meta_wf r /\ is_u64 (nm_flags r) /\
    match receipt with Some r0 => r = r0 | None => nm_flags r = 0 /\ nm_entries r = [] end).
  { destruct receipt as [r |]; cbn [fmap option_fmap option_map receipt_meta].
    - destruct Hr as (W & F & L). pose proof (read_total_size r [] W) as Et. rewrite app_nil_r in Et. rewrite Et. cbn [mbind option_bind].
      destruct (Z.ltb_spec 4096 (meta_size (nm_entries r))); [lia |].
      rewrite (loadn_mid _ [] (meta_bytes r) [] 0 _ (eq_sym (app_nil_r _)) eq_refl) by (by rewrite zlen_meta_bytes). cbn [mbind option_bind].
      destruct (cut (zlen (meta_bytes r)) scratch2) as (x & rest & -> & Lx); [rewrite zlen_meta_bytes; pose proof (zlen_nonneg (nm_entries r)); unfold meta_size in *; lia |].
      assert (Es : storen (x ++ rest) 0 (meta_bytes r) = Some (meta_bytes r ++ rest)) by (by apply (storen_mid [] x rest)).
      rewrite Es. by exists r, rest.
    - destruct (builder_init_spec scratch2 4096) as [pad Init]; [lia |]. exists (mk_meta 1 pad 0 []), (drop 16 scratch2).
      unfold with_cursor, make_cursor. unfold bind at 1. rewrite Init.
      assert (Eb : header_bytes (mk_meta 1 pad 0 []) ++ drop 16 scratch2 = counted_bytes (mk_meta 1 pad 0 []) 0 [] ++ drop 16 scratch2) by done.
      unfold ndb_note_meta_build. rewrite run_get. cbn [fst snd c_p c_start Z.eqb]. rewrite Eb.
      rewrite (run_lift _ 0) by (by apply counted_count). cbn [Z.ltb Z.compare]. split; [done |].
      split; [split; cbn [nm_entries]; [constructor | constructor | done] | done]. }
  destruct Base as (r & rest & E & W & F & Hrec). exists r. split; [| done]. unfold mark_verified. rewrite E. cbn [mbind option_bind].
  rewrite (load_flags r rest F). cbn [mbind option_bind]. rewrite meta_flags_at.
  rewrite storen_mid by (unfold ndb_note_meta_flags, moff.flags; zl). cbn [mbind option_bind].
  assert (Eq : ([nm_version r; nm_padding r] ++ le_bytes 2 (zlen (nm_entries r)) ++ le_bytes 4 0) ++
      le_bytes 8 (Z.lor (nm_flags r) NDB_NOTE_META_FLAG_ZAP_VERIFIED) ++ concat (map entry_bytes (nm_entries r)) ++ rest =
    meta_bytes (flag_verified r) ++ rest) by (by rewrite (meta_flags_at (flag_verified r))).
  rewrite Eq. assert (W' : meta_wf (flag_verified r)) by (destruct W; by split).
  rewrite (read_total_size _ rest W'). cbn [mbind option_bind].
  by rewrite (loadn_mid _ [] (meta_bytes (flag_verified r)) rest 0 _ eq_refl eq_refl) by (by rewrite zlen_meta_bytes).
Qed.

Section verify.
Context {D C : Type} `{!Lmdb D C} `{!LmdbPut D C}.
Context (cb : list Z -> mem -> Z -> bool) (bolt11_decode_minimal : list Z -> option (option Z)) (scratch scratch2 : mem).
Context (txn : ndb_txn D) (ms : metas) (zap_id : list Z) (note : mem) (k : Z) (f : fnote) (msats : Z) (id : list Z).
Hypothesis (Hbolt : forall x msat, bolt11_decode_minimal x = Some (Some msat) -> is_u64 msat)
  (Hs1 : bytes_ok scratch) (Hl1 : zlen scratch = 4096) (Hl2 : zlen scratch2 = 4096)
  (T : meta_table (txn NDB_DB_META) ms) (Hnote : ndb_get_note_by_id (C := C) txn zap_id = Some (note, k)) (Rd : note_reads cb note 0 f)
  (Hz : zap_amount bolt11_decode_minimal f = Some msats) (Hid : last_e f = Some id)
  (Hflag : match ms zap_id with
           | Some r => is_u64 (nm_flags r) /\ Z.land (nm_flags r) NDB_NOTE_META_FLAG_ZAP_VERIFIED = 0 /\ meta_size (nm_entries r) <= 4096
           | None => True end).

(** Up to the metadata of the zapped note. *)
Lemma verify_zap_steps : ndb_verify_zap (C := C) bolt11_decode_minimal scratch scratch2 txn zap_id =
  (r ← move_zap scratch (meta_bytes <$> ms id) msats;
   z ← mark_verified scratch2 (meta_bytes <$> ms zap_id);
   Some (match z with
         | Some zap_meta => (true, match r with Some meta => [(id, meta)] | None => [] end ++ [(zap_id, zap_meta)])
         | None => (false, match r with Some meta => [(id, meta)] | None => [] end)
         end)).
Proof using T Hnote Rd Hz Hid Hflag.
  unfold ndb_verify_zap. rewrite Hnote. unfold ndb_get_note_meta. rewrite (mt_get _ _ T zap_id).
  assert (Ef : match meta_bytes <$> ms zap_id with
      | Some meta => flags ← load_u64 meta (ndb_note_meta_flags 0); Some (negb (Z.land flags NDB_NOTE_META_FLAG_ZAP_VERIFIED =? 0))
      | None => Some false end = Some false).
  { destruct (ms zap_id) as [r |]; [| done]. cbn [fmap option_fmap option_map]. destruct Hflag as (F & E & _).
    pose proof (load_flags r [] F) as L. rewrite app_nil_r in L. rewrite L. cbn [mbind option_bind]. by rewrite E. }
  rewrite Ef. cbn [mbind option_bind]. rewrite (parse_zap_spec bolt11_decode_minimal cb note 0 f Rd). cbn [mbind option_bind]. rewrite Hz.
  destruct (last_id_tag_spec cb note 0 f Rd 101 ltac:(done)) as (a & -> & Pa). cbn [mbind option_bind]. fold (last_e f) in Pa. rewrite Hid in Pa.
  destruct a as [a |]; [| done]. cbn in Pa. rewrite Pa. cbn [mbind option_bind]. rewrite (mt_get _ _ T id).
  by destruct (move_zap _ _ _) as [r |].
Qed.

Lemma zap_msats : is_u64 msats.
Proof using Hbolt Hz. by eapply zap_amount_u64. Qed.

Lemma receipt_ok : match ms zap_id with Some r => meta_wf r /\ is_u64 (nm_flags r) /\ meta_size (nm_entries r) <= 4096 | None => True end.
Proof using T Hflag. destruct (ms zap_id) as [r |] eqn:Er; [| done]. destruct Hflag as (F & _ & L). split; [by eapply (mt_wf _ _ T) | done]. Qed.
End verify.

(** C28: Verifying a zap receipt whose zapped note has unverified zaps sends the
    writer two messages: the metadata of the zapped note, where one zap of the
    amount of the invoice has moved from the unverified to the verified ones
    (stopping at zero) and no other entry differs, and the metadata of the
    receipt, which is marked as verified.  The receipt is stored, not marked as
    verified yet and has an invoice and an e tag, the last of which is the zapped
    note, and the metadata of both notes fit the scratch buffers of 4096 bytes,
    that of the zapped note with an entry more. *)
Theorem verify_zap_moves {D C} `{!Lmdb D C} `{!LmdbPut D C} (cb : list Z -> mem -> Z -> bool)
    (bolt11_decode_minimal : list Z -> option (option Z)) (scratch scratch2 : mem)
    (txn : ndb_txn D) (ms : metas) (zap_id : list Z) (note : mem) (k : Z) (f : fnote) (msats : Z) (id : list Z) (nm : note_meta) (u : meta_entry)
    (Hbolt : forall x msat, bolt11_decode_minimal x = Some (Some msat) -> is_u64 msat)
    (Hs1 : bytes_ok scratch) (Hl1 : zlen scratch = 4096) (Hl2 : zlen scratch2 = 4096)
    (T : meta_table (txn NDB_DB_META) ms) (Hnote : ndb_get_note_by_id (C := C) txn zap_id = Some (note, k)) (Rd : note_reads cb note 0 f)
    (Hz : zap_amount bolt11_decode_minimal f = Some msats) (Hid : last_e f = Some id)
    (Hflag : match ms zap_id with
             | Some r => is_u64 (nm_flags r) /\ Z.land (nm_flags r) NDB_NOTE_META_FLAG_ZAP_VERIFIED = 0 /\ meta_size (nm_entries r) <= 4096
             | None => True end)
    (Hm : ms id = Some nm) (Hu : entry_at unverified_key (nm_entries nm) = Some u) (Hroom : meta_size (nm_entries nm) + 16 <= 4096) :
  exists nm' e' r, ndb_verify_zap (C := C) bolt11_decode_minimal scratch scratch2 txn zap_id =
      Some (true, [(id, meta_bytes nm'); (zap_id, meta_bytes (flag_verified r))]) /\
    meta_wf nm' /\ nm_flags nm' = nm_flags nm /\ more_zaps msats (nm_entries nm) e' /\
    (forall key, entry_at key (nm_entries nm') =
      if decide (key = zap_key) then Some e' else if decide (key = unverified_key) then Some (sub_zap msats u) else entry_at key (nm_entries nm)) /\
    match ms zap_id with Some r0 => r = r0 | None => nm_flags r = 0 /\ nm_entries r = [] end.
Proof.
  rewrite (verify_zap_steps cb bolt11_decode_minimal scratch scratch2 txn ms zap_id note k f msats id T Hnote Rd Hz Hid Hflag).
  pose proof (zap_msats bolt11_decode_minimal f msats Hbolt Hz) as Hz64.
  destruct (move_zap_spec nm scratch msats u (mt_wf _ _ T _ _ Hm) Hs1 Hl1 Hz64 Hroom Hu) as (nm' & e' & Em & W & F & M & A).
  destruct (mark_verified_spec scratch2 (ms zap_id) Hl2 (receipt_ok txn ms zap_id T Hflag)) as (r & Er & R).
  exists nm', e', r. rewrite Hm. cbn [fmap option_fmap option_map]. rewrite Em. cbn [mbind option_bind]. rewrite Er. done.
Qed.

(** Verifying a zap receipt whose zapped note has no unverified zaps fails an
    assertion (or, without room, dereferences NULL): the metadata is cloned a
    second time out of the buffer it is cloned into, whose entries the builder
    has just taken out of the header. *)
Theorem verify_zap_asserts {D C} `{!Lmdb D C} `{!LmdbPut D C} (cb : list Z -> mem -> Z -> bool)
    (bolt11_decode_minimal : list Z -> option (option Z)) (scratch scratch2 : mem)
    (txn : ndb_txn D) (ms : metas) (zap_id : list Z) (note : mem) (k : Z) (f : fnote) (msats : Z) (id : list Z)
    (Hbolt : forall x msat, bolt11_decode_minimal x = Some (Some msat) -> is_u64 msat)
    (Hs1 : bytes_ok scratch) (Hl1 : zlen scratch = 4096) (Hl2 : zlen scratch2 = 4096)
    (T : meta_table (txn NDB_DB_META) ms) (Hnote : ndb_get_note_by_id (C := C) txn zap_id = Some (note, k)) (Rd : note_reads cb note 0 f)
    (Hz : zap_amount bolt11_decode_minimal f = Some msats) (Hid : last_e f = Some id)
    (Hflag : match ms zap_id with
             | Some r => is_u64 (nm_flags r) /\ Z.land (nm_flags r) NDB_NOTE_META_FLAG_ZAP_VERIFIED = 0 /\ meta_size (nm_entries r) <= 4096
             | None => True end)
    (Hm : match ms id with
          | Some nm => entry_at unverified_key (nm_entries nm) = None /\ meta_size (nm_entries nm) + 16 <= 4096
          | None => True end) :
  ndb_verify_zap (C := C) bolt11_decode_minimal scratch scratch2 txn zap_id = None.
Proof.
  rewrite (verify_zap_steps cb bolt11_decode_minimal scratch scratch2 txn ms zap_id note k f msats id T Hnote Rd Hz Hid Hflag).
  rewrite (move_zap_fails (ms id) scratch msats); [done | | done | done | by apply (zap_msats bolt11_decode_minimal f)].
  destruct (ms id) as [nm |] eqn:Em; [| done]. destruct Hm as [H1 H2]. split; [by eapply (mt_wf _ _ T) | done].
Qed.

(** *** A zap of three satoshis for the note of sevens *)

Definition zap_note : mem :=
  [1; 0; 0; 0] ++ replicate 32 0xab ++ replicate 32 0xbb ++ replicate 64 0xcc ++
  le_bytes 8 100 ++ le_bytes 4 9735 ++ le_bytes 4 0 ++ [0; 0; 0; 1] ++
  le_bytes 4 180 ++ [0; 0] ++ le_bytes 2 2 ++
  le_bytes 2 2 ++ le_bytes 4 32 ++ [108; 110; 0; 1] ++
  le_bytes 2 2 ++ [101; 0; 0; 1] ++ le_bytes 4 (2 * 2 ^ 24) ++
  replicate 32 7 ++ bolt11_tag ++ [0].

Definition zap_fnote : fnote :=
  mk_fnote (replicate 32 0xab) (replicate 32 0xbb) 9735 100
    [[(0, EStr bolt11_tag); (NDB_PACKED_STR, EStr [108; 110])];
     [(NDB_PACKED_STR, EStr [101]); (NDB_PACKED_ID, EId (replicate 32 7))]] [] (fun _ => false).

Lemma zap_note_reads : note_reads no_custom zap_note 0 zap_fnote.
Proof. split; [by apply bytes_ok_dec | vm_compute; reflexivity .. | done]. Qed.

(** Its invoice is of 3000 millisatoshis. *)
Definition demo_bolt11 (x : list Z) : option (option Z) := if bool_decide (x = [108; 110]) then Some (Some 3000) else None.

Lemma demo_bolt11_u64 x msat : demo_bolt11 x = Some (Some msat) -> is_u64 msat.
Proof. unfold demo_bolt11. case_bool_decide; [intros [= <-]; unfold is_u64; lia | done]. Qed.

Definition zapped_meta (es : list meta_entry) : note_meta := mk_meta 1 0 0 es.
Definition two_zaps : meta_entry := mk_entry NDB_NOTE_META_ZAP_UNVERIFIED 0 2 5000.

Definition zap_txn (metas : list item) : ndb_txn list_db := fun db =>
  match db with
  | NDB_DB_NOTE => mk_list_db int_cmp None [(le_bytes 8 1, zap_note)]
  | NDB_DB_NOTE_ID => mk_list_db ndb_tsid_compare None [(Keys.key_bytes (mk_tsid (replicate 32 0xab) 100), le_bytes 8 1)]
  | NDB_DB_META => mk_list_db mem_cmp None metas
  | _ => mk_list_db mem_cmp None []
  end.

Lemma one_meta id nm : meta_wf nm ->
  meta_table (C := LC) (mk_list_db mem_cmp None [(id, meta_bytes nm)]) (fun id' => if decide (id' = id) then Some nm else None).
Proof.
  intros W. split.
  - intros id'. rewrite mdb_get_spec. change (_ <$> list_find _ _) with (pick [(id, meta_bytes nm)] id'). rewrite pick_cons. cbn [fst snd].
    destruct (decide (id' = id)) as [-> | N]; [by rewrite decide_True | by rewrite decide_False by congruence].
  - intros id' nm'. destruct (decide _); [by intros [= <-] | done].
Qed.

Lemma zapped_meta_wf es : forallb (fun e => fits (me_type e) (2 ^ 16) && fits (me_aux2 e) (2 ^ 16) && fits (me_aux e) (2 ^ 32) && fits (me_payload e) (2 ^ 64)) es = true ->
  (length es <= 1)%nat -> meta_wf (zapped_meta es).
Proof.
  intros F L. split; cbn [nm_entries zapped_meta].
  - apply List.Forall_forall. intros e He. apply entry_wf_dec. rewrite forallb_forall in F. by apply F.
  - destruct es as [| e [| ? ?]]; [constructor | repeat constructor | cbn in L; lia].
  - unfold zlen. lia.
Qed.

Lemma verify_zap_moves_witness : exists nm' e' r,
  ndb_verify_zap (C := LC) demo_bolt11 (replicate 4096 0) (replicate 4096 0) (zap_txn [(replicate 32 7, meta_bytes (zapped_meta [two_zaps]))])
    (replicate 32 0xab) = Some (true, [(replicate 32 7, meta_bytes nm'); (replicate 32 0xab, meta_bytes (flag_verified r))]) /\
  e' = mk_entry NDB_NOTE_META_ZAP (me_aux2 e') 1 3000 /\
  entry_at unverified_key (nm_entries nm') = Some (mk_entry NDB_NOTE_META_ZAP_UNVERIFIED 0 1 2000) /\ nm_entries r = [].
Proof.
  destruct (verify_zap_moves (C := LC) no_custom demo_bolt11 (replicate 4096 0) (replicate 4096 0)
    (zap_txn [(replicate 32 7, meta_bytes (zapped_meta [two_zaps]))]) (fun id => if decide (id = replicate 32 7) then Some (zapped_meta [two_zaps]) else None)
    (replicate 32 0xab) zap_note 1 zap_fnote 3000 (replicate 32 7) (zapped_meta [two_zaps]) two_zaps) as (nm' & e' & r & E & _ & _ & M & A & _ & Rr);
    [exact demo_bolt11_u64 | apply Forall_replicate; unfold is_byte; lia | vm_compute; reflexivity | vm_compute; reflexivity |
     apply one_meta, zapped_meta_wf; [vm_compute; reflexivity | cbn; lia] | vm_compute; reflexivity | exact zap_note_reads |
     vm_compute; reflexivity | vm_compute; reflexivity | by rewrite decide_False | by rewrite decide_True | vm_compute; reflexivity | vm_compute; discriminate |].
  exists nm', e', r. split; [exact E |]. split; [by destruct M as [x ->] |]. split; [| exact Rr].
  rewrite A, decide_False, decide_True by done. vm_compute. reflexivity.
Defined.

Lemma verify_zap_asserts_witness :
  ndb_verify_zap (C := LC) demo_bolt11 (replicate 4096 0) (replicate 4096 0) (zap_txn []) (replicate 32 0xab) = None.
Proof.
  apply (verify_zap_asserts (C := LC) no_custom demo_bolt11 (replicate 4096 0) (replicate 4096 0) (zap_txn []) (fun _ => None)
    (replicate 32 0xab) zap_note 1 zap_fnote 3000 (replicate 32 7));
    [exact demo_bolt11_u64 | apply Forall_replicate; unfold is_byte; lia | vm_compute; reflexivity | vm_compute; reflexivity |
     by split | vm_compute; reflexivity | exact zap_note_reads | vm_compute; reflexivity | vm_compute; reflexivity | exact I | exact I].
Defined.
