(* ===== verification/Base64.v ===== *)
(** * Base64 (src/src/base64.c, src/src/base64.h)

    Encoding and decoding between two regions of one memory, over a pair of maps
    between sextets and characters.  [rfc4648_text] is the text the standard
    prescribes, a group of 24 bits at a time; the encoder writes it and pads the
    destination with zeros, the decoder reads it back. *)

From S2P Require Import Prelude Cursor.

(** ** Maps *)

(** The decode map holds signed characters. *)
Record base64_maps_t := mk_maps { encode_map : list Z; decode_map : list Z }.

Definition sixbit_to_b64 (maps : base64_maps_t) (sixbit : Z) : CM Z :=
  if sixbit <=? 63 then lift (encode_map maps !! Z.to_nat (u8 sixbit)) else ub.

Definition sixbit_from_b64 (maps : base64_maps_t) (b64letter : Z) : CM Z :=
  let* r := lift (decode_map maps !! Z.to_nat (u8 b64letter)) in
  if r =? i8 255 then ret (-1) else ret r.

Definition base64_char_in_alphabet (maps : base64_maps_t) (b64char : Z) : CM bool :=
  let* r := lift (decode_map maps !! Z.to_nat (u8 b64char)) in
  ret (negb (r =? i8 255)).

Fixpoint init_decode (src : list Z) (i : Z) (dec : list Z) : list Z :=
  match src with
  | [] => dec
  | ch :: src => init_decode src (i + 1) (<[Z.to_nat (u8 ch) := i8 i]> dec)
  end.

Definition base64_init_maps (src : list Z) : base64_maps_t :=
  mk_maps src (init_decode src 0 (replicate 256 (i8 255))).

(** ** Encoding *)

Definition base64_encoded_length (srclen : Z) : Z := u64 (srclen + 2) / 3 * 4.

(** The three source bytes, which the callers have read. *)
Definition base64_encode_triplet_using_maps (maps : base64_maps_t) (dest : Z) (src : list Z) : CM unit :=
  match src with
  | [a; b; c] =>
      let* d0 := sixbit_to_b64 maps (Z.shiftr (Z.land a 252) 2) in
      let* d1 := sixbit_to_b64 maps (Z.lor (Z.shiftl (Z.land a 3) 4) (Z.shiftr (Z.land b 240) 4)) in
      let* d2 := sixbit_to_b64 maps (Z.lor (Z.shiftr (Z.land c 192) 6) (Z.shiftl (Z.land b 15) 2)) in
      let* d3 := sixbit_to_b64 maps (Z.land c 63) in
      poke dest [d0; d1; d2; d3]
  | _ => ub
  end.

Definition base64_encode_tail_using_maps (maps : base64_maps_t) (dest src srclen : Z) : CM unit :=
  if srclen <=? 3 then
    let* l := peekn src srclen in
    let longsrc := l ++ replicate (Z.to_nat (3 - srclen)) 0 in
    do* base64_encode_triplet_using_maps maps dest longsrc in
    poke (dest + 1 + srclen) (replicate (Z.to_nat (3 - srclen)) 61)
  else ub.

Fixpoint encode_loop (fuel : nat) (maps : base64_maps_t) (dest src srclen src_offset dest_offset : Z) : CM (Z * Z) :=
  match fuel with
  | O => ub
  | S fuel =>
      if 3 <=? srclen - src_offset then
        let* l := peekn (src + src_offset) 3 in
        do* base64_encode_triplet_using_maps maps (dest + dest_offset) l in
        encode_loop fuel maps dest src srclen (src_offset + 3) (dest_offset + 4)
      else ret (src_offset, dest_offset)
  end.

Definition base64_encode_using_maps (maps : base64_maps_t) (dest destlen src srclen : Z) : CM Z :=
  if destlen <? base64_encoded_length srclen then ret (-1)
  else
    let* '(src_offset, dest_offset) := encode_loop (S (Z.to_nat srclen)) maps dest src srclen 0 0 in
    let* dest_offset :=
      (if src_offset <? srclen then
         do* base64_encode_tail_using_maps maps (dest + dest_offset) (src + src_offset) (srclen - src_offset) in
         ret (dest_offset + 4)
       else ret dest_offset) in
    do* poke (dest + dest_offset) (replicate (Z.to_nat (destlen - dest_offset)) 0) in
    ret dest_offset.

(** ** Decoding *)

Definition base64_decoded_length (srclen : Z) : Z := u64 (srclen + 3) / 4 * 3.

(** The four source characters, which the callers have read. *)
Definition base64_decode_quartet_using_maps (maps : base64_maps_t) (dest : Z) (src : list Z) : CM Z :=
  match src with
  | [s0; s1; s2; s3] =>
      let* a := sixbit_from_b64 maps s0 in
      let* b := sixbit_from_b64 maps s1 in
      let* c := sixbit_from_b64 maps s2 in
      let* d := sixbit_from_b64 maps s3 in
      if (a =? -1) || (b =? -1) || (c =? -1) || (d =? -1) then ret (-1)
      else
        do* poke dest [u8 (Z.lor (Z.shiftl a 2) (Z.shiftr b 4));
                       u8 (Z.lor (Z.shiftl (Z.land b 15) 4) (Z.shiftr c 2));
                       u8 (Z.lor (Z.shiftl (Z.land c 3) 6) d)] in
        ret 0
  | _ => ub
  end.

(** The length without the padding symbols at the end. *)
Fixpoint drop_padding (insize : nat) (src : Z) : CM nat :=
  match insize with
  | O => ret O
  | S k =>
      let* ch := peek8 (src + Z.of_nat k) in
      if ch =? 61 then drop_padding k src else ret insize
  end.

Definition base64_decode_tail_using_maps (maps : base64_maps_t) (dest src srclen : Z) : CM Z :=
  let* n := drop_padding (Z.to_nat srclen) src in
  let insize := Z.of_nat n in
  if insize =? 0 then ret 0
  else if insize =? 1 then ret (-1)
  else if 4 <? insize then ub
  else
    let* l := peekn src insize in
    let* quartet_result :=
      base64_decode_quartet_using_maps maps dest (l ++ replicate (Z.to_nat (4 - insize)) 65) in
    if quartet_result =? -1 then ret (-1) else ret (insize - 1).

(** The offsets where the last quartet starts, or a failure. *)
Fixpoint decode_loop (fuel : nat) (maps : base64_maps_t) (dest src srclen i dest_offset : Z) : CM (option (Z * Z)) :=
  match fuel with
  | O => ub
  | S fuel =>
      if 4 <? srclen - i then
        let* l := peekn (src + i) 4 in
        let* r := base64_decode_quartet_using_maps maps (dest + dest_offset) l in
        if r =? -1 then ret None
        else decode_loop fuel maps dest src srclen (i + 4) (dest_offset + 3)
      else ret (Some (i, dest_offset))
  end.

Definition base64_decode_using_maps (maps : base64_maps_t) (dest destlen src srclen : Z) : CM Z :=
  if destlen <? base64_decoded_length srclen then ret (-1)
  else
    let* r := decode_loop (S (Z.to_nat srclen)) maps dest src srclen 0 0 in
    match r with
    | None => ret (-1)
    | Some (i, dest_offset) =>
        let* more := base64_decode_tail_using_maps maps (dest + dest_offset) (src + i) (srclen - i) in
        if more =? -1 then ret (-1)
        else
          let dest_offset := dest_offset + more in
          do* poke (dest + dest_offset) (replicate (Z.to_nat (destlen - dest_offset)) 0) in
          ret dest_offset
    end.

(** ** The RFC 4648 maps *)

Definition base64_maps_rfc4648 : base64_maps_t := mk_maps
    [65; 66; 67; 68; 69; 70; 71; 72; 73; 74; 75; 76; 77; 78; 79; 80;
     81; 82; 83; 84; 85; 86; 87; 88; 89; 90; 97; 98; 99; 100; 101; 102;
     103; 104; 105; 106; 107; 108; 109; 110; 111; 112; 113; 114; 115; 116; 117; 118;
     119; 120; 121; 122; 48; 49; 50; 51; 52; 53; 54; 55; 56; 57; 43; 47]
    (map i8
    [255; 255; 255; 255; 255; 255; 255; 255; 255; 255; 255; 255; 255; 255; 255; 255;
     255; 255; 255; 255; 255; 255; 255; 255; 255; 255; 255; 255; 255; 255; 255; 255;
     255; 255; 255; 255; 255; 255; 255; 255; 255; 255; 255; 62; 255; 255; 255; 63;
     52; 53; 54; 55; 56; 57; 58; 59; 60; 61; 255; 255; 255; 255; 255; 255;
     255; 0; 1; 2; 3; 4; 5; 6; 7; 8; 9; 10; 11; 12; 13; 14;
     15; 16; 17; 18; 19; 20; 21; 22; 23; 24; 25; 255; 255; 255; 255; 255;
     255; 26; 27; 28; 29; 30; 31; 32; 33; 34; 35; 36; 37; 38; 39; 40;
     41; 42; 43; 44; 45; 46; 47; 48; 49; 50; 51; 255; 255; 255; 255; 255;
     255; 255; 255; 255; 255; 255; 255; 255; 255; 255; 255; 255; 255; 255; 255; 255;
     255; 255; 255; 255; 255; 255; 255; 255; 255; 255; 255; 255; 255; 255; 255; 255;
     255; 255; 255; 255; 255; 255; 255; 255; 255; 255; 255; 255; 255; 255; 255; 255;
     255; 255; 255; 255; 255; 255; 255; 255; 255; 255; 255; 255; 255; 255; 255; 255;
     255; 255; 255; 255; 255; 255; 255; 255; 255; 255; 255; 255; 255; 255; 255; 255;
     255; 255; 255; 255; 255; 255; 255; 255; 255; 255; 255; 255; 255; 255; 255; 255;
     255; 255; 255; 255; 255; 255; 255; 255; 255; 255; 255; 255; 255; 255; 255; 255;
     255; 255; 255; 255; 255; 255; 255; 255; 255; 255; 255; 255; 255; 255; 255; 255]).

Definition base64_encode (dest destlen src srclen : Z) : CM Z :=
  base64_encode_using_maps base64_maps_rfc4648 dest destlen src srclen.

Definition base64_encode_triplet (dest : Z) (src : list Z) : CM unit :=
  base64_encode_triplet_using_maps base64_maps_rfc4648 dest src.

Definition base64_encode_tail (dest src srclen : Z) : CM unit :=
  base64_encode_tail_using_maps base64_maps_rfc4648 dest src srclen.

Definition base64_decode (dest destlen src srclen : Z) : CM Z :=
  base64_decode_using_maps base64_maps_rfc4648 dest destlen src srclen.

Definition base64_decode_quartet (dest : Z) (src : list Z) : CM Z :=
  base64_decode_quartet_using_maps base64_maps_rfc4648 dest src.

Definition base64_decode_tail (dest src srclen : Z) : CM Z :=
  base64_decode_tail_using_maps base64_maps_rfc4648 dest src srclen.

(** ** The text of RFC 4648

    Bytes are taken three at a time as a number of 24 bits, whose four sextets
    select the characters; a last group of one or two bytes is filled with zero
    bits and the missing characters are replaced by [=]. *)

Definition b64_char (v : Z) : Z := default 0 (encode_map base64_maps_rfc4648 !! Z.to_nat v).

Definition group24 (a b c : Z) : Z := a * 2 ^ 16 + b * 2 ^ 8 + c.

Definition sextet (n : Z) (k : Z) : Z := n / 64 ^ k mod 64.

Definition sextets (n : Z) : list Z := map (sextet n) [3; 2; 1; 0].

Fixpoint rfc4648_text (bs : list Z) : list Z :=
  match bs with
  | [] => []
  | [a] => map b64_char (take 2 (sextets (group24 a 0 0))) ++ [61; 61]
  | [a; b] => map b64_char (take 3 (sextets (group24 a b 0))) ++ [61]
  | a :: b :: c :: r => map b64_char (sextets (group24 a b c)) ++ rfc4648_text r
  end.

(** * Lemmas *)

(** ** Sextets *)

Lemma enum2 (n k : nat) (f : Z -> Z -> bool) :
  forallb (fun i => forallb (fun j => f (Z.of_nat i) (Z.of_nat j)) (seq 0 k)) (seq 0 n) = true ->
  forall x y, 0 <= x < Z.of_nat n -> 0 <= y < Z.of_nat k -> f x y = true.
Proof.
  intros H x y Hx Hy.
  pose proof (Zrange_forallb n (fun i => forallb (fun j => f i (Z.of_nat j)) (seq 0 k)) H x Hx) as H1.
  exact (Zrange_forallb k (f x) H1 y Hy).
Qed.

Lemma enc_bits01 a b : is_byte a -> is_byte b ->
  Z.lor (Z.shiftl (Z.land a 3) 4) (Z.shiftr (Z.land b 240) 4) = a mod 4 * 16 + b / 16.
Proof.
  unfold is_byte. intros Ha Hb. apply Z.eqb_eq.
  revert a b Ha Hb. apply (enum2 256 256 (fun a b => Z.lor (Z.shiftl (Z.land a 3) 4) (Z.shiftr (Z.land b 240) 4) =? a mod 4 * 16 + b / 16)).
  vm_compute. reflexivity.
Qed.

Lemma enc_bits12 b c : is_byte b -> is_byte c ->
  Z.lor (Z.shiftr (Z.land c 192) 6) (Z.shiftl (Z.land b 15) 2) = b mod 16 * 4 + c / 64.
Proof.
  unfold is_byte. intros Ha Hb. apply Z.eqb_eq.
  revert b c Ha Hb. apply (enum2 256 256 (fun b c => Z.lor (Z.shiftr (Z.land c 192) 6) (Z.shiftl (Z.land b 15) 2) =? b mod 16 * 4 + c / 64)).
  vm_compute. reflexivity.
Qed.

Lemma enc_bits0 a : is_byte a -> Z.shiftr (Z.land a 252) 2 = a / 4.
Proof.
  intros Ha. apply Z.eqb_eq. revert a Ha.
  apply (Zrange_forallb 256 (fun a => Z.shiftr (Z.land a 252) 2 =? a / 4)). vm_compute. reflexivity.
Qed.

Lemma enc_bits2 c : is_byte c -> Z.land c 63 = c mod 64.
Proof. intros _. apply (Z.land_ones c 6). lia. Qed.

Lemma sextets_group a b c : is_byte a -> is_byte b -> is_byte c ->
  sextets (group24 a b c) = [a / 4; a mod 4 * 16 + b / 16; b mod 16 * 4 + c / 64; c mod 64].
Proof.
  unfold is_byte, sextets, sextet, group24. intros. cbn [map].
  change (64 ^ 3) with 262144. change (64 ^ 2) with 4096. change (64 ^ 1) with 64.
  change (64 ^ 0) with 1. change (2 ^ 16) with 65536. change (2 ^ 8) with 256.
  set (n := a * 65536 + b * 256 + c).
  assert (n / 262144 mod 64 = a / 4 /\ n / 4096 mod 64 = a mod 4 * 16 + b / 16 /\
    n / 64 mod 64 = b mod 16 * 4 + c / 64 /\ n / 1 mod 64 = c mod 64) as (-> & -> & -> & ->);
    [| done].
  unfold n. Z.to_euclidean_division_equations. lia.
Qed.

Lemma sextet_range n k : 0 <= sextet n k < 64.
Proof. unfold sextet. apply Z.mod_pos_bound. lia. Qed.

(** The alphabet: 64 characters, none of them [=], which the decode map inverts. *)
Lemma b64_char_facts v : 0 <= v < 64 ->
  encode_map base64_maps_rfc4648 !! Z.to_nat (u8 v) = Some (b64_char v) /\
  decode_map base64_maps_rfc4648 !! Z.to_nat (u8 (b64_char v)) = Some v /\
  is_byte (b64_char v) /\ b64_char v <> 61 /\ b64_char v <> 35.
Proof.
  intros Hv.
  assert (H : bool_decide (encode_map base64_maps_rfc4648 !! Z.to_nat (u8 v) = Some (b64_char v)) &&
    bool_decide (decode_map base64_maps_rfc4648 !! Z.to_nat (u8 (b64_char v)) = Some v) &&
    ((0 <=? b64_char v) && (b64_char v <? 256) && negb (b64_char v =? 61) && negb (b64_char v =? 35)) = true).
  { revert v Hv. apply (Zrange_forallb 64 (fun v => bool_decide (encode_map base64_maps_rfc4648 !! Z.to_nat (u8 v) = Some (b64_char v)) &&
    bool_decide (decode_map base64_maps_rfc4648 !! Z.to_nat (u8 (b64_char v)) = Some v) &&
    ((0 <=? b64_char v) && (b64_char v <? 256) && negb (b64_char v =? 61) && negb (b64_char v =? 35)))).
    vm_compute. reflexivity. }
  rewrite !andb_true_iff, !bool_decide_eq_true, !negb_true_iff in H. unfold is_byte. intuition lia.
Qed.

Lemma sixbit_to_b64_ok v s : 0 <= v < 64 ->
  sixbit_to_b64 base64_maps_rfc4648 v s = Some (b64_char v, s).
Proof.
  intros Hv. destruct (b64_char_facts v Hv) as (E & _). unfold sixbit_to_b64.
  destruct (Z.leb_spec v 63); [| lia]. unfold lift. by rewrite E.
Qed.

Lemma sixbit_from_b64_ok v s : 0 <= v < 64 ->
  sixbit_from_b64 base64_maps_rfc4648 (b64_char v) s = Some (v, s).
Proof.
  intros Hv. destruct (b64_char_facts v Hv) as (_ & E & _). unfold sixbit_from_b64.
  rewrite (run_lift _ _ _ _ E). change (i8 255) with (-1).
  destruct (Z.eqb_spec v (-1)); [lia | done].
Qed.

Lemma encode_triplet_ok a b c dest m m' cu : is_byte a -> is_byte b -> is_byte c ->
  storen m dest (map b64_char (sextets (group24 a b c))) = Some m' ->
  base64_encode_triplet_using_maps base64_maps_rfc4648 dest [a; b; c] (m, cu) = Some (tt, (m', cu)).
Proof.
  intros Ha Hb Hc E. rewrite sextets_group in E by done. cbn [map] in E.
  unfold base64_encode_triplet_using_maps.
  rewrite enc_bits0, enc_bits01, enc_bits12, enc_bits2 by done. unfold is_byte in *.
  do 4 (erewrite run_bind by (apply sixbit_to_b64_ok; Z.to_euclidean_division_equations; lia)).
  by apply poke_ok.
Qed.

(** ** Quartets *)

Lemma dec_bits a b c d : 0 <= a < 64 -> 0 <= b < 64 -> 0 <= c < 64 -> 0 <= d < 64 ->
  u8 (Z.lor (Z.shiftl a 2) (Z.shiftr b 4)) = a * 4 + b / 16 /\
  u8 (Z.lor (Z.shiftl (Z.land b 15) 4) (Z.shiftr c 2)) = b mod 16 * 16 + c / 4 /\
  u8 (Z.lor (Z.shiftl (Z.land c 3) 6) d) = c mod 4 * 64 + d.
Proof.
  intros Ha Hb Hc Hd. split; [| split]; apply Z.eqb_eq.
  - revert a b Ha Hb. apply (enum2 64 64 (fun a b => u8 (Z.lor (Z.shiftl a 2) (Z.shiftr b 4)) =? a * 4 + b / 16)).
    vm_compute. reflexivity.
  - revert b c Hb Hc. apply (enum2 64 64 (fun b c => u8 (Z.lor (Z.shiftl (Z.land b 15) 4) (Z.shiftr c 2)) =? b mod 16 * 16 + c / 4)).
    vm_compute. reflexivity.
  - revert c d Hc Hd. apply (enum2 64 64 (fun c d => u8 (Z.lor (Z.shiftl (Z.land c 3) 6) d) =? c mod 4 * 64 + d)).
    vm_compute. reflexivity.
Qed.

Lemma decode_quartet_ok a b c dest m m' cu : is_byte a -> is_byte b -> is_byte c ->
  storen m dest [a; b; c] = Some m' ->
  base64_decode_quartet_using_maps base64_maps_rfc4648 dest (map b64_char (sextets (group24 a b c))) (m, cu) = Some (0, (m', cu)).
Proof.
  intros Ha Hb Hc E. rewrite sextets_group by done. cbn [map].
  unfold is_byte in *. unfold base64_decode_quartet_using_maps.
  set (v0 := a / 4). set (v1 := a mod 4 * 16 + b / 16). set (v2 := b mod 16 * 4 + c / 64). set (v3 := c mod 64).
  assert (R : 0 <= v0 < 64 /\ 0 <= v1 < 64 /\ 0 <= v2 < 64 /\ 0 <= v3 < 64)
    by (unfold v0, v1, v2, v3; Z.to_euclidean_division_equations; lia).
  destruct R as (R0 & R1 & R2 & R3).
  do 4 (erewrite run_bind by (apply sixbit_from_b64_ok; assumption)).
  destruct (Z.eqb_spec v0 (-1)), (Z.eqb_spec v1 (-1)), (Z.eqb_spec v2 (-1)), (Z.eqb_spec v3 (-1)); try lia.
  cbn [orb]. destruct (dec_bits v0 v1 v2 v3 R0 R1 R2 R3) as (-> & -> & ->).
  replace (v0 * 4 + v1 / 16) with a by (unfold v0, v1; Z.to_euclidean_division_equations; lia).
  replace (v1 mod 16 * 16 + v2 / 4) with b by (unfold v1, v2; Z.to_euclidean_division_equations; lia).
  replace (v2 mod 4 * 64 + v3) with c by (unfold v2, v3; Z.to_euclidean_division_equations; lia).
  by rewrite (run_bind _ _ _ _ _ (poke_ok _ _ _ _ _ E)).
Qed.

(** ** Texts *)

(** Induction three bytes at a time. *)
Lemma triples_ind (P : list Z -> Prop) :
  (forall r, zlen r < 3 -> P r) -> (forall a b c r, P r -> P (a :: b :: c :: r)) -> forall bs, P bs.
Proof.
  intros H0 H1. assert (G : forall n bs, (length bs <= n)%nat -> P bs); [| intros bs; by eapply G].
  induction n as [| n IH]; intros bs Hn.
  - destruct bs; [by apply H0; zl | simpl in Hn; lia].
  - destruct bs as [| a [| b [| c r]]]; [apply H0; zl | apply H0; zl | apply H0; zl |]. simpl in Hn. apply H1, IH. lia.
Qed.

Lemma zlen_sextets n : zlen (sextets n) = 4.
Proof. reflexivity. Qed.

Lemma zlen_map {A B} (f : A -> B) l : zlen (map f l) = zlen l.
Proof. unfold zlen. by rewrite length_map. Qed.

(** The groups before the last one, and the last. *)
Lemma text_app_cons a b c r : rfc4648_text (a :: b :: c :: r) = rfc4648_text [a; b; c] ++ rfc4648_text r.
Proof. simpl. reflexivity. Qed.

Lemma text3 a b c : rfc4648_text [a; b; c] = map b64_char (sextets (group24 a b c)).
Proof. reflexivity. Qed.

Lemma zlen_text bs : zlen (rfc4648_text bs) = (zlen bs + 2) / 3 * 4.
Proof.
  induction bs as [r Hr | a b c r IH] using triples_ind.
  - destruct r as [| a [| b [| c r]]]; try reflexivity. exfalso. zl.
  - rewrite text_app_cons, text3, zlen_app, IH, zlen_map, zlen_sextets, !zlen_cons.
    replace (1 + (1 + (1 + zlen r)) + 2) with (zlen r + 2 + 1 * 3) by lia.
    rewrite Z.div_add by lia. lia.
Qed.

Lemma sextets_all n : Forall (fun v => 0 <= v < 64) (sextets n).
Proof. unfold sextets. cbn [map]. repeat constructor; apply sextet_range. Qed.

Lemma chars_ok l : Forall (fun v => 0 <= v < 64) l -> bytes_ok (map b64_char l).
Proof.
  induction 1 as [| v l Hv _ IH]; constructor; [| done]. by apply b64_char_facts.
Qed.

Lemma text_ok bs : bytes_ok (rfc4648_text bs).
Proof.
  assert (E : bytes_ok [61; 61] /\ bytes_ok [61]) by (split; apply bytes_ok_dec; reflexivity).
  destruct E as [E2 E1]. unfold bytes_ok in *.
  induction bs as [r Hr | a b c r IH] using triples_ind.
  - destruct r as [| a [| b [| c r]]]; [constructor | | | exfalso; zl]; unfold rfc4648_text;
      apply List.Forall_app; (split; [| done]); apply chars_ok, Forall_take, sextets_all.
  - rewrite text_app_cons, text3. apply List.Forall_app. split; [| done]. apply chars_ok, sextets_all.
Qed.

(** ** The encoding loop

    A region to read and one to write are apart. *)
Definition apart (a n b k : Z) : Prop := a + n <= b \/ b + k <= a.

Lemma bytes_ok_cons b l : bytes_ok (b :: l) <-> is_byte b /\ bytes_ok l.
Proof. unfold bytes_ok. apply List.Forall_cons_iff. Qed.

Lemma encode_loop_text bs : forall fuel dest src srclen so do_ m cu,
  bytes_ok bs -> (length bs < fuel)%nat -> srclen - so = zlen bs -> 0 <= dest + do_ ->
  loadn m (src + so) (zlen bs) = Some bs ->
  dest + do_ + zlen (rfc4648_text bs) <= zlen m ->
  apart (src + so) (zlen bs) (dest + do_) (zlen (rfc4648_text bs)) ->
  exists full r m', bs = full ++ r /\ zlen r < 3 /\
    rfc4648_text bs = rfc4648_text full ++ rfc4648_text r /\
    encode_loop fuel base64_maps_rfc4648 dest src srclen so do_ (m, cu)
      = Some ((so + zlen full, do_ + zlen (rfc4648_text full)), (m', cu)) /\
    storen m (dest + do_) (rfc4648_text full) = Some m'.
Proof.
  induction bs as [r Hr | a b c r IH] using triples_ind;
    intros fuel dest src srclen so do_ m cu Hb Hf Hl Hd Hm Hroom Hap;
    (destruct fuel as [| fuel]; [lia |]); cbn [encode_loop].
  - exists [], r, m. destruct (Z.leb_spec 3 (srclen - so)); [lia |].
    split; [done |]. split; [done |]. split; [done |]. split; [unfold ret; repeat f_equal; zl |].
    apply storen_nil. zl.
  - destruct (Z.leb_spec 3 (srclen - so)); [| zl].
    change (a :: b :: c :: r) with ([a; b; c] ++ r) in Hm.
    apply loadn_app_inv in Hm as [Hm1 Hm2].
    rewrite (bind_peekn _ _ _ _ _ _ Hm1).
    rewrite text_app_cons, zlen_app, text3, zlen_map, zlen_sextets in Hroom, Hap.
    rewrite !bytes_ok_cons in Hb. destruct Hb as (Ha & Hbb & Hc & Hbr).
    pose proof (zlen_nonneg (rfc4648_text r)).
    destruct (storen_in_range m (dest + do_) (map b64_char (sextets (group24 a b c)))) as [m1 E1];
      [lia | rewrite zlen_map, zlen_sextets; lia |].
    rewrite (run_bind _ _ _ _ _ (encode_triplet_ok a b c _ m m1 cu Ha Hbb Hc E1)).
    pose proof (storen_length _ _ _ _ E1) as L1.
    rewrite !zlen_cons in Hl, Hap. change (zlen [a; b; c]) with 3 in Hm2. unfold apart in *.
    destruct (IH fuel dest src srclen (so + 3) (do_ + 4) m1 cu) as (full & r' & m' & Ebs & Er & Et & El & Es);
      try lia; try done.
    + simpl in Hf. lia.
    + rewrite (loadn_storen_other _ _ _ _ _ _ E1) by (rewrite zlen_map, zlen_sextets; lia).
      rewrite <- Hm2. f_equal. lia.
    + exists (a :: b :: c :: full), r', m'. subst r. split; [done |]. split; [done |].
      assert (Ef : rfc4648_text (a :: b :: c :: full) = rfc4648_text [a; b; c] ++ rfc4648_text full) by done.
      rewrite Ef. rewrite zlen_app, text3, zlen_map, zlen_sextets.
      split; [change (map b64_char (sextets (group24 a b c)) ++ rfc4648_text (full ++ r') = (map b64_char (sextets (group24 a b c)) ++ rfc4648_text full) ++ rfc4648_text r'); by rewrite Et, app_assoc |].
      split; [rewrite El, !zlen_cons; do 3 f_equal; lia |].
      eapply storen_app; [exact E1 |]. rewrite zlen_map, zlen_sextets.
      rewrite <- Es. f_equal. lia.
Qed.

(** ** The encoder *)


Lemma encode_tail_text r dest src m cu :
  bytes_ok r -> 1 <= zlen r < 3 -> loadn m src (zlen r) = Some r -> 0 <= dest -> dest + 4 <= zlen m ->
  exists m', base64_encode_tail_using_maps base64_maps_rfc4648 dest src (zlen r) (m, cu) = Some (tt, (m', cu)) /\
    storen m dest (rfc4648_text r) = Some m'.
Proof.
  intros Hb Hr Hm Hd Hroom. unfold base64_encode_tail_using_maps.
  destruct (Z.leb_spec (zlen r) 3); [| lia].
  rewrite (bind_peekn _ _ _ _ _ _ Hm).
  assert (Z0 : is_byte 0) by (unfold is_byte; lia).
  assert (S1 : exists a b c, r ++ replicate (Z.to_nat (3 - zlen r)) 0 = [a; b; c] /\ is_byte a /\ is_byte b /\ is_byte c /\
    rfc4648_text r = take (Z.to_nat (1 + zlen r)) (map b64_char (sextets (group24 a b c))) ++ replicate (Z.to_nat (3 - zlen r)) 61).
  { destruct r as [| a [| b [| c r]]]; [exfalso; zl | | | exfalso; zl].
    - rewrite bytes_ok_cons in Hb. exists a, 0, 0. intuition.
    - rewrite !bytes_ok_cons in Hb. exists a, b, 0. intuition. }
  destruct S1 as (a & b & c & -> & Ha & Hbb & Hc & Et).
  set (cs := map b64_char (sextets (group24 a b c))) in *.
  assert (Lc : zlen cs = 4) by reflexivity.
  destruct (storen_in_range m dest cs) as [m1 E1]; [lia | lia |].
  rewrite (run_bind _ _ _ _ _ (encode_triplet_ok a b c _ m m1 cu Ha Hbb Hc E1)).
  pose proof (storen_length _ _ _ _ E1).
  destruct (storen_in_range m1 (dest + 1 + zlen r) (replicate (Z.to_nat (3 - zlen r)) 61)) as [m2 E2]; [lia | zl |].
  exists m2. split; [by apply poke_ok |].
  rewrite Et. set (k := Z.to_nat (1 + zlen r)) in *.
  rewrite <- (take_drop k cs) in E1.
  eapply (storen_over m dest (take k cs) (drop k cs) _ m1 m2 E1).
  - rewrite zlen_take, Lc. rewrite <- E2. f_equal. lia.
  - rewrite zlen_drop, Lc. zl.
Qed.

Lemma encoded_length_text bs : zlen bs + 2 < 2 ^ 64 ->
  base64_encoded_length (zlen bs) = zlen (rfc4648_text bs).
Proof.
  intros H. unfold base64_encoded_length, u64. rewrite Z.mod_small by zl. by rewrite zlen_text.
Qed.

(** The encoder writes the text and fills the rest with zeros, or fails. *)
Lemma base64_encode_run bs dest destlen src m cu :
  bytes_ok bs -> zlen bs + 2 < 2 ^ 64 -> loadn m src (zlen bs) = Some bs ->
  0 <= dest -> zlen (rfc4648_text bs) <= destlen -> dest + destlen <= zlen m ->
  apart src (zlen bs) dest destlen ->
  exists m', base64_encode dest destlen src (zlen bs) (m, cu) = Some (zlen (rfc4648_text bs), (m', cu)) /\
    storen m dest (rfc4648_text bs ++ replicate (Z.to_nat (destlen - zlen (rfc4648_text bs))) 0) = Some m'.
Proof.
  intros Hb Hl Hm Hd Hdl Hroom Hap. unfold base64_encode, base64_encode_using_maps.
  rewrite encoded_length_text by done.
  destruct (Z.ltb_spec destlen (zlen (rfc4648_text bs))); [lia |].
  destruct (encode_loop_text bs (S (Z.to_nat (zlen bs))) dest src (zlen bs) 0 0 m cu)
    as (full & r & m1 & Ebs & Hr & Et & El & Es); try done; unfold apart in *; try lia;
    try (rewrite ?Z.add_0_r; done || lia).
  { rewrite to_nat_zlen. lia. }
  rewrite (run_bind _ _ _ _ _ El). cbn [fst snd]. rewrite !Z.add_0_l.
  rewrite Z.add_0_r in Es. pose proof (storen_length _ _ _ _ Es) as L1.
  pose proof (storen_range _ _ _ _ Es).
  assert (Hz : forall m2, storen m1 (dest + zlen (rfc4648_text full)) (rfc4648_text r) = Some m2 ->
    exists m', (do* poke (dest + zlen (rfc4648_text bs)) (replicate (Z.to_nat (destlen - zlen (rfc4648_text bs))) 0) in
         ret (zlen (rfc4648_text bs))) (m2, cu) = Some (zlen (rfc4648_text bs), (m', cu)) /\
    storen m dest (rfc4648_text bs ++ replicate (Z.to_nat (destlen - zlen (rfc4648_text bs))) 0) = Some m').
  { intros m2 E2. pose proof (storen_length _ _ _ _ E2).
    pose proof (zlen_nonneg (rfc4648_text bs)).
    destruct (storen_in_range m2 (dest + zlen (rfc4648_text bs)) (replicate (Z.to_nat (destlen - zlen (rfc4648_text bs))) 0)) as [m3 E3];
      [lia | zl |].
    exists m3. rewrite (run_bind _ _ _ _ _ (poke_ok _ _ _ _ cu E3)). split; [done |].
    eapply storen_app; [| exact E3]. rewrite Et. eapply storen_app; eassumption. }
  assert (Zb : zlen bs = zlen full + zlen r) by (subst bs; zl).
  assert (Zt : zlen (rfc4648_text bs) = zlen (rfc4648_text full) + zlen (rfc4648_text r)) by (rewrite Et; zl).
  pose proof (zlen_nonneg full). pose proof (zlen_nonneg (rfc4648_text full)).
  destruct (Z.ltb_spec (zlen full) (zlen bs)).
  - assert (T4 : zlen (rfc4648_text r) = 4).
    { destruct r as [| a [| b [| c r]]]; try reflexivity; exfalso; zl. }
    destruct (encode_tail_text r (dest + zlen (rfc4648_text full)) (src + zlen full) m1 cu) as (m2 & E2 & Es2); try lia.
    + subst bs. apply List.Forall_app in Hb. apply Hb.
    + subst bs. pose proof (loadn_app_inv _ _ _ _ Hm) as [_ Hm2].
      rewrite (loadn_storen_other _ _ _ _ _ _ Es) by lia. done.
    + replace (zlen bs - zlen full) with (zlen r) by lia.
      rewrite bind_bind. rewrite (run_bind _ _ _ _ _ E2), run_ret.
      rewrite <- T4, <- Zt. by apply Hz.
  - assert (r = []) as -> by (destruct r; [done | exfalso; zl]).
    rewrite run_ret. change (zlen (rfc4648_text [])) with 0 in Zt. rewrite Z.add_0_r in Zt. rewrite <- Zt. apply Hz.
    apply storen_nil. rewrite <- Zt in *. zl.
Qed.

(** ** The decoder *)

(** Everything but the last group goes through the loop. *)
Lemma decode_loop_text bs : forall fuel dest src srclen i do_ m cu,
  bytes_ok bs -> (length bs < fuel)%nat -> srclen - i = zlen (rfc4648_text bs) -> 0 <= dest + do_ ->
  loadn m (src + i) (zlen (rfc4648_text bs)) = Some (rfc4648_text bs) ->
  dest + do_ + zlen bs <= zlen m ->
  apart (src + i) (zlen (rfc4648_text bs)) (dest + do_) (zlen bs) ->
  exists full r m', bs = full ++ r /\ zlen r <= 3 /\ (bs <> [] -> 1 <= zlen r) /\
    rfc4648_text bs = rfc4648_text full ++ rfc4648_text r /\
    decode_loop fuel base64_maps_rfc4648 dest src srclen i do_ (m, cu)
      = Some (Some (i + zlen (rfc4648_text full), do_ + zlen full), (m', cu)) /\
    storen m (dest + do_) full = Some m'.
Proof.
  induction bs as [r Hr | a b c r IH] using triples_ind;
    intros fuel dest src srclen i do_ m cu Hb Hf Hl Hd Hm Hroom Hap;
    (destruct fuel as [| fuel]; [lia |]); cbn [decode_loop].
  - exists [], r, m. assert (zlen (rfc4648_text r) <= 4).
    { destruct r as [| a [| b [| c r]]]; try (unfold zlen; simpl; lia); exfalso; zl. }
    destruct (Z.ltb_spec 4 (srclen - i)); [lia |].
    split; [done |]. split; [lia |]. split; [destruct r; [done | intros _; zl] |].
    split; [done |]. split; [unfold ret; do 4 f_equal; zl |]. apply storen_nil. zl.
  - destruct (decide (r = [])) as [-> | Hne].
    + exists [], [a; b; c], m. destruct (Z.ltb_spec 4 (srclen - i)).
      { change (zlen (rfc4648_text [a; b; c])) with 4 in Hl. lia. }
      split; [done |]. split; [unfold zlen; simpl; lia |]. split; [intros _; unfold zlen; simpl; lia |].
      split; [done |]. split; [unfold ret; do 4 f_equal; zl |]. apply storen_nil. zl.
    + rewrite text_app_cons, text3 in Hl, Hm, Hap.
      set (q := map b64_char (sextets (group24 a b c))) in *.
      assert (Lq : zlen q = 4) by reflexivity.
      assert (1 <= zlen (rfc4648_text r)).
      { rewrite zlen_text. assert (1 <= zlen r) by (destruct r; [done | zl]).
        Z.to_euclidean_division_equations. lia. }
      rewrite zlen_app, Lq in Hl, Hap.
      destruct (Z.ltb_spec 4 (srclen - i)); [| lia].
      apply loadn_app_inv in Hm as [Hm1 Hm2]. rewrite Lq in Hm1, Hm2.
      rewrite (bind_peekn _ _ _ _ _ _ Hm1).
      rewrite !bytes_ok_cons in Hb. destruct Hb as (Ha & Hbb & Hc & Hbr).
      rewrite !zlen_cons in Hroom, Hap. pose proof (zlen_nonneg r). unfold apart in *.
      destruct (storen_in_range m (dest + do_) [a; b; c]) as [m1 E1]; [lia | unfold zlen in *; simpl; lia |].
      rewrite (run_bind _ _ _ _ _ (decode_quartet_ok a b c _ m m1 cu Ha Hbb Hc E1)). cbv beta.
      change (0 =? -1) with false. cbv iota.
      pose proof (storen_length _ _ _ _ E1) as L1.
      destruct (IH fuel dest src srclen (i + 4) (do_ + 3) m1 cu) as (full & r' & m' & Ebs & Er & Er1 & Et & El & Es);
        try lia; try done.
      * simpl in Hf. lia.
      * rewrite (loadn_storen_other _ _ _ _ _ _ E1) by (unfold zlen in *; simpl; lia).
        rewrite <- Hm2. f_equal. lia.
      * exists (a :: b :: c :: full), r', m'. subst r. split; [done |]. split; [done |].
        split; [by intros _; apply Er1 |].
        assert (Ef : rfc4648_text (a :: b :: c :: full) = rfc4648_text [a; b; c] ++ rfc4648_text full) by done.
        rewrite Ef, text3. fold q.
        change (a :: b :: c :: full ++ r') with (a :: b :: c :: (full ++ r')).
        split; [rewrite text_app_cons, text3, Et; fold q; by rewrite app_assoc |].
        split; [rewrite El, zlen_app, !zlen_cons, Lq; do 4 f_equal; lia |].
        change (a :: b :: c :: full) with ([a; b; c] ++ full).
        eapply storen_app; [exact E1 |]. change (zlen [a; b; c]) with 3. rewrite <- Es. f_equal. lia.
Qed.

(** Padding symbols are dropped until a character that is none. *)
Lemma drop_padding_text k : forall l ch src m cu,
  loadn m src (zlen (l ++ ch :: replicate k 61)) = Some (l ++ ch :: replicate k 61) -> ch <> 61 ->
  drop_padding (length l + S k) src (m, cu) = Some (S (length l), (m, cu)).
Proof.
  assert (G : forall n l ch k src m cu, n = (length l + S k)%nat ->
    loadn m src (zlen (l ++ ch :: replicate k 61)) = Some (l ++ ch :: replicate k 61) -> ch <> 61 ->
    drop_padding n src (m, cu) = Some (S (length l), (m, cu))); [| intros; by eapply G].
  induction n as [| n IH]; intros l ch k' src m cu En Hm Hch; [lia |]. cbn [drop_padding].
  assert (Hlast : load8 m (src + Z.of_nat n) = (l ++ ch :: replicate k' 61) !! n).
  { pose proof (loadn_load8 _ _ _ _ (Z.of_nat n) Hm) as H. rewrite Nat2Z.id in H. apply H.
    unfold zlen. rewrite length_app. simpl. rewrite length_replicate. lia. }
  destruct k' as [| k'].
  - rewrite lookup_app_r in Hlast by lia. replace (n - length l)%nat with 0%nat in Hlast by lia.
    rewrite (bind_peek8 _ _ _ _ _ Hlast). destruct (Z.eqb_spec ch 61); [done |].
    unfold ret. repeat f_equal. lia.
  - assert (Elast : (l ++ ch :: replicate (S k') 61) !! n = Some 61).
    { rewrite lookup_app_r by lia. replace (n - length l)%nat with (S k') by lia.
      simpl. change (61 :: replicate k' 61) with (replicate (S k') 61).
      apply lookup_replicate_2. lia. }
    rewrite Elast in Hlast. rewrite (bind_peek8 _ _ _ _ _ Hlast). cbn [Z.eqb Pos.eqb].
    apply (IH l ch k'); [lia | | done].
    rewrite <- Nat.add_1_r, replicate_add in Hm. change (replicate 1 61) with [61] in Hm.
    change (l ++ ch :: replicate k' 61 ++ [61]) with (l ++ (ch :: replicate k' 61) ++ [61]) in Hm.
    rewrite app_assoc in Hm. by apply loadn_app_inv in Hm as [Hm _].
Qed.

(** The last group, [k] bytes short of three: the missing characters count as zero bits. *)
Lemma decode_tail_group a b c k dest src m cu :
  is_byte a -> is_byte b -> is_byte c -> (k <= 2)%nat ->
  drop (4 - k) (map b64_char (sextets (group24 a b c))) = replicate k 65 ->
  loadn m src 4 = Some (take (4 - k) (map b64_char (sextets (group24 a b c))) ++ replicate k 61) ->
  0 <= dest -> dest + 3 <= zlen m ->
  exists m', base64_decode_tail_using_maps base64_maps_rfc4648 dest src 4 (m, cu) = Some (Z.of_nat (3 - k), (m', cu)) /\
    storen m dest [a; b; c] = Some m'.
Proof.
  intros Ha Hb Hc Hk Hdrop Hm Hd Hroom.
  set (cs := map b64_char (sextets (group24 a b c))) in *.
  assert (Lc : length cs = 4%nat) by reflexivity.
  assert (Hin : cs !! (3 - k)%nat = Some (b64_char (sextet (group24 a b c) (Z.of_nat k)))).
  { destruct k as [| [| [| k]]]; [reflexivity | reflexivity | reflexivity | lia]. }
  destruct (b64_char_facts _ (sextet_range (group24 a b c) (Z.of_nat k))) as (_ & _ & _ & Hne & _).
  set (ch := b64_char (sextet (group24 a b c) (Z.of_nat k))) in *.
  assert (Etake : take (4 - k) cs = take (3 - k) cs ++ [ch]).
  { replace (4 - k)%nat with (S (3 - k)) by lia. by apply take_S_r. }
  destruct (storen_in_range m dest [a; b; c]) as [m1 E1]; [lia | change (zlen [a; b; c]) with 3; lia |].
  exists m1. split; [| done]. unfold base64_decode_tail_using_maps.
  change (Z.to_nat 4) with 4%nat.
  assert (Ln : length (take (3 - k) cs) = (3 - k)%nat) by (rewrite length_take; lia).
  pose proof (drop_padding_text k (take (3 - k) cs) ch src m cu) as D. rewrite Ln in D.
  replace (3 - k + S k)%nat with 4%nat in D by lia.
  replace (S (3 - k)) with (4 - k)%nat in D by lia.
  assert (Lt : zlen (take (4 - k) cs) = Z.of_nat (4 - k)) by (unfold zlen; rewrite length_take; lia).
  rewrite (run_bind _ _ _ _ _ (D ltac:(change (ch :: replicate k 61) with ([ch] ++ replicate k 61); rewrite app_assoc, <- Etake; rewrite <- Hm; f_equal; rewrite zlen_app, Lt, zlen_replicate; lia) Hne)).
  cbv beta zeta.
  destruct (Z.eqb_spec (Z.of_nat (4 - k)) 0); [lia |]. destruct (Z.eqb_spec (Z.of_nat (4 - k)) 1); [lia |].
  destruct (Z.ltb_spec 4 (Z.of_nat (4 - k))); [lia |].
  assert (Hp : loadn m src (Z.of_nat (4 - k)) = Some (take (4 - k) cs)).
  { assert (E4 : 4 = zlen (take (4 - k) cs ++ replicate k 61)) by (rewrite zlen_app, Lt, zlen_replicate; lia).
    rewrite E4 in Hm. apply loadn_app_inv in Hm as [Hm _]. by rewrite Lt in Hm. }
  rewrite (bind_peekn _ _ _ _ _ _ Hp).
  replace (Z.to_nat (4 - Z.of_nat (4 - k))) with k by lia.
  rewrite <- Hdrop, take_drop.
  unfold cs. rewrite (run_bind _ _ _ _ _ (decode_quartet_ok a b c _ m m1 cu Ha Hb Hc E1)). cbv beta.
  change (0 =? -1) with false. cbv iota. unfold ret. do 2 f_equal. lia.
Qed.

Lemma decode_tail_text r dest src m cu :
  bytes_ok r -> 1 <= zlen r <= 3 -> loadn m src (zlen (rfc4648_text r)) = Some (rfc4648_text r) ->
  0 <= dest -> dest + 3 <= zlen m ->
  exists m', base64_decode_tail_using_maps base64_maps_rfc4648 dest src (zlen (rfc4648_text r)) (m, cu) = Some (zlen r, (m', cu)) /\
    storen m dest (r ++ replicate (Z.to_nat (3 - zlen r)) 0) = Some m'.
Proof.
  intros Hb Hr Hm Hd Hroom. assert (Z0 : is_byte 0) by (unfold is_byte; lia).
  destruct r as [| a [| b [| c [| d r]]]]; [exfalso; zl | | | | exfalso; zl]; rewrite !bytes_ok_cons in Hb.
  - destruct Hb as [Ha _]. apply (decode_tail_group a 0 0 2 dest src m cu); try done; try lia.
    by rewrite (sextets_group a 0 0) by done.
  - destruct Hb as (Ha & Hb & _). apply (decode_tail_group a b 0 1 dest src m cu); try done; try lia.
    by rewrite (sextets_group a b 0) by done.
  - destruct Hb as (Ha & Hb & Hc & _). apply (decode_tail_group a b c 0 dest src m cu); try done; try lia.
Qed.

Lemma decoded_length_text bs : zlen bs < 2 ^ 62 ->
  base64_decoded_length (zlen (rfc4648_text bs)) = (zlen bs + 2) / 3 * 3.
Proof.
  intros H. unfold base64_decoded_length, u64. rewrite zlen_text. pose proof (zlen_nonneg bs).
  rewrite Z.mod_small by (Z.to_euclidean_division_equations; lia).
  f_equal. Z.to_euclidean_division_equations. lia.
Qed.

(** The decoder recovers the bytes and fills the rest with zeros. *)
Lemma base64_decode_run bs dest destlen src m cu :
  bytes_ok bs -> zlen bs < 2 ^ 62 ->
  loadn m src (zlen (rfc4648_text bs)) = Some (rfc4648_text bs) ->
  0 <= dest -> (zlen bs + 2) / 3 * 3 <= destlen -> dest + destlen <= zlen m ->
  apart src (zlen (rfc4648_text bs)) dest destlen ->
  exists m', base64_decode dest destlen src (zlen (rfc4648_text bs)) (m, cu) = Some (zlen bs, (m', cu)) /\
    storen m dest (bs ++ replicate (Z.to_nat (destlen - zlen bs)) 0) = Some m'.
Proof.
  intros Hb Hl Hm Hd Hdl Hroom Hap. unfold base64_decode, base64_decode_using_maps.
  rewrite decoded_length_text by done. pose proof (zlen_nonneg bs).
  assert (Hbd : zlen bs <= (zlen bs + 2) / 3 * 3) by (Z.to_euclidean_division_equations; lia).
  assert (Hfit : zlen bs <= zlen (rfc4648_text bs)) by (rewrite zlen_text; Z.to_euclidean_division_equations; lia).
  destruct (Z.ltb_spec destlen ((zlen bs + 2) / 3 * 3)); [lia |].
  destruct (decode_loop_text bs (S (Z.to_nat (zlen (rfc4648_text bs)))) dest src (zlen (rfc4648_text bs)) 0 0 m cu)
    as (full & r & m1 & Ebs & Hr & Hr1 & Et & El & Es); try done; unfold apart in *; try lia;
    try (rewrite ?Z.add_0_r; done || lia).
  { rewrite to_nat_zlen. unfold zlen in Hfit. lia. }
  rewrite (run_bind _ _ _ _ _ El). cbv beta iota. rewrite !Z.add_0_l.
  rewrite Z.add_0_r in Es. pose proof (storen_length _ _ _ _ Es) as L1.
  pose proof (storen_range _ _ _ _ Es).
  pose proof (zlen_nonneg full). pose proof (zlen_nonneg (rfc4648_text full)). pose proof (zlen_nonneg r).
  assert (Zb : zlen bs = zlen full + zlen r) by (subst bs; zl).
  assert (Zt : zlen (rfc4648_text bs) = zlen (rfc4648_text full) + zlen (rfc4648_text r)) by (rewrite Et; zl).
  replace (zlen (rfc4648_text bs) - zlen (rfc4648_text full)) with (zlen (rfc4648_text r)) by lia.
  assert (T : exists m2 y, base64_decode_tail_using_maps base64_maps_rfc4648 (dest + zlen full) (src + zlen (rfc4648_text full))
      (zlen (rfc4648_text r)) (m1, cu) = Some (zlen r, (m2, cu)) /\
    storen m1 (dest + zlen full) (r ++ y) = Some m2 /\ zlen full + zlen r + zlen y <= destlen).
  { destruct (decide (bs = [])) as [Enil | Hne].
    - assert (full = [] /\ r = []) as [-> ->] by (rewrite Enil in Ebs; symmetry in Ebs; by apply app_eq_nil in Ebs).
      exists m1, []. split; [done |]. split; [apply storen_nil; zl |]. cbn. unfold zlen. simpl. lia.
    - specialize (Hr1 Hne).
      assert (T4 : zlen (rfc4648_text r) = 4) by (rewrite zlen_text; Z.to_euclidean_division_equations; lia).
      assert (F3 : zlen (rfc4648_text bs) = (zlen bs + 2) / 3 * 4) by apply zlen_text.
      assert (F4 : zlen (rfc4648_text full) = (zlen full + 2) / 3 * 4) by apply zlen_text.
      destruct (decode_tail_text r (dest + zlen full) (src + zlen (rfc4648_text full)) m1 cu) as (m2 & E2 & Es2); try lia.
      + subst bs. apply List.Forall_app in Hb. apply Hb.
      + rewrite Et in Hm. apply loadn_app_inv in Hm as [_ Hm].
        rewrite (loadn_storen_other _ _ _ _ _ _ Es) by lia. done.
      + Z.to_euclidean_division_equations. lia.
      + exists m2, (replicate (Z.to_nat (3 - zlen r)) 0). split; [done |]. split; [done |].
        rewrite zlen_replicate. Z.to_euclidean_division_equations. lia. }
  destruct T as (m2 & y & E2 & Es2 & Hy). rewrite (run_bind _ _ _ _ _ E2). cbv beta.
  destruct (Z.eqb_spec (zlen r) (-1)); [lia |]. cbv zeta. rewrite <- Zb.
  pose proof (storen_length _ _ _ _ Es2). pose proof (zlen_nonneg y).
  destruct (storen_in_range m2 (dest + zlen bs) (replicate (Z.to_nat (destlen - zlen bs)) 0)) as [m3 E3]; [lia | zl |].
  exists m3. rewrite (run_bind _ _ _ _ _ (poke_ok _ _ _ _ cu E3)). split; [done |].
  pose proof (storen_app _ _ _ _ _ _ Es Es2) as A. rewrite app_assoc, <- Ebs in A.
  eapply storen_over; [exact A | exact E3 |]. rewrite zlen_replicate. lia.
Qed.

(** The pregenerated maps are the ones [base64_init_maps] computes. *)
Lemma rfc4648_maps_generated :
  base64_init_maps (encode_map base64_maps_rfc4648) = base64_maps_rfc4648.
Proof. vm_compute. reflexivity. Qed.

(** * Properties *)

(** C37: base64 is RFC 4648 and reversible: given room, [base64_encode] writes the
    text the standard prescribes and fills the destination with zeros; decoding
    that text into any region apart from it with room for its groups returns the
    number of bytes, and the region holds the bytes and then zeros; a
    destination one byte short of the text is refused before anything is written. *)
Theorem base64_roundtrip bs dest destlen src m cu dest2 destlen2
  (Hb : bytes_ok bs) (Hl : zlen bs < 2 ^ 62) (Hm : loadn m src (zlen bs) = Some bs)
  (Hd : 0 <= dest) (Hroom : dest + destlen <= zlen m) (Hap : apart src (zlen bs) dest destlen)
  (Hd2 : 0 <= dest2) (Hroom2 : dest2 + destlen2 <= zlen m)
  (Hdl2 : (zlen bs + 2) / 3 * 3 <= destlen2) (Hap2 : apart dest destlen dest2 destlen2) :
  let text := rfc4648_text bs in
  if destlen <? zlen text then base64_encode dest destlen src (zlen bs) (m, cu) = Some (-1, (m, cu))
  else exists m1 m2,
    base64_encode dest destlen src (zlen bs) (m, cu) = Some (zlen text, (m1, cu)) /\
    storen m dest (text ++ replicate (Z.to_nat (destlen - zlen text)) 0) = Some m1 /\
    base64_decode dest2 destlen2 dest (zlen text) (m1, cu) = Some (zlen bs, (m2, cu)) /\
    storen m1 dest2 (bs ++ replicate (Z.to_nat (destlen2 - zlen bs)) 0) = Some m2.
Proof.
  cbv zeta. destruct (Z.ltb_spec destlen (zlen (rfc4648_text bs))) as [Hlt | Hge].
  - unfold base64_encode, base64_encode_using_maps. rewrite encoded_length_text by lia.
    by destruct (Z.ltb_spec destlen (zlen (rfc4648_text bs))); [| lia].
  - destruct (base64_encode_run bs dest destlen src m cu) as (m1 & E1 & S1); try done; try lia.
    exists m1. pose proof (storen_length _ _ _ _ S1).
    pose proof (loadn_storen_same _ _ _ _ S1) as Hm1. apply loadn_app_inv in Hm1 as [Hm1 _].
    pose proof (zlen_nonneg (rfc4648_text bs)).
    destruct (base64_decode_run bs dest2 destlen2 dest m1 cu) as (m2 & E2 & S2); try done; unfold apart in *; try lia.
    by exists m2.
Qed.

Lemma base64_roundtrip_witness :
  let bs := [102; 111; 111; 98] in
  let m := bs ++ replicate 20 7 in
  exists m1 m2,
    base64_encode 4 10 0 4 (m, make_cursor 0 24) = Some (8, (m1, make_cursor 0 24)) /\
    storen m 4 ([90; 109; 57; 118; 89; 103; 61; 61] ++ [0; 0]) = Some m1 /\
    base64_decode 14 7 4 8 (m1, make_cursor 0 24) = Some (4, (m2, make_cursor 0 24)) /\
    storen m1 14 (bs ++ [0; 0; 0]) = Some m2.
Proof.
  assert (Hb : bytes_ok [102; 111; 111; 98]) by (apply bytes_ok_dec; reflexivity).
  exact (base64_roundtrip [102; 111; 111; 98] 4 10 0 ([102; 111; 111; 98] ++ replicate 20 7) (make_cursor 0 24) 14 7
    Hb ltac:(vm_compute; reflexivity) ltac:(reflexivity) ltac:(lia) ltac:(vm_compute; discriminate)
    ltac:(left; vm_compute; discriminate) ltac:(lia) ltac:(vm_compute; discriminate)
    ltac:(vm_compute; discriminate) ltac:(left; lia)).
Defined.
