(* ===== verification/Hmac.v ===== *)
(** * HMAC and HKDF over SHA-256 (src/src/hmac_sha256.c, src/src/hkdf_sha256.c)

    SHA-256 is vendored: a function from bytes to 32 bytes, and a hashing context
    is the bytes it has been given.  [rfc2104] and [rfc5869] are the definitions
    of the standards; the code computes them, with its key pad kept as eight
    64-bit words. *)

From S2P Require Import Prelude Cursor.

(** ** Key pads *)

Definition HMAC_SHA256_BLOCKSIZE : Z := 64.
Definition IPAD : Z := 0x3636363636363636.
Definition OPAD : Z := 0x5C5C5C5C5C5C5C5C.

(** The words of the block in turn. *)
Fixpoint xor_block (n : nat) (block : list Z) (pad : Z) : list Z :=
  match n with
  | O => []
  | S n => le_bytes 8 (Z.lxor (le_int (take 8 block)) pad) ++ xor_block n (drop 8 block) pad
  end.

(** ** Computing *)

Section Hmac.
Context (sha256 : list Z -> list Z).

Record hmac_sha256_ctx := mk_hmac { ctx_sha : list Z; k_opad : list Z }.

Definition hmac_sha256_init (k : list Z) : hmac_sha256_ctx :=
  let k := if HMAC_SHA256_BLOCKSIZE <? zlen k then sha256 k else k in
  let k_ipad := k ++ replicate (Z.to_nat (HMAC_SHA256_BLOCKSIZE - zlen k)) 0 in
  let k_ipad := xor_block 8 k_ipad IPAD in
  mk_hmac k_ipad (xor_block 8 k_ipad (Z.lxor IPAD OPAD)).

Definition hmac_sha256_update (ctx : hmac_sha256_ctx) (p : list Z) : hmac_sha256_ctx :=
  mk_hmac (ctx_sha ctx ++ p) (k_opad ctx).

Definition hmac_sha256_done (ctx : hmac_sha256_ctx) : list Z :=
  let inner := sha256 (ctx_sha ctx) in
  sha256 (k_opad ctx ++ inner).

Definition hmac_sha256 (k d : list Z) : list Z :=
  let ctx := hmac_sha256_init k in
  let ctx := hmac_sha256_update ctx d in
  hmac_sha256_done ctx.

(** What is left of the output: [t] is the block last computed, [c] its number. *)
Fixpoint hkdf_loop (fuel : nat) (okm_size : Z) (prk info t : list Z) (c : Z) : option (list Z) :=
  match fuel with
  | O => None
  | S fuel =>
      if 32 <? okm_size then
        let c := u8 (c + 1) in
        let ctx := hmac_sha256_init prk in
        let ctx := hmac_sha256_update ctx t in
        let ctx := hmac_sha256_update ctx info in
        let ctx := hmac_sha256_update ctx [c] in
        rest ← hkdf_loop fuel (okm_size - 32) prk info (hmac_sha256_done ctx) c;
        Some (t ++ rest)
      else Some (take (Z.to_nat okm_size) t)
  end.

(** The assertion on the size fails as undefined behaviour. *)
Definition hkdf_expand (okm_size : Z) (prk info : list Z) : option (list Z) :=
  if okm_size <? 255 * 32 then
    let c := 1 in
    let ctx := hmac_sha256_init prk in
    let ctx := hmac_sha256_update ctx info in
    let ctx := hmac_sha256_update ctx [c] in
    hkdf_loop (S (Z.to_nat okm_size)) okm_size prk info (hmac_sha256_done ctx) c
  else None.

Definition hkdf_sha256 (okm_size : Z) (s k info : list Z) : option (list Z) :=
  let prk := hmac_sha256 s k in
  hkdf_expand okm_size prk info.

(** ** The standards *)

Definition block_key (k : list Z) : list Z :=
  let k := if 64 <? zlen k then sha256 k else k in k ++ replicate (Z.to_nat (64 - zlen k)) 0.

(** H(K xor opad, H(K xor ipad, text)). *)
Definition rfc2104 (k text : list Z) : list Z :=
  sha256 (map (Z.lxor 0x5c) (block_key k) ++ sha256 (map (Z.lxor 0x36) (block_key k) ++ text)).

(** T(0) is empty, T(i) = HMAC(PRK, T(i-1) | info | i); the output is the first
    octets of T(1) | T(2) | ... | T(N). *)
Fixpoint hkdf_T (prk info : list Z) (i : nat) : list Z :=
  match i with
  | O => []
  | S j => rfc2104 prk (hkdf_T prk info j ++ info ++ [Z.of_nat i])
  end.

Definition rfc5869_expand (okm_size : Z) (prk info : list Z) : list Z :=
  take (Z.to_nat okm_size)
    (concat (map (hkdf_T prk info) (seq 1 (Z.to_nat ((okm_size + 31) / 32))))).

(** * Lemmas *)

Lemma lxor_byte b p : is_byte b -> is_byte p -> is_byte (Z.lxor b p).
Proof.
  clear sha256. unfold is_byte. intros Hb Hp.
  assert (Hlog : forall z, 0 <= z < 256 -> Z.log2 z < 8).
  { intros z Hz. destruct (Z.eq_dec z 0) as [-> | Hz0]; [reflexivity |].
    apply Z.log2_lt_pow2; [lia | exact (proj2 Hz)]. }
  assert (0 <= Z.lxor b p) by (apply Z.lxor_nonneg; lia). split; [done |].
  destruct (Z.eq_dec (Z.lxor b p) 0) as [-> | Hn]; [lia |].
  apply (Z.log2_lt_pow2 _ 8); [lia |].
  pose proof (Z.log2_lxor b p ltac:(lia) ltac:(lia)). pose proof (Hlog b Hb). pose proof (Hlog p Hp). lia.
Qed.

Lemma lxor_digits b p x y : 0 <= b < 256 -> 0 <= p < 256 ->
  Z.lxor (b + 256 * x) (p + 256 * y) = Z.lxor b p + 256 * Z.lxor x y.
Proof.
  clear sha256. intros Hb Hp.
  pose proof (lxor_byte b p Hb Hp) as Hx.
  assert (E : forall a z, 0 <= a < 256 -> a + 256 * z = Z.lor a (Z.shiftl z 8)).
  { intros a z Ha. rewrite lor_shiftl_add by lia. lia. }
  rewrite (E b x Hb), (E p y Hp), (E _ _ Hx).
  assert (Hhi : forall a i, 0 <= a < 256 -> 8 <= i -> Z.testbit a i = false).
  { intros a i Ha Hi. destruct (Z.eq_dec a 0) as [-> |]; [apply Z.bits_0 |].
    apply Z.bits_above_log2; [lia |]. apply Z.log2_lt_pow2; [lia |].
    apply Z.lt_le_trans with (2 ^ 8); [lia |]. apply Z.pow_le_mono_r; lia. }
  apply Z.bits_inj'. intros i Hi. rewrite Z.lxor_spec, !Z.lor_spec, Z.lxor_spec.
  destruct (Z.lt_ge_cases i 8).
  - rewrite !Z.shiftl_spec_low by lia. by rewrite !orb_false_r.
  - rewrite !Z.shiftl_spec_high by lia. rewrite (Hhi b), (Hhi p) by lia. by rewrite Z.lxor_spec.
Qed.

(** A word with the same byte eight times is xored byte by byte. *)
Lemma xor_word p : is_byte p -> forall bs, bytes_ok bs ->
  Z.lxor (le_int bs) (le_int (replicate (length bs) p)) = le_int (map (Z.lxor p) bs).
Proof.
  clear sha256. intros Hp. induction 1 as [| b bs Hb _ IH]; [done |].
  change (le_int (b :: bs)) with (b + 256 * le_int bs).
  change (le_int (replicate (length (b :: bs)) p)) with (p + 256 * le_int (replicate (length bs) p)).
  rewrite lxor_digits by done. rewrite IH, (Z.lxor_comm b p). done.
Qed.

Lemma map_lxor_ok p l : is_byte p -> bytes_ok l -> bytes_ok (map (Z.lxor p) l).
Proof.
  clear sha256. intros Hp. induction 1 as [| b l Hb _ IH]; constructor; [| done].
  by apply lxor_byte.
Qed.

Lemma xor_block_bytes n p : is_byte p -> forall block, bytes_ok block -> length block = (8 * n)%nat ->
  xor_block n block (le_int (replicate 8 p)) = map (Z.lxor p) block.
Proof.
  clear sha256. intros Hp. induction n as [| n IH]; intros block Hb Hl.
  - destruct block; [done | simpl in Hl; lia].
  - cbn [xor_block].
    assert (Hb8 : bytes_ok (take 8 block)) by (apply Forall_take; done).
    assert (L8 : length (take 8 block) = 8%nat) by (rewrite length_take; lia).
    pose proof (xor_word p Hp _ Hb8) as W. rewrite L8 in W. rewrite W.
    pose proof (le_bytes_le_int _ (map_lxor_ok p _ Hp Hb8)) as R. rewrite length_map, L8 in R. rewrite R.
    rewrite IH; [| apply Forall_drop; done | rewrite length_drop; lia].
    by rewrite <- map_app, take_drop.
Qed.

Lemma pads : IPAD = le_int (replicate 8 0x36) /\ Z.lxor IPAD OPAD = le_int (replicate 8 (Z.lxor 0x36 0x5c)).
Proof. split; reflexivity. Qed.

(** The two pads cancel to the other one. *)
Lemma repad l : map (Z.lxor (Z.lxor 0x36 0x5c)) (map (Z.lxor 0x36) l) = map (Z.lxor 0x5c) l.
Proof.
  clear sha256. rewrite map_map. apply map_ext. intros b.
  rewrite (Z.lxor_comm 0x36 0x5c), Z.lxor_assoc, <- (Z.lxor_assoc 0x36 0x36), Z.lxor_nilpotent. done.
Qed.

(** ** The code computes the standards *)

Context (sha256_len : forall l, zlen (sha256 l) = 32) (sha256_ok : forall l, bytes_ok (sha256 l)).

Lemma block_key_facts k : bytes_ok k -> bytes_ok (block_key k) /\ length (block_key k) = 64%nat.
Proof using sha256_len sha256_ok.
  intros Hk. unfold block_key.
  assert (G : forall k, bytes_ok k -> zlen k <= 64 -> let p := k ++ replicate (Z.to_nat (64 - zlen k)) 0 in
    bytes_ok p /\ length p = 64%nat).
  { clear. intros k Hk Hl. split.
    - apply List.Forall_app. split; [done |]. apply Forall_replicate. unfold is_byte. lia.
    - rewrite length_app, length_replicate. unfold zlen in *. lia. }
  destruct (Z.ltb_spec 64 (zlen k)).
  - apply G; [apply sha256_ok | rewrite sha256_len; lia].
  - by apply G.
Qed.

Lemma hmac_init_ctx k : bytes_ok k ->
  hmac_sha256_init k = mk_hmac (map (Z.lxor 0x36) (block_key k)) (map (Z.lxor 0x5c) (block_key k)).
Proof using sha256_len sha256_ok.
  intros Hk. destruct (block_key_facts k Hk) as [Hb Hl]. unfold hmac_sha256_init.
  change HMAC_SHA256_BLOCKSIZE with 64. fold (block_key k). destruct pads as [E1 E2].
  change (let k := if 64 <? zlen k then sha256 k else k in k ++ replicate (Z.to_nat (64 - zlen k)) 0) with (block_key k).
  cbv zeta. fold (block_key k).
  rewrite E2, E1. rewrite xor_block_bytes by (done || unfold is_byte; lia).
  rewrite xor_block_bytes; [by rewrite repad | | by apply map_lxor_ok | by rewrite length_map].
  by apply (lxor_byte 0x36 0x5c).
Qed.

Lemma hmac_rfc2104 k d : bytes_ok k -> hmac_sha256 k d = rfc2104 k d.
Proof using sha256_len sha256_ok.
  intros Hk. unfold hmac_sha256. rewrite hmac_init_ctx by done. reflexivity.
Qed.

Lemma rfc2104_len k d : zlen (rfc2104 k d) = 32.
Proof using sha256_len. apply sha256_len. Qed.

(** One block of HKDF as the code computes it, from the previous one. *)
Lemma hkdf_block prk info t c : bytes_ok prk ->
  hmac_sha256_done (hmac_sha256_update (hmac_sha256_update (hmac_sha256_update (hmac_sha256_init prk) t) info) [c])
  = rfc2104 prk (t ++ info ++ [c]).
Proof using sha256_len sha256_ok.
  intros Hk. rewrite hmac_init_ctx by done. unfold hmac_sha256_update, hmac_sha256_done, rfc2104. cbn [ctx_sha k_opad].
  by rewrite <- !app_assoc.
Qed.

Lemma hkdf_T_S prk info i : hkdf_T prk info (S i) = rfc2104 prk (hkdf_T prk info i ++ info ++ [Z.of_nat (S i)]).
Proof. reflexivity. Qed.

Lemma hkdf_loop_T prk info : bytes_ok prk -> forall fuel i L,
  (Z.to_nat L < fuel)%nat -> 0 <= L -> Z.of_nat (S i) + (L + 31) / 32 <= 256 ->
  hkdf_loop fuel L prk info (hkdf_T prk info (S i)) (Z.of_nat (S i))
  = Some (take (Z.to_nat L) (concat (map (hkdf_T prk info) (seq (S i) (Z.to_nat ((L + 31) / 32)))))).
Proof using sha256_len sha256_ok.
  intros Hk. induction fuel as [| fuel IH]; intros i L Hf HL Hi; [lia |].
  cbn [hkdf_loop].
  assert (LT : zlen (hkdf_T prk info (S i)) = 32) by (rewrite hkdf_T_S; apply rfc2104_len).
  destruct (Z.ltb_spec 32 L).
  - assert (E : (L + 31) / 32 = 1 + (L - 32 + 31) / 32).
    { replace (L + 31) with (L - 32 + 31 + 1 * 32) by lia. rewrite Z.div_add by lia. lia. }
    assert (0 <= (L - 32 + 31) / 32) by (apply Z.div_pos; lia).
    assert (1 <= (L - 32 + 31) / 32) by (Z.to_euclidean_division_equations; lia).
    assert (Ec : u8 (Z.of_nat (S i) + 1) = Z.of_nat (S (S i))).
    { unfold u8. rewrite Z.mod_small by (change (2 ^ 8) with 256; lia). lia. }
    cbv zeta. rewrite Ec, hkdf_block by done. rewrite <- hkdf_T_S.
    rewrite (IH (S i) (L - 32)) by lia. cbn [mbind option_bind]. f_equal.
    rewrite E. replace (Z.to_nat (1 + (L - 32 + 31) / 32)) with (S (Z.to_nat ((L - 32 + 31) / 32))) by lia.
    cbn [seq map concat]. rewrite take_app. f_equal.
    + rewrite take_ge; [done |]. unfold zlen in LT. lia.
    + f_equal. unfold zlen in LT. lia.
  - f_equal. destruct (Z.eq_dec L 0) as [-> | Hn]; [reflexivity |].
    replace ((L + 31) / 32) with 1 by (Z.to_euclidean_division_equations; lia).
    change (Z.to_nat 1) with 1%nat. cbn [seq map concat]. by rewrite app_nil_r.
Qed.

Lemma hkdf_expand_run L prk info : bytes_ok prk -> 0 <= L < 255 * 32 ->
  hkdf_expand L prk info = Some (rfc5869_expand L prk info).
Proof using sha256_len sha256_ok.
  intros Hk HL. unfold hkdf_expand, rfc5869_expand. destruct (Z.ltb_spec L (255 * 32)); [| lia].
  cbv zeta.
  assert (E : hmac_sha256_done (hmac_sha256_update (hmac_sha256_update (hmac_sha256_init prk) info) [1]) = hkdf_T prk info 1).
  { change (hkdf_T prk info 1) with (rfc2104 prk ([] ++ info ++ [1])). rewrite <- hkdf_block by done.
    unfold hmac_sha256_update. cbn [ctx_sha k_opad]. by rewrite app_nil_r. }
  rewrite E. apply (hkdf_loop_T prk info Hk (S (Z.to_nat L)) 0 L); [lia | lia |].
  Z.to_euclidean_division_equations. lia.
Qed.

Lemma rfc5869_len L prk info : 0 <= L -> zlen (rfc5869_expand L prk info) = L.
Proof using sha256_len.
  intros HL. unfold rfc5869_expand.
  assert (G : forall n i, (0 < i)%nat -> zlen (concat (map (hkdf_T prk info) (seq i n))) = 32 * Z.of_nat n).
  { induction n as [| n IH]; intros i Hi; [done |]. cbn [seq map concat]. rewrite zlen_app, IH by lia.
    destruct i as [| i]; [lia |]. rewrite hkdf_T_S, rfc2104_len. lia. }
  rewrite zlen_take, G by lia. Z.to_euclidean_division_equations. lia.
Qed.

Lemma rfc5869_ok L prk info : bytes_ok (rfc5869_expand L prk info).
Proof using sha256_ok.
  apply Forall_take. generalize (Z.to_nat ((L + 31) / 32)) as n.
  assert (G : forall n i, bytes_ok (concat (map (hkdf_T prk info) (seq i n)))).
  { induction n as [| n IH]; intros i; [constructor |]. cbn [seq map concat]. apply List.Forall_app.
    split; [destruct i; [constructor | apply sha256_ok] | apply IH]. }
  intros n. apply G.
Qed.

(** * Properties *)

(** C38: key derivation is the standards': HMAC is that of RFC 2104, keys longer
    than a block hashed first, and [hkdf_sha256] gives as many octets as it is
    asked for, if they are fewer than 255 blocks, of the sequence of blocks RFC
    5869 defines over the extracted key; asked for 255 blocks, which the RFC
    still allows, or more, it fails its assertion. *)
Theorem hkdf_is_rfc5869 L salt ikm info (Hs : bytes_ok salt) (HL : 0 <= L) :
  hmac_sha256 salt ikm = rfc2104 salt ikm /\
  hkdf_sha256 L salt ikm info
    = (if L <? 255 * 32 then Some (rfc5869_expand L (rfc2104 salt ikm) info) else None) /\
  zlen (rfc5869_expand L (rfc2104 salt ikm) info) = L.
Proof using sha256_len sha256_ok.
  split; [by apply hmac_rfc2104 |]. split; [| by apply rfc5869_len].
  unfold hkdf_sha256. cbv zeta. rewrite hmac_rfc2104 by done.
  destruct (Z.ltb_spec L (255 * 32)).
  - apply hkdf_expand_run; [apply sha256_ok | lia].
  - unfold hkdf_expand. by destruct (Z.ltb_spec L (255 * 32)); [lia |].
Qed.
End Hmac.

(** A function with the shape of a hash: 32 bytes from a running sum. *)
Definition demo_hash (l : list Z) : list Z :=
  let s := fold_left (fun a b => (a * 131 + b) mod 65521) l 7 in le_bytes 32 s.

Lemma demo_hash_len l : zlen (demo_hash l) = 32.
Proof. apply zlen_le_bytes. Qed.

Lemma demo_hash_ok l : bytes_ok (demo_hash l).
Proof. apply le_bytes_ok. Qed.

Lemma hkdf_is_rfc5869_witness :
  hkdf_sha256 demo_hash 76 (replicate 70 9) [1; 2; 3] [5; 6]
    = Some (rfc5869_expand demo_hash 76 (rfc2104 demo_hash (replicate 70 9) [1; 2; 3]) [5; 6]).
Proof.
  exact (proj1 (proj2 (hkdf_is_rfc5869 demo_hash demo_hash_len demo_hash_ok 76 (replicate 70 9) [1; 2; 3] [5; 6]
    ltac:(apply bytes_ok_dec; reflexivity) ltac:(lia)))).
Defined.
