(* ===== verification/Nip44.v ===== *)
(** * NIP-44 payloads (src/src/nip44.c, src/src/nip44.h)

    A plaintext is padded behind its length, encrypted with ChaCha20, and
    authenticated; version, nonce, ciphertext and MAC go out as base64.  The keys
    of a message are expanded from a conversation key, which is either given or
    extracted from an ECDH secret.  SHA-256, ChaCha20 and secp256k1 are vendored:
    arguments of the functions. *)

From Stdlib Require Import String.
From S2P Require Import Prelude Cursor Base64 Hmac.

(** ** Results *)

(** [NIP44_OK] is the right of a sum, with what the function returns through pointers. *)
Inductive ndb_decrypt_result :=
  | NIP44_ERR_UNSUPPORTED_ENCODING
  | NIP44_ERR_INVALID_PAYLOAD
  | NIP44_ERR_BASE64_DECODE
  | NIP44_ERR_SECKEY_VERIFY_FAILED
  | NIP44_ERR_PUBKEY_PARSE_FAILED
  | NIP44_ERR_ECDH_FAILED
  | NIP44_ERR_FILL_RANDOM_FAILED
  | NIP44_ERR_INVALID_MAC
  | NIP44_ERR_INVALID_PADDING
  | NIP44_ERR_BUFFER_TOO_SMALL.

Abbreviation result A := (ndb_decrypt_result + A)%type (only parsing).

#[export] Instance result_eq_dec : EqDecision ndb_decrypt_result.
Proof. solve_decision. Defined.

Definition nip44_err_msg {A} (res : ndb_decrypt_result + A) : string :=
  match res with
  | inr _ => "ok"
  | inl NIP44_ERR_FILL_RANDOM_FAILED => "fill random failed"
  | inl NIP44_ERR_INVALID_MAC => "invalid mac"
  | inl NIP44_ERR_SECKEY_VERIFY_FAILED => "seckey verify failed"
  | inl NIP44_ERR_PUBKEY_PARSE_FAILED => "pubkey parse failed"
  | inl NIP44_ERR_ECDH_FAILED => "ecdh failed"
  | inl NIP44_ERR_INVALID_PAYLOAD => "invalid payload"
  | inl NIP44_ERR_UNSUPPORTED_ENCODING => "unsupported encoding"
  | inl NIP44_ERR_BASE64_DECODE => "error during base64 decoding"
  | inl NIP44_ERR_INVALID_PADDING => "invalid padding"
  | inl NIP44_ERR_BUFFER_TOO_SMALL => "buffer too small"
  end%string.

Record nip44_payload := mk_payload {
  p_version : Z; p_nonce : Z; p_ciphertext : Z; p_ciphertext_len : Z; p_mac : Z
}.

Record message_keys := mk_keys { mk_key : list Z; mk_nonce : list Z; mk_auth : list Z }.

(** The 76 bytes of the structure. *)
Definition slice_keys (okm : list Z) : message_keys :=
  mk_keys (take 32 okm) (take 12 (drop 32 okm)) (take 32 (drop 44 okm)).

(** A function with a cursor of its own. *)
Definition on_cursor {A} (c : cursor) (w : CM A) : CM A :=
  fun '(m, outer) =>
    match w (m, c) with
    | None => None
    | Some (a, (m', _)) => Some (a, (m', outer))
    end.

(** ** Big-endian 16-bit integers *)

Definition bswap_16 (val : Z) : Z :=
  u16 (Z.lor (Z.shiftl (Z.land (u16 val) 0x00ff) 8) (Z.shiftr (Z.land (u16 val) 0xff00) 8)).

Definition cursor_pull_b16 : CM (option Z) :=
  let* s := cursor_pull_u16 in ret (option_map bswap_16 s).

Definition cursor_push_b16 (s : Z) : CM bool := cursor_push_u16 (bswap_16 s).

(** ** Padding *)

Definition next_pow2_32 (v : Z) : Z :=
  if v <=? 1 then 1
  else
    let v := u32 (v - 1) in
    let v := Z.lor v (Z.shiftr v 1) in
    let v := Z.lor v (Z.shiftr v 2) in
    let v := Z.lor v (Z.shiftr v 4) in
    let v := Z.lor v (Z.shiftr v 8) in
    let v := Z.lor v (Z.shiftr v 16) in
    u32 (v + 1).

Definition calc_padded_len (unpadded_len : Z) : Z :=
  if unpadded_len <=? 32 then 32
  else
    let chunk := if unpadded_len <=? 256 then 32 else Z.shiftr (next_pow2_32 unpadded_len) 3 in
    let chunk := u32 (chunk - 1) in
    Z.land (u32 (unpadded_len + chunk)) (u32 (Z.lnot chunk)).

(** The unpadded length, when the padding is right. *)
Definition unpad (padded_buf len : Z) : CM (option Z) :=
  on_cursor (make_cursor padded_buf (padded_buf + len))
    (let* r := cursor_pull_b16 in
     match r with
     | None => ret None
     | Some decoded_len =>
         let decoded_end_len := decoded_len + 2 in
         let decoded_end := padded_buf + decoded_end_len in
         let* c := cur in
         if c_end c <? decoded_end then ret None
         else
           let c := mk_cursor (c_start c) (c_p c) decoded_end in
           let* capacity := on_cursor c cursor_remaining_capacity in
           let unpadded_len := u16 capacity in
           if negb (unpadded_len =? decoded_len) then ret None
           else if (decoded_len =? 0) || negb (len =? 2 + calc_padded_len decoded_len) then ret None
           else ret (Some unpadded_len)
     end).

(** ** Decoding a payload *)

Definition nip44_decode_payload (buf bufsize payload payload_len : Z) : CM (result nip44_payload) :=
  if payload_len <? 132 then ret (inl NIP44_ERR_INVALID_PAYLOAD)
  else
    let* ch := peek8 payload in
    if ch =? 35 then ret (inl NIP44_ERR_UNSUPPORTED_ENCODING)
    else
      let* decoded_len := base64_decode buf bufsize payload payload_len in
      if decoded_len =? -1 then ret (inl NIP44_ERR_BASE64_DECODE)
      else if decoded_len <? 99 then ret (inl NIP44_ERR_INVALID_PAYLOAD)
      else
        let* version := peek8 buf in
        ret (inr (mk_payload version (buf + 1) (buf + 33) (decoded_len - 65) (buf + (decoded_len - 32)))).

(** ** Keys *)

Section Nip44.
Context (sha256 : list Z -> list Z).
(** [crypto_stream_chacha20_ietf_xor_ic]: nonce, initial counter, key, message. *)
Context (chacha20_xor : list Z -> Z -> list Z -> list Z -> list Z).
Context {pubkey : Type} (seckey_verify : list Z -> bool) (pubkey_parse : list Z -> option pubkey).
(** [secp256k1_ecdh] with the callback that hashes the coordinates of the point. *)
Context (secp256k1_ecdh : pubkey -> list Z -> (list Z -> list Z -> option (list Z)) -> option (list Z)).

Definition copyx (x32 y32 : list Z) : option (list Z) := Some (take 32 x32).

Definition calculate_shared_secret (seckey pubkey : list Z) : result (list Z) :=
  let compressed_pubkey := 2 :: take 32 pubkey in
  if negb (seckey_verify seckey) then inl NIP44_ERR_SECKEY_VERIFY_FAILED
  else
    match pubkey_parse compressed_pubkey with
    | None => inl NIP44_ERR_PUBKEY_PARSE_FAILED
    | Some parsed_pubkey =>
        match secp256k1_ecdh parsed_pubkey seckey copyx with
        | None => inl NIP44_ERR_ECDH_FAILED
        | Some shared_secret => inr shared_secret
        end
    end.

Definition hmac_aad (hmac aad msg : list Z) : list Z :=
  let ctx := hmac_sha256_init sha256 (take 32 hmac) in
  let ctx := hmac_sha256_update ctx (take 32 aad) in
  let ctx := hmac_sha256_update ctx msg in
  hmac_sha256_done sha256 ctx.

(** The bytes of [nip44-v2]. *)
Definition nip44_salt : list Z := [110; 105; 112; 52; 52; 45; 118; 50].

Definition conversation_key (shared_secret : list Z) : list Z := hmac_sha256 sha256 nip44_salt shared_secret.

(** ** Decryption *)

(** The address and the length of the plaintext. *)
Definition nip44_decrypt_with_conversation_key (conversation_key : list Z) (decoded : nip44_payload) : CM (result (Z * Z)) :=
  let* nonce := peekn (p_nonce decoded) 32 in
  let* okm := lift (hkdf_expand sha256 76 conversation_key nonce) in
  let keys := slice_keys okm in
  let* ciphertext := peekn (p_ciphertext decoded) (p_ciphertext_len decoded) in
  let calculated_mac := hmac_aad (mk_auth keys) nonce ciphertext in
  let* mac := peekn (p_mac decoded) 32 in
  if negb (bool_decide (calculated_mac = mac)) then ret (inl NIP44_ERR_INVALID_MAC)
  else
    do* poke (p_ciphertext decoded) (chacha20_xor (mk_nonce keys) 0 (mk_key keys) ciphertext) in
    let* r := unpad (p_ciphertext decoded) (p_ciphertext_len decoded) in
    match r with
    | None => ret (inl NIP44_ERR_INVALID_PADDING)
    | Some decrypted_len => ret (inr (p_ciphertext decoded + 2, decrypted_len))
    end.

Definition nip44_decrypt_raw (sender_pubkey receiver_seckey : list Z) (decoded : nip44_payload) : CM (result (Z * Z)) :=
  match calculate_shared_secret receiver_seckey sender_pubkey with
  | inl rc => ret (inl rc)
  | inr shared_secret => nip44_decrypt_with_conversation_key (conversation_key shared_secret) decoded
  end.

Definition nip44_decrypt_with_key (conversation_key : list Z) (payload payload_len buf bufsize : Z) : CM (result (Z * Z)) :=
  let* r := nip44_decode_payload buf bufsize payload payload_len in
  match r with
  | inl rc => ret (inl rc)
  | inr decoded => nip44_decrypt_with_conversation_key conversation_key decoded
  end.

Definition nip44_decrypt (sender_pubkey receiver_seckey : list Z) (payload payload_len buf bufsize : Z) : CM (result (Z * Z)) :=
  let* r := nip44_decode_payload buf bufsize payload payload_len in
  match r with
  | inl rc => ret (inl rc)
  | inr decoded => nip44_decrypt_raw sender_pubkey receiver_seckey decoded
  end.

(** ** Encryption *)

(** What both encrypting functions do once they have a key and a nonce: the
    address and the length of the text. *)
Definition encrypt_body (conversation_key nonce plaintext : list Z) : CM (result (Z * Z)) :=
  let plaintext_size := zlen plaintext in
  let* okm := lift (hkdf_expand sha256 76 conversation_key nonce) in
  let keys := slice_keys okm in
  let* ok := cursor_push_byte 2 &&* cursor_push nonce in
  if negb ok then ret (inl NIP44_ERR_BUFFER_TOO_SMALL)
  else
    let* c := cur in
    let ciphertext := c_p c in
    let* ok := cursor_push_b16 plaintext_size &&* cursor_push plaintext &&*
      cursor_memset 0 (calc_padded_len plaintext_size - plaintext_size) in
    if negb ok then ret (inl NIP44_ERR_BUFFER_TOO_SMALL)
    else
      let* c := cur in
      let ciphertext_len := c_p c - ciphertext in
      let* padded := peekn ciphertext ciphertext_len in
      do* poke ciphertext (chacha20_xor (mk_nonce keys) 0 (mk_key keys) padded) in
      let* msg := peekn ciphertext ciphertext_len in
      let auth := hmac_aad (mk_auth keys) nonce msg in
      let* ok := cursor_push auth in
      if negb ok then ret (inl NIP44_ERR_BUFFER_TOO_SMALL)
      else
        let* c := cur in
        let* capacity := cursor_remaining_capacity in
        let* out_len := base64_encode (c_p c) (u64 capacity) (c_start c) (c_p c - c_start c) in
        if out_len =? -1 then ret (inl NIP44_ERR_BUFFER_TOO_SMALL)
        else ret (inr (c_p c, out_len)).

(** [random] is what the random source gives for the nonce. *)
Definition nip44_encrypt (random : option (list Z)) (sender_seckey receiver_pubkey plaintext : list Z) (buf bufsize : Z) : CM (result (Z * Z)) :=
  on_cursor (make_cursor buf (buf + bufsize))
    match calculate_shared_secret sender_seckey receiver_pubkey with
    | inl rc => ret (inl rc)
    | inr shared_secret =>
        match random with
        | None => ret (inl NIP44_ERR_FILL_RANDOM_FAILED)
        | Some nonce => encrypt_body (conversation_key shared_secret) nonce plaintext
        end
    end.

Definition nip44_encrypt_with_key (random : option (list Z)) (conversation_key plaintext : list Z) (buf bufsize : Z) : CM (result (Z * Z)) :=
  on_cursor (make_cursor buf (buf + bufsize))
    match random with
    | None => ret (inl NIP44_ERR_FILL_RANDOM_FAILED)
    | Some nonce => encrypt_body conversation_key nonce plaintext
    end.
End Nip44.

(** * Lemmas *)

(** ** Padding *)

(** NIP-44's own definition of the padded length. *)
Definition nip44_padded_len (unpadded_len : Z) : Z :=
  let next_power := 2 ^ (Z.log2 (unpadded_len - 1) + 1) in
  let chunk := if next_power <=? 256 then 32 else next_power / 8 in
  if unpadded_len <=? 32 then 32 else chunk * ((unpadded_len - 1) / chunk + 1).

(** The highest set bit [k] of a number smeared over the [w] bits from it down. *)
Definition smeared (k w v : Z) : Prop :=
  0 <= v /\ (forall i, k < i -> Z.testbit v i = false) /\ (forall i, 0 <= i -> k - w < i <= k -> Z.testbit v i = true).

Lemma smear_step k w v : 0 < w -> smeared k w v -> smeared k (2 * w) (Z.lor v (Z.shiftr v w)).
Proof.
  intros Hw (H0 & Hhi & Hlo). split; [| split].
  - apply Z.lor_nonneg. split; [done |]. by apply Z.shiftr_nonneg.
  - intros i Hi. rewrite Z.lor_spec, Hhi by done.
    destruct (Z.lt_ge_cases i 0); [by rewrite Z.testbit_neg_r |].
    rewrite Z.shiftr_spec by done. rewrite Hhi by lia. done.
  - intros i Hi0 Hi. rewrite Z.lor_spec. destruct (Z.lt_ge_cases (k - w) i).
    + by rewrite Hlo by lia.
    + rewrite Z.shiftr_spec by done. rewrite (Hlo (i + w)) by lia. apply orb_true_r.
Qed.

Lemma smear_full k w v : 0 <= k < w -> smeared k w v -> v = Z.ones (k + 1).
Proof.
  intros Hk (H0 & Hhi & Hlo). apply Z.bits_inj'. intros i Hi.
  destruct (Z.lt_ge_cases k i).
  - rewrite Hhi by done. rewrite Z.ones_spec_high; [done | lia].
  - rewrite Hlo by lia. by rewrite Z.ones_spec_low by lia.
Qed.

Lemma next_pow2_32_spec v : 2 <= v <= 2 ^ 31 -> next_pow2_32 v = 2 ^ (Z.log2 (v - 1) + 1).
Proof.
  intros Hv. unfold next_pow2_32. destruct (Z.leb_spec v 1); [lia |].
  assert (Hm : (v - 1) mod 2 ^ 32 = v - 1) by (apply Z.mod_small; lia).
  unfold u32. rewrite Hm.
  set (k := Z.log2 (v - 1)).
  assert (Hk : 0 <= k < 31).
  { split; [apply Z.log2_nonneg |]. apply Z.log2_lt_pow2; lia. }
  assert (S1 : smeared k 1 (v - 1)).
  { split; [lia |]. split.
    - intros i Hi. apply Z.bits_above_log2; [lia | done].
    - intros i _ Hi. replace i with k by lia. apply Z.bit_log2. lia. }
  apply (smear_step k 1) in S1; [| lia]. apply (smear_step k 2) in S1; [| lia].
  apply (smear_step k 4) in S1; [| lia]. apply (smear_step k 8) in S1; [| lia].
  apply (smear_step k 16) in S1; [| lia].
  apply smear_full in S1; [| lia]. rewrite S1, Z.ones_equiv.
  replace (Z.pred (2 ^ (k + 1)) + 1) with (2 ^ (k + 1)) by lia.
  apply Z.mod_small. split; [apply Z.pow_nonneg; lia |].
  apply Z.pow_lt_mono_r; lia.
Qed.

(** Rounding up to a multiple of a power of two. *)
Lemma round_up j n : 0 <= j < 32 -> 0 < n -> n + 2 ^ j <= 2 ^ 32 ->
  Z.land (u32 (n + u32 (2 ^ j - 1))) (u32 (Z.lnot (u32 (2 ^ j - 1)))) = 2 ^ j * ((n - 1) / 2 ^ j + 1).
Proof.
  intros Hj Hn Hb. assert (0 < 2 ^ j) by (apply Z.pow_pos_nonneg; lia).
  assert (Ec : u32 (2 ^ j - 1) = 2 ^ j - 1) by (apply Z.mod_small; lia). rewrite Ec.
  unfold u32 at 1. rewrite (Z.mod_small (n + (2 ^ j - 1))) by lia.
  replace (2 ^ j - 1) with (Z.ones j) by (rewrite Z.ones_equiv; lia).
  assert (El : Z.land (n + Z.ones j) (u32 (Z.lnot (Z.ones j))) = Z.ldiff (n + Z.ones j) (Z.ones j)).
  { unfold u32. rewrite <- Z.land_ones by lia. rewrite (Z.land_comm (Z.lnot _)), Z.land_assoc.
    rewrite (Z.land_ones (n + _) 32) by lia. rewrite Z.ones_equiv, Z.mod_small by lia. by rewrite <- Z.ldiff_land. }
  rewrite El, Z.ldiff_ones_r by lia. rewrite Z.shiftl_mul_pow2, Z.shiftr_div_pow2 by lia.
  rewrite Z.ones_equiv. replace (n + Z.pred (2 ^ j)) with (n - 1 + 1 * 2 ^ j) by lia.
  rewrite Z.div_add by lia. lia.
Qed.

Lemma calc_padded_len_eq n : 0 <= n <= 2 ^ 31 -> calc_padded_len n = nip44_padded_len n.
Proof.
  intros Hn. unfold calc_padded_len, nip44_padded_len. cbv zeta.
  destruct (Z.leb_spec n 32); [done |].
  destruct (Z.leb_spec n 256) as [H256 | H256].
  - assert (Hp : 2 ^ (Z.log2 (n - 1) + 1) <= 256).
    { change 256 with (2 ^ 8). apply Z.pow_le_mono_r; [lia |].
      assert (Z.log2 (n - 1) < 8) by (apply Z.log2_lt_pow2; lia). lia. }
    destruct (Z.leb_spec (2 ^ (Z.log2 (n - 1) + 1)) 256); [| lia].
    exact (round_up 5 n ltac:(lia) ltac:(lia) ltac:(lia)).
  - rewrite next_pow2_32_spec by lia. set (k := Z.log2 (n - 1)).
    assert (Hk : 8 <= k < 31).
    { split; [apply (Z.log2_le_pow2 (n - 1) 8); lia |]. apply Z.log2_lt_pow2; lia. }
    assert (2 ^ 9 <= 2 ^ (k + 1)) by (apply Z.pow_le_mono_r; lia).
    assert (2 ^ (k - 2) <= 2 ^ 28) by (apply Z.pow_le_mono_r; lia).
    destruct (Z.leb_spec (2 ^ (k + 1)) 256); [lia |].
    rewrite Z.shiftr_div_pow2 by lia. 
    assert (E : 2 ^ (k + 1) / 2 ^ 3 = 2 ^ (k - 2)).
    { replace (k + 1) with (k - 2 + 3) by lia. rewrite Z.pow_add_r by lia. by rewrite Z.div_mul. }
    change 8 with (2 ^ 3). rewrite E. apply round_up; lia.
Qed.

Lemma padded_len_range n : 0 <= n <= 65535 -> n <= calc_padded_len n <= 65536 /\ 32 <= calc_padded_len n.
Proof.
  intros Hn. rewrite calc_padded_len_eq by lia. unfold nip44_padded_len. cbv zeta.
  destruct (Z.leb_spec n 32); [lia |].
  assert (G : forall j, 5 <= j <= 13 -> let c := 2 ^ j in
    n <= c * ((n - 1) / c + 1) <= 65536 /\ 32 <= c * ((n - 1) / c + 1)).
  { intros j Hj. cbv zeta.
    assert (Ep : 65536 = 2 ^ j * 2 ^ (16 - j)) by (rewrite <- Z.pow_add_r by lia; replace (j + (16 - j)) with 16 by lia; reflexivity).
    assert (H32 : 2 ^ 5 <= 2 ^ j) by (apply Z.pow_le_mono_r; lia).
    assert (0 < 2 ^ (16 - j)) by (apply Z.pow_pos_nonneg; lia).
    pose proof (Z.div_mod (n - 1) (2 ^ j) ltac:(lia)). pose proof (Z.mod_pos_bound (n - 1) (2 ^ j) ltac:(lia)).
    assert ((n - 1) / 2 ^ j < 2 ^ (16 - j)) by (apply Z.div_lt_upper_bound; lia).
    assert (0 <= (n - 1) / 2 ^ j) by (apply Z.div_pos; lia).
    change (2 ^ 5) with 32 in *. nia. }
  destruct (Z.leb_spec (2 ^ (Z.log2 (n - 1) + 1)) 256) as [Hp | Hp]; [exact (G 5 ltac:(lia)) |].
  set (k := Z.log2 (n - 1)) in *.
  assert (Hk : 8 <= k < 16).
  { split; [| apply Z.log2_lt_pow2; lia]. destruct (Z.lt_ge_cases k 8) as [Hlt |]; [| done].
    exfalso. assert (2 ^ (k + 1) <= 2 ^ 8) by (apply Z.pow_le_mono_r; lia). lia. }
  assert (E : 2 ^ (k + 1) / 8 = 2 ^ (k - 2)).
  { replace (k + 1) with (k - 2 + 3) by lia. rewrite Z.pow_add_r by lia. by rewrite Z.div_mul. }
  rewrite E. exact (G (k - 2) ltac:(lia)).
Qed.

(** ** Big-endian integers *)

Lemma bswap_16_digits hi lo : is_byte hi -> is_byte lo -> bswap_16 (hi * 256 + lo) = lo * 256 + hi.
Proof.
  unfold is_byte. intros Hh Hl. apply Z.eqb_eq. revert hi lo Hh Hl.
  apply (enum2 256 256 (fun hi lo => bswap_16 (hi * 256 + lo) =? lo * 256 + hi)). vm_compute. reflexivity.
Qed.

Definition be_bytes16 (v : Z) : list Z := [v / 256; v mod 256].

Lemma be_push v : 0 <= v < 65536 -> le_bytes 2 (bswap_16 v) = be_bytes16 v.
Proof.
  intros Hv. pose proof (Z.div_mod v 256 ltac:(lia)) as D.
  pose proof (Z.mod_pos_bound v 256 ltac:(lia)).
  assert (0 <= v / 256 < 256) by (split; [apply Z.div_pos; lia | apply Z.div_lt_upper_bound; lia]).
  rewrite D at 1. rewrite Z.mul_comm, bswap_16_digits by done.
  unfold le_bytes, be_bytes16. f_equal; [| f_equal].
  - rewrite Z.add_comm, Z.mod_add by lia. by apply Z.mod_small.
  - rewrite Z.add_comm, Z.div_add by lia. rewrite (Z.div_small (v / 256)) by lia. apply Z.mod_small. lia.
Qed.

Lemma be_pull v : 0 <= v < 65536 -> bswap_16 (le_int (be_bytes16 v)) = v.
Proof.
  intros Hv. pose proof (Z.div_mod v 256 ltac:(lia)) as D.
  pose proof (Z.mod_pos_bound v 256 ltac:(lia)).
  assert (0 <= v / 256 < 256) by (split; [apply Z.div_pos; lia | apply Z.div_lt_upper_bound; lia]).
  unfold be_bytes16, le_int. replace (v / 256 + 256 * (v mod 256 + 256 * 0)) with (v mod 256 * 256 + v / 256) by lia.
  rewrite bswap_16_digits by done. lia.
Qed.

Lemma pull_b16_at v m c : 0 <= v < 65536 -> loadn m (c_p c) 2 = Some (be_bytes16 v) -> c_p c + 2 <= c_end c ->
  cursor_pull_b16 (m, c) = Some (Some v, (m, set_p c (c_p c + 2))).
Proof.
  intros Hv Hm Hr. unfold cursor_pull_b16, cursor_pull_u16, cursor_pull.
  rewrite bind_bind, bind_bind, bind_cur. destruct (Z.ltb_spec (c_end c) (c_p c + 2)); [lia |].
  rewrite bind_bind, (bind_peekn _ _ _ _ _ _ Hm), bind_bind, bind_goto, run_ret, run_ret.
  unfold ret. cbn [option_map]. by rewrite be_pull.
Qed.

#[export] Instance Emits_push_b16 v : Emits (cursor_push_b16 v) (le_bytes 2 (bswap_16 v)) 2.
Proof. unfold cursor_push_b16. apply _. Qed.

(** ** Padded blobs *)

(** The plaintext behind its length, and the padding. *)
Definition padded (plaintext : list Z) : list Z :=
  be_bytes16 (zlen plaintext) ++ plaintext ++ replicate (Z.to_nat (calc_padded_len (zlen plaintext) - zlen plaintext)) 0.

Lemma zlen_padded pt : zlen pt <= 65535 -> zlen (padded pt) = 2 + calc_padded_len (zlen pt).
Proof.
  intros H. pose proof (zlen_nonneg pt). pose proof (padded_len_range (zlen pt) ltac:(lia)).
  unfold padded. rewrite !zlen_app, zlen_replicate. change (zlen (be_bytes16 (zlen pt))) with 2. lia.
Qed.

(** [unpad] looks at the length in front and at the length of the blob. *)
Lemma unpad_blob v rest a m c : 0 <= v < 65536 -> 0 <= a ->
  loadn m a (zlen (be_bytes16 v ++ rest)) = Some (be_bytes16 v ++ rest) ->
  unpad a (2 + zlen rest) (m, c)
  = Some (if (0 <? v) && (zlen rest =? calc_padded_len v) then Some v else None, (m, c)).
Proof.
  intros Hv Ha Hm. apply loadn_app_inv in Hm as [Hm _]. change (zlen (be_bytes16 v)) with 2 in Hm.
  pose proof (zlen_nonneg rest). unfold unpad, on_cursor.
  set (c0 := make_cursor a (a + (2 + zlen rest))).
  rewrite (run_bind _ _ _ _ _ (pull_b16_at v m c0 Hv Hm ltac:(simpl; lia))). cbv zeta.
  rewrite bind_cur. cbn [set_p c_end c_p c_start make_cursor c0].
  pose proof (padded_len_range v ltac:(lia)).
  destruct (Z.ltb_spec (a + (2 + zlen rest)) (a + (v + 2))).
  - destruct (Z.eqb_spec (zlen rest) (calc_padded_len v)); [lia |]. by rewrite andb_false_r.
  - unfold cursor_remaining_capacity. unfold bind at 1. cbn [cur bind get ret fst snd c_end c_p].
    assert (Ei : u16 (i32 (a + (v + 2) - (a + 2))) = v).
    { replace (a + (v + 2) - (a + 2)) with v by lia. unfold i32, u16.
      rewrite (Z.mod_small (v + 2 ^ 31)) by lia. rewrite Z.mod_small by lia. lia. }
    unfold cur, bind, get, ret. cbn [fst snd c_end c_p]. rewrite Ei.
    rewrite Z.eqb_refl. cbn [negb].
    destruct (Z.eqb_spec v 0), (Z.ltb_spec 0 v); try lia; cbn [orb andb].
    + done.
    + destruct (Z.eqb_spec (2 + zlen rest) (2 + calc_padded_len v)), (Z.eqb_spec (zlen rest) (calc_padded_len v)); try lia; done.
Qed.

(** ** Messages *)

Section Messages.
Context (sha256 : list Z -> list Z) (chacha20_xor : list Z -> Z -> list Z -> list Z -> list Z).
Context (sha256_len : forall l, zlen (sha256 l) = 32) (sha256_ok : forall l, bytes_ok (sha256 l)).
(** A stream cipher: xor with a key stream as long as the message. *)
Context (chacha20_len : forall n ic k l, zlen (chacha20_xor n ic k l) = zlen l)
  (chacha20_ok : forall n ic k l, bytes_ok l -> bytes_ok (chacha20_xor n ic k l))
  (chacha20_twice : forall n ic k l, bytes_ok l -> chacha20_xor n ic k (chacha20_xor n ic k l) = l).

(** The keys NIP-44 prescribes for a conversation key and a nonce. *)
Definition keys_of (key nonce : list Z) : message_keys := slice_keys (rfc5869_expand sha256 76 key nonce).

(** The MAC over nonce and ciphertext. *)
Definition mac_of (key nonce ct : list Z) : list Z := rfc2104 sha256 (mk_auth (keys_of key nonce)) (nonce ++ ct).

Definition crypt (key nonce l : list Z) : list Z :=
  chacha20_xor (mk_nonce (keys_of key nonce)) 0 (mk_key (keys_of key nonce)) l.

(** The bytes of a payload before base64. *)
Definition wire (key nonce plaintext : list Z) : list Z :=
  let ct := crypt key nonce (padded plaintext) in 2 :: nonce ++ ct ++ mac_of key nonce ct.

Lemma keys_expand key nonce : bytes_ok key -> hkdf_expand sha256 76 key nonce = Some (rfc5869_expand sha256 76 key nonce).
Proof using sha256_len sha256_ok. intros Hk. apply hkdf_expand_run; (done || lia). Qed.

Lemma auth_key key nonce : bytes_ok (mk_auth (keys_of key nonce)) /\ zlen (mk_auth (keys_of key nonce)) = 32.
Proof using sha256_len sha256_ok.
  clear chacha20_ok chacha20_twice chacha20_len. unfold keys_of, slice_keys. cbn [mk_auth].
  pose proof (rfc5869_len sha256 sha256_len 76 key nonce ltac:(lia)). split.
  - apply Forall_take, Forall_drop, rfc5869_ok, sha256_ok.
  - rewrite zlen_take, zlen_drop. lia.
Qed.

Lemma mac_eq key nonce ct : zlen nonce = 32 ->
  hmac_aad sha256 (mk_auth (keys_of key nonce)) nonce ct = mac_of key nonce ct.
Proof using sha256_len sha256_ok.
  intros Hn. destruct (auth_key key nonce) as [Hb Hl]. unfold mac_of, hmac_aad.
  rewrite !take_ge by (unfold zlen in *; lia).
  rewrite hmac_init_ctx by done. unfold hmac_sha256_update, hmac_sha256_done, rfc2104. cbn [ctx_sha k_opad].
  by rewrite <- app_assoc.
Qed.

Lemma mac_len key nonce ct : zlen (mac_of key nonce ct) = 32.
Proof using sha256_len. by apply rfc2104_len. Qed.

(** *** Decoding *)

Lemma text_head b bs : exists ch t, rfc4648_text (b :: bs) = ch :: t /\ ch <> 35.
Proof.
  clear. destruct bs as [| b2 [| b3 bs]]; unfold rfc4648_text; cbn [sextets map take app];
    eexists; eexists; (split; [reflexivity |]); apply b64_char_facts, sextet_range.
Qed.

Lemma decode_payload_run v nonce ct mac payload buf bufsize m c :
  let bs := v :: nonce ++ ct ++ mac in
  bytes_ok bs -> zlen nonce = 32 -> zlen mac = 32 -> 34 <= zlen ct -> zlen bs < 2 ^ 62 ->
  loadn m payload (zlen (rfc4648_text bs)) = Some (rfc4648_text bs) ->
  0 <= buf -> buf + bufsize <= zlen m -> (zlen bs + 2) / 3 * 3 <= bufsize ->
  apart payload (zlen (rfc4648_text bs)) buf bufsize ->
  exists m', nip44_decode_payload buf bufsize payload (zlen (rfc4648_text bs)) (m, c)
      = Some (inr (mk_payload v (buf + 1) (buf + 33) (zlen ct) (buf + (33 + zlen ct))), (m', c)) /\
    zlen m' = zlen m /\ loadn m' buf (zlen bs) = Some bs.
Proof.
  clear. intros bs Hb Hn Hmac Hct Hl Hm Hbuf Hroom Hfit Hap.
  assert (Lb : zlen bs = 65 + zlen ct) by (unfold bs; rewrite zlen_cons, !zlen_app; lia).
  unfold nip44_decode_payload.
  destruct (Z.ltb_spec (zlen (rfc4648_text bs)) 132) as [Hlt |].
  { rewrite zlen_text in Hlt. Z.to_euclidean_division_equations. lia. }
  destruct (text_head v (nonce ++ ct ++ mac)) as (ch & t & Et & Hch). fold bs in Et.
  assert (H0 : load8 m payload = Some ch).
  { rewrite Et in Hm. by apply loadn_cons in Hm as [Hm _]. }
  rewrite (bind_peek8 _ _ _ _ _ H0). destruct (Z.eqb_spec ch 35); [done |].
  destruct (base64_decode_run bs buf bufsize payload m c) as (m1 & E1 & S1); try done.
  rewrite (run_bind _ _ _ _ _ E1). cbv beta.
  destruct (Z.eqb_spec (zlen bs) (-1)); [lia |]. destruct (Z.ltb_spec (zlen bs) 99); [lia |].
  pose proof (loadn_storen_same _ _ _ _ S1) as Hm1. apply loadn_app_inv in Hm1 as [Hm1 _].
  assert (Hver : load8 m1 buf = Some v) by (by apply loadn_cons in Hm1 as [Hm1 _]).
  rewrite (bind_peek8 _ _ _ _ _ Hver). exists m1. split; [| split; [by eapply storen_length | done]].
  unfold ret. rewrite Lb. do 3 f_equal. f_equal; lia.
Qed.

(** *** Decrypting a decoded payload *)

Lemma decrypt_decoded_run key p nonce ct mac v rest m c :
  bytes_ok key -> loadn m (p_nonce p) 32 = Some nonce ->
  loadn m (p_ciphertext p) (p_ciphertext_len p) = Some ct -> loadn m (p_mac p) 32 = Some mac ->
  0 <= v < 65536 -> crypt key nonce ct = be_bytes16 v ++ rest ->
  if bool_decide (mac_of key nonce ct = mac) then
    exists m', storen m (p_ciphertext p) (be_bytes16 v ++ rest) = Some m' /\
      nip44_decrypt_with_conversation_key sha256 chacha20_xor key p (m, c)
      = Some (if (0 <? v) && (zlen rest =? calc_padded_len v) then inr (p_ciphertext p + 2, v) else inl NIP44_ERR_INVALID_PADDING, (m', c))
  else nip44_decrypt_with_conversation_key sha256 chacha20_xor key p (m, c) = Some (inl NIP44_ERR_INVALID_MAC, (m, c)).
Proof using sha256_len sha256_ok chacha20_len.
  intros Hk Hn Hct Hmac Hv Hpt. unfold nip44_decrypt_with_conversation_key.
  rewrite (bind_peekn _ _ _ _ _ _ Hn), (run_lift _ _ _ _ (keys_expand key nonce Hk)).
  fold (keys_of key nonce). cbv zeta. rewrite (bind_peekn _ _ _ _ _ _ Hct), (bind_peekn _ _ _ _ _ _ Hmac).
  rewrite mac_eq by (by apply loadn_length in Hn).
  case_bool_decide as E; cbn [negb]; [| done].
  fold (crypt key nonce ct). rewrite Hpt.
  pose proof (loadn_length _ _ _ _ Hct) as Lct. pose proof Hct as (A1 & A2 & A3 & _)%loadn_Some.
  assert (Lr : p_ciphertext_len p = 2 + zlen rest).
  { pose proof (chacha20_len (mk_nonce (keys_of key nonce)) 0 (mk_key (keys_of key nonce)) ct) as L.
    fold (crypt key nonce ct) in L. rewrite Hpt, zlen_app in L. change (zlen (be_bytes16 v)) with 2 in L. lia. }
  destruct (storen_in_range m (p_ciphertext p) (be_bytes16 v ++ rest)) as [m1 E1].
  { lia. } { rewrite zlen_app. change (zlen (be_bytes16 v)) with 2. lia. }
  exists m1. split; [done |]. rewrite (run_bind _ _ _ _ _ (poke_ok _ _ _ _ c E1)).
  rewrite Lr. rewrite (run_bind _ _ _ _ _ (unpad_blob v rest _ m1 c Hv A1 (loadn_storen_same _ _ _ _ E1))).
  by destruct ((0 <? v) && (zlen rest =? calc_padded_len v)).
Qed.

(** *** Encrypting *)

Lemma crypt_len key nonce l : zlen (crypt key nonce l) = zlen l.
Proof using chacha20_len. apply chacha20_len. Qed.

Lemma padded_ok pt : bytes_ok pt -> zlen pt <= 65535 -> bytes_ok (padded pt).
Proof.
  clear. intros Hp Hl. pose proof (zlen_nonneg pt). unfold padded. apply List.Forall_app. split.
  - unfold be_bytes16. constructor; [| constructor; [| constructor]].
    + unfold is_byte. split; [apply Z.div_pos; lia | apply Z.div_lt_upper_bound; lia].
    + apply Z.mod_pos_bound. lia.
  - apply List.Forall_app. split; [done |]. apply Forall_replicate. unfold is_byte. lia.
Qed.

Lemma zlen_wire key nonce pt : zlen nonce = 32 -> zlen pt <= 65535 ->
  zlen (wire key nonce pt) = 67 + calc_padded_len (zlen pt).
Proof using sha256_len chacha20_len.
  intros Hn Hp. unfold wire. rewrite zlen_cons, !zlen_app, mac_len, crypt_len, zlen_padded by done. lia.
Qed.

Lemma wire_ok key nonce pt : bytes_ok nonce -> bytes_ok pt -> zlen pt <= 65535 -> bytes_ok (wire key nonce pt).
Proof using sha256_ok chacha20_ok.
  intros Hn Hp Hl. unfold wire. rewrite bytes_ok_cons. split; [unfold is_byte; lia |].
  apply List.Forall_app. split; [done |]. apply List.Forall_app. split.
  - apply chacha20_ok. by apply padded_ok.
  - apply sha256_ok.
Qed.

Lemma encrypt_body_run key nonce pt buf bufsize m :
  let w := wire key nonce pt in
  bytes_ok key -> bytes_ok nonce -> zlen nonce = 32 -> bytes_ok pt -> zlen pt <= 65535 ->
  0 <= buf -> buf + bufsize <= zlen m -> bufsize < 2 ^ 31 ->
  zlen w + zlen (rfc4648_text w) <= bufsize ->
  exists m' c', encrypt_body sha256 chacha20_xor key nonce pt (m, make_cursor buf (buf + bufsize))
      = Some (inr (buf + zlen w, zlen (rfc4648_text w)), (m', c')) /\
    zlen m' = zlen m /\ loadn m' (buf + zlen w) (zlen (rfc4648_text w)) = Some (rfc4648_text w).
Proof using sha256_len sha256_ok chacha20_len chacha20_ok.
  intros w Hk Hnb Hn Hp Hpl Hbuf Hroom Hbs Hfit.
  set (ct := crypt key nonce (padded pt)). set (mac := mac_of key nonce ct).
  assert (Ew : w = [2] ++ nonce ++ ct ++ mac) by reflexivity.
  assert (Lw : zlen w = 67 + calc_padded_len (zlen pt)) by (by apply zlen_wire).
  pose proof (zlen_nonneg pt). pose proof (zlen_nonneg (rfc4648_text w)).
  destruct (padded_len_range (zlen pt) ltac:(lia)) as [Hpad _].
  assert (Lct : zlen ct = 2 + calc_padded_len (zlen pt)) by (unfold ct; rewrite crypt_len; by apply zlen_padded).
  assert (Lmac : zlen mac = 32) by apply mac_len.
  assert (W0 : cwf (m, make_cursor buf (buf + bufsize))) by (unfold cwf; simpl; lia).
  unfold encrypt_body. cbv zeta. rewrite (run_lift _ _ _ _ (keys_expand key nonce Hk)). fold (keys_of key nonce).
  (* version and nonce *)
  assert (T0 : 5 <= zlen (rfc4648_text w)) by (rewrite zlen_text, Lw; Z.to_euclidean_division_equations; lia).
  destruct (emits_ok (Emits := Emits_andM _ _ _ _ _ _ (Emits_push_byte 2) (Emits_push nonce)) _ W0) as ([m1 c1] & E1 & P1).
  { simpl. change (zlen [2]) with 1. lia. }
  rewrite (run_bind _ _ _ _ _ E1). cbn [negb]. rewrite bind_cur.
  pose proof P1 as [S1 C1]. cbn [fst snd c_p make_cursor] in S1, C1.
  assert (Ec1 : c1 = mk_cursor buf (buf + 33) (buf + bufsize)).
  { rewrite C1. unfold set_p, make_cursor. cbn [c_start c_end]. f_equal. rewrite zlen_app. change (zlen [2]) with 1. lia. }
  clear C1. subst c1. cbn [c_p]. pose proof (storen_length _ _ _ _ S1).
  assert (W1 : cwf (m1, mk_cursor buf (buf + 33) (buf + bufsize))) by (unfold cwf; simpl; lia).
  (* the padded plaintext *)
  destruct (emits_ok (Emits := Emits_andM _ _ _ _ _ _ (Emits_andM _ _ _ _ _ _ (Emits_push_b16 (zlen pt)) (Emits_push pt))
     (Emits_memset 0 (calc_padded_len (zlen pt) - zlen pt) ltac:(lia))) _ W1) as ([m2 c2] & E2 & P2).
  { cbn [fst snd c_p c_end]. rewrite be_push by lia. rewrite zlen_app. change (zlen (be_bytes16 (zlen pt))) with 2. lia. }
  rewrite be_push, <- app_assoc in P2 by lia. fold (padded pt) in P2.
  rewrite (run_bind _ _ _ _ _ E2). cbn [negb]. rewrite bind_cur.
  pose proof P2 as [S2 C2]. cbn [fst snd c_p] in S2, C2. rewrite zlen_padded in C2 by done.
  assert (Ec2 : c2 = mk_cursor buf (buf + 33 + zlen ct) (buf + bufsize)).
  { rewrite C2, Lct. reflexivity. }
  clear C2. subst c2. cbn [c_p]. pose proof (storen_length _ _ _ _ S2).
  replace (buf + 33 + zlen ct - (buf + 33)) with (zlen (padded pt)) by (unfold ct; rewrite crypt_len; lia).
  rewrite (bind_peekn _ _ _ _ _ _ (loadn_storen_same _ _ _ _ S2)).
  (* encryption in place *)
  fold (crypt key nonce (padded pt)). fold ct.
  destruct (storen_in_range m2 (buf + 33) ct) as [m3 S3]; [lia | lia |].
  rewrite (run_bind _ _ _ _ _ (poke_ok _ _ _ _ _ S3)).
  pose proof (storen_length _ _ _ _ S3).
  replace (zlen (padded pt)) with (zlen ct) by apply crypt_len.
  rewrite (bind_peekn _ _ _ _ _ _ (loadn_storen_same _ _ _ _ S3)).
  rewrite mac_eq by done. fold mac.
  assert (W3 : cwf (m3, mk_cursor buf (buf + 33 + zlen ct) (buf + bufsize))) by (unfold cwf; simpl; lia).
  destruct (emits_ok (Emits := Emits_push mac) _ W3) as ([m4 c4] & E4 & S4 & C4); [simpl; lia |].
  rewrite (run_bind _ _ _ _ _ E4). cbn [negb]. rewrite bind_cur.
  cbn [fst snd c_p] in S4, C4.
  assert (Ec4 : c4 = mk_cursor buf (buf + zlen w) (buf + bufsize)).
  { rewrite C4. unfold set_p. cbn [c_start c_end]. f_equal. lia. }
  clear C4. subst c4. pose proof (storen_length _ _ _ _ S4). cbn [c_p c_start].
  unfold cursor_remaining_capacity. rewrite bind_bind, bind_cur, run_ret. cbn [c_p c_end].
  assert (Ei : u64 (i32 (buf + bufsize - (buf + zlen w))) = bufsize - zlen w).
  { replace (buf + bufsize - (buf + zlen w)) with (bufsize - zlen w) by lia. unfold i32, u64.
    rewrite (Z.mod_small (bufsize - zlen w + 2 ^ 31)) by lia. rewrite Z.mod_small; lia. }
  rewrite Ei. replace (buf + zlen w - buf) with (zlen w) by lia.
  (* what is in front of the text *)
  assert (Lh : zlen ([2] ++ nonce) = 33) by (rewrite zlen_app, Hn; reflexivity).
  assert (A2 : storen m buf (([2] ++ nonce) ++ padded pt) = Some m2) by (eapply storen_app; [exact S1 | by rewrite Lh]).
  assert (A3 : storen m buf (([2] ++ nonce) ++ ct) = Some m3).
  { eapply storen_over; [exact A2 | by rewrite Lh | unfold ct; rewrite crypt_len; lia]. }
  assert (A4 : storen m buf w = Some m4).
  { rewrite Ew, !app_assoc. eapply storen_app; [exact A3 |]. rewrite <- S4, zlen_app, Lh. f_equal. lia. }
  destruct (base64_encode_run w (buf + zlen w) (bufsize - zlen w) buf m4 (mk_cursor buf (buf + zlen w) (buf + bufsize))) as (m5 & E5 & S5).
  { by apply wire_ok. } { lia. } { by eapply loadn_storen_same. } { lia. } { lia. } { lia. } { unfold apart. lia. }
  rewrite (run_bind _ _ _ _ _ E5).
  destruct (Z.eqb_spec (zlen (rfc4648_text w)) (-1)); [lia |].
  exists m5, (mk_cursor buf (buf + zlen w) (buf + bufsize)). split; [done |].
  pose proof (storen_length _ _ _ _ S5). split; [lia |].
  pose proof (loadn_storen_same _ _ _ _ S5) as L5. by apply loadn_app_inv in L5 as [L5 _].
Qed.
(** *** Payloads *)

(** A payload whose MAC is right, with any version byte. *)
Lemma decrypt_wire key nonce pt v payload buf bufsize m c :
  let w := v :: tail (wire key nonce pt) in
  bytes_ok key -> bytes_ok nonce -> zlen nonce = 32 -> bytes_ok pt -> zlen pt <= 65535 -> is_byte v ->
  loadn m payload (zlen (rfc4648_text w)) = Some (rfc4648_text w) ->
  0 <= buf -> buf + bufsize <= zlen m -> (zlen w + 2) / 3 * 3 <= bufsize ->
  apart payload (zlen (rfc4648_text w)) buf bufsize ->
  exists m', nip44_decode_payload buf bufsize payload (zlen (rfc4648_text w)) (m, c)
      = Some (inr (mk_payload v (buf + 1) (buf + 33) (2 + calc_padded_len (zlen pt)) (buf + (35 + calc_padded_len (zlen pt)))), (m', c)) /\
    exists m2, nip44_decrypt_with_conversation_key sha256 chacha20_xor key
        (mk_payload v (buf + 1) (buf + 33) (2 + calc_padded_len (zlen pt)) (buf + (35 + calc_padded_len (zlen pt)))) (m', c)
      = Some (if 0 <? zlen pt then inr (buf + 35, zlen pt) else inl NIP44_ERR_INVALID_PADDING, (m2, c)) /\
    loadn m2 (buf + 35) (zlen pt) = Some pt.
Proof using sha256_len sha256_ok chacha20_len chacha20_ok chacha20_twice.
  intros w Hk Hnb Hn Hp Hpl Hv Hm Hbuf Hroom Hfit Hap.
  pose proof (zlen_nonneg pt). destruct (padded_len_range (zlen pt) ltac:(lia)) as [Hpad Hp32].
  set (ct := crypt key nonce (padded pt)). set (mac := mac_of key nonce ct).
  assert (Ew : w = v :: nonce ++ ct ++ mac) by reflexivity.
  assert (Lct : zlen ct = 2 + calc_padded_len (zlen pt)) by (unfold ct; rewrite crypt_len; by apply zlen_padded).
  assert (Lmac : zlen mac = 32) by apply mac_len.
  assert (Hok : bytes_ok w).
  { pose proof (wire_ok key nonce pt Hnb Hp Hpl) as Hwok. unfold wire in Hwok. rewrite bytes_ok_cons in Hwok.
    rewrite Ew, bytes_ok_cons. split; [done | apply Hwok]. }
  assert (Lw : zlen w = 67 + calc_padded_len (zlen pt)) by (rewrite Ew, zlen_cons, !zlen_app; lia).
  rewrite Ew in *.
  destruct (decode_payload_run v nonce ct mac payload buf bufsize m c) as (m1 & E1 & L1 & R1); try done; try lia.
  rewrite Lct in E1. replace (33 + (2 + calc_padded_len (zlen pt))) with (35 + calc_padded_len (zlen pt)) in E1 by lia.
  exists m1. split; [done |].
  apply loadn_cons in R1 as [_ R1]. apply loadn_app_inv in R1 as [Rn R1]. apply loadn_app_inv in R1 as [Rc Rm].
  rewrite Hn in *. rewrite Lct in Rc. rewrite Lct, Lmac in Rm.
  replace (buf + 1 + 32) with (buf + 33) in * by lia.
  set (p := mk_payload v (buf + 1) (buf + 33) (2 + calc_padded_len (zlen pt)) (buf + (35 + calc_padded_len (zlen pt)))).
  set (zeros := replicate (Z.to_nat (calc_padded_len (zlen pt) - zlen pt)) 0).
  pose proof (decrypt_decoded_run key p nonce ct mac (zlen pt) (pt ++ zeros) m1 c Hk Rn Rc) as D.
  cbn [p_mac p] in D. unfold mac in D at 2. rewrite bool_decide_true in D by done.
  destruct D as (m2 & S2 & E2).
  - rewrite <- Rm. f_equal; lia.
  - lia.
  - unfold ct, crypt. apply chacha20_twice. by apply padded_ok.
  - cbn [p_ciphertext p] in S2, E2. exists m2.
    assert (Lz : zlen (pt ++ zeros) = calc_padded_len (zlen pt)) by (unfold zeros; rewrite zlen_app, zlen_replicate; lia).
    rewrite Lz, Z.eqb_refl, andb_true_r in E2.
    replace (buf + 33 + 2) with (buf + 35) in E2 by lia. split; [done |].
    pose proof (loadn_storen_same _ _ _ _ S2) as R2. apply loadn_app_inv in R2 as [_ R2].
    apply loadn_app_inv in R2 as [R2 _]. rewrite <- R2. f_equal. unfold be_bytes16, zlen. simpl. lia.
Qed.

Lemma salt_ok : bytes_ok nip44_salt.
Proof. clear. apply bytes_ok_dec. reflexivity. Qed.

Lemma conversation_key_ok secret : bytes_ok (conversation_key sha256 secret).
Proof using sha256_ok. clear sha256_len. apply sha256_ok. Qed.

(** * Properties *)

(** C34: what one party encrypts the other decrypts: when the two sides compute
    the same ECDH secret, [nip44_encrypt] of 1 to 65535 bytes with any nonce, in
    a buffer with room for the payload and its text, gives the base64 of version,
    nonce, ciphertext and MAC; and [nip44_decrypt] of that text, wherever it
    lies, into a buffer with room for its bytes, gives the address and length of
    the plaintext.  With the conversation key instead of the secrets the two
    [_with_key] functions do the same. *)
Theorem nip44_roundtrip {pubkey : Type} seckey_verify (pubkey_parse : list Z -> option pubkey) secp256k1_ecdh
  skA pkA skB pkB secret nonce pt buf bufsize m c m2 c2 payload buf2 bufsize2
  (HA : calculate_shared_secret seckey_verify pubkey_parse secp256k1_ecdh skA pkB = inr secret)
  (HB : calculate_shared_secret seckey_verify pubkey_parse secp256k1_ecdh skB pkA = inr secret)
  (Hnb : bytes_ok nonce) (Hn : zlen nonce = 32) (Hp : bytes_ok pt) (Hpl : 1 <= zlen pt <= 65535)
  (Hbuf : 0 <= buf) (Hroom : buf + bufsize <= zlen m) (Hbs : bufsize < 2 ^ 31) :
  let key := conversation_key sha256 secret in
  let w := wire key nonce pt in
  let text := rfc4648_text w in
  zlen w + zlen text <= bufsize ->
  loadn m2 payload (zlen text) = Some text -> 0 <= buf2 -> buf2 + bufsize2 <= zlen m2 ->
  (zlen w + 2) / 3 * 3 <= bufsize2 -> apart payload (zlen text) buf2 bufsize2 ->
  (exists m', nip44_encrypt sha256 chacha20_xor seckey_verify pubkey_parse secp256k1_ecdh (Some nonce) skA pkB pt buf bufsize (m, c)
      = Some (inr (buf + zlen w, zlen text), (m', c)) /\
    nip44_encrypt_with_key sha256 chacha20_xor (Some nonce) key pt buf bufsize (m, c)
      = Some (inr (buf + zlen w, zlen text), (m', c)) /\
    loadn m' (buf + zlen w) (zlen text) = Some text) /\
  (exists m', nip44_decrypt sha256 chacha20_xor seckey_verify pubkey_parse secp256k1_ecdh pkA skB payload (zlen text) buf2 bufsize2 (m2, c2)
      = Some (inr (buf2 + 35, zlen pt), (m', c2)) /\
    nip44_decrypt_with_key sha256 chacha20_xor key payload (zlen text) buf2 bufsize2 (m2, c2)
      = Some (inr (buf2 + 35, zlen pt), (m', c2)) /\
    loadn m' (buf2 + 35) (zlen pt) = Some pt).
Proof using sha256_len sha256_ok chacha20_len chacha20_ok chacha20_twice.
  cbv zeta. intros Hfit Hm2 Hb2 Hr2 Hf2 Hap. pose proof (conversation_key_ok secret) as Hk. split.
  - destruct (encrypt_body_run (conversation_key sha256 secret) nonce pt buf bufsize m) as (m' & c' & E & L & R);
      try done; try lia.
    exists m'. unfold nip44_encrypt, nip44_encrypt_with_key, on_cursor. by rewrite HA, E.
  - destruct (decrypt_wire (conversation_key sha256 secret) nonce pt 2 payload buf2 bufsize2 m2 c2) as (m3 & E1 & m4 & E2 & R);
      try done; try lia; try (unfold is_byte; lia).
    change (2 :: tail (wire (conversation_key sha256 secret) nonce pt)) with (wire (conversation_key sha256 secret) nonce pt) in E1.
    destruct (Z.ltb_spec 0 (zlen pt)); [| lia].
    exists m4. unfold nip44_decrypt, nip44_decrypt_with_key. rewrite !(run_bind _ _ _ _ _ E1). unfold nip44_decrypt_raw.
    by rewrite HB.
Qed.

(** C35: decryption is authenticated: of a decoded payload whose nonce, ciphertext
    and MAC lie in memory, [nip44_decrypt_with_conversation_key] accepts exactly
    those whose MAC is the HMAC, under the expanded key, of nonce and ciphertext,
    and whose decrypted ciphertext starts with a nonzero length and is padded as
    that length requires; a wrong MAC leaves memory untouched. *)
Theorem decrypt_authenticated key p nonce ct mac v rest m c
  (Hk : bytes_ok key) (Hn : loadn m (p_nonce p) 32 = Some nonce)
  (Hct : loadn m (p_ciphertext p) (p_ciphertext_len p) = Some ct) (Hmac : loadn m (p_mac p) 32 = Some mac)
  (Hv : 0 <= v < 65536) (Hpt : crypt key nonce ct = be_bytes16 v ++ rest) :
  if bool_decide (mac_of key nonce ct = mac) then
    exists m', storen m (p_ciphertext p) (be_bytes16 v ++ rest) = Some m' /\
      nip44_decrypt_with_conversation_key sha256 chacha20_xor key p (m, c)
      = Some (if (0 <? v) && (zlen rest =? nip44_padded_len v) then inr (p_ciphertext p + 2, v) else inl NIP44_ERR_INVALID_PADDING, (m', c))
  else nip44_decrypt_with_conversation_key sha256 chacha20_xor key p (m, c) = Some (inl NIP44_ERR_INVALID_MAC, (m, c)).
Proof using sha256_len sha256_ok chacha20_len.
  rewrite <- calc_padded_len_eq by lia. by apply decrypt_decoded_run.
Qed.

(** deviation: the version byte of a payload is not looked at.  NIP-44 asks
    for an error on an unknown version, and the MAC does not cover the byte: a
    payload with any version decrypts like one of version 2. *)
Theorem version_byte_ignored key nonce pt v payload buf bufsize m c
  (Hk : bytes_ok key) (Hnb : bytes_ok nonce) (Hn : zlen nonce = 32) (Hp : bytes_ok pt) (Hpl : 1 <= zlen pt <= 65535)
  (Hv : is_byte v) (Hbuf : 0 <= buf) (Hroom : buf + bufsize <= zlen m) :
  let w := v :: tail (wire key nonce pt) in
  loadn m payload (zlen (rfc4648_text w)) = Some (rfc4648_text w) ->
  (zlen w + 2) / 3 * 3 <= bufsize -> apart payload (zlen (rfc4648_text w)) buf bufsize ->
  exists m', nip44_decrypt_with_key sha256 chacha20_xor key payload (zlen (rfc4648_text w)) buf bufsize (m, c)
      = Some (inr (buf + 35, zlen pt), (m', c)) /\ loadn m' (buf + 35) (zlen pt) = Some pt.
Proof using sha256_len sha256_ok chacha20_len chacha20_ok chacha20_twice.
  intros w Hm Hfit Hap.
  destruct (decrypt_wire key nonce pt v payload buf bufsize m c) as (m3 & E1 & m4 & E2 & R); try done; try lia.
  destruct (Z.ltb_spec 0 (zlen pt)); [| lia]. exists m4. unfold nip44_decrypt_with_key.
  by rewrite (run_bind _ _ _ _ _ E1).
Qed.

(** deviation: NIP-44 has plaintexts of 1 to 65535 bytes.  An empty one is not
    refused: it is encrypted, and the payload is then refused by the receiver. *)
Theorem empty_plaintext_lost key nonce buf bufsize m c m2 c2 payload buf2 bufsize2
  (Hk : bytes_ok key) (Hnb : bytes_ok nonce) (Hn : zlen nonce = 32)
  (Hbuf : 0 <= buf) (Hroom : buf + bufsize <= zlen m) (Hbs : bufsize < 2 ^ 31) :
  let text := rfc4648_text (wire key nonce []) in
  231 <= bufsize ->
  loadn m2 payload 132 = Some text -> 0 <= buf2 -> buf2 + bufsize2 <= zlen m2 -> 99 <= bufsize2 -> apart payload 132 buf2 bufsize2 ->
  (exists m', nip44_encrypt_with_key sha256 chacha20_xor (Some nonce) key [] buf bufsize (m, c)
      = Some (inr (buf + 99, 132), (m', c)) /\ loadn m' (buf + 99) 132 = Some text) /\
  (exists m', nip44_decrypt_with_key sha256 chacha20_xor key payload 132 buf2 bufsize2 (m2, c2)
      = Some (inl NIP44_ERR_INVALID_PADDING, (m', c2))).
Proof using sha256_len sha256_ok chacha20_len chacha20_ok chacha20_twice.
  cbv zeta. intros Hfit Hm2 Hb2 Hr2 Hf2 Hap.
  assert (Lw : zlen (wire key nonce []) = 99) by (rewrite zlen_wire by done; reflexivity).
  assert (Lt : zlen (rfc4648_text (wire key nonce [])) = 132) by (by rewrite zlen_text, Lw).
  assert (N : bytes_ok []) by constructor. split.
  - destruct (encrypt_body_run key nonce [] buf bufsize m) as (m' & c' & E & L & R); try done; try lia.
    rewrite Lw, Lt in *. exists m'. unfold nip44_encrypt_with_key, on_cursor. by rewrite E.
  - pose proof (decrypt_wire key nonce [] 2 payload buf2 bufsize2 m2 c2) as D. cbv zeta in D.
    change (2 :: tail (wire key nonce [])) with (wire key nonce []) in D. rewrite Lw, Lt in D.
    destruct D as (m3 & E1 & m4 & E2 & R); try done; try (unfold is_byte; lia).
    exists m4. unfold nip44_decrypt_with_key. by rewrite (run_bind _ _ _ _ _ E1).
Qed.
End Messages.

(** C36: the padding is NIP-44's: for lengths up to 2^31 [calc_padded_len], with its
    bit tricks in 32 bits, is the formula of the specification by logarithms, and
    for a plaintext that fits 16 bits it is at least the plaintext, at least 32
    and at most 65536. *)
Theorem padded_len_is_nip44 n (Hn : 0 <= n <= 2 ^ 31) :
  calc_padded_len n = nip44_padded_len n /\
  (n <= 65535 -> n <= calc_padded_len n <= 65536 /\ 32 <= calc_padded_len n).
Proof. split; [by apply calc_padded_len_eq |]. intros H. apply padded_len_range. lia. Qed.

Lemma padded_len_is_nip44_witness :
  calc_padded_len 32769 = 40960 /\ nip44_padded_len 32769 = 40960 /\ calc_padded_len 65535 = 65536.
Proof.
  pose proof (proj1 (padded_len_is_nip44 32769 ltac:(lia))) as H.
  split; [vm_compute; reflexivity | split; [rewrite <- H; vm_compute; reflexivity | vm_compute; reflexivity]].
Defined.

(** ** A toy instance

    A hash, a cipher and a group with the shape of the real ones. *)

Definition demo_cipher (nonce : list Z) (ic : Z) (key l : list Z) : list Z :=
  map (Z.lxor (le_int (key ++ nonce) mod 256)) l.

Lemma demo_cipher_len n ic k l : zlen (demo_cipher n ic k l) = zlen l.
Proof. apply zlen_map. Qed.

Lemma demo_cipher_ok n ic k l : bytes_ok l -> bytes_ok (demo_cipher n ic k l).
Proof. apply map_lxor_ok. apply Z.mod_pos_bound. lia. Qed.

Lemma demo_cipher_twice n ic k l : bytes_ok l -> demo_cipher n ic k (demo_cipher n ic k l) = l.
Proof.
  intros _. unfold demo_cipher. rewrite map_map. erewrite map_ext; [apply map_id |].
  intros b. cbv beta. by rewrite <- Z.lxor_assoc, Z.lxor_nilpotent.
Qed.

Definition demo_ecdh (pk sk : list Z) (hash : list Z -> list Z -> option (list Z)) : option (list Z) :=
  hash (le_bytes 32 (le_int pk * le_int sk)) [].

Definition demo_secret : list Z := le_bytes 32 45.
Definition demo_key : list Z := conversation_key demo_hash demo_secret.
Definition demo_wire : list Z := wire demo_hash demo_cipher demo_key (replicate 32 1) [104; 105].
Definition demo_text : list Z := rfc4648_text demo_wire.

Lemma nip44_roundtrip_witness :
  calculate_shared_secret (fun _ => true) (fun l => Some (tail l)) demo_ecdh (le_bytes 32 5) (le_bytes 32 9) = inr demo_secret /\
  exists m' m2',
    nip44_encrypt demo_hash demo_cipher (fun _ => true) (fun l => Some (tail l)) demo_ecdh (Some (replicate 32 1))
      (le_bytes 32 5) (le_bytes 32 9) [104; 105] 10 300 (replicate 320 0, make_cursor 0 0) = Some (inr (109, 132), (m', make_cursor 0 0)) /\
    nip44_decrypt demo_hash demo_cipher (fun _ => true) (fun l => Some (tail l)) demo_ecdh
      (le_bytes 32 5) (le_bytes 32 9) 0 132 140 99 (demo_text ++ replicate 120 0, make_cursor 0 0)
      = Some (inr (175, 2), (m2', make_cursor 0 0)) /\
    loadn m2' 175 2 = Some [104; 105].
Proof.
  assert (Hb : bytes_ok (replicate 32 1)) by (apply bytes_ok_dec; reflexivity).
  assert (Hp : bytes_ok [104; 105]) by (apply bytes_ok_dec; reflexivity).
  pose proof (nip44_roundtrip demo_hash demo_cipher demo_hash_len demo_hash_ok demo_cipher_len demo_cipher_ok demo_cipher_twice
    (fun _ => true) (fun l => Some (tail l)) demo_ecdh
    (le_bytes 32 5) (le_bytes 32 5) (le_bytes 32 9) (le_bytes 32 9) demo_secret (replicate 32 1) [104; 105] 10 300
    (replicate 320 0) (make_cursor 0 0) (demo_text ++ replicate 120 0) (make_cursor 0 0) 0 140 99
    ltac:(vm_compute; reflexivity) ltac:(vm_compute; reflexivity) Hb ltac:(reflexivity) Hp ltac:(split; vm_compute; discriminate)
    ltac:(lia) ltac:(vm_compute; discriminate) ltac:(lia)
    ltac:(vm_compute; discriminate) ltac:(vm_compute; reflexivity) ltac:(lia) ltac:(vm_compute; discriminate)
    ltac:(vm_compute; discriminate) ltac:(left; vm_compute; discriminate)) as [(m' & E & _) (m2' & D & _ & R)].
  fold demo_key demo_wire demo_text in *.
  assert (Lw : zlen demo_wire = 99) by (vm_compute; reflexivity).
  assert (Lt : zlen demo_text = 132) by (vm_compute; reflexivity). rewrite ?Lw, ?Lt in *.
  split; [vm_compute; reflexivity |]. exists m', m2'. split; [exact E | split; [exact D | exact R]].
Defined.

Lemma decrypt_authenticated_witness :
  nip44_decrypt_with_conversation_key demo_hash demo_cipher demo_key (mk_payload 2 0 32 34 66)
    (replicate 100 7, make_cursor 0 0) = Some (inl NIP44_ERR_INVALID_MAC, (replicate 100 7, make_cursor 0 0)).
Proof.
  set (pt := crypt demo_hash demo_cipher demo_key (replicate 32 7) (replicate 34 7)).
  set (v := nth 0 pt 0 * 256 + nth 1 pt 0).
  pose proof (decrypt_authenticated demo_hash demo_cipher demo_hash_len demo_hash_ok demo_cipher_len
    demo_key (mk_payload 2 0 32 34 66) (replicate 32 7) (replicate 34 7) (replicate 32 7) v (drop 2 pt)
    (replicate 100 7) (make_cursor 0 0)
    ltac:(apply bytes_ok_dec; vm_compute; reflexivity) ltac:(reflexivity) ltac:(reflexivity) ltac:(reflexivity)
    ltac:(split; [vm_compute; discriminate | vm_compute; reflexivity]) ltac:(vm_compute; reflexivity)) as H.
  rewrite bool_decide_false in H by (vm_compute; discriminate). exact H.
Defined.

Lemma version_byte_ignored_witness :
  let text := rfc4648_text (99 :: tail demo_wire) in
  exists m', nip44_decrypt_with_key demo_hash demo_cipher demo_key 0 132 140 99 (text ++ replicate 120 0, make_cursor 0 0)
      = Some (inr (175, 2), (m', make_cursor 0 0)) /\ loadn m' 175 2 = Some [104; 105].
Proof.
  assert (Hb : bytes_ok (replicate 32 1)) by (apply bytes_ok_dec; reflexivity).
  assert (Hp : bytes_ok [104; 105]) by (apply bytes_ok_dec; reflexivity).
  exact (version_byte_ignored demo_hash demo_cipher demo_hash_len demo_hash_ok demo_cipher_len demo_cipher_ok demo_cipher_twice
    demo_key (replicate 32 1) [104; 105] 99 0 140 99 (rfc4648_text (99 :: tail demo_wire) ++ replicate 120 0) (make_cursor 0 0)
    ltac:(apply bytes_ok_dec; vm_compute; reflexivity) Hb ltac:(reflexivity) Hp ltac:(split; vm_compute; discriminate)
    ltac:(unfold is_byte; lia) ltac:(lia) ltac:(vm_compute; discriminate) ltac:(vm_compute; reflexivity)
    ltac:(vm_compute; discriminate) ltac:(left; vm_compute; discriminate)).
Defined.

Lemma empty_plaintext_lost_witness :
  let text := rfc4648_text (wire demo_hash demo_cipher demo_key (replicate 32 1) []) in
  exists m', nip44_decrypt_with_key demo_hash demo_cipher demo_key 0 132 140 99 (text ++ replicate 120 0, make_cursor 0 0)
      = Some (inl NIP44_ERR_INVALID_PADDING, (m', make_cursor 0 0)).
Proof.
  assert (Hb : bytes_ok (replicate 32 1)) by (apply bytes_ok_dec; reflexivity).
  exact (proj2 (empty_plaintext_lost demo_hash demo_cipher demo_hash_len demo_hash_ok demo_cipher_len demo_cipher_ok demo_cipher_twice
    demo_key (replicate 32 1) 10 300 (replicate 320 0) (make_cursor 0 0)
    (rfc4648_text (wire demo_hash demo_cipher demo_key (replicate 32 1) []) ++ replicate 120 0) (make_cursor 0 0) 0 140 99
    ltac:(apply bytes_ok_dec; vm_compute; reflexivity) Hb ltac:(reflexivity) ltac:(lia) ltac:(vm_compute; discriminate) ltac:(lia)
    ltac:(lia) ltac:(vm_compute; reflexivity) ltac:(lia) ltac:(vm_compute; discriminate) ltac:(lia) ltac:(left; lia))).
Defined.
