(* ===== verification/Reader.v ===== *)
(** * Readers

    A computation over a cursor that only reads: defined on every well-formed
    cursor, it leaves memory as it is and moves the position forward at most to
    the end.  The scanners of cursor.h are readers; parsers are put together from
    them. *)

From S2P Require Import Prelude Cursor.

Class Reader {A} (w : CM A) : Prop :=
  reader_run : forall m c, cwf (m, c) ->
    exists r p, w (m, c) = Some (r, (m, set_p c p)) /\ c_p c <= p <= c_end c.

Lemma set_p_id c : set_p c (c_p c) = c.
Proof. by destruct c. Qed.

Lemma set_p_set_p c p q : set_p (set_p c p) q = set_p c q.
Proof. reflexivity. Qed.

Lemma cwf_set_p m c p : cwf (m, c) -> c_p c <= p <= c_end c -> cwf (m, set_p c p).
Proof. unfold cwf. cbn. lia. Qed.

Lemma reader_here {A} (r : A) m c w : w (m, c) = Some (r, (m, c)) -> cwf (m, c) ->
  exists r p, w (m, c) = Some (r, (m, set_p c p)) /\ c_p c <= p <= c_end c.
Proof. intros E W. exists r, (c_p c). rewrite set_p_id. split; [done |]. unfold cwf in W. cbn in W. lia. Qed.

#[export] Instance Reader_ret {A} (a : A) : Reader (ret a).
Proof. intros m c W. by apply (reader_here a). Qed.

#[export] Instance Reader_bind {A B} (w : CM A) (k : A -> CM B) :
  Reader w -> (forall a, Reader (k a)) -> Reader (bind w k).
Proof.
  intros Hw Hk m c W. destruct (Hw m c W) as (r & p & E & Hp). rewrite (run_bind _ _ _ _ _ E).
  destruct (Hk r m (set_p c p) (cwf_set_p m c p W Hp)) as (r2 & p2 & E2 & Hp2).
  exists r2, p2. split; [exact E2 |]. cbn in Hp2. lia.
Qed.

#[export] Instance Reader_if {A} (b : bool) (w1 w2 : CM A) : Reader w1 -> Reader w2 -> Reader (if b then w1 else w2).
Proof. by destruct b. Qed.

#[export] Instance Reader_andM (w1 w2 : CM bool) : Reader w1 -> Reader w2 -> Reader (w1 &&* w2).
Proof. intros. apply Reader_bind; [done |]. intros []; [done | apply Reader_ret]. Qed.

Lemma Reader_Safe {A} (w : CM A) : Reader w -> Safe w.
Proof.
  intros Hw [m c] W. destruct (Hw m c W) as (r & p & E & Hp). exists r, (m, set_p c p). split; [done |].
  by apply frame_goto.
Qed.

Lemma Reader_cur_bind {B} (k : cursor -> CM B) :
  (forall m c, cwf (m, c) -> exists r p, k c (m, c) = Some (r, (m, set_p c p)) /\ c_p c <= p <= c_end c) ->
  Reader (bind cur k).
Proof. intros H m c W. rewrite bind_cur. auto. Qed.

#[export] Instance Reader_cur : Reader cur.
Proof. intros m c W. by apply (reader_here c). Qed.

(** Closes a branch that stays where it is, or moves as far as the context allows. *)
Ltac reader_done :=
  match goal with
  | |- exists r p, ret ?a (_, ?c) = _ /\ _ => apply (reader_here a); [reflexivity | assumption]
  | |- exists r p, ret ?a (_, set_p ?c ?q) = _ /\ _ => exists a, q; split; [reflexivity | lia]
  end.

#[export] Instance Reader_pull_byte : Reader cursor_pull_byte.
Proof.
  apply Reader_cur_bind. intros m c W. destruct (Z.leb_spec (c_end c) (c_p c)); [reader_done |].
  destruct (load8_cwf m c (c_p c) W) as [b Hb]; [unfold cwf in W; simpl in W; lia |].
  rewrite (bind_peek8 _ _ _ _ _ Hb), bind_goto. reader_done.
Qed.

#[export] Instance Reader_parse_byte : Reader parse_byte.
Proof.
  apply Reader_cur_bind. intros m c W. destruct (Z.leb_spec (c_end c) (c_p c)); [reader_done |].
  destruct (load8_cwf m c (c_p c) W) as [b Hb]; [unfold cwf in W; simpl in W; lia |].
  rewrite (bind_peek8 _ _ _ _ _ Hb). reader_done.
Qed.

#[export] Instance Reader_parse_char ch : Reader (parse_char ch).
Proof.
  apply Reader_cur_bind. intros m c W. destruct (Z.leb_spec (c_end c) (c_p c)); [reader_done |].
  destruct (load8_cwf m c (c_p c) W) as [b Hb]; [unfold cwf in W; simpl in W; lia |].
  rewrite (bind_peek8 _ _ _ _ _ Hb). destruct (b =? ch); [rewrite bind_goto |]; reader_done.
Qed.

#[export] Instance Reader_peek_char i : Reader (peek_char i).
Proof.
  apply Reader_cur_bind. intros m c W.
  destruct (Z.ltb_spec (c_p c + i) (c_start c)), (Z.leb_spec (c_end c) (c_p c + i)); simpl; try reader_done.
  destruct (load8_cwf m c (c_p c + i) W) as [b Hb]; [lia |].
  apply (reader_here b); [| done]. unfold peek8, bind, get, lift. simpl. by rewrite Hb.
Qed.

Lemma Reader_cursor_skip n : 0 <= n -> Reader (cursor_skip n).
Proof.
  intros Hn. apply Reader_cur_bind. intros m c W.
  destruct (Z.leb_spec (c_end c) (c_p c + n)); [reader_done |]. rewrite bind_goto. reader_done.
Qed.

Lemma Reader_cursor_pull n : 0 <= n -> Reader (cursor_pull n).
Proof.
  intros Hn. apply Reader_cur_bind. intros m c W.
  destruct (Z.ltb_spec (c_end c) (c_p c + n)); [reader_done |]. pose proof W as (?&?&?). simpl in *.
  rewrite (bind_peekn _ _ _ _ _ _ (loadn_in_range m (c_p c) n ltac:(lia) Hn ltac:(lia))). rewrite bind_goto. reader_done.
Qed.

Lemma Reader_pull_bytes n : 0 <= n -> Reader (pull_bytes n).
Proof.
  intros Hn. apply Reader_cur_bind. intros m c W.
  destruct (Z.ltb_spec (c_end c) (c_p c + n)); [reader_done |]. rewrite bind_goto. reader_done.
Qed.

#[export] Instance Reader_pull_u16 : Reader cursor_pull_u16.
Proof. apply Reader_bind; [by apply Reader_cursor_pull |]. intros. apply Reader_ret. Qed.

#[export] Instance Reader_pull_varint : Reader cursor_pull_varint.
Proof.
  unfold cursor_pull_varint. generalize 0 at 2 as n. generalize 0 as i.
  generalize 10%nat as k. induction k as [| k IH]; intros i n; simpl; [apply Reader_ret |].
  apply Reader_bind; [apply _ |]. intros [b |]; [| apply Reader_ret].
  apply Reader_if; [apply Reader_ret | apply IH].
Qed.

#[export] Instance Reader_pull_varint_u32 : Reader cursor_pull_varint_u32.
Proof. unfold cursor_pull_varint_u32. apply _. Qed.

Lemma Reader_pull_c_str_loop k : Reader (pull_c_str_loop k).
Proof.
  induction k as [| k IH]; cbn [pull_c_str_loop]; [apply Reader_ret |].
  apply Reader_cur_bind. intros m c W. destruct (Z.ltb_spec (c_p c) (c_end c)); [| reader_done].
  destruct (load8_cwf m c (c_p c) W) as [b Hb]; [unfold cwf in W; simpl in W; lia |].
  rewrite (bind_peek8 _ _ _ _ _ Hb), bind_goto. destruct (b =? 0); [reader_done |].
  destruct (IH m (set_p c (c_p c + 1)) (cwf_set_p m c (c_p c + 1) W ltac:(lia))) as (r & p & E & Hp).
  exists r, p. split; [exact E |]. cbn in Hp. lia.
Qed.

#[export] Instance Reader_pull_c_str : Reader cursor_pull_c_str.
Proof.
  apply Reader_cur_bind. intros m c W.
  destruct (Reader_pull_c_str_loop (Z.to_nat (c_end c - c_p c)) m c W) as (r & p & E & Hp).
  rewrite (run_bind _ _ _ _ _ E). by exists (if r then Some (c_p c) else None), p.
Qed.

#[export] Instance Reader_parse_str str : Reader (parse_str str).
Proof.
  apply Reader_cur_bind. intros m c W. pose proof (zlen_nonneg str).
  destruct (Z.leb_spec (c_end c) (c_p c + zlen str)); [reader_done |].
  pose proof W as (?&?&?). simpl in *.
  rewrite (bind_peekn _ _ _ _ _ _ (loadn_in_range m (c_p c) (zlen str) ltac:(lia) (zlen_nonneg _) ltac:(lia))).
  case_decide; [rewrite bind_goto |]; reader_done.
Qed.

#[export] Instance Reader_until_boundary : Reader consume_until_boundary.
Proof.
  apply Reader_cur_bind. intros m c W.
  generalize (Z.to_nat (c_end c - c_p c)) as k. intros k. revert m c W.
  induction k as [| k IH]; intros m c W; cbn [until_boundary_loop]; [reader_done |].
  rewrite bind_cur. destruct (Z.ltb_spec (c_p c) (c_end c)); [| reader_done].
  destruct (load8_cwf m c (c_p c) W) as [b Hb]; [unfold cwf in W; simpl in W; lia |].
  rewrite (bind_peek8 _ _ _ _ _ Hb). destruct (is_whitespace b); [reader_done |].
  assert (E : exists ok cp len,
    (if is_utf8_byte b then parse_utf8_char b 1 else ret (true, b, 1)) (m, c)
      = Some ((ok, cp, len), (m, c)) /\ 1 <= len <= 4).
  { destruct (is_utf8_byte b); [apply parse_utf8_char_spec; [done | lia] |].
    eexists _, _, _; split; [reflexivity | lia]. }
  destruct E as (ok & cp & len & E & Hlen). rewrite (run_bind _ _ _ _ _ E).
  destruct (negb ok && _); [reader_done |]. destruct (is_right_boundary cp); [reader_done |].
  rewrite bind_goto. set (q := if c_p c + len <=? c_end c then c_p c + len else c_p c + 1).
  assert (Hq : c_p c <= q <= c_end c) by (unfold q; destruct (Z.leb_spec (c_p c + len) (c_end c)); lia).
  destruct (IH m (set_p c q) (cwf_set_p m c q W Hq)) as (r & p & E' & Hp). exists r, p. split; [exact E' |]. cbn in Hp. lia.
Qed.

#[export] Instance Reader_until_loop stop k consumed or_end : Reader (until_loop stop k consumed or_end).
Proof.
  revert consumed. induction k as [| k IH]; intros consumed; cbn [until_loop]; [apply Reader_ret |].
  apply Reader_cur_bind. intros m c W. destruct (Z.ltb_spec (c_p c) (c_end c)); [| reader_done].
  destruct (load8_cwf m c (c_p c) W) as [b Hb]; [unfold cwf in W; simpl in W; lia |].
  rewrite (bind_peek8 _ _ _ _ _ Hb). destruct (stop b); [reader_done |]. rewrite bind_goto.
  destruct (IH true m (set_p c (c_p c + 1)) (cwf_set_p m c (c_p c + 1) W ltac:(lia))) as (r & p & E & Hp).
  exists r, p. split; [exact E |]. cbn in Hp. lia.
Qed.

#[export] Instance Reader_until_whitespace or_end : Reader (consume_until_whitespace or_end).
Proof. apply Reader_cur_bind. intros. by apply Reader_until_loop. Qed.

#[export] Instance Reader_until_non_alphanumeric or_end : Reader (consume_until_non_alphanumeric or_end).
Proof. apply Reader_cur_bind. intros. by apply Reader_until_loop. Qed.
