(* ===== verification/Bech32.v ===== *)
(** * Bech32 (src/src/bolt11/bech32.c)

    The codec nostr entities and invoices are written in: a human readable part,
    a separator, symbols of five bits, and six symbols of a checksum.  The
    functions on character lists are the loops of the C code; [bech32_decode_len]
    and [bech32_convert_bits] run them between regions of memory. *)

From S2P Require Import Prelude Cursor.

(** ** Checksum *)

Inductive bech32_encoding := BECH32_ENCODING_NONE | BECH32_ENCODING_BECH32 | BECH32_ENCODING_BECH32M.

#[export] Instance encoding_eq_dec : EqDecision bech32_encoding.
Proof. solve_decision. Defined.

Definition bech32_polymod_step (pre : Z) : Z :=
  let b := u8 (Z.shiftr pre 25) in
  u32 (Z.lxor (Z.lxor (Z.lxor (Z.lxor (Z.lxor
    (Z.shiftl (Z.land pre 0x1FFFFFF) 5)
    (Z.land (- Z.land (Z.shiftr b 0) 1) 0x3b6a57b2))
    (Z.land (- Z.land (Z.shiftr b 1) 1) 0x26508e6d))
    (Z.land (- Z.land (Z.shiftr b 2) 1) 0x1ea119fa))
    (Z.land (- Z.land (Z.shiftr b 3) 1) 0x3d4233dd))
    (Z.land (- Z.land (Z.shiftr b 4) 1) 0x2a1462b3)).

(** Asserts that there is an encoding. *)
Definition bech32_final_constant (enc : bech32_encoding) : option Z :=
  match enc with
  | BECH32_ENCODING_BECH32 => Some 1
  | BECH32_ENCODING_BECH32M => Some 0x2bc830a3
  | BECH32_ENCODING_NONE => None
  end.

(** "qpzry9x8gf2tvdw0s3jn54khce6mua7l" *)
Definition bech32_charset : list Z :=
  [113; 112; 122; 114; 121; 57; 120; 56; 103; 102; 50; 116; 118; 100; 119; 48;
   115; 51; 106; 110; 53; 52; 107; 104; 99; 101; 54; 109; 117; 97; 55; 108].

Definition bech32_charset_rev : list Z :=
  [-1; -1; -1; -1; -1; -1; -1; -1; -1; -1; -1; -1; -1; -1; -1; -1;
   -1; -1; -1; -1; -1; -1; -1; -1; -1; -1; -1; -1; -1; -1; -1; -1;
   -1; -1; -1; -1; -1; -1; -1; -1; -1; -1; -1; -1; -1; -1; -1; -1;
   15; -1; 10; 17; 21; 20; 26; 30;  7;  5; -1; -1; -1; -1; -1; -1;
   -1; 29; -1; 24; 13; 25;  9;  8; 23; -1; 18; 22; 31; 27; 19; -1;
    1;  0;  3; 16; 11; 28; 12; 14;  6;  4;  2; -1; -1; -1; -1; -1;
   -1; 29; -1; 24; 13; 25;  9;  8; 23; -1; 18; 22; 31; 27; 19; -1;
    1;  0;  3; 16; 11; 28; 12; 14;  6;  4;  2; -1; -1; -1; -1; -1].

(** ** Encoding *)

Fixpoint encode_hrp_high (hrp : list Z) (chk : Z) : option Z :=
  match hrp with
  | [] => Some chk
  | ch :: hrp =>
      if (ch <? 33) || (126 <? ch) then None
      else if (65 <=? ch) && (ch <=? 90) then None
      else encode_hrp_high hrp (Z.lxor (bech32_polymod_step chk) (Z.shiftr ch 5))
  end.

Fixpoint encode_hrp_low (hrp : list Z) (chk : Z) : Z :=
  match hrp with
  | [] => chk
  | ch :: hrp => encode_hrp_low hrp (Z.lxor (bech32_polymod_step chk) (Z.land ch 0x1f))
  end.

Fixpoint encode_data (data : list Z) (chk : Z) : option (list Z * Z) :=
  match data with
  | [] => Some ([], chk)
  | v :: data =>
      if negb (Z.shiftr v 5 =? 0) then None
      else
        c ← bech32_charset !! Z.to_nat v;
        r ← encode_data data (Z.lxor (bech32_polymod_step chk) v);
        Some (c :: fst r, snd r)
  end.

Definition checksum_chars (chk : Z) : option (list Z) :=
  mapM (fun i => bech32_charset !! Z.to_nat (Z.land (Z.shiftr chk ((5 - i) * 5)) 0x1f)) [0; 1; 2; 3; 4; 5].

(** The text, without its terminator, or [None] where the code returns 0. *)
Definition bech32_encode (hrp data : list Z) (max_input_len : Z) (enc : bech32_encoding) : option (list Z) :=
  chk ← encode_hrp_high hrp 1;
  if max_input_len <? zlen hrp + 7 + zlen data then None
  else
    let chk := bech32_polymod_step chk in
    let chk := encode_hrp_low hrp chk in
    r ← encode_data data chk;
    let chk := Nat.iter 6 bech32_polymod_step (snd r) in
    k ← bech32_final_constant enc;
    cs ← checksum_chars (Z.lxor chk k);
    Some (hrp ++ [49] ++ fst r ++ cs).

(** ** Decoding *)

(** What the decoder has found: the human readable part, and the symbols it has stored. *)
Record bech32_text := mk_text { t_enc : bech32_encoding; t_hrp : list Z; t_data : list Z; t_data_len : Z }.

(** The number of characters after the last separator, over the reversed input. *)
Fixpoint count_data (rev_input : list Z) : Z :=
  match rev_input with
  | [] => 0
  | c :: r => if c =? 49 then 0 else 1 + count_data r
  end.

Definition is_lower (ch : Z) : bool := (97 <=? ch) && (ch <=? 122).
Definition is_upper (ch : Z) : bool := (65 <=? ch) && (ch <=? 90).

(** [hrp_size] is the room for the human readable part; the outer [None] is a
    store outside it, the inner one a character that is not allowed. *)
Fixpoint decode_hrp_high (hrp_size : Z) (input : list Z) (chk : Z) (lower upper : bool) (hrp : list Z)
  : option (option (Z * bool * bool * list Z)) :=
  match input with
  | [] => if zlen hrp <? hrp_size then Some (Some (chk, lower, upper, hrp)) else None
  | ch :: input =>
      if (ch <? 33) || (126 <? ch) then Some None
      else if hrp_size <=? zlen hrp then None
      else
        let lower' := lower || is_lower ch in
        let upper' := upper || is_upper ch in
        let ch := if is_upper ch then ch - 65 + 97 else ch in
        decode_hrp_high hrp_size input (Z.lxor (bech32_polymod_step chk) (Z.shiftr ch 5)) lower' upper' (hrp ++ [ch])
  end.

(** The symbols stored, and the checksum and cases seen unless a character is not allowed. *)
Fixpoint decode_data (input : list Z) (chk : Z) (lower upper : bool) : list Z * option (Z * bool * bool) :=
  match input with
  | [] => ([], Some (chk, lower, upper))
  | ch :: input =>
      let v := if negb (Z.land ch 0x80 =? 0) then -1 else default (-1) (bech32_charset_rev !! Z.to_nat ch) in
      let lower := lower || is_lower ch in
      let upper := upper || is_upper ch in
      if v =? -1 then ([], None)
      else
        let r := decode_data input (Z.lxor (bech32_polymod_step chk) v) lower upper in
        (if 6 <=? zlen input then v :: fst r else fst r, snd r)
  end.

Definition bech32_failed (data : list Z) (data_len : Z) : bech32_text := mk_text BECH32_ENCODING_NONE [] data data_len.

(** [bech32_decode_len] on the characters of its input. *)
Definition decode_chars (hrp_size : Z) (input : list Z) (max_hrp_len : Z) : option bech32_text :=
  if zlen input <? 8 then Some (bech32_failed [] 0)
  else
    let data_len := count_data (rev input) in
    let hrp_len := u64 (zlen input - (1 + data_len)) in
    if u64 max_hrp_len <? hrp_len then Some (bech32_failed [] data_len)
    else if (zlen input <=? 1 + data_len) || (data_len <? 6) then Some (bech32_failed [] data_len)
    else
      let data_len := data_len - 6 in
      let hrp_chars := take (Z.to_nat hrp_len) input in
      high ← decode_hrp_high hrp_size hrp_chars 1 false false [];
      match high with
      | None => Some (bech32_failed [] data_len)
      | Some (chk, lower, upper, hrp) =>
          let chk := bech32_polymod_step chk in
          let chk := encode_hrp_low hrp_chars chk in
          let '(data, r) := decode_data (drop (Z.to_nat (hrp_len + 1)) input) chk lower upper in
          match r with
          | None => Some (bech32_failed data data_len)
          | Some (chk, lower, upper) =>
              if lower && upper then Some (bech32_failed data data_len)
              else if chk =? 1 then Some (mk_text BECH32_ENCODING_BECH32 hrp data data_len)
              else if chk =? 0x2bc830a3 then Some (mk_text BECH32_ENCODING_BECH32M hrp data data_len)
              else Some (bech32_failed data data_len)
          end
      end.

(** Stores the symbols at [data]; the encoding, the human readable part and the
    number of symbols. *)
Definition bech32_decode_len (hrp_size data input input_len max_hrp_len : Z) : CM (bech32_encoding * list Z * Z) :=
  let* l := peekn input input_len in
  let* t := lift (decode_chars hrp_size l max_hrp_len) in
  do* poke data (t_data t) in
  ret (t_enc t, t_hrp t, t_data_len t).

(** ** Regrouping bits *)

Fixpoint emit_bits (fuel : nat) (val bits outbits maxv : Z) : list Z * Z :=
  match fuel with
  | O => ([], bits)
  | S fuel =>
      if outbits <=? bits then
        let bits := bits - outbits in
        let r := emit_bits fuel val bits outbits maxv in
        (Z.land (Z.shiftr val bits) maxv :: fst r, snd r)
      else ([], bits)
  end.

Fixpoint convert_loop (input : list Z) (inbits outbits maxv val bits : Z) : list Z * (Z * Z) :=
  match input with
  | [] => ([], (val, bits))
  | b :: input =>
      let val := Z.lor (u32 (Z.shiftl val inbits)) b in
      let bits := bits + inbits in
      let '(out, bits) := emit_bits (Z.to_nat bits) val bits outbits maxv in
      let '(rest, s) := convert_loop input inbits outbits maxv val bits in
      (out ++ rest, s)
  end.

(** The output, and whether the code returns 1. *)
Definition convert_chars (input : list Z) (outbits inbits : Z) (pad : bool) : list Z * bool :=
  let maxv := u32 (u32 (Z.shiftl 1 outbits) - 1) in
  let '(out, (val, bits)) := convert_loop input inbits outbits maxv 0 0 in
  let last := Z.land (u32 (Z.shiftl val (outbits - bits))) maxv in
  if pad then (if bits =? 0 then out else out ++ [last], true)
  else (out, (last =? 0) && (bits <? inbits)).

Definition bech32_convert_bits (out outbits input inlen inbits : Z) (pad : bool) : CM (bool * Z) :=
  let* l := peekn input inlen in
  let '(bytes, ok) := convert_chars l outbits inbits pad in
  do* poke out bytes in
  ret (ok, zlen bytes).

(** * Lemmas *)

(** ** The checksum is linear *)

Lemma testbit_u32 x i : 0 <= i -> Z.testbit (u32 x) i = (i <? 32) && Z.testbit x i.
Proof.
  intros Hi. unfold u32. destruct (Z.ltb_spec i 32).
  - by rewrite Z.mod_pow2_bits_low by lia.
  - by rewrite Z.mod_pow2_bits_high by lia.
Qed.

Lemma testbit_u8 x i : 0 <= i -> Z.testbit (u8 x) i = (i <? 8) && Z.testbit x i.
Proof.
  intros Hi. unfold u8. destruct (Z.ltb_spec i 8).
  - by rewrite Z.mod_pow2_bits_low by lia.
  - by rewrite Z.mod_pow2_bits_high by lia.
Qed.

(** A generator is added when its bit is set. *)
Lemma generator_bit b k c : 0 <= k ->
  Z.land (- Z.land (Z.shiftr b k) 1) c = if Z.testbit b k then c else 0.
Proof.
  intros Hk. assert (E : Z.land (Z.shiftr b k) 1 = Z.b2z (Z.testbit b k)).
  { change 1 with (Z.ones 1). rewrite Z.land_ones by lia. change (2 ^ 1) with 2.
    rewrite <- Z.bit0_mod. by rewrite Z.shiftr_spec, Z.add_0_l by lia. }
  rewrite E. destruct (Z.testbit b k); cbn [Z.b2z].
  - apply Z.land_m1_l.
  - apply Z.land_0_l.
Qed.

Definition gens (x : Z) : Z :=
  Z.lxor (Z.lxor (Z.lxor (Z.lxor
    (if Z.testbit x 25 then 0x3b6a57b2 else 0)
    (if Z.testbit x 26 then 0x26508e6d else 0))
    (if Z.testbit x 27 then 0x1ea119fa else 0))
    (if Z.testbit x 28 then 0x3d4233dd else 0))
    (if Z.testbit x 29 then 0x2a1462b3 else 0).

Lemma step_gens x : bech32_polymod_step x = u32 (Z.lxor (Z.shiftl (Z.land x 0x1FFFFFF) 5) (gens x)).
Proof.
  unfold bech32_polymod_step, gens. cbv zeta. rewrite !generator_bit by lia.
  rewrite !testbit_u8 by lia. rewrite !Z.shiftr_spec by lia. cbn [Z.ltb Z.compare Pos.compare Pos.compare_cont andb].
  by rewrite !Z.lxor_assoc.
Qed.

Lemma gens_lxor x y : gens (Z.lxor x y) = Z.lxor (gens x) (gens y).
Proof.
  unfold gens. rewrite !Z.lxor_spec.
  destruct (Z.testbit x 25), (Z.testbit x 26), (Z.testbit x 27), (Z.testbit x 28), (Z.testbit x 29),
    (Z.testbit y 25), (Z.testbit y 26), (Z.testbit y 27), (Z.testbit y 28), (Z.testbit y 29); reflexivity.
Qed.

Lemma u32_lxor x y : u32 (Z.lxor x y) = Z.lxor (u32 x) (u32 y).
Proof.
  apply Z.bits_inj'. intros i Hi. rewrite Z.lxor_spec, !testbit_u32, Z.lxor_spec by done.
  by destruct (i <? 32), (Z.testbit x i), (Z.testbit y i).
Qed.

Lemma step_lxor x y : bech32_polymod_step (Z.lxor x y) = Z.lxor (bech32_polymod_step x) (bech32_polymod_step y).
Proof.
  rewrite !step_gens, gens_lxor, <- u32_lxor. f_equal.
  apply Z.bits_inj'. intros i Hi. rewrite !Z.lxor_spec.
  destruct (Z.lt_ge_cases i 5).
  - rewrite !Z.shiftl_spec_low by done.
    by destruct (Z.testbit (gens x) i), (Z.testbit (gens y) i).
  - rewrite !Z.shiftl_spec_high by lia. rewrite !Z.land_spec, Z.lxor_spec.
    by destruct (Z.testbit x (i - 5)), (Z.testbit y (i - 5)), (Z.testbit 0x1FFFFFF (i - 5)), (Z.testbit (gens x) i), (Z.testbit (gens y) i).
Qed.

(** While the top five bits are clear a step only shifts. *)
Lemma step_small x : 0 <= x < 2 ^ 25 -> bech32_polymod_step x = x * 32.
Proof.
  intros Hx. rewrite step_gens.
  assert (B : forall k, 25 <= k -> Z.testbit x k = false).
  { intros k Hk. destruct (Z.eq_dec x 0) as [-> |]; [apply Z.bits_0 |].
    apply Z.bits_above_log2; [lia |]. apply Z.lt_le_trans with 25; [apply Z.log2_lt_pow2; lia | done]. }
  unfold gens. rewrite !B by lia.
  change 0x1FFFFFF with (Z.ones 25). rewrite Z.land_ones by lia. rewrite (Z.mod_small x) by done.
  rewrite Z.shiftl_mul_pow2 by lia. change (2 ^ 5) with 32.
  change (Z.lxor (Z.lxor (Z.lxor (Z.lxor 0 0) 0) 0) 0) with 0. rewrite Z.lxor_0_r. apply Z.mod_small. lia.
Qed.

Lemma step_range x : 0 <= bech32_polymod_step x < 2 ^ 30.
Proof.
  assert (Hz : forall z, 0 <= z -> (forall i, 30 <= i -> Z.testbit z i = false) -> z < 2 ^ 30).
  { intros z Hz Hb. destruct (Z.eq_dec z 0) as [-> |]; [reflexivity |].
    apply Z.log2_lt_pow2; [lia |]. destruct (Z.lt_ge_cases (Z.log2 z) 30) as [| Hge]; [done |].
    specialize (Hb (Z.log2 z) Hge). rewrite Z.bit_log2 in Hb by lia. discriminate. }
  assert (Hp : 0 <= bech32_polymod_step x) by (rewrite step_gens; apply Z.mod_pos_bound; lia).
  split; [done |]. apply Hz; [done |]. intros i Hi. rewrite step_gens, testbit_u32, Z.lxor_spec by lia.
  assert (G : Z.testbit (gens x) i = false).
  { apply Z.bits_above_log2; unfold gens;
      destruct (Z.testbit x 25), (Z.testbit x 26), (Z.testbit x 27), (Z.testbit x 28), (Z.testbit x 29); try (vm_compute; discriminate);
      (apply Z.lt_le_trans with 30; [vm_compute; reflexivity | done]). }
  rewrite G, Z.shiftl_spec_high, Z.land_spec by lia.
  change 0x1FFFFFF with (Z.ones 25). rewrite (Z.ones_spec_high 25) by lia. by rewrite andb_false_r, andb_false_r.
Qed.

Lemma lxor_mul32 p s : 0 <= p -> 0 <= s < 32 -> Z.lxor (p * 32) s = p * 32 + s.
Proof.
  intros Hp Hs. rewrite Z.add_nocarry_lxor; [done |]. apply Z.bits_inj'. intros i Hi.
  rewrite Z.land_spec, Z.bits_0. change 32 with (2 ^ 5). rewrite <- Z.shiftl_mul_pow2 by lia.
  destruct (Z.lt_ge_cases i 5).
  - by rewrite Z.shiftl_spec_low.
  - apply andb_false_iff. right. destruct (Z.eq_dec s 0) as [-> |]; [apply Z.bits_0 |].
    apply Z.bits_above_log2; [lia |]. apply Z.lt_le_trans with 5; [apply Z.log2_lt_pow2; lia | done].
Qed.

Lemma absorb a p s : 0 <= p < 2 ^ 25 -> 0 <= s < 32 ->
  Z.lxor (bech32_polymod_step (Z.lxor a p)) s = Z.lxor (bech32_polymod_step a) (p * 32 + s).
Proof. intros Hp Hs. rewrite step_lxor, (step_small p) by done. rewrite Z.lxor_assoc, lxor_mul32; lia || done. Qed.

Definition absorb_all (vs : list Z) (chk : Z) : Z :=
  fold_left (fun c v => Z.lxor (bech32_polymod_step c) v) vs chk.

(** The six symbols of a checksum, most significant first. *)
Definition checksum_symbols (chk : Z) : list Z :=
  map (fun i => Z.land (Z.shiftr chk ((5 - i) * 5)) 0x1f) [0; 1; 2; 3; 4; 5].

Lemma symbol_val chk k : 0 <= k -> Z.land (Z.shiftr chk k) 0x1f = chk / 2 ^ k mod 32.
Proof. intros Hk. change 0x1f with (Z.ones 5). by rewrite Z.land_ones, Z.shiftr_div_pow2 by lia. Qed.

(** Absorbing the checksum leaves what it was built to leave. *)
Lemma absorb_checksum c chk : 0 <= chk < 2 ^ 30 ->
  absorb_all (checksum_symbols chk) c = Z.lxor (Nat.iter 6 bech32_polymod_step c) chk.
Proof.
  intros Hc. unfold checksum_symbols. cbn [map]. rewrite !symbol_val by lia.
  unfold absorb_all. cbn [fold_left].
  change (2 ^ ((5 - 0) * 5)) with 33554432. change (2 ^ ((5 - 1) * 5)) with 1048576.
  change (2 ^ ((5 - 2) * 5)) with 32768. change (2 ^ ((5 - 3) * 5)) with 1024.
  change (2 ^ ((5 - 4) * 5)) with 32. change (2 ^ ((5 - 5) * 5)) with 1.
  set (s0 := chk / 33554432 mod 32). set (s1 := chk / 1048576 mod 32). set (s2 := chk / 32768 mod 32).
  set (s3 := chk / 1024 mod 32). set (s4 := chk / 32 mod 32). set (s5 := chk / 1 mod 32).
  assert (R : 0 <= s0 < 32 /\ 0 <= s1 < 32 /\ 0 <= s2 < 32 /\ 0 <= s3 < 32 /\ 0 <= s4 < 32 /\ 0 <= s5 < 32)
    by (unfold s0, s1, s2, s3, s4, s5; repeat split; apply Z.mod_pos_bound; lia).
  destruct R as (R0 & R1 & R2 & R3 & R4 & R5).
  rewrite (absorb _ s0 s1) by lia. set (t1 := s0 * 32 + s1). rewrite (absorb _ t1 s2) by lia.
  set (t2 := t1 * 32 + s2). rewrite (absorb _ t2 s3) by lia. set (t3 := t2 * 32 + s3).
  rewrite (absorb _ t3 s4) by lia. set (t4 := t3 * 32 + s4). rewrite (absorb _ t4 s5) by lia.
  assert (Ec : t4 * 32 + s5 = chk); [| unfold Nat.iter; cbn [nat_rect]; rewrite Ec; reflexivity]. unfold t4, t3, t2, t1.
  assert (E : forall k, 0 <= k -> chk / 2 ^ k = chk / 2 ^ (k + 5) * 32 + chk / 2 ^ k mod 32).
  { intros k Hk. rewrite Z.pow_add_r by lia. rewrite <- Z.div_div by lia. change (2 ^ 5) with 32.
    rewrite Z.mul_comm. apply Z.div_mod. lia. }
  pose proof (E 0 ltac:(lia)) as E0. pose proof (E 5 ltac:(lia)) as E1. pose proof (E 10 ltac:(lia)) as E2.
  pose proof (E 15 ltac:(lia)) as E3. pose proof (E 20 ltac:(lia)) as E4.
  assert (E5 : s0 = chk / 33554432).
  { apply Z.mod_small. split; [apply Z.div_pos; lia | apply Z.div_lt_upper_bound; lia]. }
  change (chk / 2 ^ 0) with (chk / 1) in E0. change (2 ^ (0 + 5)) with 32 in E0.
  change (2 ^ 5) with 32 in E1. change (2 ^ (5 + 5)) with 1024 in E1.
  change (2 ^ 10) with 1024 in E2. change (2 ^ (10 + 5)) with 32768 in E2.
  change (2 ^ 15) with 32768 in E3. change (2 ^ (15 + 5)) with 1048576 in E3.
  change (2 ^ 20) with 1048576 in E4. change (2 ^ (20 + 5)) with 33554432 in E4.
  unfold s1, s2, s3, s4, s5 in *. rewrite ?Z.div_1_r in *. lia.
Qed.

(** ** Symbols and characters *)

Definition symbol (v : Z) : Prop := 0 <= v < 32.

Definition symbol_char (v : Z) : Z := default 0 (bech32_charset !! Z.to_nat v).

Lemma symbol_char_facts v : symbol v ->
  bech32_charset !! Z.to_nat v = Some (symbol_char v) /\
  Z.land (symbol_char v) 0x80 = 0 /\ bech32_charset_rev !! Z.to_nat (symbol_char v) = Some v /\
  symbol_char v <> 49 /\ is_upper (symbol_char v) = false /\ is_byte (symbol_char v).
Proof.
  intros Hv.
  assert (H : bool_decide (bech32_charset !! Z.to_nat v = Some (symbol_char v)) &&
    (Z.land (symbol_char v) 0x80 =? 0) && bool_decide (bech32_charset_rev !! Z.to_nat (symbol_char v) = Some v) &&
    (negb (symbol_char v =? 49) && negb (is_upper (symbol_char v)) && (0 <=? symbol_char v) && (symbol_char v <? 256)) = true).
  { revert v Hv. apply (Zrange_forallb 32 (fun v => bool_decide (bech32_charset !! Z.to_nat v = Some (symbol_char v)) &&
    (Z.land (symbol_char v) 0x80 =? 0) && bool_decide (bech32_charset_rev !! Z.to_nat (symbol_char v) = Some v) &&
    (negb (symbol_char v =? 49) && negb (is_upper (symbol_char v)) && (0 <=? symbol_char v) && (symbol_char v <? 256)))).
    vm_compute. reflexivity. }
  rewrite !andb_true_iff, !bool_decide_eq_true, !negb_true_iff in H. unfold is_byte. intuition lia.
Qed.

Lemma count_data_spec hrp ds : Forall (fun c => c <> 49) ds -> count_data (rev (hrp ++ 49 :: ds)) = zlen ds.
Proof.
  intros Hd. rewrite rev_app_distr. cbn [rev]. rewrite <- app_assoc.
  assert (G : forall l r, Forall (fun c => c <> 49) l -> count_data (l ++ 49 :: r) = zlen l).
  { clear. intros l r. induction 1 as [| c l Hc _ IH]; [done |]. cbn [app count_data].
    destruct (Z.eqb_spec c 49); [done |]. rewrite IH, zlen_cons. done. }
  cbn [app]. rewrite G; [unfold zlen; by rewrite length_rev |]. by apply List.Forall_rev.
Qed.

(** The characters the human readable part may have. *)
Definition hrp_char (ch : Z) : Prop := 33 <= ch <= 126 /\ is_upper ch = false.

Lemma encode_hrp_high_spec hrp chk :
  Forall hrp_char hrp -> encode_hrp_high hrp chk = Some (absorb_all (map (fun ch => Z.shiftr ch 5) hrp) chk).
Proof.
  intros H. revert chk. induction H as [| ch hrp [Hr Hu] _ IH]; intros chk; [done |]. cbn [encode_hrp_high].
  destruct (Z.ltb_spec ch 33), (Z.ltb_spec 126 ch); try lia. cbn [orb].
  unfold is_upper in Hu. rewrite Hu. by rewrite IH.
Qed.

Lemma encode_hrp_high_inv hrp chk r : encode_hrp_high hrp chk = Some r -> Forall hrp_char hrp.
Proof.
  revert chk. induction hrp as [| ch hrp IH]; intros chk H; [constructor |]. cbn [encode_hrp_high] in H.
  destruct (Z.ltb_spec ch 33), (Z.ltb_spec 126 ch); try discriminate. cbn [orb] in H.
  destruct ((65 <=? ch) && (ch <=? 90)) eqn:E; [discriminate |].
  constructor; [split; [lia | exact E] | eauto].
Qed.

Lemma encode_hrp_low_spec hrp chk : encode_hrp_low hrp chk = absorb_all (map (fun ch => Z.land ch 0x1f) hrp) chk.
Proof. revert chk. induction hrp as [| ch hrp IH]; intros chk; [done |]. apply IH. Qed.

Lemma encode_data_spec data chk : Forall symbol data ->
  encode_data data chk = Some (map symbol_char data, absorb_all data chk).
Proof.
  intros H. revert chk. induction H as [| v data Hv _ IH]; intros chk; [done |]. cbn [encode_data].
  assert (E : Z.shiftr v 5 = 0) by (rewrite Z.shiftr_div_pow2 by lia; apply Z.div_small; exact Hv).
  rewrite E. cbn [negb Z.eqb].
  destruct (symbol_char_facts v Hv) as (Ec & _). rewrite Ec. cbn [mbind option_bind]. by rewrite IH.
Qed.

Lemma encode_data_inv data chk r : bytes_ok data -> encode_data data chk = Some r -> Forall symbol data.
Proof.
  intros Hb. revert chk r. induction Hb as [| v data Hv _ IH]; intros chk r H; [constructor |]. cbn [encode_data] in H.
  destruct (Z.eqb_spec (Z.shiftr v 5) 0) as [E |]; [| discriminate]. cbn [negb] in H.
  destruct (bech32_charset !! Z.to_nat v); [| discriminate]. cbn [mbind option_bind] in H.
  destruct (encode_data data _) as [r' |] eqn:Er; [| discriminate].
  constructor; [| by eapply IH]. unfold symbol. rewrite Z.shiftr_div_pow2 in E by lia. change (2 ^ 5) with 32 in E.
  unfold is_byte in Hv. pose proof (Z.div_mod v 32 ltac:(lia)). pose proof (Z.mod_pos_bound v 32 ltac:(lia)). lia.
Qed.

Lemma checksum_symbols_ok chk : Forall symbol (checksum_symbols chk).
Proof.
  unfold checksum_symbols. cbn [map]. rewrite !symbol_val by lia.
  repeat constructor; apply Z.mod_pos_bound; lia.
Qed.

Lemma checksum_chars_spec chk : checksum_chars chk = Some (map symbol_char (checksum_symbols chk)).
Proof.
  pose proof (checksum_symbols_ok chk) as H. unfold checksum_chars, checksum_symbols in *. cbn [map] in *.
  repeat match goal with H : Forall _ (_ :: _) |- _ => apply List.Forall_cons_iff in H as [? H] end.
  cbn [mapM]. repeat match goal with H : symbol ?v |- _ => destruct (symbol_char_facts v H) as (-> & _); clear H end.
  reflexivity.
Qed.

Lemma decode_hrp_high_spec hrp_size hrp : Forall hrp_char hrp -> forall acc chk lower upper,
  zlen acc + zlen hrp < hrp_size ->
  exists lower', decode_hrp_high hrp_size hrp chk lower upper acc
    = Some (Some (absorb_all (map (fun ch => Z.shiftr ch 5) hrp) chk, lower', upper, acc ++ hrp)).
Proof.
  induction 1 as [| ch hrp [Hr Hu] _ IH]; intros acc chk lower upper Hs.
  - exists lower. cbn [decode_hrp_high]. rewrite zlen_nil in Hs. destruct (Z.ltb_spec (zlen acc) hrp_size); [| lia].
    by rewrite app_nil_r.
  - cbn [decode_hrp_high]. rewrite zlen_cons in Hs. pose proof (zlen_nonneg hrp).
    destruct (Z.ltb_spec ch 33), (Z.ltb_spec 126 ch); try lia. cbn [orb].
    destruct (Z.leb_spec hrp_size (zlen acc)); [lia |]. cbv zeta. rewrite Hu, orb_false_r.
    destruct (IH (acc ++ [ch]) (Z.lxor (bech32_polymod_step chk) (Z.shiftr ch 5)) (lower || is_lower ch) upper) as [l E].
    { zl. }
    exists l. rewrite E. by rewrite <- app_assoc.
Qed.

(** A human readable part that fills the buffer leaves no room for its terminator. *)
Lemma decode_hrp_high_overflow hrp_size hrp : Forall hrp_char hrp -> forall acc chk lower upper,
  hrp_size <= zlen acc + zlen hrp -> decode_hrp_high hrp_size hrp chk lower upper acc = None.
Proof.
  induction 1 as [| ch hrp [Hr Hu] _ IH]; intros acc chk lower upper Hs; cbn [decode_hrp_high].
  - change (@zlen Z []) with 0 in Hs. destruct (Z.ltb_spec (zlen acc) hrp_size); [lia | done].
  - destruct (Z.ltb_spec ch 33), (Z.ltb_spec 126 ch); try lia. cbn [orb].
    destruct (Z.leb_spec hrp_size (zlen acc)); [done |]. cbv zeta. apply IH. zl.
Qed.

Lemma decode_data_spec vs : Forall symbol vs -> forall chk lower upper,
  exists lower', decode_data (map symbol_char vs) chk lower upper
    = (take (length vs - 6) vs, Some (absorb_all vs chk, lower', upper)).
Proof.
  induction 1 as [| v vs Hv _ IH]; intros chk lower upper; [by exists lower |]. cbn [map decode_data].
  destruct (symbol_char_facts v Hv) as (_ & El & Er & _ & Eu & _). rewrite El, Er, Eu, orb_false_r. change (default (-1) (Some v)) with v. cbn [Z.eqb negb].
  unfold symbol in Hv. cbv zeta.
  destruct (IH (Z.lxor (bech32_polymod_step chk) v) (lower || is_lower (symbol_char v)) upper) as [l E].
  exists l. destruct (Z.eqb_spec v (-1)); [lia |]. rewrite E. cbn [fst snd length].
  destruct (Z.leb_spec 6 (zlen (map symbol_char vs))) as [H6 | H6]; unfold zlen in H6; rewrite length_map in H6.
  - replace (S (length vs) - 6)%nat with (S (length vs - 6)) by lia. done.
  - replace (S (length vs) - 6)%nat with 0%nat by lia. replace (length vs - 6)%nat with 0%nat by lia. done.
Qed.

Lemma absorb_all_app a b chk : absorb_all (a ++ b) chk = absorb_all b (absorb_all a chk).
Proof. apply fold_left_app. Qed.

(** The text of a human readable part and symbols. *)
Definition bech32_text_of (hrp data : list Z) (k : Z) : list Z :=
  let chk := absorb_all (data) (absorb_all (map (fun ch => Z.land ch 0x1f) hrp)
    (bech32_polymod_step (absorb_all (map (fun ch => Z.shiftr ch 5) hrp) 1))) in
  hrp ++ 49 :: map symbol_char (data ++ checksum_symbols (Z.lxor (Nat.iter 6 bech32_polymod_step chk) k)).

Lemma obind {A B} (a : A) (f : A -> option B) : (x ← Some a; f x) = f a.
Proof. reflexivity. Qed.

Lemma bech32_encode_spec hrp data mx enc k :
  Forall hrp_char hrp -> Forall symbol data -> zlen hrp + 7 + zlen data <= mx -> bech32_final_constant enc = Some k ->
  bech32_encode hrp data mx enc = Some (bech32_text_of hrp data k).
Proof.
  intros Hh Hd Hl Hk. unfold bech32_encode. rewrite (encode_hrp_high_spec hrp 1 Hh), obind.
  destruct (Z.ltb_spec mx (zlen hrp + 7 + zlen data)); [lia |].
  unfold bech32_text_of. rewrite encode_hrp_low_spec.
  set (chk := absorb_all (map (fun ch => Z.land ch 0x1f) hrp) _).
  rewrite (encode_data_spec data chk Hd), obind, Hk, obind, checksum_chars_spec, obind.
  unfold fst, snd. by rewrite (map_app symbol_char).
Qed.

Lemma bech32_encode_inv hrp data mx enc t :
  bytes_ok data -> bech32_encode hrp data mx enc = Some t ->
  Forall hrp_char hrp /\ Forall symbol data /\ zlen hrp + 7 + zlen data <= mx /\
  exists k, bech32_final_constant enc = Some k /\ t = bech32_text_of hrp data k.
Proof.
  intros Hb H. pose proof H as H0. unfold bech32_encode in H.
  destruct (encode_hrp_high hrp 1) eqn:E1; [| discriminate]. cbn [mbind option_bind] in H.
  destruct (Z.ltb_spec mx (zlen hrp + 7 + zlen data)); [discriminate |]. cbv zeta in H.
  destruct (encode_data data _) eqn:E2; [| discriminate]. cbn [mbind option_bind] in H.
  destruct (bech32_final_constant enc) as [k |] eqn:E3; [| discriminate].
  apply encode_hrp_high_inv in E1. apply encode_data_inv in E2; [| done].
  rewrite (bech32_encode_spec hrp data mx enc k) in H0 by done. injection H0 as <-. eauto 10.
Qed.

Lemma zlen_text_of hrp data k : zlen (bech32_text_of hrp data k) = zlen hrp + 7 + zlen data.
Proof.
  unfold bech32_text_of, zlen. cbv zeta. rewrite length_app. cbn [length]. rewrite length_map, length_app.
  unfold checksum_symbols. cbn [map length]. lia.
Qed.

Lemma text_of_ok hrp data k : Forall hrp_char hrp -> Forall symbol data -> bytes_ok (bech32_text_of hrp data k).
Proof.
  intros Hh Hd. unfold bech32_text_of. cbv zeta. apply List.Forall_app. split.
  - eapply List.Forall_impl; [| exact Hh]. intros ch [Hr _]. unfold is_byte. lia.
  - constructor; [unfold is_byte; lia |]. apply List.Forall_map. apply List.Forall_app. split.
    + eapply List.Forall_impl; [| exact Hd]. intros v Hv. by apply symbol_char_facts.
    + eapply List.Forall_impl; [| apply checksum_symbols_ok]. intros v Hv. by apply symbol_char_facts.
Qed.

Lemma final_lxor c k : 0 <= k < 2 ^ 30 ->
  absorb_all (checksum_symbols (Z.lxor (Nat.iter 6 bech32_polymod_step c) k)) c = k.
Proof.
  intros Hk. rewrite absorb_checksum.
  - by rewrite <- Z.lxor_assoc, Z.lxor_nilpotent, Z.lxor_0_l.
  - rewrite (Nat.iter_succ 5).
    pose proof (step_range (Nat.iter 5 bech32_polymod_step c)) as Hs.
    set (x := bech32_polymod_step (Nat.iter 5 bech32_polymod_step c)) in *.
    assert (Hp : 0 <= Z.lxor x k) by (apply Z.lxor_nonneg; lia). split; [done |].
    assert (Hlog : forall z, 0 <= z < 2 ^ 30 -> Z.log2 z < 30).
    { intros z Hz. destruct (Z.eq_dec z 0) as [-> | Hz0]; [reflexivity |].
      apply Z.log2_lt_pow2; [lia | exact (proj2 Hz)]. }
    destruct (Z.eq_dec (Z.lxor x k) 0) as [-> | Hn]; [lia |].
    apply (Z.log2_lt_pow2 _ 30); [lia |].
    pose proof (Z.log2_lxor x k ltac:(lia) ltac:(lia)). pose proof (Hlog x Hs). pose proof (Hlog k Hk). lia.
Qed.

Lemma final_constant_range enc k : bech32_final_constant enc = Some k -> 0 <= k < 2 ^ 30.
Proof. destruct enc; intros [= <-]; split; (discriminate || reflexivity). Qed.

Lemma bech32_decode_text hrp data enc k hrp_size mx :
  hrp <> [] -> Forall hrp_char hrp -> Forall symbol data -> bech32_final_constant enc = Some k ->
  zlen hrp <= mx -> mx < 2 ^ 31 ->
  decode_chars hrp_size (bech32_text_of hrp data k) mx
  = if zlen hrp <? hrp_size then Some (mk_text enc hrp data (zlen data)) else None.
Proof.
  intros Hne Hh Hd Hk Hmx Hmx2. pose proof (zlen_text_of hrp data k) as Lt.
  assert (1 <= zlen hrp) by (destruct hrp; [done | zl]). pose proof (zlen_nonneg data).
  unfold decode_chars. rewrite Lt. destruct (Z.ltb_spec (zlen hrp + 7 + zlen data) 8); [lia |].
  unfold bech32_text_of. cbv zeta.
  set (chk0 := absorb_all (map (fun ch => Z.land ch 0x1f) hrp)
    (bech32_polymod_step (absorb_all (map (fun ch => Z.shiftr ch 5) hrp) 1))).
  set (sums := checksum_symbols (Z.lxor (Nat.iter 6 bech32_polymod_step (absorb_all data chk0)) k)).
  assert (Hsy : Forall symbol (data ++ sums)) by (apply List.Forall_app; split; [done | apply checksum_symbols_ok]).
  assert (Lsy : zlen (map symbol_char (data ++ sums)) = zlen data + 6) by (unfold zlen; rewrite length_map, length_app; unfold sums, checksum_symbols; cbn [map length]; lia).
  rewrite count_data_spec.
  2: { apply List.Forall_map. eapply List.Forall_impl; [| exact Hsy]. intros v Hv. by apply symbol_char_facts. }
  rewrite Lsy.
  assert (Eh : u64 (zlen hrp + 7 + zlen data - (1 + (zlen data + 6))) = zlen hrp) by (unfold u64; rewrite Z.mod_small; lia).
  rewrite Eh. unfold u64 at 1. rewrite (Z.mod_small mx) by lia.
  destruct (Z.ltb_spec mx (zlen hrp)); [lia |].
  destruct (Z.leb_spec (zlen hrp + 7 + zlen data) (1 + (zlen data + 6))); [lia |].
  destruct (Z.ltb_spec (zlen data + 6) 6); [lia |]. cbn [orb].
  rewrite to_nat_zlen, take_app_length.
  destruct (Z.ltb_spec (zlen hrp) hrp_size) as [Hs | Hs].
  2: { by rewrite decode_hrp_high_overflow by (done || rewrite zlen_nil; zl). }
  destruct (decode_hrp_high_spec hrp_size hrp Hh [] 1 false false) as [l1 E1]; [rewrite zlen_nil; lia |].
  rewrite E1. rewrite obind, app_nil_l, encode_hrp_low_spec. fold chk0.
  replace (Z.to_nat (zlen hrp + 1)) with (length hrp + 1)%nat by (unfold zlen; lia).
  rewrite <- drop_drop, drop_app_length. cbn [drop]. rewrite drop_0.
  destruct (decode_data_spec _ Hsy chk0 l1 false) as [l2 E2]. rewrite E2.
  rewrite andb_false_r. rewrite absorb_all_app.
  assert (Ef : absorb_all sums (absorb_all data chk0) = k) by (apply final_lxor; by eapply final_constant_range).
  rewrite Ef.
  assert (Et : take (length (data ++ sums) - 6) (data ++ sums) = data).
  { rewrite length_app. change (length sums) with 6%nat. replace (length data + 6 - 6)%nat with (length data) by lia. apply take_app_length. }
  rewrite Et. replace (zlen data + 6 - 6) with (zlen data) by lia.
  destruct enc; cbn [bech32_final_constant] in Hk; [discriminate | injection Hk as <-; reflexivity | injection Hk as <-; reflexivity].
Qed.

(** ** Regrouping

    The value of a list of digits, and the [i]-th digit of an [n]-bit value. *)

Definition be_val (w : Z) (l : list Z) : Z := fold_left (fun a b => a * 2 ^ w + b) l 0.

Definition digit (w V n : Z) (i : nat) : Z := V / 2 ^ (n - w * (Z.of_nat i + 1)) mod 2 ^ w.

Lemma fold_be w l a : fold_left (fun a b => a * 2 ^ w + b) l a = a * 2 ^ (w * zlen l) + be_val w l.
Proof.
  revert a. induction l as [| b l IH]; intros a.
  - rewrite zlen_nil, Z.mul_0_r. unfold be_val. cbn [fold_left]. lia.
  - unfold be_val. cbn [fold_left]. rewrite (IH (a * 2 ^ w + b)), (IH (0 * 2 ^ w + b)), zlen_cons.
    destruct (Z.le_gt_cases 0 w).
    + rewrite Z.mul_add_distr_l, Z.pow_add_r by zl. rewrite Z.mul_1_r. lia.
    + rewrite (Z.pow_neg_r 2 w) by lia. destruct (Z.eq_dec (zlen l) 0) as [E0 | E0].
      * rewrite E0, Z.mul_0_r. replace (w * (1 + 0)) with w by lia. rewrite (Z.pow_neg_r 2 w) by lia. lia.
      * pose proof (zlen_nonneg l). rewrite (Z.pow_neg_r 2 (w * zlen l)), (Z.pow_neg_r 2 (w * (1 + zlen l))) by nia. lia.
Qed.

Lemma be_val_cons w b l : be_val w (b :: l) = b * 2 ^ (w * zlen l) + be_val w l.
Proof. unfold be_val at 1. cbn [fold_left]. rewrite fold_be. lia. Qed.

Lemma be_val_range w l : 0 <= w -> Forall (fun b => 0 <= b < 2 ^ w) l -> 0 <= be_val w l < 2 ^ (w * zlen l).
Proof.
  intros Hw. induction 1 as [| b l Hb _ IH].
  - change (@zlen Z []) with 0. rewrite Z.mul_0_r. change (be_val w []) with 0. lia.
  - rewrite be_val_cons, zlen_cons, Z.mul_add_distr_l, Z.pow_add_r by zl. rewrite Z.mul_1_r. nia.
Qed.

(** Digits do not change when more bits follow. *)
Lemma digit_more w V n k x i : 0 <= k -> 0 <= x < 2 ^ k -> w * (Z.of_nat i + 1) <= n ->
  digit w (V * 2 ^ k + x) (n + k) i = digit w V n i.
Proof.
  intros Hk Hx Hn. unfold digit. f_equal.
  replace (n + k - w * (Z.of_nat i + 1)) with (k + (n - w * (Z.of_nat i + 1))) by lia.
  rewrite Z.pow_add_r by lia. rewrite <- Z.div_div by (try apply Z.pow_nonzero; lia || apply Z.pow_pos_nonneg; lia).
  f_equal. rewrite Z.add_comm, Z.div_add by (apply Z.pow_nonzero; lia). rewrite Z.div_small by done. lia.
Qed.

Lemma digits_of_val w l : 0 <= w -> Forall (fun b => 0 <= b < 2 ^ w) l ->
  map (digit w (be_val w l) (w * zlen l)) (seq 0 (length l)) = l.
Proof.
  intros Hw H. induction l as [| b l IH] using rev_ind; [done |].
  apply List.Forall_app in H as [Hl Hb]. apply List.Forall_cons_iff in Hb as [Hb _].
  assert (E : be_val w (l ++ [b]) = be_val w l * 2 ^ w + b).
  { unfold be_val at 1. rewrite fold_left_app. reflexivity. }
  rewrite E, length_app, zlen_app. cbn [length]. rewrite seq_app, map_app. cbn [seq map].
  assert (Ew : w * (zlen l + zlen [b]) = w * zlen l + w) by (change (zlen [b]) with 1; lia). rewrite Ew. f_equal.
  - etransitivity; [| exact (IH Hl)]. apply map_ext_in. intros i Hi%in_seq. apply digit_more; [done | done |]. unfold zlen. nia.
  - f_equal. unfold digit. replace (w * zlen l + w - w * (Z.of_nat (0 + length l) + 1)) with 0 by (unfold zlen; lia).
    rewrite Z.pow_0_r, Z.div_1_r, Z.add_comm, Z.mod_add by (apply Z.pow_nonzero; lia). by apply Z.mod_small.
Qed.

Lemma val_of_digits w V m : 0 < w -> 0 <= V < 2 ^ (w * Z.of_nat m) ->
  be_val w (map (digit w V (w * Z.of_nat m)) (seq 0 m)) = V.
Proof.
  intros Hw. revert V. induction m as [| m IH]; intros V HV.
  - change (2 ^ (w * Z.of_nat 0)) with (2 ^ (w * 0)) in HV. rewrite Z.mul_0_r in HV. cbn. change (2 ^ 0) with 1 in HV. lia.
  - replace (S m) with (m + 1)%nat by lia. rewrite seq_app, map_app.
    assert (Hp : 0 < 2 ^ w) by (apply Z.pow_pos_nonneg; lia).
    assert (Ew : w * Z.of_nat (m + 1) = w * Z.of_nat m + w) by lia.
    assert (Hq : 0 <= V / 2 ^ w < 2 ^ (w * Z.of_nat m)).
    { split; [apply Z.div_pos; lia |]. apply Z.div_lt_upper_bound; [done |].
      rewrite <- Z.pow_add_r by lia. replace (w + w * Z.of_nat m) with (w * Z.of_nat (S m)) by lia. lia. }
    assert (Em : map (digit w V (w * Z.of_nat (m + 1))) (seq 0 m) = map (digit w (V / 2 ^ w) (w * Z.of_nat m)) (seq 0 m)).
    { apply map_ext_in. intros i Hi%in_seq. rewrite Ew.
      rewrite <- (digit_more w (V / 2 ^ w) (w * Z.of_nat m) w (V mod 2 ^ w) i) by (try apply Z.mod_pos_bound; lia || nia).
      f_equal. rewrite Z.mul_comm. apply Z.div_mod. lia. }
    rewrite Em. unfold be_val. rewrite fold_left_app. fold (be_val w (map (digit w (V / 2 ^ w) (w * Z.of_nat m)) (seq 0 m))).
    rewrite (IH _ Hq). cbn [seq map fold_left]. unfold digit.
    replace (w * Z.of_nat (m + 1) - w * (Z.of_nat (0 + m) + 1)) with 0 by lia.
    rewrite Z.pow_0_r, Z.div_1_r. rewrite Z.mul_comm. symmetry. apply Z.div_mod. lia.
Qed.

Lemma digit_range w V n i : 0 <= w -> 0 <= digit w V n i < 2 ^ w.
Proof. intros Hw. apply Z.mod_pos_bound. by apply Z.pow_pos_nonneg. Qed.

(** The low bits of the accumulator are those of the whole value. *)
Lemma low_digit val V p w : 0 <= p -> 0 <= w -> p + w <= 32 -> val mod 2 ^ 32 = V mod 2 ^ 32 ->
  Z.land (Z.shiftr val p) (2 ^ w - 1) = V / 2 ^ p mod 2 ^ w.
Proof.
  intros Hp Hw Hpw E. replace (2 ^ w - 1) with (Z.ones w) by (rewrite Z.ones_equiv; lia).
  rewrite Z.land_ones by done. rewrite <- Z.shiftr_div_pow2 by done.
  apply Z.bits_inj'. intros i Hi. destruct (Z.lt_ge_cases i w).
  - rewrite !Z.mod_pow2_bits_low, !Z.shiftr_spec by lia.
    rewrite <- (Z.mod_pow2_bits_low val 32) by lia. rewrite E. by rewrite Z.mod_pow2_bits_low by lia.
  - by rewrite !Z.mod_pow2_bits_high by lia.
Qed.

Lemma emit_bits_spec val V w maxv : 0 < w -> maxv = 2 ^ w - 1 -> val mod 2 ^ 32 = V mod 2 ^ 32 ->
  forall fuel n i bits, bits = n - w * Z.of_nat i -> 0 <= bits <= 32 -> (Z.to_nat bits <= fuel)%nat ->
  emit_bits fuel val bits w maxv = (map (digit w V n) (seq i (Z.to_nat (bits / w))), bits mod w).
Proof.
  intros Hw -> E. induction fuel as [| fuel IH]; intros n i bits Hb Hr Hf.
  - assert (bits = 0) as -> by lia. rewrite Z.div_0_l, Z.mod_0_l by lia. reflexivity.
  - cbn [emit_bits]. destruct (Z.leb_spec w bits) as [Hle | Hlt].
    + cbv zeta. rewrite (IH n (S i) (bits - w)) by lia. cbn [fst snd].
      replace (bits / w) with (1 + (bits - w) / w) by (rewrite <- (Z.div_add_l 1 w) by lia; f_equal; lia).
      assert (0 <= (bits - w) / w) by (apply Z.div_pos; lia).
      replace (Z.to_nat (1 + (bits - w) / w)) with (S (Z.to_nat ((bits - w) / w))) by lia.
      cbn [seq map]. f_equal.
      * f_equal. rewrite (low_digit val V) by lia. unfold digit. do 3 f_equal. lia.
      * replace bits with (bits - w + 1 * w) at 2 by lia. by rewrite Z.mod_add by lia.
    + rewrite Z.div_small, Z.mod_small by lia. reflexivity.
Qed.

(** Whatever is read, the digits written are those of the value read. *)
Lemma convert_loop_spec win w maxv : 0 < win <= 8 -> 0 < w <= 8 -> maxv = 2 ^ w - 1 ->
  forall l V n i val bits, Forall (fun b => 0 <= b < 2 ^ win) l ->
  val mod 2 ^ 32 = V mod 2 ^ 32 -> bits = n - w * Z.of_nat i -> 0 <= bits < w ->
  let V' := V * 2 ^ (win * zlen l) + be_val win l in
  let N := n + win * zlen l in
  exists val', convert_loop l win w maxv val bits
    = (map (digit w V' N) (seq i (Z.to_nat ((N - w * Z.of_nat i) / w))), (val', (N - w * Z.of_nat i) mod w)) /\
    val' mod 2 ^ 32 = V' mod 2 ^ 32.
Proof.
  intros Hwin Hw Em. induction l as [| b l IH]; intros V n i val bits Hl Hval Hb Hr; cbv zeta.
  - exists val. cbn [convert_loop]. change (@zlen Z []) with 0. change (be_val win []) with 0. rewrite Z.mul_0_r, !Z.add_0_r, Z.pow_0_r, <- Hb.
    rewrite Z.div_small, Z.mod_small by lia. split; [done |]. by rewrite Z.mul_1_r.
  - apply List.Forall_cons_iff in Hl as [Hlb Hl]. cbn [convert_loop].
    set (val1 := Z.lor (u32 (Z.shiftl val win)) b).
    assert (E1 : val1 mod 2 ^ 32 = (V * 2 ^ win + b) mod 2 ^ 32).
    { unfold val1. rewrite Z.shiftl_mul_pow2 by lia.
      assert (Hmul : u32 (val * 2 ^ win) = (val mod 2 ^ (32 - win)) * 2 ^ win).
      { unfold u32. replace (2 ^ 32) with (2 ^ (32 - win) * 2 ^ win) by (rewrite <- Z.pow_add_r by lia; f_equal; lia).
        rewrite Zmult_mod_distr_r. done. }
      rewrite Hmul, Z.lor_comm, <- Z.shiftl_mul_pow2, lor_shiftl_add by lia.
      rewrite <- Hmul. unfold u32.
      rewrite Z.add_comm, Z.add_mod_idemp_l by lia.
      rewrite <- (Z.add_mod_idemp_l (val * 2 ^ win)), <- (Z.mul_mod_idemp_l val), Hval, Z.mul_mod_idemp_l, Z.add_mod_idemp_l by lia. done. }
    assert (Hbb : bits + win = n + win - w * Z.of_nat i) by lia.
    rewrite (emit_bits_spec val1 (V * 2 ^ win + b) w maxv ltac:(lia) Em E1 _ (n + win) i (bits + win)) by lia.
    set (k := Z.to_nat ((bits + win) / w)).
    assert (Hk : Z.of_nat k = (bits + win) / w) by (unfold k; rewrite Z2Nat.id; [done | apply Z.div_pos; lia]).
    assert (Hm : (bits + win) mod w = n + win - w * Z.of_nat (i + k)).
    { pose proof (Z.div_mod (bits + win) w ltac:(lia)). rewrite Nat2Z.inj_add, Hk. lia. }
    destruct (IH (V * 2 ^ win + b) (n + win) (i + k)%nat val1 ((bits + win) mod w) Hl E1 Hm (Z.mod_pos_bound (bits + win) w ltac:(lia)))
      as (val' & E2 & E3).
    exists val'. rewrite E2.
    assert (EV : (V * 2 ^ win + b) * 2 ^ (win * zlen l) + be_val win l = V * 2 ^ (win * zlen (b :: l)) + be_val win (b :: l)).
    { rewrite be_val_cons, zlen_cons, Z.mul_add_distr_l, Z.pow_add_r by zl. rewrite Z.mul_1_r. lia. }
    assert (EN : n + win + win * zlen l = n + win * zlen (b :: l)) by (rewrite zlen_cons; lia).
    rewrite EV, EN in *. split; [| done]. clear E2 E3 IH.
    set (V' := V * 2 ^ (win * zlen (b :: l)) + be_val win (b :: l)) in *. set (N := n + win * zlen (b :: l)) in *.
    assert (Hrest : N - w * Z.of_nat i = N - w * Z.of_nat (i + k) + Z.of_nat k * w) by lia.
    rewrite Hrest, Z.mod_add, Z.div_add by lia. f_equal.
    assert (Hpos : 0 <= (N - w * Z.of_nat (i + k)) / w).
    { apply Z.div_pos; [| lia]. rewrite <- EN. pose proof (zlen_nonneg l). pose proof (Z.mod_pos_bound (bits + win) w ltac:(lia)). nia. }
    replace (Z.to_nat ((N - w * Z.of_nat (i + k)) / w + Z.of_nat k)) with (k + Z.to_nat ((N - w * Z.of_nat (i + k)) / w))%nat by lia.
    rewrite seq_app, map_app. f_equal. apply map_ext_in. intros j Hj%in_seq.
    rewrite <- EV, <- EN. symmetry. apply digit_more; [zl; nia | by apply be_val_range; [lia |] |].
    assert (w * Z.of_nat k <= bits + win) by (rewrite Hk; apply Z.mul_div_le; lia). nia.
Qed.

(** The digit made of the bits left over. *)
Lemma last_digit val V k w : 0 <= k -> 0 <= w <= 32 -> val mod 2 ^ 32 = V mod 2 ^ 32 ->
  Z.land (u32 (Z.shiftl val k)) (2 ^ w - 1) = (V * 2 ^ k) mod 2 ^ w.
Proof.
  intros Hk Hw E. rewrite <- (Z.shiftr_0_r (u32 (Z.shiftl val k))).
  rewrite (low_digit _ (V * 2 ^ k) 0 w) by (try lia; unfold u32; rewrite Z.mod_mod, Z.shiftl_mul_pow2 by lia;
    rewrite <- (Z.mul_mod_idemp_l val), E, Z.mul_mod_idemp_l by lia; done).
  by rewrite Z.pow_0_r, Z.div_1_r.
Qed.

(** Bytes to symbols, padded with zero bits. *)
Lemma convert_pad bs : bytes_ok bs ->
  let N := 8 * zlen bs in let m := (N + 4) / 5 in
  convert_chars bs 5 8 true = (map (digit 5 (be_val 8 bs * 2 ^ (5 * m - N)) (5 * m)) (seq 0 (Z.to_nat m)), true).
Proof.
  intros Hb N m. pose proof (zlen_nonneg bs). unfold convert_chars. change (u32 (u32 (Z.shiftl 1 5) - 1)) with (2 ^ 5 - 1).
  destruct (convert_loop_spec 8 5 (2 ^ 5 - 1) ltac:(lia) ltac:(lia) eq_refl bs 0 0 0%nat 0 0 Hb eq_refl eq_refl ltac:(lia)) as (val & E & Ev).
  cbv zeta in E. rewrite Z.mul_0_l, !Z.add_0_l in E. change (5 * Z.of_nat 0) with 0 in E. rewrite Z.sub_0_r in E. fold N in E.
  cbv zeta in Ev. rewrite Z.mul_0_l, Z.add_0_l in Ev. rewrite E. cbv zeta.
  set (V := be_val 8 bs) in *.
  pose proof (Z.div_mod N 5 ltac:(lia)) as D. pose proof (Z.mod_pos_bound N 5 ltac:(lia)) as R.
  destruct (Z.eqb_spec (N mod 5) 0) as [E0 | E0]; (f_equal; []).
  - assert (Em : m = N / 5) by (unfold m; Z.to_euclidean_division_equations; lia).
    rewrite Em. replace (5 * (N / 5) - N) with 0 by lia. rewrite Z.pow_0_r, Z.mul_1_r.
    replace (5 * (N / 5)) with N by lia. done.
  - assert (Em : m = N / 5 + 1) by (unfold m; Z.to_euclidean_division_equations; lia).
    assert (0 <= N / 5) by (apply Z.div_pos; lia).
    replace (Z.to_nat m) with (Z.to_nat (N / 5) + 1)%nat by lia.
    replace (5 * m - N) with (5 - N mod 5) by lia.
    rewrite seq_app, map_app. f_equal.
    + apply map_ext_in. intros i Hi%in_seq. replace (5 * m) with (N + (5 - N mod 5)) by lia.
      rewrite <- (Z.add_0_r (V * 2 ^ (5 - N mod 5))). symmetry. apply digit_more; [lia | | lia].
      split; [lia | apply Z.pow_pos_nonneg; lia].
    + cbn [seq map]. f_equal. rewrite (last_digit val V) by lia. unfold digit.
      replace (5 * m - 5 * (Z.of_nat (0 + Z.to_nat (N / 5)) + 1)) with 0 by lia.
      by rewrite Z.pow_0_r, Z.div_1_r.
Qed.

Lemma convert_pad_symbols bs : bytes_ok bs -> Forall symbol (fst (convert_chars bs 5 8 true)).
Proof.
  intros Hb. rewrite convert_pad by done. cbn [fst]. apply List.Forall_map, List.Forall_forall.
  intros i _. unfold symbol. apply (digit_range 5). lia.
Qed.

Lemma zlen_convert_pad bs : bytes_ok bs -> zlen (fst (convert_chars bs 5 8 true)) = (8 * zlen bs + 4) / 5.
Proof.
  intros Hb. rewrite convert_pad by done. cbn [fst]. unfold zlen at 1. rewrite length_map, length_seq.
  apply Z2Nat.id, Z.div_pos; zl.
Qed.

(** Symbols back to bytes. *)
Lemma convert_back bs : bytes_ok bs -> convert_chars (fst (convert_chars bs 5 8 true)) 8 5 false = (bs, true).
Proof.
  intros Hb. pose proof (zlen_nonneg bs). pose proof (convert_pad_symbols bs Hb) as Hs. pose proof (zlen_convert_pad bs Hb) as Ls.
  rewrite convert_pad in * by done. cbn [fst] in *. set (N := 8 * zlen bs) in *. set (m := (N + 4) / 5) in *.
  set (V := be_val 8 bs) in *. set (V2 := V * 2 ^ (5 * m - N)) in *.
  set (qs := map (digit 5 V2 (5 * m)) (seq 0 (Z.to_nat m))) in *.
  assert (Hm : N <= 5 * m < N + 5) by (unfold m; Z.to_euclidean_division_equations; lia).
  assert (HV : 0 <= V < 2 ^ N) by (apply be_val_range; [lia | exact Hb]).
  assert (HV2 : 0 <= V2 < 2 ^ (5 * Z.of_nat (Z.to_nat m))).
  { rewrite Z2Nat.id by lia. unfold V2. replace (2 ^ (5 * m)) with (2 ^ (N + (5 * m - N))) by (f_equal; lia).
    rewrite Z.pow_add_r by lia. assert (0 < 2 ^ (5 * m - N)) by (apply Z.pow_pos_nonneg; lia). nia. }
  assert (Eq : be_val 5 qs = V2).
  { pose proof (val_of_digits 5 V2 (Z.to_nat m) ltac:(lia) HV2) as Hq. by rewrite Z2Nat.id in Hq by lia. }
  unfold convert_chars. change (u32 (u32 (Z.shiftl 1 8) - 1)) with (2 ^ 8 - 1).
  destruct (convert_loop_spec 5 8 (2 ^ 8 - 1) ltac:(lia) ltac:(lia) eq_refl qs 0 0 0%nat 0 0 Hs eq_refl eq_refl ltac:(lia)) as (val & E & Ev).
  cbv zeta in E. rewrite Z.mul_0_l, !Z.add_0_l in E. change (8 * Z.of_nat 0) with 0 in E. rewrite Z.sub_0_r, Ls, Eq in E.
  cbv zeta in Ev. rewrite Z.mul_0_l, Z.add_0_l, Eq in Ev. rewrite E. cbv zeta.
  assert (D : 5 * m / 8 = zlen bs) by (unfold N in Hm; Z.to_euclidean_division_equations; lia).
  assert (R : (5 * m) mod 8 = 5 * m - N) by (pose proof (Z.div_mod (5 * m) 8 ltac:(lia)); unfold N; lia).
  rewrite D, R, to_nat_zlen. f_equal.
  - transitivity (map (digit 8 V N) (seq 0 (length bs))); [| by apply (digits_of_val 8)].
    apply map_ext_in. intros i Hi%in_seq. unfold V2. replace (5 * m) with (N + (5 * m - N)) at 2 by lia.
    rewrite <- (Z.add_0_r (V * 2 ^ (5 * m - N))). apply digit_more; [lia | | unfold N, zlen; lia].
    split; [lia | apply Z.pow_pos_nonneg; lia].
  - rewrite (last_digit val V2) by lia. unfold V2. rewrite <- Z.mul_assoc, <- Z.pow_add_r by lia.
    replace (5 * m - N + (8 - (5 * m - N))) with 8 by lia. rewrite Z.mod_mul by lia.
    destruct (Z.ltb_spec (5 * m - N) 5); [done | lia].
Qed.

Lemma bech32_run hrp bs mx enc t m c input data out hrp_size max_hrp
  (Hb : bytes_ok bs) (Hne : hrp <> []) (Henc : bech32_encode hrp (fst (convert_chars bs 5 8 true)) mx enc = Some t)
  (Hin : loadn m input (zlen t) = Some t) (Hh : zlen hrp <= max_hrp < 2 ^ 31) (Hsize : zlen hrp < hrp_size)
  (Hd : 0 <= data) (Hdm : data + (8 * zlen bs + 4) / 5 <= zlen m)
  (Ho : 0 <= out) (Hom : out + zlen bs <= zlen m)
  (Hap : out + zlen bs <= data \/ data + (8 * zlen bs + 4) / 5 <= out) :
  exists m1 m2,
    bech32_decode_len hrp_size data input (zlen t) max_hrp (m, c)
      = Some ((enc, hrp, (8 * zlen bs + 4) / 5), (m1, c)) /\
    bech32_convert_bits out 8 data ((8 * zlen bs + 4) / 5) 5 false (m1, c) = Some ((true, zlen bs), (m2, c)) /\
    storen m1 out bs = Some m2.
Proof.
  pose proof (convert_pad_symbols bs Hb) as Hs. pose proof (zlen_convert_pad bs Hb) as Ls.
  set (qs := fst (convert_chars bs 5 8 true)) in *.
  apply bech32_encode_inv in Henc as (Hhc & _ & _ & k & Hk & ->).
  2: { eapply List.Forall_impl; [| exact Hs]. unfold symbol, is_byte. intros; lia. }
  destruct (storen_in_range m data qs) as [m1 E1]; [done | lia |].
  destruct (storen_in_range m1 out bs) as [m2 E2]; [done | by rewrite (storen_length _ _ _ _ E1) |].
  exists m1, m2. split; [| split; [| done]].
  - pose proof (bech32_decode_text hrp qs enc k hrp_size max_hrp Hne Hhc Hs Hk ltac:(lia) ltac:(lia)) as Hdec.
    destruct (Z.ltb_spec (zlen hrp) hrp_size); [| lia].
    unfold bech32_decode_len. rewrite (bind_peekn _ _ _ _ _ _ Hin).
    rewrite (run_lift _ _ _ _ Hdec).
    cbn [t_data t_enc t_hrp t_data_len]. rewrite (run_poke _ _ _ _ _ _ E1). unfold ret. by rewrite Ls.
  - unfold bech32_convert_bits. pose proof (loadn_storen_same _ _ _ _ E1) as L1. rewrite Ls in L1.
    rewrite (bind_peekn _ _ _ _ _ _ L1). unfold qs. rewrite convert_back by done. by rewrite (run_poke _ _ _ _ _ _ E2).
Qed.

(** * Properties *)

(** bech32 is reversible and checked by its own checksum: bytes regrouped into
    symbols and encoded behind a human readable part of printable characters
    without capitals are decoded, in any memory the text lies in, to the encoding,
    the human readable part and the symbols, which regroup to the bytes. *)
Theorem bech32_roundtrip hrp bs mx enc t m c input data out max_hrp
  (Hb : bytes_ok bs) (Hne : hrp <> []) (Henc : bech32_encode hrp (fst (convert_chars bs 5 8 true)) mx enc = Some t)
  (Hin : loadn m input (zlen t) = Some t) (Hh : zlen hrp <= max_hrp < 2 ^ 31)
  (Hd : 0 <= data) (Hdm : data + (8 * zlen bs + 4) / 5 <= zlen m)
  (Ho : 0 <= out) (Hom : out + zlen bs <= zlen m)
  (Hap : out + zlen bs <= data \/ data + (8 * zlen bs + 4) / 5 <= out) :
  exists m1 m2,
    bech32_decode_len (max_hrp + 1) data input (zlen t) max_hrp (m, c)
      = Some ((enc, hrp, (8 * zlen bs + 4) / 5), (m1, c)) /\
    bech32_convert_bits out 8 data ((8 * zlen bs + 4) / 5) 5 false (m1, c) = Some ((true, zlen bs), (m2, c)) /\
    storen m1 out bs = Some m2.
Proof. eapply bech32_run; (eassumption || lia). Qed.

Lemma bech32_roundtrip_witness :
  exists t m1 m2,
    bech32_encode [110; 111; 116; 101] (fst (convert_chars [1; 2; 3; 255] 5 8 true)) 100 BECH32_ENCODING_BECH32 = Some t /\
    bech32_decode_len 9 30 0 18 8 (t ++ replicate 40 0, make_cursor 0 0)
      = Some ((BECH32_ENCODING_BECH32, [110; 111; 116; 101], 7), (m1, make_cursor 0 0)) /\
    bech32_convert_bits 50 8 30 7 5 false (m1, make_cursor 0 0) = Some ((true, 4), (m2, make_cursor 0 0)) /\
    storen m1 50 [1; 2; 3; 255] = Some m2.
Proof.
  set (t := bech32_text_of [110; 111; 116; 101] (fst (convert_chars [1; 2; 3; 255] 5 8 true)) 1).
  assert (Ht : bech32_encode [110; 111; 116; 101] (fst (convert_chars [1; 2; 3; 255] 5 8 true)) 100 BECH32_ENCODING_BECH32 = Some t)
    by (vm_compute; reflexivity).
  exists t.
  destruct (bech32_roundtrip [110; 111; 116; 101] [1; 2; 3; 255] 100 BECH32_ENCODING_BECH32 t (t ++ replicate 40 0) (make_cursor 0 0)
    0 30 50 8 ltac:(apply bytes_ok_dec; reflexivity) ltac:(discriminate) Ht ltac:(vm_compute; reflexivity) ltac:(split; [vm_compute; discriminate | lia])
    ltac:(lia) ltac:(vm_compute; discriminate) ltac:(lia) ltac:(vm_compute; discriminate) ltac:(right; vm_compute; discriminate))
    as (m1 & m2 & E1 & E2 & E3).
  exists m1, m2. split; [exact Ht | split; [exact E1 | split; [exact E2 | exact E3]]].
Defined.

(** The first valid string of BIP 173 with every symbol. *)
Example bip173_abcdef :
  decode_chars 9 [97; 98; 99; 100; 101; 102; 49; 113; 112; 122; 114; 121; 57; 120; 56; 103; 102; 50; 116; 118; 100; 119; 48;
    115; 51; 106; 110; 53; 52; 107; 104; 99; 101; 54; 109; 117; 97; 55; 108; 109; 113; 113; 113; 120; 119] 8
  = Some (mk_text BECH32_ENCODING_BECH32 [97; 98; 99; 100; 101; 102] (map Z.of_nat (seq 0 32)) 32).
Proof. vm_compute. reflexivity. Qed.
