(* ===== verification/NostrBech32.v ===== *)
(** * Nostr entities (src/src/nostr_bech32.c, src/src/nostr_bech32.h)

    note, npub and nsec are 32 bytes; nprofile, nevent, naddr and nrelay are lists
    of type, length and value.  The parsed structures point into the buffer: a
    pointer is an address, NULL is [None]. *)

From S2P Require Import Prelude Cursor Reader Bech32.

(** ** Data *)

Record ndb_str_block := mk_str { sb_str : Z; sb_len : Z }.

Inductive nostr_bech32_type :=
  | NOSTR_BECH32_NOTE | NOSTR_BECH32_NPUB | NOSTR_BECH32_NPROFILE | NOSTR_BECH32_NEVENT
  | NOSTR_BECH32_NRELAY | NOSTR_BECH32_NADDR | NOSTR_BECH32_NSEC.

#[export] Instance bech32_type_eq_dec : EqDecision nostr_bech32_type.
Proof. solve_decision. Defined.

Definition bech32_type_num (t : nostr_bech32_type) : Z :=
  match t with
  | NOSTR_BECH32_NOTE => 1 | NOSTR_BECH32_NPUB => 2 | NOSTR_BECH32_NPROFILE => 3 | NOSTR_BECH32_NEVENT => 4
  | NOSTR_BECH32_NRELAY => 5 | NOSTR_BECH32_NADDR => 6 | NOSTR_BECH32_NSEC => 7
  end.

Definition bech32_type_of_num (n : Z) : option nostr_bech32_type :=
  if n =? 1 then Some NOSTR_BECH32_NOTE else if n =? 2 then Some NOSTR_BECH32_NPUB
  else if n =? 3 then Some NOSTR_BECH32_NPROFILE else if n =? 4 then Some NOSTR_BECH32_NEVENT
  else if n =? 5 then Some NOSTR_BECH32_NRELAY else if n =? 6 then Some NOSTR_BECH32_NADDR
  else if n =? 7 then Some NOSTR_BECH32_NSEC else None.

Definition NDB_MAX_RELAYS : Z := 24.

Record bech32_nevent := mk_nevent { ne_relays : list ndb_str_block; ne_event_id : option Z; ne_pubkey : option Z }.
Record bech32_nprofile := mk_nprofile { np_relays : list ndb_str_block; np_pubkey : option Z }.
Record bech32_naddr := mk_naddr { na_relays : list ndb_str_block; na_identifier : option ndb_str_block; na_pubkey : option Z }.
Record bech32_nrelay := mk_nrelay { nr_relay : option ndb_str_block }.

Inductive nostr_bech32 :=
  | Bech32Note (event_id : Z)
  | Bech32Npub (pubkey : Z)
  | Bech32Nsec (nsec : Z)
  | Bech32Nevent (nevent : bech32_nevent)
  | Bech32Nprofile (nprofile : bech32_nprofile)
  | Bech32Naddr (naddr : bech32_naddr)
  | Bech32Nrelay (nrelay : bech32_nrelay).

(** ** Type, length, value *)

Definition MAX_TLVS : nat := 32.
Definition TLV_SPECIAL : Z := 0.
Definition TLV_RELAY : Z := 1.
Definition TLV_AUTHOR : Z := 2.
Definition TLV_KNOWN_TLVS : Z := 4.

Record nostr_tlv := mk_tlv { tlv_type : Z; tlv_len : Z; tlv_value : Z }.

(** On failure the cursor is left where it failed. *)
Definition parse_nostr_tlv : CM (option nostr_tlv) :=
  let* t := cursor_pull_byte in
  match t with
  | None => ret None
  | Some type =>
      if TLV_KNOWN_TLVS <=? type then ret None
      else
        let* l := cursor_pull_byte in
        match l with
        | None => ret None
        | Some len =>
            let len := u8 len in
            let* c := cur in
            if c_end c <? c_p c + len then ret None
            else do* goto (c_p c + len) in ret (Some (mk_tlv type len (c_p c)))
        end
  end.

Definition tlv_str (tlv : nostr_tlv) : ndb_str_block := mk_str (tlv_value tlv) (tlv_len tlv).

Definition add_relay (relays : list ndb_str_block) (tlv : nostr_tlv) : list ndb_str_block :=
  if NDB_MAX_RELAYS <? zlen relays + 1 then relays else relays ++ [tlv_str tlv].

(** The loop all four parsers have: [step] is the switch on the type, [None] its
    early return. *)
Fixpoint tlv_loop {A} (n : nat) (step : A -> nostr_tlv -> option A) (a : A) : CM (option A) :=
  match n with
  | O => ret (Some a)
  | S n =>
      let* tlv := parse_nostr_tlv in
      match tlv with
      | None => ret (Some a)
      | Some tlv =>
          match step a tlv with
          | None => ret None
          | Some a => tlv_loop n step a
          end
      end
  end.

Definition nevent_step (e : bech32_nevent) (tlv : nostr_tlv) : option bech32_nevent :=
  if tlv_type tlv =? TLV_SPECIAL then
    if negb (tlv_len tlv =? 32) then None else Some (mk_nevent (ne_relays e) (Some (tlv_value tlv)) (ne_pubkey e))
  else if tlv_type tlv =? TLV_AUTHOR then
    if negb (tlv_len tlv =? 32) then None else Some (mk_nevent (ne_relays e) (ne_event_id e) (Some (tlv_value tlv)))
  else if tlv_type tlv =? TLV_RELAY then Some (mk_nevent (add_relay (ne_relays e) tlv) (ne_event_id e) (ne_pubkey e))
  else Some e.

Definition naddr_step (a : bech32_naddr) (tlv : nostr_tlv) : option bech32_naddr :=
  if tlv_type tlv =? TLV_SPECIAL then Some (mk_naddr (na_relays a) (Some (tlv_str tlv)) (na_pubkey a))
  else if tlv_type tlv =? TLV_AUTHOR then
    if negb (tlv_len tlv =? 32) then None else Some (mk_naddr (na_relays a) (na_identifier a) (Some (tlv_value tlv)))
  else if tlv_type tlv =? TLV_RELAY then Some (mk_naddr (add_relay (na_relays a) tlv) (na_identifier a) (na_pubkey a))
  else Some a.

Definition nprofile_step (p : bech32_nprofile) (tlv : nostr_tlv) : option bech32_nprofile :=
  if tlv_type tlv =? TLV_SPECIAL then
    if negb (tlv_len tlv =? 32) then None else Some (mk_nprofile (np_relays p) (Some (tlv_value tlv)))
  else if tlv_type tlv =? TLV_RELAY then Some (mk_nprofile (add_relay (np_relays p) tlv) (np_pubkey p))
  else Some p.

Definition nrelay_step (r : bech32_nrelay) (tlv : nostr_tlv) : option bech32_nrelay :=
  if tlv_type tlv =? TLV_SPECIAL then Some (mk_nrelay (Some (tlv_str tlv))) else Some r.

(** ** Parsing the bytes of an entity *)

Definition parse_nostr_bech32_note : CM (option Z) := pull_bytes 32.
Definition parse_nostr_bech32_npub : CM (option Z) := pull_bytes 32.
Definition parse_nostr_bech32_nsec : CM (option Z) := pull_bytes 32.

Definition keep_if {A} (ok : A -> bool) (r : option A) : option A :=
  a ← r; if ok a then Some a else None.

Definition parse_nostr_bech32_nevent : CM (option bech32_nevent) :=
  let* r := tlv_loop MAX_TLVS nevent_step (mk_nevent [] None None) in
  ret (keep_if (fun e => bool_decide (is_Some (ne_event_id e))) r).

Definition parse_nostr_bech32_naddr : CM (option bech32_naddr) :=
  let* r := tlv_loop MAX_TLVS naddr_step (mk_naddr [] None None) in
  ret (keep_if (fun a => bool_decide (is_Some (na_identifier a))) r).

Definition parse_nostr_bech32_nprofile : CM (option bech32_nprofile) :=
  let* r := tlv_loop MAX_TLVS nprofile_step (mk_nprofile [] None) in
  ret (keep_if (fun p => bool_decide (is_Some (np_pubkey p))) r).

Definition parse_nostr_bech32_nrelay : CM (option bech32_nrelay) :=
  let* r := tlv_loop MAX_TLVS nrelay_step (mk_nrelay None) in
  ret (keep_if (fun r => bool_decide (is_Some (nr_relay r))) r).

Definition parse_nostr_bech32_buffer (type : nostr_bech32_type) : CM (option nostr_bech32) :=
  match type with
  | NOSTR_BECH32_NOTE => let* r := parse_nostr_bech32_note in ret (option_map Bech32Note r)
  | NOSTR_BECH32_NPUB => let* r := parse_nostr_bech32_npub in ret (option_map Bech32Npub r)
  | NOSTR_BECH32_NSEC => let* r := parse_nostr_bech32_nsec in ret (option_map Bech32Nsec r)
  | NOSTR_BECH32_NEVENT => let* r := parse_nostr_bech32_nevent in ret (option_map Bech32Nevent r)
  | NOSTR_BECH32_NADDR => let* r := parse_nostr_bech32_naddr in ret (option_map Bech32Naddr r)
  | NOSTR_BECH32_NPROFILE => let* r := parse_nostr_bech32_nprofile in ret (option_map Bech32Nprofile r)
  | NOSTR_BECH32_NRELAY => let* r := parse_nostr_bech32_nrelay in ret (option_map Bech32Nrelay r)
  end.

(** ** Parsing text *)

(** [strncmp] with a literal and its length: it reads until the first difference. *)
Fixpoint strncmp_eq (a : Z) (lit : list Z) : CM bool :=
  match lit with
  | [] => ret true
  | x :: lit => let* b := peek8 a in if b =? x then strncmp_eq (a + 1) lit else ret false
  end.

(** The literals of the code and what they stand for, in the order of its tests. *)
Definition bech32_prefixes : list (list Z * nostr_bech32_type) :=
  [([110; 111; 116; 101], NOSTR_BECH32_NOTE);
   ([110; 112; 117; 98], NOSTR_BECH32_NPUB);
   ([110; 115; 101; 99], NOSTR_BECH32_NSEC);
   ([110; 112; 114; 111; 102; 105; 108; 101], NOSTR_BECH32_NPROFILE);
   ([110; 101; 118; 101; 110; 116], NOSTR_BECH32_NEVENT);
   ([110; 114; 101; 108; 97; 121], NOSTR_BECH32_NRELAY);
   ([110; 97; 100; 100; 114], NOSTR_BECH32_NADDR)].

Fixpoint try_prefixes (l : list (list Z * nostr_bech32_type)) (prefix : Z) : CM (option (nostr_bech32_type * Z)) :=
  match l with
  | [] => ret None
  | (lit, type) :: l =>
      let* same := strncmp_eq prefix lit in
      if same : bool then ret (Some (type, zlen lit)) else try_prefixes l prefix
  end.

(** The type and the length of its prefix. *)
Definition parse_nostr_bech32_type (prefix : Z) : CM (option (nostr_bech32_type * Z)) :=
  try_prefixes bech32_prefixes prefix.

Definition parse_nostr_bech32_str : CM (option nostr_bech32_type) :=
  let* c := cur in
  let start := c_p c in
  let* r := parse_nostr_bech32_type start in
  match r with
  | None => do* goto start in ret None
  | Some (type, n) =>
      let data_start := start + n in
      let* ok := consume_until_non_alphanumeric true in
      if negb ok then do* goto start in ret None
      else
        let* c := cur in
        if c_p c - data_start <? 59 then do* goto start in ret None
        else ret (Some type)
  end.

(** A function with a cursor of its own, which it returns. *)
Definition with_cursor_of {A} (c : cursor) (w : CM A) : CM (A * cursor) :=
  fun '(m, outer) =>
    match w (m, c) with
    | None => None
    | Some (a, (m', c')) => Some ((a, c'), (m', outer))
    end.

Definition MAX_PREFIX : Z := 8.

(** [u5] is the address [malloc] returns. *)
Definition parse_nostr_bech32 (u5 buf buflen bech32_str bech32_len : Z) : CM (option nostr_bech32) :=
  let cur := make_cursor buf (buf + buflen) in
  let bech32 := make_cursor bech32_str (bech32_str + bech32_len) in
  let start := c_p bech32 in
  let* r := with_cursor_of bech32 parse_nostr_bech32_str in
  match r with
  | (None, _) => ret None
  | (Some type, bech32) =>
      let parsed_len := c_p bech32 - start in
      if (parsed_len <? 10) || (10000 <? parsed_len) then ret None
      else
        let* d := bech32_decode_len MAX_PREFIX u5 start parsed_len MAX_PREFIX in
        let '(enc, _, u5_out_len) := d in
        if bool_decide (enc = BECH32_ENCODING_NONE) then ret None
        else
          let* b := bech32_convert_bits (c_p cur) 8 u5 u5_out_len 5 false in
          let '(ok, u8_out_len) := b in
          if negb ok then ret None
          else
            let* r := with_cursor_of (make_cursor (c_p cur) (c_p cur + u8_out_len)) (parse_nostr_bech32_buffer type) in
            ret (fst r)
  end.

(** * Lemmas *)

#[export] Typeclasses Opaque parse_nostr_tlv tlv_loop.

Lemma u8_range x : 0 <= u8 x < 256.
Proof. apply Z.mod_pos_bound. lia. Qed.

Lemma u8_byte b : is_byte b -> u8 b = b.
Proof. apply Z.mod_small. Qed.

(** ** Parsers are readers *)

#[export] Instance Reader_parse_nostr_tlv : Reader parse_nostr_tlv.
Proof.
  unfold parse_nostr_tlv. apply Reader_bind; [apply _ |]. intros [type |]; [| apply Reader_ret].
  apply Reader_if; [apply Reader_ret |]. apply Reader_bind; [apply _ |]. intros [len |]; [| apply Reader_ret].
  cbv zeta. pose proof (u8_range len). apply Reader_cur_bind. intros m c W.
  destruct (Z.ltb_spec (c_end c) (c_p c + u8 len)); [reader_done |]. rewrite bind_goto. reader_done.
Qed.

#[export] Instance Reader_tlv_loop {A} n step (a : A) : Reader (tlv_loop n step a).
Proof.
  revert a. induction n as [| n IH]; intros a; cbn [tlv_loop]; [apply Reader_ret |].
  apply Reader_bind; [apply _ |]. intros [tlv |]; [| apply Reader_ret].
  destruct (step a tlv); [apply IH | apply Reader_ret].
Qed.

#[export] Instance Reader_parse_buffer type : Reader (parse_nostr_bech32_buffer type).
Proof.
  destruct type; cbn [parse_nostr_bech32_buffer]; (apply Reader_bind; [| intros ?; apply Reader_ret]);
    try (by apply Reader_pull_bytes); (apply Reader_bind; [apply _ | intros ?; apply Reader_ret]).
Qed.

(** ** Lists of type, length and value *)

Definition tlv_bytes (tv : Z * list Z) : list Z := tv.1 :: zlen tv.2 :: tv.2.

Definition tlvs_bytes (l : list (Z * list Z)) : list Z := concat (map tlv_bytes l).

Definition tlv_ok (tv : Z * list Z) : Prop := 0 <= tv.1 < TLV_KNOWN_TLVS /\ zlen tv.2 < 256 /\ bytes_ok tv.2.

(** Where the parser finds them. *)
Fixpoint tlvs_at (a : Z) (l : list (Z * list Z)) : list nostr_tlv :=
  match l with
  | [] => []
  | (t, v) :: l => mk_tlv t (zlen v) (a + 2) :: tlvs_at (a + 2 + zlen v) l
  end.

Fixpoint fold_step {A} (step : A -> nostr_tlv -> option A) (a : A) (l : list nostr_tlv) : option A :=
  match l with
  | [] => Some a
  | tlv :: l => a ← step a tlv; fold_step step a l
  end.

Lemma parse_tlv_at tv rest m c :
  tlv_ok tv -> c_end c = c_p c + zlen (tlv_bytes tv ++ rest) ->
  loadn m (c_p c) (zlen (tlv_bytes tv ++ rest)) = Some (tlv_bytes tv ++ rest) ->
  parse_nostr_tlv (m, c) = Some (Some (mk_tlv tv.1 (zlen tv.2) (c_p c + 2)), (m, set_p c (c_p c + 2 + zlen tv.2))).
Proof.
  destruct tv as [t v]. intros (Ht & Hv & _) He Hm. cbn [fst snd] in *.
  change (tlv_bytes (t, v) ++ rest) with (t :: zlen v :: (v ++ rest)) in *. rewrite !zlen_cons, zlen_app in He.
  pose proof (zlen_nonneg v). pose proof (zlen_nonneg rest).
  apply loadn_cons in Hm as [H1 Hm]. apply loadn_cons in Hm as [H2 _].
  unfold parse_nostr_tlv. rewrite (run_bind _ _ _ _ _ (cursor_pull_byte_some m c t ltac:(lia) H1)).
  destruct (Z.leb_spec TLV_KNOWN_TLVS t); [lia |].
  rewrite (run_bind _ _ _ _ _ (cursor_pull_byte_some m (set_p c (c_p c + 1)) (zlen v) ltac:(cbn [set_p c_p c_end]; lia) H2)).
  cbv zeta. rewrite bind_cur. cbn [set_p c_p c_end c_start].
  rewrite u8_byte by (unfold is_byte; lia).
  destruct (Z.ltb_spec (c_end c) (c_p c + 1 + 1 + zlen v)); [lia |]. rewrite bind_goto. unfold ret, set_p. cbn [c_start c_end].
  do 4 f_equal; lia.
Qed.

Lemma zlen_tlv_bytes tv : zlen (tlv_bytes tv) = 2 + zlen tv.2.
Proof. unfold tlv_bytes. rewrite !zlen_cons. lia. Qed.

Lemma tlvs_bytes_cons tv l : tlvs_bytes (tv :: l) = tlv_bytes tv ++ tlvs_bytes l.
Proof. reflexivity. Qed.

Lemma tlvs_bytes_app l1 l2 : tlvs_bytes (l1 ++ l2) = tlvs_bytes l1 ++ tlvs_bytes l2.
Proof. unfold tlvs_bytes. by rewrite map_app, concat_app. Qed.

Lemma tlv_loop_at {A} (step : A -> nostr_tlv -> option A) l : forall n a m c,
  Forall tlv_ok l -> (length l <= n)%nat -> c_end c = c_p c + zlen (tlvs_bytes l) ->
  loadn m (c_p c) (zlen (tlvs_bytes l)) = Some (tlvs_bytes l) ->
  exists p, tlv_loop n step a (m, c) = Some (fold_step step a (tlvs_at (c_p c) l), (m, set_p c p)).
Proof.
  induction l as [| [t v] l IH]; intros n a m c Hok Hn He Hm.
  - exists (c_p c). assert (E : set_p c (c_p c) = c) by (by destruct c). rewrite E. destruct n as [| n]; [done |].
    cbn [tlv_loop tlvs_at fold_step]. change (zlen (tlvs_bytes [])) with 0 in He.
    unfold parse_nostr_tlv. rewrite bind_bind. unfold cursor_pull_byte. rewrite bind_bind, bind_cur.
    destruct (Z.leb_spec (c_end c) (c_p c)); [| lia]. reflexivity.
  - destruct n as [| n]; [cbn [length] in Hn; lia |]. apply List.Forall_cons_iff in Hok as [Hok1 Hok].
    rewrite tlvs_bytes_cons in *. cbn [tlv_loop tlvs_at fold_step].
    rewrite (run_bind _ _ _ _ _ (parse_tlv_at (t, v) (tlvs_bytes l) m c Hok1 He Hm)). cbn [fst snd].
    destruct (step a (mk_tlv t (zlen v) (c_p c + 2))) as [a' |]; [| by exists (c_p c + 2 + zlen v)].
    change (Some a' ≫= (fun a0 => fold_step step a0 (tlvs_at (c_p c + 2 + zlen v) l))) with (fold_step step a' (tlvs_at (c_p c + 2 + zlen v) l)).
    rewrite zlen_app, zlen_tlv_bytes in He. cbn [snd] in He. apply loadn_app_inv in Hm as [_ Hm].
    rewrite zlen_tlv_bytes in Hm. cbn [snd] in Hm.
    destruct (IH n a' m (set_p c (c_p c + 2 + zlen v)) Hok) as [p E]; [cbn [length] in Hn; lia | cbn [set_p c_p c_end]; lia | |].
    { cbn [set_p c_p]. rewrite <- Hm. f_equal. lia. }
    exists p. cbn [set_p c_p] in E. rewrite E. by destruct c.
Qed.

Lemma tlvs_at_app a l1 l2 : tlvs_at a (l1 ++ l2) = tlvs_at a l1 ++ tlvs_at (a + zlen (tlvs_bytes l1)) l2.
Proof.
  revert a. induction l1 as [| [t v] l1 IH]; intros a.
  - cbn [app tlvs_at]. change (zlen (tlvs_bytes [])) with 0. by rewrite Z.add_0_r.
  - cbn [app tlvs_at]. rewrite IH, tlvs_bytes_cons, zlen_app, zlen_tlv_bytes. cbn [app snd]. do 3 f_equal. lia.
Qed.

Lemma fold_step_app {A} (step : A -> nostr_tlv -> option A) a l1 l2 :
  fold_step step a (l1 ++ l2) = a ← fold_step step a l1; fold_step step a l2.
Proof.
  revert a. induction l1 as [| x l1 IH]; intros a; [done |]. cbn [app fold_step].
  destruct (step a x) as [a' |]; [apply IH | done].
Qed.

(** A string the memory has where the structure points to. *)
Definition str_at (m : mem) (s : ndb_str_block) (bs : list Z) : Prop :=
  sb_len s = zlen bs /\ loadn m (sb_str s) (sb_len s) = Some bs.

Lemma tlvs_at_loaded l : forall m a, loadn m a (zlen (tlvs_bytes l)) = Some (tlvs_bytes l) ->
  Forall2 (fun tlv tv => tlv_type tlv = tv.1 /\ str_at m (tlv_str tlv) tv.2) (tlvs_at a l) l.
Proof.
  induction l as [| [t v] l IH]; intros m a Hm; cbn [tlvs_at]; [constructor |].
  rewrite tlvs_bytes_cons in Hm. apply loadn_app_inv in Hm as [Hm1 Hm2]. rewrite zlen_tlv_bytes in Hm2. cbn [snd] in Hm2.
  constructor.
  - cbn [tlv_type fst snd]. split; [done |]. unfold str_at, tlv_str. cbn [sb_len sb_str tlv_len tlv_value]. split; [done |].
    unfold tlv_bytes in Hm1. cbn [fst snd] in Hm1. apply loadn_cons in Hm1 as [_ Hm1]. apply loadn_cons in Hm1 as [_ Hm1].
    rewrite <- Hm1. f_equal. lia.
  - apply IH. rewrite <- Hm2. f_equal. lia.
Qed.

(** ** Relays *)

Definition relay_tlvs (relays : list (list Z)) : list (Z * list Z) := map (fun r => (TLV_RELAY, r)) relays.

Lemma fold_relays {A} (step : A -> nostr_tlv -> option A) (get : A -> list ndb_str_block) (set : A -> list ndb_str_block -> A)
  (Hstep : forall e tlv, tlv_type tlv = TLV_RELAY -> step e tlv = Some (set e (add_relay (get e) tlv)))
  (Hgs : forall e r, get (set e r) = r) (Hss : forall e r r', set (set e r) r' = set e r') (Hsg : forall e, set e (get e) = e) :
  forall relays e a, zlen (get e) + zlen relays <= NDB_MAX_RELAYS ->
  fold_step step e (tlvs_at a (relay_tlvs relays)) = Some (set e (get e ++ map tlv_str (tlvs_at a (relay_tlvs relays)))).
Proof.
  induction relays as [| r relays IH]; intros e a Hl.
  - cbn. by rewrite app_nil_r, Hsg.
  - cbn [relay_tlvs map tlvs_at fold_step]. rewrite Hstep by done. cbn [mbind option_bind].
    unfold add_relay. rewrite zlen_cons in Hl. pose proof (zlen_nonneg relays).
    destruct (Z.ltb_spec NDB_MAX_RELAYS (zlen (get e) + 1)); [lia |].
    fold (relay_tlvs relays). rewrite IH by (rewrite Hgs; zl). by rewrite Hgs, Hss, <- app_assoc.
Qed.

Lemma relays_loaded m a relays : loadn m a (zlen (tlvs_bytes (relay_tlvs relays))) = Some (tlvs_bytes (relay_tlvs relays)) ->
  Forall2 (str_at m) (map tlv_str (tlvs_at a (relay_tlvs relays))) relays.
Proof.
  intros H. apply tlvs_at_loaded in H. unfold relay_tlvs in *.
  rewrite Forall2_fmap_r in H. rewrite Forall2_fmap_l. eapply Forall2_impl; [| exact H]. intros tlv r [_ Hs]. exact Hs.
Qed.

(** ** Entities

    What a user encodes, and what a parsed structure has to point to. *)

Inductive entity :=
  | ENote (id : list Z)
  | ENpub (pubkey : list Z)
  | ENsec (seckey : list Z)
  | ENevent (id : list Z) (relays : list (list Z)) (author : option (list Z))
  | ENprofile (pubkey : list Z) (relays : list (list Z))
  | ENaddr (identifier : list Z) (relays : list (list Z)) (author : option (list Z))
  | ENrelay (relay : list Z).

Definition entity_type (e : entity) : nostr_bech32_type :=
  match e with
  | ENote _ => NOSTR_BECH32_NOTE | ENpub _ => NOSTR_BECH32_NPUB | ENsec _ => NOSTR_BECH32_NSEC
  | ENevent _ _ _ => NOSTR_BECH32_NEVENT | ENprofile _ _ => NOSTR_BECH32_NPROFILE
  | ENaddr _ _ _ => NOSTR_BECH32_NADDR | ENrelay _ => NOSTR_BECH32_NRELAY
  end.

Definition author_tlvs (author : option (list Z)) : list (Z * list Z) :=
  match author with Some pk => [(TLV_AUTHOR, pk)] | None => [] end.

Definition entity_tlvs (e : entity) : list (Z * list Z) :=
  match e with
  | ENevent id relays author => (TLV_SPECIAL, id) :: relay_tlvs relays ++ author_tlvs author
  | ENprofile pk relays => (TLV_SPECIAL, pk) :: relay_tlvs relays
  | ENaddr d relays author => (TLV_SPECIAL, d) :: relay_tlvs relays ++ author_tlvs author
  | ENrelay r => [(TLV_SPECIAL, r)]
  | _ => []
  end.

Definition entity_bytes (e : entity) : list Z :=
  match e with
  | ENote b | ENpub b | ENsec b => b
  | _ => tlvs_bytes (entity_tlvs e)
  end.

Definition bytes32 (l : list Z) : Prop := zlen l = 32 /\ bytes_ok l.
Definition small_str (l : list Z) : Prop := zlen l < 256 /\ bytes_ok l.
Definition relays_ok (relays : list (list Z)) : Prop := zlen relays <= NDB_MAX_RELAYS /\ Forall small_str relays.
Definition author_ok (author : option (list Z)) : Prop := match author with Some pk => bytes32 pk | None => True end.

Definition entity_ok (e : entity) : Prop :=
  match e with
  | ENote b | ENpub b | ENsec b => bytes32 b
  | ENevent id relays author => bytes32 id /\ relays_ok relays /\ author_ok author
  | ENprofile pk relays => bytes32 pk /\ relays_ok relays
  | ENaddr d relays author => small_str d /\ relays_ok relays /\ author_ok author
  | ENrelay r => small_str r
  end.

Definition author_at (m : mem) (p : option Z) (author : option (list Z)) : Prop :=
  match p, author with
  | Some a, Some pk => loadn m a 32 = Some pk
  | None, None => True
  | _, _ => False
  end.

Definition points_to (m : mem) (obj : nostr_bech32) (e : entity) : Prop :=
  match obj, e with
  | Bech32Note a, ENote b | Bech32Npub a, ENpub b | Bech32Nsec a, ENsec b => loadn m a 32 = Some b
  | Bech32Nevent o, ENevent id relays author =>
      author_at m (ne_event_id o) (Some id) /\ Forall2 (str_at m) (ne_relays o) relays /\ author_at m (ne_pubkey o) author
  | Bech32Nprofile o, ENprofile pk relays => author_at m (np_pubkey o) (Some pk) /\ Forall2 (str_at m) (np_relays o) relays
  | Bech32Naddr o, ENaddr d relays author =>
      (exists s, na_identifier o = Some s /\ str_at m s d) /\ Forall2 (str_at m) (na_relays o) relays /\ author_at m (na_pubkey o) author
  | Bech32Nrelay o, ENrelay r => exists s, nr_relay o = Some s /\ str_at m s r
  | _, _ => False
  end.

Lemma relay_tlvs_ok relays : Forall small_str relays -> Forall tlv_ok (relay_tlvs relays).
Proof.
  intros H. apply List.Forall_map. eapply List.Forall_impl; [| exact H]. intros r [Hr Hb].
  split; [unfold TLV_RELAY, TLV_KNOWN_TLVS; cbn; lia | done].
Qed.

Lemma author_tlvs_ok author : author_ok author -> Forall tlv_ok (author_tlvs author).
Proof.
  destruct author as [pk |]; [| constructor]. intros [Hl Hb]. constructor; [| constructor].
  split; [unfold TLV_AUTHOR, TLV_KNOWN_TLVS; cbn; lia | cbn; split; [lia | done]].
Qed.

Lemma special_ok v : small_str v -> tlv_ok (TLV_SPECIAL, v).
Proof. intros [Hl Hb]. split; [unfold TLV_SPECIAL, TLV_KNOWN_TLVS; cbn; lia | done]. Qed.

Lemma bytes32_small v : bytes32 v -> small_str v.
Proof. intros [Hl Hb]. split; [lia | done]. Qed.

Lemma entity_tlvs_ok e : entity_ok e -> Forall tlv_ok (entity_tlvs e) /\ (length (entity_tlvs e) <= MAX_TLVS)%nat.
Proof.
  assert (L : forall rs, zlen rs <= NDB_MAX_RELAYS -> (length (relay_tlvs rs) <= 24)%nat).
  { intros rs H. unfold relay_tlvs. rewrite length_map. unfold zlen, NDB_MAX_RELAYS in H. lia. }
  assert (La : forall a, (length (author_tlvs a) <= 1)%nat) by (intros [|]; cbn; lia).
  unfold MAX_TLVS. destruct e as [b | b | b | id rs au | pk rs | d rs au | r]; cbn [entity_ok entity_tlvs].
  1-3: split; [constructor | cbn; lia].
  - intros (Hi & (Hn & Hr) & Ha). specialize (L rs Hn). specialize (La au). split.
    + constructor; [by apply special_ok, bytes32_small |]. apply List.Forall_app. auto using relay_tlvs_ok, author_tlvs_ok.
    + cbn [length]. rewrite length_app. lia.
  - intros (Hi & Hn & Hr). specialize (L rs Hn). split.
    + constructor; [by apply special_ok, bytes32_small |]. by apply relay_tlvs_ok.
    + cbn [length]. lia.
  - intros (Hi & (Hn & Hr) & Ha). specialize (L rs Hn). specialize (La au). split.
    + constructor; [by apply special_ok |]. apply List.Forall_app. auto using relay_tlvs_ok, author_tlvs_ok.
    + cbn [length]. rewrite length_app. lia.
  - intros Hr. split; [constructor; [by apply special_ok | constructor] | cbn; lia].
Qed.

Lemma tlvs_bytes_ok l : Forall tlv_ok l -> bytes_ok (tlvs_bytes l).
Proof.
  induction 1 as [| [t v] l (Ht & Hv & Hb) _ IH]; [constructor |]. rewrite tlvs_bytes_cons. apply List.Forall_app. split; [| done].
  unfold tlv_bytes. cbn [fst snd] in *. unfold TLV_KNOWN_TLVS in Ht. pose proof (zlen_nonneg v).
  constructor; [unfold is_byte; lia |]. constructor; [unfold is_byte; lia | done].
Qed.

Lemma entity_bytes_ok e : entity_ok e -> bytes_ok (entity_bytes e).
Proof.
  intros He. destruct e as [b | b | b | id rs au | pk rs | d rs au | r]; cbn [entity_bytes]; try apply He;
    apply tlvs_bytes_ok, entity_tlvs_ok, He.
Qed.

(** The first part of a list, the relays, and what follows, where they lie. *)
Lemma special_relays_at m a v relays rest :
  let l := (TLV_SPECIAL, v) :: relay_tlvs relays ++ rest in
  let a1 := a + 2 + zlen v in
  let a2 := a1 + zlen (tlvs_bytes (relay_tlvs relays)) in
  loadn m a (zlen (tlvs_bytes l)) = Some (tlvs_bytes l) ->
  tlvs_at a l = mk_tlv TLV_SPECIAL (zlen v) (a + 2) :: tlvs_at a1 (relay_tlvs relays) ++ tlvs_at a2 rest /\
  loadn m (a + 2) (zlen v) = Some v /\
  Forall2 (str_at m) (map tlv_str (tlvs_at a1 (relay_tlvs relays))) relays /\
  loadn m a2 (zlen (tlvs_bytes rest)) = Some (tlvs_bytes rest).
Proof.
  cbv zeta. intros H. split; [cbn [tlvs_at]; by rewrite tlvs_at_app |].
  rewrite tlvs_bytes_cons, tlvs_bytes_app in H. apply loadn_app_inv in H as [H1 H2].
  rewrite zlen_tlv_bytes in H2. cbn [snd] in H2. apply loadn_app_inv in H2 as [H2 H3].
  split; [| split].
  - apply (loadn_cons m a TLV_SPECIAL (zlen v :: v)) in H1 as [_ H1]. apply loadn_cons in H1 as [_ H1]. rewrite <- H1. f_equal. lia.
  - apply relays_loaded. rewrite <- H2. f_equal. lia.
  - rewrite <- H3. f_equal. lia.
Qed.

Lemma author_loaded m a pk : bytes32 pk -> loadn m a (zlen (tlvs_bytes (author_tlvs (Some pk)))) = Some (tlvs_bytes (author_tlvs (Some pk))) ->
  tlvs_at a (author_tlvs (Some pk)) = [mk_tlv TLV_AUTHOR 32 (a + 2)] /\ loadn m (a + 2) 32 = Some pk.
Proof.
  intros [Hl _] H. cbn [author_tlvs tlvs_at]. rewrite Hl. split; [done |].
  unfold author_tlvs in H. rewrite tlvs_bytes_cons in H. apply loadn_app_inv in H as [H _].
  apply (loadn_cons m a TLV_AUTHOR (zlen pk :: pk)) in H as [_ H]. apply loadn_cons in H as [_ H]. rewrite <- Hl, <- H. f_equal. lia.
Qed.

Lemma fold_step_cons {A} (step : A -> nostr_tlv -> option A) a a' x l :
  step a x = Some a' -> fold_step step a (x :: l) = fold_step step a' l.
Proof. intros E. cbn [fold_step]. by rewrite E. Qed.

Lemma nevent_fold m a id relays author :
  bytes32 id -> zlen relays <= NDB_MAX_RELAYS -> author_ok author ->
  let l := entity_tlvs (ENevent id relays author) in
  loadn m a (zlen (tlvs_bytes l)) = Some (tlvs_bytes l) ->
  exists o, fold_step nevent_step (mk_nevent [] None None) (tlvs_at a l) = Some o /\
    is_Some (ne_event_id o) /\ points_to m (Bech32Nevent o) (ENevent id relays author).
Proof.
  intros Hid Hn Ha l H. destruct (special_relays_at m a id relays (author_tlvs author) H) as (E & Hi & Hr & Hau).
  unfold l. cbn [entity_tlvs]. rewrite E. destruct Hid as [Lid Bid]. rewrite Lid in *.
  rewrite (fold_step_cons nevent_step _ (mk_nevent [] (Some (a + 2)) None)) by done.
  rewrite fold_step_app.
  rewrite (fold_relays nevent_step ne_relays (fun e r => mk_nevent r (ne_event_id e) (ne_pubkey e))); try done;
    [| by intros e [t n v] Ht; cbn in Ht; subst t | by intros []].
  cbn [ne_relays ne_event_id ne_pubkey app mbind option_bind].
  destruct author as [pk |].
  - destruct (author_loaded m _ pk Ha Hau) as [Ea Hpk]. rewrite Ea. eexists. split; [reflexivity |]. split; [done |].
    cbn. done.
  - eexists. split; [reflexivity |]. split; [done |]. cbn. done.
Qed.

Lemma naddr_fold m a d relays author :
  zlen relays <= NDB_MAX_RELAYS -> author_ok author ->
  let l := entity_tlvs (ENaddr d relays author) in
  loadn m a (zlen (tlvs_bytes l)) = Some (tlvs_bytes l) ->
  exists o, fold_step naddr_step (mk_naddr [] None None) (tlvs_at a l) = Some o /\
    is_Some (na_identifier o) /\ points_to m (Bech32Naddr o) (ENaddr d relays author).
Proof.
  intros Hn Ha l H. destruct (special_relays_at m a d relays (author_tlvs author) H) as (E & Hi & Hr & Hau).
  unfold l. cbn [entity_tlvs]. rewrite E.
  rewrite (fold_step_cons naddr_step _ (mk_naddr [] (Some (mk_str (a + 2) (zlen d))) None)) by done.
  rewrite fold_step_app.
  rewrite (fold_relays naddr_step na_relays (fun e r => mk_naddr r (na_identifier e) (na_pubkey e))); try done;
    [| by intros e [t n v] Ht; cbn in Ht; subst t | by intros []].
  cbn [na_relays na_identifier na_pubkey app mbind option_bind].
  assert (Hs : str_at m (tlv_str (mk_tlv 0 (zlen d) (a + 2))) d) by (split; done).
  destruct author as [pk |].
  - destruct (author_loaded m _ pk Ha Hau) as [Ea Hpk]. rewrite Ea. eexists. split; [reflexivity |]. split; [done |].
    cbn. eauto.
  - eexists. split; [reflexivity |]. split; [done |]. cbn. eauto.
Qed.

Lemma nprofile_fold m a pk relays :
  bytes32 pk -> zlen relays <= NDB_MAX_RELAYS ->
  let l := entity_tlvs (ENprofile pk relays) in
  loadn m a (zlen (tlvs_bytes l)) = Some (tlvs_bytes l) ->
  exists o, fold_step nprofile_step (mk_nprofile [] None) (tlvs_at a l) = Some o /\
    is_Some (np_pubkey o) /\ points_to m (Bech32Nprofile o) (ENprofile pk relays).
Proof.
  intros [Lid Bid] Hn l H. assert (El : l = (TLV_SPECIAL, pk) :: relay_tlvs relays ++ []) by (by rewrite app_nil_r).
  clearbody l. subst l. destruct (special_relays_at m a pk relays [] H) as (E & Hi & Hr & _).
  rewrite E. cbn [tlvs_at]. rewrite app_nil_r. rewrite Lid in *.
  rewrite (fold_step_cons nprofile_step _ (mk_nprofile [] (Some (a + 2)))) by done.
  rewrite (fold_relays nprofile_step np_relays (fun e r => mk_nprofile r (np_pubkey e))); try done;
    [| by intros e [t n v] Ht; cbn in Ht; subst t | by intros []].
  eexists. split; [reflexivity |]. split; [done |]. cbn. done.
Qed.

(** The bytes of an entity parse to a structure that points to its parts. *)
Lemma parse_buffer_entity e m c :
  entity_ok e -> c_end c = c_p c + zlen (entity_bytes e) ->
  loadn m (c_p c) (zlen (entity_bytes e)) = Some (entity_bytes e) ->
  exists obj p, parse_nostr_bech32_buffer (entity_type e) (m, c) = Some (Some obj, (m, set_p c p)) /\ points_to m obj e.
Proof.
  intros He Hend Hm.
  assert (Hp : forall b, bytes32 b -> c_end c = c_p c + zlen b -> loadn m (c_p c) (zlen b) = Some b ->
    pull_bytes 32 (m, c) = Some (Some (c_p c), (m, set_p c (c_p c + 32))) /\ loadn m (c_p c) 32 = Some b).
  { intros b [Hl _] He1 Hm1. rewrite Hl in *. split; [| done]. unfold pull_bytes. rewrite bind_cur.
    destruct (Z.ltb_spec (c_end c) (c_p c + 32)); [lia |]. by rewrite bind_goto. }
  pose proof (entity_tlvs_ok e He) as [Hok Hlen].
  assert (Hloop : entity_bytes e = tlvs_bytes (entity_tlvs e) -> forall A (step : A -> nostr_tlv -> option A) (a : A),
    exists p, tlv_loop MAX_TLVS step a (m, c) = Some (fold_step step a (tlvs_at (c_p c) (entity_tlvs e)), (m, set_p c p))).
  { intros Eb A step a. rewrite Eb in *. by apply tlv_loop_at. }
  destruct e as [b | b | b | id rs au | pk rs | d rs au | r]; cbn [entity_type parse_nostr_bech32_buffer].
  1-3: destruct (Hp b He Hend Hm) as [E L]; eexists _, _; split;
    [unfold parse_nostr_bech32_note, parse_nostr_bech32_npub, parse_nostr_bech32_nsec; rewrite (run_bind _ _ _ _ _ E); reflexivity | exact L].
  - destruct He as (Hi & (Hn & Hr) & Ha). destruct (nevent_fold m (c_p c) id rs au Hi Hn Ha Hm) as (o & E & Hsome & Hpt).
    destruct (Hloop eq_refl _ nevent_step (mk_nevent [] None None)) as [p El]. exists (Bech32Nevent o), p. split; [| done].
    unfold parse_nostr_bech32_nevent. rewrite bind_bind, (run_bind _ _ _ _ _ El), E, run_ret.
    unfold keep_if. cbn [mbind option_bind]. by rewrite bool_decide_true by done.
  - destruct He as (Hi & Hn & Hr). destruct (nprofile_fold m (c_p c) pk rs Hi Hn Hm) as (o & E & Hsome & Hpt).
    destruct (Hloop eq_refl _ nprofile_step (mk_nprofile [] None)) as [p El]. exists (Bech32Nprofile o), p. split; [| done].
    unfold parse_nostr_bech32_nprofile. rewrite bind_bind, (run_bind _ _ _ _ _ El), E, run_ret.
    unfold keep_if. cbn [mbind option_bind]. by rewrite bool_decide_true by done.
  - destruct He as (Hi & (Hn & Hr) & Ha). destruct (naddr_fold m (c_p c) d rs au Hn Ha Hm) as (o & E & Hsome & Hpt).
    destruct (Hloop eq_refl _ naddr_step (mk_naddr [] None None)) as [p El]. exists (Bech32Naddr o), p. split; [| done].
    unfold parse_nostr_bech32_naddr. rewrite bind_bind, (run_bind _ _ _ _ _ El), E, run_ret.
    unfold keep_if. cbn [mbind option_bind]. by rewrite bool_decide_true by done.
  - destruct (Hloop eq_refl _ nrelay_step (mk_nrelay None)) as [p El].
    cbn [entity_tlvs tlvs_at] in El. rewrite (fold_step_cons nrelay_step _ (mk_nrelay (Some (mk_str (c_p c + 2) (zlen r))))) in El by done.
    exists (Bech32Nrelay (mk_nrelay (Some (mk_str (c_p c + 2) (zlen r))))), p. split.
    + unfold parse_nostr_bech32_nrelay. rewrite bind_bind, (run_bind _ _ _ _ _ El), run_ret. reflexivity.
    + exists (mk_str (c_p c + 2) (zlen r)). split; [done |]. split; [done |]. cbn [sb_str sb_len].
      cbn [entity_bytes entity_tlvs] in Hm. rewrite tlvs_bytes_cons in Hm. apply loadn_app_inv in Hm as [Hm _].
      apply (loadn_cons m (c_p c) TLV_SPECIAL (zlen r :: r)) in Hm as [_ Hm]. apply loadn_cons in Hm as [_ Hm]. rewrite <- Hm. f_equal. lia.
Qed.

(** ** Text *)

Definition entity_hrp (e : entity) : list Z :=
  match e with
  | ENote _ => [110; 111; 116; 101] | ENpub _ => [110; 112; 117; 98] | ENsec _ => [110; 115; 101; 99]
  | ENevent _ _ _ => [110; 101; 118; 101; 110; 116] | ENprofile _ _ => [110; 112; 114; 111; 102; 105; 108; 101]
  | ENaddr _ _ _ => [110; 97; 100; 100; 114] | ENrelay _ => [110; 114; 101; 108; 97; 121]
  end.

Fixpoint prefix_of (lit l : list Z) : bool :=
  match lit, l with
  | [], _ => true
  | x :: lit, y :: l => (y =? x) && prefix_of lit l
  | _, [] => false
  end.

Lemma strncmp_eq_spec lit : forall l a m c, zlen lit <= zlen l -> loadn m a (zlen l) = Some l ->
  strncmp_eq a lit (m, c) = Some (prefix_of lit l, (m, c)).
Proof.
  induction lit as [| x lit IH]; intros l a m c Hl Hm; [done |].
  destruct l as [| y l]; [exfalso; zl |]. apply loadn_cons in Hm as [H1 H2]. cbn [strncmp_eq prefix_of].
  rewrite (bind_peek8 _ _ _ _ _ H1). destruct (Z.eqb_spec y x); [| done]. cbn [andb]. apply IH; [zl | done].
Qed.

Fixpoint find_prefix (l : list (list Z * nostr_bech32_type)) (t : list Z) : option (nostr_bech32_type * Z) :=
  match l with
  | [] => None
  | (lit, ty) :: l => if prefix_of lit t then Some (ty, zlen lit) else find_prefix l t
  end.

Lemma try_prefixes_spec t a m c l : Forall (fun p => zlen p.1 <= zlen t) l -> loadn m a (zlen t) = Some t ->
  try_prefixes l a (m, c) = Some (find_prefix l t, (m, c)).
Proof.
  intros Hl Hm. induction Hl as [| [lit ty] l Hlit _ IH]; [done |]. cbn [try_prefixes find_prefix]. cbn [fst] in Hlit.
  rewrite (run_bind _ _ _ _ _ (strncmp_eq_spec lit t a m c Hlit Hm)). by destruct (prefix_of lit t).
Qed.

Lemma prefixes_short n : 8 <= n -> Forall (fun p => zlen p.1 <= n) bech32_prefixes.
Proof.
  intros Hn. unfold bech32_prefixes. repeat apply List.Forall_cons; try apply List.Forall_nil;
    (etransitivity; [| exact Hn]; vm_compute; discriminate).
Qed.

Lemma type_of_text e t a m c : 1 <= zlen t -> loadn m a (zlen (entity_hrp e ++ 49 :: t)) = Some (entity_hrp e ++ 49 :: t) ->
  8 <= zlen (entity_hrp e ++ 49 :: t) ->
  parse_nostr_bech32_type a (m, c) = Some (Some (entity_type e, zlen (entity_hrp e)), (m, c)).
Proof.
  intros Ht Hm Hl. unfold parse_nostr_bech32_type.
  rewrite (try_prefixes_spec (entity_hrp e ++ 49 :: t) a m c) by (by apply prefixes_short || done).
  by destruct e.
Qed.

(** Alphanumeric text is consumed to its end. *)
Lemma until_loop_all stop l : forall m c consumed or_end, Forall (fun b => stop b = false) l ->
  c_end c = c_p c + zlen l -> loadn m (c_p c) (zlen l) = Some l ->
  exists r, until_loop stop (length l) consumed or_end (m, c) = Some (r, (m, set_p c (c_end c))) /\ r = or_end.
Proof.
  induction l as [| b l IH]; intros m c consumed or_end Hs He Hm.
  - exists or_end. split; [| done]. change (@zlen Z []) with 0 in He. cbn [length until_loop].
    assert (E : set_p c (c_end c) = c) by (destruct c; cbn in *; unfold set_p; cbn; f_equal; lia). by rewrite E.
  - apply List.Forall_cons_iff in Hs as [Hb Hs]. rewrite zlen_cons in He. apply loadn_cons in Hm as [H1 H2].
    cbn [length until_loop]. rewrite bind_cur. pose proof (zlen_nonneg l).
    destruct (Z.ltb_spec (c_p c) (c_end c)); [| lia]. rewrite (bind_peek8 _ _ _ _ _ H1), Hb, bind_goto.
    destruct (IH m (set_p c (c_p c + 1)) true or_end Hs) as (r & E & Er); [cbn; lia | done |].
    exists r. split; [| done]. rewrite E. by destruct c.
Qed.

Lemma text_alphanumeric e data k : Forall symbol data ->
  Forall (fun b => negb (is_alphanumeric b) = false) (bech32_text_of (entity_hrp e) data k).
Proof.
  intros Hd. unfold bech32_text_of. cbv zeta. apply List.Forall_app. split; [by destruct e; repeat constructor |].
  constructor; [done |]. apply List.Forall_map. apply List.Forall_app.
  assert (G : forall v, symbol v -> negb (is_alphanumeric (symbol_char v)) = false).
  { intros v Hv. apply (Zrange_forallb 32 (fun v => negb (negb (is_alphanumeric (symbol_char v))))) in Hv; [| vm_compute; reflexivity].
    by apply negb_true_iff in Hv. }
  split; (eapply List.Forall_impl; [exact G |]); [done | apply checksum_symbols_ok].
Qed.

Lemma text_of_split hrp data k : exists t, bech32_text_of hrp data k = hrp ++ 49 :: t.
Proof. eexists. reflexivity. Qed.

Lemma parse_str_text e data k a m c :
  let t := bech32_text_of (entity_hrp e) data k in
  Forall symbol data -> 52 <= zlen data -> c_p c = a -> c_end c = a + zlen t -> loadn m a (zlen t) = Some t ->
  parse_nostr_bech32_str (m, c) = Some (Some (entity_type e), (m, set_p c (c_end c))).
Proof.
  intros t Hd Hl Ha He Hm. pose proof (zlen_text_of (entity_hrp e) data k) as Lt. fold t in Lt.
  assert (Hh : 0 <= zlen (entity_hrp e)) by apply zlen_nonneg.
  unfold parse_nostr_bech32_str. rewrite bind_cur, Ha.
  destruct (text_of_split (entity_hrp e) data k) as [r Er]. fold t in Er.
  assert (Hty : parse_nostr_bech32_type a (m, c) = Some (Some (entity_type e, zlen (entity_hrp e)), (m, c))).
  { rewrite Er in Hm, Lt. apply (type_of_text e r); [| done | rewrite Lt; lia].
    rewrite zlen_app, zlen_cons in Lt. lia. }
  rewrite (run_bind _ _ _ _ _ Hty). cbv zeta.
  unfold consume_until_non_alphanumeric. rewrite bind_bind, bind_cur. rewrite Ha, He.
  replace (Z.to_nat (a + zlen t - a)) with (length t) by (unfold zlen; lia).
  destruct (until_loop_all (fun b => negb (is_alphanumeric b)) t m c false true) as (ok & E & ->).
  { by apply text_alphanumeric. } { by rewrite Ha. } { by rewrite Ha. }
  rewrite (run_bind _ _ _ _ _ E). cbn [negb]. rewrite bind_cur. cbn [set_p c_p]. rewrite He, Lt.
  destruct (Z.ltb_spec (a + (zlen (entity_hrp e) + 7 + zlen data) - (a + zlen (entity_hrp e))) 59); [lia |].
  by rewrite <- Lt, <- He.
Qed.

(** * Properties *)

Definition is_nprofile (e : entity) : bool := match e with ENprofile _ _ => true | _ => false end.

(** C32: an entity that is encoded is parsed back: note, npub, nsec, nevent, naddr
    or nrelay with its relays and author, as bech32 text of 59 to 10000 symbols,
    gives a structure of its type whose pointers lead, in the buffer, to exactly
    the ids, keys, identifier and relays it was made of.  The length of the buffer
    is not looked at.  An nprofile is undefined behaviour: its eight-letter prefix
    fills the local array for it and the terminator goes outside. *)
Theorem entity_roundtrip e mx enc t u5 buf buflen s m c
  (He : entity_ok e) (Hl : 32 <= zlen (entity_bytes e))
  (Henc : bech32_encode (entity_hrp e) (fst (convert_chars (entity_bytes e) 5 8 true)) mx enc = Some t)
  (Ht : zlen t <= 10000) (Hm : loadn m s (zlen t) = Some t)
  (Hu : 0 <= u5) (Hum : u5 + zlen t <= zlen m) (Hb : 0 <= buf) (Hbm : buf + zlen (entity_bytes e) <= zlen m)
  (Hap : buf + zlen (entity_bytes e) <= u5 \/ u5 + zlen t <= buf) :
  if is_nprofile e then parse_nostr_bech32 u5 buf buflen s (zlen t) (m, c) = None
  else exists obj m', parse_nostr_bech32 u5 buf buflen s (zlen t) (m, c) = Some (Some obj, (m', c)) /\ points_to m' obj e.
Proof.
  pose proof (entity_bytes_ok e He) as Hbs. pose proof (convert_pad_symbols _ Hbs) as Hs. pose proof (zlen_convert_pad _ Hbs) as Ls.
  assert (Hss : bytes_ok (fst (convert_chars (entity_bytes e) 5 8 true))).
  { eapply List.Forall_impl; [| exact Hs]. unfold symbol, is_byte. intros; lia. }
  pose proof (bech32_encode_inv _ _ _ _ _ Hss Henc) as (Hh & _ & _ & k & Hk & Et).
  assert (L52 : 52 <= zlen (fst (convert_chars (entity_bytes e) 5 8 true))) by (rewrite Ls; Z.to_euclidean_division_equations; lia).
  assert (Lt : zlen t = zlen (entity_hrp e) + 7 + (8 * zlen (entity_bytes e) + 4) / 5) by (rewrite Et, zlen_text_of, Ls; done).
  assert (Hne : entity_hrp e <> []) by (by destruct e).
  assert (Hh8 : zlen (entity_hrp e) <= 8) by (destruct e; vm_compute; discriminate).
  pose proof (zlen_nonneg (entity_hrp e)).
  assert (Estr : parse_nostr_bech32_str (m, make_cursor s (s + zlen t)) = Some (Some (entity_type e), (m, mk_cursor s (s + zlen t) (s + zlen t)))).
  { rewrite Et in *. apply (parse_str_text e _ k s m (make_cursor s (s + zlen (bech32_text_of (entity_hrp e) (fst (convert_chars (entity_bytes e) 5 8 true)) k))) Hs L52); done. }
  set (body := parse_nostr_bech32 u5 buf buflen s (zlen t) (m, c)).
  assert (Eb : body = (let* d := bech32_decode_len MAX_PREFIX u5 s (zlen t) MAX_PREFIX in
        let '(enc, _, u5_out_len) := d in
        if bool_decide (enc = BECH32_ENCODING_NONE) then ret None
        else
          let* b := bech32_convert_bits buf 8 u5 u5_out_len 5 false in
          let '(ok, u8_out_len) := b in
          if negb ok then ret None
          else
            let* r := with_cursor_of (make_cursor buf (buf + u8_out_len)) (parse_nostr_bech32_buffer (entity_type e)) in
            ret (fst r)) (m, c)).
  { unfold body, parse_nostr_bech32. cbv zeta.
    assert (Ew : with_cursor_of (make_cursor s (s + zlen t)) parse_nostr_bech32_str (m, c) = Some ((Some (entity_type e), mk_cursor s (s + zlen t) (s + zlen t)), (m, c)))
      by (unfold with_cursor_of; by rewrite Estr).
    rewrite (run_bind _ _ _ _ _ Ew). cbn [c_p make_cursor]. replace (s + zlen t - s) with (zlen t) by lia.
    assert (52 <= (8 * zlen (entity_bytes e) + 4) / 5) by lia.
    destruct (Z.ltb_spec (zlen t) 10), (Z.ltb_spec 10000 (zlen t)); try lia. reflexivity. }
  rewrite Eb. clear Eb body. destruct (is_nprofile e) eqn:Ep.
  - unfold bech32_decode_len. rewrite bind_bind, (bind_peekn _ _ _ _ _ _ Hm), bind_bind.
    pose proof (bech32_decode_text (entity_hrp e) _ enc k MAX_PREFIX MAX_PREFIX Hne Hh Hs Hk ltac:(exact Hh8) ltac:(reflexivity)) as D.
    rewrite <- Et in D. destruct e; try discriminate Ep. cbn [entity_hrp] in D.
    change (zlen [110; 112; 114; 111; 102; 105; 108; 101] <? MAX_PREFIX) with false in D. unfold bind, lift. by rewrite D.
  - assert (Hh7 : zlen (entity_hrp e) < 8) by (destruct e; [| | | | discriminate Ep | |]; vm_compute; reflexivity).
    destruct (bech32_run (entity_hrp e) (entity_bytes e) mx enc t m c s u5 buf MAX_PREFIX MAX_PREFIX Hbs Hne Henc Hm)
      as (m1 & m2 & E1 & E2 & E3); try (unfold MAX_PREFIX; lia).
    rewrite (run_bind _ _ _ _ _ E1). rewrite bool_decide_false by (by destruct enc).
    rewrite (run_bind _ _ _ _ _ E2). cbn [negb].
    destruct (parse_buffer_entity e m2 (make_cursor buf (buf + zlen (entity_bytes e))) He) as (obj & p & E4 & Hpt); [done | |].
    { cbn [c_p make_cursor]. by eapply loadn_storen_same. }
    exists obj, m2. split; [| done].
    assert (E5 : with_cursor_of (make_cursor buf (buf + zlen (entity_bytes e))) (parse_nostr_bech32_buffer (entity_type e)) (m2, c)
      = Some ((Some obj, set_p (make_cursor buf (buf + zlen (entity_bytes e))) p), (m2, c))) by (unfold with_cursor_of; by rewrite E4).
    by rewrite (run_bind _ _ _ _ _ E5).
Qed.

Definition demo_id : list Z := replicate 32 7.
Definition demo_event : entity := ENevent demo_id [[119; 115]] (Some (replicate 32 9)).

Definition demo_text (e : entity) : list Z :=
  default [] (bech32_encode (entity_hrp e) (fst (convert_chars (entity_bytes e) 5 8 true)) 1000 BECH32_ENCODING_BECH32).

Lemma entity_roundtrip_witness :
  (exists obj m', parse_nostr_bech32 200 400 0 0 (zlen (demo_text demo_event)) (demo_text demo_event ++ replicate 500 0, make_cursor 0 0)
    = Some (Some obj, (m', make_cursor 0 0)) /\ points_to m' obj demo_event) /\
  parse_nostr_bech32 200 400 0 0 (zlen (demo_text (ENprofile demo_id []))) (demo_text (ENprofile demo_id []) ++ replicate 500 0, make_cursor 0 0) = None.
Proof.
  assert (B : bytes32 demo_id /\ bytes32 (replicate 32 9) /\ small_str [119; 115])
    by (repeat split; apply bytes_ok_dec; reflexivity).
  destruct B as (B1 & B2 & B3).
  assert (H1 : entity_ok demo_event).
  { split; [exact B1 |]. split; [| exact B2]. split; [vm_compute; discriminate | constructor; [exact B3 | constructor]]. }
  assert (H2 : entity_ok (ENprofile demo_id [])).
  { split; [exact B1 |]. split; [vm_compute; discriminate | constructor]. }
  split.
  - exact (entity_roundtrip demo_event 1000 BECH32_ENCODING_BECH32 (demo_text demo_event) 200 400 0 0
      (demo_text demo_event ++ replicate 500 0) (make_cursor 0 0) H1 ltac:(vm_compute; discriminate) ltac:(vm_compute; reflexivity)
      ltac:(vm_compute; discriminate) ltac:(vm_compute; reflexivity) ltac:(lia) ltac:(vm_compute; discriminate) ltac:(lia)
      ltac:(vm_compute; discriminate) ltac:(right; vm_compute; discriminate)).
  - exact (entity_roundtrip (ENprofile demo_id []) 1000 BECH32_ENCODING_BECH32 (demo_text (ENprofile demo_id [])) 200 400 0 0
      (demo_text (ENprofile demo_id []) ++ replicate 500 0) (make_cursor 0 0) H2 ltac:(vm_compute; discriminate) ltac:(vm_compute; reflexivity)
      ltac:(vm_compute; discriminate) ltac:(vm_compute; reflexivity) ltac:(lia) ltac:(vm_compute; discriminate) ltac:(lia)
      ltac:(vm_compute; discriminate) ltac:(right; vm_compute; discriminate)).
Defined.
