(* ===== verification/Blocks.v ===== *)
(** * Blocks of a note's content (src/src/block.c, src/src/invoice.c)

    A parsed content is a header and a sequence of blocks, each a type and what
    the type needs: where a string starts in the content and its length, the
    bytes of a nostr entity, the fields of an invoice.  Blocks are read back by an
    iterator.  Pointers are addresses in one memory that holds the content and the
    blocks. *)

From S2P Require Import Prelude Cursor Bech32 NostrBech32.

(** ** Data *)

Inductive ndb_block_type :=
  | BLOCK_HASHTAG | BLOCK_TEXT | BLOCK_MENTION_INDEX | BLOCK_MENTION_BECH32 | BLOCK_URL | BLOCK_INVOICE.

#[export] Instance block_type_eq_dec : EqDecision ndb_block_type.
Proof. solve_decision. Defined.

Definition block_type_num (t : ndb_block_type) : Z :=
  match t with
  | BLOCK_HASHTAG => 1 | BLOCK_TEXT => 2 | BLOCK_MENTION_INDEX => 3
  | BLOCK_MENTION_BECH32 => 4 | BLOCK_URL => 5 | BLOCK_INVOICE => 6
  end.

Definition block_type_of_num (n : Z) : option ndb_block_type :=
  if n =? 1 then Some BLOCK_HASHTAG else if n =? 2 then Some BLOCK_TEXT
  else if n =? 3 then Some BLOCK_MENTION_INDEX else if n =? 4 then Some BLOCK_MENTION_BECH32
  else if n =? 5 then Some BLOCK_URL else if n =? 6 then Some BLOCK_INVOICE else None.

Definition NDB_NUM_BLOCK_TYPES : Z := 6.
Definition NOSTR_BECH32_KNOWN_TYPES : Z := 7.

Record ndb_invoice := mk_invoice {
  inv_version : Z; inv_amount : Z; inv_timestamp : Z; inv_expiry : Z;
  inv_description : option Z; inv_description_hash : option Z
}.

Inductive ndb_block :=
  | BlockStr (type : ndb_block_type) (str : ndb_str_block)
  | BlockMentionIndex (mention_index : Z)
  | BlockMentionBech32 (str : ndb_str_block) (bech32 : nostr_bech32)
  | BlockInvoice (invstr : ndb_str_block) (invoice : ndb_invoice).

(** What the invoice decoder yields; strings without their terminator. *)
Record bolt11 := mk_bolt11 {
  b11_timestamp : Z; b11_msat : option Z; b11_description : option (list Z);
  b11_description_hash : option (list Z); b11_expiry : Z
}.

(** ** Invoices *)

(** A test of the result of [cursor_push_varint], which is -1 when there is no room. *)
Definition push_varint_test (n : Z) : CM bool :=
  let* r := cursor_push_varint n in ret (negb (r =? 0)).

Definition ndb_encode_invoice (invoice : bolt11) : CM bool :=
  match b11_description invoice, b11_description_hash invoice with
  | None, None => ret false
  | description, description_hash =>
      cursor_push_byte 1 &&*
      (push_varint_test (default 0 (b11_msat invoice)) &&*
      (push_varint_test (b11_timestamp invoice) &&*
      (push_varint_test (b11_expiry invoice) &&*
      match description with
      | Some d => cursor_push_byte 1 &&* cursor_push_c_str (Some d)
      | None => cursor_push_byte 2 &&* cursor_push (take 32 (default [] description_hash))
      end)))
  end.

Definition ndb_decode_invoice : CM (option ndb_invoice) :=
  let* v := cursor_pull_byte in
  match v with None => ret None | Some version =>
  let* a := cursor_pull_varint in
  match a with None => ret None | Some (amount, _) =>
  let* t := cursor_pull_varint in
  match t with None => ret None | Some (timestamp, _) =>
  let* e := cursor_pull_varint in
  match e with None => ret None | Some (expiry, _) =>
  let* d := cursor_pull_byte in
  match d with None => ret None | Some desc_type =>
  if desc_type =? 1 then
    let* s := cursor_pull_c_str in
    match s with
    | None => ret None
    | Some description => ret (Some (mk_invoice version amount timestamp expiry (Some description) None))
    end
  else if desc_type =? 2 then
    let* c := cur in
    let description_hash := c_p c in
    let* ok := cursor_skip 32 in
    if ok : bool then ret (Some (mk_invoice version amount timestamp expiry None (Some description_hash)))
    else ret None
  else ret None
  end end end end end.

(** ** Strings *)

Definition push_str_block (content : Z) (block : ndb_str_block) : CM bool :=
  push_varint_test (sb_str block - content) &&* push_varint_test (sb_len block).

Definition pull_str_block (content : Z) : CM (option ndb_str_block) :=
  let* s := cursor_pull_varint_u32 in
  match s with
  | None => ret None
  | Some start =>
      let* l := cursor_pull_varint_u32 in
      ret (option_map (mk_str (content + start)) l)
  end.

(** ** Reading blocks *)

Definition pull_nostr_bech32_type : CM (option nostr_bech32_type) :=
  let* r := cursor_pull_varint in
  match r with
  | None => ret None
  | Some (inttype, _) =>
      if (inttype <=? 0) || (NOSTR_BECH32_KNOWN_TYPES <? inttype) then ret None
      else ret (bech32_type_of_num inttype)
  end.

Definition pull_bech32_mention (content : Z) : CM (option ndb_block) :=
  let* s := pull_str_block content in
  match s with None => ret None | Some str =>
  let* z := cursor_pull_u16 in
  match z with None => ret None | Some size =>
  let* t := pull_nostr_bech32_type in
  match t with None => ret None | Some type =>
  let* c := cur in
  let start := c_p c in
  let* r := with_cursor_of (make_cursor start (start + size)) (parse_nostr_bech32_buffer type) in
  match fst r with
  | None => ret None
  | Some bech32 => do* goto (start + size) in ret (Some (BlockMentionBech32 str bech32))
  end end end end.

Definition pull_invoice (content : Z) : CM (option ndb_block) :=
  let* s := pull_str_block content in
  match s with
  | None => ret None
  | Some invstr => let* i := ndb_decode_invoice in ret (option_map (BlockInvoice invstr) i)
  end.

Definition pull_block_type : CM (option ndb_block_type) :=
  let* r := cursor_pull_varint_u32 in
  match r with
  | None => ret None
  | Some itype =>
      if (itype <=? 0) || (NDB_NUM_BLOCK_TYPES <? itype) then ret None
      else ret (block_type_of_num itype)
  end.

(** On failure, once the type is known, the cursor goes back to where the block started. *)
Definition pull_block (content : Z) : CM (option ndb_block) :=
  let* c := cur in
  let start := c_p c in
  let* t := pull_block_type in
  match t with
  | None => ret None
  | Some type =>
      let* r :=
        match type with
        | BLOCK_HASHTAG | BLOCK_TEXT | BLOCK_URL =>
            let* s := pull_str_block content in ret (option_map (BlockStr type) s)
        | BLOCK_MENTION_INDEX =>
            let* i := cursor_pull_varint_u32 in ret (option_map BlockMentionIndex i)
        | BLOCK_MENTION_BECH32 => pull_bech32_mention content
        | BLOCK_INVOICE => pull_invoice content
        end in
      match r with
      | None => do* goto start in ret None
      | Some block => ret (Some block)
      end
  end.

Definition ndb_get_block_type (block : ndb_block) : ndb_block_type :=
  match block with
  | BlockStr type _ => type
  | BlockMentionIndex _ => BLOCK_MENTION_INDEX
  | BlockMentionBech32 _ _ => BLOCK_MENTION_BECH32
  | BlockInvoice _ _ => BLOCK_INVOICE
  end.

Definition ndb_block_str (block : ndb_block) : option ndb_str_block :=
  match block with
  | BlockStr _ s | BlockMentionBech32 s _ | BlockInvoice s _ => Some s
  | BlockMentionIndex _ => None
  end.

Definition ndb_str_block_ptr (str_block : ndb_str_block) : Z := sb_str str_block.
Definition ndb_str_block_len (str_block : ndb_str_block) : Z := sb_len str_block.

Definition ndb_bech32_block (block : ndb_block) : option nostr_bech32 :=
  match block with BlockMentionBech32 _ b => Some b | _ => None end.

(** ** The header

    Offsets in struct ndb_blocks. *)

Definition off_version : Z := 0.
Definition off_flags : Z := 1.
Definition off_words : Z := 4.
Definition off_num_blocks : Z := 8.
Definition off_blocks_size : Z := 12.
Definition off_total_size : Z := 16.
Definition off_blocks : Z := 24.
Definition NDB_BLOCK_FLAG_OWNED : Z := 1.

Definition load_u32 (a : Z) : CM Z := let* l := peekn a 4 in ret (le_int l).

Definition ndb_blocks_total_size (blocks : Z) : CM Z := load_u32 (blocks + off_total_size).
Definition ndb_blocks_flags (blocks : Z) : CM Z := peek8 (blocks + off_flags).
Definition ndb_blocks_word_count (blocks : Z) : CM Z := load_u32 (blocks + off_words).

(** Whether the blocks are freed. *)
Definition ndb_blocks_free (blocks : Z) : CM bool :=
  let* flags := peek8 (blocks + off_flags) in
  ret (Z.land flags NDB_BLOCK_FLAG_OWNED =? NDB_BLOCK_FLAG_OWNED).

Record ndb_block_iterator := mk_iter { it_content : Z; it_blocks : Z; it_p : Z }.

Definition ndb_blocks_iterate_start (content blocks : Z) : ndb_block_iterator :=
  mk_iter content blocks (blocks + off_blocks).

Definition ndb_blocks_iterate_next (iter : ndb_block_iterator) : CM (option ndb_block * ndb_block_iterator) :=
  let start := it_blocks iter + off_blocks in
  let* size := load_u32 (it_blocks iter + off_blocks_size) in
  let cur := mk_cursor start (it_p iter) (start + size) in
  if c_p cur <? c_end cur then
    let* '(r, cur) := with_cursor_of cur (pull_block (it_content iter)) in
    ret (r, mk_iter (it_content iter) (it_blocks iter) (c_p cur))
  else ret (None, iter).

(** What a client does: iterate until there is no block. *)
Fixpoint iterate (fuel : nat) (iter : ndb_block_iterator) : CM (list ndb_block) :=
  match fuel with
  | O => ret []
  | S fuel =>
      let* '(r, iter) := ndb_blocks_iterate_next iter in
      match r with
      | None => ret []
      | Some block => let* rest := iterate fuel iter in ret (block :: rest)
      end
  end.

(** * Lemmas *)

(** ** Writers that may run into the end unnoticed

    A push of a varint that does not fit fills the buffer and passes its test:
    after a success either exactly the data was written or the buffer is full. *)

Definition full (s : mem * cursor) : Prop := c_p (snd s) = c_end (snd s).

Class Pushes (w : CM bool) (d : list Z) : Prop :=
  pushes_run : forall s, cwf s -> exists ok s', w s = Some (ok, s') /\ frame s s' /\
    (ok = true -> pushed s d s' \/ full s').

#[export] Instance Emits_Pushes w d r : Emits w d r -> Pushes w d.
Proof.
  intros E s W. destruct (emits_frame w d r s E W) as (b & s' & Es & F). exists b, s'. split; [done |]. split; [done |].
  intros ->. left. by apply (emits_true w d r s s' E W Es).
Qed.

Lemma frame_full s s' : frame s s' -> full s -> full s'.
Proof. unfold frame, full. intros (_ & -> & H & _) E. lia. Qed.

#[export] Instance Pushes_andM w1 d1 w2 d2 : Pushes w1 d1 -> Pushes w2 d2 -> Pushes (w1 &&* w2) (d1 ++ d2).
Proof.
  intros H1 H2 s W. destruct (H1 s W) as (ok & s1 & E1 & F1 & P1). unfold andM. rewrite (run_bind _ _ _ _ _ E1).
  destruct ok; [| by exists false, s1].
  destruct (H2 s1 (frame_cwf _ _ W F1)) as (ok & s2 & E2 & F2 & P2). exists ok, s2. split; [done |].
  split; [by eapply frame_trans |]. intros Hok. destruct (P1 eq_refl) as [P | P]; [| right; by eapply frame_full].
  destruct (P2 Hok) as [Q | Q]; [left; by eapply pushed_app | by right].
Qed.

Lemma push_varint_loop_full fuel : forall n len s, 0 <= len -> cwf s ->
  exists r s', push_varint_loop fuel n len s = Some (r, s') /\ frame s s' /\ (r = -1 -> full s') /\
    (r = -1 \/ len <= r) /\ ((0 < fuel)%nat -> r = -1 \/ len < r).
Proof.
  induction fuel as [| fuel IH]; intros n len s Hl W; cbn [push_varint_loop].
  - exists len, s. split; [done |]. split; [by apply frame_refl |]. split; [lia |]. split; [lia |]. intros Hf. exfalso. lia.
  - set (b := Z.lor _ _). destruct s as [m c].
    destruct (decide (c_p c + 1 <= c_end c)) as [Hr | Hr].
    + destruct (emits_ok (Emits := Emits_push_byte b) (m, c) W Hr) as (s1 & E1 & P1). rewrite (run_bind _ _ _ _ _ E1).
      assert (F1 : frame (m, c) s1) by (eapply pushed_frame; eauto; simpl; zl).
      destruct (Z.shiftr n 7 =? 0).
      * exists (len + 1), s1. split; [done |]. split; [done |]. split; [lia |]. split; [right; lia |]. intros _. right. lia.
      * destruct (IH (Z.shiftr n 7) (len + 1) s1 ltac:(lia) (frame_cwf _ _ W F1)) as (r & s2 & E2 & F2 & G & Hr1 & _).
        exists r, s2. split; [done |]. split; [by eapply frame_trans |]. split; [done |]. split; [lia |]. intros _. lia.
    + assert (E1 : cursor_push_byte b (m, c) = Some (false, (m, c))).
      { unfold cursor_push_byte. rewrite bind_cur. destruct (Z.ltb_spec (c_end c) (c_p c + 1)); [done | lia]. }
      rewrite (run_bind _ _ _ _ _ E1). exists (-1), (m, c). split; [done |]. split; [by apply frame_refl |].
      split; [| split; [by left | by left]]. intros _. unfold full, cwf in *. cbn in *. lia.
Qed.

(** The test never fails. *)
Lemma push_varint_test_run n s : cwf s ->
  exists s', push_varint_test n s = Some (true, s') /\ frame s s' /\ (pushed s (varint n) s' \/ full s').
Proof.
  intros W. destruct (push_varint_loop_full 10 (u64 n) 0 s ltac:(lia) W) as (r & s' & E & F & G & _ & Hr).
  exists s'. unfold push_varint_test, cursor_push_varint. rewrite (run_bind _ _ _ _ _ E).
  destruct (Z.eqb_spec r 0) as [-> | Hr0]; [specialize (Hr ltac:(lia)); lia |]. split; [done |]. split; [done |].
  destruct (cursor_push_varint_spec n s W) as [A B]. unfold cursor_push_varint in A, B.
  destruct (decide (c_p (snd s) + zlen (varint n) <= c_end (snd s))) as [Hfit | Hfit].
  - destruct (A Hfit) as (s1 & E1 & P). rewrite E in E1. injection E1 as _ ->. by left.
  - destruct (B ltac:(lia)) as (s1 & E1 & _). rewrite E in E1. injection E1 as -> _. right. by apply G.
Qed.

#[export] Instance Pushes_varint_test n : Pushes (push_varint_test n) (varint n).
Proof. intros s W. destruct (push_varint_test_run n s W) as (s' & E & F & P). exists true, s'. auto. Qed.

(** ** Encodings *)

Definition str_bytes (content : Z) (s : ndb_str_block) : list Z :=
  varint (sb_str s - content) ++ varint (sb_len s).

#[export] Instance Pushes_str_block content s : Pushes (push_str_block content s) (str_bytes content s).
Proof. apply Pushes_andM; apply _. Qed.

Definition invoice_head (b : bolt11) (desc_type : Z) : list Z :=
  [1] ++ varint (default 0 (b11_msat b)) ++ varint (b11_timestamp b) ++ varint (b11_expiry b) ++ [desc_type].

Definition invoice_bytes (b : bolt11) : list Z :=
  match b11_description b with
  | Some d => invoice_head b 1 ++ d ++ [0]
  | None => invoice_head b 2 ++ take 32 (default [] (b11_description_hash b))
  end.

Definition invoice_ok (b : bolt11) : Prop :=
  is_u64 (default 0 (b11_msat b)) /\ is_u64 (b11_timestamp b) /\ is_u64 (b11_expiry b) /\
  match b11_description b, b11_description_hash b with
  | Some d, _ => Forall (fun x => x <> 0) d
  | None, Some h => zlen h = 32
  | None, None => False
  end.

#[export] Instance Pushes_invoice b : Pushes (ndb_encode_invoice b) (invoice_bytes b).
Proof.
  unfold ndb_encode_invoice, invoice_bytes, invoice_head.
  destruct (b11_description b) as [d |].
  - rewrite <- !app_assoc. repeat (apply Pushes_andM; [apply _ |]). apply _.
  - destruct (b11_description_hash b) as [h |].
    + rewrite <- !app_assoc. repeat (apply Pushes_andM; [apply _ |]). apply _.
    + intros s W. exists false, s. split; [done |]. split; [by apply frame_refl | done].
Qed.

(** A block as it is stored. *)
Inductive stored_block :=
  | SStr (type : ndb_block_type) (s : ndb_str_block)
  | SIndex (n : Z)
  | SMention (s : ndb_str_block) (type : nostr_bech32_type) (bytes : list Z)
  | SInvoice (s : ndb_str_block) (b : bolt11).

Definition stored_bytes (content : Z) (b : stored_block) : list Z :=
  match b with
  | SStr type s => varint (block_type_num type) ++ str_bytes content s
  | SIndex n => varint 3 ++ varint n
  | SMention s type bytes =>
      (varint 4 ++ str_bytes content s ++ le_bytes 2 (zlen bytes) ++ varint (bech32_type_num type)) ++ bytes
  | SInvoice s b => (varint 6 ++ str_bytes content s) ++ invoice_bytes b
  end.

Definition str_ok (content : Z) (s : ndb_str_block) : Prop := is_u32 (sb_str s - content) /\ is_u32 (sb_len s).

Definition str_type (t : ndb_block_type) : bool :=
  match t with BLOCK_HASHTAG | BLOCK_TEXT | BLOCK_URL => true | _ => false end.

Definition stored_ok (content : Z) (b : stored_block) : Prop :=
  match b with
  | SStr type s => str_type type = true /\ str_ok content s
  | SIndex n => is_u32 n
  | SMention s type bytes => str_ok content s /\ zlen bytes < 2 ^ 16
  | SInvoice s b => str_ok content s /\ invoice_ok b
  end.

(** ** Reading encodings back *)

(** The bytes at the position, all before the end. *)
Definition holds (m : mem) (c : cursor) (l : list Z) : Prop :=
  loadn m (c_p c) (zlen l) = Some l /\ c_p c + zlen l <= c_end c.

Definition after (c : cursor) (l : list Z) : cursor := set_p c (c_p c + zlen l).

Lemma mem_holds_app m c l1 l2 : holds m c (l1 ++ l2) -> holds m c l1 /\ holds m (after c l1) l2.
Proof.
  unfold holds, after. cbn [set_p c_p c_end]. rewrite zlen_app. intros [H1 H2]. pose proof (zlen_nonneg l2).
  rewrite <- zlen_app in H1. apply loadn_app_inv in H1 as [A B]. split; (split; [done | lia]).
Qed.

Lemma after_app c l1 l2 : after (after c l1) l2 = after c (l1 ++ l2).
Proof. unfold after, set_p. cbn. rewrite zlen_app. f_equal. lia. Qed.

Lemma is_u64_id n : is_u64 n -> u64 n = n.
Proof. apply Z.mod_small. Qed.

Lemma u32_u64 n : is_u32 n -> is_u64 n.
Proof. unfold is_u32, is_u64. lia. Qed.

Lemma pull_varint_holds n m c : is_u64 n -> holds m c (varint n) ->
  cursor_pull_varint (m, c) = Some (Some (n, zlen (varint n)), (m, after c (varint n))).
Proof. intros Hn [H1 H2]. rewrite (cursor_pull_varint_spec n m c H2 H1). by rewrite is_u64_id. Qed.

Lemma pull_u32_holds n m c : is_u32 n -> holds m c (varint n) ->
  cursor_pull_varint_u32 (m, c) = Some (Some n, (m, after c (varint n))).
Proof.
  intros Hn H. unfold cursor_pull_varint_u32. rewrite (run_bind _ _ _ _ _ (pull_varint_holds n m c (u32_u64 n Hn) H)).
  unfold is_u32 in Hn. destruct (Z.ltb_spec (2 ^ 32 - 1) n); [lia | done].
Qed.

Lemma pull_byte_holds b m c : holds m c [b] -> cursor_pull_byte (m, c) = Some (Some b, (m, after c [b])).
Proof.
  intros [H1 H2]. apply loadn_cons in H1 as [H1 _]. rewrite (cursor_pull_byte_some m c b); [| | done].
  - unfold after. reflexivity.
  - change (zlen [b]) with 1 in H2. lia.
Qed.

Lemma pull_str_holds content s m c : str_ok content s -> holds m c (str_bytes content s) ->
  pull_str_block content (m, c) = Some (Some s, (m, after c (str_bytes content s))).
Proof.
  intros [H1 H2] H. unfold str_bytes in *. apply mem_holds_app in H as [Ha Hb].
  unfold pull_str_block. rewrite (run_bind _ _ _ _ _ (pull_u32_holds _ m c H1 Ha)).
  rewrite (run_bind _ _ _ _ _ (pull_u32_holds _ m _ H2 Hb)). rewrite after_app. unfold ret. cbn [option_map].
  replace (content + (sb_str s - content)) with (sb_str s) by lia. by destruct s.
Qed.

Lemma pull_u16_holds n m c : is_u16 n -> holds m c (le_bytes 2 n) ->
  cursor_pull_u16 (m, c) = Some (Some n, (m, after c (le_bytes 2 n))).
Proof.
  intros Hn [H1 H2]. rewrite zlen_le_bytes in *. unfold cursor_pull_u16, cursor_pull. rewrite bind_bind, bind_cur.
  change (Z.of_nat 2) with 2 in *.
  destruct (Z.ltb_spec (c_end c) (c_p c + 2)); [lia |]. rewrite bind_bind, (bind_peekn _ _ _ _ _ _ H1), bind_bind, bind_goto, run_ret.
  unfold ret. cbn [option_map]. rewrite le_int_le_bytes_small by exact Hn. unfold after. by rewrite zlen_le_bytes.
Qed.

Lemma pull_c_str_loop_holds d m : forall c fuel, Forall (fun x => x <> 0) d -> holds m c (d ++ [0]) -> (length d < fuel)%nat ->
  pull_c_str_loop fuel (m, c) = Some (true, (m, after c (d ++ [0]))).
Proof.
  induction d as [| x d IH]; intros c fuel Hd H Hf; (destruct fuel as [| fuel]; [lia |]); cbn [pull_c_str_loop]; rewrite bind_cur.
  - destruct H as [H1 H2]. cbn [app] in *. change (zlen [0]) with 1 in *. apply (loadn_cons m (c_p c) 0 []) in H1 as [H1 _].
    destruct (Z.ltb_spec (c_p c) (c_end c)); [| lia]. by rewrite (bind_peek8 _ _ _ _ _ H1), bind_goto.
  - apply List.Forall_cons_iff in Hd as [Hx Hd]. change ((x :: d) ++ [0]) with ([x] ++ (d ++ [0])) in *. pose proof H as Hall.
    apply mem_holds_app in H as [[H1 H2] Hb]. change (zlen [x]) with 1 in *. apply (loadn_cons m (c_p c) x []) in H1 as [H1 _].
    destruct (Z.ltb_spec (c_p c) (c_end c)); [| lia]. rewrite (bind_peek8 _ _ _ _ _ H1), bind_goto.
    destruct (Z.eqb_spec x 0); [done |]. change (set_p c (c_p c + 1)) with (after c [x]).
    rewrite (IH (after c [x]) fuel Hd Hb) by (cbn [length] in Hf; lia). by rewrite after_app.
Qed.

Lemma pull_c_str_holds d m c : Forall (fun x => x <> 0) d -> holds m c (d ++ [0]) ->
  cursor_pull_c_str (m, c) = Some (Some (c_p c), (m, after c (d ++ [0]))).
Proof.
  intros Hd H. unfold cursor_pull_c_str. rewrite bind_cur.
  assert (Hf : (length d < Z.to_nat (c_end c - c_p c))%nat).
  { destruct H as [_ H]. rewrite zlen_app in H. change (zlen [0]) with 1 in H. unfold zlen in H. lia. }
  by rewrite (run_bind _ _ _ _ _ (pull_c_str_loop_holds d m c _ Hd H Hf)).
Qed.

(** What the iterator should give for a stored block at [p], in blocks that end at [cend]. *)
Definition pulled_invoice (p cend : Z) (b : bolt11) : option ndb_invoice :=
  let inv := mk_invoice 1 (default 0 (b11_msat b)) (b11_timestamp b) (b11_expiry b) in
  match b11_description b with
  | Some _ => Some (inv (Some (p + zlen (invoice_head b 1))) None)
  | None =>
      (* the last byte of the blocks cannot be part of a hash *)
      if cend <=? p + zlen (invoice_head b 2) + 32 then None else Some (inv None (Some (p + zlen (invoice_head b 2))))
  end.

Definition pulled (m : mem) (content p cend : Z) (b : stored_block) : option ndb_block :=
  match b with
  | SStr type s => Some (BlockStr type s)
  | SIndex n => Some (BlockMentionIndex n)
  | SMention s type bytes =>
      let a := p + zlen (stored_bytes content b) - zlen bytes in
      match parse_nostr_bech32_buffer type (m, make_cursor a (a + zlen bytes)) with
      | Some (Some obj, _) => Some (BlockMentionBech32 s obj)
      | _ => None
      end
  | SInvoice s i => option_map (BlockInvoice s) (pulled_invoice (p + zlen (varint 6 ++ str_bytes content s)) cend i)
  end.

Lemma is_byte_ok b : is_byte b -> b = u8 b.
Proof. intros H. symmetry. by apply Z.mod_small. Qed.

(** The fields in front of the description. *)
Lemma decode_invoice_holds b m c : invoice_ok b -> holds m c (invoice_bytes b) ->
  exists p, ndb_decode_invoice (m, c) = Some (pulled_invoice (c_p c) (c_end c) b, (m, set_p c p)) /\
    (is_Some (pulled_invoice (c_p c) (c_end c) b) -> set_p c p = after c (invoice_bytes b)).
Proof.
  intros (Hm & Ht & He & Hd) H.
  set (t := match b11_description b with Some _ => 1 | None => 2 end).
  set (body := match b11_description b with Some d => d ++ [0] | None => take 32 (default [] (b11_description_hash b)) end).
  assert (Eb : invoice_bytes b = invoice_head b t ++ body) by (unfold invoice_bytes, t, body; by destruct (b11_description b)).
  pose proof H as Hall. rewrite Eb in H. apply mem_holds_app in H as [Hh Hbody].
  pose proof Hh as Hh0. unfold invoice_head in Hh. apply mem_holds_app in Hh as [H1 Hh]. apply mem_holds_app in Hh as [H2 Hh].
  apply mem_holds_app in Hh as [H3 Hh]. apply mem_holds_app in Hh as [H4 H5]. rewrite !after_app in *.
  unfold ndb_decode_invoice. rewrite (run_bind _ _ _ _ _ (pull_byte_holds 1 m c H1)).
  rewrite (run_bind _ _ _ _ _ (pull_varint_holds _ m _ Hm H2)), after_app.
  rewrite (run_bind _ _ _ _ _ (pull_varint_holds _ m _ Ht H3)), after_app.
  rewrite (run_bind _ _ _ _ _ (pull_varint_holds _ m _ He H4)), after_app.
  rewrite <- !app_assoc in *.
  rewrite (run_bind _ _ _ _ _ (pull_byte_holds t m _ H5)), after_app. rewrite <- !app_assoc in *.
  change ([1] ++ varint (default 0 (b11_msat b)) ++ varint (b11_timestamp b) ++ varint (b11_expiry b) ++ [t]) with (invoice_head b t) in *.
  rewrite Eb. unfold pulled_invoice. destruct (b11_description b) as [d |] eqn:Ed.
  - unfold t at 1. cbn [Z.eqb Pos.eqb].
    rewrite (run_bind _ _ _ _ _ (pull_c_str_holds d m (after c (invoice_head b t)) Hd Hbody)). rewrite after_app.
    exists (c_p c + zlen (invoice_head b t ++ body)). split; [reflexivity | done].
  - destruct (b11_description_hash b) as [h |] eqn:Eh; [| done].
    unfold t in *. cbn [Z.eqb Pos.eqb]. rewrite bind_cur. unfold cursor_skip. rewrite bind_bind, bind_cur.
    cbn [after set_p c_p c_end c_start].
    destruct (Z.leb_spec (c_end c) (c_p c + zlen (invoice_head b 2) + 32)) as [Hlt | Hge].
    + rewrite run_ret. exists (c_p c + zlen (invoice_head b 2)). split; [reflexivity |]. by intros [].
    + rewrite bind_bind, bind_goto, run_ret. exists (c_p c + zlen (invoice_head b 2) + 32). split; [reflexivity |].
      intros _. unfold after, body. cbn [default]. rewrite zlen_app. unfold set_p. f_equal.
      cbn [default from_option id]. rewrite zlen_take. change (id h) with h. lia.
Qed.

Lemma block_type_num_u32 t : is_u32 (block_type_num t) /\ 0 < block_type_num t <= 6 /\ block_type_of_num (block_type_num t) = Some t.
Proof. unfold is_u32. destruct t; cbn; auto with lia. Qed.

Lemma bech32_type_num_u64 t : is_u64 (bech32_type_num t) /\ 0 < bech32_type_num t <= 7 /\ bech32_type_of_num (bech32_type_num t) = Some t.
Proof. unfold is_u64. destruct t; cbn; auto with lia. Qed.

Definition stored_type (b : stored_block) : ndb_block_type :=
  match b with SStr t _ => t | SIndex _ => BLOCK_MENTION_INDEX | SMention _ _ _ => BLOCK_MENTION_BECH32 | SInvoice _ _ => BLOCK_INVOICE end.

Definition stored_body (content : Z) (b : stored_block) : list Z :=
  match b with
  | SStr _ s => str_bytes content s
  | SIndex n => varint n
  | SMention s type bytes => (str_bytes content s ++ le_bytes 2 (zlen bytes) ++ varint (bech32_type_num type)) ++ bytes
  | SInvoice s b => str_bytes content s ++ invoice_bytes b
  end.

Lemma stored_bytes_split content b : stored_bytes content b = varint (block_type_num (stored_type b)) ++ stored_body content b.
Proof. by destruct b; cbn [stored_bytes stored_type stored_body block_type_num]; rewrite <- ?app_assoc. Qed.

(** What a block says is read back, or the cursor returns to its start. *)
Lemma pull_block_holds content b m c :
  stored_ok content b -> holds m c (stored_bytes content b) -> cwf (m, c) ->
  let r := pulled m content (c_p c) (c_end c) b in
  pull_block content (m, c) = Some (r, (m, if r is Some _ then after c (stored_bytes content b) else c)).
Proof.
  intros Hok H W. cbv zeta. pose proof H as Hall. rewrite stored_bytes_split in H. apply mem_holds_app in H as [Ht Hb].
  destruct (block_type_num_u32 (stored_type b)) as (Hu & Hr & Ety).
  unfold pull_block. rewrite bind_cur. cbv zeta.
  assert (E : pull_block_type (m, c) = Some (Some (stored_type b), (m, after c (varint (block_type_num (stored_type b)))))).
  { unfold pull_block_type. rewrite (run_bind _ _ _ _ _ (pull_u32_holds _ m c Hu Ht)).
    unfold NDB_NUM_BLOCK_TYPES. destruct (Z.leb_spec (block_type_num (stored_type b)) 0), (Z.ltb_spec 6 (block_type_num (stored_type b))); try lia.
    cbn [orb]. by rewrite Ety. }
  rewrite (run_bind _ _ _ _ _ E). rewrite stored_bytes_split, <- after_app. set (c1 := after c (varint (block_type_num (stored_type b)))) in *.
  destruct b as [type s | n | s type bytes | s i]; cbn [stored_type stored_body stored_ok] in *.
  - destruct Hok as [Hty Hs].
    assert (Er : (let* s := pull_str_block content in ret (option_map (BlockStr type) s)) (m, c1)
      = Some (Some (BlockStr type s), (m, after c1 (str_bytes content s)))) by (by rewrite (run_bind _ _ _ _ _ (pull_str_holds content s m c1 Hs Hb))).
    destruct type; try discriminate Hty; by rewrite (run_bind _ _ _ _ _ Er).
  - rewrite bind_bind, (run_bind _ _ _ _ _ (pull_u32_holds n m c1 Hok Hb)). reflexivity.
  - destruct Hok as [Hs Hl]. apply mem_holds_app in Hb as [Hb1 Hb2]. apply mem_holds_app in Hb1 as [Hb1 Hb3]. apply mem_holds_app in Hb3 as [Hb3 Hb4].
    destruct (bech32_type_num_u64 type) as (Hu' & Hr' & Ety').
    assert (Hlen : is_u16 (zlen bytes)) by (unfold is_u16; pose proof (zlen_nonneg bytes); lia).
    unfold pull_bech32_mention. rewrite bind_bind, (run_bind _ _ _ _ _ (pull_str_holds content s m c1 Hs Hb1)).
    rewrite bind_bind, (run_bind _ _ _ _ _ (pull_u16_holds (zlen bytes) m _ Hlen Hb3)).
    assert (Et : pull_nostr_bech32_type (m, after (after c1 (str_bytes content s)) (le_bytes 2 (zlen bytes)))
      = Some (Some type, (m, after (after (after c1 (str_bytes content s)) (le_bytes 2 (zlen bytes))) (varint (bech32_type_num type))))).
    { unfold pull_nostr_bech32_type. rewrite (run_bind _ _ _ _ _ (pull_varint_holds _ m _ Hu' Hb4)).
      unfold NOSTR_BECH32_KNOWN_TYPES. destruct (Z.leb_spec (bech32_type_num type) 0), (Z.ltb_spec 7 (bech32_type_num type)); try lia.
      cbn [orb]. by rewrite Ety'. }
    rewrite bind_bind, (run_bind _ _ _ _ _ Et). rewrite bind_bind, bind_cur. rewrite !after_app in *.
    rewrite <- !app_assoc in *.
    set (head := str_bytes content s ++ le_bytes 2 (zlen bytes) ++ varint (bech32_type_num type)) in *.
    set (a := c_p (after c1 head)).
    assert (Ea : a = c_p c + zlen (stored_bytes content (SMention s type bytes)) - zlen bytes).
    { unfold a, c1, after, head. cbn [set_p c_p stored_bytes block_type_num]. rewrite !zlen_app. lia. }
    unfold pulled. cbv zeta. rewrite <- Ea.
    assert (Wa : cwf (m, make_cursor a (a + zlen bytes))).
    { destruct Hb2 as [_ Hb2]. unfold cwf in *. unfold a in *. cbn [make_cursor c_start c_p c_end fst snd] in *. pose proof (zlen_nonneg bytes).
      pose proof (zlen_nonneg head). pose proof (zlen_nonneg (varint 4)). unfold c1, after in *. cbn [set_p c_p c_end block_type_num] in *. lia. }
    destruct (Reader_parse_buffer type m _ Wa) as (r & p & Ep & _). rewrite Ep.
    rewrite bind_bind.
    assert (Ew : with_cursor_of (make_cursor a (a + zlen bytes)) (parse_nostr_bech32_buffer type) (m, after c1 head)
      = Some ((r, set_p (make_cursor a (a + zlen bytes)) p), (m, after c1 head))) by (unfold with_cursor_of; by rewrite Ep).
    rewrite (run_bind _ _ _ _ _ Ew). cbn [fst]. destruct r as [obj |].
    + rewrite bind_bind, bind_goto, run_ret. unfold ret. do 3 f_equal.
      unfold a, c1, head, after, set_p. cbn [c_p c_start c_end]. rewrite !zlen_app. f_equal. lia.
    + rewrite run_ret, bind_goto. by destruct c.
  - destruct Hok as [Hs Hi]. apply mem_holds_app in Hb as [Hb1 Hb2].
    unfold pull_invoice. rewrite bind_bind, (run_bind _ _ _ _ _ (pull_str_holds content s m c1 Hs Hb1)).
    destruct (decode_invoice_holds i m _ Hi Hb2) as (p & Ed & Hp). rewrite bind_bind, (run_bind _ _ _ _ _ Ed), run_ret.
    assert (Ea : c_p (after c1 (str_bytes content s)) = c_p c + zlen (varint 6 ++ str_bytes content s)).
    { unfold c1, after. cbn [set_p c_p block_type_num]. rewrite zlen_app. lia. }
    rewrite Ea in *. change (c_end (after c1 (str_bytes content s))) with (c_end c) in *. unfold pulled.
    destruct (pulled_invoice (c_p c + zlen (varint 6 ++ str_bytes content s)) (c_end c) i) as [inv |]; cbn [option_map].
    + rewrite Hp by done. by rewrite after_app.
    + rewrite bind_goto. by destruct c.
Qed.

(** ** Iteration *)

Definition all_bytes (content : Z) (bs : list stored_block) : list Z := concat (map (stored_bytes content) bs).

(** The blocks that are seen: all up to the first that cannot be read. *)
Fixpoint readable (m : mem) (content p cend : Z) (bs : list stored_block) : list ndb_block :=
  match bs with
  | [] => []
  | b :: bs =>
      match pulled m content p cend b with
      | Some block => block :: readable m content (p + zlen (stored_bytes content b)) cend bs
      | None => []
      end
  end.

Lemma load_u32_run a n m (c : cursor) : is_u32 n -> loadn m a 4 = Some (le_bytes 4 n) -> load_u32 a (m, c) = Some (n, (m, c)).
Proof.
  intros Hn H. unfold load_u32. rewrite (bind_peekn _ _ _ _ _ _ H). unfold ret. by rewrite le_int_le_bytes_small.
Qed.

Lemma varint_pos n : 0 < zlen (varint n).
Proof. pose proof (varint_zlen n). lia. Qed.

Lemma iterate_reads content blocks size m c bs : is_u32 size -> loadn m (blocks + off_blocks_size) 4 = Some (le_bytes 4 size) ->
  forall p fuel, blocks + off_blocks <= p -> p + zlen (all_bytes content bs) = blocks + off_blocks + size ->
  loadn m p (zlen (all_bytes content bs)) = Some (all_bytes content bs) -> Forall (stored_ok content) bs -> (length bs < fuel)%nat ->
  iterate fuel (mk_iter content blocks p) (m, c) = Some (readable m content p (blocks + off_blocks + size) bs, (m, c)).
Proof.
  intros Hs Hsz. induction bs as [| b bs IH]; intros p fuel Hp Hend Hl Hok Hf; (destruct fuel as [| fuel]; [lia |]);
    cbn [iterate]; unfold ndb_blocks_iterate_next at 1; cbn [it_blocks it_p it_content];
    rewrite bind_bind, (run_bind _ _ _ _ _ (load_u32_run _ size m c Hs Hsz)); cbn [c_p c_end].
  - cbn [all_bytes map concat] in Hend. change (@zlen Z []) with 0 in Hend.
    destruct (Z.ltb_spec p (blocks + off_blocks + size)); [lia |]. by rewrite run_ret.
  - change (all_bytes content (b :: bs)) with (stored_bytes content b ++ all_bytes content bs) in *.
    pose proof (zlen_nonneg (all_bytes content bs)). rewrite zlen_app in Hend.
    assert (0 < zlen (stored_bytes content b)).
    { rewrite stored_bytes_split, zlen_app. pose proof (varint_pos (block_type_num (stored_type b))).
      pose proof (zlen_nonneg (stored_body content b)). lia. }
    destruct (Z.ltb_spec p (blocks + off_blocks + size)) as [_ |]; [| lia].
    pose proof Hl as (_ & _ & Hmem & _)%loadn_Some. pose proof Hsz as (Hlo & _)%loadn_Some. unfold off_blocks, off_blocks_size in *.
    rewrite zlen_app in Hmem. apply loadn_app_inv in Hl as [Hb Hl]. apply List.Forall_cons_iff in Hok as [Hbok Hok].
    set (c0 := mk_cursor (blocks + 24) p (blocks + 24 + size)).
    assert (Hh : holds m c0 (stored_bytes content b)) by (split; [done |]; cbn; lia).
    assert (W : cwf (m, c0)) by (unfold cwf, c0; cbn; lia).
    pose proof (pull_block_holds content b m c0 Hbok Hh W) as E. cbv zeta in E. cbn [c0 c_p c_end] in E.
    rewrite bind_bind. unfold with_cursor_of. unfold bind at 1. cbn [fst snd]. rewrite E. cbn [readable].
    destruct (pulled m content p (blocks + 24 + size) b) as [block |]; [| by rewrite run_ret].
    rewrite run_ret. cbn [after set_p c_p c0].
    rewrite (run_bind _ _ _ _ _ (IH (p + zlen (stored_bytes content b)) fuel ltac:(lia) ltac:(lia) Hl Hok ltac:(cbn [length] in Hf; lia))). done.
Qed.

(** Text, hashtags, links and indices are never in the way of other blocks. *)
Definition plain (b : stored_block) : option ndb_block :=
  match b with
  | SStr type s => Some (BlockStr type s)
  | SIndex n => Some (BlockMentionIndex n)
  | _ => None
  end.

Lemma readable_plain m content cend bs : Forall (fun b => is_Some (plain b)) bs ->
  forall p, map Some (readable m content p cend bs) = map plain bs.
Proof.
  induction bs as [| b bs IH]; intros H p; [done |]. apply List.Forall_cons_iff in H as [[x Hx] H].
  cbn [readable map]. destruct b; try discriminate Hx; cbn [pulled plain map]; by rewrite (IH H).
Qed.

(** The blocks in front of one that cannot be read are all that is seen. *)
Lemma readable_stops m content cend b bs2 bs1 : forall p,
  pulled m content (p + zlen (all_bytes content bs1)) cend b = None ->
  readable m content p cend (bs1 ++ b :: bs2) = readable m content p cend bs1.
Proof.
  induction bs1 as [| b1 bs1 IH]; intros p H; cbn [app readable].
  - change (zlen (all_bytes content [])) with 0 in H. rewrite Z.add_0_r in H. by rewrite H.
  - change (all_bytes content (b1 :: bs1)) with (stored_bytes content b1 ++ all_bytes content bs1) in H.
    rewrite zlen_app, Z.add_assoc in H. destruct (pulled m content p cend b1); [| done]. by rewrite IH.
Qed.

(** C31: iterating over stored blocks gives them in order, and nothing else: every
    string, index and invoice as it was stored and every entity as its bytes parse,
    up to the first block that cannot be read (an entity whose bytes do not parse,
    or an invoice whose hash ends the blocks).  Text, hashtags, links and indices
    always can.  The memory is not touched. *)
Theorem blocks_read_back content blocks size m c bs fuel :
  is_u32 size -> loadn m (blocks + off_blocks_size) 4 = Some (le_bytes 4 size) ->
  loadn m (blocks + off_blocks) size = Some (all_bytes content bs) -> Forall (stored_ok content) bs -> (length bs < fuel)%nat ->
  iterate fuel (ndb_blocks_iterate_start content blocks) (m, c)
    = Some (readable m content (blocks + off_blocks) (blocks + off_blocks + size) bs, (m, c)) /\
  (Forall (fun b => is_Some (plain b)) bs ->
     map Some (readable m content (blocks + off_blocks) (blocks + off_blocks + size) bs) = map plain bs) /\
  (forall bs1 b bs2, bs = bs1 ++ b :: bs2 ->
     pulled m content (blocks + off_blocks + zlen (all_bytes content bs1)) (blocks + off_blocks + size) b = None ->
     readable m content (blocks + off_blocks) (blocks + off_blocks + size) bs
       = readable m content (blocks + off_blocks) (blocks + off_blocks + size) bs1).
Proof.
  intros Hs Hsz Hl Hok Hf. pose proof (loadn_length _ _ _ _ Hl) as Hlen. split; [| split].
  - apply iterate_reads; auto; [done | by rewrite Hlen | by rewrite Hlen].
  - intros H. by apply readable_plain.
  - intros bs1 b bs2 -> H. by apply readable_stops.
Qed.

(** A hashtag, an index, a mention whose bytes are not a note, and a link behind it. *)
Definition demo_blocks : list stored_block :=
  [SStr BLOCK_HASHTAG (mk_str 501 300); SIndex 7; SMention (mk_str 900 60) NOSTR_BECH32_NOTE [1; 2; 3]; SStr BLOCK_URL (mk_str 970 20)].

Definition demo_memory : mem :=
  replicate 12 0 ++ le_bytes 4 (zlen (all_bytes 500 demo_blocks)) ++ replicate 8 0 ++ all_bytes 500 demo_blocks ++ replicate 8 0.

Lemma blocks_read_back_witness :
  iterate 5 (ndb_blocks_iterate_start 500 0) (demo_memory, make_cursor 0 0)
    = Some ([BlockStr BLOCK_HASHTAG (mk_str 501 300); BlockMentionIndex 7], (demo_memory, make_cursor 0 0)).
Proof.
  refine (eq_trans (proj1 (blocks_read_back 500 0 (zlen (all_bytes 500 demo_blocks)) demo_memory (make_cursor 0 0) demo_blocks 5 _ _ _ _ _)) _).
  - split; vm_compute; [discriminate | reflexivity].
  - by vm_compute.
  - by vm_compute.
  - repeat constructor; vm_compute; try reflexivity; discriminate.
  - cbn. lia.
  - by vm_compute.
Defined.
