(* ===== verification/Content.v ===== *)
(** * Content parser (src/src/content_parser.c)

    The parser walks over a note's content with one cursor and writes blocks with
    another, behind a header that counts them.  Both cursors and the header are in
    one memory, and the text of a mention is decoded in place, in the room the
    blocks are written to. *)

From S2P Require Import Prelude Cursor Reader Bech32 NostrBech32 Blocks.

(** ** Parsers

    What a parser puts in the block it is given. *)
Inductive parsed_block :=
  | ParsedStr (type : ndb_block_type) (str : ndb_str_block)
  | ParsedIndex (mention_index : Z).

Definition parse_digit : CM (option Z) :=
  let* c := peek_char 0 in
  if c =? -1 then ret None
  else
    let c := c - 48 in
    if (0 <=? c) && (c <=? 9) then
      let* cu := cur in do* goto (c_p cu + 1) in ret (Some c)
    else ret None.

(** "#[" *)
Definition parse_mention_index : CM (option parsed_block) :=
  let* c := cur in
  let start := c_p c in
  let* ok := parse_str [35; 91] in
  if negb ok then ret None
  else
    let* d1 := parse_digit in
    match d1 with
    | None => do* goto start in ret None
    | Some d1 =>
        let ind := d1 in
        let* d2 := parse_digit in
        let ind := match d2 with Some d2 => d1 * 10 + d2 | None => ind end in
        let* d3 := parse_digit in
        (* d2 is not initialised where there was no second digit *)
        let* ind := lift (match d3, d2 with
                          | None, _ => Some ind
                          | Some d3, Some d2 => Some (d1 * 100 + d2 * 10 + d3)
                          | Some _, None => None
                          end) in
        let* ok := parse_char 93 in
        if negb ok then do* goto start in ret None
        else ret (Some (ParsedIndex ind))
    end.

Definition parse_hashtag : CM (option parsed_block) :=
  let* cu := cur in
  let start := c_p cu in
  let* ok := parse_char 35 in
  if negb ok then ret None
  else
    let* c := peek_char 0 in
    if (c =? -1) || is_whitespace c || (c =? 35) then do* goto start in ret None
    else
      let* _ := consume_until_boundary in
      let* cu := cur in
      ret (Some (ParsedStr BLOCK_HASHTAG (mk_str (start + 1) (u32 (c_p cu - (start + 1)))))).

(** ** Links *)

Definition next_char_is_whitespace (cur end_ : Z) : CM bool :=
  let next := cur + 1 in
  if end_ <? next then ret false
  else if next =? end_ then ret true
  else let* b := peek8 next in ret (is_whitespace b).

Definition char_disallowed_at_end_url (c : Z) : bool := (c =? 46) || (c =? 44).

Definition is_final_url_char (cur end_ : Z) : CM bool :=
  let* b := peek8 cur in
  if is_whitespace b then ret true
  else
    let* next := next_char_is_whitespace cur end_ in
    if next : bool then ret (char_disallowed_at_end_url b) else ret false.

(** The loops of this file: while there is a character and [stop] does not hold
    of it, move on.  Whether it was [stop] that ended it. *)
Fixpoint scan_loop (stop : Z -> Z -> CM bool) (fuel : nat) : CM bool :=
  match fuel with
  | O => ret false
  | S fuel =>
      let* c := cur in
      if c_p c <? c_end c then
        let* s := stop (c_p c) (c_end c) in
        if s : bool then ret true
        else do* goto (c_p c + 1) in scan_loop stop fuel
      else ret false
  end.

Definition scan (stop : Z -> Z -> CM bool) : CM bool :=
  let* c := cur in scan_loop stop (Z.to_nat (c_end c - c_p c)).

Definition consume_until_end_url (or_end : bool) : CM bool :=
  let* c := cur in
  let start := c_p c in
  let* stopped := scan is_final_url_char in
  let* c := cur in
  ret (if stopped : bool then negb (c_p c =? start) else or_end).

Definition consume_url_fragment : CM bool :=
  let* c := peek_char 0 in
  if c <? 0 then ret true
  else if negb (c =? 35) && negb (c =? 63) then ret true
  else
    let* cu := cur in
    do* goto (c_p cu + 1) in
    consume_until_end_url true.

Definition path_stop (p end_ : Z) : CM bool :=
  let* c := peek8 p in
  if (c =? 63) || (c =? 35) then ret true else is_final_url_char p end_.

Definition consume_url_path : CM bool :=
  let* c := peek_char 0 in
  if c <? 0 then ret true
  else if negb (c =? 47) then ret true
  else let* _ := scan path_stop in ret true.

Definition host_stop (p end_ : Z) : CM bool :=
  let* c := peek8 p in
  if is_alphanumeric c || (c =? 46) || (c =? 45) then is_final_url_char p end_ else ret true.

(** The count of the code is the distance the scan covered. *)
Definition consume_url_host : CM bool :=
  let* c := cur in
  let start := c_p c in
  let* _ := scan host_stop in
  let* c := cur in
  ret (negb (c_p c - start =? 0)).

(** "http", "://" and "damus.io" *)
Definition str_http : list Z := [104; 116; 116; 112].
Definition str_css : list Z := [58; 47; 47].
Definition str_damus : list Z := [100; 97; 109; 117; 115; 46; 105; 111].

(** Whether the link is in parentheses, the second of which it has swallowed. *)
Definition smart_parens (start : Z) : CM bool :=
  let* c := cur in
  if (c_start c <=? start - 1) && (start <? c_end c) then
    let* b := peek8 (start - 1) in
    if (b =? 40) && (c_p c - 1 <? c_end c) then
      let* e := peek8 (c_p c - 1) in ret (e =? 41)
    else ret false
  else ret false.

Definition parse_url : CM (option parsed_block) :=
  let* c := cur in
  let start := c_p c in
  let* ok := parse_str str_http in
  if negb ok then ret None
  else
    let* s := parse_char 115 in
    let* s := (if s : bool then ret true else parse_char 83) in
    let* ok := parse_str str_css in
    if negb ok then do* goto start in ret None
    else
      let* c := cur in
      let host := c_p c in
      let* ok := consume_url_host in
      if negb ok then do* goto start in ret None
      else
        let* c := cur in
        let host_len := i32 (c_p c - host) in
        let path_cur := c in
        let* r := with_cursor_of path_cur (cursor_skip 1) in
        let path_cur := snd r in
        let* ok := consume_url_path in
        if negb ok then do* goto start in ret None
        else
          let* ok := consume_url_fragment in
          if negb ok then do* goto start in ret None
          else
            let* parens := smart_parens start in
            let* c := cur in
            do* (if parens : bool then goto (c_p c - 1) else ret tt) in
            let str := c_p path_cur in
            let* damus := (if host_len =? 8 then strncmp_eq host str_damus else ret false) in
            let* r := (if damus : bool then with_cursor_of path_cur parse_nostr_bech32_str else ret (None, path_cur)) in
            match r with
            | (Some _, path_cur) =>
                ret (Some (ParsedStr BLOCK_MENTION_BECH32 (mk_str str (u32 (c_p path_cur - str)))))
            | (None, _) =>
                let* c := cur in
                ret (Some (ParsedStr BLOCK_URL (mk_str start (u32 (c_p c - start)))))
            end.

(** ** Invoices and mentions *)

(** "lightning:" and "lnbc" *)
Definition str_lightning : list Z := [108; 105; 103; 104; 116; 110; 105; 110; 103; 58].
Definition str_lnbc : list Z := [108; 110; 98; 99].

Definition parse_invoice : CM (option parsed_block) :=
  let* _ := parse_str str_lightning in
  let* c := cur in
  let start := c_p c in
  let* ok := parse_str str_lnbc in
  if negb ok then ret None
  else
    let* ok := consume_until_whitespace true in
    if negb ok then do* goto start in ret None
    else
      let* c := cur in
      let end_ := c_p c in
      do* goto end_ in
      ret (Some (ParsedStr BLOCK_INVOICE (mk_str start (u32 (end_ - start))))).

(** "nostr:" *)
Definition str_nostr : list Z := [110; 111; 115; 116; 114; 58].

Definition parse_mention_bech32 : CM (option parsed_block) :=
  let* c := cur in
  let start := c_p c in
  let* _ := parse_char 64 in
  let* _ := parse_str str_nostr in
  let* c := cur in
  let str := c_p c in
  let* r := parse_nostr_bech32_str in
  match r with
  | None => do* goto start in ret None
  | Some _ =>
      let* c := cur in
      ret (Some (ParsedStr BLOCK_MENTION_BECH32 (mk_str str (u32 (c_p c - str)))))
  end.

(** ** State

    The content cursor only moves, the buffer cursor also writes. *)

Record ndb_content_parser := mk_parser { p_mem : mem; p_buffer : cursor; p_content : cursor; p_blocks : Z }.

Definition PM (A : Type) : Type := M ndb_content_parser A.

Definition on_buffer {A} (w : CM A) : PM A :=
  fun p =>
    match w (p_mem p, p_buffer p) with
    | None => None
    | Some (a, (m, c)) => Some (a, mk_parser m c (p_content p) (p_blocks p))
    end.

Definition on_content {A} (w : CM A) : PM A :=
  fun p =>
    match w (p_mem p, p_content p) with
    | None => None
    | Some (a, (m, c)) => Some (a, mk_parser m (p_buffer p) c (p_blocks p))
    end.

(** A field of the header, written without the cursor. *)
Definition set_field (off : Z) (bytes : list Z) : PM unit :=
  let* p := get in on_buffer (poke (p_blocks p + off) bytes).

(** [field++] *)
Definition bump (off : Z) : PM unit :=
  let* p := get in
  let* n := on_buffer (load_u32 (p_blocks p + off)) in
  set_field off (le_bytes 4 (u32 (n + 1))).

(** ** Writing blocks *)

(** The bytes of a C string: up to the first zero, which there must be. *)
Fixpoint c_string (l : list Z) : option (list Z) :=
  match l with
  | [] => None
  | b :: l => if b =? 0 then Some [] else option_map (cons b) (c_string l)
  end.

Definition read_c_string (a : Z) : CM (list Z) :=
  let* s := get in lift (if (0 <=? a) then c_string (drop (Z.to_nat a) (fst s)) else None).

(** The symbols go to [u5] and the bytes they stand for to [u8], their number to
    [u8_size]; then the scratch room of the symbols is given back. *)
Definition decode_mention (bech32 : ndb_str_block) (u8_size : Z) (u8 u5 : cursor) : CM bool :=
  let* d := bech32_decode_len 9 (c_p u5) (sb_str bech32) (sb_len bech32) MAX_PREFIX in
  let '(enc, _, u5_out_len) := d in
  if bool_decide (enc = BECH32_ENCODING_NONE) then ret false
  else
    let* b := bech32_convert_bits (c_p u8) 8 (c_start u5) u5_out_len 5 false in
    let '(ok, u8_out_len) := b in
    if negb ok then ret false
    else
      do* goto (c_p u8 + u8_out_len) in
      if 2 ^ 16 - 1 <? u8_out_len then ret false
      else do* poke u8_size (le_bytes 2 u8_out_len) in ret true.

(** What comes before [fail]. *)
Definition try_bech32_mention (content : Z) (bech32 : ndb_str_block) : CM bool :=
  let* type := parse_nostr_bech32_type (sb_str bech32) in
  match type with None => ret false | Some (type, _) =>
  push_str_block content bech32 &&*
  let* c := cur in
  let u8_size := c_p c in
  cursor_skip 2 &&*
  (push_varint_test (bech32_type_num type) &&*
  let* u8 := cursor_malloc_slice (sb_len bech32) in
  match u8 with None => ret false | Some u8 =>
  let* u5 := cursor_malloc_slice (sb_len bech32) in
  match u5 with None => ret false | Some u5 => decode_mention bech32 u8_size u8 u5
  end end)
  end.

(** [goto fail] *)
Definition or_back (w : CM bool) : CM bool :=
  let* c := cur in
  let start := c_p c in
  let* ok := w in
  if ok : bool then ret true else do* goto start in ret false.

Definition push_bech32_mention (content : Z) (bech32 : ndb_str_block) : CM bool :=
  or_back (try_bech32_mention content bech32).

Section Decoder.

(** The decoder of invoices, given the C string it reads. *)
Variable bolt11_decode_minimal : list Z -> option bolt11.

Definition push_invoice_str (content : Z) (str : ndb_str_block) : CM bool :=
  let* s := read_c_string (sb_str str) in
  match bolt11_decode_minimal s with
  | None => ret false
  | Some invoice =>
      let* c := cur in
      let start := c_p c in
      push_str_block content str &&*
      let* ok := ndb_encode_invoice invoice in
      if negb ok then do* goto start in ret false else ret true
  end.

(** [push_block] of a text block, which is where its recursion ends. *)
Definition push_text_block (str : ndb_str_block) : PM bool :=
  let* p := get in
  let start := c_p (p_buffer p) in
  let* ok := on_buffer (push_varint_test (block_type_num BLOCK_TEXT)) in
  if negb ok then ret false
  else
    let* ok := on_buffer (push_str_block (c_start (p_content p)) str) in
    if negb ok then do* on_buffer (goto start) in ret false
    else do* bump off_num_blocks in ret true.

Definition add_text_block (start end_ : Z) : PM bool :=
  if start =? end_ then ret true
  else push_text_block (mk_str start (u32 (end_ - start))).

(** The body of a mention or an invoice, or else a text block in its place. *)
Definition or_text (w : CM bool) (start : Z) (str : ndb_str_block) : PM bool :=
  let* ok := on_buffer w in
  if ok : bool then ret true
  else
    do* on_buffer (goto start) in
    add_text_block (sb_str str) (sb_str str + sb_len str).

Definition push_block (block : parsed_block) : PM bool :=
  let* p := get in
  let start := c_p (p_buffer p) in
  let content := c_start (p_content p) in
  let type := match block with ParsedStr type _ => type | ParsedIndex _ => BLOCK_MENTION_INDEX end in
  let* ok := on_buffer (push_varint_test (block_type_num type)) in
  if negb ok then ret false
  else
    let* ok :=
      match block with
      | ParsedStr BLOCK_MENTION_BECH32 str => or_text (push_bech32_mention content str) start str
      | ParsedStr BLOCK_INVOICE str => or_text (push_invoice_str content str) start str
      | ParsedStr _ str => on_buffer (push_str_block content str)
      | ParsedIndex n => on_buffer (push_varint_test n)
      end in
    if negb ok then do* on_buffer (goto start) in ret false
    else do* bump off_num_blocks in ret true.

(** The result and the new start of the text that is not in a block yet. *)
Definition add_text_then_block (block : parsed_block) (start pre_mention : Z) : PM (bool * Z) :=
  let* ok := add_text_block start pre_mention in
  if negb ok then ret (false, start)
  else
    let* p := get in
    let start := c_p (p_content p) in
    let* ok := push_block block in
    ret (ok, start).

(** ** The parser *)

(** The first of two parsers that gives a block. *)
Definition first_of (a b : CM (option parsed_block)) : CM (option parsed_block) :=
  let* r := a in match r with Some x => ret (Some x) | None => b end.

Definition when (b : bool) (w : CM (option parsed_block)) : CM (option parsed_block) :=
  if b then w else ret None.

(** What follows a boundary, by its first character. *)
Definition parse_special (c : Z) : CM (option parsed_block) :=
  first_of (when (c =? 35) (first_of parse_mention_index parse_hashtag))
    (first_of (when ((c =? 104) || (c =? 72)) parse_url)
      (first_of (when ((c =? 108) || (c =? 76)) parse_invoice)
        (when ((c =? 110) || (c =? 64)) parse_mention_bech32))).

(** The loop: [None] where the code returns 0, else the start of the last text.
    Every round moves the content cursor on. *)
Fixpoint content_loop (fuel : nat) (start : Z) : PM (option Z) :=
  match fuel with
  | O => ret (Some start)
  | S fuel =>
      let* p := get in
      if c_p (p_content p) <? c_end (p_content p) then
        let* cp := on_content (peek_char (-1)) in
        let* c := on_content (peek_char 0) in
        do* (if is_whitespace cp && negb (is_whitespace c) then bump off_words else ret tt) in
        let pre_mention := c_p (p_content p) in
        let* r := (if (cp =? -1) || is_left_boundary cp || (c =? 35) then on_content (parse_special c) else ret None) in
        match r with
        | Some block =>
            let* r := add_text_then_block block start pre_mention in
            let '(ok, start) := r in
            if negb ok then ret None else content_loop fuel start
        | None =>
            let* p := get in
            do* on_content (goto (c_p (p_content p) + 1)) in
            content_loop fuel start
        end
      else ret (Some start)
  end.

Definition start_blocks : PM unit :=
  do* set_field off_words (le_bytes 4 0) in
  do* set_field off_num_blocks (le_bytes 4 0) in
  do* set_field off_blocks_size (le_bytes 4 0) in
  do* set_field off_flags [0] in
  set_field off_version [1].

Definition finish_blocks (blocks_start : Z) : PM bool :=
  let* p := get in
  do* set_field off_blocks_size (le_bytes 4 (u32 (c_p (p_buffer p) - blocks_start))) in
  let* ok := on_buffer (cursor_align 8) in
  if negb ok then ret false
  else
    let* p := get in
    do* set_field off_total_size (le_bytes 4 (u32 (c_p (p_buffer p) - c_start (p_buffer p)))) in
    ret true.

Definition parse_body : PM bool :=
  let* p := get in
  let blocks_start := c_p (p_buffer p) in
  do* start_blocks in
  let* r := content_loop (Z.to_nat (c_end (p_content p) - c_p (p_content p))) (c_p (p_content p)) in
  match r with
  | None => ret false
  | Some start =>
      let* p := get in
      let* ok := (if 0 <? c_p (p_content p) - start then add_text_block start (c_p (p_content p)) else ret true) in
      if negb ok then ret false else finish_blocks blocks_start
  end.

(** The result and the memory it leaves; the blocks are at [buf]. *)
Definition ndb_parse_content (buf buf_size content content_len : Z) (m : mem) : option (bool * mem) :=
  if buf_size <? off_blocks then Some (false, m)
  else
    let buffer := make_cursor buf (buf + buf_size) in
    let p := mk_parser m (set_p buffer (c_p buffer + off_blocks)) (make_cursor content (content + content_len)) buf in
    match parse_body p with
    | None => None
    | Some (ok, p) => Some (ok, p_mem p)
    end.

End Decoder.

(** ** Corner cases

    What iteration and the header say of a content, with a buffer of [size]
    bytes: the blocks, and the counts of words and blocks. *)
Definition demo_parse (size : Z) (content : list Z) : option (list ndb_block * Z * Z) :=
  let buf := zlen content + 1 in
  match ndb_parse_content (fun _ => None) buf size 0 (zlen content) (content ++ replicate (Z.to_nat (size + 1)) 0) with
  | Some (true, m) =>
      match iterate 20 (ndb_blocks_iterate_start 0 buf) (m, make_cursor 0 0), ndb_blocks_word_count buf (m, make_cursor 0 0),
        load_u32 (buf + off_num_blocks) (m, make_cursor 0 0) with
      | Some (l, _), Some (words, _), Some (n, _) => Some (l, words, n)
      | _, _, _ => None
      end
  | _ => None
  end.

(** "note1" and sixty letters that are no bech32: one block of text, counted twice. *)
Example failed_mention_counts_twice :
  demo_parse 256 ([110; 111; 116; 101; 49] ++ replicate 60 113) = Some ([BlockStr BLOCK_TEXT (mk_str 0 65)], 0, 2).
Proof. by vm_compute. Qed.

(** A buffer with room for the header alone: a block is counted, none is there. *)
Example full_buffer_is_a_success : demo_parse 24 [104; 105] = Some ([], 0, 1).
Proof. by vm_compute. Qed.

(** "a b": the first word is not counted. *)
Example first_word_not_counted : demo_parse 64 [97; 32; 98] = Some ([BlockStr BLOCK_TEXT (mk_str 0 3)], 1, 1).
Proof. by vm_compute. Qed.

(** "lightning:#tag " is text, "x:#tag " is not. *)
Example tag_after_lightning_is_text :
  demo_parse 64 (str_lightning ++ [35; 116; 97; 103; 32]) = Some ([BlockStr BLOCK_TEXT (mk_str 0 15)], 0, 1) /\
  demo_parse 64 [120; 58; 35; 116; 97; 103; 32]
    = Some ([BlockStr BLOCK_TEXT (mk_str 0 2); BlockStr BLOCK_HASHTAG (mk_str 3 3); BlockStr BLOCK_TEXT (mk_str 6 1)], 0, 3).
Proof. split; by vm_compute. Qed.

(** "#." is an empty hashtag. *)
Example empty_hashtag : demo_parse 64 [35; 46] = Some ([BlockStr BLOCK_HASHTAG (mk_str 1 0); BlockStr BLOCK_TEXT (mk_str 1 1)], 0, 2).
Proof. by vm_compute. Qed.

(** The text of the note with identifier 7, 7, ... *)
Definition demo_note : list Z := demo_text (ENote demo_id).

(** "http://damus.io note1...": the note is in two mentions, and the link in none. *)
Example link_swallows_the_next_word :
  demo_parse 512 (str_http ++ str_css ++ str_damus ++ [32] ++ demo_note)
    = Some ([BlockMentionBech32 (mk_str 16 63) (Bech32Note 110); BlockStr BLOCK_TEXT (mk_str 15 1);
             BlockMentionBech32 (mk_str 16 63) (Bech32Note 151)], 1, 3).
Proof. by vm_compute. Qed.

