(* ===== verification/Pieces.v ===== *)
(** * Pieces of a content

    What a note's content is made of, said of its characters: which runs of them
    are an index, a hashtag, a link, an invoice or a mention.  The parsers of
    src/src/content_parser.c find exactly these. *)

From S2P Require Import Prelude Cursor Reader Bech32 NostrBech32 Blocks Content.
From S2P Require Export Words.

(** ** The grammar

    A content from [lo] to [cend], in a memory. *)
Section Grammar.
Context (m : mem) (lo cend : Z).

Abbreviation is_at := (is_at m cend).
Abbreviation until := (until cend).
Abbreviation word := (word m lo cend).

(** These characters are at [a]. *)
Fixpoint spelled (a : Z) (l : list Z) : Prop :=
  match l with
  | [] => True
  | b :: l => a < cend /\ load8 m a = Some b /\ spelled (a + 1) l
  end.

(** The word is at [a], in any case, and is not the last of the content. *)
Definition literal (a : Z) (lit : list Z) : Prop :=
  exists l, map tolower l = map tolower lit /\ spelled a l /\ a + zlen lit < cend.

(** To the end of what is there, or to where it would be. *)
Definition optional (there : Prop) (R : Z -> Prop) (p q : Z) : Prop :=
  (there /\ R q) \/ (~ there /\ q = p).

(** *** Indices: "#[", one to three digits, "]" *)

Definition decimal (ds : list Z) : Z := fold_left (fun n d => n * 10 + d) ds 0.

Definition index_at (mid n hi : Z) : Prop :=
  exists ds, 1 <= zlen ds <= 3 /\ Forall (fun d => 0 <= d <= 9) ds /\
    spelled mid ([35; 91] ++ map (Z.add 48) ds ++ [93]) /\ hi = mid + 3 + zlen ds /\ n = decimal ds.

(** *** Hashtags: "#" and the word behind it *)

Definition starts_hashtag (c : Z) : bool := negb ((c =? -1) || is_whitespace c || (c =? 35)).

Definition hashtag_at (mid hi : Z) : Prop :=
  is_at (fun c => c =? 35) mid /\ is_at starts_hashtag (mid + 1) /\ word (mid + 1) hi.

(** *** Links *)

(** At whitespace, and at a full stop or a comma before whitespace or the end. *)
Definition url_ends (x : Z) : Prop :=
  is_at is_whitespace x \/ (is_at char_disallowed_at_end_url x /\ (x + 1 = cend \/ is_at is_whitespace (x + 1))).

Definition host_ends (x : Z) : Prop :=
  is_at (fun c => negb (is_alphanumeric c || (c =? 46) || (c =? 45))) x \/ url_ends x.

Definition path_ends (x : Z) : Prop := is_at (fun c => (c =? 63) || (c =? 35)) x \/ url_ends x.

(** "http" or "https", "://", a host, and maybe a path and what follows a "?" or
    "#"; a link does not end with that sign unless the content does. *)
Definition link (mid host hend e : Z) : Prop :=
  (exists s, (s = [] \/ s = [115]) /\ literal mid (str_http ++ s ++ str_css) /\ host = mid + 7 + zlen s) /\
  host < hend /\ until host_ends host hend /\
  exists pth, optional (is_at (fun c => c =? 47) hend) (until path_ends hend) hend pth /\
    optional (is_at (fun c => (c =? 35) || (c =? 63)) pth)
      (fun q => until url_ends (pth + 1) q /\ (pth + 1 < q \/ q = cend)) pth e.

(** A link in parentheses leaves the second out. *)
Definition without_paren (mid e hi : Z) : Prop :=
  optional (lo < mid /\ is_at (fun c => c =? 40) (mid - 1) /\ is_at (fun c => c =? 41) (e - 1)) (eq (e - 1)) e hi.

(** *** Mentions and invoices *)

(** The prefix of a kind of entity, and at least 59 letters and digits behind it. *)
Definition bech32_at (a e : Z) (type : nostr_bech32_type) : Prop :=
  exists lit, In (lit, type) bech32_prefixes /\ spelled a lit /\
    until (is_at (fun c => negb (is_alphanumeric c))) a e /\ a + zlen lit + 59 <= e.

(** An "@" and a "nostr:" that may be there. *)
Definition mention_at (mid s e : Z) (type : nostr_bech32_type) : Prop :=
  is_at (fun c => (c =? 110) || (c =? 64)) mid /\
  exists x, optional (is_at (fun c => c =? 64) mid) (eq (mid + 1)) mid x /\
    optional (literal x str_nostr) (eq (x + 6)) x s /\ bech32_at s e type.

(** The host is damus.io and an entity starts behind the character after it. *)
Definition damus_at (host hend s e : Z) (type : nostr_bech32_type) : Prop :=
  hend = host + 8 /\ spelled host str_damus /\ s = hend + 1 /\ bech32_at s e type.

(** A "lightning:" that may be there, and "lnbc" up to whitespace. *)
Definition invoice_at (mid s e : Z) : Prop :=
  optional (literal mid str_lightning) (eq (mid + 10)) mid s /\
  literal s str_lnbc /\ until (is_at is_whitespace) (s + 4) e /\ (s + 4 < e \/ e = cend).

(** *** Pieces

    A piece from [mid] to [hi], and the block it is. *)
Inductive piece (mid : Z) : Z -> parsed_block -> Prop :=
  | piece_index n hi : index_at mid n hi -> piece mid hi (ParsedIndex n)
  | piece_hashtag hi : hashtag_at mid hi -> (forall n e, ~ index_at mid n e) ->
      piece mid hi (ParsedStr BLOCK_HASHTAG (mk_str (mid + 1) (hi - (mid + 1))))
  | piece_damus host hend e s e' type hi : link mid host hend e -> damus_at host hend s e' type -> without_paren mid e hi ->
      piece mid hi (ParsedStr BLOCK_MENTION_BECH32 (mk_str s (e' - s)))
  | piece_url host hend e hi : link mid host hend e -> (forall s e' type, ~ damus_at host hend s e' type) -> without_paren mid e hi ->
      piece mid hi (ParsedStr BLOCK_URL (mk_str mid (hi - mid)))
  | piece_invoice s hi : invoice_at mid s hi -> piece mid hi (ParsedStr BLOCK_INVOICE (mk_str s (hi - s)))
  | piece_mention s hi type : mention_at mid s hi type -> piece mid hi (ParsedStr BLOCK_MENTION_BECH32 (mk_str s (hi - s))).

(** Where a piece may start: at the beginning, behind a boundary, and at any "#". *)
Definition candidate (x : Z) : Prop :=
  x = lo \/ (lo < x /\ is_at is_left_boundary (x - 1)) \/ is_at (fun c => c =? 35) x.

End Grammar.

(** ** Facts of the grammar *)
Section Facts.
Context (m : mem) (lo cend : Z).

Lemma optional_unique P R p q q' : (forall q q', R q -> R q' -> q = q') -> optional P R p q -> optional P R p q' -> q = q'.
Proof. intros HR [[A B] | [A ->]] [[A' B'] | [A' ->]]; [by apply HR | contradiction | contradiction | done]. Qed.

Lemma optional_eq P x p q q' : optional P (eq x) p q -> optional P (eq x) p q' -> q = q'.
Proof. apply optional_unique. congruence. Qed.

Lemma spelled_loadn a l : 0 <= a -> a + zlen l <= cend -> cend <= zlen m -> spelled m cend a l <-> loadn m a (zlen l) = Some l.
Proof.
  revert a. induction l as [| b l IH]; intros a Ha He Hm; cbn [spelled].
  - split; [| done]. intros _. assert (E0 : zlen (@nil Z) = 0) by done. rewrite E0 in *. apply loadn_ext; [lia | lia | done | lia].
  - rewrite zlen_cons in *. pose proof (zlen_nonneg l). rewrite (IH (a + 1)) by lia. split.
    + intros (_ & Hb & Hl). change (1 + zlen l) with (zlen [b] + zlen l).
      apply (loadn_app m a [b] l); [| done]. apply loadn_ext; [lia | change (zlen [b]) with 1; lia | done |].
      intros i Hi. change (zlen [b]) with 1 in Hi. replace i with 0 by lia. by rewrite Z.add_0_r.
    + intros H2. split; [lia |]. rewrite <- (zlen_cons b) in H2.
      apply (loadn_app_inv m a [b] l) in H2 as [H2 H3]. split; [| done].
      replace a with (a + 0) by lia. by apply (loadn_load8 m a 1 [b] 0).
Qed.

Lemma spelled_unique a l l' : length l = length l' -> spelled m cend a l -> spelled m cend a l' -> l = l'.
Proof.
  revert a l'. induction l as [| b l IH]; intros a [| b' l'] E H H'; cbn in *; try done.
  destruct H as (_ & Hb & H), H' as (_ & Hb' & H'). f_equal; [congruence |]. eapply IH; eauto.
Qed.

Lemma spelled_app a l1 l2 : spelled m cend a (l1 ++ l2) <-> spelled m cend a l1 /\ spelled m cend (a + zlen l1) l2.
Proof.
  revert a. induction l1 as [| b l1 IH]; intros a; cbn [app spelled].
  - change (zlen (@nil Z)) with 0. rewrite Z.add_0_r. tauto.
  - rewrite IH, zlen_cons, Z.add_assoc. tauto.
Qed.

Lemma spelled_end a l : a <= cend -> spelled m cend a l -> a + zlen l <= cend.
Proof.
  revert a. induction l as [| b l IH]; intros a Ha H; [change (zlen (@nil Z)) with 0; lia |].
  destruct H as (H1 & _ & H). rewrite zlen_cons. specialize (IH (a + 1) ltac:(lia) H). lia.
Qed.

Lemma literal_app a l1 l2 : literal m cend a (l1 ++ l2) ->
  literal m cend a l1 /\ literal m cend (a + zlen l1) l2.
Proof.
  intros (l & E & S & H). rewrite zlen_app in H. pose proof (zlen_nonneg l2).
  assert (El : length l = (length l1 + length l2)%nat) by (rewrite <- (length_map tolower l), E, length_map, length_app; done).
  rewrite <- (take_drop (length l1) l) in S, E. rewrite !map_app in E. apply app_inj_1 in E as [E1 E2];
    [| rewrite !length_map, length_take; lia].
  apply spelled_app in S as [S1 S2]. replace (zlen (take (length l1) l)) with (zlen l1) in S2 by (unfold zlen; rewrite length_take; lia).
  split; [exists (take (length l1) l) | exists (drop (length l1) l)]; (split; [done |]; split; [done | lia]).
Qed.

Lemma literal_join a l1 l2 : literal m cend a l1 -> literal m cend (a + zlen l1) l2 -> literal m cend a (l1 ++ l2).
Proof.
  intros (x & E1 & S1 & H1) (y & E2 & S2 & H2). exists (x ++ y). split; [by rewrite !map_app, E1, E2 |]. rewrite zlen_app.
  assert (zlen x = zlen l1) as Ex by (unfold zlen; by rewrite <- (length_map tolower x), E1, length_map).
  split; [apply spelled_app; by rewrite Ex | lia].
Qed.

(** One character in any case. *)
Lemma literal_char a ch : literal m cend a [ch] <-> is_at m cend (fun c => tolower c =? tolower ch) a /\ a + 1 < cend.
Proof.
  split.
  - intros ([| b [| ? ?]] & E & S & H); try discriminate E. injection E as E. destruct S as (S1 & S2 & _). change (zlen [ch]) with 1 in H.
    split; [| lia]. split; [done |]. exists b. split; [done | by apply Z.eqb_eq].
  - intros [(H & c & Hc & E) H1]. exists [c]. split; [cbn; f_equal; by apply Z.eqb_eq |]. split; [by split | change (zlen [ch]) with 1; lia].
Qed.

(** The kinds of entities start differently. *)
Lemma prefix_unique a l1 t1 l2 t2 : In (l1, t1) bech32_prefixes -> In (l2, t2) bech32_prefixes ->
  spelled m cend a l1 -> spelled m cend a l2 -> (l1, t1) = (l2, t2).
Proof.
  intros H1 H2. unfold bech32_prefixes in *. cbn [In] in *.
  destruct_or! H1; destruct_or! H2; try done; injection H1 as <- <-; injection H2 as <- <-; try done;
    cbn [spelled]; intros (? & ? & ? & ? & ? & ? & ?) (? & ? & ? & ? & ? & ? & ?); exfalso; congruence.
Qed.

Lemma bech32_unique a e t e' t' : bech32_at m cend a e t -> bech32_at m cend a e' t' -> e = e' /\ t = t'.
Proof.
  intros (l & Hl & Sl & U & _) (l' & Hl' & Sl' & U' & _). split; [by eapply until_unique |].
  pose proof (prefix_unique a l t l' t' Hl Hl' Sl Sl'). congruence.
Qed.

Lemma index_inv mid n hi : index_at m cend mid n hi -> exists d1, (0 <= d1 <= 9 /\ load8 m (mid + 2) = Some (48 + d1)) /\
  (load8 m (mid + 3) = Some 93 \/ exists d2, (0 <= d2 <= 9 /\ load8 m (mid + 3) = Some (48 + d2)) /\
     (load8 m (mid + 4) = Some 93 \/ exists d3, (0 <= d3 <= 9 /\ load8 m (mid + 4) = Some (48 + d3)) /\ load8 m (mid + 5) = Some 93)).
Proof.
  intros (ds & Hl & Hd & S & _).
  assert (E : mid + 1 + 1 = mid + 2 /\ mid + 2 + 1 = mid + 3 /\ mid + 3 + 1 = mid + 4 /\ mid + 4 + 1 = mid + 5) by lia.
  destruct E as (E1 & E2 & E3 & E4).
  destruct ds as [| d1 [| d2 [| d3 [| d4 ds]]]]; [change (zlen (@nil Z)) with 0 in Hl; lia | | | |
    rewrite !zlen_cons in Hl; pose proof (zlen_nonneg ds); lia];
    repeat (apply List.Forall_cons_iff in Hd as [? Hd]); cbn [map app spelled] in S; rewrite ?E1, ?E2, ?E3, ?E4 in S; destruct_and! S;
    exists d1; (split; [by split |]).
  - by left.
  - right. exists d2. split; [by split | by left].
  - right. exists d2. split; [by split |]. right. exists d3. done.
Qed.

End Facts.

(** ** Reading the content

    A parser runs in a memory [m] that has the content of [m0], with its cursor
    somewhere in it. *)
Section Reading.
Context (m0 m : mem) (lo cend : Z).
Hypothesis (Hlo : 0 <= lo) (Same : forall x, lo <= x <= cend -> load8 m x = load8 m0 x) (Hzero : load8 m0 cend = Some 0).

Abbreviation at_ p := (mk_cursor lo p cend).

Lemma content_text x : lo <= x < cend -> load8 m x = load8 m0 x.
Proof using Same. intros. apply Same. lia. Qed.
Lemma content_end : cend <= zlen m0.
Proof using Hzero. pose proof (load8_Some_range _ _ _ Hzero). lia. Qed.

Abbreviation peek_at := (peek_at m0 m lo cend Hlo content_text content_end).
Abbreviation rune_at := (rune_at m0 m lo cend Hlo content_text content_end).
Abbreviation boundary_at := (boundary_at m0 m lo cend Hlo content_text content_end).

Lemma content_byte x : lo <= x <= cend -> exists b, load8 m0 x = Some b /\ load8 m x = Some b.
Proof using Hlo Same Hzero.
  intros Hx. pose proof (load8_Some_range _ _ _ Hzero). destruct (proj2 (load8_is_Some m0 x) ltac:(lia)) as [b Hb].
  exists b. by rewrite (Same x Hx).
Qed.

Lemma content_cwf p : lo <= p <= cend -> cwf (m, at_ p).
Proof using Hlo Same Hzero.
  intros Hp. destruct (content_byte cend ltac:(lia)) as (b & _ & H%load8_Some_range). unfold cwf. cbn. lia.
Qed.

Lemma peek0_at p : lo <= p <= cend -> exists r, peek_char 0 (m, at_ p) = Some (r, (m, at_ p)) /\ (r <> -1 -> p < cend) /\
  (forall P, P (-1) = false -> (P r = true <-> is_at m0 cend P p)) /\ (p < cend -> load8 m0 p = Some r).
Proof using Hlo Same Hzero.
  intros Hp. unfold peek_char. rewrite bind_cur. cbn [c_p c_start c_end]. rewrite Z.add_0_r.
  destruct (Z.ltb_spec p lo), (Z.leb_spec cend p); cbn [orb]; try lia.
  - exists (-1). split; [done |]. split; [done |]. split; [| lia]. intros P ->. split; [done |]. intros [H1 _]. lia.
  - destruct (content_byte p ltac:(lia)) as (b & Hb0 & Hb). exists b. rewrite (peek8_here _ _ _ _ Hb). split; [done |].
    split; [done |]. split; [| done]. intros P _. split; [intros HP; split; [done | by exists b] | intros H1; exact (is_at_inv _ _ _ _ _ Hb0 H1)].
Qed.

Lemma parse_char_at ch p : lo <= p <= cend -> exists b : bool, parse_char ch (m, at_ p) = Some (b, (m, at_ (if b then p + 1 else p))) /\
  (b = true <-> is_at m0 cend (fun c => c =? ch) p).
Proof using Hlo Same Hzero.
  intros Hp. unfold parse_char. rewrite bind_cur. cbn [c_p c_end]. destruct (Z.leb_spec cend p).
  - exists false. split; [done |]. split; [done |]. intros [H1 _]. lia.
  - destruct (content_byte p ltac:(lia)) as (b & Hb0 & Hb). rewrite (bind_peek8 _ _ _ _ _ Hb). exists (b =? ch).
    split; [by destruct (b =? ch) |]. split; [intros E; split; [done | by exists b] |].
    intros H1. exact (is_at_inv _ _ _ _ _ Hb0 H1).
Qed.

Lemma same_loadn a n : lo <= a -> a + n <= cend -> 0 <= n -> exists l, loadn m a n = Some l /\ loadn m0 a n = Some l /\ zlen l = n.
Proof using Hlo Same Hzero.
  intros Ha Hn H0. pose proof (load8_Some_range _ _ _ Hzero). destruct (content_byte cend ltac:(lia)) as (b & _ & Hb%load8_Some_range).
  pose proof (loadn_in_range m0 a n ltac:(lia) H0 ltac:(lia)) as E. set (l := take _ _) in E. exists l.
  pose proof (loadn_length _ _ _ _ E). split; [| by split]. apply loadn_ext; [lia | lia | done |].
  intros i Hi. rewrite Same by lia. by apply (loadn_load8 m0 a n).
Qed.

Lemma parse_str_at lit p : lo <= p <= cend -> exists b : bool,
  parse_str lit (m, at_ p) = Some (b, (m, at_ (if b then p + zlen lit else p))) /\ (b = true <-> literal m0 cend p lit).
Proof using Hlo Same Hzero.
  intros Hp. pose proof (load8_Some_range _ _ _ Hzero). pose proof (zlen_nonneg lit). unfold parse_str. rewrite bind_cur. cbn [c_p c_end].
  destruct (Z.leb_spec cend (p + zlen lit)).
  - exists false. split; [done |]. split; [done |]. intros (l & _ & _ & H2). lia.
  - destruct (same_loadn p (zlen lit) ltac:(lia) ltac:(lia) ltac:(lia)) as (l & E & E0 & Hl). rewrite (bind_peekn _ _ _ _ _ _ E).
    rewrite <- Hl in E0. apply (spelled_loadn m0 cend) in E0; [| lia..]. case_decide as Hd.
    + exists true. split; [done |]. split; [| done]. intros _. by exists l.
    + exists false. split; [done |]. split; [done |]. intros (l' & El & Sl & _). destruct Hd.
      replace l with l'; [done |]. eapply spelled_unique; [| exact Sl | exact E0].
      apply (f_equal length) in El. rewrite !length_map in El. unfold zlen in Hl. lia.
Qed.

Definition digit_at (p d : Z) : Prop := 0 <= d <= 9 /\ p < cend /\ load8 m0 p = Some (48 + d).

Lemma parse_digit_at p : lo <= p <= cend -> exists d, parse_digit (m, at_ p) = Some (d, (m, at_ (if d is Some _ then p + 1 else p))) /\
  match d with Some d => digit_at p d | None => forall d, ~ digit_at p d end.
Proof using Hlo Same Hzero.
  intros Hp. unfold parse_digit. destruct (peek0_at p Hp) as (r & E & Hr & _ & Hl). rewrite (run_bind _ _ _ _ _ E).
  assert (Hno : forall d, digit_at p d -> r = 48 + d) by (intros d (_ & H1 & H2); rewrite (Hl H1) in H2; congruence).
  destruct (Z.eqb_spec r (-1)) as [-> | Hr1].
  - exists None. split; [done |]. intros d Hd. pose proof (Hno d Hd). destruct Hd. lia.
  - cbv zeta. destruct (Z.leb_spec 0 (r - 48)), (Z.leb_spec (r - 48) 9); cbn [andb].
    2-4: exists None; split; [done |]; intros d Hd; pose proof (Hno d Hd); destruct Hd; lia.
    rewrite bind_cur, bind_goto. exists (Some (r - 48)). split; [done |]. specialize (Hr Hr1). split; [lia |]. split; [done |].
    rewrite (Hl Hr). f_equal. lia.
Qed.

(** *** Loops *)

(** A test of a place by what is there and behind it. *)
Definition tests (stop : Z -> Z -> CM bool) (P : Z -> Prop) : Prop :=
  forall x c, lo <= x < cend -> exists b : bool, stop x cend (m, c) = Some (b, (m, c)) /\ (b = true <-> P x).

Lemma scan_at stop P p : tests stop P -> lo <= p <= cend ->
  exists (b : bool) q, scan stop (m, at_ p) = Some (b, (m, at_ q)) /\ until cend P p q /\ (b = true <-> q < cend).
Proof using Type.
  intros Ht Hp. unfold scan. rewrite bind_cur. cbn [c_p c_end].
  assert (Hk : cend - p <= Z.of_nat (Z.to_nat (cend - p))) by lia. revert Hk. generalize (Z.to_nat (cend - p)) as k. intros k.
  revert p Hp. induction k as [| k IH]; intros p Hp Hk; cbn [scan_loop].
  { exists false, p. split; [done |]. split; [apply until_here; lia |]. split; [done | lia]. }
  rewrite bind_cur. cbn [c_p c_end]. destruct (Z.ltb_spec p cend).
  - destruct (Ht p (at_ p) ltac:(lia)) as (b & E & Hb). rewrite (run_bind _ _ _ _ _ E). destruct b.
    + exists true, p. split; [done |]. split; [apply until_here; [lia | tauto] |]. by split.
    + rewrite bind_goto. destruct (IH (p + 1) ltac:(lia) ltac:(lia)) as (b & q & E' & U & Hq). exists b, q. split; [exact E' |].
      split; [| done]. apply until_next; [done | | done]. intros Hx. apply Hb in Hx. done.
  - exists false, p. split; [done |]. split; [apply until_here; lia |]. split; [done | lia].
Qed.

Lemma until_loop_at stop or_end p : lo <= p <= cend -> forall k consumed, cend - p <= Z.of_nat k ->
  exists q, until_loop stop k consumed or_end (m, at_ p) = Some (if q <? cend then consumed || (p <? q) else or_end, (m, at_ q)) /\
    until cend (is_at m0 cend stop) p q.
Proof using Hlo Same Hzero.
  intros Hp k. revert p Hp. induction k as [| k IH]; intros p Hp consumed Hk; cbn [until_loop].
  { exists p. destruct (Z.ltb_spec p cend); [lia |]. split; [done |]. apply until_here; lia. }
  rewrite bind_cur. cbn [c_p c_end]. destruct (Z.ltb_spec p cend).
  - destruct (content_byte p ltac:(lia)) as (b & Hb0 & Hb). rewrite (bind_peek8 _ _ _ _ _ Hb). destruct (stop b) eqn:Es.
    + exists p. destruct (Z.ltb_spec p cend); [| lia]. rewrite Z.ltb_irrefl, orb_false_r. split; [done |]. apply until_here; [lia |].
      intros _. split; [done | by exists b].
    + rewrite bind_goto. destruct (IH (p + 1) ltac:(lia) true ltac:(lia)) as (q & E & U). exists q. split.
      * etransitivity; [exact E |]. destruct (Z.ltb_spec p q) as [| Hq]; [| destruct U; lia]. by rewrite orb_true_r.
      * apply until_next; [done | | done]. intros Hx. pose proof (is_at_inv _ _ _ _ _ Hb0 Hx). congruence.
  - exists p. destruct (Z.ltb_spec p cend); [lia |]. split; [done |]. apply until_here; lia.
Qed.

(** *** Words *)

(** *** The parsers

    Each finds its piece, or there is none. *)

Lemma literal_spelled a lit : Forall (fun x => forall b, tolower b = tolower x -> b = x) lit -> literal m0 cend a lit -> spelled m0 cend a lit.
Proof using Type.
  intros H (l & E & S & _). replace lit with l; [done |]. clear S. revert l E. induction H as [| x lit Hx _ IH]; intros [| b l] E; try done.
  injection E as E1 E2. f_equal; auto.
Qed.

Lemma is_at_spelled ch x : is_at m0 cend (fun c => c =? ch) x <-> x < cend /\ load8 m0 x = Some ch.
Proof using Type.
  split; [intros (H & c & E & Hc); apply Z.eqb_eq in Hc; subst; done | intros [H E]; split; [done |]; exists ch; by rewrite Z.eqb_refl].
Qed.

Lemma index_run p : lo <= p <= cend -> exists r q, parse_mention_index (m, at_ p) = Some (r, (m, at_ q)) /\ p <= q <= cend /\
  match r with
  | Some block => exists n, block = ParsedIndex n /\ index_at m0 cend p n q
  | None => q = p /\ forall n e, ~ index_at m0 cend p n e
  end.
Proof using Hlo Same Hzero.
  intros Hp. unfold parse_mention_index. rewrite bind_cur. cbv zeta. cbn [c_p].
  destruct (parse_str_at [35; 91] p Hp) as (ok & E & Hok). rewrite (run_bind _ _ _ _ _ E). destruct ok; cbn [negb].
  2: { exists None, p. split; [done |]. split; [lia |]. split; [done |]. intros n e (ds & Hl & _ & S & _).
       assert (literal m0 cend p [35; 91]); [| by intuition]. exists [35; 91]. split; [done |].
       apply spelled_app in S as [S S2]. split; [done |]. apply spelled_app in S2 as [_ [S2 _]]. pose proof (zlen_nonneg (map (Z.add 48) ds)).
       change (zlen [35; 91]) with 2 in *. lia. }
  apply proj1 in Hok. specialize (Hok eq_refl).
  assert (S0 : spelled m0 cend p [35; 91]).
  { apply literal_spelled; [| done]. repeat constructor; intros b; unfold tolower; repeat case_match; lia. }
  destruct Hok as (_ & _ & _ & Hroom). change (zlen [35; 91]) with 2 in *.
  (** Where the parser gives up there is no index. *)
  assert (Hnone : forall q, p <= q <= cend -> (forall n e, ~ index_at m0 cend p n e) -> exists r q',
     (do* goto p in ret (@None parsed_block)) (m, at_ q) = Some (r, (m, at_ q')) /\ p <= q' <= cend /\
     match r with Some block => exists n, block = ParsedIndex n /\ index_at m0 cend p n q' | None => q' = p /\ forall n e, ~ index_at m0 cend p n e end).
  { intros q Hq Hn. exists None, p. rewrite bind_goto. split; [done |]. split; [lia | done]. }
  assert (Hsome : forall ds e, 1 <= zlen ds <= 3 -> Forall (fun d => 0 <= d <= 9) ds -> spelled m0 cend (p + 2) (map (Z.add 48) ds) ->
     is_at m0 cend (fun c => c =? 93) (p + 2 + zlen ds) -> e = p + 3 + zlen ds -> index_at m0 cend p (decimal ds) e).
  { intros ds e Hl Hd S [Hb1 Hb2]%is_at_spelled ->. exists ds. split; [done |]. split; [done |]. split; [| done].
    apply spelled_app. split; [done |]. apply spelled_app. split; [done |]. change (zlen [35; 91]) with 2.
    replace (zlen (map (Z.add 48) ds)) with (zlen ds) by (unfold zlen; by rewrite length_map). done. }
  assert (Hfin : forall ds q, q = p + 2 + zlen ds -> 1 <= zlen ds <= 3 -> Forall (fun d => 0 <= d <= 9) ds -> spelled m0 cend (p + 2) (map (Z.add 48) ds) ->
     q <= cend -> (load8 m0 q <> Some 93 -> forall n e, ~ index_at m0 cend p n e) -> exists r q',
     (let* ok := parse_char 93 in if negb ok then do* goto p in ret None else ret (Some (ParsedIndex (decimal ds)))) (m, at_ q) = Some (r, (m, at_ q')) /\
     p <= q' <= cend /\
     match r with Some block => exists n, block = ParsedIndex n /\ index_at m0 cend p n q' | None => q' = p /\ forall n e, ~ index_at m0 cend p n e end).
  { intros ds q -> Hl Hd S Hq Hn. destruct (parse_char_at 93 (p + 2 + zlen ds) ltac:(lia)) as (ok & E4 & H4). rewrite (run_bind _ _ _ _ _ E4).
    rewrite is_at_spelled in H4. destruct ok; cbn [negb].
    - apply proj1 in H4. specialize (H4 eq_refl). exists (Some (ParsedIndex (decimal ds))), (p + 2 + zlen ds + 1). split; [done |]. split; [lia |].
      exists (decimal ds). split; [done |]. apply Hsome; auto; [by apply is_at_spelled | lia].
    - apply Hnone; [lia |]. apply Hn. intros H5. destruct (decide (p + 2 + zlen ds < cend)); [by intuition |].
      replace (p + 2 + zlen ds) with cend in H5 by lia. congruence. }
  destruct (parse_digit_at (p + 2) ltac:(lia)) as (d1 & E1 & H1). rewrite (run_bind _ _ _ _ _ E1).
  destruct d1 as [d1 |].
  2: { apply Hnone; [lia |]. intros n e (d & (Hd & L) & _)%index_inv. apply (H1 d). split; [done |]. split; [| done].
       destruct (decide (p + 2 = cend)) as [E2 |]; [| lia]. rewrite E2 in L. assert (48 + d = 0) by congruence. lia. }
  replace (p + 2 + 1) with (p + 3) by lia. pose proof H1 as (Hd1 & Hp1 & L1).
  assert (Hdig : forall x d, x <= cend -> 0 <= d <= 9 /\ load8 m0 x = Some (48 + d) -> digit_at x d).
  { intros x d Hx [Hd L]. split; [done |]. split; [| done]. destruct (decide (x = cend)) as [E2 |]; [| lia].
    rewrite E2 in L. assert (48 + d = 0) by congruence. lia. }
  destruct (parse_digit_at (p + 3) ltac:(lia)) as (d2 & E2 & H2). rewrite (run_bind _ _ _ _ _ E2).
  destruct d2 as [d2 |].
  - replace (p + 3 + 1) with (p + 4) by lia. pose proof H2 as (Hd2 & Hp2 & L2).
    destruct (parse_digit_at (p + 4) ltac:(lia)) as (d3 & E3 & H3). rewrite (run_bind _ _ _ _ _ E3).
    destruct d3 as [d3 |].
    + rewrite run_lift with (a := decimal [d1; d2; d3]) by (cbn; f_equal; lia). pose proof H3 as (Hd3 & Hp3 & L3).
      apply Hfin; [rewrite !zlen_cons; change (zlen []) with 0; lia | done | repeat constructor; lia | | lia |].
      { cbn [map spelled]. replace (p + 2 + 1) with (p + 3) by lia. by replace (p + 3 + 1) with (p + 4) by lia. }
      intros H4 n e H5%index_inv. replace (p + 4 + 1) with (p + 5) in H4 by lia.
      destruct H5 as (? & ? & [H5 | (? & ? & [H5 | (? & ? & H5)])]); [| | by apply H4]; exfalso; [assert (93 = 48 + d2) by congruence | assert (93 = 48 + d3) by congruence]; lia.
    + rewrite run_lift with (a := decimal [d1; d2]) by (cbn; f_equal; lia).
      apply Hfin; [rewrite !zlen_cons; change (zlen []) with 0; lia | done | repeat constructor; lia | | lia |].
      { cbn [map spelled]. by replace (p + 2 + 1) with (p + 3) by lia. }
      intros H4 n e H5%index_inv.
      destruct H5 as (? & ? & [H5 | (? & ? & [H5 | (d & Hd & H5)])]); [assert (93 = 48 + d2) by congruence; lia | by apply H4 |].
      by apply (H3 d), Hdig; [lia |].
  - rewrite (run_bind _ _ _ _ _ E2). rewrite run_lift with (a := decimal [d1]) by (cbn; f_equal; lia).
    apply Hfin; [rewrite !zlen_cons; change (zlen []) with 0; lia | done | repeat constructor; lia | | lia |].
    { cbn [map spelled]. done. }
    intros H4 n e H5%index_inv. destruct H5 as (? & ? & [H5 | (d & Hd & _)]); [by apply H4 |]. by apply (H2 d), Hdig; [lia |].
Qed.

(** Lengths that fit a 32-bit field. *)
Context (Hr : cend - lo < 2 ^ 31).

Lemma len_u32 a b : lo <= a -> a <= b -> b <= cend -> u32 (b - a) = b - a.
Proof using Hr. intros. apply Z.mod_small. lia. Qed.

Lemma hashtag_run p : lo <= p <= cend -> exists r q, parse_hashtag (m, at_ p) = Some (r, (m, at_ q)) /\ p <= q <= cend /\
  match r with
  | Some block => hashtag_at m0 lo cend p q /\ block = ParsedStr BLOCK_HASHTAG (mk_str (p + 1) (q - (p + 1)))
  | None => q = p /\ forall e, ~ hashtag_at m0 lo cend p e
  end.
Proof using Hlo Same Hzero Hr.
  intros Hp. unfold parse_hashtag. rewrite bind_cur. cbv zeta. cbn [c_p].
  destruct (parse_char_at 35 p Hp) as (ok & E & Hok). rewrite (run_bind _ _ _ _ _ E). destruct ok; cbn [negb].
  2: { exists None, p. split; [done |]. split; [lia |]. split; [done |]. intros e (H1 & _). by apply Hok in H1. }
  apply proj1 in Hok. specialize (Hok eq_refl). assert (p < cend) by apply Hok.
  destruct (peek0_at (p + 1) ltac:(lia)) as (r & E1 & _ & Hchar & _). rewrite (run_bind _ _ _ _ _ E1).
  specialize (Hchar starts_hashtag eq_refl). unfold starts_hashtag at 1 in Hchar. destruct ((r =? -1) || is_whitespace r || (r =? 35)); cbn [negb] in Hchar.
  - rewrite bind_goto. exists None, p. split; [done |]. split; [lia |]. split; [done |]. intros e (_ & H1 & _). by apply Hchar in H1.
  - apply proj1 in Hchar. specialize (Hchar eq_refl). destruct (boundary_at (p + 1) ltac:(lia)) as (b & q & E2 & Hq & Hw & _).
    rewrite (run_bind _ _ _ _ _ E2), bind_cur. cbn [c_p]. exists (Some (ParsedStr BLOCK_HASHTAG (mk_str (p + 1) (q - (p + 1))))), q.
    rewrite len_u32 by lia. split; [done |]. split; [lia |]. done.
Qed.

(** *** Entities *)

Lemma strncmp_at lit : Forall (fun x => x <> 0) lit -> forall a, lo <= a <= cend ->
  exists b : bool, (forall c, strncmp_eq a lit (m, c) = Some (b, (m, c))) /\ (b = true <-> spelled m0 cend a lit).
Proof using Hlo Same Hzero.
  induction 1 as [| x lit Hx _ IH]; intros a Ha; cbn [strncmp_eq spelled]; [by exists true |].
  destruct (content_byte a Ha) as (b & Hb0 & Hb). destruct (Z.eqb_spec b x) as [-> | Hne].
  - assert (a < cend). { destruct (decide (a = cend)) as [-> |]; [| lia]. congruence. }
    destruct (IH (a + 1) ltac:(lia)) as (b & E & Hb'). exists b. rewrite Hb'. split; [| tauto].
    intros c. rewrite (bind_peek8 _ _ _ _ _ Hb), Z.eqb_refl. apply E.
  - exists false. split; [| split; [done | intros (_ & H1 & _); congruence]].
    intros c. rewrite (bind_peek8 _ _ _ _ _ Hb). by destruct (Z.eqb_spec b x).
Qed.

Lemma prefixes_nonzero : Forall (fun p => Forall (fun x => x <> 0) p.1) bech32_prefixes.
Proof using Type. repeat constructor; discriminate. Qed.

Lemma parse_type_at a c : lo <= a <= cend -> exists r, parse_nostr_bech32_type a (m, c) = Some (r, (m, c)) /\
  match r with
  | Some (t, n) => exists lit, In (lit, t) bech32_prefixes /\ n = zlen lit /\ spelled m0 cend a lit
  | None => forall lit t, In (lit, t) bech32_prefixes -> ~ spelled m0 cend a lit
  end.
Proof using Hlo Same Hzero.
  intros Ha. unfold parse_nostr_bech32_type. pose proof prefixes_nonzero as Hnz. revert Hnz. generalize bech32_prefixes as l.
  induction l as [| [lit t] l IH]; intros Hnz; cbn [try_prefixes]; [by exists None |].
  apply List.Forall_cons_iff in Hnz as [Hx Hnz]. destruct (strncmp_at lit Hx a Ha) as (b & E & Hb). rewrite (run_bind _ _ _ _ _ (E c)).
  destruct b; [exists (Some (t, zlen lit)); split; [done |]; exists lit; split; [by left |]; split; [done | by apply Hb] |].
  destruct (IH Hnz) as (r & E' & Hr'). exists r. split; [done |]. destruct r as [[t' n] |].
  - destruct Hr' as (lit' & H1 & H2 & H3). exists lit'. split; [by right | done].
  - intros lit' t' [[= <- <-] | H1]; [intros H2; by apply Hb in H2 | by eapply Hr'].
Qed.

Lemma bech32_str_run p : lo <= p <= cend -> exists r q, parse_nostr_bech32_str (m, at_ p) = Some (r, (m, at_ q)) /\ p <= q <= cend /\
  match r with Some t => bech32_at m0 cend p q t | None => q = p /\ forall q t, ~ bech32_at m0 cend p q t end.
Proof using Hlo Same Hzero.
  intros Hp. unfold parse_nostr_bech32_str. rewrite bind_cur. cbv zeta. cbn [c_p].
  destruct (parse_type_at p (at_ p) Hp) as (r & E & Ht). rewrite (run_bind _ _ _ _ _ E). destruct r as [[t n] |].
  2: { rewrite bind_goto. exists None, p. split; [done |]. split; [lia |]. split; [done |].
       intros q t (lit & H1 & H2 & _). by apply (Ht lit t H1). }
  destruct Ht as (lit & Hin & -> & S). unfold consume_until_non_alphanumeric. rewrite bind_bind, bind_cur. cbn [c_p c_end].
  destruct (until_loop_at (fun b => negb (is_alphanumeric b)) true p Hp (Z.to_nat (cend - p)) false ltac:(lia)) as (q & E1 & U).
  rewrite (run_bind _ _ _ _ _ E1). cbn [orb]. pose proof U as (Hq & _ & _).
  assert (Hnone : forall q', lo <= q' <= cend -> q - (p + zlen lit) < 59 -> exists r q'', (do* goto p in ret (@None nostr_bech32_type)) (m, at_ q') = Some (r, (m, at_ q'')) /\
    p <= q'' <= cend /\ match r with Some t => bech32_at m0 cend p q'' t | None => q'' = p /\ forall q t, ~ bech32_at m0 cend p q t end).
  { intros q' Hq' Hlt. rewrite bind_goto. exists None, p. split; [done |]. split; [lia |]. split; [done |].
    intros q2 t2 (lit2 & Hin2 & S2 & U2 & H59). pose proof (until_unique _ _ _ _ _ U U2) as <-.
    pose proof (prefix_unique m0 cend p _ _ _ _ Hin Hin2 S S2) as [= <- <-]. lia. }
  pose proof (zlen_nonneg lit). set (ok := if q <? cend then _ else _). destruct ok eqn:Eok; cbn [negb].
  - rewrite bind_cur. cbn [c_p]. destruct (Z.ltb_spec (q - (p + zlen lit)) 59); [apply Hnone; lia |].
    exists (Some t), q. split; [done |]. split; [lia |]. exists lit. split; [done |]. split; [done |]. split; [done | lia].
  - apply Hnone; [lia |]. unfold ok in Eok. destruct (Z.ltb_spec q cend); [| done]. apply Z.ltb_ge in Eok. lia.
Qed.

Lemma skipped_at (b : bool) P n x : (b = true <-> P) -> optional P (eq (x + n)) x (if b then x + n else x).
Proof using Type. intros H. destruct b; [left; by rewrite <- H | right; split; [intros Hp; by apply H in Hp | done]]. Qed.

Lemma is_at_or P Q x : is_at m0 cend (fun c => P c || Q c) x <-> is_at m0 cend P x \/ is_at m0 cend Q x.
Proof using Type.
  unfold is_at. split.
  - intros (H & c & E & Hc). apply orb_true_iff in Hc as [Hc | Hc]; eauto.
  - intros [(H & c & E & Hc) | (H & c & E & Hc)]; (split; [done |]; exists c; split; [done |]; rewrite Hc; by rewrite ?orb_true_r).
Qed.

Lemma mention_run p : lo <= p <= cend -> is_at m0 cend (fun c => (c =? 110) || (c =? 64)) p ->
  exists r q, parse_mention_bech32 (m, at_ p) = Some (r, (m, at_ q)) /\ p <= q <= cend /\
  match r with
  | Some block => exists s t, mention_at m0 cend p s q t /\ p <= s /\ block = ParsedStr BLOCK_MENTION_BECH32 (mk_str s (q - s))
  | None => q = p /\ forall s e t, ~ mention_at m0 cend p s e t
  end.
Proof using Hlo Same Hzero Hr.
  intros Hp Hat. unfold parse_mention_bech32. rewrite bind_cur. cbv zeta. cbn [c_p].
  destruct (parse_char_at 64 p Hp) as (b1 & E1 & H1). rewrite (run_bind _ _ _ _ _ E1).
  assert (Hx : p <= (if b1 then p + 1 else p) <= cend) by (destruct b1; [apply proj1 in H1; destruct (H1 eq_refl); lia | lia]).
  pose proof (skipped_at b1 _ 1 p H1) as O1. set (x := if b1 then _ else _) in *.
  destruct (parse_str_at str_nostr x ltac:(lia)) as (b2 & E2 & H2). rewrite (run_bind _ _ _ _ _ E2), bind_cur. cbn [c_p].
  change (zlen str_nostr) with 6 in *.
  assert (Hs : p <= (if b2 then x + 6 else x) <= cend).
  { destruct b2; [apply proj1 in H2; destruct (H2 eq_refl) as (_ & _ & _ & Hl); change (zlen str_nostr) with 6 in Hl; lia | lia]. }
  pose proof (skipped_at b2 _ 6 x H2) as O2. set (s := if b2 then _ else _) in *.
  destruct (bech32_str_run s ltac:(lia)) as (r & q & E3 & Hq & Hb). rewrite (run_bind _ _ _ _ _ E3). destruct r as [t |].
  - rewrite bind_cur. cbn [c_p]. exists (Some (ParsedStr BLOCK_MENTION_BECH32 (mk_str s (q - s)))), q. rewrite len_u32 by lia. split; [done |].
    split; [lia |]. exists s, t. split; [| split; [lia | done]]. split; [done |]. exists x. done.
  - rewrite bind_goto. exists None, p. split; [done |]. split; [lia |]. split; [done |].
    intros s' e t (_ & x' & O1' & O2' & Hb'). pose proof (optional_eq _ _ _ _ _ O1 O1') as <-.
    pose proof (optional_eq _ _ _ _ _ O2 O2') as <-. by apply Hb in Hb'.
Qed.

(** Invoices: a "lightning:" is swallowed even where no invoice follows. *)
Lemma invoice_run p : lo <= p <= cend -> exists r q, parse_invoice (m, at_ p) = Some (r, (m, at_ q)) /\ p <= q <= cend /\
  match r with
  | Some block => exists s, invoice_at m0 cend p s q /\ p <= s /\ block = ParsedStr BLOCK_INVOICE (mk_str s (q - s))
  | None => optional (literal m0 cend p str_lightning) (eq (p + 10)) p q /\ forall s e, ~ invoice_at m0 cend p s e
  end.
Proof using Hlo Same Hzero Hr.
  intros Hp. unfold parse_invoice. destruct (parse_str_at str_lightning p Hp) as (b1 & E1 & H1). rewrite (run_bind _ _ _ _ _ E1).
  change (zlen str_lightning) with 10 in *. rewrite bind_cur. cbv zeta. cbn [c_p].
  assert (Hs : p <= (if b1 then p + 10 else p) <= cend).
  { destruct b1; [apply proj1 in H1; destruct (H1 eq_refl) as (_ & _ & _ & Hl); change (zlen str_lightning) with 10 in Hl; lia | lia]. }
  pose proof (skipped_at b1 _ 10 p H1) as O1. set (s := if b1 then _ else _) in *.
  destruct (parse_str_at str_lnbc s ltac:(lia)) as (b2 & E2 & H2). rewrite (run_bind _ _ _ _ _ E2). change (zlen str_lnbc) with 4 in *.
  destruct b2; cbn [negb].
  2: { exists None, s. split; [done |]. split; [lia |]. split; [done |]. intros s' e (O1' & H2' & _).
       pose proof (optional_eq _ _ _ _ _ O1 O1') as <-. by apply H2 in H2'. }
  apply proj1 in H2. specialize (H2 eq_refl). assert (s + 4 < cend) by (destruct H2 as (_ & _ & _ & Hl); change (zlen str_lnbc) with 4 in Hl; lia).
  unfold consume_until_whitespace. rewrite bind_bind, bind_cur. cbn [c_p c_end].
  destruct (until_loop_at is_whitespace true (s + 4) ltac:(lia) (Z.to_nat (cend - (s + 4))) false ltac:(lia)) as (q & E3 & U).
  rewrite (run_bind _ _ _ _ _ E3). cbn [orb]. pose proof U as (Hq & _ & _). set (ok := if q <? cend then _ else _). destruct ok eqn:Eok; cbn [negb].
  - rewrite bind_cur. cbn [c_p]. rewrite bind_goto. exists (Some (ParsedStr BLOCK_INVOICE (mk_str s (q - s)))), q. rewrite len_u32 by lia.
    split; [done |]. split; [lia |]. exists s. split; [| split; [lia | done]]. split; [done |]. split; [done |]. split; [done |].
    unfold ok in Eok. destruct (Z.ltb_spec q cend); [left; by apply Z.ltb_lt | right; lia].
  - rewrite bind_goto. exists None, s. split; [done |]. split; [lia |]. split; [done |]. intros s' e (O1' & H2' & U' & Hne).
    pose proof (optional_eq _ _ _ _ _ O1 O1') as <-. pose proof (until_unique _ _ _ _ _ U U') as <-.
    unfold ok in Eok. destruct (Z.ltb_spec q cend); [apply Z.ltb_ge in Eok; lia | done].
Qed.

(** *** Links *)

Lemma is_at_here P x b : lo <= x < cend -> load8 m0 x = Some b -> P b = true <-> is_at m0 cend P x.
Proof using Type. intros Hx Hb. split; [intros HP; split; [lia | by exists b] | by apply is_at_inv]. Qed.

Lemma tests_final : tests is_final_url_char (url_ends m0 cend).
Proof using Hlo Same Hzero.
  intros x c Hx. destruct (content_byte x ltac:(lia)) as (b & Hb0 & Hb). unfold is_final_url_char, url_ends.
  rewrite (bind_peek8 _ _ _ _ _ Hb). setoid_rewrite <- (is_at_here is_whitespace x b Hx Hb0). setoid_rewrite <- (is_at_here char_disallowed_at_end_url x b Hx Hb0).
  destruct (is_whitespace b); [exists true; split; [done | tauto] |].
  unfold next_char_is_whitespace. destruct (Z.ltb_spec cend (x + 1)); [lia |]. destruct (Z.eqb_spec (x + 1) cend) as [-> | Hne].
  - rewrite run_ret. exists (char_disallowed_at_end_url b). split; [done |]. intuition congruence.
  - destruct (content_byte (x + 1) ltac:(lia)) as (b' & Hb0' & Hb'). rewrite bind_bind, (bind_peek8 _ _ _ _ _ Hb'), run_ret.
    setoid_rewrite <- (is_at_here is_whitespace (x + 1) b' ltac:(lia) Hb0'). destruct (is_whitespace b').
    + exists (char_disallowed_at_end_url b). split; [done |]. intuition congruence.
    + exists false. split; [done |]. intuition congruence.
Qed.

Lemma tests_path : tests path_stop (path_ends m0 cend).
Proof using Hlo Same Hzero.
  intros x c Hx. destruct (content_byte x ltac:(lia)) as (b & Hb0 & Hb). unfold path_stop, path_ends.
  rewrite (bind_peek8 _ _ _ _ _ Hb). setoid_rewrite <- (is_at_here (fun c => (c =? 63) || (c =? 35)) x b Hx Hb0).
  destruct ((b =? 63) || (b =? 35)); [exists true; split; [done | tauto] |].
  destruct (tests_final x c Hx) as (r & E & H). exists r. split; [done |]. rewrite H. intuition congruence.
Qed.

Lemma tests_host : tests host_stop (host_ends m0 cend).
Proof using Hlo Same Hzero.
  intros x c Hx. destruct (content_byte x ltac:(lia)) as (b & Hb0 & Hb). unfold host_stop, host_ends.
  rewrite (bind_peek8 _ _ _ _ _ Hb). setoid_rewrite <- (is_at_here (fun c => negb (is_alphanumeric c || (c =? 46) || (c =? 45))) x b Hx Hb0).
  destruct (is_alphanumeric b || (b =? 46) || (b =? 45)); cbn [negb]; [| exists true; split; [done | tauto]].
  destruct (tests_final x c Hx) as (r & E & H). exists r. split; [done |]. rewrite H. intuition congruence.
Qed.

Lemma host_run p : lo <= p <= cend -> exists (b : bool) q, consume_url_host (m, at_ p) = Some (b, (m, at_ q)) /\
  until cend (host_ends m0 cend) p q /\ (b = true <-> p < q).
Proof using Hlo Same Hzero.
  intros Hp. unfold consume_url_host. rewrite bind_cur. cbv zeta. cbn [c_p].
  destruct (scan_at _ _ p tests_host Hp) as (b & q & E & U & _). rewrite (run_bind _ _ _ _ _ E), bind_cur. cbn [c_p].
  exists (negb (q - p =? 0)), q. split; [done |]. split; [done |]. destruct U as (H1 & _). destruct (Z.eqb_spec (q - p) 0); cbn; split; try done; lia.
Qed.

Lemma path_run p : lo <= p <= cend -> exists q, consume_url_path (m, at_ p) = Some (true, (m, at_ q)) /\ p <= q <= cend /\
  optional (is_at m0 cend (fun c => c =? 47) p) (until cend (path_ends m0 cend) p) p q.
Proof using Hlo Same Hzero.
  intros Hp. unfold consume_url_path. destruct (peek0_at p Hp) as (r & E & _ & Hc & _). rewrite (run_bind _ _ _ _ _ E).
  specialize (Hc (fun c => c =? 47) eq_refl). cbv beta in Hc. destruct (Z.eqb_spec r 47) as [-> | Hne]; cbn [negb].
  - change (47 <? 0) with false. cbv iota. destruct (scan_at _ _ p tests_path Hp) as (b & q & E' & U & _). rewrite (run_bind _ _ _ _ _ E').
    exists q. split; [done |]. split; [apply U |]. left. split; [by apply Hc | done].
  - exists p. split; [by destruct (r <? 0) |]. split; [lia |]. right. split; [intros H; by apply Hc in H | done].
Qed.

Lemma fragment_run p : lo <= p <= cend -> exists (b : bool) q, consume_url_fragment (m, at_ p) = Some (b, (m, at_ q)) /\ p <= q <= cend /\
  forall e, optional (is_at m0 cend (fun c => (c =? 35) || (c =? 63)) p)
    (fun q => until cend (url_ends m0 cend) (p + 1) q /\ (p + 1 < q \/ q = cend)) p e <-> b = true /\ e = q.
Proof using Hlo Same Hzero.
  intros Hp. unfold consume_url_fragment. destruct (peek0_at p Hp) as (r & E & _ & Hc & _). rewrite (run_bind _ _ _ _ _ E).
  specialize (Hc (fun c => (c =? 35) || (c =? 63)) eq_refl). cbv beta in Hc. rewrite <- negb_orb.
  destruct ((r =? 35) || (r =? 63)) eqn:Er; cbn [negb].
  - assert (Hx : is_at m0 cend (fun c => (c =? 35) || (c =? 63)) p) by by apply Hc. assert (p < cend) by apply Hx.
    destruct (Z.ltb_spec r 0) as [Hneg |]; [apply orb_true_iff in Er; rewrite !Z.eqb_eq in Er; lia |].
    rewrite bind_cur, bind_goto. cbn [c_p]. unfold consume_until_end_url, set_p. cbn [c_start c_end]. rewrite bind_cur. cbv zeta. cbn [c_p].
    destruct (scan_at _ _ (p + 1) tests_final ltac:(lia)) as (b & q & E' & U & Hb). rewrite (run_bind _ _ _ _ _ E'), bind_cur. cbn [c_p].
    eexists _, q. split; [reflexivity |]. pose proof U as (Hq & _ & _). split; [lia |]. intros e. split.
    + intros [[_ [U' He]] | [Hn _]]; [| contradiction]. pose proof (until_unique _ _ _ _ _ U U') as <-. split; [| done].
      destruct b; [| done]. destruct (Z.eqb_spec q (p + 1)); [| done]. apply proj1 in Hb. specialize (Hb eq_refl). lia.
    + intros [Hok ->]. left. split; [done |]. split; [done |]. destruct b.
      * destruct (Z.eqb_spec q (p + 1)); [done | lia].
      * right. destruct (decide (q < cend)) as [Hlt |]; [by apply Hb in Hlt | lia].
  - exists true, p. split; [by destruct (r <? 0) |]. split; [lia |]. intros e. unfold optional. rewrite <- Hc. intuition congruence.
Qed.

Lemma parens_at start p : lo <= start < p -> p <= cend -> exists b : bool, smart_parens start (m, at_ p) = Some (b, (m, at_ p)) /\
  without_paren m0 lo cend start p (if b then p - 1 else p).
Proof using Hlo Same Hzero.
  intros Hs Hp. unfold smart_parens. rewrite bind_cur. cbn [c_p c_start c_end]. unfold without_paren, optional.
  destruct (Z.leb_spec lo (start - 1)), (Z.ltb_spec start cend); cbn [andb]; try lia.
  2: { exists false. split; [done |]. right. split; [| done]. lia. }
  destruct (content_byte (start - 1) ltac:(lia)) as (b & Hb0 & Hb). rewrite (bind_peek8 _ _ _ _ _ Hb).
  setoid_rewrite <- (is_at_here (fun c => c =? 40) (start - 1) b ltac:(lia) Hb0).
  destruct (Z.eqb_spec b 40); cbn [andb]; [| exists false; split; [done |]; right; split; [| done]; intros (_ & Hx & _); done].
  destruct (Z.ltb_spec (p - 1) cend); [| lia]. destruct (content_byte (p - 1) ltac:(lia)) as (d & Hd0 & Hd). rewrite (bind_peek8 _ _ _ _ _ Hd).
  setoid_rewrite <- (is_at_here (fun c => c =? 41) (p - 1) d ltac:(lia) Hd0). exists (d =? 41). split; [done |].
  destruct (Z.eqb_spec d 41); [left; split; [split; [lia | done] | done] | right; split; [| done]; intros (_ & _ & Hx); done].
Qed.

(** The scheme, its "s" in any case. *)
Lemma scheme_run p : lo <= p <= cend -> exists (b : bool) q,
  (let* ok := parse_str str_http in
   if negb ok then ret false
   else
     let* s := parse_char 115 in
     let* s := (if s : bool then ret true else parse_char 83) in
     parse_str str_css) (m, at_ p) = Some (b, (m, at_ q)) /\ p <= q <= cend /\
  (b = true -> p < q) /\
  forall h, (exists s, (s = [] \/ s = [115]) /\ literal m0 cend p (str_http ++ s ++ str_css) /\ h = p + 7 + zlen s) <-> b = true /\ h = q.
Proof using Hlo Same Hzero.
  intros Hp. destruct (parse_str_at str_http p Hp) as (ok & E & Hok). rewrite (run_bind _ _ _ _ _ E). change (zlen str_http) with 4 in *.
  destruct ok; cbn [negb].
  2: { exists false, p. split; [done |]. split; [lia |]. split; [done |]. intros h. split; [| by intros []].
       intros (s & _ & [Hl _]%literal_app & _). by apply Hok in Hl. }
  apply proj1 in Hok. specialize (Hok eq_refl). assert (p + 4 < cend) by (destruct Hok as (_ & _ & _ & Hl); done).
  destruct (parse_char_at 115 (p + 4) ltac:(lia)) as (b1 & E1 & H1). rewrite (run_bind _ _ _ _ _ E1).
  assert (Hs : exists b2 : bool, (if b1 then ret true else parse_char 83) (m, at_ (if b1 then p + 4 + 1 else p + 4)) = Some (b2, (m, at_ (if b2 then p + 4 + 1 else p + 4))) /\
    (b2 = true <-> is_at m0 cend (fun c => tolower c =? 115) (p + 4))).
  { assert (Hor : is_at m0 cend (fun c => tolower c =? 115) (p + 4) <-> is_at m0 cend (fun c => c =? 115) (p + 4) \/ is_at m0 cend (fun c => c =? 83) (p + 4)).
    { rewrite <- is_at_or. destruct (content_byte (p + 4) ltac:(lia)) as (c & Hc & _). rewrite <- !(fun P => is_at_here P (p + 4) c ltac:(lia) Hc).
      rewrite orb_true_iff, !Z.eqb_eq. unfold tolower. destruct (Z.leb_spec 65 c), (Z.leb_spec c 90); cbn [andb]; lia. }
    destruct b1.
    - exists true. split; [done |]. rewrite Hor. tauto.
    - destruct (parse_char_at 83 (p + 4) ltac:(lia)) as (b2 & E2 & H2). exists b2. split; [done |]. rewrite Hor, <- H1, <- H2. intuition congruence. }
  destruct Hs as (b2 & E2 & H2). rewrite (run_bind _ _ _ _ _ E2). set (x := if b2 then _ else _).
  assert (Hx : p < x <= cend) by (unfold x; destruct b2; lia).
  destruct (parse_str_at str_css x ltac:(lia)) as (ok & E3 & H3). rewrite E3. change (zlen str_css) with 3. exists ok, (if ok then x + 3 else x).
  split; [done |]. split.
  { destruct ok; [| lia]. apply proj1 in H3. destruct (H3 eq_refl) as (_ & _ & _ & Hl). change (zlen str_css) with 3 in Hl. lia. }
  split; [intros ->; lia |]. intros h. split.
  - intros (s & Hs & [_ Hl]%literal_app & ->). change (zlen str_http) with 4 in Hl. destruct Hs as [-> | ->].
    + cbn [app] in Hl. assert (b2 = false) as ->.
      { destruct b2; [| done]. apply proj1 in H2. specialize (H2 eq_refl). destruct H2 as (_ & c & Hc & Hlow%Z.eqb_eq).
        destruct Hl as (l & El & S & _). destruct l as [| y l]; [done |]. destruct S as (_ & Hy & _). injection El as El _. assert (y = c) as -> by congruence. rewrite Hlow in El. done. }
      unfold x in *. apply H3 in Hl. rewrite Hl. change (zlen (@nil Z)) with 0. split; [done | lia].
    + apply literal_app in Hl as [Hs Hl]. apply literal_char in Hs as [Hs _]. apply H2 in Hs. unfold x in *. rewrite Hs in *.
      change (zlen [115]) with 1 in *. apply H3 in Hl. rewrite Hl. split; [done | lia].
  - intros [-> ->]. apply proj1 in H3. specialize (H3 eq_refl). unfold x in *. destruct b2.
    + exists [115]. split; [by right |]. split; [| change (zlen [115]) with 1; lia].
      apply literal_join; [done |]. change (zlen str_http) with 4. apply literal_join; [| exact H3].
      apply literal_char. split; [by apply H2 | destruct H3 as (_ & _ & _ & Hl); change (zlen str_css) with 3 in Hl; lia].
    + exists []. split; [by left |]. split; [| change (zlen (@nil Z)) with 0; lia].
      apply literal_join; [done |]. exact H3.
Qed.

Lemma damus_host host hend : lo <= host <= cend -> host <= hend <= cend ->
  exists b : bool, (forall c, (if i32 (hend - host) =? 8 then strncmp_eq host str_damus else ret false) (m, c) = Some (b, (m, c))) /\
    (b = true <-> hend = host + 8 /\ spelled m0 cend host str_damus).
Proof using Hlo Same Hzero Hr.
  intros Hh Hn. assert (E : i32 (hend - host) = hend - host) by (unfold i32; rewrite Z.mod_small by lia; lia). rewrite E.
  destruct (Z.eqb_spec (hend - host) 8) as [H8 | H8].
  - destruct (strncmp_at str_damus ltac:(repeat constructor; discriminate) host Hh) as (b & E' & Hb). exists b. split; [done |]. rewrite Hb.
    split; [intros H; split; [lia | done] | by intros []].
  - exists false. split; [done |]. split; [done |]. lia.
Qed.

(** The cursor for the path, and what is found with it. *)
Lemma damus_run host hend : lo <= host <= cend -> host <= hend <= cend -> exists k,
  (forall outer, exists b, with_cursor_of (at_ hend) (cursor_skip 1) (m, outer) = Some ((b, at_ k), (m, outer))) /\
  exists (d : bool) r q, (forall c, (if i32 (hend - host) =? 8 then strncmp_eq host str_damus else ret false) (m, c) = Some (d, (m, c))) /\
  (forall outer, (if d then with_cursor_of (at_ k) parse_nostr_bech32_str else ret (None, at_ k)) (m, outer) = Some ((r, at_ q), (m, outer))) /\
  match r with
  | Some t => damus_at m0 cend host hend k q t /\ hend <= k /\ k <= q <= cend
  | None => forall s e t, ~ damus_at m0 cend host hend s e t
  end.
Proof using Hlo Same Hzero Hr.
  intros Hh He. exists (if cend <=? hend + 1 then hend else hend + 1). split.
  { intros outer. unfold with_cursor_of, cursor_skip. rewrite bind_cur. cbn [c_p c_end]. destruct (cend <=? hend + 1); by eexists. }
  set (k := if cend <=? hend + 1 then _ else _).
  destruct (damus_host host hend Hh He) as (d & Ed & Hd). exists d.
  assert (Hk : hend <= k <= cend) by (unfold k; destruct (Z.leb_spec cend (hend + 1)); lia). destruct d.
  - destruct (bech32_str_run k ltac:(lia)) as (r & q & E & Hq & Hb). exists r, q. split; [done |].
    split; [intros outer; unfold with_cursor_of; by rewrite E |]. apply proj1 in Hd. destruct (Hd eq_refl) as [H8 S]. destruct r as [t |].
    + split; [| lia]. split; [done |]. split; [done |]. split; [| done]. unfold k. destruct (Z.leb_spec cend (hend + 1)); [| done].
      destruct Hb as (lit & _ & _ & U & H59). pose proof (zlen_nonneg lit). unfold k in *. destruct U. destruct (Z.leb_spec cend (hend + 1)); lia.
    + intros s e t (_ & _ & -> & H1). destruct Hb as [_ Hb]. unfold k in *. destruct (Z.leb_spec cend (hend + 1)); [| by apply Hb in H1].
      destruct H1 as (lit & _ & _ & U & H59). pose proof (zlen_nonneg lit). destruct U. lia.
  - exists None, k. split; [done |]. split; [done |]. intros s e t (H1 & H2 & _). assert (false = true) by by apply Hd. done.
Qed.

(** Where a test of a run is split, it has a value. *)
Lemma bind_value {S A B} (w : M S A) (k : A -> M S B) s r : bind w k s = Some r -> exists a s', w s = Some (a, s') /\ k a s' = Some r.
Proof using Type. unfold bind. destruct (w s) as [[a s'] |]; [eauto | done]. Qed.

Lemma url_run p : lo <= p <= cend -> exists r q, parse_url (m, at_ p) = Some (r, (m, at_ q)) /\ p <= q <= cend /\
  match r with
  | Some block => p < q /\ exists host hend e, link m0 cend p host hend e /\ without_paren m0 lo cend p e q /\
      ((exists s e' t, damus_at m0 cend host hend s e' t /\ p <= s /\ block = ParsedStr BLOCK_MENTION_BECH32 (mk_str s (e' - s))) \/
       ((forall s e' t, ~ damus_at m0 cend host hend s e' t) /\ block = ParsedStr BLOCK_URL (mk_str p (q - p))))
  | None => q = p /\ forall host hend e, ~ link m0 cend p host hend e
  end.
Proof using Hlo Same Hzero Hr.
  intros Hp. destruct (scheme_run p Hp) as (b & h & E & Hh & Hb & Hlit). unfold parse_url. rewrite bind_cur. cbv zeta. cbn [c_p].
  apply bind_value in E as (ok & s1 & E1 & E). rewrite (run_bind _ _ _ _ _ E1). destruct ok; cbn [negb].
  2: { unfold ret in E. injection E as <- Es. destruct (parse_str_at str_http p Hp) as (x & Ex & _). rewrite E1 in Ex. injection Ex as <- ->.
       exists None, p. split; [done |]. split; [lia |]. split; [done |]. intros host hend e (H1 & _). by apply Hlit in H1 as [? _]. }
  cbn [negb] in E. apply bind_value in E as (x1 & s2 & E2 & E). rewrite (run_bind _ _ _ _ _ E2).
  apply bind_value in E as (x2 & s3 & E3 & E). rewrite (run_bind _ _ _ _ _ E3), (run_bind _ _ _ _ _ E).
  assert (Hnone : forall q, (forall host hend e, ~ link m0 cend p host hend e) -> exists r q',
    (do* goto p in ret (@None parsed_block)) (m, at_ q) = Some (r, (m, at_ q')) /\ p <= q' <= cend /\
    match r with
    | Some block => p < q' /\ exists host hend e, link m0 cend p host hend e /\ without_paren m0 lo cend p e q' /\
        ((exists s e' t, damus_at m0 cend host hend s e' t /\ p <= s /\ block = ParsedStr BLOCK_MENTION_BECH32 (mk_str s (e' - s))) \/
         ((forall s e' t, ~ damus_at m0 cend host hend s e' t) /\ block = ParsedStr BLOCK_URL (mk_str p (q' - p))))
    | None => q' = p /\ forall host hend e, ~ link m0 cend p host hend e
    end).
  { intros q Hn. rewrite bind_goto. exists None, p. split; [done |]. split; [lia | by split]. }
  destruct b; cbn [negb]. 2: { apply Hnone. intros host hend e (H1 & _). by apply Hlit in H1 as [? _]. }
  specialize (Hb eq_refl). rewrite bind_cur. cbn [c_p].
  destruct (host_run h ltac:(lia)) as (ok & hend & E4 & Uh & Hok). rewrite (run_bind _ _ _ _ _ E4). pose proof Uh as (Hhend & _).
  destruct ok; cbn [negb].
  2: { apply Hnone. intros host hend' e (H1 & H2 & U' & _). apply Hlit in H1 as [_ ->]. pose proof (until_unique _ _ _ _ _ Uh U') as <-. by apply Hok in H2. }
  apply proj1 in Hok. specialize (Hok eq_refl). rewrite bind_cur. cbn [c_p].
  destruct (damus_run h hend ltac:(lia) ltac:(lia)) as (k & E5 & d & dr & dq & Ed & Edr & Hd).
  destruct (E5 (at_ hend)) as [b1 E5']. rewrite (run_bind _ _ _ _ _ E5'). cbn [snd c_p].
  destruct (path_run hend ltac:(lia)) as (pth & E6 & Hpth & Op). rewrite (run_bind _ _ _ _ _ E6). cbn [negb].
  destruct (fragment_run pth ltac:(lia)) as (ok & e & E7 & He & Of). rewrite (run_bind _ _ _ _ _ E7). destruct ok; cbn [negb].
  2: { apply Hnone. intros host hend' e' (H1 & _ & U' & pth' & Op' & Of'). apply Hlit in H1 as [_ ->]. pose proof (until_unique _ _ _ _ _ Uh U') as <-.
       pose proof (optional_unique _ _ _ _ _ (until_unique _ _ _) Op Op') as <-. by apply Of in Of' as [? _]. }
  assert (Hlink : link m0 cend p h hend e).
  { split; [by apply Hlit |]. split; [done |]. split; [done |]. exists pth. split; [done |]. by apply Of. }
  destruct (parens_at p e ltac:(lia) ltac:(lia)) as (par & E8 & Hpar). rewrite (run_bind _ _ _ _ _ E8), bind_cur. cbn [c_p].
  set (q := if par then e - 1 else e) in *.
  assert (E9 : (if par then goto (e - 1) else ret tt) (m, at_ e) = Some (tt, (m, at_ q))) by (unfold q; by destruct par).
  assert (Hq : p < q <= cend) by (unfold q; destruct par; lia). rewrite (run_bind _ _ _ _ _ E9).
  rewrite (run_bind _ _ _ _ _ (Ed _)), (run_bind _ _ _ _ _ (Edr _)). destruct dr as [t |].
  - destruct Hd as (Hd & Hk1 & Hk2). cbn [c_p]. eexists _, q. split; [reflexivity |]. split; [lia |]. split; [lia |]. exists h, hend, e. split; [done |].
    split; [done |]. left. exists k, dq, t. rewrite len_u32 by lia. split; [done |]. split; [lia | done].
  - rewrite bind_cur. cbn [c_p]. eexists _, q. split; [reflexivity |]. split; [lia |]. split; [lia |]. exists h, hend, e. split; [done |].
    split; [done |]. right. rewrite len_u32 by lia. done.
Qed.

(** *** All of them *)

Lemma literal_first x lit a : literal m0 cend a (x :: lit) -> is_at m0 cend (fun c => tolower c =? tolower x) a.
Proof using Type.
  change (x :: lit) with ([x] ++ lit). intros [H _]%literal_app. by apply literal_char in H as [H _].
Qed.

(** The first character of a piece tells its kind. *)
Definition may_be (c : Z) (block : parsed_block) : Prop :=
  match block with
  | ParsedIndex _ | ParsedStr BLOCK_HASHTAG _ => c = 35
  | ParsedStr BLOCK_URL _ => tolower c = 104
  | ParsedStr BLOCK_INVOICE _ => tolower c = 108
  | ParsedStr BLOCK_MENTION_BECH32 _ => tolower c = 104 \/ c = 110 \/ c = 64
  | _ => False
  end.

Lemma link_first p c host hend e : load8 m0 p = Some c -> link m0 cend p host hend e -> tolower c = 104.
Proof using Type.
  intros Hc ((s & _ & H & _) & _). apply literal_first in H. apply (is_at_inv _ _ _ _ _ Hc) in H. by apply Z.eqb_eq in H.
Qed.

Lemma piece_first p c hi block : load8 m0 p = Some c -> piece m0 lo cend p hi block -> may_be c block.
Proof using Type.
  intros Hc H. destruct H as [n hi (ds & _ & _ & (_ & Hx & _) & _) | hi (Hx & _) | host hend e s e' type hi Hl | host hend e hi Hl | s hi (Ho & Hn & _) | s hi type (Hx & _)].
  - cbn in *. congruence.
  - apply (is_at_inv _ _ _ _ _ Hc) in Hx. by apply Z.eqb_eq.
  - left. by eapply link_first.
  - by eapply link_first.
  - destruct Ho as [[Hl _] | [_ ->]]; [apply literal_first in Hl; apply (is_at_inv _ _ _ _ _ Hc) in Hl; by apply Z.eqb_eq in Hl |].
    apply literal_first in Hn. apply (is_at_inv _ _ _ _ _ Hc) in Hn. by apply Z.eqb_eq in Hn.
  - apply (is_at_inv _ _ _ _ _ Hc) in Hx. apply orb_true_iff in Hx. rewrite !Z.eqb_eq in Hx. by right.
Qed.

Lemma first_of_none b : first_of (ret None) b = b.
Proof using Type. reflexivity. Qed.

Lemma not_lightning p c : load8 m0 p = Some c -> tolower c <> 108 -> ~ literal m0 cend p str_lightning.
Proof using Type. intros Hc Hn H%literal_first. apply (is_at_inv _ _ _ _ _ Hc) in H. by apply Z.eqb_eq in H. Qed.

(** What the parsers find, by their first character. *)
Definition special_result (p : Z) (r : option parsed_block) (q : Z) : Prop :=
  p <= q <= cend /\
  match r with
  | Some block => p < q /\ piece m0 lo cend p q block
  | None => (forall hi block, ~ piece m0 lo cend p hi block) /\ optional (literal m0 cend p str_lightning) (eq (p + 10)) p q
  end.

Lemma found_none p c : load8 m0 p = Some c -> tolower c <> 108 -> p <= cend ->
  (forall hi block, piece m0 lo cend p hi block -> False) -> special_result p None p.
Proof using Type. intros Hc Hn Hp H. split; [lia |]. split; [exact H |]. right. split; [by eapply not_lightning | done]. Qed.

Lemma word_le p q : word m0 lo cend p q -> lo <= p <= cend -> p <= q <= cend.
Proof using Hlo Same Hzero.
  induction 1 as [p H | p cp len q Hp _ Hrune _ IH]; intros Hp'; [lia |]. destruct (content_byte p Hp') as (b & Hb & _).
  destruct (rune_at p b ltac:(lia) Hb) as (ok & cp' & len' & _ & E & Hlen). unfold rune in Hrune. rewrite E in Hrune. destruct ok; [| done].
  injection Hrune as <- <-. specialize (Hlen eq_refl). lia.
Qed.

Lemma tag_special p : lo <= p < cend -> load8 m0 p = Some 35 ->
  exists r q, first_of parse_mention_index parse_hashtag (m, at_ p) = Some (r, (m, at_ q)) /\ special_result p r q.
Proof using Hlo Same Hzero Hr.
  intros Hp Hc. unfold first_of. destruct (index_run p ltac:(lia)) as (r & q & E & Hq & Hi). rewrite (run_bind _ _ _ _ _ E). destruct r as [block |].
  - destruct Hi as (n & -> & Hi). exists (Some (ParsedIndex n)), q. split; [done |]. split; [done |]. split; [| by constructor].
    destruct Hi as (ds & Hl & _ & _ & -> & _). lia.
  - destruct Hi as [-> Hi]. destruct (hashtag_run p ltac:(lia)) as (r & q & E2 & Hq2 & Hh). exists r, q. split; [done |]. destruct r as [block |].
    + destruct Hh as [Hh ->]. split; [done |]. split; [| by constructor]. destruct Hh as (_ & [? _] & Hw). apply word_le in Hw; lia.
    + destruct Hh as [-> Hh]. eapply found_none; [done | done | lia |]. intros hi block H. pose proof (piece_first _ _ _ _ Hc H) as Hm.
      destruct H as [n hi H | hi H _ | | | |]; try (cbn in Hm; lia); [by apply (Hi n hi) | by apply (Hh hi)].
Qed.

Lemma url_special p c : lo <= p < cend -> load8 m0 p = Some c -> tolower c = 104 ->
  exists r q, parse_url (m, at_ p) = Some (r, (m, at_ q)) /\ special_result p r q.
Proof using Hlo Same Hzero Hr.
  intros Hp Hc Hl. destruct (url_run p ltac:(lia)) as (r & q & E & Hq & Hi). exists r, q. split; [done |]. destruct r as [block |].
  - destruct Hi as (Hlt & host & hend & e & Hlink & Hpar & [(s & e' & t & Hd & _ & ->) | [Hd ->]]); (split; [done |]; split; [done |]).
    + by eapply piece_damus.
    + by eapply piece_url.
  - destruct Hi as [-> Hi]. eapply found_none; [done | lia | lia |]. intros hi block H. pose proof (piece_first _ _ _ _ Hc H) as Hm.
    assert (c <> 35 /\ c <> 110 /\ c <> 64) by (unfold tolower in Hl; repeat case_match; lia).
    destruct H as [| | host hend e s e' type hi H | host hend e hi H | | s hi type (H & _)]; cbn in Hm; try lia; try (by eapply Hi).
    apply (is_at_inv _ _ _ _ _ Hc) in H. apply orb_true_iff in H. rewrite !Z.eqb_eq in H. lia.
Qed.

Lemma invoice_special p c : lo <= p < cend -> load8 m0 p = Some c -> tolower c = 108 ->
  exists r q, parse_invoice (m, at_ p) = Some (r, (m, at_ q)) /\ special_result p r q.
Proof using Hlo Same Hzero Hr.
  intros Hp Hc Hl. destruct (invoice_run p ltac:(lia)) as (r & q & E & Hq & Hi). exists r, q. split; [done |]. destruct r as [block |].
  - destruct Hi as (s & Hi & Hs & ->). split; [done |]. split; [| by constructor]. destruct Hi as (_ & _ & (? & _) & _). lia.
  - destruct Hi as [Ho Hi]. split; [done |]. split; [| done]. intros hi block H. pose proof (piece_first _ _ _ _ Hc H) as Hm.
    assert (c <> 35 /\ c <> 110 /\ c <> 64) by (unfold tolower in Hl; repeat case_match; lia).
    destruct H as [| | | | s hi H |]; cbn in Hm; try lia; by eapply Hi.
Qed.

Lemma mention_special p c : lo <= p < cend -> load8 m0 p = Some c -> c = 110 \/ c = 64 ->
  exists r q, parse_mention_bech32 (m, at_ p) = Some (r, (m, at_ q)) /\ special_result p r q.
Proof using Hlo Same Hzero Hr.
  intros Hp Hc Hl. assert (Hat : is_at m0 cend (fun c => (c =? 110) || (c =? 64)) p).
  { split; [lia |]. exists c. split; [done |]. apply orb_true_iff. by rewrite !Z.eqb_eq. }
  assert (tolower c <> 104 /\ tolower c <> 108) by (destruct Hl as [-> | ->]; done).
  destruct (mention_run p ltac:(lia) Hat) as (r & q & E & Hq & Hi). exists r, q. split; [done |]. destruct r as [block |].
  - destruct Hi as (s & t & Hi & Hs & ->). split; [done |]. split; [| by econstructor].
    destruct Hi as (_ & x & _ & _ & (lit & _ & _ & _ & H59)). pose proof (zlen_nonneg lit). lia.
  - destruct Hi as [-> Hi]. eapply found_none; [done | lia | lia |]. intros hi block H'. pose proof (piece_first _ _ _ _ Hc H') as Hm.
    destruct H' as [| | host hend e s e' type hi H' | | | s hi type H']; cbn in Hm; try lia; [| by eapply Hi].
    apply (link_first _ _ _ _ _ Hc) in H'. lia.
Qed.

Lemma special_at p c : lo <= p < cend -> load8 m0 p = Some c ->
  exists r q, parse_special c (m, at_ p) = Some (r, (m, at_ q)) /\ special_result p r q.
Proof using Hlo Same Hzero Hr.
  intros Hp Hc. unfold parse_special.
  (** A parser alone, when the others are not run or find nothing. *)
  assert (Halone : forall w w' : CM (option parsed_block), w' = ret None ->
    (exists r q, w (m, at_ p) = Some (r, (m, at_ q)) /\ special_result p r q) ->
    exists r q, first_of w w' (m, at_ p) = Some (r, (m, at_ q)) /\ special_result p r q).
  { intros w w' -> (r & q & E & Hq). exists r, q. split; [| done]. unfold first_of. rewrite (run_bind _ _ _ _ _ E). by destruct r. }
  destruct (Z.eqb_spec c 35) as [-> | H1]; cbn [when]; [apply Halone; [reflexivity | by apply tag_special] |]. rewrite first_of_none.
  destruct (Z.eqb_spec c 104) as [-> | H2]; cbn [when orb]; [apply Halone; [reflexivity | by eapply url_special] |].
  destruct (Z.eqb_spec c 72) as [-> | H3]; cbn [when orb]; [apply Halone; [reflexivity | by eapply url_special] |]. rewrite first_of_none.
  destruct (Z.eqb_spec c 108) as [-> | H4]; cbn [when orb]; [apply Halone; [reflexivity | by eapply invoice_special] |].
  destruct (Z.eqb_spec c 76) as [-> | H5]; cbn [when orb]; [apply Halone; [reflexivity | by eapply invoice_special] |]. rewrite first_of_none.
  destruct (Z.eqb_spec c 110) as [-> | H6]; cbn [when orb]; [eapply mention_special; eauto |].
  destruct (Z.eqb_spec c 64) as [-> | H7]; cbn [when orb]; [eapply mention_special; eauto |].
  assert (tolower c <> 104 /\ tolower c <> 108) by (unfold tolower; repeat case_match; lia).
  exists None, p. split; [done |]. eapply found_none; [done | lia | lia |]. intros hi block Hpc. pose proof (piece_first _ _ _ _ Hc Hpc) as Hm.
  destruct block as [[] | ]; cbn in Hm; lia.
Qed.

(** Where a piece and its block lie. *)
Definition located (mid : Z) (block : parsed_block) : Prop :=
  match block with
  | ParsedIndex n => 0 <= n < 1000
  | ParsedStr type s =>
      type <> BLOCK_MENTION_INDEX /\ mid <= sb_str s /\ 0 <= sb_len s /\ (type <> BLOCK_HASHTAG -> 0 < sb_len s) /\ sb_str s + sb_len s <= cend
  end.

Lemma link_bounds p host hend e : lo <= p -> link m0 cend p host hend e -> p + 7 <= host /\ host < hend /\ hend <= e <= cend.
Proof using Type.
  intros Hp ((s & _ & _ & ->) & H1 & (H2 & _) & pth & Op & Of). pose proof (zlen_nonneg s).
  assert (hend <= pth <= cend) by (destruct Op as [(_ & ? & _) | (_ & ->)]; lia).
  assert (pth <= e <= cend) by (destruct Of as [(_ & (? & _) & _) | (_ & ->)]; lia). lia.
Qed.

Lemma bech32_bounds s e t : bech32_at m0 cend s e t -> s + 59 <= e <= cend.
Proof using Type. intros (lit & _ & _ & (H & _) & H59). pose proof (zlen_nonneg lit). lia. Qed.

Lemma piece_bounds mid hi block : lo <= mid <= cend -> piece m0 lo cend mid hi block -> mid < hi <= cend /\ located mid block.
Proof using Hlo Same Hzero.
  intros Hm H. destruct H as [n hi H | hi H _ | host hend e s e' type hi Hl (-> & _ & -> & Hb) Hp | host hend e hi Hl _ Hp | s hi H | s hi type H]; cbn [located sb_str sb_len].
  - destruct H as (ds & Hl & Hd & S & -> & ->). apply spelled_end in S; [| lia]. rewrite !zlen_app in S.
    replace (zlen (map (Z.add 48) ds)) with (zlen ds) in S by (unfold zlen; by rewrite length_map).
    change (zlen [35; 91]) with 2 in S. change (zlen [93]) with 1 in S. split; [lia |].
    destruct ds as [| d1 [| d2 [| d3 [| d4 ds]]]]; [change (zlen (@nil Z)) with 0 in Hl; lia | | | |
      rewrite !zlen_cons in Hl; pose proof (zlen_nonneg ds); lia];
      repeat (apply List.Forall_cons_iff in Hd as [? Hd]); cbn; lia.
  - destruct H as (_ & [? _] & Hw%word_le); [| lia]. repeat split; try done; lia.
  - pose proof (link_bounds _ _ _ _ (proj1 Hm) Hl). apply bech32_bounds in Hb. destruct Hp as [[_ <-] | [_ ->]]; repeat split; try done; lia.
  - pose proof (link_bounds _ _ _ _ (proj1 Hm) Hl). destruct Hp as [[_ <-] | [_ ->]]; repeat split; try done; lia.
  - destruct H as (Ho & _ & (H1 & _) & _). destruct Ho as [[_ <-] | [_ ->]]; repeat split; try done; lia.
  - destruct H as (_ & x & Ho & Ho' & Hb%bech32_bounds). destruct Ho as [[_ <-] | [_ ->]], Ho' as [[_ <-] | [_ ->]]; repeat split; try done; lia.
Qed.

(** Whether a piece may start here is what the parser tests. *)
Lemma candidate_at p : lo <= p < cend -> exists cp c, peek_char (-1) (m, at_ p) = Some (cp, (m, at_ p)) /\
  peek_char 0 (m, at_ p) = Some (c, (m, at_ p)) /\ load8 m0 p = Some c /\
  (((cp =? -1) || is_left_boundary cp || (c =? 35)) = true <-> candidate m0 lo cend p).
Proof using Hlo Same Hzero.
  intros Hp. destruct (peek0_at p ltac:(lia)) as (c & E0 & _ & _ & Hc). specialize (Hc ltac:(lia)).
  assert (Htag : (c =? 35) = true <-> is_at m0 cend (fun c => c =? 35) p) by exact (is_at_here (fun c => c =? 35) p c ltac:(lia) Hc).
  assert (Hb : exists cp, peek_char (-1) (m, at_ p) = Some (cp, (m, at_ p)) /\
    (((cp =? -1) || is_left_boundary cp) = true <-> p = lo \/ (lo < p /\ is_at m0 cend is_left_boundary (p - 1)))).
  { unfold peek_char. rewrite bind_cur. cbn [c_p c_start c_end]. destruct (Z.ltb_spec (p + -1) lo), (Z.leb_spec cend (p + -1)); cbn [orb]; try lia.
    - exists (-1). split; [done |]. split; [intros _; left; lia | done].
    - destruct (content_byte (p + -1) ltac:(lia)) as (b & Hb0 & Hb). exists b. rewrite (peek8_here _ _ _ _ Hb). split; [done |].
      replace (p - 1) with (p + -1) by lia. rewrite <- (is_at_here is_left_boundary (p + -1) b ltac:(lia) Hb0).
      destruct (Z.eqb_spec b (-1)) as [-> |]; cbn [orb]; [split; [intros _; right; split; [lia | done] | done] |].
      split; [intros H1; right; split; [lia | done] | intros [| [_ H1]]; [lia | done]]. }
  destruct Hb as (cp & E1 & Hb). exists cp, c. split; [done |]. split; [done |]. split; [done |].
  rewrite orb_true_iff, Hb, Htag. unfold candidate. tauto.
Qed.

End Reading.
