(* ===== verification/ContentBlocks.v ===== *)
(** * A content in blocks

    The parser of src/src/content_parser.c as a whole: it puts the pieces of a
    content and the text between them in blocks. *)

From S2P Require Import Prelude Cursor Reader Bech32 NostrBech32 Blocks Content Pieces.

Definition terminated (m : mem) (c : cursor) : Prop := load8 m (c_end c) = Some 0.

Ltac in_cursor := unfold cwf in *; cbn [c_start c_p c_end set_p fst snd] in *; lia.

Lemma terminated_end m c : terminated m c -> c_end c < zlen m.
Proof. intros H. apply load8_Some_range in H. lia. Qed.

(** ** Decoding in place

    The room a mention takes: the text has enough for its symbols and for its bytes. *)

Lemma count_data_range l : 0 <= count_data l <= zlen l.
Proof.
  induction l as [| x l IH]; cbn [count_data]; [done |]. rewrite zlen_cons.
  destruct (x =? 49); lia.
Qed.

Lemma hrp_high_run size input : forall chk lower upper hrp, zlen hrp + zlen input < size ->
  is_Some (decode_hrp_high size input chk lower upper hrp).
Proof.
  induction input as [| x input IH]; intros chk lower upper hrp H; cbn [decode_hrp_high].
  - change (@zlen Z []) with 0 in H. destruct (Z.ltb_spec (zlen hrp) size); [by eexists | lia].
  - rewrite zlen_cons in H. pose proof (zlen_nonneg input).
    destruct (_ || _); [by eexists |]. destruct (Z.leb_spec size (zlen hrp)); [lia |]. apply IH. rewrite zlen_app, zlen_cons. change (@zlen Z []) with 0. lia.
Qed.

Lemma decode_data_length input : forall chk lower upper, zlen (fst (decode_data input chk lower upper)) <= zlen input.
Proof.
  induction input as [| x input IH]; intros chk lower upper; cbn [decode_data]; [done |].
  assert (E : zlen (x :: input) = zlen input + 1) by (rewrite zlen_cons; lia).
  destruct (_ =? -1); cbn [fst]; [pose proof (zlen_nonneg input); change (@zlen Z []) with 0; lia |].
  set (v := default (-1) _) in *. set (chk' := Z.lxor _ _).
  pose proof (IH chk' (lower || is_lower x) (upper || is_upper x)) as H. destruct (6 <=? zlen input); [| lia].
  rewrite zlen_cons. lia.
Qed.

Lemma decode_data_exact input : forall chk lower upper data r, decode_data input chk lower upper = (data, Some r) ->
  zlen data = Z.max 0 (zlen input - 6).
Proof.
  induction input as [| x input IH]; intros chk lower upper data r H; cbn [decode_data] in H; [injection H as <- _; done |].
  destruct (_ =? -1); [discriminate H |]. set (v := default (-1) _) in *. set (rec := decode_data input _ _ _) in *.
  destruct rec as [data' r'] eqn:Er. cbn [fst snd] in H. injection H as <- ->. apply IH in Er. rewrite zlen_cons.
  pose proof (zlen_nonneg input). destruct (Z.leb_spec 6 (zlen input)); [rewrite zlen_cons |]; lia.
Qed.

(** A human readable part of up to eight characters fits in nine bytes. *)
(** A decoder that gives up leaves no more symbols than there are. *)
Ltac gives_up := eexists; split; [reflexivity |]; cbn [t_data t_data_len t_enc bech32_failed]; change (@zlen Z []) with 0;
  split; [lia |]; split; [lia | done].

Lemma decode_chars_run input : zlen input < 2 ^ 31 -> exists t, decode_chars 9 input MAX_PREFIX = Some t /\
  zlen (t_data t) <= zlen input /\ 0 <= t_data_len t <= zlen input /\ (t_enc t <> BECH32_ENCODING_NONE -> t_data_len t = zlen (t_data t)).
Proof.
  intros Hl. unfold decode_chars, MAX_PREFIX. pose proof (zlen_nonneg input). destruct (Z.ltb_spec (zlen input) 8); [gives_up |].
  pose proof (count_data_range (rev input)) as Hd. replace (zlen (rev input)) with (zlen input) in Hd by (unfold zlen; by rewrite length_rev).
  cbv zeta. set (data_len := count_data (rev input)) in *. set (hrp_len := u64 (zlen input - (1 + data_len))).
  change (u64 8) with 8. destruct (Z.ltb_spec 8 hrp_len); [gives_up |].
  destruct ((zlen input <=? 1 + data_len) || (data_len <? 6)) eqn:Eb; [gives_up |].
  apply orb_false_iff in Eb as [E1 E2]. apply Z.leb_gt in E1. apply Z.ltb_ge in E2.
  assert (Eh : hrp_len = zlen input - (1 + data_len)) by (apply Z.mod_small; lia).
  destruct (hrp_high_run 9 (take (Z.to_nat hrp_len) input) 1 false false []) as [[[[[chk lower] upper] hrp] |] Eh2].
  { rewrite zlen_take. change (@zlen Z []) with 0. lia. }
  all: rewrite Eh2, obind.
  2: gives_up.
  set (chk' := encode_hrp_low _ _). set (rest := drop (Z.to_nat (hrp_len + 1)) input).
  assert (Hr : zlen rest = data_len) by (unfold rest, zlen in *; rewrite length_drop; lia).
  pose proof (decode_data_length rest chk' lower upper) as Hdd. pose proof (decode_data_exact rest chk' lower upper) as Hde.
  destruct (decode_data rest chk' lower upper) as [data r]. cbn [fst] in Hdd. destruct r as [[[chk2 lo] up] |]; [| gives_up].
  specialize (Hde data _ eq_refl). destruct (lo && up); [gives_up |].
  destruct (chk2 =? 1); [| destruct (chk2 =? _)]; eexists; (split; [reflexivity |]); cbn [t_data t_data_len t_enc bech32_failed];
    (split; [lia |]); (split; [lia |]); intros; lia || done.
Qed.

Lemma emit_bits_count fuel val w maxv : 0 < w -> forall bits, 0 <= bits ->
  let r := emit_bits fuel val bits w maxv in w * zlen (fst r) + snd r = bits /\ 0 <= snd r.
Proof.
  intros Hw. induction fuel as [| fuel IH]; intros bits Hb; cbn [emit_bits]; [cbn; change (@zlen Z []) with 0; lia |].
  destruct (Z.leb_spec w bits); [| cbn; change (@zlen Z []) with 0; lia].
  specialize (IH (bits - w) ltac:(lia)). cbv zeta in *. cbn [fst snd]. set (l := fst _) in *. set (x := Z.land _ _).
  rewrite zlen_cons. lia.
Qed.

Lemma convert_loop_count input win w maxv : 0 < w -> 0 <= win -> forall val bits, 0 <= bits ->
  let r := convert_loop input win w maxv val bits in w * zlen (fst r) + snd (snd r) = bits + win * zlen input /\ 0 <= snd (snd r).
Proof.
  intros Hw Hi. induction input as [| b input IH]; intros val bits Hb; cbn [convert_loop]; [cbn; change (@zlen Z []) with 0; lia |].
  rewrite zlen_cons. cbv zeta.
  pose proof (emit_bits_count (Z.to_nat (bits + win)) (Z.lor (u32 (Z.shiftl val win)) b) w maxv Hw (bits + win) ltac:(lia)) as H1.
  cbv zeta in H1. destruct (emit_bits _ _ _ _ _) as [out bits']. cbn [fst snd] in H1.
  specialize (IH (Z.lor (u32 (Z.shiftl val win)) b) bits' ltac:(lia)). cbv zeta in IH.
  destruct (convert_loop _ _ _ _ _ _) as [rest [v n]]. cbn [fst snd] in *. rewrite zlen_app. lia.
Qed.

Lemma convert_length input : zlen (fst (convert_chars input 8 5 false)) <= zlen input.
Proof.
  unfold convert_chars. set (maxv := u32 _). pose proof (convert_loop_count input 5 8 maxv ltac:(lia) ltac:(lia) 0 0 ltac:(lia)) as H.
  cbv zeta in H. destruct (convert_loop _ _ _ _ _ _) as [out [val bits]]. cbn [fst snd] in *. pose proof (zlen_nonneg input). lia.
Qed.

Lemma frame_store_at m c a bs m' : cwf (m, c) -> storen m a bs = Some m' -> c_p c <= a -> a + zlen bs <= c_end c ->
  frame (m, c) (m', c).
Proof.
  intros W Hm Ha He. unfold frame. cbn [fst snd]. unfold cwf in W. cbn in W. repeat split; try lia; [by eapply storen_length |].
  intros x Hx. rewrite (load8_storen _ _ _ _ x Hm). destruct (Z.leb_spec a x), (Z.ltb_spec x (a + zlen bs)); cbn [andb]; [lia | done..].
Qed.

(** The bytes a text stands for, unless it is no bech32 or they are too many for
    their size field. *)
Definition bech32_bytes (l : list Z) : option (list Z) :=
  t ← decode_chars 9 l MAX_PREFIX;
  if bool_decide (t_enc t = BECH32_ENCODING_NONE) then None
  else
    let '(bytes, ok) := convert_chars (take (Z.to_nat (t_data_len t)) (t_data t)) 8 5 false in
    if ok && (zlen bytes <=? 2 ^ 16 - 1) then Some bytes else None.

(** After a success: the bytes are at [u8], their number at [u8_size], and the cursor behind them. *)
Lemma decode_mention_run s l u8_size a m c c0 : loadn m (sb_str s) (sb_len s) = Some l -> cwf (m, c) -> 0 <= sb_str s -> 0 <= sb_len s < 2 ^ 31 -> sb_str s + sb_len s <= zlen m ->
  cwf (m, c0) -> c_end c0 = c_end c -> c_start c0 = c_start c -> c_p c0 <= u8_size -> u8_size + 2 <= a -> a + sb_len s + sb_len s = c_p c ->
  exists ok m' p, decode_mention s u8_size (make_cursor a (a + sb_len s)) (make_cursor (a + sb_len s) (a + sb_len s + sb_len s)) (m, c)
    = Some (ok, (m', set_p c p)) /\
    frame (m, c0) (m', set_p c p) /\ (ok = false -> bech32_bytes l = None) /\
    (ok = true -> exists bytes m1 m2, bech32_bytes l = Some bytes /\ zlen bytes < 2 ^ 16 /\ p = a + zlen bytes /\ a + zlen bytes <= c_end c /\
       (forall b n, b + n <= a -> loadn m1 b n = loadn m b n) /\ storen m1 a bytes = Some m2 /\
       storen m2 u8_size (le_bytes 2 (zlen bytes)) = Some m').
Proof.
  intros Hload W Hs Hl Hm W0 Ee Es Hu Ha Hp. unfold decode_mention, bech32_decode_len. cbn [make_cursor c_p c_start].
  rewrite bind_bind, (bind_peekn _ _ _ _ _ _ Hload). pose proof (loadn_length _ _ _ _ Hload) as El.
  destruct (decode_chars_run l ltac:(lia)) as (t & Et & Hd & Hn & Hex). rewrite bind_bind, (run_lift _ t) by exact Et.
  unfold bech32_bytes. rewrite Et, obind.
  destruct (storen_in_range m (a + sb_len s) (t_data t) ltac:(in_cursor) ltac:(in_cursor)) as [m1 Hm1].
  rewrite bind_bind, (run_poke _ _ _ _ _ _ Hm1), run_ret. pose proof (storen_length _ _ _ _ Hm1) as L1.
  assert (F1 : frame (m, c0) (m1, c0)) by (eapply frame_store_at; [done | exact Hm1 | lia | in_cursor]).
  assert (Hback : forall m' p, frame (m, c0) (m', c0) -> c_p c0 <= p <= c_end c0 -> frame (m, c0) (m', set_p c p)).
  { intros m' p F Hr. eapply frame_trans; [exact F |]. replace (set_p c p) with (set_p c0 p) by (unfold set_p; by rewrite Ee, Es).
    by apply frame_goto. }
  case_bool_decide as Henc.
  { exists false, m1, (c_p c). rewrite set_p_id. split; [done |]. split; [| done]. rewrite <- (set_p_id c). apply Hback; [done | in_cursor]. }
  specialize (Hex Henc). assert (E5 : loadn m1 (a + sb_len s) (t_data_len t) = Some (t_data t)) by (rewrite Hex; by eapply loadn_storen_same).
  unfold bech32_convert_bits. rewrite bind_bind, (bind_peekn _ _ _ _ _ _ E5).
  rewrite (take_ge (t_data t)) by (unfold zlen in Hex; lia).
  pose proof (convert_length (t_data t)) as Hc. destruct (convert_chars (t_data t) 8 5 false) as [bytes ok]. cbn [fst] in Hc.
  destruct (storen_in_range m1 a bytes ltac:(in_cursor) ltac:(in_cursor)) as [m2 Hm2]. pose proof (storen_length _ _ _ _ Hm2) as L2.
  rewrite bind_bind, (run_poke _ _ _ _ _ _ Hm2), run_ret.
  assert (F2 : frame (m, c0) (m2, c0)).
  { eapply frame_trans; [exact F1 |]. eapply frame_store_at; [| exact Hm2 | lia | in_cursor]. by eapply frame_cwf. }
  destruct ok; cbn [negb andb].
  2: { exists false, m2, (c_p c). rewrite set_p_id. split; [done |]. split; [| done]. rewrite <- (set_p_id c). apply Hback; [done | in_cursor]. }
  rewrite bind_goto. pose proof (zlen_nonneg bytes). rewrite Z.leb_antisym.
  destruct (Z.ltb_spec (2 ^ 16 - 1) (zlen bytes)); cbn [negb].
  { exists false, m2, (a + zlen bytes). split; [done |]. split; [| done]. apply Hback; [done | in_cursor]. }
  destruct (storen_in_range m2 u8_size (le_bytes 2 (zlen bytes)) ltac:(in_cursor) ltac:(rewrite zlen_le_bytes; in_cursor)) as [m3 Hm3].
  rewrite (run_poke _ _ _ _ _ _ Hm3). exists true, m3, (a + zlen bytes). split; [done |]. split.
  { apply Hback; [| in_cursor]. eapply frame_trans; [exact F2 |].
    eapply frame_store_at; [by eapply frame_cwf | exact Hm3 | lia | rewrite zlen_le_bytes; in_cursor]. }
  split; [done |]. intros _. exists bytes, m1, m2. split; [done |]. split; [lia |]. split; [done |]. split; [in_cursor |]. split; [| done].
  intros b n Hb. apply (loadn_storen_other _ _ _ _ _ _ Hm1). lia.
Qed.

(** A string of the content, which ends with a zero. *)
Definition text_at (m : mem) (s : ndb_str_block) : Prop :=
  0 <= sb_str s /\ 0 <= sb_len s < 2 ^ 31 /\ exists e, sb_str s + sb_len s <= e < zlen m /\ load8 m e = Some 0.

Lemma bind_skip {B} n m c (k : bool -> CM B) :
  bind (cursor_skip n) k (m, c) = if c_end c <=? c_p c + n then k false (m, c) else k true (m, set_p c (c_p c + n)).
Proof. unfold cursor_skip. rewrite bind_bind, bind_cur. by destruct (c_end c <=? c_p c + n). Qed.

Lemma bind_slice {B} n m c (k : option cursor -> CM B) :
  bind (cursor_malloc_slice n) k (m, c) =
  if c_end c <? c_p c + n then k None (m, c) else k (Some (make_cursor (c_p c) (c_p c + n))) (m, set_p c (c_p c + n)).
Proof. unfold cursor_malloc_slice, cursor_malloc. rewrite !bind_bind, bind_cur. by destruct (c_end c <? c_p c + n). Qed.

Lemma frame_to m0 c0 m c p : frame (m0, c0) (m, c) -> c_p c0 <= p <= c_end c0 -> frame (m0, c0) (m, set_p c p).
Proof. unfold frame. cbn. intros (A & B & C & D & E) H. repeat split; auto; lia. Qed.

(** What has been stored by a success. *)
Definition stored_from (s : mem * cursor) (d : list Z) (s' : mem * cursor) : Prop :=
  loadn (fst s') (c_p (snd s)) (zlen d) = Some d /\ c_p (snd s') = c_p (snd s) + zlen d.

Lemma pushed_stored s d s' : pushed s d s' -> stored_from s d s'.
Proof. intros P. split; [by apply pushed_loadn |]. destruct P as [_ ->]. done. Qed.

Definition mention_bytes (content : Z) (s : ndb_str_block) (type : nostr_bech32_type) (bytes : list Z) : list Z :=
  str_bytes content s ++ le_bytes 2 (zlen bytes) ++ varint (bech32_type_num type) ++ bytes.

(** The pieces of a mention, written at different times. *)
Lemma mention_pieces m0 m1 m3 m4 m5 m6 p x v bytes e :
  storen m0 p x = Some m1 -> storen m1 (p + zlen x + 2) v = Some m3 ->
  (forall b n, b + n <= e -> loadn m4 b n = loadn m3 b n) -> e = p + zlen x + 2 + zlen v -> storen m4 e bytes = Some m5 ->
  storen m5 (p + zlen x) (le_bytes 2 (zlen bytes)) = Some m6 ->
  loadn m6 p (zlen (x ++ le_bytes 2 (zlen bytes) ++ v ++ bytes)) = Some (x ++ le_bytes 2 (zlen bytes) ++ v ++ bytes).
Proof.
  intros H1 H3 H4 -> H5 H6. rewrite !zlen_app. pose proof (zlen_le_bytes 2 (zlen bytes)) as L. change (Z.of_nat 2) with 2 in L.
  pose proof (zlen_nonneg x). pose proof (zlen_nonneg v).
  apply loadn_app; [| apply loadn_app; [| apply loadn_app]].
  - rewrite (loadn_storen_other _ _ _ _ p (zlen x) H6) by lia. rewrite (loadn_storen_other _ _ _ _ p (zlen x) H5) by lia.
    rewrite H4 by lia. rewrite (loadn_storen_other _ _ _ _ p (zlen x) H3) by lia. by eapply loadn_storen_same.
  - by eapply loadn_storen_same.
  - rewrite L. rewrite (loadn_storen_other _ _ _ _ _ (zlen v) H6) by lia. rewrite (loadn_storen_other _ _ _ _ _ (zlen v) H5) by lia.
    rewrite H4 by lia. by eapply loadn_storen_same.
  - rewrite L. rewrite (loadn_storen_other _ _ _ _ _ (zlen bytes) H6) by lia. by eapply loadn_storen_same.
Qed.

(** ** Writers that have room

    With a byte to spare a writer succeeds. *)
Class Fits (w : CM bool) (d : list Z) : Prop :=
  fits_run : forall s, cwf s -> c_p (snd s) + zlen d < c_end (snd s) -> exists s', w s = Some (true, s') /\ pushed s d s'.

Lemma Emits_Fits w d r : Emits w d r -> r <= zlen d + 1 -> Fits w d.
Proof. intros E Hr s W Hs. apply (emits_ok (Emits := E)); [done | lia]. Qed.

#[export] Instance Fits_push_byte b : Fits (cursor_push_byte b) [b].
Proof. eapply Emits_Fits; [apply _ | done]. Qed.

#[export] Instance Fits_push d : Fits (cursor_push d) d.
Proof. eapply Emits_Fits; [apply _ | lia]. Qed.

#[export] Instance Fits_push_c_str s : Fits (cursor_push_c_str (Some s)) (s ++ [0]).
Proof. eapply Emits_Fits; [apply _ |]. rewrite zlen_app. change (zlen [0]) with 1. lia. Qed.

#[export] Instance Fits_varint_test n : Fits (push_varint_test n) (varint n).
Proof.
  intros s W Hs. destruct (push_varint_test_run n s W) as (s' & E & F & [P | Hf]); [eauto |].
  exists s'. split; [done |]. destruct (cursor_push_varint_spec n s W) as [A _]. destruct (A ltac:(lia)) as (s1 & E1 & P).
  unfold push_varint_test in E. rewrite (run_bind _ _ _ _ _ E1) in E. unfold ret in E. injection E as E. by subst s1.
Qed.

#[export] Instance Fits_andM w1 d1 w2 d2 : Fits w1 d1 -> Fits w2 d2 -> Fits (w1 &&* w2) (d1 ++ d2).
Proof.
  intros H1 H2 s W Hs. rewrite zlen_app in Hs. pose proof (zlen_nonneg d2). destruct (H1 s W ltac:(lia)) as (s1 & E1 & P1).
  assert (F1 : frame s s1) by (eapply pushed_frame; [done | | exact P1]; lia).
  destruct (H2 s1 (frame_cwf _ _ W F1)) as (s2 & E2 & P2).
  { destruct F1 as (_ & -> & _). destruct P1 as [_ ->]. cbn [c_p set_p]. lia. }
  exists s2. unfold andM. rewrite (run_bind _ _ _ _ _ E1). split; [done | by eapply pushed_app].
Qed.

#[export] Instance Fits_str_block content s : Fits (push_str_block content s) (str_bytes content s).
Proof. apply Fits_andM; apply _. Qed.

Lemma Fits_invoice b : invoice_ok b -> Fits (ndb_encode_invoice b) (invoice_bytes b).
Proof.
  intros (_ & _ & _ & H). unfold ndb_encode_invoice, invoice_bytes, invoice_head.
  destruct (b11_description b) as [d |].
  - rewrite <- !app_assoc. repeat (apply Fits_andM; [apply _ |]). apply _.
  - destruct (b11_description_hash b) as [h |]; [| done].
    rewrite <- !app_assoc. repeat (apply Fits_andM; [apply _ |]). apply _.
Qed.

(** A success with room has written everything. *)
Lemma fits_pushed w d s ok s' : Fits w d -> cwf s -> c_p (snd s) + zlen d < c_end (snd s) -> w s = Some (ok, s') -> ok = true /\ pushed s d s'.
Proof. intros H W Hs E. destruct (H s W Hs) as (s1 & E1 & P). rewrite E in E1. by injection E1 as -> ->. Qed.

Lemma frame_loadn m c m' c' a n : frame (m, c) (m', c') -> a + n <= c_p c \/ c_end c <= a -> loadn m' a n = loadn m a n.
Proof.
  intros (_ & _ & _ & Hz & Hx) Ha. cbn [fst snd] in *. destruct (loadn m a n) as [l |] eqn:E.
  - pose proof (loadn_length _ _ _ _ E). pose proof E as (?&?&?&_)%loadn_Some. apply loadn_ext; try lia.
    intros i Hi. rewrite Hx by lia. by apply (loadn_load8 m a n).
  - unfold loadn in *. rewrite Hz. by destruct (_ && _).
Qed.

(** ** Mentions *)

(** The room a mention of this text is given: its text for the bytes and for the symbols. *)
Definition mention_room (content : Z) (s : ndb_str_block) (type : nostr_bech32_type) : Z :=
  zlen (str_bytes content s) + 2 + zlen (varint (bech32_type_num type)) + sb_len s + sb_len s.

Lemma try_mention_run content s l type n m c : cwf (m, c) -> 0 <= sb_str s -> 0 < sb_len s < 2 ^ 31 ->
  loadn m (sb_str s) (sb_len s) = Some l -> (forall c, parse_nostr_bech32_type (sb_str s) (m, c) = Some (Some (type, n), (m, c))) ->
  sb_str s + sb_len s <= c_p c \/ c_end c <= sb_str s ->
  exists ok s', try_bech32_mention content s (m, c) = Some (ok, s') /\ frame (m, c) s' /\
    (ok = false -> bech32_bytes l = None \/ c_end c <= c_p c + mention_room content s type) /\
    (ok = true -> exists bytes, bech32_bytes l = Some bytes /\ zlen bytes < 2 ^ 16 /\ stored_from (m, c) (mention_bytes content s type bytes) s').
Proof.
  intros W Hs Hpos Hload Htype Hap. unfold try_bech32_mention. rewrite (run_bind _ _ _ _ _ (Htype c)).
  pose proof (zlen_nonneg (str_bytes content s)). pose proof (zlen_nonneg (varint (bech32_type_num type))).
  destruct (pushes_run (w := push_str_block content s) (m, c) W) as (ok & s1 & E & F & Hp). unfold andM.
  rewrite (run_bind _ _ _ _ _ E).
  assert (Hroom1 : c_p c + mention_room content s type < c_end c -> ok = true /\ pushed (m, c) (str_bytes content s) s1).
  { intros Hr. eapply fits_pushed; [apply _ | done | | exact E]. unfold mention_room in Hr. cbn. lia. }
  assert (Hwhy : forall P : Prop, (c_p c + mention_room content s type < c_end c -> False) -> P \/ c_end c <= c_p c + mention_room content s type) by lia.
  destruct ok; [specialize (Hp eq_refl) | exists false, s1; split; [done |]; split; [done |]; split; [| done]; intros _; apply Hwhy; intros Hr; by apply Hroom1 in Hr as [? _]].
  destruct s1 as [m1 c1].
  rewrite bind_cur. cbv zeta. pose proof (frame_cwf _ _ W F) as W1. rewrite bind_skip.
  assert (Hc1 : c_p c + mention_room content s type < c_end c -> c_p c1 = c_p c + zlen (str_bytes content s) /\ c_end c1 = c_end c).
  { intros Hr. apply Hroom1 in Hr as [_ [_ Ec]]. cbn in Ec. by subst c1. }
  destruct (Z.leb_spec (c_end c1) (c_p c1 + 2)) as [| Hskip].
  { exists false, (m1, c1). split; [done |]. split; [done |]. split; [| done]. intros _. apply Hwhy. intros Hr. destruct (Hc1 Hr). unfold mention_room in Hr. lia. }
  set (c2 := set_p c1 (c_p c1 + 2)).
  assert (W2 : cwf (m1, c2)) by (unfold c2; in_cursor).
  assert (F2 : frame (m, c) (m1, c2)) by (eapply frame_trans; [exact F | apply frame_goto; in_cursor]).
  destruct Hp as [[P1 P2] | Hf]; [| unfold full in Hf; cbn in Hf; lia]. cbn [fst snd] in *.
  destruct (push_varint_test_run (bech32_type_num type) (m1, c2) W2) as ([m3 c3] & E3 & F3 & Hp3). rewrite (run_bind _ _ _ _ _ E3).
  pose proof (frame_trans _ _ _ F2 F3) as F03. pose proof (frame_cwf _ _ W F03) as W3.
  assert (Hc3 : c_p c + mention_room content s type < c_end c -> c_p c3 = c_p c + zlen (str_bytes content s) + 2 + zlen (varint (bech32_type_num type)) /\ c_end c3 = c_end c).
  { intros Hr. destruct (Hc1 Hr) as [H1 H2].
    destruct (fits_pushed _ _ (m1, c2) true (m3, c3) (Fits_varint_test (bech32_type_num type)) W2) as [_ [_ Ec]]; [unfold mention_room in Hr; cbn; lia | done |]. cbn in Ec. subst c3. cbn. lia. }
  rewrite bind_slice.
  destruct (Z.ltb_spec (c_end c3) (c_p c3 + sb_len s)) as [| Hr1].
  { exists false, (m3, c3). split; [done |]. split; [done |]. split; [| done]. intros _. apply Hwhy. intros Hr. destruct (Hc3 Hr). unfold mention_room in Hr. lia. }
  rewrite bind_slice. cbn [c_p c_end set_p].
  destruct (Z.ltb_spec (c_end c3) (c_p c3 + sb_len s + sb_len s)) as [| Hr2].
  { exists false, (m3, set_p c3 (c_p c3 + sb_len s)). split; [done |]. split; [apply frame_to; [done |]; destruct F03 as (_ & ? & ? & _); cbn in *; lia |].
    split; [| done]. intros _. apply Hwhy. intros Hr. destruct (Hc3 Hr). unfold mention_room in Hr. lia. }
  destruct Hp3 as [[P3 P4] | Hf]; [| unfold full in Hf; cbn in Hf; lia]. cbn [fst snd] in *.
  assert (Hload3 : loadn m3 (sb_str s) (sb_len s) = Some l) by (rewrite <- Hload; eapply frame_loadn; [exact F03 | done]).
  pose proof Hload3 as (_ & _ & Hin3 & _)%loadn_Some.
  pose proof F03 as (Es & Ee & Hc & Hm & _). pose proof F3 as (_ & _ & Hcp3 & Hm3 & _). pose proof F2 as (_ & _ & _ & Hm2 & _).
  pose proof F as (_ & _ & Hcp1 & _). cbn [fst snd] in *.
  rewrite !set_p_set_p.
  destruct (decode_mention_run s l (c_p c1) (c_p c3) m3 (set_p c3 (c_p c3 + sb_len s + sb_len s)) (set_p c3 (c_p c)))
    as (ok & m6 & q & E6 & F6 & Hno & Hok); try (unfold c2 in *; in_cursor); [done |].
  rewrite E6. exists ok, (m6, set_p c3 q). split; [done |]. split.
  { eapply frame_trans; [| exact F6]. apply (frame_to _ _ _ _ (c_p c)) in F03; [done |]. in_cursor. }
  split; [intros Ht; left; by apply Hno |].
  intros Ht. destruct (Hok Ht) as (bytes & m4 & m5 & Hbytes & Hb & -> & _ & H4 & H5 & H6). exists bytes. split; [done |]. split; [done |].
  assert (Ev : c_p c3 = c_p c + zlen (str_bytes content s) + 2 + zlen (varint (bech32_type_num type))).
  { rewrite P4. unfold c2. cbn [c_p set_p]. rewrite P2. cbn [c_p set_p]. lia. }
  unfold c2 in *. rewrite P2 in *. cbn [c_p set_p] in *. split; cbn [fst snd c_p set_p].
  - exact (mention_pieces m m1 m3 m4 m5 m6 (c_p c) _ _ bytes (c_p c3) P1 P3 H4 Ev H5 H6).
  - unfold mention_bytes. rewrite !zlen_app, zlen_le_bytes. rewrite Ev. lia.
Qed.

(** ** What a writer leaves in the buffer

    After a success it is one of the encodings allowed, or the buffer is full;
    there is a reason for a failure. *)

Definition puts (w : CM bool) (D : list Z -> Prop) (R : Prop) (s : mem * cursor) : Prop :=
  exists ok s', w s = Some (ok, s') /\ frame s s' /\ (ok = true -> full s' \/ exists d, D d /\ stored_from s d s') /\ (ok = false -> R).

Lemma puts_pushes w d s : Pushes w d -> cwf s -> puts w (eq d) True s.
Proof.
  intros P W. destruct (P s W) as (ok & s' & E & F & Hp). exists ok, s'. split; [done |]. split; [done |]. split; [| done]. intros Ht.
  destruct (Hp Ht) as [Q | Q]; [right | by left]. exists d. split; [done | by apply pushed_stored].
Qed.

Lemma puts_mention content s l type n m c : cwf (m, c) -> 0 <= sb_str s -> 0 < sb_len s < 2 ^ 31 ->
  loadn m (sb_str s) (sb_len s) = Some l -> (forall c, parse_nostr_bech32_type (sb_str s) (m, c) = Some (Some (type, n), (m, c))) ->
  sb_str s + sb_len s <= c_p c \/ c_end c <= sb_str s ->
  puts (push_bech32_mention content s)
    (fun d => exists bytes, bech32_bytes l = Some bytes /\ zlen bytes < 2 ^ 16 /\ d = mention_bytes content s type bytes)
    (bech32_bytes l = None \/ c_end c <= c_p c + mention_room content s type) (m, c).
Proof.
  intros W H1 H2 H3 H4 H5. destruct (try_mention_run content s l type n m c W H1 H2 H3 H4 H5) as (ok & [m' c'] & E & F & Hno & Hok).
  unfold puts, push_bech32_mention, or_back. rewrite bind_cur, (run_bind _ _ _ _ _ E). destruct ok.
  - exists true, (m', c'). split; [done |]. split; [done |]. split; [| done]. intros _. right. destruct (Hok eq_refl) as (bytes & Hl & Hb & P).
    exists (mention_bytes content s type bytes). eauto 10.
  - rewrite bind_goto. exists false, (m', set_p c' (c_p c)). split; [done |]. split; [apply frame_to; [done | in_cursor] |]. split; [done |]. intros _. by apply Hno.
Qed.

Lemma c_string_run l i : l !! i = Some 0 -> is_Some (c_string l).
Proof.
  revert i. induction l as [| x l IH]; intros i H; [done |]. cbn [c_string]. destruct (Z.eqb_spec x 0); [by eexists |].
  destruct i as [| i]; [cbn in H; congruence |]. destruct (IH i H) as [s ->]. by eexists.
Qed.

(** What the invoice decoder is to give: fields at their width, a description
    without zeros and a hash of 32 bytes. *)
Definition decoded_ok (b : bolt11) : Prop :=
  is_u64 (default 0 (b11_msat b)) /\ is_u64 (b11_timestamp b) /\ is_u64 (b11_expiry b) /\
  (forall d, b11_description b = Some d -> Forall (fun x => x <> 0) d) /\ (forall h, b11_description_hash b = Some h -> zlen h = 32).

Lemma encode_needs_description b s s' : decoded_ok b -> ndb_encode_invoice b s = Some (true, s') -> invoice_ok b.
Proof.
  intros (H1 & H2 & H3 & H4 & H5) E. unfold invoice_ok. do 3 (split; [done |]).
  unfold ndb_encode_invoice in E. destruct (b11_description b) as [d |]; [by apply H4 |].
  destruct (b11_description_hash b) as [h |]; [by apply H5 | discriminate E].
Qed.

Lemma puts_invoice decode content s l m c : (forall t b, decode t = Some b -> decoded_ok b) -> cwf (m, c) ->
  read_c_string (sb_str s) (m, c) = Some (l, (m, c)) ->
  puts (push_invoice_str decode content s)
    (fun d => exists b, decode l = Some b /\ invoice_ok b /\ d = str_bytes content s ++ invoice_bytes b)
    (forall b, decode l = Some b -> invoice_ok b -> c_end c <= c_p c + zlen (str_bytes content s ++ invoice_bytes b)) (m, c).
Proof.
  intros Hd W E. unfold puts, push_invoice_str. rewrite (run_bind _ _ _ _ _ E).
  destruct (decode l) as [b |] eqn:Eb; [| exists false, (m, c); split; [done |]; split; [by apply frame_refl | done]].
  rewrite bind_cur. cbv zeta. destruct (pushes_run (w := push_str_block content s) (m, c) W) as (ok & s1 & E1 & F1 & P1).
  unfold andM. rewrite (run_bind _ _ _ _ _ E1).
  assert (Hroom : forall b', Some b = Some b' -> invoice_ok b' -> c_p c + zlen (str_bytes content s ++ invoice_bytes b') < c_end c ->
    b' = b /\ ok = true /\ exists s', ndb_encode_invoice b s1 = Some (true, s')).
  { intros b' [= <-] Hi Hr. rewrite zlen_app in Hr. pose proof (zlen_nonneg (invoice_bytes b)). split; [done |].
    destruct (fits_pushed _ _ _ _ _ (Fits_str_block content s) W ltac:(cbn; lia) E1) as [-> P]. split; [done |].
    destruct (Fits_invoice b Hi s1 (frame_cwf _ _ W F1)) as (s' & E2 & _); [| by exists s'].
    destruct P as [_ ->]. cbn [c_p c_end set_p snd]. lia. }
  assert (Hwhy : (forall b', Some b = Some b' -> invoice_ok b' -> c_p c + zlen (str_bytes content s ++ invoice_bytes b') < c_end c -> False) ->
    forall b', Some b = Some b' -> invoice_ok b' -> c_end c <= c_p c + zlen (str_bytes content s ++ invoice_bytes b')).
  { intros H b' Hb Hi. destruct (Z.le_gt_cases (c_end c) (c_p c + zlen (str_bytes content s ++ invoice_bytes b'))); [done |]. destruct (H b' Hb Hi). lia. }
  destruct ok; [specialize (P1 eq_refl) | exists false, s1; split; [done |]; split; [done |]; split; [done |]; intros _; apply Hwhy;
    intros b' Hb Hi Hr; by destruct (Hroom b' Hb Hi Hr) as (_ & ? & _)].
  destruct (pushes_run (w := ndb_encode_invoice b) s1 (frame_cwf _ _ W F1)) as (ok & s2 & E2 & F2 & P2).
  pose proof (frame_trans _ _ _ F1 F2) as F. rewrite (run_bind _ _ _ _ _ E2). destruct ok; cbn [negb].
  - exists true, s2. split; [done |]. split; [done |]. split; [| done]. intros _. destruct (P2 eq_refl) as [Q2 | Q2]; [| by left].
    destruct P1 as [Q1 | Q1]; [| left; exact (frame_full _ _ F2 Q1)].
    right. exists (str_bytes content s ++ invoice_bytes b). split.
    + exists b. split; [done |]. split; [| done]. eapply encode_needs_description; [by eapply Hd | exact E2].
    + apply pushed_stored. by eapply pushed_app.
  - destruct s2 as [m2 c2]. rewrite bind_goto. exists false, (m2, set_p c2 (c_p c)). split; [done |]. split; [apply frame_to; [done | in_cursor] |].
    split; [done |]. intros _. apply Hwhy. intros b' Hb Hi Hr. destruct (Hroom b' Hb Hi Hr) as (_ & _ & s' & E2'). congruence.
Qed.

(** ** The parser's state

    Buffer and content are apart, the buffer starts with the header, and the
    content ends with a zero. *)

Definition pwf (p : ndb_content_parser) : Prop :=
  cwf (p_mem p, p_buffer p) /\ cwf (p_mem p, p_content p) /\ terminated (p_mem p) (p_content p) /\
  p_blocks p = c_start (p_buffer p) /\ p_blocks p + off_blocks <= c_p (p_buffer p) /\
  (c_end (p_content p) < p_blocks p \/ c_end (p_buffer p) <= c_start (p_content p)) /\
  c_end (p_content p) - c_start (p_content p) < 2 ^ 31.

(** Only the header and what is free of the buffer change, and both cursors move forward. *)
Definition moved (p p' : ndb_content_parser) : Prop :=
  p_blocks p' = p_blocks p /\ c_start (p_content p') = c_start (p_content p) /\ c_end (p_content p') = c_end (p_content p) /\
  c_p (p_content p) <= c_p (p_content p') <= c_end (p_content p) /\
  c_start (p_buffer p') = c_start (p_buffer p) /\ c_end (p_buffer p') = c_end (p_buffer p) /\
  c_p (p_buffer p) <= c_p (p_buffer p') <= c_end (p_buffer p) /\ zlen (p_mem p') = zlen (p_mem p) /\
  forall x, x < p_blocks p \/ p_blocks p + off_blocks <= x < c_p (p_buffer p) \/ c_end (p_buffer p) <= x ->
    load8 (p_mem p') x = load8 (p_mem p) x.

Lemma moved_here p : pwf p -> moved p p.
Proof. intros (W & V & _). unfold moved. repeat split; in_cursor. Qed.

Lemma moved_trans p1 p2 p3 : moved p1 p2 -> moved p2 p3 -> moved p1 p3.
Proof.
  unfold moved. intros (A1 & A2 & A3 & A4 & A5 & A6 & A7 & A8 & A9) (B1 & B2 & B3 & B4 & B5 & B6 & B7 & B8 & B9).
  repeat split; try lia. intros x Hx. rewrite B9 by lia. apply A9. lia.
Qed.

Lemma moved_pwf p p' : pwf p -> moved p p' -> pwf p'.
Proof.
  intros (W & V & T & S & H & D & L) (A1 & A2 & A3 & A4 & A5 & A6 & A7 & A8 & A9). unfold pwf, terminated in *.
  rewrite A3, A9 by (unfold cwf in *; cbn in *; lia). unfold cwf in *. cbn [fst snd] in *. repeat split; try lia; done.
Qed.

(** The content, which a memory holds, stays as it is. *)
Definition reads (m : mem) (p : ndb_content_parser) : Prop :=
  forall x, c_start (p_content p) <= x <= c_end (p_content p) -> load8 (p_mem p) x = load8 m x.

Lemma reads_moved m p p' : pwf p -> moved p p' -> reads m p -> reads m p'.
Proof.
  intros (W & V & _ & S & H & D & _) (_ & A2 & A3 & _ & _ & _ & _ & _ & A9) Hr x Hx. unfold cwf in *. cbn [fst snd] in *.
  rewrite A9 by lia. apply Hr. lia.
Qed.

Lemma reads_zero m p : pwf p -> reads m p -> load8 m (c_end (p_content p)) = Some 0.
Proof. intros (W & V & T & _) Hr. unfold cwf in V. cbn in V. rewrite <- Hr by lia. exact T. Qed.

Definition fullP (p : ndb_content_parser) : Prop := c_p (p_buffer p) = c_end (p_buffer p).

Lemma moved_full p p' : moved p p' -> fullP p -> fullP p'.
Proof. unfold moved, fullP. intuition lia. Qed.

Definition held (p : ndb_content_parser) (a : Z) (d : list Z) : Prop := loadn (p_mem p) a (zlen d) = Some d.

Lemma held_moved p p' a d : held p a d -> moved p p' -> p_blocks p + off_blocks <= a -> a + zlen d <= c_p (p_buffer p) -> held p' a d.
Proof.
  unfold held. intros H (_ & _ & _ & _ & _ & _ & _ & A8 & A9) Ha Hp. pose proof H as (? & ? & ? & _)%loadn_Some.
  apply loadn_ext; [lia | lia | done |]. intros i Hi. rewrite A9 by lia. by eapply loadn_load8.
Qed.

Lemma held_app p a d1 d2 : held p a d1 -> held p (a + zlen d1) d2 -> held p a (d1 ++ d2).
Proof. unfold held. rewrite zlen_app. apply loadn_app. Qed.

(** What a step may leave: where the content cursor is does not matter. *)
Definition outcome (N : list Z -> Prop) (p : ndb_content_parser) (ok : bool) (p' : ndb_content_parser) : Prop :=
  moved p p' /\ p_content p' = p_content p /\
  (ok = true -> fullP p' \/ exists d, N d /\ c_p (p_buffer p') = c_p (p_buffer p) + zlen d /\ held p' (c_p (p_buffer p)) d).

Lemma moved_frame p m b : pwf p -> frame (p_mem p, p_buffer p) (m, b) -> moved p (mk_parser m b (p_content p) (p_blocks p)).
Proof.
  intros (W & V & _ & S & H & _) (A & B & C & D & E). unfold moved, cwf in *. cbn [fst snd p_mem p_buffer p_content p_blocks] in *.
  repeat split; try lia. intros x Hx. apply E. unfold off_blocks in *. lia.
Qed.

Lemma on_buffer_puts w N R p : pwf p -> puts w N R (p_mem p, p_buffer p) ->
  exists ok p', on_buffer w p = Some (ok, p') /\ outcome N p ok p' /\ (ok = false -> R).
Proof.
  intros W (ok & [m b] & E & F & H & HR). exists ok, (mk_parser m b (p_content p) (p_blocks p)).
  split; [unfold on_buffer; by rewrite E |]. split; [| done]. split; [by apply moved_frame |]. split; [done |].
  intros Ht. destruct (H Ht) as [Q | (d & Hd & Q1 & Q2)]; [by left | right]. exists d. done.
Qed.

Lemma on_buffer_pushes w d p : pwf p -> Pushes w d -> exists ok p', on_buffer w p = Some (ok, p') /\ outcome (eq d) p ok p'.
Proof.
  intros W P. destruct (on_buffer_puts w (eq d) True p W) as (ok & p' & E & O & _); [by apply puts_pushes, W | eauto].
Qed.

Lemma outcome_trans N1 N2 p p1 p2 ok : pwf p -> outcome N1 p true p1 -> outcome N2 p1 ok p2 ->
  outcome (fun d => exists d1 d2, N1 d1 /\ N2 d2 /\ d = d1 ++ d2) p ok p2.
Proof.
  intros W (M1 & C1 & H1) (M2 & C2 & H2). split; [by eapply moved_trans |]. split; [congruence |]. intros Ht.
  destruct (H1 eq_refl) as [Q1 | (d1 & Hd1 & P1 & L1)]; [left; by eapply moved_full |].
  destruct (H2 Ht) as [Q2 | (d2 & Hd2 & P2 & L2)]; [by left | right].
  exists (d1 ++ d2). split; [eauto |]. rewrite zlen_app. split; [lia |]. apply held_app; [| by rewrite <- P1].
  destruct W as (_ & _ & _ & S & H & _). pose proof M1 as (E1 & _).
  eapply held_moved; [done | done | |]; unfold off_blocks in *; lia.
Qed.

Lemma outcome_more N p p1 p2 ok : pwf p -> outcome N p ok p1 -> moved p1 p2 -> p_buffer p2 = p_buffer p1 -> p_content p2 = p_content p1 -> outcome N p ok p2.
Proof.
  intros W (M1 & C1 & H1) M2 E C. split; [by eapply moved_trans |]. split; [congruence |]. intros Ht.
  destruct (H1 Ht) as [Q1 | (d & Hd & P1 & L1)]; [left; by eapply moved_full | right]. exists d. rewrite E. split; [done |]. split; [done |].
  destruct W as (_ & _ & _ & S & H & _). pose proof M1 as (E1 & _).
  eapply held_moved; [done | done | |]; unfold off_blocks in *; lia.
Qed.

Lemma outcome_impl (N N' : list Z -> Prop) p ok p' : (forall d, N d -> N' d) -> outcome N p ok p' -> outcome N' p ok p'.
Proof. intros H (M & C & Ho). split; [done |]. split; [done |]. intros Ht. destruct (Ho Ht) as [Q | (d & Hd & Q)]; [by left | right; eauto]. Qed.

(** *** The header *)

Lemma set_field_run off d p : pwf p -> 0 <= off -> off + zlen d <= off_blocks ->
  exists m, set_field off d p = Some (tt, mk_parser m (p_buffer p) (p_content p) (p_blocks p)) /\
    moved p (mk_parser m (p_buffer p) (p_content p) (p_blocks p)) /\ storen (p_mem p) (p_blocks p + off) d = Some m.
Proof.
  intros W Ho Hl. pose proof W as (Wb & Wc & _ & S & H & _). pose proof (zlen_nonneg d). unfold cwf in Wb, Wc. cbn [fst snd] in *.
  destruct (storen_in_range (p_mem p) (p_blocks p + off) d) as [m Hm]; [lia | unfold off_blocks in *; lia |].
  exists m. split; [| split; [| done]].
  - unfold set_field. rewrite run_get. unfold on_buffer. by rewrite (poke_ok _ _ _ _ _ Hm).
  - unfold moved. cbn [p_mem p_buffer p_content p_blocks]. repeat split; try lia; [by eapply storen_length |].
    intros x Hx. rewrite (load8_storen _ _ _ _ x Hm).
    destruct (Z.leb_spec (p_blocks p + off) x), (Z.ltb_spec x (p_blocks p + off + zlen d)); cbn [andb]; [unfold off_blocks in *; lia | done..].
Qed.

Lemma bump_run off p : pwf p -> 0 <= off -> off + 4 <= off_blocks ->
  exists m, bump off p = Some (tt, mk_parser m (p_buffer p) (p_content p) (p_blocks p)) /\
    moved p (mk_parser m (p_buffer p) (p_content p) (p_blocks p)).
Proof.
  intros W Ho Hl. pose proof W as (Wb & _ & _ & S & H & _). unfold cwf in Wb. cbn [fst snd] in *. unfold bump. rewrite run_get.
  assert (E : exists n, on_buffer (load_u32 (p_blocks p + off)) p = Some (n, p)).
  { eexists. unfold on_buffer, load_u32.
    rewrite (bind_peekn _ _ _ _ _ _ (loadn_in_range (p_mem p) (p_blocks p + off) 4 ltac:(lia) ltac:(lia) ltac:(unfold off_blocks in *; lia))).
    unfold ret. destruct p. reflexivity. }
  destruct E as [n E]. rewrite (run_bind _ _ _ _ _ E).
  destruct (set_field_run off (le_bytes 4 (u32 (n + 1))) p W Ho) as (m & E' & M & _); [rewrite zlen_le_bytes; lia |]. eauto.
Qed.

(** *** Blocks *)

Lemma back_run p p1 : pwf p -> moved p p1 -> p_content p1 = p_content p ->
  exists p2, on_buffer (goto (c_p (p_buffer p))) p1 = Some (tt, p2) /\
    moved p p2 /\ p_buffer p2 = p_buffer p /\ p_content p2 = p_content p /\ pwf p2.
Proof.
  intros W M C. set (p2 := mk_parser (p_mem p1) (p_buffer p) (p_content p1) (p_blocks p1)).
  assert (M2 : moved p p2).
  { destruct M as (A1 & A2 & A3 & A4 & A5 & A6 & A7 & A8 & A9). destruct W as (Wb & _).
    unfold moved. cbn [p2 p_mem p_buffer p_content p_blocks]. repeat split; auto; in_cursor. }
  exists p2. split.
  - destruct M as (_ & _ & _ & _ & A5 & A6 & _). unfold on_buffer, goto, bind, get, put, p2. cbn [fst snd].
    do 3 f_equal. unfold set_p. rewrite A5, A6. by destruct (p_buffer p).
  - split; [done |]. split; [done |]. split; [exact C |]. by eapply moved_pwf.
Qed.

Lemma outcome_from N p p1 ok p2 : moved p p1 -> p_buffer p1 = p_buffer p -> p_content p1 = p_content p ->
  outcome N p1 ok p2 -> outcome N p ok p2.
Proof.
  intros M E C (M2 & C2 & H). split; [by eapply moved_trans |]. split; [congruence |]. by rewrite <- E.
Qed.

(** The end of a push is a count. *)
Lemma finish_run N p p1 : pwf p -> outcome N p true p1 ->
  exists p', (do* bump off_num_blocks in ret true) p1 = Some (true, p') /\ outcome N p true p'.
Proof.
  intros W O. pose proof O as (M & C & _).
  destruct (bump_run off_num_blocks p1 (moved_pwf _ _ W M) ltac:(done) ltac:(done)) as (m & E & M').
  rewrite (run_bind _ _ _ _ _ E). eexists. split; [reflexivity |]. by eapply outcome_more.
Qed.

(** Writers whose tests never fail. *)
Lemma on_buffer_varint n p : pwf p -> exists p', on_buffer (push_varint_test n) p = Some (true, p') /\ outcome (eq (varint n)) p true p' /\
  c_p (p_buffer p') <= c_p (p_buffer p) + zlen (varint n).
Proof.
  intros W. destruct (on_buffer_pushes (push_varint_test n) _ p W _) as (ok & p1 & E & O).
  destruct (push_varint_test_run n (p_mem p, p_buffer p) (proj1 W)) as ([m c] & E1 & F & _).
  unfold on_buffer in E. rewrite E1 in E. injection E as <- <-. eexists. split; [unfold on_buffer; by rewrite E1 |]. split; [done |].
  cbn [p_buffer]. destruct (Z.lt_ge_cases (c_p (p_buffer p) + zlen (varint n)) (c_end (p_buffer p))) as [Hr | Hr].
  - destruct (fits_pushed _ _ (p_mem p, p_buffer p) _ _ (Fits_varint_test n) (proj1 W) Hr E1) as [_ [_ Ec]]. cbn in Ec. subst c. cbn. lia.
  - destruct F as (_ & _ & Hc & _). cbn in Hc. lia.
Qed.

Lemma on_buffer_str content s p : pwf p -> exists p', on_buffer (push_str_block content s) p = Some (true, p') /\ outcome (eq (str_bytes content s)) p true p'.
Proof.
  intros W. destruct (on_buffer_pushes (push_str_block content s) _ p W _) as (ok & p1 & E & O).
  destruct (push_varint_test_run (sb_str s - content) (p_mem p, p_buffer p) (proj1 W)) as (s1 & E1 & F1 & _).
  destruct (push_varint_test_run (sb_len s) s1 (frame_cwf _ _ (proj1 W) F1)) as ([m c] & E2 & _).
  assert (E' : push_str_block content s (p_mem p, p_buffer p) = Some (true, (m, c))) by (unfold push_str_block, andM; by rewrite (run_bind _ _ _ _ _ E1)).
  unfold on_buffer in E. rewrite E' in E. injection E as <- <-. eexists. split; [unfold on_buffer; by rewrite E' | done].
Qed.

Definition stores (P : stored_block -> Prop) (content : Z) (d : list Z) : Prop := exists x, P x /\ d = stored_bytes content x.

Lemma push_text_run str p : pwf p ->
  exists p', push_text_block str p = Some (true, p') /\ outcome (stores (eq (SStr BLOCK_TEXT str)) (c_start (p_content p))) p true p'.
Proof.
  intros W. unfold push_text_block. rewrite run_get. cbv zeta.
  destruct (on_buffer_varint (block_type_num BLOCK_TEXT) p W) as (p1 & E & O & _). rewrite (run_bind _ _ _ _ _ E).
  pose proof O as (M & C & _). cbn [negb].
  destruct (on_buffer_str (c_start (p_content p)) str p1 (moved_pwf _ _ W M)) as (p2 & E2 & O2).
  rewrite (run_bind _ _ _ _ _ E2). cbn [negb]. apply finish_run; [done |]. eapply outcome_impl; [| by eapply outcome_trans].
  intros d (d1 & d2 & <- & <- & ->). eexists. split; [done |]. reflexivity.
Qed.

Lemma add_text_run start end_ p : pwf p -> start < end_ -> end_ - start < 2 ^ 31 ->
  exists p', add_text_block start end_ p = Some (true, p') /\
    outcome (stores (eq (SStr BLOCK_TEXT (mk_str start (end_ - start)))) (c_start (p_content p))) p true p'.
Proof.
  intros W Hl Hr. unfold add_text_block. destruct (Z.eqb_spec start end_); [lia |].
  replace (u32 (end_ - start)) with (end_ - start) by (symmetry; apply Z.mod_small; lia). by apply push_text_run.
Qed.

(** A string that fails as what it looks like is stored as text. *)
Lemma or_text_run w N R (P : stored_block -> Prop) str p p1 : pwf p -> moved p p1 -> p_content p1 = p_content p ->
  (R -> P (SStr BLOCK_TEXT str)) -> 0 < sb_len str < 2 ^ 31 -> puts w N R (p_mem p1, p_buffer p1) ->
  exists p', or_text w (c_p (p_buffer p)) str p1 = Some (true, p') /\
    (outcome N p1 true p' \/ outcome (stores P (c_start (p_content p))) p true p').
Proof.
  intros W M C HP Hl Hw. unfold or_text. destruct (on_buffer_puts w N R p1 (moved_pwf _ _ W M) Hw) as (ok & p2 & E & O & HR).
  rewrite (run_bind _ _ _ _ _ E). destruct ok; [exists p2; auto |]. specialize (HR eq_refl). destruct O as (M2 & C2 & _).
  destruct (back_run p p2 W (moved_trans _ _ _ M M2) ltac:(congruence)) as (p3 & E3 & M3 & B3 & C3 & W3). rewrite (run_bind _ _ _ _ _ E3).
  destruct (add_text_run (sb_str str) (sb_str str + sb_len str) p3 W3 ltac:(lia) ltac:(lia)) as (p4 & E4 & O4).
  exists p4. split; [done |]. right. eapply outcome_from; eauto. rewrite <- C3. eapply outcome_impl; [| exact O4].
  intros d (x & <- & ->). exists (SStr BLOCK_TEXT str). split; [by apply HP |]. do 3 f_equal. destruct str. cbn. f_equal. lia.
Qed.

(** *** The header and the end *)

Lemma align_run m c : cwf (m, c) ->
  let pad := padding 3 (c_p c - c_start c) in
  exists ok m', cursor_align 8 (m, c) = Some (ok, (m', if ok : bool then set_p c (c_p c + pad) else c)) /\
    frame (m, c) (m', if ok : bool then set_p c (c_p c + pad) else c) /\ 0 <= pad < 8 /\
    (ok = false -> c_end c <= c_p c + pad).
Proof.
  intros W pad. assert (Hpad : 0 <= pad < 8) by (apply Z.mod_pos_bound; lia). unfold cursor_align. rewrite bind_cur. cbv zeta.
  change (8 - 1) with (2 ^ 3 - 1). rewrite align_up_pow2 by in_cursor. fold pad.
  destruct (Z.ltb_spec 0 pad) as [Hp |].
  - destruct (Emits_memset 0 pad ltac:(lia)) as [_ O _]. unfold cursor_memset. rewrite bind_cur.
    destruct (Z.leb_spec (c_end c) (c_p c + pad)) as [Hfull | Hroom].
    + exists false, m. split; [done |]. split; [by apply frame_refl | by split].
    + destruct (O (m, c) W ltac:(cbn; lia)) as ([m' c'] & E & P). exists true, m'. pose proof P as [_ Ec]. cbn [fst snd] in Ec.
      rewrite zlen_replicate, Z2Nat.id in Ec by lia. unfold cursor_memset in E. rewrite bind_cur in E.
      destruct (Z.leb_spec (c_end c) (c_p c + pad)) in E; [lia |]. rewrite Ec in *. split; [exact E |]. split; [| done].
      eapply pushed_frame; [done | | exact P]. rewrite zlen_replicate. cbn. lia.
  - exists true, m. replace (c_p c + pad) with (c_p c) by lia. rewrite set_p_id. split; [done |]. split; [by apply frame_refl | done].
Qed.

(** The header is set and nothing is in blocks yet. *)
Lemma begin_run p : pwf p -> exists p1,
  start_blocks p = Some (tt, p1) /\ moved p p1 /\ p_buffer p1 = p_buffer p /\ p_content p1 = p_content p.
Proof.
  intros W. unfold start_blocks. destruct (set_field_run off_words (le_bytes 4 0) p W ltac:(done) ltac:(done)) as (m1 & E1 & M1 & _). rewrite (run_bind _ _ _ _ _ E1).
  pose proof (moved_pwf _ _ W M1) as W1.
  destruct (set_field_run off_num_blocks (le_bytes 4 0) _ W1 ltac:(done) ltac:(done)) as (m2 & E2 & M2 & _). rewrite (run_bind _ _ _ _ _ E2).
  pose proof (moved_pwf _ _ W1 M2) as W2.
  destruct (set_field_run off_blocks_size (le_bytes 4 0) _ W2 ltac:(done) ltac:(done)) as (m3 & E3 & M3 & _). rewrite (run_bind _ _ _ _ _ E3).
  pose proof (moved_pwf _ _ W2 M3) as W3.
  destruct (set_field_run off_flags [0] _ W3 ltac:(done) ltac:(done)) as (m4 & E4 & M4 & _). rewrite (run_bind _ _ _ _ _ E4).
  destruct (set_field_run off_version [1] _ (moved_pwf _ _ W3 M4) ltac:(done) ltac:(done)) as (m5 & E5 & M5 & _). rewrite E5.
  eexists. split; [reflexivity |]. split; [| done]. eauto using moved_trans.
Qed.

(** The blocks end at [size], and are padded if there is room for the padding. *)
Lemma finish_run_end p0 p : pwf p0 -> moved p0 p -> c_p (p_buffer p0) = p_blocks p0 + off_blocks -> c_end (p_buffer p0) - c_start (p_buffer p0) < 2 ^ 31 ->
  let size := c_p (p_buffer p) - c_p (p_buffer p0) in
  let pad := padding 3 (off_blocks + size) in
  exists ok p1, finish_blocks (c_p (p_buffer p0)) p = Some (ok, p1) /\ moved p p1 /\ held p1 (p_blocks p0 + off_blocks_size) (le_bytes 4 size) /\
    (ok = false -> c_end (p_buffer p0) - c_start (p_buffer p0) <= off_blocks + size + pad) /\
    (ok = true -> held p1 (p_blocks p0 + off_total_size) (le_bytes 4 (off_blocks + size + pad)) /\
       off_blocks + size + pad <= c_end (p_buffer p0) - c_start (p_buffer p0)).
Proof.
  intros W M Hb Hr size pad. pose proof (moved_pwf _ _ W M) as W1. pose proof M as (Ebl & _ & _ & _ & Es & Ee & Hcp & _).
  pose proof W as (Wb & _ & _ & S & _). unfold cwf in Wb. cbn [fst snd] in Wb. unfold finish_blocks. rewrite run_get.
  assert (Esz : u32 (c_p (p_buffer p) - c_p (p_buffer p0)) = size) by (apply Z.mod_small; unfold size; lia). rewrite Esz.
  destruct (set_field_run off_blocks_size (le_bytes 4 size) p W1 ltac:(done) ltac:(done)) as (m1 & E1 & M1 & Hm1). rewrite (run_bind _ _ _ _ _ E1).
  set (p1 := mk_parser m1 _ _ _) in *. pose proof (moved_pwf _ _ W1 M1) as W2.
  destruct (align_run m1 (p_buffer p) (proj1 W2)) as (ok & m2 & E2 & F2 & Hpad & Hf).
  assert (Epad : padding 3 (c_p (p_buffer p) - c_start (p_buffer p)) = pad) by (unfold pad, size; f_equal; lia). rewrite Epad in *.
  set (b2 := if ok then _ else _) in *. pose proof (moved_frame p1 m2 b2 W2 F2) as M2. set (p2 := mk_parser m2 b2 (p_content p1) (p_blocks p1)) in *.
  assert (E2' : on_buffer (cursor_align 8) p1 = Some (ok, p2)) by (unfold on_buffer; cbn [p1 p_mem p_buffer]; by rewrite E2).
  rewrite (run_bind _ _ _ _ _ E2'). pose proof (zlen_le_bytes 4 size) as L4. change (Z.of_nat 4) with 4 in L4.
  assert (H1 : held p1 (p_blocks p0 + off_blocks_size) (le_bytes 4 size)) by (rewrite <- Ebl; unfold held; by eapply loadn_storen_same).
  assert (H2 : held p2 (p_blocks p0 + off_blocks_size) (le_bytes 4 size)).
  { destruct F2 as (_ & _ & _ & Hz & Hx). cbn [fst snd] in *. unfold held in *. cbn [p2 p1 p_mem] in *. pose proof H1 as (?&?&?&_)%loadn_Some.
    apply loadn_ext; [lia.. | done |]. intros i Hi. rewrite Hx by (unfold off_blocks_size, off_blocks in *; lia). by eapply loadn_load8. }
  destruct ok; cbn [negb].
  - rewrite run_get. cbn [p2 b2 p_buffer c_p c_start set_p].
    assert (Et : u32 (c_p (p_buffer p) + pad - c_start (p_buffer p)) = off_blocks + size + pad).
    { destruct M2 as (_ & _ & _ & _ & _ & _ & Hz & _). cbn [p2 p1 b2 p_buffer c_p c_start c_end set_p] in Hz.
      unfold u32. rewrite Z.mod_small; unfold size; lia. }
    rewrite Et. destruct (set_field_run off_total_size (le_bytes 4 (off_blocks + size + pad)) p2 (moved_pwf _ _ W2 M2) ltac:(done) ltac:(done)) as (m3 & E3 & M3 & Hm3).
    rewrite (run_bind _ _ _ _ _ E3). eexists true, _. split; [reflexivity |]. split; [by eauto using moved_trans |].
    split; [| split; [done |]].
    + unfold held in *. cbn [p_mem]. rewrite (loadn_storen_other _ _ _ _ _ _ Hm3); [exact H2 |]. left. rewrite L4.
      cbn [p2 p1 p_blocks]. rewrite Ebl. unfold off_blocks_size, off_total_size. lia.
    + intros _. split; [unfold held; cbn [p_mem]; rewrite <- Ebl; eapply loadn_storen_same; exact Hm3 |].
      destruct M2 as (_ & _ & _ & _ & _ & _ & Hz & _). cbn [p2 p1 b2 p_buffer c_p c_start c_end set_p] in Hz. unfold size. lia.
  - exists false, p2. split; [done |]. split; [by eapply moved_trans |]. split; [done |]. split; [| done].
    intros _. specialize (Hf eq_refl). unfold size. lia.
Qed.

Lemma initial_pwf buf buf_size content content_len m : 0 <= buf -> off_blocks <= buf_size -> buf + buf_size <= zlen m ->
  0 <= content -> 0 <= content_len < 2 ^ 31 -> load8 m (content + content_len) = Some 0 ->
  content + content_len < buf \/ buf + buf_size <= content ->
  pwf (mk_parser m (set_p (make_cursor buf (buf + buf_size)) (buf + off_blocks)) (make_cursor content (content + content_len)) buf).
Proof.
  intros H1 H2 H3 H4 H5 H6 H7. pose proof (load8_Some_range _ _ _ H6). unfold pwf, cwf, terminated, off_blocks in *. cbn. repeat split; try lia. done.
Qed.

(** ** The content in blocks *)

Section Blocks.

Variable bolt11_decode_minimal : list Z -> option bolt11.

(** The content from [lo] to [cend] in a memory [m], and [cap] bytes for blocks. *)
Context (m : mem) (lo cend cap : Z).

(** The block that is stored for a piece, with [avail] bytes left.  A mention or an
    invoice that does not decode is text, and so is one without the room it takes. *)
Definition becomes (avail : Z) (block : parsed_block) (x : stored_block) : Prop :=
  match block with
  | ParsedIndex n => x = SIndex n
  | ParsedStr BLOCK_MENTION_BECH32 s =>
      exists type l, bech32_at m cend (sb_str s) (sb_str s + sb_len s) type /\ loadn m (sb_str s) (sb_len s) = Some l /\
        match bech32_bytes l with
        | Some bytes => x = SMention s type bytes \/
            (x = SStr BLOCK_TEXT s /\ avail <= zlen (varint (block_type_num BLOCK_MENTION_BECH32)) + mention_room lo s type)
        | None => x = SStr BLOCK_TEXT s
        end
  | ParsedStr BLOCK_INVOICE s =>
      exists l, c_string (drop (Z.to_nat (sb_str s)) m) = Some l /\
        match bolt11_decode_minimal l with
        | Some b => (invoice_ok b /\ x = SInvoice s b) \/
            (x = SStr BLOCK_TEXT s /\ (invoice_ok b -> avail <= zlen (stored_bytes lo (SInvoice s b))))
        | None => x = SStr BLOCK_TEXT s
        end
  | ParsedStr type s => x = SStr type s
  end.

(** The text from [start] to [x], if there is any. *)
Definition text_block (start x : Z) : list stored_block :=
  if start =? x then [] else [SStr BLOCK_TEXT (mk_str start (x - start))].

(** Where the parser goes on when no piece starts at [x]: "lightning:" is passed at once. *)
Definition passed (x y : Z) : Prop := optional (candidate m lo cend x /\ literal m cend x str_lightning) (eq (x + 11)) (x + 1) y.

(** The content has been gone through up to [x], and it is in blocks up to [start]. *)
Inductive scanned : Z -> Z -> list stored_block -> Prop :=
  | scanned_start : scanned lo lo []
  | scanned_text start x y bs : scanned start x bs -> x < cend ->
      (candidate m lo cend x -> forall hi block, ~ piece m lo cend x hi block) -> passed x y -> scanned start y bs
  | scanned_piece start x hi block b bs : scanned start x bs -> x < cend -> candidate m lo cend x -> piece m lo cend x hi block ->
      becomes (cap - zlen (all_bytes lo (bs ++ text_block start x))) block b ->
      scanned hi hi (bs ++ text_block start x ++ [b]).

(** The blocks of a content: its pieces, and the text between them. *)
Definition in_blocks (bs : list stored_block) : Prop :=
  exists start bs', scanned start cend bs' /\ bs = bs' ++ text_block start cend.

Context (Hlo : 0 <= lo) (Hcend : load8 m cend = Some 0) (Hr : cend - lo < 2 ^ 31).

Lemma becomes_ok avail mid hi block x : lo <= mid <= cend -> piece m lo cend mid hi block -> becomes avail block x -> stored_ok lo x.
Proof using Hlo Hcend Hr.
  intros Hm Hp Hb. destruct (piece_bounds m m lo cend Hlo (fun _ _ => eq_refl) Hcend mid hi block Hm Hp) as [_ Hl].
  destruct block as [t s | n]; cbn in Hl, Hb; [| subst; cbn; unfold is_u32; lia].
  destruct Hl as (Ht & H1 & H2 & H3 & H4). assert (Hs : str_ok lo s) by (unfold str_ok, is_u32; lia).
  destruct t; try done; try (subst x; by split).
  - destruct Hb as (type & l & _ & _ & Hx). destruct (bech32_bytes l) as [bytes |] eqn:Eb; [| subst x; by split].
    destruct Hx as [-> | [-> _]]; [| by split]. split; [done |].
    unfold bech32_bytes in Eb. destruct (decode_chars _ _ _) as [t |]; [| done]. cbn [mbind option_bind] in Eb.
    case_bool_decide; [done |]. destruct (convert_chars _ _ _ _) as [bs ok]. destruct ok, (Z.leb_spec (zlen bs) (2 ^ 16 - 1)); cbn [andb] in Eb; try done.
    injection Eb as <-. lia.
  - destruct Hb as (l & _ & Hx). destruct (bolt11_decode_minimal l) as [b |]; [| subst x; by split].
    destruct Hx as [[Hi ->] | [-> _]]; by split.
Qed.

Lemma scanned_range start x bs : scanned start x bs -> lo <= cend -> lo <= start <= x /\ x <= cend.
Proof using Hlo Hcend.
  intros H Hl. induction H as [| start x y bs _ IH Hx _ Hp | start x hi block b bs _ IH Hx _ Hp _]; [lia | |].
  - destruct Hp as [[[_ (? & _ & _ & Hp)] <-] | [_ ->]]; [change (zlen str_lightning) with 10 in Hp |]; lia.
  - destruct (piece_bounds m m lo cend Hlo (fun _ _ => eq_refl) Hcend x hi block) as [? _]; [lia | done | lia].
Qed.

Lemma text_block_ok start x : lo <= start <= x -> x <= cend -> Forall (stored_ok lo) (text_block start x).
Proof using Hr.
  intros Hs Hx. unfold text_block. destruct (start =? x); [constructor |]. constructor; [| constructor].
  split; [done |]. unfold str_ok, is_u32. cbn. lia.
Qed.

Lemma scanned_ok start x bs : scanned start x bs -> lo <= cend -> Forall (stored_ok lo) bs.
Proof using Hlo Hcend Hr.
  intros S Hl. induction S as [| start x y bs S IH | start x hi block b bs S IH Hx _ Hp Hb]; [constructor | done |].
  pose proof (scanned_range _ _ _ S Hl). rewrite !List.Forall_app. split; [done |]. split; [apply text_block_ok; lia |].
  constructor; [| constructor]. eapply becomes_ok; [| exact Hp | exact Hb]. lia.
Qed.

Lemma in_blocks_ok bs : lo <= cend -> in_blocks bs -> Forall (stored_ok lo) bs.
Proof using Hlo Hcend Hr.
  intros Hl (start & bs' & S & ->). pose proof (scanned_range _ _ _ S Hl). apply List.Forall_app.
  split; [by eapply scanned_ok | apply text_block_ok; lia].
Qed.

Lemma piece_mention_text mid hi s : piece m lo cend mid hi (ParsedStr BLOCK_MENTION_BECH32 s) ->
  exists type, bech32_at m cend (sb_str s) (sb_str s + sb_len s) type.
Proof using Type.
  intros H. inversion H as [| | host hend e s1 e' type hi1 _ (_ & _ & _ & Hb) _ | | | s1 hi1 type (_ & x & _ & _ & Hb)]; subst; exists type; cbn [sb_str sb_len];
    [by replace (s1 + (e' - s1)) with e' by lia | by replace (s1 + (hi - s1)) with hi by lia].
Qed.

End Blocks.

Lemma all_bytes_snoc content bs x : all_bytes content (bs ++ [x]) = all_bytes content bs ++ stored_bytes content x.
Proof. unfold all_bytes. rewrite map_app, concat_app. cbn. by rewrite app_nil_r. Qed.

Section Parser.

Variable bolt11_decode_minimal : list Z -> option bolt11.

(** Documented of the decoder: what it gives has its fields. *)
Hypothesis decoder_ok : forall s b, bolt11_decode_minimal s = Some b -> decoded_ok b.

(** A memory with the content. *)
Context (m : mem).

Abbreviation start_of p := (c_start (p_content p)).
Abbreviation end_of p := (c_end (p_content p)).
Abbreviation avail p := (c_end (p_buffer p) - c_p (p_buffer p)).

(** What the state knows of the content. *)
Lemma content_facts p : pwf p -> reads m p ->
  0 <= start_of p /\ start_of p <= c_p (p_content p) <= end_of p /\ end_of p - start_of p < 2 ^ 31 /\ load8 m (end_of p) = Some 0 /\
  p_content p = mk_cursor (start_of p) (c_p (p_content p)) (end_of p).
Proof using Type.
  intros W R. pose proof (reads_zero m p W R). destruct W as (_ & V & _ & _ & _ & _ & L). unfold cwf in V. cbn in V.
  split; [lia |]. split; [lia |]. split; [done |]. split; [done |]. by destruct (p_content p).
Qed.

Lemma content_string p a : pwf p -> reads m p -> start_of p <= a <= end_of p ->
  exists l, read_c_string a (p_mem p, p_buffer p) = Some (l, (p_mem p, p_buffer p)) /\ c_string (drop (Z.to_nat a) m) = Some l.
Proof using Type.
  intros W R Ha. destruct (content_facts p W R) as (Hlo & _ & _ & Hz & _). pose proof (load8_Some_range _ _ _ Hz) as Hm.
  assert (Hsame : forall k, c_string (drop k m) = c_string (drop k (p_mem p)) \/ ~ (start_of p <= Z.of_nat k <= end_of p)).
  { intros k. destruct (decide (start_of p <= Z.of_nat k <= end_of p)) as [Hk |]; [left | by right].
    assert (Hn : Z.of_nat k + Z.of_nat (Z.to_nat (end_of p - Z.of_nat k)) = end_of p) by lia. revert Hn Hk. generalize (Z.to_nat (end_of p - Z.of_nat k)) as n.
    intros n. revert k. induction n as [| n IH]; intros k Hn Hk.
    - assert (E : forall mm : mem, load8 mm (end_of p) = Some 0 -> c_string (drop k mm) = Some []).
      { intros mm E. replace (end_of p) with (Z.of_nat k) in E by lia. rewrite load8_lookup, Nat2Z.id in E by lia.
        by rewrite (drop_S _ 0 k E). }
      rewrite !E; [done | by rewrite R by lia | done].
    - pose proof (R (Z.of_nat k) Hk) as Ek. destruct (proj2 (load8_is_Some m (Z.of_nat k)) ltac:(lia)) as [b Eb]. rewrite Eb in Ek.
      rewrite load8_lookup, Nat2Z.id in Eb, Ek by lia. rewrite (drop_S _ _ _ Eb), (drop_S _ _ _ Ek). cbn [c_string].
      rewrite (IH (S k)) by lia. done. }
  destruct (Hsame (Z.to_nat a)) as [E | E]; [| lia].
  assert (Hl : is_Some (c_string (drop (Z.to_nat a) m))).
  { apply (c_string_run _ (Z.to_nat (end_of p - a))). rewrite lookup_drop. rewrite load8_lookup in Hz by lia. rewrite <- Hz. f_equal. lia. }
  destruct Hl as [l El]. exists l. split; [| done]. unfold read_c_string, bind, get, lift. cbn [fst]. destruct (Z.leb_spec 0 a); [| lia].
  by rewrite <- E, El.
Qed.

(** The type of a mention and its characters, as the writer sees them. *)
Lemma mention_read p s type : pwf p -> reads m p -> start_of p <= sb_str s -> bech32_at m (end_of p) (sb_str s) (sb_str s + sb_len s) type ->
  (exists n, forall c, parse_nostr_bech32_type (sb_str s) (p_mem p, c) = Some (Some (type, n), (p_mem p, c))) /\
  exists l, loadn (p_mem p) (sb_str s) (sb_len s) = Some l /\ loadn m (sb_str s) (sb_len s) = Some l.
Proof using Type.
  intros W R Hs Hb. destruct (content_facts p W R) as (Hlo & _ & _ & Hz & _). pose proof (bech32_bounds _ _ _ _ _ Hb) as He.
  split.
  - destruct Hb as (lit & Hin & S & _). exists (zlen lit). intros c.
    destruct (parse_type_at m (p_mem p) (start_of p) (end_of p) Hlo R Hz (sb_str s) c ltac:(lia)) as (r & E & Hr). rewrite E. do 2 f_equal.
    destruct r as [[t n] |]; [| by apply Hr in Hin]. destruct Hr as (lit' & Hin' & -> & S').
    by injection (prefix_unique _ _ _ _ _ _ _ Hin' Hin S' S) as -> ->.
  - destruct (same_loadn m (p_mem p) (start_of p) (end_of p) Hlo R Hz (sb_str s) (sb_len s)) as (l & E & E' & _); [lia.. |]. eauto.
Qed.

Lemma push_block_run block mid hi p : pwf p -> reads m p -> start_of p <= mid <= end_of p -> piece m (start_of p) (end_of p) mid hi block ->
  exists p', push_block bolt11_decode_minimal block p = Some (true, p') /\
    outcome (stores (becomes bolt11_decode_minimal m (start_of p) (end_of p) (avail p) block) (start_of p)) p true p'.
Proof using decoder_ok.
  intros W R Hmid Hp. destruct (content_facts p W R) as (Hlo & _ & Hlen & Hz & _).
  destruct (piece_bounds m m _ _ Hlo (fun _ _ => eq_refl) Hz mid hi block Hmid Hp) as [_ Hl].
  unfold push_block. rewrite run_get. cbv zeta. set (type := match block with ParsedStr _ _ => _ | _ => _ end).
  destruct (on_buffer_varint (block_type_num type) p W) as (p1 & E & O & Htag). rewrite (run_bind _ _ _ _ _ E). cbn [negb].
  pose proof O as (M & C & _). pose proof (moved_pwf _ _ W M) as W1. pose proof (reads_moved _ _ _ W M R) as R1.
  assert (Hend : c_end (p_buffer p1) = c_end (p_buffer p)) by apply M.
  set (P := becomes _ _ _ _ _ _).
  assert (Hfin : forall (N : list Z -> Prop) (w : PM bool), (forall d, N d -> stores P (start_of p) (varint (block_type_num type) ++ d)) ->
    (exists p2, w p1 = Some (true, p2) /\ (outcome N p1 true p2 \/ outcome (stores P (start_of p)) p true p2)) ->
    exists p', (let* ok := w in if negb ok then do* on_buffer (goto (c_p (p_buffer p))) in ret false else do* bump off_num_blocks in ret true) p1
      = Some (true, p') /\ outcome (stores P (start_of p)) p true p').
  { intros N w HN (p2 & E2 & O2). rewrite (run_bind _ _ _ _ _ E2). cbn [negb]. apply finish_run; [done |]. destruct O2 as [O2 | O2]; [| done].
    eapply outcome_impl; [| by eapply outcome_trans]. intros d (d1 & d2 & <- & Hd & ->). auto. }
  destruct block as [t s | n].
  2: { destruct (on_buffer_varint n p1 W1) as (p2 & E2 & O2 & _).
       eapply Hfin; [| exists p2; split; [exact E2 | left; exact O2]]. intros d <-. exists (SIndex n). done. }
  destruct Hl as (Ht & H1 & H2 & H3 & H4).
  assert (Hstr : exists p2, on_buffer (push_str_block (start_of p) s) p1 = Some (true, p2) /\
     (outcome (eq (str_bytes (start_of p) s)) p1 true p2 \/ outcome (stores P (start_of p)) p true p2)).
  { destruct (on_buffer_str (start_of p) s p1 W1) as (p2 & E2 & O2). eauto. }
  assert (Hpl : end_of p < c_p (p_buffer p1) \/ c_end (p_buffer p1) <= start_of p).
  { destruct W1 as (_ & _ & _ & Hs & Hb & Ha & _). rewrite C in Ha. unfold off_blocks in *. lia. }
  destruct t; [| | done | | |]; try (eapply Hfin; [| exact Hstr]; intros d <-; eexists; split; [reflexivity |]; reflexivity).
  - specialize (H3 ltac:(done)). destruct (piece_mention_text _ _ _ _ _ _ Hp) as [ty Hb].
    destruct (mention_read p1 s ty W1 R1) as ((n & Hn) & l & L1 & L0); [by rewrite C; lia | by rewrite C |].
    eapply Hfin; [| eapply (or_text_run _ _ _ P s p p1 W M C);
      [| split; [done | lia] | apply (puts_mention (start_of p) s l ty n); auto; [apply W1 | lia | lia | lia]]].
    + intros d (bytes & Hbytes & Hsz & ->). exists (SMention s ty bytes). split.
      * exists ty, l. split; [done |]. split; [done |]. rewrite Hbytes. by left.
      * cbn [stored_bytes type block_type_num]. unfold mention_bytes. by rewrite <- !app_assoc.
    + intros Hwhy. exists ty, l. split; [done |]. split; [done |]. destruct (bech32_bytes l); [| done]. right. split; [done |].
      destruct Hwhy as [| Hwhy]; [done |]. unfold type in Htag. lia.
  - specialize (H3 ltac:(done)). destruct (content_string p1 (sb_str s) W1 R1) as (l & El & L); [rewrite C; lia |].
    eapply Hfin; [| eapply (or_text_run _ _ _ P s p p1 W M C);
      [| split; [done | lia] | apply (puts_invoice _ (start_of p) s l _ _ decoder_ok); [apply W1 | exact El]]].
    + intros d (b & Hdec & Hi & ->). exists (SInvoice s b). split.
      * exists l. split; [done |]. rewrite Hdec. by left.
      * cbn [stored_bytes type block_type_num]. by rewrite <- !app_assoc.
    + intros Hwhy. exists l. split; [done |]. destruct (bolt11_decode_minimal l) as [b |]; [| done]. right. split; [done |].
      intros Hi. specialize (Hwhy b eq_refl Hi). unfold type in Htag. cbn [stored_bytes]. rewrite !zlen_app in *. cbn [block_type_num] in Htag. lia.
Qed.

(** *** The loop *)

Abbreviation bytes_of p bs := (all_bytes (start_of p) bs).

(** What has been written since the state [p0], in which the loop started. *)
Definition written (p0 p : ndb_content_parser) (B : list stored_block -> Prop) : Prop :=
  moved p0 p /\
  (fullP p \/ exists bs, B bs /\ c_p (p_buffer p) = c_p (p_buffer p0) + zlen (bytes_of p0 bs) /\ held p (c_p (p_buffer p0)) (bytes_of p0 bs)).

Lemma written_moved p0 p p' B : pwf p0 -> written p0 p B -> moved p p' -> p_buffer p' = p_buffer p -> written p0 p' B.
Proof using Type.
  intros W (M & H) M' E. split; [by eapply moved_trans |].
  destruct H as [H | (bs & S & P & L)]; [left; unfold fullP; by rewrite E | right]. exists bs. rewrite E. split; [done |]. split; [done |].
  destruct W as (_ & _ & _ & _ & H & _). pose proof M as (E1 & _). eapply held_moved; [done | done | |]; unfold off_blocks in *; lia.
Qed.

Lemma written_impl p0 p (B B' : list stored_block -> Prop) : (forall bs, B bs -> B' bs) -> written p0 p B -> written p0 p B'.
Proof using Type. intros H (M & [Q | (bs & Q & L)]); (split; [done |]); [by left | right; eauto]. Qed.

(** One more block. *)
Lemma written_step p0 p p' (P : Z -> stored_block -> Prop) (B B' : list stored_block -> Prop) : pwf p0 -> written p0 p B ->
  outcome (stores (P (avail p)) (start_of p0)) p true p' ->
  (forall bs x, B bs -> P (avail p0 - zlen (bytes_of p0 bs)) x -> B' (bs ++ [x])) -> written p0 p' B'.
Proof using Type.
  intros W (M & H) (M' & C & Ho) HB. split; [by eapply moved_trans |].
  destruct H as [H | (bs & S & Pb & L)]; [left; by eapply moved_full |].
  destruct (Ho eq_refl) as [Q | (d & (x & Hx & ->) & Q1 & Q2)]; [by left | right].
  pose proof M as (E1 & _ & _ & _ & _ & E2 & _).
  exists (bs ++ [x]). split; [apply HB; [done |]; by replace (avail p0 - zlen (bytes_of p0 bs)) with (avail p) by lia |].
  rewrite all_bytes_snoc, zlen_app. split; [lia |].
  apply held_app; [| by rewrite <- Pb]. destruct W as (_ & _ & _ & _ & H & _).
  eapply held_moved; [done | done | |]; unfold off_blocks in *; lia.
Qed.

Lemma on_content_run {A} (w : CM A) p r q : pwf p -> w (p_mem p, p_content p) = Some (r, (p_mem p, set_p (p_content p) q)) ->
  c_p (p_content p) <= q <= c_end (p_content p) ->
  on_content w p = Some (r, mk_parser (p_mem p) (p_buffer p) (set_p (p_content p) q) (p_blocks p)) /\
  moved p (mk_parser (p_mem p) (p_buffer p) (set_p (p_content p) q) (p_blocks p)).
Proof using Type.
  intros W E Hq. split; [unfold on_content; by rewrite E |]. destruct (moved_here p W) as (A1 & A2 & A3 & A4 & A5 & A6 & A7 & A8 & A9).
  unfold moved. cbn [p_mem p_buffer p_content p_blocks set_p c_start c_p c_end]. repeat split; auto; lia.
Qed.

(** Text is put in a block, if there is any. *)
Lemma text_step p0 p start x B : pwf p0 -> written p0 p B -> start_of p0 <= start <= x -> x <= end_of p0 ->
  exists p', add_text_block start x p = Some (true, p') /\ written p0 p' (fun bs => exists bs', B bs' /\ bs = bs' ++ text_block start x) /\
    p_content p' = p_content p.
Proof using Type.
  intros W Hw Hs Hx. pose proof Hw as (M & _). pose proof (moved_pwf _ _ W M) as W'.
  pose proof M as (_ & Cs & Ce & _). pose proof W as (_ & _ & _ & _ & _ & _ & L). unfold text_block.
  destruct (Z.eqb_spec start x) as [-> | Hne].
  { exists p. split; [unfold add_text_block; by rewrite Z.eqb_refl |]. split; [| done].
    eapply written_impl; [| exact Hw]. intros bs Hb. exists bs. by rewrite app_nil_r. }
  destruct (add_text_run start x p W' ltac:(lia) ltac:(lia)) as (p' & E & O). exists p'. split; [done |].
  split; [| apply O]. rewrite Cs in O.
  apply (written_step p0 p p' (fun _ => eq (SStr BLOCK_TEXT (mk_str start (x - start)))) B); auto. intros bs y Hb <-. eauto.
Qed.

Abbreviation scanned_in p0 := (scanned bolt11_decode_minimal m (start_of p0) (end_of p0) (avail p0)).

Lemma special_step p0 p start x hi block : pwf p0 -> reads m p0 -> written p0 p (scanned_in p0 start x) ->
  start_of p0 <= start <= x -> x < end_of p0 -> candidate m (start_of p0) (end_of p0) x -> piece m (start_of p0) (end_of p0) x hi block -> c_p (p_content p) = hi ->
  exists p', add_text_then_block bolt11_decode_minimal block start x p = Some ((true, hi), p') /\ written p0 p' (scanned_in p0 hi hi) /\ p_content p' = p_content p.
Proof using decoder_ok.
  intros W R Hw Hs Hx Hc Hp Hhi. unfold add_text_then_block. destruct (text_step p0 p start x _ W Hw Hs ltac:(lia)) as (p1 & E & Hw1 & C).
  rewrite (run_bind _ _ _ _ _ E). cbn [negb]. rewrite run_get, C, Hhi. cbv zeta. pose proof Hw1 as (M & _).
  pose proof M as (_ & Cs & Ce & _). pose proof (moved_pwf _ _ W M) as W1.
  destruct (push_block_run block x hi p1 W1 (reads_moved _ _ _ W M R)) as (p2 & E2 & O); [lia | by rewrite Cs, Ce |].
  rewrite (run_bind _ _ _ _ _ E2). exists p2. split; [done |]. split; [| destruct O as (_ & -> & _); done].
  rewrite Cs, Ce in O. eapply (written_step p0 p1 p2 (fun a => becomes bolt11_decode_minimal m (start_of p0) (end_of p0) a block)); [done | exact Hw1 | exact O |].
  intros bs b (bs' & S & ->) Hb. rewrite <- app_assoc. eapply scanned_piece; eauto.
Qed.

Lemma words_step p0 p (b : bool) B : pwf p0 -> written p0 p B ->
  exists p', (if b then bump off_words else ret tt) p = Some (tt, p') /\ written p0 p' B /\ p_content p' = p_content p.
Proof using Type.
  intros W Hw. destruct b; [| by exists p]. destruct (bump_run off_words p (moved_pwf _ _ W (proj1 Hw)) ltac:(done) ltac:(done)) as (m' & E & M).
  eexists. split; [exact E |]. split; [| done]. by eapply written_moved.
Qed.

(** What is found at a place: a piece, or where the parser is left. *)
Lemma special_run (b : bool) ch p : pwf p -> reads m p -> c_p (p_content p) < end_of p -> load8 m (c_p (p_content p)) = Some ch ->
  (b = true <-> candidate m (start_of p) (end_of p) (c_p (p_content p))) ->
  exists r q, (if b then on_content (parse_special ch) else ret None) p
      = Some (r, mk_parser (p_mem p) (p_buffer p) (set_p (p_content p) q) (p_blocks p)) /\
    moved p (mk_parser (p_mem p) (p_buffer p) (set_p (p_content p) q) (p_blocks p)) /\ c_p (p_content p) <= q <= end_of p /\
    match r with
    | Some block => c_p (p_content p) < q /\ candidate m (start_of p) (end_of p) (c_p (p_content p)) /\ piece m (start_of p) (end_of p) (c_p (p_content p)) q block
    | None => (candidate m (start_of p) (end_of p) (c_p (p_content p)) -> forall hi block, ~ piece m (start_of p) (end_of p) (c_p (p_content p)) hi block) /\
        passed m (start_of p) (end_of p) (c_p (p_content p)) (q + 1)
    end.
Proof using Type.
  intros W R Hlt Hc Hb. destruct (content_facts p W R) as (Hlo & Hp & Hlen & Hz & Ec). set (x := c_p (p_content p)) in *. destruct b.
  - destruct (special_at m (p_mem p) _ _ Hlo R Hz Hlen x ch ltac:(lia) Hc) as (r & q & E & Hq & Hr). exists r, q.
    destruct (on_content_run (parse_special ch) p r q W) as [E' M]; [rewrite Ec; exact E | exact Hq |].
    split; [exact E' |]. split; [exact M |]. split; [exact Hq |]. destruct r as [block |].
    + destruct Hr as [H1 H2]. split; [done |]. split; [by apply Hb | done].
    + destruct Hr as [H1 H2]. split; [done |]. assert (candidate m (start_of p) (end_of p) x) by by apply Hb.
      destruct H2 as [[Hl <-] | [Hl ->]]; [left; split; [done | lia] | right; split; [by intros [_ ?] | done]].
  - exists None, x. split; [unfold x; rewrite set_p_id; by destruct p |]. split.
    + destruct (on_content_run (ret tt) p tt x W) as [_ M]; [unfold x; by rewrite set_p_id | lia | exact M].
    + split; [lia |]. split; [intros H; by apply Hb in H |]. right. split; [intros [H _]; by apply Hb in H | done].
Qed.

(** Where the loop starts the buffer is the caller's. *)
Lemma content_loop_run p0 fuel : pwf p0 -> reads m p0 -> forall p start, written p0 p (scanned_in p0 start (c_p (p_content p))) ->
  start_of p0 <= start <= c_p (p_content p) -> c_end (p_content p) - c_p (p_content p) <= Z.of_nat fuel ->
  exists start' p', content_loop bolt11_decode_minimal fuel start p = Some (Some start', p') /\ written p0 p' (scanned_in p0 start' (end_of p0)) /\
    start_of p0 <= start' <= end_of p0 /\ c_p (p_content p') = end_of p0.
Proof using decoder_ok.
  intros W R. induction fuel as [| fuel IH]; intros p start Hw Hs Hf; pose proof Hw as (M & _); pose proof (moved_pwf _ _ W M) as W1;
    pose proof (reads_moved _ _ _ W M R) as R1; pose proof M as (_ & Cs & Ce & Hcp & _); pose proof (content_facts p W1 R1) as (Hlo & Hp & _ & Hz & Ec); cbn [content_loop].
  { assert (E : c_p (p_content p) = end_of p0) by lia. rewrite E in Hw. exists start, p. split; [done |]. split; [exact Hw | lia]. }
  rewrite run_get. destruct (Z.ltb_spec (c_p (p_content p)) (c_end (p_content p))) as [Hlt |].
  2: { assert (E : c_p (p_content p) = end_of p0) by lia. rewrite E in Hw. exists start, p. split; [done |]. split; [exact Hw | lia]. }
  destruct (candidate_at m (p_mem p) _ _ Hlo R1 Hz (c_p (p_content p)) ltac:(lia)) as (cp & ch & E1 & E2 & Hch & Hcand). rewrite <- Ec in E1, E2.
  assert (Hpeek : forall i r, peek_char i (p_mem p, p_content p) = Some (r, (p_mem p, p_content p)) -> on_content (peek_char i) p = Some (r, p)).
  { intros i r E. unfold on_content. rewrite E. by destruct p. }
  rewrite (run_bind _ _ _ _ _ (Hpeek _ _ E1)), (run_bind _ _ _ _ _ (Hpeek _ _ E2)).
  destruct (words_step p0 p (is_whitespace cp && negb (is_whitespace ch)) _ W Hw) as (p1 & E3 & Hw1 & C1). rewrite (run_bind _ _ _ _ _ E3).
  cbv zeta. pose proof Hw1 as (M1 & _). pose proof (moved_pwf _ _ W M1) as W2. pose proof (reads_moved _ _ _ W M1 R) as R2. 
  rewrite <- C1 in Hlt, Hch, Hcand, Hs, Hw1 |- *.
  destruct (special_run _ ch p1 W2 R2 Hlt Hch Hcand) as (r & q & E4 & M2 & Hq & Hr). rewrite (run_bind _ _ _ _ _ E4).
  pose proof (written_moved _ _ _ _ W Hw1 M2 eq_refl) as Hw2. set (p2 := mk_parser _ _ _ _) in *. rewrite C1 in Hlt, Hch, Hcand, Hs, Hw2, Hq, Hr |- *.
  rewrite Cs, Ce in Hr. destruct r as [block |].
  - destruct Hr as (Hx & Hc & Hpc).
    destruct (special_step p0 p2 start _ q block W R Hw2 Hs ltac:(lia) Hc Hpc eq_refl) as (p3 & E5 & Hw3 & C3).
    rewrite (run_bind _ _ _ _ _ E5). cbn [negb]. assert (Eq : c_p (p_content p3) = q) by by rewrite C3.
    apply IH; rewrite ?Eq; [done | lia |]. rewrite C3. cbn [p2 p_content c_end set_p]. rewrite C1. lia.
  - destruct Hr as (Hno & Hpass). assert (Hq2 : c_p (p_content p) < q + 1 <= end_of p).
    { split; [lia |]. destruct Hpass as [[[_ (? & _ & _ & Hl)] Hy] | [_ Hy]]; [change (zlen str_lightning) with 10 in Hl |]; lia. }
    rewrite run_get. destruct (on_content_run (goto (c_p (p_content p2) + 1)) p2 tt (q + 1) (moved_pwf _ _ W2 M2) eq_refl) as [E5 M3].
    { cbn [p2 p_content c_p c_end set_p]. rewrite C1. lia. }
    rewrite (run_bind _ _ _ _ _ E5). pose proof (written_moved _ _ _ _ W Hw2 M3 eq_refl) as Hw3.
    apply IH; cbn [p2 p_content c_p c_end set_p] in *; [| lia | rewrite C1; lia].
    eapply written_impl; [| exact Hw3]. intros bs S. eapply scanned_text; [exact S | lia | exact Hno | exact Hpass].
Qed.
Lemma written_start p : pwf p -> c_p (p_content p) = start_of p -> written p p (scanned_in p (start_of p) (start_of p)).
Proof using Type.
  intros W Hc. split; [by apply moved_here |]. right. exists []. split; [constructor |]. change (zlen (bytes_of p [])) with 0.
  split; [lia |]. unfold held. change (bytes_of p []) with (@nil Z). change (@zlen Z []) with 0. destruct W as (Wb & _).
  rewrite loadn_in_range; [by rewrite take_0 | in_cursor..].
Qed.

(** From the loop on: the last text and the size of the blocks. *)
Lemma finish_text p0 p start : pwf p0 -> written p0 p (scanned_in p0 start (end_of p0)) -> start_of p0 <= start <= end_of p0 -> c_p (p_content p) = end_of p0 ->
  exists p1, (if 0 <? c_p (p_content p) - start then add_text_block start (c_p (p_content p)) else ret true) p = Some (true, p1) /\
    written p0 p1 (in_blocks bolt11_decode_minimal m (start_of p0) (end_of p0) (avail p0)).
Proof using Type.
  intros W Hw Hs Hc. rewrite Hc. destruct (text_step p0 p start (end_of p0) _ W Hw Hs ltac:(lia)) as (p1 & E & Hw1 & _).
  assert (Hin : forall bs, (exists bs', scanned_in p0 start (end_of p0) bs' /\ bs = bs' ++ text_block start (end_of p0)) ->
    in_blocks bolt11_decode_minimal m (start_of p0) (end_of p0) (avail p0) bs) by (intros bs H; by exists start).
  destruct (Z.ltb_spec 0 (end_of p0 - start)).
  - exists p1. split; [done |]. eapply written_impl; [exact Hin | exact Hw1].
  - exists p. split; [done |]. eapply written_impl; [exact Hin |]. eapply written_impl; [| exact Hw]. intros bs Hb. exists bs. split; [done |].
    unfold text_block. destruct (Z.eqb_spec start (end_of p0)); [by rewrite app_nil_r | lia].
Qed.

(** The whole run, from a well-formed start. *)
Lemma parse_body_run p0 : pwf p0 -> reads m p0 -> c_p (p_content p0) = c_start (p_content p0) -> c_p (p_buffer p0) = p_blocks p0 + off_blocks ->
  c_end (p_buffer p0) - c_start (p_buffer p0) < 2 ^ 31 ->
  exists ok p size, parse_body bolt11_decode_minimal p0 = Some (ok, p) /\ moved p0 p /\
    0 <= size <= c_end (p_buffer p0) - c_p (p_buffer p0) /\ held p (p_blocks p0 + off_blocks_size) (le_bytes 4 size) /\
    (ok = false -> c_end (p_buffer p0) - c_start (p_buffer p0) <= off_blocks + size + padding 3 (off_blocks + size)) /\
    (ok = true -> held p (p_blocks p0 + off_total_size) (le_bytes 4 (off_blocks + size + padding 3 (off_blocks + size))) /\
       off_blocks + size + padding 3 (off_blocks + size) <= c_end (p_buffer p0) - c_start (p_buffer p0)) /\
    (c_p (p_buffer p0) + size < c_end (p_buffer p0) -> exists bs,
       in_blocks bolt11_decode_minimal m (start_of p0) (end_of p0) (avail p0) bs /\
       size = zlen (all_bytes (c_start (p_content p0)) bs) /\ held p (c_p (p_buffer p0)) (all_bytes (c_start (p_content p0)) bs)).
Proof using decoder_ok.
  intros W R Hc Hb Hr. unfold parse_body. rewrite run_get. cbv zeta.
  destruct (begin_run p0 W) as (p1 & E1 & M1 & B1 & C1). rewrite (run_bind _ _ _ _ _ E1). pose proof (moved_pwf _ _ W M1) as W1.
  pose proof (reads_moved _ _ _ W M1 R) as R1.
  rewrite <- C1 in Hc |- *. pose proof (written_start p1 W1 Hc) as Hw1. rewrite <- Hc in Hw1 at 2.
  destruct (content_loop_run p1 (Z.to_nat (c_end (p_content p1) - c_p (p_content p1))) W1 R1 p1 (c_p (p_content p1)))
    as (start & p2 & E2 & Hw2 & Hs & Hend); [by rewrite Hc in Hw1 |- * | lia | lia |]. rewrite (run_bind _ _ _ _ _ E2), run_get.
  destruct (finish_text p1 p2 start W1 Hw2 Hs Hend) as (p3 & E3 & M3 & H3). rewrite (run_bind _ _ _ _ _ E3). cbn [negb].
  pose proof (moved_trans _ _ _ M1 M3) as M03. rewrite B1, C1 in H3.
  destruct (finish_run_end p0 p3 W M03 Hb Hr) as (ok & p4 & E4 & M4 & Hsize & Hf & Ht). rewrite E4.
  exists ok, p4, (c_p (p_buffer p3) - c_p (p_buffer p0)). split; [done |]. split; [by eapply moved_trans |].
  pose proof M03 as (Eb & _ & _ & _ & _ & Ee & Hcp & _). split; [lia |]. split; [done |]. split; [done |]. split; [done |].
  intros Hroom. rewrite C1. destruct H3 as [H3 | (bs & S & P & L)]; [unfold fullP in H3; lia |]. exists bs. split; [done |]. split; [lia |].
  eapply held_moved; [exact L | exact M4 | |]; lia.
Qed.

(** What a run leaves, from the arguments of the function. *)
Lemma parse_content_run buf buf_size content content_len m1 : (forall x, content <= x <= content + content_len -> load8 m1 x = load8 m x) ->
  0 <= buf -> off_blocks <= buf_size < 2 ^ 31 -> buf + buf_size <= zlen m1 ->
  0 <= content -> 0 <= content_len < 2 ^ 31 -> load8 m1 (content + content_len) = Some 0 ->
  content + content_len < buf \/ buf + buf_size <= content ->
  exists ok m' size, ndb_parse_content bolt11_decode_minimal buf buf_size content content_len m1 = Some (ok, m') /\
    zlen m' = zlen m1 /\ (forall x, x < buf \/ buf + buf_size <= x -> load8 m' x = load8 m1 x) /\
    0 <= size <= buf_size - off_blocks /\ loadn m' (buf + off_blocks_size) 4 = Some (le_bytes 4 size) /\
    (ok = false -> buf_size <= off_blocks + size + padding 3 (off_blocks + size)) /\
    (ok = true -> loadn m' (buf + off_total_size) 4 = Some (le_bytes 4 (off_blocks + size + padding 3 (off_blocks + size))) /\
       off_blocks + size + padding 3 (off_blocks + size) <= buf_size) /\
    (off_blocks + size < buf_size -> exists bs,
       in_blocks bolt11_decode_minimal m content (content + content_len) (buf_size - off_blocks) bs /\
       size = zlen (all_bytes content bs) /\ loadn m' (buf + off_blocks) size = Some (all_bytes content bs)).
Proof using decoder_ok.
  intros R H1 H2 H3 H4 H5 H6 H7. pose proof (initial_pwf buf buf_size content content_len m1 H1 (proj1 H2) H3 H4 H5 H6 H7) as W.
  unfold ndb_parse_content. destruct (Z.ltb_spec buf_size off_blocks); [lia |]. cbn [make_cursor c_p].
  destruct (parse_body_run _ W R eq_refl eq_refl) as (ok & p & size & E & M & Hs & Hh & Hf & Ht & Hbs); [cbn; lia |].
  change (mk_parser m1 (set_p (mk_cursor buf buf (buf + buf_size)) (buf + off_blocks)) _ _)
    with (mk_parser m1 (set_p (make_cursor buf (buf + buf_size)) (buf + off_blocks)) (make_cursor content (content + content_len)) buf).
  rewrite E. exists ok, (p_mem p), size. cbn [p_buffer p_content p_blocks c_p c_start c_end set_p make_cursor] in *.
  replace (buf + buf_size - (buf + off_blocks)) with (buf_size - off_blocks) in * by lia.
  unfold held in *. rewrite !zlen_le_bytes in *. split; [done |]. destruct M as (_ & _ & _ & _ & _ & _ & _ & Hz & Hx). split; [exact Hz |]. split.
  { intros x Hxr. apply Hx. cbn. lia. }
  split; [lia |]. split; [exact Hh |]. split; [intros Hok; specialize (Hf Hok); lia |]. split.
  { intros Hok. destruct (Ht Hok) as [Ht1 Ht2]. split; [exact Ht1 | lia]. }
  intros Hroom. destruct (Hbs ltac:(lia)) as (bs & S & Ez & L). exists bs. split; [done |]. split; [done |]. by rewrite Ez.
Qed.

End Parser.

(** C29: the parser never reads or writes outside its memory and always comes to
    an end.  On content that ends with a zero, with a buffer of at least a header
    apart from it, only the buffer changes.  The header gives the size of the
    blocks, and unless they fill the buffer the content is in them, in order: at
    every place where a piece may start, at the beginning, behind a boundary and at
    a "#", the piece that starts there is in a block of its kind, and what is
    between the blocks is in text blocks as it stands.  A piece is an index with
    its number, a hashtag with the whole word behind it, a link to where it ends,
    an invoice up to whitespace with what its text decodes to, or a mention with
    the bytes its text decodes to; what does not decode is text, and so is what
    lacks the room.  The "nostr:", "@" and "lightning:" before a piece and the link
    text around an entity on damus.io are in no block, and no piece is looked for
    behind a "lightning:".  Iterating over the blocks gives them back as far as
    they can be read.  The result is 1 whenever the padding fits, and then the
    header gives the padded size. *)
Theorem content_in_blocks (bolt11_decode_minimal : list Z -> option bolt11)
  (decoder_ok : forall s b, bolt11_decode_minimal s = Some b -> decoded_ok b) buf buf_size content content_len m c0 :
  0 <= buf -> off_blocks <= buf_size < 2 ^ 31 -> buf + buf_size <= zlen m ->
  0 <= content -> 0 <= content_len < 2 ^ 31 -> load8 m (content + content_len) = Some 0 ->
  content + content_len < buf \/ buf + buf_size <= content ->
  exists ok m' size, ndb_parse_content bolt11_decode_minimal buf buf_size content content_len m = Some (ok, m') /\
    (forall x, x < buf \/ buf + buf_size <= x -> load8 m' x = load8 m x) /\
    0 <= size <= buf_size - off_blocks /\ loadn m' (buf + off_blocks_size) 4 = Some (le_bytes 4 size) /\
    (ok = false -> buf_size <= off_blocks + size + padding 3 (off_blocks + size)) /\
    (ok = true -> loadn m' (buf + off_total_size) 4 = Some (le_bytes 4 (off_blocks + size + padding 3 (off_blocks + size)))) /\
    (off_blocks + size < buf_size -> exists bs,
       in_blocks bolt11_decode_minimal m content (content + content_len) (buf_size - off_blocks) bs /\
       iterate (S (length bs)) (ndb_blocks_iterate_start content buf) (m', c0)
         = Some (readable m' content (buf + off_blocks) (buf + off_blocks + size) bs, (m', c0))).
Proof.
  intros H1 H2 H3 H4 H5 H6 H7.
  destruct (parse_content_run _ decoder_ok m buf buf_size content content_len m (fun _ _ => eq_refl) H1 H2 H3 H4 H5 H6 H7)
    as (ok & m' & size & E & _ & Hx & Hs & Hh & Hf & Ht & Hbs).
  exists ok, m', size. split; [done |]. split; [done |]. split; [done |]. split; [done |]. split; [done |]. split; [intros Hok; by apply Ht |].
  intros Hroom. destruct (Hbs Hroom) as (bs & S & Ez & L). exists bs. split; [done |].
  refine (iterate_reads content buf size m' c0 bs _ Hh (buf + off_blocks) (Datatypes.S (length bs)) _ _ _ _ _);
    [unfold is_u32, off_blocks in *; lia | lia | lia | by rewrite <- Ez | eapply in_blocks_ok; [| | | | exact S]; try done; lia | lia].
Qed.


(** "hi #tag #[12] http://a.b" *)
Definition demo_content : list Z :=
  [104; 105; 32; 35; 116; 97; 103; 32; 35; 91; 49; 50; 93; 32; 104; 116; 116; 112; 58; 47; 47; 97; 46; 98].

Definition demo_parser_memory : mem := demo_content ++ replicate 104 0.

Lemma content_in_blocks_witness :
  (exists ok m' size, ndb_parse_content (fun _ => None) 32 96 0 24 demo_parser_memory = Some (ok, m') /\
     loadn m' 44 4 = Some (le_bytes 4 size) /\
     (24 + size < 96 -> exists bs, in_blocks (fun _ => None) demo_parser_memory 0 24 72 bs /\
        iterate (S (length bs)) (ndb_blocks_iterate_start 0 32) (m', make_cursor 0 0) = Some (readable m' 0 56 (56 + size) bs, (m', make_cursor 0 0)))) /\
  match ndb_parse_content (fun _ => None) 32 96 0 24 demo_parser_memory with
  | Some (true, m') => option_map fst (iterate 8 (ndb_blocks_iterate_start 0 32) (m', make_cursor 0 0))
  | _ => None
  end = Some [BlockStr BLOCK_TEXT (mk_str 0 3); BlockStr BLOCK_HASHTAG (mk_str 4 3); BlockStr BLOCK_TEXT (mk_str 7 1);
              BlockMentionIndex 12; BlockStr BLOCK_TEXT (mk_str 13 1); BlockStr BLOCK_URL (mk_str 14 10)].
Proof.
  split; [| by vm_compute].
  destruct (content_in_blocks (fun _ => None) ltac:(discriminate) 32 96 0 24 demo_parser_memory (make_cursor 0 0)
    ltac:(lia) ltac:(unfold off_blocks; lia) ltac:(vm_compute; discriminate) ltac:(lia) ltac:(lia) ltac:(vm_compute; reflexivity) ltac:(lia))
    as (ok & m' & size & E & _ & _ & Hs & _ & _ & Hb).
  exists ok, m', size. split; [exact E |]. split; [exact Hs | exact Hb].
Defined.

