(* ===== verification/NoteBlocks.v ===== *)
(** * Blocks of stored notes (src/src/nostrdb.c)

    The content of a note is parsed once, when the note is written or when its
    blocks are first asked for ([ndb_write_new_blocks], [ndb_get_blocks_by_key]),
    and the blocks are kept in a table under the key of the note.  Before old rows
    are trusted they are checked ([ndb_stored_blocks_ok]).  A note is at address 0
    of its memory and the blocks behind it. *)

From stdpp Require Import sorting.
From S2P Require Import Store Write.
From S2P Require Import Prelude Cursor Reader Bech32 NostrBech32 Blocks Content Pieces ContentBlocks.
Open Scope Z_scope.
Open Scope ndb_scope.

Definition INT32_MAX : Z := 2 ^ 31 - 1.

(** ** Checking a row *)

(** Every string lies in the content. *)
Fixpoint strings_inside (fuel : nat) (iter : ndb_block_iterator) (content content_len : Z) : CM bool :=
  match fuel with
  | O => ret true
  | S fuel =>
      let* '(r, iter) := ndb_blocks_iterate_next iter in
      match r with
      | None => ret true
      | Some block =>
          match ndb_block_str block with
          | None => strings_inside fuel iter content content_len
          | Some str =>
              if (sb_str str <? content) || (content_len <? sb_str str - content + sb_len str) then ret false
              else strings_inside fuel iter content content_len
          end
      end
  end.

(** A block takes a byte at least, which bounds the rounds. *)
Definition ndb_stored_blocks_ok (blocks row_size note : Z) : CM bool :=
  if row_size <? off_blocks then ret false
  else
    let* total_size := load_u32 (blocks + off_total_size) in
    if row_size <? total_size then ret false
    else
      let* blocks_size := load_u32 (blocks + off_blocks_size) in
      if total_size <? off_blocks + blocks_size then ret false
      else
        let slack := total_size - off_blocks - blocks_size in
        if 8 <=? slack then ret false
        else
          let* s := get in
          let* content := lift (ndb_note_content (fst s) note) in
          let* content_len := lift (ndb_note_content_length (fst s) note) in
          strings_inside (S (Z.to_nat blocks_size)) (ndb_blocks_iterate_start content blocks) content content_len.

(** ** Writing *)

(** A flag of the header, set or cleared. *)
Definition set_owned (m : mem) (blocks : Z) : option mem :=
  f ← load8 m (blocks + off_flags); storen m (blocks + off_flags) [Z.lor f NDB_BLOCK_FLAG_OWNED].
Definition clear_owned (m : mem) (blocks : Z) : option mem :=
  f ← load8 m (blocks + off_flags); storen m (blocks + off_flags) [Z.land f (255 - NDB_BLOCK_FLAG_OWNED)].

(** The bytes of the blocks, padding included. *)
Definition blocks_bytes (m : mem) (blocks : Z) : option (list Z) :=
  size ← Note.load_u32 m (blocks + off_total_size); loadn m blocks size.

Section store.
Context {D C : Type} `{!Lmdb D C} `{!LmdbPut D C}.
Context (bolt11_decode_minimal : list Z -> option bolt11).

(** The size is asserted to be a multiple of eight; a failed put is ignored. *)
Definition ndb_write_blocks (note_key : Z) (m : mem) (blocks : Z) : M (ndb_txn D) unit :=
  let* m := lift (clear_owned m blocks) in
  let* val := lift (blocks_bytes m blocks) in
  if zlen val mod 8 =? 0 then
    let* _ := txn_put NDB_DB_NOTE_BLOCKS (le_bytes 8 note_key) val false in ret tt
  else lift None.

(** [scratch] is behind the note. *)
Definition ndb_write_new_blocks (scratch : mem) (nm : mem) (note note_key : Z) : M (ndb_txn D) bool :=
  let* content_len := lift (ndb_note_content_length nm note) in
  let* content := lift (ndb_note_content nm note) in
  let* r := lift (ndb_parse_content bolt11_decode_minimal (zlen nm) (i32 (zlen scratch)) content (i32 content_len) (nm ++ scratch)) in
  let '(ok, m) := r in
  if ok : bool then do* ndb_write_blocks note_key m (zlen nm) in ret true else ret false.

(** ** Generating on demand *)

Definition blocks_buffer_size : Z := Z.shiftl 2 18.

(** [buffer] is the memory [malloc] gives, behind the note. *)
Definition ndb_note_to_blocks (buffer : mem) (nm : mem) (note : Z) : option (option mem) :=
  content ← ndb_note_content nm note;
  content_len ← ndb_note_content_length nm note;
  if INT32_MAX <=? content_len then Some None
  else
    r ← ndb_parse_content bolt11_decode_minimal (zlen nm) blocks_buffer_size content (i32 content_len) (nm ++ buffer);
    if (fst r : bool) then m ← set_owned (snd r) (zlen nm); Some (Some m) else Some None.

(** A row of the table, or the note with new blocks behind it and the copy that
    goes to the writer. *)
Inductive found_blocks := StoredBlocks (row : list Z) | NewBlocks (nm m : mem) (copy : list Z).

Definition ndb_get_blocks_by_key (buffer : mem) (txn : ndb_txn D) (note_key : Z) : option (option found_blocks) :=
  match ndb_lookup_by_key txn note_key NDB_DB_NOTE_BLOCKS with
  | Some row => Some (Some (StoredBlocks row))
  | None =>
      match ndb_get_note_by_key txn note_key with
      | None => Some None
      | Some nm =>
          r ← ndb_note_to_blocks buffer nm 0;
          match r with
          | None => Some None
          | Some m =>
              copy ← blocks_bytes m (zlen nm);
              f ← load8 m (zlen nm + off_flags);
              if Z.land f NDB_BLOCK_FLAG_OWNED =? 0 then None else Some (Some (NewBlocks nm m copy))
          end
      end
  end.

(** What the writer does with the copy, at address 0 of its memory. *)
Definition write_copy (note_key : Z) (copy : list Z) : M (ndb_txn D) unit := ndb_write_blocks note_key copy 0.

End store.

(** * Lemmas *)

(** ** Checking what is there *)

Definition inside (content content_len : Z) (block : ndb_block) : Prop :=
  match ndb_block_str block with
  | None => True
  | Some s => content <= sb_str s /\ sb_str s - content + sb_len s <= content_len
  end.

Lemma strings_inside_run fuel : forall iter content n s l s', iterate fuel iter s = Some (l, s') -> Forall (inside content n) l ->
  strings_inside fuel iter content n s = Some (true, s').
Proof.
  induction fuel as [| fuel IH]; intros iter content n s l s' E H; cbn [iterate strings_inside] in *; [by injection E as <- <- |].
  unfold bind at 1 in E. unfold bind at 1. destruct (ndb_blocks_iterate_next iter s) as [[[r it] s1] |]; [| done].
  destruct r as [block |]; [| by injection E as <- <-]. unfold bind in E.
  destruct (iterate fuel it s1) as [[rest s2] |] eqn:E2; [| done]. injection E as <- <-.
  apply List.Forall_cons_iff in H as [Hb H]. unfold inside in Hb. destruct (ndb_block_str block) as [str |]; [| by eapply IH].
  destruct (Z.ltb_spec (sb_str str) content), (Z.ltb_spec n (sb_str str - content + sb_len str)); cbn [orb]; try lia. by eapply IH.
Qed.

Definition stored_str (b : stored_block) : option ndb_str_block :=
  match b with SStr _ s | SMention s _ _ | SInvoice s _ => Some s | SIndex _ => None end.

Lemma pulled_str m content p cend b block : pulled m content p cend b = Some block -> ndb_block_str block = stored_str b.
Proof.
  destruct b as [t s | n | s t bytes | s i]; cbn [pulled stored_str].
  - by intros [= <-].
  - by intros [= <-].
  - destruct (parse_nostr_bech32_buffer _ _) as [[[obj |] s'] |]; [| done..]. by intros [= <-].
  - destruct (pulled_invoice _ _ _); [| done]. by intros [= <-].
Qed.

(** The strings of blocks that cover a content lie in it. *)
Definition str_inside (lo len : Z) (b : stored_block) : Prop :=
  match stored_str b with None => True | Some s => lo <= sb_str s /\ sb_str s - lo + sb_len s <= len end.

Section inside.
Context (decode : list Z -> option bolt11) (m : mem) (lo len cap : Z).
Context (Hlo : 0 <= lo) (Hz : load8 m (lo + len) = Some 0) (Hlen : 0 <= len).

Lemma text_inside start x : lo <= start <= x -> x <= lo + len -> Forall (str_inside lo len) (text_block start x).
Proof using Type.
  intros Hs Hx. unfold text_block. destruct (start =? x); [constructor |]. constructor; [cbn; lia | constructor].
Qed.

Lemma becomes_inside avail mid hi block b : lo <= mid <= lo + len -> piece m lo (lo + len) mid hi block ->
  becomes decode m lo (lo + len) avail block b -> str_inside lo len b.
Proof using Hlo Hz.
  intros Hm Hp Hb. destruct (piece_bounds m m lo (lo + len) Hlo (fun _ _ => eq_refl) Hz mid hi block Hm Hp) as [_ Hl].
  destruct block as [t s | n]; cbn in Hb, Hl; [| by subst]. destruct Hl as (Ht & H1 & H2 & _ & H3).
  destruct t; try done; try (subst; cbn; lia).
  - destruct Hb as (type & l & _ & _ & Hx). destruct (bech32_bytes l); [destruct Hx as [-> | [-> _]] | subst b]; cbn; lia.
  - destruct Hb as (l & _ & Hx). destruct (decode l); [destruct Hx as [[_ ->] | [-> _]] | subst b]; cbn; lia.
Qed.

Lemma scanned_inside start x bs : scanned decode m lo (lo + len) cap start x bs -> Forall (str_inside lo len) bs.
Proof using Hlo Hz Hlen.
  intros S. induction S as [| start x y bs S IH | start x hi block b bs S IH Hx _ Hp Hb]; [constructor | done |].
  pose proof (scanned_range _ _ _ _ _ Hlo Hz _ _ _ S ltac:(lia)). rewrite !List.Forall_app. split; [done |]. split; [apply text_inside; lia |].
  constructor; [| constructor]. eapply becomes_inside; [| exact Hp | exact Hb]. lia.
Qed.

Lemma in_blocks_inside bs : in_blocks decode m lo (lo + len) cap bs -> Forall (str_inside lo len) bs.
Proof using Hlo Hz Hlen.
  intros (start & bs' & S & ->). pose proof (scanned_range _ _ _ _ _ Hlo Hz _ _ _ S ltac:(lia)). apply List.Forall_app.
  split; [by eapply scanned_inside | apply text_inside; lia].
Qed.

End inside.

Lemma readable_inside m content len cend bs : forall p,
  Forall (str_inside content len) bs ->
  Forall (inside content len) (readable m content p cend bs).
Proof.
  induction bs as [| b bs IH]; intros p H; cbn [readable]; [by constructor |]. apply List.Forall_cons_iff in H as [Hb H].
  destruct (pulled m content p cend b) as [block |] eqn:E; [| by constructor]. constructor; [| by apply IH].
  unfold inside, str_inside in *. by rewrite (pulled_str _ _ _ _ _ _ E).
Qed.

Lemma length_all_bytes content bs : zlen bs <= zlen (all_bytes content bs).
Proof.
  induction bs as [| b bs IH]; [done |]. change (all_bytes content (b :: bs)) with (stored_bytes content b ++ all_bytes content bs).
  rewrite zlen_app, zlen_cons. pose proof (varint_pos (block_type_num (stored_type b))). pose proof (zlen_nonneg (stored_body content b)).
  rewrite stored_bytes_split, zlen_app. lia.
Qed.

(** A header and blocks that cover the content of a note are trusted. *)
Lemma trusted_run m (c : cursor) blocks row_size size total a n bs :
  ndb_note_content m 0 = Some a -> ndb_note_content_length m 0 = Some n ->
  is_u32 size -> is_u32 total -> off_blocks <= row_size -> total <= row_size -> off_blocks + size <= total < off_blocks + size + 8 ->
  loadn m (blocks + off_total_size) 4 = Some (le_bytes 4 total) -> loadn m (blocks + off_blocks_size) 4 = Some (le_bytes 4 size) ->
  Forall (stored_ok a) bs -> Forall (str_inside a n) bs -> size = zlen (all_bytes a bs) -> loadn m (blocks + off_blocks) size = Some (all_bytes a bs) ->
  ndb_stored_blocks_ok blocks row_size 0 (m, c) = Some (true, (m, c)).
Proof.
  intros Hc Hn Us Ut H1 H2 H3 Lt Ls Sok Sin Hsz Lb. unfold ndb_stored_blocks_ok.
  destruct (Z.ltb_spec row_size off_blocks); [lia |]. rewrite (run_bind _ _ _ _ _ (load_u32_run _ _ m c Ut Lt)).
  destruct (Z.ltb_spec row_size total); [lia |]. rewrite (run_bind _ _ _ _ _ (load_u32_run _ _ m c Us Ls)).
  destruct (Z.ltb_spec total (off_blocks + size)); [lia |]. cbv zeta. destruct (Z.leb_spec 8 (total - off_blocks - size)); [lia |].
  rewrite run_get. cbn [fst]. rewrite (run_lift _ a) by done. rewrite (run_lift _ n) by done.
  eapply strings_inside_run.
  - apply (iterate_reads a blocks size m c bs Us Ls (blocks + off_blocks)); [lia | lia | by rewrite <- Hsz | exact Sok |].
    pose proof (length_all_bytes a bs). unfold zlen in *. lia.
  - by apply readable_inside.
Qed.

(** ** Rows behind a note *)

Lemma load8_left x y i : i < zlen x -> load8 (x ++ y) i = load8 x i.
Proof. intros H. unfold load8. destruct (Z.leb_spec 0 i); [| done]. unfold zlen in H. by rewrite lookup_app_l by lia. Qed.

Lemma loadn_left x y a n : a + n <= zlen x -> loadn (x ++ y) a n = loadn x a n.
Proof.
  intros H. destruct (decide (0 <= a /\ 0 <= n)) as [[Ha Hn] | Hneg].
  - rewrite (loadn_in_range x) by done. apply loadn_ext; [done | rewrite zlen_app; pose proof (zlen_nonneg y); lia | zl |].
    intros i Hi. rewrite load8_left by lia. symmetry.
    rewrite <- (loadn_load8 x a n _ i (loadn_in_range x a n Ha Hn H) Hi). done.
  - unfold loadn. destruct (Z.leb_spec 0 a), (Z.leb_spec 0 n); cbn [andb]; try done. lia.
Qed.

(** A memory whose first bytes have not changed. *)
Lemma same_front x y m : zlen m = zlen (x ++ y) -> (forall i, i < zlen x -> load8 m i = load8 (x ++ y) i) ->
  exists y', m = x ++ y' /\ zlen y' = zlen y.
Proof.
  intros Hl H. rewrite zlen_app in Hl. assert (E : loadn m 0 (zlen x) = Some x).
  { pose proof (zlen_nonneg x). pose proof (zlen_nonneg y). apply loadn_ext; [lia | lia | done |]. intros i Hi.
    rewrite H by lia. rewrite load8_left by lia. unfold load8. destruct (Z.leb_spec 0 (0 + i)); [done | lia]. }
  apply loadn_Some in E as (_ & _ & _ & E). exists (drop (Z.to_nat (zlen x)) m). split.
  - rewrite E at 1. change (Z.to_nat 0) with 0%nat. rewrite drop_0. by rewrite take_drop.
  - rewrite zlen_drop. pose proof (zlen_nonneg x). pose proof (zlen_nonneg y). lia.
Qed.

(** ** The table of blocks *)

(** The rows after a put: in the order of their keys, one for each. *)
Fixpoint put_row (k : Z) (v : list Z) (rows : list (Z * list Z)) : list (Z * list Z) :=
  match rows with
  | [] => [(k, v)]
  | p :: rows' =>
      if k <? fst p then (k, v) :: rows
      else if k =? fst p then (k, v) :: rows'
      else p :: put_row k v rows'
  end.

Lemma put_row_in k v rows : StronglySorted (fun p q => fst p < fst q) rows ->
  forall k' n, (k', n) ∈ put_row k v rows <-> (k' = k /\ n = v) \/ (k' <> k /\ (k', n) ∈ rows).
Proof.
  induction 1 as [| p rows S IH F]; intros k' n; cbn [put_row].
  - rewrite list_elem_of_singleton, elem_of_nil. split; [intros [= -> ->]; by left | intros [[-> ->] | [_ []]]; done].
  - assert (Hlt : forall k' n, (k', n) ∈ rows -> fst p < k').
    { intros k1 n1 H%list_elem_of_In. rewrite List.Forall_forall in F. exact (F _ H). }
    destruct (Z.ltb_spec k (fst p)) as [Hk | Hk]; [| destruct (Z.eqb_spec k (fst p)) as [-> | Hne]]; rewrite !elem_of_cons.
    + split; [intros [[= -> ->] | H]; [by left | right] | intros [[-> ->] | [_ H]]; [by left | by right]].
      split; [| done]. destruct H as [<- | H%Hlt]; cbn in *; lia.
    + split; [intros [[= -> ->] | H]; [by left | right] | intros [[-> ->] | [Hn [<- | H]]]; [by left | done | by right]].
      split; [| by right]. apply Hlt in H. lia.
    + rewrite IH. split.
      * intros [<- | [H | [Hn H]]]; [right; cbn in *; split; [congruence | by left] | by left | right; auto].
      * intros [H | [Hn [-> | H]]]; [right; by left | by left | right; right; done].
Qed.

Lemma put_row_sorted k v rows : StronglySorted (fun p q => fst p < fst q) rows -> StronglySorted (fun p q => fst p < fst q) (put_row k v rows).
Proof.
  induction 1 as [| p rows S IH F]; cbn [put_row].
  - by repeat constructor.
  - destruct (Z.ltb_spec k (fst p)) as [Hk | Hk]; [| destruct (Z.eqb_spec k (fst p)) as [-> | Hne]].
    + constructor; [by constructor |]. constructor; [done |]. eapply List.Forall_impl; [| exact F]. cbn. lia.
    + by constructor.
    + constructor; [exact IH |]. apply List.Forall_forall. intros [k' n] H%list_elem_of_In.
      rewrite put_row_in in H by done. rewrite List.Forall_forall in F. destruct H as [[-> ->] | [_ H%list_elem_of_In%F]]; cbn in *; lia.
Qed.

Section table.
Context {D C : Type} `{!Lmdb D C} `{!LmdbPut D C}.

Lemma put_items_row k v rows : is_u64 k -> Forall (fun p => is_u64 (fst p)) rows ->
  put_items int_cmp None (le_bytes 8 k, v) (map (fun p => (le_bytes 8 (fst p), snd p)) rows)
    = Some (map (fun p => (le_bytes 8 (fst p), snd p)) (put_row k v rows)).
Proof using Type.
  intros Hk. induction rows as [| p rows IH]; intros W; [done |]. apply List.Forall_cons_iff in W as [Wp W].
  cbn [map put_items put_row]. unfold item_cmp at 1. cbn [fst snd]. rewrite int_cmp_bytes by (exact Hk || exact Wp). cbn [mbind option_bind].
  destruct (Z.compare_spec k (fst p)) as [-> | Hlt | Hgt]; cbn [sgn Z.eqb Z.ltb Z.compare Pos.eqb mbind option_bind].
  - by rewrite Z.ltb_irrefl, Z.eqb_refl.
  - destruct (Z.ltb_spec k (fst p)); [done | lia].
  - destruct (Z.ltb_spec k (fst p)); [lia |]. destruct (Z.eqb_spec k (fst p)); [lia |]. by rewrite (IH W).
Qed.

Lemma put_blocks (Po : puts_ok D) (txn : ndb_txn D) rows k v : env_ok txn -> note_table (txn NDB_DB_NOTE_BLOCKS) rows -> is_u64 k -> zlen v <= MAXDATASIZE ->
  exists d, txn_put NDB_DB_NOTE_BLOCKS (le_bytes 8 k) v false txn = Some (true, upd txn NDB_DB_NOTE_BLOCKS d) /\
    env_ok (upd txn NDB_DB_NOTE_BLOCKS d) /\ note_table d (put_row k v rows).
Proof using Type.
  intros E T Hk Hv. assert (Hsz : sizes_ok (db_dup (txn NDB_DB_NOTE_BLOCKS)) (le_bytes 8 k) v = true).
  { rewrite (nt_dup _ _ T). by apply sizes_ok_none; [rewrite zlen_le_bytes |]. }
  pose proof (put_items_row k v rows Hk (nt_wf _ _ T)) as P.
  rewrite <- (nt_items _ _ T), <- (nt_cmp _ _ T), <- (nt_dup _ _ T) in P.
  destruct (Po _ (le_bytes 8 k) v Hsz ltac:(rewrite P; eauto)) as [d Hd]. destruct (mdb_put_spec _ _ _ _ _ Hd) as (E1 & E2 & E3 & _).
  rewrite P in E3. injection E3 as E3. exists d. split; [unfold txn_put; by rewrite Hd |]. split; [by eapply env_ok_upd |].
  split; [by rewrite E1, (nt_cmp _ _ T) | by rewrite E2, (nt_dup _ _ T) | done | | apply put_row_sorted, (nt_sorted _ _ T)].
  apply List.Forall_forall. intros [k' n] H%list_elem_of_In. rewrite put_row_in in H by apply (nt_sorted _ _ T).
  destruct H as [[-> _] | [_ H]]; [done |]. exact (nt_key_wf _ _ _ T H).
Qed.
End table.

(** A header with its flag changed. *)
Lemma flag_run (f : Z -> Z) nm s : 2 <= zlen s ->
  exists s', (b ← load8 (nm ++ s) (zlen nm + off_flags); storen (nm ++ s) (zlen nm + off_flags) [f b]) = Some (nm ++ s') /\ zlen s' = zlen s /\
    forall a n, zlen nm + off_flags < a \/ a + n <= zlen nm + off_flags -> loadn (nm ++ s') a n = loadn (nm ++ s) a n.
Proof.
  intros Hs. pose proof (zlen_nonneg nm). unfold off_flags.
  destruct (proj2 (load8_is_Some (nm ++ s) (zlen nm + 1)) ltac:(rewrite zlen_app; lia)) as [b Hb]. rewrite Hb. cbn [mbind option_bind].
  destruct (storen_in_range (nm ++ s) (zlen nm + 1) [f b]) as [m Hm]; [lia | rewrite zlen_app; change (zlen [f b]) with 1; lia |].
  rewrite Hm. destruct (same_front nm s m) as (s' & -> & Hz); [by eapply storen_length | |].
  { intros i Hi. rewrite (load8_storen _ _ _ _ i Hm). destruct (Z.leb_spec (zlen nm + 1) i); cbn [andb]; [lia | done]. }
  exists s'. split; [done |]. split; [done |]. intros a n Ha. apply (loadn_storen_other _ _ _ _ _ _ Hm). change (zlen [f b]) with 1. lia.
Qed.

Lemma blocks_bytes_run nm s total : is_u32 total -> total <= zlen s -> loadn (nm ++ s) (zlen nm + off_total_size) 4 = Some (le_bytes 4 total) ->
  exists row rest, s = row ++ rest /\ zlen row = total /\ blocks_bytes (nm ++ s) (zlen nm) = Some row.
Proof.
  intros Hu Ht Hl. exists (take (Z.to_nat total) s), (drop (Z.to_nat total) s). rewrite take_drop. split; [done |].
  unfold is_u32 in Hu. split; [rewrite zlen_take; lia |]. unfold blocks_bytes, Note.load_u32. rewrite Hl. cbn [fmap option_fmap option_map mbind option_bind].
  rewrite le_int_le_bytes_small by done. pose proof (zlen_nonneg nm).
  rewrite loadn_in_range by (try rewrite zlen_app; lia). f_equal. rewrite drop_app_ge by (unfold zlen; lia).
  replace (Z.to_nat (zlen nm) - length nm)%nat with 0%nat by (unfold zlen; lia). by rewrite drop_0.
Qed.

(** What the table holds after the blocks of a note have been written. *)
Definition row_of (decode : list Z -> option bolt11) (nm : mem) (a n size : Z) (room : Z) (row : list Z) : Prop :=
  zlen row = off_blocks + size + padding 3 (off_blocks + size) /\
  (off_blocks + size < room -> forall c : cursor,
     ndb_stored_blocks_ok (zlen nm) (zlen row) 0 (nm ++ row, c) = Some (true, (nm ++ row, c)) /\
     exists bs, in_blocks decode nm a (a + n) (room - off_blocks) bs /\ size = zlen (all_bytes a bs) /\
       iterate (S (length bs)) (ndb_blocks_iterate_start a (zlen nm)) (nm ++ row, c)
         = Some (readable (nm ++ row) a (zlen nm + off_blocks) (zlen nm + off_blocks + size) bs, (nm ++ row, c))).

Lemma content_kept nm y a n : ndb_note_content nm 0 = Some a -> ndb_note_content_length nm 0 = Some n ->
  ndb_note_content (nm ++ y) 0 = Some a /\ ndb_note_content_length (nm ++ y) 0 = Some n.
Proof.
  unfold ndb_note_content, ndb_note_content_length, ndb_note_str, Note.load_u32. intros Ha Hn.
  assert (K8 : forall i b, load8 nm i = Some b -> load8 (nm ++ y) i = Some b).
  { intros i b H. rewrite load8_left; [done |]. apply load8_Some_range in H. lia. }
  assert (K4 : forall i l, loadn nm i 4 = Some l -> loadn (nm ++ y) i 4 = Some l) by (intros; by apply loadn_app_l).
  split.
  - destruct (load8 nm _) as [f |] eqn:E; [| discriminate Ha]. rewrite (K8 _ _ E). cbn [mbind option_bind] in *.
    destruct (f =? NDB_PACKED_STR); [done |].
    destruct (loadn nm (0 + off.strings) 4) as [l1 |] eqn:E1; [| discriminate Ha]. rewrite (K4 _ _ E1).
    cbn [fmap option_fmap option_map mbind option_bind] in *.
    destruct (loadn nm (0 + off.content) 4) as [l2 |] eqn:E2; [| discriminate Ha]. by rewrite (K4 _ _ E2).
  - destruct (loadn nm (0 + off.content_length) 4) as [l |] eqn:E; [| discriminate Hn]. by rewrite (K4 _ _ E).
Qed.

(** The row is what the parser left, but for the flag. *)
Lemma row_of_run decode nm s row rest a n size room : ndb_note_content nm 0 = Some a -> ndb_note_content_length nm 0 = Some n ->
  0 <= a -> load8 nm (a + n) = Some 0 -> 0 <= n < 2 ^ 31 -> 0 <= size -> is_u32 (zlen row) -> s = row ++ rest -> zlen row = off_blocks + size + padding 3 (off_blocks + size) ->
  loadn (nm ++ s) (zlen nm + off_total_size) 4 = Some (le_bytes 4 (zlen row)) -> loadn (nm ++ s) (zlen nm + off_blocks_size) 4 = Some (le_bytes 4 size) ->
  (off_blocks + size < room -> exists bs, in_blocks decode nm a (a + n) (room - off_blocks) bs /\ size = zlen (all_bytes a bs) /\
     loadn (nm ++ s) (zlen nm + off_blocks) size = Some (all_bytes a bs)) ->
  row_of decode nm a n size room row.
Proof.
  intros Ha Hn Ha0 Hz0 Hr Hs Hu -> Hz Lt Ls Hbs. split; [done |]. intros Hroom c. destruct (Hbs Hroom) as (bs & S & Esz & Lb).
  assert (Sok : Forall (stored_ok a) bs) by (eapply in_blocks_ok; [exact Ha0 | exact Hz0 | | | exact S]; lia).
  assert (Sin : Forall (str_inside a n) bs) by (eapply in_blocks_inside; [exact Ha0 | exact Hz0 | | exact S]; lia).
  assert (Hpad : 0 <= padding 3 (off_blocks + size) < 8) by (apply Z.mod_pos_bound; lia).
  unfold off_blocks, off_total_size, off_blocks_size in *.
  rewrite app_assoc in Lt, Ls, Lb. rewrite loadn_left in Lt, Ls, Lb by (rewrite zlen_app; lia).
  destruct (content_kept nm row a n Ha Hn) as [Ha' Hn'].
  assert (Us : is_u32 size) by (unfold is_u32 in *; lia). split.
  - apply (trusted_run (nm ++ row) c (zlen nm) (zlen row) size (zlen row) a n bs); auto; unfold off_blocks; lia.
  - exists bs. split; [done |]. split; [done |].
    apply (iterate_reads a (zlen nm) size (nm ++ row) c bs Us Ls (zlen nm + 24)); unfold off_blocks; [lia | lia | by rewrite <- Esz | exact Sok | lia].
Qed.

Section writing.
Context {D C : Type} `{!Lmdb D C} `{!LmdbPut D C}.
Context (bolt11_decode_minimal : list Z -> option bolt11).
Hypothesis decoder_ok : forall s b, bolt11_decode_minimal s = Some b -> decoded_ok b.
Context (Po : puts_ok D) (txn : ndb_txn D) (rows : list (Z * list Z)).
Hypothesis (Env : env_ok txn) (Tab : note_table (txn NDB_DB_NOTE_BLOCKS) rows).

(** The parser on the content of a note, with room behind it. *)
Lemma parse_note_run nm scratch a n : 0 <= a -> 0 <= n < 2 ^ 31 -> a + n < zlen nm -> load8 nm (a + n) = Some 0 ->
  off_blocks <= zlen scratch < 2 ^ 31 ->
  exists ok s size, ndb_parse_content bolt11_decode_minimal (zlen nm) (zlen scratch) a n (nm ++ scratch) = Some (ok, nm ++ s) /\
    zlen s = zlen scratch /\ 0 <= size <= zlen scratch - off_blocks /\
    loadn (nm ++ s) (zlen nm + off_blocks_size) 4 = Some (le_bytes 4 size) /\
    (ok = false -> zlen scratch <= off_blocks + size + padding 3 (off_blocks + size)) /\
    (ok = true -> loadn (nm ++ s) (zlen nm + off_total_size) 4 = Some (le_bytes 4 (off_blocks + size + padding 3 (off_blocks + size))) /\
       off_blocks + size + padding 3 (off_blocks + size) <= zlen scratch) /\
    (off_blocks + size < zlen scratch -> exists bs, in_blocks bolt11_decode_minimal nm a (a + n) (zlen scratch - off_blocks) bs /\ size = zlen (all_bytes a bs) /\
       loadn (nm ++ s) (zlen nm + off_blocks) size = Some (all_bytes a bs)).
Proof using decoder_ok.
  intros Ha Hn Han Hz Hs. pose proof (zlen_nonneg nm).
  destruct (parse_content_run _ decoder_ok nm (zlen nm) (zlen scratch) a n (nm ++ scratch)) as (ok & m & size & E & Hl & Hx & H1 & H2 & H3 & H4 & H5);
    [intros x Hxr; apply load8_left; lia | lia | lia | rewrite zlen_app; lia | lia | lia | rewrite load8_left; [done | lia] | lia |].
  destruct (same_front nm scratch m Hl) as (s & -> & Hz2); [intros i Hi; apply Hx; lia |].
  exists ok, s, size. auto 10.
Qed.

Lemma write_blocks_run key nm s total : is_u64 key -> 2 <= zlen s -> is_u32 total -> total <= zlen s -> total mod 8 = 0 ->
  loadn (nm ++ s) (zlen nm + off_total_size) 4 = Some (le_bytes 4 total) ->
  exists s' row rest d, ndb_write_blocks key (nm ++ s) (zlen nm) txn = Some (tt, upd txn NDB_DB_NOTE_BLOCKS d) /\
    env_ok (upd txn NDB_DB_NOTE_BLOCKS d) /\ note_table d (put_row key row rows) /\ s' = row ++ rest /\ zlen row = total /\ zlen s' = zlen s /\
    forall b n, zlen nm + off_flags < b -> loadn (nm ++ s') b n = loadn (nm ++ s) b n.
Proof using Po Env Tab.
  intros Hk H2 Hu Ht H8 Hl. destruct (flag_run (fun f => Z.land f (255 - NDB_BLOCK_FLAG_OWNED)) nm s H2) as (s' & E & Hz & Hx).
  assert (Hl' : loadn (nm ++ s') (zlen nm + off_total_size) 4 = Some (le_bytes 4 total)) by (rewrite Hx; [done | unfold off_flags, off_total_size; lia]).
  destruct (blocks_bytes_run nm s' total Hu ltac:(lia) Hl') as (row & rest & Es & Hr & Eb).
  destruct (put_blocks Po txn rows key row Env Tab Hk ltac:(unfold is_u32, MAXDATASIZE in *; lia)) as (d & Ep & Env' & Tab').
  exists s', row, rest, d. split.
  { unfold ndb_write_blocks. rewrite (run_lift _ (nm ++ s')) by exact E. rewrite (run_lift _ row) by exact Eb.
    rewrite Hr, H8. cbn [Z.eqb]. by rewrite (run_bind _ _ _ _ _ Ep). }
  split; [done |]. split; [done |]. split; [done |]. split; [done |]. split; [done |]. intros b n Hb. apply Hx. lia.
Qed.

Lemma padded_multiple x : 0 <= x -> (x + padding 3 x) mod 8 = 0.
Proof using Type.
  intros H. unfold padding. change (2 ^ 3) with 8. pose proof (Z.div_mod x 8 ltac:(lia)). pose proof (Z.mod_pos_bound x 8 ltac:(lia)).
  destruct (decide (x mod 8 = 0)) as [E | E].
  - rewrite Z.mod_opp_l_z by lia. replace (x + 0) with x by lia. done.
  - rewrite Z.mod_opp_l_nz by lia. replace (x + (8 - x mod 8)) with ((x / 8 + 1) * 8) by lia. by apply Z.mod_mul.
Qed.

(** The writer on a note whose content is laid out in it. *)
Lemma write_new_blocks_run scratch nm key a n : is_u64 key ->
  ndb_note_content nm 0 = Some a -> ndb_note_content_length nm 0 = Some n -> 0 <= a -> 0 <= n < 2 ^ 31 -> load8 nm (a + n) = Some 0 ->
  off_blocks <= zlen scratch < 2 ^ 31 ->
  exists ok txn' size, ndb_write_new_blocks bolt11_decode_minimal scratch nm 0 key txn = Some (ok, txn') /\ env_ok txn' /\
    (forall db, db <> NDB_DB_NOTE_BLOCKS -> txn' db = txn db) /\ 0 <= size /\
    (ok = false -> txn' = txn /\ zlen scratch <= off_blocks + size + padding 3 (off_blocks + size)) /\
    (ok = true -> exists row, note_table (txn' NDB_DB_NOTE_BLOCKS) (put_row key row rows) /\ row_of bolt11_decode_minimal nm a n size (zlen scratch) row).
Proof using decoder_ok Po Env Tab.
  intros Hk Ha Hn Ha0 Hn0 Hz Hs. pose proof (load8_Some_range _ _ _ Hz) as Han.
  destruct (parse_note_run nm scratch a n Ha0 Hn0 ltac:(lia) Hz Hs) as (ok & s & size & E & Hl & Hsz & Ls & Hf & Ht & Hbs).
  assert (Ei : i32 (zlen scratch) = zlen scratch /\ i32 n = n) by (unfold i32, off_blocks in *; split; rewrite Z.mod_small by lia; lia).
  destruct Ei as [Ei1 Ei2]. assert (Hpad : 0 <= padding 3 (off_blocks + size) < 8) by (apply Z.mod_pos_bound; lia).
  unfold ndb_write_new_blocks. rewrite (run_lift _ n) by done. rewrite (run_lift _ a) by done.
  rewrite Ei1, Ei2, (run_lift _ (ok, nm ++ s)) by done. destruct ok.
  - destruct (Ht eq_refl) as [Lt Hle]. set (total := off_blocks + size + padding 3 (off_blocks + size)) in *.
    destruct (write_blocks_run key nm s total Hk ltac:(unfold off_blocks in *; lia) ltac:(unfold is_u32, total, off_blocks in *; lia) ltac:(lia)
      (padded_multiple (off_blocks + size) ltac:(unfold off_blocks in *; lia)) Lt) as (s' & row & rest & d & Ew & Env' & Tab' & Es & Hr & Hz' & Hx).
    rewrite (run_bind _ _ _ _ _ Ew). exists true, (upd txn NDB_DB_NOTE_BLOCKS d), size. split; [done |]. split; [done |].
    split; [intros db Hdb; by rewrite upd_other |]. split; [lia |]. split; [done |]. intros _. exists row. rewrite upd_same. split; [done |].
    apply (row_of_run _ nm s' row rest); auto; [lia | rewrite Hr; unfold is_u32, total, off_blocks in *; lia | | |].
    + rewrite Hr, Hx; [exact Lt | unfold off_flags, off_total_size; lia].
    + rewrite Hx; [exact Ls | unfold off_flags, off_blocks_size; lia].
    + intros Hroom. destruct (Hbs Hroom) as (bs & S & Ez & Lb). exists bs. split; [done |]. split; [done |].
      rewrite Hx; [exact Lb | unfold off_flags, off_blocks; lia].
  - exists false, txn, size. split; [done |]. split; [done |]. split; [done |]. split; [lia |]. split; [| done]. auto.
Qed.


(** *** On demand *)

Lemma loadn_right x y b n : 0 <= b -> loadn (x ++ y) (zlen x + b) n = loadn y b n.
Proof using Type.
  intros Hb. pose proof (zlen_nonneg x). unfold loadn. rewrite zlen_app.
  destruct (Z.leb_spec 0 (zlen x + b)), (Z.leb_spec 0 b), (Z.leb_spec 0 n); cbn [andb]; try lia; [| done].
  destruct (Z.leb_spec (zlen x + b + n) (zlen x + zlen y)), (Z.leb_spec (b + n) (zlen y)); try lia; [| done].
  do 2 f_equal. rewrite drop_app_ge by (unfold zlen; lia). f_equal. unfold zlen. lia.
Qed.

(** The copy is written as if it were behind the note. *)
Lemma write_copy_run key nm copy : is_u64 key -> is_u32 (zlen copy) -> 2 <= zlen copy -> zlen copy mod 8 = 0 ->
  loadn (nm ++ copy) (zlen nm + off_total_size) 4 = Some (le_bytes 4 (zlen copy)) ->
  exists row d, write_copy key copy txn = Some (tt, upd txn NDB_DB_NOTE_BLOCKS d) /\ env_ok (upd txn NDB_DB_NOTE_BLOCKS d) /\
    note_table d (put_row key row rows) /\ zlen row = zlen copy /\
    forall b n, off_flags < b -> loadn (nm ++ row) (zlen nm + b) n = loadn (nm ++ copy) (zlen nm + b) n.
Proof using Po Env Tab.
  intros Hk Hu H2 H8 Hl. rewrite loadn_right in Hl by done.
  destruct (write_blocks_run key [] copy (zlen copy) Hk H2 Hu ltac:(lia) H8 Hl) as (s' & row & rest & d & E & Env' & Tab' & Es & Hr & Hz & Hx).
  assert (rest = []) as ->. { subst s'. rewrite zlen_app in Hz. destruct rest; [done |]. rewrite zlen_cons in Hz. pose proof (zlen_nonneg rest). lia. }
  rewrite app_nil_r in Es. subst s'. exists row, d. split; [exact E |]. split; [done |]. split; [done |]. split; [done |].
  intros b n Hb. unfold off_flags in *. rewrite !loadn_right by lia. exact (Hx b n Hb).
Qed.

Lemma owned_run nm s : 2 <= zlen s ->
  exists s', set_owned (nm ++ s) (zlen nm) = Some (nm ++ s') /\ zlen s' = zlen s /\
    (forall a n, zlen nm + off_flags < a -> loadn (nm ++ s') a n = loadn (nm ++ s) a n) /\
    exists f, load8 (nm ++ s') (zlen nm + off_flags) = Some f /\ (Z.land f NDB_BLOCK_FLAG_OWNED =? 0) = false.
Proof using Type.
  intros Hs. destruct (flag_run (fun f => Z.lor f NDB_BLOCK_FLAG_OWNED) nm s Hs) as (s' & E & Hz & Hx). exists s'.
  split; [exact E |]. split; [done |]. split; [intros a n Hn; apply Hx; lia |].
  destruct (load8 (nm ++ s) (zlen nm + off_flags)) as [f |] eqn:Ef; [| discriminate E]. cbn [mbind option_bind] in E.
  exists (Z.lor f NDB_BLOCK_FLAG_OWNED). rewrite (load8_storen _ _ _ _ _ E). change (zlen [_]) with 1.
  destruct (Z.leb_spec (zlen nm + off_flags) (zlen nm + off_flags)), (Z.ltb_spec (zlen nm + off_flags) (zlen nm + off_flags + 1)); try lia.
  cbn [andb]. rewrite Z.sub_diag. split; [done |]. apply Z.eqb_neq. intros Hbit. apply (f_equal (fun z => Z.testbit z 0)) in Hbit.
  rewrite Z.land_spec, Z.lor_spec, Z.bits_0 in Hbit. unfold NDB_BLOCK_FLAG_OWNED in Hbit. change (Z.testbit 1 0) with true in Hbit.
  by rewrite orb_true_r in Hbit.
Qed.

Lemma get_blocks_run buffer nm key a n : is_u64 key -> ndb_lookup_by_key txn key NDB_DB_NOTE_BLOCKS = None -> ndb_get_note_by_key txn key = Some nm ->
  ndb_note_content nm 0 = Some a -> ndb_note_content_length nm 0 = Some n -> 0 <= a -> 0 <= n < INT32_MAX -> load8 nm (a + n) = Some 0 ->
  zlen buffer = blocks_buffer_size ->
  exists r size, ndb_get_blocks_by_key bolt11_decode_minimal buffer txn key = Some r /\ 0 <= size /\
    match r with
    | None => blocks_buffer_size <= off_blocks + size + padding 3 (off_blocks + size)
    | Some (NewBlocks nm' m copy) => nm' = nm /\ exists row d, write_copy key copy txn = Some (tt, upd txn NDB_DB_NOTE_BLOCKS d) /\
        env_ok (upd txn NDB_DB_NOTE_BLOCKS d) /\ note_table d (put_row key row rows) /\ row_of bolt11_decode_minimal nm a n size blocks_buffer_size row
    | Some (StoredBlocks _) => False
    end.
Proof using decoder_ok Po Env Tab.
  intros Hk Hnone Hnote Ha Hn Ha0 Hn0 Hz Hbuf. pose proof (load8_Some_range _ _ _ Hz) as Han.
  assert (Hsize : off_blocks <= zlen buffer < 2 ^ 31) by (rewrite Hbuf; change blocks_buffer_size with 524288; unfold off_blocks; lia).
  unfold INT32_MAX in Hn0. destruct (parse_note_run nm buffer a n Ha0 ltac:(lia) ltac:(lia) Hz Hsize) as (ok & s & size & E & Hl & Hsz & Ls & Hf & Ht & Hbs).
  assert (Hpad : 0 <= padding 3 (off_blocks + size) < 8) by (apply Z.mod_pos_bound; lia).
  unfold ndb_get_blocks_by_key. rewrite Hnone, Hnote. unfold ndb_note_to_blocks. rewrite Ha, obind, Hn, obind. unfold INT32_MAX.
  destruct (Z.leb_spec (2 ^ 31 - 1) n); [lia |]. assert (Ei : i32 n = n) by (unfold i32; rewrite Z.mod_small by lia; lia). rewrite Ei, <- Hbuf, E, obind. cbn [fst snd].
  destruct ok; [| exists None, size; split; [done |]; split; [lia |]; by apply Hf].
  destruct (Ht eq_refl) as [Lt Hle]. set (total := off_blocks + size + padding 3 (off_blocks + size)) in *.
  destruct (owned_run nm s ltac:(unfold off_blocks in *; lia)) as (s1 & -> & Hz1 & Hx1 & f & Ef & Hown). rewrite !obind.
  assert (Hu : is_u32 total) by (unfold is_u32, total, off_blocks in *; lia).
  destruct (blocks_bytes_run nm s1 total Hu ltac:(lia)) as (copy & rest & Es & Hr & Eb).
  { rewrite Hx1; [exact Lt | unfold off_flags, off_total_size; lia]. }
  rewrite Eb, obind, Ef, obind, Hown. exists (Some (NewBlocks nm (nm ++ s1) copy)), size. split; [done |]. split; [lia |]. split; [done |].
  assert (Hcopy : forall b k, off_flags < b -> b + k <= total -> loadn (nm ++ copy) (zlen nm + b) k = loadn (nm ++ s) (zlen nm + b) k).
  { intros b k Hb Hbk. rewrite <- Hx1 by lia. rewrite Es, app_assoc. symmetry. apply loadn_left. rewrite zlen_app. lia. }
  destruct (write_copy_run key nm copy Hk ltac:(by rewrite Hr) ltac:(unfold off_blocks in *; lia)) as (row & d & Ew & Env' & Tab' & Hrow & Hx2).
  { rewrite Hr. apply padded_multiple. unfold off_blocks in *. lia. }
  { rewrite Hr, Hcopy; [exact Lt | unfold off_flags, off_total_size; lia | unfold off_total_size, off_blocks in *; lia]. }
  exists row, d. split; [done |]. split; [done |]. split; [done |].
  assert (Hall : forall b k, off_flags < b -> b + k <= total -> loadn (nm ++ row) (zlen nm + b) k = loadn (nm ++ s) (zlen nm + b) k).
  { intros b k Hb Hbk. rewrite Hx2 by done. by apply Hcopy. }
  apply (row_of_run _ nm row row []); auto; [lia | lia | by rewrite Hrow, Hr | by rewrite app_nil_r | lia | | |].
  - rewrite Hall; [by rewrite Hrow, Hr | unfold off_flags, off_total_size; lia | unfold off_total_size, off_blocks in *; lia].
  - rewrite Hall; [exact Ls | unfold off_flags, off_blocks_size; lia | unfold off_blocks_size, off_blocks in *; lia].
  - intros Hroom. destruct (Hbs Hroom) as (bs & S & Ez & Lb). exists bs. split; [done |]. split; [done |].
    rewrite Hall; [exact Lb | unfold off_flags, off_blocks; lia | unfold off_blocks in *; lia].
Qed.

End writing.

(** *** The key of a note and its row *)

Section rows.
Context {D C : Type} `{!Lmdb D C} `{!LmdbPut D C}.

Lemma put_row_found (d : D) rows k v : StronglySorted (fun p q => fst p < fst q) rows -> is_u64 k -> note_table d (put_row k v rows) ->
  mdb_get d (le_bytes 8 k) = Some v.
Proof using Type. intros S Hk T. apply (nt_get _ _ k v T Hk). rewrite put_row_in by done. by left. Qed.


Lemma write_new_blocks_u64 bolt scratch nm note key : ndb_write_new_blocks (D := D) bolt scratch nm note key = ndb_write_new_blocks bolt scratch nm note (u64 key).
Proof using Type. unfold ndb_write_new_blocks, ndb_write_blocks. by rewrite le_bytes_u64. Qed.

(** For the writer of notes, the block writer leaves the other tables alone. *)
Lemma write_new_blocks_benign bolt (inv : D -> Prop) scratch nm a n key : (forall s b, bolt s = Some b -> decoded_ok b) -> puts_ok D ->
  ndb_note_content nm 0 = Some a -> ndb_note_content_length nm 0 = Some n -> 0 <= a -> 0 <= n < 2 ^ 31 -> load8 nm (a + n) = Some 0 ->
  off_blocks <= zlen scratch < 2 ^ 31 ->
  benign (fun meta blocks => inv meta /\ exists rows, note_table blocks rows) (ndb_write_new_blocks bolt scratch nm 0 key).
Proof using Type.
  intros Hb Po Ha Hn Ha0 Hn0 Hz Hs txn (Env & Hi & rows & Tab). rewrite write_new_blocks_u64.
  destruct (write_new_blocks_run bolt Hb Po txn rows Env Tab scratch nm (u64 key) a n (u64_range key) Ha Hn Ha0 Hn0 Hz Hs)
    as (ok & txn' & size & E & Env' & Hother & _ & Hf & Ht).
  exists ok, txn'. split; [done |]. split; [| intros db Hdb; apply Hother; by intros ->]. split; [done |].
  rewrite Hother by done. split; [done |]. destruct ok; [| destruct (Hf eq_refl) as [-> _]; eauto].
  destruct (Ht eq_refl) as (row & T & _). eauto.
Qed.
End rows.

(** * Theorems *)




(** The blocks of a note without a row are generated behind the note; when the
    writer has stored its copy, they are found. *)
Theorem generated_blocks_found {D C} `{!Lmdb D C} `{!LmdbPut D C} (bolt11_decode_minimal : list Z -> option bolt11)
    (txn : ndb_txn D) (rows : list (Z * list Z)) (buffer other nm m : mem) (copy : list Z) (key a n : Z)
    (decoder_ok : forall s b, bolt11_decode_minimal s = Some b -> decoded_ok b) (Po : puts_ok D)
    (Env : env_ok txn) (Tab : note_table (txn NDB_DB_NOTE_BLOCKS) rows) (Hk : is_u64 key)
    (Hnone : ndb_lookup_by_key txn key NDB_DB_NOTE_BLOCKS = None) (Hnote : ndb_get_note_by_key txn key = Some nm)
    (Ha : ndb_note_content nm 0 = Some a) (Hn : ndb_note_content_length nm 0 = Some n) (Ha0 : 0 <= a) (Hn0 : 0 <= n < INT32_MAX)
    (Hz : load8 nm (a + n) = Some 0) (Hbuf : zlen buffer = blocks_buffer_size)
    (Hget : ndb_get_blocks_by_key bolt11_decode_minimal buffer txn key = Some (Some (NewBlocks nm m copy))) :
  exists txn' row size, write_copy key copy txn = Some (tt, txn') /\ row_of bolt11_decode_minimal nm a n size blocks_buffer_size row /\
    ndb_get_blocks_by_key bolt11_decode_minimal other txn' key = Some (Some (StoredBlocks row)).
Proof.
  destruct (get_blocks_run _ decoder_ok Po txn rows Env Tab buffer nm key a n Hk Hnone Hnote Ha Hn Ha0 Hn0 Hz Hbuf)
    as (r & size & E & _ & H). rewrite Hget in E. injection E as <-. destruct H as (_ & row & d & Ew & _ & T & Hr).
  eexists _, row, size. split; [exact Ew |]. split; [exact Hr |]. unfold ndb_get_blocks_by_key, ndb_lookup_by_key. rewrite upd_same.
  by rewrite (put_row_found d rows key row (nt_sorted _ _ Tab) Hk T).
Qed.
